(* ===== verification/_CoqProject ===== *)
-Q . S2P
Prelude.v
Words.v
Bytes.v
Selection.v
Vector.v
Kernels.v
Int4.v
Hash.v
Spill.v
SpillBlocks.v
SpillSet.v
SpillRun.v
SpillRead.v
SpillLoop.v
SpillProps.v
Bitmaps.v
Batch.v
Columns.v
Registry.v
Bridge.v
BridgeInv.v
BridgeOps.v
BridgeProps.v
Builder.v
Plan.v
Expr.v
ExprProps.v
ExprEval.v
ExprSpec.v
ExprContract.v
JoinStore.v
JoinStoreProps.v
JoinDirectory.v
JoinBuild.v
JoinBuildProps.v
JoinProbe.v
JoinProbeProps.v
JoinQualProps.v
JoinProps.v
JoinSpill.v
JoinSpillProps.v
JoinCompact.v
JoinPass.v
JoinFiles.v
JoinChunk.v
JoinPairs.v
JoinTurn.v
JoinFetch.v
JoinPassProps.v
Aggregate.v
AggProps.v
AggGroup.v
AggGroupProps.v
AggInput.v
AggSpillProps.v
AggGrouped.v
Compressed.v
CompressedColumns.v
CompressedBuild.v
CompressedTable.v
CompressedProps.v
CompressedScan.v
CompressedSource.v
CompressedNext.v
CompressedWalk.v
CompressedLoad.v
CompressedRun.v
CompressedDeliver.v
ParallelHash.v
ParallelChunk.v
ParallelShared.v
ParallelCollect.v
ParallelInput.v
ParallelSetup.v
ParallelLinks.v
ParallelBuild.v
ParallelProbe.v
ParallelJoin.v
