(* ===== verification/Prelude.v ===== *)
(** * pg_batch, verified: the root of the development

    pg_batch executes PostgreSQL queries a batch of rows at a time.  A batch is
    a set of physical rows, a selection over them, and an operation table
    through which its source serves columns.  Sources publish batches on
    bindings attached to tuple table slots; consumers read columns, remove rows
    from the selection and hand the batch on.  The kernels work on whole
    selection words of int4 columns; expressions compile to chains of kernels;
    the aggregate and join nodes write what does not fit in memory to spill
    sets.

    ** Layout

    Every definition translates code of one source file, under the name the
    code has.  [Prelude] (this file) holds what all files share: outcomes of C
    code, arrays, loops, state that survives errors, and tactics.

    - [Words], [Bytes]: machine words and bit scans ([port/pg_bitutils.h]);
      little-endian images of arrays.
    - [Selection]: row sets ([include/pg_batch/batch.h], [runtime.h]).
    - [Vector]: views of int4 columns ([include/pg_batch/vector.h]) and the
      abstract column [cell] they implement.
    - [Kernels]: the filter, scalar and SIMD ([kernels/int4.c],
      [kernels/int4_simd.c]); [Int4]: arithmetic and reductions; [Hash]: the
      hash kernel ([kernels/int4_hash.c]).
    - [Spill] (the model of [spill/spill.c], private sets), [SpillBlocks],
      [SpillSet], [SpillRun], [SpillRead] (blocks, the invariant of a set, the
      writing and the reading phase), [SpillProps] (what a run guarantees).
    - [Bitmaps]: column sets ([nodes/bitmapset.h]).  [Batch]: batches, layouts
      and ABI checks ([abi.h], [layout.h], [batch.h]).
    - [Registry]: sources and nodes by name; [Bridge]: bindings, requests,
      publishing ([bridge/bridge.c]); [BridgeInv], [BridgeOps], [BridgeProps]:
      its invariant, every call's effect on it, and the properties.
    - [Columns]: column access and the interface cache ([runtime/adapter.c],
      [kernels/vector.c], [runtime.h]).
    - [Builder]: the batch builder ([runtime/builder.c]).
    - [Plan]: plan data ([runtime/plan.c]).
    - [Expr] (the model of [expr/expr.c]), [ExprProps] (the compiled chain),
      [ExprEval] (buffers and steps), [ExprSpec] (evaluation), [ExprContract]
      (what consumers get).
    - The hash join ([nodes/hash_join.c], [nodes/hash_join_spill.c]):
      [JoinStore], [JoinStoreProps] (the columnar row store), [JoinDirectory]
      (buckets, chains, keys and their hashes), [JoinBuild], [JoinBuildProps]
      (hashing and appending the build side), [JoinProbe], [JoinProbeProps],
      [JoinQualProps] (probe windows, rounds, join conditions), [JoinProps]
      (the join in memory), [JoinSpill], [JoinSpillProps], [JoinCompact]
      (leaving memory: Bloom filter, eviction, compaction), [JoinPass] (the
      model of the pass over the spilled partitions), [JoinFiles] (files as
      lists of blocks, and splitting them), [JoinChunk] (loading build rows),
      [JoinPairs] (what has to be presented), [JoinTurn], [JoinFetch] (the
      state of the pass and its moves), [JoinPassProps] (its output).
    - [SpillLoop]: the loop over the blocks of a partition, with a rule for its
      clients.  The aggregate ([nodes/aggregate.c]): [Aggregate], [AggProps]
      (planning, aggregation without groups), [AggGroup] (grouping and
      spilling), [AggGroupProps] (entries and the group table), [AggInput]
      (the input phase), [AggSpillProps] (spilled partitions), [AggGrouped]
      (the queue of partitions and the whole execution).
    - Compressed snapshots ([examples/compressed_tam/compressed.c]):
      [Compressed] (the model), [CompressedColumns], [CompressedBuild],
      [CompressedTable] (columns, appending, storage groups and their
      statistics), [CompressedProps] (what a snapshot promises).  Scans of them
      (same file): [CompressedScan] (reading columns), [CompressedSource] (the
      instance of [BatchSource]), [CompressedNext] (the scan over the bridge,
      columns and expressions), [CompressedWalk] (what it should return),
      [CompressedLoad], [CompressedRun], [CompressedDeliver] (that it does).
    - The parallel hash join ([nodes/parallel_hash_join.c]): [ParallelHash]
      (the model: chunks, the shared state, one step of a participant),
      [ParallelChunk] (layout and filling of a chunk), [ParallelShared]
      (ownership of the shared memory), [ParallelCollect], [ParallelInput]
      (collecting, for every interleaving), [ParallelSetup] (directory and
      buckets), [ParallelLinks] (chains grown by compare and exchange, without
      addresses), [ParallelBuild] (the build steps implement them),
      [ParallelProbe] (every interleaving of builders, and lookups),
      [ParallelJoin] (what the shared table promises).

    ** Outcomes and state

    [res] separates a returned value, a PostgreSQL error and undefined
    behaviour (out-of-bounds accesses, signed overflow, failed assertions,
    dangling pointers).  A theorem that concludes with [Ok] or [Raise], or
    refutes [Undefined], therefore includes memory safety.  Where mutable state
    outlives an error the model is a state monad [ST] that returns the state of
    failed calls too.  Integers keep their width: [to_s32], [u64_add] and the
    like write the wrap-around out.

    ** What belongs to others

    Code of PostgreSQL is never defined here.  A class names the calls the
    sources make and the documented facts they rely on, and a concrete
    instance shows the facts can hold: [PgCore] (bit scans' portable
    definitions, [murmurhash32], [hash_combine]), [ReversibleHash] (the hash
    mixers lose nothing), [LogicalTapes], [DynaHash], [Bitmapsets],
    [Datums] ([datumCopy]), [PlanNodes] ([copyObject]), [PgExecutor] with
    [ScalarExecutor] (expression trees and their scalar evaluation).  A batch's
    operation table is code of its source: [SourceCalls] is the calls through
    it and [BatchSource] what a source promises; [Builder] discharges it for
    the batches it builds and [CompressedSource] for those of compressed scans.
    [DsaArea] is the allocator of dynamic shared memory: an address it returns
    is not in use and not the invalid one.  A barrier separates the phases of
    the parallel join, so that a phase starts from the state in which all
    participants have finished the one before; within a phase every atomic
    access is one step and steps interleave in any order (sequential
    consistency), except that one turn of [append_chunk_rows], which tests the
    spill flag and adds to the shared byte count, is one step.

    ** What the theorems show

    Kernels: equivalence with a per-row specification for every layout and
    instruction set, exact arithmetic with SQL's errors, no overflow of
    partial sums.  Selections: iteration visits exactly the selected rows, in
    order, and ends.  Spilling: what is read back is what was written, in
    order, under any memory limit; whatever bytes a tape holds, reading a block
    is memory safe and refuses bad headers and short blocks; the memory bound.
    Bridge: an invariant kept by every call, whichever of its allocations fail,
    under the client contract [allowed]; freshness of generations; stale row
    views never select; sealed requests are final.  [attach_out_of_memory] shows
    a flaw: an attachment that runs out of memory leaves a slot entry that
    outlives its binding.  Columns: the interface cache is
    invisible and reading a column is right for every well-behaved source.
    Builder and plan data: round trips, and refusal of misuse.  Expressions:
    what compiles, and agreement with the scalar executor row by row.
    Hash join: in memory it returns the pairs of the reference join, in output
    batches, and ends; the Bloom filter has no false negatives; eviction moves
    whole partitions to the spill set and keeps the others; shrinking ends;
    over the spilled partitions the join publishes exactly the joined rows of
    the two sides, however they are chunked and split, and ends.
    One theorem of [JoinCompact] shows a flaw of the compaction: validity bits
    of dropped rows stay behind.  Aggregate: without groups SQL's aggregates of
    all selected rows; with groups one row per distinct key, whatever was
    spilled or split on the way, also after a rescan.
    Compressed snapshots: every stored value reads back as it was appended,
    groups that pruning skips hold no wanted row, snapshots in use survive
    replacement and end with their last release; a scan delivers rows of the
    table in order, each at most once and every wanted one among them.  The parallel join: for every interleaving
    of any number of participants the shared table answers lookups with exactly
    the build rows of the keys, and knows whether keys repeat; every execution
    is finite and no participant can get stuck; chunks, directory and buckets
    stay within the combined budget.  [late_attach_unmapped] shows a flaw: a
    participant that first attaches while others link the rows of a table that
    did not spill, or probe it, dereferences NULL.

    ** Bounds and fuel

    Batches have 1 to 2^31 - 1 rows.  Loops over words and rows are folds over
    their range.  Loops that run until a condition take fuel:
    [selection_next_loop] one step per word, [while_bits] one per bit,
    [evict_writer] one per partition, [bms_members] and [materialize_loop] one
    per member; the theorems show the fuel given is enough, or hold for every
    fuel beyond a bound.  A build side has at most 2^26 rows ([max_build_rows]),
    what keeps its doubling capacity an [uint32] and its arrays allocatable; an
    aggregate sees fewer than 2^32 rows ([max_agg_rows]), below which no int8
    sum of int4 values overflows.  Blocks of a partition are at most its rows;
    a spilled row of an aggregate is read once per split and once more, at most
    seven times, which bounds the loop over the queue of partitions.  A fetch
    of the spilling join takes at most two turns, loading a chunk one per row,
    going to the next partition one per partition; draining it ends because
    every fetch takes a pair of rows off what is left.  A
    compressed snapshot has at most 1600 columns and 2^26 batches
    ([max_batches]), which keeps their numbers in an int; a turn of its scan
    loads a row or leaves a storage group, so rows plus groups bound the turns.
    The parallel build has at most 2^20 participants and a combined budget
    below 2^36 bytes, with which row numbers fit an uint32; a chain has at most
    as many links as there are build rows, indexing takes one step per chunk,
    and the partition count doubles at most nine times.

    ** Not modelled

    Shared spill sets, and with them the parallel join once it has run out of
    memory (its theorems speak of executions in which nobody spilled);
    expression projections, inputs, outputs and unary nodes; the scan, filter
    and project nodes and their slots; how the spilling join routes input rows
    to partitions and buffers resident probe rows; how a compressed scan is
    built from plan data; EXPLAIN output;
    the planner hooks; the other example modules.  Memory contexts appear only where
    resetting one has an effect on a modelled structure.  That an allocation
    fails is modelled in the bridge; elsewhere only the allocator's size limit
    is, and not in [pg_batch_spill_create], whose arrays have one element per
    partition.  Three sums the sources compute in int are unbounded here and
    differ beyond what a batch can hold: [nrows + 7] of the arithmetic kernels
    and [nrows + 63] of [publish_batch] for more than 2^31 - 64 rows, and
    [previous + 1] of [pg_batch_selection_next] after row 2^31 - 1.  Buffers that views
    borrow are copied into the view when it is made. *)

From Stdlib Require Export ZArith Lia Bool.
From stdpp Require Export base tactics list list_numbers numbers option strings sets gmap.

#[global] Open Scope Z_scope.

(** ** Outcomes of C code

    A call either returns, leaves through PostgreSQL's [ereport(ERROR, ...)],
    or does something C gives no meaning to (an out-of-bounds access, a
    signed overflow, a violated [Assert]).  The three are kept apart so that
    theorems can say which error is raised and that undefined behaviour never
    happens. *)

(** The errors the sources raise, by SQLSTATE; [elog] errors carry the
    message they are raised with. *)
Inductive pg_error : Type :=
| DivisionByZero
| NumericValueOutOfRange
| FeatureNotSupported
| DuplicateObject
| ProgramLimitExceeded
| ObjectInUse
| InvalidParameterValue
| ObjectNotInPrerequisiteState
| Elog (msg : string).

#[global] Instance pg_error_eq_dec : EqDecision pg_error.
Proof. solve_decision. Defined.

Inductive res (A : Type) : Type :=
| Ok (a : A)
| Raise (e : pg_error)
| Undefined.

Arguments Ok {A} a.
Arguments Raise {A} e.
Arguments Undefined {A}.

#[global] Instance res_ret : MRet res := λ A a, Ok a.
#[global] Instance res_bind : MBind res := λ A B f m,
  match m with
  | Ok a => f a
  | Raise e => Raise e
  | Undefined => Undefined
  end.

#[global] Instance res_eq_dec {A} `{EqDecision A} : EqDecision (res A).
Proof. solve_decision. Defined.

Definition is_ok {A} (m : res A) : bool :=
  match m with Ok _ => true | _ => false end.

(** [Assert(b)]: what happens after a violated assertion is not modelled. *)
Definition assert_ (b : bool) : res unit := if b then Ok tt else Undefined.

(** [if (b) elog(ERROR, ...)] *)
Definition raise_if (b : bool) (e : pg_error) : res unit :=
  if b then Raise e else Ok tt.

Lemma bind_Ok {A B} (a : A) (f : A → res B) : (Ok a ≫= f) = f a.
Proof. done. Qed.

Lemma bind_assoc {A B C} (m : res A) (f : A → res B) (g : B → res C) :
  ((m ≫= f) ≫= g) = (m ≫= λ a, f a ≫= g).
Proof. by destruct m. Qed.

Lemma bind_ok_inv {A B} (m : res A) (f : A → res B) b :
  (m ≫= f) = Ok b → ∃ a, m = Ok a ∧ f a = Ok b.
Proof. destruct m; simpl; intros; [eauto|discriminate..]. Qed.

(** ** C arrays

    [aref] reads and [aset] writes one element; outside the array both are
    undefined.  Indices are C integers. *)
Definition aref {A} (l : list A) (i : Z) : res A :=
  if i <? 0 then Undefined
  else match l !! Z.to_nat i with Some a => Ok a | None => Undefined end.

Definition aset {A} (l : list A) (i : Z) (a : A) : res (list A) :=
  if (i <? 0) || (Z.of_nat (length l) <=? i) then Undefined
  else Ok (<[Z.to_nat i := a]> l).

Abbreviation zlength l := (Z.of_nat (length l)).

(** Total reads, for specifications. *)
Definition zget {A} (d : A) (l : list A) (i : Z) : A := default d (l !! Z.to_nat i).

Lemma aref_ok {A} (d : A) l i : 0 ≤ i < zlength l → aref l i = Ok (zget d l i).
Proof.
  intros Hi. unfold aref, zget. destruct (Z.ltb_spec i 0); [lia|].
  destruct (lookup_lt_is_Some_2 l (Z.to_nat i)) as [x ->]; [lia|done].
Qed.

Lemma aref_lookup {A} (l : list A) p a :
  0 ≤ p → l !! Z.to_nat p = Some a → aref l p = Ok a.
Proof. intros Hp Hl. unfold aref. destruct (Z.ltb_spec p 0); [lia|]. by rewrite Hl. Qed.

Lemma aset_ok {A} (l : list A) i a :
  0 ≤ i < zlength l → aset l i a = Ok (<[Z.to_nat i := a]> l).
Proof.
  intros Hi. unfold aset.
  destruct (Z.ltb_spec i 0), (Z.leb_spec (zlength l) i); simpl; try lia; done.
Qed.

Lemma zget_insert_eq {A} (d : A) l i a :
  0 ≤ i < zlength l → zget d (<[Z.to_nat i := a]> l) i = a.
Proof. intros. unfold zget. rewrite list_lookup_insert_eq; [done|lia]. Qed.

Lemma zget_insert_ne {A} (d : A) l i j a :
  0 ≤ i → 0 ≤ j → i ≠ j → zget d (<[Z.to_nat i := a]> l) j = zget d l j.
Proof. intros. unfold zget. rewrite list_lookup_insert_ne; [done|lia]. Qed.

Lemma zget_insert {A} (d : A) l i j a :
  0 ≤ i < zlength l → 0 ≤ j →
  zget d (<[Z.to_nat i := a]> l) j = if decide (i = j) then a else zget d l j.
Proof.
  intros. case_decide; subst; [apply zget_insert_eq|apply zget_insert_ne]; lia.
Qed.

Lemma zget_Forall {A} (P : A → Prop) d l i :
  Forall P l → 0 ≤ i < zlength l → P (zget d l i).
Proof.
  intros HF Hi. unfold zget.
  destruct (lookup_lt_is_Some_2 l (Z.to_nat i)) as [x Hx]; [lia|].
  rewrite Hx. simpl. eapply Forall_lookup_1; eauto.
Qed.

Lemma zget_seqZ {A} (d : A) l : zget d l <$> seqZ 0 (zlength l) = l.
Proof.
  apply list_eq. intros i. rewrite list_lookup_fmap. destruct (decide (i < length l)%nat).
  - rewrite lookup_seqZ_lt, Z.add_0_l by lia. cbn. unfold zget. rewrite Nat2Z.id.
    by destruct (lookup_lt_is_Some_2 l i) as [x ->].
  - by rewrite (lookup_ge_None_2 l), (lookup_ge_None_2 (seqZ _ _)) by (rewrite ?length_seqZ; lia).
Qed.

Lemma zget_drop {A} (d : A) l off i :
  0 ≤ off → 0 ≤ i → zget d (drop (Z.to_nat off) l) i = zget d l (off + i).
Proof. intros. unfold zget. rewrite lookup_drop. do 2 f_equal. lia. Qed.

(** An element moved to the front, replaced or not. *)
Lemma insert_Permutation {A} (l : list A) i x y : l !! i = Some x → <[i := y]> l ≡ₚ y :: delete i l.
Proof.
  revert i. induction l as [|z l IH]; intros [|i] Hi; try done; cbn in *.
  rewrite (IH i Hi). by rewrite Permutation_swap.
Qed.

(** ** Counting loops

    [for (int i = 0; i < n; i++)] is [foldM] over [seqZ 0 n]; the accumulator
    is the state the body updates. *)
Fixpoint foldM {A B} (f : B → A → res A) (l : list B) (acc : A) : res A :=
  match l with
  | [] => Ok acc
  | x :: l' => acc' ← f x acc; foldM f l' acc'
  end.

Lemma foldM_app {A B} (f : B → A → res A) l1 l2 acc :
  foldM f (l1 ++ l2) acc = (acc' ← foldM f l1 acc; foldM f l2 acc').
Proof.
  revert acc. induction l1 as [|x l1 IH]; intros acc; simpl; [done|].
  destruct (f x acc); simpl; auto.
Qed.

Lemma foldM_ext {A B} (f g : B → A → res A) l acc :
  (∀ x a, x ∈ l → f x a = g x a) → foldM f l acc = foldM g l acc.
Proof.
  revert acc. induction l as [|x l IH]; intros acc H; simpl; [done|].
  rewrite H by set_solver. destruct (g x acc); simpl; auto.
  apply IH. intros. apply H. set_solver.
Qed.

Lemma foldM_pure {A B} (f : B → A → res A) (g : B → A → A) l acc :
  (∀ x a, x ∈ l → f x a = Ok (g x a)) →
  foldM f l acc = Ok (foldl (λ a x, g x a) acc l).
Proof.
  revert acc. induction l as [|x l IH]; intros acc H; simpl; [done|].
  rewrite H by set_solver. simpl. apply IH. intros. apply H. set_solver.
Qed.

Lemma foldM_fmap {A B C} (f : B → A → res A) (g : C → B) l acc :
  foldM f (g <$> l) acc = foldM (λ x, f (g x)) l acc.
Proof.
  revert acc. induction l as [|x l IH]; intros acc; simpl; [done|].
  destruct (f (g x) acc); simpl; auto.
Qed.

(** The invariant rule: [I pre acc] holds before each iteration for the prefix
    already visited; the loop then returns and [I] holds of the whole list. *)
Lemma foldM_inv {A B} (I : list B → A → Prop) (f : B → A → res A) l acc :
  I [] acc →
  (∀ pre x post a, l = pre ++ x :: post → I pre a →
     ∃ a', f x a = Ok a' ∧ I (pre ++ [x]) a') →
  ∃ a', foldM f l acc = Ok a' ∧ I l a'.
Proof.
  intros H0 Hstep.
  cut (∀ post pre a, l = pre ++ post → I pre a →
         ∃ a', foldM f post a = Ok a' ∧ I l a').
  { intros H. apply (H l []); done. }
  induction post as [|x post IH]; intros pre a Hl HI; simpl.
  - rewrite app_nil_r in Hl. subst. eauto.
  - destruct (Hstep pre x post a Hl HI) as (a1 & -> & HI1). simpl.
    apply (IH (pre ++ [x])); [by rewrite <- app_assoc|done].
Qed.

(** The same rule for a counting loop: the invariant speaks of the counter. *)
Lemma for_inv {A} (I : Z → A → Prop) (f : Z → A → res A) n acc :
  0 ≤ n → I 0 acc →
  (∀ i a, 0 ≤ i < n → I i a → ∃ a', f i a = Ok a' ∧ I (i + 1) a') →
  ∃ a', foldM f (seqZ 0 n) acc = Ok a' ∧ I n a'.
Proof.
  intros Hn H0 Hstep.
  destruct (foldM_inv (λ pre a, I (zlength pre) a) f (seqZ 0 n) acc) as (a' & E & HI).
  - done.
  - intros pre x post a Heq HI.
    assert (x = zlength pre) as ->.
    { assert (Hx : seqZ 0 n !! length pre = Some x).
      { rewrite Heq, lookup_app_r, Nat.sub_diag by lia. done. }
      apply lookup_seqZ in Hx. lia. }
    assert (zlength pre < n).
    { assert (Hlen := f_equal length Heq).
      rewrite length_seqZ, length_app in Hlen. simpl in Hlen. lia. }
    destruct (Hstep (zlength pre) a) as (a' & E & HI'); [lia|done|].
    exists a'. split; [done|]. rewrite length_app. simpl.
    by replace (Z.of_nat (length pre + 1)) with (zlength pre + 1) by lia.
  - exists a'. split; [done|]. rewrite length_seqZ in HI.
    by rewrite Z2Nat.id in HI.
Qed.

(** The same rule for a loop whose body may raise: [R] then holds. *)
Lemma for_cases {A} (I : Z → A → Prop) (f : Z → A → res A) n acc (R : Prop) :
  0 ≤ n → I 0 acc →
  (∀ i a, 0 ≤ i < n → I i a → (∃ a', f i a = Ok a' ∧ I (i + 1) a') ∨ ∃ e, f i a = Raise e ∧ R) →
  (∃ a', foldM f (seqZ 0 n) acc = Ok a' ∧ I n a') ∨ ∃ e, foldM f (seqZ 0 n) acc = Raise e ∧ R.
Proof.
  intros Hn H0 Hstep.
  cut (∀ m i a, i + Z.of_nat m = n → 0 ≤ i → I i a →
    (∃ a', foldM f (seqZ i (Z.of_nat m)) a = Ok a' ∧ I n a') ∨ ∃ e, foldM f (seqZ i (Z.of_nat m)) a = Raise e ∧ R).
  { intros Hcut. destruct (Hcut (Z.to_nat n) 0 acc) as [H|H]; [lia|lia|done| |]; rewrite Z2Nat.id in H by lia; [by left|by right]. }
  induction m as [|m IH]; intros i a Hm Hi HI.
  - left. exists a. split; [done|]. by replace n with i by lia.
  - rewrite seqZ_cons by lia. cbn [foldM].
    destruct (Hstep i a) as [(a' & -> & HI')|(e & -> & HR)]; [lia|done| |right; by exists e].
    replace (Z.pred (Z.of_nat (S m))) with (Z.of_nat m) by lia. replace (Z.succ i) with (i + 1) by lia. apply IH; [lia|lia|done].
Qed.

(** ** Safety

    [safely m P]: [m] has a meaning, and its result, if any, satisfies [P]. *)
Definition safely {A} (m : res A) (P : A → Prop) : Prop :=
  match m with Ok a => P a | Raise _ => True | Undefined => False end.

Lemma safely_bind {A B} (m : res A) (f : A → res B) (P : A → Prop) (Q : B → Prop) :
  safely m P → (∀ a, P a → safely (f a) Q) → safely (m ≫= f) Q.
Proof. destruct m; simpl; auto. Qed.

Lemma safely_mono {A} (m : res A) (P Q : A → Prop) : safely m P → (∀ a, P a → Q a) → safely m Q.
Proof. destruct m; simpl; auto. Qed.

Lemma safely_check {B} b e (f : unit → res B) (Q : B → Prop) :
  (b = false → safely (f tt) Q) → safely (raise_if b e ≫= f) Q.
Proof. destruct b; simpl; auto. Qed.

Lemma safely_for {A} (I : Z → A → Prop) (f : Z → A → res A) n acc :
  0 ≤ n → I 0 acc →
  (∀ i a, 0 ≤ i < n → I i a → safely (f i a) (I (i + 1))) →
  safely (foldM f (seqZ 0 n) acc) (I n).
Proof.
  intros Hn H0 Hstep.
  cut (∀ k i a, n = i + Z.of_nat k → 0 ≤ i → I i a → safely (foldM f (seqZ i (Z.of_nat k)) a) (I n)).
  { intros H. specialize (H (Z.to_nat n) 0 acc). rewrite Z2Nat.id in H by lia. apply H; (done || lia). }
  induction k as [|k IH]; intros i a Hi Hpos HI.
  - simpl. by replace n with i by lia.
  - rewrite seqZ_cons by lia. simpl. eapply safely_bind; [apply Hstep; [lia|done]|].
    intros a' HI'. replace (Z.pred (Z.of_nat (S k))) with (Z.of_nat k) by lia.
    apply IH; [lia|lia|done].
Qed.

(** ** State that survives errors

    For code whose mutable state outlives an [ereport]: a computation returns
    its outcome and the state it leaves, errors included. *)
Definition ST (S A : Type) : Type := S → res A * S.

#[global] Instance st_ret {S} : MRet (ST S) := λ A a s, (Ok a, s).
#[global] Instance st_bind {S} : MBind (ST S) := λ A B f m s,
  match m s with
  | (Ok a, s') => f a s'
  | (Raise e, s') => (Raise e, s')
  | (Undefined, s') => (Undefined, s')
  end.

Definition gets {S A} (f : S → A) : ST S A := λ s, (Ok (f s), s).
Definition modify {S} (f : S → S) : ST S unit := λ s, (Ok tt, f s).
Definition lift {S A} (m : res A) : ST S A := λ s, (m, s).
Definition error_if {S} (b : bool) (e : pg_error) : ST S unit := lift (raise_if b e).
(** Following a pointer. *)
Definition deref {S A} (o : option A) : ST S A :=
  lift (match o with Some a => Ok a | None => Undefined end).

(** [wp m Q s]: from state [s] the computation has a meaning, and [Q] holds of
    its outcome and of the state it leaves.  The rules peel one statement off a
    computation. *)
Definition wp {S A} (m : ST S A) (Q : res A → S → Prop) (s : S) : Prop :=
  (m s).1 ≠ Undefined ∧ Q (m s).1 (m s).2.

Section wp.
Context {S : Type}.
Implicit Types s : S.

Lemma wp_ret {A} (a : A) Q s : Q (Ok a) s → wp (mret a : ST S A) Q s.
Proof. by split. Qed.

Lemma wp_raise {A} e (Q : res A → S → Prop) s : Q (Raise e) s → wp (lift (Raise e)) Q s.
Proof. by split. Qed.

Lemma wp_bind {A B} (m : ST S A) (f : A → ST S B) Q s :
  wp m (λ r s, match r with Ok a => wp (f a) Q s | Raise e => Q (Raise e) s | Undefined => False end) s →
  wp (m ≫= f) Q s.
Proof.
  unfold wp, mbind, st_bind. destruct (m s) as [[a|e|] s']; simpl; intros [Hd HQ]; done.
Qed.

Lemma wp_assoc {A B C} (m : ST S A) (f : A → ST S B) (g : B → ST S C) Q s :
  wp ((m ≫= f) ≫= g) Q s → wp (m ≫= λ a, f a ≫= g) Q s.
Proof. unfold wp, mbind, st_bind. by destruct (m s) as [[a|e|] s']. Qed.

Lemma wp_gets {A B} (g : S → A) (f : A → ST S B) Q s : wp (f (g s)) Q s → wp (gets g ≫= f) Q s.
Proof. done. Qed.

Lemma wp_modify {B} (g : S → S) (f : unit → ST S B) Q s : wp (f tt) Q (g s) → wp (modify g ≫= f) Q s.
Proof. done. Qed.

Lemma wp_modify_end (g : S → S) Q s : Q (Ok tt) (g s) → wp (modify g) Q s.
Proof. by split. Qed.

Lemma wp_lift {A B} (m : res A) (f : A → ST S B) Q s :
  m ≠ Undefined → (∀ e, m = Raise e → Q (Raise e) s) → (∀ a, m = Ok a → wp (f a) Q s) →
  wp (lift m ≫= f) Q s.
Proof. destruct m; intros H1 H2 H3; [by apply H3|split; [done|by apply H2]|done]. Qed.

Lemma wp_error_if {B} b e (f : unit → ST S B) Q s :
  (b = true → Q (Raise e) s) → (b = false → wp (f tt) Q s) → wp (error_if b e ≫= f) Q s.
Proof. destruct b; intros H1 H2; [split; [done|by apply H1]|by apply H2]. Qed.

Lemma wp_deref {A B} (a : A) (f : A → ST S B) Q s : wp (f a) Q s → wp (deref (Some a) ≫= f) Q s.
Proof. done. Qed.

Lemma wp_mono {A} (m : ST S A) (Q Q' : res A → S → Prop) s :
  wp m Q s → (∀ r s', Q r s' → Q' r s') → wp m Q' s.
Proof. intros [H1 H2] HQ. split; auto. Qed.
End wp.

(** A scan that stops at the first index where [p] holds ([memchr], or a loop
    with an early [return true]). *)
Fixpoint search (p : Z → res bool) (n : nat) (i : Z) : res bool :=
  match n with
  | O => Ok false
  | S n => b ← p i; if (b : bool) then Ok true else search p n (i + 1)
  end.

Lemma search_ok p (q : Z → bool) n i :
  (∀ j, i ≤ j < i + Z.of_nat n → p j = Ok (q j)) →
  search p n i = Ok (existsb q (seqZ i (Z.of_nat n))).
Proof.
  revert i. induction n as [|n IH]; intros i Hp; [done|].
  rewrite seqZ_cons by lia. simpl. rewrite Hp by lia. simpl.
  destruct (q i); simpl; [done|]. rewrite IH by (intros; apply Hp; lia).
  by replace (Z.pred (Z.of_nat (S n))) with (Z.of_nat n) by lia.
Qed.

Lemma existsb_seqZ_false (q : Z → bool) i n :
  existsb q (seqZ i n) = false → ∀ j, i ≤ j < i + n → q j = false.
Proof.
  intros He j Hj. apply not_true_is_false. intros Hq.
  assert (existsb q (seqZ i n) = true) as Ht; [|congruence].
  apply existsb_exists. exists j. split; [|done].
  apply list_elem_of_In, elem_of_seqZ. done.
Qed.

Lemma length_omap_le {A B} (f : A → option B) (l : list A) :
  (length (omap f l) ≤ length l)%nat.
Proof. induction l as [|x l IH]; simpl; [done|]. destruct (f x); simpl; unfold omap in IH; lia. Qed.

(** The first index below [n] that passes a test. *)
Lemma first_index (p : Z → bool) n :
  (∃ i, 0 ≤ i < n ∧ p i = true) → ∃ i, 0 ≤ i < n ∧ p i = true ∧ ∀ j, 0 ≤ j < i → p j = false.
Proof.
  intros (m & [Hm Hlt] & Hp). assert (Hlow : ∀ k, 0 ≤ k →
    (∃ i, 0 ≤ i < k ∧ p i = true ∧ ∀ j, 0 ≤ j < i → p j = false) ∨ ∀ j, 0 ≤ j < k → p j = false).
  { refine (natlike_ind _ _ _); [right; lia|]. intros k Hk [(i & ? & ?)|IH]; [left; exists i; split; [lia|done]|].
    destruct (p k) eqn:E; [left; exists k; split; [lia|done]|right].
    intros j Hj. destruct (decide (j = k)) as [->|]; [done|apply IH; lia]. }
  destruct (Hlow n) as [|Hno]; [lia|done|]. rewrite Hno in Hp by lia. done.
Qed.

(** ** Tactics *)

(** Decompose a monadic computation known to return. *)
Ltac inv_ok :=
  repeat match goal with
  | H : (_ ≫= _) = Ok _ |- _ => apply bind_ok_inv in H as (? & ? & H)
  | H : Ok _ = Ok _ |- _ => injection H as H
  | H : Raise _ = Ok _ |- _ => discriminate
  | H : Undefined = Ok _ |- _ => discriminate
  | H : mret _ = Ok _ |- _ => unfold mret, res_ret in H
  end.

(** Split boolean tests from the code into the propositions they decide. *)
Ltac bool_prop :=
  repeat match goal with
  | H : (_ && _)%bool = true |- _ => apply andb_true_iff in H as [? ?]
  | H : (_ || _)%bool = false |- _ => apply orb_false_iff in H as [? ?]
  | H : negb _ = true |- _ => apply negb_true_iff in H
  | H : negb _ = false |- _ => apply negb_false_iff in H
  | H : (_ =? _) = true |- _ => apply Z.eqb_eq in H
  | H : (_ =? _) = false |- _ => apply Z.eqb_neq in H
  | H : (_ <? _) = true |- _ => apply Z.ltb_lt in H
  | H : (_ <? _) = false |- _ => apply Z.ltb_ge in H
  | H : (_ <=? _) = true |- _ => apply Z.leb_le in H
  | H : (_ <=? _) = false |- _ => apply Z.leb_gt in H
  end.

(** Linear arithmetic with division and remainder by constants. *)
Ltac zlia := Z.to_euclidean_division_equations; lia.
