(* ===== verification/Words.v ===== *)
(** * Machine words and the PostgreSQL primitives the sources call

    64-bit words and 32-bit integers as [Z] with their wrap-around, the bit
    loops every kernel is written with, and the class [PgCore] of PostgreSQL
    functions that live outside this repository ([port/pg_bitutils.h],
    [common/int.h], [common/hashfn.h]) with their documented behaviour. *)

From S2P Require Import Prelude.

(** ** Widths *)

Definition UINT64_MAX : Z := 2 ^ 64 - 1.
Definition is_u64 (w : Z) : Prop := 0 ≤ w < 2 ^ 64.
Definition is_u32 (w : Z) : Prop := 0 ≤ w < 2 ^ 32.
Definition is_s32 (v : Z) : Prop := - 2 ^ 31 ≤ v < 2 ^ 31.
Definition is_u8 (b : Z) : Prop := 0 ≤ b < 2 ^ 8.

#[global] Instance is_s32_dec v : Decision (is_s32 v).
Proof. unfold is_s32. apply _. Defined.
#[global] Instance is_u64_dec v : Decision (is_u64 v).
Proof. unfold is_u64. apply _. Defined.
#[global] Instance is_u32_dec v : Decision (is_u32 v).
Proof. unfold is_u32. apply _. Defined.

(** The value of the low 32 bits read as a signed integer: a C cast to
    [int32]. *)
Definition to_s32 (v : Z) : Z := (v + 2 ^ 31) mod 2 ^ 32 - 2 ^ 31.
(** A C cast to [uint32]. *)
Definition to_u32 (v : Z) : Z := v mod 2 ^ 32.
Definition in_s32 (v : Z) : bool := (- 2 ^ 31 <=? v) && (v <? 2 ^ 31).
Definition in_s64 (v : Z) : bool := (- 2 ^ 63 <=? v) && (v <? 2 ^ 63).

Lemma to_s32_id v : is_s32 v → to_s32 v = v.
Proof. unfold is_s32, to_s32. intros. rewrite Z.mod_small; lia. Qed.

Lemma to_s32_range v : is_s32 (to_s32 v).
Proof.
  unfold is_s32, to_s32. pose proof (Z.mod_pos_bound (v + 2 ^ 31) (2 ^ 32)). lia.
Qed.

Lemma in_s32_spec v : in_s32 v = true ↔ is_s32 v.
Proof. unfold in_s32, is_s32. rewrite andb_true_iff, Z.leb_le, Z.ltb_lt. done. Qed.

(** [int64] addition; signed overflow is undefined in C. *)
Definition s64_add (a b : Z) : res Z :=
  if in_s64 (a + b) then Ok (a + b) else Undefined.

(** [uint64] complement and left shift. *)
Definition not64 (w : Z) : Z := Z.lxor w UINT64_MAX.
Definition shl64 (w n : Z) : Z := Z.land (Z.shiftl w n) UINT64_MAX.
(** [UINT64CONST(1) << n] *)
Definition bit64 (n : Z) : Z := shl64 1 n.

(** PostgreSQL aligns allocations to 8 bytes. *)
Definition MAXALIGN (n : Z) : Z := Z.land (n + 7) (not64 7).

Lemma UINT64_MAX_ones : UINT64_MAX = Z.ones 64.
Proof. done. Qed.

(** ** Bit extensionality *)

Create Rewrite HintDb bits.
Create HintDb words discriminated.
#[export] Hint Rewrite Z.land_spec Z.lor_spec Z.lxor_spec Z.bits_0 : bits.

Lemma testbit_UINT64_MAX i : Z.testbit UINT64_MAX i = (0 <=? i) && (i <? 64).
Proof.
  rewrite UINT64_MAX_ones. destruct (Z.leb_spec 0 i).
  - rewrite Z.testbit_ones_nonneg by lia. done.
  - rewrite Z.testbit_neg_r; [done|lia].
Qed.

Lemma testbit_ones n i : 0 ≤ n → Z.testbit (Z.ones n) i = (0 <=? i) && (i <? n).
Proof. intros. rewrite Z.testbit_ones by lia. done. Qed.

Lemma testbit_out w i : is_u64 w → ¬ (0 ≤ i < 64) → Z.testbit w i = false.
Proof.
  intros Hw Hi. destruct (decide (i < 0)); [by apply Z.testbit_neg_r|].
  rewrite <- (Z.mod_small w (2 ^ 64)) by done. apply Z.mod_pow2_bits_high. lia.
Qed.

Lemma MAXALIGN_div n : 0 ≤ n < 2 ^ 63 → MAXALIGN n = (n + 7) / 8 * 8.
Proof.
  intros Hn. unfold MAXALIGN. change (not64 7) with (Z.shiftl (Z.ones 61) 3).
  change 8 with (2 ^ 3). rewrite <- Z.shiftr_div_pow2, <- Z.shiftl_mul_pow2 by lia.
  apply Z.bits_inj'. intros i Hi. rewrite Z.land_spec, !Z.shiftl_spec by lia.
  destruct (Z.lt_ge_cases i 3); [rewrite !(Z.testbit_neg_r _ (i - 3)) by lia; apply andb_false_r|].
  rewrite Z.shiftr_spec by lia. replace (i - 3 + 3) with i by lia.
  destruct (Z.lt_ge_cases i 64).
  - rewrite Z.ones_spec_low by lia. apply andb_true_r.
  - rewrite Z.ones_spec_high, andb_false_r by lia. symmetry. apply testbit_out; [unfold is_u64; lia|lia].
Qed.

Lemma MAXALIGN_bounds n : 0 ≤ n < 2 ^ 63 → n ≤ MAXALIGN n ≤ n + 7 ∧ 0 ≤ MAXALIGN n.
Proof. intros. rewrite MAXALIGN_div by done. zlia. Qed.

Lemma testbit_bit64 n i : 0 ≤ n < 64 → Z.testbit (bit64 n) i = (i =? n).
Proof.
  intros Hn. unfold bit64, shl64. rewrite Z.land_spec, testbit_UINT64_MAX.
  destruct (Z.leb_spec 0 i); simpl.
  - rewrite Z.shiftl_1_l, Z.pow2_bits_eqb by lia.
    destruct (Z.ltb_spec i 64), (Z.eqb_spec n i), (Z.eqb_spec i n); simpl; lia.
  - rewrite andb_false_r. symmetry. apply Z.eqb_neq. lia.
Qed.

Lemma testbit_shl64 w n i :
  0 ≤ n → Z.testbit (shl64 w n) i = (0 <=? i) && (i <? 64) && Z.testbit w (i - n).
Proof.
  intros Hn. unfold shl64. rewrite Z.land_spec, testbit_UINT64_MAX.
  destruct (Z.leb_spec 0 i); simpl; [|by rewrite andb_false_r].
  rewrite Z.shiftl_spec, andb_comm by lia. done.
Qed.

Lemma testbit_not64 w i :
  Z.testbit (not64 w) i = xorb (Z.testbit w i) ((0 <=? i) && (i <? 64)).
Proof. unfold not64. rewrite Z.lxor_spec, testbit_UINT64_MAX. done. Qed.

#[export] Hint Rewrite testbit_UINT64_MAX testbit_not64 : bits.

(** A [Z] is a 64-bit word when it has no bit outside [0,64). *)
Lemma is_u64_bits w :
  0 ≤ w → (∀ i, 64 ≤ i → Z.testbit w i = false) → is_u64 w.
Proof.
  intros Hw H. split; [done|].
  destruct (decide (w = 0)) as [->|]; [lia|].
  apply Z.log2_lt_pow2; [lia|].
  destruct (Z.lt_ge_cases (Z.log2 w) 64) as [|Hge]; [done|].
  specialize (H (Z.log2 w) Hge). rewrite Z.bit_log2 in H; [done|lia].
Qed.

Lemma word_ext w1 w2 :
  is_u64 w1 → is_u64 w2 →
  (∀ i, 0 ≤ i < 64 → Z.testbit w1 i = Z.testbit w2 i) → w1 = w2.
Proof.
  intros H1 H2 H. apply Z.bits_inj. intros i.
  destruct (decide (0 ≤ i < 64)) as [Hi|Hi]; [auto|].
  rewrite !testbit_out; done.
Qed.

Lemma is_u64_land_l w v : is_u64 w → 0 ≤ v → is_u64 (Z.land w v).
Proof.
  intros Hw Hv. apply is_u64_bits.
  - apply Z.land_nonneg. left. apply Hw.
  - intros i Hi. rewrite Z.land_spec, (testbit_out w); [done|done|lia].
Qed.

Lemma is_u64_land w v : is_u64 w → is_u64 v → is_u64 (Z.land w v).
Proof. intros Hw [Hv _]. by apply is_u64_land_l. Qed.

Lemma is_u64_lor w v : is_u64 w → is_u64 v → is_u64 (Z.lor w v).
Proof.
  intros Hw Hv. apply is_u64_bits.
  - apply Z.lor_nonneg. split; [apply Hw|apply Hv].
  - intros i Hi. rewrite Z.lor_spec, !testbit_out; [done|done|lia|done|lia].
Qed.

Lemma is_u64_max : is_u64 UINT64_MAX.
Proof. done. Qed.

Lemma is_u64_zero : is_u64 0.
Proof. done. Qed.

Lemma is_u64_shl64 w n : is_u64 (shl64 w n).
Proof.
  unfold shl64. rewrite UINT64_MAX_ones, Z.land_ones by lia.
  apply Z.mod_pos_bound. lia.
Qed.

Lemma is_u64_bit64 n : is_u64 (bit64 n).
Proof. apply is_u64_shl64. Qed.

Lemma is_u64_not64 w : is_u64 w → is_u64 (not64 w).
Proof.
  intros Hw. apply is_u64_bits.
  - unfold not64. apply Z.lxor_nonneg. split; [done|intros _; apply Hw].
  - intros i Hi. rewrite testbit_not64, testbit_out by (done || lia).
    destruct (Z.ltb_spec i 64); [lia|]. by rewrite andb_false_r.
Qed.

Lemma is_u64_ones n : 0 ≤ n ≤ 64 → is_u64 (Z.ones n).
Proof.
  intros Hn. rewrite Z.ones_equiv. split.
  - pose proof (Z.pow_pos_nonneg 2 n). lia.
  - pose proof (Z.pow_le_mono_r 2 n 64). lia.
Qed.

#[export] Hint Resolve is_u64_land is_u64_lor is_u64_max is_u64_zero is_u64_shl64
  is_u64_bit64 is_u64_not64 : words.

(** [(UINT64CONST(1) << n) - 1], the mask of the first [n] lanes. *)
Lemma bit64_ones n : 0 ≤ n < 64 → bit64 n - 1 = Z.ones n.
Proof.
  intros Hn. rewrite Z.ones_equiv. unfold bit64, shl64. rewrite UINT64_MAX_ones, Z.land_ones by lia.
  rewrite Z.shiftl_1_l, Z.mod_small; [lia|].
  split; [apply Z.pow_nonneg; lia|apply Z.pow_lt_mono_r; lia].
Qed.

Lemma word_nonzero w : is_u64 w → w ≠ 0 → ∃ i, 0 ≤ i < 64 ∧ Z.testbit w i = true.
Proof.
  intros Hw Hne. exists (Z.log2 w). destruct Hw. split.
  - split; [apply Z.log2_nonneg|]. apply Z.log2_lt_pow2; lia.
  - apply Z.bit_log2. lia.
Qed.

(** The positions of the set bits of a word, in ascending order. *)
Definition bits_of (w : Z) : list Z := filter (λ i, Z.testbit w i = true) (seqZ 0 64).

Lemma elem_of_bits_of w i :
  is_u64 w → i ∈ bits_of w ↔ Z.testbit w i = true.
Proof.
  intros Hw. unfold bits_of. rewrite list_elem_of_filter, elem_of_seqZ.
  split; [tauto|]. intros Hi. split; [done|].
  destruct (decide (0 ≤ i < 0 + 64)) as [|Hn]; [done|].
  rewrite testbit_out in Hi; [done|done|lia].
Qed.

Lemma list_filter_nil {A} (P : A → Prop) `{∀ x, Decision (P x)} (l : list A) :
  Forall (λ x, ¬ P x) l → filter P l = [].
Proof.
  induction 1 as [|x l Hx _ IH]; [done|]. by rewrite filter_cons_False.
Qed.

Lemma list_filter_all {A} (P : A → Prop) `{∀ x, Decision (P x)} (l : list A) :
  Forall P l → filter P l = l.
Proof.
  induction 1 as [|x l Hx _ IH]; [done|]. by rewrite filter_cons_True, IH.
Qed.

Lemma list_filter_iff' {A} (P Q : A → Prop) `{∀ x, Decision (P x)} `{∀ x, Decision (Q x)} (l : list A) :
  (∀ x, x ∈ l → P x ↔ Q x) → filter P l = filter Q l.
Proof.
  induction l as [|x l IH]; intros HPQ; [done|].
  rewrite !filter_cons, IH by (intros; apply HPQ; by right).
  pose proof (HPQ x (list_elem_of_here _ _)). repeat case_decide; tauto.
Qed.

Lemma list_filter_fmap' {A B} (f : A → B) (P : B → Prop) `{∀ x, Decision (P x)} (l : list A) :
  filter P (f <$> l) = f <$> filter (λ x, P (f x)) l.
Proof.
  induction l as [|x l IH]; [done|].
  rewrite fmap_cons, !filter_cons, IH. by case_decide.
Qed.

(** The first element a filter keeps. *)
Lemma list_filter_head {A} (P : A → Prop) `{∀ x, Decision (P x)} (l : list A) y :
  y ∈ filter P l →
  ∃ x l1 l2, l = l1 ++ x :: l2 ∧ head (filter P l) = Some x ∧ P x ∧ Forall (λ z, ¬ P z) l1.
Proof.
  induction l as [|a l IH]; [intros Hy; inversion Hy|].
  rewrite filter_cons. destruct (decide (P a)) as [Ha|Ha]; intros Hy.
  - exists a, [], l. auto.
  - destruct (IH Hy) as (x & l1 & l2 & -> & ? & ? & ?).
    exists x, (a :: l1), l2. auto.
Qed.

(** A word seen from one of its bits [b]: below it, at it and above it. *)
Lemma testbit_low_high low b q i :
  0 ≤ b → 0 ≤ low < 2 ^ (b + 1) → b ≤ i →
  Z.testbit (low + 2 ^ (b + 1) * q) i =
    if i =? b then 2 ^ b <=? low else Z.testbit q (i - (b + 1)).
Proof.
  intros Hb Hlow Hi. rewrite Z.add_comm, Z.mul_comm.
  assert (0 < 2 ^ (b + 1)) by (apply Z.pow_pos_nonneg; lia).
  destruct (Z.eqb_spec i b) as [->|].
  - rewrite <- (Z.mod_pow2_bits_low _ (b + 1)) by lia.
    rewrite Z.add_comm, Z_mod_plus_full, Z.mod_small by lia.
    rewrite Z.testbit_eqb by lia.
    assert (Hs : 2 ^ (b + 1) = 2 * 2 ^ b) by (rewrite Z.pow_add_r by lia; lia).
    assert (0 < 2 ^ b) by (apply Z.pow_pos_nonneg; lia).
    destruct (Z.leb_spec (2 ^ b) low).
    + replace (low / 2 ^ b) with 1; [done|].
      apply Z.div_unique with (low - 2 ^ b); lia.
    + rewrite Z.div_small by lia. done.
  - replace i with ((i - (b + 1)) + (b + 1)) at 1 by lia.
    rewrite <- Z.div_pow2_bits by lia.
    f_equal. symmetry. apply Z.div_unique with low; lia.
Qed.

Lemma lowest_bit_split w b :
  0 ≤ w → 0 ≤ b → Z.testbit w b = true → (∀ i, i < b → Z.testbit w i = false) →
  ∃ q, 0 ≤ q ∧ w = 2 ^ b + 2 ^ (b + 1) * q ∧ w - 1 = (2 ^ b - 1) + 2 ^ (b + 1) * q.
Proof.
  intros Hw Hb Hset Hlow. exists (w / 2 ^ (b + 1)).
  assert (0 < 2 ^ (b + 1)) by (apply Z.pow_pos_nonneg; lia).
  assert (w mod 2 ^ (b + 1) = 2 ^ b) as Hm.
  { apply Z.bits_inj'. intros i Hi. rewrite Z.pow2_bits_eqb by lia.
    destruct (Z.lt_ge_cases i (b + 1)).
    - rewrite Z.mod_pow2_bits_low by lia.
      destruct (Z.eqb_spec b i) as [->|]; [done|]. apply Hlow. lia.
    - rewrite Z.mod_pow2_bits_high by lia. symmetry. apply Z.eqb_neq. lia. }
  pose proof (Z.div_mod w (2 ^ (b + 1))). split; [|split]; try lia.
  apply Z.div_pos; lia.
Qed.

(** ** PostgreSQL primitives *)

(** Functions of PostgreSQL's [src/common] and [src/port]; their comments are
    the laws. Overflow tests return the flag and the wrapped result. *)
Class PgCore : Type := {
  (** Position of the least significant set bit of a nonzero word. *)
  pg_rightmost_one_pos64 : Z → Z;
  (** Number of set bits. *)
  pg_popcount64 : Z → Z;
  pg_add_s32_overflow : Z → Z → option Z;
  pg_sub_s32_overflow : Z → Z → option Z;
  pg_mul_s32_overflow : Z → Z → option Z;
  pg_add_s64_overflow : Z → Z → option Z;
  murmurhash32 : Z → Z;
  hash_combine : Z → Z → Z;
  (** Size arithmetic of [storage/shmem.h]: an error instead of wrap-around. *)
  add_size : Z → Z → res Z;
  mul_size : Z → Z → res Z;
  (** [n] elements of freshly allocated memory that nothing has written. *)
  palloc_uninit : Z → list Z;
  rightmost_spec w : is_u64 w → w ≠ 0 →
    0 ≤ pg_rightmost_one_pos64 w < 64 ∧
    Z.testbit w (pg_rightmost_one_pos64 w) = true ∧
    ∀ i, i < pg_rightmost_one_pos64 w → Z.testbit w i = false;
  popcount_spec w : is_u64 w → pg_popcount64 w = zlength (bits_of w);
  add_overflow_spec a b : is_s32 a → is_s32 b →
    pg_add_s32_overflow a b = if in_s32 (a + b) then Some (a + b) else None;
  sub_overflow_spec a b : is_s32 a → is_s32 b →
    pg_sub_s32_overflow a b = if in_s32 (a - b) then Some (a - b) else None;
  mul_overflow_spec a b : is_s32 a → is_s32 b →
    pg_mul_s32_overflow a b = if in_s32 (a * b) then Some (a * b) else None;
  add64_overflow_spec a b : in_s64 a = true → in_s64 b = true →
    pg_add_s64_overflow a b = if in_s64 (a + b) then Some (a + b) else None;
  murmurhash32_range v : is_u32 v → is_u32 (murmurhash32 v);
  hash_combine_range a b : is_u32 a → is_u32 b → is_u32 (hash_combine a b);
  add_size_spec a b : is_u64 a → is_u64 b → a + b < 2 ^ 64 → add_size a b = Ok (a + b);
  mul_size_spec a b : is_u64 a → is_u64 b → a * b < 2 ^ 64 → mul_size a b = Ok (a * b);
  palloc_uninit_length n : 0 ≤ n → zlength (palloc_uninit n) = n;
}.

(** A request the allocator grants ([MaxAllocSize] in [utils/memutils.h]);
    a larger one raises an error. *)
Definition MaxAllocSize : Z := 2 ^ 30 - 1.
Definition check_alloc (size : Z) : res unit :=
  raise_if (MaxAllocSize <? size) (Elog "invalid memory alloc request size").

Lemma check_alloc_inv size : check_alloc size = Ok tt → size ≤ MaxAllocSize.
Proof. unfold check_alloc. by destruct (Z.ltb_spec MaxAllocSize size). Qed.

Lemma check_alloc_ok size : size ≤ MaxAllocSize → check_alloc size = Ok tt.
Proof. unfold check_alloc. by destruct (Z.ltb_spec MaxAllocSize size); [lia|]. Qed.

(** ** Bit loops

    [while (rows != 0) { bitno = pg_rightmost_one_pos64(rows); ...; rows = next; }]
    where [next] is [rows & ~bit] or [rows & (rows - 1)], both used by the
    sources.  64 iterations are enough for a 64-bit word; running out of them
    is [Undefined], so a theorem that the loop returns also says it ends. *)
Definition clear_bit (rows bitno : Z) : Z := Z.land rows (not64 (bit64 bitno)).
Definition clear_lowest (rows bitno : Z) : Z := Z.land rows (rows - 1).

Section loops.
Context `{PgCore}.

Fixpoint while_bits {A} (fuel : nat) (next : Z → Z → Z) (rows : Z)
    (body : Z → A → res A) (acc : A) : res A :=
  if rows =? 0 then Ok acc else
  match fuel with
  | O => Undefined
  | S fuel =>
      let bitno := pg_rightmost_one_pos64 rows in
      acc' ← body bitno acc;
      while_bits fuel next (next rows bitno) body acc'
  end.

(** Removing the lowest set bit, the two ways the sources do it. *)
Definition clears_lowest (next : Z → Z → Z) : Prop :=
  ∀ rows, is_u64 rows → rows ≠ 0 →
    is_u64 (next rows (pg_rightmost_one_pos64 rows)) ∧
    ∀ i, Z.testbit (next rows (pg_rightmost_one_pos64 rows)) i =
         Z.testbit rows i && negb (i =? pg_rightmost_one_pos64 rows).

Lemma clear_bit_lowest : clears_lowest clear_bit.
Proof.
  intros rows Hr Hne. destruct (rightmost_spec rows Hr Hne) as (Hb & _ & _).
  unfold clear_bit. split; [auto with words|]. intros i.
  rewrite Z.land_spec, testbit_not64, testbit_bit64 by done.
  destruct (Z.eqb_spec i (pg_rightmost_one_pos64 rows)) as [->|]; simpl.
  - destruct (Z.leb_spec 0 (pg_rightmost_one_pos64 rows)),
      (Z.ltb_spec (pg_rightmost_one_pos64 rows) 64); simpl; try lia.
  - destruct ((0 <=? i) && (i <? 64)) eqn:E; simpl; [done|].
    rewrite andb_false_r, andb_true_r. symmetry. apply testbit_out; [done|].
    intros [? ?]. apply andb_false_iff in E as [E|E]; bool_prop; lia.
Qed.

Lemma clear_lowest_lowest : clears_lowest clear_lowest.
Proof.
  intros rows Hr Hne. destruct (rightmost_spec rows Hr Hne) as (Hb & Hset & Hlow).
  set (b := pg_rightmost_one_pos64 rows) in *.
  destruct (lowest_bit_split rows b) as (q & Hq & Eq & Ep); [apply Hr|lia|done|done|].
  assert (0 < 2 ^ b) by (apply Z.pow_pos_nonneg; lia).
  assert (2 ^ (b + 1) = 2 * 2 ^ b) by (rewrite Z.pow_add_r by lia; lia).
  unfold clear_lowest. split; [apply is_u64_land_l; [done|destruct Hr; lia]|]. intros i.
  rewrite Z.land_spec. destruct (Z.lt_ge_cases i b).
  { rewrite Hlow by lia. done. }
  rewrite Ep, Eq, !testbit_low_high by lia. destruct (Z.eqb_spec i b) as [->|]; simpl.
  - destruct (Z.leb_spec (2 ^ b) (2 ^ b - 1)); [lia|]. by rewrite !andb_false_r.
  - by rewrite andb_true_r, andb_diag.
Qed.

(** One turn of a bit loop takes the head of the list of set bits. *)
Lemma bits_of_step next w :
  clears_lowest next → is_u64 w → w ≠ 0 →
  bits_of w = pg_rightmost_one_pos64 w :: bits_of (next w (pg_rightmost_one_pos64 w)).
Proof.
  intros Hnext Hw Hne. destruct (Hnext w Hw Hne) as [_ Hbits].
  destruct (rightmost_spec w Hw Hne) as (Hb & Hset & Hlow).
  set (b := pg_rightmost_one_pos64 w) in *. unfold bits_of.
  replace 64 with (b + (1 + (63 - b))) by lia.
  rewrite seqZ_app, (seqZ_app _ 1) by lia. rewrite !filter_app, Z.add_0_l.
  rewrite !(list_filter_nil _ (seqZ 0 b)).
  - change (seqZ b 1) with [b]. rewrite !filter_cons, !filter_nil, Hbits, Hset, Z.eqb_refl.
    simpl. f_equal. apply list_filter_iff'. intros i Hi%elem_of_seqZ.
    rewrite Hbits. destruct (Z.eqb_spec i b); [lia|]. by rewrite andb_true_r.
  - apply Forall_forall. intros i Hi%elem_of_seqZ. rewrite Hbits, Hlow by lia. done.
  - apply Forall_forall. intros i Hi%elem_of_seqZ. rewrite Hlow by lia. done.
Qed.

(** A bit loop visits the set bits in ascending order and ends. *)
Lemma while_bits_spec {A} next w (body : Z → A → res A) acc :
  clears_lowest next → is_u64 w →
  while_bits 64 next w body acc = foldM body (bits_of w) acc.
Proof.
  intros Hnext.
  cut (∀ fuel w acc, is_u64 w → (length (bits_of w) ≤ fuel)%nat →
    while_bits fuel next w body acc = foldM body (bits_of w) acc).
  { intros H' Hw. apply H'; [done|]. unfold bits_of.
    pose proof (length_filter (λ i, Z.testbit w i = true) (seqZ 0 64)) as Hl.
    rewrite length_seqZ in Hl. lia. }
  clear w acc. induction fuel as [|fuel IH]; intros w acc Hw Hlen; simpl;
    destruct (Z.eqb_spec w 0) as [->|Hne]; try done.
  - rewrite (bits_of_step next) in Hlen by done. simpl in Hlen. lia.
  - rewrite (bits_of_step next) in Hlen |- * by done. simpl in *.
    destruct (body _ acc) as [acc'| |]; simpl; [|done..].
    apply IH; [by apply Hnext|lia].
Qed.
End loops.

(** [(w & (1 << n)) != 0] is a bit test. *)
Lemma land_bit64 w n :
  0 ≤ n < 64 → negb (Z.land w (bit64 n) =? 0) = Z.testbit w n.
Proof.
  intros Hn. destruct (Z.eqb_spec (Z.land w (bit64 n)) 0) as [E|E]; simpl.
  - assert (Hz := f_equal (λ z, Z.testbit z n) E). simpl in Hz.
    rewrite Z.land_spec, testbit_bit64, Z.eqb_refl, andb_true_r, Z.bits_0 in Hz by done. done.
  - destruct (Z.testbit w n) eqn:Ht; [done|]. exfalso. apply E.
    apply Z.bits_inj. intros i. rewrite Z.land_spec, Z.bits_0, testbit_bit64 by done.
    destruct (Z.eqb_spec i n) as [->|]; [by rewrite Ht|by rewrite andb_false_r].
Qed.

Lemma land_bit64_zero w n : 0 ≤ n < 64 → (Z.land w (bit64 n) =? 0) = negb (Z.testbit w n).
Proof. intros Hn. by rewrite <- land_bit64, negb_involutive. Qed.

Lemma testbit_shr_max n i :
  0 ≤ n ≤ 64 → Z.testbit (Z.shiftr UINT64_MAX (64 - n)) i = (0 <=? i) && (i <? n).
Proof.
  intros Hn. destruct (Z.leb_spec 0 i); simpl.
  - rewrite Z.shiftr_spec, testbit_UINT64_MAX by lia.
    destruct (Z.leb_spec 0 (i + (64 - n))), (Z.ltb_spec (i + (64 - n)) 64),
      (Z.ltb_spec i n); simpl; lia.
  - apply Z.testbit_neg_r. lia.
Qed.

Lemma shr_max_ones n : 0 ≤ n ≤ 64 → Z.shiftr UINT64_MAX (64 - n) = Z.ones n.
Proof.
  intros Hn. apply Z.bits_inj. intros i.
  rewrite testbit_shr_max, testbit_ones by lia. done.
Qed.

(** Accumulating the bits that pass a test [q]. *)
Lemma foldl_collect (q : Z → bool) l acc i :
  Forall (λ b, 0 ≤ b < 64) l →
  Z.testbit (foldl (λ m b, if q b then Z.lor m (bit64 b) else m) acc l) i =
  Z.testbit acc i || (bool_decide (i ∈ l) && q i).
Proof.
  intros Hl. revert acc. induction Hl as [|b l Hb _ IH]; intros acc; cbn [foldl].
  - rewrite bool_decide_eq_false_2 by set_solver. by rewrite orb_false_r.
  - rewrite IH. destruct (decide (i = b)) as [->|Hne].
    + rewrite (bool_decide_eq_true_2 (b ∈ b :: l)) by by left.
      destruct (q b) eqn:Eq; simpl.
      * by rewrite Z.lor_spec, testbit_bit64, Z.eqb_refl, orb_true_r by done.
      * by rewrite andb_false_r.
    + rewrite (bool_decide_ext (i ∈ b :: l) (i ∈ l)).
      2: { rewrite elem_of_cons. naive_solver. }
      destruct (q b); [|done].
      rewrite Z.lor_spec, testbit_bit64 by done.
      destruct (Z.eqb_spec i b); [done|]. by rewrite orb_false_r.
Qed.

Lemma foldl_collect_u64 (q : Z → bool) l acc :
  is_u64 acc → is_u64 (foldl (λ m b, if q b then Z.lor m (bit64 b) else m) acc l).
Proof.
  revert acc. induction l as [|b l IH]; intros acc Ha; simpl; [done|].
  apply IH. destruct (q b); auto with words.
Qed.

Lemma bits_of_range w : Forall (λ b, 0 ≤ b < 64) (bits_of w).
Proof.
  apply Forall_forall. intros b [_ Hb%elem_of_seqZ]%list_elem_of_filter. lia.
Qed.

Lemma bits_of_lt w b : b ∈ bits_of w → 0 ≤ b < 64.
Proof. pose proof (bits_of_range w) as Hr. rewrite Forall_forall in Hr. auto. Qed.

(** A bit loop never sees the same bit twice. *)
Lemma bits_of_fresh w pre b post : bits_of w = pre ++ b :: post → b ∉ pre.
Proof.
  intros E Hin. assert (Hnd : NoDup (bits_of w)) by (apply NoDup_filter, NoDup_seqZ).
  rewrite E in Hnd. apply NoDup_app in Hnd as (_ & Hd & _). by eapply Hd; [|left].
Qed.

Lemma shifted_fresh w base pre b post :
  bits_of w = pre ++ b :: post → base + b ∉ (λ b, base + b) <$> pre.
Proof.
  intros E (b' & Heq & Hb')%list_elem_of_fmap. assert (b' = b) as -> by lia.
  by eapply bits_of_fresh.
Qed.

Lemma while_bits_collect `{PgCore} next rows (body : Z → Z → res Z) (q : Z → bool) :
  clears_lowest next → is_u64 rows →
  (∀ b m, 0 ≤ b < 64 → Z.testbit rows b = true →
     body b m = Ok (if q b then Z.lor m (bit64 b) else m)) →
  ∃ m, while_bits 64 next rows body 0 = Ok m ∧ is_u64 m ∧
    ∀ i, Z.testbit m i = Z.testbit rows i && q i.
Proof.
  intros Hnext Hrows Hbody. rewrite while_bits_spec by done.
  rewrite (foldM_pure _ (λ b m, if q b then Z.lor m (bit64 b) else m)).
  - eexists; split_and!; [done|by apply foldl_collect_u64|]. intros i.
    rewrite foldl_collect, Z.bits_0, orb_false_l by apply bits_of_range. f_equal.
    destruct (Z.testbit rows i) eqn:E.
    + apply bool_decide_eq_true_2, elem_of_bits_of; done.
    + apply bool_decide_eq_false_2. rewrite elem_of_bits_of by done. congruence.
  - intros b m Hb. apply Hbody; [|by apply elem_of_bits_of].
    by apply bits_of_lt in Hb.
Qed.

(** ** A concrete [PgCore]

    An implementation that meets the laws, so that they are satisfiable and
    theorems can be evaluated on concrete inputs.  The two hash functions are
    arbitrary mixers: the development relies only on their range. *)
Definition checked_size (v : Z) : res Z :=
  if v <? 2 ^ 64 then Ok v else Raise (Elog "requested shared memory size overflows size_t").

Definition checked_s32 (v : Z) : option Z := if in_s32 v then Some v else None.

#[refine] Instance reference_core : PgCore := {
  pg_rightmost_one_pos64 w := default 0 (head (bits_of w));
  pg_popcount64 w := zlength (bits_of w);
  pg_add_s32_overflow a b := checked_s32 (a + b);
  pg_sub_s32_overflow a b := checked_s32 (a - b);
  pg_mul_s32_overflow a b := checked_s32 (a * b);
  pg_add_s64_overflow a b := if in_s64 (a + b) then Some (a + b) else None;
  murmurhash32 v := (v * 2654435761 + 97) mod 2 ^ 32;
  hash_combine a b := (a * 31 + b + 2654435769) mod 2 ^ 32;
  add_size a b := checked_size (a + b);
  mul_size a b := checked_size (a * b);
  palloc_uninit n := replicate (Z.to_nat n) 90;
}.
Proof.
  2-6: done.
  - intros w Hw Hne. destruct (word_nonzero w Hw Hne) as (j & Hj & Hset).
    assert (Hin : j ∈ bits_of w) by by apply elem_of_bits_of.
    unfold bits_of in *. destruct (list_filter_head _ _ _ Hin) as (x & l1 & l2 & E & Hl & Hx & Hn).
    rewrite Hl. simpl.
    assert (Hlk : seqZ 0 64 !! length l1 = Some x).
    { rewrite E, lookup_app_r, Nat.sub_diag by lia. done. }
    apply lookup_seqZ in Hlk as [-> Hlen]. split_and!; [lia|lia|done|].
    intros i Hi. destruct (Z.lt_ge_cases i 0); [by apply Z.testbit_neg_r|].
    apply not_true_is_false. rewrite Forall_forall in Hn. apply Hn.
    apply list_elem_of_lookup. exists (Z.to_nat i).
    rewrite <- (lookup_app_l l1 ((0 + zlength l1) :: l2)) by lia. rewrite <- E.
    rewrite lookup_seqZ. lia.
  - intros v _. apply Z.mod_pos_bound. lia.
  - intros a b _ _. apply Z.mod_pos_bound. lia.
  - intros a b _ _ Hlt. unfold checked_size. by rewrite (proj2 (Z.ltb_lt _ _) Hlt).
  - intros a b _ _ Hlt. unfold checked_size. by rewrite (proj2 (Z.ltb_lt _ _) Hlt).
  - intros n Hn. rewrite length_replicate. lia.
Defined.
