(* ===== verification/Bytes.v ===== *)
(** * Memory images

    C objects as the bytes they occupy, for the code that writes arrays and
    structures to storage: unsigned integers least significant byte first,
    [int32] through its [uint32] image, arrays element by element. *)

From S2P Require Import Prelude Words.

Fixpoint le_bytes (n : nat) (z : Z) : list Z :=
  match n with
  | O => []
  | S n => z mod 256 :: le_bytes n (z / 256)
  end.

Fixpoint le_value (bs : list Z) : Z :=
  match bs with
  | [] => 0
  | b :: bs => b + 256 * le_value bs
  end.

Definition u32_array_bytes (l : list Z) : list Z := concat (le_bytes 4 <$> l).
Definition s32_array_bytes (l : list Z) : list Z := u32_array_bytes (to_u32 <$> l).

Fixpoint u32_array_value (n : nat) (bs : list Z) : list Z :=
  match n with
  | O => []
  | S n => le_value (take 4 bs) :: u32_array_value n (drop 4 bs)
  end.
Definition s32_array_value (n : nat) (bs : list Z) : list Z := to_s32 <$> u32_array_value n bs.

(** [n] consecutive elements from index [off]. *)
Definition aslice {A} (l : list A) (off n : Z) : res (list A) :=
  if (0 <=? off) && (0 <=? n) && (off + n <=? zlength l)
  then Ok (take (Z.to_nat n) (drop (Z.to_nat off) l)) else Undefined.

(** Overwrite consecutive elements from index [off]. *)
Definition asplice {A} (l : list A) (off : Z) (new : list A) : res (list A) :=
  if (0 <=? off) && (off + zlength new <=? zlength l)
  then Ok (take (Z.to_nat off) l ++ new ++ drop (Z.to_nat off + length new) l) else Undefined.

Lemma length_le_bytes n z : length (le_bytes n z) = n.
Proof. revert z. induction n; intros; simpl; auto. Qed.

Lemma le_value_bytes n z : 0 ≤ z < 256 ^ Z.of_nat n → le_value (le_bytes n z) = z.
Proof.
  revert z. induction n as [|n IH]; intros z Hz.
  - rewrite Z.pow_0_r in Hz. simpl. lia.
  - cbn [le_bytes le_value]. rewrite Nat2Z.inj_succ, Z.pow_succ_r in Hz by lia.
    rewrite IH by zlia. zlia.
Qed.

Lemma le_value_nonneg bs : Forall is_u8 bs → 0 ≤ le_value bs.
Proof. induction 1 as [|b bs Hb _ IH]; simpl; unfold is_u8 in *; lia. Qed.

Lemma length_u32_array_bytes l : length (u32_array_bytes l) = (4 * length l)%nat.
Proof.
  unfold u32_array_bytes. induction l as [|z l IH]; [done|].
  rewrite fmap_cons. cbn [concat length]. rewrite length_app, length_le_bytes, IH. lia.
Qed.

Lemma u32_array_roundtrip l :
  Forall is_u32 l → u32_array_value (length l) (u32_array_bytes l) = l.
Proof.
  unfold u32_array_bytes. induction 1 as [|z l Hz _ IH]; [done|].
  rewrite fmap_cons. cbn [concat length u32_array_value].
  rewrite take_app_length' by by rewrite length_le_bytes.
  rewrite drop_app_length' by by rewrite length_le_bytes.
  rewrite le_value_bytes, IH by (unfold is_u32 in Hz; simpl; lia). done.
Qed.

Lemma to_s32_to_u32 v : is_s32 v → to_s32 (to_u32 v) = v.
Proof. unfold is_s32, to_s32, to_u32. intros. zlia. Qed.

Lemma to_u32_range v : is_u32 (to_u32 v).
Proof. unfold is_u32, to_u32. apply Z.mod_pos_bound. lia. Qed.

Lemma length_s32_array_bytes l : length (s32_array_bytes l) = (4 * length l)%nat.
Proof. unfold s32_array_bytes. by rewrite length_u32_array_bytes, length_fmap. Qed.

Lemma s32_array_roundtrip l :
  Forall is_s32 l → s32_array_value (length l) (s32_array_bytes l) = l.
Proof.
  intros Hl. unfold s32_array_value, s32_array_bytes.
  rewrite <- (length_fmap to_u32 l), u32_array_roundtrip.
  - rewrite <- list_fmap_compose. rewrite <- (list_fmap_id l) at 2.
    apply list_fmap_ext. intros i v Hv. unfold compose. simpl.
    apply to_s32_to_u32. by eapply Forall_lookup_1.
  - apply Forall_fmap, Forall_forall. intros v _. apply to_u32_range.
Qed.

Lemma aslice_ok {A} (l : list A) off n :
  0 ≤ off → 0 ≤ n → off + n ≤ zlength l →
  ∃ s, aslice l off n = Ok s ∧ zlength s = n ∧
    ∀ d i, 0 ≤ i < n → zget d s i = zget d l (off + i).
Proof.
  intros Ho Hn Hl. unfold aslice.
  destruct (Z.leb_spec 0 off), (Z.leb_spec 0 n), (Z.leb_spec (off + n) (zlength l)); try lia. simpl.
  eexists; split_and!; [done| |].
  - rewrite length_take, length_drop. lia.
  - intros d i Hi. unfold zget. rewrite lookup_take_lt by lia. rewrite lookup_drop. do 2 f_equal. lia.
Qed.

Lemma asplice_ok {A} (l : list A) off (new : list A) :
  0 ≤ off → off + zlength new ≤ zlength l →
  ∃ l', asplice l off new = Ok l' ∧ length l' = length l ∧
    ∀ d i, 0 ≤ i → zget d l' i =
      if decide (off ≤ i < off + zlength new) then zget d new (i - off) else zget d l i.
Proof.
  intros Ho Hl. unfold asplice.
  destruct (Z.leb_spec 0 off), (Z.leb_spec (off + zlength new) (zlength l)); try lia. simpl.
  assert (Ht : length (take (Z.to_nat off) l) = Z.to_nat off) by (rewrite length_take; lia).
  eexists; split_and!; [done| |].
  - rewrite !length_app, Ht, length_drop. lia.
  - intros d i Hi. unfold zget. case_decide as E.
    + rewrite lookup_app_r, lookup_app_l by lia. rewrite Ht. do 2 f_equal. lia.
    + destruct (Z.lt_ge_cases i off).
      * rewrite lookup_app_l, lookup_take_lt by lia. done.
      * rewrite !lookup_app_r by lia. rewrite Ht, lookup_drop. do 2 f_equal. lia.
Qed.

Lemma asplice_Forall {A} (P : A → Prop) (l : list A) off new l' :
  Forall P l → Forall P new → asplice l off new = Ok l' → Forall P l'.
Proof.
  intros Hl Hn. unfold asplice. destruct (_ && _); [|done]. intros [= <-].
  apply Forall_app. split; [by apply Forall_take|]. apply Forall_app. split; [done|by apply Forall_drop].
Qed.

Lemma zget_ext {A} (d : A) (l1 l2 : list A) :
  length l1 = length l2 → (∀ i, 0 ≤ i < zlength l1 → zget d l1 i = zget d l2 i) → l1 = l2.
Proof.
  intros Hlen H. apply list_eq. intros i.
  destruct (Nat.lt_ge_cases i (length l1)) as [Hi|Hi].
  - specialize (H (Z.of_nat i) ltac:(lia)). unfold zget in H. rewrite Nat2Z.id in H.
    destruct (lookup_lt_is_Some_2 l1 i) as [x Hx]; [lia|].
    destruct (lookup_lt_is_Some_2 l2 i) as [y Hy]; [lia|].
    rewrite Hx, Hy in H |- *. simpl in H. by rewrite H.
  - rewrite !lookup_ge_None_2 by lia. done.
Qed.
