(* ===== verification/Selection.v ===== *)
(** * Row selections ([include/pg_batch/batch.h], [include/pg_batch/runtime.h])

    A [PgBatchSelection] is a mutable bitmap of active physical rows, 64 rows
    to a word.  This file holds its operations and shows that they implement
    an abstract set of row numbers ([selected], [selected_rows]). *)

From S2P Require Import Prelude Words.

(** [words] is the array the C pointer refers to; [NULL] is the empty array. *)
Record PgBatchSelection : Type := mkSelection {
  nrows : Z;
  nwords : Z;
  words : list Z;
}.

Definition set_words (s : PgBatchSelection) (ws : list Z) : PgBatchSelection :=
  mkSelection (nrows s) (nwords s) ws.

(** [selection->words[word] = w] *)
Definition store_word (s : PgBatchSelection) (word w : Z) : res PgBatchSelection :=
  ws ← aset (words s) word w; Ok (set_words s ws).

Section operations.
Context `{PgCore}.

Definition pg_batch_selection_count (s : PgBatchSelection) : res Z :=
  if nwords s =? 1 then w ← aref (words s) 0; Ok (pg_popcount64 w)
  else foldM (λ word result, w ← aref (words s) word; Ok (result + pg_popcount64 w))
         (seqZ 0 (nwords s)) 0.

Definition pg_batch_selection_contains (s : PgBatchSelection) (row : Z) : res bool :=
  _ ← assert_ ((0 <=? row) && (row <? nrows s));
  w ← aref (words s) (row / 64);
  Ok (negb (Z.land w (bit64 (row mod 64)) =? 0)).

Definition pg_batch_selection_clear (s : PgBatchSelection) (row : Z) : res PgBatchSelection :=
  _ ← assert_ ((0 <=? row) && (row <? nrows s));
  w ← aref (words s) (row / 64);
  store_word s (row / 64) (Z.land w (not64 (bit64 (row mod 64)))).

Definition pg_batch_selection_intersect (s other : PgBatchSelection) : res PgBatchSelection :=
  _ ← assert_ (nrows s =? nrows other);
  _ ← assert_ (nwords s =? nwords other);
  foldM (λ word s,
           w ← aref (words s) word;
           v ← aref (words other) word;
           store_word s word (Z.land w v))
    (seqZ 0 (nwords s)) s.

(** The [for (;;)] of [pg_batch_selection_next]; each turn but the last
    increments [word], so [nwords] turns are enough. *)
Fixpoint selection_next_loop (fuel : nat) (s : PgBatchSelection) (word bits : Z) : res Z :=
  match fuel with
  | O => Undefined
  | S fuel =>
      if negb (bits =? 0) then
        let result := word * 64 + pg_rightmost_one_pos64 bits in
        Ok (if result <? nrows s then result else -1)
      else
        let word := word + 1 in
        if nwords s <=? word then Ok (-1)
        else bits ← aref (words s) word; selection_next_loop fuel s word bits
  end.

Definition pg_batch_selection_next (s : PgBatchSelection) (previous : Z) : res Z :=
  let row := previous + 1 in
  let word := row / 64 in
  if nrows s <=? row then Ok (-1)
  else
    w ← aref (words s) word;
    let bits := Z.land w (shl64 UINT64_MAX (row mod 64)) in
    selection_next_loop (S (Z.to_nat (nwords s))) s word bits.

(** [pg_batch_has_rows] of runtime.h. *)
Definition pg_batch_has_rows (s : PgBatchSelection) : res bool :=
  if nwords s =? 1 then w ← aref (words s) 0; Ok (negb (w =? 0))
  else search (λ word, w ← aref (words s) word; Ok (negb (w =? 0)))
         (Z.to_nat (nwords s)) 0.

(** [pg_batch_selection_word] of runtime.h: one word without the bits
    beyond the last row. *)
Definition pg_batch_selection_word (s : PgBatchSelection) (word : Z) : res Z :=
  _ ← assert_ ((0 <=? word) && (word <? nwords s));
  rows ← aref (words s) word;
  let remaining := nrows s - word * 64 in
  if remaining <? 64 then
    (* a shift by 64 or more is undefined *)
    _ ← assert_ (0 <? remaining);
    Ok (Z.land rows (Z.shiftr UINT64_MAX (64 - remaining)))
  else Ok rows.

(** All selected rows in the order a consumer visits them: start at -1 and
    ask for the next row until -1 comes back. *)
Fixpoint selection_iterate (fuel : nat) (s : PgBatchSelection) (previous : Z) : res (list Z) :=
  match fuel with
  | O => Undefined
  | S fuel =>
      row ← pg_batch_selection_next s previous;
      if row <? 0 then Ok []
      else rest ← selection_iterate fuel s row; Ok (row :: rest)
  end.
End operations.

(** ** The abstract row set *)

Definition selected (s : PgBatchSelection) (row : Z) : bool :=
  Z.testbit (zget 0 (words s) (row / 64)) (row mod 64).

Definition selected_rows (s : PgBatchSelection) : list Z :=
  filter (λ row, selected s row = true) (seqZ 0 (nrows s)).

(** The shape every batch is published with. *)
Record sel_wf (s : PgBatchSelection) : Prop := {
  wf_nrows : 0 < nrows s < 2 ^ 31;
  wf_nwords : nwords s = (nrows s + 63) / 64;
  wf_length : zlength (words s) = nwords s;
  wf_words : Forall is_u64 (words s);
}.

(** "Bits beyond nrows must be clear." *)
Definition sel_clean (s : PgBatchSelection) : Prop :=
  ∀ row, nrows s ≤ row < nwords s * 64 → selected s row = false.

(** ** Lemmas on the representation *)

Lemma row_word s row :
  sel_wf s → 0 ≤ row < nrows s → 0 ≤ row / 64 < nwords s ∧ 0 ≤ row mod 64 < 64.
Proof. intros [? -> _ _] ?. zlia. Qed.

Lemma word_u64 s word : sel_wf s → 0 ≤ word < nwords s → is_u64 (zget 0 (words s) word).
Proof. intros Hs Hw. apply zget_Forall; [apply Hs|]. rewrite (wf_length s Hs). done. Qed.

Lemma word_read s word :
  sel_wf s → 0 ≤ word < nwords s → aref (words s) word = Ok (zget 0 (words s) word).
Proof. intros Hs Hw. apply aref_ok. rewrite (wf_length s Hs). done. Qed.

Lemma selected_at s word i :
  0 ≤ i < 64 → selected s (word * 64 + i) = Z.testbit (zget 0 (words s) word) i.
Proof.
  intros Hi. unfold selected. f_equal; [f_equal|]; zlia.
Qed.

Definition with_word (s : PgBatchSelection) (word w : Z) : PgBatchSelection :=
  set_words s (<[Z.to_nat word := w]> (words s)).

Lemma store_word_ok s word w :
  sel_wf s → 0 ≤ word < nwords s → store_word s word w = Ok (with_word s word w).
Proof. intros Hs Hw. unfold store_word. rewrite aset_ok; [done|]. rewrite (wf_length s Hs). done. Qed.

Lemma with_word_wf s word w : sel_wf s → is_u64 w → sel_wf (with_word s word w).
Proof.
  intros [] Hw. constructor; simpl; try done.
  - by rewrite length_insert.
  - by apply Forall_insert.
Qed.

Lemma zget_with_word s word w j :
  sel_wf s → 0 ≤ word < nwords s → 0 ≤ j →
  zget 0 (words (with_word s word w)) j = if decide (word = j) then w else zget 0 (words s) j.
Proof. intros Hs Hw Hj. simpl. apply zget_insert; [rewrite (wf_length s Hs)|]; done. Qed.

Lemma selected_with_word s word w row :
  sel_wf s → 0 ≤ word < nwords s → 0 ≤ row →
  selected (with_word s word w) row =
    if decide (word = row / 64) then Z.testbit w (row mod 64) else selected s row.
Proof.
  intros Hs Hw Hr. unfold selected. rewrite zget_with_word by (done || zlia).
  by case_decide.
Qed.

(** The selected rows of one word are its set bits, shifted. *)
Lemma selected_chunk s word :
  sel_wf s → 0 ≤ word < nwords s →
  filter (λ row, selected s row = true) (seqZ (word * 64) 64) =
  (λ b, word * 64 + b) <$> bits_of (zget 0 (words s) word).
Proof.
  intros Hs Hw. unfold bits_of.
  replace (seqZ (word * 64) 64) with ((λ b, word * 64 + b) <$> seqZ 0 64).
  - rewrite list_filter_fmap'. f_equal. apply list_filter_iff'.
    intros b Hb%elem_of_seqZ. rewrite selected_at by lia. done.
  - by rewrite fmap_add_seqZ, Z.add_0_r.
Qed.

(** ** Functional correctness *)

Section facts.
Context `{PgCore}.

Lemma contains_ok s row :
  sel_wf s → 0 ≤ row < nrows s →
  pg_batch_selection_contains s row = Ok (selected s row).
Proof.
  intros Hs Hr. destruct (row_word s row Hs Hr).
  unfold pg_batch_selection_contains.
  destruct (Z.leb_spec 0 row), (Z.ltb_spec row (nrows s)); try lia. simpl.
  rewrite word_read by done. simpl. by rewrite land_bit64.
Qed.

Lemma clear_ok s row :
  sel_wf s → 0 ≤ row < nrows s →
  ∃ s', pg_batch_selection_clear s row = Ok s' ∧ sel_wf s' ∧ nrows s' = nrows s ∧
    ∀ r, 0 ≤ r < nwords s * 64 → selected s' r = selected s r && negb (r =? row).
Proof.
  intros Hs Hr. destruct (row_word s row Hs Hr).
  unfold pg_batch_selection_clear.
  destruct (Z.leb_spec 0 row), (Z.ltb_spec row (nrows s)); try lia. simpl.
  rewrite word_read by done. simpl. rewrite store_word_ok by done.
  eexists; split_and!; [done| |done|].
  - apply with_word_wf; [done|]. auto using word_u64 with words.
  - intros r Hr'. rewrite selected_with_word by (done || lia).
    case_decide as E.
    + rewrite Z.land_spec, testbit_not64, testbit_bit64 by done.
      unfold selected. rewrite E.
      destruct (Z.ltb_spec (r mod 64) 64), (Z.leb_spec 0 (r mod 64)); try zlia. simpl.
      rewrite xorb_true_r. f_equal. f_equal.
      destruct (Z.eqb_spec (r mod 64) (row mod 64)), (Z.eqb_spec r row); try done; zlia.
    + destruct (Z.eqb_spec r row) as [->|]; [done|]. simpl. by rewrite andb_true_r.
Qed.

(** What [selection_next] may return when asked for the first selected row
    not below [lo]. *)
Definition next_result (s : PgBatchSelection) (lo r : Z) : Prop :=
  (r = -1 ∧ ∀ row, lo ≤ row < nrows s → selected s row = false) ∨
  (lo ≤ r < nrows s ∧ selected s r = true ∧
   ∀ row, lo ≤ row < r → selected s row = false).

Lemma next_loop_ok s fuel word bits lo :
  sel_wf s → 0 ≤ word < nwords s → is_u64 bits → word * 64 ≤ lo < word * 64 + 64 →
  (∀ i, 0 ≤ i < 64 →
     Z.testbit bits i = selected s (word * 64 + i) && (lo <=? word * 64 + i)) →
  nwords s - word ≤ Z.of_nat fuel →
  ∃ r, selection_next_loop fuel s word bits = Ok r ∧ next_result s lo r.
Proof.
  intros Hs. revert word bits lo.
  induction fuel as [|fuel IH]; intros word bits lo Hw Hb Hlo Hbits Hfuel; [lia|]. simpl.
  destruct (Z.eqb_spec bits 0) as [->|Hne]; simpl.
  - assert (Hnone : ∀ row, lo ≤ row < word * 64 + 64 → selected s row = false).
    { intros row Hrow. specialize (Hbits (row - word * 64) ltac:(lia)).
      rewrite Z.bits_0 in Hbits. replace (word * 64 + (row - word * 64)) with row in Hbits by lia.
      destruct (Z.leb_spec lo row); [|lia]. rewrite andb_true_r in Hbits. done. }
    destruct (Z.leb_spec (nwords s) (word + 1)).
    + eexists; split; [done|]. left. split; [done|]. intros row Hrow. apply Hnone.
      pose proof (wf_nwords s Hs). zlia.
    + rewrite word_read by (done || lia). simpl.
      destruct (IH (word + 1) (zget 0 (words s) (word + 1)) ((word + 1) * 64))
        as (r & -> & Hres); try lia.
      * apply word_u64; [done|lia].
      * intros i Hi. rewrite selected_at by done.
        destruct (Z.leb_spec ((word + 1) * 64) ((word + 1) * 64 + i)); [|lia].
        by rewrite andb_true_r.
      * exists r. split; [done|].
        destruct Hres as [[-> Hr]|(Hr1 & Hr2 & Hr3)]; [left|right]; split_and!; try done; try lia.
        -- intros row Hrow. destruct (Z.lt_ge_cases row (word * 64 + 64)); [apply Hnone|apply Hr]; lia.
        -- intros row Hrow. destruct (Z.lt_ge_cases row (word * 64 + 64)); [apply Hnone|apply Hr3]; lia.
  - destruct (rightmost_spec bits Hb Hne) as (Hpos & Hset & Hlow).
    set (p := pg_rightmost_one_pos64 bits) in *.
    rewrite Hbits in Hset by done. apply andb_true_iff in Hset as [Hset Hge%Z.leb_le].
    assert (Hnone : ∀ row, lo ≤ row < word * 64 + p → selected s row = false).
    { intros row Hrow. specialize (Hbits (row - word * 64) ltac:(lia)).
      rewrite Hlow in Hbits by lia.
      replace (word * 64 + (row - word * 64)) with row in Hbits by lia.
      destruct (Z.leb_spec lo row); [|lia]. rewrite andb_true_r in Hbits. done. }
    eexists; split; [done|]. destruct (Z.ltb_spec (word * 64 + p) (nrows s)); [right|left];
      split_and!; try done; try lia. intros row Hrow. apply Hnone. lia.
Qed.

Lemma next_ok s previous :
  sel_wf s → -1 ≤ previous →
  ∃ r, pg_batch_selection_next s previous = Ok r ∧ next_result s (previous + 1) r.
Proof.
  intros Hs Hp. unfold pg_batch_selection_next.
  destruct (Z.leb_spec (nrows s) (previous + 1)).
  { eexists; split; [done|]. left. split; [done|]. lia. }
  destruct (row_word s (previous + 1) Hs ltac:(lia)) as [Hword Hbit].
  rewrite word_read, bind_Ok by done. cbv beta zeta.
  apply next_loop_ok; try done.
  - auto using word_u64 with words.
  - zlia.
  - intros i Hi. rewrite Z.land_spec, testbit_shl64, testbit_UINT64_MAX, selected_at by lia.
    destruct (Z.leb_spec 0 i), (Z.ltb_spec i 64); try lia. simpl. f_equal.
    destruct (Z.leb_spec 0 (i - (previous + 1) mod 64)), (Z.ltb_spec (i - (previous + 1) mod 64) 64),
      (Z.leb_spec (previous + 1) ((previous + 1) / 64 * 64 + i)); try done; zlia.
  - lia.
Qed.

(** The selected rows after a row, and the step that visits the first one. *)
Definition rows_after (s : PgBatchSelection) (previous : Z) : list Z :=
  filter (λ row, selected s row = true) (seqZ (previous + 1) (nrows s - previous - 1)).

Lemma rows_after_all s : rows_after s (-1) = selected_rows s.
Proof. unfold rows_after, selected_rows. by replace (nrows s - -1 - 1) with (nrows s) by lia. Qed.

Lemma next_rows s previous :
  sel_wf s → -1 ≤ previous →
  ∃ r, pg_batch_selection_next s previous = Ok r ∧
    ((r = -1 ∧ rows_after s previous = []) ∨ (previous < r < nrows s ∧ rows_after s previous = r :: rows_after s r)).
Proof.
  intros Hs Hp. destruct (next_ok s previous Hs Hp) as (r & -> & Hr). exists r. split; [done|].
  destruct Hr as [[-> Hnone]|(Hrange & Hset & Hnone)]; [left|right]; (split; [done || lia|]).
  - apply list_filter_nil, Forall_forall. intros row Hrow%elem_of_seqZ. rewrite Hnone by lia. done.
  - unfold rows_after. replace (nrows s - previous - 1) with ((r - previous - 1) + (1 + (nrows s - r - 1))) by lia.
    rewrite seqZ_app, (seqZ_app _ 1) by lia. rewrite !filter_app.
    rewrite (list_filter_nil _ (seqZ (previous + 1) _)).
    + replace (previous + 1 + (r - previous - 1)) with r by lia.
      change (seqZ r 1) with [r]. rewrite filter_cons_True by done. done.
    + apply Forall_forall. intros row Hrow%elem_of_seqZ. rewrite Hnone by lia. done.
Qed.
End facts.

Section theorems.
Context `{PgCore}.

(** C32. Visiting a selection with [pg_batch_selection_next], from [previous]
    until it answers -1, yields exactly the selected rows after [previous]
    in ascending order; in particular the visit ends. *)
Theorem selection_iterate_spec s previous :
  sel_wf s → -1 ≤ previous →
  selection_iterate (S (Z.to_nat (nrows s - previous - 1))) s previous =
    Ok (filter (λ row, selected s row = true)
          (seqZ (previous + 1) (nrows s - previous - 1))).
Proof.
  intros Hs. remember (S (Z.to_nat (nrows s - previous - 1))) as fuel eqn:Ef.
  assert (Hfuel : (Z.to_nat (nrows s - previous - 1) < fuel)%nat) by lia. clear Ef.
  revert previous Hfuel. induction fuel as [|fuel IH]; intros previous Hfuel Hp; [lia|].
  cbn [selection_iterate]. destruct (next_rows s previous Hs Hp) as (r & -> & Hr). rewrite bind_Ok.
  unfold rows_after in Hr. destruct Hr as [[-> ->]|(Hrange & ->)]; [done|].
  destruct (Z.ltb_spec r 0); [lia|]. by rewrite IH by lia.
Qed.

Lemma selected_rows_extend s n :
  sel_wf s → sel_clean s → nrows s ≤ n ≤ nwords s * 64 →
  filter (λ row, selected s row = true) (seqZ 0 n) = selected_rows s.
Proof.
  intros Hs Hc Hn. unfold selected_rows. pose proof (wf_nrows s Hs).
  replace n with (nrows s + (n - nrows s)) by lia.
  rewrite seqZ_app, filter_app by lia.
  rewrite (list_filter_nil _ (seqZ (0 + nrows s) _)); [by rewrite app_nil_r|].
  apply Forall_forall. intros row Hrow%elem_of_seqZ. rewrite Hc by lia. done.
Qed.

Lemma rows_below_word s word :
  sel_wf s → 0 ≤ word < nwords s →
  filter (λ row, selected s row = true) (seqZ 0 ((word + 1) * 64)) =
  filter (λ row, selected s row = true) (seqZ 0 (word * 64)) ++
    ((λ b, word * 64 + b) <$> bits_of (zget 0 (words s) word)).
Proof.
  intros Hs Hw. replace ((word + 1) * 64) with (word * 64 + 64) by lia.
  rewrite seqZ_app, filter_app, Z.add_0_l, selected_chunk by (done || lia). done.
Qed.

(** [pg_batch_selection_count] is the number of selected rows of a
    well-formed selection whose bits beyond the last row are clear. *)
Lemma selection_count_ok s :
  sel_wf s → sel_clean s →
  pg_batch_selection_count s = Ok (zlength (selected_rows s)).
Proof.
  intros Hs Hc. unfold pg_batch_selection_count.
  pose proof (wf_nrows s Hs). pose proof (wf_nwords s Hs).
  rewrite <- (selected_rows_extend s (nwords s * 64)) by (done || zlia).
  destruct (Z.eqb_spec (nwords s) 1) as [E|E].
  - rewrite word_read, bind_Ok by (done || lia).
    rewrite popcount_spec by (apply word_u64; [done|lia]).
    rewrite E. change (1 * 64) with ((0 + 1) * 64).
    rewrite rows_below_word by (done || lia). simpl.
    by rewrite length_fmap.
  - destruct (for_inv (λ word result, result =
        zlength (filter (λ row, selected s row = true) (seqZ 0 (word * 64))))
      (λ word result, w ← aref (words s) word; Ok (result + pg_popcount64 w))
      (nwords s) 0) as (c & -> & ->); [zlia|done| |done].
    intros word result Hw ->. rewrite word_read, bind_Ok by done.
    eexists; split; [done|]. rewrite rows_below_word, length_app, length_fmap by done.
    rewrite popcount_spec by by apply word_u64. lia.
Qed.

Lemma contains_selected_rows s row :
  row ∈ selected_rows s ↔ 0 ≤ row < nrows s ∧ selected s row = true.
Proof. unfold selected_rows. rewrite list_elem_of_filter, elem_of_seqZ. intuition lia. Qed.

(** Intersecting keeps the shape of the selection and leaves exactly the
    rows selected in both: a cleared row is never restored. *)
Theorem selection_intersect_spec s other :
  sel_wf s → sel_wf other → nrows s = nrows other →
  ∃ s', pg_batch_selection_intersect s other = Ok s' ∧ sel_wf s' ∧
    nrows s' = nrows s ∧
    ∀ row, 0 ≤ row < nwords s * 64 →
      selected s' row = selected s row && selected other row.
Proof.
  intros Hs Ho Hn. unfold pg_batch_selection_intersect.
  assert (Hnw : nwords s = nwords other) by (rewrite (wf_nwords s Hs), (wf_nwords other Ho); congruence).
  rewrite (proj2 (Z.eqb_eq _ _) Hn), (proj2 (Z.eqb_eq _ _) Hnw). simpl.
  pose proof (wf_nrows s Hs). pose proof (wf_nwords s Hs).
  destruct (for_inv (λ word t, sel_wf t ∧ nrows t = nrows s ∧ ∀ row, 0 ≤ row < nwords s * 64 →
      selected t row = selected s row && (selected other row || (word * 64 <=? row)))
    (λ word s, w ← aref (words s) word; v ← aref (words other) word;
               store_word s word (Z.land w v)) (nwords s) s)
    as (s' & -> & Hs' & Hn' & Hsel); [zlia| | |].
  - split_and!; [done|done|]. intros row Hrow.
    destruct (Z.leb_spec (0 * 64) row); [|lia]. by rewrite orb_true_r, andb_true_r.
  - intros word t Hw (Ht & Htn & Hsel).
    assert (nwords t = nwords s) by (rewrite (wf_nwords t Ht), Htn; done).
    rewrite (word_read t), bind_Ok, word_read, bind_Ok, store_word_ok by (done || lia).
    eexists; split; [done|]. split_and!; [|done|].
    + apply with_word_wf; [done|]. apply is_u64_land; apply word_u64; (done || lia).
    + intros row Hrow. rewrite selected_with_word by (done || lia). case_decide as E.
      * rewrite Z.land_spec. specialize (Hsel row Hrow). unfold selected in *.
        rewrite <- E in *. rewrite Hsel.
        destruct (Z.leb_spec (word * 64) row), (Z.leb_spec ((word + 1) * 64) row); try zlia.
        rewrite orb_true_r, orb_false_r, andb_true_r. done.
      * rewrite Hsel by done. f_equal. f_equal.
        destruct (Z.leb_spec (word * 64) row), (Z.leb_spec ((word + 1) * 64) row); try done; zlia.
  - exists s'. split_and!; [done|done|done|]. intros row Hrow. rewrite Hsel by done.
    destruct (Z.leb_spec (nwords s * 64) row); [lia|]. by rewrite orb_false_r.
Qed.

Lemma has_rows_ok s :
  sel_wf s →
  pg_batch_has_rows s = Ok (existsb (λ word, negb (zget 0 (words s) word =? 0)) (seqZ 0 (nwords s))).
Proof.
  intros Hs. unfold pg_batch_has_rows. pose proof (wf_nrows s Hs). pose proof (wf_nwords s Hs).
  destruct (Z.eqb_spec (nwords s) 1) as [E|E].
  - rewrite word_read, bind_Ok, E by (done || lia). simpl. by rewrite orb_false_r.
  - rewrite (search_ok _ (λ word, negb (zget 0 (words s) word =? 0))).
    + by rewrite Z2Nat.id by zlia.
    + intros j Hj. rewrite word_read; [done|done|zlia].
Qed.

Lemma has_rows_clean s :
  sel_wf s → sel_clean s → pg_batch_has_rows s = Ok (negb (bool_decide (selected_rows s = []))).
Proof.
  intros Hs Hc. rewrite has_rows_ok by done. f_equal.
  case_bool_decide as E; simpl.
  - apply not_true_is_false. intros (word & Hin & Hne)%existsb_exists.
    apply list_elem_of_In, elem_of_seqZ in Hin. bool_prop.
    destruct (word_nonzero (zget 0 (words s) word)) as (i & Hi & Hset);
      [apply word_u64; [done|lia]|done|].
    rewrite <- selected_at in Hset by done.
    pose proof (wf_nrows s Hs). pose proof (wf_nwords s Hs).
    destruct (Z.lt_ge_cases (word * 64 + i) (nrows s)).
    + assert (word * 64 + i ∈ selected_rows s) as Hrow
      by (apply contains_selected_rows; split; [lia|done]).
      rewrite E in Hrow. by apply not_elem_of_nil in Hrow.
    + rewrite Hc in Hset by lia. done.
  - destruct (selected_rows s) as [|row rows] eqn:Er; [done|].
    assert (row ∈ selected_rows s) as [Hr Hsel]%contains_selected_rows by (rewrite Er; left).
    destruct (row_word s row Hs Hr). apply existsb_exists. exists (row / 64).
    split; [apply list_elem_of_In, elem_of_seqZ; lia|].
    apply negb_true_iff, Z.eqb_neq. intros Hz. unfold selected in Hsel.
    rewrite Hz, Z.bits_0 in Hsel. done.
Qed.

Lemma selection_word_ok s word :
  sel_wf s → 0 ≤ word < nwords s →
  pg_batch_selection_word s word =
    Ok (Z.land (zget 0 (words s) word) (Z.ones (Z.min 64 (nrows s - word * 64)))).
Proof.
  intros Hs Hw. unfold pg_batch_selection_word. pose proof (wf_nwords s Hs).
  destruct (Z.leb_spec 0 word), (Z.ltb_spec word (nwords s)); try lia. simpl.
  rewrite word_read, bind_Ok by done. cbv zeta.
  destruct (Z.ltb_spec (nrows s - word * 64) 64).
  - destruct (Z.ltb_spec 0 (nrows s - word * 64)); [|zlia]. simpl.
    rewrite shr_max_ones, Z.min_r by zlia. done.
  - rewrite Z.min_l by lia. f_equal. symmetry.
    pose proof (word_u64 s word Hs Hw) as Hu. unfold is_u64 in Hu.
    rewrite Z.land_ones, Z.mod_small by lia. done.
Qed.
End theorems.

(** ** Concrete selections *)

(** Rows 0, 2, 64 and 69 of 70. *)
Definition sample_selection : PgBatchSelection := mkSelection 70 2 [5; 33].
(** Rows 0 to 69 of 70. *)
Definition full_selection : PgBatchSelection := mkSelection 70 2 [UINT64_MAX; 63].

Lemma sample_selection_wf : sel_wf sample_selection.
Proof. constructor; try done. by repeat (apply Forall_cons_2; [by unfold is_u64|]). Qed.

Lemma full_selection_wf : sel_wf full_selection.
Proof. constructor; try done. by repeat (apply Forall_cons_2; [by unfold is_u64|]). Qed.

Lemma selection_iterate_witness :
  selection_iterate 71 sample_selection (-1) =
    Ok (filter (λ row, selected sample_selection row = true) (seqZ 0 70)).
Proof. apply (selection_iterate_spec sample_selection (-1)); [apply sample_selection_wf|lia]. Defined.

Lemma sample_selection_clean : sel_clean sample_selection.
Proof.
  intros row Hr. apply not_true_is_false. intros Ht.
  assert (Hall : forallb (λ r, negb (selected sample_selection r)) (seqZ 70 58) = true) by done.
  rewrite forallb_forall in Hall. specialize (Hall row). rewrite Ht in Hall.
  discriminate Hall. apply list_elem_of_In, elem_of_seqZ. simpl in Hr. lia.
Qed.

Lemma selection_intersect_witness :
  ∃ s', pg_batch_selection_intersect sample_selection full_selection = Ok s' ∧ sel_wf s' ∧
    nrows s' = 70 ∧
    ∀ row, 0 ≤ row < 128 →
      selected s' row = selected sample_selection row && selected full_selection row.
Proof.
  apply (selection_intersect_spec sample_selection full_selection);
    [apply sample_selection_wf|apply full_selection_wf|reflexivity].
Defined.
