(* ===== verification/Vector.v ===== *)
(** * Borrowed int4 column views ([include/pg_batch/vector.h])

    The two physical layouts of an int4 column, the row accessors of the C
    header, and the abstract content [cell] they implement. *)

From S2P Require Import Prelude Words.

(** A [Datum] is a 64-bit word; a packed validity map holds one bit per row
    and may be absent ([NULL]). *)
Inductive PgBatchInt4Vector : Type :=
| PG_BATCH_INT4_DATUM (values : list Z) (isnull : list bool)
| PG_BATCH_INT4_PACKED (values : list Z) (validity : option (list Z)) (offset : Z).

Definition DatumGetInt32 (d : Z) : Z := to_s32 d.
(** Sign extension of an [int32] to a 64-bit [Datum]. *)
Definition Int32GetDatum (v : Z) : Z := v mod 2 ^ 64.

Definition pg_batch_int4_vector_init_datum (values : list Z) (isnull : list bool)
  : PgBatchInt4Vector := PG_BATCH_INT4_DATUM values isnull.

Definition pg_batch_int4_vector_init_packed (values : list Z)
    (validity : option (list Z)) (offset : Z) : PgBatchInt4Vector :=
  PG_BATCH_INT4_PACKED values validity offset.

(** [(validity[i / 8] & ((uint8) 1 << (i % 8))) == 0]: division truncates, and
    a negative shift count is undefined. *)
Definition validity_clear (validity : list Z) (i : Z) : res bool :=
  b ← aref validity (Z.quot i 8);
  _ ← assert_ (0 <=? Z.rem i 8);
  Ok (Z.land b (Z.shiftl 1 (Z.rem i 8)) =? 0).

(** [row] is an [int]: adding the [int64] offset in place converts the sum
    back to [int]. *)
Definition pg_batch_int4_row_is_null (column : PgBatchInt4Vector) (row : Z) : res bool :=
  match column with
  | PG_BATCH_INT4_DATUM _ isnull => aref isnull row
  | PG_BATCH_INT4_PACKED _ None _ => Ok false
  | PG_BATCH_INT4_PACKED _ (Some validity) offset =>
      validity_clear validity (to_s32 (row + offset))
  end.

Definition pg_batch_int4_row_value (column : PgBatchInt4Vector) (row : Z) : res Z :=
  match column with
  | PG_BATCH_INT4_DATUM values _ => d ← aref values row; Ok (DatumGetInt32 d)
  | PG_BATCH_INT4_PACKED values _ offset => aref values (offset + row)
  end.

(** ** The abstract column *)

Definition validity_bit (validity : list Z) (i : Z) : bool :=
  Z.testbit (zget 0 validity (i / 8)) (i mod 8).

Definition cell_null (column : PgBatchInt4Vector) (row : Z) : bool :=
  match column with
  | PG_BATCH_INT4_DATUM _ isnull => zget true isnull row
  | PG_BATCH_INT4_PACKED _ None _ => false
  | PG_BATCH_INT4_PACKED _ (Some validity) offset => negb (validity_bit validity (offset + row))
  end.

(** The value stored for a row, meaningful only when the row is not NULL. *)
Definition stored_value (column : PgBatchInt4Vector) (row : Z) : Z :=
  match column with
  | PG_BATCH_INT4_DATUM values _ => DatumGetInt32 (zget 0 values row)
  | PG_BATCH_INT4_PACKED values _ offset => zget 0 values (offset + row)
  end.

Definition cell (column : PgBatchInt4Vector) (row : Z) : option Z :=
  if cell_null column row then None else Some (stored_value column row).

(** A view that covers [n] rows: its arrays are long enough and hold values of
    their C type.  The bound on [offset + n] is what the [int] index
    of [pg_batch_int4_row_is_null] can hold. *)
Definition col_wf (column : PgBatchInt4Vector) (n : Z) : Prop :=
  match column with
  | PG_BATCH_INT4_DATUM values isnull => n ≤ zlength values ∧ n ≤ zlength isnull
  | PG_BATCH_INT4_PACKED values validity offset =>
      0 ≤ offset ∧ offset + n ≤ zlength values ∧ Forall is_s32 values ∧
      match validity with
      | None => True
      | Some v => offset + n ≤ 8 * zlength v ∧ offset + n ≤ 2 ^ 31
      end
  end.

Lemma validity_clear_ok v i :
  0 ≤ i < 8 * zlength v → validity_clear v i = Ok (negb (validity_bit v i)).
Proof.
  intros Hi. unfold validity_clear, validity_bit.
  rewrite Z.quot_div_nonneg, Z.rem_mod_nonneg, (aref_ok 0), bind_Ok by zlia.
  destruct (Z.leb_spec 0 (i mod 8)); [|zlia]. simpl. f_equal.
  rewrite Z.shiftl_1_l. set (b := zget _ _ _).
  destruct (Z.testbit b (i mod 8)) eqn:E.
  - apply Z.eqb_neq. intros Hz. apply (f_equal (λ z, Z.testbit z (i mod 8))) in Hz.
    rewrite Z.land_spec, Z.pow2_bits_true, E, Z.bits_0 in Hz by zlia. done.
  - apply Z.eqb_eq, Z.bits_inj. intros j. rewrite Z.land_spec, Z.bits_0.
    rewrite Z.pow2_bits_eqb by zlia.
    destruct (Z.eqb_spec (i mod 8) j) as [<-|]; [by rewrite E|by rewrite andb_false_r].
Qed.

Lemma row_is_null_ok column n row :
  col_wf column n → 0 ≤ row < n →
  pg_batch_int4_row_is_null column row = Ok (cell_null column row).
Proof.
  intros Hc Hr. destruct column as [values isnull|values [v|] offset]; simpl in *.
  - apply aref_ok. lia.
  - rewrite to_s32_id by (unfold is_s32; lia).
    rewrite validity_clear_ok by lia. by rewrite Z.add_comm.
  - done.
Qed.

Lemma row_value_ok column n row :
  col_wf column n → 0 ≤ row < n →
  pg_batch_int4_row_value column row = Ok (stored_value column row).
Proof.
  intros Hc Hr. destruct column as [values isnull|values v offset]; simpl in *.
  - rewrite (aref_ok 0) by lia. done.
  - apply aref_ok. lia.
Qed.

Lemma stored_value_s32 column n row :
  col_wf column n → 0 ≤ row < n → is_s32 (stored_value column row).
Proof.
  intros Hc Hr. destruct column as [values isnull|values v offset]; simpl in *.
  - apply to_s32_range.
  - destruct Hc as (? & ? & ? & _). apply zget_Forall; [done|lia].
Qed.

Lemma cell_s32 column n row v :
  col_wf column n → 0 ≤ row < n → cell column row = Some v → is_s32 v.
Proof.
  intros Hc Hr. unfold cell. case_match; [done|]. intros [= <-]. by eapply stored_value_s32.
Qed.

Lemma col_wf_le column n m : m ≤ n → col_wf column n → col_wf column m.
Proof. destruct column as [|? [|] ?]; simpl; intuition lia. Qed.

Lemma Int32GetDatum_inv v : is_s32 v → DatumGetInt32 (Int32GetDatum v) = v.
Proof. unfold is_s32, DatumGetInt32, Int32GetDatum, to_s32. intros. zlia. Qed.

(** ** Allocated storage *)

Section uninit.
Context `{PgCore}.

(** [int32] storage whose contents are whatever was there. *)
Definition int32_uninit (n : Z) : list Z := to_s32 <$> palloc_uninit n.

Lemma int32_uninit_ok n : 0 ≤ n → zlength (int32_uninit n) = n ∧ Forall is_s32 (int32_uninit n).
Proof.
  intros Hn. unfold int32_uninit. rewrite length_fmap, palloc_uninit_length by done. split; [done|].
  apply Forall_fmap, Forall_forall. intros x _. apply to_s32_range.
Qed.
End uninit.

(** One column of arrays that hold 64 rows per column. *)
Lemma packed_drop_ok values validity c d :
  0 ≤ c → 0 ≤ d < 64 → (c + 1) * 64 ≤ zlength values → (c + 1) * 8 ≤ zlength validity →
  let v := pg_batch_int4_vector_init_packed (drop (Z.to_nat (c * 64)) values) (Some (drop (Z.to_nat (c * 8)) validity)) 0 in
  pg_batch_int4_row_is_null v d = Ok (cell_null v d) ∧ pg_batch_int4_row_value v d = Ok (stored_value v d) ∧
  cell v d = if validity_bit validity (c * 64 + d) then Some (zget 0 values (c * 64 + d)) else None.
Proof.
  intros Hc Hd Hv Hm v. unfold v, pg_batch_int4_vector_init_packed. cbn [pg_batch_int4_row_is_null pg_batch_int4_row_value].
  rewrite Z.add_0_r, Z.add_0_l, to_s32_id by (unfold is_s32; lia). split; [|split].
  - rewrite validity_clear_ok by (rewrite length_drop; lia). done.
  - rewrite (aref_ok 0) by (rewrite length_drop; lia). done.
  - unfold cell. cbn [cell_null stored_value]. rewrite !Z.add_0_l, zget_drop by lia.
    unfold validity_bit. rewrite zget_drop by zlia. replace ((c * 64 + d) / 8) with (c * 8 + d / 8) by zlia.
    replace ((c * 64 + d) mod 8) with (d mod 8) by zlia. by destruct (Z.testbit _ _).
Qed.

(** ** Concrete columns of 70 rows *)

(** Row [i] holds [i - 35] and every seventh row is NULL. *)
Definition sample_datum : PgBatchInt4Vector :=
  PG_BATCH_INT4_DATUM ((λ i, Int32GetDatum (i - 35)) <$> seqZ 0 70) ((λ i, i mod 7 =? 0) <$> seqZ 0 70).

(** A packed column that starts at element 3, rows 0, 2, 4, ... valid. *)
Definition sample_packed : PgBatchInt4Vector :=
  PG_BATCH_INT4_PACKED (seqZ 100 80) (Some (replicate 10 170)) 3.

Lemma sample_datum_wf : col_wf sample_datum 70.
Proof. by split. Qed.

Lemma sample_packed_wf : col_wf sample_packed 70.
Proof.
  split_and!; try done. apply Forall_forall. intros v Hv%elem_of_seqZ.
  unfold is_s32. lia.
Qed.
