(* ===== verification/Kernels.v ===== *)
(** * Filter kernels ([kernels/int4.c], [kernels/int4_simd.c], [kernels/internal.h])

    Comparison of an int4 column with a scalar: the scalar path, the vector
    path of each instruction set, and their common specification. *)

From S2P Require Import Prelude Words Selection Vector.

Inductive PgBatchInt4Op : Type :=
| PG_BATCH_INT4_EQ
| PG_BATCH_INT4_NE
| PG_BATCH_INT4_LT
| PG_BATCH_INT4_LE
| PG_BATCH_INT4_GT
| PG_BATCH_INT4_GE.

#[global] Instance int4op_eq_dec : EqDecision PgBatchInt4Op.
Proof. solve_decision. Defined.

(** The [F_*] function OIDs of PostgreSQL the sources test for; any other
    function is [F_OTHER]. *)
Inductive Oid : Type :=
| F_INT4EQ | F_INT4NE | F_INT4LT | F_INT4LE | F_INT4GT | F_INT4GE
| F_INT4PL | F_INT4MI | F_INT4MUL | F_INT4DIV | F_INT4MOD | F_INT4UM
| F_OTHER (oid : Z).

#[global] Instance oid_eq_dec : EqDecision Oid.
Proof. solve_decision. Defined.

(** The [bool] result and the [*result] out parameter. *)
Definition pg_batch_int4_compare_op (funcid : Oid) (var_argno : Z) : option PgBatchInt4Op :=
  op ← match funcid with
       | F_INT4EQ => Some PG_BATCH_INT4_EQ
       | F_INT4NE => Some PG_BATCH_INT4_NE
       | F_INT4LT => Some PG_BATCH_INT4_LT
       | F_INT4LE => Some PG_BATCH_INT4_LE
       | F_INT4GT => Some PG_BATCH_INT4_GT
       | F_INT4GE => Some PG_BATCH_INT4_GE
       | _ => None
       end;
  Some (if var_argno =? 1 then
          match op with
          | PG_BATCH_INT4_LT => PG_BATCH_INT4_GT
          | PG_BATCH_INT4_LE => PG_BATCH_INT4_GE
          | PG_BATCH_INT4_GT => PG_BATCH_INT4_LT
          | PG_BATCH_INT4_GE => PG_BATCH_INT4_LE
          | _ => op
          end
        else op).

Definition pg_batch_int4_compare (left right : Z) (op : PgBatchInt4Op) : bool :=
  match op with
  | PG_BATCH_INT4_EQ => left =? right
  | PG_BATCH_INT4_NE => negb (left =? right)
  | PG_BATCH_INT4_LT => left <? right
  | PG_BATCH_INT4_LE => left <=? right
  | PG_BATCH_INT4_GT => right <? left
  | PG_BATCH_INT4_GE => right <=? left
  end.

Definition word_mask (nrows word : Z) : res Z :=
  let remaining := nrows - word * 64 in
  if 64 <=? remaining then Ok UINT64_MAX
  else
    _ ← assert_ (0 <? remaining);
    Ok (Z.shiftr UINT64_MAX (64 - remaining)).

Section kernels.
Context `{PgCore}.

(** [RUN_SCALAR(expression)] *)
Definition run_scalar (column : PgBatchInt4Vector) (first_row rows : Z)
    (expression : Z → bool) : res Z :=
  while_bits 64 clear_bit rows (λ bitno result,
    let bit := bit64 bitno in
    let row := first_row + bitno in
    isnull ← pg_batch_int4_row_is_null column row;
    if (isnull : bool) then Ok result
    else
      value ← pg_batch_int4_row_value column row;
      Ok (if expression value then Z.lor result bit else result)) 0.

Definition scalar_compare (column : PgBatchInt4Vector) (first_row rows : Z)
    (op : PgBatchInt4Op) (scalar : Z) : res Z :=
  match op with
  | PG_BATCH_INT4_EQ => run_scalar column first_row rows (λ value, value =? scalar)
  | PG_BATCH_INT4_NE => run_scalar column first_row rows (λ value, negb (value =? scalar))
  | PG_BATCH_INT4_LT => run_scalar column first_row rows (λ value, value <? scalar)
  | PG_BATCH_INT4_LE => run_scalar column first_row rows (λ value, value <=? scalar)
  | PG_BATCH_INT4_GT => run_scalar column first_row rows (λ value, scalar <? value)
  | PG_BATCH_INT4_GE => run_scalar column first_row rows (λ value, scalar <=? value)
  end.

(** The layouts for which the whole word is known to be not NULL. *)
Definition all_not_null (column : PgBatchInt4Vector) (first_row nrows rows : Z) : res bool :=
  match column with
  | PG_BATCH_INT4_PACKED _ None _ => Ok true
  | PG_BATCH_INT4_PACKED _ (Some _) _ => Ok false
  | PG_BATCH_INT4_DATUM _ isnull =>
      mask ← word_mask nrows 0;
      if rows =? mask then
        found ← search (λ i, aref isnull i) (Z.to_nat nrows) first_row;
        Ok (negb found)
      else Ok false
  end.

Definition not_null_mask (column : PgBatchInt4Vector) (first_row nrows rows : Z) : res Z :=
  all ← all_not_null column first_row nrows rows;
  if (all : bool) then Ok rows
  else
    while_bits 64 clear_bit rows (λ bitno result,
      let bit := bit64 bitno in
      isnull ← pg_batch_int4_row_is_null column (first_row + bitno);
      Ok (if (isnull : bool) then result else Z.lor result bit)) 0.

(** ** Vector comparison

    The build selects one instruction set.  A vector register is its four
    32-bit lanes; a comparison sets every bit of a lane or none. *)
Inductive simd_target : Type := USE_NEON | USE_SSE2 | NO_SIMD.

Definition pg_batch_int4_simd_available (target : simd_target) : bool :=
  match target with NO_SIMD => false | _ => true end.

Definition LANE_ALL : Z := 2 ^ 32 - 1.
Definition lane_mask (b : bool) : Z := if b then LANE_ALL else 0.

Definition low32 (d : Z) : Z := d mod 2 ^ 32.
Definition high32 (d : Z) : Z := (d / 2 ^ 32) mod 2 ^ 32.

(** [_mm_shuffle_epi32(v, _MM_SHUFFLE(2, 0, 2, 0))] and [_mm_unpacklo_epi64] *)
Definition shuffle_2020 (v : list Z) : list Z :=
  match v with [a; b; c; d] => [a; c; a; c] | _ => [] end.
Definition unpacklo_epi64 (x y : list Z) : list Z := take 2 x ++ take 2 y.

Definition load_datum_values (target : simd_target) (values : list Z) (i : Z) : res (list Z) :=
  d0 ← aref values i; d1 ← aref values (i + 1);
  d2 ← aref values (i + 2); d3 ← aref values (i + 3);
  Ok (match target with
      | USE_NEON => (* vcombine_s32(vmovn_s64(first), vmovn_s64(second)) *)
          [low32 d0; low32 d1] ++ [low32 d2; low32 d3]
      | _ =>
          let first := shuffle_2020 [low32 d0; high32 d0; low32 d1; high32 d1] in
          let second := shuffle_2020 [low32 d2; high32 d2; low32 d3; high32 d3] in
          unpacklo_epi64 first second
      end).

Definition load_packed_values (values : list Z) (i : Z) : res (list Z) :=
  v0 ← aref values i; v1 ← aref values (i + 1);
  v2 ← aref values (i + 2); v3 ← aref values (i + 3);
  Ok [v0; v1; v2; v3].

(** Lane-wise instructions; lanes are compared as signed 32-bit integers. *)
Definition lanes_eq : list Z → list Z → list Z :=
  zip_with (λ a b, lane_mask (to_s32 a =? to_s32 b)).
Definition lanes_gt : list Z → list Z → list Z :=
  zip_with (λ a b, lane_mask (to_s32 b <? to_s32 a)).
Definition lanes_xor : list Z → list Z → list Z := zip_with Z.lxor.

(** The [INT4_*] macros.  SSE2 has only equality and greater-than, and
    complements by exclusive or with all ones; NEON has every comparison
    but inequality. *)
Definition lane_compare (target : simd_target) (op : PgBatchInt4Op)
    (left right : list Z) : list Z :=
  match target with
  | USE_NEON =>
      match op with
      | PG_BATCH_INT4_EQ => lanes_eq left right
      | PG_BATCH_INT4_NE => (λ m, Z.lxor m LANE_ALL) <$> lanes_eq left right
      | PG_BATCH_INT4_LT => lanes_gt right left
      | PG_BATCH_INT4_LE => zip_with (λ a b, lane_mask (to_s32 a <=? to_s32 b)) left right
      | PG_BATCH_INT4_GT => lanes_gt left right
      | PG_BATCH_INT4_GE => zip_with (λ a b, lane_mask (to_s32 b <=? to_s32 a)) left right
      end
  | _ =>
      let int4_all := lanes_eq left left in
      match op with
      | PG_BATCH_INT4_EQ => lanes_eq left right
      | PG_BATCH_INT4_NE => lanes_xor (lanes_eq left right) int4_all
      | PG_BATCH_INT4_LT => lanes_gt right left
      | PG_BATCH_INT4_LE => lanes_xor (lanes_gt left right) int4_all
      | PG_BATCH_INT4_GT => lanes_gt left right
      | PG_BATCH_INT4_GE => lanes_xor (lanes_gt right left) int4_all
      end
  end.

(** One bit per lane, its sign bit. *)
Definition comparison_mask (lanes : list Z) : Z :=
  match lanes with
  | [l0; l1; l2; l3] =>
      Z.lor (Z.lor (Z.shiftr l0 31) (Z.shiftl (Z.shiftr l1 31) 1))
            (Z.lor (Z.shiftl (Z.shiftr l2 31) 2) (Z.shiftl (Z.shiftr l3 31) 3))
  | _ => 0
  end.

Definition pg_batch_int4_simd_compare (target : simd_target) (column : PgBatchInt4Vector)
    (first_row nrows : Z) (op : PgBatchInt4Op) (scalar : Z) : res Z :=
  if negb (pg_batch_int4_simd_available target) then Ok 0 else
  let right := replicate 4 scalar in
  result ← foldM (λ row result,
      left ← match column with
             | PG_BATCH_INT4_DATUM values _ => load_datum_values target values (first_row + row)
             | PG_BATCH_INT4_PACKED values _ offset =>
                 load_packed_values values (offset + first_row + row)
             end;
      let comparison := lane_compare target op left right in
      Ok (Z.lor result (shl64 (comparison_mask comparison) row)))
    ((λ k, 4 * k) <$> seqZ 0 (nrows / 4)) 0;
  let row := 4 * (nrows / 4) in
  foldM (λ row result,
      let physical_row := first_row + row in
      value ← match column with
              | PG_BATCH_INT4_DATUM values _ =>
                  d ← aref values physical_row; Ok (DatumGetInt32 d)
              | PG_BATCH_INT4_PACKED values _ offset => aref values (offset + physical_row)
              end;
      Ok (if pg_batch_int4_compare value scalar op then Z.lor result (bit64 row) else result))
    (seqZ row (nrows - row)) result.

(** [pg_batch_filter_int4] updates [selection] in place. *)
Definition pg_batch_filter_int4 (target : simd_target) (column : PgBatchInt4Vector)
    (selection : PgBatchSelection) (op : PgBatchInt4Op) (scalar : Z)
    (enable_simd : bool) : res PgBatchSelection :=
  let use_simd := enable_simd && pg_batch_int4_simd_available target in
  let nrows := nrows selection in
  let nwords := nwords selection in
  _ ← assert_ (0 <? nrows);
  _ ← assert_ (nwords =? (nrows + 63) / 64);
  foldM (λ word selection,
      w ← aref (words selection) word;
      mask ← word_mask nrows word;
      let rows := Z.land w mask in
      let first_row := word * 64 in
      let word_nrows := Z.min 64 (nrows - first_row) in
      if rows =? 0 then Ok selection
      else if use_simd && (rows =? mask) && (4 <=? word_nrows) then
        passing ← pg_batch_int4_simd_compare target column first_row word_nrows op scalar;
        not_null ← not_null_mask column first_row word_nrows rows;
        store_word selection word (Z.land rows (Z.land passing not_null))
      else
        passing ← scalar_compare column first_row rows op scalar;
        store_word selection word passing)
    (seqZ 0 nwords) selection.
End kernels.

(** ** Specification *)

(** Whether one row passes [column op scalar]; NULL never does. *)
Definition row_passes (column : PgBatchInt4Vector) (op : PgBatchInt4Op) (scalar row : Z) : bool :=
  match cell column row with
  | Some value => pg_batch_int4_compare value scalar op
  | None => false
  end.

(** The rows of a word lie inside its first [n] rows. *)
Definition rows_below (rows n : Z) : Prop := ∀ i, Z.testbit rows i = true → i < n.

Section proofs.
Context `{PgCore}.

Lemma word_mask_ok nrows word :
  0 < nrows - word * 64 → word_mask nrows word = Ok (Z.ones (Z.min 64 (nrows - word * 64))).
Proof.
  intros Hr. unfold word_mask. destruct (Z.leb_spec 64 (nrows - word * 64)).
  - by rewrite Z.min_l by lia.
  - destruct (Z.ltb_spec 0 (nrows - word * 64)); [|lia]. simpl.
    by rewrite shr_max_ones, Z.min_r by lia.
Qed.

Lemma masked_u64 s word :
  sel_wf s → 0 ≤ word < nwords s →
  is_u64 (Z.land (zget 0 (words s) word) (Z.ones (Z.min 64 (nrows s - word * 64)))).
Proof.
  intros Hs Hw. pose proof (wf_nwords s Hs). pose proof (wf_nrows s Hs).
  apply is_u64_land; [by apply word_u64|apply is_u64_ones; zlia].
Qed.

Lemma run_scalar_ok column first_row rows n expression :
  is_u64 rows → rows_below rows n → 0 ≤ first_row → col_wf column (first_row + n) →
  ∃ m, run_scalar column first_row rows expression = Ok m ∧ is_u64 m ∧
    ∀ i, Z.testbit m i = Z.testbit rows i &&
           match cell column (first_row + i) with
           | Some v => expression v | None => false end.
Proof.
  intros Hu Hb Hf Hc. apply while_bits_collect; [apply clear_bit_lowest|done|].
  intros b m Hrange Hset. pose proof (Hb b Hset). cbv beta zeta.
  rewrite (row_is_null_ok _ (first_row + n)), bind_Ok by (done || lia).
  unfold cell. destruct (cell_null column (first_row + b)); [done|].
  rewrite (row_value_ok _ (first_row + n)), bind_Ok by (done || lia). done.
Qed.

Lemma scalar_compare_ok column first_row rows n op scalar :
  is_u64 rows → rows_below rows n → 0 ≤ first_row → col_wf column (first_row + n) →
  ∃ m, scalar_compare column first_row rows op scalar = Ok m ∧ is_u64 m ∧
    ∀ i, Z.testbit m i = Z.testbit rows i && row_passes column op scalar (first_row + i).
Proof.
  intros. unfold row_passes.
  destruct op; simpl; by eapply run_scalar_ok.
Qed.

Lemma all_not_null_ok column first_row n rows :
  is_u64 rows → rows_below rows n → 0 ≤ first_row → 0 < n ≤ 64 →
  col_wf column (first_row + n) →
  ∃ b, all_not_null column first_row n rows = Ok b ∧
    (b = true → ∀ i, Z.testbit rows i = true → cell_null column (first_row + i) = false).
Proof.
  intros Hu Hb Hf Hn Hc. destruct column as [values isnull|values [v|] offset]; simpl in *.
  - rewrite word_mask_ok, bind_Ok by lia.
    destruct (_ =? _); [|by eexists].
    rewrite (search_ok _ (λ i, zget true isnull i)).
    2: { intros j Hj. apply aref_ok. lia. }
    rewrite bind_Ok, Z2Nat.id by lia. eexists; split; [done|].
    intros Hnot i Hi. apply negb_true_iff in Hnot.
    apply (existsb_seqZ_false _ first_row n); [done|].
    pose proof (Hb i Hi). destruct (decide (0 ≤ i)); [lia|].
    rewrite Z.testbit_neg_r in Hi by lia. done.
  - by eexists.
  - by eexists.
Qed.

Lemma not_null_mask_ok column first_row n rows :
  is_u64 rows → rows_below rows n → 0 ≤ first_row → 0 < n ≤ 64 →
  col_wf column (first_row + n) →
  ∃ m, not_null_mask column first_row n rows = Ok m ∧ is_u64 m ∧
    ∀ i, Z.testbit m i = Z.testbit rows i && negb (cell_null column (first_row + i)).
Proof.
  intros Hu Hb Hf Hn Hc. unfold not_null_mask.
  destruct (all_not_null_ok column first_row n rows) as (all & -> & Hall); [done..|].
  rewrite bind_Ok. destruct all.
  - exists rows. split_and!; [done|done|]. intros i.
    destruct (Z.testbit rows i) eqn:E; [by rewrite Hall|done].
  - apply while_bits_collect; [apply clear_bit_lowest|done|].
    intros b m Hrange Hset. pose proof (Hb b Hset). cbv beta zeta.
    rewrite (row_is_null_ok _ (first_row + n)), bind_Ok by (done || lia).
    by destruct (cell_null column (first_row + b)).
Qed.

(** *** The vector path *)

Lemma to_s32_low32 d : to_s32 (low32 d) = to_s32 d.
Proof. unfold to_s32, low32. f_equal. by rewrite Zplus_mod_idemp_l. Qed.

(** Four consecutive lanes of the column, whatever the layout and the
    instruction set. *)
Lemma load_datum_ok target values i :
  0 ≤ i → i + 4 ≤ zlength values →
  load_datum_values target values i =
    Ok [low32 (zget 0 values i); low32 (zget 0 values (i + 1));
        low32 (zget 0 values (i + 2)); low32 (zget 0 values (i + 3))].
Proof.
  intros. unfold load_datum_values. rewrite !(aref_ok 0) by lia. by destruct target.
Qed.

Lemma load_packed_ok values i :
  0 ≤ i → i + 4 ≤ zlength values →
  load_packed_values values i =
    Ok [zget 0 values i; zget 0 values (i + 1); zget 0 values (i + 2); zget 0 values (i + 3)].
Proof. intros. unfold load_packed_values. by rewrite !(aref_ok 0) by lia. Qed.

Lemma lane_xor_all b :
  Z.lxor (lane_mask b) LANE_ALL = lane_mask (negb b) ∧
  Z.lxor (lane_mask b) (lane_mask true) = lane_mask (negb b).
Proof. by destruct b. Qed.

Lemma lane_compare_ok target op scalar (left : list Z) :
  is_s32 scalar → length left = 4%nat → target ≠ NO_SIMD →
  lane_compare target op left (replicate 4 scalar) =
    (λ a, lane_mask (pg_batch_int4_compare (to_s32 a) scalar op)) <$> left.
Proof.
  intros Hs Hlen Ht. destruct left as [|a [|b [|c [|d [|]]]]]; try discriminate.
  unfold lane_compare, lanes_eq, lanes_gt, lanes_xor.
  destruct target; [| |done]; destruct op; cbn [zip_with replicate fmap list_fmap pg_batch_int4_compare];
    rewrite ?Z.eqb_refl, ?(to_s32_id scalar), ?(proj1 (lane_xor_all _)),
      ?(proj2 (lane_xor_all _)), <- ?Z.leb_antisym by done;
    done.
Qed.

Lemma comparison_mask_ok b0 b1 b2 b3 i :
  Z.testbit (comparison_mask [lane_mask b0; lane_mask b1; lane_mask b2; lane_mask b3]) i =
  match i with 0 => b0 | 1 => b1 | 2 => b2 | 3 => b3 | _ => false end.
Proof.
  destruct (decide (0 ≤ i < 4)) as [Hi|Hi].
  - assert (i = 0 ∨ i = 1 ∨ i = 2 ∨ i = 3) as [-> | [-> | [-> | ->]]] by lia;
      destruct b0, b1, b2, b3; vm_compute; reflexivity.
  - transitivity false.
    + destruct (decide (i < 0)); [by apply Z.testbit_neg_r|].
      rewrite <- (Z.mod_small (comparison_mask _) (2 ^ 4))
        by (destruct b0, b1, b2, b3; vm_compute; split; congruence).
      apply Z.mod_pow2_bits_high. lia.
    + destruct i as [|[[|[]|]|[[]|[]|]|]|]; try done; lia.
Qed.

(** Bits [0, n) of a word hold the outcome of the comparison. *)
Definition compared (column : PgBatchInt4Vector) (first_row : Z) (op : PgBatchInt4Op)
    (scalar n m : Z) : Prop :=
  is_u64 m ∧ ∀ i, Z.testbit m i = (0 <=? i) && (i <? n) &&
    pg_batch_int4_compare (stored_value column (first_row + i)) scalar op.

(** One turn of [RUN_COMPARISON]. *)
Lemma simd_block_ok target column first_row n op scalar row m :
  target ≠ NO_SIMD → is_s32 scalar → 0 ≤ first_row → n ≤ 64 → col_wf column (first_row + n) →
  0 ≤ row → row + 4 ≤ n → compared column first_row op scalar row m →
  ∃ m', (left ← match column with
           | PG_BATCH_INT4_DATUM values _ => load_datum_values target values (first_row + row)
           | PG_BATCH_INT4_PACKED values _ offset =>
               load_packed_values values (offset + first_row + row)
           end;
         Ok (Z.lor m (shl64 (comparison_mask (lane_compare target op left (replicate 4 scalar))) row)))
        = Ok m' ∧ compared column first_row op scalar (row + 4) m'.
Proof.
  intros Ht Hs Hf Hn Hc Hrow Hrow4 [Hm Hbits].
  assert (∃ l0 l1 l2 l3, match column with
           | PG_BATCH_INT4_DATUM values _ => load_datum_values target values (first_row + row)
           | PG_BATCH_INT4_PACKED values _ offset =>
               load_packed_values values (offset + first_row + row)
           end = Ok [l0; l1; l2; l3] ∧
           to_s32 l0 = stored_value column (first_row + row) ∧
           to_s32 l1 = stored_value column (first_row + (row + 1)) ∧
           to_s32 l2 = stored_value column (first_row + (row + 2)) ∧
           to_s32 l3 = stored_value column (first_row + (row + 3)))
    as (l0 & l1 & l2 & l3 & -> & E0 & E1 & E2 & E3).
  { destruct column as [values isnull|values v offset]; simpl in Hc.
    - rewrite load_datum_ok by lia. do 4 eexists. split; [done|].
      rewrite !to_s32_low32, !Z.add_assoc. done.
    - destruct Hc as (? & ? & Hv & _). rewrite load_packed_ok by lia.
      do 4 eexists. split; [done|]. simpl. rewrite !Z.add_assoc.
      rewrite !to_s32_id; [done|apply zget_Forall; (done || lia)..]. }
  rewrite bind_Ok, lane_compare_ok by done. cbn [fmap list_fmap].
  rewrite E0, E1, E2, E3. eexists; split; [done|]. split; [auto with words|]. intros i.
  rewrite Z.lor_spec, testbit_shl64, comparison_mask_ok, Hbits by lia.
  destruct (decide (row ≤ i < row + 4)) as [Hi|Hi].
  - assert (i = row ∨ i = row + 1 ∨ i = row + 2 ∨ i = row + 3) as Hcase by lia.
    destruct (Z.leb_spec 0 i), (Z.ltb_spec i row), (Z.ltb_spec i 64), (Z.ltb_spec i (row + 4));
      try lia; simpl.
    destruct Hcase as [-> | [-> | [-> | ->]]];
      [replace (row - row) with 0 by lia|replace (row + 1 - row) with 1 by lia
      |replace (row + 2 - row) with 2 by lia|replace (row + 3 - row) with 3 by lia]; done.
  - replace (i <? row + 4) with (i <? row).
    2: { destruct (Z.ltb_spec i row), (Z.ltb_spec i (row + 4)); lia. }
    rewrite <- (orb_false_r (_ && _ && pg_batch_int4_compare _ _ _)) at 2. f_equal.
    destruct ((0 <=? i) && (i <? 64)); [simpl|done].
    assert (Hd : i - row < 0 ∨ 4 ≤ i - row) by lia.
    destruct (i - row) as [|[[|[]|]|[[]|[]|]|]|]; try done; lia.
Qed.

(** One turn of the scalar loop over the rows left by the blocks of four. *)
Lemma simd_tail_ok column first_row n op scalar row m :
  0 ≤ first_row → n ≤ 64 → col_wf column (first_row + n) → 0 ≤ row < n →
  compared column first_row op scalar row m →
  ∃ m', (value ← match column with
           | PG_BATCH_INT4_DATUM values _ =>
               d ← aref values (first_row + row); Ok (DatumGetInt32 d)
           | PG_BATCH_INT4_PACKED values _ offset => aref values (offset + (first_row + row))
           end;
         Ok (if pg_batch_int4_compare value scalar op then Z.lor m (bit64 row) else m))
        = Ok m' ∧ compared column first_row op scalar (row + 1) m'.
Proof.
  intros Hf Hn Hc Hrow [Hu Hbits].
  assert (match column with
          | PG_BATCH_INT4_DATUM values _ =>
              d ← aref values (first_row + row); Ok (DatumGetInt32 d)
          | PG_BATCH_INT4_PACKED values _ offset => aref values (offset + (first_row + row))
          end = Ok (stored_value column (first_row + row))) as ->
    by (apply (row_value_ok column (first_row + n)); (done || lia)).
  rewrite bind_Ok. eexists; split; [done|]. split.
  { destruct (pg_batch_int4_compare _ _ _); auto with words. }
  intros i. destruct (decide (i = row)) as [->|Hi].
  - destruct (Z.leb_spec 0 row), (Z.ltb_spec row (row + 1)); try lia. simpl.
    destruct (pg_batch_int4_compare _ _ _) eqn:E; rewrite ?Z.lor_spec, Hbits, E.
    + by rewrite testbit_bit64, Z.eqb_refl, orb_true_r by lia.
    + by rewrite andb_false_r.
  - replace (i <? row + 1) with (i <? row).
    2: { destruct (Z.ltb_spec i row), (Z.ltb_spec i (row + 1)); lia. }
    destruct (pg_batch_int4_compare (stored_value column (first_row + row)) _ _);
      rewrite ?Z.lor_spec, ?testbit_bit64, Hbits by lia; [|done].
    destruct (Z.eqb_spec i row); [done|]. by rewrite orb_false_r.
Qed.

Lemma simd_compare_ok target column first_row n op scalar :
  target ≠ NO_SIMD → is_s32 scalar → 0 ≤ first_row → 0 ≤ n ≤ 64 →
  col_wf column (first_row + n) →
  ∃ m, pg_batch_int4_simd_compare target column first_row n op scalar = Ok m ∧
    compared column first_row op scalar n m.
Proof.
  intros Ht Hs Hf Hn Hc. unfold pg_batch_int4_simd_compare.
  replace (negb (pg_batch_int4_simd_available target)) with false by by destruct target.
  cbv zeta. rewrite foldM_fmap.
  edestruct (for_inv (λ k m, compared column first_row op scalar (4 * k) m)) as (m & -> & Hm);
    [| | |rewrite bind_Ok].
  - zlia.
  - split; [done|]. intros i. rewrite Z.bits_0.
    destruct (Z.leb_spec 0 i), (Z.ltb_spec i (4 * 0)); try lia; done.
  - intros k m Hk Hm. replace (4 * (k + 1)) with (4 * k + 4) by lia.
    apply (simd_block_ok target column first_row n); try done; zlia.
  - replace (seqZ (4 * (n / 4)) (n - 4 * (n / 4)))
      with (Z.add (4 * (n / 4)) <$> seqZ 0 (n - 4 * (n / 4))).
    2: { by rewrite fmap_add_seqZ, Z.add_0_r. }
    rewrite foldM_fmap.
    edestruct (for_inv (λ k m, compared column first_row op scalar (4 * (n / 4) + k) m))
      as (m' & -> & Hm'); [| | |exists m'; split; [done|]].
    + zlia.
    + by rewrite Z.add_0_r.
    + intros k mk Hk Hmk. replace (4 * (n / 4) + (k + 1)) with (4 * (n / 4) + k + 1) by lia.
      apply (simd_tail_ok column first_row n); try done; zlia.
    + by replace (4 * (n / 4) + (n - 4 * (n / 4))) with n in Hm' by lia.
Qed.

(** One word of the filter: its rows, masked to the batch, then narrowed to
    those that pass, on the vector path and on the scalar path alike. *)
Lemma filter_word_ok target column first_row rows n op scalar (simd : bool) :
  is_u64 rows → rows_below rows n → 0 ≤ first_row → 0 < n ≤ 64 → is_s32 scalar →
  col_wf column (first_row + n) → (simd = true → target ≠ NO_SIMD) →
  ∃ m, (if simd then
          passing ← pg_batch_int4_simd_compare target column first_row n op scalar;
          not_null ← not_null_mask column first_row n rows;
          Ok (Z.land rows (Z.land passing not_null))
        else scalar_compare column first_row rows op scalar) = Ok m ∧ is_u64 m ∧
    ∀ i, Z.testbit m i = Z.testbit rows i && row_passes column op scalar (first_row + i).
Proof.
  intros Hu Hb Hf Hn Hs Hc Ht. destruct simd; [|by apply scalar_compare_ok with n].
  destruct (simd_compare_ok target column first_row n op scalar) as (p & -> & Hp & Hpb);
    [auto|done|done|lia|done|].
  destruct (not_null_mask_ok column first_row n rows) as (nn & -> & Hnn & Hnb); [done..|].
  rewrite !bind_Ok. eexists; split; [done|]. split; [auto with words|]. intros i.
  rewrite !Z.land_spec, Hpb, Hnb. unfold row_passes, cell.
  destruct (Z.testbit rows i) eqn:E; simpl; [|done]. pose proof (Hb i E).
  destruct (Z.leb_spec 0 i), (Z.ltb_spec i n); try lia.
  - simpl. by destruct (cell_null column (first_row + i)); rewrite ?andb_false_r, ?andb_true_r.
  - rewrite Z.testbit_neg_r in E by lia. done.
Qed.

Lemma rows_below_masked w n : 0 ≤ n → rows_below (Z.land w (Z.ones n)) n.
Proof.
  intros Hn i. rewrite Z.land_spec, testbit_ones by lia.
  destruct (Z.ltb_spec i n); [done|]. by rewrite !andb_false_r.
Qed.

(** After [word] words: the rows below are filtered, the others untouched,
    and no bit beyond the batch has appeared. *)
Definition filter_inv (column : PgBatchInt4Vector) (s : PgBatchSelection)
    (op : PgBatchInt4Op) (scalar word : Z) (t : PgBatchSelection) : Prop :=
  sel_wf t ∧ nrows t = nrows s ∧
  (∀ row, 0 ≤ row < nrows s → selected t row =
     selected s row && (row_passes column op scalar row || (word * 64 <=? row))) ∧
  (∀ row, nrows s ≤ row < nwords s * 64 → selected t row = true → selected s row = true).

Lemma filter_inv_store column s op scalar word t m :
  sel_wf s → 0 ≤ word < nwords s → filter_inv column s op scalar word t → is_u64 m →
  (∀ i, Z.testbit m i =
     Z.testbit (Z.land (zget 0 (words t) word) (Z.ones (Z.min 64 (nrows s - word * 64)))) i &&
     row_passes column op scalar (word * 64 + i)) →
  filter_inv column s op scalar (word + 1) (with_word t word m).
Proof.
  intros Hs Hw (Ht & Htn & Hsel & Htail) Hm Hbits. pose proof (wf_nwords s Hs).
  assert (Htw : nwords t = nwords s) by (rewrite (wf_nwords t Ht), Htn; done).
  assert (Hword : ∀ row, 0 ≤ row < nwords s * 64 → row / 64 = word →
    Z.testbit m (row mod 64) =
      selected t row && (row <? nrows s) && row_passes column op scalar row).
  { intros row Hrow E. rewrite Hbits, Z.land_spec, testbit_ones by zlia.
    unfold selected. rewrite E. f_equal; [f_equal|f_equal; zlia].
    destruct (Z.leb_spec 0 (row mod 64)), (Z.ltb_spec (row mod 64) (Z.min 64 (nrows s - word * 64))),
      (Z.ltb_spec row (nrows s)); try done; zlia. }
  split_and!; [by apply with_word_wf|done| |]; intros row Hrow;
    rewrite selected_with_word by (done || zlia); case_decide as E.
  - rewrite Hword, Hsel by (done || zlia).
    destruct (Z.ltb_spec row (nrows s)), (Z.leb_spec (word * 64) row),
      (Z.leb_spec ((word + 1) * 64) row); try zlia.
    by rewrite orb_true_r, orb_false_r, !andb_true_r.
  - rewrite Hsel by done. f_equal. f_equal.
    destruct (Z.leb_spec (word * 64) row), (Z.leb_spec ((word + 1) * 64) row); try done; zlia.
  - rewrite Hword by (done || zlia).
    destruct (Z.ltb_spec row (nrows s)); [lia|]. rewrite andb_false_r. done.
  - auto.
Qed.

Lemma filter_inv_skip column s op scalar word t :
  sel_wf s → 0 ≤ word < nwords s → filter_inv column s op scalar word t →
  Z.land (zget 0 (words t) word) (Z.ones (Z.min 64 (nrows s - word * 64))) = 0 →
  filter_inv column s op scalar (word + 1) t.
Proof.
  intros Hs Hw (Ht & Htn & Hsel & Htail) Hz. pose proof (wf_nwords s Hs).
  split_and!; [done|done| |done]. intros row Hrow. rewrite Hsel by done.
  destruct (Z.leb_spec (word * 64) row), (Z.leb_spec ((word + 1) * 64) row);
    try done; try zlia.
  enough (selected s row = false) as -> by done.
  specialize (Hsel row Hrow). destruct (Z.leb_spec (word * 64) row); [|lia].
  rewrite orb_true_r, andb_true_r in Hsel. rewrite <- Hsel. unfold selected.
  replace (row / 64) with word by zlia.
  apply (f_equal (λ z, Z.testbit z (row mod 64))) in Hz.
  rewrite Z.land_spec, testbit_ones, Z.bits_0 in Hz by zlia.
  destruct (Z.leb_spec 0 (row mod 64)), (Z.ltb_spec (row mod 64) (Z.min 64 (nrows s - word * 64)));
    try zlia. by rewrite andb_true_r in Hz.
Qed.

Lemma filter_step_ok target column s op scalar enable_simd word t :
  sel_wf s → col_wf column (nrows s) → is_s32 scalar → 0 ≤ word < nwords s →
  filter_inv column s op scalar word t →
  ∃ t', (w ← aref (words t) word;
         mask ← word_mask (nrows s) word;
         let rows := Z.land w mask in
         let first_row := word * 64 in
         let word_nrows := Z.min 64 (nrows s - first_row) in
         if rows =? 0 then Ok t
         else if enable_simd && pg_batch_int4_simd_available target &&
                 (rows =? mask) && (4 <=? word_nrows) then
           passing ← pg_batch_int4_simd_compare target column first_row word_nrows op scalar;
           not_null ← not_null_mask column first_row word_nrows rows;
           store_word t word (Z.land rows (Z.land passing not_null))
         else
           passing ← scalar_compare column first_row rows op scalar;
           store_word t word passing) = Ok t' ∧
    filter_inv column s op scalar (word + 1) t'.
Proof.
  intros Hs Hc Hsc Hw (Ht & Htn & Hsel & Htail). pose proof (wf_nwords s Hs).
  assert (Htw : nwords t = nwords s) by (rewrite (wf_nwords t Ht), Htn; done).
  rewrite word_read, bind_Ok, word_mask_ok, bind_Ok by (done || zlia). cbv zeta.
  set (n := Z.min 64 (nrows s - word * 64)). set (w := zget 0 (words t) word).
  assert (Hn : 0 < n ≤ 64) by zlia.
  assert (Hu : is_u64 (Z.land w (Z.ones n))).
  { unfold n, w. rewrite <- Htn. apply masked_u64; (done || lia). }
  destruct (Z.eqb_spec (Z.land w (Z.ones n)) 0) as [Hz|_].
  { eexists; split; [done|]. by apply filter_inv_skip. }
  set (simd := enable_simd && _ && _ && _).
  destruct (filter_word_ok target column (word * 64) (Z.land w (Z.ones n)) n op scalar simd)
    as (m & Em & Hm & Hbits); try done; try lia.
  { apply rows_below_masked. lia. }
  { apply col_wf_le with (nrows s); [lia|done]. }
  { unfold simd. by destruct target, enable_simd. }
  exists (with_word t word m). split; [|by apply filter_inv_store].
  rewrite <- (store_word_ok t word m), <- (bind_Ok m (store_word t word)), <- Em by (done || lia).
  destruct simd; [|done].
  by destruct (pg_batch_int4_simd_compare _ _ _ _ _ _); [destruct (not_null_mask _ _ _ _)| |].
Qed.

Lemma filter_int4_ok target column s op scalar enable_simd :
  sel_wf s → col_wf column (nrows s) → is_s32 scalar →
  ∃ s', pg_batch_filter_int4 target column s op scalar enable_simd = Ok s' ∧
    sel_wf s' ∧ nrows s' = nrows s ∧ (sel_clean s → sel_clean s') ∧
    ∀ row, 0 ≤ row < nrows s →
      selected s' row = selected s row && row_passes column op scalar row.
Proof.
  intros Hs Hc Hsc. unfold pg_batch_filter_int4. pose proof (wf_nrows s Hs).
  pose proof (wf_nwords s Hs) as Hnw.
  destruct (Z.ltb_spec 0 (nrows s)); [|lia]. rewrite (proj2 (Z.eqb_eq _ _) Hnw).
  cbn [assert_]. rewrite !bind_Ok.
  edestruct (for_inv (filter_inv column s op scalar))
    as (s' & -> & Hs' & Hn' & Hsel & Htail); [zlia| | |].
  - split_and!; [done|done| |done]. intros row Hrow.
    destruct (Z.leb_spec (0 * 64) row); [|lia]. by rewrite orb_true_r, andb_true_r.
  - intros word t Hw HI. by apply filter_step_ok.
  - exists s'. split_and!; [done|done|done| |].
    + intros Hclean row Hrow. rewrite Hn' in Hrow. apply not_true_is_false. intros Ht.
      apply Htail in Ht; [|rewrite (wf_nwords s' Hs'), Hn', <- Hnw in Hrow; done].
      rewrite Hclean in Ht; [done|].
      rewrite (wf_nwords s' Hs'), Hn', <- Hnw in Hrow. done.
    + intros row Hrow. rewrite Hsel by done. destruct (Z.leb_spec (nwords s * 64) row); [zlia|].
      by rewrite orb_false_r.
Qed.

(** C12. [pg_batch_filter_int4] keeps exactly the selected rows whose value is
    not NULL and satisfies the comparison, for both layouts, on every
    instruction set and with or without SIMD; it never reads outside the
    column, and never selects a row beyond the batch that was not set. *)
Theorem filter_int4_spec target column s op scalar enable_simd :
  sel_wf s → col_wf column (nrows s) → is_s32 scalar →
  ∃ s', pg_batch_filter_int4 target column s op scalar enable_simd = Ok s' ∧
    sel_wf s' ∧ nrows s' = nrows s ∧ (sel_clean s → sel_clean s') ∧
    ∀ row, 0 ≤ row < nrows s →
      selected s' row = selected s row && row_passes column op scalar row.
Proof. apply filter_int4_ok. Qed.

(** *** Kernels that only read the selection *)

Lemma masked_chunk s word :
  sel_wf s → 0 ≤ word < nwords s →
  (λ b, word * 64 + b) <$>
    bits_of (Z.land (zget 0 (words s) word) (Z.ones (Z.min 64 (nrows s - word * 64)))) =
  filter (λ row, selected s row = true)
    (seqZ (word * 64) (Z.min 64 (nrows s - word * 64))).
Proof.
  intros Hs Hw. pose proof (wf_nwords s Hs).
  set (n := Z.min 64 (nrows s - word * 64)). assert (Hn : 0 < n ≤ 64) by zlia.
  replace (seqZ (word * 64) n) with (Z.add (word * 64) <$> seqZ 0 n)
    by by rewrite fmap_add_seqZ, Z.add_0_r.
  rewrite list_filter_fmap'. f_equal. unfold bits_of. replace 64 with (n + (64 - n)) at 1 by lia.
  rewrite seqZ_app, filter_app by lia.
  rewrite (list_filter_nil _ (seqZ (0 + n) _)), app_nil_r.
  - apply list_filter_iff'. intros b Hb%elem_of_seqZ.
    rewrite Z.land_spec, testbit_ones, selected_at by lia.
    destruct (Z.leb_spec 0 b), (Z.ltb_spec b n); try lia. by rewrite andb_true_r.
  - apply Forall_forall. intros b Hb%elem_of_seqZ. rewrite Z.land_spec, testbit_ones by lia.
    destruct (Z.ltb_spec b n); [lia|]. by rewrite !andb_false_r.
Qed.

Lemma rows_below_split s word :
  sel_wf s → 0 ≤ word < nwords s →
  filter (λ row, selected s row = true) (seqZ 0 (Z.min ((word + 1) * 64) (nrows s))) =
  filter (λ row, selected s row = true) (seqZ 0 (Z.min (word * 64) (nrows s))) ++
  filter (λ row, selected s row = true) (seqZ (word * 64) (Z.min 64 (nrows s - word * 64))).
Proof.
  intros Hs Hw. pose proof (wf_nwords s Hs). pose proof (wf_nrows s Hs).
  rewrite <- filter_app. f_equal.
  replace (Z.min ((word + 1) * 64) (nrows s))
    with (Z.min (word * 64) (nrows s) + Z.min 64 (nrows s - word * 64)) by zlia.
  rewrite seqZ_app by zlia. f_equal. f_equal. zlia.
Qed.

(** A loop over the words and then over the masked set bits of each visits
    the selected rows in order. *)
Lemma for_selected {A} next (body : Z → A → res A) s acc :
  sel_wf s → clears_lowest next →
  foldM (λ word acc,
      w ← aref (words s) word;
      mask ← word_mask (nrows s) word;
      while_bits 64 next (Z.land w mask) (λ bitno acc, body (word * 64 + bitno) acc) acc)
    (seqZ 0 (nwords s)) acc = foldM body (selected_rows s) acc.
Proof.
  intros Hs Hnext. pose proof (wf_nwords s Hs). pose proof (wf_nrows s Hs).
  set (F := λ (word : Z) (acc : A), _).
  cut (∀ k : nat, Z.of_nat k ≤ nwords s → foldM F (seqZ 0 (Z.of_nat k)) acc =
         foldM body (filter (λ row, selected s row = true)
                       (seqZ 0 (Z.min (Z.of_nat k * 64) (nrows s)))) acc).
  { intros Hk. specialize (Hk (Z.to_nat (nwords s))). rewrite Z2Nat.id in Hk by zlia.
    unfold selected_rows. rewrite Hk by lia. repeat f_equal. zlia. }
  induction k as [|k IH]; intros Hk.
  { replace (Z.min (Z.of_nat 0 * 64) (nrows s)) with 0 by lia. done. }
  rewrite seqZ_S, foldM_app, IH by lia.
  replace (Z.of_nat (S k)) with (Z.of_nat k + 1) by lia.
  rewrite rows_below_split, foldM_app by (done || lia).
  destruct (foldM body _ acc) as [acc'| |]; [|done..]. rewrite !bind_Ok.
  cbn [foldM]. rewrite Z.add_0_l. unfold F.
  rewrite word_read, bind_Ok, word_mask_ok, bind_Ok, while_bits_spec
    by (first [done | zlia | apply masked_u64; (done || lia)]).
  rewrite <- masked_chunk, foldM_fmap by (done || lia).
  by destruct (foldM _ _ acc').
Qed.
End proofs.

(** ** A concrete filter *)

Lemma filter_int4_witness :
  ∃ s', pg_batch_filter_int4 USE_SSE2 sample_packed sample_selection PG_BATCH_INT4_GT 120 true = Ok s' ∧
    sel_wf s' ∧ nrows s' = 70 ∧ (sel_clean sample_selection → sel_clean s') ∧
    ∀ row, 0 ≤ row < 70 →
      selected s' row = selected sample_selection row && row_passes sample_packed PG_BATCH_INT4_GT 120 row.
Proof.
  apply (filter_int4_spec USE_SSE2 sample_packed sample_selection PG_BATCH_INT4_GT 120 true);
    [apply sample_selection_wf|apply sample_packed_wf|by unfold is_s32].
Defined.
