(* ===== verification/Int4.v ===== *)
(** * int4 arithmetic and reductions ([kernels/int4.c])

    Checked arithmetic over the selected rows of a column, and the partial
    COUNT / SUM / MIN / MAX of one batch. *)

From S2P Require Import Prelude Words Selection Vector Kernels.

Inductive PgBatchInt4ArithmeticOp : Type :=
| PG_BATCH_INT4_ADD
| PG_BATCH_INT4_SUBTRACT
| PG_BATCH_INT4_MULTIPLY
| PG_BATCH_INT4_DIVIDE
| PG_BATCH_INT4_MODULO
| PG_BATCH_INT4_NEGATE.

#[global] Instance arith_eq_dec : EqDecision PgBatchInt4ArithmeticOp.
Proof. solve_decision. Defined.

Definition PG_INT32_MIN : Z := - 2 ^ 31.

(** [MemSet(a, 0, n)] *)
Definition memset0 (l : list Z) (n : Z) : res (list Z) :=
  if (0 <=? n) && (n <=? zlength l) then Ok (replicate (Z.to_nat n) 0 ++ drop (Z.to_nat n) l)
  else Undefined.

(** [validity[row / 8] |= (uint8) 1 << (row % 8)] *)
Definition set_validity (validity : list Z) (row : Z) : res (list Z) :=
  b ← aref validity (row / 8);
  aset validity (row / 8) (Z.lor b (Z.shiftl 1 (row mod 8))).

(** [PgBatchInt4ReduceFlag] *)
Definition PG_BATCH_INT4_REDUCE_COUNT : Z := 1.
Definition PG_BATCH_INT4_REDUCE_SUM : Z := 2.
Definition PG_BATCH_INT4_REDUCE_MIN : Z := 4.
Definition PG_BATCH_INT4_REDUCE_MAX : Z := 8.

Definition has_flag (flags f : Z) : bool := negb (Z.land flags f =? 0).

Record PgBatchInt4Reduction : Type := mkReduction {
  r_count : Z;
  r_sum : Z;
  r_min : Z;
  r_max : Z;
  r_has_value : bool;
}.

Definition set_sum (r : PgBatchInt4Reduction) (v : Z) : PgBatchInt4Reduction :=
  mkReduction (r_count r) v (r_min r) (r_max r) (r_has_value r).
Definition set_count (r : PgBatchInt4Reduction) (v : Z) : PgBatchInt4Reduction :=
  mkReduction v (r_sum r) (r_min r) (r_max r) (r_has_value r).
Definition set_has_value (r : PgBatchInt4Reduction) : PgBatchInt4Reduction :=
  mkReduction (r_count r) (r_sum r) (r_min r) (r_max r) true.
Definition set_min (r : PgBatchInt4Reduction) (v : Z) : PgBatchInt4Reduction :=
  mkReduction (r_count r) (r_sum r) v (r_max r) (r_has_value r).
Definition set_max (r : PgBatchInt4Reduction) (v : Z) : PgBatchInt4Reduction :=
  mkReduction (r_count r) (r_sum r) (r_min r) v (r_has_value r).

Section int4.
Context `{PgCore}.

Definition or_overflow (r : option Z) : res Z :=
  match r with Some v => Ok v | None => Raise NumericValueOutOfRange end.

Definition int4_arithmetic (left right : Z) (op : PgBatchInt4ArithmeticOp) : res Z :=
  match op with
  | PG_BATCH_INT4_ADD => or_overflow (pg_add_s32_overflow left right)
  | PG_BATCH_INT4_SUBTRACT => or_overflow (pg_sub_s32_overflow left right)
  | PG_BATCH_INT4_MULTIPLY => or_overflow (pg_mul_s32_overflow left right)
  | PG_BATCH_INT4_DIVIDE =>
      if right =? 0 then Raise DivisionByZero
      else if (right =? -1) && (left =? PG_INT32_MIN) then Raise NumericValueOutOfRange
      else Ok (Z.quot left right)
  | PG_BATCH_INT4_MODULO =>
      if right =? 0 then Raise DivisionByZero
      else Ok (if right =? -1 then 0 else Z.rem left right)
  | PG_BATCH_INT4_NEGATE =>
      if left =? PG_INT32_MIN then Raise NumericValueOutOfRange else Ok (- left)
  end.

(** The body of the bit loop: the two output arrays after one row. *)
Definition arithmetic_row (input : PgBatchInt4Vector) (op : PgBatchInt4ArithmeticOp)
    (scalar : Z) (scalar_on_left : bool) (row : Z) (out : list Z * list Z)
    : res (list Z * list Z) :=
  isnull ← pg_batch_int4_row_is_null input row;
  if (isnull : bool) then Ok out
  else
    value ← pg_batch_int4_row_value input row;
    let left := if scalar_on_left then scalar else value in
    let right := if scalar_on_left then value else scalar in
    r ← int4_arithmetic left right op;
    output_values ← aset out.1 row r;
    output_validity ← set_validity out.2 row;
    Ok (output_values, output_validity).

Definition pg_batch_int4_arithmetic_scalar (input : PgBatchInt4Vector)
    (selection : PgBatchSelection) (op : PgBatchInt4ArithmeticOp) (scalar : Z)
    (scalar_on_left : bool) (output_values output_validity : list Z)
    : res (list Z * list Z) :=
  let nrows := nrows selection in
  let nwords := nwords selection in
  _ ← assert_ (0 <? nrows);
  _ ← assert_ (nwords =? (nrows + 63) / 64);
  output_validity ← memset0 output_validity ((nrows + 7) / 8);
  foldM (λ word out,
      w ← aref (words selection) word;
      mask ← word_mask nrows word;
      while_bits 64 clear_lowest (Z.land w mask)
        (λ bitno out, arithmetic_row input op scalar scalar_on_left (word * 64 + bitno) out) out)
    (seqZ 0 nwords) (output_values, output_validity).

Definition reduce_value (flags value : Z) (r : PgBatchInt4Reduction)
    : res PgBatchInt4Reduction :=
  r ← (if has_flag flags PG_BATCH_INT4_REDUCE_SUM
       then s ← s64_add (r_sum r) value; Ok (set_sum r s) else Ok r);
  if negb (r_has_value r) then
    let r := if has_flag flags PG_BATCH_INT4_REDUCE_MIN then set_min r value else r in
    let r := if has_flag flags PG_BATCH_INT4_REDUCE_MAX then set_max r value else r in
    Ok (set_has_value r)
  else
    let r := if has_flag flags PG_BATCH_INT4_REDUCE_MIN && (value <? r_min r)
             then set_min r value else r in
    let r := if has_flag flags PG_BATCH_INT4_REDUCE_MAX && (r_max r <? value)
             then set_max r value else r in
    Ok r.

Definition reduce_sum (column : PgBatchInt4Vector) (first_row nrows rows : Z) : res Z :=
  mask ← word_mask nrows 0;
  if rows =? mask then
    match column with
    | PG_BATCH_INT4_DATUM values _ =>
        foldM (λ row sum, d ← aref values (first_row + row); s64_add sum (DatumGetInt32 d))
          (seqZ 0 nrows) 0
    | PG_BATCH_INT4_PACKED values _ offset =>
        foldM (λ row sum, v ← aref values (offset + first_row + row); s64_add sum v)
          (seqZ 0 nrows) 0
    end
  else
    match column with
    | PG_BATCH_INT4_DATUM values _ =>
        while_bits 64 clear_lowest rows
          (λ bitno sum, d ← aref values (first_row + bitno); s64_add sum (DatumGetInt32 d)) 0
    | PG_BATCH_INT4_PACKED values _ offset =>
        while_bits 64 clear_lowest rows
          (λ bitno sum, v ← aref values (offset + first_row + bitno); s64_add sum v) 0
    end.

(** The body of the loop over words. *)
Definition reduce_word (column : PgBatchInt4Vector) (selection : PgBatchSelection)
    (flags value_flags word : Z) (result : PgBatchInt4Reduction) : res PgBatchInt4Reduction :=
  let nrows := nrows selection in
  let first_row := word * 64 in
  let word_nrows := Z.min 64 (nrows - first_row) in
  w ← aref (words selection) word;
  mask ← word_mask nrows word;
  let rows := Z.land w mask in
  if rows =? 0 then Ok result else
  not_null ← not_null_mask column first_row word_nrows rows;
  let rows := Z.land rows not_null in
  if rows =? 0 then Ok result else
  result ← (if has_flag flags PG_BATCH_INT4_REDUCE_COUNT
            then c ← s64_add (r_count result) (pg_popcount64 rows); Ok (set_count result c)
            else Ok result);
  if value_flags =? 0 then Ok (set_has_value result)
  else if value_flags =? PG_BATCH_INT4_REDUCE_SUM then
    sum ← reduce_sum column first_row word_nrows rows;
    s ← s64_add (r_sum result) sum;
    Ok (set_has_value (set_sum result s))
  else if rows =? mask then
    foldM (λ row result,
        v ← pg_batch_int4_row_value column row; reduce_value value_flags v result)
      (seqZ first_row word_nrows) result
  else
    while_bits 64 clear_bit rows (λ bitno result,
        v ← pg_batch_int4_row_value column (first_row + bitno);
        reduce_value value_flags v result) result.

Definition pg_batch_reduce_int4 (column : PgBatchInt4Vector) (selection : PgBatchSelection)
    (flags : Z) : res PgBatchInt4Reduction :=
  let value_flags := Z.land flags (Z.lor PG_BATCH_INT4_REDUCE_SUM
    (Z.lor PG_BATCH_INT4_REDUCE_MIN PG_BATCH_INT4_REDUCE_MAX)) in
  _ ← assert_ (0 <? nrows selection);
  _ ← assert_ (nwords selection =? (nrows selection + 63) / 64);
  _ ← assert_ (negb (flags =? 0));
  foldM (reduce_word column selection flags value_flags)
    (seqZ 0 (nwords selection)) (mkReduction 0 0 0 0 false).
End int4.

(** ** Specification *)

(** The exact integer result; division and remainder by zero have none. *)
Definition exact_arithmetic (left right : Z) (op : PgBatchInt4ArithmeticOp) : option Z :=
  match op with
  | PG_BATCH_INT4_ADD => Some (left + right)
  | PG_BATCH_INT4_SUBTRACT => Some (left - right)
  | PG_BATCH_INT4_MULTIPLY => Some (left * right)
  | PG_BATCH_INT4_DIVIDE => if right =? 0 then None else Some (Z.quot left right)
  | PG_BATCH_INT4_MODULO => if right =? 0 then None else Some (Z.rem left right)
  | PG_BATCH_INT4_NEGATE => Some (- left)
  end.

(** One row of [column op scalar]: NULL propagates. *)
Definition row_arithmetic `{PgCore} (input : PgBatchInt4Vector) (op : PgBatchInt4ArithmeticOp)
    (scalar : Z) (scalar_on_left : bool) (row : Z) : res (option Z) :=
  match cell input row with
  | None => Ok None
  | Some value =>
      r ← int4_arithmetic (if scalar_on_left then scalar else value)
                          (if scalar_on_left then value else scalar) op;
      Ok (Some r)
  end.

Section arithmetic_proofs.
Context `{PgCore}.

Lemma int4_arithmetic_cases left right op :
  is_s32 left → is_s32 right →
  int4_arithmetic left right op =
    match exact_arithmetic left right op with
    | None => Raise DivisionByZero
    | Some v => if in_s32 v then Ok v else Raise NumericValueOutOfRange
    end.
Proof.
  intros Hl Hr. unfold is_s32, PG_INT32_MIN in *.
  assert (Hin : ∀ v, is_s32 v → in_s32 v = true) by (intros; by apply in_s32_spec).
  assert (Hout : ∀ v, ¬ is_s32 v → in_s32 v = false)
    by (intros v Hv; apply not_true_is_false; by rewrite in_s32_spec).
  destruct op; simpl; unfold PG_INT32_MIN.
  - rewrite add_overflow_spec by done. by case_match.
  - rewrite sub_overflow_spec by done. by case_match.
  - rewrite mul_overflow_spec by done. by case_match.
  - destruct (Z.eqb_spec right 0); [done|].
    destruct (Z.eqb_spec right (-1)), (Z.eqb_spec left (- 2 ^ 31)); subst; simpl; try done;
      rewrite Hin; try done; unfold is_s32; Z.to_euclidean_division_equations; nia.
  - destruct (Z.eqb_spec right 0); [done|].
    destruct (Z.eqb_spec right (-1)); subst.
    + change (-1) with (- (1)). rewrite Z.rem_opp_r, Z.rem_1_r by done. done.
    + rewrite Hin; [done|]. unfold is_s32. Z.to_euclidean_division_equations; nia.
  - destruct (Z.eqb_spec left (- 2 ^ 31)); subst; [done|].
    rewrite Hin; [done|]. unfold is_s32. lia.
Qed.

Lemma int4_arithmetic_s32 left right op v :
  is_s32 left → is_s32 right → int4_arithmetic left right op = Ok v → is_s32 v.
Proof.
  intros Hl Hr. rewrite int4_arithmetic_cases by done.
  destruct (exact_arithmetic left right op) as [z|]; [|done].
  destruct (in_s32 z) eqn:E; [|done]. intros [= <-]. by apply in_s32_spec.
Qed.

(** C30. [int4_arithmetic] is exact integer arithmetic with SQL's errors: it
    returns the mathematical result exactly when that is an int4, raises
    "division by zero" exactly for a zero divisor of [/] or [%], and
    "integer out of range" exactly when the result does not fit; nothing
    else can happen. *)
Theorem int4_arithmetic_spec left right op :
  is_s32 left → is_s32 right →
  (∀ v, int4_arithmetic left right op = Ok v ↔ exact_arithmetic left right op = Some v ∧ is_s32 v) ∧
  (int4_arithmetic left right op = Raise DivisionByZero ↔
     right = 0 ∧ (op = PG_BATCH_INT4_DIVIDE ∨ op = PG_BATCH_INT4_MODULO)) ∧
  (int4_arithmetic left right op = Raise NumericValueOutOfRange ↔
     ∃ v, exact_arithmetic left right op = Some v ∧ ¬ is_s32 v) ∧
  int4_arithmetic left right op ≠ Undefined.
Proof.
  intros Hl Hr. rewrite int4_arithmetic_cases by done.
  assert (Hz : exact_arithmetic left right op = None ↔
    right = 0 ∧ (op = PG_BATCH_INT4_DIVIDE ∨ op = PG_BATCH_INT4_MODULO)).
  { destruct op; simpl; try destruct (Z.eqb_spec right 0); intuition congruence. }
  rewrite <- Hz. destruct (exact_arithmetic left right op) as [z|]; [|naive_solver].
  pose proof (in_s32_spec z). destruct (in_s32 z); naive_solver.
Qed.

(** The output arrays as a column view. *)
Definition packed_out (out : list Z * list Z) : PgBatchInt4Vector :=
  PG_BATCH_INT4_PACKED out.1 (Some out.2) 0.

Lemma set_validity_ok v row :
  0 ≤ row < 8 * zlength v →
  ∃ v', set_validity v row = Ok v' ∧ length v' = length v ∧
    ∀ i, 0 ≤ i < 8 * zlength v → validity_bit v' i = validity_bit v i || (i =? row).
Proof.
  intros Hr. unfold set_validity. rewrite (aref_ok 0), bind_Ok, aset_ok by zlia.
  eexists; split_and!; [done|by rewrite length_insert|]. intros i Hi.
  unfold validity_bit. rewrite zget_insert by zlia. rewrite Z.shiftl_1_l.
  case_decide as E.
  - rewrite Z.lor_spec, Z.pow2_bits_eqb, E by zlia. f_equal.
    destruct (Z.eqb_spec (row mod 8) (i mod 8)), (Z.eqb_spec i row); try done; zlia.
  - destruct (Z.eqb_spec i row); [subst; done|]. by rewrite orb_false_r.
Qed.

Lemma memset0_ok l n :
  0 ≤ n ≤ zlength l →
  ∃ l', memset0 l n = Ok l' ∧ length l' = length l ∧ ∀ i, 0 ≤ i < n → zget 0 l' i = 0.
Proof.
  intros Hn. unfold memset0.
  destruct (Z.leb_spec 0 n), (Z.leb_spec n (zlength l)); try lia. simpl.
  eexists; split_and!; [done| |].
  - rewrite length_app, length_replicate, length_drop. lia.
  - intros i Hi. unfold zget. rewrite lookup_app_l by (rewrite length_replicate; lia).
    rewrite lookup_replicate_2 by lia. done.
Qed.

(** What the output arrays hold once the rows [pre] are done. *)
Definition arithmetic_inv (input : PgBatchInt4Vector) (op : PgBatchInt4ArithmeticOp)
    (scalar : Z) (left : bool) (n : Z) (pre : list Z) (out : list Z * list Z) : Prop :=
  col_wf (packed_out out) n ∧
  ∀ row, 0 ≤ row < n →
    if bool_decide (row ∈ pre)
    then row_arithmetic input op scalar left row = Ok (cell (packed_out out) row)
    else cell (packed_out out) row = None.

Lemma arithmetic_row_step input op scalar left n pre row out v :
  is_s32 scalar → col_wf input n → 0 ≤ row < n → arithmetic_inv input op scalar left n pre out →
  row_arithmetic input op scalar left row = Ok v →
  ∃ out', arithmetic_row input op scalar left row out = Ok out' ∧
    arithmetic_inv input op scalar left n (pre ++ [row]) out'.
Proof.
  intros Hsc Hc Hrow [Hw Hcells] Hv. unfold arithmetic_row.
  assert (Hpre : ∀ r, bool_decide (r ∈ pre ++ [row]) = bool_decide (r ∈ pre) || (r =? row)).
  { intros r. destruct (Z.eqb_spec r row) as [->|].
    - rewrite orb_true_r. apply bool_decide_eq_true_2. set_solver.
    - rewrite orb_false_r. apply bool_decide_ext. set_solver. }
  rewrite (row_is_null_ok _ n), bind_Ok by done.
  pose proof Hv as Hv0. unfold row_arithmetic in Hv.
  destruct (cell input row) as [value|] eqn:Ecell; unfold cell in Ecell;
    destruct (cell_null input row) eqn:Enull; try done.
  2: { exists out. split; [done|]. split; [done|]. intros r Hr. rewrite Hpre.
       specialize (Hcells r Hr). destruct (Z.eqb_spec r row) as [->|].
       - rewrite orb_true_r. injection Hv as <-. case_match; [done|by rewrite Hcells].
       - by rewrite orb_false_r. }
  injection Ecell as <-. rewrite (row_value_ok _ n), bind_Ok by done. cbv zeta.
  pose proof (stored_value_s32 _ _ _ Hc Hrow) as Hs32.
  apply bind_ok_inv in Hv as (z & Ez & [= <-]). rewrite Ez, bind_Ok.
  apply int4_arithmetic_s32 in Ez; [|by destruct left..].
  destruct out as [values validity]. destruct Hw as (_ & Hlen & Hall & Hval & Hmax). simpl in *.
  rewrite aset_ok, bind_Ok by lia.
  destruct (set_validity_ok validity row) as (v' & -> & Hv'len & Hbits); [lia|]. rewrite bind_Ok.
  eexists; split; [done|]. split.
  - split_and!; simpl; rewrite ?length_insert, ?Hv'len; try done; try lia. by apply Forall_insert.
  - intros r Hr. rewrite Hpre. unfold packed_out, cell in *. simpl in *.
    specialize (Hcells r Hr). rewrite Z.add_0_l in *. rewrite Hbits, zget_insert by lia.
    destruct (Z.eqb_spec r row) as [->|].
    + rewrite !orb_true_r. simpl. by rewrite decide_True.
    + rewrite !orb_false_r, decide_False by congruence. exact Hcells.
Qed.

Lemma arithmetic_as_fold input s op scalar left values validity :
  sel_wf s →
  pg_batch_int4_arithmetic_scalar input s op scalar left values validity =
    (validity' ← memset0 validity ((nrows s + 7) / 8);
     foldM (arithmetic_row input op scalar left) (selected_rows s) (values, validity')).
Proof.
  intros Hs. unfold pg_batch_int4_arithmetic_scalar. pose proof (wf_nrows s Hs).
  destruct (Z.ltb_spec 0 (nrows s)); [|lia].
  rewrite (proj2 (Z.eqb_eq _ _) (wf_nwords s Hs)). cbn [assert_]. rewrite !bind_Ok.
  destruct (memset0 _ _); [|done..]. rewrite !bind_Ok.
  by apply (for_selected clear_lowest), clear_lowest_lowest.
Qed.

(** The rows of a list processed so far, when each of them succeeds. *)
Lemma arithmetic_prefix input s op scalar left values validity pre post :
  sel_wf s → col_wf input (nrows s) → is_s32 scalar →
  Forall is_s32 values → nrows s ≤ zlength values → nrows s ≤ 8 * zlength validity →
  selected_rows s = pre ++ post →
  (∀ row, row ∈ pre → ∃ v, row_arithmetic input op scalar left row = Ok v) →
  ∃ validity' out, memset0 validity ((nrows s + 7) / 8) = Ok validity' ∧
    foldM (arithmetic_row input op scalar left) pre (values, validity') = Ok out ∧
    arithmetic_inv input op scalar left (nrows s) pre out.
Proof.
  intros Hs Hc Hsc Hall Hlen Hval Hsel Hok. pose proof (wf_nrows s Hs).
  destruct (memset0_ok validity ((nrows s + 7) / 8)) as (v' & E & Hl & Hz); [zlia|].
  exists v'. rewrite E.
  destruct (foldM_inv (arithmetic_inv input op scalar left (nrows s))
    (arithmetic_row input op scalar left) pre (values, v')) as (out & Eo & Hinv); [| |by eauto].
  - split; [split_and!; simpl; (done || lia)|]. intros row Hrow.
    rewrite bool_decide_eq_false_2 by apply not_elem_of_nil.
    unfold packed_out, cell, cell_null, validity_bit. simpl.
    by rewrite Hz, Z.bits_0 by zlia.
  - intros p row q out -> Hinv.
    assert (row ∈ selected_rows s) as [Hrow _]%contains_selected_rows by (rewrite Hsel; set_solver).
    destruct (Hok row) as (v & Hv); [set_solver|]. by eapply arithmetic_row_step.
Qed.

Lemma arithmetic_scalar_ok input s op scalar left values validity :
  sel_wf s → col_wf input (nrows s) → is_s32 scalar →
  Forall is_s32 values → nrows s ≤ zlength values → nrows s ≤ 8 * zlength validity →
  (∀ row, row ∈ selected_rows s → ∃ v, row_arithmetic input op scalar left row = Ok v) →
  ∃ out, pg_batch_int4_arithmetic_scalar input s op scalar left values validity = Ok out ∧
    col_wf (packed_out out) (nrows s) ∧
    ∀ row, 0 ≤ row < nrows s →
      if selected s row
      then row_arithmetic input op scalar left row = Ok (cell (packed_out out) row)
      else cell (packed_out out) row = None.
Proof.
  intros Hs Hc Hsc Hall Hlen Hval Hok.
  destruct (arithmetic_prefix input s op scalar left values validity (selected_rows s) [])
    as (v' & out & E & Eo & Hw & Hcells); try done; [by rewrite app_nil_r|].
  exists out. rewrite arithmetic_as_fold, E, bind_Ok by done. split_and!; [done|done|].
  intros row Hrow. specialize (Hcells row Hrow).
  destruct (selected s row) eqn:Es.
  - rewrite bool_decide_eq_true_2 in Hcells by by apply contains_selected_rows. done.
  - rewrite bool_decide_eq_false_2 in Hcells; [done|].
    rewrite contains_selected_rows. intros [_ ?]. congruence.
Qed.

(** When no selected row overflows or divides by zero,
    [pg_batch_int4_arithmetic_scalar] fills the output view so that each
    selected row holds the scalar result (NULL for a NULL input) and every
    other row is NULL; the view is well formed. *)
Theorem arithmetic_scalar_spec input s op scalar left values validity :
  sel_wf s → col_wf input (nrows s) → is_s32 scalar →
  Forall is_s32 values → nrows s ≤ zlength values → nrows s ≤ 8 * zlength validity →
  (∀ row, row ∈ selected_rows s → ∃ v, row_arithmetic input op scalar left row = Ok v) →
  ∃ out, pg_batch_int4_arithmetic_scalar input s op scalar left values validity = Ok out ∧
    col_wf (packed_out out) (nrows s) ∧
    ∀ row, 0 ≤ row < nrows s →
      if selected s row
      then row_arithmetic input op scalar left row = Ok (cell (packed_out out) row)
      else cell (packed_out out) row = None.
Proof. apply arithmetic_scalar_ok. Qed.

Lemma arithmetic_scalar_fails input s op scalar left values validity pre row post e :
  sel_wf s → col_wf input (nrows s) → is_s32 scalar →
  Forall is_s32 values → nrows s ≤ zlength values → nrows s ≤ 8 * zlength validity →
  selected_rows s = pre ++ row :: post →
  (∀ r, r ∈ pre → ∃ v, row_arithmetic input op scalar left r = Ok v) →
  row_arithmetic input op scalar left row = Raise e →
  pg_batch_int4_arithmetic_scalar input s op scalar left values validity = Raise e.
Proof.
  intros Hs Hc Hsc Hall Hlen Hval Hsel Hok He.
  destruct (arithmetic_prefix input s op scalar left values validity pre (row :: post))
    as (v' & out & E & Eo & _); try done.
  rewrite arithmetic_as_fold, E, bind_Ok, Hsel, foldM_app, Eo, bind_Ok by done. simpl.
  assert (row ∈ selected_rows s) as [Hrow _]%contains_selected_rows by (rewrite Hsel; set_solver).
  unfold arithmetic_row. rewrite (row_is_null_ok _ (nrows s)), bind_Ok by done.
  unfold row_arithmetic, cell in He. destruct (cell_null input row); [done|].
  rewrite (row_value_ok _ (nrows s)), bind_Ok by done. cbv zeta.
  revert He. destruct (int4_arithmetic _ _ _); simpl; [done|by intros [= ->]|done].
Qed.

(** C31. The error raised is that of the first selected row, in row order,
    whose operation fails; rows that are not selected or NULL never fail. *)
Theorem arithmetic_scalar_error input s op scalar left values validity pre row post e :
  sel_wf s → col_wf input (nrows s) → is_s32 scalar →
  Forall is_s32 values → nrows s ≤ zlength values → nrows s ≤ 8 * zlength validity →
  selected_rows s = pre ++ row :: post →
  (∀ r, r ∈ pre → ∃ v, row_arithmetic input op scalar left r = Ok v) →
  row_arithmetic input op scalar left row = Raise e →
  pg_batch_int4_arithmetic_scalar input s op scalar left values validity = Raise e.
Proof. apply arithmetic_scalar_fails. Qed.
End arithmetic_proofs.

(** ** The reduction a batch column should have *)

Definition sumZ (l : list Z) : Z := foldl Z.add 0 l.
Definition minZ (l : list Z) : Z := match l with [] => 0 | v :: l => foldl Z.min v l end.
Definition maxZ (l : list Z) : Z := match l with [] => 0 | v :: l => foldl Z.max v l end.

Definition reduction_of (flags : Z) (vals : list Z) : PgBatchInt4Reduction :=
  mkReduction
    (if has_flag flags PG_BATCH_INT4_REDUCE_COUNT then zlength vals else 0)
    (if has_flag flags PG_BATCH_INT4_REDUCE_SUM then sumZ vals else 0)
    (if has_flag flags PG_BATCH_INT4_REDUCE_MIN then minZ vals else 0)
    (if has_flag flags PG_BATCH_INT4_REDUCE_MAX then maxZ vals else 0)
    (match vals with [] => false | _ => true end).

(** The selected values that are not NULL, in row order. *)
Definition selected_values (column : PgBatchInt4Vector) (s : PgBatchSelection) : list Z :=
  omap (cell column) (selected_rows s).

Lemma foldl_add_acc l a : foldl Z.add a l = a + sumZ l.
Proof.
  unfold sumZ. revert a. induction l as [|v l IH]; intros a; simpl; [lia|].
  rewrite IH, (IH (0 + v)). lia.
Qed.

Lemma sumZ_app l1 l2 : sumZ (l1 ++ l2) = sumZ l1 + sumZ l2.
Proof. unfold sumZ at 1. rewrite foldl_app. apply foldl_add_acc. Qed.

Lemma sumZ_bound l : Forall is_s32 l → - 2 ^ 31 * zlength l ≤ sumZ l ≤ 2 ^ 31 * zlength l.
Proof.
  induction 1 as [|v l Hv _ IH]; [done|]. change (v :: l) with ([v] ++ l).
  rewrite sumZ_app, length_app. change (sumZ [v]) with v. unfold is_s32 in Hv. simpl length. lia.
Qed.

Lemma minZ_snoc l v : minZ (l ++ [v]) = match l with [] => v | _ => Z.min (minZ l) v end.
Proof. destruct l as [|w l]; [done|]. simpl. by rewrite foldl_app. Qed.

Lemma maxZ_snoc l v : maxZ (l ++ [v]) = match l with [] => v | _ => Z.max (maxZ l) v end.
Proof. destruct l as [|w l]; [done|]. simpl. by rewrite foldl_app. Qed.

Lemma s64_add_ok a b : - 2 ^ 63 ≤ a + b < 2 ^ 63 → s64_add a b = Ok (a + b).
Proof.
  intros Hr. unfold s64_add, in_s64.
  destruct (Z.leb_spec (- 2 ^ 63) (a + b)), (Z.ltb_spec (a + b) (2 ^ 63)); try lia. done.
Qed.

Section reduce_proofs.
Context `{PgCore}.

Lemma sum_loop_ok (f : Z → Z) L acc :
  Forall (λ b, is_s32 (f b)) L → zlength L ≤ 64 → acc = 0 →
  foldM (λ b sum, s64_add sum (f b)) L acc = Ok (sumZ (f <$> L)).
Proof.
  intros HL Hlen ->.
  destruct (foldM_inv (λ pre sum, sum = sumZ (f <$> pre)) (λ b sum, s64_add sum (f b)) L 0)
    as (a & -> & ->); [done| |done].
  intros pre b post a E ->. rewrite fmap_app, sumZ_app. rewrite s64_add_ok; [by eexists|].
  rewrite E in HL, Hlen. apply Forall_app in HL as [Hpre [Hb _]%Forall_cons].
  rewrite length_app in Hlen. simpl in Hlen.
  pose proof (sumZ_bound (f <$> pre)) as Hs. rewrite length_fmap in Hs.
  specialize (Hs ltac:(by apply Forall_fmap)). unfold is_s32 in Hb. lia.
Qed.

Lemma bits_of_ones n : 0 ≤ n ≤ 64 → bits_of (Z.ones n) = seqZ 0 n.
Proof.
  intros Hn. unfold bits_of. replace 64 with (n + (64 - n)) by lia.
  rewrite seqZ_app, filter_app by lia.
  rewrite (list_filter_nil _ (seqZ (0 + n) _)), app_nil_r.
  - rewrite list_filter_all; [done|]. apply Forall_forall. intros i Hi%elem_of_seqZ.
    rewrite testbit_ones by lia. destruct (Z.leb_spec 0 i), (Z.ltb_spec i n); lia.
  - apply Forall_forall. intros i Hi%elem_of_seqZ. rewrite testbit_ones by lia.
    destruct (Z.ltb_spec i n); [lia|]. by rewrite andb_false_r.
Qed.

Lemma length_bits_of w : zlength (bits_of w) ≤ 64.
Proof.
  unfold bits_of. pose proof (length_filter (λ i, Z.testbit w i = true) (seqZ 0 64)) as Hl.
  rewrite length_seqZ in Hl. lia.
Qed.

(** The values of a word whose set bits are rows with a value. *)
Definition word_values (column : PgBatchInt4Vector) (first_row rows : Z) : list Z :=
  (λ b, stored_value column (first_row + b)) <$> bits_of rows.

Lemma word_values_s32 column first_row n rows :
  is_u64 rows → rows_below rows n → 0 ≤ first_row → col_wf column (first_row + n) →
  Forall (λ b, is_s32 (stored_value column (first_row + b))) (bits_of rows).
Proof.
  intros Hu Hb Hf Hc. pose proof (bits_of_range rows) as Hr.
  rewrite Forall_forall in Hr |- *. intros b Hin. specialize (Hr b Hin).
  apply elem_of_bits_of in Hin; [|done]. specialize (Hb b Hin).
  apply stored_value_s32 with (first_row + n); [done|lia].
Qed.

Lemma reduce_sum_ok column first_row n rows :
  is_u64 rows → rows_below rows n → 0 ≤ first_row → 0 < n ≤ 64 → col_wf column (first_row + n) →
  reduce_sum column first_row n rows = Ok (sumZ (word_values column first_row rows)).
Proof.
  intros Hu Hb Hf Hn Hc. unfold reduce_sum, word_values.
  pose proof (word_values_s32 _ _ _ _ Hu Hb Hf Hc) as Hall.
  rewrite word_mask_ok, bind_Ok, Z.min_r by lia.
  replace (n - 0 * 64) with n by lia.
  assert (Hread : ∀ b sum, b ∈ bits_of rows →
    (v ← pg_batch_int4_row_value column (first_row + b); s64_add sum v) =
    s64_add sum (stored_value column (first_row + b))).
  { intros b sum Hin. pose proof (bits_of_lt _ _ Hin) as Hr. apply elem_of_bits_of in Hin; [|done]. specialize (Hb b Hin).
    rewrite (row_value_ok _ (first_row + n)) by (done || lia). done. }
  rewrite <- (sum_loop_ok _ _ 0 Hall (length_bits_of _) eq_refl).
  assert (Hfold : foldM (λ b sum, v ← pg_batch_int4_row_value column (first_row + b); s64_add sum v)
                    (bits_of rows) 0 =
                  foldM (λ b sum, s64_add sum (stored_value column (first_row + b))) (bits_of rows) 0).
  { apply foldM_ext. auto. }
  rewrite <- Hfold.
  destruct (Z.eqb_spec rows (Z.ones n)) as [->|];
    [rewrite bits_of_ones by lia
    |destruct column; rewrite while_bits_spec by (done || apply clear_lowest_lowest)];
    try destruct column; apply foldM_ext; intros b sum _; simpl;
    rewrite ?bind_assoc, ?Z.add_assoc; done.
Qed.

(** [r] is the reduction of [l], but for the count. *)
Definition counted (flags c : Z) (l : list Z) : PgBatchInt4Reduction :=
  set_count (reduction_of flags l) c.

Lemma reduce_value_ok flags value_flags c l v :
  (∀ f, f ∈ [2; 4; 8] → has_flag value_flags f = has_flag flags f) →
  Forall is_s32 l → is_s32 v → zlength l < 2 ^ 31 →
  reduce_value value_flags v (counted flags c l) = Ok (counted flags c (l ++ [v])).
Proof.
  intros Hf Hl Hv Hlen. unfold reduce_value, counted, reduction_of, set_count, set_sum.
  unfold PG_BATCH_INT4_REDUCE_SUM, PG_BATCH_INT4_REDUCE_MIN, PG_BATCH_INT4_REDUCE_MAX.
  rewrite !Hf by set_solver. simpl.
  rewrite s64_add_ok.
  2: { pose proof (sumZ_bound l Hl). unfold is_s32 in Hv. case_match; lia. }
  rewrite minZ_snoc, maxZ_snoc, sumZ_app.
  change (sumZ [v]) with v.
  destruct (has_flag flags 2), (has_flag flags 4), (has_flag flags 8), l as [|w l]; simpl;
    unfold set_min, set_max, set_has_value; simpl;
    repeat match goal with |- context [?a <? ?b] => destruct (Z.ltb_spec a b); simpl end;
    repeat f_equal; cbn [r_min r_max] in *; lia.
Qed.

Lemma reduce_values_ok flags value_flags c (f : Z → Z) L l :
  (∀ f, f ∈ [2; 4; 8] → has_flag value_flags f = has_flag flags f) →
  Forall is_s32 l → Forall (λ b, is_s32 (f b)) L → zlength l + zlength L ≤ 2 ^ 31 →
  foldM (λ b r, reduce_value value_flags (f b) r) L (counted flags c l) =
    Ok (counted flags c (l ++ (f <$> L))).
Proof.
  intros Hf Hl HL. revert l Hl. induction HL as [|b L Hb HL IH]; intros l Hl Hlen; simpl.
  - by rewrite app_nil_r.
  - simpl in Hlen. rewrite reduce_value_ok by (done || lia). simpl.
    rewrite IH, <- app_assoc; [done| |rewrite length_app; simpl; lia].
    by apply Forall_app_2, Forall_singleton.
Qed.
End reduce_proofs.

Section reduce_theorem.
Context `{PgCore}.

Lemma has_flag_sub flags m f : Z.land m f = f → has_flag (Z.land flags m) f = has_flag flags f.
Proof. intros E. unfold has_flag. by rewrite <- Z.land_assoc, E. Qed.

(** The set bits of a word after its NULL rows are removed are the rows
    that hold a value. *)
Lemma word_values_omap column first_row rows rows' :
  is_u64 rows →
  (∀ i, Z.testbit rows' i = Z.testbit rows i && negb (cell_null column (first_row + i))) →
  word_values column first_row rows' =
    omap (cell column) ((λ b, first_row + b) <$> bits_of rows).
Proof.
  intros Hu Hbits. unfold word_values, bits_of.
  induction (seqZ 0 64) as [|b l IH]; [done|].
  rewrite !filter_cons, Hbits. unfold cell.
  destruct (Z.testbit rows b); simpl; [|done].
  destruct (cell_null column (first_row + b)); simpl; [exact IH|f_equal; exact IH].
Qed.

(** The reduction of one word with at least one value. *)
Lemma reduce_word_values_ok column first_row n rows flags value_flags l mask :
  is_u64 rows → rows_below rows n → 0 ≤ first_row → 0 < n ≤ 64 → col_wf column (first_row + n) →
  rows ≠ 0 → mask = Z.ones n →
  value_flags = Z.land flags 14 → Forall is_s32 l → zlength l + 64 ≤ 2 ^ 31 →
  (result ← (if has_flag flags PG_BATCH_INT4_REDUCE_COUNT
             then c ← s64_add (r_count (reduction_of flags l)) (pg_popcount64 rows);
                  Ok (set_count (reduction_of flags l) c)
             else Ok (reduction_of flags l));
   if value_flags =? 0 then Ok (set_has_value result)
   else if value_flags =? PG_BATCH_INT4_REDUCE_SUM then
     sum ← reduce_sum column first_row n rows;
     s ← s64_add (r_sum result) sum;
     Ok (set_has_value (set_sum result s))
   else if rows =? mask then
     foldM (λ row result,
         v ← pg_batch_int4_row_value column row; reduce_value value_flags v result)
       (seqZ first_row n) result
   else
     while_bits 64 clear_bit rows (λ bitno result,
         v ← pg_batch_int4_row_value column (first_row + bitno);
         reduce_value value_flags v result) result) =
  Ok (reduction_of flags (l ++ word_values column first_row rows)).
Proof.
  intros Hu Hb Hf Hn Hc Hne -> -> Hl Hlen.
  pose proof (word_values_s32 _ _ _ _ Hu Hb Hf Hc) as Hall.
  pose proof (length_bits_of rows) as Hlb.
  set (V := word_values column first_row rows).
  assert (HV : zlength V = zlength (bits_of rows)) by (unfold V, word_values; by rewrite length_fmap).
  assert (Hflag : ∀ f, f ∈ [2; 4; 8] → has_flag (Z.land flags 14) f = has_flag flags f).
  { intros f Hin. apply has_flag_sub. set_unfold. by destruct Hin as [-> | [-> | [-> | []]]]. }
  assert (match V with [] => false | _ => true end = true) as Hnonempty.
  { destruct (word_nonzero rows Hu Hne) as (i & Hi & Hset).
    apply elem_of_bits_of in Hset; [|done]. unfold V, word_values.
    by destruct (bits_of rows); [apply not_elem_of_nil in Hset|]. }
  assert (Hhas : match l ++ V with [] => false | _ => true end = true) by by destruct l.
  set (c := if has_flag flags PG_BATCH_INT4_REDUCE_COUNT then zlength (l ++ V) else 0).
  assert ((if has_flag flags PG_BATCH_INT4_REDUCE_COUNT
           then c ← s64_add (r_count (reduction_of flags l)) (pg_popcount64 rows);
                Ok (set_count (reduction_of flags l) c)
           else Ok (reduction_of flags l)) = Ok (counted flags c l)) as ->.
  { unfold c, reduction_of, counted. simpl.
    destruct (has_flag flags PG_BATCH_INT4_REDUCE_COUNT); [|done].
    rewrite popcount_spec, s64_add_ok by (done || lia). simpl.
    by rewrite length_app, Nat2Z.inj_add, HV. }
  rewrite bind_Ok.
  assert (Hfinal : counted flags c (l ++ V) = reduction_of flags (l ++ V)) by done.
  destruct (Z.eqb_spec (Z.land flags 14) 0) as [E|_].
  { rewrite <- Hfinal. unfold counted, reduction_of, set_has_value, set_count. simpl.
    rewrite Hhas, <- !Hflag, E by set_solver. done. }
  destruct (Z.eqb_spec (Z.land flags 14) PG_BATCH_INT4_REDUCE_SUM) as [E|_].
  { rewrite (reduce_sum_ok _ _ n) by done. rewrite bind_Ok. fold V.
    pose proof (sumZ_bound l Hl). pose proof (sumZ_bound V) as HVs.
    specialize (HVs ltac:(unfold V, word_values; by apply Forall_fmap)).
    rewrite <- Hfinal. unfold counted, reduction_of, set_has_value, set_count, set_sum. simpl.
    rewrite Hhas, <- !Hflag, E by set_solver. simpl.
    change (has_flag PG_BATCH_INT4_REDUCE_SUM PG_BATCH_INT4_REDUCE_SUM) with true.
    rewrite s64_add_ok, sumZ_app by lia. done. }
  rewrite <- Hfinal. unfold V, word_values.
  rewrite <- (reduce_values_ok flags (Z.land flags 14)) by (done || lia).
  assert (Hread : ∀ b r, b ∈ bits_of rows →
    (v ← pg_batch_int4_row_value column (first_row + b); reduce_value (Z.land flags 14) v r) =
    reduce_value (Z.land flags 14) (stored_value column (first_row + b)) r).
  { intros b r Hin. pose proof (bits_of_lt _ _ Hin) as Hr. apply elem_of_bits_of in Hin; [|done]. specialize (Hb b Hin).
    rewrite (row_value_ok _ (first_row + n)) by (done || lia). done. }
  destruct (Z.eqb_spec rows (Z.ones n)) as [->|_].
  - replace (seqZ first_row n) with (Z.add first_row <$> seqZ 0 n)
      by by rewrite fmap_add_seqZ, Z.add_0_r.
    rewrite foldM_fmap. rewrite bits_of_ones in * by lia. apply foldM_ext. auto.
  - rewrite while_bits_spec by (done || apply clear_bit_lowest). apply foldM_ext. auto.
Qed.

(** The values of the first [n] rows. *)
Definition values_below (column : PgBatchInt4Vector) (s : PgBatchSelection) (n : Z) : list Z :=
  omap (cell column) (filter (λ row, selected s row = true) (seqZ 0 (Z.min n (nrows s)))).

Lemma values_below_s32 column s n :
  col_wf column (nrows s) → 0 ≤ n → Forall is_s32 (values_below column s n).
Proof.
  intros Hc Hn. apply Forall_forall. intros v Hv.
  apply list_elem_of_omap in Hv as (row & Hrow & Hcell).
  apply list_elem_of_filter in Hrow as [_ Hrow%elem_of_seqZ].
  eapply cell_s32; [done| |done]. lia.
Qed.

Lemma values_below_length column s n : 0 ≤ n → zlength (values_below column s n) ≤ n.
Proof.
  intros Hn. unfold values_below.
  pose proof (length_omap_le (cell column)
    (filter (λ row, selected s row = true) (seqZ 0 (Z.min n (nrows s))))).
  pose proof (length_filter (λ row, selected s row = true) (seqZ 0 (Z.min n (nrows s)))) as Hf.
  rewrite length_seqZ in Hf. lia.
Qed.

Lemma reduce_word_ok column s flags word :
  sel_wf s → col_wf column (nrows s) → 0 ≤ word < nwords s →
  reduce_word column s flags (Z.land flags 14) word
    (reduction_of flags (values_below column s (word * 64))) =
  Ok (reduction_of flags (values_below column s ((word + 1) * 64))).
Proof.
  intros Hs Hc Hw. pose proof (wf_nwords s Hs) as Hnw. pose proof (wf_nrows s Hs).
  set (n := Z.min 64 (nrows s - word * 64)). assert (Hn : 0 < n ≤ 64) by zlia.
  assert (Hu := masked_u64 s word Hs Hw). fold n in Hu.
  set (rows := Z.land (zget 0 (words s) word) (Z.ones n)) in *.
  assert (Hb : rows_below rows n) by (apply rows_below_masked; lia).
  assert (Hc' : col_wf column (word * 64 + n)) by (apply col_wf_le with (nrows s); [lia|done]).
  assert (Hval : values_below column s ((word + 1) * 64) = values_below column s (word * 64) ++
            omap (cell column) ((λ b, word * 64 + b) <$> bits_of rows)).
  { unfold values_below. rewrite rows_below_split, omap_app by done. f_equal. f_equal.
    symmetry. by apply masked_chunk. }
  unfold reduce_word. rewrite word_read, bind_Ok, word_mask_ok, bind_Ok by (done || zlia).
  cbv zeta. fold n rows. rewrite Hval.
  destruct (Z.eqb_spec rows 0) as [->|Hne]; [by rewrite app_nil_r|].
  destruct (not_null_mask_ok column (word * 64) n rows) as (nn & -> & Hnn & Hnb);
    [done|done|lia|done|done|]. rewrite bind_Ok.
  assert (Hbits : ∀ i, Z.testbit (Z.land rows nn) i =
            Z.testbit rows i && negb (cell_null column (word * 64 + i))).
  { intros i. rewrite Z.land_spec, Hnb. by destruct (Z.testbit rows i). }
  rewrite <- (word_values_omap column (word * 64) rows (Z.land rows nn)) by done.
  destruct (Z.eqb_spec (Z.land rows nn) 0) as [Hz|Hnz].
  { rewrite Hz. by rewrite app_nil_r. }
  apply reduce_word_values_ok; try done; try zlia.
  - auto with words.
  - intros i Hi. rewrite Z.land_spec in Hi. bool_prop. auto.
  - apply values_below_s32; [done|lia].
  - pose proof (values_below_length column s (word * 64) ltac:(lia)). zlia.
Qed.

(** [pg_batch_reduce_int4] computes COUNT, SUM, MIN and MAX of the selected
    values that are not NULL, each only when its flag asks for it, and
    [has_value] tells whether there is one; no partial sum overflows. *)
Lemma reduce_int4_ok column s flags :
  sel_wf s → col_wf column (nrows s) → flags ≠ 0 →
  pg_batch_reduce_int4 column s flags = Ok (reduction_of flags (selected_values column s)).
Proof.
  intros Hs Hc Hf. pose proof (wf_nwords s Hs) as Hnw. pose proof (wf_nrows s Hs).
  unfold pg_batch_reduce_int4. destruct (Z.ltb_spec 0 (nrows s)); [|lia].
  rewrite (proj2 (Z.eqb_eq _ _) Hnw), (proj2 (Z.eqb_neq _ _) Hf). cbn [assert_ negb].
  rewrite !bind_Ok. change (Z.lor _ (Z.lor _ _)) with 14.
  destruct (for_inv (λ word r, r = reduction_of flags (values_below column s (word * 64)))
    (reduce_word column s flags (Z.land flags 14)) (nwords s) (mkReduction 0 0 0 0 false))
    as (r & -> & ->); [zlia| | |].
  - unfold values_below. replace (Z.min (0 * 64) (nrows s)) with 0 by lia.
    unfold reduction_of. simpl. by repeat case_match.
  - intros word r Hw ->. eexists; split; [by apply reduce_word_ok|done].
  - unfold selected_values, selected_rows, values_below. repeat f_equal. zlia.
Qed.
End reduce_theorem.

(** ** Concrete batches *)

Lemma int4_arithmetic_witness :
  (∀ v, int4_arithmetic (-2147483648) (-1) PG_BATCH_INT4_DIVIDE = Ok v ↔
     exact_arithmetic (-2147483648) (-1) PG_BATCH_INT4_DIVIDE = Some v ∧ is_s32 v) ∧
  int4_arithmetic (-2147483648) (-1) PG_BATCH_INT4_DIVIDE = Raise NumericValueOutOfRange.
Proof.
  destruct (int4_arithmetic_spec (-2147483648) (-1) PG_BATCH_INT4_DIVIDE) as (H1 & _ & _ & _);
    [done|done|]. split; [exact H1|reflexivity].
Defined.

Lemma arithmetic_scalar_witness :
  ∃ out, pg_batch_int4_arithmetic_scalar sample_packed sample_selection PG_BATCH_INT4_MULTIPLY 3 false
      (replicate 70 0) (replicate 9 255) = Ok out ∧
    col_wf (packed_out out) 70 ∧
    ∀ row, 0 ≤ row < 70 →
      if selected sample_selection row
      then row_arithmetic sample_packed PG_BATCH_INT4_MULTIPLY 3 false row = Ok (cell (packed_out out) row)
      else cell (packed_out out) row = None.
Proof.
  apply (arithmetic_scalar_spec sample_packed sample_selection PG_BATCH_INT4_MULTIPLY 3 false).
  - apply sample_selection_wf.
  - apply sample_packed_wf.
  - done.
  - by apply Forall_replicate.
  - done.
  - done.
  - intros row Hrow. vm_compute in Hrow.
    repeat (apply elem_of_cons in Hrow as [->|Hrow]; [eexists; vm_compute; reflexivity|]).
    by apply elem_of_nil in Hrow.
Defined.

(** Row 2 holds 105 and its quotient by zero is the first error. *)
Lemma arithmetic_scalar_error_witness :
  pg_batch_int4_arithmetic_scalar sample_packed sample_selection PG_BATCH_INT4_DIVIDE 0 false
    (replicate 70 0) (replicate 9 0) = Raise DivisionByZero.
Proof.
  apply (arithmetic_scalar_error sample_packed sample_selection PG_BATCH_INT4_DIVIDE 0 false _ _
    [] 0 [2; 64; 69]).
  - apply sample_selection_wf.
  - apply sample_packed_wf.
  - done.
  - by apply Forall_replicate.
  - done.
  - done.
  - by vm_compute.
  - intros r Hr. by apply elem_of_nil in Hr.
  - by vm_compute.
Defined.
