(* ===== verification/Hash.v ===== *)
(** * Hash kernel ([kernels/int4_hash.c])

    Row hashes over one or more int4 key columns, and the rows whose keys are
    all present. *)

From S2P Require Import Prelude Words Selection Vector Kernels.

Section hash.
Context `{PgCore}.

Definition hash_value (hashes : list Z) (row key value : Z) : res (list Z) :=
  let key_hash := murmurhash32 (to_u32 value) in
  if key =? 0 then aset hashes row key_hash
  else
    h ← aref hashes row;
    aset hashes row (hash_combine h key_hash).

(** [valid_rows->words[word] |= bit] and [&= ~bit] *)
Definition or_word (s : PgBatchSelection) (word bit : Z) : res PgBatchSelection :=
  w ← aref (words s) word; store_word s word (Z.lor w bit).
Definition and_not_word (s : PgBatchSelection) (word bit : Z) : res PgBatchSelection :=
  w ← aref (words s) word; store_word s word (Z.land w (not64 bit)).

Definition hash_two_keys_row (left right : PgBatchInt4Vector) (word bitno : Z)
    (st : list Z * PgBatchSelection) : res (list Z * PgBatchSelection) :=
  let row := word * 64 + bitno in
  left_null ← pg_batch_int4_row_is_null left row;
  if (left_null : bool) then Ok st else
  right_null ← pg_batch_int4_row_is_null right row;
  if (right_null : bool) then Ok st else
  l ← pg_batch_int4_row_value left row;
  r ← pg_batch_int4_row_value right row;
  let left_hash := murmurhash32 (to_u32 l) in
  let right_hash := murmurhash32 (to_u32 r) in
  hashes ← aset st.1 row (hash_combine left_hash right_hash);
  valid ← or_word st.2 word (bit64 bitno);
  Ok (hashes, valid).

Definition hash_two_keys (left right : PgBatchInt4Vector) (selection : PgBatchSelection)
    (hashes : list Z) (valid_rows : PgBatchSelection) : res (list Z * PgBatchSelection) :=
  let nrows := nrows selection in
  let nwords := nwords selection in
  _ ← assert_ ((Selection.nrows valid_rows =? nrows) && (Selection.nwords valid_rows =? nwords));
  foldM (λ word st,
      w ← aref (words selection) word;
      mask ← word_mask nrows word;
      let rows := Z.land w mask in
      valid ← store_word st.2 word 0;
      if rows =? 0 then Ok (st.1, valid)
      else while_bits 64 clear_bit rows (hash_two_keys_row left right word) (st.1, valid))
    (seqZ 0 nwords) (hashes, valid_rows).

(** The null test of the general path; unlike [pg_batch_int4_row_is_null]
    the packed index is computed in 64 bits. *)
Definition key_is_null (column : PgBatchInt4Vector) (row : Z) : res bool :=
  match column with
  | PG_BATCH_INT4_DATUM _ isnull => aref isnull row
  | PG_BATCH_INT4_PACKED _ None _ => Ok false
  | PG_BATCH_INT4_PACKED _ (Some validity) offset => validity_clear validity (offset + row)
  end.

Definition hash_key_row (column : PgBatchInt4Vector) (key word bitno : Z)
    (st : list Z * PgBatchSelection) : res (list Z * PgBatchSelection) :=
  let row := word * 64 + bitno in
  isnull ← key_is_null column row;
  if (isnull : bool) then
    valid ← and_not_word st.2 word (bit64 bitno); Ok (st.1, valid)
  else
    value ← match column with
            | PG_BATCH_INT4_DATUM values _ => d ← aref values row; Ok (DatumGetInt32 d)
            | PG_BATCH_INT4_PACKED values _ offset => aref values (offset + word * 64 + bitno)
            end;
    hashes ← hash_value st.1 row key value;
    Ok (hashes, st.2).

Definition pg_batch_hash_int4 (keys : list PgBatchInt4Vector) (nkeys : Z)
    (selection : PgBatchSelection) (hashes : list Z) (valid_rows : PgBatchSelection)
    : res (list Z * PgBatchSelection) :=
  let nrows := nrows selection in
  let nwords := nwords selection in
  _ ← assert_ (0 <? nkeys);
  _ ← assert_ (0 <? nrows);
  _ ← assert_ (nwords =? (nrows + 63) / 64);
  _ ← assert_ ((Selection.nrows valid_rows =? nrows) && (Selection.nwords valid_rows =? nwords));
  if nkeys =? 2 then
    left ← aref keys 0; right ← aref keys 1;
    hash_two_keys left right selection hashes valid_rows
  else
    valid_rows ← foldM (λ word valid,
        w ← aref (words selection) word;
        mask ← word_mask nrows word;
        store_word valid word (Z.land w mask)) (seqZ 0 nwords) valid_rows;
    foldM (λ key st,
        column ← aref keys key;
        foldM (λ word st,
            rows ← aref (words (snd st)) word;
            if rows =? 0 then Ok st
            else while_bits 64 clear_bit rows (hash_key_row column key word) st)
          (seqZ 0 nwords) st)
      (seqZ 0 nkeys) (hashes, valid_rows).
End hash.

(** ** Specification *)

Definition row_key (column : PgBatchInt4Vector) (row : Z) : Z := to_u32 (stored_value column row).

(** Keys are folded left to right with [hash_combine]. *)
Definition row_hash `{PgCore} (keys : list PgBatchInt4Vector) (row : Z) : Z :=
  match keys with
  | [] => 0
  | k :: ks => foldl (λ h k, hash_combine h (murmurhash32 (row_key k row)))
                 (murmurhash32 (row_key k row)) ks
  end.

Definition keys_present (keys : list PgBatchInt4Vector) (row : Z) : bool :=
  forallb (λ k, negb (cell_null k row)) keys.

(** The keys that are hashed so far differ from row to row while the loops
    run: [K row] are those of [row]. *)
Record hashed `{PgCore} (s : PgBatchSelection) (K : Z → list PgBatchInt4Vector)
    (hashes0 : list Z) (st : list Z * PgBatchSelection) : Prop := {
  hashed_wf : sel_wf st.2;
  hashed_nrows : nrows st.2 = nrows s;
  hashed_length : length st.1 = length hashes0;
  hashed_clean : sel_clean st.2;
  hashed_valid : ∀ row, 0 ≤ row < nrows s →
    selected st.2 row = selected s row && keys_present (K row) row;
  hashed_value : ∀ row, 0 ≤ row < nrows s → selected st.2 row = true → K row ≠ [] →
    zget 0 st.1 row = row_hash (K row) row;
  hashed_other : ∀ row, 0 ≤ row < nrows s → selected s row = false →
    zget 0 st.1 row = zget 0 hashes0 row;
}.

Section truncation.
(** C40. The in-place [int] addition of [pg_batch_int4_row_is_null] cannot
    address a row beyond 2^31 of a packed column, although its offset is an
    [int64]: the index becomes negative and the read is undefined, while the
    hash kernel, computing the same index in 64 bits, reads the bit. *)
Theorem row_is_null_truncates values validity offset row :
  0 ≤ row → 2 ^ 31 ≤ offset + row < 2 ^ 32 → offset + row < 8 * zlength validity →
  pg_batch_int4_row_is_null (PG_BATCH_INT4_PACKED values (Some validity) offset) row = Undefined ∧
  key_is_null (PG_BATCH_INT4_PACKED values (Some validity) offset) row =
    Ok (negb (validity_bit validity (offset + row))).
Proof.
  intros Hr Ho Hlen. split; [|apply validity_clear_ok; lia]. simpl.
  set (i := to_s32 (row + offset)).
  assert (i < 0) by (unfold i, to_s32; zlia).
  unfold validity_clear, aref. destruct (Z.ltb_spec (Z.quot i 8) 0); [done|].
  case_match; simpl; [|done]. destruct (Z.leb_spec 0 (Z.rem i 8)); [|done].
  exfalso. zlia.
Qed.
End truncation.

Section proofs.
Context `{PgCore}.

Lemma keys_present_app ks ks' row :
  keys_present (ks ++ ks') row = keys_present ks row && keys_present ks' row.
Proof. apply forallb_app. Qed.

Lemma row_hash_snoc ks c row :
  row_hash (ks ++ [c]) row =
    match ks with
    | [] => murmurhash32 (row_key c row)
    | _ => hash_combine (row_hash ks row) (murmurhash32 (row_key c row))
    end.
Proof. destruct ks as [|k ks]; [done|]. simpl. by rewrite foldl_app. Qed.

(** Rows that are no longer valid may count as hashed by more keys. *)
Lemma hashed_extend s K K' hashes0 st :
  hashed s K hashes0 st →
  (∀ row, 0 ≤ row < nrows s →
     K' row = K row ∨ (selected st.2 row = false ∧ ∃ ks, K' row = K row ++ ks)) →
  hashed s K' hashes0 st.
Proof.
  intros [] HK. constructor; try done; intros row Hrow.
  - destruct (HK row Hrow) as [->|(Hsel & ks & ->)]; [auto|].
    rewrite keys_present_app, andb_assoc, <- hashed_valid0, Hsel by done. done.
  - intros Hsel. destruct (HK row Hrow) as [->|(Hsel' & _)]; [auto|congruence].
Qed.

Lemma key_is_null_ok column n row :
  col_wf column n → 0 ≤ row < n → key_is_null column row = Ok (cell_null column row).
Proof.
  intros Hc Hr. destruct column as [values isnull|values [v|] offset]; simpl in *.
  - apply aref_ok. lia.
  - apply validity_clear_ok. lia.
  - done.
Qed.

(** The rows after [row] gained the key [c]. *)
Definition with_key (K : Z → list PgBatchInt4Vector) (P : Z → bool) (c : PgBatchInt4Vector)
  (row : Z) : list PgBatchInt4Vector := if P row then K row ++ [c] else K row.

(** A NULL key removes the row. *)
Lemma hashed_drop s K hashes0 st column word b :
  sel_wf s → hashed s K hashes0 st → 0 ≤ word < nwords s → 0 ≤ b < 64 →
  cell_null column (word * 64 + b) = true →
  hashed s (with_key K (λ row, row =? word * 64 + b) column) hashes0
    (st.1, with_word st.2 word (Z.land (zget 0 (words st.2) word) (not64 (bit64 b)))).
Proof.
  intros Hs [] Hw Hb Enull. set (row := word * 64 + b) in *. pose proof (wf_nwords s Hs) as Hnw.
  assert (Hnw2 : nwords st.2 = nwords s) by (rewrite (wf_nwords st.2), hashed_nrows0 by done; done).
  assert (Hdiv : row / 64 = word ∧ row mod 64 = b) by (unfold row; split; zlia).
  assert (Hsel' : ∀ r, 0 ≤ r < nwords s * 64 →
    selected (with_word st.2 word (Z.land (zget 0 (words st.2) word) (not64 (bit64 b)))) r =
    selected st.2 r && negb (r =? row)).
  { intros r Hr. rewrite selected_with_word by (done || lia). case_decide as E.
    - rewrite Z.land_spec, testbit_not64, testbit_bit64 by done. unfold selected. rewrite E.
      f_equal. destruct (Z.eqb_spec (r mod 64) b), (Z.eqb_spec r row),
        (Z.leb_spec 0 (r mod 64)), (Z.ltb_spec (r mod 64) 64); try done; zlia.
    - destruct (Z.eqb_spec r row); [subst r; lia|]. by rewrite andb_true_r. }
  constructor; simpl; try done.
  - apply with_word_wf; [done|]. apply is_u64_land; [apply word_u64; (done || lia)|auto with words].
  - intros r Hr. simpl in Hr. rewrite Hsel', hashed_clean0 by (done || lia || zlia). done.
  - intros r Hr. rewrite Hsel' by zlia. unfold with_key. rewrite hashed_valid0 by done.
    destruct (Z.eqb_spec r row) as [->|]; [|by rewrite andb_true_r].
    rewrite keys_present_app. simpl. rewrite Enull. by rewrite !andb_false_r.
  - intros r Hr. rewrite Hsel' by zlia. unfold with_key.
    destruct (Z.eqb_spec r row) as [->|]; [by rewrite andb_false_r|].
    rewrite andb_true_r. auto.
Qed.

(** A key that is present is combined into the row's hash. *)
Lemma hashed_put s K hashes0 st column row :
  nrows s ≤ zlength hashes0 → hashed s K hashes0 st → 0 ≤ row < nrows s →
  selected st.2 row = true → cell_null column row = false →
  hashed s (with_key K (λ r, r =? row) column) hashes0
    (<[Z.to_nat row := row_hash (K row ++ [column]) row]> st.1, st.2).
Proof.
  intros Hlen [] Hrow Hsel Enull. constructor; simpl; try done.
  - by rewrite length_insert.
  - intros r Hr. unfold with_key. rewrite hashed_valid0 by done.
    destruct (Z.eqb_spec r row) as [->|]; [|done].
    rewrite keys_present_app. simpl. by rewrite Enull, !andb_true_r.
  - intros r Hr Hselr Hne. unfold with_key in *. rewrite zget_insert by lia.
    destruct (Z.eqb_spec r row) as [->|]; [by rewrite decide_True|].
    rewrite decide_False by congruence. auto.
  - intros r Hr Hselr. rewrite zget_insert_ne; [auto|lia|lia|].
    intros <-. rewrite hashed_valid0, Hselr in Hsel by done. done.
Qed.

Lemma hash_value_ok s K hashes0 st column key row :
  nrows s ≤ zlength hashes0 → hashed s K hashes0 st → 0 ≤ row < nrows s →
  selected st.2 row = true → (key = 0 ↔ K row = []) →
  hash_value st.1 row key (stored_value column row) =
    Ok (<[Z.to_nat row := row_hash (K row ++ [column]) row]> st.1).
Proof.
  intros Hlen [] Hrow Hsel Hkey. unfold hash_value. rewrite row_hash_snoc.
  destruct (Z.eqb_spec key 0) as [E|E].
  - apply Hkey in E. rewrite E. apply aset_ok. lia.
  - destruct (K row) eqn:EK; [tauto|]. rewrite <- EK.
    rewrite (aref_ok 0), bind_Ok, hashed_value0 by (done || lia || congruence).
    apply aset_ok. lia.
Qed.

Lemma hash_key_row_ok s K hashes0 st column key word b :
  sel_wf s → col_wf column (nrows s) → nrows s ≤ zlength hashes0 →
  hashed s K hashes0 st → 0 ≤ word < nwords s → 0 ≤ b < 64 →
  word * 64 + b < nrows s → selected st.2 (word * 64 + b) = true →
  (key = 0 ↔ K (word * 64 + b) = []) →
  ∃ st', hash_key_row column key word b st = Ok st' ∧
    hashed s (with_key K (λ row, row =? word * 64 + b) column) hashes0 st'.
Proof.
  intros Hs Hc Hlen Hst Hw Hb Hrow Hsel Hkey. unfold hash_key_row.
  assert (Hnw2 : nwords st.2 = nwords s).
  { rewrite (wf_nwords st.2 (hashed_wf _ _ _ _ Hst)), (hashed_nrows _ _ _ _ Hst).
    symmetry. by apply wf_nwords. }
  rewrite (key_is_null_ok _ (nrows s)), bind_Ok by (done || lia).
  destruct (cell_null column (word * 64 + b)) eqn:Enull.
  - unfold and_not_word.
    rewrite word_read, bind_Ok, store_word_ok, bind_Ok
      by (done || lia || by apply (hashed_wf _ _ _ _ Hst)).
    eexists; split; [done|]. by apply hashed_drop.
  - assert (match column with
            | PG_BATCH_INT4_DATUM values _ =>
                d ← aref values (word * 64 + b); Ok (DatumGetInt32 d)
            | PG_BATCH_INT4_PACKED values _ offset => aref values (offset + word * 64 + b)
            end = Ok (stored_value column (word * 64 + b))) as ->.
    { rewrite <- (row_value_ok column (nrows s)) by (done || lia).
      destruct column; simpl; [done|]. by rewrite <- Z.add_assoc. }
    rewrite bind_Ok, (hash_value_ok s K hashes0), bind_Ok by (done || lia).
    eexists; split; [done|]. apply hashed_put; (done || lia).
Qed.

(** One key over one word. *)
Lemma hash_word_ok s K hashes0 st column key word :
  sel_wf s → col_wf column (nrows s) → nrows s ≤ zlength hashes0 →
  hashed s K hashes0 st → 0 ≤ word < nwords s →
  (∀ row, row / 64 = word → key = 0 ↔ K row = []) →
  ∃ st', (rows ← aref (words st.2) word;
          if rows =? 0 then Ok st
          else while_bits 64 clear_bit rows (hash_key_row column key word) st) = Ok st' ∧
    hashed s (with_key K (λ row, row / 64 =? word) column) hashes0 st'.
Proof.
  intros Hs Hc Hlen Hst Hw Hkey. pose proof (wf_nwords s Hs) as Hnw.
  pose proof (hashed_wf _ _ _ _ Hst) as Hwf. pose proof (hashed_nrows _ _ _ _ Hst) as Hn2.
  assert (Hnw2 : nwords st.2 = nwords s) by (rewrite (wf_nwords st.2 Hwf), Hn2; done).
  assert (Hu : is_u64 (zget 0 (words st.2) word)) by (apply word_u64; (done || lia)).
  rewrite word_read, bind_Ok by (done || lia). set (w := zget 0 (words st.2) word) in *.
  assert ((if w =? 0 then Ok st else while_bits 64 clear_bit w (hash_key_row column key word) st) =
          while_bits 64 clear_bit w (hash_key_row column key word) st) as ->.
  { destruct (Z.eqb_spec w 0) as [->|]; done. }
  rewrite while_bits_spec by (done || apply clear_bit_lowest).
  assert (Hbit : ∀ b, b ∈ bits_of w → 0 ≤ b < 64 ∧ selected st.2 (word * 64 + b) = true ∧
                   word * 64 + b < nrows s).
  { intros b Hin. pose proof (bits_of_lt _ _ Hin) as Hr. apply elem_of_bits_of in Hin; [|done].
    assert (selected st.2 (word * 64 + b) = true) as Hsel by (rewrite selected_at; done).
    split_and!; [lia|lia|done|].
    destruct (Z.lt_ge_cases (word * 64 + b) (nrows s)) as [|Hge]; [done|].
    rewrite (hashed_clean _ _ _ _ Hst) in Hsel; [done|]. rewrite Hn2, Hnw2. lia. }
  destruct (foldM_inv (λ pre t,
      hashed s (with_key K (λ row, bool_decide (row ∈ (λ b, word * 64 + b) <$> pre)) column) hashes0 t)
    (hash_key_row column key word) (bits_of w) st) as (st' & -> & Hst').
  - eapply hashed_extend; [done|]. intros row _. by left.
  - intros pre b post t E Ht.
    assert (Hin : b ∈ bits_of w) by (rewrite E; set_solver).
    destruct (Hbit b Hin) as (Hb & Hsel & Hlt).
    assert (Hnotin : bool_decide (word * 64 + b ∈ (λ b, word * 64 + b) <$> pre) = false).
    { by eapply bool_decide_eq_false_2, shifted_fresh. }
    destruct (hash_key_row_ok s _ hashes0 t column key word b Hs Hc Hlen Ht Hw Hb Hlt)
      as (t' & -> & Ht').
    { rewrite (hashed_valid _ _ _ _ Ht) by lia. unfold with_key. rewrite Hnotin.
      rewrite <- (hashed_valid _ _ _ _ Hst) by lia. done. }
    { unfold with_key. rewrite Hnotin. apply Hkey. zlia. }
    eexists; split; [done|]. eapply hashed_extend; [done|]. intros row _. left.
    unfold with_key. rewrite fmap_app.
    destruct (Z.eqb_spec row (word * 64 + b)) as [->|Hne].
    + rewrite Hnotin, bool_decide_eq_true_2; [done|]. set_solver.
    + erewrite bool_decide_ext; [done|]. set_solver.
  - exists st'. split; [done|]. eapply hashed_extend; [done|]. intros row Hrow.
    unfold with_key. destruct (bool_decide _) eqn:Ebd.
    + apply bool_decide_eq_true_1, list_elem_of_fmap in Ebd as (b & -> & Hin).
      destruct (Hbit b Hin). replace ((word * 64 + b) / 64) with word by zlia.
      rewrite Z.eqb_refl. by left.
    + destruct (Z.eqb_spec (row / 64) word) as [E|]; [right|by left].
      apply bool_decide_eq_false_1 in Ebd.
      split; [|by eexists].
      rewrite (hashed_valid _ _ _ _ Hst') by done. unfold with_key.
      rewrite bool_decide_eq_false_2 by done.
      rewrite <- (hashed_valid _ _ _ _ Hst) by done.
      apply not_true_is_false. intros Hsel. apply Ebd, list_elem_of_fmap.
      exists (row mod 64). split; [zlia|]. apply elem_of_bits_of; [done|].
      unfold selected in Hsel. by rewrite E in Hsel.
Qed.
End proofs.

Section two_keys.
Context `{PgCore}.

(** The state of the two-key path once the rows satisfying [D] are visited,
    in the words [word] has reached. *)
Record paired (s : PgBatchSelection) (left right : PgBatchInt4Vector) (hashes0 : list Z)
    (D : Z → bool) (reached : Z) (st : list Z * PgBatchSelection) : Prop := {
  paired_wf : sel_wf st.2;
  paired_nrows : nrows st.2 = nrows s;
  paired_length : length st.1 = length hashes0;
  paired_valid : ∀ row, 0 ≤ row < nwords s * 64 → row / 64 < reached →
    selected st.2 row = D row && keys_present [left; right] row;
  paired_value : ∀ row, 0 ≤ row < nrows s → zget 0 st.1 row =
    if D row && keys_present [left; right] row then row_hash [left; right] row
    else zget 0 hashes0 row;
}.

Lemma paired_ext s left right hashes0 D D' reached st :
  (∀ row, 0 ≤ row < nwords s * 64 → D row = D' row) → sel_wf s →
  paired s left right hashes0 D reached st → paired s left right hashes0 D' reached st.
Proof.
  intros HD Hs []. pose proof (wf_nwords s Hs). constructor; try done; intros row Hrow.
  - rewrite <- HD by done. auto.
  - rewrite <- HD by zlia. auto.
Qed.

Lemma paired_row_ok s left right hashes0 D word b st :
  sel_wf s → col_wf left (nrows s) → col_wf right (nrows s) → nrows s ≤ zlength hashes0 →
  0 ≤ word < nwords s → 0 ≤ b < 64 → word * 64 + b < nrows s →
  D (word * 64 + b) = false →
  paired s left right hashes0 D (word + 1) st →
  ∃ st', hash_two_keys_row left right word b st = Ok st' ∧
    paired s left right hashes0 (λ r, D r || (r =? word * 64 + b)) (word + 1) st'.
Proof.
  intros Hs Hl Hr Hlen Hw Hb Hrow HD Hst. unfold hash_two_keys_row. cbv zeta.
  set (row := word * 64 + b) in *. pose proof (wf_nwords s Hs) as Hnw.
  assert (Hdiv : row / 64 = word ∧ row mod 64 = b) by (unfold row; split; zlia).
  assert (Habsent : keys_present [left; right] row = false →
    paired s left right hashes0 (λ r, D r || (r =? row)) (word + 1) st).
  { intros Hp. destruct Hst. constructor; try done; intros r Hrr.
    - intros Hreach. rewrite paired_valid0 by done.
      destruct (Z.eqb_spec r row) as [->|]; [|by rewrite orb_false_r].
      by rewrite Hp, !andb_false_r.
    - rewrite paired_value0 by done.
      destruct (Z.eqb_spec r row) as [->|]; [|by rewrite orb_false_r].
      by rewrite Hp, !andb_false_r. }
  unfold keys_present in Habsent. simpl in Habsent.
  rewrite (row_is_null_ok left (nrows s)), bind_Ok by (done || lia).
  destruct (cell_null left row) eqn:El; [eauto|].
  rewrite (row_is_null_ok right (nrows s)), bind_Ok by (done || lia).
  destruct (cell_null right row) eqn:Er; [eauto|]. clear Habsent.
  rewrite (row_value_ok left (nrows s)), bind_Ok, (row_value_ok right (nrows s)), bind_Ok
    by (done || lia).
  assert (Hp : keys_present [left; right] row = true) by (unfold keys_present; simpl; by rewrite El, Er).
  destruct Hst. assert (Hnw2 : nwords st.2 = nwords s)
    by (rewrite (wf_nwords st.2), paired_nrows0 by done; done).
  rewrite aset_ok, bind_Ok by lia. unfold or_word.
  rewrite word_read, bind_Ok, store_word_ok, bind_Ok by (done || lia).
  eexists; split; [done|]. constructor; simpl; try done.
  - apply with_word_wf; [done|]. apply is_u64_lor; [apply word_u64; (done || lia)|auto with words].
  - by rewrite length_insert.
  - intros r Hrr Hreach. rewrite selected_with_word by (done || lia). case_decide as E.
    + rewrite Z.lor_spec, testbit_bit64 by done.
      replace (Z.testbit (zget 0 (words st.2) word) (r mod 64)) with (selected st.2 r)
        by (unfold selected; by rewrite E).
      rewrite paired_valid0 by done.
      destruct (Z.eqb_spec (r mod 64) b), (Z.eqb_spec r row) as [->|]; try zlia.
      * by rewrite Hp, !orb_true_r.
      * by rewrite !orb_false_r.
    + rewrite paired_valid0 by done. destruct (Z.eqb_spec r row) as [->|]; [lia|].
      by rewrite orb_false_r.
  - intros r Hrr. rewrite zget_insert by lia. destruct (Z.eqb_spec r row) as [->|].
    + rewrite decide_True, HD by done. simpl. by rewrite El, Er.
    + rewrite decide_False, orb_false_r by congruence. auto.
Qed.

Lemma paired_word_ok s left right hashes0 word st :
  sel_wf s → col_wf left (nrows s) → col_wf right (nrows s) → nrows s ≤ zlength hashes0 →
  0 ≤ word < nwords s →
  paired s left right hashes0
    (λ r, (r <? word * 64) && (r <? nrows s) && selected s r) word st →
  ∃ st', (w ← aref (words s) word;
          mask ← word_mask (nrows s) word;
          let rows := Z.land w mask in
          valid ← store_word st.2 word 0;
          if rows =? 0 then Ok (st.1, valid)
          else while_bits 64 clear_bit rows (hash_two_keys_row left right word) (st.1, valid)) = Ok st' ∧
    paired s left right hashes0
      (λ r, (r <? (word + 1) * 64) && (r <? nrows s) && selected s r) (word + 1) st'.
Proof.
  intros Hs Hl Hr Hlen Hw Hst. pose proof (wf_nwords s Hs) as Hnw.
  assert (Hnw2 : nwords st.2 = nwords s).
  { destruct Hst. rewrite (wf_nwords st.2), paired_nrows0 by done. done. }
  rewrite word_read, bind_Ok, word_mask_ok, bind_Ok by (done || zlia). cbv zeta.
  set (n := Z.min 64 (nrows s - word * 64)).
  assert (Hu := masked_u64 s word Hs Hw). fold n in Hu.
  set (rows := Z.land (zget 0 (words s) word) (Z.ones n)) in *.
  rewrite store_word_ok, bind_Ok by (done || lia || by apply Hst).
  assert ((if rows =? 0 then Ok (st.1, with_word st.2 word 0)
           else while_bits 64 clear_bit rows (hash_two_keys_row left right word)
                  (st.1, with_word st.2 word 0)) =
          while_bits 64 clear_bit rows (hash_two_keys_row left right word)
            (st.1, with_word st.2 word 0)) as ->.
  { destruct (Z.eqb_spec rows 0) as [->|]; done. }
  rewrite while_bits_spec by (done || apply clear_bit_lowest).
  assert (Hbits : ∀ r, 0 ≤ r < nwords s * 64 → r / 64 = word →
    (r ∈ (λ b, word * 64 + b) <$> bits_of rows ↔ r < nrows s ∧ selected s r = true)).
  { intros r Hrr E. rewrite list_elem_of_fmap.
    assert (Ht : Z.testbit rows (r mod 64) = (r <? nrows s) && selected s r).
    { unfold rows. rewrite Z.land_spec, testbit_ones by zlia. unfold selected. rewrite E.
      destruct (Z.leb_spec 0 (r mod 64)), (Z.ltb_spec (r mod 64) n), (Z.ltb_spec r (nrows s));
        try zlia; by rewrite ?andb_true_r, ?andb_false_r. }
    transitivity (Z.testbit rows (r mod 64) = true).
    - split; [intros (b & -> & Hin)|intros Hin].
      + pose proof (bits_of_lt _ _ Hin) as Hbr. apply elem_of_bits_of in Hin; [|done].
        by replace ((word * 64 + b) mod 64) with b by zlia.
      + exists (r mod 64). split; [zlia|]. by apply elem_of_bits_of.
    - rewrite Ht, andb_true_iff, Z.ltb_lt. done. }
  destruct (foldM_inv (λ pre t, paired s left right hashes0
      (λ r, (r <? word * 64) && (r <? nrows s) && selected s r ||
            bool_decide (r ∈ (λ b, word * 64 + b) <$> pre)) (word + 1) t)
    (hash_two_keys_row left right word) (bits_of rows) (st.1, with_word st.2 word 0))
    as (st' & -> & Hst').
  - destruct Hst. constructor; simpl; try done.
    + by apply with_word_wf.
    + intros r Hrr Hreach. rewrite orb_false_r, selected_with_word by (done || lia).
      case_decide as E.
      * rewrite Z.bits_0. destruct (Z.ltb_spec r (word * 64)); [zlia|done].
      * apply paired_valid0; [done|lia].
    + intros r Hrr. rewrite orb_false_r. auto.
  - intros pre b post t E Ht.
    assert (Hin : b ∈ bits_of rows) by (rewrite E; set_solver).
    pose proof (bits_of_lt _ _ Hin) as Hbr.
    assert (Hwb : word * 64 + b < nrows s ∧ selected s (word * 64 + b) = true).
    { apply Hbits; [zlia|zlia|]. apply list_elem_of_fmap. eauto. }
    edestruct (paired_row_ok s left right hashes0
      (λ r, (r <? word * 64) && (r <? nrows s) && selected s r ||
            bool_decide (r ∈ (λ b, word * 64 + b) <$> pre)) word b t) as (t' & -> & Ht');
      [done..|lia| |exact Ht|].
    + simpl. destruct (Z.ltb_spec (word * 64 + b) (word * 64)); [lia|]. simpl.
      by eapply bool_decide_eq_false_2, shifted_fresh.
    + eexists; split; [done|]. eapply paired_ext; [|done|exact Ht']. intros r Hrr. simpl.
      rewrite <- orb_assoc. f_equal. rewrite fmap_app.
      destruct (Z.eqb_spec r (word * 64 + b)) as [->|Hne].
      * rewrite orb_true_r, bool_decide_eq_true_2; [done|]. set_solver.
      * rewrite orb_false_r. apply bool_decide_ext. set_solver.
  - exists st'. split; [done|]. eapply paired_ext; [|done|exact Hst']. intros r Hrr. simpl.
    destruct (decide (r / 64 = word)) as [E|E].
    + destruct (Z.ltb_spec r (word * 64)), (Z.ltb_spec r ((word + 1) * 64)); try zlia. simpl.
      destruct ((r <? nrows s) && selected s r) eqn:Eb.
      * apply bool_decide_eq_true_2, Hbits; [done|done|]. bool_prop. done.
      * apply bool_decide_eq_false_2. rewrite Hbits by done. intros [Hlt Hsel].
        rewrite Hsel, andb_true_r in Eb. bool_prop. lia.
    + rewrite bool_decide_eq_false_2, orb_false_r.
      * f_equal. f_equal. destruct (Z.ltb_spec r (word * 64)), (Z.ltb_spec r ((word + 1) * 64)); try done; zlia.
      * intros (b & -> & Hin)%list_elem_of_fmap. pose proof (bits_of_lt _ _ Hin) as Hbr. apply E. zlia.
Qed.
End two_keys.

Section hash_theorem.
Context `{PgCore}.

Lemma hash_two_keys_ok s left right hashes0 valid0 :
  sel_wf s → sel_wf valid0 → nrows valid0 = nrows s →
  col_wf left (nrows s) → col_wf right (nrows s) → nrows s ≤ zlength hashes0 →
  ∃ st, hash_two_keys left right s hashes0 valid0 = Ok st ∧
    hashed s (λ _, [left; right]) hashes0 st.
Proof.
  intros Hs Hv Hvn Hl Hr Hlen. unfold hash_two_keys. pose proof (wf_nwords s Hs) as Hnw.
  pose proof (wf_nrows s Hs).
  assert (nwords valid0 = nwords s) as Hvw by (rewrite (wf_nwords valid0 Hv), Hvn; done).
  rewrite (proj2 (Z.eqb_eq _ _) Hvn), (proj2 (Z.eqb_eq _ _) Hvw). cbn [assert_ andb].
  rewrite bind_Ok.
  edestruct (for_inv (λ word st, paired s left right hashes0
    (λ r, (r <? word * 64) && (r <? nrows s) && selected s r) word st)) as (st & -> & []);
    [| | |exists st; split; [done|]].
  - zlia.
  - constructor; simpl; try done.
    + intros row Hrow Hreach. zlia.
    + intros row Hrow. destruct (Z.ltb_spec row (0 * 64)); [lia|done].
  - intros word st Hw Hst. by apply paired_word_ok.
  - assert (Hnw2 : nwords st.2 = nwords s) by (rewrite (wf_nwords st.2), paired_nrows0 by done; done).
    assert (Hvalid : ∀ row, 0 ≤ row < nwords s * 64 →
      selected st.2 row = (row <? nrows s) && selected s row && keys_present [left; right] row).
    { intros row Hrow. rewrite paired_valid0 by zlia.
      destruct (Z.ltb_spec row (nwords s * 64)); [done|lia]. }
    constructor; try done.
    + intros row Hrow. rewrite Hvalid by lia. destruct (Z.ltb_spec row (nrows s)); [lia|done].
    + intros row Hrow. rewrite Hvalid by zlia. destruct (Z.ltb_spec row (nrows s)); [done|lia].
    + intros row Hrow Hsel _. rewrite paired_value0 by done. rewrite Hvalid in Hsel by zlia.
      destruct (Z.ltb_spec row (nwords s * 64)); [|zlia]. by rewrite andb_true_l, Hsel.
    + intros row Hrow Hsel. rewrite paired_value0, Hsel by done.
      by rewrite !andb_false_r.
Qed.

(** The general path starts from the selection without its tail bits. *)
Lemma copy_selection_ok s valid0 hashes0 :
  sel_wf s → sel_wf valid0 → nrows valid0 = nrows s →
  ∃ v, foldM (λ word valid,
         w ← aref (words s) word;
         mask ← word_mask (nrows s) word;
         store_word valid word (Z.land w mask)) (seqZ 0 (nwords s)) valid0 = Ok v ∧
    hashed s (λ _, []) hashes0 (hashes0, v).
Proof.
  intros Hs Hv Hvn. pose proof (wf_nwords s Hs) as Hnw. pose proof (wf_nrows s Hs).
  edestruct (for_inv (λ word t, sel_wf t ∧ nrows t = nrows s ∧
    ∀ row, 0 ≤ row < nwords s * 64 → row / 64 < word →
      selected t row = (row <? nrows s) && selected s row)) as (v & -> & Hvwf & Hvn' & Hsel);
    [| | |exists v; split; [done|]].
  - zlia.
  - split_and!; [done|done|]. intros. zlia.
  - intros word t Hw (Ht & Htn & Hsel).
    assert (nwords t = nwords s) by (rewrite (wf_nwords t Ht), Htn; done).
    rewrite word_read, bind_Ok, word_mask_ok, bind_Ok, store_word_ok by (done || zlia).
    eexists; split; [done|]. split_and!; [|done|].
    + apply with_word_wf; [done|]. by apply masked_u64.
    + intros row Hrow Hreach. rewrite selected_with_word by (done || lia). case_decide as E.
      * rewrite Z.land_spec, testbit_ones, andb_comm by zlia. unfold selected. rewrite E. f_equal.
        destruct (Z.leb_spec 0 (row mod 64)),
          (Z.ltb_spec (row mod 64) (Z.min 64 (nrows s - word * 64))), (Z.ltb_spec row (nrows s));
          try done; zlia.
      * apply Hsel; [done|lia].
  - assert (Hvnw : nwords v = nwords s) by (rewrite (wf_nwords v Hvwf), Hvn'; done).
    constructor; simpl; try done.
    + intros row Hrow. rewrite Hsel by zlia. destruct (Z.ltb_spec row (nrows s)); [lia|done].
    + intros row Hrow. rewrite Hsel, andb_true_r by zlia.
      destruct (Z.ltb_spec row (nrows s)); [done|lia].
Qed.

(** One key over every word. *)
Lemma hash_key_ok s ks hashes0 st column key :
  sel_wf s → col_wf column (nrows s) → nrows s ≤ zlength hashes0 →
  hashed s (λ _, ks) hashes0 st → (key = 0 ↔ ks = []) →
  ∃ st', foldM (λ word st,
           rows ← aref (words (snd st)) word;
           if rows =? 0 then Ok st
           else while_bits 64 clear_bit rows (hash_key_row column key word) st)
         (seqZ 0 (nwords s)) st = Ok st' ∧
    hashed s (λ _, ks ++ [column]) hashes0 st'.
Proof.
  intros Hs Hc Hlen Hst Hkey. pose proof (wf_nwords s Hs). pose proof (wf_nrows s Hs).
  edestruct (for_inv (λ word t,
    hashed s (with_key (λ _, ks) (λ row, row / 64 <? word) column) hashes0 t))
    as (st' & -> & Hst'); [| | |exists st'; split; [done|]].
  - zlia.
  - eapply hashed_extend; [exact Hst|]. intros row Hrow. left. unfold with_key.
    destruct (Z.ltb_spec (row / 64) 0); [zlia|done].
  - intros word t Hw Ht.
    destruct (hash_word_ok s _ hashes0 t column key word Hs Hc Hlen Ht Hw) as (t' & -> & Ht').
    { intros row E. unfold with_key. destruct (Z.ltb_spec (row / 64) word); [lia|done]. }
    eexists; split; [done|]. eapply hashed_extend; [exact Ht'|]. intros row Hrow. left.
    unfold with_key. destruct (Z.ltb_spec (row / 64) (word + 1)),
      (Z.ltb_spec (row / 64) word), (Z.eqb_spec (row / 64) word); try done; lia.
  - eapply hashed_extend; [exact Hst'|]. intros row Hrow. left. unfold with_key.
    destruct (Z.ltb_spec (row / 64) (nwords s)); [done|zlia].
Qed.

(** C13. [pg_batch_hash_int4], on its two-key path and on its general path:
    [valid_rows] becomes the selected rows whose keys are all present, every
    such row gets [murmurhash32] of its keys folded with [hash_combine] in
    key order, and the hashes of unselected rows are not touched.  (A selected
    row that turns out to have a NULL key keeps no particular hash.) *)
Theorem hash_int4_spec s keys hashes0 valid0 :
  sel_wf s → sel_wf valid0 → nrows valid0 = nrows s → keys ≠ [] →
  Forall (λ k, col_wf k (nrows s)) keys → nrows s ≤ zlength hashes0 →
  ∃ st, pg_batch_hash_int4 keys (zlength keys) s hashes0 valid0 = Ok st ∧
    hashed s (λ _, keys) hashes0 st.
Proof.
  intros Hs Hv Hvn Hne Hk Hlen. unfold pg_batch_hash_int4. pose proof (wf_nwords s Hs) as Hnw.
  pose proof (wf_nrows s Hs).
  assert (nwords valid0 = nwords s) as Hvw by (rewrite (wf_nwords valid0 Hv), Hvn; done).
  assert (0 < zlength keys) by (destruct keys; [done|simpl; lia]).
  destruct (Z.ltb_spec 0 (zlength keys)), (Z.ltb_spec 0 (nrows s)); try lia.
  rewrite (proj2 (Z.eqb_eq _ _) Hnw), (proj2 (Z.eqb_eq _ _) Hvn), (proj2 (Z.eqb_eq _ _) Hvw).
  cbn [assert_ andb]. rewrite !bind_Ok.
  destruct (Z.eqb_spec (zlength keys) 2) as [E|_].
  - destruct keys as [|l [|r [|]]]; simpl in E; try lia.
    apply Forall_cons in Hk as [Hl [Hr _]%Forall_cons]. by apply hash_two_keys_ok.
  - destruct (copy_selection_ok s valid0 hashes0) as (v & -> & Hv0); [done..|].
    rewrite bind_Ok.
    destruct (for_inv (λ key st, hashed s (λ _, take (Z.to_nat key) keys) hashes0 st)
      (λ key st, column ← aref keys key;
         foldM (λ word st,
             rows ← aref (words (snd st)) word;
             if rows =? 0 then Ok st
             else while_bits 64 clear_bit rows (hash_key_row column key word) st)
           (seqZ 0 (nwords s)) st) (zlength keys) (hashes0, v)) as (st & -> & Hst).
    + lia.
    + done.
    + intros key st Hkey Hst. destruct (lookup_lt_is_Some_2 keys (Z.to_nat key)) as [c Hc]; [lia|].
      unfold aref. destruct (Z.ltb_spec key 0); [lia|]. rewrite Hc, bind_Ok.
      destruct (hash_key_ok s (take (Z.to_nat key) keys) hashes0 st c key)
        as (st' & Est & Hst'); [done| |done|done| |].
      * by eapply Forall_lookup_1 in Hk.
      * split; [by intros ->|]. intros [|]%take_nil_inv; [lia|done].
      * exists st'. split; [exact Est|]. replace (Z.to_nat (key + 1)) with (S (Z.to_nat key)) by lia.
        by rewrite (take_S_r _ _ _ Hc).
    + exists st. split; [done|]. by rewrite take_ge in Hst by lia.
Qed.
End hash_theorem.

(** ** Concrete keys *)

Lemma hash_int4_witness :
  ∃ st, pg_batch_hash_int4 [sample_packed; sample_datum] 2 sample_selection (replicate 70 0)
      full_selection = Ok st ∧
    hashed sample_selection (λ _, [sample_packed; sample_datum]) (replicate 70 0) st.
Proof.
  apply (hash_int4_spec sample_selection [sample_packed; sample_datum]).
  - apply sample_selection_wf.
  - apply full_selection_wf.
  - done.
  - done.
  - repeat apply Forall_cons_2; [apply sample_packed_wf|apply sample_datum_wf|apply Forall_nil_2].
  - done.
Defined.

(** A validity bitmap of 2^28 + 1 bytes, read from row 5 of a column that
    starts at element 2^31 - 3. *)
Lemma row_is_null_truncates_witness :
  let validity := replicate (Z.to_nat (2 ^ 28 + 1)) 0 in
  pg_batch_int4_row_is_null (PG_BATCH_INT4_PACKED [] (Some validity) (2 ^ 31 - 3)) 5 = Undefined ∧
  key_is_null (PG_BATCH_INT4_PACKED [] (Some validity) (2 ^ 31 - 3)) 5 =
    Ok (negb (validity_bit validity (2 ^ 31 - 3 + 5))).
Proof.
  intros validity. apply (row_is_null_truncates [] validity (2 ^ 31 - 3) 5); [lia|lia|].
  unfold validity. rewrite length_replicate. lia.
Defined.
