(* ===== verification/Spill.v ===== *)
(** * Partitioned spill storage ([spill/spill.c], private sets)

    Rows are appended to partitions through 64-row writer blocks, a bounded
    number of which are kept in memory, and read back block by block.  The
    logical tapes underneath are PostgreSQL's ([utils/logtape.h]): the class
    [LogicalTapes] with their documented behaviour. *)

From S2P Require Import Prelude Words Bytes Selection Vector Int4.

(** ** Logical tapes *)

(** What a tape holds: the bytes written so far, or, once it is rewound, all
    of its bytes and those not read yet. *)
Inductive tape_view : Type :=
| Writing (bytes : list Z)
| Reading (frozen : bool) (all rest : list Z).

Class LogicalTapes : Type := {
  LogicalTape : Type;
  LogicalTapeCreate : LogicalTape;
  LogicalTapeWrite : LogicalTape → list Z → LogicalTape;
  LogicalTapeRewindForRead : LogicalTape → LogicalTape;
  LogicalTapeFreeze : LogicalTape → LogicalTape;
  (** [LogicalTapeRead t n] reads up to [n] bytes. *)
  LogicalTapeRead : LogicalTape → Z → list Z * LogicalTape;
  tape_contents : LogicalTape → tape_view;
  tape_create_spec : tape_contents LogicalTapeCreate = Writing [];
  tape_write_spec t b bs : tape_contents t = Writing b →
    tape_contents (LogicalTapeWrite t bs) = Writing (b ++ bs);
  tape_rewind_spec t b : tape_contents t = Writing b →
    tape_contents (LogicalTapeRewindForRead t) = Reading false b b;
  tape_rewind_frozen_spec t b r : tape_contents t = Reading true b r →
    tape_contents (LogicalTapeRewindForRead t) = Reading true b b;
  (** Freezing leaves the tape at its start, ready for reading. *)
  tape_freeze_spec t b : tape_contents t = Writing b →
    tape_contents (LogicalTapeFreeze t) = Reading true b b;
  tape_read_spec t f b r n : tape_contents t = Reading f b r → 0 ≤ n →
    (LogicalTapeRead t n).1 = take (Z.to_nat n) r ∧
    tape_contents (LogicalTapeRead t n).2 = Reading f b (drop (Z.to_nat n) r);
}.

(** A tape that is its own contents, for evaluating the model. *)
#[refine] Instance reference_tapes : LogicalTapes := {
  LogicalTape := tape_view;
  LogicalTapeCreate := Writing [];
  LogicalTapeWrite t bs := match t with Writing b => Writing (b ++ bs) | _ => t end;
  LogicalTapeRewindForRead t :=
    match t with
    | Writing b => Reading false b b
    | Reading true b _ => Reading true b b
    | _ => t
    end;
  LogicalTapeFreeze t := match t with Writing b => Reading true b b | _ => t end;
  LogicalTapeRead t n :=
    match t with
    | Reading f b r => (take (Z.to_nat n) r, Reading f b (drop (Z.to_nat n) r))
    | _ => ([], t)
    end;
  tape_contents t := t;
}.
Proof. all: intros; subst; done. Defined.

(** ** Data *)

Definition PG_BATCH_SPILL_BLOCK_ROWS : Z := 64.
Definition SPILL_MAGIC : Z := 0x50474253.

(** [sizeof] of the structures on an LP64 target. *)
Definition sizeof_SpillHeader : Z := 8.
Definition sizeof_SpillWriter : Z := 280.

Record SpillHeader : Type := mkHeader { h_magic : Z; h_nrows : Z; h_ncolumns : Z }.

(** [uint32 magic; uint16 nrows; uint16 ncolumns], without padding. *)
Definition header_bytes (h : SpillHeader) : list Z :=
  le_bytes 4 (h_magic h) ++ le_bytes 2 (h_nrows h) ++ le_bytes 2 (h_ncolumns h).
Definition header_value (bs : list Z) : SpillHeader :=
  mkHeader (le_value (take 4 bs)) (le_value (take 2 (drop 4 bs)))
    (le_value (take 2 (drop 6 bs))).

(** A pending block: [values] is column-major with 64 entries per column,
    [validity] has 8 bytes per column. *)
Record SpillWriter : Type := mkWriter {
  w_nrows : Z;
  w_hashes : list Z;
  w_values : list Z;
  w_validity : list Z;
}.

Record PgBatchSpillStats : Type := mkStats {
  rows_written : Z;
  rows_read : Z;
  blocks_written : Z;
  blocks_read : Z;
  bytes_written : Z;
  bytes_read : Z;
}.

(** [uint64] and [Size] counters wrap. *)
Definition u64_add (a b : Z) : Z := (a + b) mod 2 ^ 64.

Section spill.
Context `{PgCore} `{LogicalTapes}.

(** Writers are pointers that may be [NULL]. *)
Record PgBatchSpillSet : Type := mkSet {
  ncolumns : Z;
  npartitions : Z;
  tapes : list LogicalTape;
  writers : list (option SpillWriter);
  partition_rows : list Z;
  active_writers : Z;
  max_writers : Z;
  eviction_cursor : Z;
  finished : bool;
  frozen : bool;
  stats : PgBatchSpillStats;
}.

Definition set_tapes (s : PgBatchSpillSet) t := mkSet (ncolumns s) (npartitions s) t (writers s)
  (partition_rows s) (active_writers s) (max_writers s) (eviction_cursor s) (finished s) (frozen s) (stats s).
Definition set_writers (s : PgBatchSpillSet) w := mkSet (ncolumns s) (npartitions s) (tapes s) w
  (partition_rows s) (active_writers s) (max_writers s) (eviction_cursor s) (finished s) (frozen s) (stats s).
Definition set_partition_rows (s : PgBatchSpillSet) r := mkSet (ncolumns s) (npartitions s) (tapes s)
  (writers s) r (active_writers s) (max_writers s) (eviction_cursor s) (finished s) (frozen s) (stats s).
Definition set_active (s : PgBatchSpillSet) a := mkSet (ncolumns s) (npartitions s) (tapes s) (writers s)
  (partition_rows s) a (max_writers s) (eviction_cursor s) (finished s) (frozen s) (stats s).
Definition set_cursor (s : PgBatchSpillSet) c := mkSet (ncolumns s) (npartitions s) (tapes s) (writers s)
  (partition_rows s) (active_writers s) (max_writers s) c (finished s) (frozen s) (stats s).
Definition set_finished (s : PgBatchSpillSet) fin fro := mkSet (ncolumns s) (npartitions s) (tapes s)
  (writers s) (partition_rows s) (active_writers s) (max_writers s) (eviction_cursor s) fin fro (stats s).
Definition set_stats (s : PgBatchSpillSet) st := mkSet (ncolumns s) (npartitions s) (tapes s) (writers s)
  (partition_rows s) (active_writers s) (max_writers s) (eviction_cursor s) (finished s) (frozen s) st.

(** A reader shares the tape [tapes[partition]] of its set. *)
Record PgBatchSpillReader : Type := mkReader {
  rd_partition : Z;
  rd_eof : bool;
  rd_hashes : list Z;
  rd_values : list Z;
  rd_validity : list Z;
}.

Record PgBatchSpillBlock : Type := mkBlock {
  bl_nrows : Z;
  bl_ncolumns : Z;
  bl_selection : Z;
  bl_hashes : list Z;
  bl_values : list Z;
  bl_validity : list Z;
}.

(** ** Sizes and checks *)

Definition block_bytes (ncolumns nrows : Z) : Z :=
  sizeof_SpillHeader + 4 * nrows + 8 * ncolumns + 4 * ncolumns * nrows.

Definition writer_bytes (ncolumns : Z) : res Z :=
  a ← mul_size (4 * PG_BATCH_SPILL_BLOCK_ROWS) ncolumns;
  b ← mul_size 8 ncolumns;
  ab ← add_size a b;
  add_size sizeof_SpillWriter ab.

Definition validate_partition (set : PgBatchSpillSet) (partition : Z) : res unit :=
  raise_if ((partition <? 0) || (npartitions set <=? partition))
    (Elog "pg_batch spill partition is out of range").

(** ** Writers *)

Definition free_writer (set : PgBatchSpillSet) (partition : Z) : res PgBatchSpillSet :=
  writer ← aref (writers set) partition;
  match writer with
  | None => Ok set
  | Some _ =>
      ws ← aset (writers set) partition None;
      Ok (set_active (set_writers set ws) (active_writers set - 1))
  end.

Definition flush_writer (set : PgBatchSpillSet) (partition : Z) : res PgBatchSpillSet :=
  writer ← aref (writers set) partition;
  match writer with
  | None => Ok set
  | Some writer =>
      if w_nrows writer =? 0 then Ok set else
      tape ← aref (tapes set) partition;
      (* nrows and ncolumns are stored in uint16 fields *)
      let header := mkHeader SPILL_MAGIC (w_nrows writer mod 2 ^ 16) (ncolumns set mod 2 ^ 16) in
      let tape := LogicalTapeWrite tape (header_bytes header) in
      hashes ← aslice (w_hashes writer) 0 (w_nrows writer);
      let tape := LogicalTapeWrite tape (u32_array_bytes hashes) in
      validity ← aslice (w_validity writer) 0 (8 * ncolumns set);
      let tape := LogicalTapeWrite tape validity in
      tape ← foldM (λ column tape,
          values ← aslice (w_values writer) (column * PG_BATCH_SPILL_BLOCK_ROWS) (w_nrows writer);
          Ok (LogicalTapeWrite tape (s32_array_bytes values)))
        (seqZ 0 (ncolumns set)) tape;
      ts ← aset (tapes set) partition tape;
      let st := stats set in
      let st := mkStats (rows_written st) (rows_read st) (u64_add (blocks_written st) 1)
        (blocks_read st)
        (u64_add (bytes_written st) (block_bytes (ncolumns set) (w_nrows writer)))
        (bytes_read st) in
      validity ← memset0 (w_validity writer) (8 * ncolumns set);
      ws ← aset (writers set) partition
             (Some (mkWriter 0 (w_hashes writer) (w_values writer) validity));
      Ok (set_stats (set_writers (set_tapes set ts) ws) st)
  end.

(** The eviction loop: the first allocated writer from the cursor on. *)
Fixpoint evict_writer (fuel : nat) (offset : Z) (set : PgBatchSpillSet) : res PgBatchSpillSet :=
  match fuel with
  | O => Ok set
  | S fuel =>
      let victim := (eviction_cursor set + offset) mod npartitions set in
      writer ← aref (writers set) victim;
      match writer with
      | None => evict_writer fuel (offset + 1) set
      | Some _ =>
          set ← flush_writer set victim;
          set ← free_writer set victim;
          Ok (set_cursor set ((victim + 1) mod npartitions set))
      end
  end.

Definition fresh_writer (ncolumns : Z) : SpillWriter :=
  mkWriter 0 (replicate 64 0)
    (replicate (Z.to_nat (ncolumns * PG_BATCH_SPILL_BLOCK_ROWS)) 0)
    (replicate (Z.to_nat (8 * ncolumns)) 0).

(** The writer itself is [writers set !! partition] afterwards. *)
Definition get_writer (set : PgBatchSpillSet) (partition : Z) : res PgBatchSpillSet :=
  writer ← aref (writers set) partition;
  match writer with
  | Some _ => Ok set
  | None =>
      set ← (if active_writers set =? max_writers set
             then evict_writer (Z.to_nat (npartitions set)) 0 set else Ok set);
      ws ← aset (writers set) partition (Some (fresh_writer (ncolumns set)));
      Ok (set_active (set_writers set ws) (active_writers set + 1))
  end.

(** A tuple descriptor, as far as the sources look at it. *)
Record attribute : Type := mkAttr { attisdropped : bool; atttypid : Z }.
Definition INT4OID : Z := 23.

(** [parent_context] and [tuple_desc] are not [NULL]. *)
Definition pg_batch_spill_create (tuple_desc : list attribute)
    (ncolumns npartitions buffer_limit : Z) : res PgBatchSpillSet :=
  _ ← raise_if ((ncolumns <=? 0) || (zlength tuple_desc <? ncolumns) || (npartitions <=? 0))
        (Elog "invalid pg_batch spill configuration");
  _ ← foldM (λ column _,
        attr ← aref tuple_desc column;
        raise_if (attisdropped attr || negb (atttypid attr =? INT4OID))
          (Elog "pg_batch spill column must be int4"))
      (seqZ 0 ncolumns) tt;
  bytes ← writer_bytes ncolumns;
  Ok (mkSet ncolumns npartitions
        (replicate (Z.to_nat npartitions) LogicalTapeCreate)
        (replicate (Z.to_nat npartitions) None)
        (replicate (Z.to_nat npartitions) 0)
        0 (Z.min npartitions (Z.max 1 (buffer_limit / bytes))) 0 false false
        (mkStats 0 0 0 0 0 0)).

(** ** Appending rows *)

(** One row of the pending block: [get column] is the value to store and
    whether it is valid. *)
Definition put_row (ncolumns : Z) (hash : Z) (get : Z → res (Z * bool))
    (writer : SpillWriter) : res SpillWriter :=
  let dest := w_nrows writer in
  hashes ← aset (w_hashes writer) dest hash;
  foldM (λ column w,
      c ← get column;
      values ← aset (w_values w) (column * PG_BATCH_SPILL_BLOCK_ROWS + dest) (fst c);
      validity ← (if (snd c : bool) then
          b ← aref (w_validity w) (column * 8 + dest / 8);
          aset (w_validity w) (column * 8 + dest / 8) (Z.lor b (Z.shiftl 1 (dest mod 8)))
        else Ok (w_validity w));
      Ok (mkWriter (w_nrows w) (w_hashes w) values validity))
    (seqZ 0 ncolumns) (mkWriter (dest + 1) hashes (w_values writer) (w_validity writer)).

(** The body of the row loops of [pg_batch_spill_write] and
    [pg_batch_spill_write_dense]. *)
Definition spill_row (partition : Z) (hashes : list Z) (get : Z → Z → res (Z * bool))
    (row : Z) (set : PgBatchSpillSet) : res PgBatchSpillSet :=
  writer ← aref (writers set) partition;
  match writer with
  | None => Undefined
  | Some writer =>
      hash ← aref hashes row;
      writer ← put_row (ncolumns set) hash (get row) writer;
      ws ← aset (writers set) partition (Some writer);
      let set := set_writers set ws in
      n ← aref (partition_rows set) partition;
      rows ← aset (partition_rows set) partition (u64_add n 1);
      let set := set_partition_rows set rows in
      let st := stats set in
      let set := set_stats set (mkStats (u64_add (rows_written st) 1) (rows_read st)
        (blocks_written st) (blocks_read st) (bytes_written st) (bytes_read st)) in
      if w_nrows writer =? PG_BATCH_SPILL_BLOCK_ROWS then flush_writer set partition
      else Ok set
  end.

Definition vector_cell (columns : list PgBatchInt4Vector) (row column : Z) : res (Z * bool) :=
  c ← aref columns column;
  isnull ← pg_batch_int4_row_is_null c row;
  if (isnull : bool) then Ok (0, false)
  else v ← pg_batch_int4_row_value c row; Ok (v, true).

(** The pointers are not [NULL]. *)
Definition pg_batch_spill_write (set : PgBatchSpillSet) (partition : Z)
    (columns : list PgBatchInt4Vector) (selection : PgBatchSelection) (hashes : list Z)
    : res PgBatchSpillSet :=
  _ ← validate_partition set partition;
  _ ← raise_if (finished set || (nrows selection <? 0) ||
                (PG_BATCH_SPILL_BLOCK_ROWS <? nrows selection) ||
                negb (nwords selection =? 1))
        (Elog "invalid pg_batch spill write");
  w ← aref (words selection) 0;
  let rows := Z.land w (if nrows selection =? 64 then UINT64_MAX
                        else bit64 (nrows selection) - 1) in
  if rows =? 0 then Ok set else
  set ← get_writer set partition;
  while_bits 64 clear_lowest rows (spill_row partition hashes (vector_cell columns)) set.

Definition dense_cell (values : list Z) (value_stride : Z) (validity : list Z)
    (row column : Z) : res (Z * bool) :=
  v ← aref values (column * value_stride + row);
  m ← aref validity column;
  Ok (v, negb (Z.land m (bit64 row) =? 0)).

Definition pg_batch_spill_write_dense (set : PgBatchSpillSet) (partition nrows : Z)
    (hashes values : list Z) (value_stride : Z) (validity : list Z) : res PgBatchSpillSet :=
  _ ← validate_partition set partition;
  _ ← raise_if (finished set || (nrows <=? 0) || (PG_BATCH_SPILL_BLOCK_ROWS <? nrows) ||
                (value_stride <? nrows))
        (Elog "invalid dense pg_batch spill write");
  set ← get_writer set partition;
  foldM (spill_row partition hashes (dense_cell values value_stride validity))
    (seqZ 0 nrows) set.

(** ** Finishing and reading *)

Definition pg_batch_spill_finish (set : PgBatchSpillSet) (is_frozen : bool) : res PgBatchSpillSet :=
  _ ← raise_if (finished set) (Elog "pg_batch spill set is already finished");
  set ← foldM (λ partition set,
      set ← flush_writer set partition;
      n ← aref (partition_rows set) partition;
      set ← (if negb (n =? 0) then
          tape ← aref (tapes set) partition;
          ts ← aset (tapes set) partition
                 (if is_frozen then LogicalTapeFreeze tape else LogicalTapeRewindForRead tape);
          Ok (set_tapes set ts)
        else Ok set);
      free_writer set partition)
    (seqZ 0 (npartitions set)) set;
  Ok (set_finished set true is_frozen).

Definition pg_batch_spill_partition_rows (set : PgBatchSpillSet) (partition : Z) : res Z :=
  _ ← validate_partition set partition;
  aref (partition_rows set) partition.

Definition pg_batch_spill_partition_empty (set : PgBatchSpillSet) (partition : Z) : res bool :=
  _ ← validate_partition set partition;
  n ← aref (partition_rows set) partition;
  Ok (n =? 0).

Definition rewind_tape (set : PgBatchSpillSet) (partition : Z) : res PgBatchSpillSet :=
  tape ← aref (tapes set) partition;
  ts ← aset (tapes set) partition (LogicalTapeRewindForRead tape);
  Ok (set_tapes set ts).

Definition pg_batch_spill_reader_open (set : PgBatchSpillSet) (partition : Z)
    : res (PgBatchSpillSet * PgBatchSpillReader) :=
  _ ← validate_partition set partition;
  _ ← raise_if (negb (finished set)) (Elog "pg_batch spill set is not ready for reading");
  eof ← pg_batch_spill_partition_empty set partition;
  let reader := mkReader partition eof (replicate 64 0)
    (int32_uninit (ncolumns set * PG_BATCH_SPILL_BLOCK_ROWS))
    (palloc_uninit (8 * ncolumns set)) in
  n ← aref (partition_rows set) partition;
  set ← (if frozen set && negb (n =? 0) then rewind_tape set partition else Ok set);
  Ok (set, reader).

(** [LogicalTapeRead] of exactly [n] bytes, or an error. *)
Definition read_exact (tape : LogicalTape) (n : Z) : res (list Z * LogicalTape) :=
  let '(bs, tape) := LogicalTapeRead tape n in
  if zlength bs =? n then Ok (bs, tape)
  else Raise (Elog "unexpected end of pg_batch spill file").

(** [None] is the result [false]. *)
Definition pg_batch_spill_reader_next (set : PgBatchSpillSet) (reader : PgBatchSpillReader)
    : res (PgBatchSpillSet * PgBatchSpillReader * option PgBatchSpillBlock) :=
  if rd_eof reader then Ok (set, reader, None) else
  tape ← aref (tapes set) (rd_partition reader);
  let '(hdr, tape) := LogicalTapeRead tape sizeof_SpillHeader in
  if zlength hdr =? 0 then
    ts ← aset (tapes set) (rd_partition reader) tape;
    Ok (set_tapes set ts,
        mkReader (rd_partition reader) true (rd_hashes reader) (rd_values reader) (rd_validity reader),
        None)
  else
  let header := header_value hdr in
  let n := h_nrows header in
  _ ← raise_if (negb (zlength hdr =? sizeof_SpillHeader) || negb (h_magic header =? SPILL_MAGIC) ||
                negb (h_ncolumns header =? ncolumns set) || (n =? 0) ||
                (PG_BATCH_SPILL_BLOCK_ROWS <? n))
        (Elog "invalid pg_batch spill block");
  r ← read_exact tape (4 * n);
  hashes ← asplice (rd_hashes reader) 0 (u32_array_value (Z.to_nat n) (fst r));
  r ← read_exact (snd r) (8 * ncolumns set);
  validity ← asplice (rd_validity reader) 0 (fst r);
  st ← foldM (λ column st,
      r ← read_exact (snd st) (4 * n);
      values ← asplice (fst st) (column * PG_BATCH_SPILL_BLOCK_ROWS)
                 (s32_array_value (Z.to_nat n) (fst r));
      Ok (values, snd r))
    (seqZ 0 (ncolumns set)) (rd_values reader, snd r);
  ts ← aset (tapes set) (rd_partition reader) (snd st);
  let reader := mkReader (rd_partition reader) false hashes (fst st) validity in
  let block := mkBlock n (ncolumns set)
    (if n =? 64 then UINT64_MAX else bit64 n - 1) hashes (fst st) validity in
  let ss := stats set in
  let ss := mkStats (rows_written ss) (u64_add (rows_read ss) n) (blocks_written ss)
    (u64_add (blocks_read ss) 1) (bytes_written ss)
    (u64_add (bytes_read ss) (block_bytes (ncolumns set) n)) in
  Ok (set_stats (set_tapes set ts) ss, reader, Some block).

Definition pg_batch_spill_reader_rewind (set : PgBatchSpillSet) (reader : PgBatchSpillReader)
    : res (PgBatchSpillSet * PgBatchSpillReader) :=
  _ ← raise_if (negb (frozen set)) (Elog "cannot rewind a destructive pg_batch spill reader");
  eof ← pg_batch_spill_partition_empty set (rd_partition reader);
  let reader := mkReader (rd_partition reader) eof (rd_hashes reader) (rd_values reader)
    (rd_validity reader) in
  set ← (if (eof : bool) then Ok set else rewind_tape set (rd_partition reader));
  Ok (set, reader).
End spill.
