(* ===== verification/SpillBlocks.v ===== *)
(** * Spill blocks: the writer buffer and its image on tape

    Proofs about [Spill.v] at the level of one partition: appending a row to a
    pending block, and the byte image of a block as the writer flushes it and
    as the reader decodes it. *)

From S2P Require Import Prelude Words Bytes Selection Vector Int4 Spill.

(** ** Abstract rows *)

(** A spilled row: its hash, and per column the stored value with its validity. *)
Definition raw_row : Type := (Z * list (Z * bool))%type.

(** The columns of a raw row as SQL values. *)
Definition raw_cells (r : raw_row) : list (option Z) :=
  (λ c : Z * bool, if c.2 then Some c.1 else None) <$> r.2.

(** Row [d] of arrays laid out as the writer and the reader lay them out. *)
Definition array_row (ncolumns : Z) (hashes values validity : list Z) (d : Z) : raw_row :=
  (zget 0 hashes d,
   (λ c, (zget 0 values (c * 64 + d), validity_bit validity (c * 64 + d))) <$> seqZ 0 ncolumns).

Definition array_rows (ncolumns n : Z) (hashes values validity : list Z) : list raw_row :=
  array_row ncolumns hashes values validity <$> seqZ 0 n.

Definition writer_rows (ncolumns : Z) (w : SpillWriter) : list raw_row :=
  array_rows ncolumns (w_nrows w) (w_hashes w) (w_values w) (w_validity w).

Definition block_rows (b : PgBatchSpillBlock) : list raw_row :=
  array_rows (bl_ncolumns b) (bl_nrows b) (bl_hashes b) (bl_values b) (bl_validity b).

(** The pending block between operations; no validity bit is set beyond its
    rows, which is what lets [put_row] only ever set bits. *)
Record writer_wf (ncolumns : Z) (w : SpillWriter) : Prop := {
  ww_nrows : 0 ≤ w_nrows w ≤ 64;
  ww_hashes : zlength (w_hashes w) = 64;
  ww_values : zlength (w_values w) = ncolumns * 64;
  ww_validity : zlength (w_validity w) = 8 * ncolumns;
  ww_u32 : Forall is_u32 (w_hashes w);
  ww_s32 : Forall is_s32 (w_values w);
  ww_clear : ∀ c d, 0 ≤ c < ncolumns → w_nrows w ≤ d < 64 →
    validity_bit (w_validity w) (c * 64 + d) = false;
}.

Lemma length_array_rows ncolumns n h v m : 0 ≤ n → zlength (array_rows ncolumns n h v m) = n.
Proof. intros Hn. unfold array_rows. rewrite length_fmap, length_seqZ. lia. Qed.

(** Rows only depend on the entries they read. *)
Lemma array_rows_ext ncolumns n h v m h' v' m' :
  (∀ d, 0 ≤ d < n → zget 0 h d = zget 0 h' d) →
  (∀ c d, 0 ≤ c < ncolumns → 0 ≤ d < n → zget 0 v (c * 64 + d) = zget 0 v' (c * 64 + d)) →
  (∀ c d, 0 ≤ c < ncolumns → 0 ≤ d < n → validity_bit m (c * 64 + d) = validity_bit m' (c * 64 + d)) →
  array_rows ncolumns n h v m = array_rows ncolumns n h' v' m'.
Proof.
  intros Hh Hv Hm. unfold array_rows. apply list_fmap_ext. intros i d [-> Hi]%lookup_seqZ.
  unfold array_row. f_equal; [apply Hh; lia|].
  apply list_fmap_ext. intros j c [-> Hj]%lookup_seqZ.
  f_equal; [apply Hv|apply Hm]; lia.
Qed.

Lemma fresh_writer_wf ncolumns : 0 ≤ ncolumns → writer_wf ncolumns (fresh_writer ncolumns).
Proof.
  intros Hn. unfold fresh_writer, PG_BATCH_SPILL_BLOCK_ROWS.
  constructor; cbn [w_nrows w_hashes w_values w_validity]; rewrite ?length_replicate; try lia.
  - by apply Forall_replicate.
  - by apply Forall_replicate.
  - intros c d Hc Hd. unfold validity_bit, zget.
    rewrite lookup_replicate_2 by zlia. apply Z.bits_0.
Qed.

Lemma set_validity_at validity column dest :
  0 ≤ dest < 64 →
  set_validity validity (column * 64 + dest) =
    (b ← aref validity (column * 8 + dest / 8);
     aset validity (column * 8 + dest / 8) (Z.lor b (Z.shiftl 1 (dest mod 8)))).
Proof.
  intros Hd. unfold set_validity.
  replace ((column * 64 + dest) / 8) with (column * 8 + dest / 8) by zlia.
  by replace ((column * 64 + dest) mod 8) with (dest mod 8) by zlia.
Qed.

(** What the columns below [k] of the row being put have become. *)
Record put_inv (ncolumns dest : Z) (gc : Z → Z * bool) (w0 : SpillWriter) (hashes : list Z)
    (k : Z) (w : SpillWriter) : Prop := {
  pi_nrows : w_nrows w = dest + 1;
  pi_hashes : w_hashes w = hashes;
  pi_values : zlength (w_values w) = ncolumns * 64;
  pi_validity : zlength (w_validity w) = 8 * ncolumns;
  pi_s32 : Forall is_s32 (w_values w);
  pi_value_at : ∀ c d, 0 ≤ c < ncolumns → 0 ≤ d < 64 → zget 0 (w_values w) (c * 64 + d) =
    if (d =? dest) && (c <? k) then (gc c).1 else zget 0 (w_values w0) (c * 64 + d);
  pi_bit_at : ∀ c d, 0 ≤ c < ncolumns → 0 ≤ d < 64 → validity_bit (w_validity w) (c * 64 + d) =
    if (d =? dest) && (c <? k) then (gc c).2 else validity_bit (w_validity w0) (c * 64 + d);
}.

Lemma put_column_ok ncolumns dest gc w0 hashes k w :
  0 ≤ dest < 64 → 0 ≤ k < ncolumns → is_s32 (gc k).1 →
  validity_bit (w_validity w0) (k * 64 + dest) = false →
  put_inv ncolumns dest gc w0 hashes k w →
  ∃ w', (values ← aset (w_values w) (k * PG_BATCH_SPILL_BLOCK_ROWS + dest) (gc k).1;
         validity ← (if (gc k).2 then
             b ← aref (w_validity w) (k * 8 + dest / 8);
             aset (w_validity w) (k * 8 + dest / 8) (Z.lor b (Z.shiftl 1 (dest mod 8)))
           else Ok (w_validity w));
         Ok (mkWriter (w_nrows w) (w_hashes w) values validity)) = Ok w' ∧
    put_inv ncolumns dest gc w0 hashes (k + 1) w'.
Proof.
  intros Hd Hk Hs Hclear []. unfold PG_BATCH_SPILL_BLOCK_ROWS.
  rewrite aset_ok, bind_Ok by lia. rewrite <- set_validity_at by done.
  assert (∃ v', (if (gc k).2 then set_validity (w_validity w) (k * 64 + dest) else Ok (w_validity w)) = Ok v' ∧
     zlength v' = 8 * ncolumns ∧ ∀ c d, 0 ≤ c < ncolumns → 0 ≤ d < 64 → validity_bit v' (c * 64 + d) =
       if (d =? dest) && (c <? k + 1) then (gc c).2 else validity_bit (w_validity w0) (c * 64 + d))
    as (v' & -> & Hlen & Hbit).
  { assert (Hcase : ∀ c d, 0 ≤ c < ncolumns → 0 ≤ d < 64 →
      (d =? dest) && (c <? k + 1) = (d =? dest) && (c <? k) || (c * 64 + d =? k * 64 + dest)).
    { intros c d Hc Hd'. destruct (Z.eqb_spec d dest), (Z.ltb_spec c (k + 1)), (Z.ltb_spec c k),
        (Z.eqb_spec (c * 64 + d) (k * 64 + dest)); simpl; lia. }
    destruct (gc k).2 eqn:Eg.
    - destruct (set_validity_ok (w_validity w) (k * 64 + dest)) as (v' & -> & Hl & Hb); [lia|].
      exists v'. split_and!; [done|lia|]. intros c d Hc Hd'.
      rewrite Hb, pi_bit_at0, Hcase by (done || lia).
      destruct (Z.eqb_spec (c * 64 + d) (k * 64 + dest)) as [E|E].
      + assert (c = k ∧ d = dest) as [-> ->] by lia. by rewrite !orb_true_r, Eg.
      + by rewrite !orb_false_r.
    - exists (w_validity w). split_and!; [done|done|]. intros c d Hc Hd'.
      rewrite pi_bit_at0, Hcase by done.
      destruct (Z.eqb_spec (c * 64 + d) (k * 64 + dest)) as [E|E]; [|by rewrite orb_false_r].
      assert (c = k ∧ d = dest) as [-> ->] by lia.
      destruct (Z.ltb_spec k k); [lia|]. rewrite andb_false_r, orb_true_r, Eg. done. }
  rewrite bind_Ok. eexists; split; [done|]. constructor; simpl; try done.
  - by rewrite length_insert.
  - by apply Forall_insert.
  - intros c d Hc Hd'. rewrite zget_insert, pi_value_at0 by lia. case_decide as E.
    + assert (c = k ∧ d = dest) as [-> ->] by lia.
      destruct (Z.eqb_spec dest dest), (Z.ltb_spec k (k + 1)); try lia. done.
    + destruct (Z.eqb_spec d dest), (Z.ltb_spec c k), (Z.ltb_spec c (k + 1)); simpl; try done; lia.
Qed.

(** Appending a row to a pending block with room for it. *)
Lemma put_row_ok ncolumns hash get gc w :
  0 < ncolumns → writer_wf ncolumns w → w_nrows w < 64 → is_u32 hash →
  (∀ c, 0 ≤ c < ncolumns → get c = Ok (gc c) ∧ is_s32 (gc c).1) →
  ∃ w', put_row ncolumns hash get w = Ok w' ∧ writer_wf ncolumns w' ∧
    w_nrows w' = w_nrows w + 1 ∧
    writer_rows ncolumns w' = writer_rows ncolumns w ++ [(hash, gc <$> seqZ 0 ncolumns)].
Proof.
  intros Hn [] Hroom Hh Hget. unfold put_row. set (dest := w_nrows w) in *.
  rewrite aset_ok, bind_Ok by lia. set (hs := <[Z.to_nat dest:=hash]> (w_hashes w)).
  destruct (for_inv (put_inv ncolumns dest gc w hs)
    (λ column w,
        c ← get column;
        values ← aset (w_values w) (column * PG_BATCH_SPILL_BLOCK_ROWS + dest) (fst c);
        validity ← (if (snd c : bool) then
            b ← aref (w_validity w) (column * 8 + dest / 8);
            aset (w_validity w) (column * 8 + dest / 8) (Z.lor b (Z.shiftl 1 (dest mod 8)))
          else Ok (w_validity w));
        Ok (mkWriter (w_nrows w) (w_hashes w) values validity))
    ncolumns (mkWriter (dest + 1) hs (w_values w) (w_validity w))) as (w' & -> & []).
  - lia.
  - constructor; simpl; try done; intros c d Hc Hd;
      destruct (Z.ltb_spec c 0); try lia; by rewrite andb_false_r.
  - intros k wk Hk Hinv. destruct (Hget k Hk) as [-> Hs]. rewrite bind_Ok.
    apply put_column_ok; try done; try lia. apply ww_clear0; lia.
  - exists w'. split; [done|]. split; [|split; [done|]].
    + constructor; try done; try lia.
      * rewrite pi_hashes0. unfold hs. by rewrite length_insert.
      * rewrite pi_hashes0. by apply Forall_insert.
      * intros c d Hc Hd. rewrite pi_bit_at0 by lia.
        destruct (Z.eqb_spec d dest); [lia|]. simpl. apply ww_clear0; lia.
    + unfold writer_rows, array_rows. rewrite pi_nrows0. fold dest.
      rewrite seqZ_app, fmap_app by lia. f_equal.
      * apply list_fmap_ext. intros i d [-> Hi]%lookup_seqZ. unfold array_row.
        rewrite pi_hashes0. unfold hs. rewrite zget_insert_ne by lia. f_equal.
        apply list_fmap_ext. intros j c [-> Hj]%lookup_seqZ.
        rewrite pi_value_at0, pi_bit_at0 by lia.
        destruct (Z.eqb_spec (0 + Z.of_nat i) dest); [lia|done].
      * change (seqZ (0 + dest) 1) with [0 + (0 + dest)].
        change (0 + (0 + dest)) with dest. rewrite list_fmap_singleton. f_equal.
        unfold array_row. rewrite pi_hashes0. unfold hs.
        rewrite zget_insert_eq by lia. f_equal. apply list_fmap_ext.
        intros j c [-> Hj]%lookup_seqZ. rewrite pi_value_at0, pi_bit_at0 by lia.
        rewrite Z.eqb_refl. destruct (Z.ltb_spec (0 + Z.of_nat j) ncolumns); [|lia].
        symmetry. apply surjective_pairing.
Qed.

(** ** The image of a block *)

Definition column_bytes (n : Z) (values : list Z) (c : Z) : list Z :=
  s32_array_bytes (take (Z.to_nat n) (drop (Z.to_nat (c * 64)) values)).

Definition columns_bytes (n : Z) (values : list Z) (cs : list Z) : list Z :=
  concat (column_bytes n values <$> cs).

Definition header_image (n ncolumns : Z) : list Z :=
  header_bytes (mkHeader SPILL_MAGIC (n mod 2 ^ 16) (ncolumns mod 2 ^ 16)).

Definition writer_image (ncolumns : Z) (w : SpillWriter) : list Z :=
  header_image (w_nrows w) ncolumns ++
  u32_array_bytes (take (Z.to_nat (w_nrows w)) (w_hashes w)) ++
  w_validity w ++
  columns_bytes (w_nrows w) (w_values w) (seqZ 0 ncolumns).

Lemma length_header_image n ncolumns : length (header_image n ncolumns) = 8%nat.
Proof. unfold header_image, header_bytes. by rewrite !length_app, !length_le_bytes. Qed.

Lemma header_value_bytes h :
  0 ≤ h_magic h < 2 ^ 32 → 0 ≤ h_nrows h < 2 ^ 16 → 0 ≤ h_ncolumns h < 2 ^ 16 →
  header_value (header_bytes h) = h.
Proof.
  intros Hm Hr Hc. destruct h as [m r c]. unfold header_value, header_bytes.
  cbn [h_magic h_nrows h_ncolumns] in *.
  rewrite !take_app_length' by by rewrite length_le_bytes.
  rewrite drop_app_length' by by rewrite length_le_bytes.
  rewrite take_app_length' by by rewrite length_le_bytes.
  rewrite app_assoc, drop_app_length' by by rewrite length_app, !length_le_bytes.
  rewrite (take_ge (le_bytes 2 c)) by by rewrite length_le_bytes.
  rewrite !le_value_bytes; [done|simpl; lia..].
Qed.

Lemma header_value_image n ncolumns :
  0 ≤ n ≤ 64 → 0 ≤ ncolumns < 2 ^ 16 →
  header_value (header_image n ncolumns) = mkHeader SPILL_MAGIC n ncolumns.
Proof.
  intros Hn Hc. unfold header_image. rewrite header_value_bytes; cbn [h_magic h_nrows h_ncolumns].
  - by rewrite !Z.mod_small by lia.
  - unfold SPILL_MAGIC. lia.
  - apply Z.mod_pos_bound. lia.
  - apply Z.mod_pos_bound. lia.
Qed.

Lemma aslice_eq {A} (l : list A) off n :
  0 ≤ off → 0 ≤ n → off + n ≤ zlength l →
  aslice l off n = Ok (take (Z.to_nat n) (drop (Z.to_nat off) l)).
Proof.
  intros. unfold aslice.
  destruct (Z.leb_spec 0 off), (Z.leb_spec 0 n), (Z.leb_spec (off + n) (zlength l)); try lia. done.
Qed.

(** Appending a piece to a tape that is being written. *)
Lemma tape_append `{LogicalTapes} t b bs c :
  tape_contents t = Writing b → c = b ++ bs → tape_contents (LogicalTapeWrite t bs) = Writing c.
Proof. intros Ht ->. by apply tape_write_spec. Qed.

(** The column loop of [flush_writer]. *)
Lemma flush_columns `{LogicalTapes} n ncolumns values t b :
  0 ≤ n ≤ 64 → 0 ≤ ncolumns → zlength values = ncolumns * 64 → tape_contents t = Writing b →
  ∃ t', foldM (λ column tape,
            vs ← aslice values (column * PG_BATCH_SPILL_BLOCK_ROWS) n;
            Ok (LogicalTapeWrite tape (s32_array_bytes vs)))
          (seqZ 0 ncolumns) t = Ok t' ∧
    tape_contents t' = Writing (b ++ columns_bytes n values (seqZ 0 ncolumns)).
Proof.
  intros Hn Hc Hlen Ht. unfold PG_BATCH_SPILL_BLOCK_ROWS.
  apply (for_inv (λ k t, tape_contents t = Writing (b ++ columns_bytes n values (seqZ 0 k)))).
  - done.
  - unfold columns_bytes. simpl. by rewrite app_nil_r.
  - intros k tk Hk Hinv. rewrite aslice_eq, bind_Ok by lia. eexists; split; [done|].
    eapply tape_append; [done|]. rewrite seqZ_app by lia. unfold columns_bytes.
    rewrite fmap_app, concat_app, <- app_assoc. do 2 f_equal.
    change (seqZ (0 + k) 1) with [0 + (0 + k)]. cbn [fmap list_fmap concat].
    by rewrite app_nil_r.
Qed.

Lemma memset0_all l : ∃ l', memset0 l (zlength l) = Ok l' ∧ length l' = length l ∧
  ∀ i, 0 ≤ i < zlength l → zget 0 l' i = 0.
Proof. apply memset0_ok. lia. Qed.

(** The whole of [flush_writer], on the tape of its partition. *)
Lemma flush_ok `{PgCore, LogicalTapes} (s : PgBatchSpillSet) p w t b :
  0 < ncolumns s → 0 ≤ p → writers s !! Z.to_nat p = Some (Some w) →
  tapes s !! Z.to_nat p = Some t → tape_contents t = Writing b →
  writer_wf (ncolumns s) w → w_nrows w ≠ 0 →
  ∃ t' w' st, flush_writer s p = Ok (set_stats (set_writers (set_tapes s
      (<[Z.to_nat p := t']> (tapes s))) (<[Z.to_nat p := Some w']> (writers s))) st) ∧
    tape_contents t' = Writing (b ++ writer_image (ncolumns s) w) ∧
    writer_wf (ncolumns s) w' ∧ w_nrows w' = 0.
Proof.
  intros Hnc Hp Hw Ht Hb [] Hn0. unfold flush_writer.
  assert (Hp1 := lookup_lt_Some _ _ _ Hw). assert (Hp2 := lookup_lt_Some _ _ _ Ht).
  rewrite (aref_ok None), bind_Ok by lia. unfold zget at 1. rewrite Hw. cbn [default from_option id].
  destruct (Z.eqb_spec (w_nrows w) 0); [done|].
  rewrite (aref_ok t), bind_Ok by lia. unfold zget at 1. rewrite Ht. cbn [default from_option id].
  rewrite !aslice_eq, !bind_Ok by lia. rewrite !drop_0, (take_ge (w_validity w)) by lia.
  edestruct (flush_columns (w_nrows w) (ncolumns s) (w_values w)) as (t' & -> & Ht');
    [lia|lia|done|..].
  { eapply tape_append; [|done]. eapply tape_append; [|done]. by eapply tape_append. }
  rewrite bind_Ok, aset_ok, bind_Ok by lia.
  rewrite <- ww_validity0. destruct (memset0_all (w_validity w)) as (m & -> & Hlen & Hm).
  rewrite bind_Ok, aset_ok, bind_Ok by lia.
  eexists t', _, _. split_and!; [done| | |done].
  - rewrite Ht'. unfold writer_image, header_image. by rewrite <- !app_assoc.
  - constructor; cbn [w_nrows w_hashes w_values w_validity]; try done; try lia.
    intros c d Hc Hd. unfold validity_bit. rewrite Hm by zlia. apply Z.bits_0.
Qed.

(** ** Decoding a block *)

Record reader_wf (ncolumns : Z) (rd : PgBatchSpillReader) : Prop := {
  rw_hashes : zlength (rd_hashes rd) = 64;
  rw_values : zlength (rd_values rd) = ncolumns * 64;
  rw_validity : zlength (rd_validity rd) = 8 * ncolumns;
  rw_s32 : Forall is_s32 (rd_values rd);
}.

(** The reader's arrays a block shares. *)
Record block_wf (ncolumns : Z) (b : PgBatchSpillBlock) : Prop := {
  bw_ncolumns : bl_ncolumns b = ncolumns;
  bw_nrows : 1 ≤ bl_nrows b ≤ 64;
  bw_selection : bl_selection b = Z.ones (bl_nrows b);
  bw_hashes : zlength (bl_hashes b) = 64;
  bw_values : zlength (bl_values b) = ncolumns * 64;
  bw_validity : zlength (bl_validity b) = 8 * ncolumns;
  bw_s32 : Forall is_s32 (bl_values b);
}.

Lemma read_exact_ok `{LogicalTapes} t f b bs rest n :
  tape_contents t = Reading f b (bs ++ rest) → zlength bs = n →
  ∃ t', read_exact t n = Ok (bs, t') ∧ tape_contents t' = Reading f b rest.
Proof.
  intros Ht Hn. destruct (tape_read_spec t f b (bs ++ rest) n) as [H1 H2]; [done|lia|].
  unfold read_exact. destruct (LogicalTapeRead t n) as [bs' t']. cbn [fst snd] in *.
  rewrite take_app_length' in H1 by lia. rewrite drop_app_length' in H2 by lia. subst bs'.
  rewrite (proj2 (Z.eqb_eq _ _) Hn). eauto.
Qed.

Lemma zget_take_drop {A} (d : A) l off n i :
  0 ≤ off → 0 ≤ i < n →
  zget d (take (Z.to_nat n) (drop (Z.to_nat off) l)) i = zget d l (off + i).
Proof.
  intros. unfold zget. rewrite lookup_take_lt by lia. rewrite lookup_drop. do 2 f_equal. lia.
Qed.

Lemma length_column {A} (l : list A) off n :
  0 ≤ off → 0 ≤ n → off + n ≤ zlength l →
  length (take (Z.to_nat n) (drop (Z.to_nat off) l)) = Z.to_nat n.
Proof. intros. rewrite length_take, length_drop. lia. Qed.

(** The column loop of [pg_batch_spill_reader_next]. *)
Lemma read_columns `{LogicalTapes} n ncolumns src dst t f all rest :
  1 ≤ n ≤ 64 → 0 ≤ ncolumns → zlength src = ncolumns * 64 → zlength dst = ncolumns * 64 →
  Forall is_s32 src → Forall is_s32 dst →
  tape_contents t = Reading f all (columns_bytes n src (seqZ 0 ncolumns) ++ rest) →
  ∃ vals t', foldM (λ column st,
        r ← read_exact (snd st) (4 * n);
        values ← asplice (fst st) (column * PG_BATCH_SPILL_BLOCK_ROWS)
                   (s32_array_value (Z.to_nat n) (fst r));
        Ok (values, snd r))
      (seqZ 0 ncolumns) (dst, t) = Ok (vals, t') ∧
    tape_contents t' = Reading f all rest ∧ zlength vals = ncolumns * 64 ∧ Forall is_s32 vals ∧
    ∀ c d, 0 ≤ c < ncolumns → 0 ≤ d < n → zget 0 vals (c * 64 + d) = zget 0 src (c * 64 + d).
Proof.
  intros Hn Hc Hsrc Hdst Hs32 Hd32 Ht. unfold PG_BATCH_SPILL_BLOCK_ROWS.
  destruct (for_inv (λ k st,
    tape_contents (st.2) = Reading f all (columns_bytes n src (seqZ k (ncolumns - k)) ++ rest) ∧
    zlength (st.1) = ncolumns * 64 ∧ Forall is_s32 st.1 ∧
    ∀ c d, 0 ≤ c < k → 0 ≤ d < n → zget 0 (st.1) (c * 64 + d) = zget 0 src (c * 64 + d))
    (λ column st,
        r ← read_exact (snd st) (4 * n);
        values ← asplice (fst st) (column * 64) (s32_array_value (Z.to_nat n) (fst r));
        Ok (values, snd r))
    ncolumns (dst, t)) as ([vals t'] & -> & Ht' & Hl & Hv32 & Hv).
  - lia.
  - rewrite Z.sub_0_r. split_and!; [done|done|done|lia].
  - intros k [vals t'] Hk (Ht' & Hl & Hv32 & Hv). cbn [fst snd] in *.
    rewrite seqZ_cons in Ht' by lia. unfold columns_bytes in Ht'. rewrite fmap_cons in Ht'.
    cbn [concat] in Ht'. rewrite <- app_assoc in Ht'.
    assert (Hlc := length_column src (k * 64) n ltac:(lia) ltac:(lia) ltac:(lia)).
    destruct (read_exact_ok _ _ _ _ _ (4 * n) Ht') as (t2 & -> & Ht2).
    { unfold column_bytes. rewrite length_s32_array_bytes, Hlc. lia. }
    rewrite bind_Ok. cbn [fst snd].
    assert (s32_array_value (Z.to_nat n) (column_bytes n src k) =
      take (Z.to_nat n) (drop (Z.to_nat (k * 64)) src)) as ->.
    { unfold column_bytes. rewrite <- Hlc at 1. apply s32_array_roundtrip.
      by apply Forall_take, Forall_drop. }
    destruct (asplice_ok vals (k * 64) (take (Z.to_nat n) (drop (Z.to_nat (k * 64)) src)))
      as (v' & Ev & Hl' & Hg); [lia|rewrite Hlc; lia|].
    pose proof (asplice_Forall is_s32 _ _ _ _ Hv32 (Forall_take _ _ _ (Forall_drop _ _ _ Hs32)) Ev) as Hv32'.
    rewrite Ev, bind_Ok. eexists; split; [done|]. cbn [fst snd]. split_and!.
    + rewrite Ht2. by replace (ncolumns - (k + 1)) with (Z.pred (ncolumns - k)) by lia.
    + lia.
    + done.
    + intros c d Hcc Hd. rewrite Hg by lia. rewrite Hlc. case_decide as E.
      * assert (c = k) as -> by lia. rewrite zget_take_drop by lia. f_equal. lia.
      * apply Hv; [|done]. destruct (decide (c = k)); [lia|lia].
  - exists vals, t'. cbn [fst snd] in *. rewrite Z.sub_diag in Ht'. split_and!; done.
Qed.

(** Reading one block back: the rows of the block are the rows that were
    flushed. *)
Lemma reader_next_block `{PgCore, LogicalTapes} (s : PgBatchSpillSet) rd w t f all rest :
  0 < ncolumns s < 2 ^ 16 → 0 ≤ rd_partition rd → rd_eof rd = false → reader_wf (ncolumns s) rd →
  tapes s !! Z.to_nat (rd_partition rd) = Some t →
  tape_contents t = Reading f all (writer_image (ncolumns s) w ++ rest) →
  writer_wf (ncolumns s) w → w_nrows w ≠ 0 →
  ∃ t' st rd' block, pg_batch_spill_reader_next s rd =
      Ok (set_stats (set_tapes s (<[Z.to_nat (rd_partition rd) := t']> (tapes s))) st, rd', Some block) ∧
    tape_contents t' = Reading f all rest ∧
    rd_partition rd' = rd_partition rd ∧ rd_eof rd' = false ∧ reader_wf (ncolumns s) rd' ∧
    block_rows block = writer_rows (ncolumns s) w ∧ block_wf (ncolumns s) block.
Proof.
  intros Hnc Hp Heof [] Ht Hb [] Hn0. unfold pg_batch_spill_reader_next. rewrite Heof.
  set (n := w_nrows w) in *. set (nc := ncolumns s) in *. set (p := rd_partition rd) in *.
  assert (Hp2 := lookup_lt_Some _ _ _ Ht).
  rewrite (aref_ok t), bind_Ok by lia. unfold zget at 1. rewrite Ht. cbn [default from_option id].
  unfold writer_image in Hb. fold n in Hb. rewrite <- !app_assoc in Hb.
  destruct (tape_read_spec _ _ _ _ sizeof_SpillHeader Hb) as [H1 H2]; [done|].
  destruct (LogicalTapeRead t sizeof_SpillHeader) as [hdr t1]. cbn [fst snd] in *.
  rewrite take_app_length' in H1 by by rewrite length_header_image.
  rewrite drop_app_length' in H2 by by rewrite length_header_image.
  subst hdr. rewrite length_header_image. change (Z.of_nat 8 =? 0) with false.
  change (Z.of_nat 8 =? sizeof_SpillHeader) with true. cbv beta iota zeta.
  rewrite header_value_image by lia. cbn [h_magic h_nrows h_ncolumns].
  rewrite !Z.eqb_refl. destruct (Z.eqb_spec n 0); [done|].
  destruct (Z.ltb_spec PG_BATCH_SPILL_BLOCK_ROWS n); [unfold PG_BATCH_SPILL_BLOCK_ROWS in *; lia|].
  cbn [negb orb raise_if]. rewrite bind_Ok.
  assert (Hlh : length (take (Z.to_nat n) (w_hashes w)) = Z.to_nat n) by (rewrite length_take; lia).
  destruct (read_exact_ok _ _ _ _ _ (4 * n) H2) as (t2 & -> & H3).
  { rewrite length_u32_array_bytes, Hlh. lia. }
  rewrite bind_Ok. cbn [fst snd].
  assert (u32_array_value (Z.to_nat n) (u32_array_bytes (take (Z.to_nat n) (w_hashes w))) =
    take (Z.to_nat n) (w_hashes w)) as ->.
  { transitivity (u32_array_value (length (take (Z.to_nat n) (w_hashes w)))
      (u32_array_bytes (take (Z.to_nat n) (w_hashes w)))); [by rewrite Hlh|].
    by apply u32_array_roundtrip, Forall_take. }
  destruct (asplice_ok (rd_hashes rd) 0 (take (Z.to_nat n) (w_hashes w))) as (hs & -> & Hhl & Hh); [lia..|].
  rewrite bind_Ok. destruct (read_exact_ok _ _ _ _ _ (8 * nc) H3) as (t3 & -> & H4); [lia|].
  rewrite bind_Ok. cbn [fst snd].
  destruct (asplice_ok (rd_validity rd) 0 (w_validity w)) as (m & -> & Hml & Hm); [lia..|].
  rewrite bind_Ok.
  destruct (read_columns n nc (w_values w) (rd_values rd) t3 f all rest)
    as (vals & t4 & -> & H5 & Hvl & Hv32 & Hv); [lia|lia|done..|].
  rewrite bind_Ok. cbn [fst snd]. rewrite aset_ok, bind_Ok by lia.
  eexists t4, _, _, _. split; [done|]. cbn [rd_partition rd_eof bl_nrows bl_selection].
  split_and!; try done.
  - constructor; cbn [rd_hashes rd_values rd_validity]; (done || lia).
  - unfold block_rows, writer_rows. cbn [bl_ncolumns bl_nrows bl_hashes bl_values bl_validity].
    fold n. apply array_rows_ext.
    + intros d Hd. rewrite Hh by lia. rewrite Hlh. rewrite decide_True by lia.
      rewrite <- (drop_0 (w_hashes w)) at 1. change 0%nat with (Z.to_nat 0).
      rewrite zget_take_drop by lia. f_equal. lia.
    + done.
    + intros c d Hc Hd. unfold validity_bit. rewrite Hm by zlia.
      rewrite decide_True by zlia. do 2 f_equal. lia.
  - split; cbn; fold nc; try lia; [|done]. destruct (Z.eqb_spec n 64) as [->|]; [done|].
    apply bit64_ones. lia.
Qed.
