(* ===== verification/SpillSet.v ===== *)
(** * Spill sets: the invariant of writing

    A set under construction stands for one list of rows per partition, in the
    order they were appended.  The invariant says how the tapes, the pending
    writer blocks and the counters represent these lists, and that the number
    of allocated writers stays within its bound; every operation keeps it. *)

From S2P Require Import Prelude Words Bytes Selection Vector Int4 Spill SpillBlocks.

(** ** Counting allocated writers *)

Definition occupancy {A} (o : option A) : Z :=
  match o with Some _ => 1 | None => 0 end.
Definition allocated {A} (ws : list (option A)) : Z :=
  foldr (λ o n, occupancy o + n) 0 ws.

Lemma allocated_nonneg {A} (ws : list (option A)) : 0 ≤ allocated ws.
Proof. induction ws as [|[a|] ws IH]; simpl; unfold allocated in *; simpl; lia. Qed.

Lemma allocated_insert {A} (ws : list (option A)) p o o' :
  ws !! p = Some o →
  allocated (<[p := o']> ws) =
    allocated ws - occupancy o + occupancy o'.
Proof.
  revert p. induction ws as [|x ws IH]; intros [|p] Hp; try done.
  - injection Hp as ->. unfold allocated. simpl. lia.
  - simpl in *. specialize (IH p Hp). unfold allocated in *. simpl. lia.
Qed.

Lemma allocated_none {A} (ws : list (option A)) :
  (∀ p o, ws !! p = Some o → o = None) → allocated ws = 0.
Proof.
  induction ws as [|x ws IH]; intros Hp; [done|].
  rewrite (Hp O x) by done. apply IH. intros p o Ho. by apply (Hp (S p)).
Qed.

Section spill_set.
Context `{PgCore} `{LogicalTapes}.

(** ** The invariant *)

Definition pending_rows (nc : Z) (ow : option SpillWriter) : list raw_row :=
  match ow with None => [] | Some w => writer_rows nc w end.

(** One block on tape, named by the writer contents it was flushed from. *)
Definition flushed (nc : Z) (w : SpillWriter) : Prop := writer_wf nc w ∧ w_nrows w ≠ 0.

Definition blocks_image (nc : Z) (ws : list SpillWriter) : list Z :=
  concat (writer_image nc <$> ws).
Definition blocks_rows (nc : Z) (ws : list SpillWriter) : list raw_row :=
  concat (writer_rows nc <$> ws).

(** Partition [rows] is on the tape [t], in blocks, and in the writer [ow]. *)
Definition part_ok (nc : Z) (rows : list raw_row) (t : LogicalTape)
    (ow : option SpillWriter) (count : Z) : Prop :=
  ∃ ws, Forall (flushed nc) ws ∧
    tape_contents t = Writing (blocks_image nc ws) ∧
    rows = blocks_rows nc ws ++ pending_rows nc ow ∧
    (∀ w, ow = Some w → writer_wf nc w) ∧
    count = zlength rows mod 2 ^ 64.

Record spill_inv (s : PgBatchSpillSet) (parts : list (list raw_row)) : Prop := {
  si_ncolumns : 0 < ncolumns s < 2 ^ 16;
  si_npartitions : 0 < npartitions s;
  si_tapes : zlength (tapes s) = npartitions s;
  si_writers : zlength (writers s) = npartitions s;
  si_rows : zlength (partition_rows s) = npartitions s;
  si_length : zlength parts = npartitions s;
  si_part : ∀ p rows t ow n, parts !! p = Some rows → tapes s !! p = Some t →
    writers s !! p = Some ow → partition_rows s !! p = Some n →
    part_ok (ncolumns s) rows t ow n;
  si_active : active_writers s = allocated (writers s);
  si_max : 1 ≤ max_writers s;
  si_cursor : 0 ≤ eviction_cursor s < npartitions s;
  si_open : finished s = false;
}.

(** Between operations every pending block has room for one more row. *)
Definition has_room (s : PgBatchSpillSet) : Prop :=
  ∀ p w, writers s !! p = Some (Some w) → w_nrows w < 64.

Definition within_budget (s : PgBatchSpillSet) : Prop := active_writers s ≤ max_writers s.

(** What no operation on an open set changes. *)
Definition same_config (s s' : PgBatchSpillSet) : Prop :=
  ncolumns s' = ncolumns s ∧ npartitions s' = npartitions s ∧ max_writers s' = max_writers s.

Lemma same_config_refl s : same_config s s.
Proof. done. Qed.
Lemma same_config_trans s1 s2 s3 : same_config s1 s2 → same_config s2 s3 → same_config s1 s3.
Proof. unfold same_config. intuition congruence. Qed.

(** The entries of one partition. *)
Lemma inv_lookup s parts p :
  spill_inv s parts → 0 ≤ p < npartitions s →
  ∃ rows t ow n, parts !! Z.to_nat p = Some rows ∧ tapes s !! Z.to_nat p = Some t ∧
    writers s !! Z.to_nat p = Some ow ∧ partition_rows s !! Z.to_nat p = Some n ∧
    part_ok (ncolumns s) rows t ow n.
Proof.
  intros [] Hp.
  destruct (lookup_lt_is_Some_2 parts (Z.to_nat p)) as [rows Hr]; [lia|].
  destruct (lookup_lt_is_Some_2 (tapes s) (Z.to_nat p)) as [t Ht]; [lia|].
  destruct (lookup_lt_is_Some_2 (writers s) (Z.to_nat p)) as [ow Hw]; [lia|].
  destruct (lookup_lt_is_Some_2 (partition_rows s) (Z.to_nat p)) as [n Hc]; [lia|].
  exists rows, t, ow, n. split_and!; eauto.
Qed.

(** Replacing the entries of one partition. *)
Lemma inv_update s parts p rows t ow n st cursor :
  spill_inv s parts → 0 ≤ p < npartitions s → 0 ≤ cursor < npartitions s →
  part_ok (ncolumns s) rows t ow n →
  spill_inv
    (mkSet (ncolumns s) (npartitions s) (<[Z.to_nat p := t]> (tapes s))
      (<[Z.to_nat p := ow]> (writers s)) (<[Z.to_nat p := n]> (partition_rows s))
      (allocated (<[Z.to_nat p := ow]> (writers s))) (max_writers s) cursor
      (finished s) (frozen s) st)
    (<[Z.to_nat p := rows]> parts).
Proof.
  intros [] Hp Hcur Hpart. constructor; simpl; rewrite ?length_insert; try done.
  intros q rows' t' ow' n' Hr Ht Hw Hn. destruct (decide (q = Z.to_nat p)) as [->|Hne].
  - rewrite list_lookup_insert_eq in Hr by lia. rewrite list_lookup_insert_eq in Ht by lia.
    rewrite list_lookup_insert_eq in Hw by lia. rewrite list_lookup_insert_eq in Hn by lia.
    by simplify_eq.
  - rewrite list_lookup_insert_ne in Hr by done. rewrite list_lookup_insert_ne in Ht by done.
    rewrite list_lookup_insert_ne in Hw by done. rewrite list_lookup_insert_ne in Hn by done.
    eauto.
Qed.

(** ** Flushing and freeing *)

Lemma part_ok_flush nc rows w n t' w' ws :
  Forall (flushed nc) ws → writer_wf nc w → w_nrows w ≠ 0 →
  rows = blocks_rows nc ws ++ writer_rows nc w → n = zlength rows mod 2 ^ 64 →
  tape_contents t' = Writing (blocks_image nc ws ++ writer_image nc w) →
  writer_wf nc w' → w_nrows w' = 0 → part_ok nc rows t' (Some w') n.
Proof.
  intros Hws Hw Hn0 Hr Hc Ht' Hw' Hz. exists (ws ++ [w]). unfold blocks_image, blocks_rows.
  rewrite !fmap_app, !concat_app. unfold pending_rows, writer_rows at 3, array_rows.
  rewrite Hz. cbn [fmap list_fmap concat seqZ]. rewrite !app_nil_r. split_and!; try done.
  - apply Forall_app_2; [done|]. by constructor.
  - by intros w'' [= <-].
Qed.

(** Replacing the entries at [p] by themselves changes nothing. *)
Lemma insert_same {A} (l : list A) p a : l !! p = Some a → <[p := a]> l = l.
Proof. apply list_insert_id. Qed.

Lemma flush_inv s parts p :
  spill_inv s parts → 0 ≤ p < npartitions s →
  ∃ s', flush_writer s p = Ok s' ∧ spill_inv s' parts ∧ same_config s s' ∧
    active_writers s' = active_writers s ∧ eviction_cursor s' = eviction_cursor s ∧
    (∀ q, q ≠ Z.to_nat p → writers s' !! q = writers s !! q) ∧
    occupancy <$> writers s' !! Z.to_nat p = occupancy <$> writers s !! Z.to_nat p ∧
    (∀ w, writers s' !! Z.to_nat p = Some (Some w) → w_nrows w = 0).
Proof.
  intros Hinv Hp. destruct (inv_lookup s parts p Hinv Hp)
    as (rows & t & ow & n & Hr & Ht & Hw & Hn & ws & Hws & Htape & Hrows & Hwf & Hcount).
  destruct ow as [w|].
  2: { exists s. unfold flush_writer. rewrite (aref_lookup _ _ None) by (done || lia).
    split_and!; try done. intros w. by rewrite Hw. }
  destruct (decide (w_nrows w = 0)) as [Hz|Hz].
  { exists s. unfold flush_writer. rewrite (aref_lookup _ _ (Some w)) by (done || lia).
    rewrite bind_Ok, Hz. split_and!; try done. intros w'. rewrite Hw. by intros [= <-]. }
  destruct (flush_ok s p w t (blocks_image (ncolumns s) ws)) as (t' & w' & st & -> & Ht' & Hw' & Hz'); try done;
    [apply Hinv|lia|by apply Hwf|].
  eexists; split; [done|]. cbn. split_and!; try done.
  - pose proof (inv_update s parts p rows t' (Some w') n st (eviction_cursor s) Hinv Hp) as Hup.
    rewrite (insert_same parts), (insert_same (partition_rows s)),
      (allocated_insert _ _ (Some w)) in Hup by done.
    unfold set_stats, set_writers, set_tapes; cbn.
    replace (active_writers s) with (allocated (writers s) - occupancy (Some w) + occupancy (Some w')).
    + apply Hup; [apply Hinv|]. apply (part_ok_flush _ _ w _ _ _ ws); try done. by apply Hwf.
    + rewrite (si_active _ _ Hinv). simpl. lia.
  - intros q Hq. by rewrite list_lookup_insert_ne.
  - rewrite list_lookup_insert_eq, Hw; [done|]. by apply lookup_lt_Some in Hw.
  - intros w''. rewrite list_lookup_insert_eq; [congruence|]. by apply lookup_lt_Some in Hw.
Qed.

(** Freeing a writer that has been flushed. *)
Lemma free_inv s parts p :
  spill_inv s parts → 0 ≤ p < npartitions s →
  (∀ w, writers s !! Z.to_nat p = Some (Some w) → w_nrows w = 0) →
  ∃ s', free_writer s p = Ok s' ∧ spill_inv s' parts ∧ same_config s s' ∧
    eviction_cursor s' = eviction_cursor s ∧
    writers s' = <[Z.to_nat p := None]> (writers s).
Proof.
  intros Hinv Hp Hempty. destruct (inv_lookup s parts p Hinv Hp)
    as (rows & t & ow & n & Hr & Ht & Hw & Hn & ws & Hws & Htape & Hrows & Hwf & Hcount).
  unfold free_writer. rewrite (aref_lookup _ _ ow) by (done || lia). rewrite bind_Ok.
  assert (Hlen := lookup_lt_Some _ _ _ Hw).
  destruct ow as [w|].
  2: { exists s. split_and!; try done. by rewrite insert_same. }
  rewrite aset_ok, bind_Ok by lia. eexists; split; [done|]. cbn. split_and!; try done.
  pose proof (inv_update s parts p rows t None n (stats s) (eviction_cursor s) Hinv Hp) as Hup.
  rewrite (insert_same parts), (insert_same (partition_rows s)), (insert_same (tapes s)),
    (allocated_insert _ _ (Some w)) in Hup by done.
  unfold set_active, set_writers; cbn.
  replace (active_writers s - 1)
    with (allocated (writers s) - occupancy (Some w) + occupancy (@None SpillWriter)).
  - apply Hup; [apply Hinv|]. exists ws. split_and!; try done.
    rewrite Hrows. simpl. unfold writer_rows, array_rows. by rewrite (Hempty w Hw).
  - rewrite (si_active _ _ Hinv). simpl. lia.
Qed.
(** ** Eviction *)

Lemma evict_inv fuel : ∀ offset s parts,
  spill_inv s parts → 0 ≤ offset →
  (∃ o w, offset ≤ o < offset + Z.of_nat fuel ∧
    writers s !! Z.to_nat ((eviction_cursor s + o) mod npartitions s) = Some (Some w)) →
  ∃ s', evict_writer fuel offset s = Ok s' ∧ spill_inv s' parts ∧ same_config s s' ∧
    active_writers s' = active_writers s - 1 ∧
    (∀ q ow, writers s' !! q = Some ow → ow = None ∨ writers s !! q = Some ow).
Proof.
  induction fuel as [|fuel IH]; intros offset s parts Hinv Hoff (o & w & Ho & Hw); [lia|].
  simpl. set (v := (eviction_cursor s + offset) mod npartitions s).
  assert (Hv : 0 ≤ v < npartitions s) by (apply Z.mod_pos_bound, Hinv).
  destruct (inv_lookup s parts v Hinv Hv) as (_ & _ & ow & _ & _ & _ & Hwv & _ & _).
  rewrite (aref_lookup _ _ ow) by (done || lia). rewrite bind_Ok. destruct ow as [wv|].
  2: { apply IH; [done|lia|]. exists o, w. split; [|done].
    destruct (decide (o = offset)) as [->|]; [|lia]. fold v in Hw. congruence. }
  destruct (flush_inv s parts v Hinv Hv) as (s1 & -> & Hinv1 & (Hc1 & Hc2 & Hc3) & Ha & Hcur & Hq & Hocc & Hz).
  rewrite bind_Ok.
  destruct (free_inv s1 parts v Hinv1 ltac:(lia) Hz) as (s2 & -> & Hinv2 & (Hd1 & Hd2 & Hd3) & Hcur2 & Hw2).
  rewrite bind_Ok. eexists; split; [done|].
  assert (Hl : (Z.to_nat v < length (writers s1))%nat).
  { apply si_writers in Hinv1. lia. }
  split_and!.
  - destruct Hinv2. constructor; try done. cbn. apply Z.mod_pos_bound. lia.
  - unfold same_config. cbn. lia.
  - cbn. rewrite (si_active _ _ Hinv2), (si_active _ _ Hinv), Hw2.
    destruct (lookup_lt_is_Some_2 _ _ Hl) as [ow1 How1].
    rewrite (allocated_insert _ _ ow1), <- (si_active _ _ Hinv1), Ha, (si_active _ _ Hinv) by done.
    rewrite How1, Hwv in Hocc. simpl in Hocc. injection Hocc as ->. simpl. lia.
  - cbn. rewrite Hw2. intros q ow. destruct (decide (q = Z.to_nat v)) as [->|Hne].
    + rewrite list_lookup_insert_eq by done. intros [= <-]. by left.
    + rewrite list_lookup_insert_ne by done. rewrite Hq by done. by right.
Qed.

Lemma evict_any s parts :
  spill_inv s parts → 0 < active_writers s →
  ∃ s', evict_writer (Z.to_nat (npartitions s)) 0 s = Ok s' ∧ spill_inv s' parts ∧
    same_config s s' ∧ active_writers s' = active_writers s - 1 ∧
    (∀ q ow, writers s' !! q = Some ow → ow = None ∨ writers s !! q = Some ow).
Proof.
  intros Hinv Ha. apply evict_inv; [done|lia|].
  destruct (decide (Exists (λ o, is_Some o) (writers s))) as [He|He].
  - apply Exists_exists in He as ([w|] & Hel & Hs); [|by inversion Hs].
    apply list_elem_of_lookup in Hel as [q Hq].
    pose proof (lookup_lt_Some _ _ _ Hq) as Hlt.
    destruct Hinv. exists ((Z.of_nat q - eviction_cursor s) mod npartitions s), w. split.
    + pose proof (Z.mod_pos_bound (Z.of_nat q - eviction_cursor s) (npartitions s)). lia.
    + rewrite Z.add_mod_idemp_r by lia.
      replace (eviction_cursor s + (Z.of_nat q - eviction_cursor s)) with (Z.of_nat q) by lia.
      rewrite Z.mod_small, Nat2Z.id by lia. done.
  - rewrite (si_active _ _ Hinv), allocated_none in Ha; [lia|].
    intros q [w|] Ho; [|done]. destruct He. apply Exists_exists. exists (Some w).
    split; [by eapply list_elem_of_lookup_2|done].
Qed.

(** ** The writer of a partition *)

(** The state between two operations on an open set. *)
Record spill_open (s : PgBatchSpillSet) (parts : list (list raw_row)) : Prop := {
  so_inv : spill_inv s parts;
  so_room : has_room s;
  so_budget : within_budget s;
}.

Lemma alloc_inv s parts p :
  spill_inv s parts → 0 ≤ p < npartitions s → writers s !! Z.to_nat p = Some None →
  ∃ s', (ws ← aset (writers s) p (Some (fresh_writer (ncolumns s)));
         Ok (set_active (set_writers s ws) (active_writers s + 1))) = Ok s' ∧
    spill_inv s' parts ∧ same_config s s' ∧ active_writers s' = active_writers s + 1 ∧
    writers s' = <[Z.to_nat p := Some (fresh_writer (ncolumns s))]> (writers s).
Proof.
  intros Hinv Hp Hw. assert (Hlen := lookup_lt_Some _ _ _ Hw).
  rewrite aset_ok, bind_Ok by lia. eexists; split; [done|]. split_and!; try done.
  destruct (inv_lookup s parts p Hinv Hp)
    as (rows & t & ow & n & Hr & Ht & Hw' & Hn & ws & Hws & Htape & Hrows & Hwf & Hcount).
  rewrite Hw in Hw'. injection Hw' as <-.
  pose proof (inv_update s parts p rows t (Some (fresh_writer (ncolumns s))) n (stats s)
    (eviction_cursor s) Hinv Hp) as Hup.
  rewrite (insert_same parts), (insert_same (partition_rows s)), (insert_same (tapes s)),
    (allocated_insert _ _ None) in Hup by done.
  unfold set_active, set_writers; cbn.
  replace (active_writers s + 1) with
    (allocated (writers s) - occupancy (@None SpillWriter) + occupancy (Some (fresh_writer (ncolumns s)))).
  - apply Hup; [apply Hinv|]. exists ws. split_and!; try done.
    intros w [= <-]. apply fresh_writer_wf. pose proof (si_ncolumns _ _ Hinv). lia.
  - rewrite (si_active _ _ Hinv). simpl. lia.
Qed.

Lemma get_writer_ok s parts p :
  spill_open s parts → 0 ≤ p < npartitions s →
  ∃ s' w, get_writer s p = Ok s' ∧ spill_open s' parts ∧ same_config s s' ∧
    writers s' !! Z.to_nat p = Some (Some w).
Proof.
  intros [Hinv Hroom Hbud] Hp. unfold get_writer, within_budget in *.
  destruct (inv_lookup s parts p Hinv Hp) as (_ & _ & ow & _ & _ & _ & Hw & _ & _).
  rewrite (aref_lookup _ _ ow) by (done || lia). rewrite bind_Ok.
  destruct ow as [w|]; [by exists s, w|].
  assert (∃ s1, (if active_writers s =? max_writers s
      then evict_writer (Z.to_nat (npartitions s)) 0 s else Ok s) = Ok s1 ∧
    spill_inv s1 parts ∧ same_config s s1 ∧ active_writers s1 < max_writers s ∧
    (∀ q ow, writers s1 !! q = Some ow → ow = None ∨ writers s !! q = Some ow))
    as (s1 & -> & Hinv1 & (Hc1 & Hc2 & Hc3) & Hlt & Hold).
  { pose proof (si_max _ _ Hinv). destruct (Z.eqb_spec (active_writers s) (max_writers s)).
    - destruct (evict_any s parts Hinv) as (s1 & -> & ? & ? & ? & ?); [lia|].
      exists s1. split_and!; try done. lia.
    - exists s. split_and!; try done; [lia|by right]. }
  rewrite bind_Ok.
  assert (Hw1 : writers s1 !! Z.to_nat p = Some None).
  { destruct (lookup_lt_is_Some_2 (writers s1) (Z.to_nat p)) as [ow1 How1].
    - pose proof (si_writers _ _ Hinv1). lia.
    - destruct (Hold _ _ How1) as [->|]; [done|congruence]. }
  destruct (alloc_inv s1 parts p Hinv1 ltac:(lia) Hw1) as (s2 & -> & Hinv2 & (Hd1 & Hd2 & Hd3) & Ha & Hw2).
  assert (Hlen := lookup_lt_Some _ _ _ Hw1).
  exists s2, (fresh_writer (ncolumns s1)). split_and!; [done| |unfold same_config; lia|].
  - constructor; [done| |unfold within_budget; lia]. intros q w. rewrite Hw2.
    destruct (decide (q = Z.to_nat p)) as [->|Hne].
    + rewrite list_lookup_insert_eq by done. by intros [= <-].
    + rewrite list_lookup_insert_ne by done. intros Hq.
      destruct (Hold _ _ Hq) as [|Hq']; [done|]. by eapply Hroom.
  - rewrite Hw2. by apply list_lookup_insert_eq.
Qed.
(** ** Appending a row *)

Lemma part_ok_put nc rows t w n w' r :
  part_ok nc rows t (Some w) n → writer_wf nc w' →
  writer_rows nc w' = writer_rows nc w ++ [r] →
  part_ok nc (rows ++ [r]) t (Some w') (u64_add n 1).
Proof.
  intros (ws & Hws & Htape & Hrows & Hwf & Hcount) Hw' Hr. exists ws. split_and!; try done.
  - rewrite Hrows. simpl. by rewrite Hr, app_assoc.
  - by intros w'' [= <-].
  - rewrite Hcount, length_app. unfold u64_add. rewrite Z.add_mod_idemp_l by lia.
    f_equal. simpl. lia.
Qed.

(** The state inside a row loop: the writer of [p] is allocated. *)
Definition spill_writing (p : Z) (s : PgBatchSpillSet) (parts : list (list raw_row)) : Prop :=
  spill_open s parts ∧ ∃ w, writers s !! Z.to_nat p = Some (Some w).

Definition append_to (p : Z) (rows : list raw_row) (parts : list (list raw_row)) :=
  alter (λ l, l ++ rows) (Z.to_nat p) parts.

Lemma append_to_lookup p new parts rows :
  parts !! Z.to_nat p = Some rows →
  append_to p new parts = <[Z.to_nat p := rows ++ new]> parts.
Proof. intros Hl. unfold append_to. rewrite list_insert_alter.
  apply list_alter_ext; [|done]. intros x Hx. congruence. Qed.

Lemma spill_row_ok s parts p hashes get gc hash row :
  spill_writing p s parts → 0 ≤ p < npartitions s →
  aref hashes row = Ok hash → is_u32 hash →
  (∀ c, 0 ≤ c < ncolumns s → get row c = Ok (gc c) ∧ is_s32 (gc c).1) →
  ∃ s', spill_row p hashes get row s = Ok s' ∧ same_config s s' ∧
    spill_writing p s' (append_to p [(hash, gc <$> seqZ 0 (ncolumns s))] parts).
Proof.
  intros [[Hinv Hroom Hbud] [w Hw]] Hp Hh Hu Hget.
  destruct (inv_lookup s parts p Hinv Hp) as (rows & t & ow & n & Hr & Ht & Hw' & Hn & Hpart).
  rewrite Hw in Hw'. injection Hw' as <-.
  destruct (put_row_ok (ncolumns s) hash (get row) gc w) as (w' & Hput & Hwf' & Hn' & Hrows');
    [apply Hinv| |by eapply Hroom|done|done|].
  { destruct Hpart as (ws & _ & _ & _ & Hwf & _). by apply Hwf. }
  unfold spill_row. rewrite (aref_lookup _ _ (Some w)), bind_Ok by (done || lia).
  rewrite Hh, bind_Ok, Hput, bind_Ok.
  assert (Hl1 := lookup_lt_Some _ _ _ Hw). assert (Hl2 := lookup_lt_Some _ _ _ Hn).
  rewrite aset_ok, bind_Ok by lia. cbn [partition_rows set_writers].
  rewrite (aref_lookup _ _ n), bind_Ok by (done || lia). rewrite aset_ok, bind_Ok by lia.
  set (st := mkStats _ _ _ _ _ _). set (s1 := set_stats _ st).
  assert (Hinv1 : spill_inv s1
    (append_to p [(hash, gc <$> seqZ 0 (ncolumns s))] parts)).
  { rewrite (append_to_lookup _ _ _ rows) by done.
    pose proof (inv_update s parts p _ t _ _ st (eviction_cursor s) Hinv Hp
      (si_cursor _ _ Hinv) (part_ok_put _ _ _ _ _ _ _ Hpart Hwf' Hrows')) as Hup.
    rewrite (insert_same (tapes s)), (allocated_insert _ _ (Some w)) in Hup by done.
    replace (allocated (writers s) - occupancy (Some w) + occupancy (Some w'))
      with (active_writers s) in Hup; [done|].
    rewrite (si_active _ _ Hinv). simpl. lia. }
  assert (Hother : ∀ q wq, q ≠ Z.to_nat p → writers s1 !! q = Some (Some wq) → w_nrows wq < 64).
  { intros q wq Hne. cbn. rewrite list_lookup_insert_ne by done. apply Hroom. }
  assert (Hself : writers s1 !! Z.to_nat p = Some (Some w')) by (cbn; by apply list_lookup_insert_eq).
  destruct (Z.eqb_spec (w_nrows w') PG_BATCH_SPILL_BLOCK_ROWS) as [Hfull|Hfull].
  - destruct (flush_inv s1 _ p Hinv1 Hp) as (s2 & -> & Hinv2 & Hcfg & Ha & _ & Hq & Hocc & Hz).
    exists s2. split; [done|]. split; [done|]. rewrite Hself in Hocc.
    destruct (writers s2 !! Z.to_nat p) as [[w2|]|] eqn:Hw2; try done.
    split; [|by exists w2]. constructor; [done| |].
    + intros q wq Hwq. destruct (decide (q = Z.to_nat p)) as [->|Hne].
      * rewrite (Hz wq); [lia|congruence].
      * rewrite Hq in Hwq by done. by eapply Hother.
    + unfold within_budget in *. destruct Hcfg as (_ & _ & ->). by rewrite Ha.
  - exists s1. split; [done|]. split; [done|]. split; [|by exists w']. constructor; [done| |done].
    intros q wq Hwq. destruct (decide (q = Z.to_nat p)) as [->|Hne]; [|by eapply Hother].
    rewrite Hself in Hwq. injection Hwq as <-.
    destruct Hwf'. unfold PG_BATCH_SPILL_BLOCK_ROWS in Hfull. lia.
Qed.

Lemma append_to_app p r1 r2 parts : append_to p r2 (append_to p r1 parts) = append_to p (r1 ++ r2) parts.
Proof.
  unfold append_to. rewrite list_alter_alter_eq. apply list_alter_ext; [|done].
  intros l _. unfold compose. by rewrite app_assoc.
Qed.

Lemma append_to_nil p parts : append_to p [] parts = parts.
Proof. unfold append_to. apply list_alter_id. intros l. by rewrite app_nil_r. Qed.

(** A loop of [spill_row] over any list of rows. *)
Lemma spill_rows_ok s parts p hashes get gc hash rows :
  spill_writing p s parts → 0 ≤ p < npartitions s →
  (∀ row, row ∈ rows → aref hashes row = Ok (hash row) ∧ is_u32 (hash row) ∧
    ∀ c, 0 ≤ c < ncolumns s → get row c = Ok (gc row c) ∧ is_s32 (gc row c).1) →
  ∃ s', foldM (spill_row p hashes get) rows s = Ok s' ∧ same_config s s' ∧
    spill_open s' (append_to p ((λ row, (hash row, gc row <$> seqZ 0 (ncolumns s))) <$> rows) parts).
Proof.
  intros Hs Hp Hrows.
  destruct (foldM_inv (λ pre s', same_config s s' ∧ spill_writing p s'
      (append_to p ((λ row, (hash row, gc row <$> seqZ 0 (ncolumns s))) <$> pre) parts))
    (spill_row p hashes get) rows s) as (s' & E & Hcfg & Hw & _).
  - split; [done|]. by rewrite append_to_nil.
  - intros pre row post a -> [(Hc1 & Hc2 & Hc3) Ha].
    destruct (Hrows row) as (Hh & Hu & Hget); [set_solver|].
    destruct (spill_row_ok a _ p hashes get (gc row) (hash row) row Ha) as (a' & E & Hcfg & Ha');
      [lia|done|done|by rewrite Hc1|].
    exists a'. split; [done|]. split.
    + eapply same_config_trans; [|done]. done.
    + rewrite append_to_app, Hc1 in Ha'. by rewrite fmap_app.
  - eauto.
Qed.
End spill_set.
