(* ===== verification/SpillRun.v ===== *)
(** * Spill sets: creation, writes, and reading back

    The public operations on top of the invariants of [SpillSet.v], and the
    properties of a whole run: what is written to a partition is what its
    reader returns, whatever was flushed or evicted on the way. *)

From S2P Require Import Prelude Words Bytes Selection Vector Int4 Spill SpillBlocks SpillSet.

(** A row as a consumer of a block sees it. *)
Abbreviation sql_row := (Z * list (option Z))%type.
Definition logical (r : raw_row) : sql_row := (r.1, raw_cells r).

Section spill_run.
Context `{PgCore} `{LogicalTapes}.

(** ** Creation *)

Definition int4_attribute (a : attribute) : Prop := attisdropped a = false ∧ atttypid a = INT4OID.

Definition config_ok (desc : list attribute) (nc np : Z) : Prop :=
  0 < nc ≤ zlength desc ∧ zlength desc < 2 ^ 16 ∧ 0 < np ∧
  Forall int4_attribute (take (Z.to_nat nc) desc).

Definition writer_size (nc : Z) : Z := sizeof_SpillWriter + (4 * 64 * nc + 8 * nc).

Lemma writer_bytes_ok nc : 0 < nc < 2 ^ 16 → writer_bytes nc = Ok (writer_size nc).
Proof.
  intros Hn. unfold writer_bytes, writer_size, PG_BATCH_SPILL_BLOCK_ROWS, sizeof_SpillWriter.
  rewrite (mul_size_spec (4 * 64)), bind_Ok by (unfold is_u64; lia).
  rewrite (mul_size_spec 8), bind_Ok by (unfold is_u64; lia).
  rewrite add_size_spec, bind_Ok by (unfold is_u64; lia).
  by rewrite add_size_spec by (unfold is_u64; lia).
Qed.

Lemma columns_check_ok desc nc :
  0 ≤ nc ≤ zlength desc → Forall int4_attribute (take (Z.to_nat nc) desc) →
  foldM (λ column _, attr ← aref desc column;
      raise_if (attisdropped attr || negb (atttypid attr =? INT4OID))
        (Elog "pg_batch spill column must be int4")) (seqZ 0 nc) tt = Ok tt.
Proof.
  intros Hn Hattr. rewrite (foldM_pure _ (λ _ _, tt)).
  - by destruct (foldl _ _ _).
  - intros c [] Hc%elem_of_seqZ. rewrite (aref_ok (mkAttr true 0)), bind_Ok by lia.
    destruct (Forall_lookup_1 _ _ (Z.to_nat c) (zget (mkAttr true 0) desc c) Hattr) as [Hd Ht].
    + rewrite lookup_take_lt by lia. unfold zget.
      destruct (lookup_lt_is_Some_2 desc (Z.to_nat c)) as [a ->]; [lia|done].
    + by rewrite Hd, Ht, Z.eqb_refl.
Qed.

Lemma create_ok desc nc np limit :
  config_ok desc nc np →
  ∃ s, pg_batch_spill_create desc nc np limit = Ok s ∧
    spill_open s (replicate (Z.to_nat np) []) ∧ ncolumns s = nc ∧ npartitions s = np ∧
    max_writers s = Z.min np (Z.max 1 (limit / writer_size nc)).
Proof.
  intros (Hnc & Hd & Hnp & Hattr). unfold pg_batch_spill_create.
  destruct (Z.leb_spec nc 0), (Z.ltb_spec (zlength desc) nc), (Z.leb_spec np 0); try lia.
  cbn [orb raise_if]. rewrite bind_Ok, columns_check_ok, bind_Ok by (done || lia).
  rewrite writer_bytes_ok, bind_Ok by lia.
  eexists; split; [done|]. split; [|done]. constructor.
  - constructor; cbn; rewrite ?length_replicate; try lia.
    + intros p rows t ow n [-> _]%lookup_replicate [-> _]%lookup_replicate
        [-> _]%lookup_replicate [-> _]%lookup_replicate.
      exists []. split_and!; try done. apply tape_create_spec.
    + symmetry. apply allocated_none. by intros p o [-> _]%lookup_replicate.
  - intros p w Hp. cbn in Hp. by apply lookup_replicate in Hp as [? _].
  - unfold within_budget. cbn. lia.
Qed.

(** ** Writing *)

Inductive spill_op : Type :=
| SpillWrite (partition : Z) (columns : list PgBatchInt4Vector) (selection : PgBatchSelection)
    (hashes : list Z)
| SpillWriteDense (partition nrows : Z) (hashes values : list Z) (value_stride : Z)
    (validity : list Z).

Definition run_op (op : spill_op) (s : PgBatchSpillSet) : res PgBatchSpillSet :=
  match op with
  | SpillWrite p columns sel hashes => pg_batch_spill_write s p columns sel hashes
  | SpillWriteDense p n hashes values stride validity =>
      pg_batch_spill_write_dense s p n hashes values stride validity
  end.

(** A row whose cell in a column can be read. *)
Definition readable (column : PgBatchInt4Vector) (row : Z) : Prop :=
  pg_batch_int4_row_is_null column row = Ok (cell_null column row) ∧
  (cell_null column row = false →
   pg_batch_int4_row_value column row = Ok (stored_value column row) ∧ is_s32 (stored_value column row)).

Lemma readable_wf column n row : col_wf column n → 0 ≤ row < n → readable column row.
Proof.
  intros Hc Hr. split; [by eapply row_is_null_ok|]. intros _.
  split; [by eapply row_value_ok|by eapply stored_value_s32].
Qed.

(** The rows [pg_batch_spill_write] visits. *)
Definition written_rows (sel : PgBatchSelection) : list Z :=
  filter (λ row, row < nrows sel) (bits_of (zget 0 (words sel) 0)).

(** The arrays a caller passes cover the rows written and the columns of the
    set. *)
Definition op_ok (nc np : Z) (op : spill_op) : Prop :=
  match op with
  | SpillWrite p columns sel hashes =>
      0 ≤ p < np ∧ 0 ≤ nrows sel ≤ 64 ∧ nwords sel = 1 ∧ zlength (words sel) = 1 ∧
      Forall is_u64 (words sel) ∧ nc ≤ zlength columns ∧
      ∀ row, row ∈ written_rows sel → row < zlength hashes ∧ is_u32 (zget 0 hashes row) ∧
        ∀ c, 0 ≤ c < nc → readable (zget (PG_BATCH_INT4_DATUM [] []) columns c) row
  | SpillWriteDense p n hashes values stride validity =>
      0 ≤ p < np ∧ 1 ≤ n ≤ 64 ∧ n ≤ stride ∧ n ≤ zlength hashes ∧ Forall is_u32 hashes ∧
      (nc - 1) * stride + n ≤ zlength values ∧ Forall is_s32 values ∧
      nc ≤ zlength validity ∧ Forall is_u64 validity
  end.

Definition op_partition (op : spill_op) : Z :=
  match op with SpillWrite p _ _ _ => p | SpillWriteDense p _ _ _ _ _ => p end.

(** The rows an operation appends. *)
Definition dense_value (values : list Z) (stride : Z) (validity : list Z) (row c : Z) : option Z :=
  if Z.testbit (zget 0 validity c) row then Some (zget 0 values (c * stride + row)) else None.

Definition op_rows (nc : Z) (op : spill_op) : list sql_row :=
  match op with
  | SpillWrite _ columns sel hashes =>
      (λ row, (zget 0 hashes row, (λ c, cell c row) <$> take (Z.to_nat nc) columns)) <$>
        written_rows sel
  | SpillWriteDense _ n hashes values stride validity =>
      (λ row, (zget 0 hashes row, dense_value values stride validity row <$> seqZ 0 nc)) <$> seqZ 0 n
  end.

(** What the contents of all partitions look like to a consumer. *)
Definition parts_rows (parts : list (list raw_row)) : list (list sql_row) :=
  map (map logical) parts.

Lemma parts_rows_append p new parts :
  parts_rows (append_to p new parts) =
    alter (λ l, l ++ (logical <$> new)) (Z.to_nat p) (parts_rows parts).
Proof.
  unfold parts_rows, append_to. apply (list_fmap_alter (map logical)), Forall_forall.
  intros l _. apply map_app.
Qed.

Lemma validate_ok s p : 0 ≤ p < npartitions s → validate_partition s p = Ok tt.
Proof.
  intros Hp. unfold validate_partition.
  destruct (Z.ltb_spec p 0), (Z.leb_spec (npartitions s) p); try lia. done.
Qed.

Lemma vector_cell_ok columns nc row c :
  nc ≤ zlength columns → 0 ≤ c < nc →
  let v := zget (PG_BATCH_INT4_DATUM [] []) columns c in
  readable v row → vector_cell columns row c = Ok (if cell_null v row then (0, false) else (stored_value v row, true)).
Proof.
  intros Hlen Hc v [Hnull Hval]. unfold vector_cell. rewrite (aref_ok (PG_BATCH_INT4_DATUM [] [])), bind_Ok by lia.
  fold v. rewrite Hnull, bind_Ok. destruct (cell_null v row); [done|]. by rewrite (proj1 (Hval eq_refl)).
Qed.

(** The mask of the first [n] rows, as the sources write it. *)
Lemma rows_mask n : 0 ≤ n ≤ 64 → (if n =? 64 then UINT64_MAX else bit64 n - 1) = Z.ones n.
Proof. intros Hn. destruct (Z.eqb_spec n 64) as [->|]; [done|]. apply bit64_ones. lia. Qed.

Lemma bits_of_masked w n :
  0 ≤ n ≤ 64 → bits_of (Z.land w (Z.ones n)) = filter (λ row, row < n) (bits_of w).
Proof.
  intros Hn. unfold bits_of. rewrite list_filter_filter. apply list_filter_iff'.
  intros i Hi%elem_of_seqZ. rewrite Z.land_spec, testbit_ones, andb_true_iff by lia.
  destruct (Z.leb_spec 0 i), (Z.ltb_spec i n); simpl; intuition (done || lia).
Qed.

(** Reading a cell the way the two row loops do. *)
Definition vector_value (columns : list PgBatchInt4Vector) (row c : Z) : Z * bool :=
  let v := zget (PG_BATCH_INT4_DATUM [] []) columns c in
  if cell_null v row then (0, false) else (stored_value v row, true).

Definition dense_raw (values : list Z) (stride : Z) (validity : list Z) (row c : Z) : Z * bool :=
  (zget 0 values (c * stride + row), Z.testbit (zget 0 validity c) row).

Lemma vector_value_logical columns nc row :
  0 ≤ nc ≤ zlength columns →
  raw_cells (0, vector_value columns row <$> seqZ 0 nc) =
    (λ c, cell c row) <$> take (Z.to_nat nc) columns.
Proof.
  intros Hn. unfold raw_cells. cbn [snd]. rewrite <- list_fmap_compose.
  apply list_eq. intros i. rewrite !list_lookup_fmap.
  destruct (decide (Z.of_nat i < nc)) as [Hi|Hi].
  - rewrite lookup_seqZ_lt, lookup_take_lt by lia.
    destruct (lookup_lt_is_Some_2 columns i) as [v Hv]; [lia|].
    rewrite Hv. simpl. unfold vector_value, zget. rewrite Z.add_0_l, Nat2Z.id, Hv. simpl.
    unfold cell. by destruct (cell_null v row).
  - rewrite lookup_seqZ_ge, lookup_take_ge by lia. done.
Qed.

(** What an accepted write does to an open set. *)
Definition appends (op : spill_op) (s : PgBatchSpillSet) (parts : list (list raw_row)) : Prop :=
  ∃ s' new, run_op op s = Ok s' ∧ same_config s s' ∧
    spill_open s' (append_to (op_partition op) new parts) ∧
    logical <$> new = op_rows (ncolumns s) op.

Lemma write_vectors_ok s parts p columns sel hashes :
  let op := SpillWrite p columns sel hashes in
  spill_open s parts → op_ok (ncolumns s) (npartitions s) op → appends op s parts.
Proof.
  intros op Hs Hop. pose proof (si_open _ _ (so_inv _ _ Hs)) as Hfin.
  pose proof (si_ncolumns _ _ (so_inv _ _ Hs)) as Hnc. unfold appends. simpl in Hop |- *.
  destruct Hop as (Hp & Hn & Hnw & Hlw & Huw & Hlc & Hcols).
  unfold pg_batch_spill_write. rewrite validate_ok, bind_Ok, Hfin, Hnw by done.
  destruct (Z.ltb_spec (nrows sel) 0), (Z.ltb_spec PG_BATCH_SPILL_BLOCK_ROWS (nrows sel));
    try (unfold PG_BATCH_SPILL_BLOCK_ROWS in *; lia). 
  change (1 =? 1) with true. cbn [negb orb raise_if]. rewrite bind_Ok.
  rewrite (aref_ok 0), bind_Ok, rows_mask by lia. cbv zeta.
  set (rows := Z.land _ _).
  assert (Hrows : is_u64 rows).
  { apply is_u64_land; [apply zget_Forall; [done|lia]|by apply is_u64_ones]. }
  assert (Hbits : bits_of rows = written_rows sel) by by apply bits_of_masked.
  rewrite <- Hbits. destruct (Z.eqb_spec rows 0) as [Hz|_].
  + exists s, []. rewrite append_to_nil, Hz. done.
  + destruct (get_writer_ok s parts p Hs Hp) as (s1 & w & -> & Hs1 & (Hc1 & Hc2 & Hc3) & Hw).
    rewrite bind_Ok, while_bits_spec by (done || apply clear_lowest_lowest).
    destruct (spill_rows_ok s1 parts p hashes (vector_cell columns) (vector_value columns)
      (zget 0 hashes) (bits_of rows)) as (s' & -> & Hcfg & Hs'); [by split; eauto|lia| |].
    { intros row Hrow. rewrite Hbits in Hrow. destruct (Hcols row Hrow) as (Hh & Hu & Hread).
      unfold written_rows in Hrow. apply list_elem_of_filter in Hrow as [Hlt Hb]. apply bits_of_lt in Hb. split_and!.
      - apply aref_ok. lia.
      - done.
      - intros c Hc. rewrite Hc1 in Hc. rewrite (vector_cell_ok columns (ncolumns s)) by auto.
        destruct (Hread c Hc) as [_ Hval]. unfold vector_value. destruct (cell_null _ row); split; try done.
        by apply Hval. }
    eexists s', _. split_and!; [done| |done|].
    * eapply same_config_trans; [|done]. done.
    * rewrite <- list_fmap_compose. apply list_fmap_ext. intros i row _.
      unfold logical, compose. simpl. f_equal. rewrite <- (vector_value_logical _ (ncolumns s)) by lia.
      by rewrite Hc1.
Qed.

Lemma write_dense_ok s parts p n hashes values stride validity :
  let op := SpillWriteDense p n hashes values stride validity in
  spill_open s parts → op_ok (ncolumns s) (npartitions s) op → appends op s parts.
Proof.
  intros op Hs Hop. pose proof (si_open _ _ (so_inv _ _ Hs)) as Hfin.
  pose proof (si_ncolumns _ _ (so_inv _ _ Hs)) as Hnc. unfold appends. simpl in Hop |- *.
  destruct Hop as (Hp & Hn & Hst & Hh & Huh & Hlv & Hs32 & Hlm & Hu64).
  unfold pg_batch_spill_write_dense. rewrite validate_ok, bind_Ok, Hfin by done.
  destruct (Z.leb_spec n 0), (Z.ltb_spec PG_BATCH_SPILL_BLOCK_ROWS n), (Z.ltb_spec stride n);
    try (unfold PG_BATCH_SPILL_BLOCK_ROWS in *; lia). cbn [orb raise_if]. rewrite bind_Ok.
  destruct (get_writer_ok s parts p Hs Hp) as (s1 & w & -> & Hs1 & (Hc1 & Hc2 & Hc3) & Hw).
  rewrite bind_Ok.
  destruct (spill_rows_ok s1 parts p hashes (dense_cell values stride validity)
    (dense_raw values stride validity) (zget 0 hashes) (seqZ 0 n))
    as (s' & -> & Hcfg & Hs'); [by split; eauto|lia| |].
  { intros row Hrow%elem_of_seqZ. split_and!.
    - apply aref_ok. lia.
    - apply zget_Forall; [done|lia].
    - intros c Hc. rewrite Hc1 in Hc. unfold dense_cell, dense_raw.
      rewrite (aref_ok 0 values), bind_Ok by nia.
      rewrite (aref_ok 0 validity), bind_Ok by lia.
      rewrite land_bit64 by lia. split; [done|]. apply zget_Forall; [done|nia]. }
  eexists s', _. split_and!; [done| |done|].
  + eapply same_config_trans; [|done]. done.
  + rewrite <- list_fmap_compose. apply list_fmap_ext. intros i row _.
    unfold logical, compose, raw_cells. simpl. f_equal. rewrite Hc1, <- list_fmap_compose.
    apply list_fmap_ext. intros j c _. unfold compose, dense_raw, dense_value. simpl.
    by destruct (Z.testbit _ _).
Qed.

Lemma write_ok s parts op :
  spill_open s parts → op_ok (ncolumns s) (npartitions s) op → appends op s parts.
Proof. destruct op; [apply write_vectors_ok|apply write_dense_ok]. Qed.

(** ** Runs of writes *)

(** The rows the operations append to one partition. *)
Definition rows_for (nc : Z) (p : nat) (ops : list spill_op) : list sql_row :=
  concat ((λ op, if decide (Z.to_nat (op_partition op) = p) then op_rows nc op else []) <$> ops).

Lemma run_ops_ok ops : ∀ s parts,
  spill_open s parts → Forall (op_ok (ncolumns s) (npartitions s)) ops →
  ∃ s' parts', foldM run_op ops s = Ok s' ∧ same_config s s' ∧ spill_open s' parts' ∧
    ∀ p, map logical <$> parts' !! p =
      (λ rows, map logical rows ++ rows_for (ncolumns s) p ops) <$> parts !! p.
Proof.
  induction ops as [|op ops IH]; intros s parts Hs Hops.
  - exists s, parts. split_and!; try done. intros p. apply option_fmap_ext.
    intros rows. unfold rows_for. simpl. by rewrite app_nil_r.
  - inversion_clear Hops as [|? ? Hop Hrest].
    destruct (write_ok s parts op Hs Hop) as (s1 & new & E & (Hc1 & Hc2 & Hc3) & Hs1 & Hnew).
    destruct (IH s1 _ Hs1) as (s2 & parts2 & E2 & (Hd1 & Hd2 & Hd3) & Hs2 & Hl).
    { by rewrite Hc1, Hc2. }
    exists s2, parts2. simpl. rewrite E. split_and!; [done|unfold same_config; lia|done|].
    intros p. rewrite Hl. unfold append_to. rewrite list_lookup_alter, Hc1.
    unfold rows_for. simpl. case_decide as Hp.
    + subst p. destruct (parts !! _) as [rows|] eqn:El; simpl; [|done].
      rewrite map_app, <- app_assoc. do 3 f_equal.
      change (map logical new) with (logical <$> new). by rewrite Hnew.
    + done.
Qed.
End spill_run.
