(* ===== verification/SpillRead.v ===== *)
(** * Spill sets: finishing and reading

    After [pg_batch_spill_finish] each partition is a sequence of blocks on
    its tape; readers take them off one by one. *)

From S2P Require Import Prelude Words Bytes Selection Vector Int4 Spill SpillBlocks SpillSet SpillRun.

Section spill_read.
Context `{PgCore} `{LogicalTapes}.

(** ** Finishing *)

(** A finished partition: all its blocks, and those not read yet.  The tape
    of an empty partition is never rewound, and never read. *)
Definition part_ready (nc : Z) (fro : bool) (all unread : list SpillWriter)
    (t : LogicalTape) (n : Z) : Prop :=
  Forall (flushed nc) all ∧ Forall (flushed nc) unread ∧ n = zlength (blocks_rows nc all) ∧
  (all = [] → unread = []) ∧
  (all ≠ [] → tape_contents t = Reading fro (blocks_image nc all) (blocks_image nc unread)).

Lemma blocks_rows_empty nc ws :
  Forall (flushed nc) ws → zlength (blocks_rows nc ws) = 0 → ws = [].
Proof.
  destruct ws as [|w ws]; [done|]. intros [[Hwf Hn] _]%Forall_cons. unfold blocks_rows.
  rewrite fmap_cons. cbn [concat]. rewrite length_app, Nat2Z.inj_add.
  unfold writer_rows at 1. rewrite length_array_rows by apply Hwf. destruct Hwf. lia.
Qed.

(** Flushing before the end: all rows of the partition are on its tape. *)
Lemma flush_all s p rows t ow n :
  0 < ncolumns s → 0 ≤ p → tapes s !! Z.to_nat p = Some t → writers s !! Z.to_nat p = Some ow →
  part_ok (ncolumns s) rows t ow n →
  ∃ t' ow' st all, flush_writer s p = Ok (set_stats (set_writers (set_tapes s
      (<[Z.to_nat p := t']> (tapes s))) (<[Z.to_nat p := ow']> (writers s))) st) ∧
    occupancy ow' = occupancy ow ∧ tape_contents t' = Writing (blocks_image (ncolumns s) all) ∧
    Forall (flushed (ncolumns s)) all ∧ blocks_rows (ncolumns s) all = rows.
Proof.
  intros Hnc Hp Ht Hw (ws & Hws & Htape & Hrows & Hwf & _).
  destruct (decide (pending_rows (ncolumns s) ow = [])) as [He|He].
  - exists t, ow, (stats s), ws. rewrite He, app_nil_r in Hrows.
    split_and!; [|done..]. unfold flush_writer. rewrite (aref_lookup _ _ ow), bind_Ok by done.
    rewrite !list_insert_id by done.
    destruct ow as [w|]; [|by destruct s].
    assert (w_nrows w = 0) as ->; [|by destruct s].
    apply (f_equal length) in He. simpl in He. unfold writer_rows in He.
    assert (Hl := length_array_rows (ncolumns s) (w_nrows w) (w_hashes w) (w_values w) (w_validity w)).
    destruct (Hwf w eq_refl). lia.
  - destruct ow as [w|]; [|done]. specialize (Hwf w eq_refl).
    destruct (flush_ok s p w t (blocks_image (ncolumns s) ws)) as (t' & w' & st & -> & Ht' & _ & _);
      try done.
    { intros Hz. apply He. simpl. unfold writer_rows, array_rows. by rewrite Hz. }
    exists t', (Some w'), st, (ws ++ [w]). unfold blocks_image, blocks_rows.
    rewrite !fmap_app, !concat_app. cbn [fmap list_fmap concat]. rewrite !app_nil_r.
    split_and!; try done. apply Forall_app_2; [done|]. constructor; [|done]. split; [done|].
    intros Hz. apply He. simpl. unfold writer_rows, array_rows. by rewrite Hz.
Qed.

(** The body of the loop of [pg_batch_spill_finish]. *)
Definition finish_partition (is_frozen : bool) (p : Z) (s : PgBatchSpillSet) : res PgBatchSpillSet :=
  set ← flush_writer s p;
  n ← aref (partition_rows set) p;
  set ← (if negb (n =? 0) then
      tape ← aref (tapes set) p;
      ts ← aset (tapes set) p
             (if is_frozen then LogicalTapeFreeze tape else LogicalTapeRewindForRead tape);
      Ok (set_tapes set ts)
    else Ok set);
  free_writer set p.

Lemma finish_partition_ok fro s p rows t ow n :
  0 < ncolumns s → 0 ≤ p → tapes s !! Z.to_nat p = Some t → writers s !! Z.to_nat p = Some ow →
  partition_rows s !! Z.to_nat p = Some n → part_ok (ncolumns s) rows t ow n →
  zlength rows < 2 ^ 64 →
  ∃ t' st all, finish_partition fro p s =
      Ok (set_active (set_stats (set_writers (set_tapes s
        (<[Z.to_nat p := t']> (tapes s))) (<[Z.to_nat p := None]> (writers s))) st)
        (active_writers s - occupancy ow)) ∧
    part_ready (ncolumns s) fro all all t' n ∧ blocks_rows (ncolumns s) all = rows.
Proof.
  intros Hnc Hp Ht Hw Hn Hpart Hlen. assert (Hn' : n = zlength rows).
  { destruct Hpart as (_ & _ & _ & _ & _ & ->). apply Z.mod_small. lia. }
  destruct (flush_all s p rows t ow n Hnc Hp Ht Hw Hpart)
    as (t1 & ow1 & st & all & E & Hocc & Ht1 & Hall & Hrows).
  assert (Hl1 := lookup_lt_Some _ _ _ Ht). assert (Hl2 := lookup_lt_Some _ _ _ Hw).
  unfold finish_partition. rewrite E, bind_Ok. cbn.
  rewrite (aref_lookup _ _ n), bind_Ok by done.
  set (s1 := set_stats _ st).
  set (t2 := if n =? 0 then t1 else if fro then LogicalTapeFreeze t1 else LogicalTapeRewindForRead t1).
  assert ((if negb (n =? 0) then
      tape ← aref (<[Z.to_nat p:=t1]> (tapes s)) p;
      ts ← aset (<[Z.to_nat p:=t1]> (tapes s)) p
             (if fro then LogicalTapeFreeze tape else LogicalTapeRewindForRead tape);
      Ok (set_tapes s1 ts)
    else Ok s1) = Ok (set_tapes s1 (<[Z.to_nat p := t2]> (tapes s)))) as ->.
  { unfold t2. destruct (n =? 0); simpl; [done|].
    rewrite (aref_lookup _ _ t1), bind_Ok by (done || by apply list_lookup_insert_eq).
    rewrite aset_ok, bind_Ok by (rewrite length_insert; lia). by rewrite list_insert_insert_eq. }
  rewrite bind_Ok. unfold free_writer. cbn.
  rewrite (aref_lookup _ _ ow1), bind_Ok by (done || by apply list_lookup_insert_eq).
  exists t2, st, all. split; [|split; [|done]].
  - destruct ow1 as [w1|].
    + rewrite aset_ok, bind_Ok by (rewrite length_insert; lia).
      rewrite list_insert_insert_eq, <- Hocc. done.
    + rewrite <- Hocc. simpl. rewrite Z.sub_0_r. by destruct s.
  - unfold part_ready. rewrite Hrows. split_and!; try done. intros Hne. unfold t2.
    destruct (Z.eqb_spec n 0) as [Hz|_].
    + destruct Hne. apply (blocks_rows_empty (ncolumns s)); [done|]. rewrite Hrows. lia.
    + destruct fro; [by apply tape_freeze_spec|by apply tape_rewind_spec].
Qed.
(** A set being read: per partition, all blocks and the unread ones. *)
Record spill_ready (s : PgBatchSpillSet) (parts : list (list SpillWriter * list SpillWriter)) : Prop := {
  sr_ncolumns : 0 < ncolumns s < 2 ^ 16;
  sr_tapes : zlength (tapes s) = npartitions s;
  sr_rows : zlength (partition_rows s) = npartitions s;
  sr_length : zlength parts = npartitions s;
  sr_part : ∀ p all unread t n, parts !! p = Some (all, unread) → tapes s !! p = Some t →
    partition_rows s !! p = Some n → part_ready (ncolumns s) (frozen s) all unread t n;
  sr_finished : finished s = true;
}.

Record finish_inv (s0 : PgBatchSpillSet) (parts : list (list raw_row)) (fro : bool)
    (alls : list (list SpillWriter)) (s : PgBatchSpillSet) : Prop := {
  fi_config : same_config s0 s;
  fi_rows : partition_rows s = partition_rows s0;
  fi_tapes : length (tapes s) = length (tapes s0);
  fi_writers : length (writers s) = length (writers s0);
  fi_done : (blocks_rows (ncolumns s0) <$> alls) = take (length alls) parts;
  fi_ready : ∀ p all t n, alls !! p = Some all → tapes s !! p = Some t →
    partition_rows s0 !! p = Some n → part_ready (ncolumns s0) fro all all t n;
  fi_freed : ∀ p o, (p < length alls)%nat → writers s !! p = Some o → o = None;
  fi_rest : ∀ p, (length alls ≤ p)%nat → tapes s !! p = tapes s0 !! p ∧ writers s !! p = writers s0 !! p;
  fi_active : active_writers s = allocated (writers s);
}.

Lemma finish_step s0 parts fro alls s p :
  spill_inv s0 parts → Forall (λ rows, zlength rows < 2 ^ 64) parts →
  finish_inv s0 parts fro alls s → p = zlength alls → p < npartitions s0 →
  ∃ s' all, finish_partition fro p s = Ok s' ∧ finish_inv s0 parts fro (alls ++ [all]) s'.
Proof.
  intros Hinv Hlen [(Hc1 & Hc2 & Hc3)] -> Hp.
  destruct (inv_lookup s0 parts (zlength alls) Hinv ltac:(lia))
    as (rows & t & ow & n & Hr & Ht & Hw & Hn & Hpart). rewrite Nat2Z.id in *.
  destruct (fi_rest0 (length alls)) as [Et Ew]; [lia|].
  destruct (finish_partition_ok fro s (zlength alls) rows t ow n)
    as (t' & st & all & -> & Hready & Hall); try rewrite Nat2Z.id; try rewrite Hc1; try done.
  { pose proof (si_ncolumns _ _ Hinv). lia. }
  { lia. } { congruence. } { congruence. } { congruence. }
  { by eapply Forall_lookup_1 in Hlen. }
  rewrite Hc1 in Hready, Hall.
  assert (Hl1 := lookup_lt_Some _ _ _ Ht). assert (Hl2 := lookup_lt_Some _ _ _ Hw).
  eexists _, all. split; [done|]. constructor; cbn; rewrite ?length_insert, ?length_app; try done.
  - rewrite fmap_app, fi_done0. cbn [length fmap list_fmap].
    rewrite Nat.add_1_r, (take_S_r _ _ rows) by done. by rewrite Hall.
  - intros q all' tq nq Hq Htq Hnq. destruct (decide (q = length alls)) as [->|Hne].
    + rewrite lookup_app_r, Nat.sub_diag in Hq by done. injection Hq as <-.
      rewrite list_lookup_insert_eq in Htq by lia. by simplify_eq.
    + apply lookup_app_Some in Hq as [Hq|[Hge Hq]].
      * rewrite list_lookup_insert_ne in Htq by done. eauto.
      * apply lookup_lt_Some in Hq. simpl in Hq. lia.
  - intros q o Hq. simpl in Hq. destruct (decide (q = length alls)) as [->|Hne].
    + rewrite list_lookup_insert_eq by lia. congruence.
    + rewrite list_lookup_insert_ne by done. apply fi_freed0. lia.
  - intros q Hq. simpl in Hq. rewrite !list_lookup_insert_ne by lia. apply fi_rest0. lia.
  - change (active_writers s - occupancy ow = allocated (<[length alls:=None]> (writers s))).
    rewrite (allocated_insert _ _ ow) by congruence. simpl. lia.
Qed.

Lemma finish_ok s parts fro :
  spill_inv s parts → Forall (λ rows, zlength rows < 2 ^ 64) parts →
  ∃ s' alls, pg_batch_spill_finish s fro = Ok s' ∧ frozen s' = fro ∧ same_config s s' ∧
    spill_ready s' ((λ all, (all, all)) <$> alls) ∧
    (blocks_rows (ncolumns s) <$> alls) = parts ∧ active_writers s' = 0.
Proof.
  intros Hinv Hlen. unfold pg_batch_spill_finish. rewrite (si_open _ _ Hinv). cbn [raise_if].
  rewrite bind_Ok. pose proof (si_npartitions _ _ Hinv) as Hnp.
  destruct (for_inv (λ k s', ∃ alls, k = zlength alls ∧ finish_inv s parts fro alls s')
    (finish_partition fro) (npartitions s) s) as (s1 & E & alls & Hk & Hfin).
  - lia.
  - exists []. split; [done|]. constructor; try done; [intros p o Hp; simpl in Hp; lia|apply Hinv].
  - intros k s' Hk (alls & -> & Hfin).
    destruct (finish_step s parts fro alls s' _ Hinv Hlen Hfin eq_refl) as (s2 & all & E & Hf); [lia|].
    exists s2. split; [done|]. exists (alls ++ [all]). split; [|done]. rewrite length_app. simpl. lia.
  - unfold finish_partition in E. rewrite E, bind_Ok. destruct Hfin as [(Hc1 & Hc2 & Hc3)], Hinv.
    eexists _, alls. split_and!; try done.
    + constructor; cbn; rewrite ?length_fmap, ?fi_rows0; try lia; try done.
      intros p all unread t n Hp Ht Hn. rewrite list_lookup_fmap in Hp.
      destruct (alls !! p) as [a|] eqn:Ea; [|done]. injection Hp as <- <-. rewrite Hc1.
      eauto.
    + rewrite fi_done0, take_ge by lia. done.
    + cbn. rewrite fi_active0. apply allocated_none. intros p o Ho.
      apply (fi_freed0 p o); [|done]. apply lookup_lt_Some in Ho. lia.
Qed.

(** ** Readers *)

Record reader_ok (s : PgBatchSpillSet) (parts : list (list SpillWriter * list SpillWriter))
    (rd : PgBatchSpillReader) (all unread : list SpillWriter) : Prop := {
  ro_partition : 0 ≤ rd_partition rd < npartitions s;
  ro_arrays : reader_wf (ncolumns s) rd;
  ro_unread : parts !! Z.to_nat (rd_partition rd) = Some (all, unread);
  ro_eof : rd_eof rd = true → unread = [];
  ro_empty : all = [] → rd_eof rd = true;
}.

Lemma ready_lookup s parts p :
  spill_ready s parts → 0 ≤ p < npartitions s →
  ∃ all unread t n, parts !! Z.to_nat p = Some (all, unread) ∧ tapes s !! Z.to_nat p = Some t ∧
    partition_rows s !! Z.to_nat p = Some n ∧ part_ready (ncolumns s) (frozen s) all unread t n.
Proof.
  intros [] Hp.
  destruct (lookup_lt_is_Some_2 parts (Z.to_nat p)) as [[all unread] Hr]; [lia|].
  destruct (lookup_lt_is_Some_2 (tapes s) (Z.to_nat p)) as [t Ht]; [lia|].
  destruct (lookup_lt_is_Some_2 (partition_rows s) (Z.to_nat p)) as [n Hn]; [lia|].
  exists all, unread, t, n. split_and!; eauto.
Qed.

(** Replacing the tape of one partition. *)
Lemma ready_update s parts p all unread t n st :
  spill_ready s parts → 0 ≤ p < npartitions s → partition_rows s !! Z.to_nat p = Some n →
  part_ready (ncolumns s) (frozen s) all unread t n →
  spill_ready (set_stats (set_tapes s (<[Z.to_nat p := t]> (tapes s))) st)
    (<[Z.to_nat p := (all, unread)]> parts).
Proof.
  intros [] Hp Hn Hpart. constructor; cbn; rewrite ?length_insert; try done.
  intros q all' unread' t' n' Hr Ht Hn'. destruct (decide (q = Z.to_nat p)) as [->|Hne].
  - rewrite list_lookup_insert_eq in Hr by lia. rewrite list_lookup_insert_eq in Ht by lia.
    by simplify_eq.
  - rewrite list_lookup_insert_ne in Hr by done. rewrite list_lookup_insert_ne in Ht by done. eauto.
Qed.
Lemma same_set_stats s t p st : tapes s !! p = Some t → stats s = st →
  set_stats (set_tapes s (<[p := t]> (tapes s))) st = s.
Proof. intros Ht <-. rewrite list_insert_id by done. by destruct s. Qed.

Lemma part_ready_count nc fro all unread t n :
  part_ready nc fro all unread t n → (n =? 0) = bool_decide (all = []).
Proof.
  intros (Hall & _ & -> & _). destruct (Z.eqb_spec (zlength (blocks_rows nc all)) 0) as [Hz|Hz].
  - rewrite bool_decide_true; [done|]. by eapply blocks_rows_empty.
  - rewrite bool_decide_false; [done|]. by intros ->.
Qed.

Lemma rewind_tape_ok s p all unread t n :
  0 ≤ p → tapes s !! Z.to_nat p = Some t → frozen s = true → all ≠ [] →
  part_ready (ncolumns s) (frozen s) all unread t n →
  ∃ t', rewind_tape s p = Ok (set_tapes s (<[Z.to_nat p := t']> (tapes s))) ∧
    part_ready (ncolumns s) (frozen s) all all t' n.
Proof.
  intros Hp Ht Hf Hne (Hall & Hun & Hn & He & Htape). assert (Hl := lookup_lt_Some _ _ _ Ht).
  unfold rewind_tape. rewrite (aref_lookup _ _ t), bind_Ok by done.
  rewrite aset_ok, bind_Ok by lia. eexists; split; [done|]. split_and!; try done.
  intros _. specialize (Htape Hne). rewrite Hf in *. by eapply tape_rewind_frozen_spec.
Qed.

(** What is left to read once a reader is opened on a partition. *)
Definition reopened (s : PgBatchSpillSet) (all unread : list SpillWriter) : list SpillWriter :=
  if frozen s then all else unread.

Definition same_layout (s s' : PgBatchSpillSet) : Prop :=
  ncolumns s' = ncolumns s ∧ npartitions s' = npartitions s ∧ frozen s' = frozen s.

Lemma reader_open_ok s parts p all unread :
  spill_ready s parts → 0 ≤ p < npartitions s → parts !! Z.to_nat p = Some (all, unread) →
  let parts' := <[Z.to_nat p := (all, reopened s all unread)]> parts in
  ∃ s' rd, pg_batch_spill_reader_open s p = Ok (s', rd) ∧ spill_ready s' parts' ∧
    same_layout s s' ∧ rd_partition rd = p ∧ reader_ok s' parts' rd all (reopened s all unread).
Proof.
  intros Hs Hp Hparts parts'.
  destruct (ready_lookup s parts p Hs Hp) as (all' & unread' & t & n & Hr & Ht & Hn & Hpart).
  rewrite Hparts in Hr. injection Hr as <- <-.
  assert (Hnc := sr_ncolumns _ _ Hs). assert (Hl := lookup_lt_Some _ _ _ Hparts).
  unfold pg_batch_spill_reader_open. rewrite validate_ok, bind_Ok, (sr_finished _ _ Hs) by done.
  cbn [negb raise_if]. rewrite bind_Ok. unfold pg_batch_spill_partition_empty.
  rewrite validate_ok, bind_Ok, !(aref_lookup _ _ n), !bind_Ok by (done || lia).
  pose proof (part_ready_count _ _ _ _ _ _ Hpart) as Hcount. rewrite Hcount.
  set (rd := mkReader _ _ _ _ _).
  assert (Hrd : reader_wf (ncolumns s) rd).
  { unfold rd. destruct (int32_uninit_ok (ncolumns s * PG_BATCH_SPILL_BLOCK_ROWS)) as [Hul Hus];
      [unfold PG_BATCH_SPILL_BLOCK_ROWS; lia|].
    constructor; cbn; [done|done|rewrite palloc_uninit_length; lia|done]. }
  assert (∃ s', (if frozen s && negb (bool_decide (all = [])) then rewind_tape s p else Ok s) = Ok s' ∧
    spill_ready s' parts' ∧ same_layout s s') as (s' & -> & Hs' & (Hl1 & Hl2 & Hl3)).
  { unfold parts', reopened. destruct (frozen s) eqn:Hf; simpl.
    - case_bool_decide as He; simpl.
      + exists s. split_and!; try done. destruct Hpart as (_ & _ & _ & Hun & _).
        rewrite (Hun He), He in Hparts. by rewrite He, list_insert_id.
      + destruct (rewind_tape_ok s p all unread t n) as (t' & -> & Hready); try done; [lia|by rewrite Hf|].
        eexists; split; [done|]. split; [|done].
        exact (ready_update s parts p all all t' n (stats s) Hs Hp Hn Hready).
    - exists s. split_and!; try done. by rewrite list_insert_id. }
  rewrite bind_Ok. eexists s', rd. split_and!; try done. constructor; cbn.
  - lia.
  - by rewrite Hl1.
  - unfold parts'. by apply list_lookup_insert_eq.
  - intros He%bool_decide_eq_true. unfold reopened. destruct (frozen s); [done|].
    destruct Hpart as (_ & _ & _ & Hun & _). by apply Hun.
  - intros ->. done.
Qed.

Lemma reader_next_end s parts rd all :
  spill_ready s parts → reader_ok s parts rd all [] →
  ∃ s' rd', pg_batch_spill_reader_next s rd = Ok (s', rd', None) ∧ spill_ready s' parts ∧
    same_layout s s' ∧ rd_partition rd' = rd_partition rd ∧ reader_ok s' parts rd' all [].
Proof.
  intros Hs Hrd. destruct (rd_eof rd) eqn:He.
  { exists s, rd. unfold pg_batch_spill_reader_next. by rewrite He. }
  destruct Hrd. set (p := rd_partition rd) in *.
  destruct (ready_lookup s parts p Hs ro_partition0) as (all' & unread' & t & n & Hr & Ht & Hn & Hpart).
  rewrite ro_unread0 in Hr. injection Hr as <- <-.
  assert (Hne : all ≠ []) by (intros Hz; specialize (ro_empty0 Hz); congruence).
  assert (Hl := lookup_lt_Some _ _ _ Ht).
  unfold pg_batch_spill_reader_next. fold p. rewrite He, (aref_lookup _ _ t), bind_Ok by (done || lia).
  pose proof Hpart as (Hall & Hun & Hcount & Hempty & Htape).
  destruct (tape_read_spec _ _ _ _ sizeof_SpillHeader (Htape Hne)) as [H1 H2]; [done|].
  destruct (LogicalTapeRead t sizeof_SpillHeader) as [hdr t']. cbn [fst snd] in *.
  change (blocks_image (ncolumns s) []) with ([] : list Z) in H1, H2.
  rewrite take_nil in H1. rewrite drop_nil in H2. subst hdr. cbn [length].
  change (Z.of_nat 0 =? 0) with true. cbv iota. rewrite aset_ok, bind_Ok by lia.
  eexists _, _. split; [done|].
  assert (Hparts : <[Z.to_nat p := (all, [])]> parts = parts) by by apply list_insert_id.
  split_and!; try done.
  - rewrite <- Hparts. apply (ready_update s parts p all [] t' n (stats s)); try done.
  - constructor; cbn; try done. destruct ro_arrays0. by constructor.
Qed.

Lemma reader_next_more s parts rd all w ws :
  spill_ready s parts → reader_ok s parts rd all (w :: ws) →
  let parts' := <[Z.to_nat (rd_partition rd) := (all, ws)]> parts in
  ∃ s' rd' block, pg_batch_spill_reader_next s rd = Ok (s', rd', Some block) ∧
    spill_ready s' parts' ∧ same_layout s s' ∧ rd_partition rd' = rd_partition rd ∧
    reader_ok s' parts' rd' all ws ∧ block_rows block = writer_rows (ncolumns s) w ∧ block_wf (ncolumns s) block.
Proof.
  intros Hs [] parts'.
  assert (He : rd_eof rd = false).
  { destruct (rd_eof rd); [|done]. by specialize (ro_eof0 eq_refl). }
  destruct (ready_lookup s parts (rd_partition rd) Hs ro_partition0)
    as (all' & unread' & t & n & Hr & Ht & Hn & Hpart).
  rewrite ro_unread0 in Hr. injection Hr as <- <-.
  pose proof Hpart as (Hall & [[Hw Hw0] Hws]%Forall_cons & Hcount & Hempty & Htape).
  assert (Hne : all ≠ []) by (intros Hz; specialize (ro_empty0 Hz); congruence).
  destruct (reader_next_block s rd w t (frozen s) (blocks_image (ncolumns s) all)
    (blocks_image (ncolumns s) ws)) as (t' & st & rd' & block & E & Ht' & Hp' & He' & Hwf' & Hrows & Hb);
    try done; [apply Hs|lia|by apply Htape|].
  eexists _, rd', block. split; [exact E|]. split_and!; try done.
  - apply (ready_update s parts _ all ws t' n st); try done.
  - constructor; cbn; rewrite ?Hp', ?He'; try done.
    unfold parts'. apply list_lookup_insert_eq. by eapply lookup_lt_Some.
Qed.
(** [while (pg_batch_spill_reader_next(reader, &block))], keeping a copy of
    each block; the code hands out the reader's own buffers, valid until the
    next call. *)
Fixpoint read_partition (fuel : nat) (s : PgBatchSpillSet) (rd : PgBatchSpillReader)
    : res (PgBatchSpillSet * PgBatchSpillReader * list PgBatchSpillBlock) :=
  match fuel with
  | O => Undefined
  | S fuel =>
      r ← pg_batch_spill_reader_next s rd;
      match r.2 with
      | None => Ok (r.1, [])
      | Some block =>
          r' ← read_partition fuel r.1.1 r.1.2;
          Ok (r'.1, block :: r'.2)
      end
  end.

Definition blocks_of_64 (blocks : list PgBatchSpillBlock) : Prop :=
  Forall (λ b, 1 ≤ bl_nrows b ≤ 64 ∧ bl_selection b = Z.ones (bl_nrows b)) blocks.

Lemma read_partition_ok fuel : ∀ s parts rd all unread,
  spill_ready s parts → reader_ok s parts rd all unread → (length unread < fuel)%nat →
  let parts' := <[Z.to_nat (rd_partition rd) := (all, [])]> parts in
  ∃ s' rd' blocks, read_partition fuel s rd = Ok (s', rd', blocks) ∧ spill_ready s' parts' ∧
    same_layout s s' ∧ rd_partition rd' = rd_partition rd ∧ reader_ok s' parts' rd' all [] ∧
    concat (block_rows <$> blocks) = blocks_rows (ncolumns s) unread ∧ blocks_of_64 blocks.
Proof.
  induction fuel as [|fuel IH]; intros s parts rd all unread Hs Hrd Hfuel parts'; [lia|]. simpl.
  destruct unread as [|w ws].
  - destruct (reader_next_end s parts rd all Hs Hrd) as (s' & rd' & -> & Hs' & Hl & Hp & Hrd').
    exists s', rd', []. assert (parts' = parts) as ->.
    { unfold parts'. apply list_insert_id, Hrd. }
    split_and!; try done. by constructor.
  - destruct (reader_next_more s parts rd all w ws Hs Hrd)
      as (s1 & rd1 & block & -> & Hs1 & (Hl1 & Hl2 & Hl3) & Hp1 & Hrd1 & Hrows & []).
    rewrite bind_Ok. cbn [fst snd].
    destruct (IH s1 _ rd1 all ws Hs1 Hrd1) as (s2 & rd2 & blocks & -> & Hs2 & (Hm1 & Hm2 & Hm3) & Hp2 & Hrd2 & Hr2 & Hb2);
      [simpl in Hfuel; lia|].
    rewrite Hp1, list_insert_insert_eq in Hs2, Hrd2.
    exists s2, rd2, (block :: blocks). rewrite bind_Ok. split_and!; try done.
    + unfold same_layout. intuition congruence.
    + congruence.
    + rewrite fmap_cons. cbn [concat]. by rewrite Hr2, Hrows, Hl1.
    + by constructor.
Qed.

(** At most one block per row. *)
Lemma blocks_le_rows nc ws :
  Forall (flushed nc) ws → (length ws ≤ length (blocks_rows nc ws))%nat.
Proof.
  induction 1 as [|w ws [Hw Hn] _ IH]; [done|]. unfold blocks_rows in *. rewrite fmap_cons.
  cbn [concat length]. rewrite length_app.
  assert (Hl := length_array_rows nc (w_nrows w) (w_hashes w) (w_values w) (w_validity w)).
  unfold writer_rows at 1. destruct Hw. lia.
Qed.

Lemma rewind_ok s parts rd all unread :
  spill_ready s parts → reader_ok s parts rd all unread → frozen s = true →
  let parts' := <[Z.to_nat (rd_partition rd) := (all, all)]> parts in
  ∃ s' rd', pg_batch_spill_reader_rewind s rd = Ok (s', rd') ∧ spill_ready s' parts' ∧
    same_layout s s' ∧ rd_partition rd' = rd_partition rd ∧ reader_ok s' parts' rd' all all.
Proof.
  intros Hs [] Hf parts'. set (p := rd_partition rd) in *.
  destruct (ready_lookup s parts p Hs ro_partition0) as (all' & unread' & t & n & Hr & Ht & Hn & Hpart).
  rewrite ro_unread0 in Hr. injection Hr as <- <-. assert (Hl := lookup_lt_Some _ _ _ ro_unread0).
  unfold pg_batch_spill_reader_rewind, pg_batch_spill_partition_empty. fold p. rewrite Hf. cbn [negb raise_if].
  rewrite bind_Ok, validate_ok, bind_Ok, (aref_lookup _ _ n), bind_Ok by (done || lia).
  rewrite bind_Ok, (part_ready_count _ _ _ _ _ _ Hpart). case_bool_decide as He.
  - rewrite bind_Ok. eexists s, _. subst all.
    assert (unread = []) as -> by (by destruct Hpart as (_ & _ & _ & Hun & _); apply Hun).
    assert (parts' = parts) as -> by by apply list_insert_id.
    split_and!; try done. constructor; cbn; try done. destruct ro_arrays0. by constructor.
  - cbn [rd_partition]. destruct (rewind_tape_ok s p all unread t n) as (t' & -> & Hready); try done; [lia|].
    rewrite bind_Ok. eexists _, _. split; [done|]. split_and!; try done.
    + exact (ready_update s parts p all all t' n (stats s) Hs ro_partition0 Hn Hready).
    + constructor; cbn; try done; [destruct ro_arrays0; by constructor|].
      unfold parts'. by apply list_lookup_insert_eq.
Qed.
End spill_read.
