(* ===== verification/SpillLoop.v ===== *)
(** * Spill sets: the loop over the blocks of a partition

    The clients of a frozen spill set read a partition block by block, possibly
    leaving early, and may read it again.  What a finished set promises to them
    is the rows of each partition. *)

From S2P Require Import Prelude Words Bytes Selection Vector Int4 Spill SpillBlocks SpillSet SpillRun SpillRead.

Section loop.
Context `{PgCore} `{LogicalTapes}.

(** [while (pg_batch_spill_reader_next(reader, &block)) { ... }]; the body says
    whether to go on. *)
Fixpoint block_loop {A} (fuel : nat) (body : PgBatchSpillBlock → A → res (A * bool)) (set : PgBatchSpillSet)
    (reader : PgBatchSpillReader) (a : A) : res (PgBatchSpillSet * A * bool) :=
  match fuel with
  | O => Undefined
  | S fuel =>
      r ← pg_batch_spill_reader_next set reader;
      match r.2 with
      | None => Ok (r.1.1, a, true)
      | Some block =>
          b ← body block a;
          if b.2 : bool then block_loop fuel body r.1.1 r.1.2 b.1 else Ok (r.1.1, b.1, false)
      end
  end.

(** A partition has at most as many blocks as rows. *)
Definition read_blocks {A} (body : PgBatchSpillBlock → A → res (A * bool)) (set : PgBatchSpillSet) (partition : Z) (a : A)
    : res (PgBatchSpillSet * A * bool) :=
  r ← pg_batch_spill_reader_open set partition;
  n ← aref (partition_rows r.1) partition;
  block_loop (S (Z.to_nat n)) body r.1 r.2 a.

(** A frozen set and the rows of its partitions. *)
Definition set_ready (s : PgBatchSpillSet) (rows : list (list sql_row)) : Prop :=
  frozen s = true ∧ ∃ parts, spill_ready s parts ∧
    (λ p : list SpillWriter * list SpillWriter, map logical (blocks_rows (ncolumns s) p.1)) <$> parts = rows.

Lemma set_ready_length s rows : set_ready s rows → zlength rows = npartitions s.
Proof. intros (_ & parts & Hs & <-). rewrite length_fmap. apply Hs. Qed.

Lemma finish_ready s parts :
  spill_open s parts → Forall (λ rows, zlength rows < 2 ^ 64) parts →
  ∃ s', pg_batch_spill_finish s true = Ok s' ∧ same_config s s' ∧ set_ready s' (map (map logical) parts).
Proof.
  intros Hs Hlen. destruct (finish_ok s parts true) as (s' & alls & -> & Hf & (Hc1 & Hc2) & Hready & <- & _); [apply Hs|done|].
  exists s'. split; [done|]. split; [done|]. split; [done|]. eexists; split; [done|].
  change (map (map logical)) with (fmap (M := list) (map logical)). rewrite <- !list_fmap_compose.
  apply list_fmap_ext. intros i all _. unfold compose. by rewrite Hc1.
Qed.

Lemma ready_empty_ok s rows p part :
  set_ready s rows → 0 ≤ p → rows !! Z.to_nat p = Some part →
  pg_batch_spill_partition_empty s p = Ok (zlength part =? 0).
Proof.
  intros (_ & ps & Hs & <-) Hp Hr. rewrite list_lookup_fmap in Hr.
  destruct (ps !! Z.to_nat p) as [[all unread]|] eqn:Ep; [|done]. injection Hr as <-.
  pose proof (lookup_lt_Some _ _ _ Ep). pose proof (sr_length _ _ Hs).
  destruct (ready_lookup s ps p Hs) as (all' & un' & t & n & Hall & _ & Hn & (_ & _ & Hcount & _)); [lia|].
  rewrite Ep in Hall. injection Hall as <- <-. unfold pg_batch_spill_partition_empty.
  rewrite validate_ok, bind_Ok, (aref_lookup _ _ n), bind_Ok by (done || lia). cbn. by rewrite length_map, Hcount.
Qed.

Definition block_sql_rows (b : PgBatchSpillBlock) : list sql_row := logical <$> block_rows b.

Section rule.
Context {A : Type} (I : list sql_row → A → Prop) (J : A → Prop).
Context (body : PgBatchSpillBlock → A → res (A * bool)) (nc : Z) (rows : list sql_row).

(** What the body does to a block of the partition. *)
Definition body_ok : Prop := ∀ pre block post a,
  rows = pre ++ block_sql_rows block ++ post → I pre a → block_wf nc block →
  ∃ a' b, body block a = Ok (a', b) ∧ if b : bool then I (pre ++ block_sql_rows block) a' else J a'.

Lemma block_loop_ok fuel : ∀ s parts rd all unread pre a,
  body_ok → spill_ready s parts → ncolumns s = nc → reader_ok s parts rd all unread → (length unread < fuel)%nat →
  rows = pre ++ map logical (blocks_rows nc unread) → I pre a →
  ∃ s' a' b unread', block_loop fuel body s rd a = Ok (s', a', b) ∧ same_layout s s' ∧
    spill_ready s' (<[Z.to_nat (rd_partition rd) := (all, unread')]> parts) ∧ if b then I rows a' else J a'.
Proof.
  induction fuel as [|fuel IH]; intros s parts rd all unread pre a Hbody Hs Hnc Hrd Hfuel Hrows HI; [lia|]. cbn [block_loop].
  destruct unread as [|w ws].
  - destruct (reader_next_end s parts rd all Hs Hrd) as (s' & rd' & -> & Hs' & Hl & Hp & Hrd').
    rewrite bind_Ok. cbn [fst snd]. exists s', a, true, []. split; [done|]. split; [done|].
    rewrite list_insert_id by apply Hrd. split; [done|]. cbn in Hrows. rewrite app_nil_r in Hrows. by subst.
  - destruct (reader_next_more s parts rd all w ws Hs Hrd)
      as (s1 & rd1 & block & -> & Hs1 & (Hl1 & Hl2 & Hl3) & Hp1 & Hrd1 & Hbr & Hbw).
    rewrite bind_Ok. cbn [fst snd]. rewrite Hnc in Hbr, Hbw.
    assert (Hsplit : rows = pre ++ block_sql_rows block ++ map logical (blocks_rows nc ws)).
    { rewrite Hrows. unfold block_sql_rows, blocks_rows. rewrite Hbr, fmap_cons. cbn [concat]. by rewrite map_app. }
    destruct (Hbody pre block _ a Hsplit HI Hbw) as (a' & b & -> & Hb). rewrite bind_Ok. cbn [fst snd]. destruct b.
    + destruct (IH s1 _ rd1 all ws (pre ++ block_sql_rows block) a' Hbody Hs1) as (s' & a2 & b & un & -> & Hl' & Hs' & Hpost);
        [lia|done|cbn in Hfuel; lia|by rewrite <- app_assoc|done|].
      exists s', a2, b, un. split; [done|]. split; [unfold same_layout in *; intuition congruence|].
      rewrite Hp1, list_insert_insert_eq in Hs'. by split.
    + exists s1, a', false, ws. by split_and!.
Qed.

(** Reading a partition of a ready set leaves the set ready. *)
Lemma read_blocks_ok s parts p a :
  body_ok → set_ready s parts → ncolumns s = nc → 0 ≤ p → parts !! Z.to_nat p = Some rows → I [] a →
  ∃ s' a' b, read_blocks body s p a = Ok (s', a', b) ∧ same_layout s s' ∧ set_ready s' parts ∧ if b then I rows a' else J a'.
Proof.
  intros Hbody (Hf & ps & Hs & <-) Hnc Hp Hr HI. unfold read_blocks. rewrite list_lookup_fmap in Hr.
  destruct (ps !! Z.to_nat p) as [[all unread]|] eqn:Ep; [|done]. injection Hr as Hr. cbn in Hr.
  pose proof (lookup_lt_Some _ _ _ Ep) as Hlt. pose proof (sr_length _ _ Hs).
  destruct (reader_open_ok s ps p all unread) as (s1 & rd & -> & Hs1 & (Hl1 & Hl2 & Hl3) & Hrp & Hrd); [done|lia|done|].
  rewrite bind_Ok. cbn [fst snd]. unfold reopened in *. rewrite Hf in *.
  destruct (ready_lookup s1 _ p Hs1) as (all' & un' & t & n & Hall & _ & Hn & (Hflush & _ & Hcount & _)); [lia|].
  rewrite list_lookup_insert_eq in Hall by done. injection Hall as <- <-.
  rewrite (aref_lookup _ _ n), bind_Ok by (done || lia). pose proof (blocks_le_rows _ _ Hflush).
  rewrite Hl1, Hnc in *.
  destruct (block_loop_ok (S (Z.to_nat n)) s1 _ rd all all [] a Hbody Hs1) as (s' & a' & b & un & -> & (Hm1 & Hm2 & Hm3) & Hs' & Hpost);
    [congruence|by rewrite <- Hrp in *|lia|by rewrite Hr|done|].
  exists s', a', b. split; [done|]. split; [unfold same_layout; split_and!; congruence|]. split; [|done]. split; [congruence|].
  eexists; split; [exact Hs'|]. rewrite Hrp, list_insert_insert_eq, list_fmap_insert. cbn.
  rewrite Hm1, Hl1, list_insert_id; [done|]. by rewrite list_lookup_fmap, Ep.
Qed.
End rule.
End loop.
