(* ===== verification/SpillProps.v ===== *)
(** * Spill sets: what a run guarantees

    The properties of partitioned spilling as a client sees it: a set is
    created, filled by any sequence of writes, finished, and its partitions
    are read; and what happens when the phases are confused or the storage is
    damaged. *)

From S2P Require Import Prelude Words Bytes Selection Vector Int4 Spill SpillBlocks SpillSet SpillRun SpillRead.

Section spill_props.
Context `{PgCore} `{LogicalTapes}.

(** ** Runs *)

(** A whole client run on one set, reading partition [p] at the end. *)
Definition fill (desc : list attribute) (nc np limit : Z) (ops : list spill_op) : res PgBatchSpillSet :=
  set ← pg_batch_spill_create desc nc np limit;
  foldM run_op ops set.

Definition fill_and_read (desc : list attribute) (nc np limit : Z) (ops : list spill_op)
    (is_frozen : bool) (p : Z) (fuel : nat)
    : res (PgBatchSpillSet * PgBatchSpillReader * list PgBatchSpillBlock) :=
  set ← fill desc nc np limit ops;
  set ← pg_batch_spill_finish set is_frozen;
  r ← pg_batch_spill_reader_open set p;
  read_partition fuel r.1 r.2.

(** The rows of a list of blocks. *)
Definition read_rows (blocks : list PgBatchSpillBlock) : list sql_row :=
  map logical (concat (block_rows <$> blocks)).

Lemma fill_ok desc nc np limit ops :
  config_ok desc nc np → Forall (op_ok nc np) ops →
  ∃ s parts, fill desc nc np limit ops = Ok s ∧ spill_open s parts ∧ ncolumns s = nc ∧
    npartitions s = np ∧ max_writers s = Z.min np (Z.max 1 (limit / writer_size nc)) ∧
    ∀ p, 0 ≤ p < np → map logical <$> parts !! Z.to_nat p = Some (rows_for nc (Z.to_nat p) ops).
Proof.
  intros Hcfg Hops. destruct (create_ok desc nc np limit Hcfg) as (s0 & E0 & Hs0 & Hnc & Hnp & Hmax).
  destruct (run_ops_ok ops s0 _ Hs0) as (s & parts & E & (Hc1 & Hc2 & Hc3) & Hs & Hl);
    [by rewrite Hnc, Hnp|].
  exists s, parts. unfold fill. rewrite E0, bind_Ok, E. split_and!; try done; try congruence.
  intros p Hp. rewrite Hl, lookup_replicate_2 by lia. simpl. by rewrite Hnc.
Qed.

(** Everything a run can be read back into, with the reader at its end. *)
Lemma fill_and_read_ok desc nc np limit ops fro p fuel :
  config_ok desc nc np → Forall (op_ok nc np) ops → 0 ≤ p < np →
  (∀ q, zlength (rows_for nc q ops) < 2 ^ 64) →
  (length (rows_for nc (Z.to_nat p) ops) < fuel)%nat →
  ∃ s rd blocks parts all, fill_and_read desc nc np limit ops fro p fuel = Ok (s, rd, blocks) ∧
    read_rows blocks = rows_for nc (Z.to_nat p) ops ∧ blocks_of_64 blocks ∧
    spill_ready s parts ∧ reader_ok s parts rd all [] ∧ frozen s = fro ∧ ncolumns s = nc ∧
    map logical (blocks_rows nc all) = rows_for nc (Z.to_nat p) ops ∧ (length all < fuel)%nat.
Proof.
  intros Hcfg Hops Hp Hsmall Hfuel.
  destruct (fill_ok desc nc np limit ops Hcfg Hops) as (s0 & parts0 & E0 & Hs0 & Hnc & Hnp & _ & Hl).
  destruct (finish_ok s0 parts0 fro) as (s1 & alls & E1 & Hf1 & (Hc1 & Hc2 & _) & Hs1 & Halls & _); [apply Hs0| |].
  { apply Forall_lookup_2. intros q rows Hq.
    assert (Hlt := lookup_lt_Some _ _ _ Hq). pose proof (si_length _ _ (so_inv _ _ Hs0)).
    specialize (Hl (Z.of_nat q) ltac:(lia)). rewrite Nat2Z.id, Hq in Hl. injection Hl as Hl.
    specialize (Hsmall q). rewrite <- Hl, length_map in Hsmall. done. }
  specialize (Hl p Hp). destruct (parts0 !! Z.to_nat p) as [rows|] eqn:Hrows; [|done].
  injection Hl as Hl. rewrite <- Halls, list_lookup_fmap in Hrows.
  destruct (alls !! Z.to_nat p) as [all|] eqn:Hall; [|done]. injection Hrows as Hrows.
  rewrite Hnc in Hrows.
  destruct (reader_open_ok s1 _ p all all Hs1) as (s2 & rd & E2 & Hs2 & (Hd1 & Hd2 & Hd3) & Hpr & Hrd);
    [lia|by rewrite list_lookup_fmap, Hall|].
  assert (reopened s1 all all = all) as Hre by (unfold reopened; by destruct (frozen s1)).
  rewrite Hre in Hs2, Hrd.
  assert (Hlen : (length all < fuel)%nat).
  { assert (Hfl : Forall (flushed nc) all).
    { destruct (ready_lookup s1 _ p Hs1) as (a & u & t & n & Hq & _ & _ & Hpart & _); [lia|].
      rewrite list_lookup_fmap, Hall in Hq. injection Hq as <- <-. by rewrite Hc1, Hnc in Hpart. }
    apply blocks_le_rows in Hfl. rewrite <- Hl, length_map, <- Hrows in Hfuel. lia. }
  destruct (read_partition_ok fuel s2 _ rd all all Hs2 Hrd Hlen)
    as (s3 & rd3 & blocks & E3 & Hs3 & (He1 & He2 & He3) & Hpr3 & Hrd3 & Hb & H64).
  unfold fill_and_read. rewrite E0, bind_Ok, E1, bind_Ok, E2, bind_Ok. cbn [fst snd]. rewrite E3.
  eexists _, _, _, _, all. split_and!; try done; try congruence.
  unfold read_rows. rewrite Hb. rewrite Hd1, Hc1, Hnc. congruence.
Qed.

(** C1. Spilling loses nothing, invents nothing and keeps the order: after
    any sequence of row and dense writes to a set, whatever the memory
    limit, and so whatever blocks were flushed early or writers evicted,
    the reader of a partition returns exactly the rows written to that
    partition, in the order they were written, with their hashes, values and
    NULLs, in blocks of 1 to 64 rows whose selection covers their rows; the
    whole run raises no error and ends. *)
Theorem spill_roundtrip desc nc np limit ops fro p fuel :
  config_ok desc nc np → Forall (op_ok nc np) ops → 0 ≤ p < np →
  (∀ q, zlength (rows_for nc q ops) < 2 ^ 64) →
  (length (rows_for nc (Z.to_nat p) ops) < fuel)%nat →
  ∃ s rd blocks, fill_and_read desc nc np limit ops fro p fuel = Ok (s, rd, blocks) ∧
    read_rows blocks = rows_for nc (Z.to_nat p) ops ∧ blocks_of_64 blocks.
Proof.
  intros Hcfg Hops Hp Hsmall Hfuel.
  destruct (fill_and_read_ok desc nc np limit ops fro p fuel) as (s & rd & blocks & ? & ? & ? & ? & ? & _);
    try done. by exists s, rd, blocks.
Qed.

(** The reader of a frozen set can be rewound: a second pass over a
    partition returns the same rows as the first. *)
Theorem spill_rewind desc nc np limit ops p fuel :
  config_ok desc nc np → Forall (op_ok nc np) ops → 0 ≤ p < np →
  (∀ q, zlength (rows_for nc q ops) < 2 ^ 64) →
  (length (rows_for nc (Z.to_nat p) ops) < fuel)%nat →
  ∃ s blocks, (r ← fill_and_read desc nc np limit ops true p fuel;
               r ← pg_batch_spill_reader_rewind r.1.1 r.1.2;
               r ← read_partition fuel r.1 r.2;
               Ok (r.1.1, r.2)) = Ok (s, blocks) ∧
    read_rows blocks = rows_for nc (Z.to_nat p) ops ∧ blocks_of_64 blocks.
Proof.
  intros Hcfg Hops Hp Hsmall Hfuel.
  destruct (fill_and_read_ok desc nc np limit ops true p fuel)
    as (s & rd & blocks & parts & all & -> & Hrows & H64 & Hs & Hrd & Hf & Hnc & Hall & Hlen); try done.
  rewrite bind_Ok. cbn [fst snd].
  destruct (rewind_ok s parts rd all [] Hs Hrd Hf) as (s1 & rd1 & -> & Hs1 & (Hl1 & Hl2 & Hl3) & Hp1 & Hrd1).
  rewrite bind_Ok. cbn [fst snd].
  destruct (read_partition_ok fuel s1 _ rd1 all all Hs1 Hrd1 Hlen)
    as (s2 & rd2 & blocks2 & -> & _ & _ & _ & _ & Hb & H642).
  rewrite bind_Ok. cbn [fst snd]. eexists _, _. split_and!; [done| |done].
  unfold read_rows. rewrite Hb, Hl1, Hnc. done.
Qed.

(** C34. The memory bound: while a set is filled, the number of allocated
    writer blocks is what [active_writers] says and never exceeds
    [max_writers], so that their memory stays within the buffer limit, or
    within a single writer when the limit is smaller than one. *)
Theorem spill_memory_bound desc nc np limit ops :
  config_ok desc nc np → Forall (op_ok nc np) ops → 0 ≤ limit →
  ∃ s, fill desc nc np limit ops = Ok s ∧ active_writers s = allocated (writers s) ∧
    allocated (writers s) ≤ max_writers s ∧ max_writers s ≤ np ∧
    allocated (writers s) * writer_size nc ≤ Z.max limit (writer_size nc).
Proof.
  intros Hcfg Hops Hlimit. destruct (fill_ok desc nc np limit ops Hcfg Hops)
    as (s & parts & E & [Hinv _ Hbud] & Hnc & Hnp & Hmax & _).
  exists s. pose proof (si_active _ _ Hinv) as Ha. unfold within_budget in Hbud.
  split_and!; try done; try lia.
  assert (0 < writer_size nc).
  { destruct Hcfg as [? _]. unfold writer_size, sizeof_SpillWriter. lia. }
  pose proof (Z.mul_div_le limit (writer_size nc)). nia.
Qed.
(** ** Damaged storage *)

Lemma read_exact_safely t f all rest n :
  tape_contents t = Reading f all rest → 0 ≤ n →
  safely (read_exact t n) (λ r, zlength r.1 = n ∧ ∃ rest', rest = r.1 ++ rest' ∧
    tape_contents r.2 = Reading f all rest').
Proof.
  intros Ht Hn. destruct (tape_read_spec t f all rest n Ht Hn) as [H1 H2].
  unfold read_exact. destruct (LogicalTapeRead t n) as [bs t']. cbn [fst snd] in *. subst bs.
  destruct (Z.eqb_spec (zlength (take (Z.to_nat n) rest)) n) as [E|]; simpl; [|done].
  split; [done|]. exists (drop (Z.to_nat n) rest). by rewrite take_drop.
Qed.

Lemma length_u32_array_value n bs : length (u32_array_value n bs) = n.
Proof. revert bs. induction n; intros; simpl; auto. Qed.

(** What a successful read has taken off the tape: one block of the size its
    header announces. *)
Definition took_block (nc : Z) (f : bool) (all rest : list Z)
    (r : PgBatchSpillSet * PgBatchSpillReader * option PgBatchSpillBlock) : Prop :=
  let '(s', rd', b) := r in
  ncolumns s' = nc ∧ reader_wf nc rd' ∧
  match b with
  | None => rest = [] ∧ rd_eof rd' = true
  | Some b => 1 ≤ bl_nrows b ≤ 64 ∧ bl_ncolumns b = nc ∧
      ∃ img rest', rest = img ++ rest' ∧ zlength img = block_bytes nc (bl_nrows b) ∧
        header_value (take 8 img) = mkHeader SPILL_MAGIC (bl_nrows b) nc ∧
        ∃ t', tapes s' !! Z.to_nat (rd_partition rd') = Some t' ∧ tape_contents t' = Reading f all rest'
  end.

Lemma read_columns_safely n nc dst t f all rest :
  1 ≤ n ≤ 64 → 0 ≤ nc → zlength dst = nc * 64 → Forall is_s32 dst → tape_contents t = Reading f all rest →
  safely (foldM (λ column st,
      r ← read_exact (snd st) (4 * n);
      values ← asplice (fst st) (column * PG_BATCH_SPILL_BLOCK_ROWS)
                 (s32_array_value (Z.to_nat n) (fst r));
      Ok (values, snd r))
    (seqZ 0 nc) (dst, t))
    (λ st, zlength st.1 = nc * 64 ∧ Forall is_s32 st.1 ∧ ∃ img rest', rest = img ++ rest' ∧ zlength img = 4 * n * nc ∧
      tape_contents st.2 = Reading f all rest').
Proof.
  intros Hn Hnc Hdst Hd32 Ht. unfold PG_BATCH_SPILL_BLOCK_ROWS.
  apply (safely_for (λ k st, zlength st.1 = nc * 64 ∧ Forall is_s32 st.1 ∧ ∃ img rest', rest = img ++ rest' ∧
    zlength img = 4 * n * k ∧ tape_contents st.2 = Reading f all rest')); [done| |].
  - do 2 (split; [done|]). exists [], rest. split_and!; try done. simpl. lia.
  - intros k [vals tk] Hk (Hl & Hv32 & img & rest' & -> & Himg & Htk). cbn [fst snd] in *.
    eapply safely_bind; [apply (read_exact_safely _ _ _ _ (4 * n) Htk); lia|].
    intros [bs t'] (Hbs & rest2 & -> & Ht'). cbn [fst snd] in *.
    assert (Hlen : length (s32_array_value (Z.to_nat n) bs) = Z.to_nat n).
    { unfold s32_array_value. by rewrite length_fmap, length_u32_array_value. }
    destruct (asplice_ok vals (k * 64) (s32_array_value (Z.to_nat n) bs)) as (v' & Ev & Hl' & _); [lia|lia|].
    assert (Hb32 : Forall is_s32 (s32_array_value (Z.to_nat n) bs)).
    { apply Forall_fmap, Forall_forall. intros x _. apply to_s32_range. }
    pose proof (asplice_Forall is_s32 _ _ _ _ Hv32 Hb32 Ev). rewrite Ev. simpl. split; [lia|]. split; [done|]. exists (img ++ bs), rest2. split_and!; [by rewrite app_assoc| |done].
    rewrite length_app. lia.
Qed.

(** C33. Reading spill storage is safe whatever bytes a tape holds: reading
    the next block never reads or writes outside the reader's arrays; it
    returns a block only when the tape starts with a whole block whose header
    has the right magic number, the set's column count and 1 to 64 rows, and
    then takes exactly that block off the tape; it reports the end only on an
    exhausted tape; otherwise it raises an error.  The payload has no
    checksum: a block whose header is right and whose length is complete is
    accepted as it is. *)
Theorem reader_next_safe s rd t f all rest :
  0 < ncolumns s → 0 ≤ rd_partition rd → rd_eof rd = false → reader_wf (ncolumns s) rd →
  tapes s !! Z.to_nat (rd_partition rd) = Some t → tape_contents t = Reading f all rest →
  Forall is_u8 rest →
  safely (pg_batch_spill_reader_next s rd) (took_block (ncolumns s) f all rest).
Proof.
  intros Hnc Hp He Hwf Ht Hb Hu8. unfold pg_batch_spill_reader_next.
  assert (Hl := lookup_lt_Some _ _ _ Ht). destruct Hwf.
  rewrite He, (aref_lookup _ _ t), bind_Ok by done.
  destruct (tape_read_spec _ _ _ _ sizeof_SpillHeader Hb) as [H1 H2]; [done|].
  destruct (LogicalTapeRead t sizeof_SpillHeader) as [hdr t1]. cbn [fst snd] in *.
  change (Z.to_nat sizeof_SpillHeader) with 8%nat in *.
  destruct (Z.eqb_spec (zlength hdr) 0) as [Hz|Hz].
  { rewrite aset_ok, bind_Ok by lia. simpl. split_and!; try done.
    destruct rest as [|b r]; [done|]. rewrite H1 in Hz. simpl in Hz. lia. }
  set (h := header_value hdr). apply safely_check. intros Hc. bool_prop. unfold PG_BATCH_SPILL_BLOCK_ROWS, sizeof_SpillHeader in *.
  assert (Hpos : 0 ≤ h_nrows h).
  { unfold h, header_value. cbn [h_nrows]. apply le_value_nonneg.
    rewrite H1. by apply Forall_take, Forall_drop, Forall_take. }
  set (n := h_nrows h) in *. set (nc := ncolumns s) in *.
  assert (Hrest : rest = hdr ++ drop 8 rest) by (rewrite H1; by rewrite take_drop).
  eapply safely_bind; [apply (read_exact_safely _ _ _ _ (4 * n) H2); lia|].
  intros [bs t2] (Hbs & rest2 & Hr2 & Ht2). cbn [fst snd] in *.
  destruct (asplice_ok (rd_hashes rd) 0 (u32_array_value (Z.to_nat n) bs)) as (hs & -> & Hhs & _);
    [lia|rewrite length_u32_array_value; lia|]. rewrite bind_Ok.
  eapply safely_bind; [apply (read_exact_safely _ _ _ _ (8 * nc) Ht2); lia|].
  intros [ms t3] (Hms & rest3 & Hr3 & Ht3). cbn [fst snd] in *.
  destruct (asplice_ok (rd_validity rd) 0 ms) as (m & -> & Hm & _); [lia|lia|]. rewrite bind_Ok.
  eapply safely_bind; [apply (read_columns_safely n nc (rd_values rd) t3 f all rest3); (done || lia)|].
  intros [vals t4] (Hvals & Hv32 & img & rest4 & Hr4 & Himg & Ht4). cbn [fst snd] in *.
  rewrite aset_ok, bind_Ok by lia. simpl. split_and!; try done; try lia.
  { constructor; cbn; (done || lia). }
  exists (hdr ++ bs ++ ms ++ img), rest4. split_and!.
  - rewrite Hrest, Hr2, Hr3, Hr4. by rewrite <- !app_assoc.
  - rewrite !length_app. unfold block_bytes, sizeof_SpillHeader. lia.
  - rewrite take_app_length' by lia. fold h.
    transitivity (mkHeader (h_magic h) n (h_ncolumns h)); [by destruct h|congruence].
  - exists t4. split; [|done]. apply list_lookup_insert_eq. lia.
Qed.

(** ** Phases *)

(** What every operation says of a partition the set does not have. *)
Definition no_such_partition : pg_error := Elog "pg_batch spill partition is out of range".

(** The phases of a set cannot be confused: a finished set takes no more
    rows and cannot be finished again, an open one cannot be read, only a
    frozen one can be rewound, and no operation accepts a partition out of
    range; each raises its error and changes nothing. *)
Theorem spill_phases s p :
  (finished s = true → 0 ≤ p < npartitions s →
    (∀ columns sel hashes, pg_batch_spill_write s p columns sel hashes =
       Raise (Elog "invalid pg_batch spill write")) ∧
    (∀ n hashes values stride validity,
       pg_batch_spill_write_dense s p n hashes values stride validity =
       Raise (Elog "invalid dense pg_batch spill write")) ∧
    (∀ fro, pg_batch_spill_finish s fro = Raise (Elog "pg_batch spill set is already finished"))) ∧
  (finished s = false → 0 ≤ p < npartitions s →
    pg_batch_spill_reader_open s p = Raise (Elog "pg_batch spill set is not ready for reading")) ∧
  (frozen s = false → ∀ rd, pg_batch_spill_reader_rewind s rd =
    Raise (Elog "cannot rewind a destructive pg_batch spill reader")) ∧
  (p < 0 ∨ npartitions s ≤ p →
    let e := no_such_partition in
    (∀ columns sel hashes, pg_batch_spill_write s p columns sel hashes = Raise e) ∧
    (∀ n hashes values stride validity,
       pg_batch_spill_write_dense s p n hashes values stride validity = Raise e) ∧
    pg_batch_spill_reader_open s p = Raise e ∧ pg_batch_spill_partition_rows s p = Raise e ∧
    pg_batch_spill_partition_empty s p = Raise e).
Proof.
  split_and!.
  - intros Hf Hp. unfold pg_batch_spill_write, pg_batch_spill_write_dense, pg_batch_spill_finish.
    rewrite validate_ok by done. rewrite Hf. done.
  - intros Hf Hp. unfold pg_batch_spill_reader_open. rewrite validate_ok, Hf by done. done.
  - intros Hf rd. unfold pg_batch_spill_reader_rewind. by rewrite Hf.
  - intros Hp e. assert (validate_partition s p = Raise e) as Hv.
    { unfold validate_partition. destruct (Z.ltb_spec p 0), (Z.leb_spec (npartitions s) p); (done || lia). }
    unfold pg_batch_spill_write, pg_batch_spill_write_dense, pg_batch_spill_reader_open,
      pg_batch_spill_partition_rows, pg_batch_spill_partition_empty. rewrite Hv. done.
Qed.
End spill_props.

(** ** A concrete run

    Two columns, three partitions and room for a single writer, so that every
    change of partition evicts. *)

Definition sample_desc : list attribute := [mkAttr false INT4OID; mkAttr false INT4OID; mkAttr true 0].

Definition sample_ops : list spill_op :=
  [SpillWrite 1 [PG_BATCH_INT4_DATUM [7; 8; 9] [false; true; false];
                 PG_BATCH_INT4_PACKED [-1; -2; -3] None 0] (mkSelection 3 1 [5]) [11; 12; 13];
   SpillWriteDense 0 2 [21; 22] [1; 2; 3; 4] 2 [3; 1];
   SpillWriteDense 1 1 [31] [5; 6] 1 [0; 1]].

Lemma sample_config_ok : config_ok sample_desc 2 3.
Proof. unfold config_ok. split_and!; try done. by repeat apply Forall_cons_2. Qed.

Lemma sample_ops_ok : Forall (op_ok 2 3) sample_ops.
Proof.
  repeat apply Forall_cons_2; try apply Forall_nil_2; simpl; split_and!; try done;
    try (repeat apply Forall_cons_2; try apply Forall_nil_2; done).
  intros row Hrow. apply list_elem_of_filter in Hrow as [Hlt Hb%bits_of_lt]. cbn in Hlt. split_and!.
  - cbn. lia.
  - assert (row ∈ seqZ 0 3) as Hin by (apply elem_of_seqZ; lia). change (seqZ 0 3) with [0; 1; 2] in Hin.
    rewrite !elem_of_cons, elem_of_nil in Hin. by destruct_or!; subst.
  - intros c Hc. apply (readable_wf _ 3); [|lia].
    assert (c ∈ seqZ 0 2) as Hin by (apply elem_of_seqZ; lia). change (seqZ 0 2) with [0; 1] in Hin.
    rewrite !elem_of_cons, elem_of_nil in Hin. destruct_or!; subst; try done; cbn; split_and!; try done;
      repeat apply Forall_cons_2; try apply Forall_nil_2; done.
Qed.

Lemma sample_rows_small q : zlength (rows_for 2 q sample_ops) < 2 ^ 64.
Proof. unfold rows_for, sample_ops. simpl. repeat case_decide; simpl; lia. Qed.

Lemma spill_roundtrip_witness :
  ∃ s rd blocks, fill_and_read sample_desc 2 3 0 sample_ops false 1 4 = Ok (s, rd, blocks) ∧
    read_rows blocks = [(11, [Some 7; Some (-1)]); (13, [Some 9; Some (-3)]); (31, [None; Some 6])] ∧
    blocks_of_64 blocks.
Proof.
  apply (spill_roundtrip sample_desc 2 3 0 sample_ops false 1 4).
  - apply sample_config_ok.
  - apply sample_ops_ok.
  - done.
  - apply sample_rows_small.
  - vm_compute. lia.
Defined.

Lemma spill_rewind_witness :
  ∃ s blocks, (r ← fill_and_read sample_desc 2 3 0 sample_ops true 0 3;
               r ← pg_batch_spill_reader_rewind r.1.1 r.1.2;
               r ← read_partition 3 r.1 r.2;
               Ok (r.1.1, r.2)) = Ok (s, blocks) ∧
    read_rows blocks = [(21, [Some 1; Some 3]); (22, [Some 2; None])] ∧ blocks_of_64 blocks.
Proof.
  apply (spill_rewind sample_desc 2 3 0 sample_ops 0 3).
  - apply sample_config_ok.
  - apply sample_ops_ok.
  - done.
  - apply sample_rows_small.
  - vm_compute. lia.
Defined.

Lemma spill_memory_bound_witness :
  ∃ s, fill sample_desc 2 3 2000 sample_ops = Ok s ∧ active_writers s = allocated (writers s) ∧
    allocated (writers s) ≤ max_writers s ∧ max_writers s ≤ 3 ∧
    allocated (writers s) * writer_size 2 ≤ Z.max 2000 (writer_size 2).
Proof.
  apply (spill_memory_bound sample_desc 2 3 2000 sample_ops);
    [apply sample_config_ok|apply sample_ops_ok|done].
Defined.

(** A tape cut off in the middle of a block, behind a valid header. *)
Definition damaged_tape : list Z := header_bytes (mkHeader SPILL_MAGIC 2 1) ++ [1; 2; 3].
Definition damaged_set : PgBatchSpillSet :=
  mkSet 1 1 [Reading false damaged_tape damaged_tape] [None] [2] 0 1 0 true false (mkStats 2 0 1 0 32 0).
Definition fresh_reader : PgBatchSpillReader := mkReader 0 false (replicate 64 0) (replicate 64 0) (replicate 8 0).

Lemma reader_next_safe_witness :
  safely (pg_batch_spill_reader_next damaged_set fresh_reader)
    (took_block 1 false damaged_tape damaged_tape) ∧
  pg_batch_spill_reader_next damaged_set fresh_reader =
    Raise (Elog "unexpected end of pg_batch spill file").
Proof.
  split; [|by vm_compute].
  apply (reader_next_safe damaged_set fresh_reader (Reading false damaged_tape damaged_tape));
    try done.
  - split; try done. by apply Forall_replicate.
  - by repeat (apply Forall_cons_2; [by unfold is_u8|]).
Defined.

Lemma spill_phases_witness :
  pg_batch_spill_finish damaged_set true = Raise (Elog "pg_batch spill set is already finished") ∧
  pg_batch_spill_reader_rewind damaged_set fresh_reader =
    Raise (Elog "cannot rewind a destructive pg_batch spill reader").
Proof.
  destruct (spill_phases damaged_set 0) as (H1 & _ & H3 & _).
  split; [by apply H1|by apply H3].
Defined.
