(* ===== verification/Bitmaps.v ===== *)
(** * PostgreSQL's sets of column numbers ([nodes/bitmapset.h])

    Sets of nonnegative integers, given by their membership test; the null
    pointer is the empty set. *)

From S2P Require Import Prelude.

Class Bitmapsets : Type := {
  Bitmapset : Type;
  bms_null : Bitmapset;
  bms_is_member : Z → Bitmapset → bool;
  bms_add_member : Bitmapset → Z → Bitmapset;
  bms_union : Bitmapset → Bitmapset → Bitmapset;
  (** The smallest member greater than [prev], or -2. *)
  bms_next_member : Bitmapset → Z → Z;
  bms_is_empty : Bitmapset → bool;
  bms_member_nonneg x s : bms_is_member x s = true → 0 ≤ x;
  bms_null_spec x : bms_is_member x bms_null = false;
  bms_add_spec x s y : 0 ≤ y → bms_is_member x (bms_add_member s y) = (x =? y) || bms_is_member x s;
  bms_union_spec x s t : bms_is_member x (bms_union s t) = bms_is_member x s || bms_is_member x t;
  bms_next_spec s prev :
    (bms_next_member s prev = -2 ∧ ∀ x, prev < x → bms_is_member x s = false) ∨
    (prev < bms_next_member s prev ∧ bms_is_member (bms_next_member s prev) s = true ∧
       ∀ x, prev < x < bms_next_member s prev → bms_is_member x s = false);
  bms_empty_spec s : bms_is_empty s = true ↔ ∀ x, bms_is_member x s = false;
  bms_finite s : ∃ n, ∀ x, bms_is_member x s = true → x < n;
}.

(** [bms_make_singleton] *)
Definition bms_make_singleton `{Bitmapsets} (x : Z) : Bitmapset := bms_add_member bms_null x.

Lemma bms_singleton_spec `{Bitmapsets} x y : 0 ≤ y → bms_is_member x (bms_make_singleton y) = (x =? y).
Proof. intros Hy. unfold bms_make_singleton. by rewrite bms_add_spec, bms_null_spec, orb_false_r. Qed.

(** Every member of a set lies below [n]. *)
Definition bms_below `{Bitmapsets} (s : Bitmapset) (n : Z) : Prop :=
  ∀ x, bms_is_member x s = true → x < n.

(** The range test the sources write with [bms_next_member]. *)
Lemma next_member_below `{Bitmapsets} s n :
  0 ≤ n → (0 <=? bms_next_member s (n - 1)) = false ↔ bms_below s n.
Proof.
  intros Hn. unfold bms_below. destruct (bms_next_spec s (n - 1)) as [[E Hno]|(Hlt & Hin & _)].
  - rewrite E. split; [|done]. intros _ x Hx. destruct (decide (x < n)); [done|].
    rewrite Hno in Hx; [done|lia].
  - destruct (Z.leb_spec 0 (bms_next_member s (n - 1))); split; try done; try lia.
    intros Hb. specialize (Hb _ Hin). lia.
Qed.

(** Finite sets of integers, for evaluating the model. *)
Definition min_above (prev : Z) (l : list Z) : Z :=
  foldr (λ x m, if (prev <? x) && ((m =? -2) || (x <? m)) then x else m) (-2) l.

Lemma min_above_spec prev l : Forall (λ x, 0 ≤ x) l →
  (min_above prev l = -2 ∧ ∀ x, x ∈ l → x ≤ prev) ∨
  (prev < min_above prev l ∧ min_above prev l ∈ l ∧ ∀ x, x ∈ l → prev < x → min_above prev l ≤ x).
Proof.
  induction 1 as [|y l Hy Hl IH]; [left; split; [done|]; intros x Hx; by apply elem_of_nil in Hx|].
  cbn [min_above foldr]. change (foldr _ (-2) l) with (min_above prev l).
  assert (Hne : min_above prev l ∈ l → min_above prev l ≠ -2).
  { intros Hin E. rewrite Forall_forall in Hl. specialize (Hl _ Hin). simpl in Hl. lia. }
  destruct (Z.ltb_spec prev y) as [H1|H1]; cbn [andb].
  - destruct (Z.eqb_spec (min_above prev l) (-2)) as [H2|H2]; cbn [orb].
    + right. split_and!; [done|by left|]. intros x [->|Hx]%elem_of_cons Hp; [done|].
      destruct IH as [[_ Hall]|(_ & Hin & _)]; [specialize (Hall x Hx); lia|by destruct (Hne Hin)].
    + destruct IH as [[E _]|(Hp & Hin & Hmin)]; [done|].
      destruct (Z.ltb_spec y (min_above prev l)) as [H3|H3]; right.
      * split_and!; [done|by left|]. intros x [->|Hx]%elem_of_cons Hpx; [done|].
        specialize (Hmin x Hx Hpx). lia.
      * split_and!; [done|by right|]. intros x [->|Hx]%elem_of_cons Hpx; [lia|by apply Hmin].
  - destruct IH as [[E Hall]|(Hp & Hin & Hmin)].
    + left. split; [done|]. intros x [->|Hx]%elem_of_cons; [done|by apply Hall].
    + right. split_and!; [done|by right|]. intros x [->|Hx]%elem_of_cons Hpx; [lia|by apply Hmin].
Qed.

Lemma list_upper_bound (l : list Z) : ∃ n, ∀ x, x ∈ l → x < n.
Proof.
  induction l as [|y l [n Hn]]; [exists 0; intros x Hx; by apply elem_of_nil in Hx|].
  exists (Z.max n (y + 1)). intros x [->|Hx]%elem_of_cons; [lia|]. specialize (Hn x Hx). lia.
Qed.

Definition nonneg_elements (s : gset Z) : list Z := filter (λ x, 0 ≤ x) (elements s).

Lemma elem_of_nonneg s x : x ∈ nonneg_elements s ↔ (0 <=? x) && bool_decide (x ∈ s) = true.
Proof.
  unfold nonneg_elements. rewrite list_elem_of_filter, elem_of_elements, andb_true_iff, Z.leb_le,
    bool_decide_eq_true. done.
Qed.

#[refine] Instance reference_bitmaps : Bitmapsets := {
  Bitmapset := gset Z;
  bms_null := ∅;
  bms_is_member x s := (0 <=? x) && bool_decide (x ∈ s);
  bms_add_member s x := {[ x ]} ∪ s;
  bms_union s t := s ∪ t;
  bms_next_member s prev := min_above prev (nonneg_elements s);
  bms_is_empty s := bool_decide (nonneg_elements s = []);
}.
Proof.
  - intros x s H. apply andb_true_iff in H as [H _]. lia.
  - intros x. rewrite bool_decide_false by set_solver. apply andb_false_r.
  - intros x s y Hy. destruct (Z.leb_spec 0 x), (Z.eqb_spec x y); simpl; try lia; try done.
    + apply bool_decide_true. set_solver.
    + apply bool_decide_ext. set_solver.
  - intros x s t. destruct (0 <=? x); simpl; [|done].
    apply eq_bool_prop_intro. rewrite orb_True, !bool_decide_spec. set_solver.
  - intros s prev. destruct (min_above_spec prev (nonneg_elements s)) as [[E Hall]|(Hp & Hin & Hmin)].
    + apply Forall_forall. intros x Hx. unfold nonneg_elements in Hx.
      by apply list_elem_of_filter in Hx as [? _].
    + left. split; [done|]. intros x Hx. apply not_true_is_false. rewrite <- elem_of_nonneg.
      intros Hx'. specialize (Hall x Hx'). lia.
    + right. split_and!; [done|by apply elem_of_nonneg|]. intros x Hx. apply not_true_is_false.
      rewrite <- elem_of_nonneg. intros Hx'. specialize (Hmin x Hx'). lia.
  - intros s. rewrite bool_decide_eq_true. split.
    + intros E x. apply not_true_is_false. rewrite <- elem_of_nonneg, E. apply not_elem_of_nil.
    + intros Hall. destruct (nonneg_elements s) as [|x l] eqn:E; [done|].
      assert (Hx : x ∈ nonneg_elements s) by (rewrite E; by left).
      apply elem_of_nonneg in Hx. by rewrite Hall in Hx.
  - intros s. destruct (list_upper_bound (nonneg_elements s)) as [n Hn]. exists n.
    intros x Hx. apply Hn. by apply elem_of_nonneg.
Defined.

(** Visiting the members of a set in order ([while ((x = bms_next_member(s, x)) >= 0)]). *)
Section members.
Context `{Bitmapsets}.

Fixpoint bms_members (fuel : nat) (s : Bitmapset) (prev : Z) : res (list Z) :=
  let member := bms_next_member s prev in
  if member <? 0 then Ok []
  else match fuel with
       | O => Undefined
       | S fuel => rest ← bms_members fuel s member; Ok (member :: rest)
       end.

(** With enough fuel the visit ends, and meets exactly the members. *)
Lemma bms_members_ok s : ∃ fuel0, ∀ fuel, (fuel0 ≤ fuel)%nat →
  ∃ l, bms_members fuel s (-1) = Ok l ∧ ∀ x, x ∈ l ↔ bms_is_member x s = true.
Proof.
  destruct (bms_finite s) as [n Hn].
  cut (∀ fuel prev, -1 ≤ prev → n - prev ≤ Z.of_nat fuel →
    ∃ l, bms_members fuel s prev = Ok l ∧ ∀ x, x ∈ l ↔ prev < x ∧ bms_is_member x s = true).
  { intros Hm. exists (Z.to_nat (n + 1)). intros fuel Hf.
    destruct (Hm fuel (-1)) as (l & E & Hl); [lia|lia|]. exists l. split; [done|].
    intros x. rewrite Hl. split; [tauto|]. intros Hx. split; [|done].
    pose proof (bms_member_nonneg x s Hx). lia. }
  induction fuel as [|fuel IH]; intros prev Hp Hfuel; cbn [bms_members];
    (destruct (bms_next_spec s prev) as [[E Hno]|(Hlt & Hin & Hleast)];
     [rewrite E; exists []; split; [done|]; intros x; split;
        [intros Hx; by apply elem_of_nil in Hx|intros [Hx Hm]; rewrite Hno in Hm by done; done]|]).
  - specialize (Hn _ Hin). lia.
  - destruct (Z.ltb_spec (bms_next_member s prev) 0); [lia|].
    destruct (IH (bms_next_member s prev)) as (l & -> & Hl); [lia|lia|]. rewrite bind_Ok.
    eexists; split; [done|]. intros x. rewrite elem_of_cons, Hl. split.
    + intros [->|[? ?]]; split; (done || lia).
    + intros [Hx Hm]. destruct (decide (x = bms_next_member s prev)); [by left|]. right.
      split; [|done]. destruct (decide (x < bms_next_member s prev)); [|lia].
      rewrite Hleast in Hm by lia. done.
Qed.
End members.
