(* ===== verification/Batch.v ===== *)
(** * Batches, layouts and their ABI headers ([include/pg_batch/abi.h],
    [layout.h], [batch.h])

    The structures modules exchange.  Each starts with the version and size
    its supplier was compiled with; sizes are those of an LP64 target.  An
    operation table is identified by its address; the callbacks in it belong
    to other modules, and only whether they are [NULL] is kept. *)

From S2P Require Import Prelude Words Selection.

(** ** ABI headers *)

(** [PG_BATCH_ABI_HAS_FIELD(object, type, field)] for a field that ends at
    [size_through]. *)
Definition PG_BATCH_ABI_HAS_FIELD (struct_size size_through : Z) : bool := size_through <=? struct_size.

Definition validate_abi (version struct_size expected_version required_size : Z) : res unit :=
  raise_if (negb (version =? expected_version) || (struct_size <? required_size)) FeatureNotSupported.

Lemma validate_abi_defined v size ev rs : validate_abi v size ev rs ≠ Undefined.
Proof. unfold validate_abi. by destruct (_ || _). Qed.

Lemma validate_abi_ok v size ev rs : validate_abi v size ev rs = Ok tt → v = ev ∧ rs ≤ size.
Proof.
  unfold validate_abi. destruct (Z.eqb_spec v ev), (Z.ltb_spec size rs); simpl; try done.
Qed.

(** ** Column layouts *)

Record PgBatchLayout : Type := mkLayout {
  layout_struct_size : Z;
  layout_ncolumns : Z;
  layout_ntargets : Z;
  (** [None] is the null pointer, the identity mapping. *)
  target_columns : option (list Z);
}.

Definition PG_BATCH_LAYOUT_MIN_SIZE : Z := 24.

(** [layout->target_columns == NULL ? target : layout->target_columns[target]] *)
Definition target_column (layout : PgBatchLayout) (target : Z) : res Z :=
  match target_columns layout with None => Ok target | Some columns => aref columns target end.

Definition pg_batch_check_layout (layout : option PgBatchLayout) : res unit :=
  match layout with
  | None => Raise (Elog "pg_batch received an invalid logical layout")
  | Some layout =>
      _ ← raise_if ((layout_struct_size layout <? PG_BATCH_LAYOUT_MIN_SIZE) ||
                    (layout_ncolumns layout <? 0) || (layout_ntargets layout <? 0) ||
                    (match target_columns layout with None => true | Some _ => false end &&
                     (layout_ncolumns layout <? layout_ntargets layout)))
            (Elog "pg_batch received an invalid logical layout");
      foldM (λ target _,
          column ← target_column layout target;
          raise_if ((column <? -1) || (layout_ncolumns layout <=? column))
            (Elog "pg_batch target column is out of range"))
        (seqZ 0 (layout_ntargets layout)) tt
  end.

Definition pg_batch_layout_column (layout : PgBatchLayout) (target : Z) : res Z :=
  _ ← assert_ ((0 <=? target) && (target <? layout_ntargets layout));
  target_column layout target.

(** ** Batches *)

Record PgBatchOps : Type := mkOps {
  ops_address : Z;
  ops_abi_version : Z;
  ops_struct_size : Z;
  has_get_datum_column : bool;
  has_prepare_columns : bool;
  has_get_native_interface : bool;
  has_release : bool;
}.

Definition PG_BATCH_OPS_ABI_VERSION : Z := 1.
Definition PG_BATCH_OPS_MIN_SIZE : Z := 24.
(** The ends of the optional fields of [PgBatchOps]. *)
Definition OPS_THROUGH_PREPARE_COLUMNS : Z := 32.
Definition OPS_THROUGH_GET_NATIVE_INTERFACE : Z := 40.
Definition OPS_THROUGH_RELEASE : Z := 48.

(** A selection whose [words] pointer is [NULL] has no words. *)
Record PgBatch : Type := mkBatch {
  abi_version : Z;
  struct_size : Z;
  selection : PgBatchSelection;
  table_oid : Z;
  ops : option PgBatchOps;
  private_data : Z;
  generation : Z;
}.

Definition PG_BATCH_ABI_VERSION : Z := 1.
Definition PG_BATCH_MIN_SIZE : Z := 64.

Definition set_generation (b : PgBatch) (g : Z) : PgBatch :=
  mkBatch (abi_version b) (struct_size b) (selection b) (table_oid b) (ops b) (private_data b) g.
Definition set_selection (b : PgBatch) (s : PgBatchSelection) : PgBatch :=
  mkBatch (abi_version b) (struct_size b) s (table_oid b) (ops b) (private_data b) (generation b).

(** A borrowed Datum view; [struct_size] is the caller's, null pointers are
    [None]. *)
Record PgBatchDatumVector : Type := mkDatumVector {
  dv_struct_size : Z;
  dv_values : option (list Z);
  dv_isnull : option (list bool);
  dv_nrows : Z;
}.
Definition PG_BATCH_DATUM_VECTOR_MIN_SIZE : Z := 28.
Definition sizeof_PgBatchDatumVector : Z := 32.

Definition pg_batch_check_datum_vector (result : option PgBatchDatumVector) : res unit :=
  raise_if (match result with None => true | Some v => dv_struct_size v <? PG_BATCH_DATUM_VECTOR_MIN_SIZE end)
    (Elog "pg_batch source received an incompatible Datum vector").

Record PgBatchConsumerOps : Type := mkConsumerOps {
  consumer_abi_version : Z;
  consumer_struct_size : Z;
  has_accept_batch : bool;
  has_select_row : bool;
}.

Definition PG_BATCH_CONSUMER_OPS_ABI_VERSION : Z := 1.
Definition PG_BATCH_CONSUMER_OPS_MIN_SIZE : Z := 32.

(** ** Layout properties *)

(** A layout a consumer may index without further checks. *)
Definition layout_ok (layout : PgBatchLayout) : Prop :=
  0 ≤ layout_ncolumns layout ∧
  ∀ target, 0 ≤ target < layout_ntargets layout →
    ∃ column, pg_batch_layout_column layout target = Ok column ∧ -1 ≤ column < layout_ncolumns layout.

Lemma target_column_safe layout target :
  (∀ cs, target_columns layout = Some cs → layout_ntargets layout ≤ zlength cs) →
  0 ≤ target < layout_ntargets layout → ∃ c, target_column layout target = Ok c.
Proof.
  intros Hcs Ht. unfold target_column. destruct (target_columns layout) as [cs|]; [|eauto].
  specialize (Hcs cs eq_refl). rewrite (aref_ok 0) by lia. eauto.
Qed.

(** A check over all indices returns, or stops at the first that fails. *)
Lemma check_all_spec (f : Z → res Z) (bad : Z → bool) e n :
  0 ≤ n → (∀ i, 0 ≤ i < n → ∃ c, f i = Ok c) →
  let m := foldM (λ i (_ : unit), c ← f i; raise_if (bad c) e) (seqZ 0 n) tt in
  (m = Ok tt ∧ ∀ i c, 0 ≤ i < n → f i = Ok c → bad c = false) ∨
  (m = Raise e ∧ ∃ i c, 0 ≤ i < n ∧ f i = Ok c ∧ bad c = true).
Proof.
  intros Hn Hf m. subst m.
  cut (∀ k i, n = i + Z.of_nat k → 0 ≤ i →
    let m := foldM (λ i (_ : unit), c ← f i; raise_if (bad c) e) (seqZ i (Z.of_nat k)) tt in
    (m = Ok tt ∧ ∀ j c, i ≤ j < n → f j = Ok c → bad c = false) ∨
    (m = Raise e ∧ ∃ j c, i ≤ j < n ∧ f j = Ok c ∧ bad c = true)).
  { intros H. specialize (H (Z.to_nat n) 0). rewrite Z2Nat.id in H by lia. apply H; lia. }
  induction k as [|k IH]; intros i Hk Hi.
  - left. split; [done|]. intros j c Hj. lia.
  - rewrite seqZ_cons by lia. replace (Z.pred (Z.of_nat (S k))) with (Z.of_nat k) by lia.
    replace (Z.succ i) with (i + 1) by lia. destruct (Hf i) as [c Hc]; [lia|].
    cbn [foldM]. rewrite Hc, bind_Ok. destruct (bad c) eqn:Hb.
    + right. split; [done|]. exists i, c. split_and!; (done || lia).
    + cbn [raise_if]. rewrite bind_Ok.
      destruct (IH (i + 1)) as [[-> Hall]|[-> (j & d & Hj & Hd & Hbad)]]; [lia|lia| |].
      * left. split; [done|]. intros j d Hj Hd. destruct (decide (j = i)) as [->|]; [congruence|].
        eapply Hall; [|done]. lia.
      * right. split; [done|]. exists j, d. split_and!; (done || lia).
Qed.

(** [pg_batch_check_layout] never reads outside the target map of the size it
    is told, and accepts exactly the layouts that can be indexed. *)
Lemma check_layout_spec layout :
  (∀ cs, target_columns layout = Some cs → layout_ntargets layout ≤ zlength cs) →
  (pg_batch_check_layout (Some layout) = Ok tt ↔
     PG_BATCH_LAYOUT_MIN_SIZE ≤ layout_struct_size layout ∧ 0 ≤ layout_ntargets layout ∧ layout_ok layout) ∧
  pg_batch_check_layout (Some layout) ≠ Undefined.
Proof.
  intros Hcs. unfold pg_batch_check_layout, layout_ok, pg_batch_layout_column.
  destruct (Z.ltb_spec (layout_struct_size layout) PG_BATCH_LAYOUT_MIN_SIZE); simpl;
    [split; [split; [done|lia]|done]|].
  destruct (Z.ltb_spec (layout_ncolumns layout) 0); simpl; [split; [split; [done|lia]|done]|].
  destruct (Z.ltb_spec (layout_ntargets layout) 0); simpl; [split; [split; [done|lia]|done]|].
  destruct (match target_columns layout with None => true | Some _ => false end &&
      (layout_ncolumns layout <? layout_ntargets layout)) eqn:Hid; cbn [raise_if].
  - split; [|done]. split; [done|]. intros (_ & _ & _ & Hall). bool_prop.
    destruct (Hall (layout_ncolumns layout)) as (c & Hc & Hr); [lia|].
    unfold target_column, assert_ in Hc. destruct (target_columns layout); [done|].
    destruct (_ && _); simpl in Hc; [|done]. injection Hc as <-. lia.
  - rewrite bind_Ok.
    destruct (check_all_spec (target_column layout)
        (λ column, (column <? -1) || (layout_ncolumns layout <=? column))
        (Elog "pg_batch target column is out of range") (layout_ntargets layout))
      as [[-> Hall]|[-> (j & c & Hj & Hc & Hbad)]]; [lia| | |].
    + intros i Hi. by apply target_column_safe.
    + split; [|done]. split; [|done]. intros _. split_and!; try lia. intros target Ht.
      destruct (target_column_safe layout target Hcs Ht) as [c Hc]. exists c.
      specialize (Hall target c Ht Hc). bool_prop.
      unfold assert_. rewrite (proj2 (Z.leb_le 0 target)), (proj2 (Z.ltb_lt target _)) by lia.
      simpl. split; [done|lia].
    + split; [|done]. split; [done|]. intros (_ & _ & _ & Hok). destruct (Hok j Hj) as (d & Hd & Hr).
      unfold assert_ in Hd. rewrite (proj2 (Z.leb_le 0 j)), (proj2 (Z.ltb_lt j _)) in Hd by lia.
      simpl in Hd. rewrite Hc in Hd. injection Hd as <-.
      apply orb_true_iff in Hbad as [Hb|Hb]; [apply Z.ltb_lt in Hb|apply Z.leb_le in Hb]; lia.
Qed.
