(* ===== verification/Columns.v ===== *)
(** * Column access ([include/pg_batch/runtime.h], [runtime/adapter.c],
      [kernels/vector.c])

    How a consumer reads a column of a batch: it prepares a group of columns,
    asks for a native view through an interface that is discovered once per
    operation table and cached, and falls back to Datum arrays.

    The callbacks of [PgBatchOps] belong to the batch's source.  They are
    operations of the class [SourceCalls], on a source state of their own;
    [BatchSource] is what a source promises its consumers. *)

From S2P Require Import Prelude Words Selection Vector Bitmaps Batch.

Inductive PgBatchColumnPhase : Type := PG_BATCH_COLUMN_FILTER | PG_BATCH_COLUMN_PROJECT.

Record PgBatchNativeType : Type := mkNativeType {
  nt_name : option string;
  nt_abi_version : Z;
  nt_min_size : Z;
}.

Record PgBatchNativeInterface : Type := mkInterface {
  ni_address : Z;
  ni_abi_version : Z;
  ni_struct_size : Z;
}.

#[global] Instance interface_eq_dec : EqDecision PgBatchNativeInterface.
Proof. solve_decision. Defined.

Definition PG_BATCH_INT4_VECTOR_INTERFACE_NAME : string := "pg_batch.int4_vector.v1".
Definition PG_BATCH_INT4_VECTOR_INTERFACE_VERSION : Z := 1.
Definition PG_BATCH_INT4_VECTOR_INTERFACE_MIN_SIZE : Z := 24.
Definition PG_BATCH_INT4_VECTOR_MIN_SIZE : Z := 40.
Definition sizeof_PgBatchInt4Vector : Z := 40.

Definition pg_batch_int4_vector_type : PgBatchNativeType :=
  mkNativeType (Some PG_BATCH_INT4_VECTOR_INTERFACE_NAME) PG_BATCH_INT4_VECTOR_INTERFACE_VERSION
    PG_BATCH_INT4_VECTOR_INTERFACE_MIN_SIZE.

(** Calls through an operation table; batches are named by address.  The
    native interface "depends only on this operations table" (batch.h), so that
    callback neither reads nor changes the source's state. *)
Class SourceCalls `{Bitmapsets} : Type := {
  src_state : Type;
  call_prepare_columns : PgBatchOps → Z → Bitmapset → PgBatchSelection → PgBatchColumnPhase →
    ST src_state unit;
  call_get_datum_column : PgBatchOps → Z → Z → PgBatchSelection → PgBatchColumnPhase →
    PgBatchDatumVector → ST src_state PgBatchDatumVector;
  call_get_native_interface : PgBatchOps → PgBatchNativeType → option PgBatchNativeInterface;
  (** [get_column] of an int4 interface: [None] when it returns false, and the
      [struct_size] it leaves with the view otherwise. *)
  call_get_int4_column : PgBatchNativeInterface → Z → Z → Z → ST src_state (option (Z * PgBatchInt4Vector));
}.

Record NativeCacheEntry : Type := mkCacheEntry {
  ce_ops : Z;
  ce_name : string;
  ce_abi_version : Z;
  ce_interface : option PgBatchNativeInterface;
}.

Section columns.
Context `{SC : SourceCalls}.

(** The adapter's globals, the batches, and the sources behind them. *)
Record World : Type := mkWorld {
  w_batches : gmap Z PgBatch;
  native_interfaces : list NativeCacheEntry;
  last_native_interface : option NativeCacheEntry;
  w_source : src_state;
}.

Definition set_cache (w : World) l last := mkWorld (w_batches w) l last (w_source w).
Definition set_last (w : World) last := mkWorld (w_batches w) (native_interfaces w) last (w_source w).
Definition set_source_state (w : World) s := mkWorld (w_batches w) (native_interfaces w) (last_native_interface w) s.
Definition put_batch (w : World) k bt := mkWorld (<[k := bt]> (w_batches w)) (native_interfaces w)
  (last_native_interface w) (w_source w).

Definition W : Type → Type := ST World.
Definition fail {A} (msg : string) : W A := lift (Raise (Elog msg)).
Definition fail_if (b : bool) (msg : string) : W unit := error_if b (Elog msg).
Definition the_batch (k : Z) : W PgBatch := o ← gets (λ w, w_batches w !! k); deref o.

(** A call into the source. *)
Definition in_source {A} (m : ST src_state A) : W A :=
  λ w, let r := m (w_source w) in (r.1, set_source_state w r.2).

(** *** [adapter.c] *)

Definition checked_native_interface (entry : NativeCacheEntry) (type : PgBatchNativeType)
    : W (option PgBatchNativeInterface) :=
  _ ← fail_if (match ce_interface entry with
               | None => false
               | Some i => ni_struct_size i <? nt_min_size type
               end) "pg_batch source returned an incompatible native interface";
  mret (ce_interface entry).

Definition same_entry (ops : PgBatchOps) (name : string) (version : Z) (e : NativeCacheEntry) : bool :=
  (ce_ops e =? ops_address ops) && (ce_abi_version e =? version) && String.eqb (ce_name e) name.

Fixpoint find_cached (ops : PgBatchOps) (name : string) (version : Z) (l : list NativeCacheEntry)
    : option NativeCacheEntry :=
  match l with
  | [] => None
  | cached :: l => if same_entry ops name version cached then Some cached else find_cached ops name version l
  end.

(** The search, and the question to the source when it finds nothing. *)
Definition search_native_interface (o : PgBatchOps) (name : string) (type : PgBatchNativeType)
    : W (option PgBatchNativeInterface) :=
  entries ← gets native_interfaces;
  match find_cached o name (nt_abi_version type) entries with
  | Some cached =>
      _ ← modify (λ w, set_last w (Some cached));
      checked_native_interface cached type
  | None =>
      let result := call_get_native_interface o type in
      _ ← fail_if (match result with
                   | None => false
                   | Some i => negb (ni_abi_version i =? nt_abi_version type) || (ni_struct_size i <? nt_min_size type)
                   end) "pg_batch source returned an incompatible native interface";
      let entry := mkCacheEntry (ops_address o) name (nt_abi_version type) result in
      _ ← modify (λ w, set_cache w (native_interfaces w ++ [entry]) (Some entry));
      mret result
  end.

Definition pg_batch_get_native_interface (batch : option Z) (type : option PgBatchNativeType)
    : W (option PgBatchNativeInterface) :=
  match batch, type with
  | Some k, Some type =>
      match nt_name type with
      | None => fail "pg_batch received an invalid native interface request"
      | Some name =>
          bt ← the_batch k;
          match ops bt with
          | None => mret None
          | Some o =>
              if negb (PG_BATCH_ABI_HAS_FIELD (ops_struct_size o) OPS_THROUGH_GET_NATIVE_INTERFACE) ||
                 negb (has_get_native_interface o)
              then mret None else
              last ← gets last_native_interface;
              match last with
              | Some last =>
                  if same_entry o name (nt_abi_version type) last
                  then checked_native_interface last type
                  else search_native_interface o name type
              | None => search_native_interface o name type
              end
          end
      end
  | _, _ => fail "pg_batch received an invalid native interface request"
  end.

(** *** [runtime.h] *)

(** A [NULL] set is the empty set. *)
Definition pg_batch_prepare_columns (batch : Z) (columns : Bitmapset) (selected_rows : PgBatchSelection)
    (phase : PgBatchColumnPhase) : W unit :=
  if bms_is_empty columns then mret tt else
  bt ← the_batch batch;
  match ops bt with
  | None => mret tt
  | Some o =>
      if PG_BATCH_ABI_HAS_FIELD (ops_struct_size o) OPS_THROUGH_PREPARE_COLUMNS && has_prepare_columns o
      then in_source (call_prepare_columns o batch columns selected_rows phase)
      else mret tt
  end.

Definition pg_batch_get_datum_column (batch column : Z) (selected_rows : PgBatchSelection)
    (phase : PgBatchColumnPhase) : W PgBatchDatumVector :=
  bt ← the_batch batch;
  o ← deref (ops bt);
  result ← in_source (call_get_datum_column o batch column selected_rows phase
                        (mkDatumVector sizeof_PgBatchDatumVector None None 0));
  _ ← lift (pg_batch_check_datum_vector (Some result));
  _ ← fail_if (match dv_values result, dv_isnull result with Some _, Some _ => false | _, _ => true end ||
               (dv_nrows result <? nrows selected_rows))
        "pg_batch source returned an incomplete Datum column";
  mret result.

Record PgBatchColumnAccess : Type := mkAccess {
  access_batch : option Z;
  access_columns : Bitmapset;
  access_rows : PgBatchSelection;
  access_phase : PgBatchColumnPhase;
}.

(** [None] for a null batch or row set. *)
Definition pg_batch_column_access_init (batch : option Z) (columns : Bitmapset)
    (rows : option PgBatchSelection) (phase : PgBatchColumnPhase) : W PgBatchColumnAccess :=
  let msg := "pg_batch received an invalid column access request"%string in
  match batch, rows with
  | Some k, Some rows =>
      bt ← the_batch k;
      _ ← fail_if (match ops bt with None => true | Some _ => false end ||
                   negb (nrows rows =? nrows (selection bt)) || negb (nwords rows =? nwords (selection bt)) ||
                   match words rows with [] => true | _ => false end) msg;
      _ ← pg_batch_prepare_columns k columns rows phase;
      mret (mkAccess batch columns rows phase)
  | _, _ => fail msg
  end.

Definition pg_batch_column_get_datum (access : option PgBatchColumnAccess) (column : Z) : W PgBatchDatumVector :=
  let msg := "pg_batch column was not requested"%string in
  match access with
  | None => fail msg
  | Some access =>
      match access_batch access with
      | None => fail msg
      | Some k =>
          _ ← fail_if (negb (bms_is_member column (access_columns access))) msg;
          pg_batch_get_datum_column k column (access_rows access) (access_phase access)
      end
  end.

(** The [while] loop of [pg_batch_materialize_columns]. *)
Fixpoint materialize_loop (fuel : nat) (access : PgBatchColumnAccess) (columns : Bitmapset) (column : Z) : W unit :=
  let column := bms_next_member columns column in
  if column <? 0 then mret tt
  else match fuel with
       | O => lift Undefined
       | S fuel =>
           _ ← pg_batch_column_get_datum (Some access) column;
           materialize_loop fuel access columns column
       end.

Definition pg_batch_materialize_columns (fuel : nat) (batch : option Z) (columns : Bitmapset)
    (selected_rows : option PgBatchSelection) (phase : PgBatchColumnPhase) : W unit :=
  access ← pg_batch_column_access_init batch columns selected_rows phase;
  materialize_loop fuel access columns (-1).

(** *** [vector.c] *)

Definition datum_view (access : option PgBatchColumnAccess) (column : Z) : W PgBatchInt4Vector :=
  datum ← pg_batch_column_get_datum access column;
  values ← deref (dv_values datum);
  isnull ← deref (dv_isnull datum);
  mret (pg_batch_int4_vector_init_datum values isnull).

Definition pg_batch_column_get_int4 (access : option PgBatchColumnAccess) (column : Z) : W PgBatchInt4Vector :=
  let msg := "pg_batch column was not requested"%string in
  match access with
  | None => fail msg
  | Some a =>
      match access_batch a with
      | None => fail msg
      | Some k =>
          _ ← fail_if (negb (bms_is_member column (access_columns a))) msg;
          native ← pg_batch_get_native_interface (access_batch a) (Some pg_batch_int4_vector_type);
          match native with
          | None => datum_view access column
          | Some native =>
              answer ← in_source (call_get_int4_column native k column sizeof_PgBatchInt4Vector);
              match answer with
              | None => datum_view access column
              | Some (size, result) =>
                  _ ← fail_if (size <? PG_BATCH_INT4_VECTOR_MIN_SIZE)
                        "pg_batch source returned an incompatible int4 vector";
                  mret result
              end
          end
      end
  end.

(** ** What a source promises *)

(** The rows of an int4 Datum column. *)
Definition datum_cell (values : list Z) (nulls : list bool) (row : Z) : option Z :=
  if zget true nulls row then None else Some (DatumGetInt32 (zget 0 values row)).

Class BatchSource : Type := {
  (** The source state serves the batch at an address, with these operations
      and this many rows. *)
  serves : src_state → Z → PgBatchOps → Z → Prop;
  available : src_state → Z → Z → Prop;
  (** What the batch holds: batch, column, row. *)
  content : src_state → Z → Z → Z → option Z;
  (** The column has been prepared for these rows. *)
  prepared : src_state → Z → Z → PgBatchSelection → Prop;
  extends (st st' : src_state) : Prop := ∀ k o n, serves st k o n →
    serves st' k o n ∧ ∀ c, (available st' k c ↔ available st k c) ∧
    ∀ row, content st' k c row = content st k c row;
  src_datum_op st k o n : serves st k o n → has_get_datum_column o = true;
  src_prepare st k o n cols rows ph :
    serves st k o n → sel_wf rows → nrows rows = n → (∀ c, bms_is_member c cols = true → available st k c) →
    has_prepare_columns o = true →
    ∃ st', call_prepare_columns o k cols rows ph st = (Ok tt, st') ∧ extends st st' ∧
      ∀ c, bms_is_member c cols = true → prepared st' k c rows;
  (** Without such an operation every column is always ready. *)
  src_ready st k o n c rows :
    serves st k o n → available st k c →
    PG_BATCH_ABI_HAS_FIELD (ops_struct_size o) OPS_THROUGH_PREPARE_COLUMNS && has_prepare_columns o = false →
    prepared st k c rows;
  (** Sources rely on the bits beyond the rows being clear. *)
  src_datum st k o n c rows ph result :
    serves st k o n → available st k c → sel_wf rows → sel_clean rows → nrows rows = n →
    PG_BATCH_DATUM_VECTOR_MIN_SIZE ≤ dv_struct_size result →
    ∃ values nulls m st', call_get_datum_column o k c rows ph result st =
        (Ok (mkDatumVector (dv_struct_size result) (Some values) (Some nulls) m), st') ∧
      extends st st' ∧ n ≤ m ∧ n ≤ zlength values ∧ n ≤ zlength nulls ∧
      ∀ row, row ∈ selected_rows rows → datum_cell values nulls row = content st k c row;
  (** The answer "depends only on this operations table". *)
  src_native_stable o o' t t' : ops_address o = ops_address o' → nt_name t = nt_name t' →
    nt_abi_version t = nt_abi_version t' → call_get_native_interface o t = call_get_native_interface o' t';
  src_native_type st k o n i : serves st k o n →
    call_get_native_interface o pg_batch_int4_vector_type = Some i →
    ni_abi_version i = nt_abi_version pg_batch_int4_vector_type ∧
    nt_min_size pg_batch_int4_vector_type ≤ ni_struct_size i;
  (** A batch with no selected row may leave its columns unprepared. *)
  src_native st k o n c rows i :
    serves st k o n → available st k c → prepared st k c rows → sel_wf rows → nrows rows = n →
    selected_rows rows ≠ [] →
    call_get_native_interface o pg_batch_int4_vector_type = Some i →
    ∃ answer st', call_get_int4_column i k c sizeof_PgBatchInt4Vector st = (Ok answer, st') ∧ extends st st' ∧
      match answer with
      | None => True
      | Some (size, v) => PG_BATCH_INT4_VECTOR_MIN_SIZE ≤ size ∧ col_wf v n ∧
          ∀ row, row ∈ selected_rows rows → cell v row = content st k c row
      end;
}.

Context `{BS : BatchSource}.

Lemma extends_refl st : extends st st.
Proof. intros k o n Hs. by split_and!. Qed.

Lemma extends_trans st1 st2 st3 : extends st1 st2 → extends st2 st3 → extends st1 st3.
Proof.
  intros H12 H23 k o n Hs. destruct (H12 k o n Hs) as [Hs2 Hc2]. destruct (H23 k o n Hs2) as [Hs3 Hc3].
  split; [done|]. intros c. destruct (Hc2 c) as [Ha2 He2], (Hc3 c) as [Ha3 He3].
  split; [tauto|]. intros row. by rewrite He3.
Qed.

(** ** The interface cache *)

(** The answer without a cache. *)
Definition incompatible (type : PgBatchNativeType) (i : PgBatchNativeInterface) : bool :=
  negb (ni_abi_version i =? nt_abi_version type) || (ni_struct_size i <? nt_min_size type).

Definition direct_native (bt : PgBatch) (type : PgBatchNativeType) : res (option PgBatchNativeInterface) :=
  match ops bt with
  | None => Ok None
  | Some o =>
      if PG_BATCH_ABI_HAS_FIELD (ops_struct_size o) OPS_THROUGH_GET_NATIVE_INTERFACE && has_get_native_interface o
      then match call_get_native_interface o type with
           | None => Ok None
           | Some i => if incompatible type i
                       then Raise (Elog "pg_batch source returned an incompatible native interface")
                       else Ok (Some i)
           end
      else Ok None
  end.

Definition entry_ok (e : NativeCacheEntry) : Prop :=
  (∀ o t, ops_address o = ce_ops e → nt_name t = Some (ce_name e) → nt_abi_version t = ce_abi_version e →
     call_get_native_interface o t = ce_interface e) ∧
  ∀ i, ce_interface e = Some i → ni_abi_version i = ce_abi_version e.

Definition cache_ok (w : World) : Prop :=
  Forall entry_ok (native_interfaces w) ∧ ∀ e, last_native_interface w = Some e → entry_ok e.

Lemma same_entry_spec o name version e :
  same_entry o name version e = true →
  ops_address o = ce_ops e ∧ name = ce_name e ∧ version = ce_abi_version e.
Proof.
  unfold same_entry. intros [[Ho Hv]%andb_true_iff Hn]%andb_true_iff.
  apply String.eqb_eq in Hn. by bool_prop.
Qed.

Lemma find_cached_ok o name version l e :
  Forall entry_ok l → find_cached o name version l = Some e →
  entry_ok e ∧ same_entry o name version e = true.
Proof.
  induction 1 as [|e' l He _ IH]; cbn [find_cached]; [done|].
  destruct (same_entry o name version e') eqn:E; [|done]. by intros [= <-].
Qed.

(** The two ways a lookup ends agree with the direct answer. *)
Lemma checked_ok o type name e w :
  entry_ok e → nt_name type = Some name → same_entry o name (nt_abi_version type) e = true →
  checked_native_interface e type w =
    (match call_get_native_interface o type with
     | None => Ok None
     | Some i => if incompatible type i
                 then Raise (Elog "pg_batch source returned an incompatible native interface") else Ok (Some i)
     end, w).
Proof.
  intros [Hask Hver] Hname (Ho & Hn & Hv)%same_entry_spec. rewrite (Hask o type) by congruence.
  unfold checked_native_interface, fail_if, error_if, lift, incompatible, mret, st_ret, mbind, st_bind.
  destruct (ce_interface e) as [i|] eqn:Ei; [|done]. rewrite (Hver i eq_refl), Hv, Z.eqb_refl. cbn.
  by destruct (ni_struct_size i <? nt_min_size type).
Qed.

(** Worlds that differ in the cache only. *)
Definition cache_differs (w w' : World) : Prop := w_batches w' = w_batches w ∧ w_source w' = w_source w.

Lemma native_interface_ok w k bt type name :
  cache_ok w → w_batches w !! k = Some bt → nt_name type = Some name →
  ∃ w', pg_batch_get_native_interface (Some k) (Some type) w = (direct_native bt type, w') ∧
    cache_ok w' ∧ cache_differs w w'.
Proof.
  intros Hcache Hk Hname. pose proof Hcache as [Hall Hlast]. unfold pg_batch_get_native_interface. rewrite Hname.
  unfold the_batch, gets, deref, lift, mbind, st_bind, mret, st_ret. rewrite Hk. unfold direct_native.
  destruct (ops bt) as [o|]; [|by exists w].
  destruct (PG_BATCH_ABI_HAS_FIELD _ _ && _) eqn:Hop; rewrite <- negb_andb, Hop; cbn [negb]; [|by exists w].
  assert (Hsearch : ∃ w', search_native_interface o name type w =
    (match call_get_native_interface o type with
     | None => Ok None
     | Some i => if incompatible type i
                 then Raise (Elog "pg_batch source returned an incompatible native interface") else Ok (Some i)
     end, w') ∧ cache_ok w' ∧ cache_differs w w').
  { unfold search_native_interface, gets, modify, mbind, st_bind.
    destruct (find_cached o name (nt_abi_version type) (native_interfaces w)) as [e|] eqn:Hfind.
    - destruct (find_cached_ok _ _ _ _ _ Hall Hfind) as [He Hsame].
      rewrite (checked_ok o type name) by done. eexists; split; [done|].
      split; [|done]. split; [done|]. by intros e' [= <-].
    - unfold fail_if, error_if, lift. fold (incompatible type).
      destruct (call_get_native_interface o type) as [i|] eqn:Hcall.
      + fold (incompatible type i). destruct (incompatible type i) eqn:Hinc; cbn [raise_if]; [by exists w|].
        eexists; split; [done|].
        assert (entry_ok (mkCacheEntry (ops_address o) name (nt_abi_version type) (Some i))) as He.
        { split; cbn.
          - intros o' t Ho Hn Hv. rewrite <- Hcall. by apply src_native_stable; congruence.
          - intros j [= <-]. unfold incompatible in Hinc. by bool_prop. }
        split; [|done]. split; cbn; [|by intros e [= <-]]. apply Forall_app. by split; [|constructor].
      + cbn [raise_if]. eexists; split; [done|].
        assert (entry_ok (mkCacheEntry (ops_address o) name (nt_abi_version type) None)) as He.
        { split; cbn; [|done]. intros o' t Ho Hn Hv. rewrite <- Hcall. by apply src_native_stable; congruence. }
        split; [|done]. split; cbn; [|by intros e [= <-]]. apply Forall_app. by split; [|constructor]. }
  destruct (last_native_interface w) as [last|] eqn:El; [|done].
  destruct (same_entry o name (nt_abi_version type) last) eqn:Hsame; [|done].
  rewrite (checked_ok o type name) by (done || by apply Hlast). by exists w.
Qed.

(** ** Reading columns *)

(** One access: prepare a group of columns, then read one of them. *)
Definition read_int4 (batch : Z) (columns : Bitmapset) (rows : PgBatchSelection)
    (phase : PgBatchColumnPhase) (column : Z) : W PgBatchInt4Vector :=
  access ← pg_batch_column_access_init (Some batch) columns (Some rows) phase;
  pg_batch_column_get_int4 (Some access) column.

(** The world after a call that leaves batches and their contents alone. *)
Definition quiet (w w' : World) : Prop :=
  cache_ok w' ∧ w_batches w' = w_batches w ∧ extends (w_source w) (w_source w').

Lemma wp_in_source {A} (m : ST src_state A) (Q : res A → World → Prop) w a st :
  m (w_source w) = (Ok a, st) → Q (Ok a) (set_source_state w st) → wp (in_source m) Q w.
Proof. intros E HQ. unfold wp, in_source. rewrite E. by split. Qed.

Lemma wp_the_batch {A} k bt (f : PgBatch → W A) Q w :
  w_batches w !! k = Some bt → wp (f bt) Q w → wp (the_batch k ≫= f) Q w.
Proof. intros Hk Hw. unfold wp, the_batch, mbind, st_bind, gets. by rewrite Hk. Qed.

(** A batch whose source is there. *)
Record served (w : World) (k : Z) (bt : PgBatch) (o : PgBatchOps) : Prop := {
  sv_batch : w_batches w !! k = Some bt;
  sv_ops : ops bt = Some o;
  sv_serves : serves (w_source w) k o (nrows (selection bt));
}.

(** Rows of a batch a consumer may name. *)
Definition rows_of (bt : PgBatch) (rows : PgBatchSelection) : Prop :=
  sel_wf rows ∧ nrows rows = nrows (selection bt) ∧ nwords rows = nwords (selection bt) ∧ sel_clean rows.

Lemma quiet_served w w' k bt o : served w k bt o → quiet w w' → served w' k bt o.
Proof. intros [] (_ & Hb & He). constructor; [by rewrite Hb|done|]. by apply He. Qed.

Lemma words_not_null rows : sel_wf rows → match words rows with [] => true | _ => false end = false.
Proof.
  intros Hs. pose proof (wf_nrows rows Hs). pose proof (wf_nwords rows Hs). pose proof (wf_length rows Hs) as Hl.
  destruct (words rows); [|done]. simpl in Hl. zlia.
Qed.

Lemma access_init_ok w k bt o cols rows ph :
  cache_ok w → served w k bt o → rows_of bt rows →
  (∀ c, bms_is_member c cols = true → available (w_source w) k c) →
  wp (pg_batch_column_access_init (Some k) cols (Some rows) ph) (λ r w', r = Ok (mkAccess (Some k) cols rows ph) ∧
    quiet w w' ∧ ∀ c, bms_is_member c cols = true → prepared (w_source w') k c rows) w.
Proof.
  intros Hc Hserved (Hwf & Hn & Hnw & Hclean) Hcols. pose proof Hserved as [].
  unfold pg_batch_column_access_init. apply (wp_the_batch k bt); [done|].
  apply wp_error_if; [rewrite sv_ops0, Hn, Hnw, !Z.eqb_refl, words_not_null by done; done|]. intros _.
  apply wp_bind. unfold pg_batch_prepare_columns. destruct (bms_is_empty cols) eqn:Hempty.
  { apply wp_ret, wp_ret. split; [done|]. split; [by split_and!; [..|apply extends_refl]|].
    intros c Hm. rewrite (proj1 (bms_empty_spec cols) Hempty) in Hm. done. }
  apply (wp_the_batch k bt); [done|]. rewrite sv_ops0.
  destruct (PG_BATCH_ABI_HAS_FIELD (ops_struct_size o) OPS_THROUGH_PREPARE_COLUMNS && has_prepare_columns o) eqn:Hop.
  - destruct (src_prepare (w_source w) k o (nrows (selection bt)) cols rows ph) as (st & E & Hext & Hprep);
      try done; [by apply andb_true_iff in Hop as [_ ?]|].
    apply (wp_in_source _ _ _ tt st E). apply wp_ret. split; [done|]. by split_and!.
  - apply wp_ret, wp_ret. split; [done|]. split; [by split_and!; [..|apply extends_refl]|].
    intros c Hm. eapply src_ready; [done|by apply Hcols|done].
Qed.

Lemma datum_column_ok w k bt o c rows ph :
  cache_ok w → served w k bt o → rows_of bt rows → available (w_source w) k c →
  wp (pg_batch_get_datum_column k c rows ph) (λ r w', ∃ values nulls m,
    r = Ok (mkDatumVector sizeof_PgBatchDatumVector (Some values) (Some nulls) m) ∧ quiet w w' ∧
    nrows rows ≤ zlength values ∧ nrows rows ≤ zlength nulls ∧
    ∀ row, row ∈ selected_rows rows → datum_cell values nulls row = content (w_source w) k c row) w.
Proof.
  intros Hc Hserved (Hwf & Hn & Hnw & Hclean) Ha. pose proof Hserved as [].
  unfold pg_batch_get_datum_column. apply (wp_the_batch k bt); [done|]. rewrite sv_ops0. apply wp_deref.
  destruct (src_datum (w_source w) k o _ c rows ph (mkDatumVector sizeof_PgBatchDatumVector None None 0)
    sv_serves0 Ha Hwf Hclean Hn) as (values & nulls & m & st & E & Hext & Hm & Hv & Hnl & Hcells); [done|].
  apply wp_bind, (wp_in_source _ _ _ _ st E). apply wp_lift; [done|done|]. intros _ _.
  apply wp_error_if.
  - intros Hbad. exfalso. revert Hbad. cbn. destruct (Z.ltb_spec m (nrows rows)); [lia|done].
  - intros _. apply wp_ret. exists values, nulls, m. split_and!; (done || lia).
Qed.

Lemma get_datum_ok w k bt o cols c rows ph :
  cache_ok w → served w k bt o → rows_of bt rows → available (w_source w) k c →
  bms_is_member c cols = true →
  wp (pg_batch_column_get_datum (Some (mkAccess (Some k) cols rows ph)) c) (λ r w', ∃ values nulls m,
    r = Ok (mkDatumVector sizeof_PgBatchDatumVector (Some values) (Some nulls) m) ∧ quiet w w' ∧
    nrows rows ≤ zlength values ∧ nrows rows ≤ zlength nulls ∧
    ∀ row, row ∈ selected_rows rows → datum_cell values nulls row = content (w_source w) k c row) w.
Proof.
  intros Hc Hserved Hrows Ha Hm. unfold pg_batch_column_get_datum. cbn [access_batch access_columns access_rows access_phase].
  apply wp_error_if; [by rewrite Hm|]. intros _. by eapply datum_column_ok.
Qed.

Lemma datum_view_ok w k bt o cols c rows ph :
  cache_ok w → served w k bt o → rows_of bt rows → available (w_source w) k c →
  bms_is_member c cols = true →
  wp (datum_view (Some (mkAccess (Some k) cols rows ph)) c) (λ r w', ∃ v, r = Ok v ∧ quiet w w' ∧
    col_wf v (nrows rows) ∧ ∀ row, row ∈ selected_rows rows → cell v row = content (w_source w) k c row) w.
Proof.
  intros Hc Hserved Hrows Ha Hm. apply wp_bind. eapply wp_mono; [by eapply get_datum_ok|].
  intros r w' (values & nulls & m & -> & Hq & Hv & Hn & Hcells). apply wp_deref, wp_deref, wp_ret.
  eexists; split; [done|]. split; [done|]. split; [by split|]. done.
Qed.

Lemma quiet_trans w1 w2 w3 : quiet w1 w2 → quiet w2 w3 → quiet w1 w3.
Proof.
  intros (_ & Hb2 & He2) (Hc3 & Hb3 & He3). split_and!; [done|congruence|by eapply extends_trans].
Qed.

Lemma read_int4_ok w k bt o cols rows ph c :
  cache_ok w → served w k bt o → rows_of bt rows → selected_rows rows ≠ [] →
  (∀ c', bms_is_member c' cols = true → available (w_source w) k c') → bms_is_member c cols = true →
  wp (read_int4 k cols rows ph c) (λ r w', ∃ v, r = Ok v ∧ quiet w w' ∧ col_wf v (nrows rows) ∧
    ∀ row, row ∈ selected_rows rows → cell v row = content (w_source w) k c row) w.
Proof.
  intros Hc Hserved Hrows Hne Hcols Hm. pose proof Hserved as []. apply wp_bind.
  eapply wp_mono; [by eapply access_init_ok|]. intros r w1 (-> & Hq1 & Hprep).
  pose proof (quiet_served _ _ _ _ _ Hserved Hq1) as Hserved1. pose proof Hq1 as (Hc1 & Hb1 & He1).
  destruct (He1 _ _ _ sv_serves0) as [_ Hcont]. destruct (Hcont c) as [Hav Hsame].
  assert (Ha1 : available (w_source w1) k c) by by apply Hav, Hcols.
  assert (Hview : ∀ w2, quiet w1 w2 →
    wp (datum_view (Some (mkAccess (Some k) cols rows ph)) c) (λ r w', ∃ v, r = Ok v ∧ quiet w w' ∧
      col_wf v (nrows rows) ∧ ∀ row, row ∈ selected_rows rows → cell v row = content (w_source w) k c row) w2).
  { intros w2 Hq2. pose proof (quiet_served _ _ _ _ _ Hserved1 Hq2) as Hserved2.
    pose proof Hq2 as (Hc2 & _ & He2). pose proof Hserved1 as [_ _ Hserves1].
    destruct (He2 _ _ _ Hserves1) as [_ Hcont2]. destruct (Hcont2 c) as [Hav2 Hsame2].
    eapply wp_mono; [eapply datum_view_ok; try done; by apply Hav2|].
    intros r w3 (v & -> & Hq3 & Hwf & Hcells). exists v. split; [done|].
    split; [by eapply quiet_trans; [|eapply quiet_trans]|]. split; [done|].
    intros row Hrow. by rewrite Hcells, Hsame2, Hsame. }
  unfold pg_batch_column_get_int4. cbn [access_batch access_columns].
  apply wp_error_if; [by rewrite Hm|]. intros _. apply wp_bind.
  destruct (native_interface_ok w1 k bt pg_batch_int4_vector_type PG_BATCH_INT4_VECTOR_INTERFACE_NAME)
    as (w2 & E & Hc2 & Hb2 & Hs2); [done|by destruct Hserved1|done|].
  assert (Hq2 : quiet w1 w2) by (split_and!; [done|done|rewrite Hs2; apply extends_refl]).
  unfold wp at 1. rewrite E. cbn [fst snd].
  destruct Hrows as (Hwf & Hn & Hnw & Hclean). pose proof Hserved1 as [_ _ Hserves1].
  unfold direct_native. rewrite sv_ops0.
  destruct (PG_BATCH_ABI_HAS_FIELD _ _ && _); [|split; [done|by apply Hview]].
  destruct (call_get_native_interface o pg_batch_int4_vector_type) as [i|] eqn:Hi; [|split; [done|by apply Hview]].
  destruct (src_native_type _ _ _ _ _ Hserves1 Hi) as [Hver Hsize].
  assert (Hcompat : incompatible pg_batch_int4_vector_type i = false).
  { unfold incompatible. rewrite Hver, Z.eqb_refl. cbn [negb orb].
    by destruct (Z.ltb_spec (ni_struct_size i) (nt_min_size pg_batch_int4_vector_type)); [lia|]. }
  rewrite Hcompat. split; [done|]. apply wp_bind.
  destruct (src_native (w_source w1) k o _ c rows i Hserves1 Ha1 (Hprep c Hm) Hwf Hn Hne Hi)
    as (answer & st & Eanswer & Hext & Hans).
  rewrite <- Hs2 in Eanswer. apply (wp_in_source _ _ _ _ st Eanswer).
  assert (Hq3 : quiet w1 (set_source_state w2 st)) by (split_and!; [done|by rewrite <- Hb2|done]).
  destruct answer as [[size v]|]; [|by apply Hview].
  destruct Hans as (Hsz & Hcol & Hcells). apply wp_error_if.
  - intros Hbad. apply Z.ltb_lt in Hbad. lia.
  - intros _. apply wp_ret. exists v. split; [done|]. split; [by eapply quiet_trans|].
    split; [by rewrite Hn|]. intros row Hrow. by rewrite Hcells, Hsame.
Qed.

(** ** Properties *)

(** States a backend's cache can reach: it starts empty, lookups of any kind
    (failed ones included) change it, everything else leaves it alone. *)
Inductive cache_history : World → Prop :=
| history_start w : native_interfaces w = [] → last_native_interface w = None → cache_history w
| history_lookup w batch type :
    cache_history w → cache_history (pg_batch_get_native_interface batch type w).2
| history_other w w' : cache_history w → native_interfaces w' = native_interfaces w →
    last_native_interface w' = last_native_interface w → cache_history w'.

Lemma lookup_keeps_cache w batch type : cache_ok w → cache_ok (pg_batch_get_native_interface batch type w).2.
Proof.
  intros Hc. destruct batch as [k|], type as [type|]; try done.
  destruct (nt_name type) as [name|] eqn:Hname; [|unfold pg_batch_get_native_interface; by rewrite Hname].
  destruct (w_batches w !! k) as [bt|] eqn:Hk.
  - by destruct (native_interface_ok w k bt type name Hc Hk Hname) as (w' & -> & ? & _).
  - unfold pg_batch_get_native_interface, the_batch, gets, deref, lift, mbind, st_bind. by rewrite Hname, Hk.
Qed.

Lemma history_cache_ok w : cache_history w → cache_ok w.
Proof.
  induction 1 as [w Hl Hlast|w batch type _ IH|w w' _ IH Hl Hlast].
  - split; [rewrite Hl; constructor|by rewrite Hlast].
  - by apply lookup_keeps_cache.
  - unfold cache_ok. by rewrite Hl, Hlast.
Qed.

(** The interface cache is invisible: whatever lookups came before, and
    whatever batches and tables they were for, [pg_batch_get_native_interface]
    answers (or refuses, with the same error) exactly as asking the batch's
    operation table and checking the answer's version and size would, and
    changes nothing but the cache. *)
Theorem native_interface_cached w k bt type name :
  cache_history w → w_batches w !! k = Some bt → nt_name type = Some name →
  ∃ w', pg_batch_get_native_interface (Some k) (Some type) w = (direct_native bt type, w') ∧
    w_batches w' = w_batches w ∧ w_source w' = w_source w ∧ cache_history w'.
Proof.
  intros Hh Hk Hname.
  destruct (native_interface_ok w k bt type name (history_cache_ok w Hh) Hk Hname) as (w' & E & _ & Hb & Hs).
  exists w'. split_and!; [done|done|done|]. pose proof (history_lookup w (Some k) (Some type) Hh) as H'.
  by rewrite E in H'.
Qed.

(** C29. Reading an int4 column works for every source that keeps its
    promise and every batch with a selected row: [pg_batch_column_get_int4]
    after [pg_batch_column_access_init]
    returns a view that covers the batch, through the native interface or
    the Datum fallback, whose selected rows hold what the source's column
    holds; the source's contents and the batches are as before. *)
Theorem column_int4_spec w k bt o cols rows ph c :
  cache_history w → served w k bt o → rows_of bt rows → selected_rows rows ≠ [] →
  (∀ c', bms_is_member c' cols = true → available (w_source w) k c') → bms_is_member c cols = true →
  ∃ v w', read_int4 k cols rows ph c w = (Ok v, w') ∧ col_wf v (nrows rows) ∧
    (∀ row, row ∈ selected_rows rows → cell v row = content (w_source w) k c row) ∧
    served w' k bt o ∧ w_batches w' = w_batches w ∧
    ∀ c' row, content (w_source w') k c' row = content (w_source w) k c' row.
Proof.
  intros Hh Hserved Hrows Hne Hcols Hm.
  destruct (read_int4_ok w k bt o cols rows ph c (history_cache_ok w Hh) Hserved Hrows Hne Hcols Hm)
    as [_ (v & Er & Hq & Hwf & Hcells)].
  exists v, (read_int4 k cols rows ph c w).2. split; [by rewrite <- Er, <- surjective_pairing|].
  split; [done|]. split; [done|]. split; [by eapply quiet_served|].
  pose proof Hserved as [_ _ Hs]. destruct Hq as (_ & Hb & He). split; [done|].
  intros c' row. destruct (He _ _ _ Hs) as [_ Hcont]. by destruct (Hcont c') as [_ ->].
Qed.

Lemma materialize_loop_ok w k bt o cols rows ph fuel prev :
  cache_ok w → served w k bt o → rows_of bt rows →
  (∀ c, bms_is_member c cols = true → available (w_source w) k c) →
  (∃ l, bms_members fuel cols prev = Ok l) →
  wp (materialize_loop fuel (mkAccess (Some k) cols rows ph) cols prev) (λ r w', r = Ok tt ∧ quiet w w') w.
Proof.
  revert w prev. induction fuel as [|fuel IH]; intros w prev Hc Hserved Hrows Hcols (l & Hl);
    cbn [materialize_loop bms_members] in *; destruct (bms_next_member cols prev <? 0) eqn:Hneg;
    try (apply wp_ret; split; [done|]; by split_and!; [..|apply extends_refl]); [done|].
  apply bind_ok_inv in Hl as (rest & Hrest & _).
  assert (Hm : bms_is_member (bms_next_member cols prev) cols = true).
  { destruct (bms_next_spec cols prev) as [[E _]|(_ & Hin & _)]; [by rewrite E in Hneg|done]. }
  apply wp_bind. eapply wp_mono; [eapply get_datum_ok; try done; by apply Hcols|].
  intros r w1 (values & nulls & m & -> & Hq & _). eapply wp_mono; [apply IH|].
  - by destruct Hq.
  - by eapply quiet_served.
  - done.
  - intros c Hcm. pose proof Hserved as [_ _ Hs]. destruct Hq as (_ & _ & He).
    destruct (He _ _ _ Hs) as [_ Hcont]. apply (Hcont c). by apply Hcols.
  - by exists rest.
  - intros r w2 [-> Hq2]. split; [done|]. by eapply quiet_trans.
Qed.

Lemma materialize_ok cols : ∃ fuel0, ∀ fuel w k bt o rows ph, (fuel0 ≤ fuel)%nat →
  cache_ok w → served w k bt o → rows_of bt rows →
  (∀ c, bms_is_member c cols = true → available (w_source w) k c) →
  wp (pg_batch_materialize_columns fuel (Some k) cols (Some rows) ph) (λ r w', r = Ok tt ∧ quiet w w') w.
Proof.
  destruct (bms_members_ok cols) as [fuel0 Hfuel]. exists fuel0.
  intros fuel w k bt o rows ph Hf Hc Hserved Hrows Hcols. destruct (Hfuel fuel Hf) as (l & Hl & _).
  apply wp_bind. eapply wp_mono; [by eapply access_init_ok|]. intros r w1 (-> & Hq & _).
  eapply wp_mono; [eapply materialize_loop_ok|].
  - by destruct Hq.
  - by eapply quiet_served.
  - done.
  - intros c Hm. pose proof Hserved as [_ _ Hs]. destruct Hq as (_ & _ & He).
    destruct (He _ _ _ Hs) as [_ Hcont]. apply (Hcont c). by apply Hcols.
  - by exists l.
  - intros r' w2 [-> Hq2]. split; [done|]. by eapply quiet_trans.
Qed.
End columns.

(** ** A concrete source

    Columns of int32 values without NULLs; every other column is offered
    through the native interface, the rest as Datums only. *)

Definition sample_ops : PgBatchOps := mkOps 500 1 48 true false true false.
Definition sample_interface : PgBatchNativeInterface := mkInterface 700 1 24.

#[global] Instance reference_calls : SourceCalls := {
  src_state := list (list Z);
  call_prepare_columns _ _ _ _ _ := mret tt;
  call_get_datum_column _ _ c _ _ result st :=
    let column := default [] (st !! Z.to_nat c) in
    (Ok (mkDatumVector (dv_struct_size result) (Some (Int32GetDatum <$> column))
           (Some (replicate (length column) false)) (zlength column)), st);
  call_get_native_interface o t :=
    if String.eqb (default EmptyString (nt_name t)) PG_BATCH_INT4_VECTOR_INTERFACE_NAME &&
       (nt_abi_version t =? PG_BATCH_INT4_VECTOR_INTERFACE_VERSION) && (ops_address o =? 500)
    then Some sample_interface else None;
  call_get_int4_column _ _ c _ st :=
    let column := default [] (st !! Z.to_nat c) in
    (Ok (if Z.even c then Some (40, PG_BATCH_INT4_PACKED column None 0) else None), st);
}.

Definition reference_serves (st : list (list Z)) (k : Z) (o : PgBatchOps) (n : Z) : Prop :=
  o = sample_ops ∧ Forall (λ column, zlength column = n ∧ Forall is_s32 column) st.

Lemma reference_column st k o n c :
  reference_serves st k o n → 0 ≤ c < zlength st →
  zlength (default [] (st !! Z.to_nat c)) = n ∧ Forall is_s32 (default [] (st !! Z.to_nat c)).
Proof.
  intros [_ Hall] Hc. destruct (lookup_lt_is_Some_2 st (Z.to_nat c)) as [column Hl]; [lia|].
  rewrite Hl. by apply (Forall_lookup_1 _ _ _ _ Hall Hl).
Qed.

Lemma reference_datum_cell column row :
  Forall is_s32 column → 0 ≤ row < zlength column →
  datum_cell (Int32GetDatum <$> column) (replicate (length column) false) row = Some (zget 0 column row).
Proof.
  intros Hall Hrow. unfold datum_cell, zget. rewrite lookup_replicate_2 by lia. simpl.
  rewrite list_lookup_fmap. destruct (lookup_lt_is_Some_2 column (Z.to_nat row)) as [v Hv]; [lia|].
  rewrite Hv. simpl. rewrite Int32GetDatum_inv; [done|]. by apply (Forall_lookup_1 _ _ _ _ Hall Hv).
Qed.

#[refine] Instance reference_source : BatchSource := {
  serves := reference_serves;
  available st k c := 0 ≤ c < zlength st;
  content st k c row := Some (zget 0 (default [] (st !! Z.to_nat c)) row);
  prepared _ _ _ _ := True;
}.
Proof.
  - by intros st k o n [-> _].
  - intros st k o n cols rows ph [-> _] _ _ _ H. done.
  - done.
  - intros st k o n c rows ph result Hs Hc Hwf _ Hn _.
    destruct (reference_column st k o n c Hs Hc) as [Hl Hall].
    eexists _, _, _, st. split; [done|]. split; [by intros k' o' n' Hs'|].
    rewrite length_fmap, length_replicate. split_and!; [lia|lia|lia|].
    intros row [Hrow _]%contains_selected_rows. apply reference_datum_cell; [done|].
    by rewrite Hn, <- Hl in Hrow.
  - intros o o' t t' Ho Hn Hv. cbn. by rewrite Ho, Hn, Hv.
  - intros st k o n i [-> _] [= <-]. done.
  - intros st k o n c rows i Hs Hc _ Hwf Hn _ _. destruct (reference_column st k o n c Hs Hc) as [Hl Hall].
    eexists _, st. split; [done|]. split; [by intros k' o' n' Hs'|].
    destruct (Z.even c); [|done]. split; [done|]. split; [split_and!; (done || lia)|]. done.
Defined.

Definition sample_columns_batch : PgBatch := mkBatch 1 64 sample_selection 0 (Some sample_ops) 0 1.
Definition sample_world : World :=
  mkWorld {[ 10 := sample_columns_batch ]} [] None [seqZ 0 70; seqZ 100 70; seqZ 200 70].

Lemma sample_served : served sample_world 10 sample_columns_batch sample_ops.
Proof.
  constructor; [done|done|]. split; [done|].
  repeat (apply Forall_cons; split; [split; [done|]; apply Forall_forall; intros v Hv%elem_of_seqZ; unfold is_s32; lia|]).
  constructor.
Qed.

Lemma sample_rows_of : rows_of sample_columns_batch sample_selection.
Proof. split_and!; [exact sample_selection_wf|done|done|exact sample_selection_clean]. Qed.

(** The state after a first lookup, which fills the cache. *)
Definition sample_cached : World :=
  (pg_batch_get_native_interface (Some 10) (Some pg_batch_int4_vector_type) sample_world).2.

Lemma native_interface_cached_witness : ∃ w',
  pg_batch_get_native_interface (Some 10) (Some (mkNativeType (Some PG_BATCH_INT4_VECTOR_INTERFACE_NAME) 1 64))
    sample_cached =
    (direct_native sample_columns_batch (mkNativeType (Some PG_BATCH_INT4_VECTOR_INTERFACE_NAME) 1 64), w') ∧
  w_batches w' = w_batches sample_cached ∧ w_source w' = w_source sample_cached ∧ cache_history w'.
Proof.
  apply (native_interface_cached sample_cached 10 sample_columns_batch
    (mkNativeType (Some PG_BATCH_INT4_VECTOR_INTERFACE_NAME) 1 64) PG_BATCH_INT4_VECTOR_INTERFACE_NAME); [|done|done].
  apply history_lookup. by apply history_start.
Defined.

Lemma sample_columns_available c :
  bms_is_member c ({[ 0; 1 ]} : gset Z) = true → available (w_source sample_world) 10 c.
Proof.
  intros Hm. cbn in Hm. apply andb_true_iff in Hm as [Hpos Hin%bool_decide_eq_true_1]. bool_prop.
  cbn. set_solver by lia.
Qed.

Lemma column_int4_spec_witness : ∃ v w',
  read_int4 10 {[ 0; 1 ]} sample_selection PG_BATCH_COLUMN_PROJECT 1 sample_world = (Ok v, w') ∧
  col_wf v 70 ∧
  (∀ row, row ∈ selected_rows sample_selection → cell v row = content (w_source sample_world) 10 1 row) ∧
  served w' 10 sample_columns_batch sample_ops ∧ w_batches w' = w_batches sample_world ∧
  ∀ c' row, content (w_source w') 10 c' row = content (w_source sample_world) 10 c' row.
Proof.
  apply (column_int4_spec sample_world 10 sample_columns_batch sample_ops ({[ 0; 1 ]} : gset Z) sample_selection
    PG_BATCH_COLUMN_PROJECT 1); [by apply history_start|exact sample_served|exact sample_rows_of|done| |done].
  exact sample_columns_available.
Defined.
