(* ===== verification/Registry.v ===== *)
(** * Source and node registries ([bridge/bridge.c], [include/pg_batch/source.h],
    [node.h])

    The bridge keeps two global lists of operation tables registered by other
    extensions, looked up by name or by asking every table whether it supports
    a relation (or a path).  Callbacks are other modules' code: an answer of
    [supports_relation] or [supports_path] is a parameter of the table. *)

From S2P Require Import Prelude Words Batch.

(** [PgBatchSourceDelivery] *)
Definition PG_BATCH_SOURCE_SLOT : Z := 0.
Definition PG_BATCH_SOURCE_PULL : Z := 1.

Section registry.
(** Relations and paths are PostgreSQL's. *)
Context {Relation Path : Type}.

Record PgBatchSourceOps : Type := mkSource {
  src_address : Z;
  src_abi_version : Z;
  src_struct_size : Z;
  source_name : option string;
  delivery : Z;
  supports_relation : option (Relation → bool);
  has_plan_scan : bool;
  has_begin_scan : bool;
  has_rescan : bool;
  has_end_scan : bool;
  has_next_batch : bool;
}.

Definition PG_BATCH_SOURCE_OPS_ABI_VERSION : Z := 1.
Definition PG_BATCH_SOURCE_OPS_MIN_SIZE : Z := 72.
Definition SOURCE_THROUGH_NEXT_BATCH : Z := 80.

Record PgBatchNodeOps : Type := mkNode {
  node_address : Z;
  node_abi_version : Z;
  node_struct_size : Z;
  node_name : option string;
  supports_path : option (Path → bool);
  has_get_layout : bool;
  has_get_request_binding : bool;
}.

Definition PG_BATCH_NODE_OPS_ABI_VERSION : Z := 1.
Definition PG_BATCH_NODE_OPS_MIN_SIZE : Z := 48.

Definition is_null {A} (o : option A) : bool := match o with None => true | Some _ => false end.

(** [name == NULL || name[0] == '\0'] *)
Definition no_name (name : option string) : bool :=
  match name with None => true | Some s => bool_decide (s = ""%string) end.

(** [strcmp(existing->name, name) == 0]; the names in the lists are not
    [NULL]. *)
Definition same_name (existing : option string) (name : string) : res bool :=
  match existing with None => Undefined | Some s => Ok (bool_decide (s = name)) end.

(** ** Sources *)

(** The loop over the registered sources: [true] when this very table is
    registered already. *)
Fixpoint source_registered (address : Z) (name : string) (sources : list PgBatchSourceOps) : res bool :=
  match sources with
  | [] => Ok false
  | existing :: rest =>
      same ← same_name (source_name existing) name;
      if (same : bool) then
        if src_address existing =? address then Ok true
        else Raise (Elog "pg_batch source is already registered")
      else source_registered address name rest
  end.

Definition register_source (source : option PgBatchSourceOps) (sources : list PgBatchSourceOps)
    : res (list PgBatchSourceOps) :=
  match source with
  | None => Raise (Elog "pg_batch cannot register a null source")
  | Some source =>
      _ ← validate_abi (src_abi_version source) (src_struct_size source)
            PG_BATCH_SOURCE_OPS_ABI_VERSION PG_BATCH_SOURCE_OPS_MIN_SIZE;
      _ ← raise_if (no_name (source_name source)) (Elog "pg_batch source must have a name");
      _ ← raise_if (negb (delivery source =? PG_BATCH_SOURCE_SLOT) &&
                    negb (delivery source =? PG_BATCH_SOURCE_PULL))
            (Elog "pg_batch source has an invalid delivery mode");
      _ ← raise_if (is_null (supports_relation source) || negb (has_plan_scan source) ||
                    negb (has_begin_scan source) || negb (has_rescan source) ||
                    negb (has_end_scan source))
            (Elog "pg_batch source has incomplete operations");
      _ ← raise_if ((delivery source =? PG_BATCH_SOURCE_PULL) &&
                    (negb (PG_BATCH_ABI_HAS_FIELD (src_struct_size source) SOURCE_THROUGH_NEXT_BATCH) ||
                     negb (has_next_batch source)))
            (Elog "pg_batch pull source has no next operation");
      match source_name source with
      | None => Undefined
      | Some name =>
          registered ← source_registered (src_address source) name sources;
          Ok (if (registered : bool) then sources else sources ++ [source])
      end
  end.

Fixpoint unregister_source (name : string) (sources : list PgBatchSourceOps)
    : res (list PgBatchSourceOps) :=
  match sources with
  | [] => Ok []
  | source :: rest =>
      same ← same_name (source_name source) name;
      if (same : bool) then Ok rest
      else rest' ← unregister_source name rest; Ok (source :: rest')
  end.

Fixpoint find_source_loop (relation : Relation) (result : option PgBatchSourceOps)
    (sources : list PgBatchSourceOps) : res (option PgBatchSourceOps) :=
  match sources with
  | [] => Ok result
  | source :: rest =>
      match supports_relation source with
      | None => Undefined
      | Some supports =>
          if negb (supports relation) then find_source_loop relation result rest
          else match result with
               | Some _ => Raise DuplicateObject
               | None => find_source_loop relation (Some source) rest
               end
      end
  end.
Definition find_source (relation : Relation) (sources : list PgBatchSourceOps)
    : res (option PgBatchSourceOps) := find_source_loop relation None sources.

Fixpoint get_source (name : string) (sources : list PgBatchSourceOps) : res (option PgBatchSourceOps) :=
  match sources with
  | [] => Ok None
  | source :: rest =>
      same ← same_name (source_name source) name;
      if (same : bool) then Ok (Some source) else get_source name rest
  end.

(** ** Nodes *)

Fixpoint node_registered (address : Z) (name : string) (nodes : list PgBatchNodeOps) : res bool :=
  match nodes with
  | [] => Ok false
  | existing :: rest =>
      same ← same_name (node_name existing) name;
      if (same : bool) then
        if node_address existing =? address then Ok true
        else Raise (Elog "pg_batch node is already registered")
      else node_registered address name rest
  end.

Definition register_node (node : option PgBatchNodeOps) (nodes : list PgBatchNodeOps)
    : res (list PgBatchNodeOps) :=
  match node with
  | None => Raise (Elog "pg_batch cannot register a null node")
  | Some node =>
      _ ← validate_abi (node_abi_version node) (node_struct_size node)
            PG_BATCH_NODE_OPS_ABI_VERSION PG_BATCH_NODE_OPS_MIN_SIZE;
      _ ← raise_if (no_name (node_name node) || is_null (supports_path node) ||
                    negb (has_get_layout node) || negb (has_get_request_binding node))
            (Elog "invalid pg_batch node registration");
      match node_name node with
      | None => Undefined
      | Some name =>
          registered ← node_registered (node_address node) name nodes;
          Ok (if (registered : bool) then nodes else nodes ++ [node])
      end
  end.

Fixpoint get_node (name : string) (nodes : list PgBatchNodeOps) : res (option PgBatchNodeOps) :=
  match nodes with
  | [] => Ok None
  | node :: rest =>
      same ← same_name (node_name node) name;
      if (same : bool) then Ok (Some node) else get_node name rest
  end.

(** [list_delete_ptr] removes the first cell that holds the pointer. *)
Fixpoint list_delete_ptr (address : Z) (nodes : list PgBatchNodeOps) : list PgBatchNodeOps :=
  match nodes with
  | [] => []
  | node :: rest => if node_address node =? address then rest else node :: list_delete_ptr address rest
  end.

Definition unregister_node (name : string) (nodes : list PgBatchNodeOps) : res (list PgBatchNodeOps) :=
  node ← get_node name nodes;
  Ok (match node with None => nodes | Some node => list_delete_ptr (node_address node) nodes end).

Fixpoint find_node_loop (path : Path) (result : option PgBatchNodeOps)
    (nodes : list PgBatchNodeOps) : res (option PgBatchNodeOps) :=
  match nodes with
  | [] => Ok result
  | node :: rest =>
      match supports_path node with
      | None => Undefined
      | Some supports =>
          if negb (supports path) then find_node_loop path result rest
          else match result with
               | Some _ => Raise DuplicateObject
               | None => find_node_loop path (Some node) rest
               end
      end
  end.
Definition find_node (path : Path) (nodes : list PgBatchNodeOps) : res (option PgBatchNodeOps) :=
  find_node_loop path None nodes.

(** ** The registry of sources as a map from names *)

Definition complete_source (s : PgBatchSourceOps) : Prop :=
  is_Some (source_name s) ∧ is_Some (supports_relation s).

(** Names are unique and every table is complete. *)
Definition sources_ok (sources : list PgBatchSourceOps) : Prop :=
  NoDup (source_name <$> sources) ∧ Forall complete_source sources.

(** The source a name stands for. *)
Definition named (sources : list PgBatchSourceOps) (name : string) : option PgBatchSourceOps :=
  head (filter (λ s, source_name s = Some name) sources).

Definition supports (relation : Relation) (s : PgBatchSourceOps) : bool :=
  match supports_relation s with Some f => f relation | None => false end.
Definition supporters (relation : Relation) (sources : list PgBatchSourceOps) : list PgBatchSourceOps :=
  filter (λ s, supports relation s = true) sources.

Lemma named_cons s rest name :
  named (s :: rest) name = if decide (source_name s = Some name) then Some s else named rest name.
Proof. unfold named. rewrite filter_cons. by case_decide. Qed.

Lemma named_app l1 l2 name :
  named (l1 ++ l2) name = match named l1 name with Some s => Some s | None => named l2 name end.
Proof.
  induction l1 as [|s l1 IH]; [done|]. cbn [app]. rewrite !named_cons, IH. by case_decide.
Qed.

Lemma named_Some sources name s :
  named sources name = Some s → s ∈ sources ∧ source_name s = Some name.
Proof.
  induction sources as [|x l IH]; [done|]. rewrite named_cons. case_decide.
  - intros [= <-]. split; [by left|done].
  - intros Hs. destruct (IH Hs). split; [by right|done].
Qed.

Lemma named_None sources name :
  named sources name = None ↔ Some name ∉ (source_name <$> sources).
Proof.
  induction sources as [|x l IH]; [set_solver|]. rewrite named_cons, fmap_cons, not_elem_of_cons.
  case_decide; [split; [done|intros [? _]; congruence]|]. rewrite IH. naive_solver.
Qed.

Lemma same_name_ok s name : complete_source s →
  same_name (source_name s) name = Ok (bool_decide (source_name s = Some name)).
Proof.
  intros [[n Hn] _]. rewrite Hn. simpl. f_equal. apply bool_decide_ext. naive_solver.
Qed.

Lemma get_source_named sources name :
  Forall complete_source sources → get_source name sources = Ok (named sources name).
Proof.
  induction 1 as [|s rest Hs _ IH]; [done|]. simpl. rewrite same_name_ok, bind_Ok, named_cons by done.
  case_bool_decide; case_decide; try done.
Qed.

Lemma source_registered_named address name sources :
  Forall complete_source sources →
  source_registered address name sources =
    match named sources name with
    | None => Ok false
    | Some s => if src_address s =? address then Ok true
                else Raise (Elog "pg_batch source is already registered")
    end.
Proof.
  induction 1 as [|s rest Hs _ IH]; [done|]. simpl. rewrite same_name_ok, bind_Ok, named_cons by done.
  case_bool_decide; case_decide; try done.
Qed.

(** A table that passes the checks of [register_source]. *)
Definition acceptable (s : PgBatchSourceOps) : bool :=
  (src_abi_version s =? PG_BATCH_SOURCE_OPS_ABI_VERSION) &&
  (PG_BATCH_SOURCE_OPS_MIN_SIZE <=? src_struct_size s) && negb (no_name (source_name s)) &&
  ((delivery s =? PG_BATCH_SOURCE_SLOT) || (delivery s =? PG_BATCH_SOURCE_PULL)) &&
  negb (is_null (supports_relation s)) && has_plan_scan s && has_begin_scan s && has_rescan s &&
  has_end_scan s &&
  (negb (delivery s =? PG_BATCH_SOURCE_PULL) ||
   (PG_BATCH_ABI_HAS_FIELD (src_struct_size s) SOURCE_THROUGH_NEXT_BATCH && has_next_batch s)).

Lemma acceptable_complete s : acceptable s = true → complete_source s.
Proof.
  unfold acceptable. intros H. bool_prop. split.
  - destruct (source_name s); [eauto|done].
  - destruct (supports_relation s); [eauto|done].
Qed.

Lemma register_acceptable s sources :
  Forall complete_source sources → acceptable s = true →
  ∃ name, source_name s = Some name ∧
    register_source (Some s) sources =
      match named sources name with
      | None => Ok (sources ++ [s])
      | Some s' => if src_address s' =? src_address s then Ok sources
                   else Raise (Elog "pg_batch source is already registered")
      end.
Proof.
  intros Hall H. pose proof (acceptable_complete s H) as [[name Hn] _]. exists name. split; [done|].
  unfold acceptable in H. rewrite !andb_true_iff in H.
  destruct H as [[[[[[[[[H1 H2] H3] H4] H5] H6] H7] H8] H9] H10].
  unfold register_source, validate_abi. rewrite H1, H6, H7, H8, H9. apply Z.leb_le in H2.
  destruct (Z.ltb_spec (src_struct_size s) PG_BATCH_SOURCE_OPS_MIN_SIZE); [lia|].
  apply negb_true_iff in H3, H5. rewrite H3, H5. cbn [negb orb raise_if]. rewrite !bind_Ok.
  destruct (delivery s =? PG_BATCH_SOURCE_SLOT) eqn:Hslot, (delivery s =? PG_BATCH_SOURCE_PULL) eqn:Hpull;
    simpl in H4, H10 |- *; try done.
  all: try (apply andb_true_iff in H10 as [-> ->]; simpl).
  all: rewrite Hn, source_registered_named by done;
    destruct (named sources name) as [s'|]; [|done]; by destruct (src_address s' =? src_address s).
Qed.

Lemma register_unacceptable s sources :
  acceptable s = false → ∃ e, register_source (Some s) sources = Raise e.
Proof.
  unfold acceptable, register_source, validate_abi. intros H.
  destruct (src_abi_version s =? PG_BATCH_SOURCE_OPS_ABI_VERSION); simpl in *; [|eauto].
  rewrite Z.leb_antisym in H.
  destruct (src_struct_size s <? PG_BATCH_SOURCE_OPS_MIN_SIZE); simpl in *; [eauto|].
  destruct (no_name (source_name s)); simpl in *; [eauto|].
  destruct (delivery s =? PG_BATCH_SOURCE_SLOT), (delivery s =? PG_BATCH_SOURCE_PULL); simpl in *;
    destruct (is_null (supports_relation s)), (has_plan_scan s), (has_begin_scan s), (has_rescan s),
      (has_end_scan s); simpl in *; try done; eauto;
    destruct (PG_BATCH_ABI_HAS_FIELD _ _), (has_next_batch s); simpl in *; try done; eauto.
Qed.

Lemma unregister_source_ok name sources :
  sources_ok sources →
  ∃ sources', unregister_source name sources = Ok sources' ∧ sources_ok sources' ∧
    (sources' ⊆ sources) ∧
    ∀ other, named sources' other = if decide (other = name) then None else named sources other.
Proof.
  intros [Hnd Hall]. induction Hall as [|s rest Hs Hall IH].
  - exists []. split_and!; try done. intros. by case_decide.
  - rewrite fmap_cons in Hnd. apply NoDup_cons in Hnd as [Hni Hnd]. simpl.
    rewrite same_name_ok, bind_Ok by done. case_bool_decide as Hn.
    + exists rest. split_and!; try done; try set_solver. intros other. rewrite named_cons.
      case_decide as Ho; [subst; apply named_None; by rewrite <- Hn|].
      case_decide; [congruence|done].
    + destruct (IH Hnd) as (rest' & -> & [Hnd' Hall'] & Hsub & Hnamed).
      exists (s :: rest'). split_and!; try done.
      * split; [|by constructor]. rewrite fmap_cons. apply NoDup_cons. split; [|done].
        intros Hin. apply Hni. apply list_elem_of_fmap in Hin as (y & Hy & Hy').
        apply list_elem_of_fmap. exists y. split; [done|by apply Hsub].
      * set_solver.
      * intros other. rewrite !named_cons, Hnamed. repeat case_decide; congruence.
Qed.

Lemma find_source_loop_spec relation sources : ∀ result,
  Forall complete_source sources →
  find_source_loop relation result sources =
    match result, supporters relation sources with
    | _, [] => Ok result
    | None, [s] => Ok (Some s)
    | _, _ => Raise DuplicateObject
    end.
Proof.
  induction sources as [|s rest IH]; intros result Hall; [by destruct result|].
  apply Forall_cons in Hall as [[_ [f Hf]] Hall]. simpl. unfold supporters, supports in *.
  rewrite filter_cons, Hf. destruct (f relation) eqn:E; simpl.
  - destruct result; [done|]. rewrite IH by done.
    by destruct (filter _ rest).
  - apply IH. done.
Qed.

(** ** Properties *)

Inductive registry_op : Type :=
| RegisterSource (source : option PgBatchSourceOps)
| UnregisterSource (name : string).

(** A registration that raises leaves the list alone. *)
Definition registry_step (sources : list PgBatchSourceOps) (op : registry_op) : list PgBatchSourceOps :=
  match (match op with
         | RegisterSource s => register_source s sources
         | UnregisterSource name => unregister_source name sources
         end) with
  | Ok sources' => sources'
  | _ => sources
  end.

Lemma registry_step_ok sources op : sources_ok sources → sources_ok (registry_step sources op).
Proof.
  intros Hs. destruct op as [[s|]|name]; simpl.
  - destruct (acceptable s) eqn:Ha.
    + destruct (register_acceptable s sources (proj2 Hs) Ha) as (name & Hn & E).
      unfold registry_step. rewrite E. destruct (named sources name) as [s'|] eqn:Hnm.
      { by destruct (_ =? _). }
      destruct Hs as [Hnd Hall]. split.
      * rewrite fmap_app. apply NoDup_app. split; [done|]. split; [|by apply NoDup_singleton].
        intros x Hx Hx'. apply named_None in Hnm. apply list_elem_of_singleton in Hx'. congruence.
      * apply Forall_app_2; [done|]. constructor; [|done]. by apply acceptable_complete.
    + unfold registry_step. destruct (register_unacceptable s sources Ha) as [e ->]. done.
  - done.
  - unfold registry_step. destruct (unregister_source_ok name sources Hs) as (s' & -> & Hs' & _). done.
Qed.

(** C38. The source registry is a map from names to operation tables: after
    any sequence of registrations and unregistrations, refused ones included,
    names are unique, [get_source] finds the table registered under a name,
    [register_source] adds exactly that entry, is idempotent for the same
    table and refuses a second table of the same name,
    [unregister_source] removes exactly that entry, and nothing is undefined. *)
Theorem registry_spec history name :
  let sources := foldl registry_step [] history in
  NoDup (source_name <$> sources) ∧
  get_source name sources = Ok (named sources name) ∧
  (∀ s, source_name s = Some name → acceptable s = true →
    match named sources name with
    | None => ∃ sources', register_source (Some s) sources = Ok sources' ∧
        ∀ other, named sources' other = if decide (other = name) then Some s else named sources other
    | Some s' => register_source (Some s) sources =
        if src_address s' =? src_address s then Ok sources
        else Raise (Elog "pg_batch source is already registered")
    end) ∧
  (∀ s, acceptable s = false → ∃ e, register_source (Some s) sources = Raise e) ∧
  ∃ sources', unregister_source name sources = Ok sources' ∧
    ∀ other, named sources' other = if decide (other = name) then None else named sources other.
Proof.
  intros sources. assert (Hs : sources_ok sources).
  { unfold sources. cut (∀ l, sources_ok l → sources_ok (foldl registry_step l history)).
    { intros H. apply H. split; constructor. }
    induction history as [|op ops IH]; intros l Hl; simpl; [done|]. by apply IH, registry_step_ok. }
  split_and!.
  - apply Hs.
  - apply get_source_named, Hs.
  - intros s Hn Ha. destruct (register_acceptable s sources (proj2 Hs) Ha) as (name' & Hn' & E).
    assert (name' = name) as -> by congruence. rewrite E.
    destruct (named sources name) as [s'|] eqn:Hnm; [done|]. eexists; split; [done|].
    intros other. rewrite named_app. case_decide as Ho.
    + subst. rewrite Hnm, named_cons. by rewrite decide_True.
    + destruct (named sources other); [done|]. rewrite named_cons. rewrite decide_False; [done|congruence].
  - intros s Ha. by apply register_unacceptable.
  - destruct (unregister_source_ok name sources Hs) as (s' & E & _ & _ & Hn). eauto.
Qed.

(** [find_source] never picks one of several: it returns the sole
    registered source that claims the relation, nothing when there is none,
    and raises "duplicate object" when two or more claim it. *)
Theorem find_source_spec history relation :
  let sources := foldl registry_step [] history in
  find_source relation sources =
    match supporters relation sources with
    | [] => Ok None
    | [s] => Ok (Some s)
    | _ => Raise DuplicateObject
    end.
Proof.
  intros sources. unfold find_source. rewrite find_source_loop_spec; [by destruct (supporters _ _)|].
  unfold sources. cut (∀ l, sources_ok l → sources_ok (foldl registry_step l history)).
  { intros H. apply H. split; constructor. }
  induction history as [|op ops IH]; intros l Hl; simpl; [done|]. by apply IH, registry_step_ok.
Qed.
End registry.
