(* ===== verification/Bridge.v ===== *)
(** * The bridge ([bridge/bridge.c]): slot bindings and batch lifecycle

    A consumer attaches a binding with a request to a tuple slot; a source
    finds the binding, reads the request and publishes batches on it.  The
    state is the bridge's globals together with the objects its pointers reach:
    bindings and batches are stores indexed by address, so that a batch held by
    a binding and by a row view is one object.  Callbacks into other modules
    are recorded as events; they do not change the bridge's state.

    Operations that allocate take [memory], which says of each allocation, by
    its number in the operation, whether the allocator grants it; one that it
    refuses raises an error and leaves the state as it is at that point. *)

From S2P Require Import Prelude Words Selection Bitmaps Batch.

(** [PgBatchOutputMode] *)
Definition PG_BATCH_OUTPUT_ROWS : Z := 0.
Definition PG_BATCH_OUTPUT_BATCH : Z := 1.

(** A slot and the memory context that owns it. *)
Record TupleTableSlot : Type := mkSlot { slot_address : Z; tts_mcxt : Z }.

Inductive bridge_event : Type :=
| AcceptBatch (consumer_state slot batch : Z)
| SelectRow (consumer_state slot batch row : Z)
| Release (batch : Z).

Record PgBatchRowView : Type := mkView {
  view_struct_size : Z;
  view_slot : Z;
  view_batch : option Z;
  view_generation : Z;
  view_consumer_state : Z;
  view_select_row : bool;
}.
Definition PG_BATCH_ROW_VIEW_MIN_SIZE : Z := 48.

Section bridge.
Context `{PgCore} `{Bitmapsets}.

Record PgBatchRequestSpec : Type := mkSpec {
  spec_struct_size : Z;
  filter_columns : Bitmapset;
  project_columns : Bitmapset;
  output_mode : Z;
  max_rows : Z;
}.
Definition PG_BATCH_REQUEST_SPEC_MIN_SIZE : Z := 32.
Definition sizeof_PgBatchRequestSpec : Z := 32.
Definition sizeof_PgBatchLayout : Z := 24.

Record PgBatchBinding : Type := mkBinding {
  slot : Z;
  owner : Z;
  request : PgBatchRequestSpec;
  layout : option PgBatchLayout;
  consumer_ops : option PgBatchConsumerOps;
  consumer_state : Z;
  source_name : option string;
  source_state : Z;
  batch : option Z;
  (** The address of the last operation table that passed validation. *)
  validated_ops : option Z;
  request_sealed : bool;
  finished : bool;
}.

Definition set_request_spec (b : PgBatchBinding) r := mkBinding (slot b) (owner b) r (layout b) (consumer_ops b)
  (consumer_state b) (source_name b) (source_state b) (batch b) (validated_ops b) (request_sealed b) (finished b).
Definition set_bound_source (b : PgBatchBinding) n s := mkBinding (slot b) (owner b) (request b) (layout b)
  (consumer_ops b) (consumer_state b) n s (batch b) (validated_ops b) (request_sealed b) (finished b).
Definition set_batch (b : PgBatchBinding) k fin := mkBinding (slot b) (owner b) (request b) (layout b)
  (consumer_ops b) (consumer_state b) (source_name b) (source_state b) k (validated_ops b) (request_sealed b) fin.
Definition set_validated (b : PgBatchBinding) o := mkBinding (slot b) (owner b) (request b) (layout b)
  (consumer_ops b) (consumer_state b) (source_name b) (source_state b) (batch b) o (request_sealed b) (finished b).
Definition set_sealed (b : PgBatchBinding) := mkBinding (slot b) (owner b) (request b) (layout b)
  (consumer_ops b) (consumer_state b) (source_name b) (source_state b) (batch b) (validated_ops b) true (finished b).

Definition bind_layout (b : PgBatchBinding) l := mkBinding (slot b) (owner b) (request b) l (consumer_ops b)
  (consumer_state b) (source_name b) (source_state b) (batch b) (validated_ops b) (request_sealed b) (finished b).
Definition bind_consumer (b : PgBatchBinding) r o s := mkBinding (slot b) (owner b) r (layout b) o
  s (source_name b) (source_state b) (batch b) (validated_ops b) (request_sealed b) (finished b).

Record Bridge : Type := mkBridge {
  (** [slot_entries] is [NULL] until the first attachment.  An entry holds a
      binding, or nothing yet: [HASH_ENTER] leaves its pointer uninitialised. *)
  slot_entries : option (gmap Z (option Z));
  bindings : gmap Z PgBatchBinding;
  batches : gmap Z PgBatch;
  (** Reset callbacks registered with memory contexts: context and binding. *)
  callbacks : list (Z * Z);
  next_batch_generation : Z;
  events : list bridge_event;
}.

Definition with_slots (w : Bridge) t := mkBridge t (bindings w) (batches w) (callbacks w) (next_batch_generation w) (events w).
Definition with_bindings (w : Bridge) t := mkBridge (slot_entries w) t (batches w) (callbacks w) (next_batch_generation w) (events w).
Definition with_batches (w : Bridge) t := mkBridge (slot_entries w) (bindings w) t (callbacks w) (next_batch_generation w) (events w).
Definition with_callbacks (w : Bridge) t := mkBridge (slot_entries w) (bindings w) (batches w) t (next_batch_generation w) (events w).
Definition with_generation (w : Bridge) t := mkBridge (slot_entries w) (bindings w) (batches w) (callbacks w) t (events w).
Definition with_event (w : Bridge) e := mkBridge (slot_entries w) (bindings w) (batches w) (callbacks w)
  (next_batch_generation w) (events w ++ [e]).

Definition M : Type → Type := ST Bridge.
Definition error (msg : string) : M unit := lift (Raise (Elog msg)).
Definition elog_if (b : bool) (msg : string) : M unit := error_if b (Elog msg).
Definition emit (e : bridge_event) : M unit := modify (λ w, with_event w e).

(** [binding->...] and [batch->...] *)
Definition binding_at (b : Z) : M PgBatchBinding :=
  o ← gets (λ w, bindings w !! b); deref o.
Definition update_binding (b : Z) (f : PgBatchBinding → PgBatchBinding) : M unit :=
  bd ← binding_at b; modify (λ w, with_bindings w (<[b := f bd]> (bindings w))).
Definition batch_at (k : Z) : M PgBatch :=
  o ← gets (λ w, batches w !! k); deref o.
Definition update_batch (k : Z) (f : PgBatch → PgBatch) : M unit :=
  bt ← batch_at k; modify (λ w, with_batches w (<[k := f bt]> (batches w))).

(** What an allocation that is refused raises. *)
Definition out_of_memory : pg_error := Elog "out of memory".
Definition allocate (granted : bool) : M unit := error_if (negb granted) out_of_memory.

Definition init_slots (granted : bool) : M unit :=
  entries ← gets slot_entries;
  match entries with
  | Some _ => mret tt
  | None => _ ← allocate granted; modify (λ w, with_slots w (Some ∅))
  end.

(** The table behind [slot_entries], as [hash_search] dereferences it. *)
Definition slot_table : M (gmap Z (option Z)) := o ← gets slot_entries; deref o.
Definition update_slots (f : gmap Z (option Z) → gmap Z (option Z)) : M unit :=
  table ← slot_table; modify (λ w, with_slots w (Some (f table))).

Definition release_batch (b : Z) : M unit :=
  bd ← binding_at b;
  match batch bd with
  | None => mret tt
  | Some k =>
      _ ← update_binding b (λ bd, set_batch bd None false);
      _ ← update_batch k (λ bt, set_generation bt 0);
      bt ← batch_at k;
      o ← deref (ops bt);
      if PG_BATCH_ABI_HAS_FIELD (ops_struct_size o) OPS_THROUGH_RELEASE && has_release o
      then emit (Release k) else mret tt
  end.

(** The callback of the slot's memory context. *)
Definition slot_reset (b : Z) : M unit :=
  bd ← binding_at b;
  entries ← gets slot_entries;
  match entries with
  | None => mret tt
  | Some table =>
      match table !! slot bd with
      | None => mret tt
      | Some _ => modify (λ w, with_slots w (Some (delete (slot bd) table)))
      end
  end.

Definition find_binding (s : Z) : M (option Z) :=
  entries ← gets slot_entries;
  match entries with
  | None => mret None
  | Some table =>
      match table !! s with
      | None => mret None
      | Some binding => b ← deref binding; mret (Some b)
      end
  end.

(** The allocations: 0 the slot table, 1 the entry, 2 the zeroed binding, 3 its
    layout, 4 the copy of the target map.  The entry is in the table from 1 on
    and points to the binding from 2 on; a later allocation that is refused
    takes neither back. *)
Definition attach_slot (memory : nat → bool) (s : option TupleTableSlot) (l : option PgBatchLayout)
    (cops : option PgBatchConsumerOps) (cstate : Z) : M Z :=
  match s with
  | None => lift (Raise (Elog "invalid pg_batch slot configuration"))
  | Some s =>
      _ ← lift (pg_batch_check_layout l);
      l ← deref l;
      match cops with
      | None => lift (Raise (Elog "pg_batch slot requires consumer operations"))
      | Some cops =>
          _ ← lift (validate_abi (consumer_abi_version cops) (consumer_struct_size cops)
                      PG_BATCH_CONSUMER_OPS_ABI_VERSION PG_BATCH_CONSUMER_OPS_MIN_SIZE);
          _ ← elog_if (negb (has_accept_batch cops) || negb (has_select_row cops))
                "pg_batch slot requires consumer operations";
          _ ← init_slots (memory 0%nat);
          table ← slot_table;
          _ ← elog_if (match table !! slot_address s with Some _ => true | None => false end)
                "pg_batch slot is already configured";
          _ ← allocate (memory 1%nat);
          _ ← update_slots (<[slot_address s := None]>);
          _ ← allocate (memory 2%nat);
          b ← gets (λ w, fresh (dom (bindings w)));
          let zeroed := mkBinding (slot_address s) (tts_mcxt s) (mkSpec 0 bms_null bms_null 0 0) None None
                          0 None 0 None None false false in
          _ ← modify (λ w, with_bindings w (<[b := zeroed]> (bindings w)));
          _ ← update_slots (<[slot_address s := Some b]>);
          _ ← allocate (memory 3%nat);
          let copy := mkLayout sizeof_PgBatchLayout (layout_ncolumns l) (layout_ntargets l) (target_columns l) in
          _ ← update_binding b (λ bd, bind_layout bd (Some copy));
          _ ← (match target_columns l with
               | None => mret tt
               | Some _ => _ ← lift (check_alloc (4 * layout_ntargets l)); allocate (memory 4%nat)
               end);
          let spec := mkSpec sizeof_PgBatchRequestSpec bms_null bms_null PG_BATCH_OUTPUT_ROWS 0 in
          _ ← update_binding b (λ bd, bind_consumer bd spec (Some cops) cstate);
          _ ← modify (λ w, with_callbacks w ((tts_mcxt s, b) :: callbacks w));
          mret b
      end
  end.

(** [bms_copy] and [bms_free] leave no trace here: sets are values.  The copy
    of an empty set is [NULL] and takes no memory. *)
Definition set_request (memory : nat → bool) (binding : option Z) (spec : option PgBatchRequestSpec) : M unit :=
  match binding, spec with
  | Some b, Some spec =>
      _ ← elog_if (spec_struct_size spec <? PG_BATCH_REQUEST_SPEC_MIN_SIZE)
            "pg_batch received an invalid request specification";
      bd ← binding_at b;
      _ ← elog_if (request_sealed bd) "pg_batch request is already sealed";
      _ ← elog_if (max_rows spec <? 0) "pg_batch maximum row count cannot be negative";
      _ ← elog_if (negb (output_mode spec =? PG_BATCH_OUTPUT_ROWS) &&
                   negb (output_mode spec =? PG_BATCH_OUTPUT_BATCH))
            "pg_batch request has an invalid output mode";
      l ← deref (layout bd);
      _ ← elog_if (0 <=? bms_next_member (filter_columns spec) (layout_ncolumns l - 1))
            "pg_batch filter column is out of range";
      _ ← elog_if (0 <=? bms_next_member (project_columns spec) (layout_ncolumns l - 1))
            "pg_batch project column is out of range";
      _ ← allocate (bms_is_empty (filter_columns spec) || memory 0%nat);
      _ ← allocate (bms_is_empty (project_columns spec) || memory 1%nat);
      update_binding b (λ bd, set_request_spec bd
        (mkSpec (spec_struct_size (request bd)) (filter_columns spec) (project_columns spec)
           (output_mode spec) (max_rows spec)))
  | _, _ => error "pg_batch received an invalid request specification"
  end.

Definition set_source (binding : option Z) (name : option string) (state : Z) : M unit :=
  match binding with
  | None => error "pg_batch cannot configure a null binding"
  | Some b => update_binding b (λ bd, set_bound_source bd name state)
  end.

(** The source state and name; [NULL] is 0. *)
Definition get_bound_source (binding : option Z) : M (Z * option string) :=
  match binding with
  | None => mret (0, None)
  | Some b => bd ← binding_at b; mret (source_state bd, source_name bd)
  end.

Definition get_request (binding : option Z) : M (option PgBatchRequestSpec) :=
  match binding with
  | None => mret None
  | Some b => bd ← binding_at b; mret (Some (request bd))
  end.

Definition seal_request (binding : option Z) : M (option PgBatchRequestSpec) :=
  match binding with
  | None => mret None
  | Some b => _ ← update_binding b set_sealed; get_request (Some b)
  end.

(** [next_batch_generation++] *)
Definition take_generation : M Z :=
  g ← gets next_batch_generation;
  _ ← modify (λ w, with_generation w ((g + 1) mod 2 ^ 64));
  mret g.

(** The bits of the last word at and beyond [nrows]. *)
Definition selected_beyond_end (s : PgBatchSelection) : res bool :=
  if nrows s mod 64 =? 0 then Ok false
  else
    w ← aref (words s) (nwords s - 1);
    Ok (negb (Z.land w (shl64 UINT64_MAX (nrows s mod 64)) =? 0)).

Definition publish_batch (b : Z) (new : option Z) : M unit :=
  bd ← binding_at b;
  _ ← elog_if (match batch bd with Some _ => true | None => false end)
        "pg_batch source published a new batch before clearing the previous one";
  match new with
  | None => error "pg_batch source published an invalid batch"
  | Some k =>
      bt ← batch_at k;
      _ ← lift (validate_abi (abi_version bt) (struct_size bt) PG_BATCH_ABI_VERSION PG_BATCH_MIN_SIZE);
      let sel := selection bt in
      _ ← elog_if (match ops bt with None => true | Some _ => false end ||
                   match words sel with [] => true | _ => false end ||
                   (nrows sel <=? 0) || negb (nwords sel =? (nrows sel + 63) / 64))
            "pg_batch source published an invalid batch";
      _ ← elog_if (negb (generation bt =? 0))
            "pg_batch source published a batch that is already active";
      _ ← elog_if ((0 <? max_rows (request bd)) && (max_rows (request bd) <? nrows sel))
            "pg_batch source exceeded the requested batch size";
      beyond ← lift (selected_beyond_end sel);
      _ ← elog_if beyond "pg_batch source selected rows beyond the end of its batch";
      o ← deref (ops bt);
      _ ← (if bool_decide (validated_ops bd = Some (ops_address o)) then mret tt
           else
             _ ← lift (validate_abi (ops_abi_version o) (ops_struct_size o)
                         PG_BATCH_OPS_ABI_VERSION PG_BATCH_OPS_MIN_SIZE);
             _ ← elog_if (negb (has_get_datum_column o))
                   "pg_batch source must provide Datum materialization";
             update_binding b (λ bd, set_validated bd (Some (ops_address o))));
      _ ← update_binding b set_sealed;
      g ← take_generation;
      g ← (if g =? 0 then
             g ← take_generation;
             _ ← elog_if (g =? 0) "pg_batch generation counter wrapped around";
             mret g
           else mret g);
      _ ← update_batch k (λ bt, set_generation bt g);
      _ ← update_binding b (λ bd, set_batch bd (Some k) false);
      _ ← deref (consumer_ops bd);
      emit (AcceptBatch (consumer_state bd) (slot bd) k)
  end.

Definition get_batch (binding : option Z) : M (option Z) :=
  match binding with
  | None => mret None
  | Some b => bd ← binding_at b; mret (batch bd)
  end.

(** The row tests of [select_row] and [pg_batch_row_view_select], short
    circuit included. *)
Definition row_selected (bt : PgBatch) (row : Z) : res bool :=
  if (row <? 0) || (nrows (selection bt) <=? row) then Ok false
  else pg_batch_selection_contains (selection bt) row.

Definition select_row (b row : Z) : M unit :=
  bd ← binding_at b;
  match batch bd with
  | None => error "pg_batch cannot select row"
  | Some k =>
      _ ← elog_if (finished bd) "pg_batch cannot select row";
      bt ← batch_at k;
      ok ← lift (row_selected bt row);
      _ ← elog_if (negb ok) "pg_batch cannot select row";
      _ ← deref (consumer_ops bd);
      emit (SelectRow (consumer_state bd) (slot bd) k row)
  end.

Definition finish (b : Z) : M unit :=
  bd ← binding_at b;
  match batch bd with
  | None => error "pg_batch cannot finish a slot without an active batch"
  | Some k =>
      _ ← elog_if (finished bd) "pg_batch cannot finish a slot without an active batch";
      _ ← update_batch k (λ bt, set_generation bt 0);
      update_binding b (λ bd, set_batch bd (batch bd) true)
  end.

Definition is_finished (binding : option Z) : M bool :=
  match binding with
  | None => lift (Raise (Elog "pg_batch cannot inspect a null binding"))
  | Some b =>
      bd ← binding_at b;
      mret (match batch bd with None => true | Some _ => finished bd end)
  end.

Definition clear (binding : option Z) : M unit :=
  match binding with None => mret tt | Some b => release_batch b end.

Definition detach_binding (binding : option Z) : M unit :=
  match binding with
  | None => mret tt
  | Some b =>
      bd ← binding_at b;
      _ ← release_batch b;
      _ ← modify (λ w, with_callbacks w (filter (λ c, c ≠ (owner bd, b)) (callbacks w)));
      _ ← deref (layout bd);
      _ ← update_slots (delete (slot bd));
      modify (λ w, with_bindings w (delete b (bindings w)))
  end.

(** [capacity] is the [struct_size] of the caller's view, [None] a null
    pointer. *)
Definition get_row_view (binding : option Z) (capacity : option Z) : M PgBatchRowView :=
  match capacity with
  | None => lift (Raise (Elog "pg_batch received an incompatible row view"))
  | Some size =>
      _ ← elog_if (size <? PG_BATCH_ROW_VIEW_MIN_SIZE) "pg_batch received an incompatible row view";
      match binding with
      | None => lift (Raise (Elog "pg_batch binding has no active batch"))
      | Some b =>
          bd ← binding_at b;
          match batch bd with
          | None => lift (Raise (Elog "pg_batch binding has no active batch"))
          | Some k =>
              _ ← elog_if (finished bd) "pg_batch binding has no active batch";
              bt ← batch_at k;
              o ← deref (consumer_ops bd);
              mret (mkView size (slot bd) (Some k) (generation bt) (consumer_state bd) (has_select_row o))
          end
      end
  end.

Definition pg_batch_row_view_select (view : option PgBatchRowView) (row : Z) : M Z :=
  let err := lift (Raise (Elog "pg_batch cannot select row")) in
  match view with
  | None => err
  | Some v =>
      if view_struct_size v <? PG_BATCH_ROW_VIEW_MIN_SIZE then err else
      match view_batch v with
      | None => err
      | Some k =>
          if view_generation v =? 0 then err else
          bt ← batch_at k;
          if negb (generation bt =? view_generation v) || negb (view_select_row v) then err else
          ok ← lift (row_selected bt row);
          if negb ok then err else
          _ ← emit (SelectRow (view_consumer_state v) (view_slot v) k row);
          mret (view_slot v)
      end
  end.
End bridge.
