(* ===== verification/BridgeInv.v ===== *)
(** * The bridge: invariant

    The steps the bridge and its clients can take, the contract clients and
    sources keep, and the invariant every step preserves. *)

From S2P Require Import Prelude Words Selection Bitmaps Batch Bridge.

Section bridge_inv.
Context `{PgCore} `{Bitmapsets}.

(** ** Steps *)

(** Resetting a memory context runs its callbacks, latest first, and frees
    what it owns. *)
Fixpoint run_callbacks (cbs : list (Z * Z)) : M unit :=
  match cbs with
  | [] => mret tt
  | c :: cbs => _ ← slot_reset c.2; run_callbacks cbs
  end.

Definition reset_context (ctx : Z) : M unit :=
  cbs ← gets (λ w, filter (λ c, c.1 = ctx) (callbacks w));
  _ ← run_callbacks cbs;
  _ ← modify (λ w, with_callbacks w (filter (λ c, c.1 ≠ ctx) (callbacks w)));
  modify (λ w, with_bindings w (filter (λ kv, owner kv.2 ≠ ctx) (bindings w))).

(** API calls, and what happens around them: a source prepares a batch, a
    consumer removes a row from an active batch, a context is reset.  The calls
    that allocate say which of their allocations are granted. *)
Inductive bridge_op : Type :=
| OpAttach (memory : nat → bool) (s : TupleTableSlot) (l : PgBatchLayout) (cops : PgBatchConsumerOps) (cstate : Z)
| OpSetRequest (memory : nat → bool) (b : Z) (spec : PgBatchRequestSpec)
| OpSetSource (b : Z) (name : option string) (state : Z)
| OpSeal (b : Z)
| OpPublish (b k : Z)
| OpSelectRow (b row : Z)
| OpViewSelect (v : PgBatchRowView) (row : Z)
| OpFinish (b : Z)
| OpClear (b : Z)
| OpDetach (b : Z)
| OpReset (ctx : Z)
| OpPrepare (k : Z) (bt : PgBatch)
| OpRemoveRow (k row : Z).

Definition ignore {A} (m : M A) : M unit := _ ← m; mret tt.

Definition run_op (op : bridge_op) : M unit :=
  match op with
  | OpAttach memory s l cops cstate => ignore (attach_slot memory (Some s) (Some l) (Some cops) cstate)
  | OpSetRequest memory b spec => set_request memory (Some b) (Some spec)
  | OpSetSource b name state => set_source (Some b) name state
  | OpSeal b => ignore (seal_request (Some b))
  | OpPublish b k => publish_batch b (Some k)
  | OpSelectRow b row => select_row b row
  | OpViewSelect v row => ignore (pg_batch_row_view_select (Some v) row)
  | OpFinish b => finish b
  | OpClear b => clear (Some b)
  | OpDetach b => detach_binding (Some b)
  | OpReset ctx => reset_context ctx
  | OpPrepare k bt => modify (λ w, with_batches w (<[k := bt]> (batches w)))
  | OpRemoveRow k row =>
      bt ← batch_at k;
      s ← lift (pg_batch_selection_clear (selection bt) row);
      update_batch k (λ bt, set_selection bt s)
  end.

(** ** The contract *)

(** A binding [attach_slot] has returned, as against one it gave up on: the
    consumer's operations are the last pointer it sets. *)
Definition complete (bd : PgBatchBinding) : Prop := is_Some (consumer_ops bd).
Definition attached (w : Bridge) (b : Z) : Prop := ∃ bd, bindings w !! b = Some bd ∧ complete bd.

Definition held (w : Bridge) (k : Z) : Prop :=
  ∃ b bd, bindings w !! b = Some bd ∧ batch bd = Some k.

(** The memory a batch's selection points to. *)
Definition selection_memory (s : PgBatchSelection) : Prop :=
  nrows s < 2 ^ 31 ∧ Forall is_u64 (words s) ∧ (words s ≠ [] → zlength (words s) = nwords s).

(** Handles are live ones that [attach_slot] returned, arrays have the announced
    sizes, a source touches neither the structure nor the selection of a batch
    that a binding holds, and fewer than 2^64 - 1 batches are published.  Any
    allocation may fail, and any slot may be attached again. *)
Definition allowed (w : Bridge) (op : bridge_op) : Prop :=
  match op with
  | OpAttach _ s l cops cstate => ∀ cs, target_columns l = Some cs → layout_ntargets l ≤ zlength cs
  | OpSetRequest _ b _ | OpSetSource b _ _ | OpSeal b | OpSelectRow b _ | OpFinish b | OpClear b
  | OpDetach b => attached w b
  | OpPublish b k => attached w b ∧ is_Some (batches w !! k) ∧ ¬ held w k ∧
      next_batch_generation w < 2 ^ 64 - 1
  | OpViewSelect v row => ∀ k, view_batch v = Some k → ∃ bt, batches w !! k = Some bt ∧
      (generation bt ≠ 0 → sel_wf (selection bt))
  | OpReset _ => True
  | OpPrepare k bt => ¬ held w k ∧ generation bt = 0 ∧ selection_memory (selection bt)
  | OpRemoveRow k row => ∃ bt, batches w !! k = Some bt ∧ held w k ∧ 0 ≤ row < nrows (selection bt)
  end.

(** ** The invariant *)

Definition request_ok (bd : PgBatchBinding) : Prop :=
  ∃ l, layout bd = Some l ∧ layout_ok l ∧ bms_below (filter_columns (request bd)) (layout_ncolumns l) ∧
  bms_below (project_columns (request bd)) (layout_ncolumns l) ∧
  0 ≤ max_rows (request bd) ∧
  (output_mode (request bd) = PG_BATCH_OUTPUT_ROWS ∨ output_mode (request bd) = PG_BATCH_OUTPUT_BATCH).

(** A batch a binding may hold: consumers rely on it without checks. *)
Definition batch_ok (bt : PgBatch) : Prop :=
  sel_wf (selection bt) ∧ sel_clean (selection bt) ∧ is_Some (ops bt) ∧
  abi_version bt = PG_BATCH_ABI_VERSION.

(** The entry of a slot. *)
Definition entry_of (w : Bridge) (s : Z) : option (option Z) := slot_entries w ≫= λ table, table !! s.

Record bridge_inv (w : Bridge) : Prop := {
  bi_binding : ∀ b bd, bindings w !! b = Some bd → complete bd →
    request_ok bd ∧ (owner bd, b) ∈ callbacks w ∧ entry_of w (slot bd) = Some (Some b);
  bi_callback : ∀ ctx b, (ctx, b) ∈ callbacks w →
    ∃ bd, bindings w !! b = Some bd ∧ complete bd ∧ owner bd = ctx;
  bi_held : ∀ b bd k, bindings w !! b = Some bd → batch bd = Some k →
    ∃ bt, batches w !! k = Some bt ∧ batch_ok bt ∧
      (if finished bd then generation bt = 0 else generation bt ≠ 0);
  bi_unique : ∀ b b' bd bd' k, bindings w !! b = Some bd → bindings w !! b' = Some bd' →
    batch bd = Some k → batch bd' = Some k → b = b';
  bi_next : 0 < next_batch_generation w < 2 ^ 64;
  bi_generation : ∀ k bt, batches w !! k = Some bt → 0 ≤ generation bt < next_batch_generation w;
  bi_memory : ∀ k bt, batches w !! k = Some bt → selection_memory (selection bt);
}.

Definition init_bridge : Bridge := mkBridge None ∅ ∅ [] 1 [].

Lemma init_inv : bridge_inv init_bridge.
Proof.
  constructor; simpl; try (intros *; rewrite !lookup_empty; done); try done; try lia.
  - intros ctx b Hc. by apply elem_of_nil in Hc.
Qed.
(** ** Peeling statements *)

Lemma wp_binding_at {A} b bd (f : PgBatchBinding → M A) Q w :
  bindings w !! b = Some bd → wp (f bd) Q w → wp (binding_at b ≫= f) Q w.
Proof. intros Hb Hw. unfold wp, binding_at, mbind, st_bind, gets. by rewrite Hb. Qed.

Lemma wp_batch_at {A} k bt (f : PgBatch → M A) Q w :
  batches w !! k = Some bt → wp (f bt) Q w → wp (batch_at k ≫= f) Q w.
Proof. intros Hk Hw. unfold wp, batch_at, mbind, st_bind, gets. by rewrite Hk. Qed.

Lemma wp_update_binding_end b bd g Q w :
  bindings w !! b = Some bd → Q (Ok tt) (with_bindings w (<[b := g bd]> (bindings w))) →
  wp (update_binding b g) Q w.
Proof. intros Hb HQ. apply (wp_binding_at b bd); [done|]. by apply wp_modify_end. Qed.

Lemma wp_update_binding {A} b bd g (f : unit → M A) Q w :
  bindings w !! b = Some bd → wp (f tt) Q (with_bindings w (<[b := g bd]> (bindings w))) →
  wp (update_binding b g ≫= f) Q w.
Proof. intros Hb Hw. apply wp_bind. by apply (wp_update_binding_end b bd). Qed.

Lemma wp_update_batch_end k bt g Q w :
  batches w !! k = Some bt → Q (Ok tt) (with_batches w (<[k := g bt]> (batches w))) →
  wp (update_batch k g) Q w.
Proof. intros Hk HQ. apply (wp_batch_at k bt); [done|]. by apply wp_modify_end. Qed.

Lemma wp_update_batch {A} k bt g (f : unit → M A) Q w :
  batches w !! k = Some bt → wp (f tt) Q (with_batches w (<[k := g bt]> (batches w))) →
  wp (update_batch k g ≫= f) Q w.
Proof. intros Hk Hw. apply wp_bind. by apply (wp_update_batch_end k bt). Qed.

Lemma wp_emit_end e Q w : Q (Ok tt) (with_event w e) → wp (emit e) Q w.
Proof. intros HQ. by split. Qed.

(** ** How one step may change the state *)

Definition keeps_binding (bd bd' : PgBatchBinding) : Prop :=
  slot bd' = slot bd ∧ owner bd' = owner bd ∧ layout bd' = layout bd ∧ consumer_ops bd' = consumer_ops bd ∧
  (request_sealed bd = true → request_sealed bd' = true ∧ request bd' = request bd).

Record evolves (op : bridge_op) (w w' : Bridge) : Prop := {
  ev_next : next_batch_generation w ≤ next_batch_generation w';
  ev_binding : ∀ b bd, bindings w !! b = Some bd →
    (∃ bd', bindings w' !! b = Some bd' ∧ keeps_binding bd bd') ∨
    op = OpDetach b ∨ op = OpReset (owner bd);
  ev_active : ∀ k bt', batches w' !! k = Some bt' → generation bt' ≠ 0 →
    next_batch_generation w ≤ generation bt' ∨
    ∃ bt, batches w !! k = Some bt ∧ generation bt = generation bt' ∧
      ∀ b bd, bindings w !! b = Some bd → batch bd = Some k → op ≠ OpReset (owner bd) →
        ∃ bd', bindings w' !! b = Some bd' ∧ batch bd' = Some k ∧ finished bd' = finished bd ∧
          owner bd' = owner bd;
}.

(** The entry of a slot that leads to no binding a caller has: it is
    uninitialised, or points to a binding that was given up, freed, or put to
    another use. *)
Definition abandoned (w : Bridge) (s : Z) : Prop :=
  ∃ entry, entry_of w s = Some entry ∧
    ∀ b bd, entry = Some b → bindings w !! b = Some bd → complete bd → slot bd ≠ s.

(** An error of the allocator. *)
Definition allocation_failure (e : pg_error) : Prop :=
  e = out_of_memory ∨ e = Elog "invalid memory alloc request size".

(** The one way such an entry comes about. *)
Definition leaves_behind (op : bridge_op) (s : Z) (r : res unit) : Prop :=
  ∃ memory sl l cops cstate e, op = OpAttach memory sl l cops cstate ∧ slot_address sl = s ∧
    r = Raise e ∧ allocation_failure e.

Definition entries_kept (op : bridge_op) (w : Bridge) (r : res unit) (w' : Bridge) : Prop :=
  ∀ s, abandoned w' s → abandoned w s ∨ leaves_behind op s r.

(** The postcondition of a step that may have raised an error. *)
Definition good (op : bridge_op) (w : Bridge) (r : res unit) (w' : Bridge) : Prop :=
  bridge_inv w' ∧ evolves op w w' ∧ entries_kept op w r w'.

Lemma keeps_complete bd bd' : keeps_binding bd bd' → complete bd → complete bd'.
Proof. intros (_ & _ & _ & E & _). unfold complete. by rewrite E. Qed.

(** The bindings behind the entries stay what they are. *)
Lemma entries_same op w r w' :
  slot_entries w' = slot_entries w →
  (∀ b bd, bindings w !! b = Some bd → ∃ bd', bindings w' !! b = Some bd' ∧ keeps_binding bd bd') →
  entries_kept op w r w'.
Proof.
  intros E Hkeep s (entry & He & Hall). left. exists entry. unfold entry_of in *. rewrite <- E.
  split; [done|]. intros b bd -> Hb Hc. destruct (Hkeep b bd Hb) as (bd' & Hb' & Hk).
  pose proof (keeps_complete _ _ Hk Hc). destruct Hk as (<- & _). by apply (Hall b bd').
Qed.

Lemma kept_insert w b bd bd' : bindings w !! b = Some bd → keeps_binding bd bd' →
  ∀ b0 bd0, bindings w !! b0 = Some bd0 → ∃ bd1, <[b := bd']> (bindings w) !! b0 = Some bd1 ∧ keeps_binding bd0 bd1.
Proof.
  intros Hb Hk b0 bd0 Hb0. destruct (decide (b0 = b)) as [->|Hne].
  - exists bd'. rewrite lookup_insert_eq. assert (bd0 = bd) as -> by congruence. done.
  - exists bd0. rewrite lookup_insert_ne by done. by split_and!.
Qed.

Lemma evolves_refl op w : evolves op w w.
Proof.
  constructor; [done| |].
  - intros b bd Hb. left. exists bd. by split_and!.
  - intros k bt Hk Hg. right. exists bt. split_and!; try done. eauto.
Qed.

Lemma good_refl op w r : bridge_inv w → good op w r w.
Proof. split; [done|]. split; [apply evolves_refl|]. by left. Qed.

Lemma inv_event w e : bridge_inv w → bridge_inv (with_event w e).
Proof. intros []. by constructor. Qed.

Lemma good_event op w r e w' : good op w r w' → good op w r (with_event w' e).
Proof. intros (Hi & [] & He). split_and!; [by apply inv_event|by constructor|exact He]. Qed.

Lemma good_trans op w w1 r w2 : good op w (Ok tt) w1 → good op w1 r w2 →
  (∀ b bd bd1, bindings w !! b = Some bd → bindings w1 !! b = Some bd1 → owner bd1 = owner bd) →
  (∀ b bd, bindings w !! b = Some bd → is_Some (bindings w1 !! b)) →
  good op w r w2.
Proof.
  intros (Hi1 & [Hn1 Hb1 Ha1] & He1) (Hi2 & [Hn2 Hb2 Ha2] & He2) Hown Hlive. split; [done|]. split.
  2: { intros s [Hs|?]%He2; [|by right]. destruct (He1 s Hs) as [?|(? & ? & ? & ? & ? & ? & _ & _ & ? & _)]; [by left|done]. }
  constructor.
  - lia.
  - intros b bd Hb. destruct (Hlive b bd Hb) as [bd1 Hbd1].
    destruct (Hb2 b bd1 Hbd1) as [(bd2 & Hbd2 & Hk2)|Hgone]; [|rewrite <- (Hown b bd bd1) by done; tauto].
    destruct (Hb1 b bd Hb) as [(bd1' & Hbd1' & Hk1)|Hgone]; [|tauto]. left. exists bd2. split; [done|].
    rewrite Hbd1 in Hbd1'. injection Hbd1' as <-. unfold keeps_binding in *. intuition congruence.
  - intros k bt2 Hk Hg. destruct (Ha2 k bt2 Hk Hg) as [?|(bt1 & Hk1 & Hg1 & Hh2)]; [left; lia|].
    rewrite <- Hg1 in Hg |- *.
    destruct (Ha1 k bt1 Hk1 Hg) as [?|(bt & Hk0 & Hg0 & Hh1)]; [by left|].
    right. exists bt. split_and!; try done. intros b bd Hb Hbk Hr.
    destruct (Hh1 b bd Hb Hbk Hr) as (bd1 & Hbd1 & Hbk1 & Hf1 & Ho1).
    destruct (Hh2 b bd1 Hbd1 Hbk1) as (bd2 & Hbd2 & Hbk2 & Hf2 & Ho2); [by rewrite (Hown b bd bd1)|].
    exists bd2. split_and!; try done; congruence.
Qed.
(** ** The elementary changes *)

(** A binding changes, but not its slot, owner or batch. *)
Lemma good_binding op w r b bd bd' :
  bridge_inv w → bindings w !! b = Some bd → keeps_binding bd bd' → request_ok bd' →
  batch bd' = batch bd → finished bd' = finished bd →
  good op w r (with_bindings w (<[b := bd']> (bindings w))).
Proof.
  intros [] Hb Hkeep Hr Hbat Hfin. destruct (Hkeep) as (Hs & Ho & Hl & Hops & _). split.
  - constructor; cbn; try done.
    + intros b0 bd0 [[<- <-]|[Hne Hb0]]%lookup_insert_Some Hc; [|by apply bi_binding0].
      destruct (bi_binding0 b bd Hb) as (_ & Hcb & Ht); [by unfold complete in *; rewrite <- Hops|]. rewrite Hs, Ho. done.
    + intros ctx b0 Hcb. destruct (bi_callback0 ctx b0 Hcb) as (bd0 & Hbd0 & Hc0 & <-).
      destruct (kept_insert w b bd bd' Hb Hkeep b0 bd0 Hbd0) as (bd1 & ? & Hk1). exists bd1.
      split_and!; [done|by eapply keeps_complete|apply Hk1].
    + intros b0 bd0 k [[<- <-]|[Hne Hb0]]%lookup_insert_Some Hk0; [|by eapply bi_held0].
      rewrite Hfin. apply (bi_held0 b bd); congruence.
    + intros b1 b2 bd1 bd2 k [[<- <-]|[Hne1 Hb1]]%lookup_insert_Some
        [[<- <-]|[Hne2 Hb2]]%lookup_insert_Some Hk1 Hk2; try done.
      * apply (bi_unique0 b b2 bd bd2 k); congruence.
      * apply (bi_unique0 b1 b bd1 bd k); congruence.
      * by eapply bi_unique0.
  - split; [|apply entries_same; [done|by apply (kept_insert w b bd)]]. constructor; cbn; [done| |].
    + intros b0 bd0 Hb0. left. by apply (kept_insert w b bd bd' Hb Hkeep).
    + intros k bt Hkk Hg. right. exists bt. split_and!; try done. intros b0 bd0 Hb0 Hk0 _.
      destruct (decide (b0 = b)) as [->|Hne].
      * exists bd'. rewrite lookup_insert_eq. assert (bd0 = bd) as -> by congruence.
        split_and!; congruence.
      * exists bd0. by rewrite lookup_insert_ne.
Qed.

Lemma not_held_lookup w k b bd : ¬ held w k → bindings w !! b = Some bd → batch bd ≠ Some k.
Proof. intros Hh Hb Hk. apply Hh. by exists b, bd. Qed.

(** A batch nobody holds changes; a generation it gets is new. *)
Lemma good_free_batch op w r k bt' :
  bridge_inv w → ¬ held w k → selection_memory (selection bt') →
  generation bt' = 0 → good op w r (with_batches w (<[k := bt']> (batches w))).
Proof.
  intros [] Hh Hm Hg. split.
  - constructor; cbn; try done.
    + intros b bd k0 Hb Hk0. destruct (bi_held0 b bd k0 Hb Hk0) as (bt & Hbt & Hok).
      exists bt. rewrite lookup_insert_ne; [done|]. intros ->. by eapply not_held_lookup.
    + intros k0 bt [[<- <-]|[Hne Hk0]]%lookup_insert_Some; [lia|by eapply bi_generation0].
    + intros k0 bt [[<- <-]|[Hne Hk0]]%lookup_insert_Some; [done|by eapply bi_memory0].
  - split; [|apply entries_same; [done|]; intros b bd Hb; exists bd; by split_and!]. constructor; cbn; [done| |].
    + intros b bd Hb. left. exists bd. by split_and!.
    + intros k0 bt [[<- <-]|[Hne Hk0]]%lookup_insert_Some Hg0; [done|].
      right. exists bt. split_and!; try done. eauto.
Qed.

(** A held batch and its binding change together. *)
Lemma good_held_batch op w r b bd bd' k bt bt' :
  bridge_inv w → bindings w !! b = Some bd → batch bd = Some k → batches w !! k = Some bt →
  keeps_binding bd bd' → request bd' = request bd →
  selection_memory (selection bt') →
  generation bt' = 0 ∨ (generation bt' = generation bt ∧ batch bd' = Some k ∧ finished bd' = finished bd) →
  batch bd' = None ∨ (batch bd' = Some k ∧ batch_ok bt' ∧
    (if finished bd' then generation bt' = 0 else generation bt' ≠ 0)) →
  good op w r (mkBridge (slot_entries w) (<[b := bd']> (bindings w)) (<[k := bt']> (batches w))
    (callbacks w) (next_batch_generation w) (events w)).
Proof.
  intros [] Hb Hbk Hk Hkeep Hreq Hm Hg Hbat. destruct (Hkeep) as (Hs & Ho & Hl & Hops & _).
  assert (Hother : ∀ b0 bd0, b0 ≠ b → bindings w !! b0 = Some bd0 → batch bd0 ≠ Some k).
  { intros b0 bd0 Hne Hb0 Hk0. apply Hne. by eapply bi_unique0. }
  split.
  - constructor; cbn; try done.
    + intros b0 bd0 [[<- <-]|[Hne Hb0]]%lookup_insert_Some Hc; [|by apply bi_binding0].
      destruct (bi_binding0 b bd Hb) as (Hrq & Hcb & Ht); [by unfold complete in *; rewrite <- Hops|]. rewrite Hs, Ho. split; [|done].
      unfold request_ok in *. by rewrite Hl, Hreq.
    + intros ctx b0 Hcb. destruct (bi_callback0 ctx b0 Hcb) as (bd0 & Hbd0 & Hc0 & <-).
      destruct (kept_insert w b bd bd' Hb Hkeep b0 bd0 Hbd0) as (bd1 & ? & Hk1). exists bd1.
      split_and!; [done|by eapply keeps_complete|apply Hk1].
    + intros b0 bd0 k0 [[<- <-]|[Hne Hb0]]%lookup_insert_Some Hk0.
      * destruct Hbat as [?|(Hbk' & Hok & Hgf)]; [congruence|]. assert (k0 = k) as -> by congruence.
        exists bt'. by rewrite lookup_insert_eq.
      * rewrite lookup_insert_ne; [by eapply bi_held0|]. intros ->. by eapply Hother.
    + intros b1 b2 bd1 bd2 k0 [[<- <-]|[Hne1 Hb1]]%lookup_insert_Some
        [[<- <-]|[Hne2 Hb2]]%lookup_insert_Some Hk1 Hk2; try done.
      * destruct Hbat as [?|(Hbk' & _)]; [congruence|]. exfalso.
        eapply (Hother b2 bd2); [done|done|congruence].
      * destruct Hbat as [?|(Hbk' & _)]; [congruence|]. exfalso.
        eapply (Hother b1 bd1); [done|done|congruence].
      * by eapply bi_unique0.
    + intros k0 bt0 [[<- <-]|[Hne Hk0]]%lookup_insert_Some; [|by eapply bi_generation0].
      pose proof (bi_generation0 k bt Hk). destruct Hg as [->|(-> & _)]; lia.
    + intros k0 bt0 [[<- <-]|[Hne Hk0]]%lookup_insert_Some; [done|by eapply bi_memory0].
  - split; [|apply entries_same; [done|by apply (kept_insert w b bd)]]. constructor; cbn; [done| |].
    + intros b0 bd0 Hb0. left. by apply (kept_insert w b bd bd' Hb Hkeep).
    + intros k0 bt0 [[<- <-]|[Hne Hk0]]%lookup_insert_Some Hg0; right.
      * destruct Hg as [?|(Hg & Hbk' & Hf')]; [done|]. exists bt. split_and!; try done.
        intros b0 bd0 Hb0 Hk0 _. destruct (decide (b0 = b)) as [->|Hne].
        -- exists bd'. rewrite lookup_insert_eq. assert (bd0 = bd) as -> by congruence. done.
        -- exfalso. by eapply Hother.
      * exists bt0. split_and!; try done. intros b0 bd0 Hb0 Hk1 _.
        destruct (decide (b0 = b)) as [->|Hne'].
        -- exfalso. apply Hne. congruence.
        -- exists bd0. by rewrite lookup_insert_ne.
Qed.
(** A free batch becomes the active batch of a binding, under a new
    generation. *)
Lemma good_publish op w r b bd bd' k bt' :
  bridge_inv w → bindings w !! b = Some bd → batch bd = None → ¬ held w k →
  keeps_binding bd bd' → request_ok bd' → batch bd' = Some k → finished bd' = false →
  batch_ok bt' → selection_memory (selection bt') → generation bt' = next_batch_generation w →
  next_batch_generation w + 1 < 2 ^ 64 →
  good op w r (mkBridge (slot_entries w) (<[b := bd']> (bindings w)) (<[k := bt']> (batches w))
    (callbacks w) (next_batch_generation w + 1) (events w)).
Proof.
  intros [] Hb Hnone Hfree Hkeep Hreq Hk Hfin Hok Hm Hg Hlt. destruct (Hkeep) as (Hs & Ho & _ & Hops & _). split.
  - constructor; cbn; try lia.
    + intros b0 bd0 [[<- <-]|[Hne Hb0]]%lookup_insert_Some Hc; [|by apply bi_binding0].
      destruct (bi_binding0 b bd Hb) as (_ & Hcb & Ht); [by unfold complete in *; rewrite <- Hops|]. by rewrite Hs, Ho.
    + intros ctx b0 Hcb. destruct (bi_callback0 ctx b0 Hcb) as (bd0 & Hbd0 & Hc0 & <-).
      destruct (kept_insert w b bd bd' Hb Hkeep b0 bd0 Hbd0) as (bd1 & ? & Hk1). exists bd1.
      split_and!; [done|by eapply keeps_complete|apply Hk1].
    + intros b0 bd0 k0 [[<- <-]|[Hne Hb0]]%lookup_insert_Some Hk0.
      * assert (k0 = k) as -> by congruence. exists bt'. rewrite lookup_insert_eq, Hfin.
        split_and!; try done. lia.
      * rewrite lookup_insert_ne; [by eapply bi_held0|]. intros ->. by eapply not_held_lookup.
    + intros b1 b2 bd1 bd2 k0 [[<- <-]|[Hne1 Hb1]]%lookup_insert_Some
        [[<- <-]|[Hne2 Hb2]]%lookup_insert_Some Hk1 Hk2; try done.
      * exfalso. eapply (not_held_lookup w k b2 bd2); [done|done|congruence].
      * exfalso. eapply (not_held_lookup w k b1 bd1); [done|done|congruence].
      * by eapply bi_unique0.
    + intros k0 bt0 [[<- <-]|[Hne Hk0]]%lookup_insert_Some; [lia|].
      pose proof (bi_generation0 k0 bt0 Hk0). lia.
    + intros k0 bt0 [[<- <-]|[Hne Hk0]]%lookup_insert_Some; [done|by eapply bi_memory0].
  - split; [|apply entries_same; [done|by apply (kept_insert w b bd)]]. constructor; cbn; [lia| |].
    + intros b0 bd0 Hb0. left. by apply (kept_insert w b bd bd' Hb Hkeep).
    + intros k0 bt0 [[<- <-]|[Hne Hk0]]%lookup_insert_Some Hg0; [left; lia|]. right.
      exists bt0. split_and!; try done. intros b0 bd0 Hb0 Hk1 _.
      destruct (decide (b0 = b)) as [->|Hne'].
      * exfalso. congruence.
      * exists bd0. by rewrite lookup_insert_ne.
Qed.

(** A binding without a batch disappears from the store, the slot table and
    the callbacks. *)
Lemma good_detached w r table b bd :
  bridge_inv w → slot_entries w = Some table → bindings w !! b = Some bd → batch bd = None → complete bd →
  good (OpDetach b) w r (mkBridge (Some (delete (slot bd) table)) (delete b (bindings w)) (batches w)
    (filter (λ c, c ≠ (owner bd, b)) (callbacks w)) (next_batch_generation w) (events w)).
Proof.
  intros [] Htab Hb Hnone Hc. destruct (bi_binding0 b bd Hb Hc) as (_ & _ & Hslot).
  unfold entry_of in *. rewrite Htab in *. cbn in *. split.
  - constructor; cbn; try done; unfold entry_of; cbn; try rewrite Htab in *; cbn in *.
    + intros b0 bd0 [Hne Hb0]%lookup_delete_Some Hc0.
      destruct (bi_binding0 b0 bd0 Hb0 Hc0) as (Hreq & Hcb & Hs0). split_and!; [done| |].
      * apply list_elem_of_filter. split; [congruence|done].
      * rewrite lookup_delete_ne; [done|]. intros E. rewrite <- E in Hs0. congruence.
    + intros ctx b0 [Hne Hcb]%list_elem_of_filter.
      destruct (bi_callback0 ctx b0 Hcb) as (bd0 & Hb0 & Hc0 & Hown). exists bd0. split; [|done].
      rewrite lookup_delete_ne; [done|]. intros ->. apply Hne. congruence.
    + intros b0 bd0 k [Hne Hb0]%lookup_delete_Some Hk. by eapply bi_held0.
    + intros b1 b2 bd1 bd2 k [_ Hb1]%lookup_delete_Some [_ Hb2]%lookup_delete_Some. by apply bi_unique0.
  - split.
    { constructor; cbn; [done| |].
      - intros b0 bd0 Hb0. destruct (decide (b0 = b)) as [->|Hne]; [right; by left|].
        left. exists bd0. rewrite lookup_delete_ne by done. by split_and!.
      - intros k bt Hk Hg. right. exists bt. split_and!; try done. intros b0 bd0 Hb0 Hk0 _.
        exists bd0. rewrite lookup_delete_ne; [done|]. intros ->. congruence. }
    intros s (entry & He & Hall). unfold entry_of in He. cbn in He. apply lookup_delete_Some in He as [Hne He].
    left. exists entry. unfold entry_of. rewrite Htab.
    split; [done|]. intros b0 bd0 -> Hb0 Hc0. destruct (decide (b0 = b)) as [->|Hneb]; [congruence|].
    apply (Hall b0 bd0); [done| |done]. cbn. by rewrite lookup_delete_ne.
Qed.

(** ** Every operation keeps the invariant *)

Lemma release_batch_good op w b :
  bridge_inv w → is_Some (bindings w !! b) → wp (release_batch b) (λ r w',
    good op w r w' ∧ r = Ok tt ∧ callbacks w' = callbacks w ∧ slot_entries w' = slot_entries w ∧
    ∃ bd bd', bindings w !! b = Some bd ∧ bindings w' !! b = Some bd' ∧ keeps_binding bd bd' ∧
      batch bd' = None) w.
Proof.
  intros Hi [bd Hb]. unfold release_batch. apply (wp_binding_at b bd); [done|].
  destruct (batch bd) as [k|] eqn:Hk.
  2: { apply wp_ret. split_and!; try done; [by apply good_refl|]. exists bd, bd. by split_and!. }
  destruct (bi_held w Hi b bd k Hb Hk) as (bt & Hbt & Hok & _).
  apply (wp_update_binding b bd); [done|].
  apply (wp_update_batch k bt); [done|].
  apply (wp_batch_at k (set_generation bt 0)); [by apply lookup_insert_eq|].
  pose proof (good_held_batch op w (Ok tt) b bd (set_batch bd None false) k bt (set_generation bt 0)
    Hi Hb Hk Hbt) as Hgood.
  assert (Hpost : ∀ w', w' = with_batches (with_bindings w (<[b:=set_batch bd None false]> (bindings w)))
      (<[k:=set_generation bt 0]> (batches w)) →
    good op w (Ok tt) w' ∧ Ok tt = Ok tt ∧ callbacks w' = callbacks w ∧ slot_entries w' = slot_entries w ∧
    ∃ bd0 bd', bindings w !! b = Some bd0 ∧ bindings w' !! b = Some bd' ∧ keeps_binding bd0 bd' ∧
      batch bd' = None).
  { intros w' ->. split_and!; try done.
    - apply Hgood; [by split_and!|done|by eapply (bi_memory w Hi k bt)|by left|by left].
    - exists bd, (set_batch bd None false). cbn. rewrite lookup_insert_eq. by split_and!. }
  destruct Hok as (_ & _ & [o Ho] & _). cbn. rewrite Ho. apply wp_deref.
  destruct (PG_BATCH_ABI_HAS_FIELD _ _ && _).
  - apply wp_emit_end. destruct (Hpost _ eq_refl) as (Hg & H2 & H3 & H4 & H5).
    split_and!; try done. by apply good_event.
  - apply wp_ret. by apply Hpost.
Qed.
End bridge_inv.
