(* ===== verification/BridgeOps.v ===== *)
(** * The bridge: every step keeps the invariant *)

From S2P Require Import Prelude Words Selection Bitmaps Batch Bridge BridgeInv.

Section bridge_ops.
Context `{PgCore} `{Bitmapsets}.

Lemma row_selected_ok bt row :
  sel_wf (selection bt) →
  row_selected bt row =
    Ok ((0 <=? row) && (row <? nrows (selection bt)) && selected (selection bt) row).
Proof.
  intros Hs. unfold row_selected.
  destruct (Z.ltb_spec row 0), (Z.leb_spec (nrows (selection bt)) row), (Z.leb_spec 0 row),
    (Z.ltb_spec row (nrows (selection bt))); try lia; try done.
  cbn [orb andb]. by apply contains_ok.
Qed.

Lemma layout_request_ok l bd :
  layout_ok l → layout bd = Some l → filter_columns (request bd) = bms_null →
  project_columns (request bd) = bms_null → max_rows (request bd) = 0 →
  output_mode (request bd) = PG_BATCH_OUTPUT_ROWS → request_ok bd.
Proof.
  intros Hl Hbd Hf Hp Hm Ho. exists l. rewrite Hf, Hp, Hm, Ho.
  split_and!; try done; try (intros x Hx; by rewrite bms_null_spec in Hx); by left.
Qed.

Lemma layout_ok_copy l size :
  layout_ok l → layout_ok (mkLayout size (layout_ncolumns l) (layout_ntargets l) (target_columns l)).
Proof. done. Qed.

(** ** Attaching *)

Lemma evolves_grow op w w' :
  next_batch_generation w' = next_batch_generation w → batches w' = batches w →
  (∀ b bd, bindings w !! b = Some bd → bindings w' !! b = Some bd) → evolves op w w'.
Proof.
  intros En Eb Hgrow. constructor; [lia| |].
  - intros b bd Hb. left. exists bd. split; [by apply Hgrow|by split_and!].
  - intros k bt Hk Hg. rewrite Eb in Hk. right. exists bt. split_and!; try done. intros b bd Hb Hbk _.
    exists bd. split; [by apply Hgrow|done].
Qed.

(** Attaching stops half-way: the entry stays, with a binding nobody uses or
    with none. *)
Lemma good_given_up op w e table s entry new :
  bridge_inv w → slot_entries w = Some table → table !! slot_address s = None →
  leaves_behind op (slot_address s) (Raise e) →
  (∀ b bd, new !! b = Some bd → bindings w !! b = None ∧ ¬ complete bd ∧ batch bd = None) →
  good op w (Raise e) (mkBridge (Some (<[slot_address s := entry]> table)) (new ∪ bindings w) (batches w)
    (callbacks w) (next_batch_generation w) (events w)).
Proof.
  intros [] Ht Hs Hleft Hnew. unfold entry_of in *. rewrite Ht in *. cbn in *.
  assert (Hold : ∀ b bd, bindings w !! b = Some bd → (new ∪ bindings w) !! b = Some bd).
  { intros b bd Hb. apply lookup_union_Some_raw. right. split; [|done].
    destruct (new !! b) as [bd'|] eqn:E; [|done]. destruct (Hnew b bd' E) as (? & _). congruence. }
  assert (Hin : ∀ b bd, (new ∪ bindings w) !! b = Some bd → complete bd ∨ is_Some (batch bd) → bindings w !! b = Some bd).
  { intros b bd [Hb|[_ Hb]]%lookup_union_Some_raw Hor; [|done]. destruct (Hnew b bd Hb) as (_ & Hc & Hk).
    destruct Hor as [?|[? ?]]; [done|congruence]. }
  split; [|split; [by apply evolves_grow|]].
  - constructor; cbn; try done; unfold entry_of; cbn.
    + intros b bd Hb Hc. destruct (bi_binding b bd) as (Hreq & Hcb & He); [by apply Hin; [|left]|done|].
      split_and!; [done|done|]. rewrite lookup_insert_ne; [done|]. intros E. rewrite <- E in He. congruence.
    + intros ctx b Hcb. destruct (bi_callback ctx b Hcb) as (bd & Hb & Hc & Ho). exists bd. by split_and!; [apply Hold| |].
    + intros b bd k Hb Hk. apply (bi_held b); [|done]. apply Hin; [done|]. right. by rewrite Hk.
    + intros b1 b2 bd1 bd2 k Hb1 Hb2 Hk1 Hk2.
      apply (bi_unique b1 b2 bd1 bd2 k); try done; apply Hin; try done; right; by eexists.
  - intros s0 (entry0 & He & Hall). unfold entry_of in He. cbn in He.
    destruct (decide (s0 = slot_address s)) as [->|Hne]; [by right|]. left.
    rewrite lookup_insert_ne in He by done. exists entry0. unfold entry_of. rewrite Ht. split; [done|].
    intros b bd E Hb Hc. by apply (Hall b bd); [|apply Hold|].
Qed.

(** A new binding on a slot that has none. *)
Lemma good_attached op w table s b bd :
  bridge_inv w → slot_entries w = Some table → table !! slot_address s = None →
  bindings w !! b = None → slot bd = slot_address s → owner bd = tts_mcxt s → batch bd = None →
  request_ok bd → complete bd →
  good op w (Ok tt) (mkBridge (Some (<[slot_address s := Some b]> table)) (<[b := bd]> (bindings w)) (batches w)
    ((tts_mcxt s, b) :: callbacks w) (next_batch_generation w) (events w)).
Proof.
  intros [] Ht Hs Hb Hsl Hown Hnone Hreq Hcomp. unfold entry_of in *. rewrite Ht in *. cbn in *.
  assert (Hold : ∀ b0 bd0, bindings w !! b0 = Some bd0 → <[b:=bd]> (bindings w) !! b0 = Some bd0).
  { intros b0 bd0 Hb0. rewrite lookup_insert_ne; [done|congruence]. }
  split; [|split; [by apply evolves_grow|]].
  - constructor; cbn; try done; unfold entry_of; cbn.
    + intros b0 bd0 [[<- <-]|[Hne Hb0]]%lookup_insert_Some Hc.
      * split_and!; [done|rewrite Hown; by left|]. rewrite Hsl. apply lookup_insert_eq.
      * destruct (bi_binding b0 bd0 Hb0 Hc) as (? & ? & He). split_and!; [done|by right|].
        rewrite lookup_insert_ne; [done|]. intros E. rewrite <- E in He. congruence.
    + intros ctx b0 [[= -> ->]|Hcb]%elem_of_cons; [exists bd; by rewrite lookup_insert_eq|].
      destruct (bi_callback ctx b0 Hcb) as (bd0 & Hb0 & Hc0). exists bd0. split; [by apply Hold|done].
    + intros b0 bd0 k [[<- <-]|[Hne Hb0]]%lookup_insert_Some Hk; [congruence|by eapply bi_held].
    + intros b1 b2 bd1 bd2 k [[<- <-]|[Hne1 Hb1]]%lookup_insert_Some
        [[<- <-]|[Hne2 Hb2]]%lookup_insert_Some Hk1 Hk2; try congruence. by eapply bi_unique.
  - intros s0 (entry0 & He & Hall). unfold entry_of in He. cbn in He. left.
    destruct (decide (s0 = slot_address s)) as [->|Hne].
    { rewrite lookup_insert_eq in He. injection He as <-. destruct (Hall b bd); [done|by apply lookup_insert_eq|done|done]. }
    rewrite lookup_insert_ne in He by done. exists entry0. unfold entry_of. rewrite Ht. split; [done|].
    intros b0 bd0 E Hb0 Hc. by apply (Hall b0 bd0); [|apply Hold|].
Qed.

(** Stopping before there is a binding, and with one that is not complete. *)
Lemma given_up_entry op w e table s :
  bridge_inv w → slot_entries w = Some table → table !! slot_address s = None →
  leaves_behind op (slot_address s) (Raise e) →
  good op w (Raise e) (with_slots w (Some (<[slot_address s := None]> table))).
Proof.
  intros Hi Ht Hs Hleft.
  pose proof (good_given_up op w e table s None ∅ Hi Ht Hs Hleft) as Hgood. rewrite map_empty_union in Hgood.
  apply Hgood. done.
Qed.

Lemma given_up_binding op w e table s b bd :
  bridge_inv w → slot_entries w = Some table → table !! slot_address s = None → bindings w !! b = None →
  consumer_ops bd = None → batch bd = None → leaves_behind op (slot_address s) (Raise e) →
  good op w (Raise e) (with_bindings (with_slots w (Some (<[slot_address s := Some b]> table))) (<[b := bd]> (bindings w))).
Proof.
  intros Hi Ht Hs Hb Hc Hk Hleft. rewrite (insert_union_singleton_l (bindings w)).
  apply (good_given_up op w e table s (Some b) {[b := bd]} Hi Ht Hs Hleft).
  intros b0 bd0 [<- <-]%lookup_singleton_Some. split_and!; [done| |done]. unfold complete. rewrite Hc. by intros [? ?].
Qed.

Lemma wp_slot_table {A} table (f : gmap Z (option Z) → M A) Q w :
  slot_entries w = Some table → wp (f table) Q w → wp (slot_table ≫= f) Q w.
Proof. intros Ht Hw. apply wp_bind. unfold slot_table. apply wp_gets. by rewrite Ht. Qed.

Lemma wp_update_slots {A} table g (f : unit → M A) Q w :
  slot_entries w = Some table → wp (f tt) Q (with_slots w (Some (g table))) → wp (update_slots g ≫= f) Q w.
Proof. intros Ht Hw. apply wp_bind, (wp_slot_table table); [done|]. by apply wp_modify_end. Qed.

(** Creating the slot table changes nothing a client can see. *)
Lemma wp_init_slots {A} op w granted (f : unit → M A) Q :
  bridge_inv w → Q (Raise out_of_memory) w →
  (∀ w0 table, bridge_inv w0 → slot_entries w0 = Some table → bindings w0 = bindings w →
     (∀ r, good op w r w0) → wp (f tt) Q w0) →
  wp (init_slots granted ≫= f) Q w.
Proof.
  intros Hi Hraise Hf. apply wp_bind. unfold init_slots. apply wp_gets.
  destruct (slot_entries w) as [t|] eqn:Ht.
  { apply wp_ret. apply (Hf w t); try done. intros r. by apply good_refl. }
  apply wp_error_if; [done|]. intros _. apply wp_modify_end.
  assert (Hi0 : bridge_inv (with_slots w (Some ∅))).
  { destruct Hi. unfold entry_of in *. rewrite Ht in *. by constructor. }
  apply (Hf _ ∅); try done. intros r. split; [done|]. split; [by apply evolves_grow|].
  intros s (entry & He & _). unfold entry_of in He. cbn in He. by rewrite lookup_empty in He.
Qed.

Lemma check_alloc_error size e : check_alloc size = Raise e → allocation_failure e.
Proof. unfold check_alloc. destruct (_ <? _); intros [= <-]. by right. Qed.

Lemma attach_good w memory s l cops cstate :
  let op := OpAttach memory s l cops cstate in
  bridge_inv w → allowed w op → wp (run_op op) (good op w) w.
Proof.
  intros op Hi Hl. simpl in Hl. apply wp_bind. unfold attach_slot.
  assert (Hleft : ∀ e, allocation_failure e → leaves_behind op (slot_address s) (Raise e)).
  { intros e He. by exists memory, s, l, cops, cstate, e. }
  destruct (check_layout_spec l Hl) as [Hcheck Hdef].
  apply wp_lift; [done|intros; by apply good_refl|]. intros [] Hok.
  apply Hcheck in Hok as (_ & _ & Hlay). apply wp_deref.
  apply wp_lift; [apply validate_abi_defined|intros; by apply good_refl|]. intros [] _.
  apply wp_error_if; [intros; by apply good_refl|]. intros _.
  apply (wp_init_slots op); [done|by apply good_refl|]. intros w0 table Hi0 Ht Hbs Hg0.
  apply (wp_slot_table table); [done|].
  apply wp_error_if; [intros; apply Hg0|]. intros Hnone.
  destruct (table !! slot_address s) as [?|] eqn:Hs; [done|].
  assert (Htrans : ∀ r w', good op w0 r w' → good op w r w').
  { intros r w' Hg. apply (good_trans op w w0); [apply Hg0|done|rewrite Hbs; congruence|rewrite Hbs; eauto]. }
  apply wp_error_if; [intros; apply Hg0|]. intros _. apply (wp_update_slots table); [done|].
  apply wp_error_if; [intros _; by apply Htrans, given_up_entry, Hleft; [..|left]|]. intros _. apply wp_gets.
  set (b := fresh (dom (bindings _))).
  assert (Hb : bindings w0 !! b = None) by (apply not_elem_of_dom, is_fresh).
  apply wp_modify, (wp_update_slots (<[slot_address s := None]> table)); [done|]. cbn. rewrite insert_insert_eq.
  apply wp_error_if; [intros _; by apply Htrans, (given_up_binding op w0 _ table s b); [..|apply Hleft; left]|]. intros _.
  eapply wp_update_binding; [by apply lookup_insert_eq|]. cbn. rewrite insert_insert_eq.
  assert (Hgive : ∀ e bd, allocation_failure e → consumer_ops bd = None → batch bd = None →
    good op w (Raise e) (mkBridge (Some (<[slot_address s := Some b]> table)) (<[b := bd]> (bindings w0)) (batches w0)
      (callbacks w0) (next_batch_generation w0) (events w0))).
  { intros e bd He Hc Hk. apply Htrans, (given_up_binding op w0 _ table s b bd); try done. by apply Hleft. }
  apply wp_bind. match goal with |- wp _ _ ?at_hand => set (w1 := at_hand) end.
  apply (wp_mono _ (λ r w', match r with
    | Ok _ => w' = w1 | Raise e => allocation_failure e ∧ w' = w1 | Undefined => False end)).
  { destruct (target_columns l); [|by apply wp_ret].
    apply wp_lift; [unfold check_alloc; by destruct (_ <? _)|intros e He; split; [by eapply check_alloc_error|done]|].
    intros [] _. by destruct (memory 4%nat); split; try done; split; [left|]. }
  intros [[]|e|] w'; [intros ->|intros [He ->]; by apply Hgive|done].
  eapply wp_update_binding; [by apply lookup_insert_eq|]. cbn. rewrite insert_insert_eq.
  apply wp_modify, wp_ret, wp_ret. apply Htrans. eapply (good_attached op w0 table s b); try done.
  - eapply layout_request_ok; [|done..]. by apply layout_ok_copy.
  - by eexists.
Qed.

Lemma set_request_good w memory b spec :
  let op := OpSetRequest memory b spec in
  bridge_inv w → allowed w op → wp (run_op op) (good op w) w.
Proof.
  intros op Hi (bd & Hb & Hc). simpl. unfold elog_if.
  destruct (bi_binding w Hi b bd Hb Hc) as ((l & Hl & Hlay & _) & _).
  apply wp_error_if; [intros; by apply good_refl|]. intros _.
  apply (wp_binding_at b bd); [done|].
  apply wp_error_if; [intros; by apply good_refl|]. intros Hopen.
  apply wp_error_if; [intros; by apply good_refl|]. intros Hmax.
  apply wp_error_if; [intros; by apply good_refl|]. intros Hmode. rewrite Hl. apply wp_deref.
  apply wp_error_if; [intros; by apply good_refl|]. intros Hf.
  apply wp_error_if; [intros; by apply good_refl|]. intros Hp.
  apply wp_error_if; [intros; by apply good_refl|]. intros _.
  apply wp_error_if; [intros; by apply good_refl|]. intros _.
  apply next_member_below in Hf; [|apply Hlay]. apply next_member_below in Hp; [|apply Hlay].
  apply (wp_update_binding_end b bd); [done|]. apply (good_binding _ _ _ b bd); try done.
  - split_and!; try done. cbn. by rewrite Hopen.
  - bool_prop. exists l. split_and!; try done. cbn.
    destruct (Z.eqb_spec (output_mode spec) PG_BATCH_OUTPUT_ROWS); [by left|].
    destruct (Z.eqb_spec (output_mode spec) PG_BATCH_OUTPUT_BATCH); [by right|done].
Qed.

Lemma set_source_good w b name state :
  let op := OpSetSource b name state in
  bridge_inv w → allowed w op → wp (run_op op) (good op w) w.
Proof.
  intros op Hi (bd & Hb & Hc). apply (wp_update_binding_end b bd); [done|].
  apply (good_binding _ _ _ b bd); try done. by apply (bi_binding w Hi b bd).
Qed.

Lemma seal_good w b :
  let op := OpSeal b in
  bridge_inv w → allowed w op → wp (run_op op) (good op w) w.
Proof.
  intros op Hi (bd & Hb & Hc). apply wp_bind. unfold seal_request.
  apply (wp_update_binding b bd); [done|].
  apply (wp_binding_at b (set_sealed bd)); [by apply lookup_insert_eq|]. do 2 apply wp_ret.
  apply (good_binding _ _ _ b bd); try done. by apply (bi_binding w Hi b bd).
Qed.

Lemma select_row_good w b row :
  let op := OpSelectRow b row in
  bridge_inv w → allowed w op → wp (run_op op) (good op w) w.
Proof.
  intros op Hi (bd & Hb & [cops Hc]). simpl. unfold select_row. apply (wp_binding_at b bd); [done|].
  destruct (batch bd) as [k|] eqn:Hk; [|apply wp_raise; by apply good_refl].
  apply wp_error_if; [intros; by apply good_refl|]. intros _.
  destruct (bi_held w Hi b bd k Hb Hk) as (bt & Hbt & (Hs & _) & _).
  apply (wp_batch_at k bt); [done|]. rewrite row_selected_ok by done.
  apply wp_lift; [done|done|]. intros ok _.
  apply wp_error_if; [intros; by apply good_refl|]. intros _. rewrite Hc. apply wp_deref.
  apply wp_emit_end, good_event. by apply good_refl.
Qed.

Lemma view_select_good w v row :
  let op := OpViewSelect v row in
  bridge_inv w → allowed w op → wp (run_op op) (good op w) w.
Proof.
  intros op Hi Hv. simpl in Hv. apply wp_bind. unfold pg_batch_row_view_select.
  destruct (_ <? _); [apply wp_raise; by apply good_refl|].
  destruct (view_batch v) as [k|]; [|apply wp_raise; by apply good_refl].
  destruct (Z.eqb_spec (view_generation v) 0); [apply wp_raise; by apply good_refl|].
  destruct (Hv k eq_refl) as (bt & Hbt & Hs). apply (wp_batch_at k bt); [done|].
  destruct (Z.eqb_spec (generation bt) (view_generation v)) as [E|]; [|apply wp_raise; by apply good_refl].
  destruct (negb (view_select_row v)); [apply wp_raise; by apply good_refl|]. cbn [negb orb].
  rewrite row_selected_ok by (apply Hs; congruence).
  apply wp_lift; [done|done|]. intros ok _. destruct ok; [|apply wp_raise; by apply good_refl].
  apply wp_modify. do 2 apply wp_ret. by apply good_event, good_refl.
Qed.

Lemma finish_good w b :
  let op := OpFinish b in
  bridge_inv w → allowed w op → wp (run_op op) (good op w) w.
Proof.
  intros op Hi (bd & Hb & _). simpl. unfold finish. apply (wp_binding_at b bd); [done|].
  destruct (batch bd) as [k|] eqn:Hk; [|apply wp_raise; by apply good_refl].
  apply wp_error_if; [intros; by apply good_refl|]. intros _.
  destruct (bi_held w Hi b bd k Hb Hk) as (bt & Hbt & Hok & _).
  apply (wp_update_batch k bt); [done|]. apply (wp_update_binding_end b bd); [done|].
  apply (good_held_batch op w (Ok tt) b bd (set_batch bd (batch bd) true) k bt (set_generation bt 0));
    try done.
  - by apply (bi_memory w Hi k bt).
  - by left.
  - right. by split_and!.
Qed.

Lemma clear_good w b :
  let op := OpClear b in
  bridge_inv w → allowed w op → wp (run_op op) (good op w) w.
Proof.
  intros op Hi (bd & Hb & _). eapply wp_mono; [apply (release_batch_good op); [done|by exists bd]|]. by intros r w' (Hg & _).
Qed.

Lemma detach_good w b :
  let op := OpDetach b in
  bridge_inv w → allowed w op → wp (run_op op) (good op w) w.
Proof.
  intros op Hi (bd & Hb & Hc). simpl. apply (wp_binding_at b bd); [done|]. apply wp_bind.
  destruct (bi_binding w Hi b bd Hb Hc) as ((l & Hl & _) & _ & He). unfold entry_of in He.
  eapply wp_mono; [apply (release_batch_good op); [done|by exists bd]|].
  intros r w1 (Hg & -> & Hcb & Hse & bd0 & bd1 & Hb0 & Hb1 & Hkeep & Hnone).
  rewrite Hb in Hb0. injection Hb0 as <-. rewrite <- Hse in He. destruct (slot_entries w1) as [table|] eqn:Ht; [|done].
  apply wp_modify. rewrite Hl. apply wp_deref, (wp_update_slots table); [done|]. apply wp_modify_end.
  pose proof (good_detached w1 (Ok tt) table b bd1 (proj1 Hg) Ht Hb1 Hnone (keeps_complete _ _ Hkeep Hc)) as Hdet.
  destruct Hkeep as (Hs & Ho & _). rewrite Hs, Ho in Hdet.
  apply (good_trans op w w1); [done|exact Hdet| |].
  - intros b' bd' bd1' Hb' Hb1'. destruct (ev_binding _ _ _ (proj1 (proj2 Hg)) b' bd' Hb')
      as [(bd2 & Hb2 & Hk)|[[= <-]|?]]; [|congruence|done]. destruct Hk as (_ & Hown & _). congruence.
  - intros b' bd' Hb'. destruct (ev_binding _ _ _ (proj1 (proj2 Hg)) b' bd' Hb')
      as [(bd2 & Hb2 & Hk)|[[= <-]|?]]; eauto. done.
Qed.

Lemma prepare_good w k bt :
  let op := OpPrepare k bt in
  bridge_inv w → allowed w op → wp (run_op op) (good op w) w.
Proof. intros op Hi (Hfree & Hg & Hm). apply wp_modify_end. by apply good_free_batch. Qed.
(** ** Publishing *)

Lemma sel_wf_memory s : sel_wf s → selection_memory s.
Proof. intros []. split_and!; [lia|done|done]. Qed.

(** The test of the last word is the documented condition that no bit at or
    beyond [nrows] is set. *)
Lemma beyond_end_spec s :
  sel_wf s → ∃ b, selected_beyond_end s = Ok b ∧ (b = false ↔ sel_clean s).
Proof.
  intros Hs. pose proof (wf_nrows s Hs) as Hn. pose proof (wf_nwords s Hs) as Hw.
  unfold selected_beyond_end, sel_clean. destruct (Z.eqb_spec (nrows s mod 64) 0) as [Hz|Hz].
  { exists false. split; [done|]. split; [|done]. intros _ row Hrow. zlia. }
  rewrite word_read, bind_Ok by (done || zlia). eexists; split; [done|].
  set (w := zget 0 (words s) (nwords s - 1)). set (m := nrows s mod 64).
  assert (Hm : 0 ≤ m < 64) by (unfold m; zlia).
  assert (Hbit : ∀ i, Z.testbit (Z.land w (shl64 UINT64_MAX m)) i =
    (0 <=? i) && (i <? 64) && (m <=? i) && Z.testbit w i).
  { intros i. rewrite Z.land_spec, testbit_shl64, testbit_UINT64_MAX by lia.
    destruct (Z.leb_spec 0 i), (Z.ltb_spec i 64), (Z.leb_spec 0 (i - m)), (Z.ltb_spec (i - m) 64),
      (Z.leb_spec m i); simpl; try lia; by destruct (Z.testbit w i). }
  rewrite negb_false_iff, Z.eqb_eq. split.
  - intros E row Hrow. replace row with ((nwords s - 1) * 64 + row mod 64) by zlia.
    rewrite selected_at by zlia. fold w. specialize (Hbit (row mod 64)).
    rewrite E, Z.bits_0 in Hbit. symmetry in Hbit.
    destruct (Z.leb_spec 0 (row mod 64)), (Z.ltb_spec (row mod 64) 64), (Z.leb_spec m (row mod 64));
      try (unfold m in *; zlia). done.
  - intros Hclean. apply Z.bits_inj. intros i. rewrite Hbit, Z.bits_0.
    destruct (Z.leb_spec 0 i), (Z.ltb_spec i 64), (Z.leb_spec m i); simpl; try done.
    specialize (Hclean ((nwords s - 1) * 64 + i)). rewrite selected_at in Hclean by lia.
    apply Hclean. unfold m in *. zlia.
Qed.

Lemma publish_selection_wf s :
  selection_memory s → (match words s with [] => true | _ => false end) = false →
  0 < nrows s → nwords s = (nrows s + 63) / 64 → sel_wf s.
Proof.
  intros (Hn & Hu & Hl) Hw Hpos Hnw. constructor; try done. apply Hl. by destruct (words s).
Qed.

Lemma take_generation_eq {A} (f : Z → M A) Q w :
  0 ≤ next_batch_generation w < 2 ^ 64 - 1 →
  wp (f (next_batch_generation w)) Q (with_generation w (next_batch_generation w + 1)) →
  wp (take_generation ≫= f) Q w.
Proof.
  intros Hg Hw. unfold wp, take_generation, mbind, st_bind, gets, modify, mret, st_ret in *. cbn in *.
  by rewrite Z.mod_small by lia.
Qed.

(** What a successful [publish_batch] has established. *)
Definition published (w : Bridge) (b k : Z) (r : res unit) (w' : Bridge) : Prop :=
  r = Ok tt → ∃ bd bt, bindings w !! b = Some bd ∧ batches w !! k = Some bt ∧ batch bd = None ∧
    generation bt = 0 ∧ (max_rows (request bd) = 0 ∨ nrows (selection bt) ≤ max_rows (request bd)) ∧
    batch_ok bt ∧
    batches w' = <[k := set_generation bt (next_batch_generation w)]> (batches w) ∧
    next_batch_generation w' = next_batch_generation w + 1 ∧
    events w' = events w ++ [AcceptBatch (consumer_state bd) (slot bd) k] ∧
    ∃ bd', bindings w' !! b = Some bd' ∧ batch bd' = Some k ∧ finished bd' = false ∧
      request_sealed bd' = true.

Lemma publish_good w b k :
  let op := OpPublish b k in
  bridge_inv w → allowed w op → wp (run_op op) (λ r w', good op w r w' ∧ published w b k r w') w.
Proof.
  intros op Hi ((bd & Hb & Hc) & [bt Hk] & Hfree & Hgen). simpl. unfold publish_batch.
  assert (Hrefl : ∀ e, good op w (Raise e) w ∧ published w b k (Raise e) w).
  { intros e. split; [by apply good_refl|done]. }
  apply (wp_binding_at b bd); [done|].
  apply wp_error_if; [intros; apply Hrefl|]. intros Hnone.
  assert (Hbatch : batch bd = None) by (by destruct (batch bd)).
  apply (wp_batch_at k bt); [done|].
  apply wp_lift; [apply validate_abi_defined|intros; apply Hrefl|]. intros [] Hval.
  apply wp_error_if; [intros; apply Hrefl|]. intros Hshape.
  apply wp_error_if; [intros; apply Hrefl|]. intros Hzero.
  apply wp_error_if; [intros; apply Hrefl|]. intros Hmax.
  bool_prop. destruct (ops bt) as [o|] eqn:Ho; [|done].
  pose proof (bi_memory w Hi k bt Hk) as Hmem.
  assert (Hwf : sel_wf (selection bt)) by by apply publish_selection_wf.
  destruct (beyond_end_spec _ Hwf) as (beyond & -> & Hclean).
  apply wp_lift; [done|done|]. intros beyond' [= <-].
  apply wp_error_if; [intros; apply Hrefl|]. intros Hb0. apply Hclean in Hb0.
  apply wp_deref.
  assert (Habi : abi_version bt = PG_BATCH_ABI_VERSION).
  { by apply validate_abi_ok in Hval as [? _]. }
  assert (Hmaxr : max_rows (request bd) = 0 ∨ nrows (selection bt) ≤ max_rows (request bd)).
  { destruct (bi_binding w Hi b bd Hb Hc) as ((_ & _ & _ & _ & _ & Hm & _) & _).
    destruct (Z.ltb_spec 0 (max_rows (request bd))); [|left; lia]. simpl in Hmax. bool_prop. by right. }
  (* the validated table is remembered, or was already *)
  set (mid := λ w1, ∃ bd1, w1 = with_bindings w (<[b := bd1]> (bindings w)) ∧
    slot bd1 = slot bd ∧ owner bd1 = owner bd ∧ layout bd1 = layout bd ∧ consumer_ops bd1 = consumer_ops bd ∧
    request bd1 = request bd ∧ batch bd1 = None).
  apply wp_bind. apply (wp_mono _ (λ r w1, match r with
      | Ok _ => mid w1 | Raise e => w1 = w | Undefined => False end)).
  { case_bool_decide.
    - apply wp_ret. exists bd. split_and!; try done. rewrite insert_id by done. by destruct w.
    - apply wp_lift; [apply validate_abi_defined|done|]. intros [] _.
      apply wp_error_if; [done|]. intros _. apply (wp_update_binding_end b bd); [done|].
      exists (set_validated bd (Some (ops_address o))). by split_and!. }
  intros [[]|e|] w1; [|intros ->; apply Hrefl|done].
  intros (bd1 & -> & Hs1 & Ho1 & Hl1 & Hc1 & Hr1 & Hb1). cbn.
  apply (wp_update_binding b bd1); [by apply lookup_insert_eq|].
  pose proof (bi_next w Hi) as Hnext.
  apply take_generation_eq; [cbn; lia|]. cbn.
  destruct (Z.eqb_spec (next_batch_generation w) 0); [lia|]. apply wp_bind, wp_ret.
  apply (wp_update_batch k bt); [done|].
  apply (wp_update_binding b (set_sealed bd1)); [by apply lookup_insert_eq|].
  destruct Hc as [cops Hc]. rewrite Hc. apply wp_deref.
  apply wp_emit_end. cbn. rewrite !insert_insert_eq. split.
  - apply good_event. unfold with_generation, with_bindings, with_batches. cbn.
    apply (good_publish op w (Ok tt) b bd); try done.
    + destruct (bi_binding w Hi b bd Hb) as (Hreq & _); [by eexists|]. unfold request_ok in *. cbn.
      by rewrite Hl1, Hr1.
    + cbn. lia.
  - intros _. exists bd, bt. split_and!; try done.
    eexists. cbn. rewrite lookup_insert_eq. by split_and!.
Qed.

(** ** Consuming rows and resetting contexts *)

Lemma remove_row_good w k row :
  let op := OpRemoveRow k row in
  bridge_inv w → allowed w op → wp (run_op op) (good op w) w.
Proof.
  intros op Hi (bt & Hk & (b & bd & Hb & Hbk) & Hrow). apply (wp_batch_at k bt); [done|].
  destruct (bi_held w Hi b bd k Hb Hbk) as (bt0 & Hk0 & (Hs & Hclean & Hops & Habi) & Hgen).
  rewrite Hk in Hk0. injection Hk0 as <-.
  destruct (clear_ok (selection bt) row Hs Hrow) as (s' & -> & Hs' & Hn' & Hsel).
  apply wp_lift; [done|done|]. intros s'' [= <-].
  apply (wp_update_batch_end k bt); [done|].
  pose proof (good_held_batch op w (Ok tt) b bd bd k bt (set_selection bt s') Hi Hb Hbk Hk) as Hgood.
  rewrite (insert_id (bindings w)) in Hgood by done. apply Hgood; try done.
  - by apply sel_wf_memory.
  - right. by split_and!.
  - right. split; [done|]. split; [|done]. split; [done|]. split; [|done].
    intros r Hr. cbn in Hr. rewrite Hn' in Hr.
    assert (nwords s' = nwords (selection bt)) as Hnw by (rewrite (wf_nwords _ Hs), (wf_nwords _ Hs'); congruence).
    rewrite Hnw in Hr. pose proof (wf_nrows _ Hs). rewrite Hsel by lia. by rewrite Hclean.
Qed.
Lemma elem_filter_ctx (l : list (Z * Z)) ctx c b :
  (c, b) ∈ filter (λ c, c.1 ≠ ctx) l ↔ c ≠ ctx ∧ (c, b) ∈ l.
Proof. by rewrite list_elem_of_filter. Qed.

(** The callbacks of a context remove the slots of its bindings from the
    table, and nothing else. *)
Lemma run_callbacks_spec cbs : ∀ w table,
  slot_entries w = Some table →
  (∀ c, c ∈ cbs → ∃ bd, bindings w !! c.2 = Some bd) →
  wp (run_callbacks cbs) (λ r w', r = Ok tt ∧ ∃ table', w' = with_slots w (Some table') ∧
    ∀ s entry, table' !! s = Some entry ↔ table !! s = Some entry ∧
      ∀ c bd, c ∈ cbs → bindings w !! c.2 = Some bd → slot bd ≠ s) w.
Proof.
  induction cbs as [|c cbs IH]; intros w table Ht Hlive; simpl.
  - apply wp_ret. split; [done|]. exists table. split; [by destruct w; cbn in *; subst|].
    intros s entry. split; [|by intros [? _]]. intros Hs. split; [done|]. intros c bd Hc.
    by apply elem_of_nil in Hc.
  - destruct (Hlive c) as [bd Hb]; [by left|]. apply wp_bind.
    unfold slot_reset. apply (wp_binding_at c.2 bd); [done|]. apply wp_gets. rewrite Ht.
    assert (Hstep : wp (run_callbacks cbs) (λ r w', r = Ok tt ∧ ∃ table', w' = with_slots w (Some table') ∧
        ∀ s entry, table' !! s = Some entry ↔ table !! s = Some entry ∧
          ∀ c0 bd0, c0 ∈ c :: cbs → bindings w !! c0.2 = Some bd0 → slot bd0 ≠ s)
        (with_slots w (Some (delete (slot bd) table)))).
    { eapply wp_mono; [apply (IH _ (delete (slot bd) table)); [done|set_solver]|].
      intros r w' (-> & table' & -> & Htab). split; [done|]. exists table'. split; [done|].
      intros s entry. rewrite Htab, lookup_delete_Some. cbn. split.
        + intros [[Hne Hs] Hall]. split; [done|]. intros c0 bd0 [->|Hc0]%elem_of_cons Hb0; [congruence|].
          by eapply Hall.
        + intros [Hs Hall]. split_and!; [|done|]; [by apply (Hall c); [left|]|].
          intros c0 bd0 Hc0. apply Hall. by right. }
    destruct (table !! slot bd) as [b0|] eqn:Hs0.
    + by apply wp_modify_end.
    + apply wp_ret. rewrite delete_id in Hstep by done.
      replace (with_slots w (Some table)) with w in Hstep; [done|]. destruct w. cbn in *. by subst.
Qed.

(** What the callbacks of one context leave of the slot table: the entries of
    all slots but those of its bindings. *)
Lemma context_callbacks_spec w ctx :
  bridge_inv w →
  wp (run_callbacks (filter (λ c, c.1 = ctx) (callbacks w))) (λ r w', r = Ok tt ∧ ∃ entries, w' = with_slots w entries ∧
    ∀ s entry, (entries ≫= λ table, table !! s) = Some entry ↔ entry_of w s = Some entry ∧
      ∀ b bd, bindings w !! b = Some bd → complete bd → owner bd = ctx → slot bd ≠ s) w.
Proof.
  intros []. set (cbs := filter _ _).
  assert (Hcbs : ∀ b bd, bindings w !! b = Some bd → ((ctx, b) ∈ cbs ↔ complete bd ∧ owner bd = ctx)).
  { intros b bd Hb. unfold cbs. rewrite list_elem_of_filter. cbn. split.
    - intros [_ Hc]. destruct (bi_callback ctx b Hc) as (bd' & Hb' & ? & ?).
      assert (bd' = bd) as -> by congruence. done.
    - intros [Hc <-]. split; [done|]. by apply (bi_binding b bd). }
  assert (Hctx : ∀ c, c ∈ cbs → c = (ctx, c.2) ∧ ∃ bd, bindings w !! c.2 = Some bd).
  { intros [c b] Hin. pose proof Hin as Hin0. unfold cbs in Hin. apply list_elem_of_filter in Hin as [E Hin].
    cbn in E. subst c. split; [done|]. destruct (bi_callback ctx b Hin) as (bd & Hb & _). by exists bd. }
  assert (Hfold : ∀ s, (∀ c bd, c ∈ cbs → bindings w !! c.2 = Some bd → slot bd ≠ s) ↔
    ∀ b bd, bindings w !! b = Some bd → complete bd → owner bd = ctx → slot bd ≠ s).
  { intros s. split.
    - intros Hall b bd Hb Hc Ho. apply (Hall (ctx, b)); [|done]. by apply (Hcbs b bd).
    - intros Hall [c b] bd Hin Hb. destruct (Hctx _ Hin) as [[= ->] _]. cbn in Hb.
      destruct (proj1 (Hcbs b bd Hb) Hin). by apply (Hall b). }
  destruct (slot_entries w) as [table|] eqn:Ht.
  - eapply wp_mono; [apply (run_callbacks_spec cbs w table Ht)|].
    + intros c Hin. by apply Hctx.
    + intros r w' (-> & table' & -> & Htab). split; [done|]. exists (Some table'). split; [done|].
      intros s entry. cbn. unfold entry_of. rewrite Ht. cbn. by rewrite Htab, Hfold.
  - assert (cbs = []) as ->.
    { destruct cbs as [|[c b] l] eqn:E; [done|]. exfalso. unfold entry_of in *. rewrite Ht in *.
      destruct (Hctx (c, b)) as [[= ->] [bd Hb]]; [by left|]. cbn in Hb.
      destruct (proj1 (Hcbs b bd Hb)) as [Hc _]; [by left|]. by destruct (bi_binding b bd Hb Hc) as (_ & _ & ?). }
    apply wp_ret. split; [done|]. exists None. split; [by destruct w; cbn in *; subst|].
    intros s entry. cbn. unfold entry_of. rewrite Ht. cbn. by split; [|intros [? _]].
Qed.

Lemma reset_good w ctx :
  let op := OpReset ctx in
  bridge_inv w → allowed w op → wp (run_op op) (good op w) w.
Proof.
  intros op Hi _. simpl. apply wp_gets, wp_bind.
  eapply wp_mono; [by apply context_callbacks_spec|].
  intros r w1 (-> & entries & -> & Htab). apply wp_modify, wp_modify_end. destruct Hi. split; [|split].
  - constructor; cbn; try done.
    + intros b bd [Hb Hown]%map_lookup_filter_Some Hc. cbn in Hown.
      destruct (bi_binding b bd Hb Hc) as (Hreq & Hcb & He). split_and!; [done|by apply elem_filter_ctx|].
      apply Htab. split; [done|]. intros b' bd' Hb' Hc' Ho' Hsl.
      destruct (bi_binding b' bd' Hb' Hc') as (_ & _ & He'). rewrite Hsl, He in He'.
      injection He' as <-. congruence.
    + intros c b [Hne Hc]%elem_filter_ctx. destruct (bi_callback c b Hc) as (bd & Hb & Hcomp & Hown).
      exists bd. split; [|done]. apply map_lookup_filter_Some. cbn. by rewrite Hown.
    + intros b bd k [Hb _]%map_lookup_filter_Some. by apply (bi_held b).
    + intros b1 b2 bd1 bd2 k [Hb1 _]%map_lookup_filter_Some [Hb2 _]%map_lookup_filter_Some.
      by apply (bi_unique b1 b2 bd1 bd2 k).
  - constructor; cbn; [done| |].
    + intros b bd Hb. destruct (decide (owner bd = ctx)) as [<-|Hown]; [by right; right|].
      left. exists bd. split; [by apply map_lookup_filter_Some|by split_and!].
    + intros k bt Hk Hg. right. exists bt. split_and!; try done. intros b bd Hb Hbk Hop.
      exists bd. split; [|done]. apply map_lookup_filter_Some. split; [done|]. cbn.
      intros <-. by apply Hop.
  - intros s (entry & He & Hall). apply Htab in He as [He Hslots]. left. exists entry. split; [done|].
    intros b bd -> Hb Hc. destruct (decide (owner bd = ctx)) as [Ho|Ho]; [by apply (Hslots b bd)|].
    apply (Hall b bd); [done| |done]. by apply map_lookup_filter_Some.
Qed.

Lemma run_op_good w op : bridge_inv w → allowed w op → wp (run_op op) (good op w) w.
Proof.
  destruct op; intros Hi Ha.
  - by apply attach_good.
  - by apply set_request_good.
  - by apply set_source_good.
  - by apply seal_good.
  - eapply wp_mono; [by apply publish_good|]. by intros r w' [Hg _].
  - by apply select_row_good.
  - by apply view_select_good.
  - by apply finish_good.
  - by apply clear_good.
  - by apply detach_good.
  - by apply reset_good.
  - by apply prepare_good.
  - by apply remove_row_good.
Qed.
End bridge_ops.
