(* ===== verification/BridgeProps.v ===== *)
(** * The bridge: what clients may rely on

    Properties of every state the bridge can reach while its clients keep the
    contract of [BridgeInv.v]. *)

From S2P Require Import Prelude Words Selection Bitmaps Batch Bridge BridgeInv BridgeOps.

Section bridge_props.
Context `{PgCore} `{Bitmapsets}.

Inductive reachable : Bridge → Prop :=
| reach_init : reachable init_bridge
| reach_step w op : reachable w → allowed w op → reachable (run_op op w).2.

Lemma reachable_inv w : reachable w → bridge_inv w.
Proof.
  induction 1 as [|w op _ IH Ha]; [apply init_inv|].
  by destruct (run_op_good w op IH Ha) as [_ [? _]].
Qed.

(** Allowed steps from one state to a later one, all of which satisfy [P]. *)
Inductive steps (P : bridge_op → Prop) : Bridge → Bridge → Prop :=
| steps_refl w : steps P w w
| steps_next w w' op : steps P w w' → allowed w' op → P op → steps P w (run_op op w').2.

Lemma steps_reachable P w w' : reachable w → steps P w w' → reachable w'.
Proof. induction 2 as [|w w' op _ IH Ha _]; [done|]. apply reach_step; auto. Qed.

Lemma step_evolves w op : reachable w → allowed w op → evolves op w (run_op op w).2.
Proof.
  intros Hw Ha. by destruct (run_op_good w op (reachable_inv w Hw) Ha) as [_ (_ & ? & _)].
Qed.


(** Arguments [attach_slot] takes. *)
Definition attachable (l : PgBatchLayout) (cops : PgBatchConsumerOps) : Prop :=
  pg_batch_check_layout (Some l) = Ok tt ∧ consumer_abi_version cops = PG_BATCH_CONSUMER_OPS_ABI_VERSION ∧
  PG_BATCH_CONSUMER_OPS_MIN_SIZE ≤ consumer_struct_size cops ∧ has_accept_batch cops = true ∧
  has_select_row cops = true.

(** A slot that has an entry cannot be attached. *)
Lemma attach_refused w memory s l cops cstate :
  attachable l cops → is_Some (entry_of w (slot_address s)) →
  attach_slot memory (Some s) (Some l) (Some cops) cstate w =
    (Raise (Elog "pg_batch slot is already configured"), w).
Proof.
  intros (Hlay & Habi & Hsize & Ha & Hsel) [entry He]. unfold entry_of in He.
  destruct (slot_entries w) as [table|] eqn:Ht; [|done]. cbn in He.
  unfold attach_slot, init_slots, slot_table, elog_if, error_if, deref, lift, gets, mbind, st_bind. rewrite Hlay. cbn.
  unfold validate_abi. rewrite Habi. destruct (Z.ltb_spec (consumer_struct_size cops) PG_BATCH_CONSUMER_OPS_MIN_SIZE);
    [lia|]. cbn. rewrite Ha, Hsel. cbn. rewrite Ht. cbn. by rewrite Ht, He.
Qed.

(** [find_binding] returns exactly the live binding of a slot, unless an
    attachment of the slot has failed half-way: never a binding that has been
    detached or whose memory context has been reset; and attaching a slot that
    has one is refused. *)
Theorem find_binding_spec w s b :
  reachable w → ¬ abandoned w (slot_address s) →
  (find_binding (slot_address s) w = (Ok (Some b), w) ↔
     ∃ bd, bindings w !! b = Some bd ∧ complete bd ∧ slot bd = slot_address s) ∧
  (∀ memory bd l cops cstate, bindings w !! b = Some bd → complete bd → slot bd = slot_address s → attachable l cops →
     attach_slot memory (Some s) (Some l) (Some cops) cstate w =
       (Raise (Elog "pg_batch slot is already configured"), w)).
Proof.
  intros Hw%reachable_inv Hab. split; [split|].
  - intros Hf. assert (entry_of w (slot_address s) = Some (Some b)) as He.
    { revert Hf. unfold find_binding, entry_of, deref, lift, gets, mret, st_ret, mbind, st_bind.
      destruct (slot_entries w) as [table|]; [|done]. cbn. destruct (table !! _) as [[b'|]|]; cbn; congruence. }
    destruct (bindings w !! b) as [bd|] eqn:Hb; [destruct (consumer_ops bd) as [cops|] eqn:Hc|];
      [destruct (decide (slot bd = slot_address s)) as [|Hne]; [exists bd; split_and!; [done|by eexists|done]|]| |];
      destruct Hab; exists (Some b); (split; [done|]); intros b' bd' [= <-] Hb' Hc'; unfold complete in *.
    + congruence.
    + destruct Hc'. congruence.
    + congruence.
  - intros (bd & Hb & Hc & Hs). destruct (bi_binding w Hw b bd Hb Hc) as (_ & _ & He). rewrite Hs in He.
    unfold find_binding, deref, lift, gets, mret, st_ret, mbind, st_bind. unfold entry_of in He.
    destruct (slot_entries w) as [table|]; [|done]. cbn in *. by rewrite He.
  - intros memory bd l cops cstate Hb Hc Hs Hok. apply attach_refused; [done|].
    destruct (bi_binding w Hw b bd Hb Hc) as (_ & _ & He). rewrite Hs in He. by eexists.
Qed.

(** The state [attach_slot] leaves when the layout of the new binding cannot be
    allocated: the entry points to the zeroed binding. *)
Lemma attach_stops w memory s l cops cstate :
  attachable l cops → entry_of w (slot_address s) = None →
  memory 0%nat = true → memory 1%nat = true → memory 2%nat = true → memory 3%nat = false →
  wp (attach_slot memory (Some s) (Some l) (Some cops) cstate) (λ r w', r = Raise out_of_memory ∧
    ∃ table b bd, entry_of w' (slot_address s) = Some (Some b) ∧ slot_entries w' = Some table ∧
      bindings w !! b = None ∧ bindings w' = <[b := bd]> (bindings w) ∧ owner bd = tts_mcxt s ∧
      callbacks w' = callbacks w) w.
Proof.
  intros (Hlay & Habi & Hsize & Ha & Hsel) He Hm0 Hm1 Hm2 Hm3. unfold attach_slot.
  apply wp_lift; [by rewrite Hlay|by rewrite Hlay|]. intros [] _. apply wp_deref.
  apply wp_lift; [apply validate_abi_defined| |].
  { intros e. unfold validate_abi. rewrite Habi.
    by destruct (Z.ltb_spec (consumer_struct_size cops) PG_BATCH_CONSUMER_OPS_MIN_SIZE); [lia|]. }
  intros [] _. apply wp_error_if; [by rewrite Ha, Hsel|]. intros _. rewrite Hm0.
  set (table := match slot_entries w with Some table => table | None => ∅ end).
  assert (Hnone : table !! slot_address s = None).
  { unfold entry_of in He. unfold table. by destruct (slot_entries w). }
  apply wp_bind, (wp_mono _ (λ r w', r = Ok tt ∧ w' = with_slots w (Some table))).
  { unfold init_slots, table. apply wp_gets. destruct (slot_entries w) eqn:Ht; [|by apply wp_modify_end].
    apply wp_ret. split; [done|]. rewrite <- Ht. by destruct w. }
  intros r w' (-> & ->). apply (wp_slot_table table); [done|]. rewrite Hnone.
  apply wp_error_if; [done|]. intros _. apply wp_error_if; [by rewrite Hm1|]. intros _.
  apply (wp_update_slots table); [done|]. apply wp_error_if; [by rewrite Hm2|]. intros _. apply wp_gets. cbn.
  set (b := fresh (dom (bindings w))). apply wp_modify.
  apply (wp_update_slots (<[slot_address s := None]> table)); [done|].
  apply wp_error_if; [|by rewrite Hm3]. intros _. split; [done|]. eexists _, b, _. cbn.
  split; [by unfold entry_of; cbn; rewrite lookup_insert_eq|]. split; [done|].
  split; [apply not_elem_of_dom, is_fresh|]. by split_and!.
Qed.

(** What the bookkeeping misses.  When an allocation fails after the slot has
    been entered, its entry keeps pointing to the binding and no callback is
    registered for it.  Once the context of the slot is reset, which frees the
    binding, [find_binding] still returns it, and the slot cannot be attached
    any more. *)
Theorem attach_out_of_memory w memory s l cops cstate :
  let attach := OpAttach memory s l cops cstate in
  let failed := (run_op attach w).2 in
  let reset := (run_op (OpReset (tts_mcxt s)) failed).2 in
  reachable w → allowed w attach → attachable l cops → entry_of w (slot_address s) = None →
  memory 0%nat = true → memory 1%nat = true → memory 2%nat = true → memory 3%nat = false →
  (run_op attach w).1 = Raise out_of_memory ∧
  ∃ b, (∀ ctx, (ctx, b) ∉ callbacks failed) ∧ bindings reset !! b = None ∧
    find_binding (slot_address s) reset = (Ok (Some b), reset) ∧
    ∀ memory', attach_slot memory' (Some s) (Some l) (Some cops) cstate reset =
      (Raise (Elog "pg_batch slot is already configured"), reset).
Proof.
  intros attach failed reset Hw Hallowed Hok He Hm0 Hm1 Hm2 Hm3.
  pose proof (reachable_inv w Hw) as Hi. pose proof (reach_step w attach Hw Hallowed) as Hw1.
  destruct (attach_stops w memory s l cops cstate Hok He Hm0 Hm1 Hm2 Hm3) as [_ (Er & table & b & bd & Hent & Ht & Hb & Hbs & Ho & Hcb)].
  assert (Hrun : run_op attach w = (Raise out_of_memory, (attach_slot memory (Some s) (Some l) (Some cops) cstate w).2)).
  { unfold attach, run_op, ignore, mbind, st_bind. destruct (attach_slot _ _ _ _ _ _) as [r w']. cbn in *. by subst. }
  assert (Hf : failed = (attach_slot memory (Some s) (Some l) (Some cops) cstate w).2) by (unfold failed; by rewrite Hrun).
  rewrite <- Hf in *. split; [by rewrite Hrun|].
  pose proof (reachable_inv _ Hw1) as Hi1. fold failed in Hi1.
  assert (entry_of reset (slot_address s) = Some (Some b) ∧ bindings reset !! b = None) as [Hent2 Hb2].
  { pose proof (context_callbacks_spec failed (tts_mcxt s) Hi1) as [_ (Er2 & entries & E2 & Htab)].
    assert (reset = with_bindings (with_callbacks (with_slots failed entries)
      (filter (λ c, c.1 ≠ tts_mcxt s) (callbacks failed))) (filter (λ kv, owner kv.2 ≠ tts_mcxt s) (bindings failed))) as ->.
    { unfold reset, run_op, reset_context, gets, modify, mbind, st_bind. destruct (run_callbacks _ failed) as [r w'].
      cbn in *. by subst. }
    unfold entry_of. cbn. split.
    - apply Htab. split; [done|]. intros b' bd' Hb' Hc' _ Hsl.
      destruct (bi_binding failed Hi1 b' bd' Hb' Hc') as (_ & Hcb' & He'). rewrite Hsl, Hent in He'. injection He' as <-.
      rewrite Hcb in Hcb'. destruct (bi_callback w Hi _ _ Hcb') as (? & ? & _). congruence.
    - apply map_lookup_filter_None. right. intros bd' Hb'. rewrite Hbs, lookup_insert_eq in Hb'. injection Hb' as <-. cbn. auto. }
  exists b. split_and!; [|done| |].
  - intros ctx Hin. rewrite Hcb in Hin. destruct (bi_callback w Hi _ _ Hin) as (? & ? & _). congruence.
  - unfold find_binding, deref, lift, gets, mret, st_ret, mbind, st_bind. unfold entry_of in Hent2.
    destruct (slot_entries reset) as [t|]; [|done]. cbn in *. by rewrite Hent2.
  - intros memory'. apply attach_refused; [done|by eexists].
Qed.

(** C14. A published batch is well formed, fits the request and gets a
    generation no batch ever had: a successful [publish_batch] has seen a
    free batch of the right ABI within [max_rows], with its selection words
    consistent and no bit set beyond the last row; it seals the request,
    makes the batch the binding's active one and tells the consumer once. *)
Theorem publish_batch_spec w b k :
  reachable w → allowed w (OpPublish b k) → (run_op (OpPublish b k) w).1 = Ok tt →
  published w b k (Ok tt) (run_op (OpPublish b k) w).2 ∧
  ∀ k' bt', batches w !! k' = Some bt' → generation bt' < next_batch_generation w.
Proof.
  intros Hw Ha Hok. pose proof (reachable_inv w Hw) as Hi. split.
  - destruct (publish_good w b k Hi Ha) as [_ [_ Hpub]]. by rewrite Hok in Hpub.
  - intros k' bt' Hk'. by apply (bi_generation w Hi k' bt').
Qed.

(** What a view taken of binding [b] implies later on. *)
Definition view_valid (b k g o : Z) (w : Bridge) : Prop :=
  g < next_batch_generation w ∧
  ∀ bt, batches w !! k = Some bt → generation bt = g →
    ∃ bd, bindings w !! b = Some bd ∧ batch bd = Some k ∧ finished bd = false ∧ owner bd = o.

Lemma view_valid_steps b k g o w w' :
  reachable w → g ≠ 0 → view_valid b k g o w → steps (λ op, op ≠ OpReset o) w w' → view_valid b k g o w'.
Proof.
  intros Hw Hg Hv Hst. induction Hst as [|w w' op Hst IH Ha Hop]; [done|].
  destruct (IH Hw Hv) as [Hlt Hact]. pose proof (steps_reachable _ _ _ Hw Hst) as Hw'.
  destruct (step_evolves w' op Hw' Ha) as [Hn _ Hev]. split; [lia|].
  intros bt Hk Hgen. destruct (Hev k bt Hk) as [Hnew|(bt0 & Hk0 & Hg0 & Hheld)]; [lia|lia|].
  destruct (Hact bt0 Hk0) as (bd & Hb & Hbk & Hf & Ho); [congruence|].
  destruct (Hheld b bd Hb Hbk) as (bd' & Hb' & Hbk' & Hf' & Ho'); [by rewrite Ho|].
  exists bd'. split_and!; try done; congruence.
Qed.

(** C8. A stale row view never selects a row: whatever happens after
    [get_row_view] - the batch finished, cleared, published again on this or
    another binding, the binding detached - a later
    [pg_batch_row_view_select] through the view succeeds only if the batch is
    still the unfinished batch of the same binding, and the row is still
    selected.  (Resetting the context that owns the binding also frees the
    memory the view points to.) *)
Theorem row_view_stale w b v w1 w' row s w'' :
  reachable w → get_row_view (Some b) (Some PG_BATCH_ROW_VIEW_MIN_SIZE) w = (Ok v, w1) →
  (∀ bd, bindings w !! b = Some bd → steps (λ op, op ≠ OpReset (owner bd)) w w') →
  pg_batch_row_view_select (Some v) row w' = (Ok s, w'') →
  ∃ bd bt k, view_batch v = Some k ∧ bindings w' !! b = Some bd ∧ batch bd = Some k ∧
    finished bd = false ∧ batches w' !! k = Some bt ∧ 0 ≤ row < nrows (selection bt) ∧
    selected (selection bt) row = true ∧
    w'' = with_event w' (SelectRow (view_consumer_state v) (view_slot v) k row).
Proof.
  intros Hw Hview Hsteps Hsel. pose proof (reachable_inv w Hw) as Hi.
  (* the view *)
  unfold get_row_view, binding_at, batch_at, elog_if, error_if, deref, lift, gets, mret, st_ret, mbind, st_bind
    in Hview. cbn in Hview.
  destruct (bindings w !! b) as [bd|] eqn:Hb; [|done]. cbn in Hview.
  destruct (batch bd) as [k|] eqn:Hk; [|done]. destruct (finished bd) eqn:Hf; [done|]. cbn in Hview.
  destruct (bi_held w Hi b bd k Hb Hk) as (bt0 & Hbt0 & _ & Hg0). rewrite Hf in Hg0.
  rewrite Hbt0 in Hview. destruct (consumer_ops bd) as [cops|]; [|done]. injection Hview as <- <-.
  specialize (Hsteps bd eq_refl). pose proof (steps_reachable _ _ _ Hw Hsteps) as Hw'.
  assert (Hv : view_valid b k (generation bt0) (owner bd) w').
  { eapply view_valid_steps; [exact Hw|done| |done]. split.
    - by apply (bi_generation w Hi k bt0).
    - intros bt Hbt _. exists bd. by split_and!. }
  (* the selection through it *)
  unfold pg_batch_row_view_select, batch_at, deref, lift, gets, emit, modify, mret, st_ret, mbind, st_bind in Hsel. cbn in Hsel.
  destruct (Z.eqb_spec (generation bt0) 0); [done|].
  destruct (batches w' !! k) as [bt|] eqn:Hbt; [|done]. cbn in Hsel.
  destruct (Z.eqb_spec (generation bt) (generation bt0)) as [Hgen|]; [|done]. cbn in Hsel.
  destruct (negb _); [done|].
  destruct (proj2 Hv bt Hbt Hgen) as (bd' & Hb' & Hk' & Hf' & _).
  destruct (bi_held w' (reachable_inv w' Hw') b bd' k Hb' Hk') as (bt1 & Hbt1 & (Hwf & _) & _).
  rewrite Hbt in Hbt1. injection Hbt1 as <-. rewrite row_selected_ok in Hsel by done.
  destruct (Z.leb_spec 0 row), (Z.ltb_spec row (nrows (selection bt))); cbn in Hsel; try done.
  destruct (selected (selection bt) row) eqn:Hrow; cbn in Hsel; [|done].
  injection Hsel as _ <-. exists bd', bt, k. by split_and!.
Qed.

(** C35. A sealed request is final: from [seal_request] or the first
    published batch on, and until the binding is detached or its context
    reset, [get_request] keeps returning the same request and
    [set_request] is refused. *)
Theorem sealed_request w b bd w' :
  reachable w → bindings w !! b = Some bd → request_sealed bd = true →
  steps (λ op, op ≠ OpDetach b ∧ op ≠ OpReset (owner bd)) w w' →
  get_request (Some b) w' = (Ok (Some (request bd)), w') ∧
  ∀ memory spec, PG_BATCH_REQUEST_SPEC_MIN_SIZE ≤ spec_struct_size spec →
    set_request memory (Some b) (Some spec) w' = (Raise (Elog "pg_batch request is already sealed"), w').
Proof.
  intros Hw Hb Hseal Hst.
  assert (∃ bd', bindings w' !! b = Some bd' ∧ owner bd' = owner bd ∧ request bd' = request bd ∧
    request_sealed bd' = true) as (bd' & Hb' & _ & Hr' & Hs').
  { induction Hst as [w|w w' op Hst IH Ha [Hop1 Hop2]]; [by exists bd|].
    destruct (IH Hw Hb) as (bd' & Hb' & Ho' & Hr' & Hs').
    pose proof (steps_reachable _ _ _ Hw Hst) as Hw'.
    destruct (step_evolves w' op Hw' Ha) as [_ Hev _].
    destruct (Hev b bd' Hb') as [(bd2 & Hb2 & _ & Ho2 & _ & _ & Hkeep)|[->| ->]]; [|done|congruence].
    destruct (Hkeep Hs') as [Hs2 Hr2]. exists bd2. split_and!; try done; congruence. }
  unfold get_request, set_request, binding_at, elog_if, error_if, deref, lift, gets, mret, st_ret, mbind, st_bind.
  rewrite Hb'. cbn. rewrite Hr', Hs'. split; [done|]. intros memory spec Hspec.
  destruct (Z.ltb_spec (spec_struct_size spec) PG_BATCH_REQUEST_SPEC_MIN_SIZE); [lia|done].
Qed.
End bridge_props.

(** ** A sample run

    A slot is attached, a batch of three rows prepared and published, and a
    view of it used before and after the batch is finished. *)

Lemma not_held `{Bitmapsets} w k :
  forallb (λ kv, negb (bool_decide (batch kv.2 = Some k))) (map_to_list (bindings w)) = true → ¬ held w k.
Proof.
  intros Hall (b & bd & Hb & Hk). rewrite forallb_forall in Hall.
  specialize (Hall (b, bd)). simpl in Hall. rewrite bool_decide_true in Hall by done.
  assert (false = true); [|done]. apply Hall. apply list_elem_of_In. by apply elem_of_map_to_list.
Qed.

Definition sample_slot : TupleTableSlot := mkSlot 100 7.
Definition sample_layout : PgBatchLayout := mkLayout 24 2 2 (Some [1; 0]).
Definition sample_consumer : PgBatchConsumerOps := mkConsumerOps 1 32 true true.
Definition sample_batch : PgBatch :=
  mkBatch 1 64 (mkSelection 3 1 [5]) 0 (Some (mkOps 300 1 48 true false false false)) 0 0.
Definition sample_request : PgBatchRequestSpec := mkSpec 32 {[ 1 ]} {[ 0; 1 ]} PG_BATCH_OUTPUT_BATCH 10.

(** The address [fresh] gives the first binding. *)
Definition sample_binding : Z := fresh (∅ : gset Z).
Definition sample_script : list bridge_op :=
  [OpAttach (λ _, true) sample_slot sample_layout sample_consumer 55;
   OpSetRequest (λ _, true) sample_binding sample_request;
   OpPrepare 10 sample_batch; OpPublish sample_binding 10].
Definition run_script (ops : list bridge_op) (w : Bridge) : Bridge := foldl (λ w op, (run_op op w).2) w ops.
(** The state before and after the publication, and after [pg_batch_finish]. *)
Definition sample_prepared : Bridge := run_script (take 3 sample_script) init_bridge.
Definition sample_published : Bridge := run_script sample_script init_bridge.

Lemma attached_bool `{Bitmapsets} w b :
  Is_true (match bindings w !! b with Some bd => bool_decide (is_Some (consumer_ops bd)) | None => false end) → attached w b.
Proof.
  unfold attached, complete. destruct (bindings w !! b) as [bd|]; [|done].
  intros Hc%bool_decide_unpack. by exists bd.
Qed.

(** A lookup in a concrete state that finds something, and a binding in one
    that is complete. *)
Ltac live := refine (bool_decide_unpack _ _); vm_compute; exact I.
Ltac attached := apply attached_bool; vm_compute; exact I.

Lemma sample_publish_allowed : allowed sample_prepared (OpPublish sample_binding 10).
Proof.
  split; [attached|]. split; [live|]. split; [apply not_held; by vm_compute|by vm_compute].
Qed.

Lemma sample_prepared_reachable : reachable sample_prepared.
Proof.
  unfold sample_prepared, sample_script. cbn [take run_script foldl].
  apply reach_step; [apply reach_step; [apply reach_step; [constructor|]|]|].
  - intros cs [= <-]. done.
  - attached.
  - split; [apply not_held; by vm_compute|]. split; [done|]. split; [done|].
    split; [constructor; [done|constructor]|done].
Qed.

Lemma sample_published_reachable : reachable sample_published.
Proof. exact (reach_step _ _ sample_prepared_reachable sample_publish_allowed). Qed.


(** A layout that cannot be allocated on the first attachment of the slot. *)
Definition no_layout : nat → bool := λ i, negb (i =? 3)%nat.
Definition sample_failed : Bridge := (run_op (OpAttach no_layout sample_slot sample_layout sample_consumer 55) init_bridge).2.
Definition sample_reset : Bridge := (run_op (OpReset 7) sample_failed).2.

Lemma attach_out_of_memory_witness :
  (run_op (OpAttach no_layout sample_slot sample_layout sample_consumer 55) init_bridge).1 = Raise out_of_memory ∧
  ∃ b, (∀ ctx, (ctx, b) ∉ callbacks sample_failed) ∧ bindings sample_reset !! b = None ∧
    find_binding (slot_address sample_slot) sample_reset = (Ok (Some b), sample_reset) ∧
    ∀ memory', attach_slot memory' (Some sample_slot) (Some sample_layout) (Some sample_consumer) 55 sample_reset =
      (Raise (Elog "pg_batch slot is already configured"), sample_reset).
Proof.
  apply (attach_out_of_memory init_bridge no_layout sample_slot sample_layout sample_consumer 55); try done; [constructor|].
  intros cs [= <-]. done.
Defined.

Lemma publish_batch_spec_witness :
  (run_op (OpPublish sample_binding 10) sample_prepared).1 = Ok tt ∧
  published sample_prepared sample_binding 10 (Ok tt) (run_op (OpPublish sample_binding 10) sample_prepared).2 ∧
  ∀ k' bt', batches sample_prepared !! k' = Some bt' → generation bt' < next_batch_generation sample_prepared.
Proof.
  assert (E : (run_op (OpPublish sample_binding 10) sample_prepared).1 = Ok tt) by by vm_compute.
  split; [exact E|].
  exact (publish_batch_spec _ _ _ sample_prepared_reachable sample_publish_allowed E).
Defined.

(** A view of the published batch; then the consumer removes row 0. *)
Definition sample_view : PgBatchRowView := mkView 48 100 (Some 10) 1 55 true.
Definition sample_removed : Bridge := (run_op (OpRemoveRow 10 0) sample_published).2.

Lemma sample_remove_allowed : allowed sample_published (OpRemoveRow 10 0).
Proof.
  exists (mkBatch 1 64 (mkSelection 3 1 [5]) 0 (Some (mkOps 300 1 48 true false false false)) 0 1).
  split; [by vm_compute|]. split; [|done].
  assert (E : (batch <$> bindings sample_published !! sample_binding) = Some (Some 10)) by by vm_compute.
  apply fmap_Some in E as (bd & Hb & Hk). by exists sample_binding, bd.
Qed.

Lemma get_row_view_state `{Bitmapsets} binding capacity w : (get_row_view binding capacity w).2 = w.
Proof.
  unfold get_row_view, elog_if, error_if, binding_at, batch_at, deref, lift, gets, mret, st_ret, mbind, st_bind.
  repeat (case_match; simplify_eq/=; try done).
Qed.

Lemma row_view_stale_witness :
  get_row_view (Some sample_binding) (Some PG_BATCH_ROW_VIEW_MIN_SIZE) sample_published =
    (Ok sample_view, sample_published) ∧
  ∃ bd bt k, view_batch sample_view = Some k ∧ bindings sample_removed !! sample_binding = Some bd ∧
    batch bd = Some k ∧ finished bd = false ∧ batches sample_removed !! k = Some bt ∧
    0 ≤ 2 < nrows (selection bt) ∧ selected (selection bt) 2 = true ∧
    (pg_batch_row_view_select (Some sample_view) 2 sample_removed).2 =
      with_event sample_removed (SelectRow (view_consumer_state sample_view) (view_slot sample_view) k 2).
Proof.
  assert (E : get_row_view (Some sample_binding) (Some PG_BATCH_ROW_VIEW_MIN_SIZE) sample_published =
    (Ok sample_view, sample_published)).
  { rewrite (surjective_pairing (get_row_view _ _ _)), get_row_view_state. by f_equal. }
  split; [exact E|].
  assert (Hst : ∀ bd, bindings sample_published !! sample_binding = Some bd →
    steps (λ op, op ≠ OpReset (owner bd)) sample_published sample_removed).
  { intros bd _. apply (steps_next _ _ sample_published); [constructor|exact sample_remove_allowed|discriminate]. }
  assert (E2 : (pg_batch_row_view_select (Some sample_view) 2 sample_removed).1 = Ok 100) by by vm_compute.
  destruct (pg_batch_row_view_select (Some sample_view) 2 sample_removed) as [r w''] eqn:Hsel.
  cbn in E2 |- *. rewrite E2 in Hsel.
  exact (row_view_stale _ _ _ _ _ _ _ _ sample_published_reachable E Hst Hsel).
Defined.

Lemma sealed_request_witness : ∃ bd, max_rows (request bd) = 10 ∧ request_sealed bd = true ∧
  get_request (Some sample_binding) sample_removed = (Ok (Some (request bd)), sample_removed) ∧
  ∀ memory spec, PG_BATCH_REQUEST_SPEC_MIN_SIZE ≤ spec_struct_size spec →
    set_request memory (Some sample_binding) (Some spec) sample_removed =
      (Raise (Elog "pg_batch request is already sealed"), sample_removed).
Proof.
  assert (E : ((λ bd, (request_sealed bd, max_rows (request bd))) <$> bindings sample_published !! sample_binding) =
    Some (true, 10)) by by vm_compute.
  apply fmap_Some in E as (bd & Hb & E). injection E as Hs Hr. exists bd.
  split; [done|]. split; [done|].
  apply (sealed_request sample_published sample_binding bd); [exact sample_published_reachable|exact Hb|done|].
  apply (steps_next _ _ sample_published); [constructor|exact sample_remove_allowed|split; discriminate].
Defined.
