(* ===== verification/Builder.v ===== *)
(** * The batch builder ([runtime/builder.c])

    Rows of tuple slots are copied into column-major Datum arrays and handed
    out as one batch.  Copying a pass-by-reference Datum is PostgreSQL's
    [datumCopy] ([utils/datum.h]): a new Datum with the same contents. *)

From S2P Require Import Prelude Words Selection Vector Bitmaps Batch Columns Bridge BridgeInv.

Class Datums : Type := {
  (** [datumCopy(value, false, typLen)] *)
  datumCopy : Z → Z → Z;
  (** What a Datum of a type of the given length stands for. *)
  datum_contents : bool → Z → Z → Z;
  datum_byval d len : datum_contents true len d = d;
  datumCopy_spec d len : datum_contents false len (datumCopy d len) = datum_contents false len d;
}.

#[refine] Instance reference_datums : Datums := {
  datumCopy d _ := d + 1000;
  datum_contents byval _ d := if byval then d else d mod 1000;
}.
Proof.
  - done.
  - intros d len. rewrite Z.add_mod, Z.mod_same, Z.add_0_r, Z.mod_mod by lia. done.
Defined.

Section builder.
Context `{PC : PgCore} `{DT : Datums}.

(** The attributes of a tuple descriptor. *)
Record Form_pg_attribute : Type := mkAttribute { attbyval : bool; attlen : Z }.

(** A slot: its descriptor's width and its materialized attributes. *)
Record InputSlot : Type := mkInputSlot {
  natts : Z;
  tts_values : list Z;
  tts_isnull : list bool;
}.

Record PgBatchBuilder : Type := mkBuilder {
  bd_batch : PgBatch;
  bd_tuple_desc : list Form_pg_attribute;
  bd_values : list Z;
  bd_isnull : list bool;
  bd_selection : list Z;
  bd_ncolumns : Z;
  bd_capacity : Z;
  bd_capacity_nwords : Z;
  bd_nrows : Z;
  bd_has_byref : bool;
  bd_sealed : bool;
}.

Definition set_bd_batch (b : PgBatchBuilder) bt := mkBuilder bt (bd_tuple_desc b) (bd_values b) (bd_isnull b)
  (bd_selection b) (bd_ncolumns b) (bd_capacity b) (bd_capacity_nwords b) (bd_nrows b) (bd_has_byref b) (bd_sealed b).
Definition set_bd_arrays (b : PgBatchBuilder) v n := mkBuilder (bd_batch b) (bd_tuple_desc b) v n
  (bd_selection b) (bd_ncolumns b) (bd_capacity b) (bd_capacity_nwords b) (bd_nrows b) (bd_has_byref b) (bd_sealed b).
Definition set_bd_nrows (b : PgBatchBuilder) n := mkBuilder (bd_batch b) (bd_tuple_desc b) (bd_values b) (bd_isnull b)
  (bd_selection b) (bd_ncolumns b) (bd_capacity b) (bd_capacity_nwords b) n (bd_has_byref b) (bd_sealed b).
Definition set_bd_sealed (b : PgBatchBuilder) s := mkBuilder (bd_batch b) (bd_tuple_desc b) (bd_values b) (bd_isnull b)
  (bd_selection b) (bd_ncolumns b) (bd_capacity b) (bd_capacity_nwords b) (bd_nrows b) (bd_has_byref b) s.
Definition set_bd_selection (b : PgBatchBuilder) ws := mkBuilder (bd_batch b) (bd_tuple_desc b) (bd_values b)
  (bd_isnull b) ws (bd_ncolumns b) (bd_capacity b) (bd_capacity_nwords b) (bd_nrows b) (bd_has_byref b) (bd_sealed b).

Definition BUILDER_OPS_ADDRESS : Z := 1.
Definition builder_ops : PgBatchOps := mkOps BUILDER_OPS_ADDRESS PG_BATCH_OPS_ABI_VERSION 48 true false false false.

(** A C [int] result: overflow has no meaning. *)
Definition int_ (v : Z) : res Z := if in_s32 v then Ok v else Undefined.

(** The column views start at [&values[column * capacity]]. *)
Definition builder_get_column (builder : PgBatchBuilder) (column : Z) (result : option PgBatchDatumVector)
    : res PgBatchDatumVector :=
  _ ← pg_batch_check_datum_vector result;
  match result with
  | None => Undefined
  | Some result =>
      _ ← raise_if ((column <? 0) || (bd_ncolumns builder <=? column))
            (Elog "pg_batch builder column is out of range");
      offset ← int_ (column * bd_capacity builder);
      Ok (mkDatumVector (dv_struct_size result) (Some (drop (Z.to_nat offset) (bd_values builder)))
            (Some (drop (Z.to_nat offset) (bd_isnull builder))) (nrows (selection (bd_batch builder))))
  end.

Definition words_for_rows (nrows : Z) : Z :=
  nrows / 64 + (if nrows mod 64 =? 0 then 0 else 1).

Definition InvalidOid : Z := 0.

Definition pg_batch_builder_reset (builder : PgBatchBuilder) : PgBatchBuilder :=
  let builder := set_bd_nrows builder 0 in
  let builder := set_bd_sealed builder false in
  let bt := bd_batch builder in
  set_bd_batch builder (mkBatch (abi_version bt) (struct_size bt) (mkSelection 0 0 (words (selection bt)))
    InvalidOid (ops bt) (private_data bt) (generation bt)).

Record PgBatchBuilderConfig : Type := mkBuilderConfig {
  bc_struct_size : Z;
  bc_has_context : bool;
  bc_tuple_desc : option (list Form_pg_attribute);
  bc_ncolumns : Z;
  bc_capacity : Z;
}.
Definition PG_BATCH_BUILDER_CONFIG_MIN_SIZE : Z := 32.

Definition pg_batch_builder_create (config : option PgBatchBuilderConfig) : res PgBatchBuilder :=
  match config with
  | None => Raise (Elog "pg_batch builder requires a memory context and tuple descriptor")
  | Some config =>
      _ ← raise_if ((bc_struct_size config <? PG_BATCH_BUILDER_CONFIG_MIN_SIZE) || negb (bc_has_context config) ||
                    match bc_tuple_desc config with None => true | Some _ => false end)
            (Elog "pg_batch builder requires a memory context and tuple descriptor");
      match bc_tuple_desc config with
      | None => Undefined
      | Some tuple_desc =>
          let ncolumns := bc_ncolumns config in
          let capacity := bc_capacity config in
          _ ← raise_if ((ncolumns <=? 0) || (zlength tuple_desc <? ncolumns))
                (Elog "invalid pg_batch builder column count");
          _ ← raise_if (capacity <=? 0) (Elog "invalid pg_batch builder capacity");
          nvalues ← mul_size ncolumns capacity;
          let capacity_nwords := words_for_rows capacity in
          _ ← mul_size 8 nvalues;
          _ ← mul_size 1 nvalues;
          _ ← mul_size 8 capacity_nwords;
          byref ← search (λ column, attr ← aref tuple_desc column; Ok (negb (attbyval attr)))
                    (Z.to_nat ncolumns) 0;
          let bt := mkBatch PG_BATCH_ABI_VERSION PG_BATCH_MIN_SIZE (mkSelection 0 0 []) InvalidOid
                      (Some builder_ops) 1 0 in
          Ok (pg_batch_builder_reset
               (mkBuilder bt tuple_desc (palloc_uninit nvalues)
                  ((λ z, negb (z =? 0)) <$> palloc_uninit nvalues) (palloc_uninit capacity_nwords)
                  ncolumns capacity capacity_nwords 0 byref false))
      end
  end.

Definition pg_batch_builder_is_full (builder : PgBatchBuilder) : bool :=
  bd_sealed builder || (bd_nrows builder =? bd_capacity builder).

(** Storing one attribute: [copy] is what is stored for a value. *)
Definition put_attribute (slot : InputSlot) (copy : Z → Z → res Z) (column offset : Z)
    (builder : PgBatchBuilder) : res PgBatchBuilder :=
  null ← aref (tts_isnull slot) column;
  nulls ← aset (bd_isnull builder) offset null;
  v ← (if (null : bool) then Ok 0 else d ← aref (tts_values slot) column; copy column d);
  values ← aset (bd_values builder) offset v;
  Ok (set_bd_arrays builder values nulls).

Definition pg_batch_builder_append_slot (builder : PgBatchBuilder) (slot : InputSlot) : res PgBatchBuilder :=
  let row := bd_nrows builder in
  _ ← raise_if (bd_sealed builder) (Elog "cannot append to a sealed pg_batch builder");
  _ ← raise_if (bd_capacity builder <=? row) (Elog "pg_batch builder is full");
  _ ← raise_if (natts slot <? bd_ncolumns builder) (Elog "pg_batch builder input has too few columns");
  if (bd_ncolumns builder =? 1) && negb (bd_has_byref builder) then
    builder ← put_attribute slot (λ _ d, Ok d) 0 row builder;
    Ok (set_bd_nrows builder (row + 1))
  else if negb (bd_has_byref builder) then
    b ← foldM (λ column b,
        offset ← int_ (column * bd_capacity builder + row);
        put_attribute slot (λ _ d, Ok d) column offset b)
      (seqZ 0 (bd_ncolumns builder)) builder;
    Ok (set_bd_nrows b (row + 1))
  else
    b ← foldM (λ column b,
        attr ← aref (bd_tuple_desc builder) column;
        offset ← int_ (column * bd_capacity builder + row);
        put_attribute slot (λ _ d, Ok (if attbyval attr then d else datumCopy d (attlen attr)))
          column offset b)
      (seqZ 0 (bd_ncolumns builder)) builder;
    Ok (set_bd_nrows b (bd_nrows b + 1)).

(** Marking the rows of one selection word. *)
Definition fill_word (nrows word : Z) (ws : list Z) : res (list Z) :=
  let remaining := nrows - word * 64 in
  aset ws word (if 64 <=? remaining then UINT64_MAX else Z.shiftr UINT64_MAX (64 - remaining)).

(** The batch shares the builder's selection array; [None] is [NULL]. *)
Definition pg_batch_builder_finish (builder : PgBatchBuilder) (table_oid : Z)
    : res (PgBatchBuilder * option PgBatch) :=
  if bd_sealed builder then
    Ok (builder, if bd_nrows builder =? 0 then None else Some (bd_batch builder))
  else
    let builder := set_bd_sealed builder true in
    if bd_nrows builder =? 0 then Ok (builder, None) else
    let nrows := bd_nrows builder in
    let nwords := words_for_rows nrows in
    ws ← foldM (fill_word nrows) (seqZ 0 nwords) (bd_selection builder);
    let builder := set_bd_selection builder ws in
    let bt := bd_batch builder in
    let bt := mkBatch (abi_version bt) (struct_size bt) (mkSelection nrows nwords (take (Z.to_nat nwords) ws))
                table_oid (ops bt) (private_data bt) (generation bt) in
    let builder := set_bd_batch builder bt in
    Ok (builder, Some bt).

(** ** Specification *)

Definition config_valid (c : PgBatchBuilderConfig) (desc : list Form_pg_attribute) : Prop :=
  PG_BATCH_BUILDER_CONFIG_MIN_SIZE ≤ bc_struct_size c ∧ bc_has_context c = true ∧
  bc_tuple_desc c = Some desc ∧ 0 < bc_ncolumns c ≤ zlength desc ∧ 0 < bc_capacity c ∧
  8 * (bc_ncolumns c * bc_capacity c) ≤ MaxAllocSize.

Definition slot_valid (n : Z) (slot : InputSlot) : Prop :=
  n ≤ natts slot ∧ natts slot ≤ zlength (tts_values slot) ∧ natts slot ≤ zlength (tts_isnull slot).

(** What attribute [column] of a slot, and cell [offset] of the arrays, stand for. *)
Definition attr_at (desc : list Form_pg_attribute) (column : Z) : Form_pg_attribute :=
  zget (mkAttribute true 0) desc column.
Definition slot_cell (desc : list Form_pg_attribute) (slot : InputSlot) (column : Z) : option Z :=
  if zget true (tts_isnull slot) column then None
  else Some (datum_contents (attbyval (attr_at desc column)) (attlen (attr_at desc column))
               (zget 0 (tts_values slot) column)).
Definition array_cell (desc : list Form_pg_attribute) (values : list Z) (nulls : list bool)
    (column i : Z) : option Z :=
  if zget true nulls i then None
  else Some (datum_contents (attbyval (attr_at desc column)) (attlen (attr_at desc column)) (zget 0 values i)).

(** A builder that holds the rows of [slots]. *)
Record builder_inv (desc : list Form_pg_attribute) (ncolumns capacity : Z) (slots : list InputSlot)
    (b : PgBatchBuilder) : Prop := {
  bu_desc : bd_tuple_desc b = desc;
  bu_ncolumns : bd_ncolumns b = ncolumns;
  bu_capacity : bd_capacity b = capacity;
  bu_values : zlength (bd_values b) = ncolumns * capacity;
  bu_isnull : zlength (bd_isnull b) = ncolumns * capacity;
  bu_selection : zlength (bd_selection b) = words_for_rows capacity;
  bu_byref : bd_has_byref b = false → ∀ c, 0 ≤ c < ncolumns → attbyval (attr_at desc c) = true;
  bu_nrows : bd_nrows b = zlength slots;
  bu_open : bd_sealed b = false;
  bu_full : zlength slots ≤ capacity;
  bu_alloc : 0 < capacity ∧ 8 * (ncolumns * capacity) ≤ MaxAllocSize;
  bu_batch : abi_version (bd_batch b) = PG_BATCH_ABI_VERSION ∧ struct_size (bd_batch b) = PG_BATCH_MIN_SIZE ∧
    ops (bd_batch b) = Some builder_ops ∧ generation (bd_batch b) = 0;
  bu_cells : ∀ c r slot, 0 ≤ c < ncolumns → slots !! r = Some slot →
    array_cell desc (bd_values b) (bd_isnull b) c (c * capacity + Z.of_nat r) = slot_cell desc slot c;
}.
(** ** Proofs *)

Lemma index_inj cap c r k row :
  0 ≤ r < cap → 0 ≤ row < cap → c * cap + r = k * cap + row → c = k ∧ r = row.
Proof.
  intros Hr Hrow E. assert (c = k); [|split; [done|subst; lia]].
  apply (f_equal (λ z, z / cap)) in E. rewrite !Z.div_add_l, !Z.div_small in E by lia. lia.
Qed.

Lemma index_bound cap n c r : 0 ≤ c < n → 0 ≤ r < cap → 0 ≤ c * cap + r < n * cap.
Proof. intros. nia. Qed.

Lemma offset_ok cap n c r :
  0 ≤ c < n → 0 ≤ r < cap → 8 * (n * cap) ≤ MaxAllocSize → int_ (c * cap + r) = Ok (c * cap + r).
Proof.
  intros Hc Hr Hmax. pose proof (index_bound cap n c r Hc Hr). unfold MaxAllocSize in Hmax. unfold int_, in_s32.
  destruct (Z.leb_spec (- 2 ^ 31) (c * cap + r)), (Z.ltb_spec (c * cap + r) (2 ^ 31)); try lia. done.
Qed.

Lemma words_for_rows_eq n : 0 ≤ n → words_for_rows n = (n + 63) / 64.
Proof. intros Hn. unfold words_for_rows. destruct (Z.eqb_spec (n mod 64) 0); zlia. Qed.

Lemma builder_create_ok c desc :
  config_valid c desc →
  ∃ b, pg_batch_builder_create (Some c) = Ok b ∧
    builder_inv desc (bc_ncolumns c) (bc_capacity c) [] b.
Proof.
  intros (Hsize & Hctx & Hdesc & Hn & Hcap & Hlen). unfold MaxAllocSize in Hlen. unfold pg_batch_builder_create.
  destruct (Z.ltb_spec (bc_struct_size c) PG_BATCH_BUILDER_CONFIG_MIN_SIZE); [lia|].
  rewrite Hctx, Hdesc. cbn [negb orb raise_if]. rewrite bind_Ok.
  destruct (Z.leb_spec (bc_ncolumns c) 0), (Z.ltb_spec (zlength desc) (bc_ncolumns c)),
    (Z.leb_spec (bc_capacity c) 0); try lia. cbn [orb raise_if]. rewrite !bind_Ok.
  assert (0 < bc_capacity c < 2 ^ 30) by nia. assert (0 < bc_ncolumns c * bc_capacity c < 2 ^ 47) by nia.
  assert (Hw : 0 < words_for_rows (bc_capacity c) < 2 ^ 31)
    by (rewrite words_for_rows_eq by lia; zlia).
  rewrite (mul_size_spec (bc_ncolumns c)), bind_Ok by (unfold is_u64; lia).
  rewrite (mul_size_spec 8 (bc_ncolumns c * bc_capacity c)), bind_Ok by (unfold is_u64; lia).
  rewrite (mul_size_spec 1), bind_Ok by (unfold is_u64; lia).
  rewrite (mul_size_spec 8 (words_for_rows _)), bind_Ok by (unfold is_u64; lia).
  rewrite (search_ok _ (λ column, negb (attbyval (attr_at desc column)))).
  2: { intros j Hj. by rewrite (aref_ok (mkAttribute true 0)) by lia. }
  rewrite bind_Ok, Z2Nat.id by lia. eexists; split; [done|].
  constructor; cbn; try done; try lia.
  - apply palloc_uninit_length. lia.
  - rewrite length_fmap. apply palloc_uninit_length. lia.
  - apply palloc_uninit_length. lia.
  - intros Hby k Hk. apply negb_false_iff.
    exact (existsb_seqZ_false _ 0 (bc_ncolumns c) Hby k Hk).
Qed.

(** What the columns below [k] of the row being stored have become. *)
Record store_inv (desc : list Form_pg_attribute) (b0 : PgBatchBuilder) (slot : InputSlot)
    (row k : Z) (b : PgBatchBuilder) : Prop := {
  st_same : b = set_bd_arrays b0 (bd_values b) (bd_isnull b);
  st_values : length (bd_values b) = length (bd_values b0);
  st_isnull : length (bd_isnull b) = length (bd_isnull b0);
  st_cells : ∀ c r, 0 ≤ c < bd_ncolumns b0 → 0 ≤ r < bd_capacity b0 →
    array_cell desc (bd_values b) (bd_isnull b) c (c * bd_capacity b0 + r) =
      if (r =? row) && (c <? k) then slot_cell desc slot c
      else array_cell desc (bd_values b0) (bd_isnull b0) c (c * bd_capacity b0 + r);
}.

(** A stored Datum stands for the same value. *)
Definition faithful_copy (desc : list Form_pg_attribute) (copy : Z → Z → res Z) (column : Z) : Prop :=
  let a := attr_at desc column in
  ∀ d, ∃ d', copy column d = Ok d' ∧
    datum_contents (attbyval a) (attlen a) d' = datum_contents (attbyval a) (attlen a) d.

Lemma put_attribute_ok desc b0 slot copy row k b :
  slot_valid (bd_ncolumns b0) slot → 0 ≤ row < bd_capacity b0 → 0 ≤ k < bd_ncolumns b0 →
  zlength (bd_values b0) = bd_ncolumns b0 * bd_capacity b0 →
  zlength (bd_isnull b0) = bd_ncolumns b0 * bd_capacity b0 →
  faithful_copy desc copy k → store_inv desc b0 slot row k b →
  ∃ b', put_attribute slot copy k (k * bd_capacity b0 + row) b = Ok b' ∧
    store_inv desc b0 slot row (k + 1) b'.
Proof.
  intros (Hs1 & Hs2 & Hs3) Hrow Hk Hv Hn Hcopy []. unfold put_attribute.
  pose proof (index_bound (bd_capacity b0) (bd_ncolumns b0) k row Hk Hrow) as Hoff.
  set (off := k * bd_capacity b0 + row) in *.
  rewrite (aref_ok true), bind_Ok by lia. rewrite aset_ok, bind_Ok by lia.
  set (null := zget true (tts_isnull slot) k).
  assert (∃ v, (if null then Ok 0 else d ← aref (tts_values slot) k; copy k d) = Ok v ∧
    (null = false → let a := attr_at desc k in
      datum_contents (attbyval a) (attlen a) v =
      datum_contents (attbyval a) (attlen a) (zget 0 (tts_values slot) k))) as (v & -> & Hval).
  { destruct null; [by exists 0|]. rewrite (aref_ok 0), bind_Ok by lia.
    destruct (Hcopy (zget 0 (tts_values slot) k)) as (d' & -> & Hd). eauto. }
  rewrite bind_Ok, aset_ok, bind_Ok by lia. eexists; split; [done|]. constructor; cbn.
  - rewrite st_same0. by destruct b.
  - by rewrite length_insert.
  - by rewrite length_insert.
  - intros c r Hc Hr. pose proof (index_bound (bd_capacity b0) (bd_ncolumns b0) c r Hc Hr).
    unfold array_cell. rewrite !zget_insert by lia. case_decide as E.
    + destruct (index_inj _ _ _ _ _ Hrow Hr E) as [<- <-].
      destruct (Z.eqb_spec row row), (Z.ltb_spec k (k + 1)); try lia. cbn [andb].
      unfold slot_cell. fold null. destruct null eqn:En; [done|]. by rewrite (Hval eq_refl).
    + change (if zget true (bd_isnull b) (c * bd_capacity b0 + r) then None else Some _)
        with (array_cell desc (bd_values b) (bd_isnull b) c (c * bd_capacity b0 + r)).
      rewrite st_cells0 by done.
      destruct (Z.eqb_spec r row) as [->|]; [|done]. cbn [andb].
      destruct (Z.ltb_spec c k), (Z.ltb_spec c (k + 1)); try lia; try done.
      assert (c = k) as -> by lia. done.
Qed.

(** The column loops of [pg_batch_builder_append_slot]. *)
Lemma store_columns desc b slot copy row :
  slot_valid (bd_ncolumns b) slot → 0 ≤ row < bd_capacity b → 0 ≤ bd_ncolumns b →
  zlength (bd_values b) = bd_ncolumns b * bd_capacity b →
  zlength (bd_isnull b) = bd_ncolumns b * bd_capacity b →
  8 * (bd_ncolumns b * bd_capacity b) ≤ MaxAllocSize →
  (∀ k, 0 ≤ k < bd_ncolumns b → faithful_copy desc copy k) →
  ∃ b', foldM (λ column b', offset ← int_ (column * bd_capacity b + row);
        put_attribute slot copy column offset b')
      (seqZ 0 (bd_ncolumns b)) b = Ok b' ∧ store_inv desc b slot row (bd_ncolumns b) b'.
Proof.
  intros Hs Hrow Hn Hv Hi Hmax Hcopy.
  apply (for_inv (store_inv desc b slot row)); [done| |].
  - constructor; try done; [by destruct b|]. intros c r Hc Hr.
    destruct (Z.ltb_spec c 0); [lia|]. by rewrite andb_false_r.
  - intros k b' Hk Hb'. rewrite (offset_ok _ (bd_ncolumns b)), bind_Ok by done.
    apply put_attribute_ok; try done. by apply Hcopy.
Qed.

Lemma append_ok desc n cap slots b slot :
  builder_inv desc n cap slots b → zlength slots < cap → slot_valid n slot → 0 < n ≤ zlength desc →
  ∃ b', pg_batch_builder_append_slot b slot = Ok b' ∧ builder_inv desc n cap (slots ++ [slot]) b'.
Proof.
  intros [] Hroom Hslot Hn. unfold pg_batch_builder_append_slot.
  pose proof (proj1 Hslot). rewrite bu_open0. cbn [raise_if]. rewrite bind_Ok.
  destruct (Z.leb_spec (bd_capacity b) (bd_nrows b)); [lia|]. cbn [raise_if]. rewrite bind_Ok.
  destruct (Z.ltb_spec (natts slot) (bd_ncolumns b)); [lia|]. cbn [raise_if]. rewrite bind_Ok.
  assert (Hrow : 0 ≤ bd_nrows b < bd_capacity b) by lia.
  assert (Hs : slot_valid (bd_ncolumns b) slot) by congruence.
  assert (Hv : zlength (bd_values b) = bd_ncolumns b * bd_capacity b) by congruence.
  assert (Hi : zlength (bd_isnull b) = bd_ncolumns b * bd_capacity b) by congruence.
  (* all three paths leave the same builder *)
  assert (Hfinal : ∀ b', store_inv desc b slot (bd_nrows b) (bd_ncolumns b) b' →
    builder_inv desc n cap (slots ++ [slot]) (set_bd_nrows b' (bd_nrows b + 1))).
  { intros b' []. rewrite st_same0. constructor; cbn; try done; try lia.
    - rewrite length_app. simpl. lia.
    - rewrite length_app. simpl. lia.
    - intros c r s Hc Hr. assert (Hrlt := lookup_lt_Some _ _ _ Hr). rewrite length_app in Hrlt. simpl in Hrlt.
      rewrite <- bu_capacity0. rewrite st_cells0 by lia. destruct (decide (r = length slots)) as [->|Hne].
      + rewrite lookup_app_r, Nat.sub_diag in Hr by done. injection Hr as <-.
        rewrite bu_nrows0, Z.eqb_refl. destruct (Z.ltb_spec c (bd_ncolumns b)); [done|lia].
      + rewrite lookup_app_l in Hr by lia. destruct (Z.eqb_spec (Z.of_nat r) (bd_nrows b)); [lia|].
        cbn [andb]. rewrite bu_capacity0. by apply bu_cells0. }
  assert (Hbyval : bd_has_byref b = false → ∀ k, 0 ≤ k < bd_ncolumns b →
    faithful_copy desc (λ _ d, Ok d) k) by (intros _ k Hk d; by exists d).
  destruct (bd_has_byref b) eqn:Hby; cbn [negb].
  - rewrite andb_false_r.
    destruct (store_columns desc b slot (λ column d,
      let attr := attr_at desc column in Ok (if attbyval attr then d else datumCopy d (attlen attr)))
      (bd_nrows b)) as (b' & E & Hb'); try done; try lia.
    { intros k Hk d. simpl. destruct (attbyval (attr_at desc k)) eqn:Ha; [by exists d|].
      eexists; split; [done|]. apply datumCopy_spec. }
    rewrite (foldM_ext _ (λ column b', offset ← int_ (column * bd_capacity b + bd_nrows b);
      put_attribute slot (λ column d,
        let attr := attr_at desc column in Ok (if attbyval attr then d else datumCopy d (attlen attr)))
        column offset b')).
    + rewrite E, bind_Ok. eexists; split; [done|].
      replace (bd_nrows b') with (bd_nrows b) by (by destruct Hb' as [-> _ _ _]). by apply Hfinal.
    + intros c a Hc%elem_of_seqZ. unfold attr_at. rewrite bu_desc0.
      by rewrite (aref_ok (mkAttribute true 0)) by lia.
  - destruct (store_columns desc b slot (λ _ d, Ok d) (bd_nrows b)) as (b' & E & Hb'); try done; try lia.
    { by apply Hbyval. }
    destruct (Z.eqb_spec (bd_ncolumns b) 1) as [Hone|_]; cbn [andb].
    + rewrite Hone in E. change (seqZ 0 1) with [0] in E. cbn [foldM] in E.
      rewrite (offset_ok _ (bd_ncolumns b)), bind_Ok in E by (done || lia).
      apply bind_ok_inv in E as (b1 & E & [= ->]). rewrite Z.mul_0_l in E. change (0 + bd_nrows b) with (bd_nrows b) in E.
      rewrite E, bind_Ok. eexists; split; [done|]. by apply Hfinal.
    + rewrite E, bind_Ok. eexists; split; [done|]. by apply Hfinal.
Qed.
(** The selection loop of [pg_batch_builder_finish]. *)
Lemma fill_selection n ws :
  0 < n → (n + 63) / 64 ≤ zlength ws →
  ∃ ws', foldM (fill_word n) (seqZ 0 ((n + 63) / 64)) ws = Ok ws' ∧ length ws' = length ws ∧
    ∀ w, 0 ≤ w < (n + 63) / 64 → zget 0 ws' w = Z.ones (Z.min 64 (n - w * 64)).
Proof.
  intros Hn Hl.
  destruct (for_inv (λ k ws', length ws' = length ws ∧
      ∀ w, 0 ≤ w < k → zget 0 ws' w = Z.ones (Z.min 64 (n - w * 64)))
    (fill_word n) ((n + 63) / 64) ws) as (ws' & -> & Hlen & Hw).
  - zlia.
  - split; [done|lia].
  - intros k ws' Hk [Hlen Hw]. unfold fill_word. rewrite aset_ok by lia. eexists; split; [done|].
    split; [by rewrite length_insert|]. intros w Hlt. rewrite zget_insert by lia. case_decide as E.
    + subst w. destruct (Z.leb_spec 64 (n - k * 64)).
      * rewrite Z.min_l by lia. apply UINT64_MAX_ones.
      * rewrite Z.min_r by lia. apply shr_max_ones. zlia.
    + apply Hw. lia.
  - exists ws'. split_and!; done.
Qed.

(** A batch that holds the rows of [slots], all selected. *)
Definition holds_rows (desc : list Form_pg_attribute) (ncolumns oid : Z) (slots : list InputSlot)
    (out : PgBatchBuilder * option PgBatch) : Prop :=
  match out.2 with
  | None => slots = []
  | Some bt =>
      bd_batch out.1 = bt ∧ batch_ok bt ∧ generation bt = 0 ∧ table_oid bt = oid ∧ nrows (selection bt) = zlength slots ∧
      selected_rows (selection bt) = seqZ 0 (zlength slots) ∧
      ∀ c result, 0 ≤ c < ncolumns → PG_BATCH_DATUM_VECTOR_MIN_SIZE ≤ dv_struct_size result →
        ∃ values nulls, builder_get_column out.1 c (Some result) =
            Ok (mkDatumVector (dv_struct_size result) (Some values) (Some nulls) (zlength slots)) ∧
          zlength slots ≤ zlength values ∧ zlength slots ≤ zlength nulls ∧
          ∀ r slot, slots !! r = Some slot → array_cell desc values nulls c (Z.of_nat r) = slot_cell desc slot c
  end.

Lemma full_selection_facts n ws :
  0 < n < 2 ^ 31 → (n + 63) / 64 ≤ zlength ws →
  (∀ w, 0 ≤ w < (n + 63) / 64 → zget 0 ws w = Z.ones (Z.min 64 (n - w * 64))) →
  let s := mkSelection n ((n + 63) / 64) (take (Z.to_nat ((n + 63) / 64)) ws) in
  sel_wf s ∧ sel_clean s ∧ selected_rows s = seqZ 0 n.
Proof.
  intros Hn Hl Hw s.
  assert (Hbit : ∀ row, 0 ≤ row < (n + 63) / 64 * 64 → selected s row = (row <? n)).
  { intros row Hr. unfold selected. cbn. unfold zget. rewrite lookup_take_lt by zlia.
    fold (zget 0 ws (row / 64)). rewrite Hw by zlia. rewrite testbit_ones by zlia.
    destruct (Z.leb_spec 0 (row mod 64)), (Z.ltb_spec (row mod 64) (Z.min 64 (n - row / 64 * 64))),
      (Z.ltb_spec row n); simpl; try done; zlia. }
  split_and!.
  - constructor; cbn; try done.
    + rewrite length_take. zlia.
    + apply Forall_lookup_2. intros i w Hi.
      assert (Hlt := lookup_lt_Some _ _ _ Hi). rewrite length_take in Hlt.
      rewrite lookup_take_lt in Hi by lia.
      specialize (Hw (Z.of_nat i) ltac:(zlia)). unfold zget in Hw. rewrite Nat2Z.id, Hi in Hw.
      simpl in Hw. subst w. apply is_u64_ones. zlia.
  - intros row Hr. cbn in Hr. rewrite Hbit by zlia. destruct (Z.ltb_spec row n); [lia|done].
  - unfold selected_rows. cbn. apply list_filter_all, Forall_forall. intros row Hr%elem_of_seqZ.
    rewrite Hbit by zlia. destruct (Z.ltb_spec row n); [done|lia].
Qed.

Lemma get_column_ok n cap b c result :
  PG_BATCH_DATUM_VECTOR_MIN_SIZE ≤ dv_struct_size result → bd_ncolumns b = n → bd_capacity b = cap →
  0 < cap ∧ 8 * (n * cap) ≤ MaxAllocSize → 0 ≤ c < n →
  builder_get_column b c (Some result) =
    Ok (mkDatumVector (dv_struct_size result) (Some (drop (Z.to_nat (c * cap)) (bd_values b)))
      (Some (drop (Z.to_nat (c * cap)) (bd_isnull b))) (nrows (selection (bd_batch b)))).
Proof.
  intros Hsize <- <- [Hcap Hmax] Hc. unfold builder_get_column, pg_batch_check_datum_vector.
  destruct (Z.ltb_spec (dv_struct_size result) PG_BATCH_DATUM_VECTOR_MIN_SIZE); [lia|].
  cbn [raise_if]. rewrite bind_Ok.
  destruct (Z.ltb_spec c 0), (Z.leb_spec (bd_ncolumns b) c); try lia. cbn [orb raise_if].
  rewrite bind_Ok. pose proof (offset_ok (bd_capacity b) (bd_ncolumns b) c 0 Hc ltac:(lia) Hmax) as E.
  rewrite Z.add_0_r in E. by rewrite E, bind_Ok.
Qed.

Lemma builder_finish_ok desc n cap slots b oid :
  builder_inv desc n cap slots b → 0 < n → 0 < cap < 2 ^ 31 →
  ∃ b' out, pg_batch_builder_finish b oid = Ok (b', out) ∧ holds_rows desc n oid slots (b', out) ∧
    bd_sealed b' = true ∧ builder_inv desc n cap [] (pg_batch_builder_reset b').
Proof.
  intros [] Hn Hcap. unfold pg_batch_builder_finish. rewrite bu_open0.
  cbn [set_bd_sealed bd_nrows bd_sealed bd_selection bd_batch]. rewrite bu_nrows0.
  destruct (Z.eqb_spec (zlength slots) 0) as [Hz|Hz].
  - eexists _, None. split; [done|]. split_and!; [|done|].
    + unfold holds_rows. simpl. destruct slots; [done|]. simpl in Hz. lia.
    + constructor; cbn; try done. lia.
  - assert (Hlen : 0 < zlength slots) by lia. rewrite words_for_rows_eq by lia.
    rewrite words_for_rows_eq in bu_selection0 by lia.
    destruct (fill_selection (zlength slots) (bd_selection b) Hlen) as (ws & -> & Hl & Hw); [zlia|].
    rewrite bind_Ok. eexists _, (Some _). split; [done|].
    destruct (full_selection_facts (zlength slots) ws) as (Hwf & Hclean & Hsel); [lia|zlia|done|].
    destruct bu_batch0 as (Ha & Hs & Ho & Hg). split_and!; [|done|].
    + unfold holds_rows. cbn [snd fst]. split_and!; try done.
      intros c result Hc Hsize. rewrite (get_column_ok n cap) by done. eexists _, _; split; [done|].
      cbn. rewrite !length_drop. assert (0 ≤ c * cap ∧ c * cap + cap ≤ n * cap) by nia.
      split; [lia|]. split; [lia|]. intros r slot Hr.
      rewrite <- (bu_cells0 c r slot Hc Hr). unfold array_cell. by rewrite !zget_drop by nia.
    + constructor; cbn; try done; try lia. rewrite words_for_rows_eq by lia. lia.
Qed.

(** ** Properties *)

(** One batch after another from the same builder. *)
Definition build_round (oid : Z) (slots : list InputSlot) (b : PgBatchBuilder)
    : res (PgBatchBuilder * option PgBatch) :=
  b ← foldM (λ slot b, pg_batch_builder_append_slot b slot) slots b;
  pg_batch_builder_finish b oid.

Fixpoint build_rounds (oid : Z) (rounds : list (list InputSlot)) (b : PgBatchBuilder)
    : res (list (PgBatchBuilder * option PgBatch)) :=
  match rounds with
  | [] => Ok []
  | slots :: rest =>
      out ← build_round oid slots b;
      outs ← build_rounds oid rest (pg_batch_builder_reset out.1);
      Ok (out :: outs)
  end.

Lemma append_all_ok desc n cap slots b :
  builder_inv desc n cap [] b → 0 < n ≤ zlength desc → zlength slots ≤ cap → Forall (slot_valid n) slots →
  ∃ b', foldM (λ slot b, pg_batch_builder_append_slot b slot) slots b = Ok b' ∧
    builder_inv desc n cap slots b'.
Proof.
  intros Hb Hn Hlen Hslots. apply (foldM_inv (builder_inv desc n cap)); [done|].
  intros pre slot post b0 Heq Hb0. apply append_ok; try done.
  - rewrite Heq, length_app in Hlen. simpl in Hlen. lia.
  - rewrite Heq in Hslots. apply Forall_app in Hslots as [_ Hs]. by apply Forall_cons in Hs as [? _].
Qed.

Lemma build_round_ok desc n cap oid slots b :
  builder_inv desc n cap [] b → 0 < n ≤ zlength desc → 0 < cap < 2 ^ 31 → zlength slots ≤ cap →
  Forall (slot_valid n) slots →
  ∃ out, build_round oid slots b = Ok out ∧ holds_rows desc n oid slots out ∧
    builder_inv desc n cap [] (pg_batch_builder_reset out.1).
Proof.
  intros Hb Hn Hcap Hlen Hslots. unfold build_round.
  destruct (append_all_ok desc n cap slots b Hb Hn Hlen Hslots) as (b1 & -> & Hb1). rewrite bind_Ok.
  destruct (builder_finish_ok desc n cap slots b1 oid Hb1) as (b2 & out & -> & Hh & _ & Hr); [lia|done|].
  by exists (b2, out).
Qed.

(** C15. The builder hands out exactly the rows it was given: over any
    number of fill, finish and reset rounds, each finished batch has one
    row per appended slot, in order, all selected and no bit beyond them;
    reading a column through the batch's operations gives each slot's value
    or NULL, by-reference values being copies with the same contents; and
    the batch satisfies what the bridge demands of a published batch. *)
Theorem builder_roundtrip c desc oid rounds :
  config_valid c desc →
  Forall (λ slots, zlength slots ≤ bc_capacity c ∧ Forall (slot_valid (bc_ncolumns c)) slots) rounds →
  ∃ outs, (b ← pg_batch_builder_create (Some c); build_rounds oid rounds b) = Ok outs ∧
    Forall2 (holds_rows desc (bc_ncolumns c) oid) rounds outs.
Proof.
  intros Hc Hrounds. destruct (builder_create_ok c desc Hc) as (b & -> & Hb). rewrite bind_Ok.
  destruct Hc as (_ & _ & _ & Hn & Hcap & Hmax). unfold MaxAllocSize in Hmax.
  assert (Hcap' : 0 < bc_capacity c < 2 ^ 31) by nia. revert b Hb.
  induction Hrounds as [|slots rounds [Hlen Hslots] _ IH]; intros b Hb; simpl.
  - exists []. by split; [|constructor].
  - destruct (build_round_ok desc _ _ oid slots b Hb Hn Hcap' Hlen Hslots) as (out & -> & Hh & Hr).
    rewrite bind_Ok. destruct (IH _ Hr) as (outs & -> & Hall). rewrite bind_Ok.
    exists (out :: outs). by split; [|constructor].
Qed.

(** The builder's arrays cannot be overrun: a builder into which as many
    rows were appended as its configured capacity reports that it is full and
    refuses another row; after [pg_batch_builder_finish] it refuses any row as
    sealed, and finishing it again hands out the same batch. *)
Theorem builder_full c desc slots slot oid :
  config_valid c desc → zlength slots = bc_capacity c → Forall (slot_valid (bc_ncolumns c)) slots →
  ∃ b b' out,
    (b ← pg_batch_builder_create (Some c); foldM (λ slot b, pg_batch_builder_append_slot b slot) slots b) = Ok b ∧
    pg_batch_builder_is_full b = true ∧
    pg_batch_builder_append_slot b slot = Raise (Elog "pg_batch builder is full") ∧
    pg_batch_builder_finish b oid = Ok (b', out) ∧
    pg_batch_builder_append_slot b' slot = Raise (Elog "cannot append to a sealed pg_batch builder") ∧
    pg_batch_builder_finish b' oid = Ok (b', out).
Proof.
  intros Hc Hfull Hslots. destruct (builder_create_ok c desc Hc) as (b0 & -> & Hb0). rewrite bind_Ok.
  destruct Hc as (_ & _ & _ & Hn & Hcap & Hmax). unfold MaxAllocSize in Hmax.
  destruct (append_all_ok desc _ _ slots b0 Hb0 Hn ltac:(lia) Hslots) as (b & -> & Hb).
  pose proof Hb as []. exists b. unfold pg_batch_builder_finish at 1. rewrite bu_open0.
  cbn [set_bd_sealed bd_nrows bd_sealed bd_selection bd_batch]. rewrite bu_nrows0.
  destruct (Z.eqb_spec (zlength slots) 0); [lia|]. rewrite words_for_rows_eq by lia.
  rewrite words_for_rows_eq in bu_selection0 by lia.
  destruct (fill_selection (zlength slots) (bd_selection b)) as (ws & -> & _ & _); [lia|zlia|].
  rewrite bind_Ok. eexists _, (Some _). split; [done|]. split; [|split; [|split_and!; [done|done|]]].
  - unfold pg_batch_builder_is_full. rewrite bu_open0, bu_nrows0, bu_capacity0, Hfull. apply Z.eqb_refl.
  - unfold pg_batch_builder_append_slot. rewrite bu_open0, bu_nrows0, bu_capacity0, Hfull. cbn [raise_if].
    rewrite bind_Ok, Z.leb_refl. done.
  - unfold pg_batch_builder_finish. cbn. rewrite bu_nrows0.
    destruct (Z.eqb_spec (zlength slots) 0); [lia|done].
Qed.
(** ** The builder as a source

    A finished builder serves the batch it handed out through
    [get_datum_column] alone. *)

Definition builder_calls `{Bitmapsets} : SourceCalls := {|
  src_state := PgBatchBuilder;
  call_prepare_columns _ _ _ _ _ := mret tt;
  call_get_datum_column _ _ column _ _ result b := (builder_get_column b column (Some result), b);
  call_get_native_interface _ _ := None;
  call_get_int4_column _ _ _ _ := mret None;
|}.

Record builder_serves (b : PgBatchBuilder) (k : Z) (o : PgBatchOps) (n : Z) : Prop := {
  bs_ops : o = builder_ops;
  bs_nrows : n = nrows (selection (bd_batch b));
  bs_room : n ≤ bd_capacity b;
  bs_alloc : 0 < bd_capacity b ∧ 8 * (bd_ncolumns b * bd_capacity b) ≤ MaxAllocSize;
  bs_values : zlength (bd_values b) = bd_ncolumns b * bd_capacity b;
  bs_isnull : zlength (bd_isnull b) = bd_ncolumns b * bd_capacity b;
}.

Definition builder_source `{Bitmapsets} : @BatchSource _ builder_calls.
Proof.
  refine (@Build_BatchSource _ builder_calls builder_serves (λ b _ c, 0 ≤ c < bd_ncolumns b)
    (λ b _ c row, datum_cell (drop (Z.to_nat (c * bd_capacity b)) (bd_values b))
                    (drop (Z.to_nat (c * bd_capacity b)) (bd_isnull b)) row)
    (λ _ _ _ _, True) _ _ _ _ _ _ _).
  - by intros st k o n [-> _ _ _ _ _].
  - by intros st k o n cols rows ph [-> _ _ _ _ _].
  - done.
  - intros b k o n c rows ph result [] Hc Hwf _ Hn Hsize. cbn in b.
    eexists _, _, n, b. split; [cbn; by rewrite (get_column_ok (bd_ncolumns b) (bd_capacity b)), <- bs_nrows0|].
    split; [by intros k' o' n' Hs|]. rewrite !length_drop.
    assert (0 ≤ c * bd_capacity b ∧ c * bd_capacity b + bd_capacity b ≤ bd_ncolumns b * bd_capacity b) by nia.
    split_and!; [lia|lia|lia|done].
  - done.
  - done.
  - done.
Defined.

(** What an int4 attribute of a slot holds. *)
Definition slot_int4 (slot : InputSlot) (column : Z) : option Z :=
  if zget true (tts_isnull slot) column then None
  else Some (DatumGetInt32 (zget 0 (tts_values slot) column)).

(** C37. Rows in, column out: an int4 column of the batch a builder hands out,
    read through the common access path by any consumer, holds the
    attribute of every appended slot at that slot's row. *)
Theorem builder_int4_column `{Bitmapsets} c desc oid slots column k ph :
  config_valid c desc → zlength slots ≤ bc_capacity c → Forall (slot_valid (bc_ncolumns c)) slots →
  slots ≠ [] → 0 ≤ column < bc_ncolumns c → attbyval (attr_at desc column) = true →
  ∃ b bt v w', (b ← pg_batch_builder_create (Some c); build_round oid slots b) = Ok (b, Some bt) ∧
    read_int4 (SC := builder_calls) k (bms_add_member bms_null column) (selection bt) ph column
      (mkWorld (SC := builder_calls) {[ k := bt ]} [] None b) = (Ok v, w') ∧
    ∀ r slot, slots !! r = Some slot → cell v (Z.of_nat r) = slot_int4 slot column.
Proof.
  intros Hc Hlen Hslots Hne Hcol Hbyval. destruct (builder_create_ok c desc Hc) as (b0 & -> & Hb0). rewrite bind_Ok.
  destruct Hc as (_ & _ & _ & Hn & Hcap & Hmax). pose proof Hmax as Hmax'. unfold MaxAllocSize in Hmax.
  destruct (build_round_ok desc _ _ oid slots b0 Hb0 Hn ltac:(nia) Hlen Hslots) as ([b out] & E & Hh & Hinv).
  unfold holds_rows in Hh. cbn [fst snd] in Hh, Hinv. destruct out as [bt|]; [|done].
  destruct Hh as (Hbt & Hok & _ & _ & Hnr & Hsel & Hcells). destruct Hinv. cbn in * |-.
  set (w := mkWorld (SC := builder_calls) {[ k := bt ]} [] None b).
  assert (Hserved : served (BS := builder_source) w k bt builder_ops).
  { constructor; [apply lookup_singleton_eq| |].
    - destruct bu_batch0 as (_ & _ & Ho & _). by rewrite <- Hbt.
    - constructor; cbn; try congruence; try lia. all: rewrite ?bu_ncolumns0, ?bu_capacity0; lia. }
  destruct (column_int4_spec (BS := builder_source) w k bt builder_ops (bms_add_member bms_null column)
    (selection bt) ph column) as (v & w' & Er & _ & Hread & _).
  - by apply history_start.
  - done.
  - destruct Hok as (Hwf & Hclean & _). by split_and!.
  - rewrite Hsel. destruct slots; [done|]. cbn [length]. by rewrite seqZ_cons by lia.
  - intros c' Hm. rewrite bms_add_spec, bms_null_spec, orb_false_r in Hm by lia. bool_prop. subst c'.
    cbn. by rewrite bu_ncolumns0.
  - rewrite bms_add_spec, bms_null_spec, Z.eqb_refl by lia. done.
  - exists b, bt, v, w'. split; [done|]. split; [done|]. intros r slot Hr.
    assert (Hrow : Z.of_nat r ∈ selected_rows (selection bt)).
    { rewrite Hsel. apply elem_of_seqZ. apply lookup_lt_Some in Hr. lia. }
    rewrite (Hread _ Hrow). cbn.
    destruct (Hcells column (mkDatumVector 32 None None 0) Hcol) as (values & nulls & Ecol & _ & _ & Hval); [done|].
    rewrite (get_column_ok (bc_ncolumns c) (bc_capacity c)) in Ecol by done. injection Ecol as Ev En _.
    specialize (Hval r slot Hr). rewrite bu_capacity0, Ev, En.
    unfold array_cell, slot_cell, datum_cell, slot_int4 in *. rewrite Hbyval, !datum_byval in Hval.
    destruct (zget true nulls _), (zget true (tts_isnull slot) column); congruence.
Qed.
End builder.

(** ** Sample runs *)

Definition sample_attributes : list Form_pg_attribute := [mkAttribute true 4; mkAttribute false (-1)].
Definition sample_builder_config : PgBatchBuilderConfig :=
  mkBuilderConfig 40 true (Some sample_attributes) 2 2.
Definition sample_slots : list InputSlot :=
  [mkInputSlot 2 [7; 501] [false; false]; mkInputSlot 2 [8; 0] [false; true]].

Lemma sample_config_valid : config_valid sample_builder_config sample_attributes.
Proof. split_and!; done. Qed.

Lemma sample_slots_valid : Forall (slot_valid 2) sample_slots.
Proof. constructor; [by split_and!|]. constructor; [by split_and!|constructor]. Qed.

Lemma builder_roundtrip_witness : ∃ outs,
  (b ← pg_batch_builder_create (PC := reference_core) (Some sample_builder_config);
   build_rounds (DT := reference_datums) 9 [sample_slots; []; [mkInputSlot 3 [1; 2; 3] [false; false; true]]] b) = Ok outs ∧
  Forall2 (holds_rows (DT := reference_datums) sample_attributes 2 9)
    [sample_slots; []; [mkInputSlot 3 [1; 2; 3] [false; false; true]]] outs.
Proof.
  apply (builder_roundtrip (PC := reference_core) (DT := reference_datums) sample_builder_config sample_attributes 9);
    [exact sample_config_valid|].
  constructor; [by split; [|exact sample_slots_valid]|].
  constructor; [by split; [|constructor]|]. constructor; [|constructor].
  split; [done|]. constructor; [by split_and!|constructor].
Defined.

Lemma builder_full_witness : ∃ b b' out,
  (b ← pg_batch_builder_create (PC := reference_core) (Some sample_builder_config);
   foldM (λ slot b, pg_batch_builder_append_slot (DT := reference_datums) b slot) sample_slots b) = Ok b ∧
  pg_batch_builder_is_full b = true ∧
  pg_batch_builder_append_slot (DT := reference_datums) b (mkInputSlot 2 [1; 2] [true; true]) =
    Raise (Elog "pg_batch builder is full") ∧
  pg_batch_builder_finish b 9 = Ok (b', out) ∧
  pg_batch_builder_append_slot (DT := reference_datums) b' (mkInputSlot 2 [1; 2] [true; true]) =
    Raise (Elog "cannot append to a sealed pg_batch builder") ∧
  pg_batch_builder_finish b' 9 = Ok (b', out).
Proof.
  apply (builder_full (PC := reference_core) (DT := reference_datums) sample_builder_config sample_attributes sample_slots);
    [exact sample_config_valid|done|exact sample_slots_valid].
Defined.

Lemma builder_int4_column_witness : ∃ b bt v w',
  (b ← pg_batch_builder_create (Some sample_builder_config); build_round (DT := reference_datums) 9 sample_slots b) =
    Ok (b, Some bt) ∧
  read_int4 (SC := builder_calls) 50 (bms_add_member bms_null 0) (selection bt) PG_BATCH_COLUMN_FILTER 0
    (mkWorld (SC := builder_calls) {[ 50 := bt ]} [] None b) = (Ok v, w') ∧
  ∀ r slot, sample_slots !! r = Some slot → cell v (Z.of_nat r) = slot_int4 slot 0.
Proof.
  apply (builder_int4_column (DT := reference_datums) sample_builder_config sample_attributes 9 sample_slots 0);
    [exact sample_config_valid|done|exact sample_slots_valid|done|done|done].
Defined.
