(* ===== verification/Plan.v ===== *)
(** * Plan data ([runtime/plan.c])

    A plan node's private data travels inside a PostgreSQL plan tree as a list
    of a kind, a version and named fields.  The writer builds it, the reader
    checks it back.  [copyObject] ([nodes/copyfuncs.c]) belongs to PostgreSQL:
    it is an argument of the definitions, with what its documentation promises. *)

From S2P Require Import Prelude Bitmaps.

(** The node types plan data is made of; other nodes are opaque.  A pointer is
    an [option], and [NIL], the empty list of either kind, is the null pointer. *)
Inductive Node : Type :=
| Integer (ival : Z)
| String_ (sval : string)
| List_ (elements : list (option Node))
| IntList (elements : list Z)
| OtherNode (id : Z).

Class PlanNodes : Type := {
  copyObject : option Node → option Node;
  copyObject_spec v : copyObject v = v;
}.

#[refine] Instance reference_nodes : PlanNodes := { copyObject v := v }.
Proof. done. Defined.

Section plan.
Context `{Bitmapsets} `{PlanNodes}.

(** [IsA] reads the tag of the node it is given. *)
Definition IsA (tag : Node → bool) (node : option Node) : res bool :=
  match node with None => Undefined | Some node => Ok (tag node) end.
Definition is_Integer (node : Node) : bool := match node with Integer _ => true | _ => false end.
Definition is_String (node : Node) : bool := match node with String_ _ => true | _ => false end.
Definition is_List (node : Node) : bool := match node with List_ _ => true | _ => false end.
Definition is_IntList (node : Node) : bool := match node with IntList _ => true | _ => false end.

Definition intVal (node : option Node) : res Z :=
  match node with Some (Integer i) => Ok i | _ => Undefined end.
Definition strVal (node : option Node) : res string :=
  match node with Some (String_ s) => Ok s | _ => Undefined end.
Definition list_length (node : option Node) : res Z :=
  match node with
  | None => Ok 0
  | Some (List_ l) => Ok (zlength l)
  | Some (IntList l) => Ok (zlength l)
  | Some _ => Undefined
  end.
(** The cells of a pointer list. *)
Definition list_cells (node : option Node) : res (list (option Node)) :=
  match node with None => Ok [] | Some (List_ l) => Ok l | Some _ => Undefined end.
Definition list_nth (node : option Node) (n : Z) : res (option Node) :=
  l ← list_cells node; aref l n.
Definition make_list (l : list (option Node)) : option Node :=
  match l with [] => None | _ => Some (List_ l) end.
Definition make_int_list (l : list Z) : option Node :=
  match l with [] => None | _ => Some (IntList l) end.

Record PgBatchPlanWriter : Type := mkWriter {
  pw_kind : string;
  pw_version : Z;
  pw_fields : list (option Node);
  pw_finished : bool;
}.

Record PgBatchPlanReader : Type := mkReader {
  pr_kind : string;
  pr_fields : list (option Node);
  pr_read_names : list string;
}.

Fixpoint string_list_member (items : list string) (value : string) : bool :=
  match items with
  | [] => false
  | item :: items => if String.eqb item value then true else string_list_member items value
  end.

(** The name, which is not [NULL]. *)
Definition check_name (name : option string) : res string :=
  match name with
  | None | Some "" => Raise (Elog "pg_batch plan field requires a name")
  | Some name => Ok name
  end.

(** [list_length(field) != 2 || !IsA(linitial(field), String)], and the name. *)
Definition field_name (field : option Node) (e : pg_error) : res string :=
  n ← list_length field;
  _ ← raise_if (negb (n =? 2)) e;
  first ← list_nth field 0;
  s ← IsA is_String first;
  _ ← raise_if (negb s) e;
  strVal first.

(** [None] is [NIL]. *)
Fixpoint find_field (fields : list (option Node)) (name : string) : res (option (option Node)) :=
  match fields with
  | [] => Ok None
  | field :: rest =>
      s ← field_name field (Elog "pg_batch received malformed plan data");
      if String.eqb s name then Ok (Some field) else find_field rest name
  end.

Definition write_field (writer : option PgBatchPlanWriter) (name : option string)
    (value : option Node) : res PgBatchPlanWriter :=
  name ← check_name name;
  match writer with
  | None => Raise (Elog "pg_batch plan writer is not active")
  | Some writer =>
      _ ← raise_if (pw_finished writer) (Elog "pg_batch plan writer is not active");
      found ← find_field (pw_fields writer) name;
      _ ← raise_if (match found with Some _ => true | None => false end)
            (Elog "pg_batch plan field is duplicated");
      Ok (mkWriter (pw_kind writer) (pw_version writer)
            (pw_fields writer ++ [make_list [Some (String_ name); value]]) (pw_finished writer))
  end.

Definition no_kind (kind : option string) : bool :=
  match kind with None | Some "" => true | Some _ => false end.

Definition pg_batch_plan_writer_create (kind : option string) (version : Z) : res PgBatchPlanWriter :=
  _ ← raise_if (no_kind kind || (version <=? 0))
        (Elog "pg_batch plan writer requires a kind and version");
  match kind with
  | None => Undefined
  | Some kind => Ok (mkWriter kind version [] false)
  end.

Definition pg_batch_plan_write_int writer name (value : Z) : res PgBatchPlanWriter :=
  write_field writer name (Some (Integer value)).

Definition pg_batch_plan_write_string writer name (value : option string) : res PgBatchPlanWriter :=
  match value with
  | None => Raise (Elog "pg_batch plan string field is NULL")
  | Some value => write_field writer name (Some (String_ value))
  end.

Definition pg_batch_plan_write_node writer name (value : option Node) : res PgBatchPlanWriter :=
  write_field writer name (copyObject value).

(** [value != NIL && !IsA(value, tag)] *)
Definition not_nil_and_not (tag : Node → bool) (value : option Node) : bool :=
  match value with None => false | Some v => negb (tag v) end.

Definition pg_batch_plan_write_list writer name (value : option Node) : res PgBatchPlanWriter :=
  _ ← raise_if (not_nil_and_not is_List value) (Elog "pg_batch plan field is not a List");
  write_field writer name (copyObject value).

Definition pg_batch_plan_write_int_list writer name (value : option Node) : res PgBatchPlanWriter :=
  _ ← raise_if (not_nil_and_not is_IntList value) (Elog "pg_batch plan field is not an IntList");
  write_field writer name (copyObject value).

Definition pg_batch_plan_write_bitmap (fuel : nat) writer name (value : Bitmapset) : res PgBatchPlanWriter :=
  members ← bms_members fuel value (-1);
  write_field writer name (make_int_list members).

Definition pg_batch_plan_writer_finish (writer : option PgBatchPlanWriter)
    : res (PgBatchPlanWriter * option Node) :=
  match writer with
  | None => Raise (Elog "pg_batch plan writer is not active")
  | Some writer =>
      _ ← raise_if (pw_finished writer) (Elog "pg_batch plan writer is not active");
      Ok (mkWriter (pw_kind writer) (pw_version writer) (pw_fields writer) true,
          make_list [Some (String_ (pw_kind writer)); Some (Integer (pw_version writer));
                     make_list (pw_fields writer)])
  end.

(** The loop over the fields; [earlier] are the names before this one (the
    cells of a plan tree are distinct objects, so [other == field] stops the
    inner loop at the field itself). *)
Fixpoint check_fields (earlier : list string) (fields : list (option Node)) : res unit :=
  match fields with
  | [] => Ok tt
  | field :: rest =>
      name ← field_name field (Elog "pg_batch received malformed plan field");
      _ ← raise_if (string_list_member earlier name) (Elog "pg_batch plan field is duplicated");
      check_fields (earlier ++ [name]) rest
  end.

Definition pg_batch_plan_reader_create (data : option Node) (kind : option string) (version : Z)
    : res PgBatchPlanReader :=
  _ ← raise_if (no_kind kind || (version <=? 0))
        (Elog "pg_batch plan reader requires a kind and version");
  match kind with
  | None => Undefined
  | Some kind =>
      let malformed := Elog "pg_batch received malformed plan data" in
      _ ← raise_if (match data with None => true | Some d => negb (is_List d) end) malformed;
      n ← list_length data;
      _ ← raise_if (negb (n =? 3)) malformed;
      first ← list_nth data 0;
      s ← IsA is_String first;
      _ ← raise_if (negb s) malformed;
      second ← list_nth data 1;
      i ← IsA is_Integer second;
      _ ← raise_if (negb i) malformed;
      found ← strVal first;
      _ ← raise_if (negb (String.eqb found kind)) (Elog "pg_batch expected other plan data");
      found ← intVal second;
      _ ← raise_if (negb (found =? version)) (Elog "pg_batch expected another plan version");
      fields ← list_nth data 2;
      _ ← raise_if (not_nil_and_not is_List fields) (Elog "pg_batch received malformed plan fields");
      fields ← list_cells fields;
      _ ← check_fields [] fields;
      Ok (mkReader kind fields [])
  end.

(** The reader after the call, and the field's value. *)
Definition read_field (reader : option PgBatchPlanReader) (name : option string)
    : res (PgBatchPlanReader * option Node) :=
  name ← check_name name;
  match reader with
  | None => Raise (Elog "pg_batch plan reader is not active")
  | Some reader =>
      _ ← raise_if (string_list_member (pr_read_names reader) name)
            (Elog "pg_batch plan field was read twice");
      field ← find_field (pr_fields reader) name;
      match field with
      | None => Raise (Elog "pg_batch plan field is missing")
      | Some field =>
          value ← list_nth field 1;
          Ok (mkReader (pr_kind reader) (pr_fields reader) (pr_read_names reader ++ [name]), value)
      end
  end.

Definition pg_batch_plan_read_int reader name : res (PgBatchPlanReader * Z) :=
  '(reader, value) ← read_field reader name;
  b ← IsA is_Integer value;
  _ ← raise_if (negb b) (Elog "pg_batch plan field is not an integer");
  i ← intVal value;
  Ok (reader, i).

Definition pg_batch_plan_read_string reader name : res (PgBatchPlanReader * string) :=
  '(reader, value) ← read_field reader name;
  b ← IsA is_String value;
  _ ← raise_if (negb b) (Elog "pg_batch plan field is not a string");
  s ← strVal value;
  Ok (reader, s).

Definition pg_batch_plan_read_node reader name : res (PgBatchPlanReader * option Node) :=
  read_field reader name.

Definition pg_batch_plan_read_list reader name : res (PgBatchPlanReader * option Node) :=
  '(reader, value) ← read_field reader name;
  _ ← raise_if (not_nil_and_not is_List value) (Elog "pg_batch plan field is not a List");
  Ok (reader, value).

Definition pg_batch_plan_read_int_list reader name : res (PgBatchPlanReader * option Node) :=
  '(reader, value) ← read_field reader name;
  _ ← raise_if (not_nil_and_not is_IntList value) (Elog "pg_batch plan field is not an IntList");
  Ok (reader, value).

Definition pg_batch_plan_read_bitmap reader name : res (PgBatchPlanReader * Bitmapset) :=
  '(reader, members) ← pg_batch_plan_read_int_list reader name;
  match members with
  | None => Ok (reader, bms_null)
  | Some (IntList l) => Ok (reader, foldl bms_add_member bms_null l)
  | Some _ => Undefined
  end.

Definition pg_batch_plan_reader_finish (reader : option PgBatchPlanReader) : res unit :=
  match reader with
  | None => Raise (Elog "pg_batch plan reader is not active")
  | Some reader =>
      if negb (zlength (pr_read_names reader) =? zlength (pr_fields reader)) then
        foldM (λ field _,
            first ← list_nth field 0;
            name ← strVal first;
            raise_if (negb (string_list_member (pr_read_names reader) name))
              (Elog "pg_batch plan field was not read"))
          (pr_fields reader) tt
      else Ok tt
  end.

(** ** Specification *)

(** A value of each kind a plan node may store. *)
Inductive plan_value : Type :=
| VInt (value : Z)
| VString (value : string)
| VNode (value : option Node)
| VList (value : list (option Node))
| VIntList (value : list Z)
| VBitmap (value : Bitmapset).

Definition write_value (fuel : nat) (entry : string * plan_value) (writer : PgBatchPlanWriter)
    : res PgBatchPlanWriter :=
  match entry.2 with
  | VInt v => pg_batch_plan_write_int (Some writer) (Some entry.1) v
  | VString v => pg_batch_plan_write_string (Some writer) (Some entry.1) (Some v)
  | VNode v => pg_batch_plan_write_node (Some writer) (Some entry.1) v
  | VList v => pg_batch_plan_write_list (Some writer) (Some entry.1) (make_list v)
  | VIntList v => pg_batch_plan_write_int_list (Some writer) (Some entry.1) (make_int_list v)
  | VBitmap v => pg_batch_plan_write_bitmap fuel (Some writer) (Some entry.1) v
  end.

Definition write_plan (fuel : nat) (kind : string) (version : Z) (entries : list (string * plan_value))
    : res (option Node) :=
  writer ← pg_batch_plan_writer_create (Some kind) version;
  writer ← foldM (write_value fuel) entries writer;
  '(_, data) ← pg_batch_plan_writer_finish (Some writer);
  Ok data.

(** Reading a field with the matching operation gives the value back; a
    bitmap comes back as a set with the same members. *)
Definition reads_back (reader : PgBatchPlanReader) (entry : string * plan_value)
    (reader' : PgBatchPlanReader) : Prop :=
  match entry.2 with
  | VInt v => pg_batch_plan_read_int (Some reader) (Some entry.1) = Ok (reader', v)
  | VString v => pg_batch_plan_read_string (Some reader) (Some entry.1) = Ok (reader', v)
  | VNode v => pg_batch_plan_read_node (Some reader) (Some entry.1) = Ok (reader', v)
  | VList v => pg_batch_plan_read_list (Some reader) (Some entry.1) = Ok (reader', make_list v)
  | VIntList v => pg_batch_plan_read_int_list (Some reader) (Some entry.1) = Ok (reader', make_int_list v)
  | VBitmap v => ∃ s, pg_batch_plan_read_bitmap (Some reader) (Some entry.1) = Ok (reader', s) ∧
      ∀ x, bms_is_member x s = bms_is_member x v
  end.

Inductive reads_all : PgBatchPlanReader → list (string * plan_value) → PgBatchPlanReader → Prop :=
| reads_nil reader : reads_all reader [] reader
| reads_cons reader entry reader1 entries reader2 :
    reads_back reader entry reader1 → reads_all reader1 entries reader2 →
    reads_all reader (entry :: entries) reader2.

(** ** Proofs *)

(** A field as the writer stores it. *)
Definition field_of (entry : string * option Node) : option Node :=
  Some (List_ [Some (String_ entry.1); entry.2]).

(** What the writer stores for a value. *)
Definition encodes (value : plan_value) (node : option Node) : Prop :=
  match value with
  | VInt v => node = Some (Integer v)
  | VString v => node = Some (String_ v)
  | VNode v => node = v
  | VList v => node = make_list v
  | VIntList v => node = make_int_list v
  | VBitmap v => ∃ l, node = make_int_list l ∧ ∀ x, x ∈ l ↔ bms_is_member x v = true
  end.

Definition enough_fuel (fuel : nat) (value : plan_value) : Prop :=
  match value with
  | VBitmap s => ∃ l, bms_members fuel s (-1) = Ok l ∧ ∀ x, x ∈ l ↔ bms_is_member x s = true
  | _ => True
  end.

Lemma string_list_member_spec items value : string_list_member items value = bool_decide (value ∈ items).
Proof.
  induction items as [|item items IH]; cbn [string_list_member]; [symmetry; apply bool_decide_false, not_elem_of_nil|].
  destruct (String.eqb_spec item value) as [->|Hne].
  - symmetry. apply bool_decide_true. by left.
  - rewrite IH. apply bool_decide_ext. rewrite elem_of_cons. naive_solver.
Qed.

Lemma check_name_ok name : name ≠ ""%string → check_name (Some name) = Ok name.
Proof. by destruct name. Qed.

Lemma no_kind_ok kind : kind ≠ ""%string → no_kind (Some kind) = false.
Proof. by destruct kind. Qed.

Lemma field_name_ok entry e : field_name (field_of entry) e = Ok entry.1.
Proof. done. Qed.

Lemma find_field_absent raw name : name ∉ raw.*1 → find_field (field_of <$> raw) name = Ok None.
Proof.
  induction raw as [|entry raw IH]; intros Hn; [done|]. csimpl in Hn. csimpl.
  apply not_elem_of_cons in Hn as [Hne Hn]. destruct (String.eqb_spec entry.1 name); [done|]. by apply IH.
Qed.

Lemma find_field_present raw entry :
  NoDup raw.*1 → entry ∈ raw → find_field (field_of <$> raw) entry.1 = Ok (Some (field_of entry)).
Proof.
  induction raw as [|first raw IH]; intros Hnd Hin; [by apply elem_of_nil in Hin|].
  csimpl in Hnd. csimpl. apply NoDup_cons in Hnd as [Hfresh Hnd].
  apply elem_of_cons in Hin as [->|Hin]; [by rewrite String.eqb_refl|].
  destruct (String.eqb_spec first.1 entry.1) as [E|]; [|by apply IH].
  destruct Hfresh. rewrite E. by apply list_elem_of_fmap_2.
Qed.

Lemma check_fields_ok earlier raw :
  NoDup (earlier ++ raw.*1) → check_fields earlier (field_of <$> raw) = Ok tt.
Proof.
  revert earlier. induction raw as [|entry raw IH]; intros earlier Hnd; [done|].
  csimpl in Hnd. csimpl. rewrite string_list_member_spec.
  rewrite bool_decide_false.
  - cbn [raise_if]. rewrite bind_Ok. apply IH. by rewrite <- app_assoc.
  - intros Hin. apply NoDup_app in Hnd as (_ & Hdis & _). destruct (Hdis _ Hin). by left.
Qed.

Definition writer_of (kind : string) (version : Z) (raw : list (string * option Node)) : PgBatchPlanWriter :=
  mkWriter kind version (field_of <$> raw) false.

Lemma write_field_ok kind version raw name value :
  name ≠ ""%string → name ∉ raw.*1 →
  write_field (Some (writer_of kind version raw)) (Some name) value =
    Ok (writer_of kind version (raw ++ [(name, value)])).
Proof.
  intros Hne Hfresh. unfold write_field. rewrite check_name_ok, bind_Ok by done.
  cbn [pw_finished writer_of pw_fields raise_if]. rewrite bind_Ok, find_field_absent by done.
  rewrite bind_Ok. cbn [raise_if]. rewrite bind_Ok. unfold writer_of. by rewrite fmap_app.
Qed.

Lemma write_value_ok fuel kind version raw entry :
  entry.1 ≠ ""%string → entry.1 ∉ raw.*1 → enough_fuel fuel entry.2 →
  ∃ node, write_value fuel entry (writer_of kind version raw) =
      Ok (writer_of kind version (raw ++ [(entry.1, node)])) ∧ encodes entry.2 node.
Proof.
  destruct entry as [name value]; cbn [fst snd]; intros Hne Hfresh Hfuel. unfold write_value; cbn [fst snd].
  assert (Hw : ∀ node, write_field (Some (writer_of kind version raw)) (Some name) node =
    Ok (writer_of kind version (raw ++ [(name, node)]))) by (intros; by apply write_field_ok).
  destruct value as [v|v|v|v|v|v].
  - exists (Some (Integer v)). split; [apply Hw|done].
  - exists (Some (String_ v)). split; [apply Hw|done].
  - exists v. unfold pg_batch_plan_write_node. rewrite copyObject_spec. split; [apply Hw|done].
  - exists (make_list v). unfold pg_batch_plan_write_list. rewrite copyObject_spec.
    split; [|done]. destruct v; apply Hw.
  - exists (make_int_list v). unfold pg_batch_plan_write_int_list. rewrite copyObject_spec.
    split; [|done]. destruct v; apply Hw.
  - destruct Hfuel as (l & E & Hl). exists (make_int_list l). unfold pg_batch_plan_write_bitmap.
    rewrite E, bind_Ok. split; [apply Hw|by exists l].
Qed.

Lemma write_values_ok fuel kind version entries raw :
  NoDup (raw.*1 ++ entries.*1) → Forall (λ e, e.1 ≠ ""%string ∧ enough_fuel fuel e.2) entries →
  ∃ nodes, foldM (write_value fuel) entries (writer_of kind version raw) =
      Ok (writer_of kind version (raw ++ zip entries.*1 nodes)) ∧
    Forall2 (λ e node, encodes e.2 node) entries nodes.
Proof.
  revert raw. induction entries as [|entry entries IH]; intros raw Hnd Hall.
  - exists []. rewrite app_nil_r. by split; [|constructor].
  - apply Forall_cons in Hall as [[Hne Hfuel] Hall]. csimpl in Hnd. csimpl.
    destruct (write_value_ok fuel kind version raw entry Hne) as (node & E & Henc); [|done|].
    { apply NoDup_app in Hnd as (_ & Hdis & _). intros Hin. destruct (Hdis _ Hin). by left. }
    cbn [foldM]. rewrite E, bind_Ok.
    destruct (IH (raw ++ [(entry.1, node)])) as (nodes & E' & Hnodes); [|done|].
    { rewrite fmap_app, <- app_assoc. done. }
    exists (node :: nodes). rewrite E', <- app_assoc. split; [done|]. by constructor.
Qed.

Definition reader_of (kind : string) (raw : list (string * option Node)) (read : list string)
    : PgBatchPlanReader := mkReader kind (field_of <$> raw) read.

Lemma fields_pointer raw : list_cells (make_list (field_of <$> raw)) = Ok (field_of <$> raw) ∧
  not_nil_and_not is_List (make_list (field_of <$> raw)) = false.
Proof. by destruct raw. Qed.

Lemma three_cells a b c : let data := make_list [a; b; c] in
  (match data with None => true | Some d => negb (is_List d) end) = false ∧
  list_length data = Ok 3 ∧ list_nth data 0 = Ok a ∧ list_nth data 1 = Ok b ∧ list_nth data 2 = Ok c.
Proof. done. Qed.

(** [reader_create] on what the writer produced, with the expected kind and
    version or with others. *)
Lemma reader_create_ok kind version raw kind' version' :
  kind' ≠ ""%string → 0 < version' → NoDup raw.*1 →
  pg_batch_plan_reader_create
      (make_list [Some (String_ kind); Some (Integer version); make_list (field_of <$> raw)])
      (Some kind') version' =
    if String.eqb kind kind' then
      if version =? version' then Ok (reader_of kind' raw [])
      else Raise (Elog "pg_batch expected another plan version")
    else Raise (Elog "pg_batch expected other plan data").
Proof.
  intros Hk Hv Hnd. unfold pg_batch_plan_reader_create. rewrite no_kind_ok by done.
  destruct (Z.leb_spec version' 0); [lia|]. cbn [orb raise_if]. rewrite bind_Ok.
  destruct (fields_pointer raw) as [Hcells Htag].
  destruct (three_cells (Some (String_ kind)) (Some (Integer version)) (make_list (field_of <$> raw)))
    as (-> & -> & -> & -> & ->).
  cbn [raise_if]. rewrite !bind_Ok. cbn [IsA is_String is_Integer strVal intVal negb raise_if].
  rewrite !bind_Ok. destruct (String.eqb kind kind'); [|done]. cbn [negb raise_if]. rewrite bind_Ok.
  destruct (version =? version'); [|done]. cbn [negb raise_if]. rewrite !bind_Ok, Htag.
  cbn [raise_if]. rewrite bind_Ok, Hcells, bind_Ok.
  rewrite check_fields_ok by done. done.
Qed.

Lemma read_field_ok kind raw read entry :
  NoDup raw.*1 → entry ∈ raw → entry.1 ≠ ""%string → entry.1 ∉ read →
  read_field (Some (reader_of kind raw read)) (Some entry.1) =
    Ok (reader_of kind raw (read ++ [entry.1]), entry.2).
Proof.
  intros Hnd Hin Hne Hread. unfold read_field. rewrite check_name_ok, bind_Ok by done.
  cbn [pr_read_names reader_of pr_fields]. rewrite string_list_member_spec, bool_decide_false by done.
  cbn [raise_if]. rewrite bind_Ok, find_field_present, bind_Ok by done. done.
Qed.

Lemma fold_members l s x : (∀ y, y ∈ l → 0 ≤ y) →
  bms_is_member x (foldl bms_add_member s l) = bool_decide (x ∈ l) || bms_is_member x s.
Proof.
  revert s. induction l as [|y l IH]; intros s Hl; cbn [foldl].
  - by rewrite bool_decide_false by apply not_elem_of_nil.
  - rewrite IH, bms_add_spec by (intros; apply Hl; by constructor || by left).
    destruct (Z.eqb_spec x y) as [->|Hne].
    + rewrite (bool_decide_true (y ∈ y :: l)) by by left. by rewrite orb_true_r.
    + f_equal. apply bool_decide_ext. rewrite elem_of_cons. naive_solver.
Qed.

Lemma reads_back_ok kind raw read name value node :
  NoDup raw.*1 → (name, node) ∈ raw → name ≠ ""%string → name ∉ read → encodes value node →
  reads_back (reader_of kind raw read) (name, value) (reader_of kind raw (read ++ [name])).
Proof.
  intros Hnd Hin Hne Hread Henc. pose proof (read_field_ok kind raw read (name, node) Hnd Hin Hne Hread) as Hr.
  cbn [fst snd] in Hr. unfold reads_back; cbn [fst snd].
  destruct value as [v|v|v|v|v|v]; cbn [encodes] in Henc.
  - subst node. unfold pg_batch_plan_read_int. by rewrite Hr.
  - subst node. unfold pg_batch_plan_read_string. by rewrite Hr.
  - subst node. exact Hr.
  - subst node. unfold pg_batch_plan_read_list. rewrite Hr. by destruct v.
  - subst node. unfold pg_batch_plan_read_int_list. rewrite Hr. by destruct v.
  - destruct Henc as (l & -> & Hl). unfold pg_batch_plan_read_bitmap, pg_batch_plan_read_int_list.
    rewrite Hr. exists (foldl bms_add_member bms_null l). split; [by destruct l|].
    intros x. rewrite fold_members, bms_null_spec, orb_false_r.
    + destruct (bms_is_member x v) eqn:E; [apply bool_decide_true|apply bool_decide_false]; rewrite Hl; [done|].
      by rewrite E.
    + intros y Hy%Hl. by apply bms_member_nonneg in Hy.
Qed.

Lemma reads_all_ok kind raw read order :
  NoDup raw.*1 → NoDup (read ++ order.*1) → Forall (λ e, e.1 ≠ ""%string) order →
  (∀ e, e ∈ order → ∃ node, (e.1, node) ∈ raw ∧ encodes e.2 node) →
  reads_all (reader_of kind raw read) order (reader_of kind raw (read ++ order.*1)).
Proof.
  intros Hraw. revert read. induction order as [|[name value] order IH]; intros read Hnd Hne Hin.
  - csimpl. rewrite app_nil_r. constructor.
  - csimpl in Hnd. csimpl. apply Forall_cons in Hne as [Hne Hall].
    destruct (Hin (name, value)) as (node & Hnode & Henc); [by left|].
    econstructor; [eapply reads_back_ok; try done|].
    + apply NoDup_app in Hnd as (_ & Hdis & _). intros Hr. destruct (Hdis _ Hr). by left.
    + replace (read ++ name :: order.*1) with ((read ++ [name]) ++ order.*1) by by rewrite <- app_assoc.
      apply IH; [by rewrite <- app_assoc|done|]. intros e He. apply Hin. by right.
Qed.

(** Everything the writer stored for [entries]. *)
Definition stored (entries : list (string * plan_value)) (raw : list (string * option Node)) : Prop :=
  raw.*1 = entries.*1 ∧ ∀ e, e ∈ entries → ∃ node, (e.1, node) ∈ raw ∧ encodes e.2 node.

Lemma stored_zip entries nodes :
  Forall2 (λ e node, encodes e.2 node) entries nodes → stored entries (zip entries.*1 nodes).
Proof.
  intros Hall. split.
  - induction Hall as [|e node entries nodes _ _ IH]; [done|]. csimpl. by rewrite IH.
  - induction Hall as [|e node entries nodes Henc _ IH]; intros e' He; [by apply elem_of_nil in He|].
    csimpl. apply elem_of_cons in He as [->|He]; [exists node; split; [by left|done]|].
    destruct (IH e' He) as (node' & Hin & Henc'). exists node'. split; [by right|done].
Qed.

Lemma fuel_exists (entries : list (string * plan_value)) :
  ∃ fuel0, ∀ fuel, (fuel0 ≤ fuel)%nat → Forall (λ e, enough_fuel fuel e.2) entries.
Proof.
  induction entries as [|[name value] entries [n IH]]; [by exists 0%nat|].
  assert (∃ m, ∀ fuel, (m ≤ fuel)%nat → enough_fuel fuel value) as [m Hm].
  { destruct value as [v|v|v|v|v|v]; try (by exists 0%nat). apply bms_members_ok. }
  exists (n `max` m)%nat. intros fuel Hf. constructor; [apply Hm; lia|apply IH; lia].
Qed.

(** Fields a node may write: distinct and named. *)
Definition entries_valid (kind : string) (version : Z) (entries : list (string * plan_value)) : Prop :=
  kind ≠ ""%string ∧ 0 < version ∧ NoDup entries.*1 ∧ Forall (λ e, e.1 ≠ ""%string) entries.

Lemma write_plan_ok kind version entries :
  entries_valid kind version entries →
  ∃ fuel0, ∀ fuel, (fuel0 ≤ fuel)%nat → ∃ raw,
    foldM (write_value fuel) entries (writer_of kind version []) = Ok (writer_of kind version raw) ∧
    write_plan fuel kind version entries =
      Ok (make_list [Some (String_ kind); Some (Integer version); make_list (field_of <$> raw)]) ∧
    stored entries raw.
Proof.
  intros (Hk & Hv & Hnd & Hne). destruct (fuel_exists entries) as [fuel0 Hfuel]. exists fuel0.
  intros fuel Hf. destruct (write_values_ok fuel kind version entries []) as (nodes & E & Hnodes); [done| |].
  { rewrite Forall_forall in Hne. apply Forall_forall. intros e He. split; [by apply Hne|].
    specialize (Hfuel fuel Hf). rewrite Forall_forall in Hfuel. by apply Hfuel. }
  exists (zip entries.*1 nodes). split; [exact E|]. split; [|by apply stored_zip].
  unfold write_plan, pg_batch_plan_writer_create. rewrite no_kind_ok by done.
  destruct (Z.leb_spec version 0); [lia|]. cbn [orb raise_if]. rewrite !bind_Ok.
  change (mkWriter kind version [] false) with (writer_of kind version []). rewrite E, bind_Ok. done.
Qed.

(** C16. Plan data survives the trip through a plan tree: whatever named
    values a node writes, a reader of the same kind and version reads each of
    them back with the matching operation, in any order, and once all are
    read [pg_batch_plan_reader_finish] is satisfied. *)
Theorem plan_roundtrip kind version entries order :
  entries_valid kind version entries → order ≡ₚ entries →
  ∃ fuel0, ∀ fuel, (fuel0 ≤ fuel)%nat → ∃ data reader reader',
    write_plan fuel kind version entries = Ok data ∧
    pg_batch_plan_reader_create data (Some kind) version = Ok reader ∧
    reads_all reader order reader' ∧ pg_batch_plan_reader_finish (Some reader') = Ok tt.
Proof.
  intros Hvalid Hperm. destruct (write_plan_ok kind version entries Hvalid) as [fuel0 Hw].
  destruct Hvalid as (Hk & Hv & Hnd & Hne). exists fuel0. intros fuel Hf.
  destruct (Hw fuel Hf) as (raw & _ & -> & Hnames & Hstored).
  eexists _, (reader_of kind raw []), (reader_of kind raw ([] ++ order.*1)). split; [done|].
  split; [rewrite reader_create_ok by (done || by rewrite Hnames); by rewrite String.eqb_refl, Z.eqb_refl|].
  split.
  - apply reads_all_ok; [by rewrite Hnames|csimpl; by rewrite Hperm|by rewrite Hperm|].
    intros e He. apply Hstored. by rewrite <- Hperm.
  - unfold pg_batch_plan_reader_finish. cbn [reader_of pr_read_names pr_fields app].
    rewrite Hperm, <- Hnames, !length_fmap. by rewrite Z.eqb_refl.
Qed.

Lemma write_value_duplicate fuel kind version raw name value :
  NoDup raw.*1 → name ≠ ""%string → name ∈ raw.*1 → enough_fuel fuel value →
  write_value fuel (name, value) (writer_of kind version raw) = Raise (Elog "pg_batch plan field is duplicated").
Proof.
  intros Hnd Hne Hin Hfuel. apply list_elem_of_fmap in Hin as (entry & -> & Hin).
  assert (Hw : ∀ node, write_field (Some (writer_of kind version raw)) (Some entry.1) node =
    Raise (Elog "pg_batch plan field is duplicated")).
  { intros node. unfold write_field. rewrite check_name_ok, bind_Ok by done.
    cbn [pw_finished writer_of pw_fields raise_if]. by rewrite bind_Ok, find_field_present, bind_Ok. }
  unfold write_value; cbn [fst snd]. destruct value as [v|v|v|v|v|v]; try apply Hw.
  - by destruct v; apply Hw.
  - by destruct v; apply Hw.
  - destruct Hfuel as (l & E & _). unfold pg_batch_plan_write_bitmap. rewrite E, bind_Ok. apply Hw.
Qed.

Lemma unread_field raw (read : list string) :
  (∃ entry, entry ∈ raw ∧ entry.1 ∉ read) →
  foldM (λ field (_ : unit),
      first ← list_nth field 0;
      name ← strVal first;
      raise_if (negb (string_list_member read name)) (Elog "pg_batch plan field was not read"))
    (field_of <$> raw) tt = Raise (Elog "pg_batch plan field was not read").
Proof.
  intros (entry & Hin & Hno). rewrite foldM_fmap.
  induction raw as [|first raw IH]; [by apply elem_of_nil in Hin|]. cbn [foldM].
  change (list_nth (field_of first) 0) with (Ok (Some (String_ first.1))). rewrite bind_Ok.
  cbn [strVal]. rewrite bind_Ok, string_list_member_spec. case_bool_decide as Hr; [|done].
  cbn [negb raise_if]. rewrite bind_Ok. apply IH.
  apply elem_of_cons in Hin as [->|Hin]; [by destruct Hno|done].
Qed.

(** C39. Plan data that does not match is refused, never misread: writing a
    name a second time, opening data of another kind or version, reading a
    field twice or one that was never written, and finishing with a field
    left unread all raise their error. *)
Theorem plan_strict kind version entries :
  entries_valid kind version entries →
  ∃ fuel0, ∀ fuel, (fuel0 ≤ fuel)%nat → ∃ data,
    write_plan fuel kind version entries = Ok data ∧
    (∀ name value, name ∈ entries.*1 → enough_fuel fuel value →
       write_plan fuel kind version (entries ++ [(name, value)]) =
         Raise (Elog "pg_batch plan field is duplicated")) ∧
    (∀ kind' version', kind' ≠ ""%string → 0 < version' → (kind', version') ≠ (kind, version) →
       pg_batch_plan_reader_create data (Some kind') version' =
         Raise (Elog (if String.eqb kind kind' then "pg_batch expected another plan version"
                      else "pg_batch expected other plan data"))) ∧
    ∀ read unread, read ++ unread ≡ₚ entries → ∃ reader reader',
      pg_batch_plan_reader_create data (Some kind) version = Ok reader ∧ reads_all reader read reader' ∧
      (∀ name, name ∈ read.*1 →
         read_field (Some reader') (Some name) = Raise (Elog "pg_batch plan field was read twice")) ∧
      (∀ name, name ≠ ""%string → name ∉ entries.*1 →
         read_field (Some reader') (Some name) = Raise (Elog "pg_batch plan field is missing")) ∧
      (unread ≠ [] →
         pg_batch_plan_reader_finish (Some reader') = Raise (Elog "pg_batch plan field was not read")).
Proof.
  intros Hvalid. destruct (write_plan_ok kind version entries Hvalid) as [fuel0 Hw].
  destruct Hvalid as (Hk & Hv & Hnd & Hne). exists fuel0. intros fuel Hf.
  destruct (Hw fuel Hf) as (raw & Hwrites & -> & Hnames & Hstored).
  assert (Hraw : NoDup raw.*1) by by rewrite Hnames.
  assert (Hnonempty : ∀ name, name ∈ entries.*1 → name ≠ ""%string).
  { intros name (e & -> & He)%list_elem_of_fmap. rewrite Forall_forall in Hne. by apply Hne. }
  eexists; split; [done|]. split; [|split].
  - intros name value Hin Hfuel. unfold write_plan, pg_batch_plan_writer_create.
    rewrite no_kind_ok by done. destruct (Z.leb_spec version 0); [lia|]. cbn [orb raise_if].
    rewrite !bind_Ok. change (mkWriter kind version [] false) with (writer_of kind version []).
    rewrite foldM_app, Hwrites, bind_Ok. cbn [foldM].
    by rewrite write_value_duplicate by (try apply Hnonempty; rewrite ?Hnames; done).
  - intros kind' version' Hk' Hv' Hdiff. rewrite reader_create_ok by done.
    destruct (String.eqb_spec kind kind') as [<-|]; [|done].
    destruct (Z.eqb_spec version version') as [<-|]; [|done]. by destruct Hdiff.
  - intros read unread Hperm. exists (reader_of kind raw []), (reader_of kind raw ([] ++ read.*1)).
    assert (Hnd' : NoDup (read ++ unread).*1) by by rewrite Hperm.
    rewrite fmap_app in Hnd'. apply NoDup_app in Hnd' as (Hnd1 & Hdis & _).
    split; [rewrite reader_create_ok by done; by rewrite String.eqb_refl, Z.eqb_refl|].
    assert (Hread : ∀ e, e ∈ read → e ∈ entries) by (intros e He; rewrite <- Hperm; set_solver).
    split; [|split; [|split]]; cbn [app].
    + apply reads_all_ok; [done|done| |].
      * apply Forall_forall. intros e He. apply Hnonempty. apply list_elem_of_fmap_2. by apply Hread.
      * intros e He. by apply Hstored, Hread.
    + intros name Hin. unfold read_field. rewrite check_name_ok, bind_Ok.
      * cbn [reader_of pr_read_names]. by rewrite string_list_member_spec, bool_decide_true.
      * apply list_elem_of_fmap in Hin as (e & -> & He). apply Hnonempty, list_elem_of_fmap_2. by apply Hread.
    + intros name Hname Hout. unfold read_field. rewrite check_name_ok, bind_Ok by done.
      cbn [reader_of pr_read_names pr_fields]. rewrite string_list_member_spec, bool_decide_false.
      * cbn [raise_if]. rewrite bind_Ok, find_field_absent by by rewrite Hnames. done.
      * intros (e & -> & He)%list_elem_of_fmap. destruct Hout. by apply list_elem_of_fmap_2, Hread.
    + intros Hun. unfold pg_batch_plan_reader_finish. cbn [reader_of pr_read_names pr_fields].
      assert (Hlen : length raw = (length read + length unread)%nat).
      { rewrite <- (length_fmap fst raw), Hnames, length_fmap, <- Hperm. apply length_app. }
      rewrite !length_fmap, Hlen. destruct unread as [|e unread]; [done|].
      destruct (Z.eqb_spec (zlength read) (Z.of_nat (length read + length (e :: unread)))) as [E|_];
        [simpl in E; lia|]. cbn [negb]. apply unread_field.
      destruct (Hstored e) as (node & Hin & _); [rewrite <- Hperm; set_solver|].
      exists (e.1, node). split; [done|]. intros Hr. apply (Hdis _ Hr). csimpl. by left.
Qed.
End plan.

(** ** Sample data *)

Definition sample_entries : list (string * plan_value) :=
  [("limit", VInt 10); ("name", VString "t"); ("empty", VList []); ("columns", VBitmap {[ 1; 4 ]})]%string.

Lemma sample_entries_valid : entries_valid "limit_node" 1 sample_entries.
Proof. split_and!; [done|done| |repeat constructor; done]. apply (bool_decide_unpack _). by vm_compute. Qed.

Lemma plan_roundtrip_witness : ∃ fuel0, ∀ fuel, (fuel0 ≤ fuel)%nat → ∃ data reader reader',
  write_plan fuel "limit_node" 1 sample_entries = Ok data ∧
  pg_batch_plan_reader_create data (Some "limit_node"%string) 1 = Ok reader ∧
  reads_all reader (reverse sample_entries) reader' ∧ pg_batch_plan_reader_finish (Some reader') = Ok tt.
Proof. apply (plan_roundtrip _ _ _ _ sample_entries_valid). apply reverse_Permutation. Defined.

Lemma plan_strict_witness : ∃ fuel0, ∀ fuel, (fuel0 ≤ fuel)%nat → ∃ data,
  write_plan fuel "limit_node" 1 sample_entries = Ok data ∧
  (∀ name value, name ∈ sample_entries.*1 → enough_fuel fuel value →
     write_plan fuel "limit_node" 1 (sample_entries ++ [(name, value)]) =
       Raise (Elog "pg_batch plan field is duplicated")) ∧
  (∀ kind' version', kind' ≠ ""%string → 0 < version' → (kind', version') ≠ ("limit_node"%string, 1) →
     pg_batch_plan_reader_create data (Some kind') version' =
       Raise (Elog (if String.eqb "limit_node" kind' then "pg_batch expected another plan version"
                    else "pg_batch expected other plan data"))) ∧
  ∀ read unread, read ++ unread ≡ₚ sample_entries → ∃ reader reader',
    pg_batch_plan_reader_create data (Some "limit_node"%string) 1 = Ok reader ∧ reads_all reader read reader' ∧
    (∀ name, name ∈ read.*1 →
       read_field (Some reader') (Some name) = Raise (Elog "pg_batch plan field was read twice")) ∧
    (∀ name, name ≠ ""%string → name ∉ sample_entries.*1 →
       read_field (Some reader') (Some name) = Raise (Elog "pg_batch plan field is missing")) ∧
    (unread ≠ [] →
       pg_batch_plan_reader_finish (Some reader') = Raise (Elog "pg_batch plan field was not read")).
Proof. exact (plan_strict _ _ _ sample_entries_valid). Defined.
