(* ===== verification/Expr.v ===== *)
(** * Batch expressions ([expr/expr.c])

    Expressions over at most one int4 column are compiled to a chain of
    column-with-scalar steps and evaluated a batch at a time.

    Expression trees, their initialization and their scalar evaluation belong
    to PostgreSQL ([nodes/primnodes.h], [executor/executor.h]); class
    [PgExecutor] names the calls the sources make, and [ScalarExecutor] what is
    documented of them: how the scalar executor evaluates the nodes of the
    restricted grammar for one row. *)

From S2P Require Import Prelude Words Selection Vector Kernels Int4 Bitmaps Batch Columns.

(** [catalog/pg_type_d.h] *)
Definition INT4OID : Z := 23.
Definition BOOLOID : Z := 16.
Definition VAR_RETURNING_DEFAULT : Z := 0.

Inductive ParamKind : Type := PARAM_EXTERN | PARAM_EXEC | PARAM_SUBLINK | PARAM_MULTIEXPR.

Record VarNode : Type := mkVar {
  varno : Z;
  varattno : Z;
  vartype : Z;
  varlevelsup : Z;
  varreturningtype : Z;
}.

Inductive ExprNode : Type :=
| Var (var : VarNode)
| Const (consttype : Z) (constvalue : Z) (constisnull : bool)
| Param (paramkind : ParamKind) (paramid : Z) (paramtype : Z)
| RelabelType (arg : ExprNode)
| OpExpr (opfuncid : Oid) (opresulttype : Z) (args : list ExprNode)
| OtherExpr (id : Z).

(** Induction that reaches the arguments of operators. *)
Lemma expr_ind (P : ExprNode → Prop) :
  (∀ v, P (Var v)) → (∀ t v n, P (Const t v n)) → (∀ k i t, P (Param k i t)) →
  (∀ a, P a → P (RelabelType a)) → (∀ f t args, Forall P args → P (OpExpr f t args)) →
  (∀ i, P (OtherExpr i)) → ∀ node, P node.
Proof.
  intros Hv Hc Hp Hr Ho Hx. fix IH 1. intros [v|t v n|k i t|a|f t args|i];
    [apply Hv|apply Hc|apply Hp|apply Hr, IH| |apply Hx].
  apply Ho. induction args as [|a args IHa]; constructor; [apply IH|exact IHa].
Qed.

Class PgExecutor : Type := {
  ExprContext : Type;
  ExprState : Type;
  exprType : ExprNode → Z;
  ExecInitExpr : ExprNode → ExprState;
  (** A Datum, or [None] for NULL. *)
  ExecEvalExpr : ExprState → ExprContext → res (option Z);
}.

Section expr.
Context `{PC : PgCore} `{SC : SourceCalls} `{EX : PgExecutor}.

Record ArithmeticStep : Type := mkStep {
  st_op : PgBatchInt4ArithmeticOp;
  st_scalar : option ExprState;
  st_scalar_on_left : bool;
}.

(** [steps == NULL] is the empty list and [nsteps] its length; a buffer that
    is not allocated is [None]. *)
Record PgBatchExpr : Type := mkExpr {
  e_column : Z;
  e_column_mask : Bitmapset;
  e_scalar_value : option ExprState;
  e_steps : list ArithmeticStep;
  e_comparison_scalar : option ExprState;
  e_comparison : PgBatchInt4Op;
  e_is_filter : bool;
  e_batch : option Z;
  e_econtext : option ExprContext;
  e_phase : PgBatchColumnPhase;
  e_capacity : Z;
  e_values : list (option (list Z));
  e_validity : list (option (list Z));
  e_result : option PgBatchInt4Vector;
  e_result_ready : bool;
}.

Definition set_e_column (e : PgBatchExpr) c := mkExpr c (e_column_mask e) (e_scalar_value e) (e_steps e)
  (e_comparison_scalar e) (e_comparison e) (e_is_filter e) (e_batch e) (e_econtext e) (e_phase e) (e_capacity e)
  (e_values e) (e_validity e) (e_result e) (e_result_ready e).
Definition set_e_mask (e : PgBatchExpr) m := mkExpr (e_column e) m (e_scalar_value e) (e_steps e)
  (e_comparison_scalar e) (e_comparison e) (e_is_filter e) (e_batch e) (e_econtext e) (e_phase e) (e_capacity e)
  (e_values e) (e_validity e) (e_result e) (e_result_ready e).
Definition set_e_scalar (e : PgBatchExpr) s := mkExpr (e_column e) (e_column_mask e) s (e_steps e)
  (e_comparison_scalar e) (e_comparison e) (e_is_filter e) (e_batch e) (e_econtext e) (e_phase e) (e_capacity e)
  (e_values e) (e_validity e) (e_result e) (e_result_ready e).
Definition set_e_steps (e : PgBatchExpr) l := mkExpr (e_column e) (e_column_mask e) (e_scalar_value e) l
  (e_comparison_scalar e) (e_comparison e) (e_is_filter e) (e_batch e) (e_econtext e) (e_phase e) (e_capacity e)
  (e_values e) (e_validity e) (e_result e) (e_result_ready e).
Definition set_e_buffers (e : PgBatchExpr) cap vs bs := mkExpr (e_column e) (e_column_mask e) (e_scalar_value e)
  (e_steps e) (e_comparison_scalar e) (e_comparison e) (e_is_filter e) (e_batch e) (e_econtext e) (e_phase e) cap
  vs bs (e_result e) (e_result_ready e).
Definition set_e_result (e : PgBatchExpr) r := mkExpr (e_column e) (e_column_mask e) (e_scalar_value e) (e_steps e)
  (e_comparison_scalar e) (e_comparison e) (e_is_filter e) (e_batch e) (e_econtext e) (e_phase e) (e_capacity e)
  (e_values e) (e_validity e) r true.

(** ** The grammar *)

Fixpoint strip_relabel (node : ExprNode) : ExprNode :=
  match node with RelabelType arg => strip_relabel arg | _ => node end.

Definition valid_var (var : VarNode) (relid : Z) : bool :=
  (vartype var =? INT4OID) && (0 <? varattno var) && (varlevelsup var =? 0) &&
  (varreturningtype var =? VAR_RETURNING_DEFAULT) && ((relid =? 0) || (varno var =? relid)).

Definition scalar_leaf (node : ExprNode) : bool :=
  match node with
  | Const consttype _ _ => consttype =? INT4OID
  | Param paramkind _ paramtype =>
      (paramtype =? INT4OID) && match paramkind with PARAM_EXTERN | PARAM_EXEC => true | _ => false end
  | _ => false
  end.

Definition arithmetic_op (funcid : Oid) (nargs : Z) : option PgBatchInt4ArithmeticOp :=
  match funcid with
  | F_INT4PL => if nargs =? 2 then Some PG_BATCH_INT4_ADD else None
  | F_INT4MI => if nargs =? 2 then Some PG_BATCH_INT4_SUBTRACT else None
  | F_INT4MUL => if nargs =? 2 then Some PG_BATCH_INT4_MULTIPLY else None
  | F_INT4DIV => if nargs =? 2 then Some PG_BATCH_INT4_DIVIDE else None
  | F_INT4MOD => if nargs =? 2 then Some PG_BATCH_INT4_MODULO else None
  | F_INT4UM => if negb (nargs =? 1) then None else Some PG_BATCH_INT4_NEGATE
  | _ => None
  end.

(** The number of Vars, [None] for false.  Recursing through [RelabelType]
    is the [strip_relabel] at the top of the C function. *)
Fixpoint analyze_value (node : ExprNode) (relid : Z) : option Z :=
  match node with
  | RelabelType arg => analyze_value arg relid
  | Var var => if valid_var var relid then Some 1 else None
  | OpExpr opfuncid _ args =>
      if negb (exprType node =? INT4OID) ||
         match arithmetic_op opfuncid (zlength args) with None => true | Some _ => false end
      then None
      else
        (fix loop (args : list ExprNode) (vars : Z) : option Z :=
           match args with
           | [] => Some vars
           | arg :: args =>
               match analyze_value arg relid with
               | None => None
               | Some arg_vars => if 1 <? vars + arg_vars then None else loop args (vars + arg_vars)
               end
           end) args 0
  | _ => if scalar_leaf node then Some 0 else None
  end.

Definition pg_batch_expr_supports_int4 (node : ExprNode) (relid : Z) : bool :=
  match analyze_value node relid with Some _ => true | None => false end.

(** [value_arg] and the comparison. *)
Definition analyze_filter (node : ExprNode) (relid : Z) : option (Z * PgBatchInt4Op) :=
  match strip_relabel node with
  | OpExpr opfuncid opresulttype args =>
      match args with
      | [arg0; arg1] =>
          if negb (exprType (OpExpr opfuncid opresulttype args) =? BOOLOID) then None else
          match analyze_value arg0 relid, analyze_value arg1 relid with
          | Some left_vars, Some right_vars =>
              if negb (left_vars + right_vars =? 1) then None else
              let value_arg := if left_vars =? 1 then 0 else 1 in
              match pg_batch_int4_compare_op opfuncid value_arg with
              | Some comparison => Some (value_arg, comparison)
              | None => None
              end
          | _, _ => None
          end
      | _ => None
      end
  | _ => None
  end.

Definition pg_batch_expr_supports_filter (node : ExprNode) (relid : Z) : bool :=
  match analyze_filter node relid with Some _ => true | None => false end.

(** The arguments of an operator node, [castNode(OpExpr, node)->args]. *)
Definition op_args (node : ExprNode) : res (list ExprNode) :=
  match node with OpExpr _ _ args => Ok args | _ => Undefined end.

Definition pg_batch_expr_match_int4_comparison (node : ExprNode) (relid : Z)
    : res (option (Z * PgBatchInt4Op * ExprNode)) :=
  let node := strip_relabel node in
  match analyze_filter node relid with
  | None => Ok None
  | Some (value_arg, comparison) =>
      args ← op_args node;
      arg0 ← aref args 0;
      arg1 ← aref args 1;
      let args := [strip_relabel arg0; strip_relabel arg1] in
      value ← aref args value_arg;
      scalar ← aref args (1 - value_arg);
      match value with
      | Var var =>
          match analyze_value scalar relid with
          | Some nvars => Ok (if negb (nvars =? 0) then None else Some (varattno var, comparison, scalar))
          | None => Ok None
          end
      | _ => Ok None
      end
  end.

(** ** Compilation *)

Definition append_step (e : PgBatchExpr) (op : PgBatchInt4ArithmeticOp) (scalar : option ExprNode)
    (scalar_on_left : bool) : PgBatchExpr :=
  set_e_steps e (e_steps e ++ [mkStep op (ExecInitExpr <$> scalar) scalar_on_left]).

Fixpoint compile_value (resolve_var : VarNode → Z) (node : ExprNode) (e : PgBatchExpr) : res PgBatchExpr :=
  match node with
  | RelabelType arg => compile_value resolve_var arg e
  | Var var =>
      let e := set_e_column e (resolve_var var) in
      _ ← raise_if (e_column e <? 0) (Elog "pg_batch expression input column is unavailable");
      Ok e
  | _ =>
      match analyze_value node 0 with
      | None => Raise (Elog "pg_batch received an unsupported int4 expression")
      | Some left_vars =>
          if left_vars =? 0 then Ok (set_e_scalar e (Some (ExecInitExpr node))) else
          match node with
          | OpExpr opfuncid _ args =>
              match arithmetic_op opfuncid (zlength args) with
              | None => Raise (Elog "pg_batch received an invalid int4 arithmetic expression")
              | Some arithmetic =>
                  match args with
                  | [arg] =>
                      e ← compile_value resolve_var arg e;
                      Ok (append_step e arithmetic None false)
                  | arg0 :: arg1 :: _ =>
                      let left_vars := default left_vars (analyze_value arg0 0) in
                      let right_vars := default 0 (analyze_value arg1 0) in
                      if left_vars =? 1 then
                        e ← compile_value resolve_var arg0 e;
                        Ok (append_step e arithmetic (Some arg1) false)
                      else
                        _ ← assert_ (right_vars =? 1);
                        e ← compile_value resolve_var arg1 e;
                        Ok (append_step e arithmetic (Some arg0) true)
                  | [] => Undefined
                  end
              end
          | _ => Undefined
          end
      end
  end.

(** [palloc0_object], with the fields [compile_expression] sets. *)
Definition new_expr (filter : bool) : PgBatchExpr :=
  mkExpr (-1) bms_null None [] None PG_BATCH_INT4_EQ filter None None PG_BATCH_COLUMN_FILTER 0
    [None; None] [None; None] None false.

Definition compile_expression (resolve_var : VarNode → Z) (node : ExprNode) (filter : bool) : res PgBatchExpr :=
  let e := new_expr filter in
  '(value, e) ←
    (if filter then
       match analyze_filter node 0 with
       | None => Raise (Elog "pg_batch received an unsupported filter expression")
       | Some (value_arg, comparison) =>
           args ← op_args (strip_relabel node);
           value ← aref args value_arg;
           scalar ← aref args (1 - value_arg);
           Ok (value, mkExpr (e_column e) (e_column_mask e) (e_scalar_value e) (e_steps e)
                 (Some (ExecInitExpr scalar)) comparison (e_is_filter e) (e_batch e) (e_econtext e) (e_phase e)
                 (e_capacity e) (e_values e) (e_validity e) (e_result e) (e_result_ready e))
       end
     else
       _ ← raise_if (negb (pg_batch_expr_supports_int4 node 0))
             (Elog "pg_batch received an unsupported int4 expression");
       Ok (node, e));
  e ← compile_value resolve_var value e;
  Ok (if 0 <=? e_column e then set_e_mask e (bms_make_singleton (e_column e)) else e).

Definition pg_batch_expr_compile_int4 resolve_var node : res PgBatchExpr :=
  compile_expression resolve_var node false.
Definition pg_batch_expr_compile_filter resolve_var node : res PgBatchExpr :=
  compile_expression resolve_var node true.

Definition pg_batch_expr_input_column (e : PgBatchExpr) : Z := e_column e.

(** ** Evaluation *)

Definition pg_batch_expr_bind (e : PgBatchExpr) (batch : option Z) (econtext : option ExprContext)
    (phase : PgBatchColumnPhase) : PgBatchExpr :=
  mkExpr (e_column e) (e_column_mask e) (e_scalar_value e) (e_steps e) (e_comparison_scalar e) (e_comparison e)
    (e_is_filter e) batch econtext phase (e_capacity e) (e_values e) (e_validity e) (e_result e) false.

(** One turn of the loop of [ensure_capacity]: buffer [i] after it. *)
Definition grow_buffer (nrows : Z) (i : Z) (e : PgBatchExpr) : res PgBatchExpr :=
  values ← aref (e_values e) i;
  validity ← aref (e_validity e) i;
  match values with
  | None =>
      values ← aset (e_values e) i (Some (int32_uninit nrows));
      validity ← aset (e_validity e) i (Some (replicate (Z.to_nat ((nrows + 7) / 8)) 0));
      Ok (set_e_buffers e (e_capacity e) values validity)
  | Some values =>
      validity ← match validity with Some v => Ok v | None => Undefined end;
      values ← aset (e_values e) i (Some (values ++ int32_uninit (nrows - zlength values)));
      validity ← aset (e_validity e) i
        (Some (validity ++ replicate (Z.to_nat ((nrows + 7) / 8 - (e_capacity e + 7) / 8)) 0));
      Ok (set_e_buffers e (e_capacity e) values validity)
  end.

Definition ensure_capacity (nrows : Z) (e : PgBatchExpr) : res PgBatchExpr :=
  if nrows <=? e_capacity e then Ok e else
  e ← foldM (grow_buffer nrows) (seqZ 0 (if 1 <? zlength (e_steps e) then 2 else 1)) e;
  Ok (set_e_buffers e nrows (e_values e) (e_validity e)).

(** [expr->values[i]], [expr->validity[i]] and writing them back. *)
Definition get_buffer (e : PgBatchExpr) (i : Z) : res (list Z * list Z) :=
  values ← aref (e_values e) i;
  validity ← aref (e_validity e) i;
  match values, validity with Some a, Some b => Ok (a, b) | _, _ => Undefined end.
Definition put_buffer (e : PgBatchExpr) (i : Z) (buf : list Z * list Z) : res PgBatchExpr :=
  values ← aset (e_values e) i (Some buf.1);
  validity ← aset (e_validity e) i (Some buf.2);
  Ok (set_e_buffers e (e_capacity e) values validity).

(** Storing the scalar in one row. *)
Definition fill_row (value row : Z) (buf : list Z * list Z) : res (list Z * list Z) :=
  values ← aset buf.1 row (DatumGetInt32 value);
  validity ← set_validity buf.2 row;
  Ok (values, validity).

Definition packed_buffer (buf : list Z * list Z) : PgBatchInt4Vector :=
  pg_batch_int4_vector_init_packed buf.1 (Some buf.2) 0.

Definition build_scalar_vector (e : PgBatchExpr) (sel : PgBatchSelection) (scalar : ExprState)
    (econtext : ExprContext) : res (PgBatchExpr * PgBatchInt4Vector) :=
  e ← ensure_capacity (nrows sel) e;
  buf ← get_buffer e 0;
  validity ← memset0 buf.2 ((nrows sel + 7) / 8);
  let buf := (buf.1, validity) in
  some ← pg_batch_has_rows sel;
  buf ← (if negb some then Ok buf else
         value ← ExecEvalExpr scalar econtext;
         match value with
         | None => Ok buf
         | Some value =>
             foldM (λ word buf,
                 rows ← pg_batch_selection_word sel word;
                 while_bits 64 clear_lowest rows (λ bitno buf, fill_row value (word * 64 + bitno) buf) buf)
               (seqZ 0 (nwords sel)) buf
         end);
  e ← put_buffer e 0 buf;
  Ok (e, packed_buffer buf).

(** One turn of the step loop: the expression, the input and the buffer. *)
Definition run_step (sel : PgBatchSelection) (econtext : ExprContext) (step : ArithmeticStep)
    (st : PgBatchExpr * PgBatchInt4Vector * Z) : res (PgBatchExpr * PgBatchInt4Vector * Z) :=
  let '(e, input, buffer) := st in
  some ← pg_batch_has_rows sel;
  scalar ← match st_scalar step with
           | Some scalar => if (some : bool) then ExecEvalExpr scalar econtext else Ok (Some (Int32GetDatum 0))
           | None => Ok (Some (Int32GetDatum 0))
           end;
  buf ← get_buffer e buffer;
  buf ← match scalar with
        | None => validity ← memset0 buf.2 ((nrows sel + 7) / 8); Ok (buf.1, validity)
        | Some scalar_value =>
            pg_batch_int4_arithmetic_scalar input sel (st_op step) (DatumGetInt32 scalar_value)
              (st_scalar_on_left step) buf.1 buf.2
        end;
  e ← put_buffer e buffer buf;
  Ok (e, packed_buffer buf, 1 - buffer).

Definition pg_batch_expr_get_int4 (e : PgBatchExpr) : W (PgBatchExpr * PgBatchInt4Vector) :=
  match e_batch e, e_econtext e with
  | Some k, Some econtext =>
      if e_result_ready e then r ← deref (e_result e); mret (e, r) else
      bt ← the_batch k;
      let sel := selection bt in
      '(e, input) ←
        match e_scalar_value e with
        | Some scalar => lift (build_scalar_vector e sel scalar econtext)
        | None =>
            access ← pg_batch_column_access_init (Some k) (e_column_mask e) (Some sel) (e_phase e);
            input ← pg_batch_column_get_int4 (Some access) (e_column e);
            mret (e, input)
        end;
      e ← lift (if 0 <? zlength (e_steps e) then ensure_capacity (nrows sel) e else Ok e);
      '(e, input, _) ← lift (foldM (run_step sel econtext) (e_steps e) (e, input, 0));
      mret (set_e_result e (Some input), input)
  | _, _ => fail "pg_batch expression is not bound to a batch"
  end.

Definition pg_batch_expr_apply_filter (target : simd_target) (e : PgBatchExpr) (enable_simd : bool) : W PgBatchExpr :=
  _ ← fail_if (negb (e_is_filter e)) "pg_batch value expression cannot be used as a filter";
  k ← deref (e_batch e);
  bt ← the_batch k;
  some ← lift (pg_batch_has_rows (selection bt));
  if negb some then mret e else
  '(e, value) ← pg_batch_expr_get_int4 e;
  comparison_scalar ← deref (e_comparison_scalar e);
  econtext ← deref (e_econtext e);
  scalar ← lift (ExecEvalExpr comparison_scalar econtext);
  bt ← the_batch k;
  s ← lift (match scalar with
            | None =>
                ws ← memset0 (words (selection bt)) (nwords (selection bt));
                Ok (set_words (selection bt) ws)
            | Some scalar =>
                pg_batch_filter_int4 target value (selection bt) (e_comparison e) (DatumGetInt32 scalar) enable_simd
            end);
  _ ← modify (λ w, put_batch w k (set_selection bt s));
  mret e.
End expr.
