(* ===== verification/ExprProps.v ===== *)
(** * Batch expressions: the chain computes what the scalar executor would

    For every selected row of a batch, the compiled chain yields the value
    PostgreSQL's scalar executor yields for the expression on that row, and it
    raises an error only if the scalar executor would raise one for some
    selected row. *)

From S2P Require Import Prelude Words Selection Vector Kernels Int4 Bitmaps Batch Columns Expr.

(** SQL's int4 operators: NULL propagates, results are exact or an error. *)
Definition sql_int4 (left right : Z) (op : PgBatchInt4ArithmeticOp) : res Z :=
  match exact_arithmetic left right op with
  | None => Raise DivisionByZero
  | Some v => if in_s32 v then Ok v else Raise NumericValueOutOfRange
  end.

Definition eval `{PgExecutor} (node : ExprNode) (econtext : ExprContext) : res (option Z) :=
  ExecEvalExpr (ExecInitExpr node) econtext.

(** What the sources rely on of [ExecEvalExpr].  [at_row] is the context whose
    scan tuple gives each Var an int4 value. *)
Class ScalarExecutor `{EX : PgExecutor} : Type := {
  at_row : ExprContext → (VarNode → option Z) → ExprContext;
  eval_defined s econtext : ExecEvalExpr s econtext ≠ Undefined;
  eval_var v econtext row : valid_var v 0 = true →
    eval (Var v) (at_row econtext row) = Ok (Int32GetDatum <$> row v);
  eval_relabel arg econtext : eval (RelabelType arg) econtext = eval arg econtext;
  (** Constants and parameters do not depend on the row. *)
  eval_leaf node econtext row : scalar_leaf node = true → eval node (at_row econtext row) = eval node econtext;
  (** Strict functions: the arguments in order, then the function. *)
  eval_binary f t arg0 arg1 op econtext : arithmetic_op f 2 = Some op →
    eval (OpExpr f t [arg0; arg1]) econtext =
      (a ← eval arg0 econtext; b ← eval arg1 econtext;
       match a, b with
       | Some a, Some b => v ← sql_int4 (DatumGetInt32 a) (DatumGetInt32 b) op; Ok (Some (Int32GetDatum v))
       | _, _ => Ok None
       end);
  eval_unary f t arg op econtext : arithmetic_op f 1 = Some op →
    eval (OpExpr f t [arg]) econtext =
      (a ← eval arg econtext;
       match a with
       | Some a => v ← sql_int4 (DatumGetInt32 a) 0 op; Ok (Some (Int32GetDatum v))
       | None => Ok None
       end);
  eval_compare f t arg0 arg1 op econtext : pg_batch_int4_compare_op f 0 = Some op →
    eval (OpExpr f t [arg0; arg1]) econtext =
      (a ← eval arg0 econtext; b ← eval arg1 econtext;
       match a, b with
       | Some a, Some b =>
           Ok (Some (if pg_batch_int4_compare (DatumGetInt32 a) (DatumGetInt32 b) op then 1 else 0))
       | _, _ => Ok None
       end);
}.

(** The same value, or an error on both sides. *)
Definition agree {A} (a b : res A) : Prop :=
  match a, b with Ok x, Ok y => x = y | Raise _, Raise _ => True | _, _ => False end.

Lemma first_failure {A B} (f : A → res B) (l : list A) :
  (∀ x, x ∈ l → f x ≠ Undefined) →
  (∀ x, x ∈ l → ∃ v, f x = Ok v) ∨
  ∃ pre x post e, l = pre ++ x :: post ∧ (∀ y, y ∈ pre → ∃ v, f y = Ok v) ∧ f x = Raise e.
Proof.
  induction l as [|x l IH]; intros Hdef; [left; intros x Hx; by apply elem_of_nil in Hx|].
  destruct (f x) as [v|e|] eqn:E.
  - destruct IH as [Hok|(pre & y & post & e & -> & Hpre & He)]; [intros y Hy; apply Hdef; by right| |].
    + left. intros y [->|Hy]%elem_of_cons; [eauto|by apply Hok].
    + right. exists (x :: pre), y, post, e. split_and!; [done| |done].
      intros z [->|Hz]%elem_of_cons; [eauto|by apply Hpre].
  - right. exists [], x, l, e. split_and!; [done| |done]. intros y Hy. by apply elem_of_nil in Hy.
  - exfalso. eapply Hdef; [by left|done].
Qed.

Lemma exact_s32 left right op v : sql_int4 left right op = Ok v → is_s32 v.
Proof.
  unfold sql_int4. destruct (exact_arithmetic left right op) as [z|]; [|done].
  destruct (in_s32 z) eqn:E; [|done]. intros [= <-]. by apply in_s32_spec.
Qed.

Section compile.
Context `{PC : PgCore} `{SC : SourceCalls} `{EX : PgExecutor} `{SX : !ScalarExecutor}.

Implicit Types (ec : ExprContext) (row : VarNode → option Z).

(** The int4 value of a node for one row. *)
Definition eval_int4 (node : ExprNode) ec : res (option Z) :=
  d ← eval node ec; Ok (DatumGetInt32 <$> (d : option Z)).

(** One step of the chain, and the chain, on one row's value. *)
Definition step_value ec (step : ArithmeticStep) (v : option Z) : res (option Z) :=
  s ← match st_scalar step with Some s => ExecEvalExpr s ec | None => Ok (Some (Int32GetDatum 0)) end;
  match s, v with
  | Some s, Some v =>
      r ← sql_int4 (if st_scalar_on_left step then DatumGetInt32 s else v)
                   (if st_scalar_on_left step then v else DatumGetInt32 s) (st_op step);
      Ok (Some r)
  | _, _ => Ok None
  end.
Definition chain ec (steps : list ArithmeticStep) (v : option Z) : res (option Z) :=
  foldM (step_value ec) steps v.

Lemma step_value_defined ec step v : step_value ec step v ≠ Undefined.
Proof.
  unfold step_value. assert (Hs : match st_scalar step with Some s => ExecEvalExpr s ec
    | None => Ok (Some (Int32GetDatum 0)) end ≠ Undefined) by (case_match; [apply eval_defined|done]).
  destruct (match st_scalar step with Some s => _ | None => _ end) as [[s|]| |]; try done. simpl.
  destruct v as [v|]; [|done]. unfold sql_int4. destruct (exact_arithmetic _ _ _); [|done]. by case_match.
Qed.

(** ** The analysis *)

Lemma arithmetic_arity f n op : arithmetic_op f n = Some op → n = 1 ∨ n = 2.
Proof.
  destruct f; cbn; try done;
    try (destruct (Z.eqb_spec n 2); [auto|done]); destruct (Z.eqb_spec n 1); [auto|done].
Qed.

(** The operator nodes the analysis accepts, by number of arguments. *)
Lemma analyze_op f t args relid n :
  analyze_value (OpExpr f t args) relid = Some n →
  (∃ arg op, args = [arg] ∧ arithmetic_op f 1 = Some op ∧ analyze_value arg relid = Some n) ∨
  (∃ arg0 arg1 op n0 n1, args = [arg0; arg1] ∧ arithmetic_op f 2 = Some op ∧
     analyze_value arg0 relid = Some n0 ∧ analyze_value arg1 relid = Some n1 ∧ n = n0 + n1 ∧ n ≤ 1).
Proof.
  cbn [analyze_value]. destruct (negb _ || _) eqn:Hop; [done|]. bool_prop.
  destruct (arithmetic_op f (zlength args)) as [op|] eqn:Ho; [|done].
  destruct (arithmetic_arity _ _ _ Ho) as [Hl|Hl]; rewrite Hl in Ho.
  - destruct args as [|arg [|]]; simpl in Hl; try lia. intros Ha. left.
    exists arg, op. split_and!; [done|done|]. destruct (analyze_value arg relid) as [n0|]; [|done].
    destruct (1 <? 0 + n0); [done|]. by rewrite Z.add_0_l in Ha.
  - destruct args as [|arg0 [|arg1 [|]]]; simpl in Hl; try lia. intros Ha. right.
    destruct (analyze_value arg0 relid) as [n0|] eqn:E0; [|done].
    destruct (1 <? 0 + n0); [done|]. destruct (analyze_value arg1 relid) as [n1|] eqn:E1; [|done].
    destruct (Z.ltb_spec 1 (0 + n0 + n1)); [done|]. injection Ha as <-.
    exists arg0, arg1, op, n0, n1. split_and!; try done; lia.
Qed.

Lemma analyze_nonneg node relid n : analyze_value node relid = Some n → 0 ≤ n ≤ 1.
Proof.
  revert n. induction node as [v|t v b|k i t|a IH|f t args IH|i] using expr_ind; intros n; cbn [analyze_value].
  - case_match; [|done]. intros [= <-]. lia.
  - case_match; [|done]. intros [= <-]. lia.
  - case_match; [|done]. intros [= <-]. lia.
  - apply IH.
  - intros Ha. apply analyze_op in Ha as [(arg & op & -> & _ & Ha)|(a0 & a1 & op & n0 & n1 & -> & _ & H0 & H1 & -> & Hle)].
    + apply Forall_cons in IH as [IH _]. by apply IH.
    + apply Forall_cons in IH as [IH0 IH]. apply Forall_cons in IH as [IH1 _].
      apply IH0 in H0. apply IH1 in H1. lia.
  - done.
Qed.

(** A node without Vars has the same value on every row. *)
Lemma eval_scalar node ec row :
  analyze_value node 0 = Some 0 → eval node (at_row ec row) = eval node ec.
Proof.
  induction node as [v|t v b|k i t|a IH|f t args IH|i] using expr_ind; intros Ha.
  - cbn in Ha. by case_match.
  - apply eval_leaf. cbn [analyze_value] in Ha. by case_match.
  - apply eval_leaf. cbn [analyze_value] in Ha. by case_match.
  - cbn in Ha. rewrite !eval_relabel. by apply IH.
  - apply analyze_op in Ha as [(arg & op & -> & Hop & Ha)|(a0 & a1 & op & n0 & n1 & -> & Hop & H0 & H1 & Hn & _)].
    + apply Forall_cons in IH as [IH _]. rewrite !(eval_unary _ _ _ op) by done. by rewrite IH.
    + apply Forall_cons in IH as [IH0 IH]. apply Forall_cons in IH as [IH1 _].
      pose proof (analyze_nonneg _ _ _ H0). pose proof (analyze_nonneg _ _ _ H1).
      rewrite !(eval_binary _ _ _ _ op) by done. rewrite IH0, IH1; [done|..]; rewrite ?H0, ?H1; f_equal; lia.
  - done.
Qed.

(** ** The compiler *)

Definition add_chain (e : PgBatchExpr) (column : Z) (steps : list ArithmeticStep) : PgBatchExpr :=
  set_e_steps (set_e_column e column) (e_steps e ++ steps).

Definition compiled_var (resolve : VarNode → Z) (node : ExprNode) (v : VarNode) (steps : list ArithmeticStep) : Prop :=
  valid_var v 0 = true ∧ 0 ≤ resolve v ∧
  ∀ ec row, (∀ z, row v = Some z → is_s32 z) →
    agree (eval_int4 node (at_row ec row)) (chain ec steps (row v)).

Lemma chain_snoc ec steps step v :
  chain ec (steps ++ [step]) v = (x ← chain ec steps v; step_value ec step x).
Proof.
  unfold chain. rewrite foldM_app. destruct (foldM _ steps v) as [x| |]; [|done..]. cbn [foldM].
  rewrite !bind_Ok. by destruct (step_value ec step x).
Qed.

Lemma eval_int4_defined node ec : eval_int4 node ec ≠ Undefined.
Proof. unfold eval_int4. pose proof (eval_defined (ExecInitExpr node) ec). fold (eval node ec) in *. by destruct (eval node ec). Qed.

Lemma DatumGetInt32_s32 d : is_s32 (DatumGetInt32 d).
Proof. apply to_s32_range. Qed.

(** Appending a step for an operator whose one Var is in [arg]. *)
Lemma agree_binary_right ec row node arg scalar op steps v f t :
  arithmetic_op f 2 = Some op → node = OpExpr f t [arg; scalar] → analyze_value scalar 0 = Some 0 →
  agree (eval_int4 arg (at_row ec row)) (chain ec steps v) →
  agree (eval_int4 node (at_row ec row)) (chain ec (steps ++ [mkStep op (Some (ExecInitExpr scalar)) false]) v).
Proof.
  intros Hop -> Hs Ha. rewrite chain_snoc. unfold eval_int4 in *. rewrite (eval_binary _ _ _ _ op) by done.
  rewrite (eval_scalar scalar) by done. unfold step_value. cbn [st_scalar st_scalar_on_left st_op].
  fold (eval scalar ec). pose proof (eval_defined (ExecInitExpr scalar) ec) as Hdef. fold (eval scalar ec) in Hdef.
  destruct (eval arg (at_row ec row)) as [a|ea|], (chain ec steps v) as [x|ex|]; cbn in Ha; try done. subst x. cbn.
  destruct (eval scalar ec) as [s|es|]; cbn; [|done|done].
  destruct a as [a|], s as [s|]; cbn; try done.
  destruct (sql_int4 (DatumGetInt32 a) (DatumGetInt32 s) op) as [z| |] eqn:Ez; cbn; [|done|].
  - f_equal. apply Int32GetDatum_inv. by eapply exact_s32.
  - unfold sql_int4 in Ez. destruct (exact_arithmetic _ _ _); [|done]. by case_match.
Qed.

Lemma agree_binary_left ec row node arg scalar op steps v f t :
  arithmetic_op f 2 = Some op → node = OpExpr f t [scalar; arg] → analyze_value scalar 0 = Some 0 →
  agree (eval_int4 arg (at_row ec row)) (chain ec steps v) →
  agree (eval_int4 node (at_row ec row)) (chain ec (steps ++ [mkStep op (Some (ExecInitExpr scalar)) true]) v).
Proof.
  intros Hop -> Hs Ha. rewrite chain_snoc. unfold eval_int4 in *. rewrite (eval_binary _ _ _ _ op) by done.
  rewrite (eval_scalar scalar) by done. unfold step_value. cbn [st_scalar st_scalar_on_left st_op].
  fold (eval scalar ec). pose proof (eval_defined (ExecInitExpr scalar) ec) as Hdef. fold (eval scalar ec) in Hdef.
  destruct (eval scalar ec) as [s|es|], (eval arg (at_row ec row)) as [a|ea|], (chain ec steps v) as [x|ex|];
    cbn in Ha; try done. subst x. cbn.
  destruct a as [a|], s as [s|]; cbn; try done.
  destruct (sql_int4 (DatumGetInt32 s) (DatumGetInt32 a) op) as [z| |] eqn:Ez; cbn; [|done|].
  - f_equal. apply Int32GetDatum_inv. by eapply exact_s32.
  - unfold sql_int4 in Ez. destruct (exact_arithmetic _ _ _); [|done]. by case_match.
Qed.

Lemma agree_unary ec row node arg op steps v f t :
  arithmetic_op f 1 = Some op → node = OpExpr f t [arg] →
  agree (eval_int4 arg (at_row ec row)) (chain ec steps v) →
  agree (eval_int4 node (at_row ec row)) (chain ec (steps ++ [mkStep op None false]) v).
Proof.
  intros Hop -> Ha. rewrite chain_snoc. unfold eval_int4 in *. rewrite (eval_unary _ _ _ op) by done.
  unfold step_value. cbn [st_scalar st_scalar_on_left st_op].
  destruct (eval arg (at_row ec row)) as [a|ea|], (chain ec steps v) as [x|ex|]; cbn in Ha; try done. subst x. cbn.
  destruct a as [a|]; cbn; try done. change (DatumGetInt32 (Int32GetDatum 0)) with 0.
  destruct (sql_int4 (DatumGetInt32 a) 0 op) as [z| |] eqn:Ez; cbn; [|done|].
  - f_equal. apply Int32GetDatum_inv. by eapply exact_s32.
  - unfold sql_int4 in Ez. destruct (exact_arithmetic _ _ _); [|done]. by case_match.
Qed.

(** Every Var the grammar accepts has an input column. *)
Definition resolves (resolve : VarNode → Z) : Prop := ∀ v, valid_var v 0 = true → 0 ≤ resolve v.

(** A node without Vars becomes one scalar, a node with one Var a chain. *)
Lemma compile_value_ok resolve node e n :
  analyze_value node 0 = Some n → resolves resolve →
  if n =? 0 then ∃ s, compile_value resolve node e = Ok (set_e_scalar e (Some s)) ∧
      ∀ ec row, ExecEvalExpr s ec = eval node (at_row ec row)
  else ∃ v steps, compile_value resolve node e = Ok (add_chain e (resolve v) steps) ∧
      compiled_var resolve node v steps.
Proof.
  intros Ha Hres. revert e n Ha.
  induction node as [v|t v b|k i t|a IH|f t args IH|i] using expr_ind; intros e n Ha.
  - cbn in Ha. destruct (valid_var v 0) eqn:Hv; [|done]. injection Ha as <-. cbn [Z.eqb].
    exists v, []. split.
    + cbn. destruct (Z.ltb_spec (resolve v) 0); [specialize (Hres v Hv); lia|]. cbn.
      unfold add_chain. rewrite app_nil_r. by destruct e.
    + split; [done|]. split; [by apply Hres|]. intros ec row Hs. unfold eval_int4. rewrite eval_var by done.
      cbn. destruct (row v) as [z|]; [|done]. cbn. by rewrite Int32GetDatum_inv by by apply Hs.
  - pose proof Ha as Ha'. cbn [analyze_value] in Ha. destruct (scalar_leaf _); [|done]. injection Ha as <-. cbn [Z.eqb].
    eexists; split; [cbn [compile_value]; by rewrite Ha'|]. intros ec row. by rewrite (eval_scalar (Const t v b)).
  - pose proof Ha as Ha'. cbn [analyze_value] in Ha. destruct (scalar_leaf _); [|done]. injection Ha as <-. cbn [Z.eqb].
    eexists; split; [cbn [compile_value]; by rewrite Ha'|]. intros ec row. by rewrite (eval_scalar (Param k i t)).
  - cbn [analyze_value] in Ha. specialize (IH e n Ha). cbn [compile_value]. destruct (n =? 0).
    + destruct IH as (s & E & Hs). exists s. split; [done|]. intros ec row. by rewrite eval_relabel.
    + destruct IH as (v & steps & E & Hv & Hc & Hag). exists v, steps. split; [done|]. split; [done|]. split; [done|].
      intros ec row Hr. unfold eval_int4. rewrite eval_relabel. by apply Hag.
  - cbn [compile_value]. rewrite Ha. pose proof (analyze_nonneg _ _ _ Ha) as Hn.
    destruct (Z.eqb_spec n 0) as [->|Hn0].
    { eexists; split; [done|]. intros ec row. by rewrite (eval_scalar (OpExpr f t args)). }
    pose proof Ha as Ha'. apply analyze_op in Ha' as [(arg & op & -> & Hop & H1)|(a0 & a1 & op & n0 & n1 & -> & Hop & H0 & H1 & -> & Hle)].
    + change (zlength [arg]) with 1. rewrite Hop. apply Forall_cons in IH as [IH _].
      specialize (IH e n H1). destruct (Z.eqb_spec n 0); [done|]. destruct IH as (v & steps & -> & Hv & Hc & Hag).
      rewrite bind_Ok. exists v, (steps ++ [mkStep op None false]). split.
      { unfold append_step, add_chain. cbn. by rewrite app_assoc. }
      split; [done|]. split; [done|]. intros ec row Hr. eapply agree_unary; [done|done|]. by apply Hag.
    + change (zlength [a0; a1]) with 2. rewrite Hop. apply Forall_cons in IH as [IH0 IH]. apply Forall_cons in IH as [IH1 _].
      pose proof (analyze_nonneg _ _ _ H0). pose proof (analyze_nonneg _ _ _ H1). rewrite H0, H1. cbn [default]. unfold id.
      destruct (Z.eqb_spec n0 1) as [->|Hne].
      * specialize (IH0 e 1 H0). destruct IH0 as (v & steps & -> & Hv & Hc & Hag). rewrite bind_Ok.
        exists v, (steps ++ [mkStep op (Some (ExecInitExpr a1)) false]). split.
        { unfold append_step, add_chain. cbn. by rewrite app_assoc. }
        split; [done|]. split; [done|]. intros ec row Hr. eapply agree_binary_right; [done|done| |by apply Hag].
        rewrite H1. f_equal. lia.
      * assert (n1 = 1) as -> by lia. cbn [default]. change (assert_ (1 =? 1)) with (Ok tt). rewrite bind_Ok.
        specialize (IH1 e 1 H1). destruct IH1 as (v & steps & -> & Hv & Hc & Hag). rewrite bind_Ok.
        exists v, (steps ++ [mkStep op (Some (ExecInitExpr a0)) true]). split.
        { unfold append_step, add_chain. cbn. by rewrite app_assoc. }
        split; [done|]. split; [done|]. intros ec row Hr. eapply agree_binary_left; [done|done| |by apply Hag].
        rewrite H0. f_equal. lia.
  - done.
Qed.
End compile.
