(* ===== verification/ExprEval.v ===== *)
(** * Batch expressions: buffers and evaluation

    The invariant of an expression's buffers, and what one step, the chain of
    steps and the scalar vector compute for the selected rows. *)

From S2P Require Import Prelude Words Selection Vector Kernels Int4 Bitmaps Batch Columns Expr ExprProps.

Lemma foldM_preserves {A B} (P : A → Prop) (f : B → A → res A) l a a' :
  (∀ x a a', f x a = Ok a' → P a → P a') → foldM f l a = Ok a' → P a → P a'.
Proof.
  intros Hf. revert a. induction l as [|x l IH]; intros a; cbn [foldM].
  - by intros [= <-].
  - intros (a1 & E & Hrest)%bind_ok_inv Ha. eapply IH; [done|]. by eapply Hf.
Qed.

Lemma aset_length {A} (l l' : list A) i x : aset l i x = Ok l' → length l' = length l.
Proof. unfold aset. case_match; [done|]. intros [= <-]. apply length_insert. Qed.

Lemma memset0_length l l' n : memset0 l n = Ok l' → length l' = length l.
Proof.
  unfold memset0. destruct (Z.leb_spec 0 n), (Z.leb_spec n (zlength l)); try done. simpl.
  intros [= <-]. rewrite length_app, length_replicate, length_drop. lia.
Qed.

(** Arrays keep their length through the kernels. *)
Definition lengths_are (nv nb : nat) (buf : list Z * list Z) : Prop :=
  length buf.1 = nv ∧ length buf.2 = nb.

Lemma set_validity_length v v' row : set_validity v row = Ok v' → length v' = length v.
Proof. unfold set_validity. intros (b & _ & H)%bind_ok_inv. by eapply aset_length. Qed.

Section eval.
Context `{PC : PgCore} `{SC : SourceCalls} `{EX : PgExecutor} `{SX : !ScalarExecutor}.

Lemma arithmetic_lengths input s op scalar left values validity out :
  sel_wf s → pg_batch_int4_arithmetic_scalar input s op scalar left values validity = Ok out →
  lengths_are (length values) (length validity) out.
Proof.
  intros Hs. rewrite arithmetic_as_fold by done. intros (v' & Hv & Hf)%bind_ok_inv.
  eapply (foldM_preserves (lengths_are (length values) (length validity))); [|done|].
  - intros row [vs bs] [vs' bs']. unfold arithmetic_row.
    intros ([] & _ & HR)%bind_ok_inv; [by injection HR as <- <-|].
    apply bind_ok_inv in HR as (x & _ & HR). cbv zeta in HR. apply bind_ok_inv in HR as (r & _ & HR).
    apply bind_ok_inv in HR as (vs1 & HV & HR). apply bind_ok_inv in HR as (bs1 & HB & [= <- <-]).
    apply aset_length in HV. apply set_validity_length in HB. unfold lengths_are. cbn in *. intuition congruence.
  - split; [done|]. by apply memset0_length in Hv.
Qed.

(** ** Buffers *)

Definition buf_ok (cap : Z) (values validity : option (list Z)) : Prop :=
  match values, validity with
  | None, None => True
  | Some vs, Some bs => zlength vs = cap ∧ zlength bs = (cap + 7) / 8 ∧ Forall is_s32 vs
  | _, _ => False
  end.

Definition buffers_ok (e : PgBatchExpr) : Prop :=
  0 ≤ e_capacity e ∧ ∃ v0 v1 b0 b1, e_values e = [v0; v1] ∧ e_validity e = [b0; b1] ∧
    buf_ok (e_capacity e) v0 b0 ∧ buf_ok (e_capacity e) v1 b1 ∧
    (0 < e_capacity e → v0 ≠ None ∧ (1 < zlength (e_steps e) → v1 ≠ None)) ∧
    (zlength (e_steps e) ≤ 1 → v1 = None).

(** Expressions that differ in their buffers only. *)
Definition same_core (e e' : PgBatchExpr) : Prop :=
  e' = set_e_buffers e (e_capacity e') (e_values e') (e_validity e').

Lemma same_core_refl e : same_core e e.
Proof. by destruct e. Qed.

Lemma same_core_trans e1 e2 e3 : same_core e1 e2 → same_core e2 e3 → same_core e1 e3.
Proof. unfold same_core. intros H12 H23. rewrite H23, H12. by destruct e1. Qed.

(** The storage of one buffer after growing to [n] rows. *)
Definition grown (n cap : Z) (values validity : option (list Z)) : option (list Z * list Z) :=
  match values, validity with
  | None, _ => Some (int32_uninit n, replicate (Z.to_nat ((n + 7) / 8)) 0)
  | Some vs, Some bs =>
      Some (vs ++ int32_uninit (n - zlength vs), bs ++ replicate (Z.to_nat ((n + 7) / 8 - (cap + 7) / 8)) 0)
  | Some _, None => None
  end.

Lemma grown_ok n cap values validity :
  0 ≤ cap < n → buf_ok cap values validity →
  ∃ vs bs, grown n cap values validity = Some (vs, bs) ∧ buf_ok n (Some vs) (Some bs).
Proof.
  intros Hn Hb. destruct values as [vs|], validity as [bs|]; try done; cbn [grown].
  - destruct Hb as (Hv & Hl & Hall). eexists _, _; split; [done|]. cbn.
    destruct (int32_uninit_ok (n - zlength vs)) as [Hu Hs]; [lia|].
    rewrite !length_app, length_replicate. split; [lia|]. split; [zlia|]. by apply Forall_app.
  - eexists _, _; split; [done|]. cbn. destruct (int32_uninit_ok n) as [Hu Hs]; [lia|].
    rewrite length_replicate. split; [done|]. split; [zlia|done].
Qed.

Lemma grow_first n e v0 v1 b0 b1 vs bs :
  e_values e = [v0; v1] → e_validity e = [b0; b1] → grown n (e_capacity e) v0 b0 = Some (vs, bs) →
  grow_buffer n 0 e = Ok (set_e_buffers e (e_capacity e) [Some vs; v1] [Some bs; b1]).
Proof.
  intros Hv Hb Hg. unfold grow_buffer. rewrite Hv, Hb. cbn. destruct v0 as [v|]; cbn in Hg |- *.
  - destruct b0 as [b|]; [|done]. by injection Hg as <- <-.
  - by injection Hg as <- <-.
Qed.

Lemma grow_second n e v0 v1 b0 b1 vs bs :
  e_values e = [v0; v1] → e_validity e = [b0; b1] → grown n (e_capacity e) v1 b1 = Some (vs, bs) →
  grow_buffer n 1 e = Ok (set_e_buffers e (e_capacity e) [v0; Some vs] [b0; Some bs]).
Proof.
  intros Hv Hb Hg. unfold grow_buffer. rewrite Hv, Hb. cbn. destruct v1 as [v|]; cbn in Hg |- *.
  - destruct b1 as [b|]; [|done]. by injection Hg as <- <-.
  - by injection Hg as <- <-.
Qed.

Lemma ensure_capacity_ok n e :
  buffers_ok e → 0 < n →
  ∃ e', ensure_capacity n e = Ok e' ∧ buffers_ok e' ∧ n ≤ e_capacity e' ∧ same_core e e'.
Proof.
  intros Hbuf Hn. unfold ensure_capacity. destruct (Z.leb_spec n (e_capacity e)).
  { exists e. split_and!; [done|done|done|apply same_core_refl]. }
  pose proof Hbuf as (Hcap & v0 & v1 & b0 & b1 & Hv & Hb & Hok0 & Hok1 & Hsome & Hone).
  destruct (grown_ok n (e_capacity e) v0 b0) as (vs0 & bs0 & Hg0 & Hn0); [lia|done|].
  destruct (grown_ok n (e_capacity e) v1 b1) as (vs1 & bs1 & Hg1 & Hn1); [lia|done|].
  destruct (Z.ltb_spec 1 (zlength (e_steps e))) as [Hmany|Hfew].
  - change (seqZ 0 2) with [0; 1]. cbn [foldM]. rewrite (grow_first n e v0 v1 b0 b1 vs0 bs0), bind_Ok by done.
    rewrite (grow_second n _ (Some vs0) v1 (Some bs0) b1 vs1 bs1), bind_Ok by done. rewrite bind_Ok.
    eexists; split; [done|]. split; [|split; [done|by destruct e]].
    split; [cbn; lia|]. exists (Some vs0), (Some vs1), (Some bs0), (Some bs1). cbn.
    split; [done|]. split; [done|]. split; [exact Hn0|]. split; [exact Hn1|]. split; [done|lia].
  - change (seqZ 0 1) with [0]. cbn [foldM]. rewrite (grow_first n e v0 v1 b0 b1 vs0 bs0), !bind_Ok by done.
    eexists; split; [done|]. split; [|split; [done|by destruct e]].
    split; [cbn; lia|]. exists (Some vs0), v1, (Some bs0), b1. rewrite (Hone Hfew) in Hok1 |- *. cbn.
    split; [done|]. split; [done|]. split; [exact Hn0|]. split; [by destruct b1|]. split; [|done].
    intros _. split; [done|lia].
Qed.

Definition buffer_index (e : PgBatchExpr) (i : Z) : Prop := i = 0 ∨ i = 1 ∧ 1 < zlength (e_steps e).

Lemma get_buffer_ok e i :
  buffers_ok e → 0 < e_capacity e → buffer_index e i →
  ∃ buf, get_buffer e i = Ok buf ∧ buf_ok (e_capacity e) (Some buf.1) (Some buf.2).
Proof.
  intros (Hcap & v0 & v1 & b0 & b1 & Hv & Hb & Hok0 & Hok1 & Hsome & _) Hpos Hi.
  destruct (Hsome Hpos) as [Hv0 Hv1]. unfold get_buffer. rewrite Hv, Hb. destruct Hi as [->|[-> Hmany]]; cbn.
  - destruct v0 as [vs|]; [|done]. destruct b0 as [bs|]; [|done]. by exists (vs, bs).
  - destruct v1 as [vs|]; [|by destruct Hv1]. destruct b1 as [bs|]; [|done]. by exists (vs, bs).
Qed.

Lemma put_buffer_ok e i buf :
  buffers_ok e → 0 < e_capacity e → buffer_index e i → buf_ok (e_capacity e) (Some buf.1) (Some buf.2) →
  ∃ e', put_buffer e i buf = Ok e' ∧ buffers_ok e' ∧ e_capacity e' = e_capacity e ∧ same_core e e'.
Proof.
  intros (Hcap & v0 & v1 & b0 & b1 & Hv & Hb & Hok0 & Hok1 & Hsome & Hone) Hpos Hi Hnew.
  destruct (Hsome Hpos) as [Hv0 Hv1]. unfold put_buffer. rewrite Hv, Hb. destruct Hi as [->|[-> Hmany]]; cbn.
  - eexists; split; [done|]. split; [|split; [done|by destruct e]]. split; [done|].
    exists (Some buf.1), v1, (Some buf.2), b1.
    refine (conj eq_refl (conj eq_refl (conj Hnew (conj Hok1 (conj _ Hone))))). by intros _; split.
  - eexists; split; [done|]. split; [|split; [done|by destruct e]]. split; [done|].
    exists v0, (Some buf.1), b0, (Some buf.2).
    refine (conj eq_refl (conj eq_refl (conj Hok0 (conj Hnew (conj _ _))))); [by intros _; split|cbn; lia].
Qed.

(** The view of a buffer whose arrays cover [n] rows. *)
Lemma packed_buffer_wf cap n vs bs :
  buf_ok cap (Some vs) (Some bs) → n ≤ cap → n < 2 ^ 31 → col_wf (packed_buffer (vs, bs)) n.
Proof. intros (Hv & Hb & Hall) Hn Hmax. split_and!; try done; cbn; zlia. Qed.

(** A cleared validity map makes every row NULL. *)
Lemma cleared_buffer cap n vs bs :
  0 < n ≤ cap → buf_ok cap (Some vs) (Some bs) →
  ∃ bs', memset0 bs ((n + 7) / 8) = Ok bs' ∧ buf_ok cap (Some vs) (Some bs') ∧
    ∀ row, 0 ≤ row < n → cell (packed_buffer (vs, bs')) row = None.
Proof.
  intros Hn (Hv & Hb & Hall). destruct (memset0_ok bs ((n + 7) / 8)) as (bs' & E & Hl & Hz); [zlia|].
  exists bs'. split; [done|]. split; [cbn; split_and!; try done; lia|]. intros row Hrow.
  unfold packed_buffer, cell, cell_null, validity_bit. cbn. by rewrite Hz, Z.bits_0 by zlia.
Qed.

(** ** One step *)

Lemma row_arithmetic_sql input op d left n row :
  col_wf input n → 0 ≤ row < n →
  row_arithmetic input op (DatumGetInt32 d) left row =
    match cell input row with
    | None => Ok None
    | Some v => r ← sql_int4 (if left then DatumGetInt32 d else v) (if left then v else DatumGetInt32 d) op; Ok (Some r)
    end.
Proof.
  intros Hc Hrow. unfold row_arithmetic. destruct (cell input row) as [v|] eqn:Ec; [|done].
  pose proof (cell_s32 _ _ _ _ Hc Hrow Ec). pose proof (DatumGetInt32_s32 d).
  unfold sql_int4. by destruct left; rewrite int4_arithmetic_cases.
Qed.

Lemma sql_int4_defined l r op : sql_int4 l r op ≠ Undefined.
Proof. unfold sql_int4. destruct (exact_arithmetic l r op); [|done]. by case_match. Qed.

Lemma run_step_ok sel ec step e input buffer :
  sel_wf sel → sel_clean sel → buffers_ok e → nrows sel ≤ e_capacity e → buffer_index e buffer →
  col_wf input (nrows sel) →
  match run_step sel ec step (e, input, buffer) with
  | Ok (e', input', buffer') => buffer' = 1 - buffer ∧ buffers_ok e' ∧ e_capacity e' = e_capacity e ∧
      same_core e e' ∧ col_wf input' (nrows sel) ∧
      ∀ row, row ∈ selected_rows sel → step_value ec step (cell input row) = Ok (cell input' row)
  | Raise _ => ∃ row err, row ∈ selected_rows sel ∧ step_value ec step (cell input row) = Raise err
  | Undefined => False
  end.
Proof.
  intros Hs Hclean Hbuf Hcap Hi Hc. pose proof (wf_nrows sel Hs) as Hn.
  unfold run_step. rewrite has_rows_clean, bind_Ok by done.
  (* the scalar, when some row is selected, is that of [step_value] *)
  set (scalar := match st_scalar step with Some s => if negb _ then _ else _ | None => _ end).
  set (scalar' := match st_scalar step with Some s => ExecEvalExpr s ec | None => Ok (Some (Int32GetDatum 0)) end).
  assert (Hscalar : (selected_rows sel = [] ∧ scalar = Ok (Some (Int32GetDatum 0))) ∨
    (selected_rows sel ≠ [] ∧ scalar = scalar')).
  { subst scalar scalar'. destruct (decide (selected_rows sel = [])) as [E|E]; [left|right]; split; try done.
    - rewrite bool_decide_true by done. by destruct (st_scalar step).
    - rewrite bool_decide_false by done. by destruct (st_scalar step). }
  clearbody scalar. destruct (get_buffer_ok e buffer) as ([vs bs] & Hget & Hbok); [done|lia|done|].
  cbn [fst snd] in Hbok.
  assert (Hrow : ∀ row, row ∈ selected_rows sel → 0 ≤ row < nrows sel)
    by by intros row [? _]%contains_selected_rows.
  destruct Hscalar as [[Hnone ->]|[Hsome ->]].
  - rewrite bind_Ok, Hget, bind_Ok. cbn [fst snd].
    destruct (arithmetic_scalar_ok input sel (st_op step) (DatumGetInt32 (Int32GetDatum 0)) (st_scalar_on_left step) vs bs)
      as ([vs' bs'] & E & Hwf & _); try done; try (cbn in Hbok; zlia); [by destruct Hbok as (_ & _ & ?)| |].
    { intros row Hin. rewrite Hnone in Hin. by apply elem_of_nil in Hin. }
    rewrite E, bind_Ok. apply arithmetic_lengths in E as [Hl1 Hl2]; [|done]. cbn in Hl1, Hl2.
    destruct Hwf as (_ & _ & Hall & _). cbn in Hall.
    destruct (put_buffer_ok e buffer (vs', bs')) as (e' & -> & He' & Hcap' & Hcore); [done|lia|done| |].
    { cbn in *. split_and!; (done || lia). }
    rewrite bind_Ok. split_and!; try done.
    + eapply packed_buffer_wf; [|done|lia]. cbn in *. split_and!; (done || lia).
    + intros row Hin. rewrite Hnone in Hin. by apply elem_of_nil in Hin.
  - assert (Hval : ∀ row d, scalar' = Ok (Some d) → row ∈ selected_rows sel →
      step_value ec step (cell input row) = row_arithmetic input (st_op step) (DatumGetInt32 d) (st_scalar_on_left step) row).
    { intros row d Hd Hin. rewrite (row_arithmetic_sql _ _ _ _ (nrows sel)) by (done || by apply Hrow).
      unfold step_value. fold scalar'. rewrite Hd, bind_Ok. by destruct (cell input row). }
    destruct (selected_rows sel) as [|row0 rows] eqn:Hrows; [done|]. rewrite <- Hrows in *.
    assert (H0 : row0 ∈ selected_rows sel) by (rewrite Hrows; by left).
    assert (Hdef : scalar' ≠ Undefined).
    { subst scalar'. destruct (st_scalar step); [apply eval_defined|done]. }
    destruct scalar' as [[d|]|err|] eqn:Hsc; [..|done].
    + rewrite bind_Ok, Hget, bind_Ok. cbn [fst snd].
      destruct (first_failure (row_arithmetic input (st_op step) (DatumGetInt32 d) (st_scalar_on_left step)) (selected_rows sel))
        as [Hok|(pre & row & post & err & Hsplit & Hpre & Herr)].
      { intros row Hin. rewrite (row_arithmetic_sql _ _ _ _ (nrows sel)) by (done || by apply Hrow).
        destruct (cell input row); [|done]. pose proof (sql_int4_defined
          (if st_scalar_on_left step then DatumGetInt32 d else z) (if st_scalar_on_left step then z else DatumGetInt32 d) (st_op step)).
        by destruct (sql_int4 _ _ _). }
      * destruct (arithmetic_scalar_ok input sel (st_op step) (DatumGetInt32 d) (st_scalar_on_left step) vs bs)
          as ([vs' bs'] & E & Hwf & Hcells); try done; try (cbn in Hbok; zlia);
          [apply DatumGetInt32_s32|by destruct Hbok as (_ & _ & ?)|].
        rewrite E, bind_Ok. apply arithmetic_lengths in E as [Hl1 Hl2]; [|done]. cbn in Hl1, Hl2.
        pose proof Hwf as (_ & _ & Hall & _). cbn in Hall.
        destruct (put_buffer_ok e buffer (vs', bs')) as (e' & -> & He' & Hcap' & Hcore); [done|lia|done| |].
        { cbn in *. split_and!; (done || lia). }
        rewrite bind_Ok. split_and!; try done. intros row Hin. rewrite (Hval row d) by done.
        specialize (Hcells row (Hrow row Hin)). apply contains_selected_rows in Hin as [_ Hsel].
        by rewrite Hsel in Hcells.
      * rewrite (arithmetic_scalar_fails input sel (st_op step) (DatumGetInt32 d) (st_scalar_on_left step) vs bs pre row post err);
          try done; try (cbn in Hbok; zlia); [|apply DatumGetInt32_s32|by destruct Hbok as (_ & _ & ?)].
        cbn. exists row, err. assert (Hin : row ∈ selected_rows sel) by (rewrite Hsplit; set_solver).
        split; [done|]. by rewrite (Hval row d).
    + rewrite bind_Ok, Hget, bind_Ok. cbn [fst snd].
      destruct (cleared_buffer (e_capacity e) (nrows sel) vs bs) as (bs' & -> & Hbok' & Hcells); [lia|done|].
      rewrite !bind_Ok.
      destruct (put_buffer_ok e buffer (vs, bs')) as (e' & -> & He' & Hcap' & Hcore); [done|lia|done|done|].
      rewrite bind_Ok. split_and!; try done; [by eapply packed_buffer_wf; [done|done|lia]|].
      intros row Hin. rewrite Hcells by by apply Hrow. unfold step_value. fold scalar'. by rewrite Hsc.
    + cbn. exists row0, err. split; [done|]. unfold step_value. fold scalar'. by rewrite Hsc.
Qed.

(** ** The chain *)

Lemma run_steps_ok sel ec steps : ∀ pre e input buffer,
  sel_wf sel → sel_clean sel → buffers_ok e → nrows sel ≤ e_capacity e → e_steps e = pre ++ steps →
  buffer = zlength pre mod 2 → col_wf input (nrows sel) →
  match foldM (run_step sel ec) steps (e, input, buffer) with
  | Ok (e', input', _) => buffers_ok e' ∧ same_core e e' ∧ col_wf input' (nrows sel) ∧
      ∀ row, row ∈ selected_rows sel → chain ec steps (cell input row) = Ok (cell input' row)
  | Raise _ => ∃ row err, row ∈ selected_rows sel ∧ chain ec steps (cell input row) = Raise err
  | Undefined => False
  end.
Proof.
  induction steps as [|step steps IH]; intros pre e input buffer Hs Hclean Hbuf Hcap Hsteps Hb Hc; cbn [foldM].
  { split_and!; [done|apply same_core_refl|done|done]. }
  assert (Hi : buffer_index e buffer).
  { destruct pre as [|p pre]; [left; by rewrite Hb|]. unfold buffer_index. rewrite Hsteps, Hb, length_app. cbn [length].
    destruct (Z.eq_dec (Z.of_nat (S (length pre)) mod 2) 0); [by left|right]. split; zlia. }
  pose proof (run_step_ok sel ec step e input buffer Hs Hclean Hbuf Hcap Hi Hc) as Hstep.
  destruct (run_step sel ec step (e, input, buffer)) as [[[e1 input1] buffer1]|err|]; [| |done].
  - destruct Hstep as (-> & Hbuf1 & Hcap1 & Hcore1 & Hc1 & Hval1). rewrite bind_Ok.
    specialize (IH (pre ++ [step]) e1 input1 (1 - buffer) Hs Hclean Hbuf1 ltac:(lia)).
    assert (Hsteps1 : e_steps e1 = e_steps e) by by rewrite Hcore1.
    specialize (IH ltac:(by rewrite Hsteps1, Hsteps, <- app_assoc)).
    specialize (IH ltac:(rewrite Hb, length_app; cbn [length]; zlia) Hc1).
    destruct (foldM (run_step sel ec) steps (e1, input1, 1 - buffer)) as [[[e2 input2] b2]|err|]; [| |done].
    + destruct IH as (Hbuf2 & Hcore2 & Hc2 & Hval2). split; [done|]. split; [by eapply same_core_trans|].
      split; [done|]. intros row Hin. unfold chain in *. cbn [foldM]. rewrite Hval1, bind_Ok by done. by apply Hval2.
    + destruct IH as (row & err' & Hin & Hraise). exists row, err'. split; [done|].
      unfold chain in *. cbn [foldM]. by rewrite Hval1, bind_Ok.
  - destruct Hstep as (row & err' & Hin & Hraise). cbn. exists row, err'. split; [done|].
    unfold chain. cbn [foldM]. by rewrite Hraise.
Qed.
End eval.
