(* ===== verification/ExprSpec.v ===== *)
(** * Batch expressions: what consumers get

    Values and filters of whole batches against the scalar executor, row by
    row. *)

From S2P Require Import Prelude Words Selection Vector Kernels Int4 Bitmaps Batch Columns Expr ExprProps ExprEval.

Section spec.
Context `{PC : PgCore} `{SC : SourceCalls} `{BS : !BatchSource} `{EX : PgExecutor} `{SX : !ScalarExecutor}.

Implicit Types (ec : ExprContext) (resolve : VarNode → Z).

(** ** The scalar vector *)

Lemma for_selection_words {A} (body : Z → A → res A) s acc :
  sel_wf s →
  foldM (λ word acc, rows ← pg_batch_selection_word s word;
      while_bits 64 clear_lowest rows (λ bitno acc, body (word * 64 + bitno) acc) acc)
    (seqZ 0 (nwords s)) acc = foldM body (selected_rows s) acc.
Proof.
  intros Hs. rewrite <- (for_selected clear_lowest body s acc) by (done || apply clear_lowest_lowest).
  apply foldM_ext. intros word a Hw%elem_of_seqZ. pose proof (wf_nwords s Hs). pose proof (wf_nrows s Hs).
  rewrite selection_word_ok, word_read, !bind_Ok, word_mask_ok by (done || zlia). by rewrite bind_Ok.
Qed.

Lemma fill_rows_ok value cap n vs bs l :
  n ≤ cap → buf_ok cap (Some vs) (Some bs) → (∀ row, row ∈ l → 0 ≤ row < n) →
  (∀ row, 0 ≤ row < n → cell (packed_buffer (vs, bs)) row = None) →
  ∃ buf, foldM (fill_row value) l (vs, bs) = Ok buf ∧ buf_ok cap (Some buf.1) (Some buf.2) ∧
    ∀ row, 0 ≤ row < n → row ∈ l → cell (packed_buffer buf) row = Some (DatumGetInt32 value).
Proof.
  intros Hn Hok Hl _.
  destruct (foldM_inv (λ pre buf, buf_ok cap (Some buf.1) (Some buf.2) ∧
      ∀ row, 0 ≤ row < n → row ∈ pre → cell (packed_buffer buf) row = Some (DatumGetInt32 value))
    (fill_row value) l (vs, bs)) as (buf & E & Hbuf & Hcells); [| |by exists buf].
  - split; [done|]. intros row _ Hr. by apply elem_of_nil in Hr.
  - intros pre row post [vs1 bs1] -> [(Hv & Hb & Hall) Hcells]. cbn [fst snd] in *.
    assert (0 ≤ row < n) by (apply Hl; set_solver). unfold fill_row. cbn [fst snd].
    rewrite aset_ok, bind_Ok by lia. destruct (set_validity_ok bs1 row) as (bs2 & -> & Hlen & Hbits); [zlia|].
    rewrite bind_Ok. eexists; split; [done|]. cbn [fst snd]. split.
    + cbn. rewrite length_insert. split; [done|]. split; [lia|]. apply Forall_insert; [done|apply DatumGetInt32_s32].
    + intros r Hr Hin. unfold packed_buffer, cell, cell_null, stored_value in *. cbn in *.
      rewrite !Z.add_0_l in *. rewrite Hbits, zget_insert by zlia.
      destruct (Z.eqb_spec r row) as [->|Hne]; [rewrite orb_true_r, decide_True by done; done|].
      rewrite orb_false_r, decide_False by congruence.
      assert (Hpre : r ∈ pre) by set_solver. specialize (Hcells r Hr Hpre). by rewrite Z.add_0_l in Hcells.
Qed.

Lemma build_scalar_vector_ok e sel scalar ec :
  sel_wf sel → sel_clean sel → buffers_ok e →
  match build_scalar_vector e sel scalar ec with
  | Ok (e', v) => buffers_ok e' ∧ same_core e e' ∧ col_wf v (nrows sel) ∧ nrows sel ≤ e_capacity e' ∧
      ∀ row, row ∈ selected_rows sel → (d ← ExecEvalExpr scalar ec; Ok (DatumGetInt32 <$> (d : option Z))) = Ok (cell v row)
  | Raise err => selected_rows sel ≠ [] ∧ ExecEvalExpr scalar ec = Raise err
  | Undefined => False
  end.
Proof.
  intros Hs Hclean Hbuf. pose proof (wf_nrows sel Hs) as Hn. unfold build_scalar_vector.
  destruct (ensure_capacity_ok (nrows sel) e Hbuf) as (e1 & -> & Hbuf1 & Hcap1 & Hcore1); [lia|]. rewrite bind_Ok.
  assert (Hi : buffer_index e1 0) by by left.
  destruct (get_buffer_ok e1 0 Hbuf1) as ([vs bs] & -> & Hok); [lia|done|]. rewrite bind_Ok. cbn [fst snd] in *.
  destruct (cleared_buffer (e_capacity e1) (nrows sel) vs bs) as (bs' & -> & Hok' & Hnull); [lia|done|].
  rewrite bind_Ok, has_rows_clean, bind_Ok by done.
  assert (Hrow : ∀ row, row ∈ selected_rows sel → 0 ≤ row < nrows sel)
    by by intros row [? _]%contains_selected_rows.
  assert (Hend : ∀ buf, buf_ok (e_capacity e1) (Some buf.1) (Some buf.2) →
    (∀ row, row ∈ selected_rows sel →
       (d ← ExecEvalExpr scalar ec; Ok (DatumGetInt32 <$> (d : option Z))) = Ok (cell (packed_buffer buf) row)) →
    match (e ← put_buffer e1 0 buf; Ok (e, packed_buffer buf)) with
    | Ok (e', v) => buffers_ok e' ∧ same_core e e' ∧ col_wf v (nrows sel) ∧ nrows sel ≤ e_capacity e' ∧
        ∀ row, row ∈ selected_rows sel → (d ← ExecEvalExpr scalar ec; Ok (DatumGetInt32 <$> (d : option Z))) = Ok (cell v row)
    | Raise err => selected_rows sel ≠ [] ∧ ExecEvalExpr scalar ec = Raise err
    | Undefined => False
    end).
  { intros [vs2 bs2] Hbok Hcells. cbn [fst snd] in Hbok.
    destruct (put_buffer_ok e1 0 (vs2, bs2) Hbuf1) as (e2 & -> & Hbuf2 & Hcap2 & Hcore2); [lia|done|done|].
    rewrite bind_Ok. split; [done|]. split; [by eapply same_core_trans|].
    split; [by eapply packed_buffer_wf; [done|done|lia]|]. split; [lia|done]. }
  case_bool_decide as Hnone; cbn [negb].
  - rewrite bind_Ok. apply Hend; [done|]. intros row Hin. rewrite Hnone in Hin. by apply elem_of_nil in Hin.
  - pose proof (eval_defined scalar ec) as Hdef. destruct (ExecEvalExpr scalar ec) as [[d|]|err|]; [| |done|done].
    + rewrite bind_Ok, for_selection_words by done.
      destruct (fill_rows_ok d (e_capacity e1) (nrows sel) vs bs' (selected_rows sel)) as (buf & -> & Hbok & Hcells);
        [done|done|done|done|]. rewrite bind_Ok. apply Hend; [done|]. intros row Hin. cbn.
      by rewrite Hcells by (done || by apply Hrow).
    + rewrite !bind_Ok. apply Hend; [done|]. intros row Hin. cbn. by rewrite Hnull by by apply Hrow.
Qed.

(** ** Compiled programs *)

(** What evaluation uses of a compiled expression whose value is [value]. *)
Definition program_for resolve (value : ExprNode) (e : PgBatchExpr) : Prop :=
  (∃ s, e_scalar_value e = Some s ∧ e_steps e = [] ∧ ∀ ec row, ExecEvalExpr s ec = eval value (at_row ec row)) ∨
  (∃ v, e_scalar_value e = None ∧ e_column e = resolve v ∧
     e_column_mask e = bms_make_singleton (resolve v) ∧ compiled_var resolve value v (e_steps e)).

(** The part of an expression that evaluation never changes. *)
Definition same_program (e e' : PgBatchExpr) : Prop :=
  e_column e' = e_column e ∧ e_column_mask e' = e_column_mask e ∧ e_scalar_value e' = e_scalar_value e ∧
  e_steps e' = e_steps e ∧ e_comparison_scalar e' = e_comparison_scalar e ∧
  e_comparison e' = e_comparison e ∧ e_is_filter e' = e_is_filter e.

(** An expression compiled from [node], and however often bound and evaluated
    since. *)
Definition expr_ok resolve (node : ExprNode) (filter : bool) (e : PgBatchExpr) : Prop :=
  buffers_ok e ∧ ∃ e0, compile_expression resolve node filter = Ok e0 ∧ same_program e0 e.

Lemma compile_value_program resolve value e0 e :
  resolves resolve → e_column e0 = -1 → e_steps e0 = [] → e_scalar_value e0 = None →
  compile_value resolve value e0 = Ok e → (∃ n, analyze_value value 0 = Some n) →
  let e' := if 0 <=? e_column e then set_e_mask e (bms_make_singleton (e_column e)) else e in
  program_for resolve value e' ∧ e_comparison_scalar e' = e_comparison_scalar e0 ∧
  e_comparison e' = e_comparison e0 ∧ e_is_filter e' = e_is_filter e0 ∧ e_values e' = e_values e0 ∧
  e_validity e' = e_validity e0 ∧ e_capacity e' = e_capacity e0.
Proof.
  intros Hres Hcol Hsteps Hscalar Hc (n & Ha). pose proof (compile_value_ok resolve value e0 n Ha Hres) as Hok.
  destruct (n =? 0).
  - destruct Hok as (s & E & Hs). rewrite E in Hc. injection Hc as <-. cbn. rewrite Hcol. cbn.
    split; [|by split_and!]. left. by exists s.
  - destruct Hok as (v & steps & E & Hv). rewrite E in Hc. injection Hc as <-. cbn.
    destruct (Z.leb_spec 0 (resolve v)); [|destruct Hv as (_ & ? & _); lia]. cbn.
    split; [|by split_and!]. right. exists v. cbn. by rewrite Hsteps.
Qed.

Lemma new_expr_buffers filter : buffers_ok (new_expr filter).
Proof. split; [done|]. exists None, None, None, None. by split_and!. Qed.

Lemma compiled_int4 resolve node e :
  resolves resolve → compile_expression resolve node false = Ok e →
  program_for resolve node e ∧ buffers_ok e ∧ e_is_filter e = false.
Proof.
  intros Hres. unfold compile_expression, pg_batch_expr_supports_int4.
  destruct (analyze_value node 0) as [n|] eqn:Ha; [|done]. cbn [negb raise_if]. rewrite !bind_Ok.
  intros (e1 & Hc & [= <-])%bind_ok_inv.
  destruct (compile_value_program resolve node (new_expr false) e1) as (Hp & _ & _ & Hf & Hv & Hb & Hcap);
    try done; [by exists n|]. split; [done|]. split; [|done].
  split; [by rewrite Hcap|]. exists None, None, None, None. rewrite Hv, Hb, Hcap. by split_and!.
Qed.

(** *** Filters *)

Lemma compare_normalized f arg op op' x s :
  pg_batch_int4_compare_op f arg = Some op → pg_batch_int4_compare_op f 0 = Some op' →
  pg_batch_int4_compare x s op =
    (if arg =? 1 then pg_batch_int4_compare s x op' else pg_batch_int4_compare x s op').
Proof.
  unfold pg_batch_int4_compare_op.
  destruct f; cbn; try done; intros [= <-] [= <-]; destruct (arg =? 1); cbn; try done.
  - apply Z.eqb_sym.
  - by rewrite Z.eqb_sym.
Qed.

Lemma compare_op_exists f arg op :
  pg_batch_int4_compare_op f arg = Some op → ∃ op', pg_batch_int4_compare_op f 0 = Some op'.
Proof. unfold pg_batch_int4_compare_op. destruct f; cbn; try done; eauto. Qed.

Lemma eval_strip node ec : eval (strip_relabel node) ec = eval node ec.
Proof. induction node using expr_ind; try done. cbn [strip_relabel]. by rewrite eval_relabel. Qed.

(** The compiled parts of a filter and what they mean. *)
Definition filter_parts (node value scalar : ExprNode) (op : PgBatchInt4Op) : Prop :=
  (∃ n, analyze_value value 0 = Some n) ∧ analyze_value scalar 0 = Some 0 ∧
  ∀ ec row, agree (eval node (at_row ec row))
    (a ← eval_int4 value (at_row ec row); b ← eval scalar ec;
     match a, b with
     | Some a, Some b => Ok (Some (if pg_batch_int4_compare a (DatumGetInt32 b) op then 1 else 0))
     | _, _ => Ok None
     end).

Lemma analyze_filter_ok node value_arg op :
  analyze_filter node 0 = Some (value_arg, op) →
  ∃ args value scalar, op_args (strip_relabel node) = Ok args ∧ aref args value_arg = Ok value ∧
    aref args (1 - value_arg) = Ok scalar ∧ filter_parts node value scalar op.
Proof.
  unfold analyze_filter. destruct (strip_relabel node) as [| | | |f t args|] eqn:Hstrip; try done.
  destruct args as [|arg0 [|arg1 [|]]]; try done. destruct (negb _); [done|].
  destruct (analyze_value arg0 0) as [n0|] eqn:H0; [|done]. destruct (analyze_value arg1 0) as [n1|] eqn:H1; [|done].
  destruct (Z.eqb_spec (n0 + n1) 1) as [Hsum|]; [|done]. cbn [negb].
  pose proof (analyze_nonneg _ _ _ H0). pose proof (analyze_nonneg _ _ _ H1).
  destruct (pg_batch_int4_compare_op f _) as [c|] eqn:Hc; [|done]. intros [= <- <-].
  destruct (compare_op_exists _ _ _ Hc) as [op' Hop'].
  exists [arg0; arg1]. destruct (Z.eqb_spec n0 1) as [->|Hne].
  - exists arg0, arg1. split; [done|]. split; [done|]. split; [done|]. assert (n1 = 0) as -> by lia.
    split; [by exists 1|]. split; [done|]. intros ec row. rewrite <- (eval_strip node), Hstrip.
    rewrite (eval_compare _ _ _ _ op'), (eval_scalar arg1) by done. unfold eval_int4.
    pose proof (eval_defined (ExecInitExpr arg0) (at_row ec row)) as Hd0. fold (eval arg0 (at_row ec row)) in Hd0.
    pose proof (eval_defined (ExecInitExpr arg1) ec) as Hd1. fold (eval arg1 ec) in Hd1.
    destruct (eval arg0 (at_row ec row)) as [a| |], (eval arg1 ec) as [b| |]; try done; cbn; try done; try (by destruct a).
    destruct a as [a|], b as [b|]; cbn; try done. by rewrite (compare_normalized f 0 c op').
  - exists arg1, arg0. split; [done|]. split; [done|]. split; [done|]. assert (n0 = 0) as -> by lia.
    split; [by exists n1|]. split; [done|]. intros ec row. rewrite <- (eval_strip node), Hstrip.
    rewrite (eval_compare _ _ _ _ op'), (eval_scalar arg0) by done. unfold eval_int4.
    pose proof (eval_defined (ExecInitExpr arg1) (at_row ec row)) as Hd0. fold (eval arg1 (at_row ec row)) in Hd0.
    pose proof (eval_defined (ExecInitExpr arg0) ec) as Hd1. fold (eval arg0 ec) in Hd1.
    destruct (eval arg0 ec) as [b| |], (eval arg1 (at_row ec row)) as [a| |]; try done; cbn; try done; try (by destruct a).
    destruct a as [a|], b as [b|]; cbn; try done. by rewrite (compare_normalized f 1 c op').
Qed.

Lemma compiled_filter resolve node e :
  resolves resolve → compile_expression resolve node true = Ok e →
  ∃ value scalar, program_for resolve value e ∧ filter_parts node value scalar (e_comparison e) ∧
    e_comparison_scalar e = Some (ExecInitExpr scalar) ∧ buffers_ok e ∧ e_is_filter e = true.
Proof.
  intros Hres. unfold compile_expression. destruct (analyze_filter node 0) as [[value_arg op]|] eqn:Ha; [|done].
  destruct (analyze_filter_ok node value_arg op Ha) as (args & value & scalar & -> & Hval & Hsca & Hparts).
  rewrite bind_Ok, Hval, bind_Ok, Hsca, !bind_Ok. intros (e1 & Hc & [= <-])%bind_ok_inv.
  pose proof Hparts as (Hana & _).
  destruct ((λ A B C, compile_value_program resolve value _ e1 Hres A B C Hc Hana) eq_refl eq_refl eq_refl)
    as (Hp & Hcs & Hop & Hf & Hv & Hb & Hcap). exists value, scalar. rewrite Hcs, Hop, Hf. split; [done|]. split; [done|]. split; [done|].
  split; [|done]. split; [by rewrite Hcap|]. exists None, None, None, None. rewrite Hv, Hb, Hcap. by split_and!.
Qed.
(** ** Batch evaluation *)

(** The value of a node on one row of a batch of [w]. *)
Definition row_value resolve (node : ExprNode) (w : World) (k : Z) ec (row : Z) : res (option Z) :=
  eval_int4 node (at_row ec (λ v, content (w_source w) k (resolve v) row)).

(** What evaluating [value] over the batch [k] of [w] gives. *)
Definition evaluated resolve value (e : PgBatchExpr) (w : World) (k : Z) (bt : PgBatch) ec
    (r : res (PgBatchExpr * PgBatchInt4Vector)) (w' : World) : Prop :=
  quiet w w' ∧
  match r with
  | Ok (e', v) =>
      buffers_ok e' ∧ same_program e e' ∧ e_batch e' = e_batch e ∧ e_econtext e' = e_econtext e ∧
      e_result e' = Some v ∧ e_result_ready e' = true ∧ col_wf v (nrows (selection bt)) ∧
      ∀ row, row ∈ selected_rows (selection bt) → row_value resolve value w k ec row = Ok (cell v row)
  | Raise _ => ∃ row err, row ∈ selected_rows (selection bt) ∧ row_value resolve value w k ec row = Raise err
  | Undefined => False
  end.

Lemma quiet_refl w : cache_ok w → quiet w w.
Proof. intros Hc. split_and!; [done|done|apply extends_refl]. Qed.

Lemma same_core_fields e e' : same_core e e' →
  same_program e e' ∧ e_batch e' = e_batch e ∧ e_econtext e' = e_econtext e ∧ e_steps e' = e_steps e.
Proof. intros ->. by split_and!. Qed.

(** The steps, once the input is there. *)
Lemma run_program_ok sel ec e input :
  sel_wf sel → sel_clean sel → buffers_ok e → col_wf input (nrows sel) →
  match (e ← (if 0 <? zlength (e_steps e) then ensure_capacity (nrows sel) e else Ok e);
         foldM (run_step sel ec) (e_steps e) (e, input, 0)) with
  | Ok (e', input', _) => buffers_ok e' ∧ same_core e e' ∧ col_wf input' (nrows sel) ∧
      ∀ row, row ∈ selected_rows sel → chain ec (e_steps e) (cell input row) = Ok (cell input' row)
  | Raise _ => ∃ row err, row ∈ selected_rows sel ∧ chain ec (e_steps e) (cell input row) = Raise err
  | Undefined => False
  end.
Proof.
  intros Hs Hclean Hbuf Hc. pose proof (wf_nrows sel Hs). destruct (Z.ltb_spec 0 (zlength (e_steps e))).
  - destruct (ensure_capacity_ok (nrows sel) e Hbuf) as (e1 & -> & Hbuf1 & Hcap1 & Hcore1); [lia|]. rewrite bind_Ok.
    destruct (same_core_fields _ _ Hcore1) as (_ & _ & _ & Hsteps1). rewrite Hsteps1.
    pose proof (run_steps_ok sel ec (e_steps e) [] e1 input 0 Hs Hclean Hbuf1 Hcap1 Hsteps1 eq_refl Hc) as Hrun.
    destruct (foldM _ _ _) as [[[e2 input2] b]|err|]; [|done|done].
    destruct Hrun as (? & Hcore2 & ?). split; [done|]. by split; [eapply same_core_trans|].
  - rewrite bind_Ok. destruct (e_steps e); [|simpl in *; lia].
    split; [done|]. split; [apply same_core_refl|]. by split.
Qed.

Lemma evaluate_tail_ok resolve value w w1 k bt o ec e e1 input :
  served w k bt o → sel_wf (selection bt) → sel_clean (selection bt) → quiet w w1 → same_program e e1 →
  e_batch e1 = e_batch e → e_econtext e1 = e_econtext e →
  buffers_ok e1 → col_wf input (nrows (selection bt)) →
  (∀ row, row ∈ selected_rows (selection bt) →
     agree (row_value resolve value w k ec row) (chain ec (e_steps e1) (cell input row))) →
  wp (e2 ← lift (if 0 <? zlength (e_steps e1) then ensure_capacity (nrows (selection bt)) e1 else Ok e1);
      '(e3, r, _) ← lift (foldM (run_step (selection bt) ec) (e_steps e2) (e2, input, 0));
      mret (set_e_result e3 (Some r), r)) (evaluated resolve value e w k bt ec) w1.
Proof.
  intros Hserved Hs Hclean Hq Hsame Hbatch Hec Hbuf Hc Hval.
  pose proof (run_program_ok (selection bt) ec e1 input Hs Hclean Hbuf Hc) as Hrun.
  assert (He2 : ∀ e2, (if 0 <? zlength (e_steps e1) then ensure_capacity (nrows (selection bt)) e1 else Ok e1) = Ok e2 →
    e_steps e2 = e_steps e1).
  { intros e2. destruct (0 <? zlength (e_steps e1)); [|by intros [= ->]]. pose proof (wf_nrows _ Hs).
    destruct (ensure_capacity_ok (nrows (selection bt)) e1 Hbuf) as (e1' & -> & _ & _ & Hcore); [lia|].
    intros [= <-]. by apply same_core_fields. }
  set (grow := if 0 <? zlength (e_steps e1) then _ else Ok e1) in *. clearbody grow.
  destruct grow as [e2|err|]; [|cbn in Hrun|done].
  2:{ apply wp_lift; [done| |done]. intros err' _. split; [done|]. destruct Hrun as (row & er & Hin & Hr).
      exists row. specialize (Hval row Hin). rewrite Hr in Hval. destruct (row_value _ _ _ _ _ _); try done. eauto. }
  assert (Hst2 : e_steps e2 = e_steps e1) by by apply He2.
  rewrite bind_Ok in Hrun. rewrite <- Hst2 in Hrun. apply wp_lift; [done|done|]. intros e2' [= <-].
  destruct (foldM _ _ _) as [[[e3 r] b]|err|]; [| |done].
  - apply wp_lift; [done|done|]. intros x [= <-]. apply wp_ret. split; [done|].
    destruct Hrun as (Hbuf3 & Hcore3 & Hc3 & Hval3). destruct (same_core_fields _ _ Hcore3) as (Hsame3 & Hb3 & Hec3 & Hst3).
    destruct Hbuf3 as (Hcap & Hbuf3). split; [by split|]. cbn.
    split; [destruct Hsame as (?&?&?&?&?&?&?), Hsame3 as (?&?&?&?&?&?&?); split_and!; cbn; congruence|].
    split; [congruence|]. split; [congruence|]. split; [done|]. split; [done|]. split; [done|].
    intros row Hin. specialize (Hval row Hin). rewrite <- Hst2, Hval3 in Hval by done.
    by destruct (row_value _ _ _ _ _ _); cbn in Hval; [subst| |].
  - apply wp_lift; [done| |done]. intros err' _. split; [done|]. destruct Hrun as (row & er & Hin & Hr).
    exists row. specialize (Hval row Hin). rewrite <- Hst2, Hr in Hval.
    destruct (row_value _ _ _ _ _ _); try done. eauto.
Qed.
(** An expression bound to a batch whose column it reads is there. *)
Record bound_to (w : World) (e : PgBatchExpr) (k : Z) (bt : PgBatch) (o : PgBatchOps) ec : Prop := {
  bd_cache : cache_ok w;
  bd_served : served w k bt o;
  bd_wf : sel_wf (selection bt);
  bd_clean : sel_clean (selection bt);
  bd_available : 0 ≤ e_column e → available (w_source w) k (e_column e);
  bd_batch : e_batch e = Some k;
  bd_econtext : e_econtext e = Some ec;
  bd_ready : e_result_ready e = false;
}.

Lemma get_int4_ok resolve value e w k bt o ec :
  program_for resolve value e → buffers_ok e → bound_to w e k bt o ec → selected_rows (selection bt) ≠ [] →
  wp (pg_batch_expr_get_int4 e) (evaluated resolve value e w k bt ec) w.
Proof.
  intros Hprog Hbuf [] Hne. pose proof bd_served0 as []. unfold pg_batch_expr_get_int4.
  rewrite bd_batch0, bd_econtext0, bd_ready0. apply (wp_the_batch k bt); [done|]. cbv zeta.
  assert (Hrows : rows_of bt (selection bt)) by done. apply wp_bind.
  destruct Hprog as [(s & Es & Esteps & Hs)|(v & Es & Ecol & Emask & Hv & Hres & Hagree)]; rewrite Es.
  - pose proof (build_scalar_vector_ok e (selection bt) s ec bd_wf0 bd_clean0 Hbuf) as Hb.
    destruct (build_scalar_vector e (selection bt) s ec) as [[e1 input]|err|]; [| |done].
    + split; [done|]. cbn [fst snd lift]. destruct Hb as (Hbuf1 & Hcore & Hc & _ & Hval).
      destruct (same_core_fields _ _ Hcore) as (Hsame & ? & ? & Hst).
      eapply evaluate_tail_ok; try done; intros row Hin. rewrite Hst, Esteps. cbn [chain foldM].
      unfold row_value, eval_int4. by rewrite <- Hs, (Hval row).
    + split; [done|]. cbn. split; [by apply quiet_refl|]. destruct Hb as [Hnv Hr].
      destruct (selected_rows (selection bt)) as [|row rows]; [done|]. exists row, err. split; [by left|].
      unfold row_value, eval_int4. by rewrite <- Hs, Hr.
  - assert (Hm : bms_is_member (e_column e) (e_column_mask e) = true)
      by (rewrite Emask, Ecol, bms_singleton_spec by done; apply Z.eqb_refl).
    apply (wp_assoc _ _ (λ input, mret (e, input))), wp_bind. change (pg_batch_column_access_init _ _ _ _ ≫= _)
      with (read_int4 k (e_column_mask e) (selection bt) (e_phase e) (e_column e)).
    eapply wp_mono; [eapply read_int4_ok; try done|].
    + intros c. rewrite Emask, <- Ecol, bms_singleton_spec by lia. intros ->%Z.eqb_eq. apply bd_available0. lia.
    + intros r w1 (input & -> & Hq & Hc & Hcells). apply wp_ret.
      eapply evaluate_tail_ok; try done. intros row Hin. rewrite Hcells, Ecol by done.
      apply (Hagree ec (λ x, content (w_source w) k (resolve x) row)). intros z Hz.
      rewrite <- Ecol, <- Hcells in Hz by done. eapply cell_s32; [done| |done].
      by apply contains_selected_rows in Hin as [? _].
Qed.
End spec.
