(* ===== verification/ExprContract.v ===== *)
(** * Batch expressions: the contract of [expr.c]

    What a consumer of compiled expressions relies on: which trees compile,
    what a value expression yields for a batch, and which rows a filter keeps,
    all against the scalar executor. *)

From S2P Require Import Prelude Words Selection Vector Kernels Int4 Bitmaps Batch Columns Expr ExprProps ExprEval ExprSpec.

Section contract.
Context `{PC : PgCore} `{SC : SourceCalls} `{BS : !BatchSource} `{EX : PgExecutor} `{SX : !ScalarExecutor}.

Implicit Types (ec : ExprContext) (resolve : VarNode → Z).

(** ** Support and compilation *)

Lemma valid_var_any v relid : valid_var v relid = true → valid_var v 0 = true.
Proof. unfold valid_var. rewrite !andb_true_iff. intuition. Qed.

Lemma analyze_any node relid n : analyze_value node relid = Some n → analyze_value node 0 = Some n.
Proof.
  revert n. induction node as [v|t v b|k i t|a IH|f t args IH|i] using expr_ind; intros n Ha; try done.
  - cbn [analyze_value] in *. destruct (valid_var v relid) eqn:E; [|done]. by rewrite (valid_var_any v relid E).
  - by apply IH.
  - cbn [analyze_value] in *. destruct (negb _ || _); [done|]. revert Ha. generalize 0 at 1 3 as vars.
    induction IH as [|arg args Harg _ IHargs]; intros vars; [done|].
    destruct (analyze_value arg relid) as [m|]; [|done]. rewrite (Harg m eq_refl).
    destruct (1 <? vars + m); [done|]. apply IHargs.
Qed.

Lemma analyze_filter_any node relid p : analyze_filter node relid = Some p → analyze_filter node 0 = Some p.
Proof.
  unfold analyze_filter. destruct (strip_relabel node) as [| | | |f t args|]; try done.
  destruct args as [|arg0 [|arg1 [|]]]; try done. destruct (negb _); [done|].
  destruct (analyze_value arg0 relid) as [n0|] eqn:H0; [|done].
  destruct (analyze_value arg1 relid) as [n1|] eqn:H1; [|done].
  by rewrite (analyze_any _ _ _ H0), (analyze_any _ _ _ H1).
Qed.

(** The check that goes with a kind of expression. *)
Definition supports (filter : bool) (node : ExprNode) (relid : Z) : bool :=
  if filter then pg_batch_expr_supports_filter node relid else pg_batch_expr_supports_int4 node relid.

Lemma compile_value_succeeds resolve node e0 n :
  resolves resolve → analyze_value node 0 = Some n →
  ∃ e, compile_value resolve node e0 = Ok e.
Proof.
  intros Hres Ha. pose proof (compile_value_ok resolve node e0 n Ha Hres) as Hok.
  destruct (n =? 0); [destruct Hok as (? & ? & _)|destruct Hok as (? & ? & ? & _)]; eauto.
Qed.

Lemma compile_supported resolve node filter :
  resolves resolve → supports filter node 0 = true → ∃ e, compile_expression resolve node filter = Ok e.
Proof.
  intros Hres. unfold supports, compile_expression. destruct filter.
  - unfold pg_batch_expr_supports_filter. destruct (analyze_filter node 0) as [[value_arg op]|] eqn:Ha; [|done].
    destruct (analyze_filter_ok node value_arg op Ha) as (args & value & scalar & -> & Hval & Hsca & (n & Hn) & _).
    intros _. rewrite bind_Ok, Hval, bind_Ok, Hsca, !bind_Ok.
    edestruct (compile_value_succeeds resolve value) as [e E]; [done|done|]. rewrite E, bind_Ok. eauto.
  - unfold pg_batch_expr_supports_int4. destruct (analyze_value node 0) as [n|] eqn:Ha; [|done]. intros _.
    cbn [negb raise_if]. rewrite !bind_Ok.
    edestruct (compile_value_succeeds resolve node) as [e E]; [done|done|]. rewrite E, bind_Ok. eauto.
Qed.

Lemma compiled_expr_ok resolve node filter e :
  resolves resolve → compile_expression resolve node filter = Ok e → expr_ok resolve node filter e.
Proof.
  intros Hres Hc. split; [|exists e; split; [done|by split_and!]]. destruct filter.
  - by destruct (compiled_filter resolve node e Hres Hc) as (? & ? & _ & _ & _ & ? & _).
  - by apply (compiled_int4 resolve node e).
Qed.

(** C36. The planner's checks and the compiler agree.  When every Var of the grammar has an
    input column, [pg_batch_expr_compile_int4] and
    [pg_batch_expr_compile_filter] succeed on exactly the trees their
    [supports] check accepts, for the check with any relation id as well
    (it only restricts the Vars); on every other tree they raise an error
    and never go wrong. *)
Theorem expr_compile_spec resolve node filter relid :
  resolves resolve →
  (supports filter node relid = true → supports filter node 0 = true) ∧
  match compile_expression resolve node filter with
  | Ok e => supports filter node 0 = true ∧ expr_ok resolve node filter e
  | Raise _ => supports filter node 0 = false
  | Undefined => False
  end.
Proof.
  intros Hres. split.
  - unfold supports, pg_batch_expr_supports_filter, pg_batch_expr_supports_int4. destruct filter.
    + destruct (analyze_filter node relid) eqn:E; [|done]. by rewrite (analyze_filter_any _ _ _ E).
    + destruct (analyze_value node relid) eqn:E; [|done]. by rewrite (analyze_any _ _ _ E).
  - destruct (supports filter node 0) eqn:Hsup.
    + destruct (compile_supported resolve node filter Hres Hsup) as [e E]. rewrite E. split; [done|].
      by apply compiled_expr_ok.
    + unfold supports, compile_expression in *. destruct filter.
      * unfold pg_batch_expr_supports_filter in Hsup. by destruct (analyze_filter node 0) as [[]|].
      * by rewrite Hsup.
Qed.

(** ** Values *)

Lemma program_for_same resolve value e e' : same_program e e' → program_for resolve value e → program_for resolve value e'.
Proof.
  intros (Hc & Hm & Hs & Hst & _) [(s & ? & ? & ?)|(v & ? & ? & ? & ?)].
  - left. exists s. by rewrite Hs, Hst.
  - right. exists v. by rewrite Hs, Hc, Hm, Hst.
Qed.

Lemma same_program_trans e1 e2 e3 : same_program e1 e2 → same_program e2 e3 → same_program e1 e3.
Proof. intros (?&?&?&?&?&?&?) (?&?&?&?&?&?&?). split_and!; congruence. Qed.

Lemma expr_ok_same resolve node filter e e' :
  expr_ok resolve node filter e → same_program e e' → buffers_ok e' → expr_ok resolve node filter e'.
Proof.
  intros (_ & e0 & Hc & Hsame) Hs Hb. split; [done|]. exists e0. split; [done|]. by eapply same_program_trans.
Qed.

(** A batch that can be evaluated over. *)
Record evaluable (w : World) (e : PgBatchExpr) (k : Z) (bt : PgBatch) (o : PgBatchOps) : Prop := {
  ev_history : cache_history w;
  ev_served : served w k bt o;
  ev_wf : sel_wf (selection bt);
  ev_clean : sel_clean (selection bt);
  ev_available : 0 ≤ pg_batch_expr_input_column e → available (w_source w) k (pg_batch_expr_input_column e);
}.

Lemma evaluable_bound w e k bt o ec phase :
  evaluable w e k bt o → bound_to w (pg_batch_expr_bind e (Some k) (Some ec) phase) k bt o ec.
Proof. intros []. split; try done. by apply history_cache_ok. Qed.

Lemma bind_same e k (oec : option ExprContext) phase : same_program e (pg_batch_expr_bind e k oec phase).
Proof. by split_and!. Qed.

(** C11. A compiled int4 expression computes, for every selected row of the
    batch it is bound to (one at least), what the scalar executor computes for the
    expression on that row, NULLs included; it raises an error only if the
    scalar executor raises one on some selected row.  Evaluating again
    without rebinding returns the same vector; batches and the source's
    contents are as before, and the expression can be bound to further
    batches of any size. *)
Theorem expr_value_spec resolve node e w k bt o ec phase :
  resolves resolve → expr_ok resolve node false e → evaluable w e k bt o → selected_rows (selection bt) ≠ [] →
  let '(r, w') := pg_batch_expr_get_int4 (pg_batch_expr_bind e (Some k) (Some ec) phase) w in
  w_batches w' = w_batches w ∧ served w' k bt o ∧
  match r with
  | Ok (e', v) =>
      expr_ok resolve node false e' ∧ col_wf v (nrows (selection bt)) ∧
      (∀ row, row ∈ selected_rows (selection bt) → row_value resolve node w k ec row = Ok (cell v row)) ∧
      pg_batch_expr_get_int4 e' w' = (Ok (e', v), w')
  | Raise _ => ∃ row err, row ∈ selected_rows (selection bt) ∧ row_value resolve node w k ec row = Raise err
  | Undefined => False
  end.
Proof.
  intros Hres Hok Hev Hne. pose proof Hok as (Hbuf & e0 & Hc & Hsame).
  destruct (compiled_int4 resolve node e0 Hres Hc) as (Hprog & _ & _).
  set (e1 := pg_batch_expr_bind e (Some k) (Some ec) phase).
  assert (Hbuf1 : buffers_ok e1) by done.
  destruct (get_int4_ok resolve node e1 w k bt o ec) as [_ [Hq Hr]]; [|done|by apply evaluable_bound|done|].
  { eapply program_for_same; [|done]. by eapply same_program_trans, bind_same. }
  destruct (pg_batch_expr_get_int4 e1 w) as [r w']. cbn [fst snd] in *.
  split; [by destruct Hq as (_ & ? & _)|]. split; [by eapply quiet_served; [destruct Hev|]|].
  destruct r as [[e' v]|err|]; [|done|done].
  destruct Hr as (Hbuf' & Hsame' & Hb & Hec & Hres' & Hready & Hwf & Hval).
  split; [eapply expr_ok_same; [done| |done]; by eapply same_program_trans; [apply bind_same|]|].
  split; [done|]. split; [done|]. unfold pg_batch_expr_get_int4. by rewrite Hb, Hec, Hready, Hres'.
Qed.
(** ** Filters *)

Lemma cleared_selection s :
  sel_wf s → ∃ ws, memset0 (words s) (nwords s) = Ok ws ∧ sel_wf (set_words s ws) ∧
    sel_clean (set_words s ws) ∧ ∀ row, selected (set_words s ws) row = false.
Proof.
  intros Hs. pose proof (wf_nrows s Hs). pose proof (wf_nwords s Hs). pose proof (wf_length s Hs) as Hl.
  unfold memset0. rewrite Hl. destruct (Z.leb_spec 0 (nwords s)), (Z.leb_spec (nwords s) (nwords s)); try zlia.
  cbn [andb assert_]. eexists; split; [done|]. rewrite drop_ge, app_nil_r by lia.
  assert (Hclear : ∀ row, selected (set_words s (replicate (Z.to_nat (nwords s)) 0)) row = false).
  { intros row. unfold selected, zget. cbn [set_words words].
    destruct (replicate _ 0 !! Z.to_nat (row / 64)) as [z|] eqn:E; [|by rewrite Z.bits_0].
    apply lookup_replicate in E as [-> _]. by rewrite Z.bits_0. }
  split; [|by split; [intros row _|]]. constructor; cbn; [done|done|rewrite length_replicate; lia|].
  apply Forall_replicate. unfold is_u64. lia.
Qed.

(** The value of a Boolean node on one row of a batch of [w]. *)
Definition row_datum resolve (node : ExprNode) (w : World) (k : Z) ec (row : Z) : res (option Z) :=
  eval node (at_row ec (λ v, content (w_source w) k (resolve v) row)).

(** The selection left is the rows on which the filter is true. *)
Definition filtered resolve (node : ExprNode) (w : World) (k : Z) (s s' : PgBatchSelection) ec : Prop :=
  sel_wf s' ∧ sel_clean s' ∧ nrows s' = nrows s ∧
  (∀ row, row ∈ selected_rows s → ∃ d, row_datum resolve node w k ec row = Ok d) ∧
  ∀ row, row ∈ selected_rows s' ↔ row ∈ selected_rows s ∧ row_datum resolve node w k ec row = Ok (Some 1).

(** The scalar side decided, what remains is the comparison per row. *)
Lemma filter_rows resolve node value scalar op w k s ec v b s' :
  filter_parts node value scalar op → eval scalar ec = Ok b →
  (∀ row, row ∈ selected_rows s → row_value resolve value w k ec row = Ok (cell v row)) →
  sel_wf s' → sel_clean s' → nrows s' = nrows s →
  (∀ row, 0 ≤ row < nrows s → selected s' row =
     selected s row && match b with Some b => row_passes v op (DatumGetInt32 b) row | None => false end) →
  filtered resolve node w k s s' ec.
Proof.
  intros (_ & _ & Hparts) Hb Hval Hs' Hclean' Hn Hsel. split; [done|]. split; [done|]. split; [done|].
  assert (Hdatum : ∀ row, row ∈ selected_rows s → row_datum resolve node w k ec row =
    Ok (match cell v row, b with
        | Some a, Some b => Some (if pg_batch_int4_compare a (DatumGetInt32 b) op then 1 else 0)
        | _, _ => None
        end)).
  { intros row Hin. pose proof (Hparts ec (λ x, content (w_source w) k (resolve x) row)) as Hag.
    fold (row_datum resolve node w k ec row) (row_value resolve value w k ec row) in Hag.
    rewrite (Hval row Hin), Hb in Hag. cbn in Hag.
    destruct (row_datum resolve node w k ec row); destruct (cell v row), b; cbn in Hag; by subst. }
  split; [intros row Hin; rewrite Hdatum by done; eauto|]. intros row. rewrite !contains_selected_rows, Hn.
  split.
  - intros [Hr Hs]. rewrite Hsel in Hs by done. apply andb_true_iff in Hs as [Hs Hp].
    split; [done|]. rewrite Hdatum by by apply contains_selected_rows. unfold row_passes in Hp.
    destruct b as [b|]; [|done]. destruct (cell v row) as [a|]; [|done]. by rewrite Hp.
  - intros [[Hr Hs] Hd]. rewrite Hdatum in Hd by by apply contains_selected_rows.
    split; [done|]. rewrite Hsel, Hs by done. unfold row_passes.
    destruct b as [b|], (cell v row) as [a|]; try done. cbn. by destruct (pg_batch_int4_compare _ _ _).
Qed.

(** How [pg_batch_expr_apply_filter] can end. *)
Definition filter_outcome resolve (node : ExprNode) (w : World) (k : Z) (bt : PgBatch) ec
    (r : res PgBatchExpr) (w' : World) : Prop :=
  match r with
  | Ok e' => expr_ok resolve node true e' ∧ ∃ s', filtered resolve node w k (selection bt) s' ec ∧
      w_batches w' = <[k := set_selection bt s']> (w_batches w)
  | Raise _ => w_batches w' = w_batches w ∧
      ∃ row err, row ∈ selected_rows (selection bt) ∧ row_datum resolve node w k ec row = Raise err
  | Undefined => False
  end ∧ cache_ok w' ∧ extends (w_source w) (w_source w').

(** Nothing selected, nothing to do. *)
Lemma filter_nothing resolve node e w k bt ec :
  expr_ok resolve node true e → cache_ok w → w_batches w !! k = Some bt →
  sel_wf (selection bt) → sel_clean (selection bt) → selected_rows (selection bt) = [] →
  filter_outcome resolve node w k bt ec (Ok e) w.
Proof.
  intros Hok Hc Hk Hs Hclean Hnone. split; [|by split; [|apply extends_refl]]. split; [done|].
  exists (selection bt). split.
  - split_and!; [done|done|done| |]; intros row; rewrite Hnone; [by intros Hin%elem_of_nil|].
    rewrite elem_of_nil. naive_solver.
  - rewrite insert_id; [done|]. rewrite Hk. by destruct bt.
Qed.

(** An error on either side of the comparison is an error of the filter. *)
Lemma parts_raise resolve node value scalar op w k ec row :
  filter_parts node value scalar op →
  (∃ err, row_value resolve value w k ec row = Raise err) ∨
    (∃ v err, row_value resolve value w k ec row = Ok v ∧ eval scalar ec = Raise err) →
  ∃ err, row_datum resolve node w k ec row = Raise err.
Proof.
  intros (_ & _ & Hag). specialize (Hag ec (λ x, content (w_source w) k (resolve x) row)).
  fold (row_datum resolve node w k ec row) (row_value resolve value w k ec row) in Hag.
  intros [(err & Hr)|(v & err & Hr & Hs)]; rewrite Hr in Hag; try rewrite Hs in Hag; cbn in Hag;
    destruct (row_datum resolve node w k ec row); (done || eauto).
Qed.

(** After the value: the scalar side, then the comparison of whole words. *)
Lemma filter_compare_ok resolve node value scalar op target w w1 k bt ec e v enable_simd :
  filter_parts node value scalar op → expr_ok resolve node true e → quiet w w1 → w_batches w1 !! k = Some bt →
  sel_wf (selection bt) → sel_clean (selection bt) → selected_rows (selection bt) ≠ [] →
  col_wf v (nrows (selection bt)) →
  (∀ row, row ∈ selected_rows (selection bt) → row_value resolve value w k ec row = Ok (cell v row)) →
  wp (d ← lift (eval scalar ec);
      bt ← the_batch k;
      s ← lift (match d with
                | None => ws ← memset0 (words (selection bt)) (nwords (selection bt)); Ok (set_words (selection bt) ws)
                | Some d => pg_batch_filter_int4 target v (selection bt) op (DatumGetInt32 d) enable_simd
                end);
      _ ← modify (λ w, put_batch w k (set_selection bt s));
      mret e) (filter_outcome resolve node w k bt ec) w1.
Proof.
  intros Hparts Hok (Hc1 & Hbs & Hext) Hk Hs Hclean Hsome Hwf Hval.
  assert (Hend : ∀ s', filtered resolve node w k (selection bt) s' ec →
    wp (_ ← modify (λ w, put_batch w k (set_selection bt s')); mret e) (filter_outcome resolve node w k bt ec) w1).
  { intros s' Hfd. apply wp_modify, wp_ret. split; [|done]. split; [done|]. exists s'. split; [done|].
    cbn. by rewrite Hbs. }
  apply wp_lift; [apply eval_defined| |].
  - intros err Herr. split; [|done]. split; [done|].
    destruct (selected_rows (selection bt)) as [|row rows] eqn:Er; [done|]. assert (Hin : row ∈ row :: rows) by by left.
    destruct (parts_raise resolve node value scalar op w k ec row Hparts) as [err' Hr]; [|by exists row, err'].
    right. eauto.
  - intros b Hb. apply (wp_the_batch k bt); [done|]. destruct b as [b|].
    + destruct (filter_int4_ok target v (selection bt) op (DatumGetInt32 b) enable_simd)
        as (s' & -> & Hs' & Hn' & Hcl' & Hsel'); [done|done|apply DatumGetInt32_s32|].
      apply wp_lift; [done|done|]. intros s1 [= <-]. apply Hend.
      eapply filter_rows; [done|done|done|done|by apply Hcl'|done|]. done.
    + destruct (cleared_selection (selection bt) Hs) as (ws & -> & Hs' & Hcl' & Hsel').
      rewrite bind_Ok. apply wp_lift; [done|done|]. intros s1 [= <-]. apply Hend.
      eapply filter_rows; [done|done|done|done|done|done|]. intros row _. by rewrite Hsel', andb_false_r.
Qed.

Lemma apply_filter_ok resolve node target e w k bt o ec enable_simd :
  resolves resolve → expr_ok resolve node true e → bound_to w e k bt o ec →
  wp (pg_batch_expr_apply_filter target e enable_simd) (filter_outcome resolve node w k bt ec) w.
Proof.
  intros Hres Hok Hbd. pose proof Hok as (Hbuf & e0 & Hc & Hsame).
  pose proof (bd_cache _ _ _ _ _ _ Hbd) as Hcache. pose proof (bd_served _ _ _ _ _ _ Hbd) as Hserved.
  pose proof (bd_wf _ _ _ _ _ _ Hbd) as Hs. pose proof (bd_clean _ _ _ _ _ _ Hbd) as Hclean.
  pose proof (sv_batch _ _ _ _ Hserved) as Hk.
  destruct (compiled_filter resolve node e0 Hres Hc) as (value & scalar & Hprog & Hparts & Hsc & _ & Hf).
  pose proof Hsame as (_ & _ & _ & _ & Hcs & Hop & Hfil). rewrite Hsc in Hcs. rewrite Hf in Hfil.
  unfold pg_batch_expr_apply_filter. rewrite Hfil, (bd_batch _ _ _ _ _ _ Hbd). apply wp_error_if; [done|]. intros _.
  apply wp_deref, (wp_the_batch k bt); [done|]. rewrite has_rows_clean by done. apply wp_lift; [done|done|].
  intros some [= <-]. case_bool_decide as Hnone; cbn [negb]; [by apply wp_ret, filter_nothing|].
  apply wp_bind. eapply wp_mono; [eapply (get_int4_ok resolve value); [by eapply program_for_same|done|done|done]|].
  intros r w1 [Hq Hr]. pose proof (quiet_served _ _ _ _ _ Hserved Hq) as [Hb1 _ _].
  destruct r as [[e1 v]|err|]; [| |done].
  - destruct Hr as (Hbuf1 & Hsame1 & _ & Hec1 & _ & _ & Hwf & Hval).
    pose proof Hsame1 as (_ & _ & _ & _ & Hcs1 & Hop1 & _).
    rewrite Hcs1, Hcs, Hec1, (bd_econtext _ _ _ _ _ _ Hbd), Hop1, Hop. apply wp_deref, wp_deref.
    fold (eval scalar ec). eapply filter_compare_ok; try done. by eapply expr_ok_same.
  - destruct Hr as (row & err' & Hin & Hr). destruct Hq as (Hc1 & Hbs & Hext). split; [|done]. split; [done|].
    exists row. destruct (parts_raise resolve node value scalar (e_comparison e0) w k ec row Hparts) as [err2 Hr2];
      [left; eauto|]. by exists err2.
Qed.

(** C7. A compiled filter keeps exactly the selected rows on which the scalar
    executor finds the condition true, with or without SIMD: FALSE and NULL
    both drop the row, no other batch changes, and no row outside the
    selection comes back.  An error is raised only if the scalar executor
    raises one on a selected row, and then the selection is untouched. *)
Theorem expr_filter_spec resolve node target e w k bt o ec phase enable_simd :
  resolves resolve → expr_ok resolve node true e → evaluable w e k bt o →
  let '(r, w') := pg_batch_expr_apply_filter target (pg_batch_expr_bind e (Some k) (Some ec) phase) enable_simd w in
  filter_outcome resolve node w k bt ec r w'.
Proof.
  intros Hres Hok Hev. set (e1 := pg_batch_expr_bind e (Some k) (Some ec) phase).
  assert (Hok1 : expr_ok resolve node true e1) by (eapply expr_ok_same; [done|done|apply Hok]).
  destruct (apply_filter_ok resolve node target e1 w k bt o ec enable_simd Hres Hok1) as [_ Hf];
    [by apply evaluable_bound|].
  by destruct (pg_batch_expr_apply_filter target e1 enable_simd w).
Qed.

(** ** Comparisons with one Var *)

Lemma analyze_strip node relid : analyze_value (strip_relabel node) relid = analyze_value node relid.
Proof. induction node using expr_ind; try done. Qed.

Lemma analyze_filter_args node relid value_arg op :
  analyze_filter node relid = Some (value_arg, op) →
  ∃ arg0 arg1 n0 n1, op_args (strip_relabel node) = Ok [arg0; arg1] ∧
    analyze_value arg0 relid = Some n0 ∧ analyze_value arg1 relid = Some n1 ∧
    n0 + n1 = 1 ∧ value_arg = (if n0 =? 1 then 0 else 1).
Proof.
  unfold analyze_filter. destruct (strip_relabel node) as [| | | |f t args|]; try done.
  destruct args as [|arg0 [|arg1 [|]]]; try done. destruct (negb _); [done|].
  destruct (analyze_value arg0 relid) as [n0|] eqn:H0; [|done]. destruct (analyze_value arg1 relid) as [n1|] eqn:H1; [|done].
  destruct (Z.eqb_spec (n0 + n1) 1) as [Hsum|]; [|done]. cbn [negb].
  destruct (pg_batch_int4_compare_op f _); [|done]. intros [= <- <-]. by exists arg0, arg1, n0, n1.
Qed.

(** What the comparison means on a row. *)
Definition comparison_datum (a : option Z) (op : PgBatchInt4Op) (b : option Z) : option Z :=
  match a, b with
  | Some a, Some b => Some (if pg_batch_int4_compare a (DatumGetInt32 b) op then 1 else 0)
  | _, _ => None
  end.

(** What the caller of [pg_batch_expr_match_int4_comparison] is told. *)
Definition match_outcome (node : ExprNode) (relid : Z) (r : res (option (Z * PgBatchInt4Op * ExprNode))) : Prop :=
  match r with
  | Ok (Some (attno, op, scalar)) =>
      ∃ var, valid_var var relid = true ∧ varattno var = attno ∧ analyze_value scalar relid = Some 0 ∧
      ∀ ec row, (∀ z, row var = Some z → is_s32 z) →
        agree (eval node (at_row ec row)) (b ← eval scalar ec; Ok (comparison_datum (row var) op b))
  | Ok None => pg_batch_expr_supports_filter node relid = true →
      ∃ args value, op_args (strip_relabel node) = Ok args ∧ value ∈ args ∧
        analyze_value value relid = Some 1 ∧ ∀ var, strip_relabel value ≠ Var var
  | _ => False
  end.

Lemma match_sides node relid value scalar args op :
  op_args (strip_relabel node) = Ok args → pg_batch_expr_supports_filter node relid = true → value ∈ args →
  analyze_value value relid = Some 1 → analyze_value scalar relid = Some 0 →
  filter_parts node value scalar op →
  match_outcome node relid
    (match strip_relabel value with
     | Var var =>
         match analyze_value (strip_relabel scalar) relid with
         | Some nvars => Ok (if negb (nvars =? 0) then None else Some (varattno var, op, strip_relabel scalar))
         | None => Ok None
         end
     | _ => Ok None
     end).
Proof.
  intros Hargs _ Hin Hv Hs (_ & _ & Hparts).
  assert (Hrefuse : (∀ var, strip_relabel value ≠ Var var) → match_outcome node relid (Ok None)).
  { intros Hnot _. by exists args, value. }
  pose proof Hv as Hstrip. rewrite <- analyze_strip in Hstrip.
  destruct (strip_relabel value) as [var| | | | |] eqn:Ev; try (apply Hrefuse; done).
  rewrite analyze_strip, Hs. cbn. exists var. cbn in Hstrip. destruct (valid_var var relid) eqn:Hvar; [|done].
  split; [done|]. split; [done|]. split; [by rewrite analyze_strip|]. intros ec row Hrow.
  specialize (Hparts ec row). unfold eval_int4 in Hparts. rewrite <- (eval_strip value), Ev, eval_var in Hparts
    by by eapply valid_var_any. rewrite eval_strip. cbn in Hparts.
  replace (DatumGetInt32 <$> (Int32GetDatum <$> row var)) with (row var) in Hparts.
  { by destruct (row var), (eval scalar ec) as [[b|]| |]. }
  destruct (row var) as [z|]; [|done]. cbn. by rewrite Int32GetDatum_inv by by apply Hrow.
Qed.

(** [pg_batch_expr_match_int4_comparison] never goes wrong.  What it
    returns is the filter rewritten with the column on the left: on every row
    the scalar executor finds for the tree what comparing the column with the
    returned scalar gives.  It refuses a supported filter only when the side
    with the Var computes something. *)
Theorem expr_match_spec node relid :
  match_outcome node relid (pg_batch_expr_match_int4_comparison node relid).
Proof.
  unfold pg_batch_expr_match_int4_comparison.
  assert (Hidem : strip_relabel (strip_relabel node) = strip_relabel node) by by induction node using expr_ind.
  assert (Hsame : analyze_filter (strip_relabel node) relid = analyze_filter node relid)
    by by (unfold analyze_filter; rewrite Hidem).
  rewrite Hsame. destruct (analyze_filter node relid) as [[value_arg op]|] eqn:Hf.
  2:{ unfold match_outcome, pg_batch_expr_supports_filter. by rewrite Hf. }
  assert (Hsup : pg_batch_expr_supports_filter node relid = true)
    by by (unfold pg_batch_expr_supports_filter; rewrite Hf).
  destruct (analyze_filter_args _ _ _ _ Hf) as (arg0 & arg1 & n0 & n1 & Hargs & H0 & H1 & Hsum & Hva).
  destruct (analyze_filter_ok _ _ _ (analyze_filter_any _ _ _ Hf)) as (args & value & scalar & Hargs' & Hval & Hsca & Hparts).
  rewrite Hargs in Hargs'. injection Hargs' as <-. rewrite Hargs, bind_Ok. cbn [aref Z.ltb Z.compare]. cbn.
  pose proof (analyze_nonneg _ _ _ H0). pose proof (analyze_nonneg _ _ _ H1).
  destruct (Z.eqb_spec n0 1) as [->|]; subst value_arg; cbn in Hval, Hsca |- *; injection Hval as <-; injection Hsca as <-.
  - eapply (match_sides node relid arg0 arg1); [done|done|by left|done|by rewrite H1; f_equal; lia|done].
  - eapply (match_sides node relid arg1 arg0); [done|done|by right; left|by rewrite H1; f_equal; lia|by rewrite H0; f_equal; lia|done].
Qed.
End contract.

(** ** A concrete executor

    A context holds the parameters and the current row. *)

Fixpoint reference_eval (node : ExprNode) (econtext : (Z → option Z) * (VarNode → option Z)) : res (option Z) :=
  match node with
  | Var v => Ok (Int32GetDatum <$> econtext.2 v)
  | Const _ v isnull => Ok (if (isnull : bool) then None else Some v)
  | Param _ id _ => Ok (econtext.1 id)
  | RelabelType arg => reference_eval arg econtext
  | OpExpr f _ [arg0; arg1] =>
      a ← reference_eval arg0 econtext;
      b ← reference_eval arg1 econtext;
      match a, b with
      | Some a, Some b =>
          match arithmetic_op f 2, pg_batch_int4_compare_op f 0 with
          | Some op, _ => v ← sql_int4 (DatumGetInt32 a) (DatumGetInt32 b) op; Ok (Some (Int32GetDatum v))
          | None, Some op => Ok (Some (if pg_batch_int4_compare (DatumGetInt32 a) (DatumGetInt32 b) op then 1 else 0))
          | None, None => Ok None
          end
      | _, _ => Ok None
      end
  | OpExpr f _ [arg] =>
      a ← reference_eval arg econtext;
      match a, arithmetic_op f 1 with
      | Some a, Some op => v ← sql_int4 (DatumGetInt32 a) 0 op; Ok (Some (Int32GetDatum v))
      | _, _ => Ok None
      end
  | OpExpr _ _ _ => Ok None
  | OtherExpr _ => Ok None
  end.

#[global] Instance reference_executor : PgExecutor := {
  ExprContext := (Z → option Z) * (VarNode → option Z);
  ExprState := ExprNode;
  exprType node :=
    match node with
    | Var v => vartype v
    | Const t _ _ | Param _ _ t | OpExpr _ t _ => t
    | RelabelType _ | OtherExpr _ => 0
    end;
  ExecInitExpr node := node;
  ExecEvalExpr := reference_eval;
}.

Lemma reference_eval_defined node ec : reference_eval node ec ≠ Undefined.
Proof.
  induction node as [v|t v b|k i t|a IH|f t args IH|i] using expr_ind; try done.
  destruct IH as [|arg0 args H0 IH]; [done|]. destruct IH as [|arg1 args H1 IH]; cbn [reference_eval].
  - destruct (reference_eval arg0 ec) as [[a|]| |]; try done. cbn. destruct (arithmetic_op f 1); [|done].
    pose proof (sql_int4_defined (DatumGetInt32 a) 0 p). by destruct (sql_int4 _ _ _).
  - destruct args; [|done]. destruct (reference_eval arg0 ec) as [a| |], (reference_eval arg1 ec) as [b| |]; try done. cbn.
    destruct a as [a|], b as [b|]; try done.
    destruct (arithmetic_op f 2) as [op|]; [|by destruct (pg_batch_int4_compare_op f 0)].
    pose proof (sql_int4_defined (DatumGetInt32 a) (DatumGetInt32 b) op). by destruct (sql_int4 _ _ _).
Qed.

#[refine, global] Instance reference_scalar_executor : ScalarExecutor := { at_row ec row := (ec.1, row) }.
Proof.
  - exact reference_eval_defined.
  - done.
  - done.
  - by intros [] ec row.
  - intros f t arg0 arg1 op ec Hop. unfold eval. cbn. by rewrite Hop.
  - intros f t arg op ec Hop. unfold eval. cbn. rewrite Hop. by destruct (reference_eval arg ec) as [[]| |].
  - intros f t arg0 arg1 op ec Hop. unfold eval. cbn. rewrite Hop.
    destruct (reference_eval arg0 ec) as [[]| |], (reference_eval arg1 ec) as [[]| |]; try done.
    destruct f; cbn in Hop; by try done.
Defined.

(** [(x + 5) * $0] over the column [x], and the filter [150 < x - 1]. *)
Definition sample_var : VarNode := mkVar 1 2 INT4OID 0 VAR_RETURNING_DEFAULT.
Definition sample_value : ExprNode :=
  OpExpr F_INT4MUL INT4OID [OpExpr F_INT4PL INT4OID [Var sample_var; Const INT4OID 5 false]; Param PARAM_EXTERN 0 INT4OID].
Definition sample_filter : ExprNode :=
  OpExpr F_INT4LT BOOLOID [Const INT4OID 150 false; OpExpr F_INT4MI INT4OID [Var sample_var; Const INT4OID 1 false]].
Definition sample_resolve (v : VarNode) : Z := varattno v - 1.
Definition sample_context : (Z → option Z) * (VarNode → option Z) := (λ _, Some 3, λ _, None).

Definition sample_expr (filter : bool) : PgBatchExpr :=
  match compile_expression sample_resolve (if filter then sample_filter else sample_value) filter with
  | Ok e => e
  | _ => new_expr filter
  end.

Lemma sample_resolves : resolves sample_resolve.
Proof. intros v Hv. unfold valid_var in Hv. bool_prop. unfold sample_resolve. lia. Qed.

Lemma sample_expr_ok (filter : bool) :
  expr_ok sample_resolve (if filter then sample_filter else sample_value) filter (sample_expr filter).
Proof. apply compiled_expr_ok; [exact sample_resolves|]. by destruct filter. Qed.

Lemma sample_evaluable (filter : bool) : evaluable sample_world (sample_expr filter) 10 sample_columns_batch sample_ops.
Proof.
  split; [by apply history_start|exact sample_served|exact sample_selection_wf|exact sample_selection_clean|].
  intros _. destruct filter; by split.
Qed.

Lemma expr_compile_spec_witness :
  (supports true sample_filter 1 = true → supports true sample_filter 0 = true) ∧
  match compile_expression sample_resolve sample_filter true with
  | Ok e => supports true sample_filter 0 = true ∧ expr_ok sample_resolve sample_filter true e
  | Raise _ => supports true sample_filter 0 = false
  | Undefined => False
  end.
Proof. apply expr_compile_spec. exact sample_resolves. Defined.

Lemma expr_value_spec_witness :
  let '(r, w') := pg_batch_expr_get_int4
    (pg_batch_expr_bind (sample_expr false) (Some 10) (Some sample_context) PG_BATCH_COLUMN_PROJECT) sample_world in
  w_batches w' = w_batches sample_world ∧ served w' 10 sample_columns_batch sample_ops ∧
  match r with
  | Ok (e', v) =>
      expr_ok sample_resolve sample_value false e' ∧ col_wf v 70 ∧
      (∀ row, row ∈ selected_rows sample_selection →
         row_value sample_resolve sample_value sample_world 10 sample_context row = Ok (cell v row)) ∧
      pg_batch_expr_get_int4 e' w' = (Ok (e', v), w')
  | Raise _ => ∃ row err, row ∈ selected_rows sample_selection ∧
      row_value sample_resolve sample_value sample_world 10 sample_context row = Raise err
  | Undefined => False
  end.
Proof.
  apply (expr_value_spec sample_resolve sample_value (sample_expr false) sample_world 10 sample_columns_batch sample_ops
    sample_context PG_BATCH_COLUMN_PROJECT); [exact sample_resolves|exact (sample_expr_ok false)|exact (sample_evaluable false)|done].
Defined.

Lemma expr_filter_spec_witness :
  let '(r, w') := pg_batch_expr_apply_filter USE_SSE2
    (pg_batch_expr_bind (sample_expr true) (Some 10) (Some sample_context) PG_BATCH_COLUMN_FILTER) true sample_world in
  filter_outcome sample_resolve sample_filter sample_world 10 sample_columns_batch sample_context r w'.
Proof.
  apply (expr_filter_spec sample_resolve sample_filter USE_SSE2 (sample_expr true) sample_world 10 sample_columns_batch
    sample_ops sample_context PG_BATCH_COLUMN_FILTER); [exact sample_resolves|exact (sample_expr_ok true)|exact (sample_evaluable true)].
Defined.

(** Of the rows 0, 2, 64 and 69 of the sample the filter keeps the last two. *)
Example sample_filter_rows :
  match pg_batch_expr_apply_filter USE_SSE2
    (pg_batch_expr_bind (sample_expr true) (Some 10) (Some sample_context) PG_BATCH_COLUMN_FILTER) true sample_world with
  | (Ok _, w') => (λ b, words (selection b)) <$> w_batches w' !! 10 = Some [0; 33]
  | _ => False
  end.
Proof. vm_compute. reflexivity. Qed.
