(* ===== verification/JoinStore.v ===== *)
(** * The build side of the hash join ([nodes/hash_join.c],
      [nodes/hash_join_internal.h])

    A columnar row store with a hash per row, and an open-addressing directory
    over it: a bucket holds the head of a chain of rows with equal keys, and
    rows with other keys move on to the next bucket.  Links are row numbers
    plus one, 0 ends a chain. *)

From S2P Require Import Prelude Words Selection Vector Kernels Int4 Hash Spill.

Record InputColumn : Type := mkInput {
  ic_prepared : bool;
  ic_available_rows : Z;
  ic_vector : PgBatchInt4Vector;
}.

Record StoredColumn : Type := mkStored {
  sc_values : list Z;
  sc_validity : list Z;
}.

Record BuildLink : Type := mkLink {
  bl_hash : Z;
  bl_next : Z;
}.

(** Arrays that are not allocated are empty. *)
Record BuildStore : Type := mkStore {
  bs_columns : list StoredColumn;
  bs_links : list BuildLink;
  bs_buckets : list Z;
  bs_ncolumns : Z;
  bs_nrows : Z;
  bs_capacity : Z;
  bs_nbuckets : Z;
  bs_hash_shift : Z;
  bs_has_duplicates : bool;
}.

Definition set_columns (s : BuildStore) c := mkStore c (bs_links s) (bs_buckets s) (bs_ncolumns s) (bs_nrows s)
  (bs_capacity s) (bs_nbuckets s) (bs_hash_shift s) (bs_has_duplicates s).
Definition set_links (s : BuildStore) l := mkStore (bs_columns s) l (bs_buckets s) (bs_ncolumns s) (bs_nrows s)
  (bs_capacity s) (bs_nbuckets s) (bs_hash_shift s) (bs_has_duplicates s).
Definition set_nrows (s : BuildStore) n := mkStore (bs_columns s) (bs_links s) (bs_buckets s) (bs_ncolumns s) n
  (bs_capacity s) (bs_nbuckets s) (bs_hash_shift s) (bs_has_duplicates s).
Definition set_directory (s : BuildStore) l b dup := mkStore (bs_columns s) l b (bs_ncolumns s) (bs_nrows s)
  (bs_capacity s) (bs_nbuckets s) (bs_hash_shift s) dup.

(** The values and NULL flags of an input row. *)
Definition hash_join_input_value (input : InputColumn) (row : Z) : res (Z * bool) :=
  _ ← assert_ (ic_prepared input);
  isnull ← pg_batch_int4_row_is_null (ic_vector input) row;
  if (isnull : bool) then Ok (0, true) else
  v ← pg_batch_int4_row_value (ic_vector input) row; Ok (v, false).

Section store.
Context `{PgCore}.

Definition hash_join_reset_build_store (s : BuildStore) : BuildStore :=
  mkStore (replicate (Z.to_nat (bs_ncolumns s)) (mkStored [] [])) [] [] (bs_ncolumns s) 0 0 0 (bs_hash_shift s) false.

Definition link_uninit (n : Z) : list BuildLink := (λ v, mkLink v v) <$> palloc_uninit n.

(** One turn of the loop over the columns. *)
Definition resize_column (old_capacity new_capacity : Z) (stored : StoredColumn) : res StoredColumn :=
  let old_words := (old_capacity + 63) / 64 in
  let new_words := (new_capacity + 63) / 64 in
  _ ← check_alloc (4 * new_capacity);
  _ ← check_alloc (8 * new_words);
  if old_capacity =? 0
  then Ok (mkStored (int32_uninit new_capacity) (replicate (Z.to_nat new_words) 0))
  else Ok (mkStored (sc_values stored ++ int32_uninit (new_capacity - zlength (sc_values stored)))
             (sc_validity stored ++ replicate (Z.to_nat (new_words - old_words)) 0)).

Definition resize_build_store (s : BuildStore) (new_capacity : Z) : res BuildStore :=
  let old_capacity := bs_capacity s in
  _ ← raise_if (new_capacity <=? old_capacity) (Elog "pg_batch hash join build side is too large");
  _ ← check_alloc (8 * new_capacity);
  let links := if old_capacity =? 0 then link_uninit new_capacity
               else bs_links s ++ link_uninit (new_capacity - zlength (bs_links s)) in
  columns ← foldM (λ column columns,
      stored ← aref columns column;
      stored ← resize_column old_capacity new_capacity stored;
      aset columns column stored) (seqZ 0 (bs_ncolumns s)) (bs_columns s);
  Ok (mkStore columns links (bs_buckets s) (bs_ncolumns s) (bs_nrows s) new_capacity
        (bs_nbuckets s) (bs_hash_shift s) (bs_has_duplicates s)).

Definition hash_join_grow_build_store (s : BuildStore) : res BuildStore :=
  resize_build_store s (if bs_capacity s =? 0 then 1024 else to_u32 (bs_capacity s * 2)).

(** Storing one value of the new row. *)
Definition store_value (stored_row column value : Z) (valid : bool) (columns : list StoredColumn)
    : res (list StoredColumn) :=
  stored ← aref columns column;
  values ← aset (sc_values stored) stored_row value;
  validity ← (if valid then
      w ← aref (sc_validity stored) (stored_row / 64);
      aset (sc_validity stored) (stored_row / 64) (Z.lor w (bit64 (stored_row mod 64)))
    else Ok (sc_validity stored));
  aset columns column (mkStored values validity).

(** The new row of a store with room: its hash and its values.  [get column] is
    the value and whether it is NULL. *)
Definition append_row (s : BuildStore) (hash : Z) (get : Z → res (Z * bool)) : res BuildStore :=
  let stored_row := bs_nrows s in
  link ← aref (bs_links s) stored_row;
  links ← aset (bs_links s) stored_row (mkLink hash (bl_next link));
  columns ← foldM (λ column columns,
      c ← get column;
      store_value stored_row column c.1 (negb c.2) columns) (seqZ 0 (bs_ncolumns s)) (bs_columns s);
  Ok (set_nrows (set_links (set_columns s columns) links) (bs_nrows s + 1)).

Definition append_build_row_hash (s : BuildStore) (columns : list InputColumn) (row hash : Z) : res BuildStore :=
  s ← (if bs_nrows s =? bs_capacity s then hash_join_grow_build_store s else Ok s);
  append_row s hash (λ column, input ← aref columns column; hash_join_input_value input row).

(** The [while] loop that makes room; the capacity doubles, so it takes at
    most as many turns as a [uint32] has bits. *)
Fixpoint grow_for (fuel : nat) (s : BuildStore) (nrows : Z) : res BuildStore :=
  if to_u32 (bs_capacity s - bs_nrows s) <? nrows then
    match fuel with
    | O => Undefined
    | S fuel => s ← hash_join_grow_build_store s; grow_for fuel s nrows
    end
  else Ok s.

Definition block_cell (block : PgBatchSpillBlock) (row column : Z) : res (Z * bool) :=
  b ← aref (bl_validity block) (column * 8 + row / 8);
  v ← aref (bl_values block) (column * PG_BATCH_SPILL_BLOCK_ROWS + row);
  Ok (v, Z.land b (Z.shiftl 1 (row mod 8)) =? 0).

Definition hash_join_append_dense_build (s : BuildStore) (block : PgBatchSpillBlock) : res BuildStore :=
  _ ← raise_if (negb (bl_ncolumns block =? bs_ncolumns s)) (Elog "invalid pg_batch parallel build block");
  s ← grow_for 33 s (bl_nrows block);
  foldM (λ row s,
      hash ← aref (bl_hashes block) row;
      append_row s hash (block_cell block row)) (seqZ 0 (bl_nrows block)) s.

(** ** The directory *)

(** The [while] loop; a power of two below 2^31 doubles at most 31 times. *)
Fixpoint bucket_count_loop (fuel : nat) (nrows result : Z) : res Z :=
  if (result <? nrows * 2) && (result <? (2 ^ 32 - 1) / 2 + 1) then
    match fuel with
    | O => Undefined
    | S fuel => bucket_count_loop fuel nrows (to_u32 (Z.shiftl result 1))
    end
  else Ok result.

Definition choose_bucket_count (nrows : Z) : res Z := bucket_count_loop 32 nrows 1024.

(** [inner_keys] are the key columns of the store; the last one is left out. *)
Definition key_prefix {A} (keys : list A) : list A := take (length keys - 1) keys.

Definition stored_value_at (s : BuildStore) (column row : Z) : res Z :=
  stored ← aref (bs_columns s) column; aref (sc_values stored) row.

Fixpoint values_equal (left right : Z → res Z) (columns : list Z) : res bool :=
  match columns with
  | [] => Ok true
  | column :: columns =>
      l ← left column;
      r ← right column;
      if negb (l =? r) then Ok false else values_equal left right columns
  end.

Definition build_keys_equal (s : BuildStore) (inner_keys : list Z) (left right : Z) : res bool :=
  values_equal (λ column, stored_value_at s column left) (λ column, stored_value_at s column right)
    (key_prefix inner_keys).

(** Walking the directory from a bucket to the first one [stop] accepts. *)
Fixpoint probe_buckets (fuel : nat) (s : BuildStore) (stop : Z → res bool) (bucket : Z) : res Z :=
  match fuel with
  | O => Undefined
  | S fuel =>
      head ← aref (bs_buckets s) bucket;
      b ← stop head;
      if (b : bool) then Ok bucket
      else probe_buckets fuel s stop (Z.land (to_u32 (bucket + 1)) (bs_nbuckets s - 1))
  end.

Definition home_bucket (s : BuildStore) (hash : Z) : Z :=
  Z.land (Z.shiftr hash (bs_hash_shift s)) (bs_nbuckets s - 1).

(** The head of a chain with the hash and the key prefix. *)
Definition insert_row (inner_keys : list Z) (row : Z) (s : BuildStore) : res BuildStore :=
  link ← aref (bs_links s) row;
  bucket ← probe_buckets (S (Z.to_nat (bs_nbuckets s))) s (λ head,
      if head =? 0 then Ok true else
      first ← aref (bs_links s) (head - 1);
      if bl_hash first =? bl_hash link then build_keys_equal s inner_keys (head - 1) row else Ok false)
    (home_bucket s (bl_hash link));
  head ← aref (bs_buckets s) bucket;
  links ← aset (bs_links s) row (mkLink (bl_hash link) head);
  buckets ← aset (bs_buckets s) bucket (to_u32 (row + 1));
  Ok (set_directory s links buckets (bs_has_duplicates s || negb (head =? 0))).

Definition hash_join_finish_build_table (s : BuildStore) (inner_keys : list Z) : res BuildStore :=
  nbuckets ← choose_bucket_count (bs_nrows s);
  _ ← check_alloc (4 * nbuckets);
  let s := mkStore (bs_columns s) (bs_links s) (replicate (Z.to_nat nbuckets) 0) (bs_ncolumns s) (bs_nrows s)
             (bs_capacity s) nbuckets (bs_hash_shift s) (bs_has_duplicates s) in
  foldM (insert_row inner_keys) (seqZ 0 (bs_nrows s)) s.

(** The probe row's value of the outer column that goes with an inner one. *)
Definition probe_key (probe_columns : list InputColumn) (probe_row outer_column : Z) : res Z :=
  input ← aref probe_columns outer_column;
  v ← hash_join_input_value input probe_row;
  _ ← assert_ (negb v.2);
  Ok v.1.

Fixpoint probe_matches (s : BuildStore) (keys : list (Z * Z)) (probe_columns : list InputColumn)
    (build_row probe_row : Z) : res bool :=
  match keys with
  | [] => Ok true
  | (inner_column, outer_column) :: keys =>
      probe_value ← probe_key probe_columns probe_row outer_column;
      v ← stored_value_at s inner_column build_row;
      if v =? probe_value then probe_matches s keys probe_columns build_row probe_row else Ok false
  end.

(** The serial case of [find_build_head]; [keys] pairs inner and outer key
    columns. *)
Definition find_build_head (s : BuildStore) (keys : list (Z * Z)) (probe_columns : list InputColumn)
    (hash probe_row : Z) : res Z :=
  bucket ← probe_buckets (S (Z.to_nat (bs_nbuckets s))) s (λ link,
      if link =? 0 then Ok true else
      first ← aref (bs_links s) (link - 1);
      if bl_hash first =? hash then probe_matches s (key_prefix keys) probe_columns (link - 1) probe_row
      else Ok false)
    (home_bucket s hash);
  aref (bs_buckets s) bucket.

Definition build_value_valid (s : BuildStore) (column row : Z) : res bool :=
  stored ← aref (bs_columns s) column;
  w ← aref (sc_validity stored) (row / 64);
  Ok (negb (Z.land w (bit64 (row mod 64)) =? 0)).

(** The serial case of [build_value]: the value and whether it is NULL. *)
Definition build_value (s : BuildStore) (column row : Z) : res (Z * bool) :=
  valid ← build_value_valid s column row;
  if negb valid then Ok (0, true) else
  v ← stored_value_at s column row; Ok (v, false).
End store.
