(* ===== verification/JoinStoreProps.v ===== *)
(** * The build side of the hash join: the store

    The abstract content of a build store is the list of its rows, a hash and
    a cell per column each; growing keeps it and appending extends it. *)

From S2P Require Import Prelude Words Selection Vector Kernels Int4 Hash Spill JoinStore.

Definition no_link : BuildLink := mkLink 0 0.
Definition no_column : StoredColumn := mkStored [] [].

Definition validity_at (c : StoredColumn) (row : Z) : bool :=
  Z.testbit (zget 0 (sc_validity c) (row / 64)) (row mod 64).
Definition value_at (c : StoredColumn) (i : Z) : Z := zget 0 (sc_values c) i.
Definition stored_cell (c : StoredColumn) (row : Z) : option Z :=
  if validity_at c row then Some (zget 0 (sc_values c) row) else None.

Lemma stored_cell_at c i : stored_cell c i = if validity_at c i then Some (value_at c i) else None.
Proof. done. Qed.

(** The arrays of a column with room for [cap] rows. *)
Record column_wf (c : StoredColumn) (cap : Z) : Prop := {
  cw_values : zlength (sc_values c) = cap;
  cw_validity : zlength (sc_validity c) = (cap + 63) / 64;
  cw_words : Forall is_u64 (sc_validity c);
  cw_s32 : Forall is_s32 (sc_values c);
}.

Abbreviation build_row := (Z * list (option Z))%type.

(** The most rows whose arrays the allocator grants. *)
Definition max_build_rows : Z := 2 ^ 26.

(** Capacities are 0 or the powers of two from 1024 on. *)
Definition capacity_ok (cap : Z) : Prop := cap = 0 ∨ ∃ k, 10 ≤ k ≤ 26 ∧ cap = 2 ^ k.

Definition column_of (s : BuildStore) (c : Z) : StoredColumn := zget no_column (bs_columns s) c.
Definition link_of (s : BuildStore) (row : Z) : BuildLink := zget no_link (bs_links s) row.

(** The store holds the rows. *)
Record store_holds (s : BuildStore) (rows : list build_row) : Prop := {
  sw_ncolumns : zlength (bs_columns s) = bs_ncolumns s;
  sw_nrows : bs_nrows s = zlength rows;
  sw_room : bs_nrows s ≤ bs_capacity s;
  sw_capacity : capacity_ok (bs_capacity s);
  sw_links : zlength (bs_links s) = bs_capacity s;
  sw_columns : ∀ c, 0 ≤ c < bs_ncolumns s → 0 < bs_capacity s → column_wf (column_of s c) (bs_capacity s);
  sw_hashes : ∀ i row, rows !! i = Some row → bl_hash (link_of s (Z.of_nat i)) = row.1;
  sw_cells : ∀ i row c, rows !! i = Some row → 0 ≤ c < bs_ncolumns s →
    stored_cell (column_of s c) (Z.of_nat i) = zget None row.2 c;
}.

(** No validity bit is set beyond the last row. *)
Definition store_fresh (s : BuildStore) : Prop :=
  ∀ c i, 0 ≤ c < bs_ncolumns s → bs_nrows s ≤ i < bs_capacity s → validity_at (column_of s c) i = false.

Definition store_wf (s : BuildStore) (rows : list build_row) : Prop := store_holds s rows ∧ store_fresh s.

Lemma capacity_bounds cap :
  capacity_ok cap → 0 ≤ cap ≤ 2 ^ 26 ∧ (cap = 0 ∨ 1024 ≤ cap) ∧ cap mod 64 = 0.
Proof.
  intros [->|(k & Hk & ->)]; [split_and!; [lia|lia|by left|done]|].
  pose proof (Z.pow_le_mono_r 2 10 k). pose proof (Z.pow_le_mono_r 2 k 26).
  split_and!; [lia|lia|right; lia|]. replace k with (k - 6 + 6) by lia.
  rewrite Z.pow_add_r by lia. by apply Z.mod_mul.
Qed.

(** Doubling stays within the allocator's limit up to [max_build_rows]. *)
Lemma capacity_doubles cap :
  capacity_ok cap → cap < max_build_rows →
  capacity_ok (if cap =? 0 then 1024 else to_u32 (cap * 2)) ∧ cap < (if cap =? 0 then 1024 else to_u32 (cap * 2)).
Proof.
  intros [->|(k & Hk & ->)] Hlt.
  - simpl. split; [|lia]. right. exists 10. lia.
  - pose proof (Z.pow_le_mono_r 2 10 k). destruct (Z.eqb_spec (2 ^ k) 0); [lia|].
    assert (k < 26) by (apply (Z.pow_lt_mono_r_iff 2); unfold max_build_rows in Hlt; lia).
    assert (2 ^ k * 2 = 2 ^ (k + 1)) as -> by (rewrite Z.pow_add_r by lia; lia).
    pose proof (Z.pow_le_mono_r 2 (k + 1) 26). pose proof (Z.pow_lt_mono_r 2 k (k + 1)).
    unfold to_u32. rewrite Z.mod_small by lia. split; [|lia]. right. exists (k + 1). lia.
Qed.

Section store.
Context `{PgCore}.

(** ** Growing *)

Lemma zget_app_l {A} (d : A) l l' i : 0 ≤ i < zlength l → zget d (l ++ l') i = zget d l i.
Proof. intros Hi. unfold zget. by rewrite lookup_app_l by lia. Qed.

Lemma zget_replicate {A} (d x : A) n i : 0 ≤ i < Z.of_nat n → zget d (replicate n x) i = x.
Proof. intros Hi. unfold zget. rewrite lookup_replicate_2 by lia. done. Qed.

Lemma resize_column_ok old new c :
  capacity_ok old → capacity_ok new → old < new → (0 < old → column_wf c old) →
  ∃ c', resize_column old new c = Ok c' ∧ column_wf c' new ∧
    (∀ i, 0 ≤ i < old → stored_cell c' i = stored_cell c i) ∧
    (∀ i, 0 ≤ i < old → validity_at c' i = validity_at c i) ∧
    ∀ i, old ≤ i < new → validity_at c' i = false.
Proof.
  intros Ho Hn Hlt Hc. pose proof (capacity_bounds _ Ho) as (Hob & Hoc & Hom).
  pose proof (capacity_bounds _ Hn) as (Hnb & Hnc & Hnm).
  unfold resize_column. rewrite !check_alloc_ok, !bind_Ok by (unfold MaxAllocSize; zlia).
  destruct (Z.eqb_spec old 0) as [->|Hne].
  - destruct (int32_uninit_ok new) as [Hu Hs]; [lia|]. eexists; split; [done|].
    split; [|split; [lia|split; [lia|]]].
    + constructor; cbn; [done|rewrite length_replicate; zlia|apply Forall_replicate; unfold is_u64; lia|done].
    + intros i Hi. unfold validity_at. cbn. rewrite zget_replicate by zlia. apply Z.bits_0.
  - destruct (Hc ltac:(lia)) as [Hv Hw Hu Hs]. rewrite Hv.
    destruct (int32_uninit_ok (new - old)) as [Hul Hus]; [lia|]. eexists; split; [done|].
    assert (Hbit : ∀ i, 0 ≤ i < old → validity_at
      (mkStored (sc_values c ++ int32_uninit (new - old))
         (sc_validity c ++ replicate (Z.to_nat ((new + 63) / 64 - (old + 63) / 64)) 0)) i = validity_at c i).
    { intros i Hi. unfold validity_at. cbn. by rewrite zget_app_l by zlia. }
    split; [|split; [|split; [done|]]].
    + constructor; cbn; rewrite ?length_app, ?length_replicate; [lia|zlia| |by apply Forall_app].
      apply Forall_app; split; [done|]. apply Forall_replicate. unfold is_u64. lia.
    + intros i Hi. unfold stored_cell. rewrite Hbit by done. cbn. by rewrite zget_app_l by lia.
    + intros i Hi. unfold validity_at, zget. cbn. rewrite lookup_app_r by zlia.
      rewrite lookup_replicate_2 by zlia. apply Z.bits_0.
Qed.

Lemma link_uninit_length n : 0 ≤ n → zlength (link_uninit n) = n.
Proof. intros Hn. unfold link_uninit. by rewrite length_fmap, palloc_uninit_length. Qed.

Lemma resize_ok s rows new :
  store_holds s rows → capacity_ok new → bs_capacity s < new →
  ∃ s', resize_build_store s new = Ok s' ∧ store_holds s' rows ∧ (store_fresh s → store_fresh s') ∧ bs_capacity s' = new ∧
    bs_ncolumns s' = bs_ncolumns s ∧ bs_hash_shift s' = bs_hash_shift s ∧
    bs_has_duplicates s' = bs_has_duplicates s.
Proof.
  intros Hs Hnew Hlt. pose proof (capacity_bounds _ Hnew) as (Hnb & _). pose proof Hs as [].
  pose proof (capacity_bounds _ sw_capacity0) as (Hob & Hoc & _). unfold resize_build_store.
  destruct (Z.leb_spec new (bs_capacity s)); [lia|]. cbn [raise_if].
  rewrite bind_Ok, check_alloc_ok, bind_Ok by (unfold MaxAllocSize; lia).
  destruct (for_inv (λ k cols, zlength cols = bs_ncolumns s ∧
      (∀ c, 0 ≤ c < k → column_wf (zget no_column cols c) new ∧
        (∀ i, 0 ≤ i < bs_capacity s → stored_cell (zget no_column cols c) i = stored_cell (column_of s c) i) ∧
        ∀ i, 0 ≤ i < new → validity_at (zget no_column cols c) i =
          (i <? bs_capacity s) && validity_at (column_of s c) i) ∧
      ∀ c, k ≤ c < bs_ncolumns s → zget no_column cols c = column_of s c)
    (λ column columns, stored ← aref columns column;
      stored ← resize_column (bs_capacity s) new stored; aset columns column stored)
    (bs_ncolumns s) (bs_columns s)) as (cols & -> & Hl & Hcols & _); [lia| | |].
  - split; [done|]. split; [lia|done].
  - intros k cols Hk (Hl & Hdone & Htodo). rewrite (aref_ok no_column), bind_Ok, Htodo by lia.
    destruct (resize_column_ok (bs_capacity s) new (column_of s k)) as (c' & -> & Hwf & Hcell & Hval & Hnew');
      [done|done|done|by apply sw_columns0|]. rewrite bind_Ok, aset_ok by lia. eexists; split; [done|].
    rewrite length_insert. split; [done|]. split.
    + intros c Hc. rewrite zget_insert by lia. case_decide as E; [subst c|apply Hdone; lia].
      split; [done|]. split; [done|]. intros i Hi. destruct (Z.ltb_spec i (bs_capacity s)); [apply Hval; lia|apply Hnew'; lia].
    + intros c Hc. rewrite zget_insert by lia. case_decide; [lia|]. apply Htodo. lia.
  - rewrite bind_Ok. eexists; split; [done|]. split; [|split; [|done]].
    + assert (Hlinks : ∃ extra, (if bs_capacity s =? 0 then link_uninit new
          else bs_links s ++ link_uninit (new - zlength (bs_links s))) = bs_links s ++ extra ∧
          zlength extra = new - bs_capacity s).
      { destruct (Z.eqb_spec (bs_capacity s) 0) as [E|E].
        - exists (link_uninit new). destruct (bs_links s); [|simpl in *; lia]. rewrite link_uninit_length by lia. split; [done|lia].
        - eexists; split; [done|]. rewrite link_uninit_length by lia. lia. }
      destruct Hlinks as (extra & -> & Hextra). split; cbn; try done; try lia.
      * rewrite length_app. lia.
      * intros c Hc _. by apply Hcols.
      * intros i row Hrow. pose proof (lookup_lt_Some _ _ _ Hrow). unfold link_of. cbn.
        rewrite zget_app_l by lia. by apply sw_hashes0.
      * intros i row c Hrow Hc. pose proof (lookup_lt_Some _ _ _ Hrow). destruct (Hcols c Hc) as (_ & Hcell & _).
        unfold column_of at 1. cbn. rewrite Hcell by lia. by apply sw_cells0.
    + intros Hfresh c i Hc Hi. destruct (Hcols c Hc) as (_ & _ & Hval). unfold column_of. cbn. rewrite Hval by (cbn in Hi; lia).
      destruct (Z.ltb_spec i (bs_capacity s)); [|done]. apply Hfresh; [done|cbn in Hi; lia].
Qed.

Lemma grow_ok s rows :
  store_holds s rows → bs_capacity s < max_build_rows →
  ∃ s', hash_join_grow_build_store s = Ok s' ∧ store_holds s' rows ∧ (store_fresh s → store_fresh s') ∧
    bs_capacity s < bs_capacity s' ∧
    bs_capacity s * 2 ≤ bs_capacity s' ∧
    bs_ncolumns s' = bs_ncolumns s ∧ bs_hash_shift s' = bs_hash_shift s ∧ bs_has_duplicates s' = bs_has_duplicates s.
Proof.
  intros Hs Hlt. destruct (capacity_doubles (bs_capacity s)) as [Hcap Hgt]; [by destruct Hs|done|].
  destruct (resize_ok s rows _ Hs Hcap Hgt) as (s' & E & Hs' & Hfr & Hc' & ?). exists s'. unfold hash_join_grow_build_store.
  split; [done|]. split; [done|]. split; [done|]. split; [lia|]. split; [|done]. rewrite Hc'.
  pose proof (capacity_bounds _ (sw_capacity _ _ Hs)). unfold max_build_rows in Hlt.
  destruct (Z.eqb_spec (bs_capacity s) 0); [lia|]. unfold to_u32. rewrite Z.mod_small; lia.
Qed.

(** ** Appending *)

(** The column after storing one value: a NULL leaves the validity bit alone. *)
Lemma store_value_ok cols cap column row value valid :
  0 ≤ column < zlength cols → column_wf (zget no_column cols column) cap → 0 ≤ row < cap → is_s32 value →
  ∃ c', store_value row column value valid cols = Ok (<[Z.to_nat column := c']> cols) ∧ column_wf c' cap ∧
    ∀ i, 0 ≤ i < cap →
      validity_at c' i = validity_at (zget no_column cols column) i || bool_decide (i = row) && valid ∧
      value_at c' i = (if decide (i = row) then value else value_at (zget no_column cols column) i).
Proof.
  intros Hcol Hc Hrow Hval. pose proof Hc as [Hv Hl Hw Hs]. unfold store_value.
  set (c := zget no_column cols column) in *. rewrite (aref_ok no_column), bind_Ok by done. fold c.
  rewrite aset_ok, bind_Ok by lia.
  assert (Hvals : Forall is_s32 (<[Z.to_nat row := value]> (sc_values c))) by by apply Forall_insert.
  set (word := zget 0 (sc_validity c) (row / 64)).
  assert (Hword : is_u64 word) by (apply zget_Forall; [done|zlia]).
  set (validity := if valid then <[Z.to_nat (row / 64) := Z.lor word (bit64 (row mod 64))]> (sc_validity c) else sc_validity c).
  assert (E : (if valid then w ← aref (sc_validity c) (row / 64);
      aset (sc_validity c) (row / 64) (Z.lor w (bit64 (row mod 64))) else Ok (sc_validity c)) = Ok validity).
  { subst validity. destruct valid; [|done]. rewrite (aref_ok 0), bind_Ok by zlia. by rewrite aset_ok by zlia. }
  rewrite E, bind_Ok, aset_ok by done. eexists; split; [done|]. split.
  - constructor; cbn; rewrite ?length_insert; try done; subst validity; destruct valid; rewrite ?length_insert; try done.
    apply Forall_insert; [done|]. auto with words.
  - intros i Hi. split.
    + unfold validity_at. cbn. subst validity. destruct valid; [|by rewrite andb_false_r, orb_false_r].
      rewrite andb_true_r, zget_insert by zlia. case_decide as Ew.
      * rewrite Z.lor_spec, testbit_bit64, <- Ew by zlia. fold word. f_equal.
        destruct (Z.eqb_spec (i mod 64) (row mod 64)); [rewrite bool_decide_eq_true_2 by zlia|rewrite bool_decide_eq_false_2 by zlia]; done.
      * rewrite bool_decide_eq_false_2 by (intros ->; done). by rewrite orb_false_r.
    + unfold value_at. cbn. rewrite zget_insert by lia. destruct (decide (i = row)), (decide (row = i)); congruence.
Qed.

(** The cell a getter of [append_row] stands for. *)
Definition got (c : Z * bool) : option Z := if c.2 then None else Some c.1.

(** The arrays after appending a row. *)
Record appended (s s' : BuildStore) (hash : Z) (get : Z → res (Z * bool)) : Prop := {
  ap_nrows : bs_nrows s' = bs_nrows s + 1;
  ap_same : bs_capacity s' = bs_capacity s ∧ bs_ncolumns s' = bs_ncolumns s ∧ bs_hash_shift s' = bs_hash_shift s ∧
    bs_has_duplicates s' = bs_has_duplicates s;
  ap_columns : zlength (bs_columns s') = bs_ncolumns s;
  ap_links : zlength (bs_links s') = bs_capacity s;
  ap_hash : ∀ i, 0 ≤ i < bs_capacity s → bl_hash (link_of s' i) = if decide (i = bs_nrows s) then hash else bl_hash (link_of s i);
  ap_wf : ∀ c, 0 ≤ c < bs_ncolumns s → column_wf (column_of s' c) (bs_capacity s);
  ap_cell : ∀ c i v, 0 ≤ c < bs_ncolumns s → 0 ≤ i < bs_capacity s → get c = Ok v →
    validity_at (column_of s' c) i = validity_at (column_of s c) i || bool_decide (i = bs_nrows s) && negb v.2 ∧
    value_at (column_of s' c) i = if decide (i = bs_nrows s) then v.1 else value_at (column_of s c) i;
}.

Lemma append_row_arrays s rows hash get :
  store_holds s rows → bs_nrows s < bs_capacity s →
  (∀ c, 0 ≤ c < bs_ncolumns s → ∃ v, get c = Ok v ∧ is_s32 v.1) →
  ∃ s', append_row s hash get = Ok s' ∧ appended s s' hash get.
Proof.
  intros Hs Hroom Hget. pose proof Hs as []. unfold append_row.
  rewrite (aref_ok no_link), bind_Ok, aset_ok, bind_Ok by lia. set (row := bs_nrows s) in *.
  destruct (for_inv (λ k cols, zlength cols = bs_ncolumns s ∧
      (∀ c, 0 ≤ c < k → column_wf (zget no_column cols c) (bs_capacity s) ∧
        ∀ i v, 0 ≤ i < bs_capacity s → get c = Ok v →
          validity_at (zget no_column cols c) i = validity_at (column_of s c) i || bool_decide (i = row) && negb v.2 ∧
          value_at (zget no_column cols c) i = (if decide (i = row) then v.1 else value_at (column_of s c) i)) ∧
      ∀ c, k ≤ c < bs_ncolumns s → zget no_column cols c = column_of s c)
    (λ column columns, c ← get column; store_value row column c.1 (negb c.2) columns)
    (bs_ncolumns s) (bs_columns s)) as (cols & -> & Hl & Hcols & _); [lia| | |].
  - split; [done|]. split; [lia|done].
  - intros k cols Hk (Hl & Hdone & Htodo). destruct (Hget k Hk) as (v & E & Hv). rewrite E, bind_Ok.
    destruct (store_value_ok cols (bs_capacity s) k row v.1 (negb v.2)) as (c' & -> & Hwf & Hc');
      [lia|rewrite Htodo by lia; apply sw_columns0; lia|lia|done|].
    eexists; split; [done|]. rewrite length_insert. split; [done|]. rewrite Htodo in Hc' by lia. split.
    + intros c Hc. rewrite zget_insert by lia. case_decide as Ec; [subst c|apply Hdone; lia]. split; [done|].
      intros i v' Hi Ev. assert (v' = v) as -> by congruence. by apply Hc'.
    + intros c Hc. rewrite zget_insert by lia. case_decide; [lia|]. apply Htodo. lia.
  - rewrite bind_Ok. eexists; split; [done|]. split; cbn; rewrite ?length_insert; try done.
    + intros i Hi. unfold link_of. cbn. rewrite zget_insert by lia. fold row.
      by destruct (decide (row = i)), (decide (i = row)); try congruence.
    + intros c Hc. by apply Hcols.
    + intros c i v Hc Hi Ev. by apply (Hcols c Hc).
Qed.

Lemma appended_holds s s' rows hash get (cells : list (option Z)) :
  store_holds s rows → appended s s' hash get → (store_fresh s ∨ Forall is_Some cells) → bs_nrows s < bs_capacity s →
  zlength cells = bs_ncolumns s → (∀ c, 0 ≤ c < bs_ncolumns s → ∃ v, get c = Ok v ∧ got v = zget None cells c) →
  store_holds s' (rows ++ [(hash, cells)]).
Proof.
  intros [] [Hn (Hcap & Hnc & _ & _) Hcl Hll Hhash Hwf Hcell] Hclear Hroom Hcells Hget.
  assert (Hrows : ∀ i r, (rows ++ [(hash, cells)]) !! i = Some r →
    (Z.of_nat i = bs_nrows s ∧ r = (hash, cells)) ∨ (Z.of_nat i < bs_nrows s ∧ rows !! i = Some r)).
  { intros i r [Hr|[Hge Hr]]%lookup_app_Some; [right; pose proof (lookup_lt_Some _ _ _ Hr); split; [lia|done]|left].
    apply list_lookup_singleton_Some in Hr as [Hi <-]. split; [lia|done]. }
  split; rewrite ?Hnc, ?Hcap, ?length_app; cbn [length]; try done; try lia.
  - intros c Hc _. by apply Hwf.
  - intros i r Hr. destruct (Hrows i r Hr) as [[Hi ->]|[Hi Hr']]; rewrite Hhash by lia.
    + by rewrite decide_True.
    + rewrite decide_False by lia. by apply sw_hashes0.
  - intros i r c Hr Hc. destruct (Hget c Hc) as (v & Ev & Hgot). rewrite stored_cell_at.
    destruct (Hrows i r Hr) as [[Hi ->]|[Hi Hr']]; (destruct (Hcell c (Z.of_nat i) v) as [-> ->]; [done|lia|done|]).
    + rewrite bool_decide_eq_true_2, decide_True by done. cbn [andb snd]. rewrite <- Hgot. unfold got.
      destruct v.2 eqn:Enull; cbn [negb]; [|by rewrite orb_true_r]. destruct Hclear as [Hfresh|Hall].
      * rewrite (Hfresh c (Z.of_nat i)) by lia. done.
      * destruct (lookup_lt_is_Some_2 cells (Z.to_nat c)) as [cell Hcc]; [lia|]. eapply Forall_lookup_1 in Hall as [x Hx]; [|done].
        subst cell. unfold zget, got in Hgot. rewrite Hcc, Enull in Hgot. done.
    + rewrite bool_decide_eq_false_2, decide_False by lia. cbn [andb]. rewrite orb_false_r, <- stored_cell_at. by apply sw_cells0.
Qed.

Lemma append_row_ok s rows hash get (cells : list (option Z)) :
  store_holds s rows → (store_fresh s ∨ Forall is_Some cells) → bs_nrows s < bs_capacity s → zlength cells = bs_ncolumns s →
  (∀ c, 0 ≤ c < bs_ncolumns s → ∃ v, get c = Ok v ∧ got v = zget None cells c ∧ is_s32 v.1) →
  ∃ s', append_row s hash get = Ok s' ∧ store_holds s' (rows ++ [(hash, cells)]) ∧ (store_fresh s → store_fresh s') ∧
    bs_capacity s' = bs_capacity s ∧
    bs_ncolumns s' = bs_ncolumns s ∧ bs_hash_shift s' = bs_hash_shift s ∧ bs_has_duplicates s' = bs_has_duplicates s.
Proof.
  intros Hs Hclear Hroom Hcells Hget. pose proof Hs as [].
  destruct (append_row_arrays s rows hash get Hs Hroom) as (s' & -> & Hap).
  { intros c Hc. destruct (Hget c Hc) as (v & ? & _ & ?). by exists v. }
  exists s'. split; [done|]. split.
  { eapply appended_holds; try done. intros c Hc. destruct (Hget c Hc) as (v & ? & ? & _). by exists v. }
  destruct Hap as [Hn (Hcap & Hnc & ? & ?) _ _ _ _ Hcell]. split; [|done].
  intros Hfresh c i Hc Hi. rewrite Hnc in Hc. destruct (Hget c Hc) as (v & Ev & _).
  destruct (Hcell c i v) as [-> _]; [done|lia|done|]. rewrite bool_decide_eq_false_2 by lia. cbn [andb].
  rewrite orb_false_r. apply Hfresh; lia.
Qed.

(** What the columns of an input batch hold in a row. *)
Definition input_ok (n : Z) (input : InputColumn) : Prop := ic_prepared input = true ∧ col_wf (ic_vector input) n.

Lemma input_value_ok n input row :
  input_ok n input → 0 ≤ row < n →
  ∃ v, hash_join_input_value input row = Ok v ∧ got v = cell (ic_vector input) row ∧ is_s32 v.1.
Proof.
  intros [Hp Hc] Hr. unfold hash_join_input_value. rewrite Hp. cbn [assert_].
  rewrite bind_Ok, (row_is_null_ok _ n), bind_Ok by done.
  unfold cell. destruct (cell_null (ic_vector input) row).
  - eexists; split; [done|]. by split.
  - rewrite (row_value_ok _ n), bind_Ok by done. eexists; split; [done|]. split; [done|]. by eapply stored_value_s32.
Qed.

Definition input_cells (columns : list InputColumn) (row : Z) : list (option Z) :=
  (λ c, cell (ic_vector c) row) <$> columns.

Lemma input_get_ok n nc columns row c :
  zlength columns = nc → Forall (input_ok n) columns → 0 ≤ row < n → 0 ≤ c < nc →
  ∃ v, (input ← aref columns c; hash_join_input_value input row) = Ok v ∧
    got v = zget None (input_cells columns row) c ∧ is_s32 v.1.
Proof.
  intros Hl Hcols Hrow Hc. destruct (lookup_lt_is_Some_2 columns (Z.to_nat c)) as [input Hi]; [lia|].
  rewrite (aref_ok input), bind_Ok by lia. unfold zget. rewrite Hi.
  destruct (input_value_ok n input row) as (v & Ev & Hg & Hv); [by eapply Forall_lookup_1|done|].
  exists v. split; [done|]. split; [|done]. unfold input_cells. by rewrite list_lookup_fmap, Hi.
Qed.

(** Room for one more row. *)
Lemma make_room_ok s rows :
  store_holds s rows → zlength rows < max_build_rows →
  ∃ s1, (if bs_nrows s =? bs_capacity s then hash_join_grow_build_store s else Ok s) = Ok s1 ∧
    store_holds s1 rows ∧ (store_fresh s → store_fresh s1) ∧ bs_nrows s1 < bs_capacity s1 ∧ bs_ncolumns s1 = bs_ncolumns s ∧
    bs_hash_shift s1 = bs_hash_shift s ∧ bs_has_duplicates s1 = bs_has_duplicates s.
Proof.
  intros Hs Hmax. pose proof (sw_nrows _ _ Hs). destruct (Z.eqb_spec (bs_nrows s) (bs_capacity s)).
  - destruct (grow_ok s rows Hs) as (s1 & -> & Hs1 & Hfr & Hc & _ & ? & ? & ?); [lia|]. exists s1.
    pose proof (sw_nrows _ _ Hs1). split_and!; (done || lia).
  - exists s. pose proof (sw_room _ _ Hs). split_and!; (done || lia).
Qed.

Lemma append_build_row_ok s rows columns n row hash :
  store_holds s rows → (store_fresh s ∨ Forall is_Some (input_cells columns row)) → zlength rows < max_build_rows →
  zlength columns = bs_ncolumns s → Forall (input_ok n) columns → 0 ≤ row < n →
  ∃ s', append_build_row_hash s columns row hash = Ok s' ∧ store_holds s' (rows ++ [(hash, input_cells columns row)]) ∧
    (store_fresh s → store_fresh s') ∧
    bs_ncolumns s' = bs_ncolumns s ∧ bs_hash_shift s' = bs_hash_shift s ∧ bs_has_duplicates s' = bs_has_duplicates s.
Proof.
  intros Hs Hclear Hmax Hl Hcols Hrow. unfold append_build_row_hash.
  pose proof (make_room_ok s rows Hs Hmax) as Hmk.
  destruct Hmk as (s1 & -> & Hs1 & Hfr & Hroom & Hn & Hh & Hd). rewrite bind_Ok.
  destruct (append_row_ok s1 rows hash (λ column, input ← aref columns column; hash_join_input_value input row)
    (input_cells columns row)) as (s2 & E & Hs2 & Hfr2 & ? & ? & ? & ?); [done| |done| | |].
  - destruct Hclear; auto.
  - unfold input_cells. rewrite length_fmap. lia.
  - intros c Hc. apply (input_get_ok n (bs_ncolumns s)); (done || lia).
  - exists s2. split_and!; (done || congruence || auto).
Qed.
End store.
