(* ===== verification/JoinDirectory.v ===== *)
(** * The build side of the hash join: the directory

    Rows fall in classes (equal hash and equal key prefix).  The directory
    holds, in the first bucket from the class's home on that was free, the last
    row of each class, and every row links to the one of its class before it.
    A lookup therefore finds all rows of a class, latest first; as the hash
    functions are reversible, a class is a key. *)

From S2P Require Import Prelude Words Bytes Selection Vector Kernels Int4 Hash Spill JoinStore JoinStoreProps.

(** ** The last row of a class *)

Section classes.
Context {K : Type} `{EqDecision K} (cls : Z → K).

(** One more than the last row below [m] of class [c], 0 when there is none. *)
Definition last_row (c : K) (m : Z) : Z :=
  foldl (λ acc j, if decide (cls j = c) then j + 1 else acc) 0 (seqZ 0 m).

Lemma last_row_0 c : last_row c 0 = 0.
Proof. done. Qed.

Lemma last_row_succ c m : 0 ≤ m → last_row c (m + 1) = if decide (cls m = c) then m + 1 else last_row c m.
Proof.
  intros Hm. unfold last_row. rewrite (seqZ_app 0 m 1), foldl_app by lia.
  by rewrite Z.add_0_l.
Qed.

Lemma last_row_bounds c m : 0 ≤ m → 0 ≤ last_row c m ≤ m.
Proof.
  intros Hm. revert m Hm. refine (natlike_ind _ _ _); [rewrite last_row_0; lia|].
  intros m Hm IH. unfold Z.succ. rewrite last_row_succ by done. case_decide; lia.
Qed.

Lemma last_row_class c m : 0 ≤ m → last_row c m ≠ 0 → cls (last_row c m - 1) = c.
Proof.
  intros Hm. revert m Hm. refine (natlike_ind _ _ _); [by rewrite last_row_0|].
  intros m Hm IH. unfold Z.succ. rewrite last_row_succ by done. case_decide; [|done].
  intros _. by replace (m + 1 - 1) with m by lia.
Qed.

Lemma last_row_max c m j : 0 ≤ m → 0 ≤ j < m → cls j = c → j + 1 ≤ last_row c m.
Proof.
  intros Hm. revert m Hm j. apply (natlike_ind (λ m, ∀ j, 0 ≤ j < m → cls j = c → j + 1 ≤ last_row c m)); [lia|].
  intros m Hm IH j Hj Hc. unfold Z.succ in *. rewrite last_row_succ by done.
  case_decide; [lia|]. apply IH; [|done]. destruct (decide (j = m)); [congruence|lia].
Qed.

(** ** The directory's invariant *)

Variable home : K → Z.

(** The [d]-th bucket visited for class [c]. *)
Definition visited (n : Z) (c : K) (d : Z) : Z := (home c + d) mod n.

(** The state after the rows below [r]; [next] is what the links hold. *)
Record directory (n r : Z) (buckets : list Z) (next : Z → Z) : Prop := {
  dir_length : zlength buckets = n;
  dir_head : ∀ b, 0 ≤ b < n → zget 0 buckets b ≠ 0 →
    1 ≤ zget 0 buckets b ≤ r ∧ zget 0 buckets b = last_row (cls (zget 0 buckets b - 1)) r;
  dir_class : ∀ b b', 0 ≤ b < n → 0 ≤ b' < n → zget 0 buckets b ≠ 0 → zget 0 buckets b' ≠ 0 →
    cls (zget 0 buckets b - 1) = cls (zget 0 buckets b' - 1) → b = b';
  dir_found : ∀ i, 0 ≤ i < r → ∃ d, 0 ≤ d < n ∧
    zget 0 buckets (visited n (cls i) d) = last_row (cls i) r ∧
    ∀ d', 0 ≤ d' < d → zget 0 buckets (visited n (cls i) d') ≠ 0;
  dir_next : ∀ i, 0 ≤ i < r → next i = last_row (cls i) i;
}.

Lemma directory_empty n next : 0 ≤ n → directory n 0 (replicate (Z.to_nat n) 0) next.
Proof.
  intros Hn. split; try lia.
  - rewrite length_replicate. lia.
  - intros b Hb. by rewrite zget_replicate by lia.
  - intros b b' Hb _. by rewrite zget_replicate by lia.
Qed.

(** Fewer rows than buckets leave a bucket free. *)
Lemma directory_free n r buckets next :
  directory n r buckets next → 0 ≤ r < n → ∃ b, 0 ≤ b < n ∧ zget 0 buckets b = 0.
Proof.
  intros [Hl Hh Hc _ _] Hr. destruct (decide (Exists (λ b, b = 0) buckets)) as [He|He].
  - apply Exists_exists in He as (h & [i Hi]%list_elem_of_lookup & ->). pose proof (lookup_lt_Some _ _ _ Hi).
    exists (Z.of_nat i). split; [lia|]. unfold zget. by rewrite Nat2Z.id, Hi.
  - exfalso. apply not_Exists_Forall in He; [|apply _]. rewrite Forall_lookup in He. cbn beta in He.
    assert (Hat : ∀ i h, buckets !! i = Some h → 0 ≤ Z.of_nat i < n ∧ zget 0 buckets (Z.of_nat i) = h).
    { intros i h Hi. pose proof (lookup_lt_Some _ _ _ Hi). split; [lia|]. unfold zget. by rewrite Nat2Z.id, Hi. }
    assert (Hnd : NoDup buckets).
    { apply NoDup_alt. intros i j h Hi Hj. destruct (Hat i h Hi) as [Hib Hiv], (Hat j h Hj) as [Hjb Hjv].
      pose proof (He i h Hi). apply Nat2Z.inj, Hc; congruence. }
    assert (Hsub : buckets ⊆+ seqZ 1 r).
    { apply NoDup_submseteq; [done|]. intros h [i Hi]%list_elem_of_lookup. destruct (Hat i h Hi) as [Hib <-].
      apply elem_of_seqZ. pose proof (He i _ Hi). destruct (Hh (Z.of_nat i) Hib); [done|]. lia. }
    apply submseteq_length in Hsub. rewrite length_seqZ in Hsub. lia.
Qed.

Lemma visited_range n c d : 0 < n → 0 ≤ visited n c d < n.
Proof. intros. by apply Z.mod_pos_bound. Qed.

(** Every bucket is visited. *)
Lemma visited_all n c b : 0 ≤ b < n → ∃ d, 0 ≤ d < n ∧ visited n c d = b.
Proof.
  intros Hb. exists ((b - home c) mod n). split; [apply Z.mod_pos_bound; lia|].
  unfold visited. rewrite Z.add_mod_idemp_r by lia.
  replace (home c + (b - home c)) with b by lia. by apply Z.mod_small.
Qed.

(** What a search for class [c] stops at. *)
Definition stops (c : K) (head : Z) : bool := (head =? 0) || bool_decide (cls (head - 1) = c).

Lemma stops_true c head : stops c head = true ↔ head = 0 ∨ cls (head - 1) = c.
Proof. unfold stops. rewrite orb_true_iff, Z.eqb_eq, bool_decide_eq_true. done. Qed.

Lemma stops_false c head : stops c head = false → head ≠ 0 ∧ cls (head - 1) ≠ c.
Proof. unfold stops. rewrite orb_false_iff, Z.eqb_neq, bool_decide_eq_false. done. Qed.

(** The bucket a search ends in holds the last row of the class. *)
Lemma directory_search n r buckets next c d :
  directory n r buckets next → 0 ≤ r → 0 ≤ d < n → stops c (zget 0 buckets (visited n c d)) = true →
  (∀ d', 0 ≤ d' < d → stops c (zget 0 buckets (visited n c d')) = false) →
  zget 0 buckets (visited n c d) = last_row c r.
Proof.
  intros [Hl Hh Hc Hf _] Hr Hd Hs Hb. set (head := zget 0 buckets (visited n c d)) in *.
  assert (Hv := visited_range n c d). destruct (decide (head = 0)) as [E|E].
  - destruct (decide (last_row c r = 0)) as [->|Hne]; [done|]. exfalso.
    pose proof (last_row_bounds c r Hr). pose proof (last_row_class c r Hr Hne) as Hcls.
    destruct (Hf (last_row c r - 1)) as (d0 & Hd0 & Hat & Hbefore); [lia|]. rewrite Hcls in Hat, Hbefore.
    destruct (Z.lt_trichotomy d d0) as [Hlt|[->|Hlt]]; [by eapply (Hbefore d); [lia|]|subst head; lia|].
    destruct (stops_false _ _ (Hb d0 ltac:(lia))) as [_ Hb']. by rewrite Hat in Hb'.
  - apply stops_true in Hs as [|Hs]; [done|]. destruct (Hh (visited n c d)) as [_ Hlast]; [lia|done|].
    fold head in Hlast. by rewrite Hs in Hlast.
Qed.

(** Entering row [r] in the bucket its search ends in. *)
Lemma directory_insert n r buckets next next' d :
  directory n r buckets next → 0 ≤ r → 0 ≤ d < n →
  stops (cls r) (zget 0 buckets (visited n (cls r) d)) = true →
  (∀ d', 0 ≤ d' < d → stops (cls r) (zget 0 buckets (visited n (cls r) d')) = false) →
  (∀ i, 0 ≤ i < r → next' i = next i) → next' r = zget 0 buckets (visited n (cls r) d) →
  directory n (r + 1) (<[Z.to_nat (visited n (cls r) d) := r + 1]> buckets) next'.
Proof.
  intros Hdir Hr Hd Hs Hb Hold Hnew. pose proof (directory_search _ _ _ _ _ _ Hdir Hr Hd Hs Hb) as Hhead.
  pose proof Hdir as [Hl Hh Hc Hf Hn]. set (c := cls r) in *. set (b := visited n c d) in *.
  assert (Hv : 0 ≤ b < n) by (apply visited_range; lia).
  (* another bucket holds another class *)
  assert (Hother : ∀ b', 0 ≤ b' < n → b' ≠ b → zget 0 buckets b' ≠ 0 → cls (zget 0 buckets b' - 1) ≠ c).
  { intros b' Hb' Hne Hz Ec. destruct (Hh b' Hb' Hz) as [Hrange _].
    pose proof (last_row_max c r (zget 0 buckets b' - 1) Hr ltac:(lia) Ec).
    apply Hne, Hc; [done|done|done|lia|]. rewrite Hhead, Ec. symmetry. apply last_row_class; lia. }
  split.
  - by rewrite length_insert.
  - intros b' Hb'. rewrite zget_insert by lia. case_decide as E.
    + intros _. split; [lia|]. replace (r + 1 - 1) with r by lia. by rewrite last_row_succ, decide_True.
    + intros Hz. destruct (Hh b' Hb' Hz) as [? Hlast]. split; [lia|].
      pose proof (Hother b' Hb' (not_eq_sym E) Hz). rewrite last_row_succ, decide_False by (done || (fold c; congruence)). done.
  - intros b1 b2 Hb1 Hb2. rewrite !zget_insert by lia.
    destruct (decide (b = b1)) as [E1|E1], (decide (b = b2)) as [E2|E2]; replace (r + 1 - 1) with r by lia; intros Hz1 Hz2 E.
    + congruence.
    + exfalso. by apply (Hother b2 Hb2 (not_eq_sym E2) Hz2).
    + exfalso. by apply (Hother b1 Hb1 (not_eq_sym E1) Hz1).
    + by apply Hc.
  - intros i Hi. destruct (decide (cls i = c)) as [Ec|Ec].
    + exists d. split; [done|]. rewrite Ec. fold b. split.
      * rewrite zget_insert_eq by lia. by rewrite last_row_succ, decide_True.
      * intros d' Hd'. pose proof (visited_range n c d'). rewrite zget_insert by lia. case_decide; [lia|].
        by apply (stops_false c), Hb.
    + destruct (Hf i) as (d0 & Hd0 & Hat & Hbefore); [destruct (decide (i = r)); [by subst i|lia]|].
      exists d0. split; [done|]. pose proof (visited_range n (cls i) d0). split.
      * rewrite zget_insert by lia. case_decide as E.
        -- exfalso. assert (Hir : i < r) by (destruct (decide (i = r)); [by subst i|lia]).
           rewrite <- E, Hhead in Hat. pose proof (last_row_max (cls i) r i Hr ltac:(lia) eq_refl).
           pose proof (last_row_class (cls i) r Hr ltac:(lia)) as H1.
           pose proof (last_row_class c r Hr ltac:(lia)) as H2. rewrite Hat, H1 in H2. by apply Ec.
        -- rewrite Hat, last_row_succ, decide_False by (done || (fold c; congruence)). done.
      * intros d' Hd'. pose proof (visited_range n (cls i) d'). rewrite zget_insert by lia. case_decide; [lia|auto].
  - intros i Hi. destruct (decide (i = r)) as [->|].
    + by rewrite Hnew.
    + rewrite Hold by lia. apply Hn. lia.
Qed.

(** The rows of a class below [m], latest first. *)
Definition class_rows (c : K) (m : Z) : list Z := reverse (filter (λ i, cls i = c) (seqZ 0 m)).

Lemma class_rows_succ c m :
  0 ≤ m → class_rows c (m + 1) = if decide (cls m = c) then m :: class_rows c m else class_rows c m.
Proof.
  intros Hm. unfold class_rows. rewrite seqZ_app, filter_app, reverse_app by lia. rewrite Z.add_0_l.
  change (seqZ m 1) with [m]. rewrite filter_cons, filter_nil. by case_decide.
Qed.
End classes.

(** ** Walking the buckets *)

Lemma land_mask x k : 0 ≤ k → Z.land x (2 ^ k - 1) = x mod 2 ^ k.
Proof. intros. rewrite <- Z.land_ones by done. by rewrite Z.ones_equiv, <- Z.sub_1_r. Qed.

(** [k] for the number of buckets 2^k. *)
Definition bucket_bits (s : BuildStore) (k : Z) : Prop :=
  0 ≤ k ≤ 31 ∧ bs_nbuckets s = 2 ^ k ∧ zlength (bs_buckets s) = 2 ^ k.

Lemma probe_buckets_ok s k stop p start d fuel :
  bucket_bits s k →
  (∀ b, 0 ≤ b < 2 ^ k → stop (zget 0 (bs_buckets s) b) = Ok (p (zget 0 (bs_buckets s) b))) →
  p (zget 0 (bs_buckets s) ((start + Z.of_nat d) mod 2 ^ k)) = true →
  (∀ d', 0 ≤ d' < Z.of_nat d → p (zget 0 (bs_buckets s) ((start + d') mod 2 ^ k)) = false) →
  (d < fuel)%nat →
  probe_buckets fuel s stop (start mod 2 ^ k) = Ok ((start + Z.of_nat d) mod 2 ^ k).
Proof.
  intros (Hk & Hn & Hl) Hstop. assert (Hpos : 0 < 2 ^ k) by (apply Z.pow_pos_nonneg; lia).
  pose proof (Z.pow_le_mono_r 2 k 31). revert start fuel. induction d as [|d IH]; intros start fuel Hat Hbefore Hfuel;
    (destruct fuel as [|fuel]; [lia|]); cbn [probe_buckets];
    assert (0 ≤ start mod 2 ^ k < 2 ^ k) by (apply Z.mod_pos_bound; lia);
    rewrite (aref_ok 0), bind_Ok, Hstop, bind_Ok by lia.
  - rewrite Z.add_0_r in Hat |- *. by rewrite Hat.
  - pose proof (Hbefore 0 ltac:(lia)) as E0. rewrite Z.add_0_r in E0. rewrite E0.
    replace (Z.land (to_u32 (start mod 2 ^ k + 1)) (bs_nbuckets s - 1)) with ((start + 1) mod 2 ^ k).
    + replace (start + Z.of_nat (S d)) with ((start + 1) + Z.of_nat d) in Hat |- * by lia.
      apply IH; [done| |lia]. intros d' Hd'. rewrite <- Z.add_assoc. apply Hbefore. lia.
    + rewrite Hn, land_mask by lia. unfold to_u32. rewrite (Z.mod_small _ (2 ^ 32)) by lia.
      by rewrite Z.add_mod_idemp_l by lia.
Qed.

(** ** Building the directory *)

Section build.
Context `{PgCore}.

Definition stored_key (s : BuildStore) (row column : Z) : Z := zget 0 (sc_values (column_of s column)) row.
Definition row_class (s : BuildStore) (inner_keys : list Z) (row : Z) : Z * list Z :=
  (bl_hash (link_of s row), stored_key s row <$> key_prefix inner_keys).
Definition class_home (shift : Z) (c : Z * list Z) : Z := Z.shiftr c.1 shift.
Definition next_of (s : BuildStore) (row : Z) : Z := bl_next (link_of s row).

Lemma stored_value_at_ok s rows column row :
  store_holds s rows → 0 ≤ column < bs_ncolumns s → 0 ≤ row < bs_nrows s →
  stored_value_at s column row = Ok (stored_key s row column).
Proof.
  intros Hs Hc Hr. pose proof Hs as []. unfold stored_value_at. rewrite (aref_ok no_column), bind_Ok by lia.
  apply aref_ok. fold (column_of s column). destruct (sw_columns column) as [-> _ _ _]; lia.
Qed.

Lemma values_equal_ok left right f g cols :
  Forall (λ c, left c = Ok (f c) ∧ right c = Ok (g c)) cols →
  values_equal left right cols = Ok (bool_decide (f <$> cols = g <$> cols)).
Proof.
  induction 1 as [|c cols [Hl Hr] _ IH]; [done|]. cbn. rewrite Hl, bind_Ok, Hr, bind_Ok.
  destruct (Z.eqb_spec (f c) (g c)) as [->|Hne]; cbn [negb].
  - rewrite IH. f_equal. apply bool_decide_ext. split; [by intros ->|by intros [= ?]].
  - rewrite bool_decide_eq_false_2; [done|]. by intros [= ? _].
Qed.

(** The state of the loop over the rows: the rows below [r] are entered. *)
Record filling (keys : list Z) (rows : list build_row) (cls : Z → Z * list Z) (shift k : Z) (dup : bool)
    (r : Z) (s : BuildStore) : Prop := {
  fl_wf : store_holds s rows;
  fl_bits : bucket_bits s k;
  fl_rows : zlength rows < 2 ^ k;
  fl_keys : Forall (λ c, 0 ≤ c < bs_ncolumns s) keys;
  fl_class : ∀ i, 0 ≤ i < zlength rows → row_class s keys i = cls i;
  fl_shift : bs_hash_shift s = shift;
  fl_directory : directory cls (class_home shift) (2 ^ k) r (bs_buckets s) (next_of s);
  fl_duplicates : bs_has_duplicates s = dup || existsb (λ i, negb (last_row cls (cls i) i =? 0)) (seqZ 0 r);
}.

(** The row of a bucket has the class the code compares it with. *)
Lemma filling_stop keys rows cls shift k dup r s row b :
  filling keys rows cls shift k dup r s → 0 ≤ row < zlength rows → r ≤ zlength rows → 0 ≤ b < 2 ^ k →
  let head := zget 0 (bs_buckets s) b in
  (if head =? 0 then Ok true else
   first ← aref (bs_links s) (head - 1);
   if bl_hash first =? bl_hash (link_of s row) then build_keys_equal s keys (head - 1) row else Ok false) =
  Ok (stops cls (cls row) head).
Proof.
  intros Hf Hrow Hr Hb head. pose proof Hf as []. unfold stops. pose proof fl_wf0 as [].
  destruct (Z.eqb_spec head 0) as [|Hne]; [done|]. cbn [orb].
  destruct (dir_head _ _ _ _ _ _ fl_directory0 b Hb Hne) as [Hhead _]. fold head in Hhead.
  rewrite (aref_ok no_link), bind_Ok by lia. fold (link_of s (head - 1)).
  rewrite <- (fl_class0 (head - 1)), <- (fl_class0 row) by lia. unfold row_class.
  destruct (Z.eqb_spec (bl_hash (link_of s (head - 1))) (bl_hash (link_of s row))) as [->|Hh].
  - unfold build_keys_equal. rewrite (values_equal_ok _ _ (stored_key s (head - 1)) (stored_key s row)).
    + f_equal. apply bool_decide_ext. split; [by intros ->|by intros [= ?]].
    + unfold key_prefix. apply Forall_take, (Forall_impl _ _ _ fl_keys0). intros c Hc.
      by rewrite !(stored_value_at_ok s rows) by (done || lia).
  - rewrite bool_decide_eq_false_2; [done|]. by intros [= ? _].
Qed.

(** Some bucket stops the search: one is free. *)
Lemma filling_search keys rows cls shift k dup r s (c : Z * list Z) :
  filling keys rows cls shift k dup r s → 0 ≤ r ≤ zlength rows →
  ∃ d, 0 ≤ d < 2 ^ k ∧ stops cls c (zget 0 (bs_buckets s) (visited (class_home shift) (2 ^ k) c d)) = true ∧
    ∀ d', 0 ≤ d' < d → stops cls c (zget 0 (bs_buckets s) (visited (class_home shift) (2 ^ k) c d')) = false.
Proof.
  intros Hf Hr. pose proof Hf as []. apply (first_index (λ d, stops cls c (zget 0 (bs_buckets s) (visited (class_home shift) (2 ^ k) c d)))).
  destruct (directory_free _ _ _ _ _ _ fl_directory0) as (b & Hb & Hz); [lia|].
  destruct (visited_all (class_home shift) (2 ^ k) c b Hb) as (d & Hd & <-). exists d. split; [done|].
  apply stops_true. by left.
Qed.

Lemma insert_row_ok keys rows cls shift k dup r s :
  filling keys rows cls shift k dup r s → 0 ≤ r < zlength rows → zlength rows < 2 ^ 32 - 1 →
  ∃ s', insert_row keys r s = Ok s' ∧ filling keys rows cls shift k dup (r + 1) s'.
Proof.
  intros Hf Hr Hmax. destruct (filling_search _ _ _ _ _ _ _ _ (cls r) Hf) as (d & Hd & Hat & Hbefore); [lia|].
  pose proof Hf as []. pose proof fl_wf0 as []. pose proof fl_bits0 as (Hk & Hn & Hl).
  unfold insert_row. rewrite (aref_ok no_link), bind_Ok by lia. fold (link_of s r).
  assert (Hhome : home_bucket s (bl_hash (link_of s r)) = class_home shift (cls r) mod 2 ^ k).
  { unfold home_bucket, class_home. by rewrite <- fl_class0, Hn, land_mask, fl_shift0 by lia. }
  rewrite Hhome. rewrite (probe_buckets_ok s k _ (stops cls (cls r)) (class_home shift (cls r)) (Z.to_nat d)).
  2: done. 2: intros b Hb; eapply filling_stop; [exact Hf|lia|lia|done].
  2: by rewrite Z2Nat.id by lia. 2: intros d' Hd'; apply Hbefore; lia. 2: lia.
  rewrite bind_Ok, Z2Nat.id by lia. fold (visited (class_home shift) (2 ^ k) (cls r) d).
  set (b := visited (class_home shift) (2 ^ k) (cls r) d) in *.
  assert (Hb : 0 ≤ b < 2 ^ k) by (apply visited_range; lia).
  rewrite (aref_ok 0), bind_Ok, !aset_ok, !bind_Ok by lia. set (head := zget 0 (bs_buckets s) b).
  assert (Hlast : head = last_row cls (cls r) r) by (by eapply directory_search; [exact fl_directory0|lia| | |]).
  eexists; split; [done|].
  assert (Hlink : ∀ i, 0 ≤ i → zget no_link (<[Z.to_nat r := mkLink (bl_hash (link_of s r)) head]> (bs_links s)) i =
    if decide (r = i) then mkLink (bl_hash (link_of s r)) head else link_of s i).
  { intros i Hi. by rewrite zget_insert by lia. }
  split; cbn; try done.
  - split; cbn; rewrite ?length_insert; try done. intros i row Hi. unfold link_of at 1. cbn.
    rewrite Hlink by lia. case_decide as E; [|by apply sw_hashes]. cbn. rewrite E. by apply sw_hashes.
  - split; [done|]. split; [done|]. cbn. by rewrite length_insert.
  - intros i Hi. rewrite <- fl_class0 by done. unfold row_class, link_of. cbn. rewrite Hlink by lia.
    case_decide as E; [by subst i|done].
  - unfold to_u32. rewrite Z.mod_small by lia. eapply directory_insert; [exact fl_directory0|lia|done|done|done| |].
    + intros i Hi. unfold next_of, link_of. cbn. rewrite Hlink, decide_False by lia. done.
    + unfold next_of, link_of. cbn. by rewrite Hlink, decide_True by lia.
  - rewrite (seqZ_app 0 r 1), existsb_app, orb_assoc, <- fl_duplicates0, Z.add_0_l by lia.
    change (seqZ r 1) with [r]. cbn [existsb]. by rewrite orb_false_r, Hlast.
Qed.
End build.

(** ** Keys and hashes *)

(** The hash of a row's keys, as [pg_batch_hash_int4] folds them. *)
Definition keys_hash `{PgCore} (vs : list Z) : Z :=
  match vs with
  | [] => 0
  | v :: vs => foldl (λ h v, hash_combine h (murmurhash32 (to_u32 v))) (murmurhash32 (to_u32 v)) vs
  end.

(** What the comment in [build_keys_equal] relies on. *)
Class ReversibleHash `{PgCore} : Prop := {
  murmurhash32_inj v w : is_u32 v → is_u32 w → murmurhash32 v = murmurhash32 w → v = w;
  hash_combine_inj a b b' : is_u32 a → is_u32 b → is_u32 b' → hash_combine a b = hash_combine a b' → b = b';
}.

Lemma to_u32_inj v w : is_s32 v → is_s32 w → to_u32 v = to_u32 w → v = w.
Proof. unfold is_s32, to_u32. intros. zlia. Qed.

Section keys.
Context `{PgCore}.

Lemma fold_hash_range vs h :
  is_u32 h → is_u32 (foldl (λ h v, hash_combine h (murmurhash32 (to_u32 v))) h vs).
Proof.
  revert h. induction vs as [|v vs IH]; intros h Hh; [done|].
  apply IH, hash_combine_range; [done|]. apply murmurhash32_range, to_u32_range.
Qed.

Lemma keys_hash_range vs : is_u32 (keys_hash vs).
Proof. destruct vs as [|v vs]; [done|]. apply fold_hash_range, murmurhash32_range, to_u32_range. Qed.

Lemma keys_hash_snoc vs v :
  keys_hash (vs ++ [v]) = match vs with
                          | [] => murmurhash32 (to_u32 v)
                          | _ => hash_combine (keys_hash vs) (murmurhash32 (to_u32 v))
                          end.
Proof. destruct vs as [|u vs]; [done|]. cbn. by rewrite foldl_app. Qed.

Lemma row_hash_keys (keys : list PgBatchInt4Vector) row :
  row_hash keys row = keys_hash ((λ k, stored_value k row) <$> keys).
Proof. destruct keys as [|k keys]; [done|]. cbn. by rewrite list.foldl_fmap. Qed.

(** Equal hashes and equal key prefixes prove the last keys equal. *)
Lemma same_class_keys `{!ReversibleHash} vs ws :
  length vs = length ws → Forall is_s32 vs → Forall is_s32 ws →
  (keys_hash vs, key_prefix vs) = (keys_hash ws, key_prefix ws) ↔ vs = ws.
Proof.
  intros Hl Hv Hw. split; [|by intros ->]. destruct vs as [|v vs _] using rev_ind.
  { by destruct ws. }
  destruct ws as [|w ws _] using rev_ind; [rewrite length_app in Hl; cbn in Hl; lia|].
  unfold key_prefix. rewrite !length_app, !Nat.add_sub, !take_app_length, !keys_hash_snoc. intros [= E ->].
  apply Forall_app in Hv as [_ [Hv _]%Forall_cons], Hw as [_ [Hw _]%Forall_cons].
  assert (murmurhash32 (to_u32 v) = murmurhash32 (to_u32 w)) as Em.
  { destruct ws; [done|]. eapply hash_combine_inj; [apply keys_hash_range| | |exact E]; apply murmurhash32_range, to_u32_range. }
  by rewrite (to_u32_inj v w) by (done || by apply murmurhash32_inj; [apply to_u32_range..|]).
Qed.

(** The keys of a stored row. *)
Definition row_keys (inner_keys : list Z) (row : build_row) : list (option Z) := zget None row.2 <$> inner_keys.

(** Rows are stored with all keys present and with the hash of their keys. *)
Definition keyed (inner_keys : list Z) (row : build_row) : Prop :=
  ∃ vs, row_keys inner_keys row = Some <$> vs ∧ Forall is_s32 vs ∧ row.1 = keys_hash vs.

(** The rows with the keys [vs], latest first. *)
Definition matching_rows (inner_keys : list Z) (rows : list build_row) (vs : list Z) : list Z :=
  reverse (filter (λ i, row_keys inner_keys <$> rows !! Z.to_nat i = Some (Some <$> vs)) (seqZ 0 (zlength rows))).

(** Following the links from a head: the rows a lane of [probe_round] emits. *)
Fixpoint build_chain (fuel : nat) (s : BuildStore) (link : Z) : res (list Z) :=
  if link =? 0 then Ok [] else
  match fuel with
  | O => Undefined
  | S fuel =>
      first ← aref (bs_links s) (link - 1);
      rest ← build_chain fuel s (bl_next first);
      Ok (link - 1 :: rest)
  end.

Lemma stored_cell_key s row column v :
  stored_cell (column_of s column) row = Some v → stored_key s row column = v.
Proof. unfold stored_cell, stored_key. by destruct (validity_at _ _); intros [= <-]. Qed.

Lemma key_prefix_fmap {A B} (f : A → B) l : key_prefix (f <$> l) = f <$> key_prefix l.
Proof. unfold key_prefix. by rewrite length_fmap, fmap_take. Qed.

(** The class of a stored row is its hash and its keys but the last. *)
Lemma row_class_keys s rows keys i row vs :
  store_holds s rows → Forall (λ c, 0 ≤ c < bs_ncolumns s) keys → rows !! i = Some row →
  row_keys keys row = Some <$> vs → row.1 = keys_hash vs →
  row_class s keys (Z.of_nat i) = (keys_hash vs, key_prefix vs).
Proof.
  intros [] Hk Hi Hvs Hh. unfold row_class. rewrite (sw_hashes _ _ Hi), Hh. f_equal.
  rewrite <- key_prefix_fmap. f_equal. apply list_eq. intros j.
  assert (Hj : row_keys keys row !! j = Some <$> vs !! j) by by rewrite Hvs, list_lookup_fmap.
  unfold row_keys in Hj. rewrite list_lookup_fmap in Hj. rewrite list_lookup_fmap. destruct (keys !! j) as [c|] eqn:Ec; cbn in *.
  - destruct (vs !! j) as [v|]; [|done]. injection Hj as Hv. f_equal. apply stored_cell_key.
    rewrite <- Hv. apply sw_cells; [done|]. by eapply Forall_lookup_1 in Hk.
  - by destruct (vs !! j).
Qed.

(** The chain from the last row of a class lists the class. *)
Lemma build_chain_ok {K} `{EqDecision K} (cls : Z → K) s rows n c m :
  store_holds s rows → (∀ i, 0 ≤ i < zlength rows → next_of s i = last_row cls (cls i) i) →
  0 ≤ m ≤ zlength rows → m ≤ Z.of_nat n → build_chain n s (last_row cls c m) = Ok (class_rows cls c m).
Proof.
  intros Hs Hnext [Hm Hle] Hn. pose proof Hs as []. revert n Hn c Hle. pattern m. revert m Hm.
  refine (natlike_ind _ _ _); [by intros [|n] _ c _|]. intros m Hm IH n Hn c Hle. unfold Z.succ in *.
  rewrite last_row_succ, class_rows_succ by done. case_decide as E; [|apply IH; lia].
  destruct n as [|n]; [lia|]. cbn [build_chain]. destruct (Z.eqb_spec (m + 1) 0); [lia|].
  rewrite Z.add_simpl_r, (aref_ok no_link), bind_Ok by lia. fold (link_of s m). fold (next_of s m).
  by rewrite Hnext, E, IH by lia.
Qed.

(** ** Looking keys up *)

(** The row of a probe batch holds the key values [vs] in the outer columns. *)
Definition probe_keys (n : Z) (columns : list InputColumn) (row : Z) (outer_keys vs : list Z) : Prop :=
  0 ≤ row < n ∧
  Forall2 (λ c v, 0 ≤ c ∧ ∃ input, columns !! Z.to_nat c = Some input ∧ input_ok n input ∧
    cell (ic_vector input) row = Some v) outer_keys vs.

Lemma probe_keys_s32 n columns row outer vs : probe_keys n columns row outer vs → Forall is_s32 vs.
Proof.
  intros [Hr Hk]. eapply Forall2_Forall_r; [exact Hk|]. apply Forall_forall.
  intros c _ v (_ & input & _ & [_ Hc] & Hv). by eapply cell_s32.
Qed.

Lemma probe_key_ok n columns row c v :
  0 ≤ row < n → 0 ≤ c → (∃ input, columns !! Z.to_nat c = Some input ∧ input_ok n input ∧
    cell (ic_vector input) row = Some v) → probe_key columns row c = Ok v.
Proof.
  intros Hr Hc (input & Hi & Hok & Hv). unfold probe_key, aref. destruct (Z.ltb_spec c 0); [lia|]. rewrite Hi, bind_Ok.
  destruct (input_value_ok n input row Hok Hr) as ([u isnull] & -> & Hg & _). rewrite bind_Ok. rewrite Hv in Hg.
  unfold got in Hg. cbn in *. destruct isnull; [done|]. by injection Hg as ->.
Qed.

Lemma probe_matches_ok s rows n columns probe_row build_row (keys : list (Z * Z)) vs :
  store_holds s rows → Forall (λ c, 0 ≤ c < bs_ncolumns s) keys.*1 → 0 ≤ build_row < bs_nrows s →
  probe_keys n columns probe_row keys.*2 vs →
  probe_matches s keys columns build_row probe_row = Ok (bool_decide (stored_key s build_row <$> keys.*1 = vs)).
Proof.
  intros Hs Hin Hb [Hr Hk]. revert vs Hk. induction keys as [|[inner outer] keys IH]; intros vs Hk; cbn in *.
  { by apply Forall2_nil_inv_l in Hk as ->. }
  apply Forall2_cons_inv_l in Hk as (v & vs' & [Hc Hv] & Hk & ->). apply Forall_cons in Hin as [Hi Hin].
  rewrite (probe_key_ok n _ _ _ v), bind_Ok, (stored_value_at_ok s rows), bind_Ok by done.
  destruct (Z.eqb_spec (stored_key s build_row inner) v) as [->|Hne].
  - rewrite (IH Hin _ Hk). f_equal. apply bool_decide_ext. split; [by intros ->|by intros [= ?]].
  - rewrite bool_decide_eq_false_2; [done|]. by intros [= ? _].
Qed.
End keys.

Section lookup.
Context `{PgCore}.

Lemma bucket_count_ok nrows fuel j :
  10 ≤ j ≤ 27 → nrows ≤ max_build_rows → 27 - j ≤ Z.of_nat fuel →
  ∃ k, bucket_count_loop fuel nrows (2 ^ j) = Ok (2 ^ k) ∧ j ≤ k ≤ 27 ∧ nrows * 2 ≤ 2 ^ k.
Proof.
  intros Hj Hn. revert j Hj. induction fuel as [|fuel IH]; intros j Hj Hf; unfold max_build_rows in Hn;
    pose proof (Z.pow_le_mono_r 2 j 27); cbn [bucket_count_loop]; change ((2 ^ 32 - 1) / 2 + 1) with (2 ^ 31);
    destruct (Z.ltb_spec (2 ^ j) (nrows * 2)); cbn [andb].
  - replace j with 27 in * by lia. lia.
  - exists j. split; [done|lia].
  - destruct (Z.ltb_spec (2 ^ j) (2 ^ 31)); [|lia]. assert (j ≠ 27) by (intros ->; lia).
    pose proof (Z.pow_le_mono_r 2 (j + 1) 27). rewrite Z.shiftl_mul_pow2 by lia.
    replace (to_u32 (2 ^ j * 2 ^ 1)) with (2 ^ (j + 1)).
    + destruct (IH (j + 1)) as (k & -> & ? & ?); [lia|lia|]. exists k. split; [done|lia].
    + unfold to_u32. rewrite <- Z.pow_add_r, Z.mod_small by lia. done.
  - exists j. split; [done|lia].
Qed.

Lemma finish_filling s rows keys :
  store_holds s rows → Forall (λ c, 0 ≤ c < bs_ncolumns s) keys →
  ∃ s' k, hash_join_finish_build_table s keys = Ok s' ∧ bs_ncolumns s' = bs_ncolumns s ∧
    filling keys rows (row_class s keys) (bs_hash_shift s) k (bs_has_duplicates s) (zlength rows) s'.
Proof.
  intros Hs Hkeys. pose proof Hs as []. pose proof (capacity_bounds _ sw_capacity) as (Hcap & _).
  destruct (bucket_count_ok (bs_nrows s) 32 10) as (k & E & Hk & Hle); [lia|unfold max_build_rows; lia|lia|].
  unfold hash_join_finish_build_table, choose_bucket_count. change 1024 with (2 ^ 10). rewrite E, bind_Ok.
  pose proof (Z.pow_le_mono_r 2 k 27). pose proof (Z.pow_le_mono_r 2 10 k).
  rewrite check_alloc_ok, bind_Ok by (unfold MaxAllocSize; lia). cbv zeta. cbn [bs_nrows].
  destruct (for_inv (λ r s', filling keys rows (row_class s keys) (bs_hash_shift s) k (bs_has_duplicates s) r s' ∧
      bs_ncolumns s' = bs_ncolumns s)
    (insert_row keys) (bs_nrows s) (mkStore (bs_columns s) (bs_links s) (replicate (Z.to_nat (2 ^ k)) 0) (bs_ncolumns s)
      (bs_nrows s) (bs_capacity s) (2 ^ k) (bs_hash_shift s) (bs_has_duplicates s))) as (s' & -> & Hf & Hn).
  - lia.
  - split; [|done]. split; cbn; try done.
    + split; [lia|]. split; [done|]. cbn. rewrite length_replicate. lia.
    + lia.
    + apply directory_empty. lia.
    + by rewrite orb_false_r.
  - intros r s' Hr [Hf Hn]. destruct (insert_row_ok _ _ _ _ _ _ _ _ Hf) as (s2 & E2 & Hf2); [lia|lia|].
    exists s2. split; [done|]. split; [done|]. unfold insert_row in E2. inv_ok. by subst s2.
  - exists s', k. split; [done|]. split; [done|]. by rewrite <- sw_nrows.
Qed.

Lemma find_build_head_ok keys rows cls shift k dup s n columns probe_row vs (all : list (Z * Z)) :
  filling keys rows cls shift k dup (zlength rows) s → all.*1 = keys → zlength rows < 2 ^ 32 - 1 →
  probe_keys n columns probe_row all.*2 vs →
  find_build_head s all columns (keys_hash vs) probe_row =
    Ok (last_row cls (keys_hash vs, key_prefix vs) (zlength rows)).
Proof.
  intros Hf Hall Hmax Hprobe. set (c := (keys_hash vs, key_prefix vs)).
  destruct (filling_search _ _ _ _ _ _ _ _ c Hf) as (d & Hd & Hat & Hbefore); [lia|].
  pose proof Hf as []. pose proof fl_wf0 as []. pose proof fl_bits0 as (Hk & Hn & Hl).
  unfold find_build_head. replace (home_bucket s (keys_hash vs)) with (class_home shift c mod 2 ^ k)
    by (unfold home_bucket; by rewrite Hn, land_mask, fl_shift0 by lia).
  rewrite (probe_buckets_ok s k _ (stops cls c) (class_home shift c) (Z.to_nat d)); [|done| |by rewrite Z2Nat.id by lia| |lia].
  - rewrite bind_Ok, Z2Nat.id by lia. pose proof (visited_range (class_home shift) (2 ^ k) c d) as Hv. unfold visited in Hv.
    rewrite (aref_ok 0) by lia. f_equal. by eapply directory_search; [exact fl_directory0|lia| | |].
  - intros b Hb. unfold stops. set (head := zget 0 (bs_buckets s) b).
    destruct (Z.eqb_spec head 0) as [|Hne]; [done|]. cbn [orb].
    destruct (dir_head _ _ _ _ _ _ fl_directory0 b Hb Hne) as [Hhead _]. fold head in Hhead.
    rewrite (aref_ok no_link), bind_Ok by lia. fold (link_of s (head - 1)).
    rewrite <- (fl_class0 (head - 1)) by lia. unfold row_class, c.
    destruct (Z.eqb_spec (bl_hash (link_of s (head - 1))) (keys_hash vs)) as [->|Hh].
    + subst keys.
      rewrite (probe_matches_ok s rows n columns probe_row (head - 1) (key_prefix all) (key_prefix vs)); [|done| |lia|].
      * rewrite key_prefix_fmap. f_equal. apply bool_decide_ext. split; [by intros ->|by intros [= ?]].
      * rewrite <- key_prefix_fmap. by apply Forall_take.
      * destruct Hprobe as [Hr Hvs]. split; [done|]. rewrite <- key_prefix_fmap. unfold key_prefix.
        rewrite <- (Forall2_length _ _ _ Hvs). by apply Forall2_take.
    + rewrite bool_decide_eq_false_2; [done|]. by intros [= ? _].
  - intros d' Hd'. apply Hbefore. lia.
Qed.

(** Two rows of the same class. *)
Lemma duplicates_ok {K} `{EqDecision K} (cls : Z → K) m :
  0 ≤ m → existsb (λ i, negb (last_row cls (cls i) i =? 0)) (seqZ 0 m) = negb (bool_decide (NoDup (cls <$> seqZ 0 m))).
Proof.
  revert m. refine (natlike_ind _ _ _); [done|]. intros m Hm IH. unfold Z.succ.
  rewrite (seqZ_app 0 m 1), existsb_app, fmap_app, IH, Z.add_0_l by lia. change (seqZ m 1) with [m]. cbn [existsb].
  rewrite orb_false_r, <- negb_andb. f_equal. change (cls <$> [m]) with [cls m].
  assert (Hlast : last_row cls (cls m) m = 0 ↔ cls m ∉ cls <$> seqZ 0 m).
  { split.
    - intros Hz (j & Ej & Hj%elem_of_seqZ)%list_elem_of_fmap.
      pose proof (last_row_max cls (cls m) m j Hm ltac:(lia) (eq_sym Ej)). lia.
    - intros Hno. destruct (decide (last_row cls (cls m) m = 0)) as [|Hne]; [done|]. exfalso. apply Hno, list_elem_of_fmap.
      exists (last_row cls (cls m) m - 1). split; [by rewrite last_row_class|].
      pose proof (last_row_bounds cls (cls m) m Hm). apply elem_of_seqZ. lia. }
  apply eq_true_iff_eq. rewrite andb_true_iff, !bool_decide_eq_true, Z.eqb_eq, Hlast, NoDup_app.
  pose proof (NoDup_singleton (cls m)). set_solver.
Qed.

(** The last row is the head of the chain. *)
Lemma matching_class `{!ReversibleHash} s rows keys vs :
  store_holds s rows → Forall (λ c, 0 ≤ c < bs_ncolumns s) keys → Forall (keyed keys) rows →
  length vs = length keys → Forall is_s32 vs →
  class_rows (row_class s keys) (keys_hash vs, key_prefix vs) (zlength rows) = matching_rows keys rows vs.
Proof.
  intros Hs Hk Hkeyed Hl Hv. unfold class_rows, matching_rows. f_equal. apply list_filter_iff'.
  intros i Hi%elem_of_seqZ. destruct (lookup_lt_is_Some_2 rows (Z.to_nat i)) as [row Hrow]; [lia|]. rewrite Hrow. cbn.
  pose proof Hkeyed as Hws. eapply Forall_lookup_1 in Hws as (ws & Ews & Hws & Hh); [|done].
  assert (length ws = length keys) by (apply (f_equal length) in Ews; unfold row_keys in Ews; by rewrite !length_fmap in Ews).
  replace i with (Z.of_nat (Z.to_nat i)) at 1 by lia. rewrite (row_class_keys s rows keys _ row ws), Ews by done.
  rewrite same_class_keys by (done || lia). split; [by intros ->|]. intros [= E%(inj (fmap Some))]. done.
Qed.

Lemma keyed_length keys row vs : row_keys keys row = Some <$> vs → length vs = length keys.
Proof. intros E. apply (f_equal length) in E. unfold row_keys in E. by rewrite !length_fmap in E. Qed.

(** Classes tell the rows' keys apart. *)
Lemma classes_distinct `{!ReversibleHash} s rows keys :
  store_holds s rows → Forall (λ c, 0 ≤ c < bs_ncolumns s) keys → Forall (keyed keys) rows →
  NoDup (row_class s keys <$> seqZ 0 (zlength rows)) ↔ NoDup (row_keys keys <$> rows).
Proof.
  intros Hs Hk Hkeyed. assert (Hat : ∀ i : nat, (i < length rows)%nat → ∃ vs, Forall is_s32 vs ∧ length vs = length keys ∧
    (row_class s keys <$> seqZ 0 (zlength rows)) !! i = Some (keys_hash vs, key_prefix vs) ∧
    (row_keys keys <$> rows) !! i = Some (Some <$> vs)).
  { intros i Hi. destruct (lookup_lt_is_Some_2 rows i Hi) as [row Hrow].
    pose proof Hkeyed as Hws. eapply Forall_lookup_1 in Hws as (vs & Evs & Hvs & Hh); [|done].
    exists vs. split; [done|]. split; [by eapply keyed_length|]. rewrite !list_lookup_fmap, Hrow. cbn. rewrite Evs.
    split; [|done]. rewrite lookup_seqZ_lt, Z.add_0_l by lia. cbn. by rewrite (row_class_keys s rows keys i row vs). }
  assert (Hlen : ∀ i c, (row_class s keys <$> seqZ 0 (zlength rows)) !! i = Some c → (i < length rows)%nat).
  { intros i c Hi%lookup_lt_Some. rewrite length_fmap, length_seqZ in Hi. lia. }
  assert (Hlen' : ∀ i c, (row_keys keys <$> rows) !! i = Some c → (i < length rows)%nat).
  { intros i c Hi%lookup_lt_Some. by rewrite length_fmap in Hi. }
  rewrite !NoDup_alt. split; intros Hnd i j c Hi Hj.
  - destruct (Hat i (Hlen' _ _ Hi)) as (vs & Hv & Hvl & Ei & Ei'), (Hat j (Hlen' _ _ Hj)) as (ws & Hw & Hwl & Ej & Ej').
    rewrite Ei' in Hi. rewrite Ej' in Hj. assert (vs = ws) as <- by (apply (inj (fmap (M:=list) Some)); congruence).
    by eapply Hnd.
  - destruct (Hat i (Hlen _ _ Hi)) as (vs & Hv & Hvl & Ei & Ei'), (Hat j (Hlen _ _ Hj)) as (ws & Hw & Hwl & Ej & Ej').
    rewrite Ei in Hi. rewrite Ej in Hj. assert (vs = ws) as <- by (apply same_class_keys; congruence).
    by eapply Hnd.
Qed.

(** A finished table answers every lookup: for a probe row with keys [vs], the
    chain from the head [find_build_head] returns is exactly the stored rows
    with these keys, latest first; it is empty when there are none.  The table
    says whether two rows share their keys. *)
Record join_table (s : BuildStore) (keys : list (Z * Z)) (rows : list build_row) : Prop := {
  jt_wf : store_holds s rows;
  jt_duplicates : bs_has_duplicates s = negb (bool_decide (NoDup (row_keys keys.*1 <$> rows)));
  jt_lookup : ∀ n columns row vs, probe_keys n columns row keys.*2 vs →
    ∃ head, find_build_head s keys columns (keys_hash vs) row = Ok head ∧
      build_chain (length rows) s head = Ok (matching_rows keys.*1 rows vs);
}.

Lemma finish_table_ok `{!ReversibleHash} s rows (keys : list (Z * Z)) :
  store_holds s rows → Forall (λ c, 0 ≤ c < bs_ncolumns s) keys.*1 → Forall (keyed keys.*1) rows →
  bs_has_duplicates s = false →
  ∃ s', hash_join_finish_build_table s keys.*1 = Ok s' ∧ bs_ncolumns s' = bs_ncolumns s ∧ join_table s' keys rows.
Proof.
  intros Hs Hk Hkeyed Hdup. pose proof (capacity_bounds _ (sw_capacity _ _ Hs)). pose proof (sw_room _ _ Hs).
  pose proof (sw_nrows _ _ Hs).
  destruct (finish_filling s rows _ Hs Hk) as (s' & k & E & Hn & Hf). exists s'. split; [done|].
  pose proof Hf as []. split; [done|]. split; [done| |].
  { rewrite fl_duplicates0, Hdup, duplicates_ok by lia. cbn [orb]. f_equal. apply bool_decide_ext, classes_distinct; done. }
  intros n columns row vs Hp. eexists. split; [eapply find_build_head_ok; (done || lia)|].
  rewrite (build_chain_ok _ s' rows) by (done || lia || apply fl_directory0). f_equal.
  apply matching_class; try done; [|by eapply probe_keys_s32].
  destruct Hp as [_ Hp]. apply Forall2_length in Hp. by rewrite !length_fmap in *.
Qed.
End lookup.

(** ** A concrete table *)

#[global] Instance reference_reversible : @ReversibleHash reference_core.
Proof.
  split; unfold is_u32; cbn.
  - intros v w Hv Hw E. assert (E' : (244002641 * (v * 2654435761 + 97)) mod 2 ^ 32 = (244002641 * (w * 2654435761 + 97)) mod 2 ^ 32).
    { rewrite Z.mul_mod, E, <- Z.mul_mod; done. }
    zlia.
  - intros a b b' Ha Hb Hb' E. zlia.
Qed.
