(* ===== verification/JoinBuild.v ===== *)
(** * The build side of the hash join: the input loop

    Hashing a batch, appending its rows with all keys present, and the loop of
    [build_hash_table] up to the point where the memory limit makes it spill.
    Input columns are those [hash_join_load_input_column] bound. *)

From S2P Require Import Prelude Words Selection Vector Kernels Int4 Hash Spill JoinStore JoinStoreProps JoinDirectory.

Definition PG_BATCH_SIZE : Z := 64.

(** A batch of an input plan: its selection and its columns, in the order of
    the plan's columns. *)
Record JoinInput : Type := mkJoinInput {
  ji_selection : PgBatchSelection;
  ji_columns : list InputColumn;
}.

(** [pg_batch_nrows_mask] of [nodes/internal.h]. *)
Definition PG_BATCH_ALL_ROWS : Z := UINT64_MAX.
Definition pg_batch_nrows_mask (nrows : Z) : res Z :=
  _ ← assert_ ((0 <? nrows) && (nrows <=? PG_BATCH_SIZE));
  Ok (Z.shiftr PG_BATCH_ALL_ROWS (PG_BATCH_SIZE - nrows)).

Section build.
Context `{PgCore}.

Definition key_vector (columns : list InputColumn) (key : Z) : res PgBatchInt4Vector :=
  input ← aref columns key;
  _ ← assert_ (ic_prepared input);
  Ok (ic_vector input).

(** [hashes] and [hash_rows] are what the two buffers hold before the call. *)
Definition hash_input_batch (batch : JoinInput) (keys hashes : list Z) (hash_rows : Z) : res (list Z * Z) :=
  let selection := ji_selection batch in
  _ ← assert_ (nrows selection <=? PG_BATCH_SIZE);
  _ ← assert_ (nwords selection =? 1);
  vectors ← foldM (λ key vectors, v ← key_vector (ji_columns batch) key; Ok (vectors ++ [v])) keys [];
  st ← pg_batch_hash_int4 vectors (zlength keys) selection hashes
         (mkSelection (nrows selection) (nwords selection) [hash_rows]);
  w ← aref (words st.2) 0;
  Ok (st.1, w).

(** The loop that appends the hashed rows of a batch. *)
Definition append_build_batch (columns : list InputColumn) (hashes : list Z) (hash_rows : Z) (s : BuildStore)
    : res BuildStore :=
  while_bits 64 clear_lowest hash_rows (λ row s,
    hash ← aref hashes row;
    append_build_row_hash s columns row hash) s.

(** The [while] loop; a capacity doubles at most 23 times before it exceeds
    [UINT32_MAX / 2]. *)
Fixpoint estimated_capacity (fuel : nat) (nrows capacity : Z) : res Z :=
  if (capacity <? nrows) && (capacity <=? (2 ^ 32 - 1) / 2) then
    match fuel with
    | O => Undefined
    | S fuel => estimated_capacity fuel nrows (capacity * 2)
    end
  else Ok capacity.

Definition hash_join_estimated_build_memory (nrows ncolumns : Z) : res Z :=
  capacity ← estimated_capacity 23 nrows 1024;
  Ok (capacity * (4 * 2 + 4 * ncolumns) + (capacity + 63) / 64 * 8 * ncolumns + capacity * 4 * 2).

(** The loop of [build_hash_table] on the batches the inner plan returns, from
    the store it starts with; [scratch] is the content of its two buffers.  It
    stops before the first batch that does not fit [memory_limit] and returns
    the batches from there on, which the spilling join takes over. *)
Fixpoint build_loop (memory_limit : Z) (inner_keys : list Z) (scratch : list Z * Z) (batches : list JoinInput)
    (s : BuildStore) : res (BuildStore * list JoinInput) :=
  match batches with
  | [] => Ok (s, [])
  | batch :: rest =>
      h ← hash_input_batch batch inner_keys scratch.1 scratch.2;
      count ← pg_batch_selection_count (ji_selection batch);
      estimated ← hash_join_estimated_build_memory (to_u32 (bs_nrows s + count)) (bs_ncolumns s);
      if memory_limit <? estimated then Ok (s, batches) else
      s ← append_build_batch (ji_columns batch) h.1 h.2 s;
      build_loop memory_limit inner_keys h rest s
  end.

(** The initial capacity [build_hash_table] asks for. *)
Fixpoint initial_capacity_loop (fuel : nat) (estimated_rows capacity : Z) : res Z :=
  if (capacity <? estimated_rows) && (capacity <=? (2 ^ 32 - 1) / 2) then
    match fuel with
    | O => Undefined
    | S fuel => initial_capacity_loop fuel estimated_rows (to_u32 (capacity * 2))
    end
  else Ok capacity.

Definition presize_store (memory_limit estimated_rows planned_partitions : Z) (s : BuildStore) : res BuildStore :=
  capacity ← initial_capacity_loop 23 estimated_rows 1024;
  if planned_partitions =? 1 then
    estimated ← hash_join_estimated_build_memory capacity (bs_ncolumns s);
    if estimated <=? memory_limit then resize_build_store s capacity else Ok s
  else Ok s.

(** [build_hash_table] of a join whose plan expects one partition; [inr] when it
    has to spill. *)
Definition build_hash_table (memory_limit estimated_rows : Z) (inner_keys : list Z) (scratch : list Z * Z)
    (batches : list JoinInput) (s : BuildStore) : res (BuildStore + BuildStore * list JoinInput) :=
  let s := hash_join_reset_build_store s in
  let s := mkStore (bs_columns s) (bs_links s) (bs_buckets s) (bs_ncolumns s) (bs_nrows s) (bs_capacity s)
             (bs_nbuckets s) 0 (bs_has_duplicates s) in
  s ← presize_store memory_limit estimated_rows 1 s;
  r ← build_loop memory_limit inner_keys scratch batches s;
  match r.2 with
  | [] => s ← hash_join_finish_build_table r.1 inner_keys; Ok (inl s)
  | _ => Ok (inr r)
  end.
End build.
