(* ===== verification/JoinBuildProps.v ===== *)
(** * The build side of the hash join: what the input loop stores

    A batch contributes its selected rows whose keys are all present, each with
    the hash of its keys; building from batches and looking keys up gives the
    rows of the batches with these keys. *)

From S2P Require Import Prelude Words Selection Vector Kernels Int4 Hash Spill JoinStore JoinStoreProps JoinDirectory JoinBuild.

Definition no_input : InputColumn := mkInput false 0 (PG_BATCH_INT4_DATUM [] []).

(** The rows of a batch, a cell per column. *)
Definition input_rows (batch : JoinInput) : list (list (option Z)) :=
  input_cells (ji_columns batch) <$> selected_rows (ji_selection batch).

Record join_input_ok (ncolumns : Z) (batch : JoinInput) : Prop := {
  jo_selection : sel_wf (ji_selection batch);
  jo_clean : sel_clean (ji_selection batch);
  jo_size : nrows (ji_selection batch) ≤ 64;
  jo_columns : zlength (ji_columns batch) = ncolumns;
  jo_inputs : Forall (input_ok (nrows (ji_selection batch))) (ji_columns batch);
}.

(** The key values of a row, when none is NULL. *)
Definition row_values (keys : list Z) (cells : list (option Z)) : option (list Z) := mapM (zget None cells) keys.

Lemma word_bits sel w :
  sel_wf sel → sel_clean sel → nrows sel ≤ 64 → words sel = [w] → bits_of w = selected_rows sel.
Proof.
  intros Hs Hc Hn Hw. pose proof (wf_nrows _ Hs). unfold bits_of, selected_rows.
  replace 64 with (nrows sel + (64 - nrows sel)) by lia. rewrite seqZ_app, filter_app by lia. rewrite Z.add_0_l.
  assert (Hsel : ∀ i, 0 ≤ i < 64 → selected sel i = Z.testbit w i).
  { intros i Hi. unfold selected. rewrite Hw, Z.div_small, Z.mod_small by lia. done. }
  assert (nwords sel = 1) by (rewrite <- (wf_length _ Hs), Hw; done).
  rewrite (list_filter_nil _ (seqZ (nrows sel) _)), app_nil_r.
  - apply list_filter_iff'. intros i Hi%elem_of_seqZ. by rewrite Hsel by lia.
  - apply Forall_forall. intros i Hi%elem_of_seqZ. rewrite <- Hsel by lia. rewrite Hc by lia. done.
Qed.

Section build.
Context `{PgCore}.

(** A row with all keys present is stored with their hash. *)
Definition build_row_of (keys : list Z) (cells : list (option Z)) : option build_row :=
  vs ← row_values keys cells; Some (keys_hash vs, cells).

Definition build_rows (keys : list Z) (batch : JoinInput) : list build_row := omap (build_row_of keys) (input_rows batch).

Lemma row_values_present n columns keys row :
  Forall (input_ok n) columns → Forall (λ k, 0 ≤ k < zlength columns) keys → 0 ≤ row < n →
  row_values keys (input_cells columns row) =
    (let vectors := (λ k, ic_vector (zget no_input columns k)) <$> keys in
     if keys_present vectors row then Some ((λ v, stored_value v row) <$> vectors) else None).
Proof.
  intros Hc Hk Hr. unfold row_values. induction Hk as [|k keys Hk Hks IH]; [done|]. cbn.
  assert (E : zget None (input_cells columns row) k = cell (ic_vector (zget no_input columns k)) row).
  { unfold input_cells, zget. rewrite list_lookup_fmap. destruct (lookup_lt_is_Some_2 columns (Z.to_nat k)) as [c ->]; [lia|done]. }
  rewrite E. unfold cell. destruct (cell_null (ic_vector (zget no_input columns k)) row); cbn; [done|].
  rewrite IH. cbn. fold (keys_present ((λ k, ic_vector (zget no_input columns k)) <$> keys) row).
  by destruct (keys_present _ row).
Qed.

Lemma row_values_s32 n columns keys row vs :
  Forall (input_ok n) columns → Forall (λ k, 0 ≤ k < zlength columns) keys → 0 ≤ row < n →
  row_values keys (input_cells columns row) = Some vs → Forall is_s32 vs.
Proof.
  intros Hc Hk Hr. rewrite (row_values_present n) by done. cbn. destruct (keys_present _ row); [|done]. intros [= <-].
  rewrite !Forall_fmap. eapply Forall_impl; [exact Hk|]. intros k Hkk. cbn.
  apply (stored_value_s32 _ n); [|done]. apply (zget_Forall (input_ok n) no_input columns k Hc Hkk).
Qed.

(** What [hash_input_batch] leaves in its buffers. *)
Record hashed_batch (keys : list Z) (batch : JoinInput) (h : list Z * Z) : Prop := {
  hb_size : 64 ≤ zlength h.1;
  hb_word : is_u64 h.2;
  hb_rows : bits_of h.2 = filter (λ row, is_Some (row_values keys (input_cells (ji_columns batch) row)))
                            (selected_rows (ji_selection batch));
  hb_hash : ∀ row vs, row ∈ selected_rows (ji_selection batch) →
    row_values keys (input_cells (ji_columns batch) row) = Some vs → zget 0 h.1 row = keys_hash vs;
}.

Lemma key_vectors_ok n columns keys :
  Forall (input_ok n) columns → Forall (λ k, 0 ≤ k < zlength columns) keys →
  foldM (λ key vectors, v ← key_vector columns key; Ok (vectors ++ [v])) keys [] =
    Ok ((λ k, ic_vector (zget no_input columns k)) <$> keys).
Proof.
  intros Hc Hk. rewrite (foldM_pure _ (λ k vectors, vectors ++ [ic_vector (zget no_input columns k)])).
  - f_equal. change (map ?f ?l) with (f <$> l). induction keys as [|k keys IH] using rev_ind; [done|].
    rewrite foldl_app, fmap_app. cbn. rewrite IH; [done|]. by apply Forall_app in Hk as [? _].
  - intros k vectors Hin. unfold key_vector. rewrite Forall_forall in Hk. specialize (Hk k Hin).
    rewrite (aref_ok no_input), bind_Ok by done.
    destruct (zget_Forall (input_ok n) no_input columns k Hc Hk) as [Hp _]. by rewrite Hp.
Qed.

Lemma hash_input_ok ncols batch keys hashes0 word0 :
  join_input_ok ncols batch → keys ≠ [] → Forall (λ k, 0 ≤ k < ncols) keys → 64 ≤ zlength hashes0 → is_u64 word0 →
  ∃ h, hash_input_batch batch keys hashes0 word0 = Ok h ∧ hashed_batch keys batch h.
Proof.
  intros [Hs Hcl Hsize Hlen Hin] Hne Hk Hh0 Hw0. rewrite <- Hlen in Hk. pose proof (wf_nrows _ Hs). pose proof (wf_nwords _ Hs).
  set (sel := ji_selection batch) in *. set (columns := ji_columns batch) in *.
  set (vectors := (λ k, ic_vector (zget no_input columns k)) <$> keys).
  assert (Hn1 : nwords sel = 1) by zlia.
  destruct (hash_int4_spec sel vectors hashes0 (mkSelection (nrows sel) (nwords sel) [word0])) as (st & Est & Hst).
  - done.
  - split; cbn; [done|done|lia|by constructor].
  - done.
  - intros Hnil. by apply fmap_nil_inv in Hnil.
  - subst vectors. apply Forall_fmap. eapply Forall_impl; [exact Hk|]. intros k Hkk.
    by destruct (zget_Forall (input_ok (nrows sel)) no_input columns k Hin Hkk).
  - lia.
  - unfold hash_input_batch. fold sel columns. destruct (Z.leb_spec (nrows sel) PG_BATCH_SIZE); [|unfold PG_BATCH_SIZE in *; lia].
    destruct (Z.eqb_spec (nwords sel) 1); [|lia]. cbn [assert_]. rewrite !bind_Ok, (key_vectors_ok (nrows sel)), bind_Ok by done.
    fold vectors. replace (zlength keys) with (zlength vectors) by (subst vectors; by rewrite length_fmap).
    rewrite Est, bind_Ok. destruct Hst as [Hwf Hn Hl Hclean Hvalid Hvalue _].
    assert (Hone : words st.2 = [zget 0 (words st.2) 0]).
    { pose proof (wf_length _ Hwf). rewrite (wf_nwords _ Hwf), Hn in *. destruct (words st.2) as [|w [|]]; cbn in *; try zlia. done. }
    assert (Hw : is_u64 (zget 0 (words st.2) 0)).
    { apply zget_Forall; [apply (wf_words _ Hwf)|]. by rewrite Hone. }
    rewrite (aref_ok 0), bind_Ok by (by rewrite Hone).
    eexists; split; [done|]. split; cbn; [lia|done| |].
    + rewrite (word_bits st.2) by (done || lia). unfold selected_rows. rewrite Hn, list_filter_filter. fold sel columns.
      apply list_filter_iff'. intros row Hrow%elem_of_seqZ. assert (Hr : 0 ≤ row < nrows sel) by lia.
      rewrite Hvalid, andb_true_iff, (row_values_present (nrows sel)) by done. cbv zeta. fold vectors.
      destruct (keys_present vectors row); [naive_solver|]. split; [naive_solver|]. by intros [[? ?] _].
    + intros row vs. fold sel columns. intros Hrow Hvs. apply contains_selected_rows in Hrow as [Hr Hsel].
      rewrite (row_values_present (nrows sel)) in Hvs by done. cbv zeta in Hvs. fold vectors in Hvs.
      destruct (keys_present vectors row) eqn:Ek; [|done]. injection Hvs as <-.
      rewrite Hvalue; [apply row_hash_keys|done|by rewrite Hvalid, Hsel, Ek by done|].
      intros Hnil. by apply fmap_nil_inv in Hnil.
Qed.

(** ** Appending batches *)

Lemma build_row_keyed n columns keys row r :
  Forall (input_ok n) columns → Forall (λ k, 0 ≤ k < zlength columns) keys → 0 ≤ row < n →
  build_row_of keys (input_cells columns row) = Some r → keyed keys r.
Proof.
  intros Hc Hk Hr. unfold build_row_of. destruct (row_values keys (input_cells columns row)) as [vs|] eqn:E; [|done].
  intros [= <-]. exists vs. split; [|split; [by eapply row_values_s32|done]]. unfold row_keys, row_values in *. cbn [snd].
  clear -E. revert vs E. induction keys as [|k keys IH]; intros vs E; cbn in *; [by injection E as <-|].
  destruct (zget None (input_cells columns row) k) as [v|]; [|done]. cbn in E.
  destruct (mapM (zget None (input_cells columns row)) keys) as [vs'|]; [|done]. injection E as <-. cbn. by rewrite (IH vs').
Qed.

Lemma build_rows_keyed ncols keys batch :
  join_input_ok ncols batch → Forall (λ k, 0 ≤ k < ncols) keys → Forall (keyed keys) (build_rows keys batch).
Proof.
  intros [Hs _ _ <- Hin] Hk. unfold build_rows, input_rows. apply Forall_forall.
  intros r (cells & (row & -> & Hrow)%list_elem_of_fmap & Hr)%list_elem_of_omap.
  apply contains_selected_rows in Hrow as [Hrow _]. by eapply build_row_keyed.
Qed.

Lemma append_rows_ok columns n keys hashes l :
  Forall (input_ok n) columns → 64 ≤ zlength hashes → n ≤ 64 →
  (∀ row, row ∈ l → 0 ≤ row < n ∧ ∀ vs, row_values keys (input_cells columns row) = Some vs →
    zget 0 hashes row = keys_hash vs) →
  ∀ s rows, store_holds s rows → (store_fresh s ∨ ∀ row, row ∈ l → Forall is_Some (input_cells columns row)) →
    zlength columns = bs_ncolumns s →
    zlength (rows ++ omap (build_row_of keys) (input_cells columns <$> l)) ≤ max_build_rows →
  ∃ s', foldM (λ row s, hash ← aref hashes row; append_build_row_hash s columns row hash)
      (filter (λ row, is_Some (row_values keys (input_cells columns row))) l) s = Ok s' ∧
    store_holds s' (rows ++ omap (build_row_of keys) (input_cells columns <$> l)) ∧ (store_fresh s → store_fresh s') ∧
    bs_ncolumns s' = bs_ncolumns s ∧ bs_hash_shift s' = bs_hash_shift s ∧ bs_has_duplicates s' = bs_has_duplicates s.
Proof.
  intros Hc Hh Hn. induction l as [|row l IH]; intros Hl s rows Hs Hclear Hlen Hmax.
  { exists s. by rewrite app_nil_r in *. }
  destruct (Hl row) as [Hr Hhash]; [by left|]. rewrite filter_cons, fmap_cons in *. cbn [omap list_omap] in *.
  unfold build_row_of at 1 in Hmax. unfold build_row_of at 1. unfold mbind, option_bind in *.
  specialize (IH (λ r Hin, Hl r (list_elem_of_further _ _ _ Hin))).
  assert (Hclear' : store_fresh s ∨ Forall is_Some (input_cells columns row)) by (destruct Hclear; [by left|right; set_solver]).
  assert (Hrest : store_fresh s ∨ ∀ r, r ∈ l → Forall is_Some (input_cells columns r)) by (destruct Hclear; [by left|right; set_solver]).
  destruct (row_values keys (input_cells columns row)) as [vs|] eqn:Evs.
  - rewrite decide_True by done. cbn [foldM]. rewrite (aref_ok 0), bind_Ok, (Hhash vs) by (done || lia).
    destruct (append_build_row_ok s rows columns n row (keys_hash vs)) as (s1 & -> & Hs1 & Hf1 & Hn1 & Hh1 & Hd1); [done|done| |done|done|done|].
    { rewrite length_app in Hmax. cbn in Hmax. lia. }
    rewrite bind_Ok. rewrite (cons_middle _ rows), app_assoc in Hmax. rewrite (cons_middle _ rows), app_assoc.
    destruct (IH s1 _ Hs1) as (s' & -> & Hs' & ? & ? & ? & ?); [destruct Hrest; auto|congruence|done|].
    exists s'. split_and!; (done || congruence || auto).
  - rewrite decide_False by (by intros [? ?]). by apply IH.
Qed.

Lemma append_build_batch_ok s rows keys batch h :
  store_holds s rows → (store_fresh s ∨ Forall (Forall is_Some) (input_rows batch)) → join_input_ok (bs_ncolumns s) batch → hashed_batch keys batch h →
  zlength (rows ++ build_rows keys batch) ≤ max_build_rows →
  ∃ s', append_build_batch (ji_columns batch) h.1 h.2 s = Ok s' ∧ store_holds s' (rows ++ build_rows keys batch) ∧
    (store_fresh s → store_fresh s') ∧
    bs_ncolumns s' = bs_ncolumns s ∧ bs_hash_shift s' = bs_hash_shift s ∧ bs_has_duplicates s' = bs_has_duplicates s.
Proof.
  intros Hs Hclear [Hsel Hcl Hsize Hlen Hin] [Hh Hw Hrows Hhash] Hmax. unfold append_build_batch.
  rewrite while_bits_spec by (done || apply clear_lowest_lowest). rewrite Hrows.
  apply (append_rows_ok _ (nrows (ji_selection batch))); [done|done|done| |done| |done|done].
  - intros row Hrow. split; [by apply contains_selected_rows in Hrow as [? _]|]. intros vs Hvs. by apply Hhash.
  - destruct Hclear as [|Hall]; [by left|right]. unfold input_rows in Hall. rewrite Forall_fmap, Forall_forall in Hall. exact Hall.
Qed.

(** ** The build loop *)

Lemma estimated_capacity_ok nrows fuel j :
  10 ≤ j ≤ 33 → 33 - j ≤ Z.of_nat fuel → ∃ k, estimated_capacity fuel nrows (2 ^ j) = Ok (2 ^ k).
Proof.
  intros Hj. revert j Hj. induction fuel as [|fuel IH]; intros j Hj Hf; cbn [estimated_capacity].
  - replace j with 33 by lia. exists 33. by rewrite andb_false_r.
  - destruct (_ && _) eqn:E; [|by exists j]. apply andb_true_iff in E as [_ E%Z.leb_le].
    assert (j < 33) by (apply (Z.pow_lt_mono_r_iff 2); [lia|lia|]; change ((2 ^ 32 - 1) / 2) with 2147483647 in E; lia).
    replace (2 ^ j * 2) with (2 ^ (j + 1)) by (rewrite Z.pow_add_r by lia; lia). apply IH; lia.
Qed.

Lemma estimated_memory_total nrows ncolumns : ∃ bytes, hash_join_estimated_build_memory nrows ncolumns = Ok bytes.
Proof.
  unfold hash_join_estimated_build_memory. destruct (estimated_capacity_ok nrows 23 10) as (k & E); [lia|lia|].
  change 1024 with (2 ^ 10). rewrite E, bind_Ok. eauto.
Qed.

Lemma build_loop_ok limit keys batches : ∀ scratch s rows,
  store_wf s rows → keys ≠ [] → Forall (λ k, 0 ≤ k < bs_ncolumns s) keys →
  Forall (join_input_ok (bs_ncolumns s)) batches → 64 ≤ zlength scratch.1 → is_u64 scratch.2 →
  zlength (rows ++ concat (build_rows keys <$> batches)) ≤ max_build_rows →
  ∃ s' taken rest, build_loop limit keys scratch batches s = Ok (s', rest) ∧ batches = taken ++ rest ∧
    store_wf s' (rows ++ concat (build_rows keys <$> taken)) ∧
    bs_ncolumns s' = bs_ncolumns s ∧ bs_hash_shift s' = bs_hash_shift s ∧ bs_has_duplicates s' = bs_has_duplicates s.
Proof.
  induction batches as [|batch batches IH]; intros scratch s rows Hs Hne Hk Hb Hsc Hw Hmax.
  { exists s, [], []. cbn in *. by rewrite app_nil_r in *. }
  apply Forall_cons in Hb as [Hb Hbs]. cbn [build_loop].
  destruct (hash_input_ok (bs_ncolumns s) batch keys scratch.1 scratch.2) as (h & -> & Hh); [done..|].
  rewrite bind_Ok, selection_count_ok, bind_Ok by apply Hb.
  destruct (estimated_memory_total (to_u32 (bs_nrows s + zlength (selected_rows (ji_selection batch)))) (bs_ncolumns s))
    as (bytes & ->). rewrite bind_Ok.
  destruct (limit <? bytes). { exists s, [], (batch :: batches). cbn. by rewrite app_nil_r. }
  rewrite fmap_cons, concat_cons, app_assoc in Hmax.
  destruct (append_build_batch_ok s rows keys batch h) as (s1 & -> & Hs1 & Hf1 & Hn1 & Hsh1 & Hd1);
    [apply Hs|left; apply Hs|done|done| |].
  { rewrite length_app in Hmax. lia. }
  rewrite bind_Ok, <- Hn1 in *. destruct (IH h s1 _ (conj Hs1 (Hf1 (proj2 Hs))) Hne Hk Hbs) as (s' & taken & rest & -> & -> & Hs' & ? & ? & ?);
    [apply Hh|apply Hh|done|].
  exists s', (batch :: taken), rest. rewrite fmap_cons, concat_cons, app_assoc. split_and!; (done || congruence).
Qed.

Lemma empty_store_ok s : 0 ≤ bs_ncolumns s → store_wf (hash_join_reset_build_store s) [].
Proof.
  intros Hn. split; [constructor; cbn; try done; try lia|].
  - rewrite length_replicate. lia.
  - by left.
  - intros c i _. cbn. lia.
Qed.

Lemma initial_capacity_ok rows fuel j :
  10 ≤ j ≤ 26 → rows ≤ max_build_rows → 26 - j ≤ Z.of_nat fuel →
  ∃ k, initial_capacity_loop fuel rows (2 ^ j) = Ok (2 ^ k) ∧ 10 ≤ k ≤ 26.
Proof.
  intros Hj Hr. revert j Hj. induction fuel as [|fuel IH]; intros j Hj Hf; cbn [initial_capacity_loop];
    destruct (Z.ltb_spec (2 ^ j) rows); cbn [andb].
  - replace j with 26 in * by lia. unfold max_build_rows in Hr. lia.
  - by exists j.
  - assert (j ≠ 26) by (intros ->; unfold max_build_rows in Hr; lia). pose proof (Z.pow_le_mono_r 2 (j + 1) 26).
    pose proof (Z.pow_le_mono_r 2 j 26). destruct (Z.leb_spec (2 ^ j) ((2 ^ 32 - 1) / 2)) as [_|Hgt].
    + replace (to_u32 (2 ^ j * 2)) with (2 ^ (j + 1)); [apply IH; lia|].
      rewrite Z.pow_add_r in * by lia. unfold to_u32. rewrite Z.mod_small; lia.
    + change ((2 ^ 32 - 1) / 2) with 2147483647 in Hgt. lia.
  - by exists j.
Qed.

Lemma presize_ok limit estimated planned s :
  store_wf s [] → bs_capacity s = 0 → estimated ≤ max_build_rows →
  ∃ s', presize_store limit estimated planned s = Ok s' ∧ store_wf s' [] ∧ bs_ncolumns s' = bs_ncolumns s ∧
    bs_hash_shift s' = bs_hash_shift s ∧ bs_has_duplicates s' = bs_has_duplicates s.
Proof.
  intros Hs Hc He. unfold presize_store. destruct (initial_capacity_ok estimated 23 10) as (k & E & Hk); [lia|done|lia|].
  change 1024 with (2 ^ 10). rewrite E, bind_Ok. destruct (planned =? 1); [|by exists s].
  destruct (estimated_memory_total (2 ^ k) (bs_ncolumns s)) as (bytes & ->). rewrite bind_Ok.
  destruct (bytes <=? limit); [|by exists s].
  destruct (resize_ok s [] (2 ^ k) (proj1 Hs)) as (s' & -> & Hs' & Hf & _ & ? & ? & ?).
  - right. by exists k.
  - rewrite Hc. apply Z.pow_pos_nonneg; lia.
  - exists s'. split_and!; try done. split; [done|]. apply Hf, Hs.
Qed.

Lemma build_hash_table_ok `{!ReversibleHash} limit estimated (keys : list (Z * Z)) scratch batches s :
  0 ≤ bs_ncolumns s → estimated ≤ max_build_rows → keys ≠ [] → Forall (λ k, 0 ≤ k < bs_ncolumns s) keys.*1 →
  64 ≤ zlength scratch.1 → is_u64 scratch.2 → Forall (join_input_ok (bs_ncolumns s)) batches →
  zlength (concat (build_rows keys.*1 <$> batches)) ≤ max_build_rows →
  ∃ r, build_hash_table limit estimated keys.*1 scratch batches s = Ok r ∧
    match r with
    | inl s' => join_table s' keys (concat (build_rows keys.*1 <$> batches)) ∧ bs_ncolumns s' = bs_ncolumns s
    | inr (s', rest) => rest ≠ [] ∧ ∃ taken, batches = taken ++ rest ∧ store_wf s' (concat (build_rows keys.*1 <$> taken))
    end.
Proof.
  intros Hn He Hne Hk Hsc Hw Hb Hmax. unfold build_hash_table.
  set (s0 := mkStore _ _ _ _ _ _ _ _ _).
  assert (Hs0 : store_wf s0 []) by (destruct (empty_store_ok s Hn) as [[] Hf]; by split).
  destruct (presize_ok limit estimated 1 s0) as (s1 & -> & Hs1 & Hn1 & _ & Hd1); [done..|]. rewrite bind_Ok.
  destruct (build_loop_ok limit keys.*1 batches scratch s1 []) as (s2 & taken & rest & -> & E & Hs2 & Hn2 & _ & Hd2);
    rewrite ?Hn1; [done| |done..|].
  { intros Hnil. by apply fmap_nil_inv in Hnil. }
  rewrite bind_Ok. cbn [fst snd]. destruct rest as [|b rest].
  - rewrite app_nil_r in E. subst taken.
    destruct (finish_table_ok s2 (concat (build_rows keys.*1 <$> batches)) keys) as (s' & -> & Hn' & Ht).
    + apply Hs2.
    + by rewrite Hn2, Hn1.
    + apply Forall_concat, Forall_fmap. eapply Forall_impl; [exact Hb|]. intros batch Hbatch. by eapply build_rows_keyed.
    + by rewrite Hd2, Hd1.
    + rewrite bind_Ok. eexists; split; [done|]. split; [done|by rewrite Hn', Hn2].
  - eexists; split; [done|]. split; [done|]. by exists taken.
Qed.

(** C9. Building from any batches ends, and the result is a table in which
    looking up the keys of a probe row finds exactly the rows of the batches
    that are selected, have no NULL key and have these keys.  When the memory
    limit stops the build, what it hands to the spilling join is the store of
    the batches so far and the batches that remain. *)
Theorem build_hash_table_spec `{!ReversibleHash} limit estimated (keys : list (Z * Z)) scratch batches s :
  0 ≤ bs_ncolumns s → estimated ≤ max_build_rows → keys ≠ [] → Forall (λ k, 0 ≤ k < bs_ncolumns s) keys.*1 →
  64 ≤ zlength scratch.1 → is_u64 scratch.2 → Forall (join_input_ok (bs_ncolumns s)) batches →
  zlength (concat (build_rows keys.*1 <$> batches)) ≤ max_build_rows →
  ∃ r, build_hash_table limit estimated keys.*1 scratch batches s = Ok r ∧
    match r with
    | inl s' => join_table s' keys (concat (build_rows keys.*1 <$> batches))
    | inr (s', rest) => rest ≠ [] ∧ ∃ taken, batches = taken ++ rest ∧ store_wf s' (concat (build_rows keys.*1 <$> taken))
    end.
Proof.
  intros Hn He Hne Hk Hsc Hw Hb Hmax.
  destruct (build_hash_table_ok limit estimated keys scratch batches s) as (r & -> & Hr); [done..|].
  exists r. split; [done|]. destruct r as [s'|[s' rest]]; [apply Hr|done].
Qed.
End build.

(** ** A concrete build *)

(** Keys 5, NULL, 7, 5 with payloads 50, 51, NULL, 53; the second row of the
    batch is not selected. *)
Definition sample_build_batch : JoinInput :=
  mkJoinInput (mkSelection 4 1 [13])
    [mkInput true 15 (PG_BATCH_INT4_DATUM [5; 0; 7; 5] [false; true; false; false]);
     mkInput true 15 (PG_BATCH_INT4_PACKED [50; 51; 52; 53] (Some [11]) 0)].

Definition sample_store : BuildStore := mkStore [] [] [] 2 0 0 0 0 false.

Lemma sample_build_batch_ok : join_input_ok 2 sample_build_batch.
Proof.
  split; cbn; try done.
  - split; cbn; [done|done|done|].
    by apply Forall_singleton.
  - intros row Hr. cbn in *. assert (4 ≤ row < 64) as Hrow by (cbn in Hr; lia). unfold selected. cbn.
    rewrite Z.div_small, Z.mod_small by lia. change (zget 0 [13] 0) with 13. apply Z.bits_above_log2; [lia|cbn; lia].
  - repeat apply Forall_cons_2; [..|apply Forall_nil_2]; split; cbn; try done.
    split_and!; try lia; by repeat constructor.
Qed.

Lemma build_hash_table_witness :
  ∃ r, build_hash_table (H := reference_core) 1000000 10 [0] (replicate 64 0, 0) [sample_build_batch; sample_build_batch] sample_store = Ok r ∧
    match r with
    | inl s' => join_table (H := reference_core) s' [(0, 1)]
        (concat (build_rows (H := reference_core) [0] <$> [sample_build_batch; sample_build_batch]))
    | inr (s', rest) => rest ≠ [] ∧ ∃ taken, [sample_build_batch; sample_build_batch] = taken ++ rest ∧
        store_wf s' (concat (build_rows (H := reference_core) [0] <$> taken))
    end.
Proof.
  apply (build_hash_table_spec (H := reference_core) 1000000 10 [(0, 1)] (replicate 64 0, 0) [sample_build_batch; sample_build_batch] sample_store).
  - done.
  - done.
  - done.
  - by apply Forall_singleton.
  - done.
  - done.
  - repeat apply Forall_cons_2; [apply sample_build_batch_ok..|apply Forall_nil_2].
  - vm_compute. discriminate.
Defined.
