(* ===== verification/JoinProbe.v ===== *)
(** * The probe side of the hash join ([nodes/hash_join.c])

    Probe rows are looked up in the build table in windows; a window's lanes
    advance along their chains round by round, every round appending one pair
    per live lane to the output batch.  Full or final output is qualified and
    published.  This is the path of a join that did not spill and is not
    parallel; columns are those the input binds when it is asked for them. *)

From S2P Require Import Prelude Words Selection Vector Kernels Int4 Hash Spill JoinStore JoinStoreProps JoinDirectory JoinBuild.

(** A join condition evaluated on a batch; [bq_builtin] is [fcinfo == NULL]. *)
Record BatchJoinQual : Type := mkQual {
  bq_builtin : bool;
  bq_funcid : Oid;
  bq_left_column : Z;
  bq_right_column : Z;
}.

(** A probe batch and its hashes. *)
Record ProbeBatch : Type := mkProbe {
  pb_input : JoinInput;
  pb_hash_rows : Z;
  pb_hashes : list Z;
}.

(** The arrays [probe_rows]/[probe_build_rows] up to [probe_active] and
    [output_probe_rows]/[output_build_rows] up to [output_count], as lists of
    pairs; [ps_inputs] is what the outer plan has not returned yet. *)
Record ProbeState : Type := mkProbeState {
  ps_batch : option ProbeBatch;
  ps_next_row : Z;
  ps_lanes : list (Z * Z);
  ps_done_pending : bool;
  ps_output : list (Z * Z);
  ps_qualified : Z;
  ps_inputs : list JoinInput;
}.

Definition set_lanes (p : ProbeState) next lanes := mkProbeState (ps_batch p) next lanes (ps_done_pending p)
  (ps_output p) (ps_qualified p) (ps_inputs p).
Definition set_output (p : ProbeState) out q := mkProbeState (ps_batch p) (ps_next_row p) (ps_lanes p)
  (ps_done_pending p) out q (ps_inputs p).
Definition set_pending (p : ProbeState) d := mkProbeState (ps_batch p) (ps_next_row p) (ps_lanes p) d
  (ps_output p) (ps_qualified p) (ps_inputs p).

Section probe.
Context `{PgCore}.

(** What the plan fixes: the finished table, the keys as pairs of inner and
    outer columns, the columns of the outer side, the conditions and the
    parent's row limit.  [call_function] is the call of a condition's function
    that is not built in ([None] for a NULL result), [exec_qual] is [ExecQual]
    on the raw slot, [None] when the plan has no such qual. *)
Variables (s : BuildStore) (keys : list (Z * Z)) (nouter natts : Z) (quals : list BatchJoinQual)
  (qual_raw_columns : list Z) (max_rows : Z).
Variable call_function : Oid → Z → Z → res (option bool).
Variable exec_qual : option (list (Z * bool) → res bool).

Definition output_capacity : Z := if 0 <? max_rows then Z.min max_rows PG_BATCH_SIZE else PG_BATCH_SIZE.

Definition load_probe_hash (b : ProbeBatch) (row : Z) : res (option Z) :=
  if Z.land (pb_hash_rows b) (bit64 row) =? 0 then Ok None
  else h ← aref (pb_hashes b) row; Ok (Some h).

Definition probe_head (b : ProbeBatch) (hash row : Z) : res Z :=
  find_build_head s keys (ji_columns (pb_input b)) hash row.

(** The [while] loop; it advances the selection, so as many turns as the batch
    has rows are enough. *)
Fixpoint window_loop (fuel : nat) (b : ProbeBatch) (row next_row : Z) (lanes : list (Z * Z))
    : res (Z * list (Z * Z)) :=
  if zlength lanes <? PG_BATCH_SIZE then
    row ← pg_batch_selection_next (ji_selection (pb_input b)) row;
    if row <? 0 then Ok (next_row, lanes) else
    match fuel with
    | O => Undefined
    | S fuel =>
        hash ← load_probe_hash b row;
        match hash with
        | None => window_loop fuel b row row lanes
        | Some hash => link ← probe_head b hash row; window_loop fuel b row row (lanes ++ [(row, link)])
        end
    end
  else Ok (next_row, lanes).

Definition selection_fuel (b : ProbeBatch) : nat := Z.to_nat (nrows (ji_selection (pb_input b))).

Definition load_probe_window (b : ProbeBatch) (p : ProbeState) : res (ProbeState * bool) :=
  r ← window_loop (selection_fuel b) b (ps_next_row p) (ps_next_row p) [];
  Ok (set_lanes p r.1 r.2, 0 <? zlength r.2).

Fixpoint unique_loop (fuel : nat) (b : ProbeBatch) (row next_row : Z) (out : list (Z * Z))
    : res (Z * list (Z * Z)) :=
  if zlength out <? output_capacity then
    row ← pg_batch_selection_next (ji_selection (pb_input b)) row;
    if row <? 0 then Ok (next_row, out) else
    match fuel with
    | O => Undefined
    | S fuel =>
        hash ← load_probe_hash b row;
        match hash with
        | None => unique_loop fuel b row row out
        | Some hash =>
            link ← probe_head b hash row;
            unique_loop fuel b row row (if link =? 0 then out else out ++ [(row, link - 1)])
        end
    end
  else Ok (next_row, out).

Definition probe_unique_rows (b : ProbeBatch) (p : ProbeState) : res (ProbeState * bool) :=
  r ← unique_loop (selection_fuel b) b (ps_next_row p) (ps_next_row p) (ps_output p);
  Ok (set_output (set_lanes p r.1 (ps_lanes p)) r.2 (ps_qualified p), zlength r.2 =? output_capacity).

(** The loop over the lanes: the lanes it visited with their new links, those
    it did not reach, and the output. *)
Fixpoint round_loop (lanes visited out : list (Z * Z)) : res (list (Z * Z) * list (Z * Z) * list (Z * Z)) :=
  match lanes with
  | [] => Ok (visited, [], out)
  | (row, link) :: lanes =>
      if link =? 0 then round_loop lanes (visited ++ [(row, link)]) out else
      _ ← assert_ (zlength out <? PG_BATCH_SIZE);
      l ← aref (bs_links s) (link - 1);
      let out := out ++ [(row, link - 1)] in
      let visited := visited ++ [(row, bl_next l)] in
      if zlength out =? output_capacity then Ok (visited, lanes, out)
      else round_loop lanes visited out
  end.

(** The lanes left: those not reached and those whose link is not 0.  With
    nothing left to reach and no live lane this is the early return. *)
Definition probe_round (p : ProbeState) : res ProbeState :=
  r ← round_loop (ps_lanes p) [] (ps_output p);
  let '(visited, unreached, out) := r in
  Ok (set_output (set_lanes p (ps_next_row p) (filter (λ lane : Z * Z, lane.2 ≠ 0) visited ++ unreached))
        out (ps_qualified p)).

(** ** Qualification *)

(** The value and the NULL flag of a raw column in an output row: of the probe
    batch below [nouter], of the build store from there on. *)
Definition raw_value (b : ProbeBatch) (pair : Z * Z) (raw_column : Z) : res (Z * bool) :=
  if raw_column <? nouter then
    input ← aref (ji_columns (pb_input b)) raw_column;
    hash_join_input_value input pair.1
  else build_value s (raw_column - nouter) pair.2.

Definition eval_builtin_int4_qual (funcid : Oid) (left right : Z) : res bool :=
  match funcid with
  | F_INT4EQ => Ok (left =? right)
  | F_INT4NE => Ok (negb (left =? right))
  | F_INT4LT => Ok (left <? right)
  | F_INT4LE => Ok (left <=? right)
  | F_INT4GT => Ok (right <? left)
  | F_INT4GE => Ok (right <=? left)
  | _ => Raise (Elog "pg_batch found an invalid built-in int4 condition")
  end.

(** One condition on one candidate row. *)
Definition apply_batch_qual (b : ProbeBatch) (out : list (Z * Z)) (qual : BatchJoinQual) (row selected : Z)
    : res Z :=
  pair ← aref out row;
  left ← raw_value b pair (bq_left_column qual);
  right ← raw_value b pair (bq_right_column qual);
  if left.2 || right.2 then Ok (Z.land selected (not64 (bit64 row))) else
  passes ← (if bq_builtin qual then eval_builtin_int4_qual (bq_funcid qual) left.1 right.1
            else r ← call_function (bq_funcid qual) left.1 right.1; Ok (default false r));
  Ok (if passes : bool then selected else Z.land selected (not64 (bit64 row))).

Fixpoint apply_batch_quals (b : ProbeBatch) (out : list (Z * Z)) (quals : list BatchJoinQual) (selected : Z)
    : res Z :=
  match quals with
  | [] => Ok selected
  | qual :: quals =>
      if selected =? 0 then Ok selected else
      selected ← while_bits 64 clear_bit selected (apply_batch_qual b out qual) selected;
      apply_batch_quals b out quals selected
  end.

(** The raw slot: NULL but for the needed columns. *)
Definition fill_raw_slot (b : ProbeBatch) (pair : Z * Z) (needed : list Z) : res (list (Z * bool)) :=
  foldM (λ column slot, v ← raw_value b pair column; aset slot column (if v.2 : bool then (0, true) else v)) needed
    (replicate (Z.to_nat natts) (0, true)).

Definition passes_scalar_qual (b : ProbeBatch) (pair : Z * Z) : res bool :=
  match exec_qual with
  | None => Ok true
  | Some exec => slot ← fill_raw_slot b pair qual_raw_columns; exec slot
  end.

(** The loop that moves the rows that passed together. *)
Definition compact_output (selected first last : Z) (out : list (Z * Z)) : res (Z * list (Z * Z)) :=
  foldM (λ row st,
    if Z.land selected (bit64 row) =? 0 then Ok st else
    pair ← aref st.2 row;
    out ← aset st.2 st.1 pair;
    Ok (st.1 + 1, out)) (seqZ first (last - first)) (first, out).

Definition qualify_output (b : ProbeBatch) (p : ProbeState) : res ProbeState :=
  let first := ps_qualified p in
  let last := zlength (ps_output p) in
  before ← (if first =? 0 then Ok 0 else pg_batch_nrows_mask first);
  mask ← pg_batch_nrows_mask last;
  let selected := Z.land mask (not64 before) in
  if first =? last then Ok p else
  match quals, exec_qual with
  | [], None => Ok (set_output p (ps_output p) last)
  | _, _ =>
      selected ← apply_batch_quals b (ps_output p) quals selected;
      selected ← while_bits 64 clear_bit selected (λ row selected,
          pair ← aref (ps_output p) row;
          passes ← passes_scalar_qual b pair;
          Ok (if passes : bool then selected else Z.land selected (not64 (bit64 row)))) selected;
      r ← compact_output selected first last (ps_output p);
      Ok (set_output p (take (Z.to_nat r.1) r.2) r.1)
  end.

(** ** Output batches *)

(** [fetch_probe_batch] of a join that did not spill: the next batch of the
    outer plan and its hashes, in the buffers [scratch] holds. *)
Definition fetch_probe_batch (scratch : list Z * Z) (p : ProbeState) : res (option ProbeState) :=
  match ps_inputs p with
  | [] => Ok None
  | batch :: inputs =>
      h ← hash_input_batch batch keys.*2 scratch.1 scratch.2;
      Ok (Some (mkProbeState (Some (mkProbe batch h.2 h.1)) (-1) (ps_lanes p) (ps_done_pending p)
                  (ps_output p) (ps_qualified p) inputs))
  end.

Definition finish_probe_batch (p : ProbeState) : ProbeState :=
  mkProbeState None (ps_next_row p) (ps_lanes p) (ps_done_pending p) (ps_output p) (ps_qualified p) (ps_inputs p).

(** The loop of [produce_output].  A turn either ends it, or takes lanes, rows
    or batches off what is left of the probe side. *)
Fixpoint produce_loop (fuel : nat) (scratch : list Z * Z) (p : ProbeState) : res (ProbeState * bool) :=
  match fuel with
  | O => Undefined
  | S fuel =>
      let p := if ps_done_pending p then set_pending (finish_probe_batch p) false else p in
      if 0 <? zlength (ps_lanes p) then
        match ps_batch p with
        | None => Undefined
        | Some b =>
            p ← probe_round p;
            if zlength (ps_output p) =? output_capacity then
              p ← qualify_output b p;
              if zlength (ps_output p) =? output_capacity then Ok (p, true) else produce_loop fuel scratch p
            else produce_loop fuel scratch p
        end
      else
        fetched ← match ps_batch p with Some _ => Ok (Some p) | None => fetch_probe_batch scratch p end;
        match fetched with
        | None => Ok (p, 0 <? zlength (ps_output p))
        | Some p =>
            match ps_batch p with
            | None => Undefined
            | Some b =>
                r ← (if bs_has_duplicates s then load_probe_window b p else probe_unique_rows b p);
                let '(p, more) := r in
                if more && bs_has_duplicates s then produce_loop fuel scratch p
                else if more then
                  p ← qualify_output b p;
                  if zlength (ps_output p) =? output_capacity then Ok (p, true) else produce_loop fuel scratch p
                else
                  p ← (if 0 <? zlength (ps_output p) then qualify_output b p else Ok p);
                  if 0 <? zlength (ps_output p) then Ok (set_pending p true, true)
                  else produce_loop fuel scratch (finish_probe_batch p)
            end
        end
  end.

Definition produce_output (fuel : nat) (scratch : list Z * Z) (p : ProbeState) : res (ProbeState * bool) :=
  produce_loop fuel scratch (set_output p [] 0).

(** The parent draining the join: the batches [exec_batch] publishes, each
    with the probe batch its rows point into. *)
Fixpoint run_join (fuel : nat) (turns : nat) (scratch : list Z * Z) (p : ProbeState)
    : res (list (JoinInput * list (Z * Z))) :=
  match fuel with
  | O => Undefined
  | S fuel =>
      r ← produce_output turns scratch p;
      if r.2 : bool then
        match ps_batch r.1 with
        | None => Undefined
        | Some b => rest ← run_join fuel turns scratch r.1; Ok ((pb_input b, ps_output r.1) :: rest)
        end
      else Ok []
  end.

(** The state [hash_join_begin] and a rescan leave. *)
Definition start_probe (inputs : list JoinInput) : ProbeState := mkProbeState None (-1) [] false [] 0 inputs.
End probe.
