(* ===== verification/JoinProbeProps.v ===== *)
(** * The probe side of the hash join: what a turn does

    A pair is a probe row and a build row with the same keys.  Every turn of
    [produce_output] moves pairs from what is left of the probe batch (lanes
    and rows not looked up) to the output, losing and inventing none. *)

From S2P Require Import Prelude Words Selection Vector Kernels Int4 Hash Spill JoinStore JoinStoreProps JoinDirectory JoinBuild JoinBuildProps JoinProbe.

Lemma build_chain_more `{PgCore} n s link l : build_chain n s link = Ok l → build_chain (S n) s link = Ok l.
Proof.
  revert link l. induction n as [|n IH]; intros link l E.
  - cbn in *. by destruct (link =? 0).
  - change (build_chain (S (S n)) s link) with (if link =? 0 then Ok [] else
      first ← aref (bs_links s) (link - 1); rest ← build_chain (S n) s (bl_next first); Ok (link - 1 :: rest)).
    cbn [build_chain] in E. destruct (link =? 0); [done|]. apply bind_ok_inv in E as (first & -> & E). rewrite bind_Ok.
    apply bind_ok_inv in E as (rest & Er & E). by rewrite (IH _ _ Er), bind_Ok.
Qed.

Lemma row_values_probe n columns outer row vs :
  Forall (input_ok n) columns → Forall (λ k, 0 ≤ k < zlength columns) outer → 0 ≤ row < n →
  row_values outer (input_cells columns row) = Some vs → probe_keys n columns row outer vs.
Proof.
  intros Hin Ho Hr Evs. split; [done|]. unfold row_values in Evs. revert vs Evs.
  induction Ho as [|c outer Hc _ IH]; intros vs Evs; cbn in Evs; [injection Evs as <-; constructor|].
  destruct (zget None (input_cells columns row) c) as [v|] eqn:Ec; [|done]. cbn in Evs.
  destruct (mapM (zget None (input_cells columns row)) outer) as [vs'|]; [|done]. injection Evs as <-.
  constructor; [|by apply IH]. split; [lia|]. unfold input_cells, zget in Ec. rewrite list_lookup_fmap in Ec.
  destruct (columns !! Z.to_nat c) as [input|] eqn:Ei; [|done]. exists input. split; [done|].
  split; [by eapply Forall_lookup_1 in Hin|done].
Qed.

Section probe.
Context `{PgCore} `{!ReversibleHash}.
Variables (s : BuildStore) (keys : list (Z * Z)) (rows : list build_row) (nouter max_rows : Z).
Hypothesis Htable : join_table s keys rows.
Hypothesis Hinner : Forall (λ k, 0 ≤ k < bs_ncolumns s) keys.*1.
Hypothesis Houter : Forall (λ k, 0 ≤ k < nouter) keys.*2.

Abbreviation cap := (output_capacity max_rows).

Lemma cap_bounds : 1 ≤ cap ≤ 64.
Proof. unfold output_capacity, PG_BATCH_SIZE. destruct (Z.ltb_spec 0 max_rows); lia. Qed.

(** The pairs of a probe row. *)
Definition row_pairs (batch : JoinInput) (row : Z) : list (Z * Z) :=
  match row_values keys.*2 (input_cells (ji_columns batch) row) with
  | Some vs => (row,.) <$> matching_rows keys.*1 rows vs
  | None => []
  end.

Record probe_ok (b : ProbeBatch) : Prop := {
  po_input : join_input_ok nouter (pb_input b);
  po_hashed : hashed_batch keys.*2 (pb_input b) (pb_hashes b, pb_hash_rows b);
}.

(** ** Lanes *)

Definition chain_length : nat := length rows.

Definition lane_pairs (lane : Z * Z) : list (Z * Z) :=
  match build_chain chain_length s lane.2 with Ok l => (lane.1,.) <$> l | _ => [] end.

Definition lane_ok (b : ProbeBatch) (lane : Z * Z) : Prop :=
  0 ≤ lane.1 < nrows (ji_selection (pb_input b)) ∧ (∃ l, build_chain chain_length s lane.2 = Ok l) ∧
  Forall (λ pair : Z * Z, 0 ≤ pair.2 < zlength rows) (lane_pairs lane).

Lemma lane_step b row link :
  lane_ok b (row, link) → link ≠ 0 →
  ∃ l, aref (bs_links s) (link - 1) = Ok l ∧ lane_ok b (row, bl_next l) ∧
    lane_pairs (row, link) = (row, link - 1) :: lane_pairs (row, bl_next l).
Proof.
  intros (Hr & (l & Hl) & Hb) Hne. unfold lane_ok, lane_pairs in *. cbn [fst snd] in *. rewrite Hl in *.
  destruct chain_length as [|n]; cbn [build_chain] in Hl; destruct (Z.eqb_spec link 0) as [|_]; try done.
  apply bind_ok_inv in Hl as (first & -> & Hl). apply bind_ok_inv in Hl as (rest & Hrest & Hl). injection Hl as <-.
  exists first. split; [done|]. rewrite (build_chain_more _ _ _ _ Hrest). rewrite fmap_cons in *.
  apply Forall_cons in Hb as [_ Hb]. split; [|done]. split; [done|]. split; [by eexists|done].
Qed.

Lemma lane_end row : lane_pairs (row, 0) = [].
Proof. unfold lane_pairs. cbn. by destruct chain_length. Qed.

Lemma matching_rows_range vs : Forall (λ r, 0 ≤ r < zlength rows) (matching_rows keys.*1 rows vs).
Proof.
  unfold matching_rows. apply Forall_reverse, Forall_forall. intros r [_ Hr%elem_of_seqZ]%list_elem_of_filter. lia.
Qed.

(** Looking up a selected row: it has no hash and no pairs, or its lane has its
    pairs. *)
Lemma lookup_row b row :
  probe_ok b → row ∈ selected_rows (ji_selection (pb_input b)) →
  (load_probe_hash b row = Ok None ∧ row_pairs (pb_input b) row = []) ∨
  ∃ hash link, load_probe_hash b row = Ok (Some hash) ∧ probe_head s keys b hash row = Ok link ∧
    lane_ok b (row, link) ∧ lane_pairs (row, link) = row_pairs (pb_input b) row.
Proof.
  intros [[Hsel Hcl Hsize Hlen Hin] [Hh Hw Hrows Hhash]] Hrow. cbn in *.
  pose proof Hrow as Hr. apply contains_selected_rows in Hr as [Hr _].
  set (batch := pb_input b) in *. set (cells := input_cells (ji_columns batch) row).
  assert (Hbit : Z.testbit (pb_hash_rows b) row = true ↔ is_Some (row_values keys.*2 cells)).
  { rewrite <- elem_of_bits_of, Hrows, list_elem_of_filter by done. unfold cells. tauto. }
  unfold load_probe_hash. rewrite land_bit64_zero by (done || lia).
  unfold row_pairs. fold cells. destruct (row_values keys.*2 cells) as [vs|] eqn:Evs.
  - right. rewrite (proj2 Hbit) by done. cbn [negb]. rewrite (aref_ok 0), bind_Ok, (Hhash row vs) by (done || lia).
    destruct (jt_lookup _ _ _ Htable (nrows (ji_selection batch)) (ji_columns batch) row vs) as (link & Hfind & Hchain).
    { apply row_values_probe; [done| |done|done]. by rewrite Hlen. }
    exists (keys_hash vs), link. split; [done|]. split; [done|]. unfold lane_ok, lane_pairs. cbn [fst snd].
    fold chain_length in Hchain. rewrite Hchain. split; [|done]. split; [done|]. split; [by eexists|].
    apply Forall_fmap. eapply Forall_impl; [apply matching_rows_range|]. done.
  - left. destruct (Z.testbit (pb_hash_rows b) row) eqn:E; [|done]. by destruct (proj1 Hbit eq_refl).
Qed.

(** ** Windows *)

Definition pair_ok (b : ProbeBatch) (pair : Z * Z) : Prop :=
  0 ≤ pair.1 < nrows (ji_selection (pb_input b)) ∧ 0 ≤ pair.2 < zlength rows.

Abbreviation all_pairs f l := (mjoin (f <$> l)).

Definition pending_rows (batch : JoinInput) (row : Z) : list (Z * Z) :=
  all_pairs (row_pairs batch) (rows_after (ji_selection batch) row).

(** Bounds on the turns left: a row is looked up once and its lane visited once
    per pair and once more. *)
Definition lane_work (lanes : list (Z * Z)) : nat := sum_list_with (λ lane, S (length (lane_pairs lane))) lanes.
Definition row_work (batch : JoinInput) (l : list Z) : nat :=
  sum_list_with (λ row, S (S (length (row_pairs batch row)))) l.

Lemma lane_work_cons lane lanes : lane_work (lane :: lanes) = (S (length (lane_pairs lane)) + lane_work lanes)%nat.
Proof. done. Qed.

Lemma rows_after_selected sel row r : -1 ≤ row → r ∈ rows_after sel row → r ∈ selected_rows sel.
Proof.
  intros Hrow [Hr Hin%elem_of_seqZ]%list_elem_of_filter. apply contains_selected_rows. split; [lia|done].
Qed.

Lemma lane_pairs_ok b lane : lane_ok b lane → Forall (pair_ok b) (lane_pairs lane).
Proof.
  intros (Hr & (l & Hl) & Hb). unfold lane_pairs in *. rewrite Hl in *. rewrite Forall_fmap in *.
  eapply Forall_impl; [exact Hb|]. by intros r Hr'.
Qed.

Lemma window_loop_ok b fuel : ∀ row lanes,
  probe_ok b → -1 ≤ row → nrows (ji_selection (pb_input b)) - row - 1 ≤ Z.of_nat fuel →
  ∃ next new, window_loop s keys fuel b row row lanes = Ok (next, lanes ++ new) ∧ -1 ≤ next ∧
    Forall (lane_ok b) new ∧
    pending_rows (pb_input b) row = all_pairs lane_pairs new ++ pending_rows (pb_input b) next ∧
    (zlength (lanes ++ new) < 64 → rows_after (ji_selection (pb_input b)) next = []) ∧
    (lane_work new + length new + row_work (pb_input b) (rows_after (ji_selection (pb_input b)) next) ≤
     row_work (pb_input b) (rows_after (ji_selection (pb_input b)) row))%nat.
Proof.
  induction fuel as [|fuel IH]; intros row lanes Hb Hrow Hfuel; cbn [window_loop]; unfold PG_BATCH_SIZE;
    (destruct (Z.ltb_spec (zlength lanes) 64);
      [|exists row, []; rewrite app_nil_r; split_and!; try done; (lia || constructor)]);
    destruct (next_rows (ji_selection (pb_input b)) row) as (r & -> & Hr); [apply Hb|done| |apply Hb|done|];
    rewrite bind_Ok; destruct Hr as [[-> Hnone]|[Hrange Hsome]];
    [exists row, []; rewrite app_nil_r; split_and!; try done; (lia || constructor)| |
     exists row, []; rewrite app_nil_r; split_and!; try done; (lia || constructor)|]; [lia|].
  destruct (Z.ltb_spec r 0); [lia|].
  assert (Hin : r ∈ selected_rows (ji_selection (pb_input b))).
  { apply (rows_after_selected _ row); [done|]. rewrite Hsome. by left. }
  assert (Hpend : pending_rows (pb_input b) row = row_pairs (pb_input b) r ++ pending_rows (pb_input b) r).
  { unfold pending_rows. by rewrite Hsome. }
  assert (Hwork : row_work (pb_input b) (rows_after (ji_selection (pb_input b)) row) =
    S (S (length (row_pairs (pb_input b) r) + row_work (pb_input b) (rows_after (ji_selection (pb_input b)) r)))).
  { unfold row_work. by rewrite Hsome. }
  destruct (lookup_row b r Hb Hin) as [[-> Hnil]|(hash & link & -> & El & Hlane & Hpairs)];
    rewrite bind_Ok; [|rewrite El, bind_Ok].
  - destruct (IH r lanes Hb) as (next & new & -> & ? & ? & Hp & ? & ?); [lia|lia|].
    exists next, new. rewrite Hpend, Hnil, Hp. split_and!; (done || lia).
  - destruct (IH r (lanes ++ [(r, link)]) Hb) as (next & new & -> & ? & ? & Hp & Hend & ?); [lia|lia|].
    exists next, ((r, link) :: new). rewrite <- app_assoc in *. split_and!; try done.
    + by constructor.
    + rewrite Hpend, Hp, <- Hpairs, app_assoc. done.
    + rewrite lane_work_cons, Hpairs. cbn [length]. lia.
Qed.

(** With unique build keys a row has at most one pair. *)
Lemma unique_pairs batch row : bs_has_duplicates s = false → (length (row_pairs batch row) ≤ 1)%nat.
Proof.
  intros Hd. rewrite (jt_duplicates _ _ _ Htable) in Hd. apply negb_false_iff, bool_decide_eq_true in Hd.
  unfold row_pairs. destruct (row_values _ _) as [vs|]; [|cbn; lia]. rewrite length_fmap. unfold matching_rows.
  rewrite length_reverse. set (l := filter _ _).
  assert (Hnd : NoDup l) by apply NoDup_filter, NoDup_seqZ.
  assert (Hall : ∀ i j, i ∈ l → j ∈ l → i = j).
  { intros i j [Hi Hir%elem_of_seqZ]%list_elem_of_filter [Hj Hjr%elem_of_seqZ]%list_elem_of_filter.
    rewrite <- list_lookup_fmap in Hi, Hj. apply Z2Nat.inj; [lia|lia|]. exact (NoDup_lookup _ _ _ _ Hd Hi Hj). }
  destruct l as [|i [|j l]]; cbn; try lia. exfalso. specialize (Hall i j).
  apply NoDup_cons in Hnd as [Hnin _]. apply Hnin. rewrite Hall; [by left|by left|by right; left].
Qed.

Lemma unique_loop_ok b fuel : ∀ row out,
  bs_has_duplicates s = false → probe_ok b → -1 ≤ row →
  nrows (ji_selection (pb_input b)) - row - 1 ≤ Z.of_nat fuel → zlength out ≤ cap →
  ∃ next new, unique_loop s keys max_rows fuel b row row out = Ok (next, out ++ new) ∧ -1 ≤ next ∧
    Forall (pair_ok b) new ∧ zlength (out ++ new) ≤ cap ∧
    pending_rows (pb_input b) row = new ++ pending_rows (pb_input b) next ∧
    (zlength (out ++ new) < cap → rows_after (ji_selection (pb_input b)) next = []) ∧
    (length new + row_work (pb_input b) (rows_after (ji_selection (pb_input b)) next) ≤
     row_work (pb_input b) (rows_after (ji_selection (pb_input b)) row))%nat.
Proof.
  induction fuel as [|fuel IH]; intros row out Hd Hb Hrow Hfuel Hout; cbn [unique_loop];
    (destruct (Z.ltb_spec (zlength out) cap);
      [|exists row, []; rewrite app_nil_r; split_and!; try done; (lia || constructor)]);
    destruct (next_rows (ji_selection (pb_input b)) row) as (r & -> & Hr); [apply Hb|done| |apply Hb|done|];
    rewrite bind_Ok; destruct Hr as [[-> Hnone]|[Hrange Hsome]];
    [exists row, []; rewrite app_nil_r; split_and!; try done; (lia || constructor)| |
     exists row, []; rewrite app_nil_r; split_and!; try done; (lia || constructor)|]; [lia|].
  destruct (Z.ltb_spec r 0); [lia|].
  assert (Hin : r ∈ selected_rows (ji_selection (pb_input b))).
  { apply (rows_after_selected _ row); [done|]. rewrite Hsome. by left. }
  assert (Hpend : pending_rows (pb_input b) row = row_pairs (pb_input b) r ++ pending_rows (pb_input b) r).
  { unfold pending_rows. by rewrite Hsome. }
  assert (Hwork : row_work (pb_input b) (rows_after (ji_selection (pb_input b)) row) =
    S (S (length (row_pairs (pb_input b) r) + row_work (pb_input b) (rows_after (ji_selection (pb_input b)) r)))).
  { unfold row_work. by rewrite Hsome. }
  destruct (lookup_row b r Hb Hin) as [[-> Hnil]|(hash & link & -> & El & Hlane & Hpairs)];
    rewrite bind_Ok; [|rewrite El, bind_Ok].
  - destruct (IH r out Hd Hb) as (next & new & -> & ? & ? & ? & Hp & ? & ?); [lia|lia|done|].
    exists next, new. rewrite Hpend, Hnil, Hp. split_and!; (done || lia).
  - pose proof (lane_pairs_ok _ _ Hlane) as Hok. pose proof (unique_pairs (pb_input b) r Hd) as Hone.
    rewrite Hpairs in Hok. rewrite Hpend. destruct (Z.eqb_spec link 0) as [->|Hne].
    + rewrite lane_end in Hpairs. rewrite <- Hpairs.
      destruct (IH r out Hd Hb) as (next & new & -> & ? & ? & ? & Hp & ? & ?); [lia|lia|done|].
      exists next, new. rewrite Hp. split_and!; (done || lia).
    + destruct (lane_step _ _ _ Hlane Hne) as (l & _ & _ & Hstep). rewrite Hstep in Hpairs.
      rewrite <- Hpairs in *. destruct (lane_pairs (r, bl_next l)); cbn in Hone; [|lia].
      destruct (IH r (out ++ [(r, link - 1)]) Hd Hb) as (next & new & -> & ? & ? & ? & Hp & ? & ?); [lia|lia| |].
      { rewrite length_app. cbn. lia. }
      exists next, ((r, link - 1) :: new). rewrite <- app_assoc in *. rewrite Hp. split_and!; try done.
      * constructor; [by apply Forall_cons in Hok as [? _]|done].
      * cbn in *. lia.
Qed.

(** ** Rounds *)

Abbreviation live lanes := (filter (λ lane : Z * Z, lane.2 ≠ 0) lanes).

Lemma live_snoc vis lane : live (vis ++ [lane]) = if decide (lane.2 ≠ 0) then live vis ++ [lane] else live vis.
Proof. rewrite filter_app, filter_cons, filter_nil. case_decide; [done|]. by rewrite app_nil_r. Qed.

(** What is left of the lanes after a round: those visited and still live, and
    those not reached. *)
Lemma round_loop_ok b lanes : ∀ visited out,
  Forall (lane_ok b) lanes → zlength out < cap →
  ∃ vis un new, round_loop s max_rows lanes visited out = Ok (visited ++ vis, un, out ++ new) ∧
    zlength (out ++ new) ≤ cap ∧ Forall (lane_ok b) (live vis ++ un) ∧ Forall (pair_ok b) new ∧
    all_pairs lane_pairs lanes ≡ₚ new ++ all_pairs lane_pairs (live vis ++ un) ∧
    (lane_work (live vis ++ un) ≤ lane_work lanes)%nat ∧
    (lanes ≠ [] → (lane_work (live vis ++ un) < lane_work lanes)%nat).
Proof.
  pose proof cap_bounds as Hcap. induction lanes as [|[row link] lanes IH]; intros visited out Hl Hout; cbn [round_loop].
  { exists [], [], []. rewrite !app_nil_r. split_and!; (done || lia). }
  apply Forall_cons in Hl as [Hlane Hl]. destruct (Z.eqb_spec link 0) as [->|Hne].
  - destruct (IH (visited ++ [(row, 0)]) out Hl Hout) as (vis & un & new & -> & ? & ? & ? & Hp & Hw & _).
    exists ((row, 0) :: vis), un, new. rewrite <- app_assoc, filter_cons_False by (cbn; lia).
    rewrite fmap_cons, lane_work_cons, lane_end. split_and!; (done || (intros; lia)).
  - unfold PG_BATCH_SIZE. destruct (Z.ltb_spec (zlength out) 64); [|lia]. cbn [assert_].
    destruct (lane_step _ _ _ Hlane Hne) as (l & -> & Hnext & Hpairs). rewrite !bind_Ok.
    pose proof (lane_pairs_ok _ _ Hlane) as Hok. rewrite Hpairs in Hok. apply Forall_cons in Hok as [Hpair _].
    assert (Hlive : all_pairs lane_pairs (live [(row, bl_next l)]) = lane_pairs (row, bl_next l) ∧
      (lane_work (live [(row, bl_next l)]) ≤ S (length (lane_pairs (row, bl_next l))))%nat).
    { rewrite filter_cons, filter_nil. case_decide as E; cbn [snd] in E.
      - split; [by cbn; rewrite app_nil_r|]. rewrite lane_work_cons. cbn. lia.
      - assert (bl_next l = 0) as -> by lia. rewrite lane_end. cbn. split; [done|lia]. }
    destruct Hlive as [Hlivep Hlivew]. rewrite fmap_cons, lane_work_cons, Hpairs. cbn [length].
    change (mjoin (((row, link - 1) :: lane_pairs (row, bl_next l)) :: (lane_pairs <$> lanes)))
      with ((row, link - 1) :: lane_pairs (row, bl_next l) ++ all_pairs lane_pairs lanes).
    assert (Hlen : zlength (out ++ [(row, link - 1)]) = zlength out + 1) by (rewrite length_app; cbn; lia).
    destruct (Z.eqb_spec (zlength (out ++ [(row, link - 1)])) cap).
    + exists [(row, bl_next l)], lanes, [(row, link - 1)].
      rewrite fmap_app, join_app, Hlivep. unfold lane_work in *. rewrite sum_list_with_app.
      split_and!; try done; try lia; try (intros; lia); [|by constructor].
      apply Forall_app. split; [|done]. rewrite filter_cons, filter_nil. case_decide; [by constructor|constructor].
    + destruct (IH (visited ++ [(row, bl_next l)]) (out ++ [(row, link - 1)]) Hl)
        as (vis & un & new & -> & Hle & Hvok & Hnok & Hp & Hw & _); [lia|].
      exists ((row, bl_next l) :: vis), un, ((row, link - 1) :: new). rewrite <- !app_assoc in *.
      change ((row, bl_next l) :: vis) with ([(row, bl_next l)] ++ vis). rewrite filter_app, <- app_assoc, fmap_app, join_app, Hlivep.
      unfold lane_work in *. rewrite sum_list_with_app.
      split_and!; try done; try (intros; lia).
      * apply Forall_app. split; [|done]. rewrite filter_cons, filter_nil. case_decide; [by constructor|constructor].
      * by constructor.
      * rewrite Hp. cbn. apply Permutation_skip. rewrite !app_assoc. apply Permutation_app_tail, Permutation_app_comm.
Qed.

Lemma probe_round_ok b p :
  Forall (lane_ok b) (ps_lanes p) → zlength (ps_output p) < cap → ps_lanes p ≠ [] →
  ∃ lanes new, probe_round s max_rows p = Ok (set_output (set_lanes p (ps_next_row p) lanes) (ps_output p ++ new) (ps_qualified p)) ∧
    zlength (ps_output p ++ new) ≤ cap ∧ Forall (lane_ok b) lanes ∧ Forall (pair_ok b) new ∧
    all_pairs lane_pairs (ps_lanes p) ≡ₚ new ++ all_pairs lane_pairs lanes ∧
    (lane_work lanes < lane_work (ps_lanes p))%nat.
Proof.
  intros Hl Ho Hne. destruct (round_loop_ok b (ps_lanes p) [] (ps_output p) Hl Ho)
    as (vis & un & new & E & ? & ? & ? & ? & _ & ?). unfold probe_round. rewrite E, bind_Ok. cbn [app].
  exists (live vis ++ un), new. split_and!; (done || auto).
Qed.
End probe.
