(* ===== verification/JoinQualProps.v ===== *)
(** * The probe side of the hash join: qualification

    [qualify_output] keeps, in order, the candidate pairs on which every join
    condition and the remaining qual are true; a NULL operand or result rejects
    a pair. *)

From S2P Require Import Prelude Words Selection Vector Kernels Int4 Hash Spill JoinStore JoinStoreProps JoinDirectory JoinBuild JoinBuildProps JoinProbe JoinProbeProps.

Section qual.
Context `{PgCore} `{!ReversibleHash}.
Variables (s : BuildStore) (rows : list build_row) (nouter natts : Z) (quals : list BatchJoinQual)
  (needed : list Z).
Variable call_function : Oid → Z → Z → res (option bool).
Variable exec_qual : option (list (Z * bool) → res bool).
(** Conditions that are not built in and the remaining qual return a value. *)
Variable function_result : Oid → Z → Z → option bool.
Variable qual_result : list (Z * bool) → bool.

Hypothesis Hstore : store_holds s rows.
Hypothesis Hnatts : natts = nouter + bs_ncolumns s.
Hypothesis Hnouter : 0 ≤ nouter.
Hypothesis Hquals : Forall (λ q, 0 ≤ bq_left_column q < natts ∧ 0 ≤ bq_right_column q < natts ∧
  (bq_builtin q = true → is_Some (pg_batch_int4_compare_op (bq_funcid q) 0))) quals.
Hypothesis Hneeded : Forall (λ c, 0 ≤ c < natts) needed.
Hypothesis Hcall : ∀ f l r, call_function f l r = Ok (function_result f l r).
Hypothesis Hexec : ∀ exec, exec_qual = Some exec → ∀ slot, exec slot = Ok (qual_result slot).

(** A column of the joined row: the outer row's columns, then the inner's. *)
Definition raw_cell (batch : JoinInput) (pair : Z * Z) (column : Z) : option Z :=
  if column <? nouter then zget None (input_cells (ji_columns batch) pair.1) column
  else match rows !! Z.to_nat pair.2 with Some row => zget None row.2 (column - nouter) | None => None end.

Definition condition_result (q : BatchJoinQual) (l r : Z) : bool :=
  if bq_builtin q then
    match pg_batch_int4_compare_op (bq_funcid q) 0 with Some op => pg_batch_int4_compare l r op | None => false end
  else default false (function_result (bq_funcid q) l r).

(** A condition is true on a joined row, given by its cells. *)
Definition condition_on (cells : Z → option Z) (q : BatchJoinQual) : bool :=
  match cells (bq_left_column q), cells (bq_right_column q) with
  | Some l, Some r => condition_result q l r
  | _, _ => false
  end.

Definition slot_of (cells : Z → option Z) : list (Z * bool) :=
  (λ c, match (if decide (c ∈ needed) then cells c else None) with
        | Some v => (v, false) | None => (0, true) end) <$> seqZ 0 natts.

Definition scalar_on (cells : Z → option Z) : bool :=
  match exec_qual with None => true | Some _ => qual_result (slot_of cells) end.

(** What the conditions and the remaining qual say of a joined row. *)
Definition cells_pass (cells : Z → option Z) : bool := forallb (condition_on cells) quals && scalar_on cells.

Lemma cells_pass_ext f g : (∀ c, f c = g c) → cells_pass f = cells_pass g.
Proof using Type.
  intros E. unfold cells_pass, scalar_on. f_equal.
  - assert (∀ qs, forallb (condition_on f) qs = forallb (condition_on g) qs) as Hqs; [|apply Hqs].
    induction qs as [|q qs IH]; [done|]. cbn. rewrite IH. f_equal. unfold condition_on. by rewrite !E.
  - assert (slot_of f = slot_of g) as ->; [|done]. apply list_fmap_ext. intros i c _. by rewrite E.
Qed.

Definition condition_holds (batch : JoinInput) (pair : Z * Z) := condition_on (raw_cell batch pair).
Definition raw_slot (batch : JoinInput) (pair : Z * Z) : list (Z * bool) := slot_of (raw_cell batch pair).
Definition scalar_holds (batch : JoinInput) (pair : Z * Z) : bool := scalar_on (raw_cell batch pair).
Definition pair_passes (batch : JoinInput) (pair : Z * Z) : bool := cells_pass (raw_cell batch pair).

(** ** Values *)

Lemma build_value_ok column row r :
  rows !! Z.to_nat row = Some r → 0 ≤ row → 0 ≤ column < bs_ncolumns s →
  ∃ v, build_value s column row = Ok v ∧ got v = zget None r.2 column.
Proof.
  intros Hr Hpos Hc. pose proof Hstore as []. pose proof (lookup_lt_Some _ _ _ Hr).
  assert (Hrow : 0 ≤ row < bs_nrows s) by lia.
  destruct (sw_columns column) as [Hv Hw _ _]; [done|lia|].
  pose proof (sw_cells _ _ column Hr Hc) as Hcell. rewrite Z2Nat.id in Hcell by lia.
  unfold build_value, build_value_valid. rewrite (aref_ok no_column), bind_Ok by lia. fold (column_of s column).
  rewrite (aref_ok 0), bind_Ok, land_bit64 by zlia. rewrite bind_Ok.
  fold (validity_at (column_of s column) row). unfold stored_cell in Hcell.
  destruct (validity_at (column_of s column) row); cbn [negb].
  - unfold stored_value_at. rewrite (aref_ok no_column), bind_Ok by lia. fold (column_of s column).
    rewrite (aref_ok 0), bind_Ok by lia. eexists; split; [done|]. by rewrite <- Hcell.
  - eexists; split; [done|]. by rewrite <- Hcell.
Qed.

Lemma raw_value_ok b pair column :
  join_input_ok nouter (pb_input b) → pair_ok rows b pair → 0 ≤ column < natts →
  ∃ v, raw_value s nouter b pair column = Ok v ∧ got v = raw_cell (pb_input b) pair column.
Proof.
  intros [Hsel Hcl Hsize Hlen Hin] [Hp Hr] Hc. unfold raw_value, raw_cell. destruct (Z.ltb_spec column nouter).
  - destruct (lookup_lt_is_Some_2 (ji_columns (pb_input b)) (Z.to_nat column)) as [input Hi]; [lia|].
    rewrite (aref_ok no_input) by lia. unfold zget. unfold input_cells. rewrite list_lookup_fmap, Hi. cbn.
    destruct (input_value_ok (nrows (ji_selection (pb_input b))) input pair.1) as (v & -> & Hg & _); [|done|by exists v].
    by eapply Forall_lookup_1 in Hin.
  - destruct (lookup_lt_is_Some_2 rows (Z.to_nat pair.2)) as [r Hrow]; [lia|]. rewrite Hrow.
    apply (build_value_ok _ _ r); [done|lia|lia].
Qed.

Lemma eval_builtin_ok q l r :
  bq_builtin q = true → is_Some (pg_batch_int4_compare_op (bq_funcid q) 0) →
  eval_builtin_int4_qual (bq_funcid q) l r = Ok (condition_result q l r).
Proof. intros Hb [op Hop]. unfold condition_result. rewrite Hb. by destruct (bq_funcid q). Qed.

Lemma apply_batch_qual_ok b out q row selected pair :
  join_input_ok nouter (pb_input b) → pair_ok rows b pair → q ∈ quals → 0 ≤ row → out !! Z.to_nat row = Some pair →
  apply_batch_qual s nouter call_function b out q row selected =
    Ok (if condition_holds (pb_input b) pair q then selected else Z.land selected (not64 (bit64 row))).
Proof.
  intros Hb Hp Hq Hrow Hpair. pose proof Hquals as Hqs. rewrite Forall_forall in Hqs.
  destruct (Hqs q Hq) as (Hl & Hr & Hop). pose proof (lookup_lt_Some _ _ _ Hpair). unfold apply_batch_qual.
  rewrite (aref_ok pair) by lia. unfold zget. rewrite Hpair. change (default pair (Some pair)) with pair. rewrite bind_Ok.
  destruct (raw_value_ok b pair (bq_left_column q) Hb Hp Hl) as ([l lnull] & -> & Hgl). rewrite bind_Ok.
  destruct (raw_value_ok b pair (bq_right_column q) Hb Hp Hr) as ([r rnull] & -> & Hgr). rewrite bind_Ok.
  unfold condition_holds, condition_on. rewrite <- Hgl, <- Hgr. unfold got. cbn [fst snd].
  destruct lnull, rnull; cbn [orb]; try done.
  destruct (bq_builtin q) eqn:Eb.
  - rewrite (eval_builtin_ok q) by auto. by rewrite bind_Ok; destruct (condition_result q l r).
  - rewrite Hcall, !bind_Ok. unfold condition_result. rewrite Eb. by destruct (default _ _).
Qed.

(** A loop that clears the bits of the rows that fail a test. *)
Lemma while_bits_filter (q : Z → bool) (body : Z → Z → res Z) w :
  is_u64 w → (∀ row acc, row ∈ bits_of w → body row acc = Ok (if q row then acc else Z.land acc (not64 (bit64 row)))) →
  ∃ w', while_bits 64 clear_bit w body w = Ok w' ∧ is_u64 w' ∧
    ∀ i, 0 ≤ i < 64 → Z.testbit w' i = Z.testbit w i && q i.
Proof.
  intros Hw Hbody. rewrite while_bits_spec by (done || apply clear_bit_lowest).
  destruct (foldM_inv (λ pre acc, is_u64 acc ∧ ∀ i, 0 ≤ i < 64 →
      Z.testbit acc i = Z.testbit w i && (negb (bool_decide (i ∈ pre)) || q i)) body (bits_of w) w)
    as (w' & -> & Hw' & Hbits).
  - split; [done|]. intros i Hi. by rewrite andb_true_r.
  - intros pre row post acc E [Hacc Hbits]. assert (Hin : row ∈ bits_of w) by (rewrite E; set_solver).
    pose proof (bits_of_lt _ _ Hin). rewrite Hbody by done. eexists; split; [done|]. split.
    { destruct (q row); auto with words. }
    intros i Hi. pose proof (bits_of_fresh _ _ _ _ E) as Hfresh. destruct (decide (i = row)) as [->|Hne].
    + rewrite (bool_decide_eq_true_2 (row ∈ pre ++ [row])) by set_solver. cbn [negb orb].
      specialize (Hbits row Hi). rewrite (bool_decide_eq_false_2 (row ∈ pre)) in Hbits by done. cbn [negb orb] in Hbits.
      rewrite andb_true_r in Hbits. destruct (q row); [by rewrite Hbits, andb_true_r|].
      rewrite Z.land_spec, testbit_not64, testbit_bit64, Z.eqb_refl by done.
      destruct (Z.leb_spec 0 row), (Z.ltb_spec row 64); try lia. cbn. by rewrite !andb_false_r.
    + rewrite (bool_decide_ext (i ∈ pre ++ [row]) (i ∈ pre)) by set_solver. rewrite <- Hbits by done.
      destruct (q row); [done|]. rewrite Z.land_spec, testbit_not64, testbit_bit64 by done.
      destruct (Z.eqb_spec i row), (Z.leb_spec 0 i), (Z.ltb_spec i 64); try lia. by rewrite andb_true_r.
  - exists w'. split; [done|]. split; [done|]. intros i Hi. rewrite Hbits by done.
    destruct (Z.testbit w i) eqn:Et; [|done]. cbn [andb].
    rewrite (bool_decide_eq_true_2 (i ∈ bits_of w)) by by apply elem_of_bits_of. done.
Qed.

Abbreviation pair_at out i := (zget (0, 0) out i).

(** The rows a word selects among the candidates. *)
Definition candidates (b : ProbeBatch) (out : list (Z * Z)) (w : Z) : Prop :=
  is_u64 w ∧ ∀ i, i ∈ bits_of w → 0 ≤ i < zlength out ∧ pair_ok rows b (pair_at out i).

Lemma candidates_bits b out w w' (q : Z → bool) :
  candidates b out w → is_u64 w' → (∀ i, 0 ≤ i < 64 → Z.testbit w' i = Z.testbit w i && q i) → candidates b out w'.
Proof.
  intros [Hw Hin] Hw' Hbits. split; [done|]. intros i Hi. apply Hin. pose proof (bits_of_lt _ _ Hi).
  apply elem_of_bits_of in Hi; [|done]. apply elem_of_bits_of; [done|]. rewrite Hbits in Hi by done. by bool_prop.
Qed.

Lemma apply_batch_quals_ok b out qs w :
  join_input_ok nouter (pb_input b) → candidates b out w → (∀ q, q ∈ qs → q ∈ quals) →
  ∃ w', apply_batch_quals s nouter call_function b out qs w = Ok w' ∧ candidates b out w' ∧
    ∀ i, 0 ≤ i < 64 → Z.testbit w' i = Z.testbit w i && forallb (condition_holds (pb_input b) (pair_at out i)) qs.
Proof.
  intros Hb Hw Hqs. revert w Hw Hqs. induction qs as [|q qs IH]; intros w Hw Hqs; cbn [apply_batch_quals forallb].
  { exists w. split; [done|]. split; [done|]. intros. by rewrite andb_true_r. }
  destruct (Z.eqb_spec w 0) as [->|Hne].
  { exists 0. split; [done|]. split; [done|]. intros. by rewrite Z.bits_0. }
  destruct (while_bits_filter (λ i, condition_holds (pb_input b) (pair_at out i) q)
    (apply_batch_qual s nouter call_function b out q) w) as (w1 & -> & Hw1 & Hbits); [apply Hw| |].
  { intros i acc Hi. destruct Hw as [_ Hin]. destruct (Hin i Hi) as [Hr Hp].
    destruct (lookup_lt_is_Some_2 out (Z.to_nat i)) as [pair Hpair]; [lia|].
    assert (pair_at out i = pair) as E by (unfold zget; by rewrite Hpair). rewrite E in *.
    apply apply_batch_qual_ok; [done|done|apply Hqs; by left|lia|done]. }
  rewrite bind_Ok. assert (Hc1 : candidates b out w1) by (eapply candidates_bits; [exact Hw|done|exact Hbits]).
  destruct (IH w1 Hc1) as (w2 & -> & Hc2 & Hbits2); [intros q' Hq'; apply Hqs; by right|].
  exists w2. split; [done|]. split; [done|]. intros i Hi. by rewrite Hbits2, Hbits, andb_assoc by done.
Qed.

Lemma fill_raw_slot_ok b pair :
  join_input_ok nouter (pb_input b) → pair_ok rows b pair →
  fill_raw_slot s nouter natts b pair needed = Ok (raw_slot (pb_input b) pair).
Proof.
  intros Hb Hp. unfold fill_raw_slot, raw_slot, slot_of. set (cell_of := λ (cs : list Z) c,
    match (if decide (c ∈ cs) then raw_cell (pb_input b) pair c else None) with
    | Some v => (v, false) | None => (0, true) end).
  assert (Hn : 0 ≤ natts) by (pose proof (sw_ncolumns _ _ Hstore); lia).
  destruct (foldM_inv (λ pre (slot : list (Z * bool)), slot = cell_of pre <$> seqZ 0 natts)
    (λ column slot, v ← raw_value s nouter b pair column; aset slot column (if v.2 : bool then (0, true) else v))
    needed (replicate (Z.to_nat natts) (0, true))) as (slot & -> & ->); [| |done].
  - apply list_eq_same_length with (n := Z.to_nat natts); [by rewrite length_fmap, length_seqZ|by rewrite length_replicate|].
    intros i x y Hi. rewrite lookup_replicate_2, list_lookup_fmap, lookup_seqZ_lt by lia. cbn. unfold cell_of.
    rewrite decide_False by set_solver. congruence.
  - intros pre c post slot E ->. assert (Hc : c ∈ needed) by (rewrite E; set_solver).
    pose proof Hneeded as Hnd. rewrite Forall_forall in Hnd. specialize (Hnd c Hc). cbn beta in Hnd.
    destruct (raw_value_ok b pair c Hb Hp Hnd) as ([v isnull] & -> & Hg). rewrite bind_Ok, aset_ok
      by (rewrite length_fmap, length_seqZ; lia). eexists; split; [done|].
    apply list_eq. intros i. destruct (decide (i < Z.to_nat natts)%nat) as [Hi|Hi].
    + destruct (decide (i = Z.to_nat c)) as [->|Hne].
      * rewrite list_lookup_insert_eq by (rewrite length_fmap, length_seqZ; lia).
        rewrite list_lookup_fmap, lookup_seqZ_lt by lia. cbn. rewrite Z2Nat.id, Z.add_0_l by lia. unfold cell_of.
        rewrite decide_True by set_solver. rewrite <- Hg. unfold got. cbn. by destruct isnull.
      * rewrite list_lookup_insert_ne, !list_lookup_fmap, lookup_seqZ_lt, Z.add_0_l by lia. cbn. unfold cell_of. f_equal.
        rewrite (decide_ext (Z.of_nat i ∈ pre ++ [c]) (Z.of_nat i ∈ pre)); [done|].
        rewrite elem_of_app, list_elem_of_singleton. split; [intros [|]; [done|lia]|by left].
    + rewrite !lookup_ge_None_2; [done|rewrite length_fmap, length_seqZ; lia|rewrite length_insert, length_fmap, length_seqZ; lia].
Qed.

Lemma passes_scalar_ok b pair :
  join_input_ok nouter (pb_input b) → pair_ok rows b pair →
  passes_scalar_qual s nouter natts needed exec_qual b pair = Ok (scalar_holds (pb_input b) pair).
Proof.
  intros Hb Hp. pose proof (fill_raw_slot_ok b pair Hb Hp) as Hslot. pose proof Hexec as Hex.
  unfold passes_scalar_qual, scalar_holds, scalar_on. destruct exec_qual as [exec|]; [|done].
  rewrite Hslot, bind_Ok. by apply (Hex exec).
Qed.

(** Moving the selected rows together. *)
Lemma compact_output_ok w first last out :
  is_u64 w → 0 ≤ first ≤ last → last ≤ zlength out → last ≤ 64 →
  ∃ st, compact_output w first last out = Ok st ∧ 0 ≤ st.1 ≤ zlength st.2 ∧
    take (Z.to_nat st.1) st.2 = take (Z.to_nat first) out ++
      ((λ i, pair_at out i) <$> filter (λ i, Z.testbit w i = true) (seqZ first (last - first))).
Proof.
  intros Hw Hf Hl H64. unfold compact_output.
  destruct (foldM_inv (λ pre (st : Z * list (Z * Z)), first ≤ st.1 ≤ first + zlength pre ∧ zlength st.2 = zlength out ∧
      take (Z.to_nat st.1) st.2 = take (Z.to_nat first) out ++ ((λ i, pair_at out i) <$> filter (λ i, Z.testbit w i = true) pre) ∧
      ∀ i, first + zlength pre ≤ i < zlength out → pair_at st.2 i = pair_at out i)
    (λ row st, if Z.land w (bit64 row) =? 0 then Ok st else
       pair ← aref st.2 row; out ← aset st.2 st.1 pair; Ok (st.1 + 1, out)) (seqZ first (last - first)) (first, out))
    as (st & -> & Hb & Hlen & Htake & _).
  - cbn. split; [lia|]. split; [done|]. split; [by rewrite app_nil_r|done].
  - intros pre row post [write o] E (Hb & Hlen & Htake & Hrest). cbn [fst snd] in *.
    assert (Hrow : row = first + zlength pre ∧ row < last).
    { assert (Hlk : seqZ first (last - first) !! length pre = Some row) by (rewrite E, lookup_app_r, Nat.sub_diag by lia; done).
      apply lookup_seqZ in Hlk. lia. }
    rewrite land_bit64_zero by lia. rewrite filter_app, filter_cons, filter_nil, length_app. cbn [length].
    destruct (Z.testbit w row) eqn:Et; cbn [negb].
    + rewrite (aref_ok (0, 0)), bind_Ok, aset_ok, bind_Ok by lia. eexists; split; [done|]. cbn [fst snd].
      rewrite length_insert, decide_True by done. split; [lia|]. split; [done|]. split.
      * replace (Z.to_nat (write + 1)) with (S (Z.to_nat write)) by lia.
        rewrite (take_S_r _ _ (pair_at o row)) by (apply list_lookup_insert_eq; lia).
        rewrite take_insert_ge, Htake, fmap_app, app_assoc by lia. cbn. by rewrite Hrest by lia.
      * intros i Hi. rewrite zget_insert_ne by lia. apply Hrest. lia.
    + eexists; split; [done|]. cbn [fst snd]. rewrite decide_False, app_nil_r by done.
      split; [lia|]. split; [done|]. split; [done|]. intros i Hi. apply Hrest. lia.
  - rewrite length_seqZ in Hb. exists st. split; [done|]. split; [lia|done].
Qed.

(** [pg_batch_nrows_mask] *)
Lemma nrows_mask_ok n : 1 ≤ n ≤ 64 → pg_batch_nrows_mask n = Ok (Z.ones n).
Proof.
  intros Hn. unfold pg_batch_nrows_mask, PG_BATCH_SIZE, PG_BATCH_ALL_ROWS.
  destruct (Z.ltb_spec 0 n), (Z.leb_spec n 64); try lia. cbn [assert_ andb]. by rewrite bind_Ok, shr_max_ones by lia.
Qed.

Lemma pair_at_seqZ (out : list (Z * Z)) first :
  0 ≤ first ≤ zlength out → (λ i, pair_at out i) <$> seqZ first (zlength out - first) = drop (Z.to_nat first) out.
Proof.
  intros Hf. apply list_eq. intros i. rewrite list_lookup_fmap, lookup_drop.
  destruct (decide (i < length out - Z.to_nat first)%nat) as [Hi|Hi].
  - rewrite lookup_seqZ_lt by lia. cbn. destruct (lookup_lt_is_Some_2 out (Z.to_nat first + i)) as [x Hx]; [lia|].
    rewrite Hx. unfold zget. replace (Z.to_nat (first + Z.of_nat i)) with (Z.to_nat first + i)%nat by lia. by rewrite Hx.
  - rewrite (lookup_ge_None_2 (seqZ _ _)) by (rewrite length_seqZ; lia). by rewrite lookup_ge_None_2 by lia.
Qed.

Lemma pair_at_filter (P : Z * Z → Prop) `{∀ x, Decision (P x)} (Q : Z → Prop) `{∀ x, Decision (Q x)} out first :
  0 ≤ first ≤ zlength out → (∀ i, first ≤ i < zlength out → Q i ↔ P (pair_at out i)) →
  (λ i, pair_at out i) <$> filter Q (seqZ first (zlength out - first)) = filter P (drop (Z.to_nat first) out).
Proof.
  intros Hf HPQ. rewrite <- pair_at_seqZ, list_filter_fmap' by done. f_equal. apply list_filter_iff'.
  intros i Hi%elem_of_seqZ. apply HPQ. lia.
Qed.

Lemma qualify_ok b p :
  join_input_ok nouter (pb_input b) → 0 ≤ ps_qualified p ≤ zlength (ps_output p) → 1 ≤ zlength (ps_output p) ≤ 64 →
  Forall (pair_ok rows b) (ps_output p) →
  let kept := take (Z.to_nat (ps_qualified p)) (ps_output p) ++
    filter (λ pair, pair_passes (pb_input b) pair = true) (drop (Z.to_nat (ps_qualified p)) (ps_output p)) in
  qualify_output s nouter natts quals needed call_function exec_qual b p = Ok (set_output p kept (zlength kept)).
Proof.
  intros Hb Hq Hlen Hok kept. unfold qualify_output. set (out := ps_output p) in *. set (first := ps_qualified p) in *.
  assert (Hbefore : (if first =? 0 then Ok 0 else pg_batch_nrows_mask first) = Ok (Z.ones first)).
  { destruct (Z.eqb_spec first 0) as [->|]; [done|]. by rewrite nrows_mask_ok by lia. }
  rewrite Hbefore, bind_Ok, nrows_mask_ok, bind_Ok by lia. set (selected := Z.land (Z.ones (zlength out)) (not64 (Z.ones first))).
  assert (Hsel : ∀ i, 0 ≤ i < 64 → Z.testbit selected i = (first <=? i) && (i <? zlength out)).
  { intros i Hi. unfold selected. rewrite Z.land_spec, testbit_not64, !testbit_ones by lia.
    destruct (Z.leb_spec 0 i), (Z.ltb_spec i 64), (Z.ltb_spec i first), (Z.leb_spec first i), (Z.ltb_spec i (zlength out)); try lia; done. }
  assert (Hcand : candidates b out selected).
  { split; [apply is_u64_land; [apply is_u64_ones; lia|apply is_u64_not64, is_u64_ones; lia]|].
    intros i Hi. pose proof (bits_of_lt _ _ Hi). apply elem_of_bits_of in Hi;
      [|apply is_u64_land; [apply is_u64_ones; lia|apply is_u64_not64, is_u64_ones; lia]].
    rewrite Hsel in Hi by done. bool_prop. split; [lia|]. by apply zget_Forall; [|lia]. }
  clearbody selected. destruct (Z.eqb_spec first (zlength out)) as [E|Hne].
  { subst kept. rewrite E, Nat2Z.id, firstn_all, drop_all, app_nil_r. f_equal. destruct p; cbn in *. by subst. }
  destruct (apply_batch_quals_ok b out quals selected Hb Hcand) as (w1 & Ew1 & Hc1 & Hbits1); [done|].
  destruct (while_bits_filter (λ i, scalar_holds (pb_input b) (pair_at out i))
    (λ row selected, pair ← aref out row; passes ← passes_scalar_qual s nouter natts needed exec_qual b pair;
       Ok (if passes : bool then selected else Z.land selected (not64 (bit64 row)))) w1) as (w2 & Ew2 & Hw2 & Hbits2);
    [apply Hc1| |].
  { intros i acc Hi. destruct Hc1 as [_ Hin]. destruct (Hin i Hi) as [Hr Hp].
    rewrite (aref_ok (0, 0)), bind_Ok, passes_scalar_ok, bind_Ok by done. done. }
  destruct (compact_output_ok w2 first (zlength out) out Hw2) as (st & Est & Hst & Htake); [lia|lia|lia|].
  assert (Hkept : take (Z.to_nat st.1) st.2 = kept).
  { rewrite Htake. subst kept. f_equal. apply pair_at_filter; [lia|]. intros i Hi.
    rewrite Hbits2, Hbits1, Hsel by lia. unfold pair_passes, cells_pass.
    destruct (Z.leb_spec first i), (Z.ltb_spec i (zlength out)); try lia. done. }
  assert (Hlast : zlength kept = st.1) by (rewrite <- Hkept, length_take; lia).
  assert (Hmain : (selected ← apply_batch_quals s nouter call_function b out quals selected;
      selected ← while_bits 64 clear_bit selected (λ row selected,
          pair ← aref out row;
          passes ← passes_scalar_qual s nouter natts needed exec_qual b pair;
          Ok (if passes : bool then selected else Z.land selected (not64 (bit64 row)))) selected;
      r ← compact_output selected first (zlength out) out;
      Ok (set_output p (take (Z.to_nat r.1) r.2) r.1)) = Ok (set_output p kept (zlength kept))).
  { by rewrite Ew1, bind_Ok, Ew2, bind_Ok, Est, bind_Ok, Hkept, Hlast. }
  assert (Hall : quals = [] → exec_qual = None → kept = out).
  { intros Eq Ee. subst kept. rewrite list_filter_all; [apply take_drop|]. apply Forall_forall. intros pair _.
    unfold pair_passes, cells_pass, scalar_on. by rewrite Eq, Ee. }
  destruct quals as [|q qs]; [|exact Hmain]. destruct exec_qual; [exact Hmain|]. by rewrite Hall.
Qed.
End qual.
