(* ===== verification/JoinProps.v ===== *)
(** * The hash join: its result

    Draining the join publishes batches of at most the requested size whose
    pairs are, in some order, exactly the pairs of probe and build rows with
    equal keys that pass the conditions.  The order of the pairs of one probe
    batch follows the rounds and is not specified. *)

From S2P Require Import Prelude Words Selection Vector Kernels Int4 Hash Spill JoinStore JoinStoreProps JoinDirectory JoinBuild JoinBuildProps JoinProbe JoinProbeProps JoinQualProps.

Section join.
Context `{PgCore} `{!ReversibleHash}.
Variables (s : BuildStore) (keys : list (Z * Z)) (rows : list build_row) (nouter natts max_rows : Z)
  (quals : list BatchJoinQual) (needed : list Z).
Variable call_function : Oid → Z → Z → res (option bool).
Variable exec_qual : option (list (Z * bool) → res bool).
Variable function_result : Oid → Z → Z → option bool.
Variable qual_result : list (Z * bool) → bool.

Hypothesis Htable : join_table s keys rows.
Hypothesis Hkeys : keys ≠ [].
Hypothesis Houter : Forall (λ k, 0 ≤ k < nouter) keys.*2.
Hypothesis Hnatts : natts = nouter + bs_ncolumns s.
Hypothesis Hnouter : 0 ≤ nouter.
Hypothesis Hquals : Forall (λ q, 0 ≤ bq_left_column q < natts ∧ 0 ≤ bq_right_column q < natts ∧
  (bq_builtin q = true → is_Some (pg_batch_int4_compare_op (bq_funcid q) 0))) quals.
Hypothesis Hneeded : Forall (λ c, 0 ≤ c < natts) needed.
Hypothesis Hcall : ∀ f l r, call_function f l r = Ok (function_result f l r).
Hypothesis Hexec : ∀ exec, exec_qual = Some exec → ∀ slot, exec slot = Ok (qual_result slot).

Abbreviation cap := (output_capacity max_rows).
Abbreviation all_pairs f l := (mjoin (f <$> l)).
Abbreviation passes := (pair_passes rows nouter natts quals needed exec_qual function_result qual_result).
Abbreviation lanes_of := (lane_pairs s rows).
Abbreviation qualify := (qualify_output s nouter natts quals needed call_function exec_qual).
Abbreviation produce := (produce_loop s keys nouter natts quals needed max_rows call_function exec_qual).

Definition tagged (batch : JoinInput) (l : list (Z * Z)) : list (JoinInput * (Z * Z)) := (batch,.) <$> l.
Definition qualified (batch : JoinInput) (l : list (Z * Z)) : list (Z * Z) :=
  filter (λ pair, passes batch pair = true) l.

(** The result of the join for some probe batches. *)
Definition batch_join (batch : JoinInput) : list (Z * Z) :=
  qualified batch (all_pairs (row_pairs keys rows batch) (selected_rows (ji_selection batch))).
Definition join_result (batches : list JoinInput) : list (JoinInput * (Z * Z)) :=
  all_pairs (λ batch, tagged batch (batch_join batch)) batches.

(** ** The state between turns *)

Definition pairs_left (p : ProbeState) (b : ProbeBatch) : list (Z * Z) :=
  if ps_done_pending p then []
  else all_pairs lanes_of (ps_lanes p) ++ pending_rows keys rows (pb_input b) (ps_next_row p).

(** Everything the state still owes: the output as it will be when qualified,
    the pairs left in the current batch and the batches to come. *)
Definition owed (p : ProbeState) : list (JoinInput * (Z * Z)) :=
  match ps_batch p with
  | Some b => tagged (pb_input b) (take (Z.to_nat (ps_qualified p)) (ps_output p) ++
                qualified (pb_input b) (drop (Z.to_nat (ps_qualified p)) (ps_output p)) ++
                qualified (pb_input b) (pairs_left p b))
  | None => []
  end ++ join_result (ps_inputs p).

Definition input_work (batch : JoinInput) : nat :=
  S (S (row_work keys rows batch (selected_rows (ji_selection batch)))).

(** The turns left. *)
Definition work (p : ProbeState) : nat :=
  match ps_batch p with
  | Some b => S (if ps_done_pending p then 0 else lane_work s rows (ps_lanes p) +
                   row_work keys rows (pb_input b) (rows_after (ji_selection (pb_input b)) (ps_next_row p)))
  | None => 0
  end + sum_list_with input_work (ps_inputs p).

Record probe_inv (p : ProbeState) : Prop := {
  pi_inputs : Forall (join_input_ok nouter) (ps_inputs p);
  pi_batch : match ps_batch p with
             | Some b => probe_ok keys nouter b ∧ -1 ≤ ps_next_row p ∧ Forall (lane_ok s rows b) (ps_lanes p) ∧
                         Forall (pair_ok rows b) (ps_output p)
             | None => ps_lanes p = [] ∧ ps_output p = []
             end;
  pi_pending : ps_done_pending p = true → ps_lanes p = [] ∧ ps_output p = [] ∧ is_Some (ps_batch p);
  pi_output : 0 ≤ ps_qualified p ≤ zlength (ps_output p) ∧ zlength (ps_output p) ≤ cap;
}.

Lemma qualified_app batch l l' : qualified batch (l ++ l') = qualified batch l ++ qualified batch l'.
Proof. apply filter_app. Qed.
Lemma tagged_app batch l l' : tagged batch (l ++ l') = tagged batch l ++ tagged batch l'.
Proof. apply fmap_app. Qed.

#[local] Instance qualified_perm batch : Proper ((≡ₚ) ==> (≡ₚ)) (qualified batch).
Proof. unfold qualified. solve_proper. Qed.
#[local] Instance tagged_perm batch : Proper ((≡ₚ) ==> (≡ₚ)) (tagged batch).
Proof. unfold tagged. solve_proper. Qed.

Ltac probe_fields := cbn [ps_batch ps_qualified ps_output ps_inputs ps_lanes ps_next_row ps_done_pending
  set_output set_lanes set_pending finish_probe_batch fst snd].

(** Moving pairs from what is left to the output. *)
Lemma owed_emit p b new next lanes :
  ps_batch p = Some b → ps_done_pending p = false → ps_qualified p ≤ zlength (ps_output p) →
  pairs_left p b ≡ₚ new ++ all_pairs lanes_of lanes ++ pending_rows keys rows (pb_input b) next →
  owed p ≡ₚ owed (set_output (set_lanes p next lanes) (ps_output p ++ new) (ps_qualified p)).
Proof.
  intros Eb Ed Hq Hp. unfold owed. probe_fields. rewrite Eb, Hp. unfold pairs_left. probe_fields. rewrite Ed.
  rewrite take_app_le, drop_app_le by lia. rewrite !qualified_app, <- !app_assoc. done.
Qed.

(** One turn over the lanes. *)
Lemma round_step p b :
  probe_inv p → ps_batch p = Some b → ps_done_pending p = false → ps_lanes p ≠ [] → zlength (ps_output p) < cap →
  ∃ p', probe_round s max_rows p = Ok p' ∧ probe_inv p' ∧ ps_batch p' = Some b ∧ ps_done_pending p' = false ∧
    owed p ≡ₚ owed p' ∧ (work p' < work p)%nat.
Proof.
  intros [Hi Hb Hpend [Hq Ho]] Eb Ed Hne Hlt. rewrite Eb in Hb. destruct Hb as (Hok & Hnext & Hl & Hout).
  destruct (probe_round_ok s rows max_rows b p Hl Hlt Hne) as (lanes & new & -> & Hle & Hlanes & Hnew & Hperm & Hwork).
  eexists; split; [done|]. split; [|split_and!; try done].
  - constructor; probe_fields; [done| |by rewrite Ed|rewrite length_app in *; lia]. rewrite Eb. split_and!; try done.
    by apply Forall_app.
  - apply owed_emit with (b := b); [done|done|lia|]. unfold pairs_left. by rewrite Ed, Hperm, app_assoc.
  - unfold work. probe_fields. rewrite Eb, Ed. lia.
Qed.

(** Qualifying settles the output. *)
Lemma qualify_step p b :
  probe_inv p → ps_batch p = Some b → 1 ≤ zlength (ps_output p) →
  ∃ p', qualify b p = Ok p' ∧ probe_inv p' ∧ ps_batch p' = Some b ∧ ps_done_pending p' = ps_done_pending p ∧
    ps_lanes p' = ps_lanes p ∧ ps_next_row p' = ps_next_row p ∧
    owed p' = owed p ∧ work p' = work p ∧ ps_qualified p' = zlength (ps_output p').
Proof.
  intros [Hi Hb Hpend [Hq Ho]] Eb Hne. rewrite Eb in Hb. destruct Hb as (Hok & Hnext & Hl & Hout).
  pose proof (cap_bounds max_rows).
  set (out := ps_output p) in *. set (q := ps_qualified p) in *.
  set (kept := take (Z.to_nat q) out ++ qualified (pb_input b) (drop (Z.to_nat q) out)).
  assert (Hkept : kept ⊆+ out).
  { transitivity (take (Z.to_nat q) out ++ drop (Z.to_nat q) out); [|by rewrite take_drop].
    apply submseteq_app; [done|]. apply sublist_submseteq, sublist_filter. }
  exists (set_output p kept (zlength kept)). split.
  { apply (qualify_ok s rows nouter natts quals needed call_function exec_qual function_result qual_result);
      try done; [apply Htable|apply Hok|fold out; lia]. }
  split; [|split_and!; try done].
  - constructor; probe_fields; [done| | |].
    + rewrite Eb. split_and!; try done. apply Forall_forall. intros pair Hpair. rewrite Forall_forall in Hout. apply Hout.
      by eapply elem_of_submseteq.
    + intros Hp. destruct (Hpend Hp) as (? & Hnil & ?). rewrite Hnil in Hne. cbn in Hne. lia.
    + apply submseteq_length in Hkept. lia.
  - unfold owed. probe_fields. rewrite Eb, Nat2Z.id, firstn_all, drop_all. unfold kept, pairs_left. probe_fields. fold out q.
    by rewrite !tagged_app, <- !app_assoc.
Qed.

(** The lanes of a window. *)
Lemma window_step p b :
  probe_inv p → ps_batch p = Some b → ps_done_pending p = false → ps_lanes p = [] →
  ∃ p' more, load_probe_window s keys b p = Ok (p', more) ∧ probe_inv p' ∧ ps_batch p' = Some b ∧
    ps_done_pending p' = false ∧ ps_output p' = ps_output p ∧ owed p ≡ₚ owed p' ∧ (work p' ≤ work p)%nat ∧
    if more : bool then (work p' < work p)%nat else pairs_left p' b = [] ∧ ps_lanes p' = [].
Proof.
  intros [Hi Hb Hpend [Hq Ho]] Eb Ed El. rewrite Eb in Hb. destruct Hb as (Hok & Hnext & Hl & Hout).
  unfold load_probe_window.
  destruct (window_loop_ok s keys rows nouter Htable Houter b (selection_fuel b) (ps_next_row p) [])
    as (next & new & -> & Hn & Hnew & Hp & Hend & Hwork); [done|done|unfold selection_fuel; lia|].
  rewrite bind_Ok. cbn [fst snd app] in *. eexists _, _. split; [done|]. split.
  { constructor; probe_fields; [done|by rewrite Eb|by rewrite Ed|done]. }
  split; [done|]. split; [done|]. split; [done|].
  assert (Hleft : pairs_left p b = all_pairs lanes_of new ++ pending_rows keys rows (pb_input b) next).
  { unfold pairs_left. by rewrite Ed, El. }
  assert (Howed : owed p = owed (set_lanes p next new)).
  { unfold owed. probe_fields. rewrite Eb, Hleft. unfold pairs_left. probe_fields. by rewrite Ed. }
  assert (Hw : (work (set_lanes p next new) + length new ≤ work p)%nat).
  { unfold work. probe_fields. rewrite Eb, Ed, El. cbn [lane_work sum_list_with]. lia. }
  rewrite Howed. split; [done|]. split; [lia|]. destruct (Z.ltb_spec 0 (zlength new)); [lia|].
  destruct new; [|cbn in *; lia]. split; [|done]. unfold pairs_left. probe_fields. rewrite Ed. unfold pending_rows.
  by rewrite Hend by (cbn; lia).
Qed.

(** The rows of a batch when the build keys are unique. *)
Lemma unique_step p b :
  probe_inv p → ps_batch p = Some b → ps_done_pending p = false → ps_lanes p = [] → bs_has_duplicates s = false →
  zlength (ps_output p) < cap →
  ∃ p' more, probe_unique_rows s keys max_rows b p = Ok (p', more) ∧ probe_inv p' ∧ ps_batch p' = Some b ∧
    ps_done_pending p' = false ∧ ps_lanes p' = [] ∧ owed p ≡ₚ owed p' ∧ (work p' ≤ work p)%nat ∧
    (length (ps_output p) < length (ps_output p') → work p' < work p)%nat ∧
    if more : bool then zlength (ps_output p') = cap else pairs_left p' b = [].
Proof.
  intros [Hi Hb Hpend [Hq Ho]] Eb Ed El Hdup Hlt. rewrite Eb in Hb. destruct Hb as (Hok & Hnext & Hl & Hout).
  unfold probe_unique_rows.
  destruct (unique_loop_ok s keys rows nouter max_rows Htable Houter b (selection_fuel b) (ps_next_row p) (ps_output p))
    as (next & new & -> & Hn & Hnew & Hcap & Hp & Hend & Hwork); [done|done|done|unfold selection_fuel; lia|lia|].
  rewrite bind_Ok. cbn [fst snd] in *. eexists _, _. split; [done|]. split.
  { constructor; probe_fields; [done| |by rewrite Ed|rewrite length_app in *; lia]. rewrite Eb, El.
    split_and!; try done. by apply Forall_app. }
  split; [done|]. split; [done|]. split; [done|]. split.
  { apply owed_emit with (b := b); [done|done|lia|]. unfold pairs_left. by rewrite Ed, El, Hp. }
  assert (Hw : (work (set_output (set_lanes p next (ps_lanes p)) (ps_output p ++ new) (ps_qualified p)) + length new ≤ work p)%nat).
  { unfold work. probe_fields. rewrite Eb, Ed. lia. }
  pose proof (length_app (ps_output p) new) as Hlen. split; [lia|]. split; [revert Hw; probe_fields; lia|].
  probe_fields. destruct (Z.eqb_spec (zlength (ps_output p ++ new)) cap) as [E|Hne]; [exact E|].
  unfold pairs_left. probe_fields. rewrite Ed, El. unfold pending_rows. by rewrite Hend by lia.
Qed.

(** The next batch of the outer plan. *)
Lemma fetch_step p scratch :
  probe_inv p → ps_batch p = None → 64 ≤ zlength scratch.1 → is_u64 scratch.2 →
  (fetch_probe_batch keys scratch p = Ok None ∧ owed p = []) ∨
  ∃ p' b, fetch_probe_batch keys scratch p = Ok (Some p') ∧ probe_inv p' ∧ ps_batch p' = Some b ∧
    ps_done_pending p' = false ∧ ps_lanes p' = [] ∧ ps_output p' = [] ∧ owed p = owed p' ∧ (work p' < work p)%nat.
Proof.
  intros [Hi Hb Hpend [Hq Ho]] Eb Hs Hw. rewrite Eb in Hb. destruct Hb as [El Eo].
  assert (Ed : ps_done_pending p = false).
  { destruct (ps_done_pending p); [|done]. destruct (Hpend eq_refl) as (_ & _ & [? E]). congruence. }
  unfold fetch_probe_batch. destruct (ps_inputs p) as [|batch inputs] eqn:Ei; [left|right].
  { split; [done|]. unfold owed. by rewrite Eb, Ei. }
  apply Forall_cons in Hi as [Hbatch Hi].
  destruct (hash_input_ok nouter batch keys.*2 scratch.1 scratch.2) as (h & -> & Hh); try done.
  { intros Hnil. by apply fmap_nil_inv in Hnil. }
  rewrite bind_Ok. eexists _, _. split; [done|]. split; [|split; [done|]; probe_fields; split_and!; try done].
  - constructor; probe_fields; [done| |by rewrite Ed|done]. rewrite El, Eo. split_and!; try done.
    split; [done|]. by destruct h.
  - unfold owed. probe_fields. rewrite Eb, Eo, Ei, take_nil, drop_nil. unfold pairs_left, pending_rows. probe_fields.
    by rewrite Ed, El, rows_after_all.
  - unfold work. probe_fields. rewrite Eb, Ed, El, Ei, rows_after_all. unfold lane_work. cbn [sum_list_with pb_input].
    change (input_work batch) with (S (S (row_work keys rows batch (selected_rows (ji_selection batch))))). lia.
Qed.

(** Dropping a batch with nothing left. *)
Lemma finish_batch_step p b :
  probe_inv p → ps_batch p = Some b → ps_lanes p = [] → ps_output p = [] → pairs_left p b = [] →
  let p' := set_pending (finish_probe_batch p) false in
  probe_inv p' ∧ owed p' = owed p ∧ (work p' < work p)%nat.
Proof.
  intros [Hi Hb Hpend [Hq Ho]] Eb El Eo Hleft. cbv zeta. split; [|split].
  - by constructor.
  - unfold owed. probe_fields. by rewrite Eb, Eo, take_nil, drop_nil, Hleft.
  - unfold work. probe_fields. rewrite Eb. lia.
Qed.

(** What a call of [produce_output] answers. *)
Definition produced (p p' : ProbeState) (more : bool) : Prop :=
  if more then
    ∃ b, ps_batch p' = Some b ∧ owed p ≡ₚ tagged (pb_input b) (ps_output p') ++ owed (set_output p' [] 0) ∧
      probe_inv (set_output p' [] 0) ∧ 1 ≤ zlength (ps_output p') ≤ cap ∧
      (work (set_output p' [] 0) ≤ work p)%nat ∧ (ps_output p = [] → work (set_output p' [] 0) < work p)%nat
  else owed p = [].

Lemma produced_later p p1 p' more :
  owed p ≡ₚ owed p1 → (work p1 < work p)%nat → produced p1 p' more → produced p p' more.
Proof.
  intros Hp Hw. unfold produced. destruct more.
  - intros (b & Eb & Ho & Hinv & Hl & Hle & _). exists b. rewrite Hp. split_and!; (done || lia).
  - intros E. rewrite E in Hp. by apply Permutation_nil_r in Hp.
Qed.

(** A settled output is handed over. *)
Lemma publish_step p p2 b pend :
  probe_inv p2 → ps_batch p2 = Some b → ps_done_pending p2 = false → ps_qualified p2 = zlength (ps_output p2) →
  1 ≤ zlength (ps_output p2) → owed p ≡ₚ owed p2 → (work p2 ≤ work p)%nat → (ps_output p = [] → work p2 < work p)%nat →
  (pend = true → ps_lanes p2 = [] ∧ pairs_left p2 b = []) →
  produced p (set_pending p2 pend) true.
Proof.
  intros [Hi Hb _ [Hq Ho]] Eb Ed Hall Hne Hp Hle Hlt Hend. exists b. probe_fields. split; [done|].
  assert (Hleft : pairs_left (set_output (set_pending p2 pend) [] 0) b = pairs_left p2 b).
  { unfold pairs_left. probe_fields. rewrite Ed. destruct pend; [|done]. destruct Hend as [_ Hl]; [done|].
    unfold pairs_left in Hl. rewrite Ed in Hl. by rewrite Hl. }
  assert (Hwork : (work (set_output (set_pending p2 pend) [] 0) ≤ work p2)%nat).
  { unfold work. probe_fields. rewrite Eb, Ed. destruct pend; lia. }
  split; [|split_and!; try lia].
  - assert (owed (set_output (set_pending p2 pend) [] 0) =
      tagged (pb_input b) (qualified (pb_input b) (pairs_left p2 b)) ++ join_result (ps_inputs p2)) as ->.
    { rewrite <- Hleft. unfold owed. probe_fields. by rewrite Eb. }
    rewrite Hp. unfold owed. rewrite Eb, Hall, Nat2Z.id, firstn_all, drop_all, tagged_app, <- app_assoc. done.
  - rewrite Eb in Hb. constructor; probe_fields; [done| | |].
    + rewrite Eb. split_and!; try done; apply Hb.
    + intros Ht. destruct (Hend Ht) as [-> _]. by rewrite Eb.
    + cbn. lia.
  - intros E. specialize (Hlt E). lia.
Qed.

Lemma produce_loop_ok scratch fuel : ∀ p,
  64 ≤ zlength scratch.1 → is_u64 scratch.2 → probe_inv p → zlength (ps_output p) < cap → (work p < fuel)%nat →
  ∃ p' more, produce fuel scratch p = Ok (p', more) ∧ produced p p' more.
Proof.
  intros p Hsc Hsw. revert p. pose proof (cap_bounds max_rows) as Hcap. induction fuel as [|fuel IH]; intros p Hinv Hout Hfuel; [lia|].
  cbn [produce_loop].
  assert (Hstart : ∃ p0, (if ps_done_pending p then set_pending (finish_probe_batch p) false else p) = p0 ∧ probe_inv p0 ∧
    ps_done_pending p0 = false ∧ ps_output p0 = ps_output p ∧ owed p0 = owed p ∧ (work p0 ≤ work p)%nat).
  { destruct (ps_done_pending p) eqn:Ed; [|by exists p]. destruct (pi_pending p Hinv Ed) as (El & Eo & [b Eb]).
    destruct (finish_batch_step p b Hinv Eb El Eo) as (? & ? & ?); [unfold pairs_left; by rewrite Ed|].
    eexists; split; [done|]. split_and!; try done. lia. }
  destruct Hstart as (p0 & -> & Hinv0 & Ed & Eout & Howed & Hwork).
  assert (Hgoal : ∀ r, (∃ p' more, r = Ok (p', more) ∧ produced p0 p' more) → ∃ p' more, r = Ok (p', more) ∧ produced p p' more).
  { intros r (p' & more & -> & Hpr). exists p', more. split; [done|]. unfold produced in *. rewrite <- Howed, <- Eout.
    destruct more; [|done]. destruct Hpr as (b & ? & ? & ? & ? & ? & ?). exists b. split_and!; try done; try lia.
    intros E. eapply Nat.lt_le_trans; [by eauto|done]. }
  apply Hgoal. clear Hgoal. rewrite <- Eout in Hout. assert (Hfuel0 : (work p0 < S fuel)%nat) by lia.
  clear Hinv Hfuel Eout Howed Hwork p.
  (* the recursive calls *)
  assert (Hagain : ∀ p1, probe_inv p1 → zlength (ps_output p1) < cap → owed p0 ≡ₚ owed p1 → (work p1 < work p0)%nat →
    ∃ p' more, produce fuel scratch p1 = Ok (p', more) ∧ produced p0 p' more).
  { intros p1 H1 Ho1 Hp1 Hw1. destruct (IH p1 H1 Ho1) as (p' & more & E & Hpr); [lia|].
    exists p', more. split; [done|]. by eapply produced_later. }
  destruct (Z.ltb_spec 0 (zlength (ps_lanes p0))) as [Hlanes|Hlanes].
  - assert (Hne : ps_lanes p0 ≠ []) by (intros E; rewrite E in Hlanes; cbn in Hlanes; lia).
    destruct (ps_batch p0) as [b|] eqn:Eb.
    2: { pose proof (pi_batch p0 Hinv0) as Hb. rewrite Eb in Hb. by destruct Hb. }
    destruct (round_step p0 b Hinv0 Eb Ed Hne Hout) as (p1 & -> & H1 & Eb1 & Ed1 & Hp1 & Hw1). rewrite bind_Ok.
    destruct (Z.eqb_spec (zlength (ps_output p1)) cap) as [Hfull|Hroom].
    + destruct (qualify_step p1 b H1 Eb1) as (p2 & -> & H2 & Eb2 & Ed2 & _ & _ & Ho2 & Hw2 & Hq2); [lia|]. rewrite bind_Ok.
      destruct (Z.eqb_spec (zlength (ps_output p2)) cap) as [Hfull2|Hroom2].
      * exists p2, true. split; [done|]. rewrite Ed1 in Ed2. assert (set_pending p2 false = p2) as <- by (destruct p2; cbn in *; by subst).
        apply (publish_step _ _ b); try done; try lia; [by rewrite Ho2].
      * apply Hagain; [done|destruct (pi_output p2 H2); lia|by rewrite Ho2|lia].
    + apply Hagain; [done|destruct (pi_output p1 H1); lia|done|lia].
  - assert (El : ps_lanes p0 = []) by (destruct (ps_lanes p0); [done|cbn in Hlanes; lia]).
    assert (Hfetch : (match ps_batch p0 with Some _ => Ok (Some p0) | None => fetch_probe_batch keys scratch p0 end = Ok None ∧
        owed p0 = [] ∧ ps_output p0 = []) ∨
      ∃ p1 b, match ps_batch p0 with Some _ => Ok (Some p0) | None => fetch_probe_batch keys scratch p0 end = Ok (Some p1) ∧
        probe_inv p1 ∧ ps_batch p1 = Some b ∧ ps_done_pending p1 = false ∧ ps_lanes p1 = [] ∧
        ps_output p1 = ps_output p0 ∧ owed p0 = owed p1 ∧ (work p1 ≤ work p0)%nat).
    { destruct (ps_batch p0) as [b|] eqn:Eb.
      - right. exists p0, b. by split_and!.
      - pose proof (pi_batch p0 Hinv0) as Hb. rewrite Eb in Hb. destruct Hb as [_ Eo].
        destruct (fetch_step p0 scratch Hinv0 Eb Hsc Hsw) as [[-> ?]|(p1 & b & -> & ? & ? & ? & ? & ? & ? & ?)]; [by left|right].
        exists p1, b. split_and!; (done || congruence || lia). }
    destruct Hfetch as [(-> & Hdone & Eo)|(p1 & b & -> & H1 & Eb1 & Ed1 & El1 & Eo1 & Hp1 & Hw1)]; rewrite bind_Ok.
    { exists p0, false. rewrite Eo. by split. }
    rewrite Eb1. rewrite <- Eo1 in Hout.
    (* the last output of a batch, or the next batch *)
    assert (Hlast : ∀ p2, probe_inv p2 → ps_batch p2 = Some b → ps_done_pending p2 = false → ps_lanes p2 = [] →
        pairs_left p2 b = [] → owed p1 ≡ₚ owed p2 → (work p2 ≤ work p1)%nat →
        (ps_output p1 = [] → ps_output p2 ≠ [] → work p2 < work p1)%nat →
      ∃ p' more, (p ← (if 0 <? zlength (ps_output p2) then qualify b p2 else Ok p2);
         if 0 <? zlength (ps_output p) then Ok (set_pending p true, true)
         else produce fuel scratch (finish_probe_batch p)) = Ok (p', more) ∧ produced p0 p' more).
    { intros p2 H2 Eb2 Ed2 El2 Hleft2 Hp2 Hw2 Hlt2.
      assert (Hq : ∃ p3, (if 0 <? zlength (ps_output p2) then qualify b p2 else Ok p2) = Ok p3 ∧ probe_inv p3 ∧
        ps_batch p3 = Some b ∧ ps_done_pending p3 = false ∧ ps_lanes p3 = [] ∧ pairs_left p3 b = [] ∧ owed p3 = owed p2 ∧
        work p3 = work p2 ∧ ps_qualified p3 = zlength (ps_output p3) ∧ (ps_output p2 = [] → ps_output p3 = [])).
      { destruct (Z.ltb_spec 0 (zlength (ps_output p2))) as [Hpos|Hnone].
        - destruct (qualify_step p2 b H2 Eb2) as (p3 & -> & H3 & Eb3 & Ed3 & El3 & En3 & Ho3 & Hw3 & Hq3); [lia|].
          exists p3. rewrite Ed2 in Ed3. split_and!; try (done || congruence).
          + unfold pairs_left in *. by rewrite Ed3, El3, En3, <- Hleft2, Ed2.
          + intros E. rewrite E in Hpos. cbn in Hpos. lia.
        - exists p2. split_and!; try done. pose proof (pi_output p2 H2). lia. }
      destruct Hq as (p3 & -> & H3 & Eb3 & Ed3 & El3 & Hleft3 & Ho3 & Hw3 & Hq3 & Hnil3). rewrite bind_Ok.
      destruct (Z.ltb_spec 0 (zlength (ps_output p3))) as [Hpos|Hnone].
      - exists (set_pending p3 true), true. split; [done|]. apply (publish_step _ _ b); try done; try lia.
        + by rewrite Hp1, Hp2, Ho3.
        + intros E. rewrite E in Eo1. specialize (Hlt2 Eo1). destruct (decide (ps_output p2 = [])) as [E2|]; [|specialize (Hlt2 n); lia].
          rewrite Hnil3 in Hpos by done. cbn in Hpos. lia.
      - assert (Eo3 : ps_output p3 = []) by (destruct (ps_output p3); [done|cbn in Hnone; lia]).
        destruct (finish_batch_step p3 b H3 Eb3 El3 Eo3 Hleft3) as (H4 & Ho4 & Hw4).
        assert (set_pending (finish_probe_batch p3) false = finish_probe_batch p3) as E
          by (unfold set_pending, finish_probe_batch; by rewrite <- Ed3).
        rewrite E in *. apply Hagain; [done|unfold finish_probe_batch; probe_fields; rewrite Eo3; cbn; lia| |lia].
        by rewrite Hp1, Hp2, <- Ho3, Ho4. }
    destruct (bs_has_duplicates s) eqn:Hdup.
    + destruct (window_step p1 b H1 Eb1 Ed1 El1) as (p2 & more & -> & H2 & Eb2 & Ed2 & Eo2 & Hp2 & Hw2 & Hm). rewrite bind_Ok.
      destruct more; cbn [andb].
      * apply Hagain; [done|by rewrite Eo2|by rewrite Hp1|lia].
      * destruct Hm as [Hleft El2]. apply Hlast; try done. by rewrite Eo2.
    + destruct (unique_step p1 b H1 Eb1 Ed1 El1 Hdup Hout) as (p2 & more & -> & H2 & Eb2 & Ed2 & El2 & Hp2 & Hw2 & Hgrow & Hm).
      rewrite bind_Ok. destruct more; cbn [andb].
      * assert (Hw2' : (work p2 < work p1)%nat) by (apply Hgrow; lia).
        destruct (qualify_step p2 b H2 Eb2) as (p3 & -> & H3 & Eb3 & Ed3 & _ & _ & Ho3 & Hw3 & Hq3); [lia|]. rewrite bind_Ok.
        destruct (Z.eqb_spec (zlength (ps_output p3)) cap) as [Hfull3|Hroom3].
        -- exists p3, true. split; [done|]. rewrite Ed2 in Ed3. assert (set_pending p3 false = p3) as <- by (destruct p3; cbn in *; by subst).
           apply (publish_step _ _ b); try done; try lia. by rewrite Hp1, Hp2, Ho3.
        -- apply Hagain; [done|destruct (pi_output p3 H3); lia|by rewrite Hp1, Hp2, Ho3|lia].
      * apply Hlast; try done. intros E Hne. apply Hgrow. rewrite E. destruct (ps_output p2); [done|cbn; lia].
Qed.

(** ** The whole join *)

Lemma run_join_ok scratch turns fuel : ∀ p,
  64 ≤ zlength scratch.1 → is_u64 scratch.2 → probe_inv (set_output p [] 0) →
  (work (set_output p [] 0) < fuel)%nat → (work (set_output p [] 0) < turns)%nat →
  ∃ out, run_join s keys nouter natts quals needed max_rows call_function exec_qual fuel turns scratch p = Ok out ∧
    Forall (λ o : JoinInput * list (Z * Z), 1 ≤ zlength o.2 ≤ cap) out ∧
    all_pairs (λ o : JoinInput * list (Z * Z), tagged o.1 o.2) out ≡ₚ owed (set_output p [] 0).
Proof.
  intros p Hsc Hsw. revert p. pose proof (cap_bounds max_rows). induction fuel as [|fuel IH]; intros p Hinv Hfuel Hturns; [lia|].
  cbn [run_join]. unfold produce_output.
  destruct (produce_loop_ok scratch turns (set_output p [] 0)) as (p' & more & -> & Hpr); [done|done|done|cbn; lia|done|].
  rewrite bind_Ok. cbn [fst snd]. unfold produced in Hpr. destruct more.
  - destruct Hpr as (b & -> & Ho & Hinv' & Hl & _ & Hw). specialize (Hw eq_refl).
    destruct (IH p' Hinv') as (out & -> & Hout & Hperm); [lia|lia|]. rewrite bind_Ok. eexists; split; [done|].
    split; [by constructor|]. by rewrite Ho, <- Hperm.
  - exists []. by rewrite Hpr.
Qed.
End join.

(** ** The join from its inputs *)

(** Turns enough for any of the loops. *)
Definition join_turns (keys : list (Z * Z)) (rows : list build_row) (batches : list JoinInput) : nat :=
  S (sum_list_with (input_work keys rows) batches).

Lemma run_join_spec `{ReversibleHash} s keys rows nouter natts max_rows quals needed call_function exec_qual
    function_result qual_result batches scratch turns :
  join_table s keys rows → keys ≠ [] → Forall (λ k, 0 ≤ k < nouter) keys.*2 →
  natts = nouter + bs_ncolumns s → 0 ≤ nouter →
  Forall (λ q, 0 ≤ bq_left_column q < natts ∧ 0 ≤ bq_right_column q < natts ∧
    (bq_builtin q = true → is_Some (pg_batch_int4_compare_op (bq_funcid q) 0))) quals →
  Forall (λ c, 0 ≤ c < natts) needed →
  (∀ f l r, call_function f l r = Ok (function_result f l r)) →
  (∀ exec, exec_qual = Some exec → ∀ slot, exec slot = Ok (qual_result slot)) →
  Forall (join_input_ok nouter) batches → 64 ≤ zlength scratch.1 → is_u64 scratch.2 →
  (join_turns keys rows batches ≤ turns)%nat →
  ∃ out, run_join s keys nouter natts quals needed max_rows call_function exec_qual turns turns scratch
           (start_probe batches) = Ok out ∧
    Forall (λ o, 1 ≤ zlength o.2 ≤ output_capacity max_rows) out ∧
    mjoin ((λ o, tagged o.1 o.2) <$> out) ≡ₚ
      join_result keys rows nouter natts quals needed exec_qual function_result qual_result batches.
Proof.
  intros Htable Hkeys Hout Hn Hno Hq Hnd Hcall Hexec Hb Hsc Hsw Hturns. unfold join_turns in Hturns.
  apply (run_join_ok s keys rows nouter natts max_rows quals needed call_function exec_qual function_result qual_result
    Htable Hkeys Hout Hn Hno Hq Hnd Hcall Hexec scratch turns turns (start_probe batches)); try done.
  pose proof (cap_bounds max_rows). constructor; cbn [set_output start_probe ps_batch ps_inputs ps_lanes ps_output ps_qualified ps_done_pending]; try done. cbn. lia.
Qed.

(** C2. The hash join from the batches of its inputs to its output, for a plan
    of one partition.  Building ends; unless the memory limit stops it, in
    which case the spilling join takes over, draining the join ends too: every
    batch it publishes has between 1 row and the limit the parent asked for,
    and together they hold exactly the pairs of a probe row and a build row
    whose keys are equal (a NULL key never is) and on which the conditions and
    the remaining qual are true, each pair as often as its rows occur. *)
Theorem hash_join_spec `{ReversibleHash} limit estimated (keys : list (Z * Z)) build_batches s nouter natts
    max_rows quals needed call_function exec_qual function_result qual_result probe_batches scratch turns :
  (* the plan *)
  0 ≤ bs_ncolumns s → 0 ≤ nouter → natts = nouter + bs_ncolumns s → keys ≠ [] →
  Forall (λ k, 0 ≤ k < bs_ncolumns s) keys.*1 → Forall (λ k, 0 ≤ k < nouter) keys.*2 →
  Forall (λ q, 0 ≤ bq_left_column q < natts ∧ 0 ≤ bq_right_column q < natts ∧
    (bq_builtin q = true → is_Some (pg_batch_int4_compare_op (bq_funcid q) 0))) quals →
  Forall (λ c, 0 ≤ c < natts) needed → estimated ≤ max_build_rows →
  (* functions and quals that raise no error *)
  (∀ f l r, call_function f l r = Ok (function_result f l r)) →
  (∀ exec, exec_qual = Some exec → ∀ slot, exec slot = Ok (qual_result slot)) →
  (* the inputs *)
  Forall (join_input_ok (bs_ncolumns s)) build_batches → Forall (join_input_ok nouter) probe_batches →
  64 ≤ zlength scratch.1 → is_u64 scratch.2 →
  let rows := concat (build_rows keys.*1 <$> build_batches) in
  zlength rows ≤ max_build_rows → (join_turns keys rows probe_batches ≤ turns)%nat →
  ∃ r, build_hash_table limit estimated keys.*1 scratch build_batches s = Ok r ∧
    match r with
    | inl s' =>
        ∃ out, run_join s' keys nouter natts quals needed max_rows call_function exec_qual turns turns scratch
            (start_probe probe_batches) = Ok out ∧
          Forall (λ o, 1 ≤ zlength o.2 ≤ output_capacity max_rows) out ∧
          mjoin ((λ o, tagged o.1 o.2) <$> out) ≡ₚ
            join_result keys rows nouter natts quals needed exec_qual function_result qual_result probe_batches
    | inr (s', rest) => ∃ taken, build_batches = taken ++ rest ∧ store_wf s' (concat (build_rows keys.*1 <$> taken))
    end.
Proof.
  intros Hn Hno Hnat Hkeys Hin Hout Hq Hnd He Hcall Hexec Hb Hp Hsc Hsw rows Hmax Hturns.
  destruct (build_hash_table_ok limit estimated keys scratch build_batches s) as (r & -> & Hr); [done..|].
  exists r. split; [done|]. destruct r as [s'|[s' rest]]; [|naive_solver]. destruct Hr as [Htable Hn'].
  subst natts. apply run_join_spec; try done. by rewrite Hn'.
Qed.

(** ** A concrete join *)

(** Two build batches and one probe batch joined on their first columns, with
    the condition that the outer payload is at most the inner one. *)
Definition sample_qual : BatchJoinQual := mkQual true F_INT4LE 1 3.
Definition sample_builds : list JoinInput := [sample_build_batch; sample_build_batch].
Definition sample_probes : list JoinInput := [sample_build_batch].
Definition sample_build_rows : list build_row := concat (build_rows (H := reference_core) [0] <$> sample_builds).

Lemma hash_join_witness :
  ∃ r, build_hash_table (H := reference_core) 1000000 10 [0] (replicate 64 0, 0) sample_builds sample_store = Ok r ∧
    match r with
    | inl s' =>
        ∃ out, run_join (H := reference_core) s' [(0, 0)] 2 4 [sample_qual] [] 3 (λ _ _ _, Ok None) None
            (join_turns [(0, 0)] sample_build_rows sample_probes) (join_turns [(0, 0)] sample_build_rows sample_probes)
            (replicate 64 0, 0) (start_probe sample_probes) = Ok out ∧
          Forall (λ o : JoinInput * list (Z * Z), 1 ≤ zlength o.2 ≤ output_capacity 3) out ∧
          mjoin ((λ o : JoinInput * list (Z * Z), tagged o.1 o.2) <$> out) ≡ₚ
            join_result [(0, 0)] sample_build_rows 2 4 [sample_qual] [] None (λ _ _ _, None) (λ _, true) sample_probes
    | inr (s', rest) => ∃ taken, sample_builds = taken ++ rest ∧
        store_wf s' (concat (build_rows (H := reference_core) [0] <$> taken))
    end.
Proof.
  apply (hash_join_spec (H := reference_core) 1000000 10 [(0, 0)] sample_builds sample_store 2 4 3 [sample_qual] []
    (λ _ _ _, Ok None) None (λ _ _ _, None) (λ _, true) sample_probes (replicate 64 0, 0)
    (join_turns [(0, 0)] sample_build_rows sample_probes)); try done.
  - by apply Forall_singleton.
  - by apply Forall_singleton.
  - apply Forall_singleton. split; [done|]. split; [done|]. intros _. by eexists.
  - repeat apply Forall_cons_2; [apply sample_build_batch_ok..|apply Forall_nil_2].
  - repeat apply Forall_cons_2; [apply sample_build_batch_ok|apply Forall_nil_2].
Defined.
