(* ===== verification/JoinSpill.v ===== *)
(** * The spilling hash join: partitions of the build side
      ([nodes/hash_join_spill.c], [nodes/hash_join.c])

    A join that exceeds its memory splits rows by the low bits of their hash.
    Some partitions stay resident in the build store, the rows of the others go
    to a spill set; when the resident rows outgrow their share the largest
    partition is evicted and the store is compacted.  A Bloom filter over all
    build hashes lets the probe side drop rows early. *)

From S2P Require Import Prelude Words Bytes Selection Vector Kernels Int4 Hash Spill JoinStore JoinBuild.

(** ** The Bloom filter *)

Record Bloom : Type := mkBloom { bloom_words : list Z; bloom_nbits : Z }.

Definition bloom_add (b : Bloom) (hash : Z) : res Bloom :=
  let mask := bloom_nbits b - 1 in
  let first := Z.land hash mask in
  w ← aref (bloom_words b) (first / 64);
  ws ← aset (bloom_words b) (first / 64) (Z.lor w (bit64 (first mod 64)));
  Ok (mkBloom ws (bloom_nbits b)).

Definition bloom_may_contain (b : Bloom) (hash : Z) : res bool :=
  let mask := bloom_nbits b - 1 in
  let first := Z.land hash mask in
  w ← aref (bloom_words b) (first / 64);
  Ok (negb (Z.land w (bit64 (first mod 64)) =? 0)).

(** The sizing in [hash_join_begin_spill]; the loop doubles a power of two that
    starts at 64 and stays below 2^64. *)
Fixpoint bloom_size_loop (fuel : nat) (desired_bits max_bits nbits : Z) : res Z :=
  if (nbits <? desired_bits) && (nbits <=? max_bits / 2) then
    match fuel with
    | O => Undefined
    | S fuel => bloom_size_loop fuel desired_bits max_bits (Z.shiftl nbits 1 mod 2 ^ 64)
    end
  else Ok nbits.

Definition bloom_size (memory_limit estimated_rows : Z) : res Z :=
  let desired_bits := Z.max 64 ((estimated_rows * 8) mod 2 ^ 64) in
  let max_bits := Z.max 64 (memory_limit / 16 * 8) in
  nbits ← bloom_size_loop 58 desired_bits max_bits 64;
  Ok (if max_bits <? nbits then Z.shiftr nbits 1 else nbits).

(** The filter of the rows stored so far, when the estimate makes it useful. *)
Definition bloom_create (memory_limit estimated_rows : Z) (store : BuildStore) : res (option Bloom) :=
  nbits ← bloom_size memory_limit estimated_rows;
  if (0 <? estimated_rows) && (2 <=? nbits / estimated_rows) then
    _ ← check_alloc (nbits / 8);
    b ← foldM (λ row b, l ← aref (bs_links store) row; bloom_add b (bl_hash l)) (seqZ 0 (bs_nrows store))
          (mkBloom (replicate (Z.to_nat (nbits / 64)) 0) nbits);
    Ok (Some b)
  else Ok None.

Fixpoint partition_count_loop (fuel : nat) (required result : Z) : res Z :=
  if (result <? required) && (result <? 1024) then
    match fuel with
    | O => Undefined
    | S fuel => partition_count_loop fuel required (result * 2)
    end
  else Ok result.

Definition next_partition_count (required : Z) : res Z := partition_count_loop 10 required 2.

(** ** Evicting partitions *)

(** [jp_build_files] says which files exist; a file of a partition is the
    partition of the spill set. *)
Section spill.
Context `{PgCore} `{LogicalTapes}.

Record JoinSpill : Type := mkJoinSpill {
  jp_npartitions : Z;
  jp_resident : gset Z;
  jp_resident_rows : list Z;
  jp_build_spill : PgBatchSpillSet;
  jp_build_files : list bool;
  jp_partition_rows : list Z;
  jp_spill_rows : Z;
  jp_resident_build_rows : Z;
}.

Definition with_file (p : JoinSpill) set files := mkJoinSpill (jp_npartitions p) (jp_resident p) (jp_resident_rows p)
  set files (jp_partition_rows p) (jp_spill_rows p) (jp_resident_build_rows p).
Definition with_spilled (p : JoinSpill) rows n := mkJoinSpill (jp_npartitions p) (jp_resident p) (jp_resident_rows p)
  (jp_build_spill p) (jp_build_files p) rows n (jp_resident_build_rows p).
Definition with_resident (p : JoinSpill) rows n := mkJoinSpill (jp_npartitions p) (jp_resident p) rows
  (jp_build_spill p) (jp_build_files p) (jp_partition_rows p) (jp_spill_rows p) n.
Definition with_partitions (p : JoinSpill) r := mkJoinSpill (jp_npartitions p) r (jp_resident_rows p)
  (jp_build_spill p) (jp_build_files p) (jp_partition_rows p) (jp_spill_rows p) (jp_resident_build_rows p).

Definition row_partition (npartitions hash : Z) : Z := Z.land hash (npartitions - 1).

(** The dense arrays of some rows of the store; the hashes fill the head of a
    local array. *)
Definition store_hashes (store : BuildStore) (rows : list Z) : res (list Z) :=
  foldM (λ i hashes, row ← aref rows i; l ← aref (bs_links store) row; aset hashes i (bl_hash l))
    (seqZ 0 (zlength rows)) (to_u32 <$> palloc_uninit PG_BATCH_SIZE).

Definition store_dense_cell (stored : StoredColumn) (rows : list Z) (column i : Z) (st : list Z * list Z)
    : res (list Z * list Z) :=
  row ← aref rows i;
  v ← aref (sc_values stored) row;
  values ← aset st.1 (column * zlength rows + i) v;
  w ← aref (sc_validity stored) (row / 64);
  if Z.land w (bit64 (row mod 64)) =? 0 then Ok (values, st.2) else
  x ← aref st.2 column;
  validity ← aset st.2 column (Z.lor x (bit64 i));
  Ok (values, validity).

Definition write_store_block (store : BuildStore) (set : PgBatchSpillSet) (partition : Z) (rows : list Z)
    : res PgBatchSpillSet :=
  let nrows := zlength rows in
  hashes ← store_hashes store rows;
  dense ← foldM (λ column st,
      stored ← aref (bs_columns store) column;
      foldM (store_dense_cell stored rows column) (seqZ 0 nrows) st)
    (seqZ 0 (bs_ncolumns store))
    (int32_uninit (bs_ncolumns store * nrows), replicate (Z.to_nat (bs_ncolumns store)) 0);
  pg_batch_spill_write_dense set partition nrows hashes dense.1 nrows dense.2.

(** [spill_file] and the write. *)
Definition spill_store_rows (store : BuildStore) (partition : Z) (rows : list Z) (p : JoinSpill) : res JoinSpill :=
  files ← aset (jp_build_files p) partition true;
  set ← write_store_block store (jp_build_spill p) partition rows;
  Ok (with_file p set files).

Definition evict_row (store : BuildStore) (partition row : Z) (st : JoinSpill * list Z) : res (JoinSpill * list Z) :=
  l ← aref (bs_links store) row;
  if negb (row_partition (jp_npartitions st.1) (bl_hash l) =? partition) then Ok st else
  n ← aref (jp_partition_rows st.1) partition;
  counts ← aset (jp_partition_rows st.1) partition (u64_add n 1);
  let p := with_spilled st.1 counts (u64_add (jp_spill_rows st.1) 1) in
  let rows := st.2 ++ [row] in
  if zlength rows =? PG_BATCH_SIZE then p ← spill_store_rows store partition rows p; Ok (p, [])
  else Ok (p, rows).

Definition evict_partition (store : BuildStore) (partition : Z) (p : JoinSpill) : res JoinSpill :=
  if decide (partition ∈ jp_resident p) then Ok p else
  r ← foldM (evict_row store partition) (seqZ 0 (bs_nrows store)) (p, []);
  if 0 <? zlength r.2 then spill_store_rows store partition r.2 r.1 else Ok r.1.

(** The move of one row in the compaction. *)
Definition move_cell (row write column : Z) (columns : list StoredColumn) : res (list StoredColumn) :=
  stored ← aref columns column;
  w ← aref (sc_validity stored) (row / 64);
  let valid := negb (Z.land w (bit64 (row mod 64)) =? 0) in
  v ← aref (sc_values stored) row;
  values ← aset (sc_values stored) write v;
  x ← aref (sc_validity stored) (write / 64);
  validity ← aset (sc_validity stored) (write / 64)
    (if valid then Z.lor x (bit64 (write mod 64)) else Z.land x (not64 (bit64 (write mod 64))));
  aset columns column (mkStored values validity).

Definition compact_row (row : Z) (st : BuildStore * JoinSpill * Z) : res (BuildStore * JoinSpill * Z) :=
  let '(store, p, write) := st in
  l ← aref (bs_links store) row;
  let partition := row_partition (jp_npartitions p) (bl_hash l) in
  if negb (bool_decide (partition ∈ jp_resident p)) then Ok st else
  n ← aref (jp_resident_rows p) partition;
  counts ← aset (jp_resident_rows p) partition (u64_add n 1);
  let p := with_resident p counts (jp_resident_build_rows p) in
  if write =? row then Ok (store, p, write + 1) else
  old ← aref (bs_links store) write;
  links ← aset (bs_links store) write (mkLink (bl_hash l) (bl_next old));
  columns ← foldM (move_cell row write) (seqZ 0 (bs_ncolumns store)) (bs_columns store);
  Ok (set_columns (set_links store links) columns, p, write + 1).

Definition hash_join_spill_build_store (store : BuildStore) (p : JoinSpill) : res (BuildStore * JoinSpill) :=
  let p := with_resident p (replicate (Z.to_nat (jp_npartitions p)) 0) (jp_resident_build_rows p) in
  p ← foldM (evict_partition store) (seqZ 0 (jp_npartitions p)) p;
  r ← foldM compact_row (seqZ 0 (bs_nrows store)) (store, p, 0);
  let '(store, p, write) := r in
  Ok (set_nrows store write, with_resident p (jp_resident_rows p) write).

(** The resident partition with most rows, -1 when none has rows. *)
Definition largest_resident (p : JoinSpill) : res Z :=
  r ← foldM (λ partition st,
      if decide (partition ∈ jp_resident p) then
        n ← aref (jp_resident_rows p) partition;
        Ok (if st.2 <? n then (partition, n) else st)
      else Ok st) (seqZ 0 (jp_npartitions p)) (-1, 0);
  Ok r.1.

(** Every turn removes a resident partition. *)
Fixpoint limit_resident_loop (fuel : nat) (limit : Z) (store : BuildStore) (p : JoinSpill)
    : res (BuildStore * JoinSpill) :=
  estimated ← hash_join_estimated_build_memory (bs_nrows store) (bs_ncolumns store);
  if bool_decide (jp_resident p = ∅) || (estimated <=? limit) then Ok (store, p) else
  match fuel with
  | O => Undefined
  | S fuel =>
      largest ← largest_resident p;
      if largest <? 0 then Ok (store, p) else
      r ← hash_join_spill_build_store store (with_partitions p (jp_resident p ∖ {[largest]}));
      limit_resident_loop fuel limit r.1 r.2
  end.

Definition limit_resident_build (limit : Z) (store : BuildStore) (p : JoinSpill) : res (BuildStore * JoinSpill) :=
  limit_resident_loop (Z.to_nat (jp_npartitions p)) limit store p.
(** ** Starting to spill *)

Definition spill_tuple_desc (ncolumns : Z) : list attribute := replicate (Z.to_nat ncolumns) (mkAttr false INT4OID).

Record SpilledJoin : Type := mkSpilled {
  sj_build : JoinSpill;
  sj_probe_spill : PgBatchSpillSet;
  sj_probe_files : list bool;
  sj_bloom : option Bloom;
  sj_partition_shift : Z;
  sj_resident_memory_limit : Z;
  sj_build_chunk_rows : Z;
}.

(** The shift loop; also [partition_bits].  A partition count is at most 1024. *)
Fixpoint partition_bits_loop (fuel : nat) (npartitions bits : Z) : res Z :=
  if 1 <? npartitions then
    match fuel with
    | O => Undefined
    | S fuel => partition_bits_loop fuel (Z.shiftr npartitions 1) (bits + 1)
    end
  else Ok bits.

Definition partition_bits (npartitions : Z) : res Z := partition_bits_loop 10 npartitions 0.

(** Most of the limit is left for the rows in memory. *)
Definition resident_limit (memory_limit npartitions columns bloom_bytes : Z) : Z :=
  let bytes := 4 * npartitions + 4 * npartitions * PG_BATCH_SIZE + (4 * PG_BATCH_SIZE + 8) * npartitions * columns in
  memory_limit - Z.min memory_limit (Z.min bytes (memory_limit / 4) + bloom_bytes).

Definition resident_partition_count (resident_memory_limit estimated_bytes npartitions : Z) : Z :=
  let per_partition := Z.max 1 (estimated_bytes / npartitions) in
  let nresident := Z.min (npartitions - 1) (to_s32 (resident_memory_limit / per_partition)) in
  if nresident =? 0 then 1 else nresident.

Definition chunk_rows (memory_limit ninner_columns : Z) : res Z :=
  estimated ← hash_join_estimated_build_memory 1024 ninner_columns;
  Ok (Z.max 64 (Z.min (2 ^ 32 - 1) (memory_limit / 2 / Z.max 1 (estimated / 1024)))).

Definition hash_join_begin_spill (memory_limit planned_partitions ninner_columns nouter_columns estimated_bytes
    estimated_rows : Z) (store : BuildStore) : res SpilledJoin :=
  _ ← (if memory_limit =? 0 then Undefined else Ok tt);
  let required := u64_add estimated_bytes (memory_limit - 1) / memory_limit in
  npartitions ← next_partition_count (Z.max required planned_partitions);
  partition_shift ← partition_bits npartitions;
  build_spill ← pg_batch_spill_create (spill_tuple_desc ninner_columns) ninner_columns npartitions (memory_limit / 4);
  probe_spill ← pg_batch_spill_create (spill_tuple_desc nouter_columns) nouter_columns npartitions (memory_limit / 4);
  bloom ← bloom_create memory_limit estimated_rows store;
  let bloom_bytes := match bloom with Some b => bloom_nbits b / 8 | None => 0 end in
  let limit := resident_limit memory_limit npartitions (Z.max ninner_columns nouter_columns) bloom_bytes in
  let nresident := resident_partition_count limit estimated_bytes npartitions in
  build_chunk_rows ← chunk_rows memory_limit ninner_columns;
  Ok (mkSpilled
        (mkJoinSpill npartitions (list_to_set (seqZ 0 nresident)) (replicate (Z.to_nat npartitions) 0) build_spill
           (replicate (Z.to_nat npartitions) false) (replicate (Z.to_nat npartitions) 0) 0 0)
        probe_spill (replicate (Z.to_nat npartitions) false) bloom partition_shift limit build_chunk_rows).
End spill.
