(* ===== verification/JoinSpillProps.v ===== *)
(** * The spilling hash join: what eviction does

    The Bloom filter has no false negatives.  Evicting a partition writes exactly
    its rows, in order, to its partition of the spill set. *)

From S2P Require Import Prelude Words Bytes Selection Vector Kernels Int4 Hash Spill SpillBlocks SpillSet SpillRun JoinStore JoinStoreProps JoinDirectory JoinBuild JoinBuildProps JoinQualProps JoinSpill.

(** ** The Bloom filter *)

Record bloom_wf (b : Bloom) (k : Z) : Prop := {
  bw_bits : 6 ≤ k ≤ 63 ∧ bloom_nbits b = 2 ^ k;
  bw_length : zlength (bloom_words b) * 64 = 2 ^ k;
  bw_words : Forall is_u64 (bloom_words b);
}.

Definition bloom_bit (b : Bloom) (i : Z) : bool := Z.testbit (zget 0 (bloom_words b) (i / 64)) (i mod 64).

Lemma bloom_first b k hash : bloom_wf b k → Z.land hash (bloom_nbits b - 1) = hash mod 2 ^ k ∧ 0 ≤ hash mod 2 ^ k < 2 ^ k.
Proof.
  intros [[Hk ->] _ _]. split; [by apply land_mask; lia|]. apply Z.mod_pos_bound, Z.pow_pos_nonneg; lia.
Qed.

Lemma bloom_add_ok b k hash :
  bloom_wf b k → ∃ b', bloom_add b hash = Ok b' ∧ bloom_wf b' k ∧
    ∀ i, 0 ≤ i < 2 ^ k → bloom_bit b' i = bloom_bit b i || (i =? hash mod 2 ^ k).
Proof.
  intros Hb. pose proof Hb as [[Hk Hn] Hl Hw]. destruct (bloom_first b k hash Hb) as [Hf Hr]. unfold bloom_add. rewrite Hf.
  set (first := hash mod 2 ^ k) in *.
  assert (Hword : is_u64 (zget 0 (bloom_words b) (first / 64))) by (apply zget_Forall; [done|zlia]).
  rewrite (aref_ok 0), bind_Ok, aset_ok, bind_Ok by zlia. eexists; split; [done|]. split.
  - split; cbn; [done|by rewrite length_insert|]. apply Forall_insert; [done|]. auto with words.
  - intros i Hi. unfold bloom_bit. cbn. rewrite zget_insert by zlia. case_decide as E.
    + rewrite Z.lor_spec, testbit_bit64, E by zlia. f_equal.
      destruct (Z.eqb_spec (i mod 64) (first mod 64)), (Z.eqb_spec i first); try done; zlia.
    + destruct (Z.eqb_spec i first); [zlia|]. by rewrite orb_false_r.
Qed.

Lemma bloom_may_contain_ok b k hash :
  bloom_wf b k → bloom_may_contain b hash = Ok (bloom_bit b (hash mod 2 ^ k)).
Proof.
  intros Hb. pose proof Hb as [[Hk Hn] Hl Hw]. destruct (bloom_first b k hash Hb) as [Hf Hr]. unfold bloom_may_contain.
  rewrite Hf, (aref_ok 0), bind_Ok, land_bit64 by zlia. done.
Qed.

Lemma bloom_adds_ok k hashes : ∀ b,
  bloom_wf b k → ∃ b', foldM (λ h b, bloom_add b h) hashes b = Ok b' ∧ bloom_wf b' k ∧
    ∀ i, 0 ≤ i < 2 ^ k → bloom_bit b' i = bloom_bit b i || bool_decide (i ∈ (λ h, h mod 2 ^ k) <$> hashes).
Proof.
  induction hashes as [|h hashes IH]; intros b Hb; cbn [foldM].
  { exists b. split; [done|]. split; [done|]. intros i Hi. rewrite bool_decide_eq_false_2 by set_solver. by rewrite orb_false_r. }
  destruct (bloom_add_ok b k h Hb) as (b1 & -> & Hb1 & Hbit1). rewrite bind_Ok.
  destruct (IH b1 Hb1) as (b' & -> & Hb' & Hbit). exists b'. split; [done|]. split; [done|]. intros i Hi.
  rewrite Hbit, Hbit1, <- orb_assoc by done. f_equal. rewrite fmap_cons.
  destruct (Z.eqb_spec i (h mod 2 ^ k)) as [->|Hne]; cbn [orb].
  - symmetry. apply bool_decide_eq_true_2. by left.
  - apply bool_decide_ext. rewrite elem_of_cons. naive_solver.
Qed.

Lemma pow2_words k : 6 ≤ k → 2 ^ k = 2 ^ (k - 6) * 64 ∧ 0 < 2 ^ (k - 6).
Proof.
  intros Hk. split; [|apply Z.pow_pos_nonneg; lia]. change 64 with (2 ^ 6). rewrite <- Z.pow_add_r by lia. f_equal. lia.
Qed.

Lemma empty_bloom_wf k : 6 ≤ k ≤ 63 → bloom_wf (mkBloom (replicate (Z.to_nat (2 ^ k / 64)) 0) (2 ^ k)) k.
Proof.
  intros Hk. destruct (pow2_words k) as [E ?]; [lia|].
  rewrite E, Z.div_mul by lia. split; cbn; [by rewrite <- E|rewrite length_replicate; lia|].
  apply Forall_replicate. unfold is_u64. lia.
Qed.

Lemma bloom_size_loop_ok desired max_bits fuel j :
  6 ≤ j ≤ 63 → 2 ^ j ≤ max_bits < 2 ^ 64 → 63 - j ≤ Z.of_nat fuel →
  ∃ k, bloom_size_loop fuel desired max_bits (2 ^ j) = Ok (2 ^ k) ∧ j ≤ k ≤ 63 ∧ 2 ^ k ≤ max_bits.
Proof.
  intros Hj Hm. revert j Hj Hm. induction fuel as [|fuel IH]; intros j Hj Hm Hf; cbn [bloom_size_loop].
  - replace j with 63 in * by lia. destruct (Z.leb_spec (2 ^ 63) (max_bits / 2)); [zlia|]. rewrite andb_false_r. exists 63. split; [done|lia].
  - destruct (_ && _) eqn:E; [|exists j; split; [done|lia]]. apply andb_true_iff in E as [_ E%Z.leb_le].
    assert (j < 63) by (apply (Z.pow_lt_mono_r_iff 2); [lia|lia|]; zlia).
    assert (0 ≤ 2 ^ (j + 1) < 2 ^ 64) by (split; [apply Z.pow_nonneg; lia|apply Z.pow_lt_mono_r; lia]).
    assert (2 ^ (j + 1) = 2 ^ j * 2) by (rewrite Z.pow_add_r by lia; lia).
    rewrite Z.shiftl_mul_pow2, <- Z.pow_add_r, Z.mod_small by lia.
    destruct (IH (j + 1)) as (k & -> & ?); [lia|zlia|lia|]. exists k. split; [done|lia].
Qed.

Section bloom.
Context `{PgCore}.

(** A filter of a sixteenth of this is still a valid allocation. *)
Definition max_spill_memory : Z := 2 ^ 34.

(** The filter [hash_join_begin_spill] makes of the rows stored so far. *)
Lemma bloom_create_ok limit estimated store rows :
  store_holds store rows → 0 ≤ limit < max_spill_memory → 0 ≤ estimated →
  ∃ ob, bloom_create limit estimated store = Ok ob ∧
    match ob with
    | None => True
    | Some b => ∃ k, bloom_wf b k ∧
        ∀ i, 0 ≤ i < 2 ^ k → bloom_bit b i = bool_decide (i ∈ (λ h, h mod 2 ^ k) <$> rows.*1)
    end.
Proof.
  intros Hs Hlim He. pose proof Hs as []. unfold bloom_create, bloom_size.
  set (max_bits := Z.max 64 (limit / 16 * 8)). assert (Hmb : 64 ≤ max_bits < 2 ^ 64) by (unfold max_bits, max_spill_memory in *; zlia).
  destruct (bloom_size_loop_ok (Z.max 64 ((estimated * 8) mod 2 ^ 64)) max_bits 58 6) as (k & E & Hk & Hle); [lia|lia|lia|].
  change (2 ^ 6) with 64 in E. fold max_bits. rewrite E, bind_Ok.
  destruct (Z.ltb_spec max_bits (2 ^ k)); [lia|]. cbn [mbind res_bind]. destruct (_ && _); [|by exists None].
  rewrite check_alloc_ok, bind_Ok by (unfold max_bits, max_spill_memory, MaxAllocSize in *; zlia).
  rewrite (foldM_ext _ (λ row b, bloom_add b (zget 0 rows.*1 row))).
  - rewrite <- (foldM_fmap (λ h b, bloom_add b h) (zget 0 rows.*1)).
    replace (zget 0 rows.*1 <$> seqZ 0 (bs_nrows store)) with (rows.*1).
    + destruct (bloom_adds_ok k rows.*1 _ (empty_bloom_wf k Hk)) as (b & -> & Hb & Hbits).
      exists (Some b). split; [done|]. exists k. split; [done|]. intros i Hi. rewrite Hbits by done.
      unfold bloom_bit. cbn. rewrite zget_replicate, Z.bits_0; [done|].
      destruct (pow2_words k) as [Ek ?]; [lia|]. rewrite Ek in *. rewrite Z.div_mul by lia. zlia.
    + replace (bs_nrows store) with (zlength rows.*1) by (rewrite length_fmap; lia). by rewrite zget_seqZ.
  - intros row b Hrow%elem_of_seqZ. rewrite (aref_ok no_link), bind_Ok by lia. fold (link_of store row).
    destruct (lookup_lt_is_Some_2 rows (Z.to_nat row)) as [r Hr]; [lia|]. apply sw_hashes in Hr as Hh.
    rewrite Z2Nat.id in Hh by lia. rewrite Hh. unfold zget. by rewrite list_lookup_fmap, Hr.
Qed.

(** C25. The filter has no false negatives and its only false positives are
    hashes that agree in the low bits: built from the rows stored so far and fed
    any further hashes, it accepts a hash exactly when one of them falls on the
    same bit. *)
Theorem bloom_spec limit estimated store rows later :
  store_holds store rows → 0 ≤ limit < max_spill_memory → 0 ≤ estimated →
  ∃ ob, bloom_create limit estimated store = Ok ob ∧
    ∀ b, ob = Some b → ∃ b' k, foldM (λ h b, bloom_add b h) later b = Ok b' ∧ bloom_wf b' k ∧
      ∀ h, bloom_may_contain b' h = Ok (bool_decide (h mod 2 ^ k ∈ (λ h, h mod 2 ^ k) <$> rows.*1 ++ later)).
Proof.
  intros Hs Hlim He. destruct (bloom_create_ok limit estimated store rows Hs Hlim He) as (ob & -> & Hob).
  exists ob. split; [done|]. intros b ->. destruct Hob as (k & Hb & Hbits).
  destruct (bloom_adds_ok k later b Hb) as (b' & E & Hb' & Hbits'). exists b', k. split; [done|]. split; [done|].
  intros h. destruct (bloom_first b' k h Hb') as [_ Hr]. rewrite (bloom_may_contain_ok b' k), Hbits', Hbits by done. f_equal.
  rewrite fmap_app. apply eq_bool_prop_intro. rewrite orb_True, !bool_decide_spec, elem_of_app. done.
Qed.
End bloom.

(** ** Writing rows of the store *)

Section evict.
Context `{PgCore} `{LogicalTapes}.

Definition no_row : build_row := (0, []).

(** Rows as a spill set needs them. *)
Definition spillable (ncols : Z) (rows : list build_row) : Prop :=
  Forall (λ r : build_row, is_u32 r.1 ∧ zlength r.2 = ncols) rows.

(** The stored rows at some positions. *)
Definition rows_at (rows : list build_row) (idx : list Z) : list build_row := zget no_row rows <$> idx.

Lemma rows_at_lookup rows i : 0 ≤ i < zlength rows → rows !! Z.to_nat i = Some (zget no_row rows i).
Proof. intros Hi. unfold zget. by destruct (lookup_lt_is_Some_2 rows (Z.to_nat i)) as [r ->]; [lia|]. Qed.

Lemma store_hashes_ok store rows idx :
  store_holds store rows → Forall (λ r : build_row, is_u32 r.1) rows → Forall (λ i, 0 ≤ i < zlength rows) idx →
  zlength idx ≤ 64 →
  ∃ hashes, store_hashes store idx = Ok hashes ∧ zlength hashes = 64 ∧ Forall is_u32 hashes ∧
    ∀ i, 0 ≤ i < zlength idx → zget 0 hashes i = (zget no_row (rows_at rows idx) i).1.
Proof.
  intros Hs Hu Hidx Hlen. pose proof Hs as []. unfold store_hashes.
  destruct (for_inv (λ k hashes, zlength hashes = 64 ∧ Forall is_u32 hashes ∧
      ∀ i, 0 ≤ i < k → zget 0 hashes i = (zget no_row (rows_at rows idx) i).1)
    (λ i hashes, row ← aref idx i; l ← aref (bs_links store) row; aset hashes i (bl_hash l))
    (zlength idx) (to_u32 <$> palloc_uninit PG_BATCH_SIZE)) as (hashes & -> & ? & ? & ?); [lia| | |by exists hashes].
  - rewrite length_fmap, palloc_uninit_length by (unfold PG_BATCH_SIZE; lia). split; [done|]. split; [|lia].
    apply Forall_fmap, Forall_forall. intros x _. apply to_u32_range.
  - intros i hashes Hi (Hl & Hf & Hdone). rewrite (aref_ok 0), bind_Ok by lia.
    pose proof (zget_Forall (λ i, 0 ≤ i < zlength rows) 0 idx i Hidx Hi) as Hrow. cbn beta in Hrow. set (row := zget 0 idx i) in *.
    rewrite (aref_ok no_link), bind_Ok, aset_ok by lia. fold (link_of store row).
    pose proof (sw_hashes (Z.to_nat row) _ (rows_at_lookup rows row Hrow)) as Hh. rewrite Z2Nat.id in Hh by lia. rewrite Hh.
    pose proof (zget_Forall (λ r : build_row, is_u32 r.1) no_row rows row Hu Hrow) as Hr. cbn beta in Hr.
    eexists; split; [done|]. rewrite length_insert. split; [done|]. split; [by apply Forall_insert|].
    intros j Hj. rewrite zget_insert by lia. case_decide as E; [subst j|apply Hdone; lia].
    unfold rows_at, zget at 2. rewrite list_lookup_fmap. unfold row, zget at 2.
    destruct (lookup_lt_is_Some_2 idx (Z.to_nat i)) as [x ->]; [lia|done].
Qed.

(** The arrays of [n] dense rows of [nc] columns while the cells before
    position [t] are written; [cell c i] is the cell of the [i]-th row in column
    [c]. *)
Record dense_inv (nc n : Z) (cell : Z → Z → option Z) (t : Z) (st : list Z * list Z) : Prop := {
  di_values : zlength st.1 = nc * n;
  di_validity : zlength st.2 = nc;
  di_s32 : Forall is_s32 st.1;
  di_u64 : Forall is_u64 st.2;
  di_cells : ∀ c i, 0 ≤ c < nc → 0 ≤ i < n → Z.testbit (zget 0 st.2 c) i = (c * n + i <? t) && bool_decide (is_Some (cell c i));
  di_value : ∀ c i v, 0 ≤ c < nc → 0 ≤ i < n → c * n + i < t → cell c i = Some v → zget 0 st.1 (c * n + i) = v;
}.

Lemma dense_start nc n cell : 0 ≤ nc → 0 ≤ n → dense_inv nc n cell 0 (int32_uninit (nc * n), replicate (Z.to_nat nc) 0).
Proof.
  intros Hc Hn. destruct (int32_uninit_ok (nc * n)) as [Hul Hus]; [nia|]. split; cbn; try done.
  - rewrite length_replicate. lia.
  - apply Forall_replicate. unfold is_u64. lia.
  - intros c i Hcc Hi. rewrite zget_replicate, Z.bits_0 by lia. destruct (Z.ltb_spec (c * n + i) 0); [nia|done].
  - intros c i v Hcc Hi. nia.
Qed.

(** Writing one cell. *)
Definition dense_put (n c i : Z) (v : Z * bool) (st : list Z * list Z) : res (list Z * list Z) :=
  values ← aset st.1 (c * n + i) v.1;
  if v.2 then Ok (values, st.2) else
  x ← aref st.2 c;
  validity ← aset st.2 c (Z.lor x (bit64 i));
  Ok (values, validity).

Lemma dense_put_ok nc n cell c i v st :
  0 ≤ c < nc → 0 ≤ i < n → n ≤ 64 → is_s32 v.1 → cell c i = got v → dense_inv nc n cell (c * n + i) st →
  ∃ st', dense_put n c i v st = Ok st' ∧ dense_inv nc n cell (c * n + i + 1) st'.
Proof.
  intros Hc Hi Hn Hv32 Hcell [Hv Hl Hs32 Hu64 Hcells Hvals]. unfold dense_put.
  assert (0 ≤ c * n + i < nc * n) by nia. rewrite aset_ok, bind_Ok by lia.
  assert (Hpos : ∀ c' i', 0 ≤ i' < n → c' * n + i' = c * n + i → c' = c ∧ i' = i).
  { intros c' i' Hi' E. assert (c' = c) as ->; [|lia]. nia. }
  assert (Hlt : ∀ c' i', 0 ≤ i' < n → (c' * n + i' <? c * n + i + 1) = (c' * n + i' <? c * n + i) || bool_decide (c' = c ∧ i' = i)).
  { intros c' i' Hi'. destruct (Z.ltb_spec (c' * n + i') (c * n + i + 1)), (Z.ltb_spec (c' * n + i') (c * n + i));
      cbn [orb]; symmetry; try done; try lia; [apply bool_decide_eq_true|apply bool_decide_eq_false].
    - apply Hpos; lia.
    - intros [-> ->]. lia. }
  assert (Hvalue : ∀ c' i' w, 0 ≤ c' < nc → 0 ≤ i' < n → c' * n + i' < c * n + i + 1 → cell c' i' = Some w →
    zget 0 (<[Z.to_nat (c * n + i) := v.1]> st.1) (c' * n + i') = w).
  { intros c' i' w Hc' Hi' Hlt' Hw. rewrite zget_insert by nia. case_decide as E.
    - destruct (Hpos c' i') as [-> ->]; [done|lia|]. rewrite Hcell in Hw. unfold got in Hw. by destruct v.2; simplify_eq.
    - apply Hvals; [done|done|lia|done]. }
  unfold got in Hcell. destruct v.2.
  - eexists; split; [done|]. split; cbn [fst snd]; rewrite ?length_insert; try done; [by apply Forall_insert|].
    intros c' i' Hc' Hi'. rewrite Hcells, Hlt by done. destruct (decide (c' = c ∧ i' = i)) as [[-> ->]|E].
    + by rewrite Hcell, !andb_false_r.
    + by rewrite (bool_decide_eq_false_2 _ E), orb_false_r.
  - rewrite (aref_ok 0), bind_Ok, aset_ok, bind_Ok by lia. eexists; split; [done|].
    split; cbn [fst snd]; rewrite ?length_insert; try done; try by apply Forall_insert.
    + apply Forall_insert; [done|]. apply is_u64_lor; [apply zget_Forall; [done|lia]|auto with words].
    + intros c' i' Hc' Hi'. rewrite zget_insert, Hlt by lia. case_decide as E.
      * subst c'. rewrite Z.lor_spec, testbit_bit64, Hcells by lia. destruct (Z.eqb_spec i' i) as [->|Hne].
        -- rewrite (bool_decide_eq_true_2 (c = c ∧ i = i)), Hcell, !orb_true_r by done. done.
        -- rewrite (bool_decide_eq_false_2 (c = c ∧ i' = i)), !orb_false_r by tauto. done.
      * rewrite Hcells by done. by rewrite (bool_decide_eq_false_2 (c' = c ∧ i' = i)), orb_false_r by (intros [-> _]; done).
Qed.

(** The whole rows are written column by column. *)
Lemma dense_columns nc n cell (body : Z → Z → list Z * list Z → res (list Z * list Z)) :
  0 ≤ nc → 0 ≤ n ≤ 64 →
  (∀ c i st, 0 ≤ c < nc → 0 ≤ i < n → ∃ v, body c i st = dense_put n c i v st ∧ is_s32 v.1 ∧ cell c i = got v) →
  ∃ dense, foldM (λ c, foldM (body c) (seqZ 0 n)) (seqZ 0 nc) (int32_uninit (nc * n), replicate (Z.to_nat nc) 0) = Ok dense ∧
    dense_inv nc n cell (nc * n) dense.
Proof.
  intros Hc Hn Hbody. apply (for_inv (λ k st, dense_inv nc n cell (k * n) st)); [done|apply dense_start; lia|].
  intros k st Hk Hinv. destruct (for_inv (λ i st, dense_inv nc n cell (k * n + i) st) (body k) n st) as (st' & -> & Hst').
  - lia.
  - by rewrite Z.add_0_r.
  - intros i st1 Hi H1. destruct (Hbody k i st1 Hk Hi) as (v & -> & Hs32 & Hcell). rewrite Z.add_assoc. apply dense_put_ok; (done || lia).
  - exists st'. split; [done|]. by replace ((k + 1) * n) with (k * n + n) by lia.
Qed.

(** What the set takes from the arrays. *)
Lemma dense_rows set parts p nc n cell hashes dense (rows : list build_row) :
  spill_open set parts → ncolumns set = nc → 0 ≤ p < npartitions set → 1 ≤ n ≤ 64 → n = zlength rows →
  n ≤ zlength hashes → Forall is_u32 hashes → (∀ i, 0 ≤ i < n → zget 0 hashes i = (zget no_row rows i).1) →
  dense_inv nc n cell (nc * n) dense →
  (∀ i, 0 ≤ i < n → (zget no_row rows i).2 = (λ c, cell c i) <$> seqZ 0 nc) →
  ∃ set' new, pg_batch_spill_write_dense set p n hashes dense.1 n dense.2 = Ok set' ∧ same_config set set' ∧
    spill_open set' (append_to p new parts) ∧ logical <$> new = rows.
Proof.
  intros Hset Hnc Hp Hn Hrows Hhl Hhu Hh [Hv Hl Hs32 Hu64 Hcells Hvals] Hcell.
  destruct (write_dense_ok set parts p n hashes dense.1 n dense.2) as (set' & new & E & Hcfg & Ho & Hnew); [done| |].
  { cbn. rewrite Hnc. split_and!; (done || lia || nia). }
  exists set', new. split; [exact E|]. split; [done|]. split; [done|]. rewrite Hnew. cbn. rewrite Hnc.
  rewrite <- (zget_seqZ no_row rows), <- Hrows. apply list_fmap_ext. intros j i Hj%lookup_seqZ. assert (Hi : 0 ≤ i < n) by lia.
  rewrite Hh by done. rewrite (surjective_pairing (zget no_row rows i)), Hcell by done. cbn [fst]. f_equal.
  apply list_fmap_ext. intros j' c Hc%lookup_seqZ. assert (Hcc : 0 ≤ c < nc) by lia. unfold dense_value. rewrite Hcells by done.
  destruct (Z.ltb_spec (c * n + i) (nc * n)) as [Hlt|]; [|nia]. cbn [andb]. case_bool_decide as Es.
  - destruct Es as [v Ev]. by rewrite Ev, (Hvals c i v).
  - destruct (cell c i); [by destruct Es|done].
Qed.

Lemma rows_at_get rows idx i : 0 ≤ i < zlength idx → zget no_row (rows_at rows idx) i = zget no_row rows (zget 0 idx i).
Proof.
  intros Hi. unfold rows_at, zget. rewrite list_lookup_fmap.
  destruct (lookup_lt_is_Some_2 idx (Z.to_nat i)) as [x ->]; [lia|done].
Qed.

Lemma write_store_block_ok store rows set parts p idx :
  store_holds store rows → spillable (bs_ncolumns store) rows → spill_open set parts →
  ncolumns set = bs_ncolumns store → 0 ≤ p < npartitions set →
  Forall (λ i, 0 ≤ i < zlength rows) idx → 1 ≤ zlength idx ≤ 64 →
  ∃ set' new, write_store_block store set p idx = Ok set' ∧ same_config set set' ∧
    spill_open set' (append_to p new parts) ∧ logical <$> new = rows_at rows idx.
Proof.
  intros Hs Hsp Hset Hnc Hp Hidx Hlen. pose proof Hs as []. unfold write_store_block.
  destruct (store_hashes_ok store rows idx Hs) as (hashes & -> & Hhl & Hhu & Hh); [|done|lia|].
  { eapply Forall_impl; [exact Hsp|]. by intros r [? _]. }
  rewrite bind_Ok. set (n := zlength idx) in *. set (nc := bs_ncolumns store) in *.
  assert (Hrow : ∀ i, 0 ≤ i < n → 0 ≤ zget 0 idx i < zlength rows) by (intros i Hi; by apply (zget_Forall (λ i, 0 ≤ i < zlength rows))).
  destruct (dense_columns nc n (λ c i, stored_cell (column_of store c) (zget 0 idx i))
    (λ c i st, stored ← aref (bs_columns store) c; store_dense_cell stored idx c i st)) as (dense & Ed & Hd); [lia|lia| |].
  - intros c i st Hc Hi. specialize (Hrow i Hi). rewrite (aref_ok no_column), bind_Ok by lia. fold (column_of store c).
    destruct (sw_columns c Hc) as [Hcv Hcw Hcu Hcs]; [lia|]. unfold store_dense_cell. fold n.
    rewrite (aref_ok 0 idx i), bind_Ok by (subst n; lia). rewrite (aref_ok 0 (sc_values _)), bind_Ok by lia.
    exists (zget 0 (sc_values (column_of store c)) (zget 0 idx i), negb (validity_at (column_of store c) (zget 0 idx i))).
    split; [|split; [apply zget_Forall; [done|lia]|by unfold stored_cell, got; destruct (validity_at _ _)]].
    unfold dense_put. cbn [fst snd]. destruct (aset st.1 _ _) as [values| |]; [|done|done]. rewrite !bind_Ok.
    rewrite (aref_ok 0 (sc_validity _)), bind_Ok, land_bit64_zero by zlia. done.
  - assert (foldM (λ column st, stored ← aref (bs_columns store) column; foldM (store_dense_cell stored idx column) (seqZ 0 n) st)
      (seqZ 0 nc) (int32_uninit (nc * n), replicate (Z.to_nat nc) 0) = Ok dense) as ->.
    { rewrite <- Ed. apply foldM_ext. intros c st Hc%elem_of_seqZ. by rewrite (aref_ok no_column), bind_Ok by lia. }
    rewrite bind_Ok. eapply (dense_rows set parts p nc n); try done; try lia.
    + unfold rows_at. by rewrite length_fmap.
    + intros i Hi. specialize (Hrow i Hi). rewrite rows_at_get by done. pose proof (zget_Forall _ no_row rows _ Hsp Hrow) as [_ Hw].
      cbn beta in Hw. pose proof (rows_at_lookup rows _ Hrow) as Hlk. set (r := zget no_row rows (zget 0 idx i)) in *.
      rewrite <- (zget_seqZ None r.2) at 1. rewrite Hw. apply list_fmap_ext. intros j c Hc%lookup_seqZ.
      assert (Hcc : 0 ≤ c < nc) by lia. pose proof (sw_cells _ _ c Hlk Hcc) as Hcell. rewrite Z2Nat.id in Hcell by lia. by rewrite Hcell.
Qed.

(** ** Evicting *)

Definition in_partition (np q : Z) (r : build_row) : Prop := row_partition np r.1 = q.
#[export] Instance in_partition_dec np q r : Decision (in_partition np q r).
Proof. unfold in_partition. apply _. Defined.

(** The spill side of the join: [parts] is what the spill set holds; a file
    exists when its partition has rows. *)
Record spilling (p : JoinSpill) (nc : Z) (parts : list (list raw_row)) : Prop := {
  sp_set : spill_open (jp_build_spill p) parts;
  sp_ncolumns : ncolumns (jp_build_spill p) = nc;
  sp_npartitions : npartitions (jp_build_spill p) = jp_npartitions p;
  sp_parts : zlength parts = jp_npartitions p;
  sp_files : zlength (jp_build_files p) = jp_npartitions p;
  sp_counts : zlength (jp_partition_rows p) = jp_npartitions p;
  sp_residents : zlength (jp_resident_rows p) = jp_npartitions p;
  sp_exists : ∀ q rows, parts !! Z.to_nat q = Some rows → 0 ≤ q →
    zget false (jp_build_files p) q = negb (bool_decide (rows = []));
}.

Lemma next_partition_count_ok required : ∃ k, next_partition_count required = Ok (2 ^ k) ∧ 1 ≤ k ≤ 10.
Proof.
  assert (Hloop : ∀ fuel j, 1 ≤ j ≤ 10 → 10 - j ≤ Z.of_nat fuel →
    ∃ k, partition_count_loop fuel required (2 ^ j) = Ok (2 ^ k) ∧ 1 ≤ k ≤ 10).
  { induction fuel as [|fuel IH]; intros j Hj Hf; cbn [partition_count_loop].
    - replace j with 10 by lia. rewrite andb_false_r. by exists 10.
    - destruct (_ && _) eqn:E; [|by exists j]. apply andb_true_iff in E as [_ E%Z.ltb_lt].
      assert (j < 10) by (apply (Z.pow_lt_mono_r_iff 2); lia).
      replace (2 ^ j * 2) with (2 ^ (j + 1)) by (rewrite Z.pow_add_r by lia; lia). apply IH; lia. }
  apply (Hloop 10%nat 1); lia.
Qed.

Lemma partition_bits_ok k : 0 ≤ k ≤ 10 → partition_bits (2 ^ k) = Ok k.
Proof.
  assert (Hloop : ∀ fuel j bits, 0 ≤ j ≤ Z.of_nat fuel → partition_bits_loop fuel (2 ^ j) bits = Ok (bits + j)).
  { induction fuel as [|fuel IH]; intros j bits Hj; cbn [partition_bits_loop].
    - replace j with 0 by lia. change (2 ^ 0) with 1. by rewrite Z.add_0_r.
    - destruct (Z.ltb_spec 1 (2 ^ j)) as [Hlt|Hge].
      + assert (0 < j) by (apply (Z.pow_lt_mono_r_iff 2); lia).
        rewrite Z.shiftr_div_pow2, <- Z.pow_sub_r, IH by lia. f_equal. lia.
      + assert (j = 0) as ->; [|by rewrite Z.add_0_r]. destruct (decide (0 < j)); [|lia].
        assert (2 ^ 0 < 2 ^ j) by (apply Z.pow_lt_mono_r; lia). lia. }
  intros Hk. apply (Hloop 10%nat k 0). lia.
Qed.

Lemma spill_desc_ok nc np : 0 < nc < 2 ^ 16 → 0 < np → config_ok (spill_tuple_desc nc) nc np.
Proof.
  intros Hn Hp. unfold config_ok, spill_tuple_desc. rewrite length_replicate. split_and!; try lia.
  rewrite take_ge by (rewrite length_replicate; lia). by apply Forall_replicate.
Qed.

(** What [hash_join_begin_spill] sets up: empty spill sets for a power of two
    of partitions, some of which stay resident. *)
Record begun (nin nout : Z) (j : SpilledJoin) : Prop := {
  bg_set : spilling (sj_build j) nin (replicate (Z.to_nat (jp_npartitions (sj_build j))) []);
  bg_probe : spill_open (sj_probe_spill j) (replicate (Z.to_nat (jp_npartitions (sj_build j))) []) ∧
    ncolumns (sj_probe_spill j) = nout ∧ npartitions (sj_probe_spill j) = jp_npartitions (sj_build j);
  bg_count : 1 ≤ sj_partition_shift j ≤ 10 ∧ jp_npartitions (sj_build j) = 2 ^ sj_partition_shift j;
  bg_resident : ∃ n, 1 ≤ n < jp_npartitions (sj_build j) ∧ ∀ q, q ∈ jp_resident (sj_build j) ↔ 0 ≤ q < n;
  bg_chunk : 64 ≤ sj_build_chunk_rows j < 2 ^ 32;
}.

(** Both callers estimate at least the limit. *)
Definition spill_sizes_ok (memory_limit estimated_bytes : Z) : Prop :=
  0 < memory_limit < max_spill_memory ∧ memory_limit ≤ estimated_bytes.

Lemma resident_limit_range limit np columns bloom_bytes :
  0 ≤ limit → 0 ≤ np → 0 ≤ columns → 0 ≤ bloom_bytes → 0 ≤ resident_limit limit np columns bloom_bytes ≤ limit.
Proof.
  intros Hl Hn Hc Hb. unfold resident_limit, PG_BATCH_SIZE. cbv zeta. set (bytes := _ + _ + _).
  assert (0 ≤ bytes) by (unfold bytes; nia). zlia.
Qed.

Lemma resident_count_ok limit bytes k m :
  1 ≤ k ≤ 10 → spill_sizes_ok m bytes → 0 ≤ limit ≤ m → 1 ≤ resident_partition_count limit bytes (2 ^ k) < 2 ^ k.
Proof.
  intros Hk [Hm Hb] Hl. assert (2 ^ 1 ≤ 2 ^ k ≤ 2 ^ 10) by (split; apply Z.pow_le_mono_r; lia).
  unfold resident_partition_count. cbv zeta. set (per := Z.max 1 (bytes / 2 ^ k)).
  assert (Hper : Z.max 1 (bytes / 1024) ≤ per).
  { apply Z.max_le_compat_l, Z.div_le_compat_l; lia. }
  assert (0 ≤ limit / per ≤ 2048).
  { split; [apply Z.div_pos; lia|]. apply Z.div_le_upper_bound; [lia|]. zlia. }
  unfold to_s32. rewrite Z.mod_small by lia. destruct (Z.eqb_spec (Z.min (2 ^ k - 1) (limit / per + 2 ^ 31 - 2 ^ 31)) 0); lia.
Qed.

(** C26. Starting to spill succeeds and sets up a power of two of empty
    partitions on both sides, at least one of them resident and at least one
    not, whose number of bits is the shift the next level uses. *)
Theorem begin_spill_spec memory_limit planned nin nout estimated_bytes estimated_rows store rows :
  store_holds store rows → spill_sizes_ok memory_limit estimated_bytes → 0 ≤ estimated_rows →
  0 < nin < 2 ^ 16 → 0 < nout < 2 ^ 16 →
  ∃ j, hash_join_begin_spill memory_limit planned nin nout estimated_bytes estimated_rows store = Ok j ∧ begun nin nout j.
Proof.
  intros Hs Hsz He Hin Hout. pose proof Hsz as [Hlim _]. unfold hash_join_begin_spill.
  destruct (Z.eqb_spec memory_limit 0); [lia|]. rewrite bind_Ok. cbv zeta.
  destruct (next_partition_count_ok (Z.max (u64_add estimated_bytes (memory_limit - 1) / memory_limit) planned)) as (k & -> & Hk).
  rewrite bind_Ok, partition_bits_ok, bind_Ok by lia. assert (0 < 2 ^ k) by (apply Z.pow_pos_nonneg; lia).
  destruct (create_ok (spill_tuple_desc nin) nin (2 ^ k) (memory_limit / 4)) as (b & -> & Hbo & Hbn & Hbp & _); [apply spill_desc_ok; lia|].
  destruct (create_ok (spill_tuple_desc nout) nout (2 ^ k) (memory_limit / 4)) as (pr & -> & Hpo & Hpn & Hpp & _); [apply spill_desc_ok; lia|].
  rewrite !bind_Ok. destruct (bloom_create_ok memory_limit estimated_rows store rows Hs) as (ob & -> & Hob); [lia|lia|].
  rewrite bind_Ok. unfold chunk_rows. destruct (estimated_memory_total 1024 nin) as (bytes & ->). rewrite !bind_Ok.
  eexists; split; [done|]. split; cbn; try done.
  - split; cbn; rewrite ?length_replicate; try done; try lia.
    intros q l [-> _]%lookup_replicate Hq. unfold zget.
    destruct (decide (Z.to_nat q < Z.to_nat (2 ^ k))%nat); [by rewrite lookup_replicate_2|].
    by rewrite lookup_ge_None_2 by (rewrite length_replicate; lia).
  - assert (Hbb : 0 ≤ match ob with Some b0 => bloom_nbits b0 / 8 | None => 0 end).
    { destruct ob as [b0|]; [|done]. destruct Hob as (k0 & [[Hk0 ->] _ _] & _). apply Z.div_pos; [|done]. apply Z.pow_nonneg; lia. }
    set (lim := resident_limit _ _ _ _). assert (0 ≤ lim ≤ memory_limit) by (apply resident_limit_range; lia).
    exists (resident_partition_count lim estimated_bytes (2 ^ k)). split; [by apply (resident_count_ok _ _ _ memory_limit)|].
    intros q. rewrite elem_of_list_to_set, elem_of_seqZ. done.
  - split; [lia|]. assert (0 ≤ memory_limit / 2 / Z.max 1 (bytes / 1024)) by (apply Z.div_pos; [apply Z.div_pos|]; lia). lia.
Qed.

Lemma append_to_length q new (parts : list (list raw_row)) : length (append_to q new parts) = length parts.
Proof. apply length_alter. Qed.

(** The fields an eviction leaves alone. *)
Definition same_residents (p p' : JoinSpill) : Prop :=
  jp_npartitions p' = jp_npartitions p ∧ jp_resident p' = jp_resident p ∧
  jp_resident_rows p' = jp_resident_rows p ∧ jp_resident_build_rows p' = jp_resident_build_rows p.

Lemma spill_store_rows_ok store rows p nc parts q idx :
  store_holds store rows → spillable nc rows → nc = bs_ncolumns store → spilling p nc parts →
  0 ≤ q < jp_npartitions p → Forall (λ i, 0 ≤ i < zlength rows) idx → 1 ≤ zlength idx ≤ 64 →
  ∃ p' new, spill_store_rows store q idx p = Ok p' ∧ spilling p' nc (append_to q new parts) ∧
    same_residents p p' ∧ logical <$> new = rows_at rows idx.
Proof.
  intros Hs Hsp -> [] Hq Hidx Hlen. unfold spill_store_rows. rewrite aset_ok, bind_Ok by lia.
  destruct (write_store_block_ok store rows (jp_build_spill p) parts q idx) as (set' & new & -> & (Hc1 & Hc2 & Hc3) & Ho & Hnew);
    [done|done|done|done|lia|done|done|].
  rewrite bind_Ok. eexists _, new. split; [done|]. split; [|by split].
  assert (Hne : new ≠ []).
  { intros ->. apply (f_equal length) in Hnew. unfold rows_at in Hnew. rewrite !length_fmap in Hnew. cbn in Hnew. lia. }
  constructor; cbn; rewrite ?length_insert, ?append_to_length; try done; try congruence.
  intros q' l Hl Hq'. unfold append_to in Hl. rewrite zget_insert by lia. destruct (decide (q = q')) as [<-|Hqq].
  - rewrite list_lookup_alter, decide_True in Hl by done. destruct (parts !! Z.to_nat q) as [l0|]; [|done].
    injection Hl as <-. destruct l0, new; done.
  - rewrite list_lookup_alter, decide_False in Hl by lia. by apply sp_exists0.
Qed.

Lemma evict_rows_ok store rows p0 nc parts q :
  store_holds store rows → spillable nc rows → nc = bs_ncolumns store → spilling p0 nc parts →
  0 ≤ q < jp_npartitions p0 →
  ∃ p new buf flushed, foldM (evict_row store q) (seqZ 0 (bs_nrows store)) (p0, []) = Ok (p, buf) ∧
    spilling p nc (append_to q new parts) ∧ same_residents p0 p ∧ logical <$> new = rows_at rows flushed ∧
    flushed ++ buf = filter (λ i, in_partition (jp_npartitions p0) q (zget no_row rows i)) (seqZ 0 (zlength rows)) ∧
    zlength buf < 64 ∧ Forall (λ i, 0 ≤ i < zlength rows) buf.
Proof.
  intros Hs Hsp Hnc Hp0 Hq. pose proof Hs as [].
  destruct (foldM_inv (λ pre st, ∃ new flushed, spilling st.1 nc (append_to q new parts) ∧ same_residents p0 st.1 ∧
      logical <$> new = rows_at rows flushed ∧
      flushed ++ st.2 = filter (λ i, in_partition (jp_npartitions p0) q (zget no_row rows i)) pre ∧
      zlength st.2 < 64 ∧ Forall (λ i, 0 ≤ i < zlength rows) st.2)
    (evict_row store q) (seqZ 0 (bs_nrows store)) (p0, [])) as ([p buf] & E & new & flushed & ? & ? & ? & Hall & ? & ?).
  - exists [], []. cbn. rewrite append_to_nil. split_and!; (done || lia || constructor).
  - intros pre row post [p buf] E (new & flushed & Hsp1 & Hsame & Hnew & Hfl & Hlen & Hbuf). cbn [fst snd] in *.
    assert (Hrow : 0 ≤ row < zlength rows).
    { assert (row ∈ seqZ 0 (bs_nrows store)) as Hin%elem_of_seqZ by (rewrite E; set_solver). lia. }
    destruct Hsame as (Hnp & Hres & Hrr & Hrb). pose proof Hsp1 as [].
    unfold evict_row. rewrite (aref_ok no_link), bind_Ok by lia. fold (link_of store row).
    pose proof (sw_hashes _ _ (rows_at_lookup rows row Hrow)) as Hh. rewrite Z2Nat.id in Hh by lia. cbn [fst snd].
    rewrite Hh, Hnp. rewrite filter_app, filter_cons, filter_nil. unfold in_partition at 2.
    destruct (Z.eqb_spec (row_partition (jp_npartitions p0) (zget no_row rows row).1) q) as [Eq|Eq]; cbn [negb].
    + rewrite decide_True by done. rewrite (aref_ok 0), bind_Ok, aset_ok, bind_Ok by lia. cbv zeta.
      set (p1 := with_spilled p _ _).
      assert (Hp1 : spilling p1 nc (append_to q new parts)) by (constructor; cbn; rewrite ?length_insert; done).
      assert (Hbuf' : Forall (λ i, 0 ≤ i < zlength rows) (buf ++ [row])) by (apply Forall_app; split; [done|by constructor]).
      rewrite length_app. cbn [length]. destruct (Z.eqb_spec (Z.of_nat (length buf + 1)) PG_BATCH_SIZE) as [Hfull|Hroom].
      * destruct (spill_store_rows_ok store rows p1 nc (append_to q new parts) q (buf ++ [row])) as (p' & new' & -> & Hp' & (? & ? & ? & ?) & Hnew');
          [done|done|done|done|cbn; lia|done|rewrite length_app; cbn; unfold PG_BATCH_SIZE in *; lia|].
        rewrite bind_Ok. eexists; split; [done|]. exists (new ++ new'), (flushed ++ buf ++ [row]). cbn [fst snd].
        rewrite <- append_to_app. split; [done|]. split; [unfold same_residents; cbn in *; split_and!; congruence|].
        split; [rewrite fmap_app, Hnew, Hnew'; unfold rows_at; by rewrite !fmap_app|].
        rewrite app_nil_r, app_assoc, Hfl. by split_and!.
      * eexists; split; [done|]. exists new, flushed. cbn [fst snd]. split; [done|].
        split; [by split|]. split; [done|]. rewrite app_assoc, Hfl, length_app. cbn [length]. unfold PG_BATCH_SIZE in Hroom. split; [done|]. split; [lia|done].
    + rewrite decide_False, app_nil_r by done. eexists; split; [done|]. exists new, flushed. split; [done|]. split; [by split|]. by split_and!.
  - exists p, new, buf, flushed. rewrite sw_nrows in Hall. by split_and!.
Qed.

(** The rows of one partition go to its file, in order. *)
Lemma evict_partition_ok store rows p nc parts q :
  store_holds store rows → spillable nc rows → nc = bs_ncolumns store → spilling p nc parts →
  0 ≤ q < jp_npartitions p →
  ∃ p' new, evict_partition store q p = Ok p' ∧ spilling p' nc (append_to q new parts) ∧ same_residents p p' ∧
    logical <$> new = if decide (q ∈ jp_resident p) then [] else filter (in_partition (jp_npartitions p) q) rows.
Proof.
  intros Hs Hsp Hnc Hp Hq. unfold evict_partition. case_decide.
  { exists p, []. rewrite append_to_nil. by split_and!. }
  destruct (evict_rows_ok store rows p nc parts q Hs Hsp Hnc Hp Hq)
    as (p1 & new & buf & flushed & -> & Hp1 & Hsame & Hnew & Hfl & Hlen & Hbuf). rewrite bind_Ok. cbn [fst snd].
  assert (Hall : rows_at rows (flushed ++ buf) = filter (in_partition (jp_npartitions p) q) rows).
  { rewrite Hfl. unfold rows_at. rewrite <- list_filter_fmap'. by rewrite zget_seqZ. }
  destruct (Z.ltb_spec 0 (zlength buf)) as [Hpos|Hnone].
  - destruct Hsame as (Hnp & ? & ? & ?).
    destruct (spill_store_rows_ok store rows p1 nc (append_to q new parts) q buf) as (p2 & new2 & -> & Hp2 & (? & ? & ? & ?) & Hnew2);
      [done|done|done|done|lia|done|lia|].
    exists p2, (new ++ new2). rewrite <- append_to_app. split; [done|]. split; [done|].
    split; [unfold same_residents; split_and!; congruence|].
    rewrite fmap_app, Hnew, Hnew2, <- Hall. unfold rows_at. by rewrite fmap_app.
  - assert (buf = []) as -> by (destruct buf; [done|cbn in Hnone; lia]).
    exists p1, new. split; [done|]. split; [done|]. split; [done|]. by rewrite Hnew, <- Hall, app_nil_r.
Qed.

(** All partitions that are not resident. *)
Definition evicted (p : JoinSpill) (rows : list build_row) (upto : Z) (q : nat) : list build_row :=
  if decide (Z.of_nat q < upto ∧ Z.of_nat q ∉ jp_resident p) then filter (in_partition (jp_npartitions p) (Z.of_nat q)) rows else [].

Lemma evict_all_ok store rows p nc parts :
  store_holds store rows → spillable nc rows → nc = bs_ncolumns store → spilling p nc parts → 0 ≤ jp_npartitions p →
  ∃ p' parts', foldM (evict_partition store) (seqZ 0 (jp_npartitions p)) p = Ok p' ∧ spilling p' nc parts' ∧
    same_residents p p' ∧
    ∀ q, map logical <$> parts' !! q = (λ l, map logical l ++ evicted p rows (jp_npartitions p) q) <$> parts !! q.
Proof.
  intros Hs Hsp Hnc Hp Hn.
  destruct (for_inv (λ k p', ∃ parts', spilling p' nc parts' ∧ same_residents p p' ∧
      ∀ q, map logical <$> parts' !! q = (λ l, map logical l ++ evicted p rows k q) <$> parts !! q)
    (evict_partition store) (jp_npartitions p) p) as (p' & -> & parts' & ? & ? & ?); [done| | |by exists p', parts'].
  - exists parts. split; [done|]. split; [by split|]. intros q. apply option_fmap_ext. intros l.
    unfold evicted. rewrite decide_False by lia. by rewrite app_nil_r.
  - intros k p1 Hk (parts1 & Hp1 & (Hnp & Hres & Hrr & Hrb) & Hl1).
    destruct (evict_partition_ok store rows p1 nc parts1 k) as (p2 & new & -> & Hp2 & (? & ? & ? & ?) & Hnew);
      [done|done|done|done|lia|].
    exists p2. split; [done|]. exists (append_to k new parts1). split; [done|].
    split; [unfold same_residents; split_and!; congruence|]. intros q. unfold append_to. rewrite list_lookup_alter.
    rewrite Hres, Hnp in Hnew. change (map logical new) with (logical <$> new) in *.
    destruct (decide (Z.to_nat k = q)) as [<-|Hq].
    + specialize (Hl1 (Z.to_nat k)). destruct (parts !! Z.to_nat k) as [l|], (parts1 !! Z.to_nat k) as [l1|]; try done. cbn in *.
      injection Hl1 as Hl1. f_equal. rewrite map_app, Hl1, <- app_assoc. f_equal.
      change (map logical new) with (logical <$> new). rewrite Hnew. unfold evicted. rewrite Z2Nat.id by lia.
      rewrite (decide_False (P := k < k ∧ _)) by lia. cbn [app].
      destruct (decide (k ∈ jp_resident p)); [rewrite decide_False by tauto|rewrite decide_True by (split; [lia|done])]; done.
    + rewrite Hl1. apply option_fmap_ext. intros l. f_equal. unfold evicted.
      destruct (decide (Z.of_nat q < k ∧ Z.of_nat q ∉ jp_resident p)), (decide (Z.of_nat q < k + 1 ∧ Z.of_nat q ∉ jp_resident p));
        try done; exfalso; naive_solver lia.
Qed.
End evict.

(** ** A concrete store *)

(** The rows of one batch: keys 5, 7, 5 with payloads 50, NULL, 53. *)
Definition sample_stored : BuildStore :=
  match build_loop (H := reference_core) 1000000 [0] (replicate 64 0, 0) [sample_build_batch]
    (hash_join_reset_build_store sample_store) with
  | Ok (s, _) => s
  | _ => sample_store
  end.

Definition sample_stored_rows : list build_row := concat (build_rows (H := reference_core) [0] <$> [sample_build_batch]).

Lemma sample_stored_ok : store_wf sample_stored sample_stored_rows ∧ bs_ncolumns sample_stored = 2.
Proof.
  destruct (build_loop_ok (H := reference_core) 1000000 [0] [sample_build_batch] (replicate 64 0, 0)
      (hash_join_reset_build_store sample_store) [])
    as (s & taken & rest & E & Ht & Hs & Hn & _);
    [by apply empty_store_ok|discriminate|by apply Forall_singleton|apply Forall_singleton, sample_build_batch_ok|
     cbn; lia|split; cbn; lia|vm_compute; discriminate|].
  - assert (rest = []) as ->.
    { assert (Er : (λ r, r.2) <$> (Some (s, rest)) = Some []); [|by injection Er].
      replace (Some (s, rest)) with (match build_loop (H := reference_core) 1000000 [0] (replicate 64 0, 0) [sample_build_batch]
    (hash_join_reset_build_store sample_store) with
        | Ok r => Some r | _ => None end) by (by rewrite E). by vm_compute. }
    rewrite app_nil_r in Ht. subst taken. unfold sample_stored. rewrite E. split; [exact Hs|exact Hn].
Qed.

Lemma sample_stored_spillable : spillable (bs_ncolumns sample_stored) sample_stored_rows.
Proof. destruct sample_stored_ok as [_ ->]. unfold spillable. repeat apply Forall_cons_2; [..|apply Forall_nil_2]; by vm_compute. Qed.

Lemma bloom_spec_witness :
  ∃ ob, bloom_create 1000000 3 sample_stored = Ok ob ∧
    ∀ b, ob = Some b → ∃ b' k, foldM (λ h b, bloom_add b h) [99; 77] b = Ok b' ∧ bloom_wf b' k ∧
      ∀ h, bloom_may_contain b' h =
        Ok (bool_decide (h mod 2 ^ k ∈ (λ h, h mod 2 ^ k) <$> sample_stored_rows.*1 ++ [99; 77])).
Proof.
  apply (bloom_spec 1000000 3 sample_stored sample_stored_rows [99; 77]).
  - apply sample_stored_ok.
  - unfold max_spill_memory. lia.
  - lia.
Defined.

Lemma begin_spill_witness :
  ∃ j, hash_join_begin_spill 100000 1 2 1 150000 3 sample_stored = Ok j ∧ begun 2 1 j.
Proof.
  apply (begin_spill_spec 100000 1 2 1 150000 3 sample_stored sample_stored_rows);
    [apply sample_stored_ok|unfold spill_sizes_ok, max_spill_memory; lia|lia|lia|lia].
Defined.
