(* ===== verification/JoinCompact.v ===== *)
(** * The spilling hash join: compacting the store

    Compaction leaves exactly the resident rows, in order, in the store, and
    evicting the largest partitions ends with a store that fits its limit; but
    the validity bits of the rows that were dropped stay behind, so a NULL
    stored there later is read as a value. *)

From S2P Require Import Prelude Words Bytes Selection Vector Kernels Int4 Hash Spill SpillBlocks SpillSet SpillRun JoinStore JoinStoreProps JoinDirectory JoinBuild JoinBuildProps JoinQualProps JoinSpill JoinSpillProps.

Section compact.
Context `{PgCore} `{LogicalTapes}.

Lemma move_cell_ok cols cap row write column :
  0 ≤ column < zlength cols → column_wf (zget no_column cols column) cap → 0 ≤ row < cap → 0 ≤ write < cap →
  ∃ c', move_cell row write column cols = Ok (<[Z.to_nat column := c']> cols) ∧ column_wf c' cap ∧
    ∀ i, 0 ≤ i < cap →
      validity_at c' i = validity_at (zget no_column cols column) (if decide (i = write) then row else i) ∧
      value_at c' i = value_at (zget no_column cols column) (if decide (i = write) then row else i).
Proof.
  intros Hcol Hc Hrow Hwrite. pose proof Hc as [Hv Hl Hw Hs]. unfold move_cell.
  rewrite (aref_ok no_column), bind_Ok by done. set (c := zget no_column cols column) in *.
  rewrite (aref_ok 0 (sc_validity c) (row / 64)), bind_Ok, (aref_ok 0 (sc_values c)), bind_Ok, aset_ok, bind_Ok,
    (aref_ok 0 (sc_validity c) (write / 64)), bind_Ok, aset_ok, bind_Ok, aset_ok, land_bit64_zero, negb_involutive by zlia.
  fold (validity_at c row). set (word := zget 0 (sc_validity c) (write / 64)).
  assert (Hword : is_u64 word) by (apply zget_Forall; [done|zlia]).
  eexists; split; [done|]. split.
  - split; cbn; rewrite ?length_insert; try done; (apply Forall_insert; [done|]).
    + destruct (validity_at c row); auto with words.
    + apply zget_Forall; [done|lia].
  - intros i Hi. split.
    + unfold validity_at at 1. cbn. rewrite zget_insert by zlia. case_decide as Ew.
      * assert (Hbit : 0 ≤ i mod 64 < 64) by zlia.
        destruct (validity_at c row) eqn:Ev.
        -- rewrite Z.lor_spec, testbit_bit64 by zlia. case_decide as Ei; [by rewrite Ei, Z.eqb_refl, orb_true_r, Ev|].
           destruct (Z.eqb_spec (i mod 64) (write mod 64)); [zlia|]. unfold validity_at. by rewrite orb_false_r, <- Ew.
        -- rewrite Z.land_spec, testbit_not64, testbit_bit64 by zlia.
           destruct (Z.leb_spec 0 (i mod 64)), (Z.ltb_spec (i mod 64) 64); try lia. cbn [andb]. rewrite xorb_true_r.
           case_decide as Ei; [rewrite Ei, Z.eqb_refl; cbn [negb]; by rewrite andb_false_r|].
           destruct (Z.eqb_spec (i mod 64) (write mod 64)); [zlia|]. cbn [negb]. unfold validity_at. by rewrite andb_true_r, <- Ew.
      * case_decide as Ei; [by subst i|done].
    + unfold value_at. cbn. rewrite zget_insert by lia. destruct (decide (write = i)), (decide (i = write)); try congruence; done.
Qed.

(** Where the row now at position [j] came from, once the rows at [idx] have
    moved to the front. *)
Definition origin (idx : list Z) (j : Z) : Z := if j <? zlength idx then zget 0 idx j else j.

Lemma origin_snoc idx row j : 0 ≤ j → origin (idx ++ [row]) j = if decide (j = zlength idx) then row else origin idx j.
Proof.
  intros Hj. unfold origin. rewrite length_app. cbn [length]. case_decide as E.
  - subst j. destruct (Z.ltb_spec (zlength idx) (Z.of_nat (length idx + 1))); [|lia]. unfold zget.
    by rewrite Nat2Z.id, lookup_app_r, Nat.sub_diag by lia.
  - destruct (Z.ltb_spec j (Z.of_nat (length idx + 1))), (Z.ltb_spec j (zlength idx)); try lia.
    by rewrite zget_app_l by lia.
Qed.


Record compacting (s0 : BuildStore) (idx : list Z) (s : BuildStore) : Prop := {
  cp_same : bs_ncolumns s = bs_ncolumns s0 ∧ bs_nrows s = bs_nrows s0 ∧ bs_capacity s = bs_capacity s0 ∧
    bs_hash_shift s = bs_hash_shift s0 ∧ bs_has_duplicates s = bs_has_duplicates s0;
  cp_columns : zlength (bs_columns s) = bs_ncolumns s0;
  cp_links : zlength (bs_links s) = bs_capacity s0;
  cp_wf : ∀ c, 0 ≤ c < bs_ncolumns s0 → column_wf (column_of s c) (bs_capacity s0);
  cp_hash : ∀ j, 0 ≤ j < bs_capacity s0 →
    bl_hash (link_of s j) = bl_hash (link_of s0 (origin idx j));
  cp_cell : ∀ c j, 0 ≤ c < bs_ncolumns s0 → 0 ≤ j < bs_capacity s0 →
    validity_at (column_of s c) j = validity_at (column_of s0 c) (origin idx j) ∧
    value_at (column_of s c) j = value_at (column_of s0 c) (origin idx j);
}.

Lemma move_row_ok s0 idx s row :
  compacting s0 idx s → zlength idx ≤ row < bs_capacity s0 →
  ∃ cols, foldM (move_cell row (zlength idx)) (seqZ 0 (bs_ncolumns s)) (bs_columns s) = Ok cols ∧
    zlength cols = bs_ncolumns s0 ∧
    ∀ c, 0 ≤ c < bs_ncolumns s0 → column_wf (zget no_column cols c) (bs_capacity s0) ∧
      ∀ i, 0 ≤ i < bs_capacity s0 →
        validity_at (zget no_column cols c) i = validity_at (column_of s c) (if decide (i = zlength idx) then row else i) ∧
        value_at (zget no_column cols c) i = value_at (column_of s c) (if decide (i = zlength idx) then row else i).
Proof.
  intros [(Hn & _) Hcols Hlinks Hwf _ _] Hrow. rewrite Hn. set (write := zlength idx) in *.
  destruct (for_inv (λ k cols, zlength cols = bs_ncolumns s0 ∧
      (∀ c, 0 ≤ c < k → column_wf (zget no_column cols c) (bs_capacity s0) ∧
        ∀ i, 0 ≤ i < bs_capacity s0 →
          validity_at (zget no_column cols c) i = validity_at (column_of s c) (if decide (i = write) then row else i) ∧
          value_at (zget no_column cols c) i = value_at (column_of s c) (if decide (i = write) then row else i)) ∧
      ∀ c, k ≤ c < bs_ncolumns s0 → zget no_column cols c = column_of s c)
    (move_cell row write) (bs_ncolumns s0) (bs_columns s)) as (cols & -> & Hl & Hdone & _); [lia| | |by exists cols].
  - split; [done|]. split; [lia|done].
  - intros k cols Hk (Hl & Hdone & Htodo).
    destruct (move_cell_ok cols (bs_capacity s0) row write k) as (c' & -> & Hc' & Hat);
      [lia|rewrite Htodo by lia; apply Hwf; lia|lia|lia|].
    rewrite Htodo in Hat by lia. eexists; split; [done|]. rewrite length_insert. split; [done|]. split.
    + intros c Hc. rewrite zget_insert by lia. case_decide; [by subst c|apply Hdone; lia].
    + intros c Hc. rewrite zget_insert by lia. case_decide; [lia|]. apply Htodo. lia.
Qed.

Definition stays (p : JoinSpill) (r : build_row) : Prop := row_partition (jp_npartitions p) r.1 ∈ jp_resident p.
#[export] Instance stays_dec p r : Decision (stays p r).
Proof. unfold stays. apply _. Defined.

Lemma row_partition_range np h : 1 ≤ np → 0 ≤ row_partition np h < np.
Proof.
  intros Hnp. unfold row_partition. split; [apply Z.land_nonneg; lia|].
  assert (0 ≤ np - 1 - Z.land h (np - 1)); [|lia]. rewrite Z.sub_nocarry_ldiff.
  - apply Z.ldiff_nonneg. lia.
  - apply Z.bits_inj'. intros i _. rewrite Z.ldiff_spec, Z.land_spec, Z.bits_0. by destruct (Z.testbit h i), (Z.testbit (np - 1) i).
Qed.

(** The rows that stay, among the first ones. *)
Definition kept (p : JoinSpill) (rows : list build_row) (n : Z) : list Z :=
  filter (λ i, stays p (zget no_row rows i)) (seqZ 0 n).

Lemma kept_length p rows n : 0 ≤ n → zlength (kept p rows n) ≤ n.
Proof. intros Hn. unfold kept. etrans; [apply inj_le, length_filter|]. rewrite length_seqZ. lia. Qed.

Lemma rows_at_length rows idx : length (rows_at rows idx) = length idx.
Proof. apply length_fmap. Qed.

Lemma rows_at_kept p rows : rows_at rows (kept p rows (zlength rows)) = filter (stays p) rows.
Proof. unfold rows_at, kept. rewrite <- list_filter_fmap'. by rewrite zget_seqZ. Qed.

Lemma kept_succ p rows n :
  0 ≤ n → kept p rows (n + 1) = kept p rows n ++ (if decide (stays p (zget no_row rows n)) then [n] else []).
Proof. intros Hn. unfold kept. rewrite (seqZ_app 0 n 1), filter_app by lia. rewrite Z.add_0_l. f_equal. Qed.

(** The counters of the rows that stay. *)
Definition counted (p : JoinSpill) (rows : list build_row) (counts : list Z) : Prop :=
  zlength counts = jp_npartitions p ∧
  ∀ q, 0 ≤ q < jp_npartitions p → zget 0 counts q =
    zlength (filter (λ r, stays p r ∧ in_partition (jp_npartitions p) q r) rows).

Lemma counted_skip p rows r counts : counted p rows counts → ¬ stays p r → counted p (rows ++ [r]) counts.
Proof.
  intros [Hl Hc] Hr. split; [done|]. intros q Hq. rewrite filter_app, filter_cons_False, app_nil_r by tauto. by apply Hc.
Qed.

Lemma counted_row p rows r counts :
  1 ≤ jp_npartitions p → counted p rows counts → stays p r → zlength rows < 2 ^ 64 - 1 →
  counted p (rows ++ [r]) (<[Z.to_nat (row_partition (jp_npartitions p) r.1) :=
    u64_add (zget 0 counts (row_partition (jp_npartitions p) r.1)) 1]> counts).
Proof.
  intros Hnp [Hl Hc] Hr Hmax. pose proof (row_partition_range (jp_npartitions p) r.1 Hnp).
  split; [by rewrite length_insert|]. intros q Hq. rewrite zget_insert by lia. rewrite filter_app, length_app.
  case_decide as E.
  - rewrite (filter_cons_True _ r) by done. cbn [length]. rewrite filter_nil. cbn [length]. rewrite Hc, E by done.
    pose proof (length_filter (λ r, stays p r ∧ in_partition (jp_npartitions p) q r) rows).
    unfold u64_add. rewrite Z.mod_small by lia. lia.
  - rewrite (filter_cons_False _ r) by (unfold in_partition; tauto). rewrite filter_nil. cbn [length].
    rewrite Hc by done. lia.
Qed.

Lemma take_row rows row :
  0 ≤ row < zlength rows → take (Z.to_nat (row + 1)) rows = take (Z.to_nat row) rows ++ [zget no_row rows row].
Proof.
  intros Hr. replace (Z.to_nat (row + 1)) with (S (Z.to_nat row)) by lia.
  apply take_S_r. by apply rows_at_lookup.
Qed.

Lemma compacting_row s0 idx s row link :
  compacting s0 idx s → zlength idx ≤ row < bs_capacity s0 → bl_hash link = bl_hash (link_of s row) →
  (zlength idx ≠ row → ∃ cols, foldM (move_cell row (zlength idx)) (seqZ 0 (bs_ncolumns s)) (bs_columns s) = Ok cols ∧
     compacting s0 (idx ++ [row])
       (set_columns (set_links s (<[Z.to_nat (zlength idx) := link]> (bs_links s))) cols)) ∧
  (zlength idx = row → compacting s0 (idx ++ [row]) s).
Proof.
  intros Hcp Hrow Hlink. pose proof Hcp as [Hsame Hcols Hlinks Hwf Hhash Hcell]. split.
  - intros Hne. destruct (move_row_ok s0 idx s row Hcp Hrow) as (cols & E & Hl & Hdone). exists cols. split; [done|].
    assert (Hrr : origin idx row = row) by (unfold origin; destruct (Z.ltb_spec row (zlength idx)); [lia|done]).
    split; cbn; rewrite ?length_insert; try done.
    + intros c Hc. by apply Hdone.
    + intros j Hj. rewrite origin_snoc by lia. unfold link_of at 1. cbn. rewrite zget_insert by lia.
      destruct (decide (zlength idx = j)), (decide (j = zlength idx)); try congruence.
      * rewrite Hlink, Hhash, Hrr by lia. done.
      * by apply Hhash.
    + intros c j Hc Hj. rewrite origin_snoc by lia. destruct (Hdone c Hc) as [_ Hat]. destruct (Hat j Hj) as [Hv1 Hv2].
      unfold column_of at 1 3. cbn. rewrite Hv1, Hv2. case_decide; [|by apply Hcell].
      destruct (Hcell c row Hc) as [-> ->]; [lia|]. by rewrite Hrr.
  - intros E. assert (Ho : ∀ j, 0 ≤ j → origin (idx ++ [row]) j = origin idx j).
    { intros j Hj. rewrite origin_snoc by done. case_decide as Ej; [|done]. unfold origin.
      destruct (Z.ltb_spec j (zlength idx)); lia. }
    split; try done.
    + intros j Hj. rewrite Ho by lia. by apply Hhash.
    + intros c j Hc Hj. rewrite Ho by lia. by apply Hcell.
Qed.

Lemma compact_row_ok s0 rows p s counts row :
  store_holds s0 rows → 1 ≤ jp_npartitions p → 0 ≤ row < zlength rows →
  compacting s0 (kept p rows row) s → counted p (take (Z.to_nat row) rows) counts →
  ∃ s' counts', compact_row row (s, with_resident p counts (jp_resident_build_rows p), zlength (kept p rows row)) =
      Ok (s', with_resident p counts' (jp_resident_build_rows p), zlength (kept p rows (row + 1))) ∧
    compacting s0 (kept p rows (row + 1)) s' ∧ counted p (take (Z.to_nat (row + 1)) rows) counts'.
Proof.
  intros Hs Hnp Hrow Hcp Hcount. pose proof Hs as []. pose proof (capacity_bounds _ sw_capacity) as (Hcap & _).
  pose proof Hcp as [(Hn & _) Hcols Hlinks _ Hhash _]. pose proof (kept_length p rows row) as Hkl.
  rewrite take_row by done. unfold compact_row. cbv beta iota.
  rewrite (aref_ok no_link (bs_links s) row), bind_Ok by lia. fold (link_of s row).
  assert (Hh : bl_hash (link_of s row) = (zget no_row rows row).1).
  { rewrite Hhash by lia. unfold origin. destruct (Z.ltb_spec row (zlength (kept p rows row))); [lia|].
    rewrite <- (sw_hashes (Z.to_nat row) _ (rows_at_lookup rows row Hrow)). by rewrite Z2Nat.id by lia. }
  rewrite Hh. cbn [with_resident jp_npartitions jp_resident jp_resident_rows jp_resident_build_rows].
  rewrite kept_succ by lia. set (r := zget no_row rows row) in *. set (idx := kept p rows row) in *.
  change (row_partition (jp_npartitions p) r.1 ∈ jp_resident p) with (stays p r).
  destruct (decide (stays p r)) as [Hst|Hst].
  - rewrite bool_decide_eq_true_2 by done. cbn [negb].
    pose proof (row_partition_range (jp_npartitions p) r.1 Hnp). pose proof Hcount as [Hcl _].
    rewrite (aref_ok 0), bind_Ok, aset_ok, bind_Ok by lia. cbv zeta.
    set (old := zget no_link (bs_links s) (zlength idx)).
    destruct (compacting_row s0 idx s row (mkLink r.1 (bl_next old)) Hcp) as [Hmove Hstay]; [lia|done|].
    assert (Hcount' := counted_row p (take (Z.to_nat row) rows) r counts Hnp Hcount Hst).
    rewrite length_app. cbn [length]. replace (Z.of_nat (length idx + 1)) with (zlength idx + 1) by lia.
    assert (zlength (take (Z.to_nat row) rows) < 2 ^ 64 - 1) by (rewrite length_take; lia).
    destruct (Z.eqb_spec (zlength idx) row) as [E|E].
    + eexists _, _. split; [done|]. auto.
    + rewrite (aref_ok no_link (bs_links s)), bind_Ok, (aset_ok (bs_links s)), bind_Ok by lia. fold old.
      destruct (Hmove E) as (cols & -> & Hcp'). rewrite bind_Ok. eexists _, _. split; [done|]. auto.
  - rewrite bool_decide_eq_false_2, app_nil_r by done. cbn [negb]. eexists _, _. split; [done|]. split; [done|].
    by apply counted_skip.
Qed.

Lemma compacting_refl s rows :
  store_holds s rows → 0 < bs_capacity s → compacting s [] s.
Proof.
  intros [] Hcap. assert (Ho : ∀ j, 0 ≤ j → origin [] j = j).
  { intros j Hj. unfold origin. cbn [length]. by destruct (Z.ltb_spec j (Z.of_nat 0)); [lia|]. }
  split; auto.
  - intros j Hj. by rewrite Ho by lia.
  - intros c j Hc Hj. by rewrite Ho by lia.
Qed.

(** What compaction leaves: the rows that stay, and beyond them the arrays as
    they were. *)
Lemma compact_all_ok s rows p :
  store_holds s rows → 1 ≤ jp_npartitions p → counted p [] (jp_resident_rows p) → 0 < bs_capacity s →
  ∃ s' counts', foldM compact_row (seqZ 0 (bs_nrows s)) (s, p, 0) =
      Ok (s', with_resident p counts' (jp_resident_build_rows p), zlength (filter (stays p) rows)) ∧
    compacting s (kept p rows (zlength rows)) s' ∧ counted p rows counts'.
Proof.
  intros Hs Hnp Hcount Hcap. pose proof Hs as [].
  destruct (for_inv (λ row st, ∃ s' counts',
      st = (s', with_resident p counts' (jp_resident_build_rows p), zlength (kept p rows row)) ∧
      compacting s (kept p rows row) s' ∧ counted p (take (Z.to_nat row) rows) counts')
    compact_row (zlength rows) (s, p, 0)) as (st & E & s' & counts' & -> & Hcp & Hc); [lia| | |].
  - exists s, (jp_resident_rows p). change (kept p rows 0) with (@nil Z). split; [by destruct p|]. split; [by apply (compacting_refl s rows)|done].
  - intros row st Hrow (s1 & counts1 & -> & Hcp & Hc).
    destruct (compact_row_ok s rows p s1 counts1 row) as (s2 & counts2 & -> & ? & ?); try done.
    eexists; split; [done|]. by exists s2, counts2.
  - exists s', counts'. rewrite sw_nrows, E. rewrite take_ge in Hc by lia. split; [|done].
    by rewrite <- rows_at_kept, rows_at_length.
Qed.

Lemma compacted_holds s rows p s' :
  store_holds s rows → 0 < bs_capacity s → compacting s (kept p rows (zlength rows)) s' →
  store_holds (set_nrows s' (zlength (filter (stays p) rows))) (filter (stays p) rows).
Proof.
  intros [] Hcap [(Hn & _ & Hc & _) Hcols Hlinks Hwf Hhash Hcell]. set (idx := kept p rows (zlength rows)) in *.
  assert (Hidx : rows_at rows idx = filter (stays p) rows) by apply rows_at_kept.
  assert (Hlen : zlength idx = zlength (filter (stays p) rows)) by (by rewrite <- Hidx, rows_at_length).
  pose proof (length_filter (stays p) rows).
  assert (Hat : ∀ i r, filter (stays p) rows !! i = Some r → ∃ k, origin idx (Z.of_nat i) = Z.of_nat k ∧ rows !! k = Some r ∧
      (i < length (filter (stays p) rows))%nat).
  { intros i r Hr. pose proof (lookup_lt_Some _ _ _ Hr). rewrite <- Hidx in Hr. unfold rows_at in Hr.
    apply list_lookup_fmap_Some in Hr as (k & -> & Hk). exists (Z.to_nat k).
    assert (k ∈ idx) as Hin by (by eapply list_elem_of_lookup_2). unfold idx, kept in Hin.
    apply list_elem_of_filter in Hin as [_ Hin%elem_of_seqZ]. split; [|split; [|done]].
    - unfold origin. destruct (Z.ltb_spec (Z.of_nat i) (zlength idx)); [|lia]. unfold zget. rewrite Nat2Z.id, Hk. cbn. lia.
    - apply rows_at_lookup. lia. }
  split; cbn; rewrite ?Hn, ?Hc; try done; try lia.
  - intros c Hc' _. by apply Hwf.
  - intros i r Hr. destruct (Hat i r Hr) as (k & Ho & Hk & ?). unfold link_of. cbn. fold (link_of s' (Z.of_nat i)).
    rewrite Hhash, Ho by lia. by apply sw_hashes.
  - intros i r c Hr Hc'. destruct (Hat i r Hr) as (k & Ho & Hk & ?). rewrite stored_cell_at. unfold column_of. cbn.
    fold (column_of s' c). destruct (Hcell c (Z.of_nat i)) as [-> ->]; [done|lia|]. rewrite Ho, <- stored_cell_at. by apply sw_cells.
Qed.

(** Every row stays or is evicted. *)
Lemma concat_insert {A} (k : nat) (r : A) (f f' : nat → list A) l :
  NoDup l → k ∈ l → f' k = r :: f k → (∀ q, q ≠ k → f' q = f q) → concat (f' <$> l) ≡ₚ r :: concat (f <$> l).
Proof.
  intros Hnd Hk Hfk Hf. induction Hnd as [|q l Hq Hnd IH]; [by apply not_elem_of_nil in Hk|].
  rewrite !fmap_cons, !concat_cons. destruct (decide (q = k)) as [->|Hne].
  - rewrite Hfk. cbn [app]. apply Permutation_skip. rewrite (list_fmap_ext f' f); [done|].
    intros i x Hx%list_elem_of_lookup_2. apply Hf. by intros ->.
  - rewrite Hf by done. rewrite Permutation_middle. apply Permutation_app_head, IH.
    apply elem_of_cons in Hk as [|]; [congruence|done].
Qed.

Lemma partition_rows_all p (rows : list build_row) :
  1 ≤ jp_npartitions p →
  filter (stays p) rows ++ concat (evicted p rows (jp_npartitions p) <$> seq 0 (Z.to_nat (jp_npartitions p))) ≡ₚ rows.
Proof.
  intros Hnp. induction rows as [|r rows IH].
  { cbn. assert (E : ∀ l, concat (evicted p [] (jp_npartitions p) <$> l) = []); [|by rewrite E].
    induction l as [|q l IHl]; [done|]. rewrite fmap_cons, concat_cons, IHl. unfold evicted. by case_decide. }
  set (q := row_partition (jp_npartitions p) r.1). pose proof (row_partition_range (jp_npartitions p) r.1 Hnp) as Hq. fold q in Hq.
  assert (Hother : ∀ q', q' ≠ Z.to_nat q → evicted p (r :: rows) (jp_npartitions p) q' = evicted p rows (jp_npartitions p) q').
  { intros q' Hne. unfold evicted. case_decide; [|done]. rewrite filter_cons_False; [done|]. unfold in_partition. fold q. lia. }
  destruct (decide (stays p r)) as [Hst|Hst].
  - rewrite filter_cons_True by done. cbn [app]. apply Permutation_skip. etrans; [|exact IH]. apply Permutation_app_head.
    rewrite (list_fmap_ext (evicted p (r :: rows) (jp_npartitions p)) (evicted p rows (jp_npartitions p))); [done|].
    intros i q' _. destruct (decide (q' = Z.to_nat q)) as [->|]; [|by apply Hother]. unfold evicted.
    rewrite Z2Nat.id by lia. rewrite !decide_False by (unfold stays in Hst; tauto). done.
  - rewrite filter_cons_False by done. rewrite (concat_insert (Z.to_nat q) r (evicted p rows (jp_npartitions p))).
    + rewrite <- Permutation_middle. by apply Permutation_skip.
    + apply NoDup_seq.
    + apply elem_of_seq. lia.
    + unfold evicted. rewrite Z2Nat.id by lia. rewrite !decide_True by (unfold stays in Hst; split; [lia|done]).
      by rewrite filter_cons_True by done.
    + done.
Qed.

(** Either case of the store's size. *)
Lemma compaction_ok s rows p :
  store_holds s rows → 1 ≤ jp_npartitions p → counted p [] (jp_resident_rows p) →
  ∃ s' counts', foldM compact_row (seqZ 0 (bs_nrows s)) (s, p, 0) =
      Ok (s', with_resident p counts' (jp_resident_build_rows p), zlength (filter (stays p) rows)) ∧
    store_holds (set_nrows s' (zlength (filter (stays p) rows))) (filter (stays p) rows) ∧ counted p rows counts' ∧
    (bs_ncolumns s' = bs_ncolumns s ∧ bs_capacity s' = bs_capacity s ∧ bs_hash_shift s' = bs_hash_shift s) ∧
    (0 < bs_capacity s → compacting s (kept p rows (zlength rows)) s').
Proof.
  intros Hs Hnp Hcount. pose proof Hs as []. pose proof (capacity_bounds _ sw_capacity) as (Hcb & _).
  destruct (decide (0 < bs_capacity s)) as [Hcap|Hcap].
  - destruct (compact_all_ok s rows p Hs Hnp Hcount Hcap) as (s' & counts' & E & Hcp & Hc). exists s', counts'.
    split; [done|]. split; [by eapply compacted_holds|]. split; [done|]. split; [|done].
    destruct Hcp as [(? & ? & ? & ? & ?)]. done.
  - assert (rows = []) as -> by (destruct rows; [done|cbn in *; lia]).
    exists s, (jp_resident_rows p). rewrite sw_nrows. cbn. split; [by destruct p|]. split; [|by split].
    split; cbn; try done; cbn in *; lia.
Qed.

Lemma filter_same p p' (rows : list build_row) :
  jp_npartitions p' = jp_npartitions p → jp_resident p' = jp_resident p → filter (stays p') rows = filter (stays p) rows.
Proof. intros Hn Hr. apply list_filter_iff'. intros r _. unfold stays. by rewrite Hn, Hr. Qed.

Lemma counted_same p p' rows counts :
  jp_npartitions p' = jp_npartitions p → jp_resident p' = jp_resident p → counted p rows counts → counted p' rows counts.
Proof.
  intros Hn Hr [Hl Hc]. split; [congruence|]. intros q Hq. rewrite Hc by congruence. do 2 f_equal.
  apply list_filter_iff'. intros r _. unfold stays, in_partition. by rewrite Hn, Hr.
Qed.

(** The spill set after evicting [q ∉ jp_resident] of the rows. *)
Definition evicts (p : JoinSpill) (rows : list build_row) (parts parts' : list (list raw_row)) : Prop :=
  ∀ q, map logical <$> parts' !! q = (λ l, map logical l ++ evicted p rows (jp_npartitions p) q) <$> parts !! q.

(** [hash_join_spill_build_store] with what the arrays look like beyond the last
    row. *)
Lemma spill_build_store_ok store rows p parts :
  store_holds store rows → spillable (bs_ncolumns store) rows → spilling p (bs_ncolumns store) parts →
  1 ≤ jp_npartitions p →
  ∃ store' p' parts', hash_join_spill_build_store store p = Ok (store', p') ∧
    store_holds store' (filter (stays p) rows) ∧ bs_ncolumns store' = bs_ncolumns store ∧
    spilling p' (bs_ncolumns store) parts' ∧ evicts p rows parts parts' ∧
    jp_npartitions p' = jp_npartitions p ∧ jp_resident p' = jp_resident p ∧ counted p rows (jp_resident_rows p') ∧
    jp_resident_build_rows p' = zlength (filter (stays p) rows) ∧
    (0 < bs_capacity store → ∃ s, store' = set_nrows s (zlength (filter (stays p) rows)) ∧
       compacting store (kept p rows (zlength rows)) s).
Proof.
  intros Hs Hsp Hp Hnp. pose proof Hp as []. unfold hash_join_spill_build_store.
  set (p0 := with_resident p (replicate (Z.to_nat (jp_npartitions p)) 0) (jp_resident_build_rows p)).
  assert (Hp0 : spilling p0 (bs_ncolumns store) parts) by (split; cbn; rewrite ?length_replicate; try done; lia).
  destruct (evict_all_ok store rows p0 (bs_ncolumns store) parts) as (p1 & parts' & E & Hp1 & (Hn & Hr & Hrr & Hrb) & Hev);
    [done|done|done|done|cbn; lia|].
  change (jp_npartitions p0) with (jp_npartitions p) in *. change (jp_resident p0) with (jp_resident p) in *.
  rewrite E, bind_Ok. destruct (compaction_ok store rows p1) as (s' & counts' & -> & Hhold & Hcount & (Hnc & Hcap & _) & Hcp);
    [done|lia| |].
  { rewrite Hrr. split.
    - cbn. rewrite length_replicate. lia.
    - intros q Hq. cbn. rewrite zget_replicate by lia. done. }
  rewrite (filter_same p p1) in * by done. rewrite bind_Ok. eexists _, _, parts'. split; [done|].
  split; [exact Hhold|]. split; [done|]. cbn. split.
  { destruct Hp1. split; cbn; try done. by destruct Hcount as [-> _]. }
  split; [exact Hev|]. split; [done|]. split; [done|]. split; [by apply (counted_same p1 p)|]. split; [done|].
  intros Hpos. exists s'. split; [done|]. unfold kept in *. rewrite (list_filter_iff' _ (λ i, stays p1 (zget no_row rows i))); [by apply Hcp|].
  intros i _. unfold stays. by rewrite Hn, Hr.
Qed.

(** C10. Evicting writes exactly the rows of each partition that is not
    resident, in the order of the store, to the end of its partition of the
    spill set, and leaves exactly the resident rows, in order, in the store with
    their counts; every row of the store is in one of them. *)
Theorem eviction_spec store rows p parts :
  store_holds store rows → spillable (bs_ncolumns store) rows → spilling p (bs_ncolumns store) parts →
  1 ≤ jp_npartitions p →
  ∃ store' p' parts', hash_join_spill_build_store store p = Ok (store', p') ∧
    store_holds store' (filter (stays p) rows) ∧ spilling p' (bs_ncolumns store) parts' ∧
    evicts p rows parts parts' ∧ jp_resident p' = jp_resident p ∧ counted p rows (jp_resident_rows p') ∧
    filter (stays p) rows ++ concat (evicted p rows (jp_npartitions p) <$> seq 0 (Z.to_nat (jp_npartitions p))) ≡ₚ rows.
Proof.
  intros Hs Hsp Hp Hnp.
  destruct (spill_build_store_ok store rows p parts Hs Hsp Hp Hnp) as (s' & p' & parts' & E & H1 & _ & H2 & H3 & _ & H4 & H5 & _).
  exists s', p', parts'. split_and!; try done. by apply partition_rows_all.
Qed.

Lemma input_get_null input row c v :
  (input0 ← aref input c; hash_join_input_value input0 row) = Ok v → got v = None → v.1 = 0.
Proof.
  destruct (aref input c) as [i| |]; try done. rewrite bind_Ok. unfold hash_join_input_value.
  destruct (assert_ _); try done. rewrite bind_Ok. destruct (pg_batch_int4_row_is_null _ _) as [[]| |]; try done; cbn [mbind res_bind].
  - by intros [= <-].
  - destruct (pg_batch_int4_row_value _ _); try done. by intros [= <-].
Qed.

(** C20. Dropping rows from the store keeps their validity bits: when the row
    that was at the first free position had a value in a column, a row appended
    there with a NULL in that column reads as the value 0. *)
Theorem compaction_leaves_validity store rows p parts store' p' input n row hash c v :
  store_holds store rows → spillable (bs_ncolumns store) rows → spilling p (bs_ncolumns store) parts →
  1 ≤ jp_npartitions p → hash_join_spill_build_store store p = Ok (store', p') →
  let first_free := zlength (filter (stays p) rows) in
  first_free < zlength rows → 0 ≤ c < bs_ncolumns store →
  zget None (zget no_row rows first_free).2 c = Some v →
  zlength input = bs_ncolumns store → Forall (input_ok n) input → 0 ≤ row < n →
  zget None (input_cells input row) c = None →
  ∃ store'', append_build_row_hash store' input row hash = Ok store'' ∧
    bs_nrows store' = first_free ∧ build_value store'' c first_free = Ok (0, false).
Proof.
  intros Hs Hsp Hp Hnp E w Hfree Hc Hv Hl Hin Hrow Hnull.
  destruct (spill_build_store_ok store rows p parts Hs Hsp Hp Hnp) as (s' & p1 & parts' & E' & Hs' & Hnc & _ & _ & _ & _ & _ & _ & Hcp).
  rewrite E in E'. injection E' as <- <-. pose proof Hs as []. pose proof Hs' as [].
  destruct Hcp as (s1 & -> & Hcp); [lia|]. fold w in Hs', sw_nrows0, sw_room0, Hcp |- *.
  destruct Hcp as [(Hn & _ & Hcap & _) Hcols Hlinks Hwf Hhash Hcell]. cbn [set_nrows bs_nrows bs_ncolumns bs_capacity] in *.
  unfold append_build_row_hash. cbn [set_nrows bs_nrows bs_capacity]. rewrite Hcap.
  destruct (Z.eqb_spec w (bs_capacity store)); [lia|]. rewrite bind_Ok.
  destruct (append_row_arrays (set_nrows s1 w) (filter (stays p) rows) hash
    (λ column, input0 ← aref input column; hash_join_input_value input0 row)) as (s2 & -> & Hap).
  - done.
  - cbn. lia.
  - intros c' Hc'. cbn in Hc'. destruct (input_get_ok n (bs_ncolumns store) input row c') as (v' & ? & _ & ?); [done|done|done|lia|].
    by exists v'.
  - exists s2. split; [done|]. split; [done|]. destruct (input_get_ok n (bs_ncolumns store) input row c) as (v' & Ev' & Hg & _); [done..|].
    rewrite Hnull in Hg. destruct Hap as [Hn2 (Hcap2 & Hnc2 & _) Hcl2 _ _ Hwf2 Hcell2].
    cbn [set_nrows bs_nrows bs_ncolumns bs_capacity] in *. destruct (Hcell2 c w v') as [Hbit Hval]; [lia|lia|done|].
    destruct (Hwf2 c) as [Hwv Hwb _ _]; [lia|]. rewrite Hcap in Hwv, Hwb.
    unfold build_value, build_value_valid, stored_value_at. rewrite (aref_ok no_column), !bind_Ok by lia. fold (column_of s2 c).
    rewrite (aref_ok 0 (sc_validity _)), !bind_Ok, land_bit64_zero, negb_involutive by zlia. fold (validity_at (column_of s2 c) w).
    change (column_of (set_nrows s1 w) c) with (column_of s1 c) in *.
    destruct (Hcell c w) as [Hbit1 _]; [lia|lia|]. rewrite Hbit, Hbit1.
    assert (Ho : origin (kept p rows (zlength rows)) w = w).
    { unfold origin. rewrite <- (rows_at_length rows), rows_at_kept. fold w. destruct (Z.ltb_spec w w); [lia|done]. }
    rewrite Ho. assert (Hcw : stored_cell (column_of store c) w = Some v).
    { rewrite <- Hv, <- (sw_cells (Z.to_nat w) (zget no_row rows w) c); [by rewrite Z2Nat.id by lia|apply rows_at_lookup; lia|done]. }
    unfold stored_cell in Hcw. destruct (validity_at (column_of store c) w); [|done]. cbn [orb negb].
    rewrite (aref_ok 0), bind_Ok by lia. fold (value_at (column_of s2 c) w). rewrite Hval, decide_True by done.
    by rewrite (input_get_null _ _ _ _ Ev' Hg).
Qed.

(** ** Staying within the limit *)

Definition resident_count (p : JoinSpill) (rows : list build_row) (q : Z) : Z :=
  zlength (filter (λ r, stays p r ∧ in_partition (jp_npartitions p) q r) rows).

Lemma largest_resident_ok p rows :
  counted p rows (jp_resident_rows p) → 0 ≤ jp_npartitions p →
  ∃ l, largest_resident p = Ok l ∧
    ((l = -1 ∧ ∀ q, 0 ≤ q < jp_npartitions p → q ∈ jp_resident p → resident_count p rows q = 0) ∨
     (l ∈ jp_resident p ∧ 0 ≤ l < jp_npartitions p ∧ 0 < resident_count p rows l ∧
      ∀ q, 0 ≤ q < jp_npartitions p → q ∈ jp_resident p → resident_count p rows q ≤ resident_count p rows l)).
Proof.
  intros [Hl Hc] Hn. unfold largest_resident.
  destruct (for_inv (λ k st, (∀ q, 0 ≤ q < k → q ∈ jp_resident p → resident_count p rows q ≤ st.2) ∧
      ((st = (-1, 0)) ∨ (st.1 ∈ jp_resident p ∧ 0 ≤ st.1 < jp_npartitions p ∧ 0 < st.2 ∧ st.2 = resident_count p rows st.1)))
    (λ partition st, if decide (partition ∈ jp_resident p) then
        n ← aref (jp_resident_rows p) partition; Ok (if st.2 <? n then (partition, n) else st) else Ok st)
    (jp_npartitions p) (-1, 0)) as (st & -> & Hmax & Hst); [done| | |].
  - split; [intros q Hq; lia|by left].
  - intros k st Hk [Hmax Hst]. case_decide as Hres.
    + rewrite (aref_ok 0), bind_Ok by lia. rewrite Hc by done. fold (resident_count p rows k).
      eexists; split; [done|]. destruct (Z.ltb_spec st.2 (resident_count p rows k)).
      * cbn [fst snd]. split; [|right; split_and!; try done; try lia; destruct Hst as [->|(? & ? & ? & ?)]; cbn in *; lia].
        intros q Hq Hq'. destruct (decide (q = k)) as [->|]; [done|]. etrans; [apply Hmax; [lia|done]|lia].
      * split; [|done]. intros q Hq Hq'. destruct (decide (q = k)) as [->|]; [done|]. apply Hmax; [lia|done].
    + eexists; split; [done|]. split; [|done]. intros q Hq Hq'. apply Hmax; [|done].
      destruct (decide (q = k)) as [->|]; [done|lia].
  - rewrite bind_Ok. eexists; split; [done|]. destruct Hst as [->|(? & ? & ? & E)]; [left|right; rewrite <- E; done].
    split; [done|]. intros q Hq Hq'. cbn in Hmax. specialize (Hmax q Hq Hq'). unfold resident_count in *. lia.
Qed.

Lemma no_rows_stay p (rows : list build_row) :
  1 ≤ jp_npartitions p → (∀ q, 0 ≤ q < jp_npartitions p → q ∈ jp_resident p → resident_count p rows q = 0) →
  filter (stays p) rows = [].
Proof.
  intros Hnp Hz. destruct (filter (stays p) rows) as [|r l] eqn:E; [done|].
  assert (r ∈ filter (stays p) rows) as [Hr Hin]%list_elem_of_filter by (rewrite E; by left).
  pose proof (row_partition_range (jp_npartitions p) r.1 Hnp). specialize (Hz _ H1 Hr). unfold resident_count in Hz.
  destruct (filter _ rows) as [|r' l'] eqn:E' in Hz; [|cbn in Hz; lia].
  assert (r ∈ filter (λ r0, stays p r0 ∧ in_partition (jp_npartitions p) (row_partition (jp_npartitions p) r.1) r0) rows) as Hin'
    by (apply list_elem_of_filter; by split).
  rewrite E' in Hin'. by apply not_elem_of_nil in Hin'.
Qed.

(** What has moved to the spill set between two states of the join. *)
Definition moved (p p' : JoinSpill) (rows : list build_row) (q : nat) : list build_row :=
  if decide (Z.of_nat q ∈ jp_resident p ∖ jp_resident p') then filter (in_partition (jp_npartitions p) (Z.of_nat q)) rows else [].

Record limited (p : JoinSpill) (rows : list build_row) (parts : list (list raw_row)) (nc : Z)
    (store' : BuildStore) (p' : JoinSpill) (parts' : list (list raw_row)) : Prop := {
  lm_store : store_holds store' (filter (stays p') rows) ∧ bs_ncolumns store' = nc;
  lm_set : spilling p' nc parts';
  lm_npartitions : jp_npartitions p' = jp_npartitions p;
  lm_resident : jp_resident p' ⊆ jp_resident p;
  lm_moved : ∀ q, map logical <$> parts' !! q = (λ l, map logical l ++ moved p p' rows q) <$> parts !! q;
  lm_counts : counted p' (filter (stays p') rows) (jp_resident_rows p');
}.

Lemma filter_stays_again p p1 (rows : list build_row) :
  jp_npartitions p1 = jp_npartitions p → jp_resident p1 ⊆ jp_resident p →
  filter (stays p1) (filter (stays p) rows) = filter (stays p1) rows.
Proof.
  intros Hn Hr. rewrite list_filter_filter. apply list_filter_iff'. intros r _. unfold stays. rewrite Hn. set_solver.
Qed.

Lemma evicted_again p p1 (rows : list build_row) l q :
  jp_npartitions p1 = jp_npartitions p → jp_resident p1 = jp_resident p ∖ {[l]} → l ∈ jp_resident p → 0 ≤ l < jp_npartitions p →
  evicted p1 (filter (stays p) rows) (jp_npartitions p1) q =
    if decide (Z.of_nat q = l) then filter (in_partition (jp_npartitions p) l) rows else [].
Proof.
  intros Hn Hr Hl Hb. unfold evicted. rewrite Hn, Hr. destruct (decide (Z.of_nat q = l)) as [->|Hne].
  - rewrite decide_True by (split; [lia|set_solver]). rewrite list_filter_filter. apply list_filter_iff'.
    intros r _. unfold stays, in_partition. split; [tauto|]. intros E. by rewrite E.
  - case_decide as E; [|done]. rewrite list_filter_filter. apply list_filter_nil, Forall_forall. intros r _ [Hin Hst].
    unfold stays, in_partition in *. rewrite Hin in Hst. set_solver.
Qed.

Lemma limited_step p0 rows parts0 nc store p parts l :
  limited p0 rows parts0 nc store p parts → spillable nc rows → 1 ≤ jp_npartitions p0 →
  l ∈ jp_resident p → 0 ≤ l < jp_npartitions p0 →
  ∃ store' p' parts', hash_join_spill_build_store store (with_partitions p (jp_resident p ∖ {[l]})) = Ok (store', p') ∧
    limited p0 rows parts0 nc store' p' parts' ∧ jp_resident p' = jp_resident p ∖ {[l]}.
Proof.
  intros [[Hs Hnc] Hset Hn Hr Hmoved Hcounts] Hsp Hnp Hl Hb. set (p1 := with_partitions p (jp_resident p ∖ {[l]})).
  destruct (spill_build_store_ok store (filter (stays p) rows) p1 parts) as
    (s' & p' & parts' & -> & Hs' & Hnc' & Hset' & Hev & Hn' & Hr' & Hc' & _); [done| | |cbn; lia|].
  - rewrite Hnc. apply Forall_forall. intros r [_ Hin]%list_elem_of_filter. by eapply Forall_forall in Hsp.
  - rewrite Hnc. destruct Hset. by split.
  - assert (Hagain : filter (stays p1) (filter (stays p) rows) = filter (stays p') rows).
    { rewrite filter_stays_again by (cbn; set_solver). symmetry. by apply filter_same. }
    exists s', p', parts'. split; [done|]. split; [|by rewrite Hr']. split.
    + by rewrite <- Hagain, Hnc'.
    + by rewrite <- Hnc.
    + rewrite Hn'. done.
    + rewrite Hr'. cbn. set_solver.
    + intros q. rewrite Hev. rewrite (evicted_again p p1 rows l q); [|done|done|done|lia].
      specialize (Hmoved q). destruct (parts0 !! q) as [l0|], (parts !! q) as [l1|]; try done. cbn in *.
      injection Hmoved as Hmoved. rewrite Hmoved, <- app_assoc. do 2 f_equal. unfold moved. rewrite Hr'. cbn.
      destruct (decide (Z.of_nat q = l)) as [E|E].
      * rewrite E, decide_False, decide_True by set_solver. by rewrite Hn.
      * rewrite app_nil_r. destruct (decide (Z.of_nat q ∈ jp_resident p0 ∖ jp_resident p)).
        -- by rewrite decide_True by set_solver.
        -- by rewrite decide_False by set_solver.
    + rewrite <- Hagain. destruct Hc' as [Hl' Hc']. split; [congruence|]. intros q Hq. rewrite Hn' in Hq. rewrite Hc' by done.
      rewrite !list_filter_filter. do 2 f_equal. apply list_filter_iff'. intros r _. unfold stays, in_partition.
      rewrite Hn', Hr'. cbn. set_solver.
Qed.

(** The store is within the limit, by the estimate the code goes by. *)
Definition fits (limit : Z) (s : BuildStore) : Prop :=
  ∃ bytes, hash_join_estimated_build_memory (bs_nrows s) (bs_ncolumns s) = Ok bytes ∧ bytes ≤ limit.

Lemma limit_resident_loop_ok limit fuel p0 rows parts0 nc store p parts :
  limited p0 rows parts0 nc store p parts → spillable nc rows → 1 ≤ jp_npartitions p0 →
  (∀ q, q ∈ jp_resident p → 0 ≤ q < jp_npartitions p0) → (size (jp_resident p) ≤ fuel)%nat →
  ∃ store' p' parts', limit_resident_loop fuel limit store p = Ok (store', p') ∧
    limited p0 rows parts0 nc store' p' parts' ∧ (fits limit store' ∨ bs_nrows store' = 0).
Proof.
  revert store p parts. induction fuel as [|fuel IH]; intros store p parts Hl Hsp Hnp Hb Hf; cbn [limit_resident_loop];
    destruct (estimated_memory_total (bs_nrows store) (bs_ncolumns store)) as (bytes & E); rewrite E, bind_Ok.
  all: assert (Hnone : filter (stays p) rows = [] → bs_nrows store = 0)
    by (intros En; destruct Hl as [[[] _]]; rewrite sw_nrows, En; done).
  all: destruct (Z.leb_spec bytes limit); [rewrite orb_true_r; exists store, p, parts; split; [done|]; split; [done|left; by exists bytes]|].
  all: rewrite orb_false_r; case_bool_decide as Hempty;
    [exists store, p, parts; split; [done|]; split; [done|]; right; apply Hnone, list_filter_nil, Forall_forall;
     intros r _; unfold stays; rewrite Hempty; set_solver|].
  - exfalso. apply Hempty, leibniz_equiv, size_empty_iff. lia.
  - destruct Hl as [Hs Hset Hn Hr Hm Hc] eqn:El. clear El.
    destruct (largest_resident_ok p (filter (stays p) rows) Hc) as (l & -> & Hcase); [lia|]. rewrite bind_Ok.
    destruct Hcase as [[-> Hz]|(Hlr & Hlb & Hpos & _)].
    + change (-1 <? 0) with true. cbn iota. exists store, p, parts. split; [done|]. split; [done|]. right. apply Hnone.
      rewrite <- (filter_stays_again p p) by done. apply no_rows_stay; [lia|done].
    + destruct (Z.ltb_spec l 0); [lia|].
      destruct (limited_step p0 rows parts0 nc store p parts l) as (s' & p' & parts' & -> & Hl' & Hr'); [by split|done|done|done|lia|].
      rewrite bind_Ok. cbn [fst snd]. apply (IH s' p' parts'); [done|done|done| |].
      * intros q Hq. apply Hb. rewrite Hr' in Hq. set_solver.
      * rewrite Hr', size_difference, size_singleton by set_solver. lia.
Qed.

(** C19. The loop ends: with the largest partitions moved to the spill set, whole
    and in order, the store holds the rows of the others, and either it is within
    the limit or it is empty. *)
Theorem limit_resident_build_spec limit store p parts rows :
  store_holds store rows → spillable (bs_ncolumns store) rows → spilling p (bs_ncolumns store) parts →
  1 ≤ jp_npartitions p → (∀ q, q ∈ jp_resident p → 0 ≤ q < jp_npartitions p) →
  Forall (stays p) rows → counted p rows (jp_resident_rows p) →
  ∃ store' p' parts', limit_resident_build limit store p = Ok (store', p') ∧
    limited p rows parts (bs_ncolumns store) store' p' parts' ∧ (fits limit store' ∨ bs_nrows store' = 0).
Proof.
  intros Hs Hsp Hset Hnp Hb Hst Hc. apply (limit_resident_loop_ok limit _ p rows parts _ store p parts); try done.
  - split; try done.
    + by rewrite list_filter_all.
    + intros q. unfold moved. rewrite decide_False by set_solver. apply option_fmap_ext. intros l. by rewrite app_nil_r.
    + by rewrite list_filter_all.
  - rewrite <- (Nat2Z.id (size _)). apply Z2Nat.inj_le; [lia|lia|]. transitivity (Z.of_nat (size (list_to_set (C := gset Z) (seqZ 0 (jp_npartitions p))))).
    + apply inj_le, subseteq_size. intros q Hq. apply elem_of_list_to_set, elem_of_seqZ. specialize (Hb q Hq). lia.
    + rewrite size_list_to_set by apply NoDup_seqZ. rewrite length_seqZ. lia.
Qed.
End compact.

(** ** A concrete eviction *)

(** Of eight partitions, only the one of key 5 is resident. *)
Definition sample_spill_set : PgBatchSpillSet :=
  match pg_batch_spill_create (spill_tuple_desc 2) 2 8 0 with
  | Ok s => s
  | _ => mkSet 0 0 [] [] [] 0 0 0 false false (mkStats 0 0 0 0 0 0)
  end.
Definition sample_spilling : JoinSpill :=
  mkJoinSpill 8 {[6]} (replicate 8 0) sample_spill_set (replicate 8 false) (replicate 8 0) 0 0.

Lemma sample_spilling_ok : spilling sample_spilling (bs_ncolumns sample_stored) (replicate 8 []).
Proof.
  destruct sample_stored_ok as [_ ->].
  destruct (create_ok (spill_tuple_desc 2) 2 8 0) as (s & E & Ho & Hn & Hp & _); [by apply spill_desc_ok|].
  assert (Es : sample_spill_set = s) by (unfold sample_spill_set; by rewrite E).
  split; cbn -[replicate]; rewrite ?Es; try done. intros q l Hl Hq. apply lookup_replicate in Hl as [-> Hlt].
  unfold zget. by rewrite (lookup_replicate_2 8 false) by done.
Qed.

Lemma eviction_witness :
  ∃ store' p' parts', hash_join_spill_build_store (H := reference_core) sample_stored sample_spilling = Ok (store', p') ∧
    store_holds store' (filter (stays sample_spilling) sample_stored_rows) ∧ spilling p' (bs_ncolumns sample_stored) parts' ∧
    evicts sample_spilling sample_stored_rows (replicate 8 []) parts' ∧ jp_resident p' = jp_resident sample_spilling ∧
    counted sample_spilling sample_stored_rows (jp_resident_rows p') ∧
    filter (stays sample_spilling) sample_stored_rows ++
      concat (evicted sample_spilling sample_stored_rows (jp_npartitions sample_spilling) <$>
        seq 0 (Z.to_nat (jp_npartitions sample_spilling))) ≡ₚ sample_stored_rows.
Proof.
  apply (eviction_spec sample_stored sample_stored_rows sample_spilling (replicate 8 []));
    [apply sample_stored_ok|apply sample_stored_spillable|apply sample_spilling_ok|by vm_compute].
Defined.

(** Keys 5 and 53 stay and move up; the row of key 7 appended after them has a
    NULL payload, which reads as 0. *)
Lemma compaction_leaves_validity_witness :
  ∃ store' p' store'', hash_join_spill_build_store (H := reference_core) sample_stored sample_spilling = Ok (store', p') ∧
    append_build_row_hash (H := reference_core) store' (ji_columns sample_build_batch) 2 1401181240 = Ok store'' ∧
    bs_nrows store' = 2 ∧ build_value store'' 1 2 = Ok (0, false).
Proof.
  destruct (hash_join_spill_build_store (H := reference_core) sample_stored sample_spilling) as [[store' p']| |] eqn:E;
    [|by vm_compute in E..].
  exists store', p'.
  destruct (compaction_leaves_validity sample_stored sample_stored_rows sample_spilling (replicate 8 []) store' p'
    (ji_columns sample_build_batch) 4 2 1401181240 1 53) as (store'' & E'' & En & Hv).
  - apply sample_stored_ok.
  - apply sample_stored_spillable.
  - apply sample_spilling_ok.
  - by vm_compute.
  - exact E.
  - by vm_compute.
  - rewrite (proj2 sample_stored_ok). lia.
  - by vm_compute.
  - rewrite (proj2 sample_stored_ok). done.
  - apply sample_build_batch_ok.
  - lia.
  - by vm_compute.
  - exists store''. replace 2 with (zlength (filter (stays sample_spilling) sample_stored_rows)) by by vm_compute. by split_and!.
Defined.

Lemma limit_resident_build_witness :
  ∃ store' p' parts', limit_resident_build (H := reference_core) 1000 sample_stored
      (with_resident (with_partitions sample_spilling {[0; 6]}) [1; 0; 0; 0; 0; 0; 2; 0] 3) = Ok (store', p') ∧
    limited (with_resident (with_partitions sample_spilling {[0; 6]}) [1; 0; 0; 0; 0; 0; 2; 0] 3) sample_stored_rows
      (replicate 8 []) (bs_ncolumns sample_stored) store' p' parts' ∧
    (fits 1000 store' ∨ bs_nrows store' = 0).
Proof.
  apply (limit_resident_build_spec 1000 sample_stored
    (with_resident (with_partitions sample_spilling {[0; 6]}) [1; 0; 0; 0; 0; 0; 2; 0] 3) (replicate 8 []) sample_stored_rows).
  - apply sample_stored_ok.
  - apply sample_stored_spillable.
  - destruct sample_spilling_ok. by split.
  - by vm_compute.
  - intros q Hq. cbn in *. set_solver by lia.
  - unfold stays. repeat apply Forall_cons_2; [..|apply Forall_nil_2]; by vm_compute.
  - split; [by vm_compute|]. intros q Hq. change (jp_npartitions _) with 8 in Hq.
    assert (q ∈ seqZ 0 8) as Hin by (apply elem_of_seqZ; lia). change (seqZ 0 8) with [0;1;2;3;4;5;6;7] in Hin.
    rewrite !elem_of_cons, elem_of_nil in Hin. destruct_or!; subst; try done; by vm_compute.
Defined.
