(* ===== verification/JoinPass.v ===== *)
(** * The spilling hash join: the pass over the partitions
      ([nodes/hash_join_spill.c])

    Once both sides are written, the partitions are joined one after the other.
    The build rows of a partition are loaded in chunks that fit in memory; the
    probe rows are read block by block, once per chunk.  A partition that would
    take many chunks is first split by further bits of the hash.  Counters for
    EXPLAIN and the release of memory are left out. *)

From S2P Require Import Prelude Words Bytes Selection Vector Kernels Int4 Hash Spill JoinStore JoinBuild JoinProbe JoinSpill.

Definition PG_BATCH_REPARTITION_MIN_PASSES : Z := 6.

Section pass.
Context `{PgCore} `{LogicalTapes}.

(** ** Files *)

Record HashSpillFile : Type := mkFile { hf_partition : Z; hf_reader : option PgBatchSpillReader }.

(** An array of files, and the set they all belong to: what
    [spill_set_for_files] finds for the array.  A missing file is [NULL]. *)
Record SpillFiles : Type := mkFiles { sf_set : PgBatchSpillSet; sf_files : list (option HashSpillFile) }.

Definition file_at (fs : SpillFiles) (p : Z) : res HashSpillFile :=
  f ← aref (sf_files fs) p;
  match f with Some f => Ok f | None => Undefined end.

Definition put_file (fs : SpillFiles) (set : PgBatchSpillSet) (p : Z) (f : option HashSpillFile) : res SpillFiles :=
  files ← aset (sf_files fs) p f;
  Ok (mkFiles set files).

Definition hash_join_use_spill_block (ncolumns capacity : Z) (input : PgBatchSpillBlock) : res PgBatchSpillBlock :=
  _ ← raise_if (negb (bl_ncolumns input =? ncolumns) || (capacity <? PG_BATCH_SPILL_BLOCK_ROWS))
        (Elog "invalid pg_batch hash join spill block");
  mask ← pg_batch_nrows_mask (bl_nrows input);
  Ok (mkBlock (bl_nrows input) (bl_ncolumns input) mask (bl_hashes input) (bl_values input) (bl_validity input)).

(** Blocks that are read have room for [PG_BATCH_SIZE] rows. *)
Definition read_spill_block (ncolumns : Z) (fs : SpillFiles) (p : Z) : res (SpillFiles * option PgBatchSpillBlock) :=
  file ← file_at fs p;
  '(set, reader) ← match hf_reader file with
                   | Some reader => Ok (sf_set fs, reader)
                   | None => pg_batch_spill_reader_open (sf_set fs) (hf_partition file)
                   end;
  '(set, reader, input) ← pg_batch_spill_reader_next set reader;
  fs ← put_file fs set p (Some (mkFile (hf_partition file) (Some reader)));
  match input with
  | None => Ok (fs, None)
  | Some input => block ← hash_join_use_spill_block ncolumns PG_BATCH_SIZE input; Ok (fs, Some block)
  end.

Definition rewind_spill_file (fs : SpillFiles) (p : Z) : res SpillFiles :=
  file ← file_at fs p;
  match hf_reader file with
  | None => Ok fs
  | Some reader =>
      '(set, reader) ← pg_batch_spill_reader_rewind (sf_set fs) reader;
      put_file fs set p (Some (mkFile (hf_partition file) (Some reader)))
  end.

(** Closing the reader of a file. *)
Definition close_spill_file (fs : SpillFiles) (p : Z) : res SpillFiles :=
  file ← file_at fs p;
  put_file fs (sf_set fs) p (Some (mkFile (hf_partition file) None)).

Definition spill_file (set : PgBatchSpillSet) (fs : SpillFiles) (p : Z) : res SpillFiles :=
  file ← aref (sf_files fs) p;
  put_file fs set p (Some (default (mkFile p None) file)).

(** ** Splitting a file *)

Definition spill_rows_hashes (block : PgBatchSpillBlock) (rows : list Z) : res (list Z) :=
  foldM (λ i hashes, row ← aref rows i; h ← aref (bl_hashes block) row; aset hashes i h)
    (seqZ 0 (zlength rows)) (to_u32 <$> palloc_uninit PG_BATCH_SIZE).

Definition spill_rows_cell (block : PgBatchSpillBlock) (rows : list Z) (column i : Z) (st : list Z * list Z)
    : res (list Z * list Z) :=
  row ← aref rows i;
  '(value, isnull) ← block_cell block row column;
  values ← aset st.1 (column * zlength rows + i) value;
  if isnull : bool then Ok (values, st.2) else
  x ← aref st.2 column;
  validity ← aset st.2 column (Z.lor x (bit64 i));
  Ok (values, validity).

Definition write_spill_rows (ncolumns : Z) (block : PgBatchSpillBlock) (partition : Z) (rows : list Z)
    (fs : SpillFiles) : res SpillFiles :=
  let nrows := zlength rows in
  hashes ← spill_rows_hashes block rows;
  dense ← foldM (λ column, foldM (spill_rows_cell block rows column) (seqZ 0 nrows)) (seqZ 0 ncolumns)
    (int32_uninit (ncolumns * nrows), replicate (Z.to_nat ncolumns) 0);
  set ← pg_batch_spill_write_dense (sf_set fs) partition nrows hashes dense.1 nrows dense.2;
  spill_file set fs partition.

(** The lists that [heads], [tails] and [next_rows] link: the partitions used,
    in the order of their first rows, with their rows. *)
Fixpoint link_row (partition row : Z) (used : list (Z * list Z)) : list (Z * list Z) :=
  match used with
  | [] => [(partition, [row])]
  | (p, rows) :: used => if p =? partition then (p, rows ++ [row]) :: used else (p, rows) :: link_row partition row used
  end.

Definition hash_partition (hash_shift npartitions hash : Z) : Z := Z.land (Z.shiftr hash hash_shift) (npartitions - 1).

(** [matching] is [matching_build_files]. *)
Definition route_row (hash_shift npartitions : Z) (matching : option (list (option HashSpillFile)))
    (block : PgBatchSpillBlock) (row : Z) (used : list (Z * list Z)) : res (list (Z * list Z)) :=
  hash ← aref (bl_hashes block) row;
  let partition := hash_partition hash_shift npartitions hash in
  missing ← match matching with
            | None => Ok false
            | Some files => f ← aref files partition; Ok (match f with None => true | Some _ => false end)
            end;
  Ok (if missing : bool then used else link_row partition row used).

(** Writing the rows of a partition; [build_rows] may be [NULL]. *)
Definition split_rows (ncolumns : Z) (block : PgBatchSpillBlock) (entry : Z * list Z)
    (st : SpillFiles * option (list Z)) : res (SpillFiles * option (list Z)) :=
  fs ← write_spill_rows ncolumns block entry.1 entry.2 st.1;
  match st.2 with
  | None => Ok (fs, None)
  | Some counts =>
      n ← aref counts entry.1;
      counts ← aset counts entry.1 (u64_add n (zlength entry.2));
      Ok (fs, Some counts)
  end.

Definition split_block (hash_shift npartitions ncolumns : Z) (matching : option (list (option HashSpillFile)))
    (block : PgBatchSpillBlock) (st : SpillFiles * option (list Z)) : res (SpillFiles * option (list Z)) :=
  used ← foldM (route_row hash_shift npartitions matching block) (seqZ 0 (bl_nrows block)) [];
  foldM (split_rows ncolumns block) used st.

Fixpoint repartition_loop (fuel : nat) (hash_shift npartitions ncolumns : Z)
    (matching : option (list (option HashSpillFile))) (source : SpillFiles) (p : Z) (st : SpillFiles * option (list Z))
    : res (SpillFiles * (SpillFiles * option (list Z))) :=
  match fuel with
  | O => Undefined
  | S fuel =>
      '(source, block) ← read_spill_block ncolumns source p;
      match block with
      | None => Ok (source, st)
      | Some block =>
          st ← split_block hash_shift npartitions ncolumns matching block st;
          repartition_loop fuel hash_shift npartitions ncolumns matching source p st
      end
  end.

(** A partition has at most as many blocks as rows. *)
Definition repartition_file (hash_shift npartitions ncolumns : Z) (matching : option (list (option HashSpillFile)))
    (source : SpillFiles) (p : Z) (st : SpillFiles * option (list Z))
    : res (SpillFiles * (SpillFiles * option (list Z))) :=
  source ← rewind_spill_file source p;
  n ← aref (partition_rows (sf_set source)) p;
  repartition_loop (S (Z.to_nat n)) hash_shift npartitions ncolumns matching source p st.

(** ** The state of the pass *)

Record Repartition : Type := mkRepartition {
  rp_build : SpillFiles;
  rp_probe : SpillFiles;
  rp_build_rows : list Z;
  rp_npartitions : Z;
  rp_current : Z;
  rp_hash_shift : Z;
}.

(** [build_block] with the position in it, and the store it is loaded into. *)
Record BuildLoad : Type := mkLoad {
  ld_block : PgBatchSpillBlock;
  ld_row : Z;
  ld_eof : bool;
  ld_store : BuildStore;
}.

(** A pair of files, of the same partition: an initial one or one of a
    partition that was split. *)
Inductive FileRef : Type :=
| InitialFiles (partition : Z)
| SplitFiles (partition : Z).

Definition ref_partition (r : FileRef) : Z := match r with InitialFiles p => p | SplitFiles p => p end.

(** [pa_active] is [active_build_file] and [active_probe_file]. *)
Record PassState : Type := mkPass {
  pa_build : SpillFiles;
  pa_probe : SpillFiles;
  pa_rows : list Z;
  pa_repartition : option Repartition;
  pa_current : Z;
  pa_active : option FileRef;
  pa_shift : Z;
  pa_load : BuildLoad;
  pa_more : bool;
  pa_partition_active : bool;
}.

Definition set_repartition (st : PassState) r := mkPass (pa_build st) (pa_probe st) (pa_rows st) r (pa_current st)
  (pa_active st) (pa_shift st) (pa_load st) (pa_more st) (pa_partition_active st).
Definition set_current (st : PassState) c := mkPass (pa_build st) (pa_probe st) (pa_rows st) (pa_repartition st) c
  (pa_active st) (pa_shift st) (pa_load st) (pa_more st) (pa_partition_active st).
Definition set_active_files (st : PassState) a shift := mkPass (pa_build st) (pa_probe st) (pa_rows st) (pa_repartition st)
  (pa_current st) a shift (pa_load st) (pa_more st) (pa_partition_active st).
Definition set_load (st : PassState) l more := mkPass (pa_build st) (pa_probe st) (pa_rows st) (pa_repartition st)
  (pa_current st) (pa_active st) (pa_shift st) l more (pa_partition_active st).
Definition set_partition_active (st : PassState) b := mkPass (pa_build st) (pa_probe st) (pa_rows st) (pa_repartition st)
  (pa_current st) (pa_active st) (pa_shift st) (pa_load st) (pa_more st) b.

Definition files_of (st : PassState) (r : FileRef) : res (SpillFiles * SpillFiles) :=
  match r, pa_repartition st with
  | InitialFiles _, _ => Ok (pa_build st, pa_probe st)
  | SplitFiles _, Some rp => Ok (rp_build rp, rp_probe rp)
  | SplitFiles _, None => Undefined
  end.

Definition split_with (rp : Repartition) (fs : SpillFiles * SpillFiles) (current : Z) : Repartition :=
  mkRepartition fs.1 fs.2 (rp_build_rows rp) (rp_npartitions rp) current (rp_hash_shift rp).

Definition with_files (st : PassState) (r : FileRef) (fs : SpillFiles * SpillFiles) : PassState :=
  match r with
  | InitialFiles _ => mkPass fs.1 fs.2 (pa_rows st) (pa_repartition st) (pa_current st) (pa_active st) (pa_shift st)
      (pa_load st) (pa_more st) (pa_partition_active st)
  | SplitFiles _ => set_repartition st ((λ rp, split_with rp fs (rp_current rp)) <$> pa_repartition st)
  end.

(** What the plan and the start of spilling fix. *)
Variables (inner_keys : list Z) (ninner nouter memory_limit npartitions partition_shift build_chunk_rows : Z).

(** ** Loading a chunk *)

Definition append_spill_build_row (block : PgBatchSpillBlock) (row : Z) (s : BuildStore) : res BuildStore :=
  s ← (if bs_nrows s =? bs_capacity s then hash_join_grow_build_store s else Ok s);
  hash ← aref (bl_hashes block) row;
  append_row s hash (block_cell block row).

(** The outer loop; every turn appends a row or ends it.  The inner loop takes
    rows from the block until it or the chunk has no more. *)
Fixpoint load_loop (fuel : nat) (files : SpillFiles) (p : Z) (l : BuildLoad) : res (SpillFiles * BuildLoad) :=
  if bs_nrows (ld_store l) <? build_chunk_rows then
    match fuel with
    | O => Undefined
    | S fuel =>
        '(files, block) ← (if bl_nrows (ld_block l) <=? ld_row l then read_spill_block ninner files p
                           else Ok (files, Some (ld_block l)));
        match block with
        | None => Ok (files, mkLoad (ld_block l) (ld_row l) true (ld_store l))
        | Some block =>
            let row := if bl_nrows (ld_block l) <=? ld_row l then 0 else ld_row l in
            let taken := Z.min (bl_nrows block - row) (build_chunk_rows - bs_nrows (ld_store l)) in
            store ← foldM (append_spill_build_row block) (seqZ row taken) (ld_store l);
            load_loop fuel files p (mkLoad block (row + taken) (ld_eof l) store)
        end
    end
  else Ok (files, l).

Definition load_build_chunk (st : PassState) : res (PassState * bool) :=
  match pa_active st with
  | None => Undefined
  | Some r =>
      fs ← files_of st r;
      let l := pa_load st in
      let store := hash_join_reset_build_store (ld_store l) in
      let store := mkStore (bs_columns store) (bs_links store) (bs_buckets store) (bs_ncolumns store) (bs_nrows store)
                     (bs_capacity store) (bs_nbuckets store) (pa_shift st) (bs_has_duplicates store) in
      '(files, l) ← load_loop (S (Z.to_nat build_chunk_rows)) fs.1 (ref_partition r)
                      (mkLoad (ld_block l) (ld_row l) (ld_eof l) store);
      let st := with_files st r (files, fs.2) in
      if bs_nrows (ld_store l) =? 0 then Ok (set_load st l false, false) else
      store ← hash_join_finish_build_table (ld_store l) inner_keys;
      Ok (set_load st (mkLoad (ld_block l) (ld_row l) (ld_eof l) store)
            (negb (ld_eof l) || (ld_row l <? bl_nrows (ld_block l))), true)
  end.

(** ** Going from partition to partition *)

Definition finish_active_partition (st : PassState) : res PassState :=
  match pa_active st with
  | None => Ok st
  | Some r =>
      fs ← files_of st r;
      build ← close_spill_file fs.1 (ref_partition r);
      probe ← close_spill_file fs.2 (ref_partition r);
      Ok (set_active_files (with_files st r (build, probe)) None (pa_shift st))
  end.

(** [block->nrows = 0] *)
Definition clear_block (b : PgBatchSpillBlock) : PgBatchSpillBlock :=
  mkBlock 0 (bl_ncolumns b) (bl_selection b) (bl_hashes b) (bl_values b) (bl_validity b).

Definition start_partition_files (st : PassState) (r : FileRef) (hash_shift : Z) : res (PassState * bool) :=
  let st := set_active_files st (Some r) hash_shift in
  fs ← files_of st r;
  build ← rewind_spill_file fs.1 (ref_partition r);
  let st := with_files st r (build, fs.2) in
  let l := pa_load st in
  '(st, loaded) ← load_build_chunk (set_load st (mkLoad (clear_block (ld_block l)) 0 false (ld_store l)) (pa_more st));
  if negb loaded then Ok (st, false) else
  fs ← files_of st r;
  probe ← rewind_spill_file fs.2 (ref_partition r);
  Ok (set_partition_active (with_files st r (fs.1, probe)) true, true).

Definition no_files (n : Z) : list (option HashSpillFile) := replicate (Z.to_nat n) None.

(** [build_block] and [probe_block] hold the last blocks read; the start of the
    next partition empties the one and the next read replaces the other. *)
Definition repartition_current_partition (st : PassState) : res (PassState * bool) :=
  let p := pa_current st in
  rows ← aref (pa_rows st) p;
  _ ← (if build_chunk_rows =? 0 then Undefined else Ok tt);
  let required := u64_add rows (build_chunk_rows - 1) / build_chunk_rows in
  if required <? PG_BATCH_REPARTITION_MIN_PASSES then Ok (st, false) else
  n ← next_partition_count required;
  build_set ← pg_batch_spill_create (spill_tuple_desc ninner) ninner n (memory_limit / 4);
  probe_set ← pg_batch_spill_create (spill_tuple_desc nouter) nouter n (memory_limit / 4);
  bits ← partition_bits n;
  '(build, (split_build, counts)) ← repartition_file partition_shift n ninner None (pa_build st) p
      (mkFiles build_set (no_files n), Some (replicate (Z.to_nat n) 0));
  '(probe, (split_probe, _)) ← repartition_file partition_shift n nouter (Some (sf_files split_build)) (pa_probe st) p
      (mkFiles probe_set (no_files n), None);
  build_set ← pg_batch_spill_finish (sf_set split_build) false;
  probe_set ← pg_batch_spill_finish (sf_set split_probe) true;
  build ← put_file build (sf_set build) p None;
  probe ← put_file probe (sf_set probe) p None;
  let rp := mkRepartition (mkFiles build_set (sf_files split_build)) (mkFiles probe_set (sf_files split_probe))
              (default [] counts) n (-1) (partition_shift + bits) in
  Ok (mkPass build probe (pa_rows st) (Some rp) p (pa_active st) (pa_shift st) (pa_load st) (pa_more st)
        (pa_partition_active st), true).

Definition finish_repartition (rp : Repartition) : res Repartition :=
  if 0 <=? rp_current rp then
    build ← put_file (rp_build rp) (sf_set (rp_build rp)) (rp_current rp) None;
    probe ← put_file (rp_probe rp) (sf_set (rp_probe rp)) (rp_current rp) None;
    Ok (split_with rp (build, probe) (rp_current rp))
  else Ok rp.

(** [while (++state->current_repartition < state->nrepartitions)] *)
Fixpoint repartition_turns (fuel : nat) (st : PassState) (rp : Repartition) : res (PassState * bool) :=
  let current := rp_current rp + 1 in
  let rp := split_with rp (rp_build rp, rp_probe rp) current in
  let st := set_repartition st (Some rp) in
  if rp_npartitions rp <=? current then Ok (st, false) else
  match fuel with
  | O => Undefined
  | S fuel =>
      build ← aref (sf_files (rp_build rp)) current;
      probe ← aref (sf_files (rp_probe rp)) current;
      match build, probe with
      | Some _, Some _ =>
          '(st, started) ← start_partition_files st (SplitFiles current) (rp_hash_shift rp);
          if started : bool then Ok (st, true)
          else match pa_repartition st with None => Undefined | Some rp => repartition_turns fuel st rp end
      | _, _ => rp ← finish_repartition rp; repartition_turns fuel st rp
      end
  end.

(** [while (++state->current_partition < state->npartitions)]; it is left with
    [false] also after a partition was split. *)
Fixpoint partition_turns (fuel : nat) (st : PassState) : res (PassState * bool) :=
  let current := pa_current st + 1 in
  let st := set_current st current in
  if npartitions <=? current then Ok (st, false) else
  match fuel with
  | O => Undefined
  | S fuel =>
      build ← aref (sf_files (pa_build st)) current;
      probe ← aref (sf_files (pa_probe st)) current;
      match build, probe with
      | Some _, Some _ =>
          rows ← aref (pa_rows st) current;
          '(st, split) ← (if build_chunk_rows <? rows then repartition_current_partition st else Ok (st, false));
          if split : bool then Ok (st, false) else
          '(st, started) ← start_partition_files st (InitialFiles current) partition_shift;
          if started : bool then Ok (st, true) else partition_turns fuel st
      | _, _ => partition_turns fuel st
      end
  end.

(** The [for (;;)] loop: it goes on only after a partition was split. *)
Fixpoint next_partition_loop (fuel : nat) (st : PassState) : res (PassState * bool) :=
  match fuel with
  | O => Undefined
  | S fuel =>
      '(st, found) ← match pa_repartition st with
                     | None => Ok (st, false)
                     | Some rp =>
                         rp ← finish_repartition rp;
                         '(st, found) ← repartition_turns (Z.to_nat (rp_npartitions rp)) st rp;
                         Ok (if found : bool then st else set_repartition st None, found)
                     end;
      if found : bool then Ok (st, true) else
      '(st, found) ← partition_turns (Z.to_nat npartitions) st;
      if found : bool then Ok (st, true) else
      match pa_repartition st with
      | Some _ => next_partition_loop fuel st
      | None => Ok (set_partition_active st false, false)
      end
  end.

Definition start_next_partition (st : PassState) : res (PassState * bool) :=
  st ← finish_active_partition st;
  next_partition_loop (Z.to_nat npartitions + 2) st.

(** The [for (;;)] loop; every file has a block, so the second turn returns. *)
Fixpoint fetch_spilled_loop (fuel : nat) (st : PassState) : res (PassState * option PgBatchSpillBlock) :=
  match fuel with
  | O => Undefined
  | S fuel =>
      '(st, active) ← (if pa_partition_active st then Ok (st, true) else start_next_partition st);
      if negb active then Ok (st, None) else
      match pa_active st with
      | None => Undefined
      | Some r =>
          fs ← files_of st r;
          '(probe, block) ← read_spill_block nouter fs.2 (ref_partition r);
          let st := with_files st r (fs.1, probe) in
          match block with
          | Some block => Ok (st, Some block)
          | None =>
              '(st, loaded) ← (if pa_more st then load_build_chunk st else Ok (st, false));
              if loaded : bool then
                fs ← files_of st r;
                probe ← rewind_spill_file fs.2 (ref_partition r);
                fetch_spilled_loop fuel (with_files st r (fs.1, probe))
              else fetch_spilled_loop fuel (set_partition_active st false)
          end
      end
  end.

Definition hash_join_fetch_spilled_probe_batch (st : PassState) : res (PassState * option PgBatchSpillBlock) :=
  fetch_spilled_loop 2 st.

(** ** Probing with a block *)

Definition spill_get_int4_column (block : PgBatchSpillBlock) (column : Z) : res PgBatchInt4Vector :=
  _ ← raise_if ((column <? 0) || (bl_ncolumns block <=? column)) (Elog "pg_batch spill column is out of range");
  Ok (PG_BATCH_INT4_PACKED (drop (Z.to_nat (column * PG_BATCH_SPILL_BLOCK_ROWS)) (bl_values block))
        (Some (drop (Z.to_nat (column * 8)) (bl_validity block))) 0).

(** The batch over a block as the probe side sees it: every row has a hash. *)
Definition spill_probe (block : PgBatchSpillBlock) : res ProbeBatch :=
  columns ← foldM (λ column columns,
      vector ← spill_get_int4_column block column;
      Ok (columns ++ [mkInput true (bl_selection block) vector])) (seqZ 0 (bl_ncolumns block)) [];
  Ok (mkProbe (mkJoinInput (mkSelection (bl_nrows block) 1 [bl_selection block]) columns) (bl_selection block)
        (bl_hashes block)).

(** ** From the sides that were spilled to the output *)

Definition spill_files (flags : list bool) : list (option HashSpillFile) :=
  imap (λ p exists_, if exists_ : bool then Some (mkFile (Z.of_nat p) None) else None) flags.

Definition hash_join_finish_spilled_build (j : JoinSpill) : res SpillFiles :=
  set ← pg_batch_spill_finish (jp_build_spill j) false;
  Ok (mkFiles set (spill_files (jp_build_files j))).

(** It also resets the position of the pass, which [start_pass] does. *)
Definition hash_join_finish_spilled_probe (set : PgBatchSpillSet) (flags : list bool) : res SpillFiles :=
  set ← pg_batch_spill_finish set true;
  Ok (mkFiles set (spill_files flags)).

Definition start_pass (build probe : SpillFiles) (rows : list Z) (l : BuildLoad) : PassState :=
  mkPass build probe rows None (-1) None 0 l false false.

(** The state in which [fetch_probe_batch] hands over a batch of spilled rows. *)
Definition fetched_probe (b : ProbeBatch) : ProbeState := mkProbeState (Some b) (-1) [] false [] 0 [].

(** The parent draining the join over the spilled partitions: for every block
    fetched the table it meets, the block and the batches published for it. *)
Fixpoint join_spilled (fuel : nat) (turns : nat) (keys : list (Z * Z)) (natts : Z) (quals : list BatchJoinQual)
    (needed : list Z) (max_rows : Z) (call_function : Oid → Z → Z → res (option bool))
    (exec_qual : option (list (Z * bool) → res bool)) (scratch : list Z * Z) (st : PassState)
    : res (list (BuildStore * PgBatchSpillBlock * list (JoinInput * list (Z * Z)))) :=
  match fuel with
  | O => Undefined
  | S fuel =>
      '(st, fetched) ← hash_join_fetch_spilled_probe_batch st;
      match fetched with
      | None => Ok []
      | Some block =>
          b ← spill_probe block;
          let store := ld_store (pa_load st) in
          out ← run_join store keys nouter natts quals needed max_rows call_function exec_qual turns turns scratch
                  (fetched_probe b);
          rest ← join_spilled fuel turns keys natts quals needed max_rows call_function exec_qual scratch st;
          Ok ((store, block, out) :: rest)
      end
  end.
End pass.
