(* ===== verification/JoinFiles.v ===== *)
(** * The files of the spilling hash join

    A file of a finished spill set is a list of blocks, some of them read; what
    reading, rewinding and closing it do to that list.  The set and the readers
    stay out of sight of the clients.  Then: splitting a file writes its rows to
    the partitions their hashes choose. *)

From S2P Require Import Prelude Words Bytes Selection Vector Kernels Int4 Hash Spill SpillBlocks SpillSet SpillRun SpillRead SpillLoop JoinStore JoinStoreProps JoinBuild JoinProbe JoinSpill JoinSpillProps JoinPass.

(** Whether a reader is open, all blocks of the file, and those that reading
    will return. *)
Record file_view : Type := mkView {
  fv_open : bool;
  fv_all : list (list sql_row);
  fv_left : list (list sql_row);
}.

Section files.
Context `{PgCore} `{LogicalTapes}.

Definition block_list (nc : Z) (ws : list SpillWriter) : list (list sql_row) :=
  (λ w, map logical (writer_rows nc w)) <$> ws.

Definition file_state (s : PgBatchSpillSet) (parts : list (list SpillWriter * list SpillWriter)) (p : nat)
    (f : option HashSpillFile) (v : option file_view) : Prop :=
  match f, v with
  | None, None => True
  | Some f, Some v => hf_partition f = Z.of_nat p ∧ ∃ all unread, parts !! p = Some (all, unread) ∧
      fv_all v = block_list (ncolumns s) all ∧
      match hf_reader f with
      | None => fv_open v = false ∧ fv_left v = block_list (ncolumns s) (reopened s all unread)
      | Some rd => fv_open v = true ∧ fv_left v = block_list (ncolumns s) unread ∧ rd_partition rd = Z.of_nat p ∧
                   reader_ok s parts rd all unread
      end
  | _, _ => False
  end.

(** A finished set of [np] partitions of [nc] columns, with its files. *)
Record files_ok (nc np : Z) (fro : bool) (fs : SpillFiles) (views : list (option file_view)) : Prop := {
  fo_state : ∃ parts, spill_ready (sf_set fs) parts ∧ ∀ p f v, sf_files fs !! p = Some f → views !! p = Some v →
    file_state (sf_set fs) parts p f v;
  fo_frozen : frozen (sf_set fs) = fro;
  fo_ncolumns : ncolumns (sf_set fs) = nc;
  fo_npartitions : npartitions (sf_set fs) = np;
  fo_files : zlength (sf_files fs) = np;
  fo_views : zlength views = np;
}.

Lemma file_state_frame s s' parts parts' p f v :
  same_layout s s' → parts' !! p = parts !! p → file_state s parts p f v → file_state s' parts' p f v.
Proof.
  intros (E1 & E2 & E3) Ep. destruct f as [f|], v as [v|]; try done. intros (Hf & all & unread & Hp & Hall & Hv).
  split; [done|]. exists all, unread. rewrite Ep, E1. split_and!; [done|done|]. unfold reopened in *. rewrite E3.
  destruct (hf_reader f) as [rd|]; [|done]. destruct Hv as (Ho & Hl & Hrp & []). split_and!; try done.
  constructor; rewrite ?E1, ?E2; try done. by rewrite Hrp, Nat2Z.id in *; rewrite Ep.
Qed.

(** Replacing the state of one file. *)
Lemma files_update nc np fro fs views s' parts p f' v' :
  files_ok nc np fro fs views → 0 ≤ p < np → same_layout (sf_set fs) s' → spill_ready s' parts →
  (∃ parts0, spill_ready (sf_set fs) parts0 ∧ (∀ q, q ≠ Z.to_nat p → parts !! q = parts0 !! q) ∧
    ∀ q f v, sf_files fs !! q = Some f → views !! q = Some v → file_state (sf_set fs) parts0 q f v) →
  file_state s' parts (Z.to_nat p) f' v' →
  files_ok nc np fro (mkFiles s' (<[Z.to_nat p := f']> (sf_files fs))) (<[Z.to_nat p := v']> views).
Proof.
  intros [_ Hf Hc Hn Hl Hv] Hp Hlay Hs' (parts0 & _ & Hsame & Hold) Hnew. pose proof Hlay as (E1 & E2 & E3).
  constructor; cbn [sf_set sf_files]; rewrite ?length_insert; try congruence.
  exists parts. split; [done|]. intros q f v Hq Hqv. destruct (decide (q = Z.to_nat p)) as [->|Hne].
  - rewrite list_lookup_insert_eq in Hq by lia. rewrite list_lookup_insert_eq in Hqv by lia. by simplify_eq.
  - rewrite list_lookup_insert_ne in Hq by done. rewrite list_lookup_insert_ne in Hqv by done. eapply file_state_frame; [done|by apply Hsame|by apply Hold].
Qed.

Lemma files_lookup nc np fro fs views p v :
  files_ok nc np fro fs views → views !! p = Some (Some v) →
  Z.of_nat p < np ∧ ∃ f parts, sf_files fs !! p = Some (Some f) ∧ spill_ready (sf_set fs) parts ∧
    file_state (sf_set fs) parts p (Some f) (Some v) ∧
    ∀ q f v, sf_files fs !! q = Some f → views !! q = Some v → file_state (sf_set fs) parts q f v.
Proof.
  intros [(parts & Hs & Hst) _ _ _ Hl Hv] Hp. pose proof (lookup_lt_Some _ _ _ Hp).
  destruct (lookup_lt_is_Some_2 (sf_files fs) p) as [f Hf]; [lia|]. pose proof (Hst p f (Some v) Hf Hp) as Hst'.
  destruct f as [f|]; [|done]. split; [lia|]. by exists f, parts.
Qed.

Lemma file_at_ok fs p f : 0 ≤ p → sf_files fs !! Z.to_nat p = Some (Some f) → file_at fs p = Ok f.
Proof. intros Hp Hf. unfold file_at. by rewrite (aref_lookup _ _ (Some f)) by done. Qed.

Lemma put_file_ok fs s p f : 0 ≤ p < zlength (sf_files fs) → put_file fs s p f = Ok (mkFiles s (<[Z.to_nat p := f]> (sf_files fs))).
Proof. intros Hp. unfold put_file. by rewrite aset_ok, bind_Ok by done. Qed.

Lemma rows_mask_ok n : 1 ≤ n ≤ 64 → pg_batch_nrows_mask n = Ok (Z.ones n).
Proof.
  intros Hn. unfold pg_batch_nrows_mask, PG_BATCH_SIZE, PG_BATCH_ALL_ROWS.
  destruct (Z.ltb_spec 0 n), (Z.leb_spec n 64); try lia. cbn [andb assert_]. rewrite bind_Ok. f_equal.
  change UINT64_MAX with (Z.ones 64). apply Z.bits_inj'. intros i Hi. rewrite Z.shiftr_spec, !testbit_ones by lia.
  destruct (Z.leb_spec 0 (i + (64 - n))), (Z.ltb_spec (i + (64 - n)) 64), (Z.leb_spec 0 i), (Z.ltb_spec i n); (done || lia).
Qed.

Lemma use_block_ok nc block : block_wf nc block → hash_join_use_spill_block nc PG_BATCH_SIZE block = Ok block.
Proof.
  intros []. unfold hash_join_use_spill_block. rewrite bw_ncolumns, Z.eqb_refl. cbn [negb orb].
  change (PG_BATCH_SIZE <? PG_BATCH_SPILL_BLOCK_ROWS) with false. cbn [raise_if]. rewrite bind_Ok, rows_mask_ok, bind_Ok by done.
  rewrite <- bw_selection, <- bw_ncolumns. by destruct block.
Qed.

(** The reader a read goes through: the open one, or a new one. *)
Lemma reader_for s parts p f v :
  spill_ready s parts → (p < Z.to_nat (npartitions s))%nat → file_state s parts p (Some f) (Some v) →
  ∃ s1 rd all unread parts1, match hf_reader f with
      | Some reader => Ok (s, reader)
      | None => pg_batch_spill_reader_open s (hf_partition f)
      end = Ok (s1, rd) ∧ same_layout s s1 ∧ spill_ready s1 parts1 ∧ parts1 = <[p := (all, unread)]> parts ∧
    rd_partition rd = Z.of_nat p ∧ reader_ok s1 parts1 rd all unread ∧
    fv_all v = block_list (ncolumns s) all ∧ fv_left v = block_list (ncolumns s) unread.
Proof.
  intros Hs Hp (Hf & all & unread & Hparts & Hall & Hv). destruct (hf_reader f) as [rd|].
  - destruct Hv as (Ho & Hl & Hrp & Hrd). exists s, rd, all, unread, parts. by rewrite list_insert_id.
  - destruct Hv as (Ho & Hl). rewrite Hf.
    destruct (reader_open_ok s parts (Z.of_nat p) all unread) as (s1 & rd & -> & Hs1 & Hlay & Hrp & Hrd);
      [done|lia|by rewrite Nat2Z.id|]. rewrite Nat2Z.id in *. by eexists s1, rd, all, _, _.
Qed.

Lemma read_end_ok nc np fro fs views p o all :
  files_ok nc np fro fs views → 0 ≤ p → views !! Z.to_nat p = Some (Some (mkView o all [])) →
  ∃ fs', read_spill_block nc fs p = Ok (fs', None) ∧
    files_ok nc np fro fs' (<[Z.to_nat p := Some (mkView true all [])]> views).
Proof.
  intros Hok Hp Hv. destruct (files_lookup _ _ _ _ _ _ _ Hok Hv) as (Hlt & f & parts & Hf & Hs & Hst & Hall).
  rewrite Z2Nat.id in Hlt by done. pose proof Hok as [_ Hfro Hnc Hnp Hfl Hvl]. unfold read_spill_block.
  rewrite (file_at_ok _ _ f), bind_Ok by done. pose proof Hst as [Hfp _].
  destruct (reader_for _ parts (Z.to_nat p) f _ Hs ltac:(lia) Hst) as (s1 & rd & al & un & parts1 & -> & Hl1 & Hs1 & Ep & Hrp & Hrd & Ha & Hu).
  rewrite bind_Ok. cbn beta iota. assert (un = []) as -> by (cbn in Hu; by destruct un).
  destruct (reader_next_end s1 parts1 rd al Hs1 Hrd) as (s2 & rd2 & -> & Hs2 & Hl2 & Hrp2 & Hrd2). rewrite bind_Ok. cbn beta iota.
  rewrite put_file_ok, bind_Ok by lia. eexists; split; [done|]. rewrite Z2Nat.id in * by done.
  assert (Hlay : same_layout (sf_set fs) s2) by (unfold same_layout in *; intuition congruence).
  apply (files_update nc np fro fs views s2 parts1); try done.
  - exists parts. split; [done|]. split; [|done]. intros q Hq. rewrite Ep. by apply list_lookup_insert_ne.
  - split; [cbn; lia|]. exists al, []. rewrite (proj1 Hlay). cbn [hf_reader fv_all fv_open fv_left].
    split_and!; try done; [|rewrite Z2Nat.id by done; congruence].
    rewrite Ep. apply list_lookup_insert_eq. destruct Hst as (_ & ? & ? & Hlk & _). by eapply lookup_lt_Some.
Qed.

Lemma read_more_ok nc np fro fs views p o all b rest :
  files_ok nc np fro fs views → 0 ≤ p → views !! Z.to_nat p = Some (Some (mkView o all (b :: rest))) →
  ∃ fs' block, read_spill_block nc fs p = Ok (fs', Some block) ∧
    files_ok nc np fro fs' (<[Z.to_nat p := Some (mkView true all rest)]> views) ∧
    block_wf nc block ∧ block_sql_rows block = b.
Proof.
  intros Hok Hp Hv. destruct (files_lookup _ _ _ _ _ _ _ Hok Hv) as (Hlt & f & parts & Hf & Hs & Hst & Hall).
  rewrite Z2Nat.id in Hlt by done. pose proof Hok as [_ Hfro Hnc Hnp Hfl Hvl]. unfold read_spill_block.
  rewrite (file_at_ok _ _ f), bind_Ok by done. pose proof Hst as [Hfp _].
  destruct (reader_for _ parts (Z.to_nat p) f _ Hs ltac:(lia) Hst) as (s1 & rd & al & un & parts1 & -> & Hl1 & Hs1 & Ep & Hrp & Hrd & Ha & Hu).
  rewrite bind_Ok. cbn beta iota. destruct un as [|w un]; [done|]. cbn in Hu. injection Hu as -> ->.
  destruct (reader_next_more s1 parts1 rd al w un Hs1 Hrd) as (s2 & rd2 & block & -> & Hs2 & Hl2 & Hrp2 & Hrd2 & Hrows & Hwf).
  rewrite bind_Ok. cbn beta iota. rewrite put_file_ok, bind_Ok by lia.
  assert (Hlay : same_layout (sf_set fs) s2) by (unfold same_layout in *; intuition congruence).
  assert (Hnc1 : ncolumns s1 = nc) by (unfold same_layout in *; intuition congruence). rewrite Hnc1 in *.
  rewrite (use_block_ok nc block), bind_Ok by done. rewrite Hrp, Nat2Z.id in *.
  eexists _, block; split; [done|]. split; [|split; [done|]].
  2: { unfold block_sql_rows. rewrite Hrows. by rewrite Hnc. }
  rewrite Z2Nat.id in * by done. rewrite Ep, list_insert_insert_eq in Hs2, Hrd2.
  eapply (files_update nc np fro fs views s2); [exact Hok|lia|done|exact Hs2| |].
  - exists parts. split; [done|]. split; [|done]. intros q Hq. by apply list_lookup_insert_ne.
  - split; [cbn; lia|]. exists al, un. rewrite (proj1 Hlay). cbn [hf_reader fv_all fv_open fv_left]. split_and!; try done.
    + apply list_lookup_insert_eq. destruct Hst as (_ & ? & ? & Hlk & _). by eapply lookup_lt_Some.
    + rewrite Z2Nat.id by done. congruence.
Qed.

(** What a file is like when its reader is at the start, which destructive
    readers reach only by being opened. *)
Definition rewound (fro : bool) (v : file_view) : list (list sql_row) := if fro then fv_all v else fv_left v.

Lemma rewind_file_ok nc np fro fs views p v :
  files_ok nc np fro fs views → 0 ≤ p → views !! Z.to_nat p = Some (Some v) → (fro = true ∨ fv_open v = false) →
  ∃ fs', rewind_spill_file fs p = Ok fs' ∧
    files_ok nc np fro fs' (<[Z.to_nat p := Some (mkView (fv_open v) (fv_all v) (rewound fro v))]> views).
Proof.
  intros Hok Hp Hv Hcase. destruct (files_lookup _ _ _ _ _ _ _ Hok Hv) as (Hlt & f & parts & Hf & Hs & Hst & Hall).
  rewrite Z2Nat.id in Hlt by done. pose proof Hok as [_ Hfro Hnc Hnp Hfl Hvl]. unfold rewind_spill_file.
  rewrite (file_at_ok _ _ f), bind_Ok by done. pose proof Hst as (Hfp & al & un & Hparts & Ha & Hrd).
  destruct (hf_reader f) as [rd|] eqn:Er.
  - destruct Hrd as (Ho & Hl & Hrp & Hrd). destruct Hcase as [->|?]; [|congruence].
    destruct (rewind_ok (sf_set fs) parts rd al un Hs Hrd Hfro) as (s2 & rd2 & -> & Hs2 & Hlay & Hrp2 & Hrd2).
    rewrite bind_Ok. cbn beta iota. rewrite put_file_ok by lia. eexists; split; [done|]. rewrite Hrp, Nat2Z.id in *.
    eapply (files_update nc np true fs views s2); [exact Hok|lia|done|exact Hs2| |].
    + exists parts. split; [done|]. split; [|done]. intros q Hq. by apply list_lookup_insert_ne.
    + split; [done|]. exists al, al. rewrite (proj1 Hlay). cbn [hf_reader fv_all fv_open fv_left rewound].
      split_and!; try done. by apply list_lookup_insert_eq, (lookup_lt_Some _ _ _ Hparts). 
  - exists fs. split; [done|]. destruct Hrd as [Ho Hl].
    assert (mkView (fv_open v) (fv_all v) (rewound fro v) = v) as ->; [|by rewrite list_insert_id].
    destruct v as [o a l]. cbn in *. f_equal. unfold rewound. cbn. rewrite Ha, Hl. unfold reopened. by rewrite Hfro; destruct fro.
Qed.

Lemma close_file_ok nc np fro fs views p v :
  files_ok nc np fro fs views → 0 ≤ p → views !! Z.to_nat p = Some (Some v) →
  ∃ fs', close_spill_file fs p = Ok fs' ∧
    files_ok nc np fro fs' (<[Z.to_nat p := Some (mkView false (fv_all v) (rewound fro v))]> views).
Proof.
  intros Hok Hp Hv. destruct (files_lookup _ _ _ _ _ _ _ Hok Hv) as (Hlt & f & parts & Hf & Hs & Hst & Hall).
  rewrite Z2Nat.id in Hlt by done. pose proof Hok as [_ Hfro Hnc Hnp Hfl Hvl]. unfold close_spill_file.
  rewrite (file_at_ok _ _ f), bind_Ok, put_file_ok by (done || lia). eexists; split; [done|].
  eapply (files_update nc np fro fs views (sf_set fs)); [exact Hok|lia|done|exact Hs| |].
  - by exists parts.
  - destruct Hst as (Hfp & al & un & Hparts & Ha & Hrd). split; [done|]. exists al, un. split_and!; try done.
    cbn [hf_reader fv_open fv_left]. split; [done|]. unfold rewound, reopened. rewrite Hfro, Ha.
    destruct fro; [done|]. destruct (hf_reader f); [by destruct Hrd as (? & ? & _)|]. destruct Hrd as [_ ->]. unfold reopened. by rewrite Hfro.
Qed.

Lemma remove_file_ok nc np fro fs views p :
  files_ok nc np fro fs views → 0 ≤ p < np →
  ∃ fs', put_file fs (sf_set fs) p None = Ok fs' ∧ files_ok nc np fro fs' (<[Z.to_nat p := None]> views).
Proof.
  intros Hok Hp. pose proof Hok as [(parts & Hs & Hst) Hfro Hnc Hnp Hfl Hvl]. rewrite put_file_ok by lia.
  eexists; split; [done|]. eapply (files_update nc np fro fs views (sf_set fs)); [exact Hok|lia|done|exact Hs| |done].
  by exists parts.
Qed.

(** ** Finished sets *)

(** A file nobody has read: it exists when it has rows. *)
Definition fresh_view (rows : list sql_row) (v : option file_view) : Prop :=
  match v with
  | None => rows = []
  | Some v => fv_open v = false ∧ fv_left v = fv_all v ∧ fv_all v ≠ [] ∧ Forall (λ b, b ≠ []) (fv_all v) ∧
              concat (fv_all v) = rows
  end.

Definition fresh_files (nc np : Z) (fro : bool) (fs : SpillFiles) (rows : list (list sql_row)) : Prop :=
  ∃ views, files_ok nc np fro fs views ∧ Forall2 fresh_view rows views.

(** The files of a set that is being written: a file exists when its partition
    has rows. *)
Definition files_written (files : list (option HashSpillFile)) (rows : list (list sql_row)) : Prop :=
  length files = length rows ∧
  ∀ p r f, rows !! p = Some r → files !! p = Some f → f = if decide (r = []) then None else Some (mkFile (Z.of_nat p) None).

Lemma concat_block_list nc ws : concat (block_list nc ws) = map logical (blocks_rows nc ws).
Proof.
  unfold block_list, blocks_rows. induction ws as [|w ws IH]; [done|]. rewrite !fmap_cons. cbn [concat]. by rewrite map_app, IH.
Qed.

Lemma block_list_nonempty nc ws : Forall (flushed nc) ws → Forall (λ b, b ≠ []) (block_list nc ws).
Proof.
  intros Hw. unfold block_list. apply Forall_fmap. eapply Forall_impl; [exact Hw|]. intros w [[] Hn] E. unfold compose in E.
  apply (f_equal length) in E. rewrite length_map in E. unfold writer_rows in E.
  pose proof (length_array_rows nc (w_nrows w) (w_hashes w) (w_values w) (w_validity w)). cbn in E. lia.
Qed.

Lemma finish_files fs parts fro :
  spill_open (sf_set fs) parts → Forall (λ rows, zlength rows < 2 ^ 64) parts →
  files_written (sf_files fs) (map (map logical) parts) →
  ∃ set, pg_batch_spill_finish (sf_set fs) fro = Ok set ∧
    fresh_files (ncolumns (sf_set fs)) (npartitions (sf_set fs)) fro (mkFiles set (sf_files fs)) (map (map logical) parts).
Proof.
  intros Ho Hlen [Hfl Hfiles]. destruct (finish_ok (sf_set fs) parts fro) as (s' & alls & -> & Hf & (Hc1 & Hc2 & _) & Hs & Hparts & _);
    [apply Ho|done|]. exists s'. split; [done|]. set (nc := ncolumns (sf_set fs)) in *.
  assert (Hla : length alls = length parts) by (by rewrite <- Hparts, length_fmap). rewrite length_map in Hfl.
  pose proof (sr_length _ _ Hs) as Hnp. rewrite length_fmap, Hc2 in Hnp.
  assert (Hflush : ∀ p all, alls !! p = Some all → Forall (flushed nc) all).
  { intros p all Hp. pose proof (lookup_lt_Some _ _ _ Hp).
    destruct (ready_lookup s' _ (Z.of_nat p) Hs) as (al & un & t & n & Hl & _ & _ & Hr & _); [lia|].
    rewrite Nat2Z.id, list_lookup_fmap, Hp in Hl. injection Hl as <- <-. by rewrite Hc1 in Hr. }
  assert (Hrows : ∀ p all, alls !! p = Some all → map (map logical) parts !! p = Some (concat (block_list nc all))).
  { intros p all Hp. change (map (map logical) parts) with (map logical <$> parts). rewrite <- Hparts, !list_lookup_fmap, Hp. cbn.
    by rewrite concat_block_list. }
  set (view := λ all, if decide (concat (block_list nc all) = []) then None
                      else Some (mkView false (block_list nc all) (block_list nc all))).
  exists (view <$> alls). split.
  - constructor; cbn [sf_set sf_files]; rewrite ?length_fmap; (done || lia || idtac).
    exists ((λ all, (all, all)) <$> alls). split; [done|]. intros p f v Hpf Hpv. rewrite list_lookup_fmap in Hpv.
    destruct (alls !! p) as [all|] eqn:Ea; [|done]. injection Hpv as <-. rewrite (Hfiles p _ f (Hrows p all Ea) Hpf). unfold view.
    case_decide; [done|]. split; [done|]. exists all, all. rewrite list_lookup_fmap, Ea, Hc1. split_and!; try done.
    cbn [hf_reader fv_open fv_left]. split; [done|]. unfold reopened. by destruct (frozen s').
  - apply Forall2_fmap_r, Forall2_same_length_lookup. split; [by rewrite length_map|]. intros p r all Hr Ha.
    rewrite (Hrows p all Ha) in Hr. injection Hr as <-. unfold compose, view. case_decide as E; [done|]. cbn. split_and!; try done.
    + intros En. by rewrite En in E.
    + by eapply block_list_nonempty, Hflush.
Qed.
End files.

(** * Splitting a file *)

Lemma zget_fmap_seqZ {A} (d : A) (f : Z → A) n c : 0 ≤ c < n → zget d (f <$> seqZ 0 n) c = f c.
Proof. intros Hc. unfold zget. rewrite list_lookup_fmap, lookup_seqZ_lt by lia. cbn. f_equal. lia. Qed.

Lemma filter_none {A} (P : A → Prop) `{∀ x, Decision (P x)} l : (∀ x, x ∈ l → ¬ P x) → filter P l = [].
Proof.
  induction l as [|x l IH]; intros Hl; [done|]. rewrite filter_cons, decide_False by (apply Hl, elem_of_cons; by left).
  apply IH. intros y Hy. apply Hl, elem_of_cons. by right.
Qed.

Section split.
Context `{PgCore} `{LogicalTapes}.

(** ** Rows of a block *)

Lemma block_sql_length nc b : block_wf nc b → zlength (block_sql_rows b) = bl_nrows b.
Proof. intros []. unfold block_sql_rows, block_rows. rewrite length_fmap. apply length_array_rows. lia. Qed.

Lemma block_row_at nc b row :
  block_wf nc b → 0 ≤ row < bl_nrows b →
  zget no_row (block_sql_rows b) row = logical (array_row nc (bl_hashes b) (bl_values b) (bl_validity b) row).
Proof.
  intros [] Hr. unfold block_sql_rows, block_rows, array_rows, zget. rewrite bw_ncolumns, <- list_fmap_compose, list_lookup_fmap.
  rewrite lookup_seqZ_lt by lia. cbn. do 2 f_equal. lia.
Qed.

Lemma block_hash_ok nc b row :
  block_wf nc b → 0 ≤ row < bl_nrows b → aref (bl_hashes b) row = Ok (zget no_row (block_sql_rows b) row).1.
Proof. intros Hb Hr. rewrite (block_row_at nc) by done. destruct Hb. by rewrite (aref_ok 0) by lia. Qed.

Lemma block_row_width nc b row :
  block_wf nc b → 0 ≤ row < bl_nrows b → zlength (zget no_row (block_sql_rows b) row).2 = nc.
Proof.
  intros Hb Hr. rewrite (block_row_at nc) by done. destruct Hb. unfold logical, raw_cells, array_row. cbn [snd].
  rewrite !length_fmap, length_seqZ. lia.
Qed.

Lemma block_cell_ok nc b row c :
  block_wf nc b → 0 ≤ row < bl_nrows b → 0 ≤ c < nc →
  ∃ v, block_cell b row c = Ok v ∧ got v = zget None (zget no_row (block_sql_rows b) row).2 c ∧ is_s32 v.1.
Proof.
  intros Hb Hr Hc. rewrite (block_row_at nc) by done. destruct Hb. unfold block_cell, PG_BATCH_SPILL_BLOCK_ROWS.
  rewrite (aref_ok 0 (bl_validity b)), bind_Ok by zlia. rewrite (aref_ok 0 (bl_values b)), bind_Ok by lia.
  eexists; split; [done|]. cbn [fst snd]. split; [|apply zget_Forall; [done|lia]].
  unfold logical, raw_cells, array_row, got. cbn [fst snd]. rewrite <- list_fmap_compose, zget_fmap_seqZ by done.
  unfold compose. cbn [fst snd]. unfold validity_bit.
  replace ((c * 64 + row) / 8) with (c * 8 + row / 8) by zlia. replace ((c * 64 + row) mod 8) with (row mod 8) by zlia.
  set (w := zget 0 (bl_validity b) (c * 8 + row / 8)). rewrite Z.shiftl_1_l.
  destruct (Z.testbit w (row mod 8)) eqn:E.
  - destruct (Z.eqb_spec (Z.land w (2 ^ (row mod 8))) 0) as [Hz|]; [|done].
    apply (f_equal (λ z, Z.testbit z (row mod 8))) in Hz. rewrite Z.land_spec, E, Z.pow2_bits_true, Z.bits_0 in Hz by zlia. done.
  - destruct (Z.eqb_spec (Z.land w (2 ^ (row mod 8))) 0) as [|Hz]; [done|]. destruct Hz. apply Z.bits_inj'. intros i Hi.
    rewrite Z.land_spec, Z.bits_0, Z.pow2_bits_eqb by zlia. destruct (Z.eqb_spec (row mod 8) i) as [<-|]; [by rewrite E|by rewrite andb_false_r].
Qed.

(** ** Writing rows to a new file *)

(** A set that is being written, and the rows of its partitions. *)
Record target_ok (nc n : Z) (fs : SpillFiles) (rows : list (list sql_row)) : Prop := {
  ta_open : ∃ parts, spill_open (sf_set fs) parts ∧ map (map logical) parts = rows;
  ta_ncolumns : ncolumns (sf_set fs) = nc;
  ta_npartitions : npartitions (sf_set fs) = n;
  ta_rows : zlength rows = n;
  ta_files : files_written (sf_files fs) rows;
}.

Lemma spill_hashes_ok nc b idx :
  block_wf nc b → Forall (λ r : sql_row, is_u32 r.1) (block_sql_rows b) → Forall (λ i, 0 ≤ i < bl_nrows b) idx → zlength idx ≤ 64 →
  ∃ hashes, spill_rows_hashes b idx = Ok hashes ∧ zlength hashes = 64 ∧ Forall is_u32 hashes ∧
    ∀ i, 0 ≤ i < zlength idx → zget 0 hashes i = (zget no_row (rows_at (block_sql_rows b) idx) i).1.
Proof.
  intros Hb Hu Hidx Hlen. pose proof (block_sql_length nc b Hb) as Hbl. unfold spill_rows_hashes.
  destruct (for_inv (λ k hashes, zlength hashes = 64 ∧ Forall is_u32 hashes ∧
      ∀ i, 0 ≤ i < k → zget 0 hashes i = (zget no_row (rows_at (block_sql_rows b) idx) i).1)
    (λ i hashes, row ← aref idx i; h ← aref (bl_hashes b) row; aset hashes i h)
    (zlength idx) (to_u32 <$> palloc_uninit PG_BATCH_SIZE)) as (hashes & -> & ? & ? & ?); [lia| | |by exists hashes].
  - rewrite length_fmap, palloc_uninit_length by (unfold PG_BATCH_SIZE; lia). split; [done|]. split; [|lia].
    apply Forall_fmap, Forall_forall. intros x _. apply to_u32_range.
  - intros i hashes Hi (Hl & Hf & Hdone). rewrite (aref_ok 0), bind_Ok by lia.
    pose proof (zget_Forall (λ i, 0 ≤ i < bl_nrows b) 0 idx i Hidx Hi) as Hrow. cbn beta in Hrow.
    rewrite (block_hash_ok nc), bind_Ok, aset_ok by (done || lia).
    assert (Hin : 0 ≤ zget 0 idx i < zlength (block_sql_rows b)) by lia.
    pose proof (zget_Forall _ no_row (block_sql_rows b) (zget 0 idx i) Hu Hin) as Hr. cbn beta in Hr.
    eexists; split; [done|]. rewrite length_insert. split; [done|]. split; [by apply Forall_insert|].
    intros j Hj. rewrite zget_insert by lia. case_decide as E; [subst j|apply Hdone; lia]. by rewrite rows_at_get.
Qed.

Lemma files_written_add files rows p new :
  files_written files rows → 0 ≤ p < zlength rows → new ≠ [] →
  files_written (<[Z.to_nat p := Some (default (mkFile p None) (zget None files p))]> files) (alter (λ l, l ++ new) (Z.to_nat p) rows).
Proof.
  intros [Hl Hf] Hp Hne. split; [by rewrite length_insert, length_alter|]. intros q r f Hr Hq.
  destruct (decide (q = Z.to_nat p)) as [->|Hqp].
  - rewrite list_lookup_alter_eq in Hr. rewrite list_lookup_insert_eq in Hq by lia. injection Hq as <-.
    destruct (lookup_lt_is_Some_2 rows (Z.to_nat p)) as [r0 Hr0]; [lia|]. rewrite Hr0 in Hr. injection Hr as <-.
    destruct (lookup_lt_is_Some_2 files (Z.to_nat p)) as [f0 Hf0]; [lia|]. unfold zget. rewrite Hf0. cbn [default from_option].
    rewrite (Hf _ _ _ Hr0 Hf0), (decide_False (P := r0 ++ new = [])) by (by destruct r0, new). case_decide; cbn; rewrite ?Z2Nat.id by lia; done.
  - rewrite list_lookup_alter_ne in Hr by done. rewrite list_lookup_insert_ne in Hq by done. by eapply Hf.
Qed.

Lemma write_spill_rows_ok nc n fs rows b p idx :
  target_ok nc n fs rows → block_wf nc b → Forall (λ r : sql_row, is_u32 r.1) (block_sql_rows b) → 0 ≤ p < n →
  Forall (λ i, 0 ≤ i < bl_nrows b) idx → 1 ≤ zlength idx ≤ 64 →
  ∃ fs', write_spill_rows nc b p idx fs = Ok fs' ∧
    target_ok nc n fs' (alter (λ l, l ++ rows_at (block_sql_rows b) idx) (Z.to_nat p) rows).
Proof.
  intros [(parts & Ho & Hparts) Hnc Hnp Hrows Hfiles] Hb Hu Hp Hidx Hlen. unfold write_spill_rows.
  pose proof (block_sql_length nc b Hb) as Hbl.
  destruct (spill_hashes_ok nc b idx) as (hashes & -> & Hhl & Hhu & Hh); [done|done|done|lia|]. rewrite bind_Ok.
  assert (Hrow : ∀ i, 0 ≤ i < zlength idx → 0 ≤ zget 0 idx i < bl_nrows b)
    by (intros i Hi; by apply (zget_Forall (λ i, 0 ≤ i < bl_nrows b))).
  assert (Hnc0 : 0 ≤ nc) by (destruct Hb; lia).
  destruct (dense_columns nc (zlength idx) (λ c i, zget None (zget no_row (block_sql_rows b) (zget 0 idx i)).2 c)
    (spill_rows_cell b idx)) as (dense & -> & Hd); [done|lia| |].
  - intros c i st Hc Hi. specialize (Hrow i Hi). unfold spill_rows_cell. rewrite (aref_ok 0 idx i), bind_Ok by lia.
    destruct (block_cell_ok nc b (zget 0 idx i) c) as ([v isnull] & -> & Hgot & Hs32); [done|done|done|]. rewrite bind_Ok.
    exists (v, isnull). by split_and!.
  - rewrite bind_Ok. destruct (dense_rows (sf_set fs) parts p nc (zlength idx)
      (λ c i, zget None (zget no_row (block_sql_rows b) (zget 0 idx i)).2 c) hashes dense (rows_at (block_sql_rows b) idx))
      as (set' & new & -> & (Hc1 & Hc2 & _) & Ho' & Hnew); try done; try lia.
    + unfold rows_at. by rewrite length_fmap.
    + intros i Hi. specialize (Hrow i Hi). rewrite rows_at_get by done. set (r := zget no_row (block_sql_rows b) _).
      rewrite <- (zget_seqZ None r.2) at 1. unfold r. by rewrite (block_row_width nc).
    + rewrite bind_Ok. unfold spill_file. destruct Hfiles as [Hfl Hf]. rewrite (aref_ok None), bind_Ok, put_file_ok by lia.
      eexists; split; [done|]. constructor; cbn [sf_set sf_files]; [|congruence|congruence|by rewrite length_alter|].
      * exists (append_to p new parts). split; [done|]. subst rows. unfold append_to.
        change (map (map logical)) with (fmap (M := list) (map logical)).
        rewrite (list_fmap_alter (map logical) (λ l, l ++ new) (λ l, l ++ rows_at (block_sql_rows b) idx)); [done|].
        apply Forall_forall. intros l _. rewrite map_app. by rewrite <- Hnew.
      * apply files_written_add; [by split|lia|]. intros E. apply (f_equal length) in E. unfold rows_at in E. rewrite length_fmap in E.
        cbn in E. lia.
Qed.

(** ** Routing the rows of a block *)

(** The lists of rows by partition, after the rows [l]; rows without a
    partition are in none. *)
Record linked (f : Z → option Z) (l : list Z) (used : list (Z * list Z)) : Prop := {
  lk_nodup : NoDup used.*1;
  lk_rows : ∀ p rows, (p, rows) ∈ used → rows = filter (λ r, f r = Some p) l ∧ rows ≠ [];
  lk_used : ∀ r p, r ∈ l → f r = Some p → p ∈ used.*1;
}.

Lemma link_row_keys p row used : (link_row p row used).*1 = if decide (p ∈ used.*1) then used.*1 else used.*1 ++ [p].
Proof.
  induction used as [|[q rows] used IH]; [done|]. cbn [link_row]. rewrite !fmap_cons. destruct (Z.eqb_spec q p) as [->|Hne].
  - rewrite decide_True by (cbn; set_solver). done.
  - rewrite fmap_cons, IH. cbn [fst]. destruct (decide (p ∈ used.*1)), (decide (p ∈ q :: used.*1)); cbn; set_solver.
Qed.

Lemma link_row_elem p row used q rows :
  NoDup used.*1 → (q, rows) ∈ link_row p row used →
  (q ≠ p ∧ (q, rows) ∈ used) ∨
  (q = p ∧ ((∃ r, (p, r) ∈ used ∧ rows = r ++ [row]) ∨ (p ∉ used.*1 ∧ rows = [row]))).
Proof.
  induction used as [|[q' r'] used IH]; intros Hnd Hin; cbn [link_row] in Hin.
  - apply list_elem_of_singleton in Hin. injection Hin as -> ->. right. split; [done|]. right. split; [apply not_elem_of_nil|done].
  - rewrite fmap_cons in *. apply NoDup_cons in Hnd as [Hq Hnd]. cbn [fst] in *. destruct (Z.eqb_spec q' p) as [->|Hne].
    + apply elem_of_cons in Hin as [[= -> ->]|Hin]; [right; split; [done|]; left; exists r'; split; [apply elem_of_cons; by left|done]|].
      left. split; [|apply elem_of_cons; by right]. intros ->. apply Hq. apply list_elem_of_fmap. by exists (p, rows).
    + apply elem_of_cons in Hin as [[= -> ->]|Hin]; [left; split; [done|apply elem_of_cons; by left]|].
      destruct (IH Hnd Hin) as [[? ?]|[-> [(r & ? & ->)|[? ->]]]].
      * left. split; [done|]. apply elem_of_cons. by right.
      * right. split; [done|]. left. exists r. split; [apply elem_of_cons; by right|done].
      * right. split; [done|]. right. split; [|done]. rewrite elem_of_cons. intros [?|?]; [congruence|done].
Qed.

Lemma link_row_ok f l used row p :
  linked f l used → f row = Some p → linked f (l ++ [row]) (link_row p row used).
Proof.
  intros [Hnd Hrows Hused] Hf. assert (Hfilter : ∀ q, filter (λ r, f r = Some q) (l ++ [row]) =
    filter (λ r, f r = Some q) l ++ if decide (q = p) then [row] else []).
  { intros q. rewrite filter_app, filter_cons, filter_nil. do 2 case_decide; congruence. }
  split.
  - rewrite link_row_keys. case_decide as Ep; [done|]. apply NoDup_app. split; [done|]. split; [set_solver|apply NoDup_singleton].
  - intros q rows Hin. rewrite Hfilter. apply link_row_elem in Hin as [[Hne Hin]|[-> [(r & Hin & ->)|[Hout ->]]]]; [| | |done].
    + rewrite decide_False, app_nil_r by done. by apply Hrows.
    + rewrite decide_True by done. destruct (Hrows _ _ Hin) as [-> _]. split; [done|]. by intros []%app_nil.
    + rewrite decide_True by done. split; [|done]. rewrite filter_none; [done|].
      intros r Hr Hrp. by apply Hout, (Hused r).
  - intros r q Hr Hrq. rewrite link_row_keys. apply elem_of_app in Hr as [Hr| ->%list_elem_of_singleton].
    + pose proof (Hused r q Hr Hrq). case_decide; set_solver.
    + simplify_eq. case_decide; set_solver.
Qed.

Lemma skip_row_ok f l used row : linked f l used → f row = None → linked f (l ++ [row]) used.
Proof.
  intros [Hnd Hrows Hused] Hf. split; [done| |].
  - intros q rows Hin. rewrite filter_app, filter_cons, filter_nil, decide_False, app_nil_r by congruence. by apply Hrows.
  - intros r q [Hr| ->%list_elem_of_singleton]%elem_of_app Hrq; [by eapply Hused|congruence].
Qed.

(** The new partition of a row, when its rows are kept. *)
Definition routed (hash_shift n : Z) (matching : option (list (option HashSpillFile))) (r : sql_row) : option Z :=
  let p := hash_partition hash_shift n r.1 in
  match matching with
  | None => Some p
  | Some files => match zget None files p with Some _ => Some p | None => None end
  end.

Definition route_rows (sel : sql_row → option Z) (new : list sql_row) (rows : list (list sql_row)) : list (list sql_row) :=
  imap (λ q l, l ++ filter (λ r, sel r = Some (Z.of_nat q)) new) rows.

Lemma route_rows_nil sel rows : route_rows sel [] rows = rows.
Proof.
  apply list_eq. intros q. unfold route_rows. rewrite list_lookup_imap. destruct (rows !! q) as [l|]; [|done]. cbn. by rewrite app_nil_r.
Qed.

Lemma route_rows_app sel new new' rows : route_rows sel new' (route_rows sel new rows) = route_rows sel (new ++ new') rows.
Proof.
  apply list_eq. intros q. unfold route_rows. rewrite !list_lookup_imap. destruct (rows !! q) as [l|]; [|done]. cbn.
  by rewrite filter_app, app_assoc.
Qed.

Lemma hash_partition_range hash_shift k h : 0 ≤ k → 0 ≤ hash_partition hash_shift (2 ^ k) h < 2 ^ k.
Proof.
  intros Hk. unfold hash_partition. rewrite Z.sub_1_r, <- Z.ones_equiv, Z.land_ones by done. apply Z.mod_pos_bound. lia.
Qed.

Section route.
Context (nc hash_shift k : Z) (matching : option (list (option HashSpillFile))).
Context (Hk : 0 ≤ k) (Hmatching : match matching with Some files => zlength files = 2 ^ k | None => True end).

Abbreviation n := (2 ^ k).
Abbreviation sel := (routed hash_shift n matching).

Lemma route_block_ok b :
  block_wf nc b →
  ∃ used, foldM (route_row hash_shift n matching b) (seqZ 0 (bl_nrows b)) [] = Ok used ∧
    linked (λ row, sel (zget no_row (block_sql_rows b) row)) (seqZ 0 (bl_nrows b)) used.
Proof using Hk Hmatching.
  intros Hb. pose proof Hb as [].
  destruct (foldM_inv (linked (λ row, sel (zget no_row (block_sql_rows b) row))) (route_row hash_shift n matching b)
    (seqZ 0 (bl_nrows b)) []) as (used & -> & Hused); [| |by exists used].
  - split; [constructor|by intros p rows ?%not_elem_of_nil|by intros r p ?%not_elem_of_nil].
  - intros pre row post used E Hpre. assert (Hrow : 0 ≤ row < bl_nrows b).
    { assert (row ∈ seqZ 0 (bl_nrows b)) as Hin%elem_of_seqZ by (rewrite E; set_solver). lia. }
    unfold route_row. rewrite (block_hash_ok nc), bind_Ok by done. set (r := zget no_row (block_sql_rows b) row).
    pose proof (hash_partition_range hash_shift k r.1 Hk) as Hp. set (p := hash_partition _ _ _) in *.
    destruct matching as [files|] eqn:Em.
    + rewrite (aref_ok None), !bind_Ok by lia. destruct (zget None files p) as [f|] eqn:Ef; eexists; split; try done.
      * apply link_row_ok; [done|]. fold r. unfold routed. fold p. by rewrite Ef.
      * apply skip_row_ok; [done|]. fold r. unfold routed. fold p. by rewrite Ef.
    + rewrite bind_Ok. eexists; split; [done|]. by apply link_row_ok.
Qed.

(** The rows by partition once those of some partitions are written. *)
Definition part_routed (b : PgBatchSpillBlock) (done_ : list Z) (rows : list (list sql_row)) : list (list sql_row) :=
  imap (λ q l, l ++ if decide (Z.of_nat q ∈ done_) then filter (λ r, sel r = Some (Z.of_nat q)) (block_sql_rows b) else []) rows.

Lemma part_routed_step b pre p rows :
  0 ≤ p → p ∉ pre →
  alter (λ l, l ++ filter (λ r, sel r = Some p) (block_sql_rows b)) (Z.to_nat p) (part_routed b pre rows) = part_routed b (pre ++ [p]) rows.
Proof using Hk Hmatching.
  intros Hp Hout. apply list_eq. intros q. unfold part_routed. destruct (decide (q = Z.to_nat p)) as [->|Hne].
  - rewrite list_lookup_alter_eq, !list_lookup_imap. destruct (rows !! Z.to_nat p) as [l|]; [|done]. cbn.
    rewrite Z2Nat.id, decide_False, app_nil_r, decide_True by set_solver. done.
  - rewrite list_lookup_alter_ne, !list_lookup_imap by done. destruct (rows !! q) as [l|]; [|done]. cbn. f_equal. f_equal.
    apply decide_ext. rewrite elem_of_app, list_elem_of_singleton. assert (Z.of_nat q ≠ p) by lia. tauto.
Qed.

Definition counts_ok (counts : option (list Z)) : Prop := match counts with Some c => zlength c = n | None => True end.

Lemma split_block_ok b st rows :
  block_wf nc b → Forall (λ r : sql_row, is_u32 r.1) (block_sql_rows b) → target_ok nc n st.1 rows → counts_ok st.2 →
  ∃ st', split_block hash_shift n nc matching b st = Ok st' ∧
    target_ok nc n st'.1 (route_rows sel (block_sql_rows b) rows) ∧ counts_ok st'.2 ∧ (is_Some st'.2 ↔ is_Some st.2).
Proof using Hk Hmatching.
  intros Hb Hu Hst Hcounts. unfold split_block. destruct (route_block_ok b Hb) as (used & -> & [Hnd Hrows Hused]). rewrite bind_Ok.
  pose proof Hb as []. pose proof (block_sql_length nc b Hb) as Hbl.
  assert (Hpart : ∀ p, rows_at (block_sql_rows b) (filter (λ row, sel (zget no_row (block_sql_rows b) row) = Some p) (seqZ 0 (bl_nrows b))) =
    filter (λ r, sel r = Some p) (block_sql_rows b)).
  { intros p. transitivity (filter (λ r, sel r = Some p) (zget no_row (block_sql_rows b) <$> seqZ 0 (bl_nrows b))).
    - unfold rows_at. by rewrite list_filter_fmap'.
    - rewrite <- Hbl. by rewrite zget_seqZ. }
  destruct (foldM_inv (λ pre st', target_ok nc n st'.1 (part_routed b pre.*1 rows) ∧ counts_ok st'.2 ∧ (is_Some st'.2 ↔ is_Some st.2))
    (split_rows nc b) used st) as (st' & -> & Hst' & Hc' & His).
  - split; [|done]. replace (part_routed b [].*1 rows) with rows; [done|]. symmetry. unfold part_routed. apply list_eq. intros q.
    rewrite list_lookup_imap. destruct (rows !! q) as [l|]; [|done]. cbn. by rewrite decide_False, app_nil_r by apply not_elem_of_nil.
  - intros pre [p idx] post st1 E (H1 & Hc1 & His1). unfold split_rows. cbn [fst snd].
    assert (Hin : (p, idx) ∈ used) by (rewrite E; set_solver). destruct (Hrows _ _ Hin) as [Eidx Hne].
    assert (Hidx : Forall (λ i, 0 ≤ i < bl_nrows b) idx).
    { rewrite Eidx. apply Forall_forall. intros i [_ Hi%elem_of_seqZ]%list_elem_of_filter. lia. }
    assert (Hlen : 1 ≤ zlength idx ≤ 64).
    { split; [destruct idx; [done|cbn; lia]|]. rewrite Eidx. etransitivity; [apply Nat2Z.inj_le, length_filter|]. rewrite length_seqZ. lia. }
    assert (Hp : 0 ≤ p < n).
    { destruct idx as [|i idx']; [done|]. assert (Hi : i ∈ i :: idx') by set_solver. rewrite Eidx in Hi.
      apply list_elem_of_filter in Hi as [Hi _]. unfold routed in Hi. set (r := zget no_row _ i) in Hi.
      pose proof (hash_partition_range hash_shift k r.1 Hk). destruct matching; [destruct (zget None l _)|]; by simplify_eq. }
    destruct (write_spill_rows_ok nc n st1.1 _ b p idx H1) as (fs' & -> & Hfs'); try done. rewrite bind_Ok.
    rewrite Eidx, Hpart, part_routed_step in Hfs'.
    + rewrite fmap_app. cbn. destruct st1 as [fs1 [c|]]; unfold counts_ok in *; cbn [fst snd] in *.
      * rewrite (aref_ok 0), bind_Ok, aset_ok, bind_Ok by lia. eexists; split; [done|]. cbn. rewrite length_insert. split_and!; try done.
        by rewrite <- His1.
      * eexists; split; [done|]. by split_and!.
    + lia.
    + rewrite E, fmap_app in Hnd. apply NoDup_app in Hnd as (_ & Hd & _). intros Hpre. by apply (Hd p Hpre); cbn; left.
  - exists st'. split; [done|]. split; [|done]. assert (part_routed b used.*1 rows = route_rows sel (block_sql_rows b) rows) as <-; [|done].
    unfold part_routed, route_rows. apply imap_ext. intros q l _. f_equal. case_decide as Hq; [done|]. symmetry. apply filter_none.
    intros r Hr Hrq. apply list_elem_of_lookup in Hr as [i Hi]. pose proof (lookup_lt_Some _ _ _ Hi). apply Hq, (Hused (Z.of_nat i)).
    + apply elem_of_seqZ. lia.
    + assert (zget no_row (block_sql_rows b) (Z.of_nat i) = r) as ->; [|done]. unfold zget. rewrite Nat2Z.id.
      exact (f_equal (default no_row) Hi).
Qed.

(** ** Splitting a file *)

Lemma repartition_loop_ok np fro p all : ∀ fuel src views o left st rows,
  files_ok nc np fro src views → 0 ≤ p → views !! Z.to_nat p = Some (Some (mkView o all left)) → (length left < fuel)%nat →
  Forall (λ r : sql_row, is_u32 r.1) (concat left) → target_ok nc n st.1 rows → counts_ok st.2 →
  ∃ src' st', repartition_loop fuel hash_shift n nc matching src p st = Ok (src', st') ∧
    files_ok nc np fro src' (<[Z.to_nat p := Some (mkView true all [])]> views) ∧
    target_ok nc n st'.1 (route_rows sel (concat left) rows) ∧ counts_ok st'.2 ∧ (is_Some st'.2 ↔ is_Some st.2).
Proof using Hk Hmatching.
  induction fuel as [|fuel IH]; intros src views o left st rows Hsrc Hp Hv Hfuel Hu Hst Hc; [lia|]. cbn [repartition_loop].
  destruct left as [|b left].
  - destruct (read_end_ok _ _ _ _ _ _ _ _ Hsrc Hp Hv) as (src' & -> & Hsrc'). rewrite bind_Ok. cbn beta iota.
    exists src', st. cbn [concat]. by rewrite route_rows_nil.
  - destruct (read_more_ok _ _ _ _ _ _ _ _ _ _ Hsrc Hp Hv) as (src1 & block & -> & Hsrc1 & Hb & Hbr). rewrite bind_Ok. cbn beta iota.
    cbn [concat] in Hu. apply Forall_app in Hu as [Hu Hu']. rewrite <- Hbr in Hu.
    destruct (split_block_ok block st rows Hb Hu Hst Hc) as (st1 & -> & Hst1 & Hc1 & His1). rewrite bind_Ok.
    destruct (IH src1 (<[Z.to_nat p := Some (mkView true all left)]> views) true left st1 (route_rows sel (block_sql_rows block) rows))
      as (src' & st' & -> & Hsrc' & Hst' & Hc' & His'); try done.
    + apply list_lookup_insert_eq. by eapply lookup_lt_Some.
    + cbn in Hfuel. lia.
    + exists src', st'. rewrite list_insert_insert_eq in Hsrc'. rewrite route_rows_app, Hbr in Hst'. split_and!; try done. by rewrite His'.
Qed.

(** The rows of a file are counted. *)
Lemma files_count np fro fs views p v :
  files_ok nc np fro fs views → 0 ≤ p → views !! Z.to_nat p = Some (Some v) →
  ∃ m, aref (partition_rows (sf_set fs)) p = Ok m ∧ (length (fv_all v) ≤ Z.to_nat m)%nat.
Proof using Hk Hmatching.
  intros Hok Hp Hv. destruct (files_lookup _ _ _ _ _ _ _ Hok Hv) as (Hlt & f & parts & Hf & Hs & (_ & all & un & Hl & Ha & _) & _).
  rewrite Z2Nat.id in Hlt by done. pose proof (fo_npartitions _ _ _ _ _ Hok).
  destruct (ready_lookup _ _ p Hs) as (al & un' & t & m & Hl' & _ & Hm & (Hflush & _ & Hcount & _)); [lia|].
  rewrite Hl in Hl'. injection Hl' as <- <-. exists m. rewrite (aref_lookup _ _ m) by done. split; [done|].
  rewrite Ha. unfold block_list. rewrite length_fmap. pose proof (blocks_le_rows _ _ Hflush). lia.
Qed.

Lemma repartition_file_ok np fro src views p v st rows :
  files_ok nc np fro src views → 0 ≤ p → views !! Z.to_nat p = Some (Some v) → fv_open v = false → fv_left v = fv_all v →
  Forall (λ r : sql_row, is_u32 r.1) (concat (fv_all v)) → target_ok nc n st.1 rows → counts_ok st.2 →
  ∃ src' st', repartition_file hash_shift n nc matching src p st = Ok (src', st') ∧
    files_ok nc np fro src' (<[Z.to_nat p := Some (mkView true (fv_all v) [])]> views) ∧
    target_ok nc n st'.1 (route_rows sel (concat (fv_all v)) rows) ∧ counts_ok st'.2 ∧ (is_Some st'.2 ↔ is_Some st.2).
Proof using Hk Hmatching.
  intros Hsrc Hp Hv Ho Hl Hu Hst Hc. unfold repartition_file.
  destruct (rewind_file_ok _ _ _ _ _ _ _ Hsrc Hp Hv) as (src1 & -> & Hsrc1); [by right|]. rewrite bind_Ok.
  assert (Hr : rewound fro v = fv_all v) by (unfold rewound; by destruct fro). rewrite Hr in Hsrc1.
  assert (Hv1 : <[Z.to_nat p := Some (mkView (fv_open v) (fv_all v) (fv_all v))]> views !! Z.to_nat p =
    Some (Some (mkView (fv_open v) (fv_all v) (fv_all v)))) by (apply list_lookup_insert_eq; by eapply lookup_lt_Some).
  destruct (files_count _ _ _ _ _ _ Hsrc1 Hp Hv1) as (m & -> & Hm). rewrite bind_Ok. cbn [fv_all] in Hm.
  destruct (repartition_loop_ok np fro p (fv_all v) (S (Z.to_nat m)) src1 _ _ _ st rows Hsrc1 Hp Hv1)
    as (src' & st' & -> & Hsrc' & ?); try done; [lia|]. exists src', st'. rewrite list_insert_insert_eq in Hsrc'. by do 2 (split; [done|]).
Qed.
End route.
End split.
