(* ===== verification/JoinChunk.v ===== *)
(** * The spilling hash join: loading a chunk of build rows

    A chunk takes the next rows of the partition, at most as many as fit, and
    builds a hash table over them. *)

From S2P Require Import Prelude Words Bytes Selection Vector Kernels Int4 Hash Spill SpillBlocks SpillSet SpillRun SpillRead SpillLoop JoinStore JoinStoreProps JoinDirectory JoinBuild JoinBuildProps JoinProbe JoinSpill JoinSpillProps JoinPass JoinFiles.

Section chunk.
Context `{PgCore} `{LogicalTapes}.
Context (ninner np : Z) (fro : bool) (build_chunk_rows : Z).
Context (Hninner : 0 < ninner) (Hchunk : 0 < build_chunk_rows).

(** The build rows that are not loaded yet: of the block, and of the blocks
    left in the file. *)
Definition load_rest (l : BuildLoad) (left : list (list sql_row)) : list sql_row :=
  drop (Z.to_nat (ld_row l)) (block_sql_rows (ld_block l)) ++ concat left.

Record load_ok (l : BuildLoad) : Prop := {
  lo_block : bl_nrows (ld_block l) = 0 ∨ block_wf ninner (ld_block l);
  lo_row : 0 ≤ ld_row l;
  lo_columns : bs_ncolumns (ld_store l) = ninner;
}.

Lemma append_spill_row_ok b row s rows :
  block_wf ninner b → 0 ≤ row < bl_nrows b → store_wf s rows → bs_ncolumns s = ninner → zlength rows < max_build_rows →
  ∃ s', append_spill_build_row b row s = Ok s' ∧ store_wf s' (rows ++ [zget no_row (block_sql_rows b) row]) ∧
    bs_ncolumns s' = bs_ncolumns s ∧ bs_hash_shift s' = bs_hash_shift s ∧ bs_has_duplicates s' = bs_has_duplicates s.
Proof using Type.
  intros Hb Hr [Hs Hfr] Hn Hmax. unfold append_spill_build_row.
  destruct (make_room_ok s rows Hs Hmax) as (s1 & -> & Hs1 & Hfr1 & Hroom & Hn1 & Hh1 & Hd1). rewrite bind_Ok.
  rewrite (block_hash_ok ninner), bind_Ok by done. set (r := zget no_row (block_sql_rows b) row).
  destruct (append_row_ok s1 rows r.1 (block_cell b row) r.2) as (s2 & -> & Hs2 & Hfr2 & _ & ? & ? & ?).
  - done.
  - left. by apply Hfr1.
  - done.
  - unfold r. rewrite (block_row_width ninner) by done. congruence.
  - intros c Hc. apply (block_cell_ok ninner); (done || lia).
  - exists s2. rewrite <- surjective_pairing in Hs2. split; [done|]. split; [split; [done|auto]|]. split_and!; congruence.
Qed.

(** The inner loop. *)
Lemma append_spill_rows_ok b row taken s rows :
  block_wf ninner b → 0 ≤ row → 0 ≤ taken → row + taken ≤ bl_nrows b → store_wf s rows → bs_ncolumns s = ninner →
  zlength rows + taken ≤ max_build_rows →
  ∃ s', foldM (append_spill_build_row b) (seqZ row taken) s = Ok s' ∧
    store_wf s' (rows ++ take (Z.to_nat taken) (drop (Z.to_nat row) (block_sql_rows b))) ∧
    bs_ncolumns s' = bs_ncolumns s ∧ bs_hash_shift s' = bs_hash_shift s ∧ bs_has_duplicates s' = bs_has_duplicates s.
Proof using Type.
  intros Hb Hrow Htaken Hle Hs Hn Hmax. pose proof (block_sql_length ninner b Hb) as Hbl.
  assert (Htake : take (Z.to_nat taken) (drop (Z.to_nat row) (block_sql_rows b)) = zget no_row (block_sql_rows b) <$> seqZ row taken).
  { apply list_eq. intros i. rewrite list_lookup_fmap. destruct (decide (Z.of_nat i < taken)).
    - rewrite lookup_take_lt, lookup_drop, lookup_seqZ_lt by lia. cbn. unfold zget.
      replace (Z.to_nat (row + Z.of_nat i)) with (Z.to_nat row + i)%nat by lia.
      destruct (lookup_lt_is_Some_2 (block_sql_rows b) (Z.to_nat row + i)) as [x Hx]; [lia|].
      by rewrite Hx.
    - rewrite lookup_take_ge, lookup_seqZ_ge by lia. done. }
  destruct (foldM_inv (λ pre s', store_wf s' (rows ++ (zget no_row (block_sql_rows b) <$> pre)) ∧
      bs_ncolumns s' = bs_ncolumns s ∧ bs_hash_shift s' = bs_hash_shift s ∧ bs_has_duplicates s' = bs_has_duplicates s)
    (append_spill_build_row b) (seqZ row taken) s) as (s' & -> & Hs' & ?).
  - cbn. by rewrite app_nil_r.
  - intros pre x post s1 E (Hs1 & Hn1 & Hh1 & Hd1). assert (Hlen : (length pre + length (x :: post) = Z.to_nat taken)%nat).
    { by rewrite <- length_app, <- E, length_seqZ. }
    assert (Hx : x = row + zlength pre).
    { assert (Hlk : seqZ row taken !! length pre = Some x) by (rewrite E; by apply list_lookup_middle).
      by apply lookup_seqZ in Hlk as [-> _]. }
    cbn in Hlen. destruct (append_spill_row_ok b x s1 (rows ++ (zget no_row (block_sql_rows b) <$> pre)) Hb) as (s2 & -> & Hs2 & ? & ? & ?);
      [lia|done|congruence|rewrite length_app, length_fmap; lia|]. exists s2. split; [done|].
    rewrite fmap_app, app_assoc. split_and!; [done|congruence..].
  - exists s'. rewrite Htake. by split.
Qed.

Lemma load_loop_ok p all fuel : ∀ files views o left l rows,
  files_ok ninner np fro files views → 0 ≤ p → views !! Z.to_nat p = Some (Some (mkView o all left)) →
  Forall (λ b, b ≠ []) left → load_ok l → (ld_eof l = true → load_rest l left = []) → store_wf (ld_store l) rows →
  zlength rows + zlength (load_rest l left) ≤ max_build_rows → zlength rows ≤ build_chunk_rows →
  build_chunk_rows - zlength rows < Z.of_nat fuel →
  let room := Z.to_nat (build_chunk_rows - zlength rows) in
  ∃ files' l' o' left', load_loop ninner build_chunk_rows fuel files p l = Ok (files', l') ∧
    files_ok ninner np fro files' (<[Z.to_nat p := Some (mkView o' all left')]> views) ∧ Forall (λ b, b ≠ []) left' ∧
    load_ok l' ∧ (ld_eof l' = true → load_rest l' left' = []) ∧ load_rest l' left' = drop room (load_rest l left) ∧
    store_wf (ld_store l') (rows ++ take room (load_rest l left)) ∧
    bs_hash_shift (ld_store l') = bs_hash_shift (ld_store l) ∧ bs_has_duplicates (ld_store l') = bs_has_duplicates (ld_store l).
Proof using Hninner Hchunk.
  induction fuel as [|fuel IH]; intros files views o left l rows Hf Hp Hv Hleft Hl Heof Hs Hmax Hle Hfuel; [lia|].
  cbn zeta. cbn [load_loop]. pose proof (sw_nrows _ _ (proj1 Hs)) as Hn. rewrite Hn.
  destruct (Z.ltb_spec (zlength rows) build_chunk_rows) as [Hlt|Hge].
  2: { exists files, l, o, left. replace (Z.to_nat (build_chunk_rows - zlength rows)) with 0%nat by lia. rewrite take_0, drop_0, app_nil_r, list_insert_id by done.
       by split_and!. }
  destruct Hl as [Hblock Hrow Hcols].
  (* the block the rows come from *)
  assert (Hget : (∃ files', (if bl_nrows (ld_block l) <=? ld_row l then read_spill_block ninner files p
        else Ok (files, Some (ld_block l))) = Ok (files', None) ∧ load_rest l left = [] ∧
      files_ok ninner np fro files' (<[Z.to_nat p := Some (mkView true all [])]> views) ∧ left = []) ∨
    ∃ files' o' left' block row, (if bl_nrows (ld_block l) <=? ld_row l then read_spill_block ninner files p
        else Ok (files, Some (ld_block l))) = Ok (files', Some block) ∧
      (if bl_nrows (ld_block l) <=? ld_row l then 0 else ld_row l) = row ∧ block_wf ninner block ∧ 0 ≤ row < bl_nrows block ∧
      files_ok ninner np fro files' (<[Z.to_nat p := Some (mkView o' all left')]> views) ∧ Forall (λ b, b ≠ []) left' ∧
      load_rest l left = drop (Z.to_nat row) (block_sql_rows block) ++ concat left').
  { destruct (Z.leb_spec (bl_nrows (ld_block l)) (ld_row l)) as [Hempty|Hsome].
    - assert (Hrest : load_rest l left = concat left).
      { unfold load_rest. rewrite drop_ge; [done|]. unfold block_sql_rows, block_rows. rewrite length_fmap.
        unfold array_rows. rewrite length_fmap, length_seqZ. lia. }
      destruct left as [|b left].
      + left. destruct (read_end_ok _ _ _ _ _ _ _ _ Hf Hp Hv) as (files' & -> & Hf'). by exists files'.
      + right. destruct (read_more_ok _ _ _ _ _ _ _ _ _ _ Hf Hp Hv) as (files' & block & -> & Hf' & Hb & Hbr).
        apply Forall_cons in Hleft as [Hne Hleft]. exists files', true, left, block, 0. rewrite drop_0, Hbr, Hrest.
        split_and!; try done. destruct Hb; lia.
    - right. destruct Hblock as [|Hb]; [lia|]. exists files, o, left, (ld_block l), (ld_row l). rewrite list_insert_id by done. by split_and!. }
  destruct Hget as [(files' & -> & Hrest & Hf' & ->)|(files' & o' & left' & block & row & -> & -> & Hb & Hr & Hf' & Hleft' & Hrest)];
    rewrite bind_Ok; cbn beta iota.
  { exists files', (mkLoad (ld_block l) (ld_row l) true (ld_store l)), true, []. rewrite Hrest, take_nil, drop_nil, app_nil_r.
    split_and!; try done. }
  pose proof (block_sql_length ninner block Hb) as Hbl. set (taken := Z.min _ _).
  assert (Hlenr : zlength (load_rest l left) = bl_nrows block - row + zlength (concat left')).
  { rewrite Hrest, length_app, length_drop. lia. }
  destruct (append_spill_rows_ok block row taken (ld_store l) rows) as (s' & -> & Hs' & Hn' & Hh' & Hd'); try done; try lia.
  rewrite bind_Ok. set (rows' := rows ++ _) in *. set (l1 := mkLoad block (row + taken) (ld_eof l) s').
  assert (Hlen' : zlength rows' = zlength rows + taken).
  { unfold rows'. rewrite length_app, length_take, length_drop. lia. }
  assert (Hrest1 : load_rest l1 left' = drop (Z.to_nat taken) (load_rest l left)).
  { rewrite Hrest. unfold load_rest, l1. cbn [ld_row ld_block]. rewrite drop_app_le by (rewrite length_drop; lia).
    rewrite drop_drop. do 2 f_equal. lia. }
  assert (Htake1 : rows' = rows ++ take (Z.to_nat taken) (load_rest l left)).
  { unfold rows'. rewrite Hrest, take_app_le by (rewrite length_drop; lia). done. }
  destruct (IH files' (<[Z.to_nat p := Some (mkView o' all left')]> views) o' left' l1 rows') as
    (files2 & l2 & o2 & left2 & -> & Hf2 & Hleft2 & Hl2 & Heof2 & Hrest2 & Hs2 & Hh2 & Hd2); try done; try lia.
  - apply list_lookup_insert_eq. by eapply lookup_lt_Some.
  - constructor; cbn; [by right|lia|congruence].
  - cbn. intros E. rewrite Hrest1, (Heof E). apply drop_nil.
  - rewrite Hrest1, length_drop. lia.
  - exists files2, l2, o2, left2. rewrite list_insert_insert_eq in Hf2.
    assert (Hroom : Z.to_nat (build_chunk_rows - zlength rows) = (Z.to_nat taken + Z.to_nat (build_chunk_rows - zlength rows'))%nat) by lia.
    rewrite Hroom, <- take_take_drop, <- drop_drop, app_assoc, <- Htake1, <- Hrest1. cbn [ld_store ld_eof l1] in *. split_and!; try done; try congruence.
Qed.

(** ** A chunk *)

Context (keys : list (Z * Z)) `{!ReversibleHash}.
Context (Hkeys : Forall (λ c, 0 ≤ c < ninner) keys.*1).

(** What loading leaves: a table of the next rows, if there are any; without
    [more] there are none after them. *)
Record chunk_loaded (rest : list sql_row) (l : BuildLoad) (left : list (list sql_row)) (more loaded : bool) : Prop := {
  cl_load : load_ok l;
  cl_eof : ld_eof l = true → load_rest l left = [];
  cl_left : Forall (λ b, b ≠ []) left;
  cl_rest : load_rest l left = drop (Z.to_nat build_chunk_rows) rest;
  cl_loaded : loaded = negb (bool_decide (rest = []));
  cl_table : loaded = true → join_table (ld_store l) keys (take (Z.to_nat build_chunk_rows) rest);
  cl_more : more = false → load_rest l left = [];
}.

Lemma load_chunk_ok st r bf pf views o all left :
  pa_active st = Some r → files_of st r = Ok (bf, pf) → 0 ≤ ref_partition r → files_ok ninner np fro bf views →
  views !! Z.to_nat (ref_partition r) = Some (Some (mkView o all left)) → Forall (λ b, b ≠ []) left →
  load_ok (pa_load st) → (ld_eof (pa_load st) = true → load_rest (pa_load st) left = []) →
  let rest := load_rest (pa_load st) left in
  zlength rest ≤ max_build_rows → Forall (keyed keys.*1) rest →
  ∃ bf' o' left' l more loaded,
    load_build_chunk keys.*1 ninner build_chunk_rows st = Ok (set_load (with_files st r (bf', pf)) l more, loaded) ∧
    files_ok ninner np fro bf' (<[Z.to_nat (ref_partition r) := Some (mkView o' all left')]> views) ∧
    chunk_loaded rest l left' more loaded.
Proof using All.
  intros Ha Hfs Hp Hf Hv Hleft Hl Heof rest Hmax Hkeyed. unfold load_build_chunk. rewrite Ha, Hfs, bind_Ok. cbn [fst snd].
  set (s0 := mkStore _ _ _ _ _ _ _ _ _). pose proof (lo_columns _ Hl) as Hcols.
  assert (Hs0 : store_wf s0 []).
  { destruct (empty_store_ok (ld_store (pa_load st))) as [[] Hfr]; [lia|]. split; [by split|exact Hfr]. }
  set (l0 := mkLoad (ld_block (pa_load st)) (ld_row (pa_load st)) (ld_eof (pa_load st)) s0).
  destruct (load_loop_ok (ref_partition r) all (S (Z.to_nat build_chunk_rows)) bf views o left l0 [])
    as (bf' & l & o' & left' & -> & Hf' & Hleft' & Hl' & Heof' & Hrest' & Hs' & _ & Hd'); try done; try (cbn; lia).
  { constructor; [apply Hl|apply Hl|done]. }
  rewrite bind_Ok. cbn beta iota. change (load_rest l0 left) with rest in *. cbn [app] in Hs'.
  change (zlength []) with 0 in *. rewrite Z.sub_0_r in *.
  pose proof (sw_nrows _ _ (proj1 Hs')) as Hn. rewrite Hn. destruct (decide (rest = [])) as [E|Hne].
  - rewrite E, take_nil in *. cbn [length Z.of_nat Z.eqb]. exists bf', o', left', l, false, false. split; [done|]. split; [done|].
    split; try done. by rewrite Hrest', drop_nil.
  - assert (Hlen : zlength (take (Z.to_nat build_chunk_rows) rest) ≠ 0).
    { destruct rest; [done|]. rewrite length_take. cbn. lia. }
    destruct (Z.eqb_spec (zlength (take (Z.to_nat build_chunk_rows) rest)) 0); [done|].
    assert (Hn0 : bs_ncolumns (ld_store l) = ninner) by apply Hl'.
    destruct (finish_table_ok (ld_store l) (take (Z.to_nat build_chunk_rows) rest) keys) as (s' & -> & Hcols' & Htable).
    + apply Hs'.
    + by rewrite Hn0.
    + by apply Forall_take.
    + by rewrite Hd'.
    + rewrite bind_Ok. eexists bf', o', left', _, _, true. split; [done|]. split; [done|]. split; cbn [ld_eof ld_store]; try done.
      * destruct Hl'. constructor; cbn; [done|done|congruence].
      * by rewrite bool_decide_eq_false_2.
      * intros [He%negb_false_iff _]%orb_false_iff. by apply Heof'.
Qed.
End chunk.
