(* ===== verification/JoinPairs.v ===== *)
(** * The spilling hash join: pairs of rows with equal hashes

    What the pass over the partitions has to present: a job is a list of build
    rows to be met by a list of probe rows. *)

From S2P Require Import Prelude Words Bytes Selection Vector Kernels Int4 Hash Spill SpillBlocks SpillSet SpillRun JoinStore JoinStoreProps JoinBuild JoinProbe JoinSpill JoinSpillProps JoinPass JoinFiles.

Definition job : Type := list sql_row * list sql_row.

Definition row_partners (R : list sql_row) (b : sql_row) : list (sql_row * sql_row) := (b,.) <$> filter (λ r, r.1 = b.1) R.
Definition hash_pairs (j : job) : list (sql_row * sql_row) := j.1 ≫= row_partners j.2.
Definition jobs_pairs (jobs : list job) : list (sql_row * sql_row) := jobs ≫= hash_pairs.
Definition jobs_work (jobs : list job) : nat := sum_list_with (λ j : job, length j.1 * length j.2)%nat jobs.

Lemma eq_perm {A} (l l' : list A) : l = l' → l ≡ₚ l'.
Proof. by intros ->. Qed.

Lemma filter_bind {A B} (P : B → Prop) `{∀ x, Decision (P x)} (f : A → list B) l :
  filter P (l ≫= f) = l ≫= λ x, filter P (f x).
Proof. induction l as [|x l IH]; [done|]. by rewrite !bind_cons, filter_app, IH. Qed.

Lemma filter_of_fmap {A B} (f : A → B) (P : B → Prop) `{∀ x, Decision (P x)} (l : list A) : filter P (f <$> l) = f <$> filter (λ x, P (f x)) l.
Proof. induction l as [|x l IH]; [done|]. rewrite fmap_cons, !filter_cons, IH. by case_decide. Qed.

Lemma join_fmap_bind {A B} (f : A → list B) (l : list A) : mjoin (f <$> l) = l ≫= f.
Proof. induction l as [|x l IH]; [done|]. rewrite fmap_cons, bind_cons, <- IH. done. Qed.

Lemma fmap_bind {A B C} (g : B → C) (f : A → list B) l : g <$> (l ≫= f) = l ≫= λ x, g <$> f x.
Proof. induction l as [|x l IH]; [done|]. by rewrite !bind_cons, fmap_app, IH. Qed.

Lemma bind_perm_ext {A B} (f g : A → list B) l : (∀ x, x ∈ l → f x ≡ₚ g x) → (l ≫= f) ≡ₚ (l ≫= g).
Proof.
  induction l as [|x l IH]; intros E; [done|]. rewrite !bind_cons, (E x), IH by set_solver. done.
Qed.

Lemma bind_perm_app {A B} (f g : A → list B) l : (l ≫= λ x, f x ++ g x) ≡ₚ (l ≫= f) ++ (l ≫= g).
Proof.
  induction l as [|x l IH]; [done|]. rewrite !bind_cons, IH, <- !app_assoc. f_equiv. rewrite !app_assoc. f_equiv. apply Permutation_app_comm.
Qed.

Lemma hash_pairs_app_l B B' R : hash_pairs (B ++ B', R) = hash_pairs (B, R) ++ hash_pairs (B', R).
Proof. apply bind_app. Qed.

Lemma hash_pairs_app_r B R R' : hash_pairs (B, R ++ R') ≡ₚ hash_pairs (B, R) ++ hash_pairs (B, R').
Proof.
  unfold hash_pairs. cbn [fst snd]. rewrite <- bind_perm_app. apply eq_perm. apply list_bind_ext; [|done]. intros b.
  unfold row_partners. by rewrite filter_app, fmap_app.
Qed.

Lemma hash_pairs_nil_l R : hash_pairs ([], R) = [].
Proof. done. Qed.

Lemma hash_pairs_nil_r B : hash_pairs (B, []) = [].
Proof. unfold hash_pairs. cbn. induction B as [|b B IH]; [done|]. by rewrite bind_cons, IH. Qed.

Lemma jobs_pairs_cons j jobs : jobs_pairs (j :: jobs) = hash_pairs j ++ jobs_pairs jobs.
Proof. done. Qed.

Lemma jobs_pairs_app jobs jobs' : jobs_pairs (jobs ++ jobs') = jobs_pairs jobs ++ jobs_pairs jobs'.
Proof. apply bind_app. Qed.

Lemma jobs_work_cons B R jobs : jobs_work ((B, R) :: jobs) = (length B * length R + jobs_work jobs)%nat.
Proof. done. Qed.

Lemma jobs_work_app jobs jobs' : jobs_work (jobs ++ jobs') = (jobs_work jobs + jobs_work jobs')%nat.
Proof. unfold jobs_work. apply sum_list_with_app. Qed.

Lemma bind_single {A} (l : list Z) (q : Z) (x : list A) :
  NoDup l → q ∈ l → (l ≫= λ p, if decide (q = p) then x else []) = x.
Proof.
  induction l as [|p l IH]; intros Hnd Hin; [by apply not_elem_of_nil in Hin|]. apply NoDup_cons in Hnd as [Hp Hnd]. rewrite bind_cons.
  case_decide as E.
  - subst p. assert ((l ≫= λ p, if decide (q = p) then x else []) = []) as ->; [|apply app_nil_r].
    clear IH Hin. induction l as [|p l IH]; [done|]. rewrite not_elem_of_cons in Hp. apply NoDup_cons in Hnd as [_ Hnd].
    rewrite bind_cons, decide_False by tauto. apply IH; [tauto|done].
  - apply elem_of_cons in Hin as [?|Hin]; [done|]. by apply IH.
Qed.

(** Splitting both sides by a function of the hash loses no pair. *)
Lemma hash_pairs_split (part : sql_row → Z) n B R :
  (∀ b r : sql_row, b.1 = r.1 → part b = part r) → Forall (λ b, 0 ≤ part b < n) B →
  hash_pairs (B, R) ≡ₚ jobs_pairs ((λ q, (filter (λ b, part b = q) B, filter (λ r, part r = q) R)) <$> seqZ 0 n).
Proof.
  intros Hpart HB. unfold jobs_pairs. rewrite list_fmap_bind. induction HB as [|b B Hb HB IH].
  - unfold hash_pairs at 1. cbn. induction (seqZ 0 n) as [|q l IHl]; [done|]. rewrite bind_cons. exact IHl.
  - change (hash_pairs (b :: B, R)) with (row_partners R b ++ hash_pairs (B, R)). rewrite IH.
    transitivity ((seqZ 0 n ≫= λ q, if decide (part b = q) then row_partners R b else []) ++
      (seqZ 0 n ≫= λ q, hash_pairs (filter (λ b, part b = q) B, filter (λ r, part r = q) R))).
    { rewrite bind_single; [done|apply NoDup_seqZ|apply elem_of_seqZ; lia]. }
    rewrite <- bind_perm_app. apply eq_perm, list_bind_ext; [|done]. intros q. unfold compose. rewrite filter_cons.
    case_decide as E; [|done]. change (hash_pairs (b :: filter (λ b, part b = q) B, filter (λ r, part r = q) R)) with
      (row_partners (filter (λ r, part r = q) R) b ++ hash_pairs (filter (λ b, part b = q) B, filter (λ r, part r = q) R)).
    f_equal. unfold row_partners. f_equal. symmetry. apply list_filter_filter_l. intros r Hr. rewrite <- E. symmetry. by apply Hpart.
Qed.

Lemma work_split (part : sql_row → Z) n B (R : list sql_row) :
  Forall (λ b, 0 ≤ part b < n) B → ∀ (R' : Z → list sql_row), (∀ q, (length (R' q) ≤ length R)%nat) →
  (jobs_work ((λ q, (filter (λ b, part b = q) B, R' q)) <$> seqZ 0 n) ≤ length B * length R)%nat.
Proof.
  intros HB R' HR. assert (Hle : ∀ l : list Z, (jobs_work ((λ q, (filter (λ b, part b = q) B, R' q)) <$> l) ≤
    length (mbind (λ q, filter (λ b, part b = q) B) l : list sql_row) * length R)%nat).
  { induction l as [|q l IH]; [done|]. rewrite fmap_cons, bind_cons, length_app. unfold jobs_work in *. cbn. specialize (HR q). nia. }
  etransitivity; [apply Hle|]. apply Nat.mul_le_mono_r. clear Hle. induction HB as [|b B Hb HB IH].
  - assert ((seqZ 0 n ≫= λ q, filter (λ b, part b = q) []) = []) as ->; [|done]. induction (seqZ 0 n) as [|q l IHl]; [done|]. by rewrite bind_cons.
  - assert ((seqZ 0 n ≫= λ q, filter (λ b, part b = q) (b :: B)) ≡ₚ b :: (seqZ 0 n ≫= λ q, filter (λ b, part b = q) B)) as ->; [|cbn; lia].
    transitivity ((seqZ 0 n ≫= λ q, if decide (part b = q) then [b] else []) ++ (seqZ 0 n ≫= λ q, filter (λ b, part b = q) B)).
    + rewrite <- bind_perm_app. apply eq_perm, list_bind_ext; [|done]. intros q. rewrite filter_cons. by case_decide.
    + rewrite bind_single; [done|apply NoDup_seqZ|apply elem_of_seqZ; lia].
Qed.

(** The pairs in the order of the probe rows. *)
Lemma hash_pairs_probe B R : hash_pairs (B, R) ≡ₚ R ≫= λ r, (λ b, (b, r)) <$> filter (λ b, r.1 = b.1) B.
Proof.
  induction B as [|b B IH].
  - rewrite hash_pairs_nil_l. induction R as [|r R IHR]; [done|]. by rewrite bind_cons.
  - change (hash_pairs (b :: B, R)) with (row_partners R b ++ hash_pairs (B, R)). rewrite IH.
    assert (row_partners R b = R ≫= λ r, if decide (r.1 = b.1) then [(b, r)] else []) as ->.
    { unfold row_partners. clear IH. induction R as [|r R IHR]; [done|]. rewrite filter_cons, bind_cons, <- IHR. by case_decide. }
    rewrite <- bind_perm_app. apply eq_perm, list_bind_ext; [|done]. intros r. rewrite filter_cons. by case_decide.
Qed.

(** ** Going on with other jobs *)

(** The jobs present the same pairs and are not more work. *)
Definition jobs_refine (jobs jobs' : list job) : Prop :=
  jobs_pairs jobs ≡ₚ jobs_pairs jobs' ∧ (jobs_work jobs' ≤ jobs_work jobs)%nat.

#[export] Instance jobs_refine_preorder : PreOrder jobs_refine.
Proof. split; [done|]. intros J1 J2 J3 [Hp Hw] [Hp' Hw']. split; [by transitivity (jobs_pairs J2)|lia]. Qed.

#[export] Instance jobs_app_refine : Proper (jobs_refine ==> jobs_refine ==> jobs_refine) (@app job).
Proof. intros J1 J1' [Hp Hw] J2 J2' [Hp' Hw']. split; [by rewrite !jobs_pairs_app, Hp, Hp'|rewrite !jobs_work_app; lia]. Qed.

Lemma refine_eq jobs jobs' : jobs = jobs' → jobs_refine jobs jobs'.
Proof. by intros ->. Qed.

Lemma refine_drop B R jobs : B = [] ∨ R = [] → jobs_refine ((B, R) :: jobs) jobs.
Proof.
  intros H. split; [|rewrite jobs_work_cons; lia]. rewrite jobs_pairs_cons. destruct H as [->| ->]; by rewrite ?hash_pairs_nil_l, ?hash_pairs_nil_r.
Qed.

(** Build rows can be taken in two goes, and so can probe rows. *)
Lemma refine_chunk B B' R jobs : jobs_refine ((B ++ B', R) :: jobs) ((B, R) :: (B', R) :: jobs).
Proof. split; [by rewrite !jobs_pairs_cons, hash_pairs_app_l, app_assoc|]. cbn. rewrite length_app. lia. Qed.

Lemma refine_split (part : sql_row → Z) n B R (R' : Z → list sql_row) jobs :
  (∀ b r : sql_row, b.1 = r.1 → part b = part r) → (∀ b, 0 ≤ part b < n) →
  (∀ q, 0 ≤ q < n → R' q = filter (λ r, part r = q) R ∨ filter (λ b, part b = q) B = [] ∧ R' q = []) →
  jobs_refine ((B, R) :: jobs) (((λ q, (filter (λ b, part b = q) B, R' q)) <$> seqZ 0 n) ++ jobs).
Proof.
  intros Hpart Hrange HR0. assert (HB : Forall (λ b, 0 ≤ part b < n) B) by (by apply Forall_true).
  set (R2 q := if decide (0 ≤ q < n) then R' q else []).
  assert (E : ((λ q, (filter (λ b, part b = q) B, R' q)) <$> seqZ 0 n) = (λ q, (filter (λ b, part b = q) B, R2 q)) <$> seqZ 0 n).
  { apply list_fmap_ext. intros i q [-> Hq]%lookup_seqZ. unfold R2. by rewrite decide_True by lia. }
  assert (HR : ∀ q, R2 q = filter (λ r, part r = q) R ∨ filter (λ b, part b = q) B = [] ∧ R2 q = []).
  { intros q. unfold R2. case_decide as Hq; [auto|]. right. split; [|done]. apply filter_none.
    intros b _ <-. by apply Hq. }
  rewrite E. clear E HR0. split.
  - rewrite jobs_pairs_cons, jobs_pairs_app. f_equiv. rewrite (hash_pairs_split part n B R Hpart HB). apply eq_perm.
    unfold jobs_pairs. rewrite !list_fmap_bind. apply list_bind_ext; [|done]. intros q. unfold compose.
    destruct (HR q) as [->|[-> ->]]; done.
  - rewrite jobs_work_app, jobs_work_cons. apply Nat.add_le_mono_r, work_split; [done|].
    intros q. destruct (HR q) as [->|[_ ->]]; [|cbn; lia]. apply length_filter.
Qed.
