(* ===== verification/JoinTurn.v ===== *)
(** * The spilling hash join: the state of the pass

    The invariant of the pass, what it still has to present, and the steps that
    start and finish a partition. *)

From S2P Require Import Prelude Words Bytes Selection Vector Kernels Int4 Hash Spill SpillBlocks SpillSet SpillRun SpillRead SpillLoop JoinStore JoinStoreProps JoinDirectory JoinBuild JoinBuildProps JoinProbe JoinSpill JoinSpillProps JoinPass JoinFiles JoinChunk JoinPairs.

Notation views := (list (option file_view)).

(** The rows of a file; a file that is missing has none. *)
Definition view_rows (v : option file_view) : list sql_row := match v with None => [] | Some v => concat (fv_all v) end.

(** The views of the initial files and of those of a split partition. *)
Record pass_views : Type := mkViews { pv_build : views; pv_probe : views; pv_split : option (views * views) }.

Definition views_of (vs : pass_views) (r : FileRef) : option (views * views) :=
  match r with InitialFiles _ => Some (pv_build vs, pv_probe vs) | SplitFiles _ => pv_split vs end.
Definition with_views (vs : pass_views) (r : FileRef) (v : views * views) : pass_views :=
  match r with
  | InitialFiles _ => mkViews v.1 v.2 (pv_split vs)
  | SplitFiles _ => mkViews (pv_build vs) (pv_probe vs) (Some v)
  end.

(** The jobs of the partitions after [current]. *)
Definition group_jobs (current : Z) (v : views * views) : list job :=
  zip_with (λ b p, (view_rows b, view_rows p)) (drop (Z.to_nat (current + 1)) v.1) (drop (Z.to_nat (current + 1)) v.2).

Lemma group_jobs_next current v b p :
  -1 ≤ current → v.1 !! Z.to_nat (current + 1) = Some b → v.2 !! Z.to_nat (current + 1) = Some p →
  group_jobs current v = (view_rows b, view_rows p) :: group_jobs (current + 1) v.
Proof.
  intros Hc Hb Hp. unfold group_jobs. rewrite (drop_S _ _ _ Hb), (drop_S _ _ _ Hp). cbn [zip_with].
  by replace (Z.to_nat (current + 1 + 1)) with (S (Z.to_nat (current + 1))) by lia.
Qed.

Lemma group_jobs_end current v : zlength v.1 ≤ current + 1 → group_jobs current v = [].
Proof. intros Hc. unfold group_jobs. by rewrite drop_ge by lia. Qed.

Lemma group_jobs_update current p v b' p' :
  0 ≤ p ≤ current → group_jobs current (<[Z.to_nat p := b']> v.1, <[Z.to_nat p := p']> v.2) = group_jobs current v.
Proof. intros Hp. unfold group_jobs. cbn [fst snd]. rewrite !drop_insert_lt by lia. done. Qed.

Section turn.
Context `{PgCore} `{LogicalTapes} `{!ReversibleHash}.
Context (keys : list (Z * Z)) (ninner nouter npartitions build_chunk_rows : Z).
Context (Hninner : 0 < ninner < 2 ^ 16) (Hchunk : 0 < build_chunk_rows).
Context (Hinner : Forall (λ c, 0 ≤ c < ninner) keys.*1).

(** Rows that can be joined. *)
Definition build_side (rows : list sql_row) : Prop := zlength rows ≤ max_build_rows ∧ Forall (keyed keys.*1) rows.
Definition probe_side (rows : list sql_row) : Prop := zlength rows < 2 ^ 64 ∧ Forall (keyed keys.*2) rows.

(** A pair of file arrays: those after [current] have not been touched. *)
Record group_ok (n current : Z) (fs : SpillFiles * SpillFiles) (v : views * views) : Prop := {
  gr_build : files_ok ninner n false fs.1 v.1;
  gr_probe : files_ok nouter n true fs.2 v.2;
  gr_current : -1 ≤ current;
  gr_fresh : ∀ p b, current < Z.of_nat p → v.1 !! p = Some b → fresh_view (view_rows b) b ∧ build_side (view_rows b);
  gr_fresh_probe : ∀ p r, current < Z.of_nat p → v.2 !! p = Some r → fresh_view (view_rows r) r ∧ probe_side (view_rows r);
}.

Record pass_ok (st : PassState) (vs : pass_views) : Prop := {
  pk_initial : group_ok npartitions (pa_current st) (pa_build st, pa_probe st) (pv_build vs, pv_probe vs);
  pk_split : match pa_repartition st, pv_split vs with
             | None, None => True
             | Some rp, Some v => group_ok (rp_npartitions rp) (rp_current rp) (rp_build rp, rp_probe rp) v ∧
                                  rp_current rp < rp_npartitions rp
             | _, _ => False
             end;
  pk_rows : zlength (pa_rows st) = npartitions;
  pk_counts : ∀ p v, pa_current st < Z.of_nat p → pv_build vs !! p = Some v → pa_rows st !! p = Some (zlength (view_rows v));
  pk_store : bs_ncolumns (ld_store (pa_load st)) = ninner;
}.

Definition pass_jobs (st : PassState) (vs : pass_views) : list job :=
  match pa_repartition st, pv_split vs with Some rp, Some v => group_jobs (rp_current rp) v | _, _ => [] end ++
  group_jobs (pa_current st) (pv_build vs, pv_probe vs).

Definition current_of (st : PassState) (r : FileRef) : option (Z * Z) :=
  match r with
  | InitialFiles _ => Some (npartitions, pa_current st)
  | SplitFiles _ => (λ rp, (rp_npartitions rp, rp_current rp)) <$> pa_repartition st
  end.

(** The group a reference points into. *)
Lemma group_of st vs r n current :
  pass_ok st vs → current_of st r = Some (n, current) →
  ∃ fs v, files_of st r = Ok fs ∧ views_of vs r = Some v ∧ group_ok n current fs v.
Proof using Type.
  intros [Hi Hs _ _ _] Hc. destruct r as [p|p]; cbn in *.
  - injection Hc as <- <-. by eexists _, _.
  - destruct (pa_repartition st) as [rp|], (pv_split vs) as [v|]; try done. injection Hc as <- <-. destruct Hs as [Hs _].
    by eexists _, _.
Qed.

(** Replacing the files and views at the current partition of a group. *)
Lemma pass_update st vs r n current bv pv bf pf b p :
  pass_ok st vs → current_of st r = Some (n, current) → 0 ≤ current → views_of vs r = Some (bv, pv) →
  files_ok ninner n false bf (<[Z.to_nat current := b]> bv) → files_ok nouter n true pf (<[Z.to_nat current := p]> pv) →
  let st' := with_files st r (bf, pf) in
  let vs' := with_views vs r (<[Z.to_nat current := b]> bv, <[Z.to_nat current := p]> pv) in
  pass_ok st' vs' ∧ pass_jobs st' vs' = pass_jobs st vs ∧ current_of st' r = current_of st r ∧ files_of st' r = Ok (bf, pf) ∧
  views_of vs' r = Some (<[Z.to_nat current := b]> bv, <[Z.to_nat current := p]> pv).
Proof using Type.
  intros [Hi Hs Hr Hcnt Hst] Hc Hpos Hv Hb Hp st' vs'.
  assert (Hgroup : ∀ fs, group_ok n current fs (bv, pv) →
    group_ok n current (bf, pf) (<[Z.to_nat current := b]> bv, <[Z.to_nat current := p]> pv)).
  { intros fs [_ _ Hcur Hf Hfp]. cbn [fst snd] in *. split; try done; cbn [fst snd]; intros q x Hq Hx;
      rewrite list_lookup_insert_ne in Hx by lia; eauto. }
  destruct r as [q|q]; cbn in *.
  - injection Hc as <- <-. injection Hv as <- <-. split; [|split; [|done]].
    + split; cbn; try done; [by eapply Hgroup|]. intros i v Hlt Hx. rewrite list_lookup_insert_ne in Hx by (destruct Hi; lia). eauto.
    + unfold pass_jobs. cbn. f_equal. apply (group_jobs_update (pa_current st) (pa_current st) (pv_build vs, pv_probe vs)); lia.
  - destruct (pa_repartition st) as [rp|] eqn:Er; [|done]. injection Hc as <- <-. destruct (pv_split vs) as [v|] eqn:Ev; [|done].
    injection Hv as ->. destruct Hs as [Hs Hlt]. split; [|split; [|split; [by rewrite ?Er|split; [by rewrite ?Er|done]]]].
    + split; cbn; rewrite ?Er; try done. cbn. split; [by eapply Hgroup|done].
    + unfold pass_jobs. cbn. rewrite Er, Ev. cbn. f_equal. apply (group_jobs_update (rp_current rp) (rp_current rp) (bv, pv)); lia.
Qed.

(** States that differ only in what the jobs do not depend on. *)
Lemma pass_same st st' vs :
  pa_build st' = pa_build st → pa_probe st' = pa_probe st → pa_rows st' = pa_rows st → pa_repartition st' = pa_repartition st →
  pa_current st' = pa_current st → bs_ncolumns (ld_store (pa_load st')) = ninner → pass_ok st vs →
  pass_ok st' vs ∧ pass_jobs st' vs = pass_jobs st vs.
Proof using Type.
  intros E1 E2 E3 E4 E5 E6 []. split; [|by unfold pass_jobs; rewrite E4, E5]. split; rewrite ?E1, ?E2, ?E3, ?E4, ?E5; done.
Qed.

(** ** The active partition *)

(** The files of the partition the group is at; some may be read. *)
Record opened (st : PassState) (vs : pass_views) (r : FileRef) (b p : file_view) : Prop := {
  od_active : pa_active st = Some r;
  od_current : ∃ n, current_of st r = Some (n, ref_partition r);
  od_position : 0 ≤ ref_partition r;
  od_views : ∃ bv pv, views_of vs r = Some (bv, pv) ∧ bv !! Z.to_nat (ref_partition r) = Some (Some b) ∧
    pv !! Z.to_nat (ref_partition r) = Some (Some p);
}.

(** The chunk [rows] is loaded, [rest] are the build rows after it. *)
Record joining (st : PassState) (vs : pass_views) (r : FileRef) (b p : file_view) (rows rest : list sql_row) : Prop := {
  jo_opened : opened st vs r b p;
  jo_rest : rest = load_rest (pa_load st) (fv_left b);
  jo_eof : ld_eof (pa_load st) = true → rest = [];
  jo_load : load_ok ninner (pa_load st);
  jo_build : Forall (λ l, l ≠ []) (fv_left b);
  jo_probe : fv_all p ≠ [] ∧ Forall (λ l, l ≠ []) (fv_all p) ∧ Forall (λ l, l ≠ []) (fv_left p);
  jo_side : build_side rest;
  jo_probe_side : probe_side (concat (fv_all p)) ∧ probe_side (concat (fv_left p));
  jo_more : pa_more st = false → rest = [];
  jo_table : join_table (ld_store (pa_load st)) keys rows;
  jo_some : rows ≠ [];
  jo_keyed : Forall (keyed keys.*1) rows;
}.

Definition active_jobs (p : file_view) (rows rest : list sql_row) : list job :=
  [(rows, concat (fv_left p)); (rest, concat (fv_all p))].

(** Loading the next chunk of an open partition. *)
Lemma next_chunk_ok st vs r b p :
  pass_ok st vs → opened st vs r b p → load_ok ninner (pa_load st) → Forall (λ l, l ≠ []) (fv_left b) →
  let rest := load_rest (pa_load st) (fv_left b) in
  (ld_eof (pa_load st) = true → rest = []) → build_side rest →
  ∃ st' vs' b' loaded, load_build_chunk keys.*1 ninner build_chunk_rows st = Ok (st', loaded) ∧
    pass_ok st' vs' ∧ pass_jobs st' vs' = pass_jobs st vs ∧ opened st' vs' r b' p ∧
    pa_partition_active st' = pa_partition_active st ∧
    chunk_loaded ninner build_chunk_rows keys rest (pa_load st') (fv_left b') (pa_more st') loaded.
Proof using All.
  intros Hok [Ha (n & Hcur) Hpos (bv & pv & Hv & Hb & Hp)] Hl Hleft rest Heof [Hmax Hkeyed].
  destruct (group_of st vs r n _ Hok Hcur) as ([bf pf] & v & Hfs & Hv' & Hg). rewrite Hv in Hv'. injection Hv' as <-.
  destruct b as [o all left]. cbn [fv_left] in *.
  destruct (load_chunk_ok ninner n false build_chunk_rows ltac:(lia) Hchunk keys Hinner st r bf pf bv o all left)
    as (bf' & o' & left' & l & more & loaded & -> & Hbf' & Hcl); try done; [apply Hg|].
  assert (Hpf : files_ok nouter n true pf (<[Z.to_nat (ref_partition r) := Some p]> pv)).
  { rewrite list_insert_id by done. apply Hg. }
  destruct (pass_update st vs r n _ bv pv bf' pf _ _ Hok Hcur Hpos Hv Hbf' Hpf) as (Hok' & Hjobs & Hcur' & Hfs' & Hv').
  set (st1 := with_files st r (bf', pf)) in *. set (vs1 := with_views _ _ _) in *.
  exists (set_load st1 l more), vs1, (mkView o' all left'), loaded. split; [done|].
  destruct (pass_same st1 (set_load st1 l more) vs1) as [Hok2 Hjobs2]; try done; [apply Hcl|].
  split; [done|]. split; [congruence|]. split; [|split; [by destruct r|done]].
  assert (Hact : pa_active (set_load st1 l more) = Some r) by (unfold st1; by destruct r).
  assert (Hcur2 : current_of (set_load st1 l more) r = current_of st1 r) by by destruct r.
  split; try done.
  - exists n. congruence.
  - eexists _, _. split; [exact Hv'|]. rewrite !list_lookup_insert_eq by (by eapply lookup_lt_Some). done.
Qed.

(** The probe file of an open partition, and what becomes of the pass when it
    is read. *)
Lemma probe_files_ok st vs r b p :
  pass_ok st vs → opened st vs r b p →
  ∃ fs n pv, files_of st r = Ok fs ∧ 0 ≤ ref_partition r ∧ files_ok nouter n true fs.2 pv ∧
    pv !! Z.to_nat (ref_partition r) = Some (Some p) ∧
    ∀ pf p', files_ok nouter n true pf (<[Z.to_nat (ref_partition r) := Some p']> pv) →
      ∃ vs', pass_ok (with_files st r (fs.1, pf)) vs' ∧ pass_jobs (with_files st r (fs.1, pf)) vs' = pass_jobs st vs ∧
        opened (with_files st r (fs.1, pf)) vs' r b p'.
Proof using Type.
  intros Hok [Ha (n & Hcur) Hpos (bv & pv & Hv & Hb & Hp)].
  destruct (group_of st vs r n _ Hok Hcur) as ([bf pf0] & v & Hfs & Hv' & Hg). rewrite Hv in Hv'. injection Hv' as <-.
  exists (bf, pf0), n, pv. split; [done|]. split; [done|]. split; [apply Hg|]. split; [done|]. intros pf p' Hpf'. cbn [fst].
  assert (Hbf : files_ok ninner n false bf (<[Z.to_nat (ref_partition r) := Some b]> bv)).
  { rewrite list_insert_id by done. apply Hg. }
  destruct (pass_update st vs r n _ bv pv bf pf _ _ Hok Hcur Hpos Hv Hbf Hpf') as (Hok' & Hjobs & Hcur' & Hfs' & Hv').
  eexists; split; [exact Hok'|]. split; [done|]. split.
  - by destruct r.
  - exists n. congruence.
  - done.
  - eexists _, _. split; [exact Hv'|]. rewrite !list_lookup_insert_eq by (by eapply lookup_lt_Some). done.
Qed.

Lemma rewind_probe_ok st vs r b p :
  pass_ok st vs → opened st vs r b p →
  ∃ fs pf, files_of st r = Ok fs ∧ rewind_spill_file fs.2 (ref_partition r) = Ok pf ∧
    let st' := with_files st r (fs.1, pf) in
    let p' := mkView (fv_open p) (fv_all p) (fv_all p) in
    ∃ vs', pass_ok st' vs' ∧ pass_jobs st' vs' = pass_jobs st vs ∧ opened st' vs' r b p'.
Proof using Type.
  intros Hok Ho. destruct (probe_files_ok st vs r b p Hok Ho) as (fs & n & pv & Hfs & Hpos & Hf & Hp & Hupd).
  destruct (rewind_file_ok nouter n true _ pv (ref_partition r) p Hf Hpos Hp) as (pf' & Er & Hpf'); [by left|].
  exists fs, pf'. split; [done|]. split; [done|]. by apply Hupd.
Qed.

Lemma cleared_block_rows b : block_sql_rows (clear_block b) = [].
Proof using Type. done. Qed.

Lemma opened_active st vs r b p a : opened st vs r b p → opened (set_partition_active st a) vs r b p.
Proof using Type. intros [? [m Hm] ? ?]. split; try done. exists m. by destruct r. Qed.

(** A loaded chunk is a table to join with. *)
Lemma loaded_joining st vs r b p B :
  opened st vs r b p → B ≠ [] → build_side B → fv_all p ≠ [] → Forall (λ l, l ≠ []) (fv_all p) → fv_left p = fv_all p →
  probe_side (concat (fv_all p)) → chunk_loaded ninner build_chunk_rows keys B (pa_load st) (fv_left b) (pa_more st) true →
  joining st vs r b p (take (Z.to_nat build_chunk_rows) B) (drop (Z.to_nat build_chunk_rows) B).
Proof using Hchunk.
  intros Ho Hne [Hmax Hk] Hall Hp Hl Hps []. split; rewrite ?Hl; try done.
  - by rewrite <- cl_rest.
  - split; [rewrite length_drop; lia|by apply Forall_drop].
  - by rewrite <- cl_rest.
  - by apply cl_table.
  - destruct B; [done|]. destruct (Z.to_nat build_chunk_rows) eqn:E; [lia|done].
  - by apply Forall_take.
Qed.

(** Starting a partition whose files nobody has read: the first chunk and all
    probe rows, then the other chunks. *)
Lemma start_partition_ok st vs r n shift bv pv vb vp :
  pass_ok st vs → current_of st r = Some (n, ref_partition r) → 0 ≤ ref_partition r → views_of vs r = Some (bv, pv) →
  bv !! Z.to_nat (ref_partition r) = Some (Some vb) → pv !! Z.to_nat (ref_partition r) = Some (Some vp) →
  let B := view_rows (Some vb) in let R := view_rows (Some vp) in
  fresh_view B (Some vb) → build_side B → fresh_view R (Some vp) → probe_side R →
  ∃ st' vs' b' p' rows rest, start_partition_files keys.*1 ninner build_chunk_rows st r shift = Ok (st', true) ∧
    pass_ok st' vs' ∧ pass_jobs st' vs' = pass_jobs st vs ∧ joining st' vs' r b' p' rows rest ∧
    pa_partition_active st' = true ∧ rows ++ rest = B ∧ fv_left p' = fv_all p' ∧ concat (fv_all p') = R.
Proof using All.
  intros Hok Hcur Hpos Hv Hb Hp B R (Hbo & Hbl & Hbne & Hbf & _) HB (Hpo & Hpl & Hpne & Hpf & _) HR.
  unfold start_partition_files. set (st0 := set_active_files st (Some r) shift).
  destruct (pass_same st st0 vs) as [Hok0 Hjobs0]; try done; [apply Hok|].
  assert (Hcur0 : current_of st0 r = Some (n, ref_partition r)) by by destruct r.
  destruct (group_of st0 vs r n _ Hok0 Hcur0) as ([bf pf] & v & Hfs & Hv' & Hg). rewrite Hv in Hv'. injection Hv' as <-.
  rewrite Hfs, bind_Ok. cbn [fst snd].
  destruct (rewind_file_ok ninner n false bf bv (ref_partition r) vb) as (bf' & -> & Hbf'); [apply Hg|done|done|by right|]. rewrite bind_Ok.
  assert (Hpf' : files_ok nouter n true pf (<[Z.to_nat (ref_partition r) := Some vp]> pv)).
  { rewrite list_insert_id by done. apply Hg. }
  destruct (pass_update st0 vs r n _ bv pv bf' pf _ _ Hok0 Hcur0 Hpos Hv Hbf' Hpf') as (Hok1 & Hjobs1 & Hcur1 & Hfs1 & Hv1).
  set (vb1 := mkView (fv_open vb) (fv_all vb) (rewound false vb)) in *.
  set (st1 := with_files st0 r (bf', pf)) in *. set (vs1 := with_views vs r _) in *.
  assert (Hst1 : pa_load st1 = pa_load st ∧ pa_active st1 = Some r ∧ pa_more st1 = pa_more st) by by destruct r.
  set (l2 := mkLoad (clear_block (ld_block (pa_load st1))) 0 false (ld_store (pa_load st1))).
  set (st2 := set_load st1 l2 (pa_more st1)).
  destruct (pass_same st1 st2 vs1) as [Hok2 Hjobs2]; try done; [cbn; rewrite (proj1 Hst1); apply Hok|].
  assert (Hrest2 : load_rest (pa_load st2) (fv_left vb1) = B).
  { unfold load_rest. cbn [pa_load st2 set_load l2 ld_row ld_block]. rewrite cleared_block_rows. unfold B. cbn. by rewrite Hbl. }
  assert (Hopen2 : opened st2 vs1 r vb1 vp).
  { split; try done; [apply Hst1|exists n; transitivity (current_of st1 r); [by destruct r|congruence]|].
    eexists _, _. split; [exact Hv1|]. rewrite !list_lookup_insert_eq by (by eapply lookup_lt_Some). done. }
  assert (Hload2 : load_ok ninner (pa_load st2)).
  { constructor; cbn; [by left|done|rewrite (proj1 Hst1); apply Hok]. }
  destruct (next_chunk_ok st2 vs1 r vb1 vp Hok2 Hopen2 Hload2) as (st3 & vs3 & b3 & loaded & E3 & Hok3 & Hjobs3 & Hopen3 & Hact3 & Hcl).
  { cbn. by rewrite Hbl. } { done. } { by rewrite Hrest2. }
  rewrite E3, bind_Ok. cbn beta iota. rewrite Hrest2 in Hcl. clear E3.
  assert (HBne : B ≠ []).
  { unfold B. cbn. destruct (fv_all vb) as [|l ls]; [done|]. apply Forall_cons in Hbf as [Hl _]. cbn. by destruct l. }
  assert (loaded = true) as -> by by rewrite (cl_loaded _ _ _ _ _ _ _ _ Hcl), bool_decide_eq_false_2. cbn [negb].
  destruct (rewind_probe_ok st3 vs3 r b3 vp Hok3 Hopen3) as (fs & pf3 & -> & Hrw & vs4 & Hok4 & Hjobs4 & Hopen4).
  rewrite bind_Ok, Hrw, bind_Ok. set (st4 := with_files st3 r (fs.1, pf3)) in *.
  assert (Hst4 : pa_load st4 = pa_load st3 ∧ pa_more st4 = pa_more st3) by by destruct r.
  destruct (pass_same st4 (set_partition_active st4 true) vs4) as [Hok5 Hjobs5]; try done; [cbn; apply Hok4|].
  exists (set_partition_active st4 true), vs4, b3, (mkView (fv_open vp) (fv_all vp) (fv_all vp)).
  exists (take (Z.to_nat build_chunk_rows) B), (drop (Z.to_nat build_chunk_rows) B). split; [done|]. split; [done|].
  split; [congruence|]. split; [|split; [done|split; [apply take_drop|split; [done|done]]]].
  eapply loaded_joining; cbn [pa_load pa_more set_partition_active]; rewrite ?(proj1 Hst4), ?(proj2 Hst4); try done.
  by apply opened_active.
Qed.
End turn.

(** * Closing and splitting partitions *)

(** ** Sets that are written *)

Section written.
Context `{PgCore} `{LogicalTapes}.


(** What a set that is being written starts with. *)
Lemma target_create nc n limit :
  0 < nc < 2 ^ 16 → 0 < n →
  ∃ s, pg_batch_spill_create (spill_tuple_desc nc) nc n limit = Ok s ∧
    target_ok nc n (mkFiles s (no_files n)) (replicate (Z.to_nat n) []).
Proof.
  intros Hnc Hn. destruct (create_ok (spill_tuple_desc nc) nc n limit) as (s & -> & Ho & Hc & Hp & _); [apply spill_desc_ok; lia|].
  exists s. split; [done|]. split; cbn [sf_set sf_files]; rewrite ?length_replicate; try (done || lia).
  - exists (replicate (Z.to_nat n) []). split; [done|]. change (map (map logical)) with (fmap (M := list) (map logical)).
    by rewrite fmap_replicate.
  - unfold no_files. split; [by rewrite !length_replicate|]. intros p r f [-> _]%lookup_replicate [-> _]%lookup_replicate. done.
Qed.

Lemma route_fresh sel rows n :
  route_rows sel rows (replicate (Z.to_nat n) []) = (λ q, filter (λ r, sel r = Some q) rows) <$> seqZ 0 n.
Proof.
  apply list_eq. intros q. unfold route_rows. rewrite list_lookup_imap, list_lookup_fmap. destruct (decide (Z.of_nat q < n)).
  - rewrite lookup_replicate_2, lookup_seqZ_lt by lia. cbn. by rewrite Z.add_0_l.
  - rewrite lookup_seqZ_ge by lia. by rewrite (lookup_ge_None_2 (replicate _ _)) by (rewrite length_replicate; lia).
Qed.

Lemma fresh_view_rows rows v : fresh_view rows v → view_rows v = rows.
Proof. destruct v as [v|]; cbn; [by intros (_ & _ & _ & _ & ?)|done]. Qed.

(** Finishing a set that was written. *)
Lemma target_finish nc n fs rows fro :
  target_ok nc n fs rows → Forall (λ l, zlength l < 2 ^ 64) rows →
  ∃ s views, pg_batch_spill_finish (sf_set fs) fro = Ok s ∧ files_ok nc n fro (mkFiles s (sf_files fs)) views ∧
    Forall2 fresh_view rows views.
Proof.
  intros [(parts & Ho & Hparts) Hnc Hnp Hrows Hfiles] Hlen. rewrite <- Hparts in *.
  destruct (finish_files fs parts fro) as (s & Hs & views & Hok & Hv); [done| |done|].
  { apply Forall_map in Hlen. eapply Forall_impl; [exact Hlen|]. intros l. unfold compose. by rewrite length_map. }
  rewrite Hnc, Hnp in Hok. by exists s, views.
Qed.

Lemma fresh_group rows1 rows2 v1 v2 :
  Forall2 fresh_view rows1 v1 → Forall2 fresh_view rows2 v2 → group_jobs (-1) (v1, v2) = zip rows1 rows2.
Proof.
  intros H1 H2. unfold group_jobs. cbn [fst snd]. change (Z.to_nat (-1 + 1)) with 0%nat. rewrite !drop_0.
  revert rows2 v2 H2. induction H1 as [|r1 x1 rows1 v1 Hx1 _ IH]; intros rows2 v2 H2; [done|].
  destruct H2 as [|r2 x2 rows2 v2 Hx2 H2]; [done|]. cbn [zip_with]. rewrite (IH rows2 v2 H2).
  by rewrite (fresh_view_rows _ _ Hx1), (fresh_view_rows _ _ Hx2).
Qed.
End written.

Section steps.
Context `{PgCore} `{LogicalTapes} `{!ReversibleHash}.
Context (keys : list (Z * Z)) (ninner nouter memory_limit npartitions partition_shift build_chunk_rows : Z).
Context (Hninner : 0 < ninner < 2 ^ 16) (Hnouter : 0 < nouter < 2 ^ 16) (Hchunk : 0 < build_chunk_rows).
Context (Hinner : Forall (λ c, 0 ≤ c < ninner) keys.*1).

Abbreviation pass_ok := (pass_ok keys ninner nouter npartitions).
Abbreviation group_ok := (group_ok keys ninner nouter).
Abbreviation opened := (opened npartitions).

(** No file is active, or those of the partition the pass is at. *)
Definition closable (st : PassState) (vs : pass_views) : Prop :=
  pa_active st = None ∨ ∃ r b p, opened st vs r b p.

Lemma finish_active_ok st vs :
  pass_ok st vs → closable st vs →
  ∃ st' vs', finish_active_partition st = Ok st' ∧ pass_ok st' vs' ∧ pass_jobs st' vs' = pass_jobs st vs ∧ pa_active st' = None ∧
    pa_current st' = pa_current st.
Proof using Type.
  intros Hok Hc. unfold finish_active_partition. destruct Hc as [E|(r & b & p & [Ea (n & Hcur) Hpos (bv & pv & Hv & Hb & Hp)])].
  { rewrite E. by exists st, vs. }
  rewrite Ea. destruct (group_of keys ninner nouter npartitions st vs r n _ Hok Hcur) as ([bf pf] & v & -> & Hv' & Hg). rewrite Hv in Hv'. injection Hv' as <-.
  pose proof Hg as [Hgb Hgp _ _ _]. rewrite bind_Ok. cbn [fst snd] in *. destruct (close_file_ok _ _ _ _ _ _ _ Hgb Hpos Hb) as (bf' & -> & Hbf').
  rewrite bind_Ok. destruct (close_file_ok _ _ _ _ _ _ _ Hgp Hpos Hp) as (pf' & -> & Hpf'). rewrite bind_Ok.
  destruct (pass_update keys ninner nouter npartitions st vs r n _ bv pv bf' pf' _ _ Hok Hcur Hpos Hv Hbf' Hpf') as (Hok1 & Hjobs1 & _).
  set (st1 := with_files st r (bf', pf')) in *. set (vs1 := with_views _ _ _) in *.
  destruct (pass_same keys ninner nouter npartitions st1 (set_active_files st1 None (pa_shift st)) vs1) as [Hok2 Hjobs2]; try done; [apply Hok1|].
  eexists _, vs1. split; [done|]. split; [done|]. split; [congruence|]. split; [done|]. by destruct r.
Qed.

(** Dropping the files of the current partition of a group. *)
Lemma finish_repartition_ok rp v :
  group_ok (rp_npartitions rp) (rp_current rp) (rp_build rp, rp_probe rp) v → rp_current rp < rp_npartitions rp →
  ∃ rp' v', finish_repartition rp = Ok rp' ∧ rp_npartitions rp' = rp_npartitions rp ∧ rp_current rp' = rp_current rp ∧
    group_ok (rp_npartitions rp') (rp_current rp') (rp_build rp', rp_probe rp') v' ∧
    group_jobs (rp_current rp') v' = group_jobs (rp_current rp) v.
Proof using Type.
  intros Hg Hlt. unfold finish_repartition. destruct (Z.leb_spec 0 (rp_current rp)) as [Hpos|]; [|by exists rp, v].
  pose proof Hg as [Hb Hp Hc Hf Hfp]. cbn [fst snd] in *.
  destruct (remove_file_ok _ _ _ _ _ (rp_current rp) Hb) as (bf & -> & Hbf); [lia|]. rewrite bind_Ok.
  destruct (remove_file_ok _ _ _ _ _ (rp_current rp) Hp) as (pf & -> & Hpf); [lia|]. rewrite bind_Ok.
  eexists _, (<[Z.to_nat (rp_current rp) := None]> v.1, <[Z.to_nat (rp_current rp) := None]> v.2). split; [done|].
  cbn [split_with rp_npartitions rp_current rp_build rp_probe fst snd]. split; [done|]. split; [done|]. split.
  - split; cbn [fst snd]; try done; intros q x Hq Hx; rewrite list_lookup_insert_ne in Hx by lia; eauto.
  - by apply group_jobs_update.
Qed.


(** ** Splitting a partition *)

Lemma fresh_group_ok n f1 f2 v1 v2 rows1 rows2 :
  files_ok ninner n false f1 v1 → files_ok nouter n true f2 v2 → Forall2 fresh_view rows1 v1 → Forall2 fresh_view rows2 v2 →
  Forall (build_side keys) rows1 → Forall (probe_side keys) rows2 → group_ok n (-1) (f1, f2) (v1, v2).
Proof using Type.
  intros Hf1 Hf2 Hv1 Hv2 Hs1 Hs2. split; cbn [fst snd]; try done; intros p b _ Hb.
  - destruct (Forall2_lookup_r _ _ _ _ _ Hv1 Hb) as (x & Hx & Hf). rewrite (fresh_view_rows _ _ Hf). split; [done|]. by eapply Forall_lookup_1 in Hs1.
  - destruct (Forall2_lookup_r _ _ _ _ _ Hv2 Hb) as (x & Hx & Hf). rewrite (fresh_view_rows _ _ Hf). split; [done|]. by eapply Forall_lookup_1 in Hs2.
Qed.

Lemma keyed_u32 ks rows : Forall (keyed ks) rows → Forall (λ r : sql_row, is_u32 r.1) rows.
Proof using Type. intros Hk. eapply Forall_impl; [exact Hk|]. intros r (vs & _ & _ & ->). apply keys_hash_range. Qed.

Lemma sides_filter (Q P : sql_row → Prop) `{∀ x, Decision (P x)} rows : Forall Q rows → Forall Q (filter P rows).
Proof using Type. rewrite !Forall_forall. intros Hk r [_ Hr]%list_elem_of_filter. auto. Qed.

Lemma build_side_filter (P : sql_row → Prop) `{∀ x, Decision (P x)} rows : build_side keys rows → build_side keys (filter P rows).
Proof using Type. intros [Hl Hk]. split; [|by apply sides_filter]. pose proof (length_filter P rows). lia. Qed.

Lemma probe_side_filter (P : sql_row → Prop) `{∀ x, Decision (P x)} rows : probe_side keys rows → probe_side keys (filter P rows).
Proof using Type. intros [Hl Hk]. split; [|by apply sides_filter]. pose proof (length_filter P rows). lia. Qed.

(** Which rows of the probe side a split keeps. *)
Lemma matching_rows_kept shift n files B R q :
  files_written files ((λ q, filter (λ r, routed shift n None r = Some q) B) <$> seqZ 0 n) → 0 ≤ q < n →
  let kept := filter (λ r, routed shift n (Some files) r = Some q) R in
  kept = filter (λ r : sql_row, hash_partition shift n r.1 = q) R ∨
  filter (λ b : sql_row, hash_partition shift n b.1 = q) B = [] ∧ kept = [].
Proof using Type.
  intros [Hl Hf] Hq kept. rewrite length_fmap, length_seqZ in Hl.
  destruct (lookup_lt_is_Some_2 files (Z.to_nat q)) as [f Hfq]; [lia|].
  assert (HB : filter (λ r, routed shift n None r = Some q) B = filter (λ b : sql_row, hash_partition shift n b.1 = q) B).
  { apply list_filter_iff. intros r. cbn. split; congruence. }
  assert (Hfile : f = if decide (filter (λ b : sql_row, hash_partition shift n b.1 = q) B = []) then None else Some (mkFile q None)).
  { rewrite <- HB. pose proof (Hf (Z.to_nat q)) as Hfq'. rewrite list_lookup_fmap, lookup_seqZ_lt, Z2Nat.id in Hfq' by lia. by apply Hfq'. }
  case_decide as E.
  - right. split; [done|]. apply filter_none. intros r _. unfold routed. set (h := hash_partition shift n r.1).
    destruct (zget None files h) eqn:Eh; [|done]. intros [= Hh]. unfold zget in Eh. rewrite Hh, Hfq, Hfile in Eh. done.
  - left. apply list_filter_iff. intros r. unfold routed. set (h := hash_partition shift n r.1). split.
    + destruct (zget None files h); [by intros [= ->]|done].
    + intros ->. unfold zget. by rewrite Hfq, Hfile.
Qed.

(** The rows of a new partition. *)
Definition build_part (k : Z) (B : list sql_row) (q : Z) : list sql_row := filter (λ r, routed partition_shift (2 ^ k) None r = Some q) B.
Definition probe_part (k : Z) (files : list (option HashSpillFile)) (R : list sql_row) (q : Z) : list sql_row :=
  filter (λ r, routed partition_shift (2 ^ k) (Some files) r = Some q) R.

Lemma split_sides_ok k bset pset bf pf bv pv c vb vp :
  0 ≤ k → files_ok ninner npartitions false bf bv → files_ok nouter npartitions true pf pv → 0 ≤ c →
  bv !! Z.to_nat c = Some (Some vb) → pv !! Z.to_nat c = Some (Some vp) →
  let B := view_rows (Some vb) in let R := view_rows (Some vp) in
  fresh_view B (Some vb) → build_side keys B → fresh_view R (Some vp) → probe_side keys R →
  target_ok ninner (2 ^ k) bset (replicate (Z.to_nat (2 ^ k)) []) → target_ok nouter (2 ^ k) pset (replicate (Z.to_nat (2 ^ k)) []) →
  ∃ bf' bt counts pf' pt,
    repartition_file partition_shift (2 ^ k) ninner None bf c (bset, Some (replicate (Z.to_nat (2 ^ k)) 0)) = Ok (bf', (bt, counts)) ∧
    repartition_file partition_shift (2 ^ k) nouter (Some (sf_files bt)) pf c (pset, None) = Ok (pf', (pt, None)) ∧
    (∃ v, files_ok ninner npartitions false bf' (<[Z.to_nat c := v]> bv)) ∧ (∃ v, files_ok nouter npartitions true pf' (<[Z.to_nat c := v]> pv)) ∧
    target_ok ninner (2 ^ k) bt (build_part k B <$> seqZ 0 (2 ^ k)) ∧
    target_ok nouter (2 ^ k) pt (probe_part k (sf_files bt) R <$> seqZ 0 (2 ^ k)).
Proof using Type.
  intros Hk Hbf Hpf Hc Hb Hp B R (Hbo & Hbl & _) HB (Hpo & Hpl & _) HR Hbset Hpset.
  destruct (repartition_file_ok ninner partition_shift k None Hk I npartitions false bf bv c vb
    (bset, Some (replicate (Z.to_nat (2 ^ k)) 0)) (replicate (Z.to_nat (2 ^ k)) [])) as (bf' & [bt counts] & -> & Hbf' & Hbt & _);
    try done; [by eapply keyed_u32, HB|cbn; rewrite length_replicate; lia|].
  cbn [fst] in Hbt. rewrite route_fresh in Hbt.
  assert (Hfl : zlength (sf_files bt) = 2 ^ k) by (destruct Hbt as [_ _ _ Hl [-> _]]; exact Hl).
  destruct (repartition_file_ok nouter partition_shift k (Some (sf_files bt)) Hk Hfl npartitions true pf pv c vp
    (pset, None) (replicate (Z.to_nat (2 ^ k)) [])) as (pf' & [pt pcounts] & Ep & Hpf' & Hpt & _ & Hnone);
    try done; [by eapply keyed_u32, HR|].
  cbn [fst snd] in *. rewrite route_fresh in Hpt. assert (pcounts = None) as ->.
  { destruct pcounts as [pc|]; [|done]. destruct Hnone as [Hnone _]. by destruct Hnone. }
  exists bf', bt, counts, pf', pt. split_and!; try done; by eexists.
Qed.

(** The files of both sides, finished. *)
Lemma finish_sides_ok k bt pt B R :
  0 ≤ k → build_side keys B → probe_side keys R →
  target_ok ninner (2 ^ k) bt (build_part k B <$> seqZ 0 (2 ^ k)) →
  target_ok nouter (2 ^ k) pt (probe_part k (sf_files bt) R <$> seqZ 0 (2 ^ k)) →
  ∃ bs ps v, pg_batch_spill_finish (sf_set bt) false = Ok bs ∧ pg_batch_spill_finish (sf_set pt) true = Ok ps ∧
    group_ok (2 ^ k) (-1) (mkFiles bs (sf_files bt), mkFiles ps (sf_files pt)) v ∧
    ∀ jobs, jobs_refine ((B, R) :: jobs) (group_jobs (-1) v ++ jobs).
Proof using Type.
  intros Hk HB HR Hbt Hpt.
  destruct (target_finish _ _ _ _ false Hbt) as (bs & vB & Ebs & HfB & HvB).
  { apply Forall_fmap, Forall_true. intros q. pose proof (build_side_filter (λ r, routed partition_shift (2 ^ k) None r = Some q) B HB) as [Hm _].
    unfold compose, build_part. unfold max_build_rows in Hm. lia. }
  destruct (target_finish _ _ _ _ true Hpt) as (ps & vP & Eps & HfP & HvP).
  { apply Forall_fmap, Forall_true. intros q. apply (probe_side_filter (λ r, routed partition_shift (2 ^ k) (Some (sf_files bt)) r = Some q) R HR). }
  exists bs, ps, (vB, vP). split; [done|]. split; [done|]. split.
  - apply (fresh_group_ok _ _ _ _ _ _ _ HfB HfP HvB HvP); apply Forall_fmap, Forall_true; intros q; [by apply build_side_filter|by apply probe_side_filter].
  - intros jobs. rewrite (fresh_group _ _ _ _ HvB HvP), zip_with_fmap_l, zip_with_fmap_r, zip_with_diag.
    etransitivity; [apply (refine_split (λ r, hash_partition partition_shift (2 ^ k) r.1) (2 ^ k) B R (probe_part k (sf_files bt) R))|].
    + by intros b r ->.
    + intros b. by apply hash_partition_range.
    + intros q Hq. apply matching_rows_kept; [apply Hbt|done].
    + apply refine_eq. f_equal. apply list_fmap_ext. intros i q Hq. f_equal. apply list_filter_iff. intros r. cbn. split; congruence.
Qed.

Lemma repartition_current_ok st vs vb vp :
  pass_ok st vs → pa_repartition st = None → 0 ≤ pa_current st < npartitions →
  pv_build vs !! Z.to_nat (pa_current st) = Some (Some vb) → pv_probe vs !! Z.to_nat (pa_current st) = Some (Some vp) →
  let B := view_rows (Some vb) in let R := view_rows (Some vp) in
  pa_rows st !! Z.to_nat (pa_current st) = Some (zlength B) →
  fresh_view B (Some vb) → build_side keys B → fresh_view R (Some vp) → probe_side keys R →
  ∃ st' split, repartition_current_partition ninner nouter memory_limit partition_shift build_chunk_rows st = Ok (st', split) ∧
    if split then ∃ vs', pass_ok st' vs' ∧ is_Some (pa_repartition st') ∧ pa_current st' = pa_current st ∧ pa_active st' = pa_active st ∧
      jobs_refine ((B, R) :: pass_jobs st vs) (pass_jobs st' vs') else st' = st.
Proof using Hninner Hnouter Hchunk.
  intros Hok Er Hc Hb Hp B R Hrows HfB HB HfR HR. unfold repartition_current_partition. set (c := pa_current st) in *.
  rewrite (aref_lookup _ _ _ (proj1 Hc) Hrows), bind_Ok. destruct (Z.eqb_spec build_chunk_rows 0) as [|_]; [lia|]. rewrite bind_Ok. cbn zeta.
  set (required := u64_add _ _ / _). destruct (required <? _); [by exists st, false|].
  destruct (next_partition_count_ok required) as (k & -> & Hk). rewrite bind_Ok. assert (0 < 2 ^ k) by (apply Z.pow_pos_nonneg; lia).
  destruct (target_create ninner (2 ^ k) (memory_limit / 4)) as (bset & -> & Hbset); [done..|]. rewrite bind_Ok.
  destruct (target_create nouter (2 ^ k) (memory_limit / 4)) as (pset & -> & Hpset); [done..|]. rewrite bind_Ok.
  rewrite partition_bits_ok, bind_Ok by lia. pose proof Hok as [[Hbf Hpf Hcur Hfb Hfp] Hs Hrl Hcnt Hst]. cbn [fst snd] in *.
  destruct (split_sides_ok k _ _ _ _ _ _ c vb vp ltac:(lia) Hbf Hpf (proj1 Hc) Hb Hp HfB HB HfR HR Hbset Hpset)
    as (bf' & bt & counts & pf' & pt & -> & Ept & (bv' & Hbf') & (pv' & Hpf') & Hbt & Hpt). rewrite bind_Ok. cbn beta iota. rewrite Ept, bind_Ok. cbn beta iota.
  destruct (finish_sides_ok k bt pt B R ltac:(lia) HB HR Hbt Hpt) as (bs & ps & v & -> & Eps & Hg & Hjobs). rewrite bind_Ok, Eps, bind_Ok.
  destruct (remove_file_ok _ _ _ _ _ c Hbf' Hc) as (bf2 & -> & Hbf2). rewrite bind_Ok.
  destruct (remove_file_ok _ _ _ _ _ c Hpf' Hc) as (pf2 & -> & Hpf2). rewrite bind_Ok. rewrite list_insert_insert_eq in Hbf2, Hpf2.
  eexists _, true. split; [done|].
  exists (mkViews (<[Z.to_nat c := None]> (pv_build vs)) (<[Z.to_nat c := None]> (pv_probe vs)) (Some v)).
  split; [|split; [done|split; [done|split; [done|]]]].
  - split; cbn; try done.
    + split; cbn; try done; intros q x Hq Hx; rewrite list_lookup_insert_ne in Hx by lia; eauto.
    + split; [exact Hg|lia].
    + intros q x Hq Hx. rewrite list_lookup_insert_ne in Hx by lia. eauto.
  - unfold pass_jobs. cbn. rewrite Er. cbn [app]. rewrite (group_jobs_update c c (pv_build vs, pv_probe vs)) by lia. apply Hjobs.
Qed.
End steps.
