(* ===== verification/JoinFetch.v ===== *)
(** * The spilling hash join: fetching probe batches

    The loops that look for the next partition to join: they find one with its
    first chunk loaded, or there is nothing left to present.  Then: every fetch
    gives a block of probe rows and a table of build rows that have to meet, and
    what is left to present gets smaller. *)

From S2P Require Import Prelude Words Bytes Selection Vector Kernels Int4 Hash Spill SpillBlocks SpillSet SpillRun SpillRead SpillLoop JoinStore JoinStoreProps JoinDirectory JoinBuild JoinBuildProps JoinProbe JoinSpill JoinSpillProps JoinPass JoinFiles JoinChunk JoinPairs JoinTurn.

Section run.
Context `{PgCore} `{LogicalTapes} `{!ReversibleHash}.
Context (keys : list (Z * Z)) (ninner nouter npartitions build_chunk_rows : Z).
Context (Hninner : 0 < ninner < 2 ^ 16) (Hchunk : 0 < build_chunk_rows).
Context (Hinner : Forall (λ c, 0 ≤ c < ninner) keys.*1).

Abbreviation pass_ok := (pass_ok keys ninner nouter npartitions).
Abbreviation group_ok := (group_ok keys ninner nouter).
Abbreviation opened := (opened npartitions).
Abbreviation joining := (joining keys ninner npartitions).

(** ** One position *)

Lemma file_slot nc n fro fs views p :
  files_ok nc n fro fs views → 0 ≤ p < n →
  ∃ f v, aref (sf_files fs) p = Ok f ∧ views !! Z.to_nat p = Some v ∧ (is_Some f ↔ is_Some v).
Proof using Type.
  intros [(parts & Hs & Hst) _ _ _ Hl Hv] Hp. destruct (lookup_lt_is_Some_2 (sf_files fs) (Z.to_nat p)) as [f Hf]; [lia|].
  destruct (lookup_lt_is_Some_2 views (Z.to_nat p)) as [v Hpv]; [lia|]. exists f, v. rewrite (aref_lookup _ _ f) by (done || lia).
  split; [done|]. split; [done|]. specialize (Hst _ _ _ Hf Hpv). by destruct f, v; try done; split; intros [? ?].
Qed.

Lemma group_advance n c fs v : group_ok n c fs v → group_ok n (c + 1) fs v.
Proof using Type. intros [Hb Hp Hc Hf Hfp]. split; try done; [lia| |]; intros p x Hlt; [apply Hf|apply Hfp]; lia. Qed.

(** What is known of the next position of a group. *)
Lemma next_position n c fs v :
  group_ok n c fs v → c + 1 < n →
  ∃ fb fp b p, aref (sf_files fs.1) (c + 1) = Ok fb ∧ aref (sf_files fs.2) (c + 1) = Ok fp ∧
    v.1 !! Z.to_nat (c + 1) = Some b ∧ v.2 !! Z.to_nat (c + 1) = Some p ∧ (is_Some fb ↔ is_Some b) ∧ (is_Some fp ↔ is_Some p) ∧
    fresh_view (view_rows b) b ∧ build_side keys (view_rows b) ∧ fresh_view (view_rows p) p ∧ probe_side keys (view_rows p) ∧
    group_jobs c v = (view_rows b, view_rows p) :: group_jobs (c + 1) v.
Proof using Type.
  intros [Hb Hp Hc Hf Hfp] Hlt. destruct (file_slot _ _ _ _ _ (c + 1) Hb) as (fb & b & Eb & Hvb & Hib); [lia|].
  destruct (file_slot _ _ _ _ _ (c + 1) Hp) as (fp & p & Ep & Hvp & Hip); [lia|].
  destruct (Hf (Z.to_nat (c + 1)) b) as [Hfb Hsb]; [lia|done|]. destruct (Hfp (Z.to_nat (c + 1)) p) as [Hfpp Hsp]; [lia|done|].
  exists fb, fp, b, p. split_and!; try done. by apply group_jobs_next.
Qed.

(** ** Starting *)

(** A chunk is loaded and the probe file is at its start. *)
Definition started (st : PassState) (jobs : list job) : Prop :=
  ∃ vs r b p rows rest, pass_ok st vs ∧ joining st vs r b p rows rest ∧ pa_partition_active st = true ∧ fv_left p ≠ [] ∧
    jobs_refine jobs (active_jobs p rows rest ++ pass_jobs st vs).

Lemma started_refine st jobs jobs' : jobs_refine jobs jobs' → started st jobs' → started st jobs.
Proof using Type.
  intros Hr (vs & r & b & p & rows & rest & ? & ? & ? & ? & Hj). exists vs, r, b, p, rows, rest. split_and!; try done. by etransitivity.
Qed.

Lemma start_files_ok st vs r n shift bv pv vb vp :
  pass_ok st vs → current_of npartitions st r = Some (n, ref_partition r) → 0 ≤ ref_partition r → views_of vs r = Some (bv, pv) →
  bv !! Z.to_nat (ref_partition r) = Some (Some vb) → pv !! Z.to_nat (ref_partition r) = Some (Some vp) →
  let B := view_rows (Some vb) in let R := view_rows (Some vp) in
  fresh_view B (Some vb) → build_side keys B → fresh_view R (Some vp) → probe_side keys R →
  ∃ st', start_partition_files keys.*1 ninner build_chunk_rows st r shift = Ok (st', true) ∧ started st' ((B, R) :: pass_jobs st vs).
Proof using All.
  intros Hok Hcur Hpos Hv Hb Hp B R HfB HB HfR HR.
  destruct (start_partition_ok keys ninner nouter npartitions build_chunk_rows Hninner Hchunk Hinner st vs r n shift bv pv vb vp)
    as (st' & vs' & b' & p' & rows & rest & -> & Hok' & Hjobs & Hjoin & Hact & Hrows & Hleft & Hall); try done.
  exists st'. split; [done|]. exists vs', r, b', p', rows, rest. split_and!; try done.
  - rewrite Hleft. by destruct (jo_probe _ _ _ _ _ _ _ _ _ _ Hjoin).
  - unfold active_jobs, B, R. rewrite Hleft, Hall, Hjobs, <- Hrows. apply refine_chunk.
Qed.

(** ** The partitions of a split *)

(** Other files or another position for the split partition. *)
Lemma split_update st rp vs rp' v' :
  pass_ok (set_repartition st (Some rp)) vs →
  group_ok (rp_npartitions rp') (rp_current rp') (rp_build rp', rp_probe rp') v' → rp_current rp' < rp_npartitions rp' →
  pass_ok (set_repartition st (Some rp')) (mkViews (pv_build vs) (pv_probe vs) (Some v')).
Proof using Type. intros [Hi _ Hr Hcnt Hst] Hg Hlt. by split. Qed.

(** Nothing is left of the split partition. *)
Lemma split_end st rp vs :
  pass_ok (set_repartition st (Some rp)) vs → rp_npartitions rp ≤ rp_current rp + 1 →
  ∃ vs', pass_ok (set_repartition st None) vs' ∧ pass_jobs (set_repartition st (Some rp)) vs = pass_jobs (set_repartition st None) vs'.
Proof using Type.
  intros [Hi Hs Hr Hcnt Hst] Hend. cbn in *. exists (mkViews (pv_build vs) (pv_probe vs) None). split; [by split|].
  unfold pass_jobs. cbn. destruct (pv_split vs) as [v|]; [|done]. rewrite group_jobs_end; [done|].
  rewrite (fo_views _ _ _ _ _ (gr_build _ _ _ _ _ _ _ (proj1 Hs))). done.
Qed.

Lemma repartition_turns_ok fuel : ∀ st rp vs,
  pass_ok (set_repartition st (Some rp)) vs → (Z.to_nat (rp_npartitions rp - (rp_current rp + 1)) ≤ fuel)%nat →
  ∃ st' found, repartition_turns keys.*1 ninner build_chunk_rows fuel st rp = Ok (st', found) ∧
    if found then started st' (pass_jobs (set_repartition st (Some rp)) vs)
    else ∃ vs', pass_ok (set_repartition st' None) vs' ∧ pa_current st' = pa_current st ∧ pa_active st' = pa_active st ∧
      jobs_refine (pass_jobs (set_repartition st (Some rp)) vs) (pass_jobs (set_repartition st' None) vs').
Proof using All.
  induction fuel as [|fuel IH]; intros st rp vs Hok Hfuel; cbn [repartition_turns]; cbn [split_with rp_npartitions rp_build rp_probe fst snd].
  all: destruct (Z.leb_spec (rp_npartitions rp) (rp_current rp + 1)) as [Hend|Hmore]; [|try lia].
  1, 2: destruct (split_end _ _ _ Hok Hend) as (vs' & Hok' & Hj); eexists _, false; split; [done|];
    exists vs'; split_and!; try done; by apply refine_eq.
  pose proof Hok as [_ Hs _ _ _]. cbn in Hs. destruct (pv_split vs) as [v|] eqn:Ev; [|done]. destruct Hs as [Hg Hlt].
  destruct (next_position _ _ _ _ Hg Hmore) as (fb & fp & b & p & Eb & Ep & Hvb & Hvp & Hib & Hip & Hfb & Hsb & Hfp & Hsp & Hjobs).
  cbn [fst snd] in Eb, Ep. rewrite Eb, bind_Ok, Ep, bind_Ok. set (rp1 := split_with rp (rp_build rp, rp_probe rp) (rp_current rp + 1)).
  assert (Hg1 : group_ok (rp_npartitions rp1) (rp_current rp1) (rp_build rp1, rp_probe rp1) v) by by apply group_advance.
  assert (Hok1 : pass_ok (set_repartition st (Some rp1)) vs).
  { pose proof (split_update st rp vs rp1 v Hok Hg1 Hmore) as H2. rewrite <- Ev in H2. by destruct vs. }
  assert (Hpj : pass_jobs (set_repartition st (Some rp)) vs = (view_rows b, view_rows p) :: pass_jobs (set_repartition st (Some rp1)) vs).
  { unfold pass_jobs. cbn. by rewrite Ev, Hjobs. }
  change (mkRepartition _ _ _ _ _ _) with rp1. rewrite Hpj.
  destruct (decide (is_Some b ∧ is_Some p)) as [[[vb ->] [vp ->]]|Hnone].
  - destruct Hib as [_ [fb' ->]], Hip as [_ [fp' ->]]; [done..|].
    destruct v as [bv pv]. destruct (start_files_ok (set_repartition st (Some rp1)) vs (SplitFiles (rp_current rp + 1)) (rp_npartitions rp)
      (rp_hash_shift rp1) bv pv vb vp) as (st' & -> & Hst'); try done; [by destruct Hg; cbn in *; lia|]. by exists st', true.
  - match goal with |- ∃ _ _, ?turn = _ ∧ _ =>
      assert (turn = (rp ← finish_repartition rp1;
        repartition_turns keys.*1 ninner build_chunk_rows fuel (set_repartition st (Some rp1)) rp)) as -> end.
    { destruct fb, fp; try done. destruct Hnone. split; [by apply Hib|by apply Hip]. }
    destruct (finish_repartition_ok keys ninner nouter rp1 v Hg1 Hmore) as (rp2 & v2 & -> & En & Ec & Hg2 & Hj2).
    rewrite bind_Ok. destruct (IH (set_repartition st (Some rp1)) rp2 (mkViews (pv_build vs) (pv_probe vs) (Some v2))) as (st' & found & -> & Hst').
    { apply (split_update st rp1 vs); [done|done|rewrite En, Ec; done]. } { rewrite En, Ec. cbn. lia. }
    exists st', found. split; [done|].
    assert (Hr : jobs_refine ((view_rows b, view_rows p) :: pass_jobs (set_repartition st (Some rp1)) vs)
      (pass_jobs (set_repartition (set_repartition st (Some rp1)) (Some rp2)) (mkViews (pv_build vs) (pv_probe vs) (Some v2)))).
    { etransitivity; [apply refine_drop|apply refine_eq].
      - destruct b; [right|by left]. destruct p; [|done]. by destruct Hnone.
      - unfold pass_jobs. cbn. by rewrite Ev, Hj2. }
    destruct found; [by eapply started_refine|]. destruct Hst' as (vs' & ? & ? & ? & ?). exists vs'. split_and!; try done. by etransitivity.
Qed.

(** ** The initial partitions *)

Context (memory_limit partition_shift : Z) (Hnouter : 0 < nouter < 2 ^ 16).

Abbreviation turns := (partition_turns keys.*1 ninner nouter memory_limit npartitions partition_shift build_chunk_rows).

Lemma advance_current st vs : pass_ok st vs → pass_ok (set_current st (pa_current st + 1)) vs.
Proof using Type.
  intros [Hi Hs Hr Hcnt Hst]. split; try done; [by apply group_advance|]. cbn. intros p v Hp. apply Hcnt. lia.
Qed.

(** All partitions were joined, or one was split. *)
Definition left_over (st0 : PassState) (jobs : list job) (st : PassState) : Prop :=
  ∃ vs, pass_ok st vs ∧ pa_active st = pa_active st0 ∧ jobs_refine jobs (pass_jobs st vs) ∧
    match pa_repartition st with
    | Some _ => pa_current st0 < pa_current st < npartitions
    | None => pass_jobs st vs = []
    end.

Lemma turns_end st vs :
  pass_ok st vs → pa_repartition st = None → npartitions ≤ pa_current st + 1 →
  left_over st (pass_jobs st vs) (set_current st (pa_current st + 1)).
Proof using Type.
  intros Hok Er Hend. assert (Hj : ∀ c, pa_current st ≤ c → group_jobs c (pv_build vs, pv_probe vs) = []).
  { intros c Hc. apply group_jobs_end. pose proof Hok as [Hg _ _ _ _]. pose proof (fo_views _ _ _ _ _ (gr_build _ _ _ _ _ _ _ Hg)).
    cbn in *. lia. }
  exists vs. unfold pass_jobs. cbn. rewrite Er, !Hj by lia. split_and!; try done. by apply advance_current.
Qed.

Lemma partition_turns_ok fuel : ∀ st vs,
  pass_ok st vs → pa_repartition st = None → (Z.to_nat (npartitions - (pa_current st + 1)) ≤ fuel)%nat →
  ∃ st' found, turns fuel st = Ok (st', found) ∧
    if found then started st' (pass_jobs st vs) else left_over st (pass_jobs st vs) st'.
Proof using All.
  induction fuel as [|fuel IH]; intros st vs Hok Er Hfuel; cbn [partition_turns].
  all: assert (Hv : pv_split vs = None) by (destruct Hok as [_ Hs _ _ _]; rewrite Er in Hs; by destruct (pv_split vs)).
  all: pose proof (advance_current st vs Hok) as Hok1; set (st1 := set_current st (pa_current st + 1)) in *.
  all: pose proof Hok as [Hg _ _ Hcnt _].
  all: destruct (Z.leb_spec npartitions (pa_current st + 1)) as [Hend|Hmore]; [|try lia].
  1, 2: exists st1, false; split; [done|]; by apply turns_end.
  destruct (next_position _ _ _ _ Hg Hmore) as (fb & fp & b & p & Eb & Ep & Hvb & Hvp & Hib & Hip & Hfb & Hsb & Hfp & Hsp & Hjobs).
  cbn [fst snd] in Eb, Ep, Hvb, Hvp. change (pa_build st1) with (pa_build st). change (pa_probe st1) with (pa_probe st).
  rewrite Eb, bind_Ok, Ep, bind_Ok. pose proof (gr_current _ _ _ _ _ _ _ Hg) as Hcur.
  assert (Hpj : pass_jobs st vs = (view_rows b, view_rows p) :: pass_jobs st1 vs).
  { unfold pass_jobs. cbn. by rewrite Er, Hjobs. }
  rewrite Hpj. destruct (decide (is_Some b ∧ is_Some p)) as [[[vb ->] [vp ->]]|Hnone].
  - destruct Hib as [_ [fb' ->]], Hip as [_ [fp' ->]]; [done..|].
    assert (Hrows : pa_rows st1 !! Z.to_nat (pa_current st + 1) = Some (zlength (view_rows (Some vb)))) by (apply Hcnt; [lia|done]).
    rewrite (aref_lookup _ (pa_current st + 1) _ ltac:(lia) Hrows), bind_Ok.
    assert (Hstart : ∃ st', start_partition_files keys.*1 ninner build_chunk_rows st1 (InitialFiles (pa_current st + 1)) partition_shift = Ok (st', true) ∧
      started st' ((view_rows (Some vb), view_rows (Some vp)) :: pass_jobs st1 vs)).
    { apply (start_files_ok st1 vs _ npartitions partition_shift (pv_build vs) (pv_probe vs)); try done. cbn. lia. }
    destruct Hstart as (st' & Hstart & Hst').
    destruct (build_chunk_rows <? _).
    + destruct (repartition_current_ok keys ninner nouter memory_limit npartitions partition_shift build_chunk_rows Hninner Hnouter Hchunk st1 vs vb vp)
        as (st2 & split & -> & Hsplit); try done; [cbn; lia|]. rewrite bind_Ok. destruct split; cbn beta iota.
      * exists st2, false. split; [done|]. destruct Hsplit as (vs' & Hok2 & [rp Hrp] & Hc2 & Ha2 & Hj2). exists vs'. rewrite Hrp, Hc2.
        split_and!; try done; cbn; lia.
      * rewrite Hsplit, Hstart, bind_Ok. by exists st', true.
    + rewrite bind_Ok. cbn beta iota. rewrite Hstart, bind_Ok. by exists st', true.
  - match goal with |- ∃ _ _, ?turn = _ ∧ _ => assert (turn = turns fuel st1) as -> end.
    { destruct fb, fp; try done. destruct Hnone. split; [by apply Hib|by apply Hip]. }
    destruct (IH st1 vs) as (st' & found & -> & Hst'); [done|done|cbn; lia|]. exists st', found. split; [done|].
    assert (Hr : jobs_refine ((view_rows b, view_rows p) :: pass_jobs st1 vs) (pass_jobs st1 vs)).
    { apply refine_drop. destruct b; [right|by left]. destruct p; [|done]. by destruct Hnone. }
    destruct found; [by eapply started_refine|]. destruct Hst' as (vs' & ? & ? & ? & Hm). exists vs'. split_and!; try done; [by etransitivity|].
    destruct (pa_repartition st'); [cbn in *; lia|done].
Qed.

(** Nothing is left to present. *)
Definition drained (jobs : list job) (st : PassState) : Prop :=
  ∃ vs, pass_ok st vs ∧ pa_active st = None ∧ pa_partition_active st = false ∧ jobs_pairs jobs = [] ∧ pass_jobs st vs = [].

Lemma drained_refine st jobs jobs' : jobs_refine jobs jobs' → drained jobs' st → drained jobs st.
Proof using Type.
  intros [Hp _] (vs & ? & ? & ? & Hj & ?). exists vs. split_and!; try done. rewrite Hj in Hp. by apply Permutation_nil_r in Hp.
Qed.

Abbreviation next_partition := (next_partition_loop keys.*1 ninner nouter memory_limit npartitions partition_shift build_chunk_rows).

(** What the turn of a split partition leaves. *)
Lemma split_turn_ok st vs :
  pass_ok st vs →
  ∃ st' found, match pa_repartition st return res (PassState * bool) with
    | None => Ok (st, false)
    | Some rp =>
        rp ← finish_repartition rp;
        '(st, found) ← repartition_turns keys.*1 ninner build_chunk_rows (Z.to_nat (rp_npartitions rp)) st rp;
        Ok (if found : bool then st else set_repartition st None, found)
    end = Ok (st', found) ∧
    if found then started st' (pass_jobs st vs)
    else ∃ vs', pass_ok st' vs' ∧ pa_current st' = pa_current st ∧ pa_active st' = pa_active st ∧ pa_repartition st' = None ∧
      jobs_refine (pass_jobs st vs) (pass_jobs st' vs').
Proof using Hchunk Hinner Hninner H H0 H1.
  intros Hok. destruct (pa_repartition st) as [rp|] eqn:Er; [|by exists st, false; split; [done|]; exists vs].
  pose proof Hok as [Hi Hs Hr Hcnt Hst]. rewrite Er in Hs. destruct (pv_split vs) as [v|] eqn:Ev; [|done]. destruct Hs as [Hg Hlt].
  destruct (finish_repartition_ok keys ninner nouter rp v Hg Hlt) as (rp' & v' & -> & En & Ec & Hg' & Hj). rewrite bind_Ok.
  assert (Hok' : pass_ok (set_repartition st (Some rp')) (mkViews (pv_build vs) (pv_probe vs) (Some v'))).
  { split; try done. cbn. split; [done|]. by rewrite En, Ec. }
  assert (Hpj : pass_jobs (set_repartition st (Some rp')) (mkViews (pv_build vs) (pv_probe vs) (Some v')) = pass_jobs st vs).
  { unfold pass_jobs. cbn. by rewrite Er, Ev, Hj. }
  destruct (repartition_turns_ok (Z.to_nat (rp_npartitions rp')) st rp' _ Hok') as (st' & found & -> & Hst').
  { pose proof (gr_current _ _ _ _ _ _ _ Hg'). lia. }
  rewrite bind_Ok. cbn beta iota. rewrite Hpj in Hst'. eexists _, found. split; [done|]. destruct found; [done|].
  destruct Hst' as (vs' & ? & ? & ? & ?). by exists vs'.
Qed.

Lemma next_partition_ok fuel : ∀ st vs,
  pass_ok st vs → pa_active st = None → Z.max 0 (npartitions - pa_current st) < Z.of_nat fuel →
  ∃ st' found, next_partition fuel st = Ok (st', found) ∧
    if found then started st' (pass_jobs st vs) else drained (pass_jobs st vs) st'.
Proof using All.
  induction fuel as [|fuel IH]; intros st vs Hok Ha Hfuel; [lia|]. cbn [next_partition_loop].
  destruct (split_turn_ok st vs Hok) as (st1 & found & -> & Hst1). rewrite bind_Ok. cbn beta iota.
  destruct found; [by exists st1, true|]. destruct Hst1 as (vs1 & Hok1 & Hc1 & Ha1 & Er1 & Hj1).
  pose proof (gr_current _ _ _ _ _ _ _ (pk_initial _ _ _ _ _ _ Hok1)).
  destruct (partition_turns_ok (Z.to_nat npartitions) st1 vs1 Hok1 Er1) as (st2 & found & -> & Hst2); [lia|]. rewrite bind_Ok. cbn beta iota.
  destruct found; [exists st2, true; split; [done|]; by eapply started_refine|].
  destruct Hst2 as (vs2 & Hok2 & Ha2 & Hj2 & Hm). assert (Hj : jobs_refine (pass_jobs st vs) (pass_jobs st2 vs2)) by (by etransitivity).
  destruct (pa_repartition st2) as [rp|] eqn:Er2.
  - destruct (IH st2 vs2 Hok2) as (st' & found & -> & Hst'); [congruence|lia|]. exists st', found. split; [done|].
    destruct found; [by eapply started_refine|by eapply drained_refine].
  - eexists _, false. split; [done|]. eapply drained_refine; [exact Hj|]. exists vs2.
    destruct (pass_same keys ninner nouter npartitions st2 (set_partition_active st2 false) vs2) as [Hok3 Hj3]; try done; [apply Hok2|].
    rewrite Hj3, Hm. split_and!; try done. cbn. congruence.
Qed.
End run.

(** * Fetching probe batches *)

Section fetch.
Context `{PgCore} `{LogicalTapes} `{!ReversibleHash}.
Context (keys : list (Z * Z)) (ninner nouter npartitions build_chunk_rows memory_limit partition_shift : Z).
Context (Hninner : 0 < ninner < 2 ^ 16) (Hnouter : 0 < nouter < 2 ^ 16) (Hchunk : 0 < build_chunk_rows).
Context (Hinner : Forall (λ c, 0 ≤ c < ninner) keys.*1).

Abbreviation pass_ok := (pass_ok keys ninner nouter npartitions).
Abbreviation opened := (opened npartitions).
Abbreviation joining := (joining keys ninner npartitions).
Abbreviation started := (started keys ninner nouter npartitions).
Abbreviation drained := (drained keys ninner nouter npartitions).
Abbreviation fetch_loop := (fetch_spilled_loop keys.*1 ninner nouter memory_limit npartitions partition_shift build_chunk_rows).

(** The state between two fetches, and what it has left to present. *)
Definition between (st : PassState) (jobs : list job) : Prop :=
  ∃ vs, pass_ok st vs ∧
    if pa_partition_active st
    then ∃ r b p rows rest, joining st vs r b p rows rest ∧ jobs = active_jobs p rows rest ++ pass_jobs st vs
    else closable npartitions st vs ∧ jobs = pass_jobs st vs.

(** A block of probe rows, with the table it is for. *)
Definition yields (st : PassState) (block : PgBatchSpillBlock) (jobs : list job) : Prop :=
  ∃ rows jobs', block_wf nouter block ∧ Forall (keyed keys.*2) (block_sql_rows block) ∧
    join_table (ld_store (pa_load st)) keys rows ∧ bs_ncolumns (ld_store (pa_load st)) = ninner ∧ Forall (keyed keys.*1) rows ∧ between st jobs' ∧
    jobs_pairs jobs ≡ₚ hash_pairs (rows, block_sql_rows block) ++ jobs_pairs jobs' ∧ (jobs_work jobs' < jobs_work jobs)%nat.

Lemma yields_refine st block jobs jobs' : jobs_refine jobs jobs' → yields st block jobs' → yields st block jobs.
Proof using Type.
  intros [Hp Hw] (rows & J & ? & ? & ? & ? & ? & ? & Hp' & Hw'). exists rows, J. split_and!; try done; [by rewrite Hp|lia].
Qed.

(** Reading from a file that has rows left. *)
Lemma read_joining st vs r b p rows rest fuel :
  pass_ok st vs → joining st vs r b p rows rest → pa_partition_active st = true → fv_left p ≠ [] →
  ∃ st' block, fetch_loop (S fuel) st = Ok (st', Some block) ∧ yields st' block (active_jobs p rows rest ++ pass_jobs st vs).
Proof using Type.
  intros Hok [Ho Hrest Heof Hload Hbuild (Hne & Hall & Hleft) Hside [Hps Hpl] Hmore Htable Hsome Hkeyed] Hact Hp. cbn [fetch_spilled_loop].
  rewrite Hact, bind_Ok. cbn [negb]. rewrite (od_active _ _ _ _ _ _ Ho).
  destruct (probe_files_ok keys ninner nouter npartitions st vs r b p Hok Ho) as (fs & n & pv & -> & Hpos & Hf & Hpv & Hupd). rewrite bind_Ok.
  destruct p as [o all left]. cbn [fv_all fv_left] in *. destruct left as [|l left]; [done|].
  destruct (read_more_ok nouter n true _ pv (ref_partition r) o all l left Hf Hpos Hpv) as (pf & block & -> & Hpf & Hwf & Hrows).
  rewrite bind_Ok. cbn beta iota. destruct (Hupd _ _ Hpf) as (vs' & Hok' & Hj' & Ho'). eexists _, block. split; [done|].
  apply Forall_cons in Hleft as [Hl Hleft]. destruct Hpl as [Hpl1 Hpl2]. cbn [concat] in Hpl1, Hpl2.
  rewrite length_app in Hpl1. apply Forall_app in Hpl2 as [Hpl2 Hpl3].
  set (st' := with_files st r (fs.1, pf)) in *. assert (Hld : pa_load st' = pa_load st ∧ pa_more st' = pa_more st ∧ pa_partition_active st' = true).
  { unfold st'. by destruct r. }
  destruct Hld as (Hld & Hmr & Hac). exists rows, (active_jobs (mkView true all left) rows rest ++ pass_jobs st' vs').
  rewrite Hrows, Hld. split_and!; try done.
  - apply Hok.
  - exists vs'. split; [done|]. rewrite Hac. exists r, b, (mkView true all left), rows, rest. split; [|done].
    split; rewrite ?Hld, ?Hmr; try done. cbn [fv_left]. split; [done|]. split; [lia|done].
  - rewrite Hj'. unfold active_jobs. cbn [fv_left fv_all concat app]. rewrite !jobs_pairs_cons, hash_pairs_app_r, <- !app_assoc. done.
  - rewrite Hj'. unfold active_jobs. cbn [fv_left fv_all concat app]. rewrite !jobs_work_cons, length_app.
    destruct rows; [done|]. destruct l; [done|]. cbn. lia.
Qed.

Lemma read_started st jobs fuel :
  started st jobs → ∃ st' block, fetch_loop (S fuel) st = Ok (st', Some block) ∧ yields st' block jobs.
Proof using Type.
  intros (vs & r & b & p & rows & rest & Hok & Hjoin & Hact & Hp & Hr).
  destruct (read_joining st vs r b p rows rest fuel Hok Hjoin Hact Hp) as (st' & block & -> & Hy).
  exists st', block. split; [done|]. by eapply yields_refine.
Qed.

(** Without an active partition the next one is started. *)
Lemma fetch_next st vs fuel :
  pass_ok st vs → closable npartitions st vs → pa_partition_active st = false →
  ∃ st' out, fetch_loop (S fuel) st = Ok (st', out) ∧
    match out with Some block => yields st' block (pass_jobs st vs) | None => drained (pass_jobs st vs) st' end.
Proof using All.
  intros Hok Hc Hact. destruct (finish_active_ok keys ninner nouter npartitions st vs Hok Hc) as (st1 & vs1 & E1 & Hok1 & Hj1 & Ha1 & Hc1).
  assert (Hn : 0 ≤ npartitions).
  { pose proof (fo_views _ _ _ _ _ (gr_build _ _ _ _ _ _ _ (pk_initial _ _ _ _ _ _ Hok))). lia. }
  pose proof (gr_current _ _ _ _ _ _ _ (pk_initial _ _ _ _ _ _ Hok1)).
  destruct (next_partition_ok keys ninner nouter npartitions build_chunk_rows Hninner Hchunk Hinner memory_limit partition_shift Hnouter
    (Z.to_nat npartitions + 2) st1 vs1 Hok1 Ha1) as (st2 & found & E2 & Hst2); [lia|]. rewrite Hj1 in Hst2.
  assert (Es : start_next_partition keys.*1 ninner nouter memory_limit npartitions partition_shift build_chunk_rows st = Ok (st2, found)).
  { unfold start_next_partition. by rewrite E1, bind_Ok. }
  destruct found.
  - assert (E : fetch_loop (S fuel) st = fetch_loop (S fuel) st2).
    { cbn [fetch_spilled_loop]. rewrite Hact, Es. destruct Hst2 as (? & ? & ? & ? & ? & ? & ? & ? & -> & _). done. }
    rewrite E. destruct (read_started st2 _ fuel Hst2) as (st' & block & -> & Hy). by exists st', (Some block).
  - exists st2, None. split; [|done]. cbn [fetch_spilled_loop]. by rewrite Hact, Es, bind_Ok.
Qed.

(** The probe rows of a chunk are used up. *)
Lemma fetch_chunk st vs r b p rows rest fuel :
  pass_ok st vs → joining st vs r b p rows rest → pa_partition_active st = true → fv_left p = [] →
  ∃ st' out, fetch_loop (S (S fuel)) st = Ok (st', out) ∧ let jobs := active_jobs p rows rest ++ pass_jobs st vs in
    match out with Some block => yields st' block jobs | None => drained jobs st' end.
Proof using All.
  intros Hok Hjoin Hact Hleft. pose proof Hjoin as [Ho Hrest Heof Hload Hbuild (Hne & Hall & _) Hside [Hps _] Hmore _ _ _].
  remember (S fuel) as fuel1 eqn:Ef. cbn [fetch_spilled_loop]. rewrite Hact, bind_Ok. cbn [negb]. rewrite (od_active _ _ _ _ _ _ Ho).
  destruct (probe_files_ok keys ninner nouter npartitions st vs r b p Hok Ho) as (fs & n & pv & -> & Hpos & Hf & Hpv & Hupd). rewrite bind_Ok.
  destruct p as [o all left]. cbn [fv_all fv_left] in *. subst left.
  destruct (read_end_ok nouter n true _ pv (ref_partition r) o all Hf Hpos Hpv) as (pf & -> & Hpf). rewrite bind_Ok. cbn beta iota.
  destruct (Hupd _ _ Hpf) as (vs1 & Hok1 & Hj1 & Ho1). set (st1 := with_files st r (fs.1, pf)) in *. rewrite <- Hj1.
  assert (Hst1 : pa_load st1 = pa_load st ∧ pa_more st1 = pa_more st ∧ pa_partition_active st1 = true) by (unfold st1; by destruct r).
  destruct Hst1 as (Hld & Hmr & Hac). set (jobs := active_jobs _ _ _ ++ _).
  (* closing, when no build rows are left *)
  assert (Hclose : ∀ st2 vs2 b2 p2, pass_ok st2 vs2 → pass_jobs st2 vs2 = pass_jobs st1 vs1 → opened st2 vs2 r b2 p2 → rest = [] →
    ∃ st' out, fetch_loop fuel1 (set_partition_active st2 false) = Ok (st', out) ∧
      match out with Some block => yields st' block jobs | None => drained jobs st' end).
  { intros st2 vs2 b2 p2 Hok2 Hj2 Ho2 Er. destruct (pass_same keys ninner nouter npartitions st2 (set_partition_active st2 false) vs2) as [Hok3 Hj3]; try done; [apply Hok2|].
    rewrite Ef. destruct (fetch_next _ vs2 fuel Hok3) as (st' & out & -> & Hout); [|done|].
    { right. exists r, b2, p2. by apply opened_active. }
    exists st', out. split; [done|]. assert (Hr : jobs_refine jobs (pass_jobs (set_partition_active st2 false) vs2)).
    { rewrite Hj3, Hj2. unfold jobs, active_jobs. cbn [app concat fv_left]. rewrite refine_drop, refine_drop by auto. done. }
    destruct out; [by eapply yields_refine|by eapply drained_refine]. }
  rewrite Hmr. destruct (pa_more st) eqn:Em; [|rewrite bind_Ok; cbn beta iota; eapply Hclose; [exact Hok1|done|exact Ho1|by apply Hmore]].
  assert (Hrest1 : load_rest (pa_load st1) (fv_left b) = rest) by (by rewrite Hld).
  destruct (next_chunk_ok keys ninner nouter npartitions build_chunk_rows Hninner Hchunk Hinner st1 vs1 r b _ Hok1 Ho1)
    as (st2 & vs2 & b2 & loaded & -> & Hok2 & Hj2 & Ho2 & Hac2 & Hcl); rewrite ?Hrest1, ?Hld; try done.
  rewrite bind_Ok. cbn beta iota. rewrite Hrest1 in Hcl. pose proof (cl_loaded _ _ _ _ _ _ _ _ Hcl) as Hlo.
  destruct loaded; [|eapply Hclose; [exact Hok2|done|exact Ho2|symmetry in Hlo; by apply negb_false_iff, bool_decide_eq_true in Hlo]].
  symmetry in Hlo. apply negb_true_iff, bool_decide_eq_false in Hlo.
  destruct (rewind_probe_ok keys ninner nouter npartitions st2 vs2 r b2 _ Hok2 Ho2) as (fs2 & pf2 & -> & Erw & vs3 & Hok3 & Hj3 & Ho3).
  rewrite bind_Ok, Erw, bind_Ok. cbn [fv_all fv_open] in Ho3. set (st3 := with_files st2 r (fs2.1, pf2)) in *.
  assert (Hst3 : pa_load st3 = pa_load st2 ∧ pa_more st3 = pa_more st2 ∧ pa_partition_active st3 = true).
  { unfold st3. destruct r; cbn; rewrite Hac2, Hac; done. }
  destruct Hst3 as (Hld3 & Hmr3 & Hac3). rewrite Ef. rewrite <- Hld3, <- Hmr3 in Hcl.
  destruct (read_started st3 jobs fuel) as (st' & block & -> & Hy); [|by exists st', (Some block)].
  pose proof (loaded_joining keys ninner npartitions build_chunk_rows Hchunk st3 vs3 r b2 _ rest Ho3 Hlo Hside Hne Hall eq_refl Hps Hcl) as Hjoin3.
  eexists vs3, r, b2, _, _, _. split; [done|]. split; [exact Hjoin3|]. split_and!; [done|done|].
  rewrite Hj3, Hj2. unfold jobs, active_jobs. cbn [fv_left fv_all app concat]. rewrite refine_drop by auto.
  rewrite <- (take_drop (Z.to_nat build_chunk_rows) rest) at 1. apply refine_chunk.
Qed.

Lemma fetch_ok st jobs :
  between st jobs →
  ∃ st' out, hash_join_fetch_spilled_probe_batch keys.*1 ninner nouter memory_limit npartitions partition_shift build_chunk_rows st = Ok (st', out) ∧
    match out with Some block => yields st' block jobs | None => jobs_pairs jobs = [] ∧ between st' [] end.
Proof using All.
  intros (vs & Hok & Hst). unfold hash_join_fetch_spilled_probe_batch.
  assert (Hdrain : ∀ st' jobs, drained jobs st' → jobs_pairs jobs = [] ∧ between st' []).
  { intros st' jobs' (vs' & ? & ? & Ha & ? & Hj). split; [done|]. exists vs'. rewrite Ha. split_and!; try done. by left. }
  destruct (pa_partition_active st) eqn:Hact.
  - destruct Hst as (r & b & p & rows & rest & Hjoin & ->). destruct (decide (fv_left p = [])) as [Hl|Hl].
    + destruct (fetch_chunk st vs r b p rows rest 0 Hok Hjoin Hact Hl) as (st' & out & -> & Hout). exists st', out. split; [done|].
      destruct out; [done|]. by apply Hdrain.
    + destruct (read_joining st vs r b p rows rest 1 Hok Hjoin Hact Hl) as (st' & block & -> & Hy). by exists st', (Some block).
  - destruct Hst as [Hc ->]. destruct (fetch_next st vs 1 Hok Hc Hact) as (st' & out & -> & Hout). exists st', out. split; [done|].
    destruct out; [done|]. by apply Hdrain.
Qed.
End fetch.
