(* ===== verification/JoinPassProps.v ===== *)
(** * The spilling hash join: the output of the pass

    A block of spilled probe rows is a probe batch like any other, so what is
    known of the output of the join applies to it; here it is stated on rows.
    The pass presents every pair of spilled rows that can match, however the
    build rows are cut into chunks and however often a partition is split; the
    output of the join is the join of the spilled rows. *)

From S2P Require Import Prelude Words Bytes Selection Vector Kernels Int4 Hash Spill SpillBlocks SpillSet SpillRun SpillRead SpillLoop JoinStore JoinStoreProps JoinDirectory JoinBuild JoinBuildProps JoinProbe JoinProbeProps JoinQualProps JoinProps JoinSpill JoinSpillProps JoinPass JoinFiles JoinChunk JoinPairs JoinTurn JoinFetch.

Section probe.
Context `{PgCore} `{!ReversibleHash}.
Context (keys : list (Z * Z)) (ninner nouter : Z).

(** ** The batch over a block *)

Definition block_column (block : PgBatchSpillBlock) (c : Z) : InputColumn :=
  mkInput true (bl_selection block) (PG_BATCH_INT4_PACKED (drop (Z.to_nat (c * 64)) (bl_values block))
    (Some (drop (Z.to_nat (c * 8)) (bl_validity block))) 0).

Definition block_probe (block : PgBatchSpillBlock) : ProbeBatch :=
  mkProbe (mkJoinInput (mkSelection (bl_nrows block) 1 [bl_selection block]) (block_column block <$> seqZ 0 (bl_ncolumns block)))
    (bl_selection block) (bl_hashes block).

Lemma spill_probe_eq block : spill_probe block = Ok (block_probe block).
Proof using Type.
  unfold spill_probe. rewrite (foldM_pure _ (λ c columns, columns ++ [block_column block c])).
  - rewrite bind_Ok. unfold block_probe. do 3 f_equal. induction (seqZ 0 (bl_ncolumns block)) as [|c l IH] using rev_ind; [done|].
    by rewrite foldl_app, fmap_app, IH.
  - intros c columns Hc%elem_of_seqZ. unfold spill_get_int4_column.
    destruct (Z.ltb_spec c 0), (Z.leb_spec (bl_ncolumns block) c); try lia. done.
Qed.

Lemma block_cells block row :
  block_wf nouter block → 0 ≤ row < bl_nrows block →
  input_cells (ji_columns (pb_input (block_probe block))) row = (zget no_row (block_sql_rows block) row).2.
Proof using Type.
  intros Hb Hr. rewrite (block_row_at nouter) by done. destruct Hb. unfold input_cells, block_probe, logical, raw_cells, array_row.
  cbn [pb_input ji_columns fst snd]. rewrite bw_ncolumns, <- !list_fmap_compose. apply list_fmap_ext. intros i c Hc.
  apply lookup_seqZ in Hc as [-> Hc]. unfold compose, block_column. cbn [ic_vector fst snd].
  destruct (packed_drop_ok (bl_values block) (bl_validity block) (0 + Z.of_nat i) row) as (_ & _ & E); [lia|lia|lia|lia|]. exact E.
Qed.

Lemma block_selected block : block_wf nouter block → selected_rows (ji_selection (pb_input (block_probe block))) = seqZ 0 (bl_nrows block).
Proof using Type.
  intros []. unfold selected_rows. cbn [block_probe pb_input ji_selection nrows]. apply list_filter_all, Forall_forall.
  intros row Hr%elem_of_seqZ. unfold selected. cbn [words]. rewrite bw_selection, Z.div_small, Z.mod_small by lia.
  change (zget 0 [Z.ones (bl_nrows block)] 0) with (Z.ones (bl_nrows block)). rewrite testbit_ones by lia. lia.
Qed.

Lemma block_input_ok block : block_wf nouter block → join_input_ok nouter (pb_input (block_probe block)).
Proof using Type.
  intros []. split; cbn [block_probe pb_input ji_selection ji_columns nrows nwords words].
  - split; cbn; [lia|zlia|done|]. constructor; [|done]. rewrite bw_selection. apply is_u64_ones. lia.
  - intros row Hr. cbn in Hr. unfold selected. cbn [words]. rewrite bw_selection, Z.div_small, Z.mod_small by lia.
    change (zget 0 [Z.ones (bl_nrows block)] 0) with (Z.ones (bl_nrows block)). rewrite testbit_ones by lia. lia.
  - lia.
  - rewrite length_fmap, length_seqZ. lia.
  - apply Forall_fmap, Forall_forall. intros c Hc%elem_of_seqZ. split; [done|]. cbn. rewrite !length_drop. split; [lia|].
    split; [lia|]. split; [by apply Forall_drop|]. lia.
Qed.

(** The keys a keyed row has. *)
Lemma keyed_values ks (row : sql_row) : keyed ks row → ∃ vs, row_values ks row.2 = Some vs ∧ row.1 = keys_hash vs ∧
  row_keys ks row = Some <$> vs.
Proof using Type.
  intros (vs & Hk & _ & Hh). exists vs. split; [|done]. apply mapM_Some. unfold row_keys in Hk. clear Hh.
  revert vs Hk. induction ks as [|k ks IH]; intros [|v vs] Hk; try done. injection Hk as Hv Hk. constructor; [done|by apply IH].
Qed.

Lemma block_hashed block :
  block_wf nouter block → Forall (keyed keys.*2) (block_sql_rows block) →
  hashed_batch keys.*2 (pb_input (block_probe block)) (bl_hashes block, bl_selection block).
Proof using Type.
  intros Hb Hk. pose proof (block_selected block Hb) as Hsel. pose proof Hb as []. pose proof (block_sql_length nouter block Hb) as Hlen.
  assert (Hrow : ∀ row, row ∈ seqZ 0 (bl_nrows block) →
    ∃ vs, row_values keys.*2 (input_cells (ji_columns (pb_input (block_probe block))) row) = Some vs ∧ zget 0 (bl_hashes block) row = keys_hash vs).
  { intros row Hr%elem_of_seqZ. rewrite block_cells by (done || lia).
    destruct (keyed_values keys.*2 (zget no_row (block_sql_rows block) row)) as (vs & Hv & Hh & _); [by apply zget_Forall; [|lia]|].
    exists vs. split; [done|]. rewrite <- Hh. rewrite (block_row_at nouter) by (done || lia). done. }
  split; cbn [fst snd]; rewrite ?Hsel.
  - lia.
  - rewrite bw_selection. apply is_u64_ones. lia.
  - rewrite bw_selection, bits_of_ones by lia. symmetry. apply list_filter_all, Forall_forall. intros row Hr.
    destruct (Hrow row Hr) as (vs & -> & _). by eexists.
  - intros row vs Hr Hv. destruct (Hrow row Hr) as (vs' & Hv' & Hh). rewrite Hv in Hv'. by injection Hv' as <-.
Qed.


(** ** The join of rows *)

Context (s : BuildStore) (natts : Z) (quals : list BatchJoinQual) (needed : list Z) (exec_qual : option (list (Z * bool) → res bool)).
Context (function_result : Oid → Z → Z → option bool) (qual_result : list (Z * bool) → bool).

(** A column of the joined row. *)
Definition joined_cell (pr : sql_row * sql_row) (c : Z) : option Z :=
  if c <? nouter then zget None pr.2.2 c else zget None pr.1.2 (c - nouter).

(** A build row and a probe row belong together: their keys are equal and the
    conditions hold. *)
Definition joins (pr : sql_row * sql_row) : Prop :=
  row_keys keys.*1 pr.1 = row_keys keys.*2 pr.2 ∧
  cells_pass natts quals needed exec_qual function_result qual_result (joined_cell pr) = true.

#[export] Instance joins_decision pr : Decision (joins pr).
Proof using Type. unfold joins. apply _. Defined.

(** The cells of a joined row, and those an output row of the join stands for. *)
Definition joined_cells (pr : sql_row * sql_row) : list (option Z) * list (option Z) :=
  (zget None pr.1.2 <$> seqZ 0 ninner, pr.2.2).
Definition output_cells (store : BuildStore) (batch : JoinInput) (pair : Z * Z) : list (option Z) * list (option Z) :=
  ((λ c, stored_cell (column_of store c) pair.2) <$> seqZ 0 (bs_ncolumns store), input_cells (ji_columns batch) pair.1).

Section table.
Context (rows : list build_row).
Context (Htable : join_table s keys rows) (Hn : bs_ncolumns s = ninner) (Hrows : Forall (keyed keys.*1) rows).

Lemma output_cells_ok block row i :
  block_wf nouter block → 0 ≤ row < bl_nrows block → 0 ≤ i < zlength rows →
  output_cells s (pb_input (block_probe block)) (row, i) = joined_cells (zget no_row rows i, zget no_row (block_sql_rows block) row).
Proof using Htable Hn.
  intros Hb Hr Hi. unfold output_cells, joined_cells. cbn [fst snd]. rewrite block_cells by done. f_equal. rewrite Hn.
  apply list_fmap_ext. intros k c [-> Hc]%lookup_seqZ. pose proof (jt_wf _ _ _ Htable) as Hs.
  rewrite <- (sw_cells _ _ Hs (Z.to_nat i) (zget no_row rows i)); [by rewrite Z2Nat.id by lia|by apply rows_at_lookup|lia].
Qed.

(** The candidates of a probe row that pass. *)
Lemma row_candidates_ok block row :
  block_wf nouter block → 0 ≤ row < bl_nrows block → keyed keys.*2 (zget no_row (block_sql_rows block) row) →
  let batch := pb_input (block_probe block) in let r := zget no_row (block_sql_rows block) row in
  output_cells s batch <$> qualified rows nouter natts quals needed exec_qual function_result qual_result batch (row_pairs keys rows batch row) ≡ₚ
  joined_cells <$> filter joins ((λ b, (b, r)) <$> filter (λ b : sql_row, r.1 = b.1) rows).
Proof using Htable Hn Hrows.
  intros Hb Hr Hk batch r. destruct (keyed_values keys.*2 r Hk) as (vs & Hv & Hh & Hkr).
  unfold row_pairs. unfold batch at 3. rewrite block_cells by done. fold r. rewrite Hv. unfold matching_rows, qualified.
  rewrite reverse_Permutation, filter_of_fmap, list_filter_filter, <- list_fmap_compose.
  transitivity (joined_cells <$> filter joins ((λ b, (b, r)) <$>
    filter (λ b : sql_row, r.1 = b.1) (zget no_row rows <$> seqZ 0 (zlength rows)))); [|by rewrite zget_seqZ].
  rewrite !filter_of_fmap, list_filter_filter, <- !list_fmap_compose. apply eq_perm.
  rewrite (list_filter_iff' _ (λ i, joins (zget no_row rows i, r) ∧ r.1 = (zget no_row rows i).1)).
  - apply list_fmap_ext. intros k i Hi. apply list_elem_of_lookup_2, list_elem_of_filter in Hi as [_ Hi%elem_of_seqZ].
    apply output_cells_ok; (done || lia).
  - intros i Hi%elem_of_seqZ. unfold joins. cbn [fst snd]. rewrite (rows_at_lookup rows i) by lia. set (b := zget no_row rows i).
    assert (Hpass : pair_passes rows nouter natts quals needed exec_qual function_result qual_result batch (row, i) =
      cells_pass natts quals needed exec_qual function_result qual_result (joined_cell (b, r))).
    { apply cells_pass_ext. intros c. unfold raw_cell, joined_cell. cbn [fst snd]. unfold batch. rewrite block_cells by done. fold r.
      destruct (c <? nouter); [done|]. by rewrite (rows_at_lookup rows i) by lia. }
    rewrite Hpass, Hkr. cbn. assert (Hkb : keyed keys.*1 b) by (apply zget_Forall; [done|lia]).
    destruct (keyed_values _ _ Hkb) as (ws & _ & Hhb & Hkb'). split; [intros [? [= E]]|intros [[E ?] _]; split; congruence].
    split; [by rewrite E|]. rewrite Hh, Hhb. f_equal. rewrite Hkb' in E. by apply (inj (fmap Some)) in E.
Qed.

Lemma block_join_ok block :
  block_wf nouter block → Forall (keyed keys.*2) (block_sql_rows block) →
  let batch := pb_input (block_probe block) in
  output_cells s batch <$> batch_join keys rows nouter natts quals needed exec_qual function_result qual_result batch ≡ₚ
  joined_cells <$> filter joins (hash_pairs (rows, block_sql_rows block)).
Proof using Htable Hn Hrows.
  intros Hb Hk batch. pose proof (block_selected block Hb) as Hsel. fold batch in Hsel. unfold batch_join. rewrite Hsel, hash_pairs_probe.
  pose proof (block_sql_length nouter block Hb) as Hlen.
  transitivity (joined_cells <$> filter joins ((zget no_row (block_sql_rows block) <$> seqZ 0 (zlength (block_sql_rows block))) ≫=
    λ r, (λ b, (b, r)) <$> filter (λ b : sql_row, r.1 = b.1) rows)); [|by rewrite zget_seqZ].
  rewrite Hlen, list_fmap_bind, filter_bind, fmap_bind. unfold qualified.
  rewrite join_fmap_bind, filter_bind, fmap_bind. apply bind_perm_ext. intros row Hr%elem_of_seqZ. unfold compose.
  apply row_candidates_ok; [done|lia|]. apply zget_Forall; [done|lia].
Qed.

(** ** The output for a block *)

Context (max_rows : Z) (call_function : Oid → Z → Z → res (option bool)).
Context (Hkeys : keys ≠ []) (Houter : Forall (λ k, 0 ≤ k < nouter) keys.*2) (Hnouter : 0 ≤ nouter) (Hnatts : natts = nouter + ninner).
Context (Hquals : Forall (λ q, 0 ≤ bq_left_column q < natts ∧ 0 ≤ bq_right_column q < natts ∧
  (bq_builtin q = true → is_Some (pg_batch_int4_compare_op (bq_funcid q) 0))) quals).
Context (Hneeded : Forall (λ c, 0 ≤ c < natts) needed).
Context (Hcall : ∀ f l r, call_function f l r = Ok (function_result f l r)).
Context (Hexec : ∀ exec, exec_qual = Some exec → ∀ slot, exec slot = Ok (qual_result slot)).

Definition block_turns (block : PgBatchSpillBlock) : nat := S (input_work keys rows (pb_input (block_probe block))).

Lemma run_block_ok block scratch turns :
  block_wf nouter block → Forall (keyed keys.*2) (block_sql_rows block) → 64 ≤ zlength scratch.1 → is_u64 scratch.2 →
  (block_turns block ≤ turns)%nat →
  ∃ out, run_join s keys nouter natts quals needed max_rows call_function exec_qual turns turns scratch
           (fetched_probe (block_probe block)) = Ok out ∧
    Forall (λ o : JoinInput * list (Z * Z), 1 ≤ zlength o.2 ≤ output_capacity max_rows) out ∧
    (out ≫= λ o : JoinInput * list (Z * Z), output_cells s o.1 <$> o.2) ≡ₚ
      joined_cells <$> filter joins (hash_pairs (rows, block_sql_rows block)).
Proof using All.
  intros Hb Hk Hsc Hsw Hturns. set (b := block_probe block) in *. pose proof (cap_bounds max_rows).
  assert (Howed : owed s keys rows nouter natts quals needed exec_qual function_result qual_result (set_output (fetched_probe b) [] 0) =
    tagged (pb_input b) (batch_join keys rows nouter natts quals needed exec_qual function_result qual_result (pb_input b))).
  { unfold owed, pairs_left, pending_rows. cbn [set_output fetched_probe ps_batch ps_qualified ps_output ps_inputs ps_lanes ps_next_row ps_done_pending].
    rewrite rows_after_all. unfold join_result, batch_join. cbn. by rewrite app_nil_r. }
  assert (Hwork : (work s keys rows (set_output (fetched_probe b) [] 0) < turns)%nat).
  { unfold work. cbn [set_output fetched_probe ps_batch ps_inputs ps_lanes ps_next_row ps_done_pending]. rewrite rows_after_all.
    unfold block_turns, input_work in Hturns. fold b in Hturns. cbn in *. lia. }
  destruct (run_join_ok s keys rows nouter natts max_rows quals needed call_function exec_qual function_result qual_result
    Htable Hkeys Houter ltac:(lia) Hnouter Hquals Hneeded Hcall Hexec scratch turns turns (fetched_probe b)) as (out & -> & Hout & Hperm); try done.
  - constructor; cbn [set_output fetched_probe ps_batch ps_inputs ps_lanes ps_output ps_qualified ps_next_row ps_done_pending]; try done.
    + split; [|split; [lia|done]]. split; [by apply block_input_ok|by apply block_hashed].
    + cbn. lia.
  - exists out. split; [done|]. split; [done|]. rewrite <- block_join_ok by done. fold b. rewrite Howed in Hperm.
    transitivity ((λ t : JoinInput * (Z * Z), output_cells s t.1 t.2) <$> mjoin ((λ o : JoinInput * list (Z * Z), tagged o.1 o.2) <$> out)).
    + apply eq_perm. rewrite join_fmap_bind, fmap_bind. apply list_bind_ext; [|done]. intros o. unfold tagged. by rewrite <- list_fmap_compose.
    + rewrite Hperm. unfold tagged. by rewrite <- list_fmap_compose.
Qed.
End table.
End probe.

(** * The pass *)

(** All pairs of rows. *)
Definition cross (B R : list sql_row) : list (sql_row * sql_row) := B ≫= λ b, (b,.) <$> R.

Lemma cross_hash (P : sql_row * sql_row → Prop) `{∀ x, Decision (P x)} B R :
  (∀ b r, b ∈ B → r ∈ R → P (b, r) → r.1 = b.1) → filter P (cross B R) = filter P (hash_pairs (B, R)).
Proof.
  intros HP. unfold cross, hash_pairs. cbn [fst snd]. induction B as [|b B IH]; [done|].
  rewrite !bind_cons, !filter_app, IH by set_solver. f_equal. unfold row_partners. rewrite !filter_of_fmap, list_filter_filter. f_equal.
  apply list_filter_iff'. intros r Hr. specialize (HP b r). set_solver.
Qed.

(** The rows of a partition, among those of all. *)
Lemma concat_part (part : sql_row → Z) B q l :
  (∀ p l r, B !! p = Some l → r ∈ l → part r = Z.of_nat p) → B !! q = Some l → filter (λ r, part r = Z.of_nat q) (concat B) = l.
Proof.
  intros HB Hq. rewrite <- (take_drop_middle B q l Hq), concat_app, filter_app. cbn [concat]. rewrite filter_app.
  pose proof (lookup_lt_Some _ _ _ Hq) as Hlt.
  rewrite (filter_none _ (concat (take q B))), (filter_none _ (concat (drop (S q) B))), app_nil_r.
  - apply list_filter_all, Forall_forall. intros r Hr. by eapply HB.
  - intros r Hr E. apply list_elem_of_In, in_concat in Hr as (l' & Hl' & Hr). apply list_elem_of_In in Hl', Hr.
    apply list_elem_of_lookup in Hl' as [i Hi]. rewrite lookup_drop in Hi. specialize (HB _ _ _ Hi Hr). lia.
  - intros r Hr E. apply list_elem_of_In, in_concat in Hr as (l' & Hl' & Hr). apply list_elem_of_In in Hl', Hr.
    apply list_elem_of_lookup in Hl' as [i Hi]. apply lookup_take_Some in Hi as [Hi Hlt']. specialize (HB _ _ _ Hi Hr). lia.
Qed.

Lemma concat_zip (part : sql_row → Z) n B R :
  zlength B = n → zlength R = n → (∀ p l r, B !! p = Some l → r ∈ l → part r = Z.of_nat p) →
  (∀ p l r, R !! p = Some l → r ∈ l → part r = Z.of_nat p) → (∀ b r : sql_row, b.1 = r.1 → part b = part r) →
  hash_pairs (concat B, concat R) ≡ₚ jobs_pairs (zip B R).
Proof.
  intros HnB HnR HB HR Hpart. rewrite (hash_pairs_split part n (concat B) (concat R)); [|done|].
  - apply eq_perm. f_equal. apply list_eq. intros q. rewrite list_lookup_fmap, lookup_zip_with. destruct (decide (Z.of_nat q < n)).
    + rewrite lookup_seqZ_lt by lia. destruct (lookup_lt_is_Some_2 B q) as [b Hb]; [lia|]. destruct (lookup_lt_is_Some_2 R q) as [r Hr]; [lia|].
      rewrite Hb, Hr. cbn. rewrite Z.add_0_l. by rewrite (concat_part part B q b HB Hb), (concat_part part R q r HR Hr).
    + rewrite lookup_seqZ_ge by lia. by rewrite (lookup_ge_None_2 B) by lia.
  - apply Forall_forall. intros r Hr. apply list_elem_of_In, in_concat in Hr as (l & Hl & Hr). apply list_elem_of_In in Hl, Hr.
    apply list_elem_of_lookup in Hl as [q Hq]. rewrite (HB _ _ _ Hq Hr). pose proof (lookup_lt_Some _ _ _ Hq). lia.
Qed.

Section pass.
Context `{PgCore} `{LogicalTapes} `{!ReversibleHash}.
Context (keys : list (Z * Z)) (ninner nouter npartitions build_chunk_rows memory_limit partition_shift : Z).
Context (Hninner : 0 < ninner < 2 ^ 16) (Hnouter : 0 < nouter < 2 ^ 16) (Hchunk : 0 < build_chunk_rows).
Context (Hinner : Forall (λ c, 0 ≤ c < ninner) keys.*1).

(** ** The spilled sides *)

(** What spilling both inputs leaves: the rows of every partition, on both
    sides, in the partition their hash says. *)
Record spilled_sides (j : JoinSpill) (probe : PgBatchSpillSet) (flags : list bool) (B R : list (list sql_row)) : Prop := {
  ss_build : ∃ parts, spilling j ninner parts ∧ map (map logical) parts = B;
  ss_probe : ∃ parts, spill_open probe parts ∧ map (map logical) parts = R;
  ss_columns : ncolumns probe = nouter;
  ss_partitions : Spill.npartitions probe = npartitions ∧ jp_npartitions j = npartitions;
  ss_flags : flags = (λ rows, negb (bool_decide (rows = []))) <$> R;
  ss_counts : jp_partition_rows j = (λ rows, zlength rows) <$> B;
  ss_sides : Forall (build_side keys) B ∧ Forall (probe_side keys) R;
  ss_placed : ∀ q l r, B !! q = Some l ∨ R !! q = Some l → r ∈ l → row_partition npartitions r.1 = Z.of_nat q;
}.

Lemma spill_files_written flags rows :
  length flags = length rows → (∀ q l, rows !! q = Some l → zget false flags (Z.of_nat q) = negb (bool_decide (l = []))) →
  files_written (spill_files flags) rows.
Proof using Type.
  intros Hl Hf. unfold spill_files. split; [by rewrite length_imap|]. intros q l f Hq Hfq. rewrite list_lookup_imap in Hfq.
  specialize (Hf q l Hq). unfold zget in Hf. rewrite Nat2Z.id in Hf. destruct (flags !! q) as [b|]; [|done].
  injection Hfq as <-. cbn in Hf. subst b. case_decide as E; [by rewrite bool_decide_eq_true_2|by rewrite bool_decide_eq_false_2].
Qed.

(** Where the pass starts. *)
Lemma start_pass_ok j probe flags B R l :
  spilled_sides j probe flags B R → bs_ncolumns (ld_store l) = ninner →
  ∃ build probe', hash_join_finish_spilled_build j = Ok build ∧ hash_join_finish_spilled_probe probe flags = Ok probe' ∧
    between keys ninner nouter npartitions (start_pass build probe' (jp_partition_rows j) l) (zip B R).
Proof using Type.
  intros [(bparts & Hsp & HB) (pparts & Hpo & HR) Hpc [Hpn Hjn] Hfl Hcnt [HsB HsR] _] Hl. pose proof Hsp as [].
  assert (HlB : zlength B = npartitions) by (rewrite <- HB, length_map; lia).
  assert (HlR : zlength R = npartitions) by (rewrite <- HR, length_map, <- Hpn; apply Hpo).
  destruct (target_finish ninner npartitions (mkFiles (jp_build_spill j) (spill_files (jp_build_files j))) B false) as (bs & bv & Ebs & Hbf & Hbv).
  { split; cbn [sf_set sf_files]; [by exists bparts|done|congruence|done|]. apply spill_files_written; [lia|].
    intros q x Hq. rewrite <- HB in Hq. change (map (map logical) bparts) with (map logical <$> bparts) in Hq.
    rewrite list_lookup_fmap in Hq. destruct (bparts !! q) as [y|] eqn:Ey; [|done]. injection Hq as <-.
    rewrite (sp_exists (Z.of_nat q) y) by (rewrite ?Nat2Z.id; (done || lia)). f_equal. apply bool_decide_ext. by destruct y. }
  { eapply Forall_impl; [exact HsB|]. intros x [Hx _]. unfold max_build_rows in Hx. lia. }
  destruct (target_finish nouter npartitions (mkFiles probe (spill_files flags)) R true) as (ps & pv & Eps & Hpf & Hpv).
  { split; cbn [sf_set sf_files]; [by exists pparts|done|done|done|]. rewrite Hfl. apply spill_files_written; [by rewrite length_fmap|].
    intros q x Hq. unfold zget. by rewrite Nat2Z.id, list_lookup_fmap, Hq. }
  { eapply Forall_impl; [exact HsR|]. by intros x [Hx _]. }
  cbn [sf_set sf_files] in *. unfold hash_join_finish_spilled_build, hash_join_finish_spilled_probe. rewrite Ebs, Eps, !bind_Ok.
  eexists _, _. split; [done|]. split; [done|]. exists (mkViews bv pv None). split.
  - split; cbn; try done.
    + by eapply (fresh_group_ok keys ninner nouter).
    + rewrite Hcnt, length_fmap. lia.
    + intros q v _ Hv. rewrite Hcnt, list_lookup_fmap. destruct (Forall2_lookup_r _ _ _ _ _ Hbv Hv) as (x & -> & Hx). cbn.
      by rewrite (fresh_view_rows _ _ Hx).
  - cbn [pa_partition_active start_pass]. split; [by left|]. unfold pass_jobs. cbn. symmetry. by apply fresh_group.
Qed.

(** ** The output *)

Context (natts : Z) (quals : list BatchJoinQual) (needed : list Z) (max_rows : Z).
Context (call_function : Oid → Z → Z → res (option bool)) (exec_qual : option (list (Z * bool) → res bool)).
Context (function_result : Oid → Z → Z → option bool) (qual_result : list (Z * bool) → bool) (scratch : list Z * Z).
Context (Hkeys : keys ≠ []) (Houter : Forall (λ k, 0 ≤ k < nouter) keys.*2) (Hnatts : natts = nouter + ninner).
Context (Hquals : Forall (λ q, 0 ≤ bq_left_column q < natts ∧ 0 ≤ bq_right_column q < natts ∧
  (bq_builtin q = true → is_Some (pg_batch_int4_compare_op (bq_funcid q) 0))) quals).
Context (Hneeded : Forall (λ c, 0 ≤ c < natts) needed).
Context (Hcall : ∀ f l r, call_function f l r = Ok (function_result f l r)).
Context (Hexec : ∀ exec, exec_qual = Some exec → ∀ slot, exec slot = Ok (qual_result slot)).
Context (Hscratch : 64 ≤ zlength scratch.1 ∧ is_u64 scratch.2).

Abbreviation run fuel turns := (join_spilled keys.*1 ninner nouter memory_limit npartitions partition_shift build_chunk_rows fuel turns
  keys natts quals needed max_rows call_function exec_qual scratch).
Abbreviation joins_row := (joins keys nouter natts quals needed exec_qual function_result qual_result).

(** The rows of the batches published for a block, and for all of them. *)
Definition published (o : BuildStore * PgBatchSpillBlock * list (JoinInput * list (Z * Z))) : list (list (option Z) * list (option Z)) :=
  o.2 ≫= λ b : JoinInput * list (Z * Z), output_cells o.1.1 b.1 <$> b.2.

Lemma join_spilled_ok w : ∀ st jobs,
  (jobs_work jobs < w)%nat → between keys ninner nouter npartitions st jobs →
  ∃ n, ∀ fuel turns, (n ≤ fuel)%nat → (n ≤ turns)%nat →
    ∃ out, run fuel turns st = Ok out ∧
      Forall (λ o, Forall (λ b : JoinInput * list (Z * Z), 1 ≤ zlength b.2 ≤ output_capacity max_rows) o.2) out ∧
      (out ≫= published) ≡ₚ joined_cells ninner <$> filter joins_row (jobs_pairs jobs).
Proof using All.
  induction w as [|w IH]; intros st jobs Hw Hst; [lia|].
  destruct (fetch_ok keys ninner nouter npartitions build_chunk_rows memory_limit partition_shift Hninner Hnouter Hchunk Hinner st jobs Hst)
    as (st' & fetched & Ef & Hf). destruct fetched as [block|].
  - destruct Hf as (rows & jobs' & Hwf & Hpk & Htable & Hn & Hbk & Hst' & Hperm & Hless).
    destruct (IH st' jobs') as (n & Hrun); [lia|done|]. exists (S (max n (block_turns keys rows block))).
    intros [|fuel] turns Hfuel Hturns; [lia|]. cbn [join_spilled]. rewrite Ef, bind_Ok. cbn beta iota. rewrite spill_probe_eq, bind_Ok.
    destruct (run_block_ok keys ninner nouter (ld_store (pa_load st')) natts quals needed exec_qual function_result qual_result rows
      Htable Hn Hbk max_rows call_function Hkeys Houter ltac:(lia) Hnatts Hquals Hneeded Hcall Hexec block scratch turns)
      as (out & -> & Hcap & Hout); [done|done|apply Hscratch|apply Hscratch|lia|]. rewrite bind_Ok.
    destruct (Hrun fuel turns) as (rest & -> & Hcaps & Hrest); [lia|lia|]. rewrite bind_Ok. eexists; split; [done|].
    split; [by constructor|]. rewrite bind_cons, Hrest, Hperm, filter_app, fmap_app. f_equiv. exact Hout.
  - destruct Hf as [Hnil _]. exists 1%nat. intros [|fuel] turns Hfuel _; [lia|]. cbn [join_spilled]. rewrite Ef, bind_Ok.
    exists []. by rewrite Hnil.
Qed.

(** Rows that join have equal hashes. *)
Lemma joins_hash b r : keyed keys.*1 b → keyed keys.*2 r → joins_row (b, r) → r.1 = b.1.
Proof using Type.
  intros Hb Hr [E _]. cbn [fst snd] in E. destruct (keyed_values _ _ Hb) as (vs & _ & -> & Hk), (keyed_values _ _ Hr) as (ws & _ & -> & Hk').
  rewrite Hk, Hk' in E. apply (inj (fmap Some)) in E. by rewrite E.
Qed.

(** C3. The spilling hash join over the partitions on disk.  Draining it ends
    without an error, and what it publishes are exactly the joined rows of the
    spilled rows of both sides, each pair once: however the partitions are cut
    into chunks of build rows, whichever of them are split again, and in
    whatever order they come. *)
Theorem spilled_join_spec j probe flags B R l :
  spilled_sides j probe flags B R → bs_ncolumns (ld_store l) = ninner →
  ∃ build probe', hash_join_finish_spilled_build j = Ok build ∧ hash_join_finish_spilled_probe probe flags = Ok probe' ∧
    ∃ n, ∀ fuel turns, (n ≤ fuel)%nat → (n ≤ turns)%nat →
      ∃ out, run fuel turns (start_pass build probe' (jp_partition_rows j) l) = Ok out ∧
        Forall (λ o, Forall (λ b : JoinInput * list (Z * Z), 1 ≤ zlength b.2 ≤ output_capacity max_rows) o.2) out ∧
        (out ≫= published) ≡ₚ joined_cells ninner <$> filter joins_row (cross (concat B) (concat R)).
Proof using All.
  intros Hss Hl. destruct (start_pass_ok j probe flags B R l Hss Hl) as (build & probe' & E1 & E2 & Hst).
  exists build, probe'. split; [done|]. split; [done|].
  destruct (join_spilled_ok _ _ _ (Nat.lt_succ_diag_r _) Hst) as (n & Hrun). exists n. intros fuel turns Hfuel Hturns.
  destruct (Hrun fuel turns Hfuel Hturns) as (out & -> & Hcap & Hout). exists out. split; [done|]. split; [done|]. rewrite Hout.
  destruct Hss as [(bparts & Hsp & HB) (pparts & Hpo & HR) _ [Hpn Hjn] _ _ [HsB HsR] Hplace].
  rewrite <- (concat_zip (λ r, row_partition npartitions r.1) npartitions B R).
  - rewrite <- cross_hash; [done|]. intros b r Hb Hr. apply joins_hash.
    + apply list_elem_of_In, in_concat in Hb as (x & Hx & Hb). apply list_elem_of_In in Hx, Hb. rewrite Forall_forall in HsB.
      destruct (HsB x Hx) as [_ Hk]. rewrite Forall_forall in Hk. auto.
    + apply list_elem_of_In, in_concat in Hr as (x & Hx & Hr). apply list_elem_of_In in Hx, Hr. rewrite Forall_forall in HsR.
      destruct (HsR x Hx) as [_ Hk]. rewrite Forall_forall in Hk. auto.
  - rewrite <- HB, length_map, (sp_parts _ _ _ Hsp). done.
  - rewrite <- HR, length_map, <- Hpn. apply Hpo.
  - intros q x r Hx. apply Hplace. by left.
  - intros q x r Hx. apply Hplace. by right.
  - by intros b r ->.
Qed.
End pass.

(** ** A concrete pass *)

(** Rows of one column, written to a partition of a set of two. *)
Definition sample_write (w : Z * list Z) : spill_op :=
  SpillWriteDense w.1 (zlength w.2) ((λ v, keys_hash (H := reference_core) [v]) <$> w.2) w.2 (zlength w.2) [Z.ones (zlength w.2)].

Definition sample_rows (values : list Z) : list sql_row := (λ v, (keys_hash (H := reference_core) [v], [Some v])) <$> values.

Definition sample_side (left right : list Z) : PgBatchSpillSet :=
  match (s ← pg_batch_spill_create (spill_tuple_desc 1) 1 2 0; foldM run_op [sample_write (0, left); sample_write (1, right)] s) with
  | Ok s => s
  | _ => mkSet 0 0 [] [] [] 0 0 0 false false (mkStats 0 0 0 0 0 0)
  end.

Lemma sample_write_ok w :
  0 ≤ w.1 < 2 → 1 ≤ zlength w.2 ≤ 64 → Forall is_s32 w.2 →
  op_ok 1 2 (sample_write w) ∧ op_rows 1 (sample_write w) = sample_rows w.2.
Proof.
  intros Hp Hn Hv. split.
  - cbn. rewrite length_fmap. split_and!; try (done || lia).
    + apply Forall_fmap, Forall_true. intros v. exact (keys_hash_range (H := reference_core) [v]).
    + constructor; [apply is_u64_ones; lia|done].
  - cbn. transitivity (sample_rows (zget 0 w.2 <$> seqZ 0 (zlength w.2))); [|by rewrite zget_seqZ].
    unfold sample_rows. rewrite <- list_fmap_compose. apply list_fmap_ext. intros i row Hi%lookup_seqZ. assert (Hr : 0 ≤ row < zlength w.2) by lia. unfold compose. f_equal.
    + unfold zget. rewrite list_lookup_fmap. by destruct (lookup_lt_is_Some_2 w.2 (Z.to_nat row)) as [v ->]; [lia|].
    + cbn. unfold dense_value. change (seqZ 0 1) with [0]. cbn [fmap list_fmap].
      change (zget 0 [Z.ones (zlength w.2)] 0) with (Z.ones (zlength w.2)). rewrite Z.mul_0_l, Z.add_0_l.
      rewrite testbit_ones by lia. destruct (Z.leb_spec 0 row), (Z.ltb_spec row (zlength w.2)); try lia. done.
Qed.

Lemma sample_side_ok left right :
  1 ≤ zlength left ≤ 64 → Forall is_s32 left → 1 ≤ zlength right ≤ 64 → Forall is_s32 right →
  ncolumns (sample_side left right) = 1 ∧ npartitions (sample_side left right) = 2 ∧
  ∃ parts, spill_open (sample_side left right) parts ∧ map (map logical) parts = [sample_rows left; sample_rows right].
Proof.
  intros Hl Hvl Hr Hvr. destruct (create_ok (spill_tuple_desc 1) 1 2 0) as (s & E & Ho & Hn & Hp & _); [by apply spill_desc_ok|].
  destruct (sample_write_ok (0, left)) as [Hop1 Hrows1]; [done..|]. destruct (sample_write_ok (1, right)) as [Hop2 Hrows2]; [done..|].
  destruct (run_ops_ok [sample_write (0, left); sample_write (1, right)] s _ Ho) as (s' & parts & E' & (Hc1 & Hc2 & _) & Ho' & Hparts).
  { rewrite Hn, Hp. apply Forall_cons. split; [done|]. by apply Forall_singleton. }
  assert (Es : sample_side left right = s') by (unfold sample_side; by rewrite E, bind_Ok, E'). rewrite Es.
  split; [congruence|]. split; [congruence|]. exists parts. split; [done|]. rewrite Hn in Hparts.
  change (map (map logical) parts) with (map logical <$> parts). apply list_eq. intros p. rewrite list_lookup_fmap, Hparts.
  destruct p as [|[|p]]; [| |done]; unfold rows_for; cbn -[op_rows sample_write]; by rewrite ?Hrows1, ?Hrows2, ?app_nil_r.
Qed.

(** The sides after some rows were written to both partitions. *)
Definition join_over (left right : list Z) : JoinSpill :=
  mkJoinSpill 2 ∅ [0; 0] (sample_side left right) [true; true] [zlength left; zlength right] (zlength left + zlength right) 0.

Lemma sample_keyed values : Forall is_s32 values → Forall (keyed (H := reference_core) [0]) (sample_rows values).
Proof. intros Hv. apply Forall_fmap. eapply Forall_impl; [exact Hv|]. intros v Hs. exists [v]. split; [done|]. split; [by apply Forall_singleton|done]. Qed.

(** Small values. *)
Definition small (l : list Z) : bool := forallb (λ v, (-100 <=? v) && (v <=? 100)) l.

Lemma small_s32 l : small l = true → Forall is_s32 l.
Proof.
  unfold small. rewrite forallb_forall. intros Hl. apply Forall_forall. intros v Hv%list_elem_of_In. specialize (Hl v Hv). unfold is_s32. lia.
Qed.

Definition sample_fits (l : list Z) : bool := small l && (1 <=? zlength l) && (zlength l <=? 64).
Definition sample_placed (p : Z) (l : list Z) : bool := forallb (λ r : sql_row, row_partition 2 r.1 =? p) (sample_rows l).

Lemma sample_fits_ok l : sample_fits l = true → 1 ≤ zlength l ≤ 64 ∧ Forall is_s32 l.
Proof. unfold sample_fits. intros [[Hs H1]%andb_true_iff H2]%andb_true_iff. split; [lia|by apply small_s32]. Qed.

Lemma sample_placed_ok p l r : sample_placed p l = true → r ∈ sample_rows l → row_partition 2 r.1 = p.
Proof. unfold sample_placed. rewrite forallb_forall. intros Hl Hr. apply Z.eqb_eq, Hl. by apply list_elem_of_In. Qed.

Lemma sample_sides_ok l0 l1 r0 r1 :
  sample_fits l0 = true → sample_fits l1 = true → sample_fits r0 = true → sample_fits r1 = true →
  sample_placed 0 l0 = true → sample_placed 1 l1 = true → sample_placed 0 r0 = true → sample_placed 1 r1 = true →
  spilled_sides (H := reference_core) [(0, 0)] 1 1 2 (join_over l0 l1) (sample_side r0 r1) [true; true]
    [sample_rows l0; sample_rows l1] [sample_rows r0; sample_rows r1].
Proof.
  intros [Hl0 Hs0]%sample_fits_ok [Hl1 Hs1]%sample_fits_ok [Hl2 Hs2]%sample_fits_ok [Hl3 Hs3]%sample_fits_ok P0 P1 P2 P3.
  destruct (sample_side_ok l0 l1) as (Hb1 & Hb2 & bparts & Hbo & Hbp); [done..|].
  destruct (sample_side_ok r0 r1) as (Hp1 & Hp2 & pparts & Hpo & Hpp); [done..|].
  assert (Hlen : ∀ l, zlength (sample_rows l) = zlength l) by (intros l; unfold sample_rows; by rewrite length_fmap).
  assert (Hne : ∀ l, 1 ≤ zlength l → sample_rows l ≠ []) by (intros [|v l] Hl; cbn in *; [lia|done]).
  split; try done.
  - exists bparts. split; [|done]. split; try done.
    + apply (f_equal length) in Hbp. rewrite length_map in Hbp. cbn in *. lia.
    + intros q l Hl Hq.
      assert (Hl' : map (map logical) bparts !! Z.to_nat q = Some (map logical l)).
      { change (map (map logical) bparts) with (map logical <$> bparts). by rewrite list_lookup_fmap, Hl. }
      rewrite Hbp in Hl'. assert (l ≠ []) as Hnil.
      { intros ->. destruct (Z.to_nat q) as [|[|?]]; [| |done]; injection Hl' as E; [destruct (Hne l0)|destruct (Hne l1)]; (lia || done). }
      rewrite bool_decide_eq_false_2 by done. unfold zget. cbn [join_over jp_build_files].
      destruct (Z.to_nat q) as [|[|?]]; done.
  - by exists pparts.
  - cbn. by rewrite !bool_decide_eq_false_2 by auto with lia.
  - cbn. by rewrite !Hlen.
  - unfold build_side, probe_side, max_build_rows.
    split; repeat (apply Forall_cons; split; [rewrite Hlen; split; [lia|by apply sample_keyed]|]); done.
  - intros q l r [Hq|Hq] Hr; destruct q as [|[|q]]; try done; injection Hq as <-;
      (eapply sample_placed_ok; [|exact Hr]; assumption).
Qed.

(** Six build rows are in partition 0; chunks of one row make the pass split it. *)
Definition sample_join : JoinSpill := join_over [5; 7; 5; 3; 1; 7] [6].
Definition sample_probe_set : PgBatchSpillSet := sample_side [5; 7; 3] [6; 4].
Definition sample_load : BuildLoad := mkLoad (mkBlock 0 1 0 [] [] []) 0 false (mkStore [] [] [] 1 0 0 0 0 false).

Lemma spilled_join_witness :
  ∃ build probe', hash_join_finish_spilled_build sample_join = Ok build ∧
    hash_join_finish_spilled_probe sample_probe_set [true; true] = Ok probe' ∧
    ∃ n, ∀ fuel turns, (n ≤ fuel)%nat → (n ≤ turns)%nat →
      ∃ out, join_spilled (H := reference_core) [0] 1 1 4096 2 1 1 fuel turns [(0, 0)] 2 [] [] 3 (λ _ _ _, Ok None) None
          (replicate 64 0, 0) (start_pass build probe' (jp_partition_rows sample_join) sample_load) = Ok out ∧
        Forall (λ o, Forall (λ b : JoinInput * list (Z * Z), 1 ≤ zlength b.2 ≤ output_capacity 3) o.2) out ∧
        (out ≫= published) ≡ₚ joined_cells 1 <$> filter (joins [(0, 0)] 1 2 [] [] None (λ _ _ _, None) (λ _, true))
          (cross (concat [sample_rows [5; 7; 5; 3; 1; 7]; sample_rows [6]]) (concat [sample_rows [5; 7; 3]; sample_rows [6; 4]])).
Proof.
  apply (spilled_join_spec (H := reference_core) [(0, 0)] 1 1 2 1 4096 1 ltac:(lia) ltac:(lia) ltac:(lia) ltac:(by repeat constructor)
    2 [] [] 3 (λ _ _ _, Ok None) None (λ _ _ _, None) (λ _, true) (replicate 64 0, 0)); try done.
  - by repeat constructor.
  - apply sample_sides_ok; reflexivity.
Defined.
