(* ===== verification/Aggregate.v ===== *)
(** * The aggregate node ([nodes/aggregate.c])

    Plain and grouped COUNT, SUM, MIN and MAX over int4 columns.  Grouped
    aggregation keeps at most [group_limit] groups in a hash table; rows of
    other groups go to a spill set by the low bits of their hash, and each
    spilled partition is aggregated on its own later, or split further when it
    has too many groups. *)

From S2P Require Import Prelude Words Selection Vector Kernels Int4 Hash Spill SpillLoop.

(** ** Data *)

Inductive PgBatchAggKind : Type :=
| PG_BATCH_AGG_GROUP_KEY
| PG_BATCH_AGG_COUNT_STAR
| PG_BATCH_AGG_COUNT_COLUMN
| PG_BATCH_AGG_SUM_INT4
| PG_BATCH_AGG_MIN_INT4
| PG_BATCH_AGG_MAX_INT4.

#[export] Instance PgBatchAggKind_eq_dec : EqDecision PgBatchAggKind.
Proof. solve_decision. Defined.

Record AggSpec : Type := mkAggSpec { agg_kind : PgBatchAggKind; agg_input : Z }.

Record AggInput : Type := mkAggInput {
  in_column : Z;
  in_flags : Z;
  in_value : PgBatchInt4Reduction;
}.

Record GroupKey : Type := mkGroupKey { gk_value : Z; gk_isnull : bool }.

#[export] Instance GroupKey_eq_dec : EqDecision GroupKey.
Proof. solve_decision. Defined.
#[export] Instance GroupKey_countable : Countable GroupKey.
Proof.
  apply (inj_countable' (λ k, (gk_value k, gk_isnull k)) (λ p, mkGroupKey p.1 p.2)). by intros [].
Defined.

Record GroupEntry : Type := mkEntry {
  ge_key : GroupKey;
  ge_count_star : Z;
  ge_values : list PgBatchInt4Reduction;
}.

(** [set] is a position in [ag_spill_sets]. *)
Record SpillWork : Type := mkWork { wk_set : Z; wk_partition : Z; wk_hash_shift : Z }.

(** What the plan fixes. *)
Record AggPlan : Type := mkAggPlan {
  pl_aggs : list AggSpec;
  pl_inputs : list AggInput;
  pl_has_count_star : bool;
  pl_grouped : bool;
  pl_group_input : Z;
}.

(** A batch of the child: its selection and one vector per input, the view
    [pg_batch_column_get_int4] gives of the input's column. *)
Record AggBatch : Type := mkAggBatch {
  ab_selection : PgBatchSelection;
  ab_vectors : list PgBatchInt4Vector;
}.

Definition no_reduction : PgBatchInt4Reduction := mkReduction 0 0 0 0 false.

(** ** PostgreSQL's hash tables (dynahash) *)

(** A table of group entries: looking up a key, entering a new one and writing
    through the pointer to its entry, counting, and scanning. *)
Class DynaHash : Type := {
  HTAB : Type;
  hash_create : HTAB;
  hash_find : HTAB → GroupKey → option GroupEntry;
  hash_store : HTAB → GroupKey → GroupEntry → HTAB;
  hash_get_num_entries : HTAB → Z;
  hash_seq : HTAB → list GroupEntry;
  hash_contents : HTAB → gmap GroupKey GroupEntry;
  hash_create_spec : hash_contents hash_create = ∅;
  hash_find_spec t k : hash_find t k = hash_contents t !! k;
  hash_store_spec t k e : hash_contents (hash_store t k e) = <[k := e]> (hash_contents t);
  hash_num_spec t : hash_get_num_entries t = Z.of_nat (size (hash_contents t));
  hash_seq_spec t : hash_seq t ≡ₚ (map_to_list (hash_contents t)).*2;
}.

#[refine] Instance reference_hash : DynaHash := {
  HTAB := gmap GroupKey GroupEntry;
  hash_create := ∅;
  hash_find t k := t !! k;
  hash_store t k e := <[k := e]> t;
  hash_get_num_entries t := Z.of_nat (size t);
  hash_seq t := (map_to_list t).*2;
  hash_contents t := t;
}.
Proof. all: done. Defined.

(** ** Planning the inputs *)

(** The switch of [aggregate_flag]; the other kinds do not reach it. *)
Definition aggregate_flag (kind : PgBatchAggKind) : res Z :=
  match kind with
  | PG_BATCH_AGG_COUNT_COLUMN => Ok PG_BATCH_INT4_REDUCE_COUNT
  | PG_BATCH_AGG_SUM_INT4 => Ok PG_BATCH_INT4_REDUCE_SUM
  | PG_BATCH_AGG_MIN_INT4 => Ok PG_BATCH_INT4_REDUCE_MIN
  | PG_BATCH_AGG_MAX_INT4 => Ok PG_BATCH_INT4_REDUCE_MAX
  | PG_BATCH_AGG_COUNT_STAR | PG_BATCH_AGG_GROUP_KEY => Undefined
  end.

(** The first input on [column], -1 when there is none. *)
Fixpoint find_input (inputs : list AggInput) (column i : Z) : Z :=
  match inputs with
  | [] => -1
  | input :: inputs => if in_column input =? column then i else find_input inputs column (i + 1)
  end.

(** The body of the loop of [agg_begin] over the plan's lists. *)
Definition add_agg (spec : PgBatchAggKind * Z) (p : AggPlan) : res AggPlan :=
  let '(kind, column) := spec in
  if decide (kind = PG_BATCH_AGG_COUNT_STAR) then
    Ok (mkAggPlan (pl_aggs p ++ [mkAggSpec kind (-1)]) (pl_inputs p) true (pl_grouped p) (pl_group_input p))
  else
  _ ← raise_if (column <? 0) (Elog "pg_batch aggregate input is missing from child slot");
  let found := find_input (pl_inputs p) column 0 in
  let inputs := if found <? 0 then pl_inputs p ++ [mkAggInput column 0 no_reduction] else pl_inputs p in
  let input := if found <? 0 then zlength (pl_inputs p) else found in
  let aggs := pl_aggs p ++ [mkAggSpec kind input] in
  if decide (kind = PG_BATCH_AGG_GROUP_KEY) then
    _ ← raise_if (pl_grouped p && negb (pl_group_input p =? input))
          (Elog "pg_batch aggregate has more than one group key");
    Ok (mkAggPlan aggs inputs (pl_has_count_star p) true (if pl_grouped p then pl_group_input p else input))
  else
  flag ← aggregate_flag kind;
  i ← aref inputs input;
  inputs ← aset inputs input (mkAggInput (in_column i) (Z.lor (in_flags i) flag) (in_value i));
  Ok (mkAggPlan aggs inputs (pl_has_count_star p) (pl_grouped p) (pl_group_input p)).

Definition plan_aggs (specs : list (PgBatchAggKind * Z)) : res AggPlan :=
  foldM add_agg specs (mkAggPlan [] [] false false 0).

Section agg.
Context `{PgCore} `{LogicalTapes} `{DynaHash}.

Definition add_int64_checked (target addend : Z) : res Z :=
  match pg_add_s64_overflow target addend with
  | Some result => Ok result
  | None => Raise NumericValueOutOfRange
  end.

(** ** Without groups *)

Definition merge_reduction (input : AggInput) (partial : PgBatchInt4Reduction) : res AggInput :=
  let flags := in_flags input in
  value ← (if has_flag flags PG_BATCH_INT4_REDUCE_COUNT
           then c ← add_int64_checked (r_count (in_value input)) (r_count partial); Ok (set_count (in_value input) c)
           else Ok (in_value input));
  if negb (r_has_value partial) then Ok (mkAggInput (in_column input) flags value) else
  value ← (if has_flag flags PG_BATCH_INT4_REDUCE_SUM
           then s ← add_int64_checked (r_sum value) (r_sum partial); Ok (set_sum value s)
           else Ok value);
  let value :=
    if negb (r_has_value value) then
      let value := if has_flag flags PG_BATCH_INT4_REDUCE_MIN then set_min value (r_min partial) else value in
      let value := if has_flag flags PG_BATCH_INT4_REDUCE_MAX then set_max value (r_max partial) else value in
      set_has_value value
    else
      let value := if has_flag flags PG_BATCH_INT4_REDUCE_MIN && (r_min partial <? r_min value)
                   then set_min value (r_min partial) else value in
      if has_flag flags PG_BATCH_INT4_REDUCE_MAX && (r_max value <? r_max partial)
      then set_max value (r_max partial) else value in
  Ok (mkAggInput (in_column input) flags value).

(** The inputs with their running values, and the running [count_star]. *)
Definition advance_aggregates (has_count_star : bool) (batch : AggBatch) (selected : Z) (st : list AggInput * Z)
    : res (list AggInput * Z) :=
  count_star ← (if has_count_star then add_int64_checked st.2 selected else Ok st.2);
  inputs ← foldM (λ i inputs,
      input ← aref inputs i;
      column ← aref (ab_vectors batch) i;
      partial ← pg_batch_reduce_int4 column (ab_selection batch) (in_flags input);
      input ← merge_reduction input partial;
      aset inputs i input) (seqZ 0 (zlength st.1)) st.1;
  Ok (inputs, count_star).

Definition Int64GetDatum (v : Z) : Z := v mod 2 ^ 64.

(** The value and the NULL flag of one result column. *)
Definition plain_result (inputs : list AggInput) (count_star : Z) (agg : AggSpec) : res (Z * bool) :=
  match agg_kind agg with
  | PG_BATCH_AGG_COUNT_STAR => Ok (Int64GetDatum count_star, false)
  | kind =>
      input ← aref inputs (agg_input agg);
      let value := in_value input in
      match kind with
      | PG_BATCH_AGG_COUNT_COLUMN => Ok (Int64GetDatum (r_count value), false)
      | _ =>
          if negb (r_has_value value) then Ok (0, true) else
          match kind with
          | PG_BATCH_AGG_SUM_INT4 => Ok (Int64GetDatum (r_sum value), false)
          | PG_BATCH_AGG_MIN_INT4 => Ok (Int32GetDatum (r_min value), false)
          | PG_BATCH_AGG_MAX_INT4 => Ok (Int32GetDatum (r_max value), false)
          | _ => Undefined
          end
      end
  end.

Definition reset_aggregate_values (inputs : list AggInput) : list AggInput :=
  (λ i, mkAggInput (in_column i) (in_flags i) no_reduction) <$> inputs.

(** [agg_exec] of a plan without groups, on all batches of the child. *)
Definition agg_exec (p : AggPlan) (batches : list AggBatch) : res (list (Z * bool)) :=
  st ← foldM (λ batch st,
      selected ← pg_batch_selection_count (ab_selection batch);
      advance_aggregates (pl_has_count_star p) batch selected st) batches (reset_aggregate_values (pl_inputs p), 0);
  foldM (λ agg row, v ← plain_result st.1 st.2 agg; Ok (row ++ [v])) (pl_aggs p) [].
End agg.
