(* ===== verification/AggProps.v ===== *)
(** * The aggregate node: plans and plain aggregates

    What planning the inputs establishes, how partial reductions merge, and the
    result of a plan without groups. *)

From S2P Require Import Prelude Words Selection Vector Kernels Int4 Hash Spill SpillLoop Aggregate.

(** ** The aggregates of SQL *)

(** A row of the child, by column; [None] is NULL. *)
Definition agg_row : Type := Z → option Z.

(** A batch of the child: a selection and a view of every column. *)
Record ChildBatch : Type := mkChildBatch {
  cb_selection : PgBatchSelection;
  cb_columns : Z → PgBatchInt4Vector;
}.

Definition batch_rows (b : ChildBatch) : list agg_row :=
  (λ row c, cell (cb_columns b c) row) <$> selected_rows (cb_selection b).

(** What the node reads of a batch. *)
Definition load_batch (p : AggPlan) (b : ChildBatch) : AggBatch :=
  mkAggBatch (cb_selection b) ((λ i, cb_columns b (in_column i)) <$> pl_inputs p).

Definition column_values (column : Z) (rows : list agg_row) : list Z := omap (λ r, r column) rows.

(** A result column: COUNT is never NULL, SUM, MIN and MAX of no value are. *)
Definition of_values (vs : list Z) (datum : Z) : Z * bool :=
  match vs with [] => (0, true) | _ => (datum, false) end.

Definition agg_value (spec : PgBatchAggKind * Z) (rows : list agg_row) : Z * bool :=
  let vs := column_values spec.2 rows in
  match spec.1 with
  | PG_BATCH_AGG_GROUP_KEY =>
      match rows with
      | r :: _ => match r spec.2 with Some v => (Int32GetDatum v, false) | None => (0, true) end
      | [] => (0, true)
      end
  | PG_BATCH_AGG_COUNT_STAR => (Int64GetDatum (zlength rows), false)
  | PG_BATCH_AGG_COUNT_COLUMN => (Int64GetDatum (zlength vs), false)
  | PG_BATCH_AGG_SUM_INT4 => of_values vs (Int64GetDatum (sumZ vs))
  | PG_BATCH_AGG_MIN_INT4 => of_values vs (Int32GetDatum (minZ vs))
  | PG_BATCH_AGG_MAX_INT4 => of_values vs (Int32GetDatum (maxZ vs))
  end.

Definition agg_values (specs : list (PgBatchAggKind * Z)) (rows : list agg_row) : list (Z * bool) :=
  (λ spec, agg_value spec rows) <$> specs.

(** ** Plans *)

Definition group_columns (specs : list (PgBatchAggKind * Z)) : list Z :=
  (filter (λ s, s.1 = PG_BATCH_AGG_GROUP_KEY) specs).*2.

(** What the planner passes: columns of the child, and one group column. *)
Definition specs_ok (specs : list (PgBatchAggKind * Z)) : Prop :=
  Forall (λ s, s.1 ≠ PG_BATCH_AGG_COUNT_STAR → 0 ≤ s.2) specs ∧
  ∀ c d, c ∈ group_columns specs → d ∈ group_columns specs → c = d.

Definition flag_of (kind : PgBatchAggKind) : Z :=
  match kind with
  | PG_BATCH_AGG_COUNT_COLUMN => 1
  | PG_BATCH_AGG_SUM_INT4 => 2
  | PG_BATCH_AGG_MIN_INT4 => 4
  | PG_BATCH_AGG_MAX_INT4 => 8
  | _ => 0
  end.

(** Input [n] is [column], and its flags have those of [flags]. *)
Definition input_at (inputs : list AggInput) (n column flags : Z) : Prop :=
  0 ≤ n ∧ ∃ i, inputs !! Z.to_nat n = Some i ∧ in_column i = column ∧ Z.land (in_flags i) flags = flags.

Record plan_ok (specs : list (PgBatchAggKind * Z)) (p : AggPlan) : Prop := {
  po_aggs : Forall2 (λ s a, agg_kind a = s.1 ∧
    (s.1 ≠ PG_BATCH_AGG_COUNT_STAR → input_at (pl_inputs p) (agg_input a) s.2 (flag_of s.1))) specs (pl_aggs p);
  po_inputs : Forall (λ i, in_value i = no_reduction ∧
    (∃ s, s ∈ specs ∧ s.1 ≠ PG_BATCH_AGG_COUNT_STAR ∧ in_column i = s.2) ∧
    (in_flags i = 0 → pl_grouped p = true)) (pl_inputs p);
  po_columns : NoDup (in_column <$> pl_inputs p);
  po_star : pl_has_count_star p = bool_decide (PG_BATCH_AGG_COUNT_STAR ∈ specs.*1);
  po_grouped : pl_grouped p = bool_decide (group_columns specs ≠ []);
  po_key : ∀ c, c ∈ group_columns specs → input_at (pl_inputs p) (pl_group_input p) c 0;
}.

Lemma find_input_spec inputs column i :
  0 ≤ i →
  find_input inputs column i = -1 ∧ column ∉ in_column <$> inputs ∨
  i ≤ find_input inputs column i ∧
  ∃ input, inputs !! Z.to_nat (find_input inputs column i - i) = Some input ∧ in_column input = column.
Proof.
  revert i. induction inputs as [|input inputs IH]; intros i Hi; [left; set_solver|]. cbn [find_input].
  destruct (Z.eqb_spec (in_column input) column) as [E|E].
  - right. split; [lia|]. rewrite Z.sub_diag. by exists input.
  - destruct (IH (i + 1)) as [[-> Hn]|(Hle & input' & Hin & E')]; [lia|left; set_solver|]. right. split; [lia|]. exists input'.
    split; [|done]. by replace (Z.to_nat _) with (S (Z.to_nat (find_input inputs column (i + 1) - (i + 1)))) by lia.
Qed.

(** Planning only adds inputs and flags. *)
Definition inputs_le (l l' : list AggInput) : Prop := ∀ n i,
  l !! n = Some i → ∃ i', l' !! n = Some i' ∧ in_column i' = in_column i ∧ Z.land (in_flags i) (in_flags i') = in_flags i.

Lemma input_at_mono l l' n column flags : inputs_le l l' → input_at l n column flags → input_at l' n column flags.
Proof.
  intros Hle (Hn & i & Hi & Hc & Hf). destruct (Hle _ _ Hi) as (i' & Hi' & Hc' & Hf').
  split; [done|]. exists i'. split; [done|]. split; [congruence|].
  rewrite <- Hf. rewrite <- Hf', !Z.land_assoc.
  rewrite (Z.land_comm (in_flags i') (in_flags i)), <- (Z.land_assoc _ (in_flags i') (in_flags i')), Z.land_diag. done.
Qed.

Lemma inputs_le_app l x : inputs_le l (l ++ x).
Proof. intros n i Hn. exists i. split; [by apply lookup_app_l_Some|]. split; [done|]. apply Z.land_diag. Qed.

Lemma inputs_le_flag l n i flag :
  l !! n = Some i →
  inputs_le l (<[n := mkAggInput (in_column i) (Z.lor (in_flags i) flag) (in_value i)]> l).
Proof.
  intros Hn m j Hm. destruct (decide (m = n)) as [->|Hne].
  - rewrite Hm in Hn. injection Hn as ->. eexists. split; [rewrite list_lookup_insert_eq; [done|by eapply lookup_lt_Some]|].
    split; [done|]. cbn. apply Z.bits_inj'. intros b _. rewrite Z.land_spec, Z.lor_spec. by destruct (Z.testbit _ _).
  - exists j. rewrite list_lookup_insert_ne by done. split; [done|]. split; [done|]. apply Z.land_diag.
Qed.

Lemma inputs_le_trans l1 l2 l3 : inputs_le l1 l2 → inputs_le l2 l3 → inputs_le l1 l3.
Proof.
  intros H1 H2 n i Hi. destruct (H1 _ _ Hi) as (j & Hj & Ec & Ef). destruct (H2 _ _ Hj) as (k & Hk & Ec' & Ef').
  exists k. split; [done|]. split; [congruence|]. rewrite <- Ef. rewrite <- Z.land_assoc. by rewrite Ef'.
Qed.

Lemma group_columns_snoc specs spec :
  group_columns (specs ++ [spec]) =
    group_columns specs ++ (if decide (spec.1 = PG_BATCH_AGG_GROUP_KEY) then [spec.2] else []).
Proof.
  unfold group_columns. rewrite filter_app, fmap_app. f_equal. rewrite filter_cons, filter_nil.
  by destruct (decide _).
Qed.

Lemma planned_aggs specs spec p inputs a :
  plan_ok specs p → inputs_le (pl_inputs p) inputs → agg_kind a = spec.1 →
  (spec.1 ≠ PG_BATCH_AGG_COUNT_STAR → input_at inputs (agg_input a) spec.2 (flag_of spec.1)) →
  Forall2 (λ s a, agg_kind a = s.1 ∧
    (s.1 ≠ PG_BATCH_AGG_COUNT_STAR → input_at inputs (agg_input a) s.2 (flag_of s.1)))
    (specs ++ [spec]) (pl_aggs p ++ [a]).
Proof.
  intros Hp Hle Ha Hin. apply Forall2_app; [|by constructor].
  eapply Forall2_impl; [apply Hp|]. cbn. intros s x [Hk H]. split; [done|]. intros Hs. eapply input_at_mono; eauto.
Qed.

(** The input of a column, found or added. *)
Lemma find_or_add inputs column :
  let found := find_input inputs column 0 in
  let inputs' := if found <? 0 then inputs ++ [mkAggInput column 0 no_reduction] else inputs in
  let n := if found <? 0 then zlength inputs else found in
  input_at inputs' n column 0 ∧ inputs_le inputs inputs' ∧ n < zlength inputs' ∧
  (∀ i, i ∈ inputs' → i ∈ inputs ∨ i = mkAggInput column 0 no_reduction) ∧
  (NoDup (in_column <$> inputs) → NoDup (in_column <$> inputs')).
Proof.
  cbv zeta. destruct (find_input_spec inputs column 0) as [[E Hn]|(Hpos & i & Hi & Hc)]; [done| |].
  - rewrite E. change (-1 <? 0) with true. cbv iota. split_and!.
    + split; [lia|]. eexists. rewrite Nat2Z.id, lookup_app_r, Nat.sub_diag by lia. split; [done|]. split; [done|]. apply Z.land_0_r.
    + apply inputs_le_app.
    + rewrite length_app. cbn. lia.
    + set_solver.
    + intros Hnd. rewrite fmap_app. apply NoDup_app. split; [done|]. split; [set_solver|]. apply NoDup_singleton.
  - rewrite Z.sub_0_r in Hi. destruct (Z.ltb_spec (find_input inputs column 0) 0); [lia|]. split_and!.
    + split; [done|]. exists i. split_and!; [done|done|]. apply Z.land_0_r.
    + intros n j Hn. exists j. split_and!; [done|done|]. apply Z.land_diag.
    + pose proof (lookup_lt_Some _ _ _ Hi). lia.
    + auto.
    + done.
Qed.

Lemma input_at_unique inputs n m column f g :
  NoDup (in_column <$> inputs) → input_at inputs n column f → input_at inputs m column g → n = m.
Proof.
  intros Hnd (Hn & i & Hi & Hc & _) (Hm & j & Hj & Hd & _). cut (Z.to_nat n = Z.to_nat m); [lia|].
  eapply NoDup_lookup; [exact Hnd| |]; rewrite list_lookup_fmap; [by rewrite Hi|by rewrite Hj; cbn; congruence].
Qed.

Lemma group_columns_in c specs : c ∈ group_columns specs ↔ (PG_BATCH_AGG_GROUP_KEY, c) ∈ specs.
Proof.
  unfold group_columns. rewrite list_elem_of_fmap. setoid_rewrite list_elem_of_filter. split.
  - intros ([k d] & -> & <- & Hin). done.
  - intros Hin. by exists (PG_BATCH_AGG_GROUP_KEY, c).
Qed.

Lemma star_snoc (specs : list (PgBatchAggKind * Z)) spec :
  spec.1 ≠ PG_BATCH_AGG_COUNT_STAR →
  bool_decide (PG_BATCH_AGG_COUNT_STAR ∈ (specs ++ [spec]).*1) = bool_decide (PG_BATCH_AGG_COUNT_STAR ∈ specs.*1).
Proof. intros Hs. apply bool_decide_ext. rewrite fmap_app. set_solver. Qed.

(** One more aggregate that is not COUNT of all rows: its input is found or added. *)
Lemma add_input_ok specs spec p :
  plan_ok specs p → specs_ok (specs ++ [spec]) → spec.1 ≠ PG_BATCH_AGG_COUNT_STAR →
  ∃ p', add_agg spec p = Ok p' ∧ plan_ok (specs ++ [spec]) p'.
Proof.
  intros Hp [Hcols Hone] Hs. destruct spec as [kind column]. cbn in Hs. unfold add_agg. rewrite decide_False by done.
  apply Forall_app in Hcols as [_ Hcol]. rewrite Forall_singleton in Hcol. cbn in Hcol. specialize (Hcol Hs).
  destruct (Z.ltb_spec column 0); [lia|]. cbn [raise_if]. rewrite bind_Ok. cbv zeta.
  destruct (find_or_add (pl_inputs p) column) as (Hat & Hle & Hlt & Hnew & Hnd). cbv zeta in *.
  set (inputs := if find_input (pl_inputs p) column 0 <? 0 then pl_inputs p ++ _ else _) in *.
  set (n := if find_input (pl_inputs p) column 0 <? 0 then zlength (pl_inputs p) else _) in *.
  specialize (Hnd (po_columns _ _ Hp)).
  assert (Hold : ∀ i, i ∈ inputs → in_value i = no_reduction ∧
    (∃ s, s ∈ specs ++ [(kind, column)] ∧ s.1 ≠ PG_BATCH_AGG_COUNT_STAR ∧ in_column i = s.2) ∧
    (in_flags i = 0 → pl_grouped p = true ∨ i = mkAggInput column 0 no_reduction)).
  { intros i [Hi| ->]%Hnew.
    - pose proof (po_inputs _ _ Hp) as Hall. rewrite Forall_forall in Hall. specialize (Hall i Hi) as (Hv & (s & ? & ? & ?) & Hf).
      split; [done|]. split; [exists s; set_solver|]. auto.
    - split; [done|]. split; [exists (kind, column); set_solver|]. auto. }
  destruct (decide (kind = PG_BATCH_AGG_GROUP_KEY)) as [->|Hk].
  - assert (Hgc : group_columns (specs ++ [(PG_BATCH_AGG_GROUP_KEY, column)]) = group_columns specs ++ [column])
      by by rewrite group_columns_snoc.
    assert (Hg : pl_grouped p = true → pl_group_input p = n).
    { rewrite (po_grouped _ _ Hp). intros Hne%bool_decide_eq_true_1.
      assert (column ∈ group_columns specs) as Hin.
      { destruct (group_columns specs) as [|c l]; [done|]. replace column with c; [set_solver|]. apply Hone; rewrite Hgc; set_solver. }
      eapply input_at_unique; [exact Hnd| |exact Hat]. eapply input_at_mono; [exact Hle|]. by apply (po_key _ _ Hp). }
    assert (pl_grouped p && negb (pl_group_input p =? n) = false) as ->.
    { destruct (pl_grouped p); [|done]. rewrite Hg by done. by rewrite Z.eqb_refl. }
    cbn [raise_if]. rewrite bind_Ok. eexists. split; [done|]. constructor; cbn.
    + by apply planned_aggs.
    + apply Forall_forall. intros i Hi. destruct (Hold i Hi) as (Hv & Hex & _). by split_and!.
    + done.
    + rewrite star_snoc by done. apply Hp.
    + rewrite Hgc. symmetry. apply bool_decide_eq_true_2. by destruct (group_columns specs).
    + intros c Hc. replace c with column by (apply Hone; [rewrite Hgc; set_solver|done]).
      destruct (pl_grouped p); [by rewrite Hg|done].
  - destruct Hat as (Hn & i & Hi & Hic & Hif). assert (aggregate_flag kind = Ok (flag_of kind)) as -> by by destruct kind.
    rewrite bind_Ok, (aref_lookup _ _ i), bind_Ok by (done || lia).
    rewrite aset_ok, bind_Ok by lia. pose proof (inputs_le_flag _ _ _ (flag_of kind) Hi) as Hle'.
    eexists. split; [done|]. rewrite <- Hic in *. constructor; cbn.
    + apply planned_aggs; [done|by eapply inputs_le_trans|done|]. intros _. split; [done|]. eexists. cbn.
      rewrite list_lookup_insert_eq by (by eapply lookup_lt_Some). split; [done|]. split; [done|]. cbn.
      apply Z.bits_inj'. intros b _. rewrite Z.land_spec, Z.lor_spec. by destruct (Z.testbit (flag_of kind) b), (Z.testbit (in_flags i) b).
    + apply Forall_lookup_2. intros m j Hm. destruct (decide (m = Z.to_nat n)) as [->|Hne].
      * rewrite list_lookup_insert_eq in Hm by (by eapply lookup_lt_Some). injection Hm as <-.
        apply list_elem_of_lookup_2 in Hi. destruct (Hold i Hi) as (Hv & Hex & _). split_and!; [done|done|]. cbn.
        intros [_ Hz]%Z.lor_eq_0_iff. by destruct kind.
      * rewrite list_lookup_insert_ne in Hm by done. destruct (Hold j) as (Hv & Hex & Hf); [by eapply list_elem_of_lookup_2|].
        split_and!; [done|done|]. intros Hz. destruct (Hf Hz) as [?| ->]; [done|]. destruct Hne.
        eapply NoDup_lookup; [exact Hnd| |]; rewrite list_lookup_fmap; [by rewrite Hm|by rewrite Hi].
    + rewrite list_fmap_insert. cbn. by rewrite list_insert_id by (by rewrite list_lookup_fmap, Hi).
    + rewrite star_snoc by done. apply Hp.
    + rewrite group_columns_snoc. cbn. rewrite decide_False, app_nil_r by done. apply Hp.
    + intros c Hc. rewrite group_columns_snoc in Hc. cbn in Hc. rewrite decide_False, app_nil_r in Hc by done.
      eapply input_at_mono; [|by apply (po_key _ _ Hp)]. by eapply inputs_le_trans.
Qed.

Lemma plan_aggs_ok specs : specs_ok specs → ∃ p, plan_aggs specs = Ok p ∧ plan_ok specs p.
Proof.
  intros Hs. unfold plan_aggs. apply foldM_inv.
  - constructor; cbn; try done; [apply NoDup_nil_2|]. intros c Hc. by apply elem_of_nil in Hc.
  - intros pre spec post p -> Hp.
    assert (specs_ok (pre ++ [spec])) as Hpre.
    { destruct Hs as [Hc Ho]. rewrite cons_middle, app_assoc in Hc. apply Forall_app in Hc as [Hc _].
      split; [done|]. intros c d Hin Hd. apply Ho; rewrite group_columns_in in *; set_solver. }
    destruct (decide (spec.1 = PG_BATCH_AGG_COUNT_STAR)) as [E|]; [|by apply add_input_ok].
    unfold add_agg. destruct spec as [kind column]. cbn in E. subst kind. rewrite decide_True by done.
    eexists. split; [done|]. constructor; cbn.
    + apply planned_aggs; try done. intros n i Hi. exists i. split_and!; [done..|apply Z.land_diag].
    + eapply Forall_impl; [apply Hp|]. cbn. intros i (Hv & (s & Hin & ?) & Hf). split_and!; [done| |done]. exists s. set_solver.
    + apply Hp.
    + symmetry. apply bool_decide_eq_true_2. rewrite fmap_app. set_solver.
    + rewrite group_columns_snoc, app_nil_r. apply Hp.
    + rewrite group_columns_snoc, app_nil_r. apply Hp.
Qed.

(** ** Merging *)

Lemma minZ_app l1 l2 : l1 ≠ [] → l2 ≠ [] → minZ (l1 ++ l2) = Z.min (minZ l1) (minZ l2).
Proof.
  intros H1. induction l2 as [|v l2 IH] using rev_ind; [done|]. intros _. rewrite app_assoc, !minZ_snoc.
  destruct l2 as [|w l2]; [rewrite app_nil_r; by destruct l1|]. rewrite IH by done. destruct l1; [done|]. cbn [app]. lia.
Qed.

Lemma maxZ_app l1 l2 : l1 ≠ [] → l2 ≠ [] → maxZ (l1 ++ l2) = Z.max (maxZ l1) (maxZ l2).
Proof.
  intros H1. induction l2 as [|v l2 IH] using rev_ind; [done|]. intros _. rewrite app_assoc, !maxZ_snoc.
  destruct l2 as [|w l2]; [rewrite app_nil_r; by destruct l1|]. rewrite IH by done. destruct l1; [done|]. cbn [app]. lia.
Qed.

(** The rows one aggregation can take before a sum could overflow. *)
Definition max_agg_rows : Z := 2 ^ 32.

Section plain.
Context `{PgCore}.

Lemma add_int64_ok a b : - 2 ^ 63 ≤ a < 2 ^ 63 → - 2 ^ 63 ≤ b < 2 ^ 63 → - 2 ^ 63 ≤ a + b < 2 ^ 63 →
  add_int64_checked a b = Ok (a + b).
Proof.
  intros Ha Hb Hab. unfold add_int64_checked.
  assert (Hin : ∀ v, - 2 ^ 63 ≤ v < 2 ^ 63 → in_s64 v = true) by (intros v Hv; unfold in_s64; lia).
  by rewrite add64_overflow_spec, !Hin by auto.
Qed.

Lemma merge_ok column flags vs ws :
  Forall is_s32 vs → Forall is_s32 ws → zlength vs + zlength ws < max_agg_rows →
  merge_reduction (mkAggInput column flags (reduction_of flags vs)) (reduction_of flags ws) =
    Ok (mkAggInput column flags (reduction_of flags (vs ++ ws))).
Proof.
  intros Hv Hw Hlen. unfold merge_reduction, max_agg_rows in *. cbn [in_flags in_value in_column].
  pose proof (sumZ_bound _ Hv). pose proof (sumZ_bound _ Hw).
  destruct ws as [|w ws].
  { rewrite app_nil_r. unfold reduction_of. cbn [r_count r_has_value negb length Z.of_nat]. destruct (has_flag flags _); [|done].
    rewrite add_int64_ok, bind_Ok by (cbn [length] in *; lia). unfold set_count. cbn. by rewrite Z.add_0_r. }
  set (l := w :: ws) in *. assert (Hl : l ≠ []) by done.
  assert (Hr : r_has_value (reduction_of flags l) = true) by done. rewrite Hr. cbn [negb].
  assert (Hc : (if has_flag flags PG_BATCH_INT4_REDUCE_COUNT
      then c ← add_int64_checked (r_count (reduction_of flags vs)) (r_count (reduction_of flags l));
           Ok (set_count (reduction_of flags vs) c)
      else Ok (reduction_of flags vs)) =
    Ok (set_count (reduction_of flags vs) (r_count (reduction_of flags (vs ++ l))))).
  { unfold reduction_of. cbn [r_count]. destruct (has_flag flags PG_BATCH_INT4_REDUCE_COUNT); [|done].
    by rewrite add_int64_ok, bind_Ok, length_app, Nat2Z.inj_add by lia. }
  rewrite Hc, bind_Ok.
  assert (Hs : (if has_flag flags PG_BATCH_INT4_REDUCE_SUM
      then s ← add_int64_checked (r_sum (set_count (reduction_of flags vs) (r_count (reduction_of flags (vs ++ l)))))
                 (r_sum (reduction_of flags l));
           Ok (set_sum (set_count (reduction_of flags vs) (r_count (reduction_of flags (vs ++ l)))) s)
      else Ok (set_count (reduction_of flags vs) (r_count (reduction_of flags (vs ++ l))))) =
    Ok (set_sum (set_count (reduction_of flags vs) (r_count (reduction_of flags (vs ++ l))))
          (r_sum (reduction_of flags (vs ++ l))))).
  { unfold reduction_of, set_count, set_sum. cbn [r_sum]. destruct (has_flag flags PG_BATCH_INT4_REDUCE_SUM); [|done].
    by rewrite add_int64_ok, bind_Ok, sumZ_app by lia. }
  rewrite Hs, bind_Ok. do 2 f_equal. unfold reduction_of, set_min, set_max, set_has_value, set_count, set_sum.
  destruct vs as [|v vs].
  - cbn [app r_has_value negb]. by destruct (has_flag flags PG_BATCH_INT4_REDUCE_MIN), (has_flag flags PG_BATCH_INT4_REDUCE_MAX).
  - rewrite !minZ_app, !maxZ_app by done. cbn [app r_has_value negb].
    destruct (has_flag flags PG_BATCH_INT4_REDUCE_MIN), (has_flag flags PG_BATCH_INT4_REDUCE_MAX);
      cbn [andb r_min r_max]; repeat case_match; f_equal; cbn [r_min r_max] in *; lia.
Qed.

(** A loop that replaces every element of a list. *)
Lemma for_update {A} (f : Z → list A → res (list A)) (L L' : list A) :
  length L = length L' →
  (∀ i x x' l, L !! i = Some x → L' !! i = Some x' → l !! i = Some x → length l = length L →
     f (Z.of_nat i) l = Ok (<[i := x']> l)) →
  foldM f (seqZ 0 (zlength L)) L = Ok L'.
Proof.
  intros Hlen Hf.
  destruct (for_inv (λ n l, l = take (Z.to_nat n) L' ++ drop (Z.to_nat n) L) f (zlength L) L) as (l & -> & ->); [lia|done| |].
  - intros n l Hn ->. destruct (lookup_lt_is_Some_2 L (Z.to_nat n)) as [x Hx]; [lia|].
    destruct (lookup_lt_is_Some_2 L' (Z.to_nat n)) as [x' Hx']; [lia|]. eexists. split.
    + rewrite <- (Z2Nat.id n) at 1 by lia. eapply Hf; [done|done| |].
      * rewrite lookup_app_r, length_take_le, Nat.sub_diag by (rewrite ?length_take; lia). by rewrite lookup_drop, Nat.add_0_r.
      * rewrite length_app, length_take, length_drop. lia.
    + rewrite (drop_S L x) by done. rewrite insert_app_r_alt, length_take_le, Nat.sub_diag by (rewrite ?length_take; lia). cbn.
      replace (Z.to_nat (n + 1)) with (S (Z.to_nat n)) by lia. rewrite (take_S_r L' _ x') by done. by rewrite <- app_assoc.
  - rewrite take_ge, drop_ge, app_nil_r by lia. done.
Qed.

Lemma column_values_app c rows1 rows2 : column_values c (rows1 ++ rows2) = column_values c rows1 ++ column_values c rows2.
Proof. apply omap_app. Qed.

Lemma column_values_batch c b : column_values c (batch_rows b) = selected_values (cb_columns b c) (cb_selection b).
Proof.
  unfold column_values, batch_rows, selected_values. induction (selected_rows _) as [|row l IH]; [done|].
  cbn. destruct (cell (cb_columns b c) row); cbn; by rewrite IH.
Qed.

Lemma column_values_length c rows : zlength (column_values c rows) ≤ zlength rows.
Proof. apply inj_le, length_omap_le. Qed.

Lemma reduction_nil flags : reduction_of flags [] = no_reduction.
Proof. unfold reduction_of. by repeat case_match. Qed.

(** A batch the node can read. *)
Definition batch_ok (specs : list (PgBatchAggKind * Z)) (b : ChildBatch) : Prop :=
  sel_wf (cb_selection b) ∧ sel_clean (cb_selection b) ∧
  ∀ s, s ∈ specs → s.1 ≠ PG_BATCH_AGG_COUNT_STAR → col_wf (cb_columns b s.2) (nrows (cb_selection b)).

(** The rows of a sequence of batches. *)
Definition child_rows (bs : list ChildBatch) : list agg_row := bs ≫= batch_rows.

Section exec.
Context (specs : list (PgBatchAggKind * Z)) (p : AggPlan).
Context (Hp : plan_ok specs p).

(** The values of an input's column fit in 32 bits. *)
Definition rows_s32 (rows : list agg_row) : Prop :=
  ∀ s, s ∈ specs → s.1 ≠ PG_BATCH_AGG_COUNT_STAR → Forall is_s32 (column_values s.2 rows).

Lemma rows_s32_app rows1 rows2 : rows_s32 (rows1 ++ rows2) ↔ rows_s32 rows1 ∧ rows_s32 rows2.
Proof. unfold rows_s32. setoid_rewrite column_values_app. setoid_rewrite Forall_app. naive_solver. Qed.

Lemma rows_s32_batch b : batch_ok specs b → rows_s32 (batch_rows b).
Proof.
  intros (Hs & _ & Hc) s Hin Hk. rewrite column_values_batch. apply Forall_forall. intros v Hv.
  apply list_elem_of_omap in Hv as (row & [Hrow _]%contains_selected_rows & Hcell). by eapply cell_s32; [by apply Hc|done|].
Qed.

Definition inputs_after (rows : list agg_row) : list AggInput :=
  (λ i, mkAggInput (in_column i) (in_flags i) (reduction_of (in_flags i) (column_values (in_column i) rows))) <$> pl_inputs p.

Definition star_after (rows : list agg_row) : Z := if pl_has_count_star p then zlength rows else 0.

Lemma inputs_after_nil : inputs_after [] = reset_aggregate_values (pl_inputs p).
Proof. apply list_fmap_ext. intros n i _. by rewrite reduction_nil. Qed.

Lemma advance_aggregates_ok b rows :
  pl_grouped p = false → batch_ok specs b → rows_s32 rows → zlength rows + zlength (batch_rows b) < max_agg_rows →
  advance_aggregates (pl_has_count_star p) (load_batch p b) (zlength (batch_rows b)) (inputs_after rows, star_after rows) =
    Ok (inputs_after (rows ++ batch_rows b), star_after (rows ++ batch_rows b)).
Proof.
  intros Hg Hb Hr Hlen. pose proof (rows_s32_batch b Hb) as Hbr. unfold advance_aggregates. cbn [fst snd].
  assert ((if pl_has_count_star p then add_int64_checked (star_after rows) (zlength (batch_rows b)) else Ok (star_after rows)) =
    Ok (star_after (rows ++ batch_rows b))) as ->.
  { unfold star_after, max_agg_rows in *. destruct (pl_has_count_star p); [|done]. rewrite add_int64_ok, length_app by lia. f_equal. lia. }
  rewrite bind_Ok. rewrite (for_update _ _ (inputs_after (rows ++ batch_rows b))); [done|by unfold inputs_after; rewrite !length_fmap|].
  intros i x x' l Hx Hx' Hl Hlen'. unfold inputs_after in Hx, Hx'. rewrite list_lookup_fmap in Hx, Hx'.
  destruct (pl_inputs p !! i) as [input|] eqn:Ei; [|done]. cbn in Hx, Hx'. injection Hx as <-. injection Hx' as <-.
  destruct (Forall_lookup_1 _ _ _ _ (po_inputs _ _ Hp) Ei) as (Hv & (s & Hs & Hk & Hc) & Hf).
  erewrite (aref_lookup l) by (rewrite ?Nat2Z.id; (exact Hl || lia)). rewrite bind_Ok.
  cbn [load_batch ab_vectors ab_selection in_flags].
  rewrite (aref_lookup _ _ (cb_columns b (in_column input))), bind_Ok by (rewrite ?Nat2Z.id, ?list_lookup_fmap, ?Ei; (done || lia)).
  rewrite reduce_int4_ok, bind_Ok; [|apply Hb|rewrite Hc; by apply Hb|].
  2: { intros Hz. specialize (Hf Hz). congruence. }
  rewrite <- column_values_batch, merge_ok, bind_Ok.
  - rewrite column_values_app, aset_ok, Nat2Z.id; [done|]. apply lookup_lt_Some in Hl. lia.
  - rewrite Hc. by apply Hr.
  - rewrite Hc. by apply Hbr.
  - pose proof (column_values_length (in_column input) rows). pose proof (column_values_length (in_column input) (batch_rows b)). lia.
Qed.

Lemma advance_all_ok bs rows :
  pl_grouped p = false → Forall (batch_ok specs) bs → rows_s32 rows → zlength rows + zlength (child_rows bs) < max_agg_rows →
  foldM (λ batch st,
      selected ← pg_batch_selection_count (ab_selection batch);
      advance_aggregates (pl_has_count_star p) batch selected st) (load_batch p <$> bs) (inputs_after rows, star_after rows) =
    Ok (inputs_after (rows ++ child_rows bs), star_after (rows ++ child_rows bs)).
Proof.
  intros Hg Hbs. revert rows. induction Hbs as [|b bs Hb Hbs IH]; intros rows Hr Hlen; [cbn; by rewrite app_nil_r|].
  unfold child_rows in *. cbn [mbind list_bind] in *. rewrite length_app in Hlen. cbn [fmap list_fmap foldM].
  cbn [load_batch ab_selection]. rewrite selection_count_ok, bind_Ok by apply Hb.
  replace (zlength (selected_rows (cb_selection b))) with (zlength (batch_rows b)) by by unfold batch_rows; rewrite length_fmap.
  rewrite advance_aggregates_ok, bind_Ok by (done || lia). rewrite IH, <- app_assoc; [done| |rewrite length_app; lia].
  apply rows_s32_app. split; [done|]. by apply rows_s32_batch.
Qed.

(** ** Results *)

Lemma foldM_collect {A B} (f : A → res B) l l' acc :
  Forall2 (λ x y, f x = Ok y) l l' → foldM (λ x acc, v ← f x; Ok (acc ++ [v])) l acc = Ok (acc ++ l').
Proof.
  intros Hl. revert acc. induction Hl as [|x y l l' E _ IH]; intros acc; [by rewrite app_nil_r|]. cbn [foldM].
  rewrite E, !bind_Ok, IH. by rewrite <- app_assoc.
Qed.

Lemma input_flag inputs n column flags :
  input_at inputs n column flags → flags ≠ 0 →
  ∃ i, inputs !! Z.to_nat n = Some i ∧ 0 ≤ n ∧ in_column i = column ∧ has_flag (in_flags i) flags = true.
Proof.
  intros (Hn & i & Hi & Hc & Hf) Hne. exists i. split_and!; [done..|]. unfold has_flag. rewrite Hf.
  by destruct (Z.eqb_spec flags 0).
Qed.

Lemma plain_result_ok spec agg rows :
  agg_kind agg = spec.1 → spec.1 ≠ PG_BATCH_AGG_GROUP_KEY → spec ∈ specs →
  (spec.1 ≠ PG_BATCH_AGG_COUNT_STAR → input_at (pl_inputs p) (agg_input agg) spec.2 (flag_of spec.1)) →
  plain_result (inputs_after rows) (star_after rows) agg = Ok (agg_value spec rows).
Proof.
  intros Hk Hg Hin Hat. unfold plain_result, agg_value. rewrite Hk. destruct spec as [kind column]. cbn in *.
  destruct (decide (kind = PG_BATCH_AGG_COUNT_STAR)) as [->|Hs].
  { unfold star_after. rewrite (po_star _ _ Hp), bool_decide_eq_true_2; [done|].
    apply list_elem_of_fmap. by exists (PG_BATCH_AGG_COUNT_STAR, column). }
  specialize (Hat Hs). assert (Hflag : flag_of kind ≠ 0) by by destruct kind.
  destruct (input_flag _ _ _ _ Hat Hflag) as (i & Hi & Hn & <- & Hf).
  assert (Hread : aref (inputs_after rows) (agg_input agg) = Ok (mkAggInput (in_column i) (in_flags i)
    (reduction_of (in_flags i) (column_values (in_column i) rows)))).
  { apply aref_lookup; [done|]. unfold inputs_after. by rewrite list_lookup_fmap, Hi. }
  rewrite Hread. set (vs := column_values (in_column i) rows).
  destruct kind; try done; cbn [flag_of] in Hf; rewrite bind_Ok; cbn [in_value]; unfold reduction_of, of_values;
    cbn [r_count r_sum r_min r_max r_has_value]; unfold PG_BATCH_INT4_REDUCE_COUNT, PG_BATCH_INT4_REDUCE_SUM,
    PG_BATCH_INT4_REDUCE_MIN, PG_BATCH_INT4_REDUCE_MAX; rewrite Hf; [done|..]; by destruct vs.
Qed.

Lemma agg_exec_ok bs :
  group_columns specs = [] → Forall (batch_ok specs) bs → zlength (child_rows bs) < max_agg_rows →
  agg_exec p (load_batch p <$> bs) = Ok (agg_values specs (child_rows bs)).
Proof.
  intros Hg Hbs Hlen. unfold agg_exec.
  assert (pl_grouped p = false) as Hng by by rewrite (po_grouped _ _ Hp), Hg.
  pose proof (advance_all_ok bs [] Hng Hbs) as Hall. rewrite inputs_after_nil in Hall.
  unfold star_after in Hall at 1. assert ((if pl_has_count_star p then zlength (@nil agg_row) else 0) = 0) as E by by case_match.
  rewrite E in Hall. rewrite Hall, bind_Ok; [|by intros s _ _|done]. cbn [fst snd app].
  rewrite (foldM_collect _ _ (agg_values specs (child_rows bs))); [done|]. unfold agg_values.
  rewrite Forall2_fmap_r. pose proof (po_aggs _ _ Hp) as H2.
  apply Forall2_same_length_lookup. rewrite (Forall2_length _ _ _ H2). split; [done|].
  intros n agg spec Ha Hs. destruct (Forall2_lookup_lr _ _ _ _ _ _ H2 Hs Ha) as [Hk Hat].
  apply list_elem_of_lookup_2 in Hs. apply plain_result_ok; [done| |done|done].
  intros Hkey. assert (spec.2 ∈ group_columns specs) as Hin; [|rewrite Hg in Hin; by apply elem_of_nil in Hin].
  apply group_columns_in. destruct spec; cbn in *. by rewrite <- Hkey.
Qed.
End exec.

(** C5. A plan without groups: planning accepts the aggregates, and over any
    batches of the child the node returns, for each of them, SQL's COUNT, SUM,
    MIN or MAX of the selected rows of all batches, NULL where there is no
    value, whatever the order and the sizes of the batches; with fewer than
    2^32 rows no sum overflows. *)
Theorem agg_plain_spec specs bs :
  specs_ok specs → group_columns specs = [] → Forall (batch_ok specs) bs → zlength (child_rows bs) < max_agg_rows →
  ∃ p, plan_aggs specs = Ok p ∧ agg_exec p (load_batch p <$> bs) = Ok (agg_values specs (child_rows bs)).
Proof.
  intros Hs Hg Hbs Hlen. destruct (plan_aggs_ok specs Hs) as (p & Hplan & Hp). exists p. split; [done|].
  by apply agg_exec_ok.
Qed.
End plain.

Definition sample_batch : ChildBatch := mkChildBatch sample_selection (λ c, if c =? 0 then sample_packed else sample_datum).

Definition sample_aggs : list (PgBatchAggKind * Z) :=
  [(PG_BATCH_AGG_COUNT_STAR, -1); (PG_BATCH_AGG_SUM_INT4, 0); (PG_BATCH_AGG_MIN_INT4, 0); (PG_BATCH_AGG_COUNT_COLUMN, 1)].

Lemma sample_batch_ok specs : batch_ok specs sample_batch.
Proof.
  split; [apply sample_selection_wf|]. split; [apply sample_selection_clean|]. intros s _ _. cbn.
  destruct (s.2 =? 0); [apply sample_packed_wf|apply sample_datum_wf].
Qed.

Lemma agg_plain_witness :
  ∃ p, plan_aggs sample_aggs = Ok p ∧
    agg_exec p (load_batch p <$> [sample_batch; sample_batch]) =
      Ok (agg_values sample_aggs (child_rows [sample_batch; sample_batch])).
Proof.
  apply agg_plain_spec.
  - split; [repeat apply Forall_cons_2; try apply Forall_nil_2; by cbn|]. intros c d Hc. by apply elem_of_nil in Hc.
  - done.
  - by repeat apply Forall_cons_2; try apply Forall_nil_2; apply sample_batch_ok.
  - vm_compute. done.
Defined.
