(* ===== verification/AggGroup.v ===== *)
(** * The aggregate node: grouping and spilling ([nodes/aggregate.c]) *)

From S2P Require Import Prelude Words Selection Vector Kernels Int4 Hash Spill SpillLoop Aggregate.

Section agg_group.
Context `{PgCore} `{LogicalTapes} `{DynaHash}.

(** [sizeof] of the entry's parts on an LP64 target. *)
Definition group_entry_size (ninputs : Z) : Z := 16 + 32 * ninputs.

(** The limits [agg_begin] takes from the hash memory limit. *)
Definition group_limit_for (memory_limit ninputs : Z) : Z := Z.max 1 (memory_limit / (group_entry_size ninputs + 64)).
Definition spill_buffer_limit_for (memory_limit : Z) : Z := Z.max 1024 (memory_limit / 2).

Variables (p : AggPlan) (group_limit spill_buffer_limit : Z).

Definition ninputs : Z := zlength (pl_inputs p).
Definition spill_desc : list attribute := replicate (Z.to_nat ninputs) (mkAttr false INT4OID).

(** [ag_initial] is a position in [ag_spill_sets]. *)
Record AggState : Type := mkAggState {
  ag_groups : HTAB;
  ag_spilling : bool;
  ag_hashes : list Z;
  ag_initial : option Z;
  ag_spill_sets : list PgBatchSpillSet;
  ag_spill_work : list SpillWork;
  ag_spill_rows : Z;
}.

Definition set_groups (s : AggState) groups hashes := mkAggState groups (ag_spilling s) hashes (ag_initial s)
  (ag_spill_sets s) (ag_spill_work s) (ag_spill_rows s).
Definition set_spilling (s : AggState) hashes := mkAggState (ag_groups s) true hashes (ag_initial s)
  (ag_spill_sets s) (ag_spill_work s) (u64_add (ag_spill_rows s) 1).
Definition set_spills (s : AggState) initial sets work := mkAggState (ag_groups s) (ag_spilling s) (ag_hashes s)
  initial sets work (ag_spill_rows s).

(** ** Groups *)

Definition new_entry (key : GroupKey) : GroupEntry := mkEntry key 0 (replicate (Z.to_nat ninputs) no_reduction).

(** [None] is a NULL entry. *)
Definition find_group (groups : HTAB) (key : GroupKey) (allow_insert : bool) : option (HTAB * GroupEntry) :=
  match hash_find groups key with
  | Some entry => Some (groups, entry)
  | None =>
      if allow_insert then Some (hash_store groups key (new_entry key), new_entry key) else None
  end.

Definition advance_value (flags value : Z) (r : PgBatchInt4Reduction) : res PgBatchInt4Reduction :=
  r ← (if has_flag flags PG_BATCH_INT4_REDUCE_COUNT
       then c ← add_int64_checked (r_count r) 1; Ok (set_count r c) else Ok r);
  r ← (if has_flag flags PG_BATCH_INT4_REDUCE_SUM
       then s ← add_int64_checked (r_sum r) value; Ok (set_sum r s) else Ok r);
  if negb (r_has_value r) then Ok (set_has_value (set_max (set_min r value) value)) else
  let r := if has_flag flags PG_BATCH_INT4_REDUCE_MIN && (value <? r_min r) then set_min r value else r in
  Ok (if has_flag flags PG_BATCH_INT4_REDUCE_MAX && (r_max r <? value) then set_max r value else r).

Definition advance_group_entry (entry : GroupEntry) (vectors : list PgBatchInt4Vector) (row : Z) : res GroupEntry :=
  count_star ← (if pl_has_count_star p then add_int64_checked (ge_count_star entry) 1 else Ok (ge_count_star entry));
  values ← foldM (λ inputno values,
      input ← aref (pl_inputs p) inputno;
      if in_flags input =? 0 then Ok values else
      vector ← aref vectors inputno;
      isnull ← pg_batch_int4_row_is_null vector row;
      if (isnull : bool) then Ok values else
      input_value ← pg_batch_int4_row_value vector row;
      value ← aref values inputno;
      value ← advance_value (in_flags input) input_value value;
      aset values inputno value) (seqZ 0 ninputs) (ge_values entry);
  Ok (mkEntry (ge_key entry) count_star values).

Definition group_hash (key : PgBatchInt4Vector) (row : Z) : res (Z * GroupKey) :=
  isnull ← pg_batch_int4_row_is_null key row;
  if (isnull : bool) then Ok (murmurhash32 0x9e3779b9, mkGroupKey 0 true) else
  value ← pg_batch_int4_row_value key row;
  Ok (murmurhash32 (to_u32 value), mkGroupKey value false).

(** The entry of a row's group, advanced by the row. *)
Definition advance_found (found : HTAB * GroupEntry) (key : GroupKey) (vectors : list PgBatchInt4Vector) (row : Z)
    : res HTAB :=
  entry ← advance_group_entry found.2 vectors row;
  Ok (hash_store found.1 key entry).

(** ** Rows marked per partition *)

Definition mark_row (partition row : Z) (partition_rows : list Z) : res (list Z) :=
  m ← aref partition_rows partition;
  aset partition_rows partition (Z.lor m (bit64 row)).

Definition write_marked (nrows : Z) (vectors : list PgBatchInt4Vector) (hashes partition_rows : list Z)
    (partition : Z) (set : PgBatchSpillSet) : res PgBatchSpillSet :=
  m ← aref partition_rows partition;
  if m =? 0 then Ok set
  else pg_batch_spill_write set partition vectors (mkSelection nrows 1 [m]) hashes.

(** ** Input *)

Definition ensure_initial_spill (s : AggState) : res (AggState * Z) :=
  match ag_initial s with
  | Some i => Ok (s, i)
  | None =>
      set ← pg_batch_spill_create spill_desc ninputs 32 spill_buffer_limit;
      let i := zlength (ag_spill_sets s) in
      Ok (set_spills s (Some i) (ag_spill_sets s ++ [set]) (ag_spill_work s), i)
  end.

Definition group_row (vectors : list PgBatchInt4Vector) (row : Z) (st : AggState * list Z) : res (AggState * list Z) :=
  key ← aref vectors (pl_group_input p);
  h ← group_hash key row;
  hashes ← aset (ag_hashes st.1) row h.1;
  let groups := ag_groups st.1 in
  let found :=
    match find_group groups h.2 false with
    | Some found => Some found
    | None =>
        if negb (ag_spilling st.1) && (hash_get_num_entries groups <? group_limit)
        then find_group groups h.2 true else None
    end in
  match found with
  | Some found => groups ← advance_found found h.2 vectors row; Ok (set_groups st.1 groups hashes, st.2)
  | None => marked ← mark_row (Z.land h.1 31) row st.2; Ok (set_spilling st.1 hashes, marked)
  end.

Definition advance_grouped_batch (batch : AggBatch) (s : AggState) : res AggState :=
  let selection := ab_selection batch in
  _ ← raise_if (negb (nwords selection =? 1) || (64 <? nrows selection))
        (Elog "pg_batch grouped aggregate requires batches of at most 64 rows");
  rows ← aref (words selection) 0;
  r ← while_bits 64 clear_lowest rows (group_row (ab_vectors batch)) (s, replicate 32 0);
  if negb (ag_spilling r.1) then Ok r.1 else
  e ← ensure_initial_spill r.1;
  set ← aref (ag_spill_sets e.1) e.2;
  set ← foldM (write_marked (nrows selection) (ab_vectors batch) (ag_hashes e.1) r.2) (seqZ 0 32) set;
  sets ← aset (ag_spill_sets e.1) e.2 set;
  Ok (set_spills e.1 (ag_initial e.1) sets (ag_spill_work e.1)).

(** ** Spilled partitions *)

(** The work items of the partitions of a finished set that have rows. *)
Definition partition_work (i hash_shift : Z) (set : PgBatchSpillSet) (npartitions : Z) (work : list SpillWork)
    : res (list SpillWork) :=
  foldM (λ partition work,
      empty ← pg_batch_spill_partition_empty set partition;
      Ok (if empty : bool then work else work ++ [mkWork i partition hash_shift])) (seqZ 0 npartitions) work.

Definition finish_group_input (s : AggState) : res AggState :=
  match ag_initial s with
  | None => Ok s
  | Some i =>
      set ← aref (ag_spill_sets s) i;
      set ← pg_batch_spill_finish set true;
      sets ← aset (ag_spill_sets s) i set;
      work ← partition_work i 5 set 32 (ag_spill_work s);
      Ok (set_spills s (Some i) sets work)
  end.

(** [&values[column * 64]] and [&validity[column * 8]]. *)
Definition spill_block_vectors (block : PgBatchSpillBlock) : list PgBatchInt4Vector :=
  (λ column, pg_batch_int4_vector_init_packed (drop (Z.to_nat (column * PG_BATCH_SPILL_BLOCK_ROWS)) (bl_values block))
     (Some (drop (Z.to_nat (column * 8)) (bl_validity block))) 0) <$> seqZ 0 ninputs.

(** One row of a spilled partition; the flag is cleared where the function
    returns because the partition has too many groups. *)
Definition load_row (vectors : list PgBatchInt4Vector) (row : Z) (st : HTAB * bool) : res (HTAB * bool) :=
  if negb st.2 then Ok st else
  key ← aref vectors (pl_group_input p);
  h ← group_hash key row;
  match find_group st.1 h.2 false with
  | Some found => groups ← advance_found found h.2 vectors row; Ok (groups, true)
  | None =>
      if group_limit <=? hash_get_num_entries st.1 then Ok (st.1, false) else
      match find_group st.1 h.2 true with
      | Some found => groups ← advance_found found h.2 vectors row; Ok (groups, true)
      | None => Undefined
      end
  end.

Definition load_block (block : PgBatchSpillBlock) (groups : HTAB) : res (HTAB * bool) :=
  while_bits 64 clear_lowest (bl_selection block) (load_row (spill_block_vectors block)) (groups, true).

Definition load_spill_groups (work : SpillWork) (sets : list PgBatchSpillSet) : res (list PgBatchSpillSet * HTAB * bool) :=
  set ← aref sets (wk_set work);
  r ← read_blocks load_block set (wk_partition work) hash_create;
  sets ← aset sets (wk_set work) r.1.1;
  Ok (sets, r.1.2, r.2).

Definition repartition_block (hash_shift npartitions : Z) (block : PgBatchSpillBlock) (child : PgBatchSpillSet)
    : res (PgBatchSpillSet * bool) :=
  marked ← while_bits 64 clear_lowest (bl_selection block) (λ row marked,
      hash ← aref (bl_hashes block) row;
      mark_row (Z.land (Z.shiftr hash hash_shift) (npartitions - 1)) row marked) (replicate 32 0);
  child ← foldM (write_marked (bl_nrows block) (spill_block_vectors block) (bl_hashes block) marked)
            (seqZ 0 npartitions) child;
  Ok (child, true).

Definition repartition_spill (work : SpillWork) (s : AggState) : res AggState :=
  _ ← raise_if (32 <=? wk_hash_shift work) ProgramLimitExceeded;
  let hash_bits := Z.min 5 (32 - wk_hash_shift work) in
  let npartitions := Z.shiftl 1 hash_bits in
  child ← pg_batch_spill_create spill_desc ninputs npartitions spill_buffer_limit;
  set ← aref (ag_spill_sets s) (wk_set work);
  r ← read_blocks (repartition_block (wk_hash_shift work) npartitions) set (wk_partition work) child;
  sets ← aset (ag_spill_sets s) (wk_set work) r.1.1;
  child ← pg_batch_spill_finish r.1.2 true;
  work ← partition_work (zlength sets) (wk_hash_shift work + hash_bits) child npartitions (ag_spill_work s);
  Ok (set_spills s (ag_initial s) (sets ++ [child]) work).

(** ** Results *)

Definition store_group_result (entry : GroupEntry) : res (list (Z * bool)) :=
  foldM (λ agg row,
      v ← match agg_kind agg with
          | PG_BATCH_AGG_GROUP_KEY => Ok (Int32GetDatum (gk_value (ge_key entry)), gk_isnull (ge_key entry))
          | PG_BATCH_AGG_COUNT_STAR => Ok (Int64GetDatum (ge_count_star entry), false)
          | kind =>
              value ← aref (ge_values entry) (agg_input agg);
              Ok match kind with
                 | PG_BATCH_AGG_COUNT_COLUMN => (Int64GetDatum (r_count value), false)
                 | PG_BATCH_AGG_SUM_INT4 => (Int64GetDatum (r_sum value), negb (r_has_value value))
                 | PG_BATCH_AGG_MIN_INT4 => (Int32GetDatum (r_min value), negb (r_has_value value))
                 | _ => (Int32GetDatum (r_max value), negb (r_has_value value))
                 end
          end;
      Ok (row ++ [v])) (pl_aggs p) [].

Definition group_results (groups : HTAB) : res (list (list (Z * bool))) :=
  foldM (λ entry rows, row ← store_group_result entry; Ok (rows ++ [row])) (hash_seq groups) [].

(** [prepare_next_spill_partition] and the scan of the groups it prepares,
    until no work is left. *)
Fixpoint spill_phase (fuel : nat) (s : AggState) : res (list (list (Z * bool))) :=
  match ag_spill_work s with
  | [] => Ok []
  | work :: rest =>
      match fuel with
      | O => Undefined
      | S fuel =>
          r ← load_spill_groups work (ag_spill_sets s);
          let s := set_spills s (ag_initial s) r.1.1 rest in
          if r.2 : bool then
            rows ← group_results r.1.2;
            others ← spill_phase fuel s;
            Ok (rows ++ others)
          else s ← repartition_spill work s; spill_phase fuel s
      end
  end.

(** [agg_exec_grouped] from a state until it returns an empty slot.  A row is in
    at most one partition of each of seven levels. *)
Definition agg_run (s : AggState) (batches : list AggBatch) : res (list (list (Z * bool))) :=
  s ← foldM advance_grouped_batch batches s;
  s ← finish_group_input s;
  rows ← group_results (ag_groups s);
  spilled ← spill_phase (7 * Z.to_nat (ag_spill_rows s)) s;
  Ok (rows ++ spilled).

Definition agg_exec_grouped (batches : list AggBatch) : res (list (list (Z * bool))) :=
  agg_run (mkAggState hash_create false (replicate 64 0) None [] [] 0) batches.

Definition destroy_spills (s : AggState) : AggState := set_spills s None [] [].

Definition agg_rescan (s : AggState) : AggState :=
  let s := destroy_spills s in
  mkAggState hash_create false (ag_hashes s) (ag_initial s) (ag_spill_sets s) (ag_spill_work s) 0.
End agg_group.
