(* ===== verification/AggGroupProps.v ===== *)
(** * The aggregate node: groups, the hash table, and the input phase

    What the hash table and the initial spill set hold after any prefix of the
    child's batches. *)

From S2P Require Import Prelude Words Selection Vector Kernels Int4 Hash Spill SpillBlocks SpillSet SpillRun SpillLoop Aggregate AggProps AggGroup.

(** ** Entries *)

(** The running values of a group: a minimum or maximum not asked for keeps
    the first value. *)
Definition entry_of (flags : Z) (vals : list Z) : PgBatchInt4Reduction :=
  if flags =? 0 then no_reduction else
  mkReduction
    (if has_flag flags PG_BATCH_INT4_REDUCE_COUNT then zlength vals else 0)
    (if has_flag flags PG_BATCH_INT4_REDUCE_SUM then sumZ vals else 0)
    (if has_flag flags PG_BATCH_INT4_REDUCE_MIN then minZ vals else hd 0 vals)
    (if has_flag flags PG_BATCH_INT4_REDUCE_MAX then maxZ vals else hd 0 vals)
    (match vals with [] => false | _ => true end).

Section group.
Context `{PgCore} `{DynaHash}.
Context (specs : list (PgBatchAggKind * Z)) (p : AggPlan) (kc : Z).
Context (Hp : plan_ok specs p) (Hkc : input_at (pl_inputs p) (pl_group_input p) kc 0).

Definition key_of (r : agg_row) : GroupKey :=
  match r kc with Some v => mkGroupKey v false | None => mkGroupKey 0 true end.

Definition key_hash (k : GroupKey) : Z :=
  if gk_isnull k then murmurhash32 0x9e3779b9 else murmurhash32 (to_u32 (gk_value k)).

Definition rows_of (k : GroupKey) (rows : list agg_row) : list agg_row := filter (λ r, key_of r = k) rows.

Definition group_entry (k : GroupKey) (rows : list agg_row) : GroupEntry :=
  mkEntry k (star_after p rows) ((λ i, entry_of (in_flags i) (column_values (in_column i) rows)) <$> pl_inputs p).

(** Row [row] of the vectors of a batch or a block is [r]. *)
Definition row_view (vectors : list PgBatchInt4Vector) (row : Z) (r : agg_row) : Prop :=
  Forall2 (λ i v, readable v row ∧ cell v row = r (in_column i)) (pl_inputs p) vectors.

Definition opt_list (o : option Z) : list Z := match o with Some v => [v] | None => [] end.

Lemma column_values_snoc c rows r : column_values c (rows ++ [r]) = column_values c rows ++ opt_list (r c).
Proof. by rewrite column_values_app. Qed.

Lemma rows_of_snoc k rows r :
  rows_of k (rows ++ [r]) = rows_of k rows ++ (if decide (key_of r = k) then [r] else []).
Proof. unfold rows_of. rewrite filter_app, filter_cons, filter_nil. done. Qed.

Lemma advance_value_ok flags vs v :
  Forall is_s32 vs → is_s32 v → zlength vs + 1 < max_agg_rows → flags ≠ 0 →
  advance_value flags v (entry_of flags vs) = Ok (entry_of flags (vs ++ [v])).
Proof.
  intros Hvs Hv Hlen Hf. unfold advance_value, entry_of, max_agg_rows in *. destruct (Z.eqb_spec flags 0); [done|].
  pose proof (sumZ_bound _ Hvs). unfold is_s32 in Hv.
  set (e := mkReduction _ _ _ _ _). set (e' := mkReduction _ _ _ _ _).
  assert ((if has_flag flags PG_BATCH_INT4_REDUCE_COUNT then c ← add_int64_checked (r_count e) 1; Ok (set_count e c) else Ok e) =
    Ok (set_count e (r_count e'))) as ->.
  { unfold e, e', set_count. cbn [r_count r_sum r_min r_max r_has_value].
    destruct (has_flag flags PG_BATCH_INT4_REDUCE_COUNT); [|done].
    rewrite add_int64_ok, bind_Ok, length_app by lia. cbn [length]. by rewrite Nat2Z.inj_add. }
  rewrite bind_Ok.
  assert ((if has_flag flags PG_BATCH_INT4_REDUCE_SUM
      then s ← add_int64_checked (r_sum (set_count e (r_count e'))) v; Ok (set_sum (set_count e (r_count e')) s)
      else Ok (set_count e (r_count e'))) = Ok (set_sum (set_count e (r_count e')) (r_sum e'))) as ->.
  { unfold e, e', set_count, set_sum. cbn [r_count r_sum r_min r_max r_has_value].
    destruct (has_flag flags PG_BATCH_INT4_REDUCE_SUM); [|done].
    by rewrite add_int64_ok, bind_Ok, sumZ_app by lia. }
  rewrite bind_Ok. unfold e, e', set_min, set_max, set_has_value, set_count, set_sum.
  cbn [r_count r_sum r_min r_max r_has_value]. rewrite minZ_snoc, maxZ_snoc. destruct vs as [|w vs].
  - cbn. by repeat case_match.
  - cbn [app hd negb]. destruct (has_flag flags PG_BATCH_INT4_REDUCE_MIN), (has_flag flags PG_BATCH_INT4_REDUCE_MAX);
      cbn [andb r_min r_max]; repeat case_match; do 2 f_equal; cbn [r_count r_sum r_min r_max r_has_value] in *; lia.
Qed.

Lemma rows_s32_rows_of k rows : rows_s32 specs rows → rows_s32 specs (rows_of k rows).
Proof.
  intros Hr s Hin Hk. specialize (Hr s Hin Hk). rewrite Forall_forall in Hr |- *. intros v Hv. apply Hr.
  apply list_elem_of_omap in Hv as (r & Hrin & Hv). apply list_elem_of_omap. exists r. split; [|done].
  by apply list_elem_of_filter in Hrin as [_ ?].
Qed.

Lemma advance_group_entry_ok k rows vectors row r :
  row_view vectors row r → rows_s32 specs rows → zlength rows + 1 < max_agg_rows →
  advance_group_entry p (group_entry k rows) vectors row = Ok (group_entry k (rows ++ [r])).
Proof.
  intros Hv Hr Hlen. unfold advance_group_entry, group_entry. cbn [ge_count_star ge_values ge_key].
  assert ((if pl_has_count_star p then add_int64_checked (star_after p rows) 1 else Ok (star_after p rows)) =
    Ok (star_after p (rows ++ [r]))) as ->.
  { unfold star_after, max_agg_rows in *. destruct (pl_has_count_star p); [|done]. rewrite add_int64_ok, length_app by lia. f_equal. cbn. lia. }
  rewrite bind_Ok. unfold ninputs.
  set (L := (λ i, entry_of _ (column_values _ rows)) <$> pl_inputs p).
  replace (zlength (pl_inputs p)) with (zlength L) by by unfold L; rewrite length_fmap.
  rewrite (for_update _ _ ((λ i, entry_of (in_flags i) (column_values (in_column i) (rows ++ [r]))) <$> pl_inputs p));
    [done|by unfold L; rewrite !length_fmap|].
  intros n x x' l Hx Hx' Hl Hlen'. unfold L in Hx. rewrite list_lookup_fmap in Hx, Hx'.
  destruct (pl_inputs p !! n) as [i|] eqn:Ei; [|done]. cbn in Hx, Hx'. injection Hx as <-. injection Hx' as <-.
  destruct (Forall_lookup_1 _ _ _ _ (po_inputs _ _ Hp) Ei) as (_ & (s & Hs & Hk & Hc) & _).
  destruct (Forall2_lookup_l _ _ _ _ _ Hv Ei) as (v & Hvn & [Hnull Hval] & Hcell).
  erewrite (aref_lookup (pl_inputs p)) by (rewrite ?Nat2Z.id; (exact Ei || lia)). rewrite bind_Ok, column_values_snoc.
  destruct (Z.eqb_spec (in_flags i) 0) as [Ez|Hz].
  { unfold entry_of in *. rewrite Ez in *. cbn in *. by rewrite list_insert_id. }
  erewrite (aref_lookup vectors) by (rewrite ?Nat2Z.id; (exact Hvn || lia)). rewrite bind_Ok, Hnull, bind_Ok.
  unfold cell in Hcell. destruct (cell_null v row).
  { rewrite <- Hcell. cbn [opt_list]. rewrite app_nil_r. by rewrite list_insert_id. }
  destruct (Hval eq_refl) as [-> Hs32]. rewrite bind_Ok, <- Hcell.
  erewrite (aref_lookup l) by (rewrite ?Nat2Z.id; (exact Hl || lia)). rewrite bind_Ok.
  rewrite advance_value_ok, bind_Ok, aset_ok, Nat2Z.id; [|apply lookup_lt_Some in Hl; lia|..|done].
  - done.
  - rewrite Hc. by apply Hr.
  - done.
  - pose proof (column_values_length (in_column i) rows). lia.
Qed.

(** ** Keys *)

Lemma key_hash_u32 k : is_u32 (key_hash k).
Proof.
  unfold key_hash. case_match; apply murmurhash32_range; [by unfold is_u32|]. unfold is_u32, to_u32. zlia.
Qed.

Lemma group_hash_ok vectors row r :
  row_view vectors row r →
  ∃ key, aref vectors (pl_group_input p) = Ok key ∧ group_hash key row = Ok (key_hash (key_of r), key_of r).
Proof.
  intros Hv. destruct Hkc as (Hn & i & Hi & Hc & _).
  destruct (Forall2_lookup_l _ _ _ _ _ Hv Hi) as (v & Hvn & [Hnull Hval] & Hcell). rewrite Hc in Hcell.
  exists v. split; [by apply aref_lookup|]. unfold group_hash, key_of, key_hash. rewrite Hnull, bind_Ok.
  unfold cell in Hcell. destruct (cell_null v row); rewrite <- Hcell; [done|]. destruct (Hval eq_refl) as [-> _]. done.
Qed.

(** ** The table *)

(** The entries of a table are those of the groups of [rows]. *)
Definition table_ok (t : HTAB) (rows : list agg_row) : Prop :=
  map_Forall (λ k e, e = group_entry k (rows_of k rows) ∧ rows_of k rows ≠ []) (hash_contents t).

(** The rows whose group is in the table, and the others. *)
Definition resident (t : HTAB) (r : agg_row) : Prop := is_Some (hash_contents t !! key_of r).
#[export] Instance resident_dec t r : Decision (resident t r).
Proof. unfold resident. apply _. Defined.

Definition spilled (t : HTAB) (rows : list agg_row) : list agg_row := filter (λ r, ¬ resident t r) rows.

Lemma spilled_app t rows1 rows2 : spilled t (rows1 ++ rows2) = spilled t rows1 ++ spilled t rows2.
Proof. apply filter_app. Qed.

Lemma spilled_dom t t' rows :
  dom (hash_contents t') = dom (hash_contents t) → spilled t' rows = spilled t rows.
Proof.
  intros E. apply list_filter_iff'. intros r _. unfold resident. by rewrite <- !elem_of_dom, E.
Qed.

Lemma spilled_mono t t' rows :
  dom (hash_contents t) ⊆ dom (hash_contents t') → spilled t rows = [] → spilled t' rows = [].
Proof.
  intros E Hs. apply list_filter_nil. apply Forall_forall. intros r Hr Hn. apply (not_elem_of_nil r). rewrite <- Hs.
  apply list_elem_of_filter. split; [|done]. contradict Hn. unfold resident in *. rewrite <- elem_of_dom in *. set_solver.
Qed.

Lemma table_ok_skip t rows r : table_ok t rows → ¬ resident t r → table_ok t (rows ++ [r]).
Proof.
  intros Ht Hr k e Hk. rewrite rows_of_snoc, decide_False, app_nil_r; [by apply Ht|]. intros <-. destruct Hr. by exists e.
Qed.

Lemma new_entry_ok k : new_entry p k = group_entry k [].
Proof.
  unfold new_entry, group_entry, star_after, ninputs. f_equal; [by case_match|]. rewrite Nat2Z.id.
  clear. induction (pl_inputs p) as [|i l IH]; [done|]. cbn. rewrite IH. f_equal. unfold entry_of. by repeat case_match.
Qed.

(** Advancing the entry of a row's group, found or just entered. *)
Lemma advance_found_ok t t' rows vectors row r :
  row_view vectors row r → rows_s32 specs rows → zlength rows + 1 < max_agg_rows → table_ok t rows →
  dom (hash_contents t') ∪ {[key_of r]} = dom (hash_contents t) ∪ {[key_of r]} →
  (∀ k, k ≠ key_of r → hash_contents t' !! k = hash_contents t !! k) →
  ∃ t'', advance_found p (t', group_entry (key_of r) (rows_of (key_of r) rows)) (key_of r) vectors row = Ok t'' ∧
    table_ok t'' (rows ++ [r]) ∧ dom (hash_contents t'') = {[key_of r]} ∪ dom (hash_contents t).
Proof.
  intros Hv Hr Hlen Ht Hdom Hsame. unfold advance_found. cbn [fst snd].
  rewrite (advance_group_entry_ok _ _ _ _ r), bind_Ok; [|done|by apply rows_s32_rows_of|].
  2: { assert (length (rows_of (key_of r) rows) ≤ length rows)%nat by apply length_filter. lia. }
  eexists. split; [done|]. split.
  - intros k e. rewrite hash_store_spec, lookup_insert, rows_of_snoc. case_decide as E.
    + subst k. intros [= <-]. split; [done|]. by destruct (rows_of _ _).
    + rewrite app_nil_r, Hsame by done. apply Ht.
  - rewrite hash_store_spec, dom_insert_L, (union_comm_L _ (dom _)), Hdom. set_solver.
Qed.

Lemma find_group_found t rows r insert :
  table_ok t rows → resident t r →
  find_group p t (key_of r) insert = Some (t, group_entry (key_of r) (rows_of (key_of r) rows)).
Proof.
  intros Ht [e He]. unfold find_group. rewrite hash_find_spec, He. by destruct (Ht _ _ He) as [-> _].
Qed.

Lemma find_group_missing t r : ¬ resident t r → find_group p t (key_of r) false = None.
Proof. intros Hr. unfold find_group. rewrite hash_find_spec. destruct (hash_contents t !! _) eqn:E; [|done]. destruct Hr. by eexists. Qed.

(** The two ways a row's group advances. *)
Lemma advance_resident_ok t rows vectors row r :
  row_view vectors row r → rows_s32 specs rows → zlength rows + 1 < max_agg_rows → table_ok t rows → resident t r →
  ∃ t', advance_found p (t, group_entry (key_of r) (rows_of (key_of r) rows)) (key_of r) vectors row = Ok t' ∧
    table_ok t' (rows ++ [r]) ∧ dom (hash_contents t') = dom (hash_contents t).
Proof.
  intros Hv Hr Hlen Ht Hres. destruct (advance_found_ok t t rows vectors row r) as (t' & E & Ht' & Hd); try done.
  exists t'. split_and!; [done|done|]. rewrite Hd. apply elem_of_dom in Hres. set_solver.
Qed.

Lemma advance_new_ok t rows vectors row r :
  row_view vectors row r → rows_s32 specs rows → zlength rows + 1 < max_agg_rows → table_ok t rows →
  ¬ resident t r → rows_of (key_of r) rows = [] →
  ∃ t0 t', find_group p t (key_of r) true = Some (t0, new_entry p (key_of r)) ∧
    advance_found p (t0, new_entry p (key_of r)) (key_of r) vectors row = Ok t' ∧
    table_ok t' (rows ++ [r]) ∧ dom (hash_contents t') = {[key_of r]} ∪ dom (hash_contents t).
Proof.
  intros Hv Hr Hlen Ht Hres Hnone. unfold find_group. rewrite hash_find_spec.
  destruct (hash_contents t !! key_of r) eqn:E; [destruct Hres; by eexists|].
  destruct (advance_found_ok t (hash_store t (key_of r) (new_entry p (key_of r))) rows vectors row r) as (t' & E' & Ht' & Hd);
    try done.
  - rewrite hash_store_spec. set_solver.
  - intros k Hk. by rewrite hash_store_spec, lookup_insert_ne.
  - rewrite Hnone, <- new_entry_ok in E'. eexists _, t'. by split_and!.
Qed.
End group.
