(* ===== verification/AggInput.v ===== *)
(** * The aggregate node: rows written to spill sets

    The rows a spill set of the node holds, and how a batch or a block of
    marked rows is appended to it. *)

From S2P Require Import Prelude Words Selection Vector Kernels Int4 Hash Spill SpillBlocks SpillSet SpillRun SpillLoop Aggregate AggProps AggGroup AggGroupProps.

(** ** Marks *)

(** Bit [row] of mark [q] says that [row] is in [rows] and its partition is [q]. *)
Definition marks_hold (part : Z → Z) (marks rows : list Z) : Prop :=
  zlength marks = 32 ∧ Forall is_u64 marks ∧
  ∀ q row, 0 ≤ q < 32 → 0 ≤ row < 64 → (Z.testbit (zget 0 marks q) row = true ↔ row ∈ rows ∧ part row = q).

Lemma marks_none part : marks_hold part (replicate 32 0) [].
Proof.
  split; [done|]. split; [by apply Forall_replicate|]. intros q row Hq Hr. unfold zget.
  rewrite lookup_replicate_2 by lia. cbn. rewrite Z.bits_0. set_solver.
Qed.

Lemma mark_row_ok part marks rows row :
  marks_hold part marks rows → 0 ≤ row < 64 → 0 ≤ part row < 32 →
  ∃ marks', mark_row (part row) row marks = Ok marks' ∧ marks_hold part marks' (rows ++ [row]).
Proof.
  intros (Hl & Hu & Hm) Hrow Hpart. unfold mark_row. rewrite (aref_ok 0), bind_Ok, aset_ok by lia.
  eexists. split; [done|]. split; [by rewrite length_insert|]. split.
  - apply Forall_insert; [done|]. apply is_u64_lor; [apply zget_Forall; [done|lia]|apply is_u64_bit64].
  - intros q i Hq Hi. rewrite zget_insert by lia. rewrite elem_of_app, list_elem_of_singleton. case_decide as E.
    + rewrite Z.lor_spec, testbit_bit64, orb_true_iff, Hm, Z.eqb_eq by (done || lia). naive_solver.
    + rewrite Hm by done. naive_solver.
Qed.

(** The rows of one partition, once a selection of the rows of [w] is marked. *)
Lemma marks_bits part marks w (P : Z → Prop) `{∀ x, Decision (P x)} q :
  marks_hold part marks (filter P (bits_of w)) → 0 ≤ q < 32 →
  bits_of (zget 0 marks q) = filter (λ row, part row = q) (filter P (bits_of w)).
Proof.
  intros (_ & _ & Hm) Hq. unfold bits_of at 1 2. rewrite !list_filter_filter. apply list_filter_iff'.
  intros row Hrow. pose proof Hrow as Hr%elem_of_seqZ. rewrite Hm by lia. rewrite list_elem_of_filter.
  unfold bits_of. rewrite list_elem_of_filter. naive_solver.
Qed.

Section spilled_rows.
Context `{PgCore} `{LogicalTapes} `{DynaHash}.
Context (specs : list (PgBatchAggKind * Z)) (p : AggPlan) (kc : Z).
Context (Hp : plan_ok specs p) (Hkc : input_at (pl_inputs p) (pl_group_input p) kc 0).
Context (spill_buffer_limit : Z) (Hwide : zlength specs < 2 ^ 16).

Lemma ninputs_range : 0 < ninputs p < 2 ^ 16.
Proof.
  unfold ninputs. split.
  - destruct Hkc as (? & i & Hi%lookup_lt_Some & _). lia.
  - pose proof (submseteq_length (in_column <$> pl_inputs p) (specs.*2)) as Hle. rewrite !length_fmap in Hle.
    cut (length (pl_inputs p) ≤ length specs)%nat; [lia|]. apply Hle. apply NoDup_submseteq; [apply (po_columns _ _ Hp)|].
    intros c (i & -> & Hi)%list_elem_of_fmap. pose proof (po_inputs _ _ Hp) as Hall. rewrite Forall_forall in Hall.
    destruct (Hall i Hi) as (_ & (s & Hs & _ & ->) & _). apply list_elem_of_fmap. by exists s.
Qed.

(** A row as the node writes it. *)
Definition row_image (r : agg_row) : sql_row :=
  (key_hash (key_of kc r), (λ i, r (in_column i)) <$> pl_inputs p).

(** A set being written, and the rows of its partitions. *)
Definition holds_open (s : PgBatchSpillSet) (np : Z) (f : Z → list agg_row) : Prop :=
  ncolumns s = ninputs p ∧ npartitions s = np ∧
  ∃ parts, spill_open s parts ∧ parts_rows parts = (λ q, row_image <$> f q) <$> seqZ 0 np.

Lemma holds_open_ext s np f g : (∀ q, 0 ≤ q < np → f q = g q) → holds_open s np f → holds_open s np g.
Proof.
  intros Hfg (Hn & Hnp & parts & Hs & E). split; [done|]. split; [done|]. exists parts. split; [done|]. rewrite E.
  apply list_fmap_ext. intros n q [-> Hq]%lookup_seqZ. rewrite Hfg by lia. done.
Qed.

Lemma create_holds np :
  0 < np → ∃ s, pg_batch_spill_create (spill_desc p) (ninputs p) np spill_buffer_limit = Ok s ∧ holds_open s np (λ _, []).
Proof.
  intros Hnp. pose proof ninputs_range as Hn.
  assert (zlength (spill_desc p) = ninputs p) as Hl by (unfold spill_desc; rewrite length_replicate; lia).
  destruct (create_ok (spill_desc p) (ninputs p) np spill_buffer_limit) as (s & -> & Hs & Hc & Hq & _).
  { split_and!; [lia|lia|lia|lia|]. apply Forall_take. unfold spill_desc. by apply Forall_replicate. }
  exists s. split; [done|]. split; [done|]. split; [done|]. eexists. split; [exact Hs|]. unfold parts_rows.
  apply list_eq. intros n. rewrite !list_lookup_fmap. destruct (decide (Z.of_nat n < np)).
  - rewrite lookup_replicate_2, lookup_seqZ_lt by lia. done.
  - rewrite lookup_seqZ_ge by lia. rewrite (lookup_ge_None_2 (replicate _ _)) by (rewrite length_replicate; lia). done.
Qed.

Lemma write_marked_ok s np f marks q vectors hashes n (R : Z → agg_row) :
  holds_open s np f → 0 ≤ q < np → q < zlength marks → Forall is_u64 marks → 0 ≤ n ≤ 64 → zlength vectors = ninputs p →
  (∀ row, row ∈ bits_of (zget 0 marks q) → row < n ∧ row < zlength hashes ∧
     zget 0 hashes row = key_hash (key_of kc (R row)) ∧ row_view p vectors row (R row)) →
  ∃ s', write_marked n vectors hashes marks q s = Ok s' ∧
    holds_open s' np (λ j, if j =? q then f q ++ (R <$> bits_of (zget 0 marks q)) else f j).
Proof.
  intros Hs Hq Hqm Hu Hn Hvec Hrows. pose proof ninputs_range as Hni. unfold write_marked. rewrite (aref_ok 0), bind_Ok by lia.
  destruct (Z.eqb_spec (zget 0 marks q) 0) as [E|E].
  { exists s. split; [done|]. eapply holds_open_ext; [|exact Hs]. intros j _. cbn. rewrite E.
    destruct (Z.eqb_spec j q) as [->|]; [|done]. cbn. by rewrite app_nil_r. }
  destruct Hs as (Hnc & Hnp & parts & Hs & Hparts).
  set (m := zget 0 marks q) in *. set (sel := mkSelection n 1 [m]).
  assert (Hmu : is_u64 m) by (apply zget_Forall; [done|lia]).
  assert (Hw : written_rows sel = bits_of m).
  { unfold written_rows. apply list_filter_all. apply Forall_forall. intros row Hrow. by apply Hrows. }
  assert (Hget : ∀ c, 0 ≤ c < ninputs p → ∃ i, pl_inputs p !! Z.to_nat c = Some i).
  { intros c Hc. apply lookup_lt_is_Some_2. unfold ninputs in *. lia. }
  destruct (write_ok s parts (SpillWrite q vectors sel hashes)) as (s' & new & Hrun & (Hc1 & Hc2 & _) & Hs' & Hnew); [done| |].
  { rewrite Hnc, Hnp. cbn [op_ok]. split_and!; [lia|lia|cbn; lia|cbn; lia|done|done|by apply Forall_singleton|lia|].
    intros row Hrow. rewrite Hw in Hrow. destruct (Hrows row Hrow) as (Hlt & Hlh & Hh & Hv). split; [done|].
    split; [rewrite Hh; apply key_hash_u32|]. intros c Hc. destruct (Hget c Hc) as [i Hi].
    destruct (Forall2_lookup_l _ _ _ _ _ Hv Hi) as (v & Hvn & Hread & _). unfold zget. by rewrite Hvn. }
  exists s'. split; [exact Hrun|]. split; [congruence|]. split; [congruence|]. eexists. split; [exact Hs'|].
  rewrite parts_rows_append, Hparts, Hnew. cbn [op_partition op_rows]. rewrite Hw, Hnc.
  apply list_eq. intros j. rewrite list_lookup_alter, !list_lookup_fmap.
  destruct (decide (Z.to_nat q = j)) as [<-|Hne].
  - rewrite lookup_seqZ_lt by lia. cbn [fmap option_fmap option_map]. rewrite Z.add_0_l, Z2Nat.id, Z.eqb_refl by lia.
    f_equal. rewrite fmap_app. f_equal. rewrite <- list_fmap_compose. apply list_fmap_ext. intros m' row Hm'.
    apply list_elem_of_lookup_2 in Hm'. destruct (Hrows row Hm') as (_ & _ & Hh & Hv). unfold compose, row_image.
    f_equal; [done|]. rewrite take_ge by lia. clear -Hv. induction Hv as [|i v l l' [_ E] _ IH]; [done|]. cbn. by rewrite E, IH.
  - destruct (decide (Z.of_nat j < np)); [|by rewrite lookup_seqZ_ge by lia].
    rewrite lookup_seqZ_lt by lia. cbn [fmap option_fmap option_map]. by destruct (Z.eqb_spec (0 + Z.of_nat j) q); [lia|].
Qed.

(** All partitions of a marked batch or block. *)
Lemma write_all_ok s np f marks vectors hashes n (R : Z → agg_row) :
  holds_open s np f → 0 < np ≤ zlength marks → Forall is_u64 marks → 0 ≤ n ≤ 64 → zlength vectors = ninputs p →
  (∀ q row, 0 ≤ q < np → row ∈ bits_of (zget 0 marks q) → row < n ∧ row < zlength hashes ∧
     zget 0 hashes row = key_hash (key_of kc (R row)) ∧ row_view p vectors row (R row)) →
  ∃ s', foldM (write_marked n vectors hashes marks) (seqZ 0 np) s = Ok s' ∧
    holds_open s' np (λ q, f q ++ (R <$> bits_of (zget 0 marks q))).
Proof.
  intros Hs Hnp Hu Hn Hvec Hrows.
  destruct (for_inv (λ k s, holds_open s np (λ q, if q <? k then f q ++ (R <$> bits_of (zget 0 marks q)) else f q))
    (write_marked n vectors hashes marks) np s) as (s' & E & Hs'); [lia| | |].
  - eapply holds_open_ext; [|exact Hs]. intros q Hq. cbn. destruct (Z.ltb_spec q 0); [lia|done].
  - intros k s1 Hk Hs1. destruct (write_marked_ok s1 np _ marks k vectors hashes n R Hs1) as (s2 & E2 & Hs2); try done; [lia|intros row Hrow; by apply (Hrows k)|].
    exists s2. split; [done|]. eapply holds_open_ext; [|exact Hs2]. intros q Hq. cbn.
    destruct (Z.eqb_spec q k), (Z.ltb_spec q k), (Z.ltb_spec q (k + 1)), (Z.ltb_spec k k); subst; try lia; done.
  - exists s'. split; [done|]. eapply holds_open_ext; [|exact Hs']. intros q Hq. cbn. destruct (Z.ltb_spec q np); [done|lia].
Qed.

(** ** A batch of the child *)

Context (group_limit : Z).

Definition part5 (r : agg_row) : Z := Z.land (key_hash (key_of kc r)) 31.
Definition partition5 (q : Z) (rows : list agg_row) : list agg_row := filter (λ r, part5 r = q) rows.

Lemma part5_range r : 0 ≤ part5 r < 32.
Proof. unfold part5. change 31 with (Z.ones 5). rewrite Z.land_ones by lia. apply Z.mod_pos_bound. lia. Qed.

(** The state after the rows of some batches. *)
Record input_inv (s : AggState) (rows : list agg_row) : Prop := {
  ii_table : table_ok p kc (ag_groups s) rows;
  ii_hashes : zlength (ag_hashes s) = 64;
  ii_calm : ag_spilling s = false → spilled kc (ag_groups s) rows = [] ∧ ag_initial s = None;
  ii_count : ag_spill_rows s = zlength (spilled kc (ag_groups s) rows);
  ii_sets : match ag_initial s with
    | None => ag_spill_sets s = [] ∧ spilled kc (ag_groups s) rows = []
    | Some i => i = 0 ∧ ∃ set, ag_spill_sets s = [set] ∧
        holds_open set 32 (λ q, partition5 q (spilled kc (ag_groups s) rows))
    end;
  ii_work : ag_spill_work s = [];
}.

Lemma input_inv_start hashes :
  zlength hashes = 64 → input_inv (mkAggState hash_create false hashes None [] [] 0) [].
Proof. intros Hh. constructor; cbn; try done. intros k e. cbn. by rewrite hash_create_spec, lookup_empty. Qed.

(** A row of no group of the table is the first of its group while nothing is spilled. *)
Lemma first_of_group t rows r : spilled kc t rows = [] → ¬ resident kc t r → rows_of kc (key_of kc r) rows = [].
Proof.
  intros Hs Hr. apply list_filter_nil. apply Forall_forall. intros r' Hin Hk. apply (not_elem_of_nil r'). rewrite <- Hs.
  apply list_elem_of_filter. split; [|done]. unfold resident in *. by rewrite Hk.
Qed.

Section batch.
Context (s0 : AggState) (rows : list agg_row) (vectors : list PgBatchInt4Vector) (R : Z → agg_row) (bits : list Z).
Context (Hinv : input_inv s0 rows) (Hs32 : rows_s32 specs (rows ++ (R <$> bits))).
Context (Hlen : zlength rows + zlength bits < max_agg_rows).
Context (Hview : ∀ row, row ∈ bits → row_view p vectors row (R row)) (Hbits : Forall (λ row, 0 ≤ row < 64) bits).

Definition unplaced (t : HTAB) (pre : list Z) : list Z := filter (λ row, ¬ resident kc t (R row)) pre.

(** The state after the rows [pre] of the batch. *)
Record row_inv (pre : list Z) (st : AggState * list Z) : Prop := {
  ri_table : table_ok p kc (ag_groups st.1) (rows ++ (R <$> pre));
  ri_hashes : zlength (ag_hashes st.1) = 64;
  ri_hash : ∀ row, row ∈ pre → zget 0 (ag_hashes st.1) row = key_hash (key_of kc (R row));
  ri_calm : ag_spilling st.1 = false → spilled kc (ag_groups st.1) (rows ++ (R <$> pre)) = [] ∧ ag_initial st.1 = None;
  ri_count : ag_spill_rows st.1 = zlength (spilled kc (ag_groups st.1) (rows ++ (R <$> pre)));
  ri_before : spilled kc (ag_groups st.1) rows = spilled kc (ag_groups s0) rows;
  ri_kept : ag_initial st.1 = ag_initial s0 ∧ ag_spill_sets st.1 = ag_spill_sets s0 ∧ ag_spill_work st.1 = [];
  ri_marks : marks_hold (λ row, part5 (R row)) st.2 (unplaced (ag_groups st.1) pre);
}.

Lemma unplaced_spilled t pre : spilled kc t (R <$> pre) = R <$> unplaced t pre.
Proof. unfold spilled. by rewrite list_filter_fmap'. Qed.

Lemma unplaced_snoc t pre row :
  unplaced t (pre ++ [row]) = unplaced t pre ++ (if decide (resident kc t (R row)) then [] else [row]).
Proof.
  unfold unplaced. rewrite filter_app, filter_cons, filter_nil. f_equal.
  destruct (decide (resident kc t (R row))), (decide (¬ resident kc t (R row))); try done. 
Qed.

Lemma group_row_ok pre row post st :
  bits = pre ++ row :: post → row_inv pre st →
  ∃ st', group_row p group_limit vectors row st = Ok st' ∧ row_inv (pre ++ [row]) st'.
Proof.
  intros Hsplit Hst. pose proof Hst as []. set (r := R row). set (t := ag_groups st.1) in *.
  assert (Hin : row ∈ bits) by (rewrite Hsplit; set_solver).
  assert (Hrow : 0 ≤ row < 64) by (rewrite Forall_forall in Hbits; auto).
  assert (Hv : row_view p vectors row r) by by apply Hview.
  assert (Hpre : rows_s32 specs (rows ++ (R <$> pre)) ∧ zlength (rows ++ (R <$> pre)) + 1 < max_agg_rows).
  { rewrite Hsplit, length_app in Hlen. cbn in Hlen. rewrite Hsplit, fmap_app, app_assoc in Hs32.
    apply rows_s32_app in Hs32 as [? _]. split; [done|]. rewrite length_app, length_fmap. lia. }
  destruct Hpre as [Hpre Hlen'].
  assert (Hsnoc : rows ++ (R <$> pre ++ [row]) = (rows ++ (R <$> pre)) ++ [r]) by by rewrite fmap_app, app_assoc.
  unfold group_row. destruct (group_hash_ok _ _ Hkc vectors row r Hv) as (key & -> & Hh). rewrite bind_Ok, Hh, bind_Ok. cbn [fst snd].
  rewrite aset_ok, bind_Ok by lia. fold t.
  assert (Hhash : ∀ i, i ∈ pre ++ [row] →
    zget 0 (<[Z.to_nat row := key_hash (key_of kc r)]> (ag_hashes st.1)) i = key_hash (key_of kc (R i))).
  { intros i Hi. assert (0 ≤ i < 64) by (rewrite Forall_forall in Hbits; apply Hbits; rewrite Hsplit; set_solver).
    rewrite zget_insert by lia. case_decide as E; [by subst|]. apply ri_hash0. set_solver. }
  destruct (decide (resident kc t r)) as [Hres|Hres].
  - rewrite (find_group_found p kc t _ r false ri_table0 Hres).
    destruct (advance_resident_ok specs p kc Hp Hkc t _ vectors row r Hv Hpre Hlen' ri_table0 Hres) as (t' & -> & Ht' & Hdom).
    rewrite bind_Ok. eexists. split; [done|].
    assert (Hsp : ∀ l, spilled kc t' l = spilled kc t l) by (intros l; by apply spilled_dom).
    assert (Hun : ∀ l, unplaced t' l = unplaced t l).
    { intros l. apply list_filter_iff'. intros i _. unfold resident. by rewrite <- !elem_of_dom, Hdom. }
    assert (Hone : spilled kc t [r] = []) by (unfold spilled; rewrite filter_cons_False, filter_nil; tauto).
    constructor; cbn; rewrite ?Hsnoc, ?Hsp, ?Hun; fold t; try done.
    + by rewrite length_insert.
    + rewrite spilled_app, Hone, app_nil_r. done.
    + rewrite spilled_app, Hone, app_nil_r. done.
    + rewrite unplaced_snoc, decide_True, app_nil_r by done. done.
  - rewrite find_group_missing by done. cbv zeta.
    destruct (negb (ag_spilling st.1) && (hash_get_num_entries t <? group_limit)) eqn:Enew.
    + apply andb_true_iff in Enew as [Ecalm%negb_true_iff _]. destruct (ri_calm0 Ecalm) as [Hcalm Hnone].
      destruct (advance_new_ok specs p kc Hp Hkc t _ vectors row r Hv Hpre Hlen' ri_table0 Hres) as (t0 & t' & -> & -> & Ht' & Hdom);
        [by apply first_of_group with t|].
      rewrite bind_Ok. eexists. split; [done|].
      assert (Hsp : ∀ l, spilled kc t l = [] → spilled kc t' l = []) by (intros l; apply (spilled_mono specs p kc Hp Hkc); set_solver).
      pose proof Hcalm as Hcalm'. rewrite spilled_app in Hcalm'. apply app_nil in Hcalm' as [Hrows0 Hpre0].
      assert (Hall : spilled kc t' (rows ++ (R <$> pre ++ [row])) = []).
      { rewrite Hsnoc, spilled_app, (Hsp _ Hcalm). unfold spilled. rewrite filter_cons_False, filter_nil; [done|].
        intros []. unfold resident. rewrite <- elem_of_dom, Hdom. set_solver. }
      assert (Hun : unplaced t' (pre ++ [row]) = [] ∧ unplaced t pre = []).
      { rewrite spilled_app in Hall. apply app_nil in Hall as [_ Hall]. rewrite !unplaced_spilled in *.
        split; by eapply fmap_nil_inv. }
      destruct Hun as [Hun Hun0]. constructor; cbn; try done.
      * by rewrite Hsnoc.
      * by rewrite length_insert.
      * rewrite Hall, ri_count0, Hcalm. done.
      * fold t in ri_before0. rewrite <- ri_before0, Hrows0. by apply Hsp.
      * rewrite Hun. by rewrite Hun0 in ri_marks0.
    + destruct (mark_row_ok (λ row, part5 (R row)) st.2 _ row ri_marks0 Hrow (part5_range _)) as (marks & Em & Hmarks).
      unfold part5 in Em at 1. fold r in Em. rewrite Em, bind_Ok. eexists. split; [done|].
      assert (Hsp : spilled kc t (rows ++ (R <$> pre ++ [row])) = spilled kc t (rows ++ (R <$> pre)) ++ [r]).
      { rewrite Hsnoc, spilled_app. f_equal. unfold spilled. by rewrite filter_cons_True, filter_nil. }
      constructor; cbn; fold t; try done.
      * rewrite Hsnoc. by apply table_ok_skip.
      * by rewrite length_insert.
      * rewrite Hsp, ri_count0. fold t. unfold u64_add. rewrite length_app. cbn [length].
        assert (length (spilled kc t (rows ++ (R <$> pre))) ≤ length (rows ++ (R <$> pre)))%nat by apply length_filter.
        unfold max_agg_rows in *. rewrite Z.mod_small by lia. lia.
      * rewrite unplaced_snoc, decide_False by done. done.
Qed.

Lemma group_rows_ok : ∃ st, foldM (group_row p group_limit vectors) bits (s0, replicate 32 0) = Ok st ∧ row_inv bits st.
Proof.
  apply foldM_inv; [|intros pre row post st E Hst; exact (group_row_ok pre row post st E Hst)].
  destruct Hinv. constructor; cbn; rewrite ?app_nil_r; try done; [|apply marks_none].
  intros row Hrow. by apply elem_of_nil in Hrow.
Qed.
End batch.

(** One word of selected rows. *)
Lemma single_word sel : sel_wf sel → sel_clean sel → nrows sel ≤ 64 →
  nwords sel = 1 ∧ aref (words sel) 0 = Ok (zget 0 (words sel) 0) ∧ is_u64 (zget 0 (words sel) 0) ∧
  bits_of (zget 0 (words sel) 0) = selected_rows sel.
Proof.
  intros Hs Hc Hn. pose proof (wf_nrows _ Hs). pose proof (wf_nwords _ Hs). assert (Hw : nwords sel = 1) by zlia.
  split; [done|]. split; [apply word_read; (done || lia)|]. split; [apply word_u64; (done || lia)|].
  rewrite <- (selected_rows_extend sel 64) by (done || lia). unfold bits_of. apply list_filter_iff'. intros row Hr%elem_of_seqZ.
  unfold selected. replace (row / 64) with 0 by zlia. by replace (row mod 64) with row by zlia.
Qed.

(** The vectors of a batch show its rows. *)
Definition batch_row (b : ChildBatch) (row : Z) : agg_row := λ c, cell (cb_columns b c) row.

Lemma batch_view b row :
  batch_ok specs b → row ∈ selected_rows (cb_selection b) → row_view p (ab_vectors (load_batch p b)) row (batch_row b row).
Proof.
  intros (_ & _ & Hb) [Hr _]%contains_selected_rows. unfold row_view. cbn. rewrite Forall2_fmap_r.
  apply Forall2_same_length_lookup. split; [done|]. intros n i j Hi Hj. assert (j = i) as -> by congruence.
  destruct (Forall_lookup_1 _ _ _ _ (po_inputs _ _ Hp) Hi) as (_ & (s & Hs & Hk & E) & _).
  cbn. rewrite E. split; [|done]. eapply readable_wf; [by apply Hb|done].
Qed.

Lemma advance_grouped_batch_ok s rows b :
  input_inv s rows → batch_ok specs b → nrows (cb_selection b) ≤ 64 → rows_s32 specs rows →
  zlength rows + zlength (batch_rows b) < max_agg_rows →
  ∃ s', advance_grouped_batch p group_limit spill_buffer_limit (load_batch p b) s = Ok s' ∧ input_inv s' (rows ++ batch_rows b).
Proof.
  intros Hinv Hb Hn Hs32 Hlen. unfold advance_grouped_batch. cbn [load_batch ab_selection].
  set (sel := cb_selection b) in *. destruct (single_word sel) as (Hnw & Hword & Hu & Hbits); [apply Hb|apply Hb|done|].
  rewrite Hnw. destruct (Z.ltb_spec 64 (nrows sel)); [lia|]. cbn [negb orb Z.eqb raise_if Pos.eqb]. rewrite bind_Ok, Hword, bind_Ok.
  rewrite while_bits_spec by (done || apply clear_lowest_lowest). rewrite Hbits.
  assert (Hrows : batch_rows b = batch_row b <$> selected_rows sel) by done. rewrite Hrows, length_fmap in Hlen.
  assert (Hrange : Forall (λ row, 0 ≤ row < 64) (selected_rows sel)) by (rewrite <- Hbits; apply bits_of_range).
  destruct (group_rows_ok s rows (ab_vectors (load_batch p b)) (batch_row b) (selected_rows sel)) as (st & E & Hst); try done.
  { rewrite <- Hrows. apply rows_s32_app. split; [done|]. by apply rows_s32_batch. }
  { intros row Hrow. by apply batch_view. }
  cbn [load_batch ab_vectors] in *. rewrite E, bind_Ok. destruct Hst as []. destruct ri_kept0 as (Hi & Hsets & Hwork).
  rewrite Hrows. destruct (ag_spilling st.1) eqn:Espill; cbn [negb].
  - assert (Hens : ∃ s1 set, ensure_initial_spill p spill_buffer_limit st.1 = Ok (s1, 0) ∧ s1 = set_spills st.1 (Some 0) [set] [] ∧
      holds_open set 32 (λ q, partition5 q (spilled kc (ag_groups st.1) rows))).
    { pose proof (ii_sets _ _ Hinv) as Hset. rewrite <- ri_before0 in Hset. unfold ensure_initial_spill. rewrite Hi.
      destruct (ag_initial s) as [i|] eqn:Ei.
      - destruct Hset as (-> & set & Eset & Hset). exists st.1, set. split; [done|]. split; [|done].
        rewrite <- Eset, <- Hsets, <- Hwork, <- Hi. by destruct st.1.
      - destruct Hset as [Eset Hnone]. destruct (create_holds 32) as (set & -> & Hset); [lia|]. rewrite bind_Ok.
        eexists _, set. rewrite Hsets, Eset, Hwork. split; [done|]. split; [done|].
        eapply holds_open_ext; [|exact Hset]. intros q _. cbn. by rewrite Hnone. }
    destruct Hens as (s1 & set & -> & -> & Hset). rewrite bind_Ok. cbn [fst snd set_spills ag_spill_sets ag_hashes ag_initial ag_spill_work].
    rewrite (aref_lookup _ _ set), bind_Ok by done.
    assert (Hmask : ∀ q, 0 ≤ q < 32 → bits_of (zget 0 st.2 q) =
      filter (λ row, part5 (batch_row b row) = q) (unplaced (batch_row b) (ag_groups st.1) (selected_rows sel))).
    { intros q Hq. unfold unplaced. rewrite <- Hbits. apply (marks_bits (λ row, part5 (batch_row b row))); [|done].
      rewrite Hbits. exact ri_marks0. }
    destruct (write_all_ok set 32 _ st.2 ((λ i, cb_columns b (in_column i)) <$> pl_inputs p) (ag_hashes st.1) (nrows sel)
      (batch_row b) Hset) as (set' & -> & Hset').
    { destruct ri_marks0 as (Hl & _). lia. }
    { apply ri_marks0. }
    { pose proof (wf_nrows sel (proj1 Hb)). lia. }
    { by rewrite length_fmap. }
    { intros q row Hq Hrow. rewrite Hmask in Hrow by done. apply list_elem_of_filter in Hrow as [_ Hrow].
      apply list_elem_of_filter in Hrow as [_ Hrow]. pose proof Hrow as [Hr _]%contains_selected_rows.
      split; [apply Hr|]. split; [fold sel in Hr; lia|]. split; [by apply ri_hash0|]. by apply (batch_view b). }
    rewrite bind_Ok, aset_ok, bind_Ok by (cbn; lia). eexists. split; [done|]. constructor; cbn; try done; [congruence|].
    split; [done|]. eexists. split; [done|]. eapply holds_open_ext; [|exact Hset']. intros q Hq. cbn.
    rewrite Hmask, spilled_app, unplaced_spilled by done. unfold partition5. rewrite filter_app. f_equal.
    by rewrite list_filter_fmap'.
  - destruct (ri_calm0 eq_refl) as [Hnone Hini]. eexists. split; [done|]. constructor; try done.
    rewrite Hini. split; [|done]. rewrite Hsets. pose proof (ii_sets _ _ Hinv) as Hset. rewrite <- Hi, Hini in Hset. apply Hset.
Qed.
End spilled_rows.
