(* ===== verification/AggSpillProps.v ===== *)
(** * The aggregate node: spilled partitions and grouped results

    Loading a spilled partition into a table, splitting it by further hash
    bits, and the result of a plan with groups. *)

From S2P Require Import Prelude Words Selection Vector Kernels Int4 Hash Spill SpillBlocks SpillSet SpillRun SpillLoop JoinDirectory Aggregate AggProps AggGroup AggGroupProps AggInput.

(** ** Splitting a list into classes *)

Lemma split_classes {A} (class : A → Z) (qs : list Z) (l : list A) :
  NoDup qs → Forall (λ x, class x ∈ qs) l → concat ((λ q, filter (λ x, class x = q) l) <$> qs) ≡ₚ l.
Proof.
  intros Hqs. revert l. induction Hqs as [|q qs Hq _ IH]; intros l Hl.
  - destruct l as [|x l]; [done|]. apply Forall_cons in Hl as [Hx _]. by apply elem_of_nil in Hx.
  - cbn. etransitivity; [|apply (filter_app_complement (λ x, class x = q) l)]. f_equiv.
    rewrite <- (IH (filter (λ x, class x ≠ q) l)).
    + apply (eq_subrelation (R := (≡ₚ)) _ _). f_equal. apply list_fmap_ext. intros n q' Hq'%list_elem_of_lookup_2.
      rewrite list_filter_filter. apply list_filter_iff'. intros x _. naive_solver.
    + apply Forall_forall. intros x [Hx Hin]%list_elem_of_filter. rewrite Forall_forall in Hl. specialize (Hl x Hin). set_solver.
Qed.

Lemma concat_perm {A B} (f g : A → list B) l :
  (∀ x, x ∈ l → f x ≡ₚ g x) → concat (f <$> l) ≡ₚ concat (g <$> l).
Proof.
  induction l as [|x l IH]; intros Hfg; [done|]. cbn. f_equiv; [apply Hfg; set_solver|]. apply IH. intros. apply Hfg. set_solver.
Qed.

Section reference.
Context (specs : list (PgBatchAggKind * Z)) (kc : Z).

(** The groups of a list of rows, and the result row of each. *)
Definition group_keys (rows : list agg_row) : list GroupKey := remove_dups (key_of kc <$> rows).
Definition grouped_values (rows : list agg_row) : list (list (Z * bool)) :=
  (λ k, agg_values specs (rows_of kc k rows)) <$> group_keys rows.

Lemma group_keys_in k rows : k ∈ group_keys rows ↔ rows_of kc k rows ≠ [].
Proof.
  unfold group_keys, rows_of. rewrite elem_of_remove_dups, list_elem_of_fmap. split.
  - intros (r & -> & Hr) E. apply (not_elem_of_nil r). rewrite <- E. by apply list_elem_of_filter.
  - intros E. destruct (filter _ rows) as [|r l] eqn:F; [done|]. exists r.
    assert (r ∈ filter (λ r, key_of kc r = k) rows) as [<- Hr]%list_elem_of_filter by (rewrite F; set_solver). done.
Qed.

Lemma rows_of_class (class : GroupKey → Z) q k rows :
  rows_of kc k (filter (λ r, class (key_of kc r) = q) rows) = if decide (class k = q) then rows_of kc k rows else [].
Proof.
  unfold rows_of. rewrite list_filter_filter. case_decide as E.
  - apply list_filter_iff'. intros r _. split; [tauto|]. intros <-. done.
  - apply list_filter_nil, Forall_forall. intros r _ [<- ?]. done.
Qed.

Lemma group_keys_class (class : GroupKey → Z) q rows :
  group_keys (filter (λ r, class (key_of kc r) = q) rows) ≡ₚ filter (λ k, class k = q) (group_keys rows).
Proof.
  apply NoDup_Permutation; [apply NoDup_remove_dups|apply NoDup_filter, NoDup_remove_dups|].
  intros k. rewrite list_elem_of_filter, !group_keys_in, rows_of_class. case_decide; naive_solver.
Qed.

(** Grouping the classes of a partition by the key one by one. *)
Lemma grouped_split (class : GroupKey → Z) qs rows :
  NoDup qs → Forall (λ r, class (key_of kc r) ∈ qs) rows →
  concat ((λ q, grouped_values (filter (λ r, class (key_of kc r) = q) rows)) <$> qs) ≡ₚ grouped_values rows.
Proof.
  intros Hqs Hrows. unfold grouped_values at 2. rewrite <- (split_classes class qs (group_keys rows) Hqs).
  2: { apply Forall_forall. intros k Hk. unfold group_keys in Hk. rewrite elem_of_remove_dups in Hk.
       apply list_elem_of_fmap in Hk as (r & -> & Hr). rewrite Forall_forall in Hrows. auto. }
  change (fmap (M := list)) with (@map (GroupKey) (list (Z * bool))) at 2. rewrite concat_map, map_map. apply concat_perm.
  intros q _. unfold grouped_values. rewrite group_keys_class. apply (eq_subrelation (R := (≡ₚ)) _ _). apply list_fmap_ext.
  intros n k [Hk _]%list_elem_of_lookup_2%list_elem_of_filter. by rewrite rows_of_class, decide_True.
Qed.

Lemma grouped_values_nil : grouped_values [] = [].
Proof. done. Qed.
End reference.

Section spill_phase.
Context `{PgCore} `{LogicalTapes} `{DynaHash}.
Context (specs : list (PgBatchAggKind * Z)) (p : AggPlan) (kc : Z).
Context (Hp : plan_ok specs p) (Hkc : input_at (pl_inputs p) (pl_group_input p) kc 0).
Context (spill_buffer_limit group_limit : Z) (Hwide : zlength specs < 2 ^ 16).

(** ** Result rows *)

Lemma store_result_ok k rows :
  rows ≠ [] → Forall (λ r, key_of kc r = k) rows → (∀ c, c ∈ group_columns specs → c = kc) →
  store_group_result p (group_entry p k rows) = Ok (agg_values specs rows).
Proof.
  intros Hne Hk Hone. unfold store_group_result. rewrite (foldM_collect _ _ (agg_values specs rows)); [done|].
  unfold agg_values. rewrite Forall2_fmap_r. pose proof (po_aggs _ _ Hp) as H2. apply Forall2_same_length_lookup.
  rewrite (Forall2_length _ _ _ H2). split; [done|]. intros n agg spec Ha Hs.
  destruct (Forall2_lookup_lr _ _ _ _ _ _ H2 Hs Ha) as [Hkind Hat]. apply list_elem_of_lookup_2 in Hs. rewrite Hkind.
  destruct spec as [kind column]. unfold agg_value. cbn in *.
  destruct (decide (kind = PG_BATCH_AGG_GROUP_KEY)) as [->|Hg].
  { destruct rows as [|r rows]; [done|]. apply Forall_cons in Hk as [<- _]. unfold key_of.
    rewrite (Hone column) by by apply group_columns_in. by destruct (r kc). }
  destruct (decide (kind = PG_BATCH_AGG_COUNT_STAR)) as [->|Hstar].
  { unfold star_after. rewrite (po_star _ _ Hp), bool_decide_eq_true_2; [done|].
    apply list_elem_of_fmap. by exists (PG_BATCH_AGG_COUNT_STAR, column). }
  specialize (Hat Hstar). assert (Hflag : flag_of kind ≠ 0) by by destruct kind.
  destruct (input_flag _ _ _ _ Hat Hflag) as (i & Hi & Hn & <- & Hf).
  set (vs := column_values (in_column i) rows).
  assert (Hread : aref (ge_values (group_entry p k rows)) (agg_input agg) = Ok (entry_of (in_flags i) vs)).
  { apply aref_lookup; [done|]. cbn. by rewrite list_lookup_fmap, Hi. }
  assert (Hnz : in_flags i =? 0 = false).
  { apply Z.eqb_neq. intros E. rewrite E in Hf. by destruct kind. }
  cbn [ge_values group_entry] in Hread. unfold of_values.
  destruct kind; try done; cbn [flag_of] in Hf; rewrite Hread; unfold entry_of; rewrite Hnz; cbn;
    unfold PG_BATCH_INT4_REDUCE_COUNT, PG_BATCH_INT4_REDUCE_SUM, PG_BATCH_INT4_REDUCE_MIN, PG_BATCH_INT4_REDUCE_MAX;
    rewrite Hf; [done|..]; by destruct vs.
Qed.

Context (Hone : ∀ c, c ∈ group_columns specs → c = kc).

(** The rows of a table's groups, in the order of the scan. *)
Lemma group_results_ok t rows :
  table_ok p kc t rows →
  ∃ out, group_results p t = Ok out ∧
    out ≡ₚ (λ k, agg_values specs (rows_of kc k rows)) <$> elements (dom (hash_contents t)).
Proof.
  intros Ht. exists ((λ e, agg_values specs (rows_of kc (ge_key e) rows)) <$> hash_seq t). split.
  - unfold group_results. rewrite (foldM_collect _ _ ((λ e, agg_values specs (rows_of kc (ge_key e) rows)) <$> hash_seq t)); [done|].
    rewrite Forall2_fmap_r. apply Forall_Forall2_diag, Forall_forall. intros e He. rewrite hash_seq_spec in He.
    apply list_elem_of_fmap in He as ([k e'] & -> & He%elem_of_map_to_list). cbn. destruct (Ht _ _ He) as [E Hne].
    rewrite E. cbn [ge_key group_entry]. apply store_result_ok; [done| |done].
    apply Forall_forall. intros r [Hr _]%list_elem_of_filter. done.
  - rewrite hash_seq_spec. rewrite <- list_fmap_compose.
    transitivity ((λ k, agg_values specs (rows_of kc k rows)) <$> (map_to_list (hash_contents t)).*1).
    + rewrite <- list_fmap_compose. apply (eq_subrelation (R := (≡ₚ)) _ _). apply list_fmap_ext.
      intros n [k e] He%list_elem_of_lookup_2%elem_of_map_to_list. unfold compose. cbn. destruct (Ht _ _ He) as [-> _]. done.
    + apply fmap_Permutation. apply NoDup_Permutation; [apply NoDup_fst_map_to_list|apply NoDup_elements|].
      intros k. rewrite elem_of_elements, elem_of_dom, list_elem_of_fmap. split.
      * intros ([k' e] & -> & He%elem_of_map_to_list). by exists e.
      * intros [e He]. exists (k, e). split; [done|]. by apply elem_of_map_to_list.
Qed.

(** A table with the groups of all rows. *)
Definition table_all (t : HTAB) (rows : list agg_row) : Prop := table_ok p kc t rows ∧ spilled kc t rows = [].

Lemma table_all_keys t rows : table_all t rows → elements (dom (hash_contents t)) ≡ₚ group_keys kc rows.
Proof.
  intros [Ht Hs]. apply NoDup_Permutation; [apply NoDup_elements|apply NoDup_remove_dups|]. intros k.
  rewrite elem_of_elements, group_keys_in, elem_of_dom. split.
  - intros [e He]. by destruct (Ht _ _ He).
  - intros Hne. destruct (rows_of kc k rows) as [|r l] eqn:E; [done|].
    assert (r ∈ rows_of kc k rows) as [<- Hr]%list_elem_of_filter by (rewrite E; set_solver).
    destruct (decide (resident kc t r)) as [Hres|Hres]; [done|]. destruct (not_elem_of_nil r). rewrite <- Hs.
    by apply list_elem_of_filter.
Qed.

Lemma group_results_all t rows :
  table_all t rows → ∃ out, group_results p t = Ok out ∧ out ≡ₚ grouped_values specs kc rows.
Proof.
  intros Ht. destruct (group_results_ok t rows) as (out & E & Hout); [apply Ht|]. exists out. split; [done|].
  rewrite Hout. by rewrite (table_all_keys t rows Ht).
Qed.

(** ** Blocks *)

Definition no_row : agg_row := λ _, None.

(** A block of a partition shows the rows that were written. *)
Lemma block_view block rows :
  block_wf (ninputs p) block → block_sql_rows block = row_image p kc <$> rows → rows_s32 specs rows →
  zlength rows = bl_nrows block ∧ bits_of (bl_selection block) = seqZ 0 (bl_nrows block) ∧
  ∀ d, 0 ≤ d < bl_nrows block → row_view p (spill_block_vectors p block) d (zget no_row rows d) ∧
    zget 0 (bl_hashes block) d = key_hash (key_of kc (zget no_row rows d)).
Proof.
  intros [] Hrows Hs32.
  assert (Hlen : zlength rows = bl_nrows block).
  { apply (f_equal length) in Hrows. unfold block_sql_rows, block_rows in Hrows. rewrite !length_fmap in Hrows.
    unfold array_rows in Hrows. rewrite length_fmap, length_seqZ in Hrows. lia. }
  split; [done|]. split; [rewrite bw_selection; apply bits_of_ones; lia|]. intros d Hd.
  destruct (lookup_lt_is_Some_2 rows (Z.to_nat d)) as [r Hr]; [lia|].
  assert (Hz : zget no_row rows d = r) by (unfold zget; by rewrite Hr). rewrite Hz.
  assert (Himg : logical (array_row (ninputs p) (bl_hashes block) (bl_values block) (bl_validity block) d) = row_image p kc r).
  { assert (E : block_sql_rows block !! Z.to_nat d = Some (row_image p kc r)) by by rewrite Hrows, list_lookup_fmap, Hr.
    unfold block_sql_rows, block_rows, array_rows in E. rewrite bw_ncolumns, !list_lookup_fmap, lookup_seqZ_lt in E by lia.
    rewrite Z2Nat.id in E by lia. by apply (inj Some) in E. }
  unfold logical, row_image, array_row, raw_cells in Himg. cbn [fst snd] in Himg. injection Himg as Hhash Hcells.
  split; [|done]. unfold row_view, spill_block_vectors. rewrite Forall2_fmap_r. apply Forall2_same_length_lookup.
  split; [rewrite length_seqZ; unfold ninputs; lia|]. intros n i c Hi Hc. apply lookup_seqZ in Hc as [-> Hc].
  rewrite Z.add_0_l in *. destruct (packed_drop_ok (bl_values block) (bl_validity block) (Z.of_nat n) d) as (Hnull & Hval & Hcell); [lia..|].
  unfold PG_BATCH_SPILL_BLOCK_ROWS. set (v := pg_batch_int4_vector_init_packed _ _ _) in *.
  assert (Hr' : cell v d = r (in_column i)).
  { rewrite Hcell. rewrite <- list_fmap_compose in Hcells. apply (f_equal (λ l, l !! n)) in Hcells.
    rewrite !list_lookup_fmap, lookup_seqZ_lt, Hi in Hcells by lia. cbn in Hcells. rewrite Z.add_0_l in Hcells. by injection Hcells as <-. }
  split; [|done]. split; [done|]. intros Hnn. change (cell_null v d = false) in Hnn. split; [done|]. unfold cell in Hr'. rewrite Hnn in Hr'.
  destruct (Forall_lookup_1 _ _ _ _ (po_inputs _ _ Hp) Hi) as (_ & (s & Hs & Hk & Hc') & _).
  specialize (Hs32 s Hs Hk). rewrite Forall_forall in Hs32. apply Hs32. apply list_elem_of_omap. exists r.
  split; [by eapply list_elem_of_lookup_2|]. rewrite <- Hc'. symmetry. exact Hr'.
Qed.

(** The rows of a block as a list over their positions. *)
Lemma block_positions (rows : list agg_row) n : zlength rows = n → zget no_row rows <$> seqZ 0 n = rows.
Proof. intros <-. apply zget_seqZ. Qed.

(** ** Sets that are read *)

Definition holds_ready (s : PgBatchSpillSet) (np : Z) (f : Z → list agg_row) : Prop :=
  ncolumns s = ninputs p ∧ npartitions s = np ∧ set_ready s ((λ q, row_image p kc <$> f q) <$> seqZ 0 np).

Lemma finish_holds s np f :
  holds_open p kc s np f → (∀ q, zlength (f q) < 2 ^ 64) →
  ∃ s', pg_batch_spill_finish s true = Ok s' ∧ holds_ready s' np f.
Proof.
  intros (Hnc & Hnp & parts & Hs & Hparts) Hlen.
  destruct (finish_ready s parts Hs) as (s' & -> & (Hc1 & Hc2 & _) & Hr).
  { apply Forall_forall. intros rows (i & Hi)%list_elem_of_lookup_1.
    apply (f_equal (λ l, l !! i)) in Hparts. unfold parts_rows in Hparts. change (map (map logical) parts) with (map logical <$> parts) in Hparts.
    rewrite !list_lookup_fmap, Hi in Hparts. destruct (seqZ 0 np !! i) as [q|]; [|done]. cbn in Hparts. apply (inj Some) in Hparts.
    apply (f_equal length) in Hparts. rewrite length_map, length_fmap in Hparts. rewrite Hparts. apply Hlen. }
  exists s'. split; [done|]. split; [congruence|]. split; [congruence|]. unfold parts_rows in Hparts. by rewrite Hparts in Hr.
Qed.

Lemma read_rows_ok {A} (I : list agg_row → A → Prop) (J : A → Prop) (body : PgBatchSpillBlock → A → res (A * bool))
    s np f q a :
  (∀ pre rs post block a, f q = pre ++ rs ++ post → I pre a → block_wf (ninputs p) block →
     block_sql_rows block = row_image p kc <$> rs →
     ∃ a' b, body block a = Ok (a', b) ∧ if b : bool then I (pre ++ rs) a' else J a') →
  holds_ready s np f → 0 ≤ q < np → I [] a →
  ∃ s' a' b, read_blocks body s q a = Ok (s', a', b) ∧ holds_ready s' np f ∧ if b : bool then I (f q) a' else J a'.
Proof.
  intros Hbody (Hnc & Hnp & Hs) Hq HI.
  destruct (read_blocks_ok (λ sql a, ∃ pre post, f q = pre ++ post ∧ sql = row_image p kc <$> pre ∧ I pre a) J body (ninputs p)
    (row_image p kc <$> f q) s ((λ q, row_image p kc <$> f q) <$> seqZ 0 np) q a) as (s' & a' & b & -> & (Hl1 & Hl2 & _) & Hs' & Hpost); [|exact Hs|done|lia| |by exists [], (f q)|].
  - intros sql block post a0 Hrows (pre & rest & Hf & -> & HIpre) Hwf. rewrite Hf, fmap_app in Hrows. apply app_inv_head in Hrows.
    apply fmap_app_inv in Hrows as (rs & post' & Eb & -> & ->).
    destruct (Hbody pre rs post' block a0 Hf HIpre Hwf Eb) as (a1 & b & E & Hb). exists a1, b. split; [done|].
    destruct b; [|done]. exists (pre ++ rs), post'. rewrite <- app_assoc, fmap_app, Eb. done.
  - by rewrite list_lookup_fmap, lookup_seqZ_lt, Z2Nat.id by lia.
  - exists s', a', b. split; [done|]. split; [split_and!; [congruence|congruence|done]|]. destruct b; [|done].
    destruct Hpost as (pre & post & Hf & E & HIpre). apply (f_equal length) in E. rewrite !length_fmap, Hf, length_app in E.
    destruct post; [|cbn in E; lia]. by rewrite Hf, app_nil_r.
Qed.

(** ** Loading a partition *)

Definition key_set (rows : list agg_row) : gset GroupKey := list_to_set (key_of kc <$> rows).
Definition too_many (rows : list agg_row) : Prop := group_limit < Z.of_nat (size (key_set rows)).

Lemma table_keys_subset t rows all :
  table_ok p kc t rows → rows ⊆ all → dom (hash_contents t) ⊆ key_set all.
Proof.
  intros Ht Hsub k [e He]%elem_of_dom. destruct (Ht _ _ He) as [_ Hne]. destruct (rows_of kc k rows) as [|r l] eqn:E; [done|].
  assert (r ∈ rows_of kc k rows) as [<- Hr]%list_elem_of_filter by (rewrite E; set_solver).
  apply elem_of_list_to_set, list_elem_of_fmap. exists r. auto.
Qed.

Lemma load_row_ok vectors row r rows all st :
  row_view p vectors row r → rows_s32 specs rows → zlength rows + 1 < max_agg_rows → rows ⊆ all → r ∈ all →
  (if st.2 : bool then table_all st.1 rows else too_many all) →
  ∃ st', load_row p group_limit vectors row st = Ok st' ∧ if st'.2 : bool then table_all st'.1 (rows ++ [r]) else too_many all.
Proof.
  intros Hv Hs32 Hlen Hsub Hin Hst. unfold load_row. destruct st as [t []]; cbn [fst snd negb] in *; [|by eexists].
  destruct Hst as [Ht Hall]. destruct (group_hash_ok _ _ Hkc vectors row r Hv) as (key & -> & Hh). rewrite bind_Ok, Hh, bind_Ok. cbn [snd].
  assert (Hone' : ∀ t', resident kc t' r → spilled kc t' [r] = []).
  { intros t' Hres. unfold spilled. by rewrite filter_cons_False, filter_nil by tauto. }
  destruct (decide (resident kc t r)) as [Hres|Hres].
  - rewrite (find_group_found p kc t _ r false Ht Hres).
    destruct (advance_resident_ok specs p kc Hp Hkc t _ vectors row r Hv Hs32 Hlen Ht Hres) as (t' & -> & Ht' & Hdom).
    rewrite bind_Ok. eexists. split; [done|]. cbn. split; [done|].
    by rewrite (spilled_dom kc t t') , spilled_app, Hall, Hone'.
  - rewrite find_group_missing by done. rewrite hash_num_spec. destruct (Z.leb_spec group_limit (Z.of_nat (size (hash_contents t)))) as [Hfull|Hroom].
    + eexists. split; [done|]. cbn. unfold too_many. rewrite <- size_dom in Hfull.
      assert (Hsz : (S (size (dom (hash_contents t))) ≤ size (key_set all))%nat); [|lia].
      transitivity (size ({[key_of kc r]} ∪ dom (hash_contents t))).
      * rewrite size_union, size_singleton; [done|]. rewrite disjoint_singleton_l, elem_of_dom. done.
      * apply subseteq_size, union_subseteq. split; [|by eapply table_keys_subset].
        apply singleton_subseteq_l, elem_of_list_to_set, list_elem_of_fmap. by exists r.
    + destruct (advance_new_ok specs p kc Hp Hkc t _ vectors row r Hv Hs32 Hlen Ht Hres) as (t0 & t' & -> & -> & Ht' & Hdom);
        [by apply (first_of_group kc t)|].
      rewrite bind_Ok. eexists. split; [done|]. cbn. split; [done|]. rewrite spilled_app, Hone'.
      * rewrite app_nil_r. apply (spilled_mono specs p kc Hp Hkc t t'); [set_solver|done].
      * unfold resident. rewrite <- elem_of_dom, Hdom. set_solver.
Qed.

Lemma while_block_ok {A} block (body : Z → A → res A) a :
  block_wf (ninputs p) block →
  while_bits 64 clear_lowest (bl_selection block) body a = foldM body (seqZ 0 (bl_nrows block)) a.
Proof.
  intros Hb. pose proof (bw_nrows _ _ Hb). rewrite while_bits_spec; [|apply clear_lowest_lowest|].
  - by rewrite (bw_selection _ _ Hb), bits_of_ones by lia.
  - rewrite (bw_selection _ _ Hb). apply is_u64_ones. lia.
Qed.

Lemma load_block_ok all pre rs post block t :
  all = pre ++ rs ++ post → rows_s32 specs all → zlength all < max_agg_rows → table_all t pre →
  block_wf (ninputs p) block → block_sql_rows block = row_image p kc <$> rs →
  ∃ t' b, load_block p group_limit block t = Ok (t', b) ∧ if b : bool then table_all t' (pre ++ rs) else too_many all.
Proof.
  intros -> Hs32 Hlen Ht Hb Hrows. rewrite app_assoc in Hs32. apply rows_s32_app in Hs32 as [Hs32 _].
  pose proof Hs32 as [_ Hrs]%rows_s32_app. destruct (block_view block rs Hb Hrows Hrs) as (Hn & _ & Hview).
  unfold load_block. rewrite while_block_ok by done.
  destruct (foldM_inv (λ rows (st : HTAB * bool), if st.2 then table_all st.1 (pre ++ (zget no_row rs <$> rows)) else too_many (pre ++ rs ++ post))
    (load_row p group_limit (spill_block_vectors p block)) (seqZ 0 (bl_nrows block)) (t, true)) as ([t' b] & E & Hst).
  - cbn. by rewrite app_nil_r.
  - intros rows row rest st Hsplit Hst. assert (Hrow : row ∈ seqZ 0 (bl_nrows block)) by (rewrite Hsplit; set_solver).
    apply elem_of_seqZ in Hrow. destruct (Hview row) as [Hv _]; [lia|].
    assert (Hpref : rs = (zget no_row rs <$> rows) ++ zget no_row rs row :: (zget no_row rs <$> rest)).
    { rewrite <- (block_positions rs (bl_nrows block)) at 1 by done. by rewrite Hsplit, fmap_app. }
    rewrite fmap_app, app_assoc. apply load_row_ok; try done.
    + rewrite Hpref, app_assoc in Hs32. by apply rows_s32_app in Hs32 as [? _].
    + rewrite !length_app in *. apply (f_equal length) in Hpref. rewrite length_app in Hpref. cbn in Hpref. lia.
    + intros r. rewrite Hpref at 2. rewrite !elem_of_app. tauto.
    + rewrite Hpref at 2. rewrite !elem_of_app, elem_of_cons. tauto.
  - rewrite E. exists t', b. split; [done|]. cbn in Hst. rewrite (block_positions rs) in Hst by done. done.
Qed.

Lemma load_partition_ok s np f q :
  holds_ready s np f → 0 ≤ q < np → rows_s32 specs (f q) → zlength (f q) < max_agg_rows →
  ∃ s' t b, read_blocks (load_block p group_limit) s q hash_create = Ok (s', t, b) ∧ holds_ready s' np f ∧
    if b : bool then table_all t (f q) else too_many (f q).
Proof.
  intros Hs Hq Hs32 Hlen. apply (read_rows_ok (λ rows t, table_all t rows) (λ _, too_many (f q))); try done.
  - intros pre rs post block t Hf Ht Hb Hrows. by apply (load_block_ok (f q) pre rs post).
  - split; [|done]. intros k e. by rewrite hash_create_spec, lookup_empty.
Qed.

(** ** Splitting a partition *)

Definition hash_class (hash_shift np : Z) (k : GroupKey) : Z := Z.land (Z.shiftr (key_hash k) hash_shift) (np - 1).
Definition class_rows (hash_shift np q : Z) (rows : list agg_row) : list agg_row :=
  filter (λ r, hash_class hash_shift np (key_of kc r) = q) rows.

Lemma hash_class_mod hash_shift bits k :
  0 ≤ hash_shift → 0 ≤ bits → hash_class hash_shift (2 ^ bits) k = key_hash k / 2 ^ hash_shift mod 2 ^ bits.
Proof.
  intros Hs Hb. unfold hash_class. rewrite Z.shiftr_div_pow2 by done. rewrite <- Z.land_ones by done.
  by rewrite Z.ones_equiv, Z.sub_1_r.
Qed.

Lemma repartition_block_ok hash_shift bits pre rs block child :
  0 ≤ hash_shift → 0 ≤ bits ≤ 5 → rows_s32 specs rs → block_wf (ninputs p) block →
  block_sql_rows block = row_image p kc <$> rs →
  holds_open p kc child (2 ^ bits) (λ q, class_rows hash_shift (2 ^ bits) q pre) →
  ∃ child', repartition_block p hash_shift (2 ^ bits) block child = Ok (child', true) ∧
    holds_open p kc child' (2 ^ bits) (λ q, class_rows hash_shift (2 ^ bits) q (pre ++ rs)).
Proof.
  intros Hs Hb Hs32 Hwf Hrows Hchild. destruct (block_view block rs Hwf Hrows Hs32) as (Hn & _ & Hview).
  unfold repartition_block. rewrite while_block_ok by done. pose proof (bw_nrows _ _ Hwf) as Hnr.
  assert (Hnp : 0 < 2 ^ bits ≤ 32) by (split; [lia|]; change 32 with (2 ^ 5); apply Z.pow_le_mono_r; lia).
  set (part := λ row, hash_class hash_shift (2 ^ bits) (key_of kc (zget no_row rs row))).
  destruct (foldM_inv (λ rows marked, marks_hold part marked rows) (λ row marked,
      hash ← aref (bl_hashes block) row;
      mark_row (Z.land (Z.shiftr hash hash_shift) (2 ^ bits - 1)) row marked) (seqZ 0 (bl_nrows block)) (replicate 32 0))
    as (marked & -> & Hm).
  - apply marks_none.
  - intros rows row rest marked Hsplit Hm. assert (Hrow : row ∈ seqZ 0 (bl_nrows block)) by (rewrite Hsplit; set_solver).
    apply elem_of_seqZ in Hrow. rewrite (aref_ok 0), bind_Ok by (rewrite (bw_hashes _ _ Hwf); lia).
    rewrite (proj2 (Hview row ltac:(lia))). apply (mark_row_ok part); [done|lia|].
    unfold part. rewrite hash_class_mod by lia. pose proof (Z.mod_pos_bound (key_hash (key_of kc (zget no_row rs row)) / 2 ^ hash_shift) (2 ^ bits)). lia.
  - rewrite bind_Ok. assert (Hbits : ∀ q, 0 ≤ q < 2 ^ bits → bits_of (zget 0 marked q) = filter (λ row, part row = q) (seqZ 0 (bl_nrows block))).
    { intros q Hq. rewrite <- (bits_of_ones (bl_nrows block)) in Hm |- * by lia.
      rewrite (marks_bits part marked (Z.ones (bl_nrows block)) (λ _, True)) by (rewrite ?list_filter_all by (by apply Forall_true); done || lia).
      by rewrite (list_filter_all (λ _, True)) by by apply Forall_true. }
    destruct (write_all_ok specs p kc Hp Hkc Hwide child (2 ^ bits) _ marked (spill_block_vectors p block) (bl_hashes block)
      (bl_nrows block) (zget no_row rs) Hchild) as (child' & -> & Hchild').
    + destruct Hm as (Hl & _). lia.
    + apply Hm.
    + lia.
    + unfold spill_block_vectors. rewrite length_fmap, length_seqZ. unfold ninputs. lia.
    + intros q row Hq Hrow. rewrite Hbits in Hrow by done. apply list_elem_of_filter in Hrow as [_ Hrow%elem_of_seqZ].
      destruct (Hview row) as [Hv Hh]; [lia|]. rewrite (bw_hashes _ _ Hwf). split_and!; [lia|lia|done|done].
    + rewrite bind_Ok. exists child'. split; [done|]. eapply (holds_open_ext specs p kc); [|exact Hchild']. intros q Hq. cbn.
      rewrite Hbits by done. unfold class_rows. rewrite filter_app. f_equal.
      transitivity (filter (λ r, hash_class hash_shift (2 ^ bits) (key_of kc r) = q) (zget no_row rs <$> seqZ 0 (bl_nrows block)));
        [by rewrite list_filter_fmap'|by rewrite block_positions].
Qed.
End spill_phase.
