(* ===== verification/AggGrouped.v ===== *)
(** * The aggregate node: the queue of spilled partitions

    The loop that aggregates spilled partitions, its termination, and the
    result of a plan with groups. *)

From S2P Require Import Prelude Words Selection Vector Kernels Int4 Hash Spill SpillBlocks SpillSet SpillRun SpillLoop JoinDirectory Aggregate AggProps AggGroup AggGroupProps AggInput AggSpillProps.

(** The rows of the partitions of one set, and its number of partitions. *)
Definition set_contents : Type := (Z * (Z → list agg_row))%type.

(** The rows of a work item. *)
Definition work_rows (cont : list set_contents) (w : SpillWork) : list agg_row :=
  match cont !! Z.to_nat (wk_set w) with Some c => c.2 (wk_partition w) | None => [] end.

(** The times a row of the item can still be read: once per remaining split,
    and once to be aggregated. *)
Definition levels (hash_shift : Z) : nat := Z.to_nat (1 + (36 - hash_shift) / 5).

Definition workload (cont : list set_contents) (ws : list SpillWork) : nat :=
  sum_list_with (λ w, length (work_rows cont w) * levels (wk_hash_shift w))%nat ws.

Section queue.
Context `{PgCore} `{LogicalTapes} `{DynaHash} `{!ReversibleHash}.
Context (specs : list (PgBatchAggKind * Z)) (p : AggPlan) (kc : Z).
Context (Hp : plan_ok specs p) (Hkc : input_at (pl_inputs p) (pl_group_input p) kc 0).
Context (spill_buffer_limit group_limit : Z) (Hwide : zlength specs < 2 ^ 16) (Hlimit : 2 ≤ group_limit).
Context (Hone : ∀ c, c ∈ group_columns specs → c = kc).

(** The rows of an item have the hash bits below its shift in common. *)
Record work_ok (cont : list set_contents) (w : SpillWork) : Prop := {
  wo_set : 0 ≤ wk_set w;
  wo_contents : ∃ np f, cont !! Z.to_nat (wk_set w) = Some (np, f) ∧ 0 ≤ wk_partition w < np;
  wo_rows : work_rows cont w ≠ [];
  wo_s32 : rows_s32 specs (work_rows cont w);
  wo_length : zlength (work_rows cont w) < max_agg_rows;
  wo_shift : 0 ≤ wk_hash_shift w ≤ 32;
  wo_hash : ∃ v, Forall (λ r, key_hash (key_of kc r) mod 2 ^ wk_hash_shift w = v) (work_rows cont w);
}.

Lemma work_app cont c w :
  work_ok cont w → work_rows (cont ++ [c]) w = work_rows cont w ∧ work_ok (cont ++ [c]) w.
Proof.
  intros []. destruct wo_contents0 as (np & f & Hc & Hq).
  assert (E : work_rows (cont ++ [c]) w = work_rows cont w).
  { unfold work_rows. by rewrite (lookup_app_l_Some _ _ _ _ Hc), Hc. }
  split; [done|]. constructor; rewrite ?E; try done. exists np, f. split; [by apply lookup_app_l_Some|done].
Qed.

Definition sets_hold (sets : list PgBatchSpillSet) (cont : list set_contents) : Prop :=
  Forall2 (λ s c, holds_ready p kc s c.1 c.2) sets cont.

(** ** Work of a finished set *)

Lemma partition_work_ok s np f i hash_shift work :
  holds_ready p kc s np f → 0 ≤ np →
  partition_work i hash_shift s np work =
    Ok (work ++ ((λ q, mkWork i q hash_shift) <$> filter (λ q, length (f q) ≠ 0%nat) (seqZ 0 np))).
Proof.
  intros (Hnc & Hnp & Hs) Hpos. unfold partition_work.
  destruct (foldM_inv (λ qs l, l = work ++ ((λ q, mkWork i q hash_shift) <$> filter (λ q, length (f q) ≠ 0%nat) qs))
    (λ q work, empty ← pg_batch_spill_partition_empty s q;
       Ok (if empty : bool then work else work ++ [mkWork i q hash_shift])) (seqZ 0 np) work) as (l & -> & ->); [| |done].
  - by rewrite app_nil_r.
  - intros pre q post l Hsplit ->. assert (Hq : q ∈ seqZ 0 np) by (rewrite Hsplit; set_solver). apply elem_of_seqZ in Hq.
    rewrite (ready_empty_ok s _ q (row_image p kc <$> f q) Hs), bind_Ok; [|lia|].
    2: { by rewrite list_lookup_fmap, lookup_seqZ_lt, Z2Nat.id by lia. }
    rewrite length_fmap, filter_app, filter_cons, filter_nil, fmap_app.
    eexists. split; [done|]. destruct (Z.eqb_spec (zlength (f q)) 0), (decide (length (f q) ≠ 0%nat)); try lia.
    + by rewrite app_nil_r.
    + by rewrite app_assoc.
Qed.

(** The items of a new set hold the classes of [rows]. *)
Lemma new_work_ok cont np g rows hash_shift i :
  i = zlength cont → 0 ≤ hash_shift ≤ 32 → rows_s32 specs rows → zlength rows < max_agg_rows →
  (∀ q, ∃ P : agg_row → Prop, ∃ d : ∀ r, Decision (P r), g q = filter P rows) →
  (∀ q, 0 ≤ q < np → ∃ v, Forall (λ r, key_hash (key_of kc r) mod 2 ^ hash_shift = v) (g q)) →
  let new := (λ q, mkWork i q hash_shift) <$> filter (λ q, length (g q) ≠ 0%nat) (seqZ 0 np) in
  Forall (work_ok (cont ++ [(np, g)])) new ∧
  work_rows (cont ++ [(np, g)]) <$> new = g <$> filter (λ q, length (g q) ≠ 0%nat) (seqZ 0 np).
Proof.
  intros -> Hshift Hs32 Hlen Hg Hhash new.
  assert (Hw : ∀ q, work_rows (cont ++ [(np, g)]) (mkWork (zlength cont) q hash_shift) = g q).
  { intros q. unfold work_rows. cbn. rewrite lookup_app_r by lia. by rewrite Nat2Z.id, Nat.sub_diag. }
  split.
  - apply Forall_fmap, Forall_forall. intros q [Hne Hq%elem_of_seqZ]%list_elem_of_filter. unfold compose.
    destruct (Hg q) as (P & d & HP).
    constructor; rewrite ?Hw; cbn; try (done || lia).
    + exists np, g. split; [|lia]. rewrite lookup_app_r by lia. by rewrite Nat2Z.id, Nat.sub_diag.
    + by destruct (g q).
    + intros s Hin Hk. specialize (Hs32 s Hin Hk). rewrite Forall_forall in Hs32 |- *. intros v Hv. apply Hs32.
      apply list_elem_of_omap in Hv as (r & Hr & Hv). apply list_elem_of_omap. exists r. split; [|done].
      rewrite HP in Hr. by apply list_elem_of_filter in Hr as [_ ?].
    + rewrite HP. pose proof (length_filter P rows). lia.
    + apply Hhash. lia.
  - unfold new. rewrite <- list_fmap_compose. apply list_fmap_ext. intros n q _. apply Hw.
Qed.

Lemma concat_nonempty {A B} (g : Z → list A) (h : list A → list B) qs :
  h [] = [] → concat (h <$> (g <$> filter (λ q, length (g q) ≠ 0%nat) qs)) = concat ((λ q, h (g q)) <$> qs).
Proof.
  intros Hh. induction qs as [|q qs IH]; [done|]. rewrite filter_cons. cbn. case_decide as E; cbn; rewrite IH; [done|].
  destruct (g q); [by rewrite Hh|]. cbn in E. lia.
Qed.

Lemma workload_new (g : Z → list agg_row) cont (mk : Z → SpillWork) n qs :
  (∀ q, work_rows cont (mk q) = g q) → (∀ q, levels (wk_hash_shift (mk q)) = n) →
  workload cont (mk <$> filter (λ q, length (g q) ≠ 0%nat) qs) = (length (concat (g <$> qs)) * n)%nat.
Proof.
  intros Hw Hl. unfold workload. induction qs as [|q qs IH]; [done|]. rewrite filter_cons. cbn. rewrite length_app.
  case_decide as E; cbn; rewrite ?IH, ?Hw, ?Hl; lia.
Qed.

(** ** One item *)

Lemma sets_hold_update sets cont n s np f :
  sets_hold sets cont → cont !! n = Some (np, f) → holds_ready p kc s np f → sets_hold (<[n := s]> sets) cont.
Proof. intros Hs Hn Hr. rewrite <- (list_insert_id cont n (np, f)) by done. by apply Forall2_insert. Qed.

Lemma load_item_ok sets cont w :
  sets_hold sets cont → work_ok cont w →
  ∃ sets' t b, load_spill_groups p group_limit w sets = Ok (sets', t, b) ∧ sets_hold sets' cont ∧
    if b : bool then table_all p kc t (work_rows cont w) else too_many kc group_limit (work_rows cont w).
Proof.
  intros Hsets []. destruct wo_contents0 as (np & f & Hc & Hq). unfold load_spill_groups.
  destruct (Forall2_lookup_r _ _ _ _ _ Hsets Hc) as (s & Hs & Hr). rewrite (aref_lookup _ _ s), bind_Ok by done.
  assert (E : work_rows cont w = f (wk_partition w)) by (unfold work_rows; by rewrite Hc). rewrite E in *.
  destruct (load_partition_ok specs p kc Hp Hkc group_limit Hwide Hone s np f (wk_partition w)) as (s' & t & b & -> & Hr' & Hpost); try done.
  rewrite bind_Ok, aset_ok, bind_Ok by (apply lookup_lt_Some in Hs; lia). eexists _, t, b. split; [done|].
  split; [|done]. by apply (sets_hold_update sets cont _ s' np f).
Qed.

(** Keys with the same hash: NULL and one value at most. *)
Lemma same_hash_keys v rows :
  rows_s32 specs rows → Forall (λ r, key_hash (key_of kc r) mod 2 ^ 32 = v) rows → (size (key_set kc rows) ≤ 2)%nat.
Proof.
  intros Hs32 Hv. rewrite Forall_forall in Hv.
  assert (Hval : ∀ r x, r ∈ rows → r kc = Some x → is_s32 x).
  { intros r x Hr Hx. destruct Hkc as (_ & i & Hi & Hc & _).
    destruct (Forall_lookup_1 _ _ _ _ (po_inputs _ _ Hp) Hi) as (_ & (s & Hin & Hk & Hs) & _).
    specialize (Hs32 s Hin Hk). rewrite Forall_forall in Hs32. apply Hs32, list_elem_of_omap. exists r.
    split; [done|]. congruence. }
  assert (Hinj : ∀ r r' x x', r ∈ rows → r' ∈ rows → r kc = Some x → r' kc = Some x' → x = x').
  { intros r r' x x' Hr Hr' Hx Hx'. pose proof (Hval r x Hr Hx). pose proof (Hval r' x' Hr' Hx').
    pose proof (Hv r Hr) as E. rewrite <- (Hv r' Hr') in E. pose proof (key_hash_u32 (key_of kc r)). pose proof (key_hash_u32 (key_of kc r')).
    unfold is_u32 in *. rewrite !Z.mod_small in E by lia. unfold key_of in E. rewrite Hx, Hx' in E. unfold key_hash in E. cbn in E.
    apply to_u32_inj; [done|done|]. apply murmurhash32_inj; [unfold is_u32, to_u32; zlia..|done]. }
  assert (Hsub : ∃ k, key_set kc rows ⊆ {[mkGroupKey 0 true; k]}).
  { destruct (decide (Exists (λ r, is_Some (r kc)) rows)) as [Hex|Hex].
    - apply Exists_exists in Hex as (r & Hr & x & Hx). exists (mkGroupKey x false).
      intros k (r' & -> & Hr')%elem_of_list_to_set%list_elem_of_fmap. unfold key_of. destruct (r' kc) as [x'|] eqn:Hx'; [|set_solver].
      rewrite (Hinj r' r x' x) by done. set_solver.
    - exists (mkGroupKey 0 true). intros k (r' & -> & Hr')%elem_of_list_to_set%list_elem_of_fmap. unfold key_of.
      destruct (r' kc) as [x'|] eqn:Hx'; [|set_solver]. destruct Hex. apply Exists_exists. exists r'. by rewrite Hx'. }
  destruct Hsub as [k Hsub]. apply subseteq_size in Hsub.
  assert (Hsz : (size ({[mkGroupKey 0 true; k]} : gset GroupKey) ≤ 1 + 1)%nat); [|lia].
  rewrite size_union_alt, size_singleton. apply Nat.add_le_mono_l.
  transitivity (size ({[k]} : gset GroupKey)); [apply subseteq_size; set_solver|by rewrite size_singleton].
Qed.

Lemma levels_step hash_shift :
  0 ≤ hash_shift < 32 → levels hash_shift = S (levels (hash_shift + Z.min 5 (32 - hash_shift))).
Proof. intros Hs. unfold levels. zlia. Qed.

Lemma class_range hash_shift bits k : 0 ≤ hash_shift → 0 ≤ bits → 0 ≤ hash_class hash_shift (2 ^ bits) k < 2 ^ bits.
Proof. intros Hs Hb. rewrite hash_class_mod by done. apply Z.mod_pos_bound. lia. Qed.

(** Splitting an item with too many groups. *)
Lemma repartition_ok s cont w :
  sets_hold (ag_spill_sets s) cont → work_ok cont w → too_many kc group_limit (work_rows cont w) →
  ∃ s' c new, repartition_spill p spill_buffer_limit w s = Ok s' ∧ sets_hold (ag_spill_sets s') (cont ++ [c]) ∧
    ag_spill_work s' = ag_spill_work s ++ new ∧ Forall (work_ok (cont ++ [c])) new ∧
    concat (grouped_values specs kc <$> (work_rows (cont ++ [c]) <$> new)) ≡ₚ grouped_values specs kc (work_rows cont w) ∧
    (workload (cont ++ [c]) new < workload cont [w])%nat.
Proof.
  intros Hsets Hw Hmany. pose proof Hw as []. destruct wo_contents0 as (np & f & Hc & Hq). destruct wo_hash0 as [v Hv].
  set (rows := work_rows cont w) in *. set (sh := wk_hash_shift w) in *.
  assert (Hsh : sh < 32).
  { destruct (Z.ltb_spec sh 32) as [|Hge]; [done|]. assert (sh = 32) as E by lia. rewrite E in Hv.
    pose proof (same_hash_keys v rows wo_s33 Hv). unfold too_many in Hmany. lia. }
  unfold repartition_spill. fold sh. destruct (Z.leb_spec 32 sh); [lia|]. cbn [raise_if]. rewrite bind_Ok.
  set (bits := Z.min 5 (32 - sh)) in *. assert (Hb : 0 < bits ≤ 5) by lia. rewrite Z.shiftl_1_l.
  assert (Hpow : 0 < 2 ^ bits) by lia.
  destruct (create_holds specs p kc Hp Hkc spill_buffer_limit Hwide (2 ^ bits) Hpow) as (child & -> & Hchild). rewrite bind_Ok.
  destruct (Forall2_lookup_r _ _ _ _ _ Hsets Hc) as (set & Hset & Hr). rewrite (aref_lookup _ _ set), bind_Ok by done.
  assert (E : rows = f (wk_partition w)) by (unfold rows, work_rows; by rewrite Hc).
  set (g := λ q, class_rows kc sh (2 ^ bits) q rows).
  destruct (read_rows_ok specs p kc (λ pre c, holds_open p kc c (2 ^ bits) (λ q, class_rows kc sh (2 ^ bits) q pre)) (λ _, False)
    (repartition_block p sh (2 ^ bits)) set np f (wk_partition w) child) as (set' & child' & b & -> & Hr' & Hpost); [| |done|..].
  { intros pre rs post block a Hf Ha Hwf Hrows.
    destruct (repartition_block_ok specs p kc Hp Hkc Hwide Hone sh bits pre rs block a) as (c' & Ec & Hc'); try (done || lia).
    - rewrite <- E in Hf. rewrite Hf in wo_s33. apply rows_s32_app in wo_s33 as [_ Hx]. by apply rows_s32_app in Hx as [Hx _].
    - exists c', true. done. }
  { exact Hr. }
  { eapply (holds_open_ext specs p kc); [|exact Hchild]. done. }
  destruct b; [|done]. rewrite bind_Ok, aset_ok, bind_Ok by (apply lookup_lt_Some in Hset; lia). cbn [fst snd].
  rewrite <- E in Hpost. change (holds_open p kc child' (2 ^ bits) g) in Hpost.
  assert (Hglen : ∀ q, (length (g q) ≤ length rows)%nat) by (intros q; apply length_filter).
  destruct (finish_holds p kc child' (2 ^ bits) g Hpost) as (child2 & -> & Hready).
  { intros q. specialize (Hglen q). unfold max_agg_rows in *. lia. }
  rewrite bind_Ok, (partition_work_ok child2 (2 ^ bits) g) by (done || lia). rewrite bind_Ok.
  assert (Hsets' : sets_hold (<[Z.to_nat (wk_set w) := set']> (ag_spill_sets s)) cont)
    by by apply (sets_hold_update _ _ _ set' np f).
  set (i := zlength _). assert (Hi : i = zlength cont) by (unfold i; by rewrite (Forall2_length _ _ _ Hsets')).
  destruct (new_work_ok cont (2 ^ bits) g rows (sh + bits) i Hi) as [Hnew Hrows]; try done; [lia| | |].
  { intros q. by eexists (λ r, hash_class sh (2 ^ bits) (key_of kc r) = q), _. }
  { intros q Hq'. exists (v + 2 ^ sh * q). apply Forall_forall. intros r [Hcl Hr0]%list_elem_of_filter.
    rewrite Forall_forall in Hv. rewrite Z.pow_add_r, Z.rem_mul_r by lia. rewrite (Hv r Hr0).
    rewrite hash_class_mod in Hcl by lia. by rewrite Hcl. }
  eexists _, (2 ^ bits, g), _. split; [done|]. cbn [ag_spill_sets ag_spill_work set_spills].
  split; [apply Forall2_app; [done|]; by constructor|]. split; [done|]. split; [exact Hnew|].
  split.
  - etransitivity; [apply (eq_subrelation (R := (≡ₚ)) _ _); exact (f_equal (λ l, concat (grouped_values specs kc <$> l)) Hrows)|].
    rewrite (concat_nonempty g (grouped_values specs kc)) by done. apply (grouped_split specs kc (hash_class sh (2 ^ bits))); [apply NoDup_seqZ|].
    apply Forall_forall. intros r _. apply elem_of_seqZ. pose proof (class_range sh bits (key_of kc r)). lia.
  - rewrite (workload_new g _ _ (levels (sh + bits))); [| |done].
    + unfold workload. cbn. fold rows sh. rewrite (levels_step sh) by lia.
      assert (Hperm : concat (g <$> seqZ 0 (2 ^ bits)) ≡ₚ rows).
      { apply (split_classes (λ r, hash_class sh (2 ^ bits) (key_of kc r))); [apply NoDup_seqZ|].
        apply Forall_forall. intros r _. apply elem_of_seqZ. pose proof (class_range sh bits (key_of kc r)). lia. }
      rewrite Hperm. fold bits. destruct rows; [done|]. cbn. lia.
    + intros q. unfold work_rows. cbn [wk_set]. rewrite Hi, Nat2Z.id, lookup_app_r, Nat.sub_diag by done. done.
Qed.

(** ** The queue *)

Lemma workload_app_sets cont c ws : Forall (work_ok cont) ws →
  workload (cont ++ [c]) ws = workload cont ws ∧ Forall (work_ok (cont ++ [c])) ws ∧
  work_rows (cont ++ [c]) <$> ws = work_rows cont <$> ws.
Proof.
  unfold workload. induction 1 as [|w ws Hw _ (IH1 & IH2 & IH3)]; [done|]. destruct (work_app cont c w Hw) as [E Hw'].
  cbn. rewrite E, IH1, IH3. split_and!; [done|by constructor|done].
Qed.

Lemma workload_app cont ws1 ws2 : workload cont (ws1 ++ ws2) = (workload cont ws1 + workload cont ws2)%nat.
Proof. unfold workload. by rewrite sum_list_with_app. Qed.

Lemma spill_phase_ok fuel : ∀ s cont,
  sets_hold (ag_spill_sets s) cont → Forall (work_ok cont) (ag_spill_work s) → (workload cont (ag_spill_work s) ≤ fuel)%nat →
  ∃ out, spill_phase p group_limit spill_buffer_limit fuel s = Ok out ∧
    out ≡ₚ concat (grouped_values specs kc <$> (work_rows cont <$> ag_spill_work s)).
Proof.
  induction fuel as [|fuel IH]; intros s cont Hsets Hwork Hfuel; destruct (ag_spill_work s) as [|w ws] eqn:Ews.
  - cbn. rewrite Ews. by exists [].
  - exfalso. apply Forall_cons in Hwork as [[] _]. unfold workload in Hfuel. cbn in Hfuel.
    assert (0 < length (work_rows cont w))%nat by (destruct (work_rows cont w); [done|cbn; lia]).
    assert (0 < levels (wk_hash_shift w))%nat by (unfold levels; zlia). nia.
  - cbn. rewrite Ews. by exists [].
  - apply Forall_cons in Hwork as [Hw Hws]. cbn [spill_phase]. rewrite Ews.
    destruct (load_item_ok (ag_spill_sets s) cont w Hsets Hw) as (sets & t & b & -> & Hsets' & Hpost).
    rewrite bind_Ok. cbn [fst snd]. change (w :: ws) with ([w] ++ ws) in Hfuel. rewrite workload_app in Hfuel. destruct b.
    + destruct (group_results_all specs p kc Hp Hkc Hwide Hone t _ Hpost) as (rows & -> & Hrows). rewrite bind_Ok.
      destruct (IH (set_spills s (ag_initial s) sets ws) cont) as (out & -> & Hout); [done|done| |].
      { cbn [set_spills ag_spill_work]. destruct Hw. unfold workload at 1 in Hfuel. cbn in Hfuel.
        assert (0 < length (work_rows cont w))%nat by (destruct (work_rows cont w); [done|cbn; lia]).
        assert (0 < levels (wk_hash_shift w))%nat by (unfold levels; zlia). nia. }
      rewrite bind_Ok. eexists. split; [done|]. cbn. by rewrite Hrows, Hout.
    + destruct (repartition_ok (set_spills s (ag_initial s) sets ws) cont w Hsets' Hw Hpost)
        as (s' & c & new & -> & Hs' & Ework & Hnew & Hperm & Hless). rewrite bind_Ok. cbn in Ework.
      destruct (workload_app_sets cont c ws Hws) as (El & Hws' & Er).
      destruct (IH s' (cont ++ [c]) Hs') as (out & -> & Hout).
      { rewrite Ework. by apply Forall_app. }
      { rewrite Ework, workload_app, El. lia. }
      eexists. split; [done|]. rewrite Hout, Ework, !fmap_app, concat_app, Er. cbn. rewrite Hperm. apply Permutation_app_comm.
Qed.

(** ** The end of the input *)

Lemma finish_input_ok s rows :
  input_inv p kc s rows → rows_s32 specs rows → zlength rows < max_agg_rows →
  ∃ s' cont, finish_group_input s = Ok s' ∧ ag_groups s' = ag_groups s ∧ ag_spill_rows s' = ag_spill_rows s ∧
    sets_hold (ag_spill_sets s') cont ∧ Forall (work_ok cont) (ag_spill_work s') ∧
    (workload cont (ag_spill_work s') ≤ 7 * Z.to_nat (ag_spill_rows s))%nat ∧
    concat (grouped_values specs kc <$> (work_rows cont <$> ag_spill_work s')) ≡ₚ
      grouped_values specs kc (spilled kc (ag_groups s) rows).
Proof.
  intros [? ? ? Hcount Hini Hwork0] Hs32 Hlen. unfold finish_group_input. destruct (ag_initial s) as [i|] eqn:Ei.
  2: { destruct Hini as [Hsets Hnone]. exists s, []. rewrite Hsets, Hwork0, Hnone. split_and!; try done. all: try apply Forall2_nil_2; try apply Forall_nil_2; try apply Nat.le_0_l. }
  destruct Hini as (-> & set & Hsets & Hset). set (sp := spilled kc (ag_groups s) rows) in *.
  assert (Hsp : (length sp ≤ length rows)%nat) by apply length_filter.
  assert (Hsp32 : rows_s32 specs sp).
  { intros c Hc Hk. specialize (Hs32 c Hc Hk). rewrite Forall_forall in Hs32 |- *. intros v (r & Hr & Hv)%list_elem_of_omap.
    apply Hs32, list_elem_of_omap. exists r. split; [|done]. by apply list_elem_of_filter in Hr as [_ ?]. }
  set (g := λ q, partition5 kc q sp) in *. unfold max_agg_rows in *.
  assert (Hg : ∀ q, (length (g q) ≤ length sp)%nat) by (intros q; apply length_filter).
  rewrite Hsets, (aref_lookup _ _ set), bind_Ok by done.
  destruct (finish_holds p kc set 32 g Hset) as (set' & -> & Hready). { intros q. specialize (Hg q). lia. }
  rewrite bind_Ok, aset_ok, bind_Ok by (cbn; lia). rewrite (partition_work_ok set' 32 g), bind_Ok by (done || lia).
  rewrite Hwork0, app_nil_l. set (new := _ <$> filter _ (seqZ 0 32)).
  assert (Hclass : ∀ r, part5 kc r ∈ seqZ 0 32) by (intros r; apply elem_of_seqZ; pose proof (part5_range specs kc r); lia).
  destruct (new_work_ok [] 32 g sp 5 0) as [Hnew Hrows]; [done|lia|done|unfold max_agg_rows; lia| | |].
  { intros q. by eexists (λ r, part5 kc r = q), _. }
  { intros q _. exists q. apply Forall_forall. intros r [Hr _]%list_elem_of_filter.
    change (2 ^ 5) with 32. rewrite <- Hr. unfold part5. change 31 with (Z.ones 5). by rewrite Z.land_ones. }
  eexists _, [(32, g)]. split; [done|]. cbn [set_spills ag_groups ag_spill_rows ag_spill_sets ag_spill_work]. split_and!; [done|done| |done| |].
  - constructor; [exact Hready|constructor].
  - unfold new. rewrite (workload_new g _ _ 7%nat); [|done|done].
    assert (Hperm : concat (g <$> seqZ 0 32) ≡ₚ sp).
    { apply (split_classes (part5 kc)); [apply NoDup_seqZ|]. apply Forall_forall. auto. }
    rewrite Hperm, Hcount. lia.
  - etransitivity; [apply (eq_subrelation (R := (≡ₚ)) _ _); exact (f_equal (λ l, concat (grouped_values specs kc <$> l)) Hrows)|].
    rewrite (concat_nonempty g (grouped_values specs kc)) by done.
    apply (grouped_split specs kc (λ k, Z.land (key_hash k) 31)); [apply NoDup_seqZ|]. apply Forall_forall. intros r _. apply Hclass.
Qed.

(** The groups of the table and those of the spilled rows are all groups. *)
Lemma grouped_resident t rows :
  table_ok p kc t rows →
  ((λ k, agg_values specs (rows_of kc k rows)) <$> elements (dom (hash_contents t))) ++
    grouped_values specs kc (spilled kc t rows) ≡ₚ grouped_values specs kc rows.
Proof.
  intros Ht.
  assert (Hk : ∀ k, k ∈ group_keys kc (spilled kc t rows) ↔ k ∉ dom (hash_contents t) ∧ k ∈ group_keys kc rows).
  { intros k. rewrite !group_keys_in, elem_of_dom. unfold spilled, rows_of. rewrite list_filter_filter. split.
    - intros Hne. destruct (filter _ rows) as [|r l] eqn:E; [done|].
      assert (r ∈ filter (λ x, key_of kc x = k ∧ ¬ resident kc t x) rows) as [[<- Hres] Hr]%list_elem_of_filter by (rewrite E; set_solver).
      split; [done|]. intros E'. apply (not_elem_of_nil r). rewrite <- E'. by apply list_elem_of_filter.
    - intros [Hnk Hne]. rewrite (list_filter_iff' _ (λ r, key_of kc r = k)); [done|]. intros r _.
      split; [tauto|]. intros <-. split; [done|]. exact Hnk. }
  unfold grouped_values at 1. rewrite (list_fmap_ext _ (λ k, agg_values specs (rows_of kc k rows)) (group_keys kc (spilled kc t rows))).
  2: { intros n k [Hnk _]%list_elem_of_lookup_2%Hk. f_equal. unfold spilled, rows_of. rewrite list_filter_filter.
       apply list_filter_iff'. intros r _. split; [tauto|]. intros <-. split; [done|]. intros Hres. apply Hnk. by apply elem_of_dom. }
  unfold grouped_values. rewrite <- fmap_app. apply fmap_Permutation. apply NoDup_Permutation.
  - apply NoDup_app. split; [apply NoDup_elements|]. split; [|apply NoDup_remove_dups].
    intros k Hin%elem_of_elements [Hn _]%Hk. done.
  - apply NoDup_remove_dups.
  - intros k. rewrite elem_of_app, elem_of_elements, Hk. destruct (decide (k ∈ dom (hash_contents t))) as [Hd|]; [|tauto].
    split; [|tauto]. intros _. apply group_keys_in. apply elem_of_dom in Hd as [e He]. by destruct (Ht _ _ He).
Qed.

(** ** The whole execution *)

Definition group_batch_ok (b : ChildBatch) : Prop := batch_ok specs b ∧ nrows (cb_selection b) ≤ 64.

Lemma advance_batches_ok bs : ∀ s rows,
  input_inv p kc s rows → Forall group_batch_ok bs → rows_s32 specs rows → zlength rows + zlength (child_rows bs) < max_agg_rows →
  ∃ s', foldM (advance_grouped_batch p group_limit spill_buffer_limit) (load_batch p <$> bs) s = Ok s' ∧
    input_inv p kc s' (rows ++ child_rows bs) ∧ rows_s32 specs (rows ++ child_rows bs).
Proof.
  induction bs as [|b bs IH]; intros s rows Hinv Hbs Hs32 Hlen; [exists s; cbn; by rewrite app_nil_r|].
  apply Forall_cons in Hbs as [[Hb Hn] Hbs]. unfold child_rows in *. cbn [mbind list_bind] in *. rewrite length_app in Hlen.
  destruct (advance_grouped_batch_ok specs p kc Hp Hkc spill_buffer_limit Hwide group_limit s rows b Hinv Hb Hn Hs32)
    as (s1 & E & Hinv1); [lia|]. cbn [fmap list_fmap foldM]. rewrite E, bind_Ok.
  assert (Hs1 : rows_s32 specs (rows ++ batch_rows b)) by (apply rows_s32_app; split; [done|by apply rows_s32_batch]).
  destruct (IH s1 (rows ++ batch_rows b) Hinv1 Hbs Hs1) as (s' & -> & Hinv' & Hs'); [rewrite length_app; lia|].
  exists s'. by rewrite app_assoc.
Qed.

Lemma agg_run_ok hashes bs :
  zlength hashes = 64 → Forall group_batch_ok bs → zlength (child_rows bs) < max_agg_rows →
  ∃ out, agg_run p group_limit spill_buffer_limit (mkAggState hash_create false hashes None [] [] 0) (load_batch p <$> bs) = Ok out ∧
    out ≡ₚ grouped_values specs kc (child_rows bs).
Proof.
  intros Hh Hbs Hlen. unfold agg_run.
  destruct (advance_batches_ok bs _ [] (input_inv_start p kc hashes Hh) Hbs) as (s & -> & Hinv & Hs32); [by intros ? _ _|done|].
  rewrite bind_Ok. cbn [app] in *.
  destruct (finish_input_ok s _ Hinv Hs32 Hlen) as (s' & cont & -> & Et & Er & Hsets & Hwork & Hload & Hperm).
  rewrite bind_Ok, Et, Er. pose proof (ii_table _ _ _ _ Hinv) as Ht.
  destruct (group_results_ok specs p kc Hp Hone _ _ Ht) as (rows1 & -> & Hrows1). rewrite bind_Ok.
  destruct (spill_phase_ok _ s' cont Hsets Hwork Hload) as (rows2 & -> & Hrows2). rewrite bind_Ok.
  eexists. split; [done|]. rewrite Hrows1, Hrows2, Hperm. by apply grouped_resident.
Qed.
End queue.

(** C4. A plan with a group column: planning accepts the aggregates, and over
    any batches of the child the node returns, in some order, one row per
    distinct value of the group column, NULL included, with SQL's aggregates
    of the rows of the group.  This holds whatever the limit on the groups in
    memory is, so long as it is at least two: groups that do not fit are
    spilled and aggregated later, partitions with too many groups are split,
    and splitting ends without the error for a skewed group set.  The same
    holds when the node is rescanned from whatever state it was in. *)
Theorem agg_grouped_spec `{PgCore} `{LogicalTapes} `{DynaHash} `{!ReversibleHash} specs kc group_limit spill_buffer_limit bs s :
  specs_ok specs → kc ∈ group_columns specs → zlength specs < 2 ^ 16 → 2 ≤ group_limit →
  Forall (group_batch_ok specs) bs → zlength (child_rows bs) < max_agg_rows → zlength (ag_hashes s) = 64 →
  ∃ p out out', plan_aggs specs = Ok p ∧
    agg_exec_grouped p group_limit spill_buffer_limit (load_batch p <$> bs) = Ok out ∧
    out ≡ₚ grouped_values specs kc (child_rows bs) ∧
    agg_run p group_limit spill_buffer_limit (agg_rescan s) (load_batch p <$> bs) = Ok out' ∧
    out' ≡ₚ grouped_values specs kc (child_rows bs).
Proof.
  intros Hs Hkc Hwide Hlimit Hbs Hlen Hh. destruct (plan_aggs_ok specs Hs) as (p & Hplan & Hp).
  assert (Hone : ∀ c, c ∈ group_columns specs → c = kc) by (intros c Hc; by apply Hs).
  pose proof (agg_run_ok specs p kc Hp (po_key _ _ Hp kc Hkc) spill_buffer_limit group_limit Hwide Hlimit Hone) as Hrun.
  destruct (Hrun (replicate 64 0) bs eq_refl Hbs Hlen) as (out & E & Hout).
  destruct (Hrun (ag_hashes s) bs Hh Hbs Hlen) as (out' & E' & Hout'). by exists p, out, out'.
Qed.

(** Nine rows of six groups, NULL among them. *)
Definition group_batch : ChildBatch := mkChildBatch (mkSelection 9 1 [511])
  (λ c, PG_BATCH_INT4_PACKED (if c =? 0 then [5; 7; 5; -1; 0; 9; 7; 11; 5] else [1; 2; 3; 4; 5; 6; 7; 8; 9])
    (Some (if c =? 0 then [239; 255] else [255; 253])) 0).

Definition group_aggs : list (PgBatchAggKind * Z) :=
  [(PG_BATCH_AGG_GROUP_KEY, 0); (PG_BATCH_AGG_COUNT_STAR, -1); (PG_BATCH_AGG_SUM_INT4, 1); (PG_BATCH_AGG_MAX_INT4, 1)].

Definition used_state : AggState := mkAggState hash_create true (replicate 64 7) None [] [mkWork 0 3 5] 12.

Lemma agg_grouped_witness :
  ∃ p out out', plan_aggs group_aggs = Ok p ∧
    agg_exec_grouped p 2 1024 (load_batch p <$> [group_batch; group_batch]) = Ok out ∧
    out ≡ₚ grouped_values group_aggs 0 (child_rows [group_batch; group_batch]) ∧
    agg_run p 2 1024 (agg_rescan used_state) (load_batch p <$> [group_batch; group_batch]) = Ok out' ∧
    out' ≡ₚ grouped_values group_aggs 0 (child_rows [group_batch; group_batch]).
Proof.
  assert (Hb : group_batch_ok group_aggs group_batch).
  { split; [|done]. split; [by constructor; cbn; first [lia|by repeat constructor]|]. split.
    - intros row Hrow. cbn in Hrow. unfold selected. replace (row / 64) with 0 by zlia.
      replace (row mod 64) with row by zlia. apply Z.bits_above_log2; [done|]. change (Z.log2 _) with 8. lia.
    - intros s _ _. cbn. split_and!; destruct (s.2 =? 0); cbn; try lia; by repeat constructor. }
  apply (agg_grouped_spec group_aggs 0 2 1024 [group_batch; group_batch] used_state).
  - split; [repeat apply Forall_cons_2; try apply Forall_nil_2; by cbn|].
    intros c d Hc Hd. apply list_elem_of_singleton in Hc as ->. by apply list_elem_of_singleton in Hd as ->.
  - by apply list_elem_of_singleton.
  - done.
  - done.
  - by repeat apply Forall_cons_2; try apply Forall_nil_2.
  - vm_compute. done.
  - done.
Defined.

(** NULL and the value with its hash: a limit of one group, which a hash memory
    limit of 64 kB gives beyond a thousand inputs, cannot tell them apart. *)
Definition skewed_batch : ChildBatch := mkChildBatch (mkSelection 3 1 [7])
  (λ _, PG_BATCH_INT4_PACKED [1; 0; -1640531527] (Some [5]) 0).

Example one_group_limit : group_limit_for 65536 1022 = 1.
Proof. reflexivity. Qed.

Lemma null_group_collides :
  (p ← plan_aggs [(PG_BATCH_AGG_GROUP_KEY, 0)]; agg_exec_grouped p 1 1024 [load_batch p skewed_batch]) =
    Raise ProgramLimitExceeded.
Proof. vm_compute. reflexivity. Qed.
