(* ===== verification/Compressed.v ===== *)
(** * Compressed snapshots of int4 tables ([examples/compressed_tam/compressed.c])

    [pg_batch_compress] reads a table once and keeps a compressed copy of it:
    batches of up to 64 rows, each column stored plainly or as deltas of one or
    two bytes, and storage groups of batches with a summary of the values in
    them, by which a scan leaves groups out.  Snapshots live in a registry and
    are shared by the scans that acquired them.

    The header of a [CompressedBatch] is a record, and the memory behind it,
    which holds the columns' data, a list of bytes. *)

From S2P Require Import Prelude Words Bytes Vector Kernels.

Definition PG_BATCH_SIZE : Z := 64.
Definition PG_BATCH_DISTINCT_VALUES : Z := 16.

Inductive PgBatchCompression : Type :=
| PG_BATCH_COMPRESS_PLAIN
| PG_BATCH_COMPRESS_DELTA8
| PG_BATCH_COMPRESS_DELTA16.

#[global] Instance compression_eq_dec : EqDecision PgBatchCompression.
Proof. solve_decision. Defined.

Record CompressedColumn : Type := mkCompressedColumn {
  cc_encoding : PgBatchCompression;
  cc_validity : list Z;
  cc_null_count : Z;
  cc_base : Z;
  cc_data_offset : Z;
}.

Record CompressedBatch : Type := mkCompressedBatch {
  cb_nrows : Z;
  cb_bytes : Z;
  cb_columns : list CompressedColumn;
  (** The bytes behind the header. *)
  cb_data : list Z;
}.

Record GroupColumn : Type := mkGroupColumn {
  gc_has_nonnull : bool;
  gc_distinct_overflow : bool;
  gc_ndistinct : Z;
  gc_minimum : Z;
  gc_maximum : Z;
  gc_distinct : list Z;
}.

Record StorageGroup : Type := mkStorageGroup {
  sg_first_batch : Z;
  sg_nbatches : Z;
  sg_columns : list GroupColumn;
}.

(** The arrays hold the batches and groups stored so far; their capacities
    bound them. *)
Record CompressedRelation : Type := mkCompressedRelation {
  cr_relid : Z;
  cr_ncolumns : Z;
  cr_batch_capacity : Z;
  cr_group_capacity : Z;
  cr_group_batches : Z;
  cr_bytes : Z;
  cr_refcount : Z;
  cr_batches : list CompressedBatch;
  cr_groups : list StorageGroup;
}.

Definition cr_nbatches (cr : CompressedRelation) : Z := zlength (cr_batches cr).
Definition cr_ngroups (cr : CompressedRelation) : Z := zlength (cr_groups cr).

(** What palloc0 leaves. *)
Definition zero_column : CompressedColumn := mkCompressedColumn PG_BATCH_COMPRESS_PLAIN (replicate 8 0) 0 0 0.
Definition zero_group_column : GroupColumn := mkGroupColumn false false 0 0 0 (replicate 16 0).

Definition set_column (b : CompressedBatch) (column : Z) (stored : CompressedColumn) : res CompressedBatch :=
  columns ← aset (cb_columns b) column stored;
  Ok (mkCompressedBatch (cb_nrows b) (cb_bytes b) columns (cb_data b)).

Definition set_layout (c : CompressedColumn) encoding base offset : CompressedColumn :=
  mkCompressedColumn encoding (cc_validity c) (cc_null_count c) base offset.

(** [offsetof(CompressedBatch, columns) + sizeof(CompressedColumn) * ncolumns] *)
Definition batch_header_size (ncolumns : Z) : Z := 16 + 24 * ncolumns.
(** [offsetof(StorageGroup, columns) + sizeof(GroupColumn) * ncolumns] *)
Definition group_size (ncolumns : Z) : Z := 8 + 76 * ncolumns.

(** The memory [offset] bytes into the batch: the header is not part of it. *)
Definition data_position (b : CompressedBatch) (offset : Z) : Z :=
  offset - MAXALIGN (batch_header_size (zlength (cb_columns b))).
Definition load_data (b : CompressedBatch) (offset n : Z) : res (list Z) :=
  aslice (cb_data b) (data_position b offset) n.
Definition store_data (b : CompressedBatch) (offset : Z) (bytes : list Z) : res CompressedBatch :=
  data ← asplice (cb_data b) (data_position b offset) bytes;
  Ok (mkCompressedBatch (cb_nrows b) (cb_bytes b) (cb_columns b) data).

Definition to_s8 (v : Z) : Z := (v + 2 ^ 7) mod 2 ^ 8 - 2 ^ 7.
Definition to_s16 (v : Z) : Z := (v + 2 ^ 15) mod 2 ^ 16 - 2 ^ 15.

(** [(rows & (UINT64CONST(1) << row)) != 0] *)
Definition row_set (rows row : Z) : bool := negb (Z.land rows (bit64 row) =? 0).

(** A table, as much of its description as matters here, and its rows as the
    slots of a table scan present them. *)
Record Attribute : Type := mkAttribute {
  attisdropped : bool;
  atthasmissing : bool;
  att_is_int4 : bool;
}.

Record Relation : Type := mkRelation {
  rel_id : Z;
  rel_is_table : bool;
  rel_uses_tableam : bool;
  rel_attrs : list Attribute;
}.

Definition slot_values : Type := list (Z * bool).

Section compress.
Context `{PgCore}.

(** ** Columns *)

Definition arrow_set_valid (validity : list Z) (row : Z) : res (list Z) :=
  b ← aref validity (row / 8);
  aset validity (row / 8) (Z.lor b (Z.shiftl 1 (row mod 8))).

Definition relation_supported (relation : Relation) (report_error : bool) : res bool :=
  if negb (rel_is_table relation) || negb (rel_uses_tableam relation) then
    _ ← raise_if report_error FeatureNotSupported; Ok false
  else if zlength (rel_attrs relation) =? 0 then
    _ ← raise_if report_error FeatureNotSupported; Ok false
  else if existsb (λ attr, attisdropped attr || atthasmissing attr || negb (att_is_int4 attr)) (rel_attrs relation) then
    _ ← raise_if report_error FeatureNotSupported; Ok false
  else Ok true.

(** [values] starts at element [first] of the array. *)
Definition choose_compression (values : list Z) (first nonnull_rows nrows : Z)
    : res (PgBatchCompression * Z * Z) :=
  '(normalized, _) ← foldM (λ row '(normalized, last),
      last ← (if row_set nonnull_rows row then aref values (first + row) else Ok last);
      normalized ← aset normalized row last;
      Ok (normalized, last))
    (seqZ 0 nrows) (int32_uninit PG_BATCH_SIZE, 0);
  base ← aref normalized 0;
  '(fits_int8, fits_int16) ← foldM (λ row '(fits_int8, fits_int16),
      value ← aref normalized row;
      previous ← aref normalized (row - 1);
      let delta := value - previous in
      Ok (if (delta <? - 2 ^ 7) || (2 ^ 7 - 1 <? delta) then false else fits_int8,
          if (delta <? - 2 ^ 15) || (2 ^ 15 - 1 <? delta) then false else fits_int16))
    (seqZ 1 (nrows - 1)) (true, true);
  Ok (if (fits_int8 : bool) then (PG_BATCH_COMPRESS_DELTA8, base, nrows - 1)
      else if (fits_int16 : bool) then (PG_BATCH_COMPRESS_DELTA16, base, 2 * (nrows - 1))
      else (PG_BATCH_COMPRESS_PLAIN, base, 4 * nrows)).

(** The first loop of [write_column]: validity bits and the NULL count. *)
Definition write_validity (stored : CompressedColumn) (nonnull_rows nrows : Z) : res CompressedColumn :=
  foldM (λ row stored,
    if row_set nonnull_rows row then
      validity ← arrow_set_valid (cc_validity stored) row;
      Ok (mkCompressedColumn (cc_encoding stored) validity (cc_null_count stored) (cc_base stored) (cc_data_offset stored))
    else
      Ok (mkCompressedColumn (cc_encoding stored) (cc_validity stored) ((cc_null_count stored + 1) mod 2 ^ 16)
            (cc_base stored) (cc_data_offset stored)))
    (seqZ 0 nrows) stored.

Definition write_column (b : CompressedBatch) (column : Z) (values : list Z) (first nonnull_rows nrows : Z)
    : res CompressedBatch :=
  stored ← aref (cb_columns b) column;
  stored ← write_validity stored nonnull_rows nrows;
  b ← set_column b column stored;
  let output := cc_data_offset stored in
  match cc_encoding stored with
  | PG_BATCH_COMPRESS_PLAIN =>
      bytes ← aslice values first nrows;
      store_data b output (s32_array_bytes bytes)
  | encoding =>
      '(b, _) ← foldM (λ row '(b, last),
          value ← (if row_set nonnull_rows row then aref values (first + row) else Ok last);
          let delta := value - last in
          b ← match encoding with
              | PG_BATCH_COMPRESS_DELTA8 => store_data b (output + (row - 1)) (le_bytes 1 (to_s8 delta))
              | _ => store_data b (output + 2 * (row - 1)) (le_bytes 2 (to_s16 delta))
              end;
          Ok (b, value))
        (seqZ 1 (nrows - 1)) (b, cc_base stored);
      Ok b
  end.

(** The three arrays of the first loop are one list of their elements. *)
Definition choose_encodings (values nonnull_rows : list Z) (ncolumns nrows bytes : Z)
    : res (list (PgBatchCompression * Z * Z) * Z) :=
  foldM (λ column '(chosen, bytes),
      rows ← aref nonnull_rows column;
      '(encoding, base, data_size) ← choose_compression values (column * PG_BATCH_SIZE) rows nrows;
      bytes ← add_size bytes (MAXALIGN data_size);
      Ok (chosen ++ [(encoding, base, data_size)], bytes))
    (seqZ 0 ncolumns) ([], bytes).

(** The second loop. *)
Definition write_columns (chosen : list (PgBatchCompression * Z * Z)) (values nonnull_rows : list Z)
    (ncolumns nrows : Z) (b : CompressedBatch) (header_size : Z) : res (CompressedBatch * Z) :=
  foldM (λ column '(b, header_size),
      '(encoding, base, data_size) ← aref chosen column;
      stored ← aref (cb_columns b) column;
      b ← set_column b column (set_layout stored encoding base (to_u32 header_size));
      rows ← aref nonnull_rows column;
      b ← write_column b column values (column * PG_BATCH_SIZE) rows nrows;
      Ok (b, header_size + MAXALIGN data_size))
    (seqZ 0 ncolumns) (b, header_size).

Definition build_compressed_batch (values nonnull_rows : list Z) (ncolumns nrows : Z) : res CompressedBatch :=
  _ ← check_alloc (4 * ncolumns);
  _ ← check_alloc (8 * ncolumns);
  _ ← check_alloc (4 * ncolumns);
  let header_size := batch_header_size ncolumns in
  '(chosen, bytes) ← choose_encodings values nonnull_rows ncolumns nrows (MAXALIGN header_size);
  _ ← check_alloc bytes;
  let b := mkCompressedBatch nrows bytes (replicate (Z.to_nat ncolumns) zero_column)
             (replicate (Z.to_nat (bytes - MAXALIGN header_size)) 0) in
  '(b, _) ← write_columns chosen values nonnull_rows ncolumns nrows b (MAXALIGN header_size);
  Ok b.

(** ** Storage groups *)

Definition grow_array (n capacity : Z) : res Z :=
  if n =? capacity then
    let capacity := 2 * capacity in
    _ ← assert_ (in_s32 capacity);
    _ ← check_alloc (8 * capacity);
    Ok capacity
  else Ok capacity.

(** The group's address is its index, [ngroups - 1]. *)
Definition append_group (cr : CompressedRelation) : res CompressedRelation :=
  let bytes := group_size (cr_ncolumns cr) in
  capacity ← grow_array (cr_ngroups cr) (cr_group_capacity cr);
  _ ← check_alloc bytes;
  let group := mkStorageGroup (cr_nbatches cr) 0 (replicate (Z.to_nat (cr_ncolumns cr)) zero_group_column) in
  _ ← assert_ (cr_ngroups cr <? capacity);
  Ok (mkCompressedRelation (cr_relid cr) (cr_ncolumns cr) (cr_batch_capacity cr) capacity (cr_group_batches cr)
        ((cr_bytes cr + bytes) mod 2 ^ 64) (cr_refcount cr) (cr_batches cr) (cr_groups cr ++ [group])).

Definition distinct_known (meta : GroupColumn) (value : Z) : res bool :=
  search (λ i, d ← aref (gc_distinct meta) i; Ok (d =? value)) (Z.to_nat (gc_ndistinct meta)) 0.

(** One value that is not NULL. *)
Definition update_group_value (meta : GroupColumn) (value : Z) : res GroupColumn :=
  let meta :=
    if negb (gc_has_nonnull meta) then
      mkGroupColumn true (gc_distinct_overflow meta) (gc_ndistinct meta) value value (gc_distinct meta)
    else
      mkGroupColumn true (gc_distinct_overflow meta) (gc_ndistinct meta)
        (Z.min (gc_minimum meta) value) (Z.max (gc_maximum meta) value) (gc_distinct meta) in
  if gc_distinct_overflow meta then Ok meta else
  known ← distinct_known meta value;
  if negb known && (gc_ndistinct meta <? PG_BATCH_DISTINCT_VALUES) then
    distinct ← aset (gc_distinct meta) (gc_ndistinct meta) value;
    Ok (mkGroupColumn (gc_has_nonnull meta) (gc_distinct_overflow meta) ((gc_ndistinct meta + 1) mod 2 ^ 8)
          (gc_minimum meta) (gc_maximum meta) distinct)
  else if negb known then
    Ok (mkGroupColumn (gc_has_nonnull meta) true (gc_ndistinct meta) (gc_minimum meta) (gc_maximum meta)
          (gc_distinct meta))
  else Ok meta.

Definition update_group_column (meta : GroupColumn) (values : list Z) (first nonnull_rows nrows : Z)
    : res GroupColumn :=
  foldM (λ row meta,
    if negb (row_set nonnull_rows row) then Ok meta
    else value ← aref values (first + row); update_group_value meta value) (seqZ 0 nrows) meta.

Definition update_group (group : StorageGroup) (values nonnull_rows : list Z) (ncolumns nrows : Z)
    : res StorageGroup :=
  columns ← foldM (λ column columns,
      meta ← aref columns column;
      rows ← aref nonnull_rows column;
      meta ← update_group_column meta values (column * PG_BATCH_SIZE) rows nrows;
      aset columns column meta)
    (seqZ 0 ncolumns) (sg_columns group);
  Ok (mkStorageGroup (sg_first_batch group) (sg_nbatches group + 1) columns).

(** ** Snapshots *)

Definition set_groups (cr : CompressedRelation) (groups : list StorageGroup) : CompressedRelation :=
  mkCompressedRelation (cr_relid cr) (cr_ncolumns cr) (cr_batch_capacity cr) (cr_group_capacity cr)
    (cr_group_batches cr) (cr_bytes cr) (cr_refcount cr) (cr_batches cr) groups.

Definition push_batch (cr : CompressedRelation) (b : CompressedBatch) : res CompressedRelation :=
  _ ← assert_ (cr_nbatches cr <? cr_batch_capacity cr);
  Ok (mkCompressedRelation (cr_relid cr) (cr_ncolumns cr) (cr_batch_capacity cr) (cr_group_capacity cr)
        (cr_group_batches cr) ((cr_bytes cr + cb_bytes b) mod 2 ^ 64) (cr_refcount cr)
        (cr_batches cr ++ [b]) (cr_groups cr)).

Definition set_batch_capacity (cr : CompressedRelation) (capacity : Z) : CompressedRelation :=
  mkCompressedRelation (cr_relid cr) (cr_ncolumns cr) capacity (cr_group_capacity cr)
    (cr_group_batches cr) (cr_bytes cr) (cr_refcount cr) (cr_batches cr) (cr_groups cr).

(** [compressed->ngroups == 0 ||
    compressed->groups[compressed->ngroups - 1]->nbatches == compressed->group_batches] *)
Definition needs_group (cr : CompressedRelation) : res bool :=
  if cr_ngroups cr =? 0 then Ok true
  else group ← aref (cr_groups cr) (cr_ngroups cr - 1);
       Ok (sg_nbatches group =? cr_group_batches cr).

Definition append_compressed_batch (cr : CompressedRelation) (values nonnull_rows : list Z) (nrows : Z)
    : res CompressedRelation :=
  capacity ← grow_array (cr_nbatches cr) (cr_batch_capacity cr);
  let cr := set_batch_capacity cr capacity in
  b ← build_compressed_batch values nonnull_rows (cr_ncolumns cr) nrows;
  fresh ← needs_group cr;
  cr ← (if (fresh : bool) then append_group cr else Ok cr);
  cr ← push_batch cr b;
  group ← aref (cr_groups cr) (cr_ngroups cr - 1);
  group ← update_group group values nonnull_rows (cr_ncolumns cr) nrows;
  groups ← aset (cr_groups cr) (cr_ngroups cr - 1) group;
  Ok (set_groups cr groups).

(** The staging area of [pg_batch_compress]. *)
Record Staging : Type := mkStaging {
  st_compressed : CompressedRelation;
  st_values : list Z;
  st_nonnull_rows : list Z;
  st_batch_row : Z;
}.

(** The columns of one slot. *)
Definition stage_row (natts : Z) (slot : slot_values) (values nonnull_rows : list Z) (batch_row : Z)
    : res (list Z * list Z) :=
  foldM (λ column '(values, nonnull_rows),
      '(datum, isnull) ← aref slot column;
      if (isnull : bool) then
        values ← aset values (column * PG_BATCH_SIZE + batch_row) 0;
        Ok (values, nonnull_rows)
      else
        rows ← aref nonnull_rows column;
        nonnull_rows ← aset nonnull_rows column (Z.lor rows (bit64 batch_row));
        values ← aset values (column * PG_BATCH_SIZE + batch_row) (DatumGetInt32 datum);
        Ok (values, nonnull_rows))
    (seqZ 0 natts) (values, nonnull_rows).

(** One turn of the scan loop. *)
Definition compress_slot (natts : Z) (slot : slot_values) (s : Staging) : res Staging :=
  '(values, nonnull_rows) ← stage_row natts slot (st_values s) (st_nonnull_rows s) (st_batch_row s);
  let batch_row := st_batch_row s + 1 in
  if batch_row =? PG_BATCH_SIZE then
    cr ← append_compressed_batch (st_compressed s) values nonnull_rows batch_row;
    Ok (mkStaging cr values (replicate (Z.to_nat natts) 0) 0)
  else Ok (mkStaging (st_compressed s) values nonnull_rows batch_row).

(** [pg_batch_compress] up to the installation: the snapshot of a table. *)
Definition compress_table (relation : Relation) (group_rows : Z) (rows : list slot_values) : res CompressedRelation :=
  let natts := zlength (rel_attrs relation) in
  _ ← relation_supported relation true;
  _ ← raise_if ((group_rows <? PG_BATCH_SIZE) || negb (Z.rem group_rows PG_BATCH_SIZE =? 0)) InvalidParameterValue;
  let cr := mkCompressedRelation (rel_id relation) natts 32 8 (Z.quot group_rows PG_BATCH_SIZE) 0 0 [] [] in
  _ ← check_alloc (4 * (natts * PG_BATCH_SIZE));
  _ ← check_alloc (8 * natts);
  s ← foldM (compress_slot natts) rows
        (mkStaging cr (replicate (Z.to_nat (natts * PG_BATCH_SIZE)) 0) (replicate (Z.to_nat natts) 0) 0);
  if 0 <? st_batch_row s
  then append_compressed_batch (st_compressed s) (st_values s) (st_nonnull_rows s) (st_batch_row s)
  else Ok (st_compressed s).

(** ** Reading a column *)

(** Element [row - 1] of the data, an [int8] or an [int16]. *)
Definition stored_delta (b : CompressedBatch) (stored : CompressedColumn) (row : Z) : res Z :=
  match cc_encoding stored with
  | PG_BATCH_COMPRESS_DELTA8 =>
      bytes ← load_data b (cc_data_offset stored + (row - 1)) 1; Ok (to_s8 (le_value bytes))
  | _ =>
      bytes ← load_data b (cc_data_offset stored + 2 * (row - 1)) 2; Ok (to_s16 (le_value bytes))
  end.

(** The addition is an addition of [int]s. *)
Definition column_values (b : CompressedBatch) (stored : CompressedColumn) : res (list Z) :=
  match cc_encoding stored with
  | PG_BATCH_COMPRESS_PLAIN =>
      bytes ← load_data b (cc_data_offset stored) (4 * cb_nrows b);
      Ok (s32_array_value (Z.to_nat (cb_nrows b)) bytes)
  | _ =>
      decoded ← aset (int32_uninit (cb_nrows b)) 0 (cc_base stored);
      foldM (λ row decoded,
          delta ← stored_delta b stored row;
          previous ← aref decoded (row - 1);
          _ ← assert_ (in_s32 (previous + delta));
          aset decoded row (previous + delta))
        (seqZ 1 (cb_nrows b - 1)) decoded
  end.

(** ** Pruning *)

Inductive GroupMatch : Type :=
| PG_BATCH_GROUP_MATCH
| PG_BATCH_GROUP_SKIP_MINMAX
| PG_BATCH_GROUP_SKIP_MEMBERSHIP.

(** A condition of the scan, as far as pruning looks at it; the scalar is a
    Datum and its NULL flag. *)
Record PruneQual : Type := mkPruneQual {
  pq_prunable : bool;
  pq_attnum : Z;
  pq_op : PgBatchInt4Op;
  pq_scalar : Z * bool;
}.

Definition group_contains (column : GroupColumn) (value : Z) : res bool :=
  search (λ i, d ← aref (gc_distinct column) i; Ok (d =? value)) (Z.to_nat (gc_ndistinct column)) 0.

Fixpoint group_may_match (quals : list PruneQual) (group : StorageGroup) : res GroupMatch :=
  match quals with
  | [] => Ok PG_BATCH_GROUP_MATCH
  | qual :: quals =>
      if negb (pq_prunable qual) then group_may_match quals group
      else if (pq_scalar qual).2 then Ok PG_BATCH_GROUP_SKIP_MINMAX
      else
        column ← aref (sg_columns group) (pq_attnum qual - 1);
        if negb (gc_has_nonnull column) then Ok PG_BATCH_GROUP_SKIP_MINMAX else
        let scalar := DatumGetInt32 (pq_scalar qual).1 in
        let matches :=
          match pq_op qual with
          | PG_BATCH_INT4_EQ => (gc_minimum column <=? scalar) && (scalar <=? gc_maximum column)
          | PG_BATCH_INT4_NE => negb (gc_minimum column =? scalar) || negb (gc_maximum column =? scalar)
          | PG_BATCH_INT4_LT => gc_minimum column <? scalar
          | PG_BATCH_INT4_LE => gc_minimum column <=? scalar
          | PG_BATCH_INT4_GT => scalar <? gc_maximum column
          | PG_BATCH_INT4_GE => scalar <=? gc_maximum column
          end in
        if negb matches then Ok PG_BATCH_GROUP_SKIP_MINMAX else
        if bool_decide (pq_op qual = PG_BATCH_INT4_EQ) && negb (gc_distinct_overflow column) then
          contained ← group_contains column scalar;
          if negb contained then Ok PG_BATCH_GROUP_SKIP_MEMBERSHIP else group_may_match quals group
        else group_may_match quals group
  end.

(** ** The registry of snapshots

    Snapshots by address, and the linked list [compressed_relations] as the
    addresses in its order. *)
Record Snapshots : Type := mkSnapshots {
  sn_heap : gmap Z CompressedRelation;
  compressed_relations : list Z;
}.

Definition the_snapshot (a : Z) : ST Snapshots CompressedRelation := o ← gets (λ s, sn_heap s !! a); deref o.

(** The link whose snapshot is of the relation. *)
Fixpoint find_link (relid : Z) (links : list Z) : ST Snapshots (option Z) :=
  match links with
  | [] => mret None
  | a :: links =>
      cr ← the_snapshot a;
      if cr_relid cr =? relid then mret (Some a) else find_link relid links
  end.

Definition set_refcount (cr : CompressedRelation) (n : Z) : CompressedRelation :=
  mkCompressedRelation (cr_relid cr) (cr_ncolumns cr) (cr_batch_capacity cr) (cr_group_capacity cr)
    (cr_group_batches cr) (cr_bytes cr) n (cr_batches cr) (cr_groups cr).

(** [a] is the address of the snapshot [compressed]. *)
Definition install_compressed_relation (a : Z) (compressed : CompressedRelation) : ST Snapshots unit :=
  links ← gets compressed_relations;
  link ← find_link (cr_relid compressed) links;
  match link with
  | Some old =>
      replaced ← the_snapshot old;
      _ ← error_if (negb (cr_refcount replaced =? 0)) ObjectInUse;
      modify (λ s, mkSnapshots (<[a := compressed]> (delete old (sn_heap s)))
                     ((λ b, if b =? old then a else b) <$> compressed_relations s))
  | None =>
      modify (λ s, mkSnapshots (<[a := compressed]> (sn_heap s)) (a :: compressed_relations s))
  end.

(** [a] is the address of the new snapshot's memory. *)
Definition pg_batch_compress (a : Z) (relation : Relation) (group_rows : Z) (rows : list slot_values)
    : ST Snapshots Z :=
  compressed ← lift (compress_table relation group_rows rows);
  _ ← install_compressed_relation a compressed;
  mret (cr_bytes compressed).

Fixpoint find_loop (relation : Relation) (links : list Z) : ST Snapshots (option Z) :=
  match links with
  | [] => mret None
  | a :: links =>
      cr ← the_snapshot a;
      if (cr_relid cr =? rel_id relation) && (cr_ncolumns cr =? zlength (rel_attrs relation))
      then mret (Some a) else find_loop relation links
  end.

Definition find_compressed_relation (relation : Relation) : ST Snapshots (option Z) :=
  supported ← lift (relation_supported relation false);
  if negb supported then mret None else
  links ← gets compressed_relations;
  find_loop relation links.

(** [refcount] is an [int]. *)
Definition add_refcount (a n : Z) : ST Snapshots unit :=
  cr ← the_snapshot a;
  _ ← lift (assert_ (in_s32 (cr_refcount cr + n)));
  modify (λ s, mkSnapshots (<[a := set_refcount cr (cr_refcount cr + n)]> (sn_heap s)) (compressed_relations s)).

Definition pg_batch_compressed_acquire (relation : Relation) : ST Snapshots (option Z) :=
  compressed ← find_compressed_relation relation;
  match compressed with
  | Some a => _ ← add_refcount a 1; mret (Some a)
  | None => mret None
  end.

Definition pg_batch_compressed_available (relation : Relation) : ST Snapshots bool :=
  compressed ← find_compressed_relation relation;
  mret (match compressed with Some _ => true | None => false end).

Definition pg_batch_compressed_release (a : Z) : ST Snapshots unit :=
  cr ← the_snapshot a;
  _ ← lift (assert_ (0 <? cr_refcount cr));
  add_refcount a (-1).

(** Unloading: every snapshot of the list goes. *)
Definition pg_batch_compressed_fini : ST Snapshots unit :=
  modify (λ s, mkSnapshots (foldr delete (sn_heap s) (compressed_relations s)) []).
End compress.
