(* ===== verification/CompressedColumns.v ===== *)
(** * Compressed columns

    What [choose_compression] and [write_column] store for a column of a batch,
    and that [column_values] reads it back. *)

From S2P Require Import Prelude Words Bytes Vector Kernels Int4 Compressed.

(** ** Bytes *)

Lemma le_value_bytes_mod n z : le_value (le_bytes n z) = z mod 256 ^ Z.of_nat n.
Proof.
  revert z. induction n as [|n IH]; intros z; [by rewrite Z.pow_0_r, Z.mod_1_r|].
  cbn [le_bytes le_value]. rewrite IH, Nat2Z.inj_succ, Z.pow_succ_r by lia.
  rewrite (Z.rem_mul_r z) by lia. lia.
Qed.

Lemma s8_roundtrip d : - 2 ^ 7 ≤ d < 2 ^ 7 → to_s8 (le_value (le_bytes 1 (to_s8 d))) = d.
Proof. intros. rewrite le_value_bytes_mod. change (256 ^ Z.of_nat 1) with 256. unfold to_s8. zlia. Qed.

Lemma s16_roundtrip d : - 2 ^ 15 ≤ d < 2 ^ 15 → to_s16 (le_value (le_bytes 2 (to_s16 d))) = d.
Proof. intros. rewrite le_value_bytes_mod. change (256 ^ Z.of_nat 2) with 65536. unfold to_s16. zlia. Qed.

(** A slice depends on its own range only. *)
Lemma aslice_frame {A} (d : A) l l' off n :
  length l' = length l → (∀ i, off ≤ i < off + n → zget d l' i = zget d l i) → aslice l' off n = aslice l off n.
Proof.
  intros Hlen Hsame. destruct (decide (0 ≤ off ∧ 0 ≤ n ∧ off + n ≤ zlength l)) as [(Ho & Hn & Hl)|Hout].
  - destruct (aslice_ok l off n) as (s & -> & Hs & Hget); [done..|].
    destruct (aslice_ok l' off n) as (s' & -> & Hs' & Hget'); [lia..|].
    f_equal. apply (zget_ext d); [lia|]. intros i Hi. rewrite Hget, Hget' by lia. apply Hsame. lia.
  - unfold aslice. rewrite Hlen.
    by destruct (Z.leb_spec 0 off), (Z.leb_spec 0 n), (Z.leb_spec (off + n) (zlength l)); try lia.
Qed.

Lemma aslice_whole {A} (d : A) l off new :
  0 ≤ off → off + zlength new ≤ zlength l →
  (∀ i, 0 ≤ i < zlength new → zget d l (off + i) = zget d new i) → aslice l off (zlength new) = Ok new.
Proof.
  intros Ho Hl Hsame. destruct (aslice_ok l off (zlength new)) as (s & -> & Hs & Hget); [lia..|].
  f_equal. apply (zget_ext d); [lia|]. intros i Hi. rewrite Hget by lia. apply Hsame. lia.
Qed.

Lemma row_set_bit rows row : 0 ≤ row < 64 → row_set rows row = Z.testbit rows row.
Proof. intros. unfold row_set. rewrite land_bit64_zero by done. by destruct (Z.testbit rows row). Qed.

(** ** Columns *)

Definition data_size (encoding : PgBatchCompression) (nrows : Z) : Z :=
  match encoding with
  | PG_BATCH_COMPRESS_DELTA8 => nrows - 1
  | PG_BATCH_COMPRESS_DELTA16 => 2 * (nrows - 1)
  | PG_BATCH_COMPRESS_PLAIN => 4 * nrows
  end.

Definition fits (encoding : PgBatchCompression) (delta : Z) : Prop :=
  match encoding with
  | PG_BATCH_COMPRESS_DELTA8 => - 2 ^ 7 ≤ delta < 2 ^ 7
  | PG_BATCH_COMPRESS_DELTA16 => - 2 ^ 15 ≤ delta < 2 ^ 15
  | PG_BATCH_COMPRESS_PLAIN => True
  end.

Section column.
Context `{PgCore}.
(** A column of the staging area: [nrows] elements of [values] from [first]. *)
Context (values : list Z) (first nonnull nrows : Z).
Context (Hn : 1 ≤ nrows ≤ 64) (Hf : 0 ≤ first) (Hlen : first + nrows ≤ zlength values) (Hs32 : Forall is_s32 values).

(** The variable [last] after [n] rows: NULLs repeat the value before. *)
Fixpoint last_after (n : nat) : Z :=
  match n with
  | O => 0
  | S n => if row_set nonnull (Z.of_nat n) then zget 0 values (first + Z.of_nat n) else last_after n
  end.

Definition normal (row : Z) : Z := last_after (Z.to_nat (row + 1)).

Lemma normal_step row :
  0 ≤ row → normal row = if row_set nonnull row then zget 0 values (first + row) else last_after (Z.to_nat row).
Proof.
  intros Hrow. unfold normal. replace (Z.to_nat (row + 1)) with (S (Z.to_nat row)) by lia. cbn [last_after].
  by rewrite Z2Nat.id by lia.
Qed.

Lemma normal_next row :
  1 ≤ row → normal row = if row_set nonnull row then zget 0 values (first + row) else normal (row - 1).
Proof. intros Hrow. rewrite normal_step by lia. unfold normal. by replace (row - 1 + 1) with row by lia. Qed.

Lemma last_after_s32 n : Z.of_nat n ≤ nrows → is_s32 (last_after n).
Proof.
  induction n as [|n IH]; intros Hle; [done|]. cbn [last_after].
  destruct (row_set nonnull (Z.of_nat n)); [apply zget_Forall; [done|lia]|apply IH; lia].
Qed.

Lemma normal_s32 row : 0 ≤ row < nrows → is_s32 (normal row).
Proof. intros. apply last_after_s32. lia. Qed.

Lemma choose_compression_ok :
  ∃ encoding, choose_compression values first nonnull nrows = Ok (encoding, normal 0, data_size encoding nrows) ∧
    ∀ row, 1 ≤ row < nrows → fits encoding (normal row - normal (row - 1)).
Proof.
  unfold choose_compression, PG_BATCH_SIZE. destruct (int32_uninit_ok 64) as [Hu _]; [lia|].
  destruct (for_inv (λ i '(normalized, last), zlength normalized = 64 ∧ last = last_after (Z.to_nat i) ∧
      ∀ row, 0 ≤ row < i → zget 0 normalized row = normal row)
    (λ row '(normalized, last),
      last ← (if row_set nonnull row then aref values (first + row) else Ok last);
      normalized ← aset normalized row last; Ok (normalized, last)) nrows (int32_uninit 64, 0))
    as ([normalized last] & -> & Hnl & _ & Hnorm); [lia|split_and!; [done|done|lia]| |].
  { intros row [normalized last] Hrow (Hl & Elast & Hall).
    assert ((if row_set nonnull row then aref values (first + row) else Ok last) = Ok (normal row)) as ->.
    { rewrite normal_step by lia. destruct (row_set nonnull row); [by rewrite (aref_ok 0) by lia|by rewrite Elast]. }
    cbn [mbind res_bind]. rewrite aset_ok by lia. eexists; split; [reflexivity|].
    cbn beta iota. rewrite length_insert. split_and!; [done|done|].
    intros row' Hrow'. rewrite zget_insert by lia.
    case_decide as E; [by subst|apply Hall; lia]. }
  cbn [mbind res_bind]. rewrite (aref_ok 0) by lia. cbn [mbind res_bind]. rewrite (Hnorm 0) by lia.
  replace (seqZ 1 (nrows - 1)) with (Z.add 1 <$> seqZ 0 (nrows - 1)) by (rewrite fmap_add_seqZ; done). rewrite foldM_fmap.
  set (f := λ x '(_, _), _).
  destruct (for_inv (λ i '(fits8, fits16),
      (fits8 = true → ∀ row, 1 ≤ row < 1 + i → fits PG_BATCH_COMPRESS_DELTA8 (normal row - normal (row - 1))) ∧
      (fits16 = true → ∀ row, 1 ≤ row < 1 + i → fits PG_BATCH_COMPRESS_DELTA16 (normal row - normal (row - 1))))
    f (nrows - 1) (true, true)) as ([fits8 fits16] & -> & H8 & H16); [lia|split; intros _ row ?; lia| |].
  { unfold f. intros i [fits8 fits16] Hi [H8 H16].
    rewrite !(aref_ok 0) by lia. cbn [mbind res_bind]. rewrite !Hnorm by lia. eexists; split; [reflexivity|].
    assert (Hnew : ∀ row, 1 ≤ row < 1 + (i + 1) → row < 1 + i ∨ row = 1 + i) by lia.
    split; intros E row Hrow; destruct (Hnew row Hrow) as [Hold| ->].
    - apply H8; [|lia]. revert E. by case_match.
    - revert E. case_match; [done|]. bool_prop. intros _. cbn. lia.
    - apply H16; [|lia]. revert E. by case_match.
    - revert E. case_match; [done|]. bool_prop. intros _. cbn. lia. }
  cbn [mbind res_bind].
  exists (if fits8 then PG_BATCH_COMPRESS_DELTA8 else if fits16 then PG_BATCH_COMPRESS_DELTA16 else PG_BATCH_COMPRESS_PLAIN).
  destruct fits8; [|destruct fits16]; (split; [done|]); intros row Hrow.
  - apply H8; [done|lia].
  - apply H16; [done|lia].
  - done.
Qed.

(** The NULLs among the first [row] rows. *)
Definition nulls_before (row : Z) : Z := zlength (filter (λ r, row_set nonnull r = false) (seqZ 0 row)).

Lemma nulls_before_step row :
  0 ≤ row → nulls_before (row + 1) = nulls_before row + (if row_set nonnull row then 0 else 1).
Proof.
  intros Hrow. unfold nulls_before. rewrite seqZ_app by lia. rewrite filter_app, length_app, Z.add_0_l.
  assert (seqZ row 1 = [row]) as -> by (by rewrite seqZ_cons by lia). rewrite filter_cons, filter_nil. destruct (row_set nonnull row); simpl; lia.
Qed.

Lemma nulls_before_le row : 0 ≤ row → 0 ≤ nulls_before row ≤ row.
Proof.
  intros. unfold nulls_before. pose proof (length_filter (λ r, row_set nonnull r = false) (seqZ 0 row)).
  rewrite length_seqZ in *. lia.
Qed.

Lemma nulls_before_zero row :
  nulls_before row = 0 → ∀ r, 0 ≤ r < row → row_set nonnull r = true.
Proof.
  intros Hz r Hr. destruct (row_set nonnull r) eqn:E; [done|].
  assert (Hin : r ∈ filter (λ r, row_set nonnull r = false) (seqZ 0 row)).
  { apply list_elem_of_filter. split; [done|]. apply elem_of_seqZ. lia. }
  unfold nulls_before in Hz. destruct (filter _ _); [by apply elem_of_nil in Hin|simpl in Hz; lia].
Qed.

Lemma write_validity_ok encoding base offset :
  ∃ validity, write_validity (mkCompressedColumn encoding (replicate 8 0) 0 base offset) nonnull nrows =
      Ok (mkCompressedColumn encoding validity (nulls_before nrows) base offset) ∧
    zlength validity = 8 ∧
    ∀ row, 0 ≤ row < 64 → validity_bit validity row = (row <? nrows) && row_set nonnull row.
Proof.
  unfold write_validity.
  destruct (for_inv (λ i stored, ∃ validity,
      stored = mkCompressedColumn encoding validity (nulls_before i) base offset ∧ zlength validity = 8 ∧
      ∀ row, 0 ≤ row < 64 → validity_bit validity row = (row <? i) && row_set nonnull row)
    (λ row stored,
      if row_set nonnull row then
        validity ← arrow_set_valid (cc_validity stored) row;
        Ok (mkCompressedColumn (cc_encoding stored) validity (cc_null_count stored) (cc_base stored) (cc_data_offset stored))
      else
        Ok (mkCompressedColumn (cc_encoding stored) (cc_validity stored) ((cc_null_count stored + 1) mod 2 ^ 16)
              (cc_base stored) (cc_data_offset stored)))
    nrows (mkCompressedColumn encoding (replicate 8 0) 0 base offset)) as (stored & -> & validity & -> & Hl & Hbits); [lia| | |].
  - exists (replicate 8 0). split_and!; [done|done|]. intros row Hrow.
    destruct (Z.ltb_spec row 0); [lia|]. unfold validity_bit, zget.
    rewrite lookup_replicate_2 by zlia. apply Z.bits_0.
  - intros i stored Hi (validity & -> & Hl & Hbits). cbn [cc_validity cc_encoding cc_null_count cc_base cc_data_offset].
    pose proof (nulls_before_step i) as Hstep. pose proof (nulls_before_le i) as Hle.
    assert (Hone : ∀ row, (row <? i + 1) = (row <? i) || (row =? i)).
    { intros row. destruct (Z.ltb_spec row (i + 1)), (Z.ltb_spec row i), (Z.eqb_spec row i); try lia; done. }
    destruct (row_set nonnull i) eqn:E.
    + destruct (set_validity_ok validity i) as (v' & Hv' & Hl' & Hb'); [lia|]. unfold arrow_set_valid, set_validity in *.
      rewrite Hv'. eexists; split; [reflexivity|]. exists v'. rewrite Hstep, Z.add_0_r by lia.
      split_and!; [done|lia|]. intros row Hrow. rewrite Hb', Hbits, Hone by lia.
      destruct (Z.eqb_spec row i) as [->|]; [by rewrite E, !orb_true_r|by rewrite !orb_false_r].
    + eexists; split; [reflexivity|]. exists validity. rewrite Hstep, Z.mod_small by lia. split_and!; [done|done|].
      intros row Hrow. rewrite Hbits, Hone by lia.
      destruct (Z.eqb_spec row i) as [->|]; [by rewrite E, !andb_false_r|by rewrite orb_false_r].
  - by exists validity.
Qed.

(** *** Data *)

(** The column's data lies at [pos] in the memory behind a header. *)
Definition column_in (encoding : PgBatchCompression) (data : list Z) (pos : Z) : Prop :=
  0 ≤ pos ∧ pos + data_size encoding nrows ≤ zlength data ∧
  match encoding with
  | PG_BATCH_COMPRESS_PLAIN =>
      aslice data pos (4 * nrows) = Ok (s32_array_bytes (take (Z.to_nat nrows) (drop (Z.to_nat first) values)))
  | PG_BATCH_COMPRESS_DELTA8 =>
      ∀ row, 1 ≤ row < nrows → aslice data (pos + (row - 1)) 1 = Ok (le_bytes 1 (to_s8 (normal row - normal (row - 1))))
  | PG_BATCH_COMPRESS_DELTA16 =>
      ∀ row, 1 ≤ row < nrows → aslice data (pos + 2 * (row - 1)) 2 = Ok (le_bytes 2 (to_s16 (normal row - normal (row - 1))))
  end.

Lemma column_in_frame encoding data data' pos :
  length data' = length data →
  (∀ i, pos ≤ i < pos + data_size encoding nrows → zget 0 data' i = zget 0 data i) →
  column_in encoding data pos → column_in encoding data' pos.
Proof.
  intros Hl Hsame (Hp & Hfit & Hin). split; [done|]. split; [by rewrite Hl|]. destruct encoding; cbn [data_size] in *.
  - rewrite <- Hin. by apply (aslice_frame 0).
  - intros row Hrow. rewrite <- Hin by done. apply (aslice_frame 0); [done|]. intros i Hi. apply Hsame. lia.
  - intros row Hrow. rewrite <- Hin by done. apply (aslice_frame 0); [done|]. intros i Hi. apply Hsame. lia.
Qed.

Definition with_data (b : CompressedBatch) (data : list Z) : CompressedBatch :=
  mkCompressedBatch (cb_nrows b) (cb_bytes b) (cb_columns b) data.

Lemma store_data_ok b offset bytes :
  let pos := data_position b offset in
  0 ≤ pos → pos + zlength bytes ≤ zlength (cb_data b) →
  ∃ data, store_data b offset bytes = Ok (with_data b data) ∧ length data = length (cb_data b) ∧
    aslice data pos (zlength bytes) = Ok bytes ∧
    ∀ i, 0 ≤ i → ¬ (pos ≤ i < pos + zlength bytes) → zget 0 data i = zget 0 (cb_data b) i.
Proof.
  intros pos Hp Hfit. unfold store_data. fold pos.
  destruct (asplice_ok (cb_data b) pos bytes) as (data & -> & Hl & Hget); [done..|].
  exists data. split; [done|]. split; [done|]. split.
  - apply (aslice_whole 0); [done|by rewrite Hl|]. intros i Hi. rewrite Hget by lia.
    rewrite decide_True by lia. f_equal. lia.
  - intros i Hi Hout. rewrite Hget by lia. by rewrite decide_False.
Qed.

(** The loop that writes deltas of [w] bytes. *)
Lemma write_deltas_ok (w : nat) (enc : Z → Z) b output base :
  (0 < w)%nat → let pos := data_position b output in
  0 ≤ pos → pos + Z.of_nat w * (nrows - 1) ≤ zlength (cb_data b) → base = normal 0 →
  ∃ data last, foldM (λ row '(b, last),
      value ← (if row_set nonnull row then aref values (first + row) else Ok last);
      b ← store_data b (output + Z.of_nat w * (row - 1)) (le_bytes w (enc (value - last)));
      Ok (b, value)) (seqZ 1 (nrows - 1)) (b, base) = Ok (with_data b data, last) ∧
    length data = length (cb_data b) ∧
    (∀ row, 1 ≤ row < nrows →
       aslice data (pos + Z.of_nat w * (row - 1)) (Z.of_nat w) = Ok (le_bytes w (enc (normal row - normal (row - 1))))) ∧
    ∀ i, 0 ≤ i → ¬ (pos ≤ i < pos + Z.of_nat w * (nrows - 1)) → zget 0 data i = zget 0 (cb_data b) i.
Proof.
  intros Hw pos Hp Hfit ->.
  replace (seqZ 1 (nrows - 1)) with (Z.add 1 <$> seqZ 0 (nrows - 1)) by (rewrite fmap_add_seqZ; done). rewrite foldM_fmap.
  match goal with |- context [foldM ?g _ _] => set (f := g) end.
  destruct (for_inv (λ i '(b', last), ∃ data, b' = with_data b data ∧ last = normal i ∧
      length data = length (cb_data b) ∧
      (∀ row, 1 ≤ row < 1 + i →
        aslice data (pos + Z.of_nat w * (row - 1)) (Z.of_nat w) = Ok (le_bytes w (enc (normal row - normal (row - 1))))) ∧
      ∀ j, 0 ≤ j → ¬ (pos ≤ j < pos + Z.of_nat w * i) → zget 0 data j = zget 0 (cb_data b) j)
    f (nrows - 1) (b, normal 0)) as ([b' last] & -> & data & -> & _ & Hl & Hin & Hout); [lia| | |].
  - exists (cb_data b). split_and!; [by destruct b|done|done|intros; lia|done].
  - intros i [b' last] Hi (data & -> & -> & Hl & Hin & Hout). unfold f.
    assert ((if row_set nonnull (1 + i) then aref values (first + (1 + i)) else Ok (normal i)) = Ok (normal (1 + i))) as ->.
    { rewrite (normal_next (1 + i)) by lia. destruct (row_set nonnull (1 + i)); [by rewrite (aref_ok 0) by lia|].
      by replace (1 + i - 1) with i by lia. }
    rewrite bind_Ok. replace (1 + i - 1) with i by lia.
    destruct (store_data_ok (with_data b data) (output + Z.of_nat w * i) (le_bytes w (enc (normal (1 + i) - normal i))))
      as (data' & -> & Hl' & Hnew & Hout');
      assert (Epos : data_position (with_data b data) (output + Z.of_nat w * i) = pos + Z.of_nat w * i)
        by (unfold data_position, pos, data_position; cbn; lia); rewrite ?Epos, ?length_le_bytes in *; cbn [with_data cb_data] in *; [nia|nia|].
    rewrite bind_Ok. eexists; split; [reflexivity|]. exists data'. split_and!; [done|by rewrite Z.add_comm|congruence| |].
    + intros row Hrow. destruct (decide (row = 1 + i)) as [->|].
      * replace (1 + i - 1) with i by lia. done.
      * rewrite <- Hin by lia. apply (aslice_frame 0); [done|]. intros j Hj. apply Hout'; nia.
    + intros j Hj Hnot. rewrite Hout' by nia. apply Hout; nia.
  - exists data, last. split_and!; [done|done| |done]. intros row Hrow. apply Hin. lia.
Qed.

Lemma write_column_ok encoding b column offset :
  let pos := data_position b offset in
  cb_columns b !! Z.to_nat column = Some (mkCompressedColumn encoding (replicate 8 0) 0 (normal 0) offset) →
  0 ≤ column → 0 ≤ pos → pos + data_size encoding nrows ≤ zlength (cb_data b) →
  ∃ validity data, write_column b column values first nonnull nrows =
      Ok (mkCompressedBatch (cb_nrows b) (cb_bytes b)
            (<[Z.to_nat column := mkCompressedColumn encoding validity (nulls_before nrows) (normal 0) offset]> (cb_columns b))
            data) ∧
    zlength validity = 8 ∧ (∀ row, 0 ≤ row < 64 → validity_bit validity row = (row <? nrows) && row_set nonnull row) ∧
    length data = length (cb_data b) ∧ column_in encoding data pos ∧
    ∀ i, 0 ≤ i → ¬ (pos ≤ i < pos + data_size encoding nrows) → zget 0 data i = zget 0 (cb_data b) i.
Proof.
  intros pos Hc Hcol Hp Hfit. assert (Z.to_nat column < length (cb_columns b))%nat by by eapply lookup_lt_Some.
  unfold write_column. rewrite (aref_lookup _ _ _ Hcol Hc), bind_Ok.
  destruct (write_validity_ok encoding (normal 0) offset) as (validity & -> & Hvl & Hbits). rewrite bind_Ok.
  unfold set_column. rewrite aset_ok, !bind_Ok by lia. cbn [cc_encoding cc_data_offset cc_base].
  set (stored := mkCompressedColumn _ _ _ _ _). set (b1 := mkCompressedBatch _ _ (<[_ := stored]> _) _).
  assert (Epos : data_position b1 offset = pos) by (unfold data_position, b1; cbn; by rewrite length_insert).
  cut (∃ data,
    match encoding with
    | PG_BATCH_COMPRESS_PLAIN =>
        bytes ← aslice values first nrows; store_data b1 offset (s32_array_bytes bytes)
    | encoding =>
        '(b, _) ← foldM (λ row '(b, last),
            value ← (if row_set nonnull row then aref values (first + row) else Ok last);
            b ← match encoding with
                | PG_BATCH_COMPRESS_DELTA8 => store_data b (offset + (row - 1)) (le_bytes 1 (to_s8 (value - last)))
                | _ => store_data b (offset + 2 * (row - 1)) (le_bytes 2 (to_s16 (value - last)))
                end;
            Ok (b, value)) (seqZ 1 (nrows - 1)) (b1, normal 0);
        Ok b
    end = Ok (with_data b1 data) ∧ length data = length (cb_data b) ∧ column_in encoding data pos ∧
    ∀ i, 0 ≤ i → ¬ (pos ≤ i < pos + data_size encoding nrows) → zget 0 data i = zget 0 (cb_data b) i).
  { intros (data & E & Hl & Hin & Hout). exists validity, data. split_and!; [|done..]. destruct encoding; (etransitivity; [exact E|done]). }
  unfold column_in. destruct encoding; cbn [data_size] in *.
  - set (new := take (Z.to_nat nrows) (drop (Z.to_nat first) values)).
    assert (Hnew : zlength (s32_array_bytes new) = 4 * nrows).
    { rewrite length_s32_array_bytes. unfold new. rewrite length_take, length_drop. lia. }
    assert (aslice values first nrows = Ok new) as ->.
    { unfold aslice. by destruct (Z.leb_spec 0 first), (Z.leb_spec 0 nrows), (Z.leb_spec (first + nrows) (zlength values)); try lia. }
    rewrite bind_Ok. destruct (store_data_ok b1 offset (s32_array_bytes new)) as (data & -> & Hl & Hs & Hout);
      rewrite ?Epos, ?Hnew in *; [done|done|]. exists data. cbn [b1 cb_data] in *. rewrite Hl. done.
  - destruct (write_deltas_ok 1 to_s8 b1 offset (normal 0)) as (data & last & E & Hl & Hin & Hout);
      rewrite ?Epos in *; [lia|done|cbn [b1 cb_data]; lia|done|].
    exists data. erewrite foldM_ext, E; [cbn [b1 cb_data] in *; rewrite Hl|].
    + split_and!; [done|done|done|lia| |].
      * intros row Hrow. rewrite <- Hin by done. f_equal. lia.
      * intros i Hi Hnot. apply Hout; lia.
    + intros row [b' last'] _. destruct (if row_set _ _ then _ else _); [|done..]. cbn [mbind res_bind].
      by replace (offset + Z.of_nat 1 * (row - 1)) with (offset + (row - 1)) by lia.
  - destruct (write_deltas_ok 2 to_s16 b1 offset (normal 0)) as (data & last & E & Hl & Hin & Hout);
      rewrite ?Epos in *; [lia|done|cbn [b1 cb_data]; lia|done|].
    exists data. erewrite foldM_ext, E; [cbn [b1 cb_data] in *; rewrite Hl|].
    + split_and!; [done|done|done|lia|done|done].
    + intros row [b' last'] _. destruct (if row_set _ _ then _ else _); [|done..]. done.
Qed.

(** *** Reading back *)

Lemma stored_delta_ok b stored row :
  cc_encoding stored ≠ PG_BATCH_COMPRESS_PLAIN →
  column_in (cc_encoding stored) (cb_data b) (data_position b (cc_data_offset stored)) →
  1 ≤ row < nrows → fits (cc_encoding stored) (normal row - normal (row - 1)) →
  stored_delta b stored row = Ok (normal row - normal (row - 1)).
Proof.
  intros Hplain (_ & _ & Hin) Hrow Hfits. unfold stored_delta, load_data.
  replace (data_position b (cc_data_offset stored + (row - 1))) with
    (data_position b (cc_data_offset stored) + (row - 1)) by (unfold data_position; lia).
  replace (data_position b (cc_data_offset stored + 2 * (row - 1))) with
    (data_position b (cc_data_offset stored) + 2 * (row - 1)) by (unfold data_position; lia).
  destruct (cc_encoding stored); [done|rewrite Hin, bind_Ok by done..].
  - by rewrite s8_roundtrip.
  - by rewrite s16_roundtrip.
Qed.

Lemma column_values_ok b stored :
  cb_nrows b = nrows → cc_base stored = normal 0 →
  column_in (cc_encoding stored) (cb_data b) (data_position b (cc_data_offset stored)) →
  (∀ row, 1 ≤ row < nrows → fits (cc_encoding stored) (normal row - normal (row - 1))) →
  ∃ decoded, column_values b stored = Ok decoded ∧ zlength decoded = nrows ∧ Forall is_s32 decoded ∧
    ∀ row, 0 ≤ row < nrows → row_set nonnull row = true → zget 0 decoded row = zget 0 values (first + row).
Proof.
  intros Hnr Hbase Hin Hfits. unfold column_values. rewrite Hnr.
  destruct (decide (cc_encoding stored = PG_BATCH_COMPRESS_PLAIN)) as [Eenc|Hplain].
  - rewrite Eenc in *. destruct Hin as (_ & _ & Hin). unfold load_data. rewrite Hin, bind_Ok.
    set (new := take (Z.to_nat nrows) (drop (Z.to_nat first) values)) in *.
    assert (Hnew : length new = Z.to_nat nrows) by (unfold new; rewrite length_take, length_drop; lia).
    assert (Forall is_s32 new) by by apply Forall_take, Forall_drop.
    exists new. rewrite <- Hnew, s32_array_roundtrip by done. split_and!; [done|lia|done|].
    intros row Hrow _. unfold new, zget. rewrite lookup_take_lt, lookup_drop by lia. do 2 f_equal. lia.
  - destruct (int32_uninit_ok nrows) as [Hul Hu]; [lia|].
    cut (∃ decoded, foldM (λ row decoded,
          delta ← stored_delta b stored row; previous ← aref decoded (row - 1);
          _ ← assert_ (in_s32 (previous + delta)); aset decoded row (previous + delta))
        (seqZ 1 (nrows - 1)) (<[Z.to_nat 0 := normal 0]> (int32_uninit nrows)) = Ok decoded ∧
      zlength decoded = nrows ∧ Forall is_s32 decoded ∧ ∀ row, 0 ≤ row < nrows → zget 0 decoded row = normal row).
    { intros (decoded & E & Hl & Hs & Hget). exists decoded. rewrite aset_ok, bind_Ok, Hbase, E by lia.
      split_and!; [by destruct (cc_encoding stored)|done|done|]. intros row Hrow Hset.
      rewrite Hget, normal_step by lia. by rewrite Hset. }
    replace (seqZ 1 (nrows - 1)) with (Z.add 1 <$> seqZ 0 (nrows - 1)) by (rewrite fmap_add_seqZ; done). rewrite foldM_fmap.
    match goal with |- context [foldM ?g _ _] => set (f := g) end.
    destruct (for_inv (λ i decoded, zlength decoded = nrows ∧ Forall is_s32 decoded ∧
        ∀ row, 0 ≤ row < 1 + i → zget 0 decoded row = normal row) f (nrows - 1)
        (<[Z.to_nat 0 := normal 0]> (int32_uninit nrows))) as (decoded & -> & Hl & Hs & Hget); [lia| | |].
    + rewrite length_insert. split_and!; [done|apply Forall_insert; [done|apply normal_s32; lia]|].
      intros row Hrow. replace row with 0 by lia. apply zget_insert_eq. lia.
    + intros i decoded Hi (Hl & Hs & Hget). unfold f.
      rewrite stored_delta_ok, bind_Ok by (done || lia || apply Hfits; lia). rewrite (aref_ok 0), bind_Ok, Hget by lia.
      replace (1 + i - 1) with i by lia. replace (normal i + (normal (1 + i) - normal i)) with (normal (1 + i)) by lia.
      pose proof (normal_s32 (1 + i)) as Hn32. rewrite (proj2 (in_s32_spec _)) by (apply Hn32; lia).
      cbn [assert_ mbind res_bind]. rewrite aset_ok by lia. eexists; split; [reflexivity|]. rewrite length_insert.
      split_and!; [done|apply Forall_insert; [done|apply Hn32; lia]|]. intros row Hrow. rewrite zget_insert by lia.
      case_decide as E; [by rewrite E|apply Hget; lia].
    + exists decoded. split_and!; [done..|]. intros row Hrow. apply Hget. lia.
Qed.
End column.
