(* ===== verification/CompressedBuild.v ===== *)
(** * Building a snapshot

    What [build_compressed_batch] and [update_group] make of the staging area,
    and what [compress_table] makes of a table. *)

From S2P Require Import Prelude Words Bytes Vector Kernels Int4 Compressed CompressedColumns.

(** ** Rows *)

Definition row_cells : Type := list (option Z).

Definition slot_cells (slot : slot_values) : row_cells :=
  (λ d : Z * bool, if d.2 then None else Some (DatumGetInt32 d.1)) <$> slot.

(** A row's column. *)
Definition cell_at (column : Z) (row : row_cells) : option Z := zget None row column.

(** The values of a column that are not NULL. *)
Definition present (column : Z) (rows : list row_cells) : list Z := omap (cell_at column) rows.

Lemma present_app c l1 l2 : present c (l1 ++ l2) = present c l1 ++ present c l2.
Proof. apply omap_app. Qed.

Section build.
Context `{PgCore}.

(** A column of a batch as a consumer sees it. *)
Definition column_view (b : CompressedBatch) (column : Z) : res PgBatchInt4Vector :=
  stored ← aref (cb_columns b) column;
  decoded ← column_values b stored;
  Ok (PG_BATCH_INT4_PACKED decoded (if cc_null_count stored =? 0 then None else Some (cc_validity stored)) 0).

(** The batch holds these rows. *)
Definition batch_ok (ncolumns : Z) (b : CompressedBatch) (rows : list row_cells) : Prop :=
  1 ≤ zlength rows ≤ 64 ∧ cb_nrows b = zlength rows ∧ zlength (cb_columns b) = ncolumns ∧
  ∀ column, 0 ≤ column < ncolumns → ∃ v, column_view b column = Ok v ∧ col_wf v (zlength rows) ∧
    ∀ row, 0 ≤ row < zlength rows → cell v row = cell_at column (zget [] rows row).

(** ** The staging area *)

(** [rows] are staged. *)
Record staged (ncolumns : Z) (values nonnull_rows : list Z) (rows : list row_cells) : Prop := {
  sd_values : zlength values = ncolumns * 64;
  sd_s32 : Forall is_s32 values;
  sd_rows : zlength nonnull_rows = ncolumns;
  sd_set column row : 0 ≤ column < ncolumns → 0 ≤ row < 64 → row_set (zget 0 nonnull_rows column) row =
    match cell_at column (zget [] rows row) with Some _ => true | None => false end;
  sd_value column row v : 0 ≤ column < ncolumns → 0 ≤ row < zlength rows →
    cell_at column (zget [] rows row) = Some v → zget 0 values (column * 64 + row) = v;
}.

Section batch.
Context (ncolumns : Z) (values nonnull_rows : list Z) (rows : list row_cells).
Context (Hc : 1 ≤ ncolumns ≤ 1600) (Hn : 1 ≤ zlength rows ≤ 64) (Hst : staged ncolumns values nonnull_rows rows).

Abbreviation nrows := (zlength rows).
Abbreviation nonnull c := (zget 0 nonnull_rows c).

(** The chosen encoding of column [c]. *)
Definition chosen_ok (c : Z) (choice : PgBatchCompression * Z * Z) : Prop :=
  choice.1.2 = normal values (c * 64) (nonnull c) 0 ∧ choice.2 = data_size choice.1.1 nrows ∧
  ∀ row, 1 ≤ row < nrows →
    fits choice.1.1 (normal values (c * 64) (nonnull c) row - normal values (c * 64) (nonnull c) (row - 1)).

Definition total_size (chosen : list (PgBatchCompression * Z * Z)) : Z := foldr (λ choice t, MAXALIGN choice.2 + t) 0 chosen.

Lemma total_size_app l1 l2 : total_size (l1 ++ l2) = total_size l1 + total_size l2.
Proof. induction l1 as [|x l1 IH]; simpl in *; unfold total_size in *; simpl; lia. Qed.

Lemma data_size_bounds encoding : 0 ≤ data_size encoding nrows ≤ 256.
Proof. destruct encoding; cbn; lia. Qed.

Lemma choose_encodings_ok bytes :
  0 ≤ bytes < 2 ^ 20 → ∃ chosen, choose_encodings values nonnull_rows ncolumns nrows bytes = Ok (chosen, bytes + total_size chosen) ∧
    zlength chosen = ncolumns ∧ (∀ c, 0 ≤ c < ncolumns → ∃ choice, chosen !! Z.to_nat c = Some choice ∧ chosen_ok c choice) ∧
    0 ≤ total_size chosen ≤ 264 * ncolumns.
Proof.
  intros Hb. unfold choose_encodings.
  match goal with |- context [foldM ?g _ _] => set (f := g) end.
  destruct (for_inv (λ i '(chosen, total), total = bytes + total_size chosen ∧ zlength chosen = i ∧
      (∀ c, 0 ≤ c < i → ∃ choice, chosen !! Z.to_nat c = Some choice ∧ chosen_ok c choice) ∧
      0 ≤ total_size chosen ≤ 264 * i) f ncolumns ([], bytes)) as ([chosen total] & -> & -> & Hl & Hall & Hsz);
    [lia|split_and!; [cbn; lia|done|intros; exfalso; lia|cbn; lia|cbn; lia]| |by exists chosen].
  intros c [chosen total] Hci (-> & Hl & Hall & Hsz). unfold f. destruct Hst.
  rewrite (aref_ok 0), bind_Ok by lia.
  destruct (choose_compression_ok values (c * 64) (nonnull c) nrows) as (encoding & E & Hfits); [lia..|].
  unfold PG_BATCH_SIZE. rewrite E, bind_Ok. pose proof (data_size_bounds encoding) as Hds.
  destruct (MAXALIGN_bounds (data_size encoding nrows)) as [Hal Hal0]; [lia|].
  rewrite add_size_spec, bind_Ok by (unfold is_u64; lia). eexists; split; [reflexivity|].
  cbn beta iota. rewrite total_size_app, length_app. cbn [total_size foldr length snd]. split_and!; [lia|lia| |lia|lia].
  intros c' Hc'. destruct (decide (c' = c)) as [->|].
  - eexists. rewrite lookup_app_r by lia. replace (Z.to_nat c - length chosen)%nat with 0%nat by lia.
    split; [reflexivity|]. split_and!; [done|done|exact Hfits].
  - destruct (Hall c') as (choice & Hch & Hok); [lia|]. exists choice. split; [|done].
    by apply lookup_app_l_Some.
Qed.

(** *** Writing the columns *)

Abbreviation header := (MAXALIGN (batch_header_size ncolumns)).

Lemma header_bounds : 0 ≤ header < 2 ^ 17.
Proof. unfold batch_header_size. destruct (MAXALIGN_bounds (16 + 24 * ncolumns)); lia. Qed.

Section columns.
Context (chosen : list (PgBatchCompression * Z * Z)) (Hcl : zlength chosen = ncolumns).
Context (Hch : ∀ c, 0 ≤ c < ncolumns → ∃ choice, chosen !! Z.to_nat c = Some choice ∧ chosen_ok c choice).

(** The size of the columns before [c]. *)
Definition size_before (c : Z) : Z := total_size (take (Z.to_nat c) chosen).

Lemma size_before_step c choice :
  0 ≤ c → chosen !! Z.to_nat c = Some choice → size_before (c + 1) = size_before c + MAXALIGN choice.2.
Proof.
  intros Hc0 Hl. unfold size_before. replace (Z.to_nat (c + 1)) with (S (Z.to_nat c)) by lia.
  rewrite (take_S_r _ _ _ Hl), total_size_app. unfold total_size. simpl. lia.
Qed.

Lemma choice_size c choice : chosen_ok c choice → choice.2 ≤ MAXALIGN choice.2 ∧ 0 ≤ MAXALIGN choice.2 ≤ 264.
Proof.
  intros (_ & E & _). pose proof (data_size_bounds choice.1.1). rewrite <- E in *.
  destruct (MAXALIGN_bounds choice.2); lia.
Qed.

Lemma total_size_nonneg l : (∀ choice, choice ∈ l → 0 ≤ MAXALIGN choice.2) → 0 ≤ total_size l.
Proof.
  induction l as [|choice l IH]; intros Hall; unfold total_size in *; simpl; [lia|].
  pose proof (Hall choice ltac:(set_solver)). assert (0 ≤ foldr (λ choice t, MAXALIGN choice.2 + t) 0 l); [|lia].
  apply IH. set_solver.
Qed.

Lemma chosen_elem choice : choice ∈ chosen → 0 ≤ MAXALIGN choice.2.
Proof.
  intros (i & Hi)%list_elem_of_lookup. pose proof (lookup_lt_Some _ _ _ Hi).
  destruct (Hch (Z.of_nat i)) as (choice' & Hc' & Hok); [lia|]. rewrite Nat2Z.id in Hc'.
  assert (choice' = choice) as -> by congruence.
  apply choice_size in Hok. lia.
Qed.

Lemma size_before_bounds c : 0 ≤ size_before c ≤ total_size chosen.
Proof.
  unfold size_before. set (n := Z.to_nat c).
  assert (0 ≤ total_size (take n chosen)).
  { apply total_size_nonneg. intros choice Hin. apply chosen_elem. rewrite <- (take_drop n chosen). set_solver. }
  assert (0 ≤ total_size (drop n chosen)).
  { apply total_size_nonneg. intros choice Hin. apply chosen_elem. rewrite <- (take_drop n chosen). set_solver. }
  assert (E : total_size chosen = total_size (take n chosen) + total_size (drop n chosen)); [|lia].
  by rewrite <- total_size_app, take_drop.
Qed.

(** Column [c] has been written. *)
Definition column_written (b : CompressedBatch) (c : Z) : Prop :=
  ∃ choice validity offset, chosen !! Z.to_nat c = Some choice ∧
    cb_columns b !! Z.to_nat c =
      Some (mkCompressedColumn choice.1.1 validity (nulls_before (nonnull c) nrows) choice.1.2 offset) ∧
    zlength validity = 8 ∧ (∀ row, 0 ≤ row < 64 → validity_bit validity row = (row <? nrows) && row_set (nonnull c) row) ∧
    offset - header = size_before c ∧
    column_in values (c * 64) (nonnull c) nrows choice.1.1 (cb_data b) (offset - header).

Lemma column_written_frame b b' c c' :
  0 ≤ c' < c → c < ncolumns → cb_columns b' !! Z.to_nat c' = cb_columns b !! Z.to_nat c' →
  length (cb_data b') = length (cb_data b) →
  (∀ i, 0 ≤ i < size_before c → zget 0 (cb_data b') i = zget 0 (cb_data b) i) →
  column_written b c' → column_written b' c'.
Proof.
  intros Hcc Hlt Hcol Hlen Hsame (choice & validity & offset & Hl & Hc' & Hv & Hbits & Hoff & Hin).
  exists choice, validity, offset. split_and!; [done|congruence|done|done|done|].
  eapply column_in_frame; [done| |done]. destruct (Hch c') as (choice' & Hl' & Hok); [lia|].
  assert (choice' = choice) as -> by congruence.
  pose proof (choice_size _ _ Hok) as [Hsz _]. destruct Hok as (_ & E & _). rewrite <- E. intros i Hi.
  apply Hsame. pose proof (size_before_bounds c'). pose proof (size_before_step c' choice ltac:(lia) Hl).
  assert (size_before (c' + 1) ≤ size_before c); [|lia].
  unfold size_before. replace (Z.to_nat c) with (Z.to_nat (c' + 1) + Z.to_nat (c - (c' + 1)))%nat by lia.
  rewrite <- take_take_drop, total_size_app. cut (0 ≤ total_size (take (Z.to_nat (c - (c' + 1))) (drop (Z.to_nat (c' + 1)) chosen))); [lia|].
  apply total_size_nonneg. intros x Hx. apply chosen_elem.
  rewrite <- (take_drop (Z.to_nat (c' + 1)) chosen). apply elem_of_app. right.
  rewrite <- (take_drop (Z.to_nat (c - (c' + 1))) (drop (Z.to_nat (c' + 1)) chosen)). apply elem_of_app. by left.
Qed.

Lemma write_columns_ok bytes :
  total_size chosen < 2 ^ 20 →
  ∃ b, write_columns chosen values nonnull_rows ncolumns nrows
         (mkCompressedBatch nrows bytes (replicate (Z.to_nat ncolumns) zero_column)
            (replicate (Z.to_nat (total_size chosen)) 0)) header = Ok (b, header + size_before ncolumns) ∧
    cb_nrows b = nrows ∧ cb_bytes b = bytes ∧ zlength (cb_columns b) = ncolumns ∧
    ∀ c, 0 ≤ c < ncolumns → column_written b c.
Proof.
  intros Htot. unfold write_columns. pose proof header_bounds as Hh. pose proof (size_before_bounds ncolumns) as Hnn.
  match goal with |- context [foldM ?g _ (?b, _)] => set (f := g); set (b0 := b) end.
  destruct (for_inv (λ i '(b, header_size), header_size = header + size_before i ∧
      cb_nrows b = nrows ∧ cb_bytes b = bytes ∧ zlength (cb_columns b) = ncolumns ∧
      zlength (cb_data b) = total_size chosen ∧
      (∀ c, i ≤ c < ncolumns → cb_columns b !! Z.to_nat c = Some zero_column) ∧
      ∀ c, 0 ≤ c < i → column_written b c) f ncolumns (b0, header)) as ([b hs] & -> & -> & ? & ? & ? & _ & _ & Hall);
    [lia| | |by exists b].
  { unfold b0. cbn [cb_nrows cb_bytes cb_columns cb_data]. rewrite !length_replicate.
    split_and!; [change (size_before 0) with 0; lia|done|done|lia|lia| |intros; exfalso; lia].
    intros c Hc'. apply lookup_replicate_2. lia. }
  intros c [b hs] Hci (-> & Hnr & Hby & Hlen & Hdata & Hzero & Hall). unfold f.
  destruct (Hch c Hci) as ([[encoding base] size] & Hl & Hok). pose proof (choice_size _ _ Hok) as Hsz.
  pose proof (size_before_step c _ ltac:(lia) Hl) as Hstep. cbn [fst snd] in *.
  pose proof (size_before_bounds c) as Hbc. pose proof (size_before_bounds (c + 1)) as Hbc1.
  destruct Hok as (Hbase & Hsize & Hfits). cbn [fst snd] in *.
  rewrite (aref_lookup _ _ (encoding, base, size)), bind_Ok by (done || lia). cbn beta iota.
  rewrite (aref_lookup _ _ zero_column), bind_Ok by (try apply Hzero; lia).
  unfold set_column. rewrite aset_ok, !bind_Ok by lia.
  destruct Hst. rewrite (aref_ok 0), bind_Ok by lia.
  set (stored := set_layout _ _ _ _). set (b1 := mkCompressedBatch _ _ (<[_ := stored]> _) _).
  assert (Hoff : to_u32 (header + size_before c) = header + size_before c) by (unfold to_u32; apply Z.mod_small; lia).
  assert (Hpos : data_position b1 (to_u32 (header + size_before c)) = size_before c).
  { rewrite Hoff. unfold data_position, b1. cbn [cb_columns]. rewrite length_insert, Hlen. lia. }
  destruct (write_column_ok values (c * 64) (nonnull c) nrows) with (encoding := encoding) (b := b1) (column := c)
    (offset := to_u32 (header + size_before c)) as (validity & data & E & Hvl & Hbits & Hdl & Hin & Hout);
    rewrite ?Hpos in *; [lia..| |lia|lia|cbn [b1 cb_data]; lia|].
  { unfold b1. cbn [cb_columns]. rewrite list_lookup_insert_eq by lia. unfold stored, set_layout. by rewrite Hbase. }
  unfold PG_BATCH_SIZE. rewrite E, bind_Ok. eexists; split; [reflexivity|]. cbn beta iota.
  cbn [b1 cb_nrows cb_bytes cb_columns cb_data] in *. rewrite !length_insert, list_insert_insert_eq.
  split_and!; [lia|done|done|done|lia| |].
  - intros c' Hc'. rewrite list_lookup_insert_ne by lia. apply Hzero. lia.
  - intros c' Hc'. destruct (decide (c' = c)) as [->|Hne].
    + exists (encoding, base, size), validity, (to_u32 (header + size_before c)). cbn [cb_columns fst snd cb_data].
      rewrite list_lookup_insert_eq, <- Hbase, Hoff by lia.
      split_and!; [done|done|done|done|lia|]. by replace (header + size_before c - header) with (size_before c) by lia.
    + apply (column_written_frame b _ c); [lia|lia|cbn [cb_columns]; by rewrite list_lookup_insert_ne by lia|done| |apply Hall; lia].
      intros i Hi. cbn [cb_data]. apply Hout; lia.
Qed.
End columns.

Lemma build_compressed_batch_ok :
  ∃ b, build_compressed_batch values nonnull_rows ncolumns nrows = Ok b ∧ batch_ok ncolumns b rows.
Proof.
  pose proof header_bounds as Hh. unfold build_compressed_batch.
  rewrite !check_alloc_ok, !bind_Ok by (unfold MaxAllocSize; lia).
  destruct (choose_encodings_ok header) as (chosen & -> & Hcl & Hch & Htot); [lia|]. rewrite bind_Ok. cbn beta iota.
  rewrite check_alloc_ok, bind_Ok by (unfold MaxAllocSize; lia).
  replace (header + total_size chosen - header) with (total_size chosen) by lia.
  destruct (write_columns_ok chosen Hcl Hch (header + total_size chosen)) as (b & -> & Hnr & _ & Hlen & Hall); [lia|].
  rewrite bind_Ok. exists b. split; [done|]. split; [done|]. split; [done|]. split; [done|].
  intros c Hcc. destruct (Hall c Hcc) as (choice & validity & offset & Hl & Hcol & Hvl & Hbits & Hoff & Hin).
  destruct (Hch c Hcc) as (choice' & Hl' & Hbase & _ & Hfits).
  assert (choice' = choice) as -> by congruence.
  unfold column_view. rewrite (aref_lookup _ _ _ (proj1 Hcc) Hcol), bind_Ok. destruct Hst.
  destruct (column_values_ok values (c * 64) (nonnull c) nrows) with (b := b)
    (stored := mkCompressedColumn choice.1.1 validity (nulls_before (nonnull c) nrows) choice.1.2 offset)
    as (decoded & -> & Hdl & Hds & Hget); cbn [cc_base cc_encoding cc_data_offset cc_null_count cc_validity];
    [lia..|done|done|done|unfold data_position; by rewrite Hlen|done|].
  rewrite bind_Ok. eexists; split; [reflexivity|]. split.
  - cbn. split_and!; [lia|lia|done|]. destruct (_ =? 0); [done|]. split; lia.
  - intros row Hrow. specialize (sd_set0 c row ltac:(lia) ltac:(lia)).
    assert (Hnull : cell_null (PG_BATCH_INT4_PACKED decoded
      (if nulls_before (nonnull c) nrows =? 0 then None else Some validity) 0) row = negb (row_set (nonnull c) row)).
    { cbn. destruct (Z.eqb_spec (nulls_before (nonnull c) nrows) 0) as [Ez|].
      - by rewrite (nulls_before_zero values _ _ Ez row Hrow).
      - rewrite Z.add_0_l, Hbits by lia. by destruct (Z.ltb_spec row nrows); [|lia]. }
    unfold cell. rewrite Hnull. cbn [stored_value]. rewrite Z.add_0_l.
    destruct (cell_at c (zget [] rows row)) as [v|] eqn:Ecell; rewrite sd_set0; [|done]. cbn [negb].
    rewrite Hget by done. f_equal. by apply sd_value0.
Qed.
End batch.
End build.
