(* ===== verification/CompressedTable.v ===== *)
(** * Storage groups and snapshots of whole tables

    What [update_group] records of the values it sees, the invariant of a
    snapshot being built, and the theorem that [compress_table] stores the
    table. *)

From S2P Require Import Prelude Words Bytes Vector Kernels Int4 Compressed CompressedColumns CompressedBuild.

(** ** Summaries

    [meta] summarises the values [vals]: whether there are any, their range,
    and, until there are too many, exactly which they are. *)
Record summarises (meta : GroupColumn) (vals : list Z) : Prop := {
  sm_nonnull : gc_has_nonnull meta = match vals with [] => false | _ => true end;
  sm_range : Forall (λ v, gc_minimum meta ≤ v ≤ gc_maximum meta) vals;
  sm_tight : vals ≠ [] → gc_minimum meta ∈ vals ∧ gc_maximum meta ∈ vals;
  sm_len : zlength (gc_distinct meta) = 16;
  sm_count : 0 ≤ gc_ndistinct meta ≤ 16;
  sm_known i : 0 ≤ i < gc_ndistinct meta → zget 0 (gc_distinct meta) i ∈ vals;
  sm_exact : gc_distinct_overflow meta = false →
    ∀ v, v ∈ vals → ∃ i, 0 ≤ i < gc_ndistinct meta ∧ zget 0 (gc_distinct meta) i = v;
}.

Section groups.
Context `{PgCore}.

Lemma summary_empty : summarises zero_group_column [].
Proof.
  constructor; cbn [gc_has_nonnull gc_distinct_overflow gc_ndistinct gc_distinct gc_minimum gc_maximum zero_group_column];
    [done|constructor|done|done|lia|lia|]. intros _ v Hv. set_solver.
Qed.

Lemma distinct_search distinct n v :
  0 ≤ n ≤ zlength distinct →
  ∃ b, search (λ i, d ← aref distinct i; Ok (d =? v)) (Z.to_nat n) 0 = Ok b ∧
    (b = true ↔ ∃ i, 0 ≤ i < n ∧ zget 0 distinct i = v).
Proof.
  intros Hn. rewrite (search_ok _ (λ i, zget 0 distinct i =? v)).
  - eexists; split; [done|]. rewrite existsb_exists, Z2Nat.id by lia. split.
    + intros (i & Hi%list_elem_of_In%elem_of_seqZ & E). bool_prop. exists i. split; [lia|done].
    + intros (i & Hi & E). exists i. split; [apply list_elem_of_In, elem_of_seqZ; lia|by apply Z.eqb_eq].
  - intros j Hj. by rewrite (aref_ok 0) by lia.
Qed.

Lemma update_group_value_ok meta vals v :
  summarises meta vals → ∃ meta', update_group_value meta v = Ok meta' ∧ summarises meta' (vals ++ [v]).
Proof.
  intros []. unfold update_group_value.
  set (m := if negb (gc_has_nonnull meta) then _ else _).
  assert (Hm : gc_has_nonnull m = true ∧ gc_distinct_overflow m = gc_distinct_overflow meta ∧
    gc_ndistinct m = gc_ndistinct meta ∧ gc_distinct m = gc_distinct meta ∧
    Forall (λ x, gc_minimum m ≤ x ≤ gc_maximum m) (vals ++ [v]) ∧
    gc_minimum m ∈ vals ++ [v] ∧ gc_maximum m ∈ vals ++ [v]).
  { unfold m. rewrite sm_nonnull0. destruct vals as [|x vals]; cbn [negb gc_has_nonnull gc_distinct_overflow gc_ndistinct gc_distinct gc_minimum gc_maximum].
    - split_and!; [done..|by apply Forall_singleton|set_solver|set_solver].
    - destruct sm_tight0 as [Hmin Hmax]; [done|]. split_and!; [done..| | |].
      + apply Forall_app. split; [|apply Forall_singleton; lia]. eapply Forall_impl; [exact sm_range0|]. cbn. lia.
      + destruct (Z.min_spec (gc_minimum meta) v) as [[_ ->]|[_ ->]]; [apply elem_of_app; by left|set_solver].
      + destruct (Z.max_spec (gc_maximum meta) v) as [[_ ->]|[_ ->]]; [set_solver|apply elem_of_app; by left]. }
  destruct Hm as (Hnn & Eov & En & Ed & Hrange & Hmin & Hmax).
  assert (Hsome : true = match vals ++ [v] with [] => false | _ => true end) by by destruct vals.
  assert (Hknown : ∀ i, 0 ≤ i < gc_ndistinct m → zget 0 (gc_distinct m) i ∈ vals ++ [v]).
  { rewrite En, Ed. intros i Hi. apply elem_of_app. left. by apply sm_known0. }
  destruct (gc_distinct_overflow m) eqn:Eom.
  { exists m. split; [done|]. constructor; rewrite ?Hnn, ?Ed, ?En; [done|done|done|done|done|by rewrite En, Ed in Hknown|congruence]. }
  unfold distinct_known. destruct (distinct_search (gc_distinct m) (gc_ndistinct m) v) as (known & -> & Hk);
    [rewrite En, Ed; lia|]. rewrite bind_Ok. rewrite <- Eov in sm_exact0. specialize (sm_exact0 eq_refl).
  destruct known; cbn [negb andb].
  - exists m. split; [done|]. constructor; rewrite ?Hnn, ?Eom, ?Ed, ?En; [done|done|done|done|done|by rewrite En, Ed in Hknown|].
    intros _ x [Hx|Hx]%elem_of_app; [by apply sm_exact0|]. apply list_elem_of_singleton in Hx as ->.
    rewrite En, Ed in Hk. by apply Hk.
  - unfold PG_BATCH_DISTINCT_VALUES. destruct (Z.ltb_spec (gc_ndistinct m) 16).
    + rewrite aset_ok, bind_Ok by (rewrite Ed; lia). eexists; split; [reflexivity|].
      rewrite Ed, En in *. rewrite Z.mod_small by lia.
      constructor; cbn [gc_has_nonnull gc_distinct_overflow gc_ndistinct gc_distinct gc_minimum gc_maximum];
        [congruence|done|done|by rewrite length_insert|lia| |].
      * intros i Hi. rewrite zget_insert by lia. case_decide; [set_solver|apply Hknown; lia].
      * intros _ x [Hx|Hx]%elem_of_app.
        -- destruct (sm_exact0 x Hx) as (i & Hi & <-). exists i. split; [lia|]. by rewrite zget_insert_ne by lia.
        -- apply list_elem_of_singleton in Hx as ->. exists (gc_ndistinct meta). split; [lia|]. apply zget_insert_eq. lia.
    + eexists; split; [reflexivity|]. rewrite Ed, En in *.
      constructor; cbn [gc_has_nonnull gc_distinct_overflow gc_ndistinct gc_distinct gc_minimum gc_maximum];
        [congruence|done|done|done|done|done|done].
Qed.

Section update.
Context (ncolumns : Z) (values nonnull_rows : list Z) (rows : list row_cells).
Context (Hc : 1 ≤ ncolumns ≤ 1600) (Hn : 1 ≤ zlength rows ≤ 64) (Hst : staged ncolumns values nonnull_rows rows).

Lemma update_group_column_ok c meta vals :
  0 ≤ c < ncolumns → summarises meta vals →
  ∃ meta', update_group_column meta values (c * 64) (zget 0 nonnull_rows c) (zlength rows) = Ok meta' ∧
    summarises meta' (vals ++ present c rows).
Proof.
  intros Hcc Hs. destruct Hst as [Hvl _ Hrl Hset Hval]. unfold update_group_column.
  match goal with |- context [foldM ?g _ _] => set (f := g) end.
  destruct (for_inv (λ i meta, summarises meta (vals ++ present c (take (Z.to_nat i) rows))) f (zlength rows) meta)
    as (meta' & -> & Hs'); [lia|by rewrite take_0, app_nil_r| |].
  - intros i m Hi Hm. unfold f. rewrite Hset by lia.
    destruct (lookup_lt_is_Some_2 rows (Z.to_nat i)) as [row Hrow]; [lia|].
    assert (Hrw : zget [] rows i = row) by exact (f_equal (default []) Hrow).
    replace (Z.to_nat (i + 1)) with (S (Z.to_nat i)) by lia. rewrite (take_S_r _ _ _ Hrow), present_app, app_assoc.
    specialize (Hval c i). rewrite Hrw in *. destruct (cell_at c row) as [v|] eqn:Ecell.
    + cbn [negb]. rewrite (aref_ok 0), bind_Ok, (Hval v) by (done || lia).
      destruct (update_group_value_ok _ _ v Hm) as (m' & -> & Hm'). exists m'. split; [done|].
      replace (present c [row]) with [v]; [done|]. unfold present. cbn. by rewrite Ecell.
    + exists m. split; [done|]. replace (present c [row]) with (@nil Z); [by rewrite app_nil_r|].
      unfold present. cbn. by rewrite Ecell.
  - exists meta'. split; [done|]. by rewrite take_ge in Hs' by lia.
Qed.

(** The group summarises every column of [rows]. *)
Definition group_summary (n : Z) (group : StorageGroup) (rows : list row_cells) : Prop :=
  zlength (sg_columns group) = n ∧
  ∀ c, 0 ≤ c < n → ∃ meta, sg_columns group !! Z.to_nat c = Some meta ∧ summarises meta (present c rows).

Lemma update_group_ok group before :
  group_summary ncolumns group before →
  ∃ columns, update_group group values nonnull_rows ncolumns (zlength rows) =
      Ok (mkStorageGroup (sg_first_batch group) (sg_nbatches group + 1) columns) ∧
    ∀ first n, group_summary ncolumns (mkStorageGroup first n columns) (before ++ rows).
Proof.
  intros [Hlen Hall]. unfold update_group.
  match goal with |- context [foldM ?g _ _] => set (f := g) end.
  destruct (for_inv (λ i columns, zlength columns = ncolumns ∧
      ∀ c, 0 ≤ c < ncolumns → ∃ meta, columns !! Z.to_nat c = Some meta ∧
        summarises meta (present c (if c <? i then before ++ rows else before))) f ncolumns (sg_columns group))
    as (columns & -> & Hl & Hcols); [lia| | |].
  - split; [done|]. intros c Hcc. destruct (Z.ltb_spec c 0); [lia|]. by apply Hall.
  - intros i columns Hi [Hl Hcols]. unfold f. destruct (Hcols i Hi) as (meta & Hm & Hs).
    destruct (Z.ltb_spec i i); [lia|]. rewrite (aref_lookup _ _ _ (proj1 Hi) Hm), bind_Ok. pose proof (sd_rows _ _ _ _ Hst).
    rewrite (aref_ok 0), bind_Ok by lia. destruct (update_group_column_ok i meta _ Hi Hs) as (meta' & E & Hs').
    unfold PG_BATCH_SIZE. rewrite E, bind_Ok, aset_ok by lia. eexists; split; [reflexivity|].
    split; [by rewrite length_insert|]. intros c Hcc. destruct (decide (c = i)) as [->|].
    + exists meta'. rewrite list_lookup_insert_eq by lia. split; [done|].
      destruct (Z.ltb_spec i (i + 1)); [|lia]. by rewrite present_app.
    + rewrite list_lookup_insert_ne by lia. destruct (Hcols c Hcc) as (meta'' & Hm' & Hs'').
      exists meta''. split; [done|]. by destruct (Z.ltb_spec c (i + 1)), (Z.ltb_spec c i); try lia.
  - rewrite bind_Ok. exists columns. split; [done|]. intros first n. split; [done|]. intros c Hcc.
    destruct (Hcols c Hcc) as (meta & Hm & Hs). exists meta. split; [done|].
    by destruct (Z.ltb_spec c ncolumns); [|lia].
Qed.
End update.

(** ** A snapshot being built *)

(** The batches of storage group [j]. *)
Definition group_part {A} (gb j : Z) (chunks : list A) : list A := take (Z.to_nat gb) (drop (Z.to_nat (j * gb)) chunks).

Definition group_count (gb nb : Z) : Z := nb / gb + (if nb mod gb =? 0 then 0 else 1).

Lemma group_count_step gb nb : 0 < gb → 0 ≤ nb → group_count gb (nb + 1) = nb / gb + 1.
Proof.
  intros Hg Hnb. unfold group_count. pose proof (Z.div_mod nb gb) as E. pose proof (Z.mod_pos_bound nb gb).
  destruct (Z.eqb_spec (nb mod gb + 1) gb) as [Ew|Ew].
  - assert ((nb + 1) / gb = nb / gb + 1) as -> by (symmetry; apply Z.div_unique with 0; lia).
    assert ((nb + 1) mod gb = 0) as -> by (symmetry; apply Z.mod_unique with (nb / gb + 1); lia). simpl. lia.
  - assert ((nb + 1) / gb = nb / gb) as -> by (symmetry; apply Z.div_unique with (nb mod gb + 1); lia).
    assert ((nb + 1) mod gb = nb mod gb + 1) as -> by (symmetry; apply Z.mod_unique with (nb / gb); lia).
    destruct (Z.eqb_spec (nb mod gb + 1) 0); lia.
Qed.

Lemma group_part_snoc {A} gb j (chunks : list A) x :
  0 < gb → 0 ≤ j → group_part gb j (chunks ++ [x]) =
    group_part gb j chunks ++ (if bool_decide (j * gb ≤ zlength chunks < (j + 1) * gb) then [x] else []).
Proof.
  intros Hg Hj. unfold group_part. rewrite drop_app, take_app, length_drop. f_equal. case_bool_decide as E.
  - assert (Z.to_nat (j * gb) - length chunks = 0)%nat as -> by lia. cbn [drop].
    rewrite take_ge by (simpl; lia). done.
  - destruct (decide (j * gb ≤ zlength chunks)).
    + assert (Z.to_nat gb - (length chunks - Z.to_nat (j * gb)) = 0)%nat as -> by lia. apply take_0.
    + rewrite drop_ge by (simpl; lia). apply take_nil.
Qed.

Definition power_of_two (n : Z) : Prop := ∃ k, 0 ≤ k ∧ n = 2 ^ k.

(** At most this many batches fit the arrays the allocator grants. *)
Definition max_batches : Z := 2 ^ 26.

Lemma grow_array_ok n capacity :
  power_of_two capacity → n ≤ capacity → n < max_batches →
  ∃ capacity', grow_array n capacity = Ok capacity' ∧ power_of_two capacity' ∧ n < capacity'.
Proof.
  intros (k & Hk & ->) Hle Hmax. unfold grow_array, max_batches in *. destruct (Z.eqb_spec n (2 ^ k)) as [E|].
  - assert (k < 26) by (apply (Z.pow_lt_mono_r_iff 2); lia).
    assert (2 ^ (k + 1) ≤ 2 ^ 26) by (apply Z.pow_le_mono_r; lia). rewrite Z.pow_add_r in * by lia.
    rewrite (proj2 (in_s32_spec _)) by (unfold is_s32; lia). cbn [assert_ mbind res_bind].
    rewrite check_alloc_ok, bind_Ok by (unfold MaxAllocSize; lia). eexists; split; [reflexivity|].
    split; [exists (k + 1); rewrite Z.pow_add_r by lia; split; lia|lia].
  - exists (2 ^ k). split; [done|]. split; [by exists k|lia].
Qed.

(** Group [j] of [nb] batches. *)
Definition group_ok (natts gb : Z) (chunks : list (list row_cells)) (j : Z) (group : StorageGroup) : Prop :=
  sg_first_batch group = j * gb ∧ sg_nbatches group = Z.min gb (zlength chunks - j * gb) ∧
  group_summary natts group (concat (group_part gb j chunks)).

Record snapshot_ok (natts gb : Z) (cr : CompressedRelation) (chunks : list (list row_cells)) : Prop := {
  so_columns : cr_ncolumns cr = natts;
  so_group_batches : cr_group_batches cr = gb;
  so_refcount : cr_refcount cr = 0;
  so_batches : Forall2 (batch_ok natts) (cr_batches cr) chunks;
  so_batch_capacity : power_of_two (cr_batch_capacity cr) ∧ cr_nbatches cr ≤ cr_batch_capacity cr;
  so_group_capacity : power_of_two (cr_group_capacity cr) ∧ cr_ngroups cr ≤ cr_group_capacity cr;
  so_ngroups : cr_ngroups cr = group_count gb (zlength chunks);
  so_groups j group : cr_groups cr !! Z.to_nat j = Some group → 0 ≤ j → group_ok natts gb chunks j group;
}.

Section append.
Context (natts gb : Z) (Hnatts : 1 ≤ natts ≤ 1600) (Hgb : 1 ≤ gb).

Lemma needs_group_ok cr chunks :
  snapshot_ok natts gb cr chunks → needs_group cr = Ok (zlength chunks mod gb =? 0).
Proof.
  intros []. unfold needs_group. pose proof (Z.div_mod (zlength chunks) gb). pose proof (Z.mod_pos_bound (zlength chunks) gb).
  pose proof (Z.div_pos (zlength chunks) gb). unfold group_count in *.
  destruct (Z.eqb_spec (cr_ngroups cr) 0) as [E0|E0].
  { rewrite so_ngroups0 in E0. f_equal. by destruct (Z.eqb_spec (zlength chunks mod gb) 0); [|lia]. }
  destruct (lookup_lt_is_Some_2 (cr_groups cr) (Z.to_nat (cr_ngroups cr - 1))) as [group Hg]; [unfold cr_ngroups in *; lia|].
  assert (0 ≤ cr_ngroups cr - 1) by (unfold cr_ngroups in *; lia).
  rewrite (aref_lookup _ _ _ ltac:(done) Hg), bind_Ok. f_equal. rewrite so_group_batches0.
  destruct (so_groups0 _ _ Hg) as (_ & -> & _); [done|]. rewrite so_ngroups0.
  destruct (Z.eqb_spec (zlength chunks mod gb) 0) as [Em|Em].
  - apply Z.eqb_eq. nia.
  - apply Z.eqb_neq. nia.
Qed.

(** The relation when the batch's group exists. *)
Definition group_open (cr : CompressedRelation) (chunks : list (list row_cells)) : Prop :=
  cr_ngroups cr = zlength chunks / gb + 1 ∧ power_of_two (cr_group_capacity cr) ∧ cr_ngroups cr ≤ cr_group_capacity cr ∧
  ∀ j group, cr_groups cr !! Z.to_nat j = Some group → 0 ≤ j → group_ok natts gb chunks j group.

Lemma append_group_ok cr chunks :
  snapshot_ok natts gb cr chunks → zlength chunks mod gb = 0 → zlength chunks < max_batches →
  ∃ cr', append_group cr = Ok cr' ∧ group_open cr' chunks ∧ cr_relid cr' = cr_relid cr ∧
    cr_ncolumns cr' = cr_ncolumns cr ∧ cr_batch_capacity cr' = cr_batch_capacity cr ∧
    cr_group_batches cr' = cr_group_batches cr ∧ cr_refcount cr' = cr_refcount cr ∧ cr_batches cr' = cr_batches cr.
Proof.
  intros [] Hmod Hmax. destruct so_group_capacity0 as [Hpow Hcap]. unfold append_group.
  unfold group_count in so_ngroups0. rewrite Hmod, Z.add_0_r in so_ngroups0.
  assert (Hdiv : zlength chunks = gb * (zlength chunks / gb)) by (pose proof (Z.div_mod (zlength chunks) gb); lia).
  assert (0 ≤ zlength chunks / gb) by (apply Z.div_pos; lia).
  destruct (grow_array_ok (cr_ngroups cr) (cr_group_capacity cr)) as (capacity & -> & Hpow' & Hlt); [done|done|nia|].
  rewrite bind_Ok, so_columns0. rewrite check_alloc_ok, bind_Ok by (unfold MaxAllocSize, group_size; lia).
  destruct (Z.ltb_spec (cr_ngroups cr) capacity); [|lia]. cbn [assert_ mbind res_bind].
  assert (Hng : zlength (cr_groups cr) = zlength chunks / gb) by done.
  eexists; split; [reflexivity|]. split_and!; [|done..]. unfold group_open, cr_ngroups. cbn [cr_groups cr_group_capacity].
  rewrite length_app. cbn [length]. split_and!; [lia|done|lia|].
  intros j group Hj Hj0. destruct (decide (j < zlength (cr_groups cr))).
  - rewrite lookup_app_l in Hj by lia. by apply so_groups0.
  - rewrite lookup_app_r in Hj by lia. pose proof (lookup_lt_Some _ _ _ Hj). cbn in *.
    assert (j = zlength chunks / gb) as -> by lia.
    replace (Z.to_nat (zlength chunks / gb) - length (cr_groups cr))%nat with 0%nat in Hj by lia. injection Hj as <-.
    split_and!; cbn [sg_first_batch sg_nbatches].
    + unfold cr_nbatches. rewrite (Forall2_length _ _ _ so_batches0). lia.
    + lia.
    + assert (group_part gb (zlength chunks / gb) chunks = []) as ->.
      { unfold group_part. rewrite drop_ge by lia. apply take_nil. }
      split; cbn [sg_columns]; [rewrite length_replicate; lia|]. intros c Hc. exists zero_group_column.
      rewrite lookup_replicate_2 by lia. split; [done|apply summary_empty].
Qed.

Lemma append_compressed_batch_ok cr chunks values nonnull_rows rows :
  snapshot_ok natts gb cr chunks → staged natts values nonnull_rows rows → 1 ≤ zlength rows ≤ 64 →
  zlength chunks < max_batches →
  ∃ cr', append_compressed_batch cr values nonnull_rows (zlength rows) = Ok cr' ∧
    snapshot_ok natts gb cr' (chunks ++ [rows]) ∧ cr_relid cr' = cr_relid cr.
Proof.
  intros Hs Hst Hrows Hmax. pose proof Hs as []. destruct so_batch_capacity0 as [Hpow Hcap].
  assert (Hnb : cr_nbatches cr = zlength chunks) by (unfold cr_nbatches; by rewrite (Forall2_length _ _ _ so_batches0)).
  unfold append_compressed_batch.
  destruct (grow_array_ok (cr_nbatches cr) (cr_batch_capacity cr)) as (capacity & -> & Hpow' & Hlt); [done|done|lia|].
  rewrite bind_Ok. set (cr0 := set_batch_capacity cr capacity).
  assert (Hs0 : snapshot_ok natts gb cr0 chunks) by (constructor; try done; split; [done|]; cbn; unfold cr_nbatches in *; cbn; lia).
  change (cr_ncolumns cr0) with (cr_ncolumns cr). rewrite so_columns0.
  destruct (build_compressed_batch_ok natts values nonnull_rows rows) as (b & -> & Hb); [done..|].
  rewrite bind_Ok, (needs_group_ok _ _ Hs0), bind_Ok.
  assert (∃ cr1, (if zlength chunks mod gb =? 0 then append_group cr0 else Ok cr0) = Ok cr1 ∧ group_open cr1 chunks ∧
    cr_relid cr1 = cr_relid cr ∧ cr_ncolumns cr1 = natts ∧ cr_batch_capacity cr1 = capacity ∧
    cr_group_batches cr1 = gb ∧ cr_refcount cr1 = 0 ∧ cr_batches cr1 = cr_batches cr)
    as (cr1 & -> & (Hng & Hgpow & Hgcap & Hgroups) & Hrel & Hnc & Hbcap & Hgbs & Href & Hbs).
  { destruct (Z.eqb_spec (zlength chunks mod gb) 0) as [Em|Em].
    - destruct (append_group_ok _ _ Hs0 Em Hmax) as (cr1 & E & Ho & Hr1 & Hn1 & Hc1 & Hg1 & Hf1 & Hb1).
      exists cr1. split_and!; [done|done|done|by rewrite Hn1|done|by rewrite Hg1|by rewrite Hf1|done].
    - exists cr0. split_and!; try done. unfold group_open. change (cr_ngroups cr0) with (cr_ngroups cr).
      rewrite so_ngroups0. unfold group_count. destruct (Z.eqb_spec (zlength chunks mod gb) 0); [done|].
      destruct so_group_capacity0 as [? Hle]. rewrite so_ngroups0 in Hle. unfold group_count in Hle.
      destruct (Z.eqb_spec (zlength chunks mod gb) 0); [done|]. by split_and!. }
  rewrite bind_Ok. unfold push_batch, cr_nbatches. rewrite Hbcap, Hbs. change (zlength (cr_batches cr)) with (cr_nbatches cr).
  destruct (Z.ltb_spec (cr_nbatches cr) capacity); [|lia]. cbn [assert_ mbind res_bind].
  set (cr2 := mkCompressedRelation _ _ _ _ _ _ _ _ _).
  change (cr_groups cr2) with (cr_groups cr1). change (cr_ngroups cr2) with (cr_ngroups cr1).
  change (cr_ncolumns cr2) with (cr_ncolumns cr1). rewrite Hnc.
  assert (Hq : 0 ≤ zlength chunks / gb) by (apply Z.div_pos; lia).
  pose proof (Z.div_mod (zlength chunks) gb ltac:(lia)) as Hdm. pose proof (Z.mod_pos_bound (zlength chunks) gb ltac:(lia)) as Hmb.
  replace (cr_ngroups cr1 - 1) with (zlength chunks / gb) by lia.
  destruct (lookup_lt_is_Some_2 (cr_groups cr1) (Z.to_nat (zlength chunks / gb))) as [group Hg]; [unfold cr_ngroups in *; lia|].
  rewrite (aref_lookup _ _ _ Hq Hg), bind_Ok. destruct (Hgroups _ _ Hg Hq) as (Hfirst & Hgnb & Hsum).
  destruct (update_group_ok natts values nonnull_rows rows) with (group := group)
    (before := concat (group_part gb (zlength chunks / gb) chunks)) as (columns & -> & Hsum'); [done..|].
  rewrite bind_Ok, aset_ok, bind_Ok by (unfold cr_ngroups in *; lia). eexists; split; [reflexivity|]. split; [|done].
  constructor; cbn [set_groups cr_ncolumns cr_group_batches cr_refcount cr_batches cr_batch_capacity cr_group_capacity cr_groups cr2].
  - done.
  - done.
  - done.
  - apply Forall2_app; [done|]. by constructor.
  - unfold cr_nbatches. cbn. rewrite length_app. unfold cr_nbatches in *. cbn. split; [done|lia].
  - unfold cr_ngroups in *. cbn. rewrite length_insert. by split.
  - unfold cr_ngroups in *. cbn. rewrite length_insert, length_app. cbn [length].
    rewrite Nat2Z.inj_add, group_count_step by lia. lia.
  - intros j g Hj Hj0. assert (Hlj : j ≤ zlength chunks / gb).
    { apply lookup_lt_Some in Hj. rewrite length_insert in Hj. unfold cr_ngroups in *. lia. }
    assert (Hlen1 : zlength (chunks ++ [rows]) = zlength chunks + 1) by (rewrite length_app; simpl; lia).
    unfold group_ok. rewrite group_part_snoc, concat_app, Hlen1 by lia. destruct (decide (j = zlength chunks / gb)) as [->|Hne].
    + rewrite list_lookup_insert_eq in Hj by (unfold cr_ngroups in *; lia). injection Hj as <-.
      cbn [sg_first_batch sg_nbatches]. rewrite bool_decide_eq_true_2 by nia. cbn [concat]. rewrite app_nil_r.
      split_and!; [done|rewrite Hgnb; nia|apply Hsum'].
    + rewrite list_lookup_insert_ne in Hj by lia. destruct (Hgroups _ _ Hj Hj0) as (Hf & Hn & Hsm).
      rewrite bool_decide_eq_false_2 by nia. rewrite app_nil_r. split_and!; [done|rewrite Hn; nia|done].
Qed.
End append.

(** ** Staging rows *)

Lemma cell_at_slot c (slot : slot_values) d isnull :
  slot !! Z.to_nat c = Some (d, isnull) →
  cell_at c (slot_cells slot) = if (isnull : bool) then None else Some (DatumGetInt32 d).
Proof.
  intros Hs. unfold cell_at, zget, slot_cells. rewrite list_lookup_fmap. unfold slot_values in *. rewrite Hs. by destruct isnull.
Qed.

Lemma row_set_or w n row : 0 ≤ n < 64 → 0 ≤ row < 64 → row_set (Z.lor w (bit64 n)) row = row_set w row || (row =? n).
Proof. intros Hn Hrow. rewrite !row_set_bit, Z.lor_spec, testbit_bit64 by done. done. Qed.

Lemma zget_snoc {A} (d : A) l x i : 0 ≤ i → zget d (l ++ [x]) i = if i =? zlength l then x else zget d l i.
Proof.
  intros Hi. unfold zget. destruct (Z.eqb_spec i (zlength l)) as [->|].
  - rewrite lookup_app_r by lia. by rewrite Nat2Z.id, Nat.sub_diag.
  - destruct (Z.lt_ge_cases i (zlength l)); [by rewrite lookup_app_l by lia|].
    rewrite !lookup_ge_None_2; [done|lia|rewrite length_app; simpl; lia].
Qed.

Section staging.
Context (natts : Z) (Hnatts : 1 ≤ natts ≤ 1600).

Lemma staged_empty values : zlength values = natts * 64 → Forall is_s32 values →
  staged natts values (replicate (Z.to_nat natts) 0) [].
Proof.
  intros Hv Hs. constructor; [done|done|rewrite length_replicate; lia| |cbn; intros; lia].
  intros c row Hc Hrow. unfold zget at 1. rewrite lookup_replicate_2 by lia. cbn [default]. rewrite row_set_bit, Z.bits_0 by done.
  done.
Qed.

Lemma stage_row_ok slot values nonnull_rows rows :
  staged natts values nonnull_rows rows → zlength rows < 64 → zlength slot = natts →
  ∃ values' nonnull', stage_row natts slot values nonnull_rows (zlength rows) = Ok (values', nonnull') ∧
    staged natts values' nonnull' (rows ++ [slot_cells slot]).
Proof.
  intros Hst Hlt Hslot. unfold stage_row. set (k := zlength rows).
  match goal with |- context [foldM ?g _ _] => set (f := g) end.
  set (upto := λ i c row, if c <? i then cell_at c (zget [] (rows ++ [slot_cells slot]) row) else cell_at c (zget [] rows row)).
  destruct (for_inv (λ i '(values, nonnull), zlength values = natts * 64 ∧ Forall is_s32 values ∧ zlength nonnull = natts ∧
      (∀ c row, 0 ≤ c < natts → 0 ≤ row < 64 → row_set (zget 0 nonnull c) row = match upto i c row with Some _ => true | None => false end) ∧
      (∀ c row v, 0 ≤ c < natts → 0 ≤ row < 64 → upto i c row = Some v → zget 0 values (c * 64 + row) = v))
    f natts (values, nonnull_rows)) as ([values' nonnull'] & -> & Hvl & Hvs & Hnl & Hset & Hval); [lia| | |].
  - destruct Hst as [Hvl Hvs Hnl Hset Hval]. split_and!; [done|done|done| |]; unfold upto; intros c row.
    + intros Hc Hrow. destruct (Z.ltb_spec c 0); [lia|]. by apply Hset.
    + intros v Hc Hrow. destruct (Z.ltb_spec c 0); [lia|]. intros Hcell. apply Hval; [done| |done].
      destruct (Z.lt_ge_cases row (zlength rows)); [lia|].
      unfold zget, cell_at in Hcell. by rewrite (lookup_ge_None_2 rows) in Hcell by lia.
  - intros i [vals nonnull] Hi (Hvl & Hvs & Hnl & Hset & Hval). unfold f.
    destruct (lookup_lt_is_Some_2 slot (Z.to_nat i)) as [[d isnull] Hd]; [lia|].
    rewrite (aref_lookup _ _ _ (proj1 Hi) Hd), bind_Ok. pose proof (cell_at_slot i slot d isnull Hd) as Hcell.
    assert (Hnext : ∀ c row, 0 ≤ row → upto (i + 1) c row =
        if (c =? i) && (row =? k) then cell_at i (slot_cells slot) else upto i c row).
    { intros c row Hrow. unfold upto. rewrite !zget_snoc by lia. change (zlength rows) with k.
      destruct (Z.ltb_spec c (i + 1)), (Z.ltb_spec c i), (Z.eqb_spec c i), (Z.eqb_spec row k); subst; try lia; done. }
    assert (Hold : upto i i k = None).
    { unfold upto. destruct (Z.ltb_spec i i); [lia|]. unfold cell_at, zget, k. by rewrite (lookup_ge_None_2 rows) by lia. }
    assert (Hk : 0 ≤ k < 64) by lia. unfold PG_BATCH_SIZE.
    destruct isnull.
    + rewrite aset_ok, bind_Ok by lia. eexists; split; [reflexivity|]. cbn beta iota. rewrite length_insert.
      split_and!; [done|by apply Forall_insert|done| |].
      * intros c row Hc Hrow. rewrite Hset, Hnext by lia.
        destruct (Z.eqb_spec c i) as [->|], (Z.eqb_spec row k) as [->|]; cbn [andb]; try done. by rewrite Hold, Hcell.
      * intros c row v Hc Hrow. rewrite Hnext by lia.
        destruct (Z.eqb_spec c i) as [->|], (Z.eqb_spec row k) as [->|]; cbn [andb];
          rewrite ?Hcell; try done; intros Hu; rewrite zget_insert_ne by lia; by apply Hval.
    + rewrite (aref_ok 0), bind_Ok, (aset_ok nonnull), bind_Ok, aset_ok, bind_Ok by lia.
      eexists; split; [reflexivity|]. cbn beta iota. rewrite !length_insert.
      split_and!; [done|apply Forall_insert; [done|apply to_s32_range]|done| |].
      * intros c row Hc Hrow. rewrite Hnext by lia. destruct (Z.eqb_spec c i) as [->|].
        -- rewrite zget_insert_eq, row_set_or, Hset by lia. cbn [andb].
           destruct (Z.eqb_spec row k) as [->|]; [by rewrite Hcell, orb_true_r|by rewrite orb_false_r].
        -- rewrite zget_insert_ne by lia. by apply Hset.
      * intros c row v Hc Hrow. rewrite Hnext by lia. rewrite zget_insert by lia.
        destruct (Z.eqb_spec c i) as [->|], (Z.eqb_spec row k) as [->|]; cbn [andb];
          intros Hu; [|rewrite decide_False by lia; by apply Hval..].
        rewrite decide_True by done. rewrite Hcell in Hu. congruence.
  - exists values', nonnull'. split; [done|].
    assert (Hup : ∀ c row, c < natts → upto natts c row = cell_at c (zget [] (rows ++ [slot_cells slot]) row)).
    { intros c row Hc. unfold upto. by destruct (Z.ltb_spec c natts); [|lia]. }
    constructor; [done|done|done| |].
    + intros c row Hc Hrow. rewrite Hset, Hup by lia. done.
    + intros c row v Hc Hrow Hcell. rewrite length_app in Hrow. cbn in Hrow. apply Hval; [done|lia|]. by rewrite Hup by lia.
Qed.

(** What the scan loop has stored and staged of the rows seen. *)
Definition progress (gb relid : Z) (s : Staging) (seen : list slot_values) : Prop :=
  ∃ chunks pending, concat chunks ++ pending = slot_cells <$> seen ∧ Forall (λ chunk, zlength chunk = 64) chunks ∧
    zlength pending = st_batch_row s ∧ st_batch_row s < 64 ∧
    staged natts (st_values s) (st_nonnull_rows s) pending ∧
    snapshot_ok natts gb (st_compressed s) chunks ∧ cr_relid (st_compressed s) = relid.

Lemma length_full {A} (chunks : list (list A)) :
  Forall (λ chunk, zlength chunk = 64) chunks → zlength (concat chunks) = 64 * zlength chunks.
Proof. induction 1 as [|chunk chunks Hc _ IH]; [done|]. cbn [concat length]. rewrite length_app. lia. Qed.

Lemma compress_slot_ok gb relid s seen slot :
  1 ≤ gb → progress gb relid s seen → zlength slot = natts → zlength seen < 64 * max_batches →
  ∃ s', compress_slot natts slot s = Ok s' ∧ progress gb relid s' (seen ++ [slot]).
Proof.
  intros Hgb (chunks & pending & Econ & Hfull & Hp & Hlt & Hst & Hs & Hrel) Hslot Hmax.
  assert (Hcount : 64 * zlength chunks + zlength pending = zlength seen).
  { rewrite <- length_full by done. apply (f_equal length) in Econ. rewrite length_app, length_fmap in Econ. lia. }
  destruct (stage_row_ok slot _ _ _ Hst ltac:(lia) Hslot) as (values & nonnull & E & Hst').
  unfold compress_slot. rewrite <- Hp, E, bind_Ok. unfold PG_BATCH_SIZE.
  assert (Hp1 : zlength (pending ++ [slot_cells slot]) = zlength pending + 1) by (rewrite length_app; simpl; lia).
  destruct (Z.eqb_spec (zlength pending + 1) 64) as [Efull|].
  - rewrite <- Hp1.
    destruct (append_compressed_batch_ok natts gb Hnatts Hgb (st_compressed s) chunks values nonnull
      (pending ++ [slot_cells slot])) as (cr & -> & Hs' & Hrel'); [done|done|lia|lia|].
    rewrite bind_Ok. eexists; split; [reflexivity|]. exists (chunks ++ [pending ++ [slot_cells slot]]), [].
    cbn [st_values st_nonnull_rows st_batch_row st_compressed]. split_and!; [|apply Forall_app; split; [done|apply Forall_singleton; lia]|done|lia| |done|congruence].
    + rewrite concat_app, fmap_app, <- Econ. cbn [concat]. by rewrite !app_nil_r, !app_assoc.
    + destruct Hst' as [Hvl Hvs _ _ _]. by apply staged_empty.
  - eexists; split; [reflexivity|]. exists chunks, (pending ++ [slot_cells slot]).
    cbn [st_values st_nonnull_rows st_batch_row st_compressed]. split_and!; [|done|lia|lia|done|done|done].
    by rewrite fmap_app, <- Econ, app_assoc.
Qed.
End staging.

(** ** Compressing a table *)

(** The relation and the group size pass the checks, and the rows have a value
    per column. *)
Definition compressible (relation : Relation) (group_rows : Z) (rows : list slot_values) : Prop :=
  relation_supported relation true = Ok true ∧ zlength (rel_attrs relation) ≤ 1600 ∧
  64 ≤ group_rows ∧ Z.rem group_rows 64 = 0 ∧
  Forall (λ slot, zlength slot = zlength (rel_attrs relation)) rows ∧ zlength rows ≤ 64 * max_batches.

Lemma compress_table_ok relation group_rows rows :
  compressible relation group_rows rows →
  ∃ cr chunks, compress_table relation group_rows rows = Ok cr ∧ concat chunks = slot_cells <$> rows ∧
    snapshot_ok (zlength (rel_attrs relation)) (group_rows / 64) cr chunks ∧ cr_relid cr = rel_id relation ∧
    ∀ i chunk, chunks !! i = Some chunk → (S i < length chunks)%nat → zlength chunk = 64.
Proof.
  intros (Hsup & Hwide & Hgr & Hrem & Hslots & Hmax). set (natts := zlength (rel_attrs relation)) in *.
  assert (Hnatts : 1 ≤ natts ≤ 1600).
  { split; [|done]. unfold relation_supported in Hsup. destruct (negb _ || negb _); [done|].
    fold natts in Hsup. destruct (Z.eqb_spec natts 0); [done|]. lia. }
  unfold compress_table. fold natts. rewrite Hsup, bind_Ok. unfold PG_BATCH_SIZE.
  destruct (Z.ltb_spec group_rows 64); [lia|]. rewrite Hrem. cbn [orb negb Z.eqb raise_if mbind res_bind].
  rewrite !check_alloc_ok, !bind_Ok by (unfold MaxAllocSize; lia).
  rewrite Z.quot_div_nonneg by lia. set (gb := group_rows / 64).
  assert (Hgb : 1 ≤ gb) by (apply (Z.div_le_mono 64 group_rows 64) in Hgr; [exact Hgr|lia]).
  set (cr0 := mkCompressedRelation _ _ _ _ _ _ _ _ _). set (s0 := mkStaging _ _ _ _).
  destruct (foldM_inv (λ pre s, progress natts gb (rel_id relation) s pre) (compress_slot natts) rows s0)
    as (s & -> & chunks & pending & Econ & Hfull & Hp & Hlt & Hst & Hs & Hrel).
  - exists [], []. unfold s0. cbn [st_values st_nonnull_rows st_batch_row st_compressed]. split_and!; [done|constructor|done|lia| | |done].
    + apply staged_empty; [done|rewrite length_replicate; lia|]. by apply Forall_replicate.
    + constructor; try done; (split; [|unfold cr_nbatches, cr_ngroups; cbn; lia]); [exists 5|exists 3]; (split; [lia|reflexivity]).
  - intros pre slot post s Erows Hpr. apply compress_slot_ok; [done..| |].
    + rewrite Forall_forall in Hslots. apply Hslots. rewrite Erows. set_solver.
    + apply (f_equal length) in Erows. rewrite length_app in Erows. simpl in Erows. lia.
  - rewrite bind_Ok. assert (Hcount : 64 * zlength chunks + zlength pending = zlength rows).
    { rewrite <- length_full by done. apply (f_equal length) in Econ. rewrite length_app, length_fmap in Econ. lia. }
    destruct (Z.ltb_spec 0 (st_batch_row s)).
    + rewrite <- Hp. destruct (append_compressed_batch_ok natts gb Hnatts Hgb (st_compressed s) chunks (st_values s)
        (st_nonnull_rows s) pending) as (cr & -> & Hs' & Hrel'); [done|done|lia|unfold max_batches in *; lia|].
      exists cr, (chunks ++ [pending]). split_and!; [done| |done|congruence|].
      * rewrite concat_app. cbn [concat]. by rewrite app_nil_r.
      * intros i chunk Hi Hlast. rewrite length_app in Hlast. cbn in Hlast.
        rewrite lookup_app_l in Hi by lia. by apply (Forall_lookup_1 _ _ _ _ Hfull Hi).
    + exists (st_compressed s), chunks. destruct pending; [|cbn in *; lia]. rewrite app_nil_r in Econ.
      split_and!; [done|done|done|done|]. intros i chunk Hi _. by apply (Forall_lookup_1 _ _ _ _ Hfull Hi).
Qed.
End groups.
