(* ===== verification/CompressedProps.v ===== *)
(** * Snapshots: what is stored, what pruning leaves out, who holds them

    Reading a snapshot returns the compressed table; a storage group that
    pruning skips has no row the conditions accept; the registry never loses or
    replaces a snapshot that a scan holds. *)

From S2P Require Import Prelude Words Bytes Vector Kernels Int4 Compressed CompressedColumns CompressedBuild CompressedTable.

(** ** Reading a snapshot *)

Section reading.
Context `{PgCore}.

(** One row through the views of its batch's columns. *)
Definition read_row (views : list PgBatchInt4Vector) (row : Z) : res row_cells :=
  foldM (λ v cells,
    isnull ← pg_batch_int4_row_is_null v row;
    if (isnull : bool) then Ok (cells ++ [None])
    else value ← pg_batch_int4_row_value v row; Ok (cells ++ [Some value])) views [].

Definition read_batch (ncolumns : Z) (b : CompressedBatch) : res (list row_cells) :=
  views ← foldM (λ column views, v ← column_view b column; Ok (views ++ [v])) (seqZ 0 ncolumns) [];
  foldM (λ row rows, cells ← read_row views row; Ok (rows ++ [cells])) (seqZ 0 (cb_nrows b)) [].

Definition read_snapshot (cr : CompressedRelation) : res (list row_cells) :=
  foldM (λ b rows, batch ← read_batch (cr_ncolumns cr) b; Ok (rows ++ batch)) (cr_batches cr) [].

Lemma read_row_ok views n row cells :
  Forall2 (λ v c, col_wf v n ∧ cell v row = c) views cells → 0 ≤ row < n → read_row views row = Ok cells.
Proof.
  intros Hv Hrow. unfold read_row.
  cut (∀ acc, foldM (λ v cells, isnull ← pg_batch_int4_row_is_null v row;
      if (isnull : bool) then Ok (cells ++ [None])
      else value ← pg_batch_int4_row_value v row; Ok (cells ++ [Some value])) views acc = Ok (acc ++ cells)).
  { intros Hc. apply Hc. }
  induction Hv as [|v c views cells [Hwf Hcell] _ IH]; intros acc; [by rewrite app_nil_r|]. cbn [foldM].
  rewrite (row_is_null_ok _ n), bind_Ok by done. unfold cell in Hcell. destruct (cell_null v row).
  - cbn [mbind res_bind]. rewrite IH, <- Hcell. by rewrite <- app_assoc.
  - rewrite (row_value_ok _ n), bind_Ok by done. cbn [mbind res_bind]. rewrite IH, <- Hcell. by rewrite <- app_assoc.
Qed.

Lemma read_batch_ok ncolumns b rows :
  0 ≤ ncolumns → Forall (λ row, zlength row = ncolumns) rows → batch_ok ncolumns b rows →
  read_batch ncolumns b = Ok rows.
Proof.
  intros Hc Hrows (Hn & Hnr & _ & Hcols). unfold read_batch.
  destruct (for_inv (λ i views, zlength views = i ∧ ∀ c v, views !! Z.to_nat c = Some v → 0 ≤ c →
      col_wf v (zlength rows) ∧ ∀ row, 0 ≤ row < zlength rows → cell v row = cell_at c (zget [] rows row))
    (λ column views, v ← column_view b column; Ok (views ++ [v])) ncolumns []) as (views & -> & Hl & Hviews); [done| | |].
  - split; [done|]. intros c v Hv. by rewrite lookup_nil in Hv.
  - intros i views Hi [Hl Hviews]. destruct (Hcols i Hi) as (v & -> & Hwf & Hcell). rewrite bind_Ok.
    eexists; split; [reflexivity|]. split; [rewrite length_app; simpl; lia|]. intros c v' Hv' Hc0.
    destruct (decide (c < i)).
    + apply Hviews; [|done]. by rewrite lookup_app_l in Hv' by lia.
    + pose proof (lookup_lt_Some _ _ _ Hv') as Hlt. rewrite length_app in Hlt. cbn in Hlt.
      assert (c = i) as -> by lia. rewrite lookup_app_r in Hv' by lia.
      replace (Z.to_nat i - length views)%nat with 0%nat in Hv' by lia. by injection Hv' as <-.
  - rewrite bind_Ok, Hnr.
    match goal with |- foldM ?g _ _ = _ => set (f := g) end.
    destruct (for_inv (λ i out, out = take (Z.to_nat i) rows) f (zlength rows) []) as (out & E & ->);
      [lia|done| |rewrite take_ge in E by lia; exact E].
    intros i out Hi ->. unfold f. destruct (lookup_lt_is_Some_2 rows (Z.to_nat i)) as [cells Hcells]; [lia|].
    rewrite (read_row_ok views (zlength rows) i cells); [|apply Forall2_same_length_lookup_2|done].
    + rewrite bind_Ok. eexists; split; [reflexivity|]. replace (Z.to_nat (i + 1)) with (S (Z.to_nat i)) by lia.
      by rewrite (take_S_r _ _ _ Hcells).
    + pose proof (Forall_lookup_1 _ _ _ _ Hrows Hcells) as Hlen. cbn in Hlen. lia.
    + intros c v x Hv Hx. destruct (Hviews (Z.of_nat c) v) as [Hwf Hcell]; [by rewrite Nat2Z.id|lia|].
      split; [done|]. rewrite Hcell by done. unfold cell_at, zget.
      change (default None (default [] (rows !! Z.to_nat i) !! Z.to_nat (Z.of_nat c)) = x).
      replace (rows !! Z.to_nat i) with (Some cells) by done. cbn [default]. rewrite Nat2Z.id.
      by replace (cells !! c) with (Some x) by done.
Qed.

Lemma read_snapshot_ok natts gb cr chunks :
  0 ≤ natts → snapshot_ok natts gb cr chunks → Forall (λ row, zlength row = natts) (concat chunks) →
  read_snapshot cr = Ok (concat chunks).
Proof.
  intros Hn [Hnc _ _ Hbatches _ _ _ _]. unfold read_snapshot. rewrite Hnc. clear -Hbatches Hn.
  cut (∀ acc, Forall (λ row, zlength row = natts) (concat chunks) →
    foldM (λ b rows, batch ← read_batch natts b; Ok (rows ++ batch)) (cr_batches cr) acc = Ok (acc ++ concat chunks)).
  { intros Hc Hrows. by apply (Hc []). }
  induction Hbatches as [|b rows batches chunks Hb _ IH]; intros acc Hrows; [by rewrite app_nil_r|].
  cbn [foldM concat] in *. apply Forall_app in Hrows as [Hrows Hrest].
  rewrite (read_batch_ok natts b rows), !bind_Ok by done. rewrite IH by done. by rewrite <- app_assoc.
Qed.

(** ** Pruning *)

(** What the conditions that pruning looks at demand of a row; a comparison
    with NULL is not true. *)
Definition qual_holds (qual : PruneQual) (row : row_cells) : bool :=
  negb (pq_prunable qual) ||
  match cell_at (pq_attnum qual - 1) row with
  | Some v => negb (pq_scalar qual).2 && pg_batch_int4_compare v (DatumGetInt32 (pq_scalar qual).1) (pq_op qual)
  | None => false
  end.

Definition quals_hold (quals : list PruneQual) (row : row_cells) : bool := forallb (λ q, qual_holds q row) quals.

(** Attribute numbers of conditions pruning uses refer to columns. *)
Definition quals_wf (natts : Z) (quals : list PruneQual) : Prop :=
  Forall (λ q, pq_prunable q = true → 1 ≤ pq_attnum q ≤ natts) quals.

Lemma present_elem c rows row v : row ∈ rows → cell_at c row = Some v → v ∈ present c rows.
Proof. intros Hr Hc. apply list_elem_of_omap. by exists row. Qed.

(** A row the condition accepts has a value that passes every test of a
    summary. *)
Lemma qual_value qual row rows :
  pq_prunable qual = true → row ∈ rows → qual_holds qual row = true →
  (pq_scalar qual).2 = false ∧
  ∃ v, v ∈ present (pq_attnum qual - 1) rows ∧
    pg_batch_int4_compare v (DatumGetInt32 (pq_scalar qual).1) (pq_op qual) = true.
Proof.
  intros Hp Hrow. unfold qual_holds. rewrite Hp. cbn [negb orb].
  destruct (cell_at (pq_attnum qual - 1) row) as [v|] eqn:E; [|done]. intros [Hs Hcmp]%andb_true_iff.
  split; [by destruct (pq_scalar qual).2|]. exists v. split; [by eapply present_elem|done].
Qed.

Lemma group_may_match_ok natts quals group rows :
  group_summary natts group rows → quals_wf natts quals →
  ∃ m, group_may_match quals group = Ok m ∧
    (m ≠ PG_BATCH_GROUP_MATCH → ∀ row, row ∈ rows → quals_hold quals row = false).
Proof.
  intros [Hlen Hall] Hwf. induction Hwf as [|qual quals Hatt _ IH]; [by exists PG_BATCH_GROUP_MATCH|].
  cbn [group_may_match]. destruct IH as (m & Em & Hm).
  assert (Hskip : ∀ row, quals_hold quals row = false → quals_hold (qual :: quals) row = false).
  { intros row E. unfold quals_hold in *. cbn. by rewrite E, andb_false_r. }
  assert (Hrest : ∃ m, group_may_match quals group = Ok m ∧
    (m ≠ PG_BATCH_GROUP_MATCH → ∀ row, row ∈ rows → quals_hold (qual :: quals) row = false)).
  { exists m. split; [done|]. intros Hne row Hrow. apply Hskip. by apply Hm. }
  destruct (pq_prunable qual) eqn:Hp; [|exact Hrest]. cbn [negb]. specialize (Hatt eq_refl).
  assert (Hhead : ∀ m, (∀ row, row ∈ rows → qual_holds qual row ≠ true) →
    ∃ m', Ok m = Ok m' ∧ (m' ≠ PG_BATCH_GROUP_MATCH → ∀ row, row ∈ rows → quals_hold (qual :: quals) row = false)).
  { intros m' Hno. exists m'. split; [done|]. intros _ row Hrow. unfold quals_hold. cbn.
    specialize (Hno row Hrow). by destruct (qual_holds qual row). }
  destruct (pq_scalar qual).2 eqn:Hnull.
  { apply Hhead. intros row Hrow Hq. by destruct (qual_value qual row rows Hp Hrow Hq) as [? _]; congruence. }
  destruct (Hall (pq_attnum qual - 1)) as (meta & Hmeta & [Hsn Hrange Htight Hdl Hdc Hknown Hexact]); [lia|].
  assert (Hpos : 0 ≤ pq_attnum qual - 1) by lia. rewrite (aref_lookup _ _ _ Hpos Hmeta), bind_Ok.
  destruct (gc_has_nonnull meta) eqn:Hnn; cbn [negb].
  2: { apply Hhead. intros row Hrow Hq. destruct (qual_value qual row rows Hp Hrow Hq) as (_ & v & Hv & _).
       by destruct (present (pq_attnum qual - 1) rows); [apply elem_of_nil in Hv|]. }
  set (scalar := DatumGetInt32 (pq_scalar qual).1). set (matches := match pq_op qual with PG_BATCH_INT4_EQ => _ | _ => _ end).
  rewrite Forall_forall in *.
  assert (Hqual : ∀ row, row ∈ rows → qual_holds qual row = true → ∃ v, v ∈ present (pq_attnum qual - 1) rows ∧
    gc_minimum meta ≤ v ≤ gc_maximum meta ∧ pg_batch_int4_compare v scalar (pq_op qual) = true).
  { intros row Hrow Hq. destruct (qual_value qual row rows Hp Hrow Hq) as (_ & v & Hv & Hcmp). exists v. by auto. }
  destruct matches eqn:Ematch; cbn [negb].
  2: { apply Hhead. intros row Hrow Hq. destruct (Hqual row Hrow Hq) as (v & _ & Hv & Hcmp).
       unfold matches in Ematch. unfold pg_batch_int4_compare in Hcmp. destruct (pq_op qual); try lia. }
  destruct (bool_decide_reflect (pq_op qual = PG_BATCH_INT4_EQ)) as [Eop|]; [|exact Hrest]. cbn [andb].
  destruct (gc_distinct_overflow meta) eqn:Eov; cbn [negb]; [exact Hrest|]. unfold group_contains.
  destruct (distinct_search (gc_distinct meta) (gc_ndistinct meta) scalar) as (known & -> & Hk); [lia|].
  rewrite bind_Ok. destruct known; cbn [negb]; [exact Hrest|]. apply Hhead. intros row Hrow Hq.
  destruct (Hqual row Hrow Hq) as (v & Hv & _ & Hcmp). rewrite Eop in Hcmp. cbn in Hcmp. apply Z.eqb_eq in Hcmp as ->.
  assert (false = true) by (apply Hk; auto). done.
Qed.

(** All but the last of the batches are full, so a row's batch is a matter of
    division. *)
Lemma full_lookup {A} (chunks : list (list A)) (i : nat) x :
  (∀ k chunk, chunks !! k = Some chunk → (S k < length chunks)%nat → zlength chunk = 64) →
  (∀ k chunk, chunks !! k = Some chunk → zlength chunk ≤ 64) →
  concat chunks !! i = Some x → ∃ chunk, chunks !! (i / 64)%nat = Some chunk ∧ x ∈ chunk.
Proof.
  revert i. induction chunks as [|chunk chunks IH]; intros i Hfull Hle Hx; [done|]. cbn [concat] in Hx.
  destruct (decide (i < length chunk)%nat).
  - rewrite lookup_app_l in Hx by done. pose proof (Hle 0%nat chunk eq_refl). rewrite Nat.div_small by lia.
    exists chunk. split; [done|]. by eapply list_elem_of_lookup_2.
  - rewrite lookup_app_r in Hx by lia. destruct chunks as [|chunk' chunks]; [done|].
    pose proof (Hfull 0%nat chunk eq_refl ltac:(simpl; lia)).
    destruct (IH (i - length chunk)%nat) as (c & Hc & Hin); [..|done|].
    + intros k c Hk Hlast. apply (Hfull (S k) c Hk). simpl in *. lia.
    + intros k c Hk. by apply (Hle (S k) c).
    + exists c. split; [|done]. replace (i / 64)%nat with (S ((i - length chunk) / 64)); [done|].
      replace i with (1 * 64 + (i - length chunk))%nat at 2 by lia. rewrite Nat.div_add_l by lia. lia.
Qed.

Lemma group_part_lookup {A} gb j (chunks : list A) (k : nat) x :
  0 ≤ j → j * gb ≤ Z.of_nat k < (j + 1) * gb → chunks !! k = Some x → x ∈ group_part gb j chunks.
Proof.
  intros Hj Hk Hx. apply list_elem_of_lookup. exists (k - Z.to_nat (j * gb))%nat. unfold group_part.
  rewrite lookup_take_lt by nia. rewrite lookup_drop. by replace (Z.to_nat (j * gb) + (k - Z.to_nat (j * gb)))%nat with k by nia.
Qed.

(** C23. Pruning by storage groups is sound: whatever table was compressed, a
    storage group's test never goes wrong, and when it tells a scan to skip the
    group (by range or by membership), no row of the group's batches satisfies
    the conditions. *)
Theorem group_pruning_sound relation group_rows rows quals :
  compressible relation group_rows rows → quals_wf (zlength (rel_attrs relation)) quals →
  ∃ cr, compress_table relation group_rows rows = Ok cr ∧
    ∀ j group, cr_groups cr !! j = Some group → ∃ m, group_may_match quals group = Ok m ∧
      (m ≠ PG_BATCH_GROUP_MATCH → ∀ i slot,
        64 * sg_first_batch group ≤ Z.of_nat i < 64 * (sg_first_batch group + sg_nbatches group) →
        rows !! i = Some slot → quals_hold quals (slot_cells slot) = false).
Proof.
  intros Hc Hq. destruct (compress_table_ok _ _ _ Hc) as (cr & chunks & E & Econ & Hs & _ & Hfull).
  exists cr. split; [done|]. intros j group Hj.
  assert (Hgb : 1 ≤ group_rows / 64).
  { destruct Hc as (_ & _ & Hge & _). apply (Z.div_le_mono 64 group_rows 64) in Hge; [exact Hge|lia]. }
  pose proof Hs as [_ _ _ Hb _ _ _ Hgroups]. rewrite <- (Nat2Z.id j) in Hj.
  destruct (Hgroups _ _ Hj) as (Hfirst & Hn & Hsum); [lia|].
  destruct (group_may_match_ok _ quals _ _ Hsum Hq) as (m & Em & Hm). exists m. split; [done|].
  intros Hne i slot Hi Hslot. apply Hm; [done|].
  assert (Hx : concat chunks !! i = Some (slot_cells slot)) by (rewrite Econ, list_lookup_fmap; unfold slot_values in *; by rewrite Hslot).
  destruct (full_lookup chunks i (slot_cells slot) Hfull) as (chunk & Hchunk & Hin); [|exact Hx|].
  - intros k c Hk. destruct (Forall2_lookup_r _ _ _ _ _ Hb Hk) as (b & _ & Hok). apply Hok.
  - apply list_elem_of_In, in_concat. exists chunk. split; [|by apply list_elem_of_In].
    apply list_elem_of_In. eapply group_part_lookup; [| |exact Hchunk]; [lia|].
    rewrite Nat2Z.inj_div. change (Z.of_nat 64) with 64. split.
    + apply Z.div_le_lower_bound; lia.
    + apply Z.div_lt_upper_bound; lia.
Qed.

(** ** The registry *)

(** What else can happen to the registry: operations, in any order. *)
Inductive SnapshotOp : Type :=
| OpCompress (a : Z) (relation : Relation) (group_rows : Z) (rows : list slot_values)
| OpAcquire (relation : Relation)
| OpAvailable (relation : Relation)
| OpRelease (a : Z)
| OpFini.

(** Scans' holds: how often each address has been acquired and not released. *)
Definition holds : Type := Z → Z.

Definition bump (h : holds) (a n : Z) : holds := λ b, if b =? a then h b + n else h b.

Definition run_snapshot_op (op : SnapshotOp) (s : Snapshots) (h : holds) : res unit * Snapshots * holds :=
  match op with
  | OpCompress a relation group_rows rows =>
      let '(r, s') := pg_batch_compress a relation group_rows rows s in (r ≫= λ _, Ok tt, s', h)
  | OpAcquire relation =>
      let '(r, s') := pg_batch_compressed_acquire relation s in
      (r ≫= λ _, Ok tt, s', match r with Ok (Some a) => bump h a 1 | _ => h end)
  | OpAvailable relation =>
      let '(r, s') := pg_batch_compressed_available relation s in (r ≫= λ _, Ok tt, s', h)
  | OpRelease a =>
      let '(r, s') := pg_batch_compressed_release a s in (r, s', bump h a (-1))
  | OpFini => let '(r, s') := pg_batch_compressed_fini s in (r, s', h)
  end.

(** A table that can be scanned; new memory; no more scans than an [int]
    counts; a scan releases what it holds; unloading when nothing is held. *)
Definition snapshot_op_allowed (op : SnapshotOp) (s : Snapshots) (h : holds) : Prop :=
  match op with
  | OpCompress a relation group_rows rows =>
      sn_heap s !! a = None ∧ zlength (rel_attrs relation) ≤ 1600 ∧
      Forall (λ slot, zlength slot = zlength (rel_attrs relation)) rows ∧ zlength rows ≤ 64 * max_batches
  | OpAcquire _ => ∀ a, h a < 2 ^ 31 - 1
  | OpAvailable _ => True
  | OpRelease a => 0 < h a
  | OpFini => ∀ a, h a = 0
  end.

Definition init_snapshots : Snapshots := mkSnapshots ∅ [].

Inductive snapshots_reachable : Snapshots → holds → Prop :=
| snapshots_start : snapshots_reachable init_snapshots (λ _, 0)
| snapshots_step op s h r s' h' :
    snapshots_reachable s h → snapshot_op_allowed op s h → run_snapshot_op op s h = (r, s', h') →
    snapshots_reachable s' h'.

Record snapshots_inv (s : Snapshots) (h : holds) : Prop := {
  sn_nodup : NoDup (compressed_relations s);
  sn_live a : a ∈ compressed_relations s ↔ is_Some (sn_heap s !! a);
  sn_relids a b cr cr' : sn_heap s !! a = Some cr → sn_heap s !! b = Some cr' → cr_relid cr = cr_relid cr' → a = b;
  sn_refcount a cr : sn_heap s !! a = Some cr → cr_refcount cr = h a;
  sn_held a : 0 ≤ h a < 2 ^ 31 ∧ (sn_heap s !! a = None → h a = 0);
}.
(** A walk over the links: the first snapshot that passes the test. *)
Lemma find_link_ok relid links s :
  (∀ a, a ∈ links → is_Some (sn_heap s !! a)) →
  ∃ o, find_link relid links s = (Ok o, s) ∧
    match o with
    | Some a => a ∈ links ∧ ∃ cr, sn_heap s !! a = Some cr ∧ cr_relid cr = relid
    | None => ∀ a cr, a ∈ links → sn_heap s !! a = Some cr → cr_relid cr ≠ relid
    end.
Proof.
  induction links as [|a links IH]; intros Hlive; [exists None; split; [done|]; intros a cr Ha; set_solver|].
  destruct (Hlive a) as [cr Hcr]; [set_solver|]. cbn [find_link].
  unfold the_snapshot, mbind, st_bind, gets, deref, lift. rewrite Hcr.
  destruct (Z.eqb_spec (cr_relid cr) relid) as [E|E].
  - exists (Some a). split; [done|]. split; [set_solver|by exists cr].
  - destruct IH as (o & Eo & Ho); [intros b Hb; apply Hlive; set_solver|]. exists o. split; [exact Eo|].
    destruct o as [b|].
    + destruct Ho as [Hb Hex]. split; [set_solver|done].
    + intros b cr' [->|Hb]%elem_of_cons Hcr'; [congruence|by eapply Ho].
Qed.

Lemma find_loop_ok relation links s :
  (∀ a, a ∈ links → is_Some (sn_heap s !! a)) →
  let fits cr := cr_relid cr = rel_id relation ∧ cr_ncolumns cr = zlength (rel_attrs relation) in
  ∃ o, find_loop relation links s = (Ok o, s) ∧
    match o with
    | Some a => a ∈ links ∧ ∃ cr, sn_heap s !! a = Some cr ∧ fits cr
    | None => ∀ a cr, a ∈ links → sn_heap s !! a = Some cr → ¬ fits cr
    end.
Proof.
  intros Hlive fits. induction links as [|a links IH]; [exists None; split; [done|]; intros a cr Ha; set_solver|].
  destruct (Hlive a) as [cr Hcr]; [set_solver|]. cbn [find_loop].
  unfold the_snapshot, mbind, st_bind, gets, deref, lift. rewrite Hcr.
  destruct ((cr_relid cr =? rel_id relation) && (cr_ncolumns cr =? zlength (rel_attrs relation))) eqn:E.
  - bool_prop. exists (Some a). split; [done|]. split; [set_solver|by exists cr].
  - destruct IH as (o & Eo & Ho); [intros b Hb; apply Hlive; set_solver|]. exists o. split; [exact Eo|].
    destruct o as [b|].
    + destruct Ho as [Hb Hex]. split; [set_solver|done].
    + intros b cr' [->|Hb]%elem_of_cons Hcr'; [|by eapply Ho]. intros [E1 E2].
      assert (cr' = cr) as -> by congruence. by rewrite E1, E2, !Z.eqb_refl in E.
Qed.

Lemma supported_quiet relation : ∃ b, relation_supported relation false = Ok b ∧
  (relation_supported relation true = Ok true ↔ b = true).
Proof.
  unfold relation_supported. destruct (negb _ || negb _); [by exists false|].
  destruct (_ =? 0); [by exists false|]. destruct (existsb _ _); [by exists false|by exists true].
Qed.

Lemma find_compressed_ok relation s h :
  snapshots_inv s h →
  ∃ o, find_compressed_relation relation s = (Ok o, s) ∧
    (∀ a, o = Some a ↔ relation_supported relation true = Ok true ∧ ∃ cr, sn_heap s !! a = Some cr ∧
       cr_relid cr = rel_id relation ∧ cr_ncolumns cr = zlength (rel_attrs relation)).
Proof.
  intros []. destruct (supported_quiet relation) as (b & E & Hb). unfold find_compressed_relation, mbind, st_bind, lift.
  rewrite E. destruct b; cbn [negb].
  - destruct (find_loop_ok relation (compressed_relations s) s) as (o & Eo & Ho); [intros a; apply sn_live0|].
    exists o. split; [exact Eo|]. intros a. split.
    + intros ->. destruct Ho as (_ & cr & Hcr & Hfits). split; [by apply Hb|]. by exists cr.
    + intros (_ & cr & Hcr & Hrel & Hn). destruct o as [a'|].
      * destruct Ho as (_ & cr' & Hcr' & Hrel' & _). f_equal. eapply sn_relids0; [exact Hcr'|exact Hcr|congruence].
      * exfalso. apply (Ho a cr); [by apply sn_live0; exists cr|done|done].
  - exists None. split; [done|]. intros a. split; [done|]. intros [Hs _]. apply Hb in Hs. done.
Qed.

(** The snapshot except for its reference count. *)
Definition same_snapshot (cr cr' : CompressedRelation) : Prop := set_refcount cr 0 = set_refcount cr' 0.

(** Held snapshots survive. *)
Definition held_kept (h : holds) (s s' : Snapshots) : Prop :=
  ∀ a cr, sn_heap s !! a = Some cr → 0 < h a → ∃ cr', sn_heap s' !! a = Some cr' ∧ same_snapshot cr cr'.

Lemma add_refcount_ok s h a n cr :
  snapshots_inv s h → sn_heap s !! a = Some cr → 0 ≤ h a + n < 2 ^ 31 →
  ∃ s', add_refcount a n s = (Ok tt, s') ∧ snapshots_inv s' (bump h a n) ∧ held_kept h s s'.
Proof.
  intros [] Hcr Hn. unfold add_refcount, the_snapshot, mbind, st_bind, gets, deref, lift, modify. rewrite Hcr.
  rewrite (sn_refcount0 _ _ Hcr), (proj2 (in_s32_spec _)) by (unfold is_s32; lia). cbn [assert_].
  eexists; split; [reflexivity|]. unfold bump. split.
  - constructor; cbn [sn_heap compressed_relations]; [done| | | |].
    + intros b. rewrite sn_live0. destruct (decide (b = a)) as [->|]; [rewrite Hcr, lookup_insert_eq; split; eauto|].
      by rewrite lookup_insert_ne.
    + intros b c crb crc. rewrite !lookup_insert. repeat case_decide; intros E1 E2 Er; simplify_eq; try done.
      * cbn in Er. by eapply sn_relids0.
      * cbn in Er. by eapply sn_relids0.
      * by eapply sn_relids0.
    + intros b crb. rewrite lookup_insert. case_decide as E; intros Eb; simplify_eq; [by rewrite Z.eqb_refl|].
      destruct (Z.eqb_spec b a); [congruence|]. by apply sn_refcount0.
    + intros b. destruct (sn_held0 b) as [Hb Hnone]. destruct (Z.eqb_spec b a) as [->|].
      * split; [lia|]. by rewrite lookup_insert_eq.
      * split; [done|]. by rewrite lookup_insert_ne.
  - intros b crb Hb Hpos. cbn [sn_heap]. rewrite lookup_insert. case_decide as E; [|by exists crb]. subst b.
    exists (set_refcount cr (h a + n)). split; [done|]. unfold same_snapshot. by assert (crb = cr) as -> by congruence.
Qed.

Lemma install_ok s h a cr :
  snapshots_inv s h → sn_heap s !! a = None → cr_refcount cr = 0 →
  ∃ r s', install_compressed_relation a cr s = (r, s') ∧ r ≠ Undefined ∧ snapshots_inv s' h ∧ held_kept h s s' ∧
    match r with
    | Ok _ => sn_heap s' !! a = Some cr ∧ ∀ b crb, sn_heap s !! b = Some crb → cr_relid crb = cr_relid cr → h b = 0
    | _ => r = Raise ObjectInUse ∧ s' = s ∧ ∃ b crb, sn_heap s !! b = Some crb ∧ cr_relid crb = cr_relid cr ∧ 0 < h b
    end.
Proof.
  intros Hinv Hfresh Href. pose proof Hinv as []. unfold install_compressed_relation, mbind, st_bind, gets.
  destruct (find_link_ok (cr_relid cr) (compressed_relations s) s) as (o & -> & Ho); [intros b; apply sn_live0|].
  assert (Hna : a ∉ compressed_relations s) by (rewrite sn_live0, Hfresh; by intros [? ?]).
  destruct o as [old|].
  - destruct Ho as (Hin & cro & Hcro & Hrel). unfold the_snapshot, mbind, st_bind, gets, deref, lift. rewrite Hcro.
    unfold error_if, lift. rewrite (sn_refcount0 _ _ Hcro).
    assert (Hne : a ≠ old) by (by intros ->).
    destruct (Z.eqb_spec (h old) 0) as [E|E]; cbn [negb raise_if].
    + eexists _, _. split; [reflexivity|]. split; [done|]. cbn [sn_heap].
      split_and!; [| |by rewrite lookup_insert_eq|intros b crb Hb Eb; rewrite <- E; f_equal; eapply sn_relids0; [exact Hb|exact Hcro|congruence]].
      * constructor; cbn [sn_heap compressed_relations].
        -- clear -sn_nodup0 Hna. induction (compressed_relations s) as [|b l IH]; [constructor|].
           apply NoDup_cons in sn_nodup0 as [Hb Hl]. apply not_elem_of_cons in Hna as [Hab Hal]. cbn [fmap list_fmap].
           apply NoDup_cons. split; [|by apply IH]. intros (c & Ec & Hc)%list_elem_of_fmap.
           destruct (Z.eqb_spec b old), (Z.eqb_spec c old); simplify_eq; done.
        -- intros b. rewrite list_elem_of_fmap, lookup_insert. case_decide as Eb.
           ++ subst b. split; [by eauto|]. intros _. exists old. by rewrite Z.eqb_refl.
           ++ split.
              ** intros (c & -> & Hc). destruct (Z.eqb_spec c old); [done|]. rewrite lookup_delete_ne by done. by apply sn_live0.
              ** intros Hb. destruct (decide (b = old)) as [->|]; [rewrite lookup_delete_eq in Hb; by destruct Hb|].
                 rewrite lookup_delete_ne in Hb by done. exists b. destruct (Z.eqb_spec b old); [done|]. split; [done|by apply sn_live0].
        -- assert (Hother : ∀ b crb, delete old (sn_heap s) !! b = Some crb → b ≠ old ∧ sn_heap s !! b = Some crb).
           { intros b crb Hb. destruct (decide (b = old)) as [->|]; [by rewrite lookup_delete_eq in Hb|]. by rewrite lookup_delete_ne in Hb. }
           intros b c crb crc. rewrite !lookup_insert. repeat case_decide; intros E1 E2 Er; simplify_eq; try done.
           ++ apply Hother in E2 as [Hc E2]. destruct Hc. eapply sn_relids0; [exact E2|exact Hcro|congruence].
           ++ apply Hother in E1 as [Hc E1]. destruct Hc. eapply sn_relids0; [exact E1|exact Hcro|congruence].
           ++ apply Hother in E1 as [_ E1], E2 as [_ E2]. by eapply sn_relids0.
        -- intros b crb. rewrite lookup_insert. case_decide as Eb; intros Hb; simplify_eq.
           ++ rewrite Href. symmetry. by apply sn_held0.
           ++ destruct (decide (b = old)) as [->|]; [by rewrite lookup_delete_eq in Hb|]. rewrite lookup_delete_ne in Hb by done.
              by apply sn_refcount0.
        -- intros b. destruct (sn_held0 b) as [Hb Hnone]. split; [done|]. rewrite lookup_insert. case_decide; [done|].
           destruct (decide (b = old)) as [->|]; [done|]. by rewrite lookup_delete_ne.
      * intros b crb Hb Hpos. assert (b ≠ a) by (intros ->; congruence). assert (b ≠ old) by (intros ->; lia).
        exists crb. cbn [sn_heap]. rewrite lookup_insert_ne, lookup_delete_ne by done. done.
    + eexists _, _. split; [reflexivity|]. split; [done|]. split; [done|]. split; [intros b crb Hb _; by exists crb|].
      split; [done|]. split; [done|]. exists old, cro. split_and!; [done|done|]. destruct (sn_held0 old). lia.
  - eexists _, _. split; [reflexivity|]. split; [done|]. cbn [sn_heap].
    split_and!; [| |by rewrite lookup_insert_eq|intros b crb Hb Eb; destruct (Ho b crb); [apply sn_live0; by eauto|done|done]].
    + constructor; cbn [sn_heap compressed_relations].
      * by apply NoDup_cons.
      * intros b. rewrite elem_of_cons, sn_live0, lookup_insert. case_decide as Eb; [subst; split; eauto|].
        split; [intros [->|]; done|by right].
      * intros b c crb crc. rewrite !lookup_insert. repeat case_decide; intros E1 E2 Er; simplify_eq; try done.
        -- destruct (Ho c crc); [apply sn_live0; by eauto|done|congruence].
        -- destruct (Ho b crb); [apply sn_live0; by eauto|done|congruence].
        -- by eapply sn_relids0.
      * intros b crb. rewrite lookup_insert. case_decide as Eb; intros Hb; simplify_eq; [|by apply sn_refcount0].
        rewrite Href. symmetry. by apply sn_held0.
      * intros b. destruct (sn_held0 b) as [Hb Hnone]. split; [done|]. rewrite lookup_insert. by case_decide.
    + intros b crb Hb Hpos. exists crb. cbn [sn_heap]. rewrite lookup_insert_ne by (intros ->; congruence). done.
Qed.

(** A table that can be scanned is compressed or refused. *)
Lemma compress_table_cases relation group_rows rows :
  zlength (rel_attrs relation) ≤ 1600 → Forall (λ slot, zlength slot = zlength (rel_attrs relation)) rows →
  zlength rows ≤ 64 * max_batches →
  (∃ e, compress_table relation group_rows rows = Raise e) ∨
  (compressible relation group_rows rows ∧ ∃ cr, compress_table relation group_rows rows = Ok cr ∧
     cr_refcount cr = 0 ∧ cr_relid cr = rel_id relation ∧ cr_ncolumns cr = zlength (rel_attrs relation)).
Proof.
  intros Hwide Hslots Hmax. destruct (decide (compressible relation group_rows rows)) as [Hc|Hno].
  - right. split; [done|]. destruct (compress_table_ok _ _ _ Hc) as (cr & chunks & E & _ & [] & Hrel & _). by exists cr.
  - left. unfold compress_table. destruct (relation_supported relation true) as [b|e|] eqn:E.
    + rewrite bind_Ok. unfold PG_BATCH_SIZE. destruct (Z.ltb_spec group_rows 64); [by eexists|].
      destruct (Z.eqb_spec (Z.rem group_rows 64) 0); [|by eexists]. exfalso. apply Hno. split_and!; try done.
      revert E. unfold relation_supported. destruct (negb _ || negb _); [done|]. destruct (_ =? 0); [done|].
      by destruct (existsb _ _).
    + by exists e.
    + exfalso. revert E. unfold relation_supported. destruct (negb _ || negb _); [done|]. destruct (_ =? 0); [done|].
      by destruct (existsb _ _).
Qed.

Lemma held_kept_refl h s : held_kept h s s.
Proof. intros a cr Ha _. by exists cr. Qed.

Lemma fini_ok s h : snapshots_inv s h → (∀ a, h a = 0) → snapshots_inv (mkSnapshots (foldr delete (sn_heap s) (compressed_relations s)) []) h.
Proof.
  intros [] Hh. assert (Hempty : ∀ a, foldr delete (sn_heap s) (compressed_relations s) !! a = None).
  { intros a. destruct (decide (a ∈ compressed_relations s)) as [Hin|Hout].
    - clear -Hin. induction (compressed_relations s) as [|b l IH]; [set_solver|]. cbn.
      destruct (decide (a = b)) as [->|]; [apply lookup_delete_eq|]. rewrite lookup_delete_ne by done.
      apply IH. set_solver.
    - assert (sn_heap s !! a = None) as E by (apply eq_None_not_Some; by rewrite <- sn_live0). clear -E.
      induction (compressed_relations s) as [|b l IH]; [done|]. cbn.
      destruct (decide (a = b)) as [->|]; [apply lookup_delete_eq|]. by rewrite lookup_delete_ne. }
  constructor; cbn [sn_heap compressed_relations].
  - constructor.
  - intros a. rewrite Hempty. split; [set_solver|by intros [? ?]].
  - intros a b cr cr' Ha. by rewrite Hempty in Ha.
  - intros a cr Ha. by rewrite Hempty in Ha.
  - intros a. rewrite Hh. done.
Qed.

Lemma snapshot_op_ok op s h :
  snapshots_inv s h → snapshot_op_allowed op s h →
  ∃ r s' h', run_snapshot_op op s h = (r, s', h') ∧ r ≠ Undefined ∧ snapshots_inv s' h' ∧ held_kept h s s'.
Proof.
  intros Hinv Hop. destruct op as [a relation group_rows rows|relation|relation|a|]; cbn [run_snapshot_op snapshot_op_allowed] in *.
  - destruct Hop as (Hfresh & Hwide & Hslots & Hmax). unfold pg_batch_compress, mbind at 1, st_bind at 1, lift.
    destruct (compress_table_cases relation group_rows rows Hwide Hslots Hmax) as [[e ->]|(_ & cr & -> & Href & _ & _)].
    { eexists _, _, _. split; [reflexivity|]. split; [done|]. split; [done|apply held_kept_refl]. }
    destruct (install_ok s h a cr Hinv Hfresh Href) as (r & s' & E & Hdef & Hinv' & Hkept & _).
    unfold mbind, st_bind. rewrite E. destruct r; (eexists _, _, _; split; [reflexivity|]); by split_and!.
  - unfold pg_batch_compressed_acquire, mbind, st_bind.
    destruct (find_compressed_ok relation s h Hinv) as (o & -> & Ho). destruct o as [a|].
    + destruct (proj1 (Ho a) eq_refl) as (_ & cr & Hcr & _).
      destruct (add_refcount_ok s h a 1 cr Hinv Hcr) as (s' & E & Hinv' & Hkept).
      { destruct (sn_held _ _ Hinv a). specialize (Hop a). lia. }
      rewrite E. eexists _, _, _. split; [reflexivity|]. by split_and!.
    + eexists _, _, _. split; [reflexivity|]. split; [done|]. split; [done|apply held_kept_refl].
  - unfold pg_batch_compressed_available, mbind, st_bind.
    destruct (find_compressed_ok relation s h Hinv) as (o & -> & Ho).
    eexists _, _, _. split; [reflexivity|]. split; [done|]. split; [done|apply held_kept_refl].
  - destruct (sn_held _ _ Hinv a) as [Hb Hnone]. destruct (sn_heap s !! a) as [cr|] eqn:Hcr; [|specialize (Hnone eq_refl); lia].
    unfold pg_batch_compressed_release, the_snapshot, mbind, st_bind, gets, deref, lift. rewrite Hcr.
    rewrite (sn_refcount _ _ Hinv _ _ Hcr). destruct (Z.ltb_spec 0 (h a)); [|lia]. cbn [assert_].
    destruct (add_refcount_ok s h a (-1) cr Hinv Hcr) as (s' & E & Hinv' & Hkept); [lia|].
    rewrite E. eexists _, _, _. split; [reflexivity|]. by split_and!.
  - eexists _, _, _. split; [reflexivity|]. split; [done|]. split; [by apply fini_ok|].
    intros a cr _ Hpos. rewrite Hop in Hpos. lia.
Qed.

Lemma init_snapshots_inv : snapshots_inv init_snapshots (λ _, 0).
Proof. constructor; cbn; try done; [constructor|intros a; rewrite lookup_empty; split; [set_solver|by intros [? ?]]]. Qed.

Lemma snapshots_reachable_inv s h : snapshots_reachable s h → snapshots_inv s h.
Proof.
  induction 1 as [|op s h r s' h' _ IH Hop E]; [apply init_snapshots_inv|].
  destruct (snapshot_op_ok op s h IH Hop) as (r1 & s1 & h1 & E1 & _ & Hinv & _). congruence.
Qed.

(** C24. The registry of snapshots is safe for scans: after any sequence of
    compressions, acquisitions, queries, releases and an unloading, the next
    operation does not go wrong (no freed snapshot is touched, no assertion
    fails), reference counts count exactly the holds, and every snapshot that
    a scan holds is still there, with its contents unchanged. *)
Theorem snapshot_registry_safe op s h :
  snapshots_reachable s h → snapshot_op_allowed op s h →
  ∃ r s' h', run_snapshot_op op s h = (r, s', h') ∧ r ≠ Undefined ∧ snapshots_inv s' h' ∧ held_kept h s s'.
Proof. intros Hr Hop. apply snapshot_op_ok; [by apply snapshots_reachable_inv|done]. Qed.

(** C21. Compressing a table installs a snapshot of it: unless a scan holds the
    previous snapshot of the same table, [pg_batch_compress] returns its size,
    the registry then finds the new snapshot for the table, and decoding the
    snapshot (batch by batch, through validity bits, deltas and plain values)
    returns the table's rows in order.  If the previous snapshot is in use the
    command fails and changes nothing. *)
Theorem compress_roundtrip s h a relation group_rows rows :
  snapshots_reachable s h → sn_heap s !! a = None → compressible relation group_rows rows →
  let in_use := ∃ b cr, sn_heap s !! b = Some cr ∧ cr_relid cr = rel_id relation ∧ 0 < h b in
  (in_use ∧ pg_batch_compress a relation group_rows rows s = (Raise ObjectInUse, s)) ∨
  (¬ in_use ∧ ∃ cr s', pg_batch_compress a relation group_rows rows s = (Ok (cr_bytes cr), s') ∧
     sn_heap s' !! a = Some cr ∧ find_compressed_relation relation s' = (Ok (Some a), s') ∧
     read_snapshot cr = Ok (slot_cells <$> rows)).
Proof.
  intros Hr Hfresh Hc in_use. pose proof (snapshots_reachable_inv _ _ Hr) as Hinv.
  destruct (compress_table_ok _ _ _ Hc) as (cr & chunks & E & Econ & Hs & Hrel & _).
  pose proof Hs as [Hnc _ Href _ _ _ _ _].
  destruct (install_ok s h a cr Hinv Hfresh Href) as (r & s' & Ei & Hdef & Hinv' & _ & Hres).
  assert (Erun : pg_batch_compress a relation group_rows rows s = (r ≫= λ _, Ok (cr_bytes cr), s')).
  { unfold pg_batch_compress, mbind, st_bind, lift. rewrite E. rewrite Ei. by destruct r. }
  rewrite Erun. destruct r as [[]|e|]; [right|left|done].
  - split.
    + intros (b & crb & Hb & Hrb & Hpos). destruct Hres as [_ Hfree]. rewrite (Hfree b crb) in Hpos; [lia|done|congruence].
    + destruct Hres as [Ha _]. exists cr, s'. split; [done|]. split; [done|].
      destruct (find_compressed_ok relation s' h Hinv') as (o & -> & Ho).
      assert (o = Some a) as ->.
      { apply Ho. split; [apply Hc|]. exists cr. split; [done|]. split; [done|]. congruence. }
      split; [done|]. rewrite (read_snapshot_ok (zlength (rel_attrs relation)) (group_rows / 64) cr chunks); [by rewrite Econ|lia|done|].
      rewrite Econ. apply Forall_fmap. destruct Hc as (_ & _ & _ & _ & Hslots & _).
      eapply Forall_impl; [exact Hslots|]. intros slot Hl. cbn. unfold slot_cells. by rewrite length_fmap.
  - destruct Hres as ([= ->] & -> & b & crb & Hb & Hrb & Hpos). split; [|done]. exists b, crb. by rewrite Hrb, Hrel.
Qed.
End reading.

(** ** Concrete tables *)

Definition sample_relation : Relation :=
  mkRelation 16384 true true [mkAttribute false false true; mkAttribute false false true].

(** 70 rows: small steps in the first column, wide ones and NULLs in the
    second. *)
Definition sample_rows : list slot_values :=
  (λ i, [(Int32GetDatum (i - 35), false); (Int32GetDatum (i * 30000000), i mod 7 =? 3)]) <$> seqZ 0 70.

Lemma sample_compressible : compressible sample_relation 64 sample_rows.
Proof. split_and!; [done|done|done|done| |done]. by apply Forall_fmap, Forall_forall. Qed.

Definition sample_quals : list PruneQual := [mkPruneQual true 2 PG_BATCH_INT4_LT (Int32GetDatum (-1), false)].

Lemma group_pruning_sound_witness :
  ∃ cr, compress_table sample_relation 64 sample_rows = Ok cr ∧
    ∀ j group, cr_groups cr !! j = Some group → ∃ m, group_may_match sample_quals group = Ok m ∧
      (m ≠ PG_BATCH_GROUP_MATCH → ∀ i slot,
        64 * sg_first_batch group ≤ Z.of_nat i < 64 * (sg_first_batch group + sg_nbatches group) →
        sample_rows !! i = Some slot → quals_hold sample_quals (slot_cells slot) = false).
Proof.
  apply (group_pruning_sound sample_relation 64 sample_rows sample_quals); [exact sample_compressible|].
  repeat constructor; cbn; lia.
Defined.

Lemma compress_holds a relation group_rows rows s h :
  run_snapshot_op (OpCompress a relation group_rows rows) s h =
    ((run_snapshot_op (OpCompress a relation group_rows rows) s h).1.1,
     (run_snapshot_op (OpCompress a relation group_rows rows) s h).1.2, h).
Proof. unfold run_snapshot_op. by destruct (pg_batch_compress a relation group_rows rows s). Qed.

(** A table compressed and acquired. *)
Lemma snapshots_sample_reachable :
  snapshots_reachable (run_snapshot_op (OpCompress 100 sample_relation 64 (take 2 sample_rows)) init_snapshots (λ _, 0)).1.2
    (λ _, 0).
Proof.
  eapply (snapshots_step (OpCompress 100 sample_relation 64 (take 2 sample_rows))); [apply snapshots_start| |].
  - split_and!; [done|done| |done]. by repeat apply Forall_cons_2; try apply Forall_nil_2.
  - apply compress_holds.
Qed.

Lemma snapshot_registry_safe_witness :
  ∃ r s' h', run_snapshot_op (OpAcquire sample_relation)
      (run_snapshot_op (OpCompress 100 sample_relation 64 (take 2 sample_rows)) init_snapshots (λ _, 0)).1.2 (λ _, 0) = (r, s', h') ∧
    r ≠ Undefined ∧ snapshots_inv s' h' ∧
    held_kept (λ _, 0) (run_snapshot_op (OpCompress 100 sample_relation 64 (take 2 sample_rows)) init_snapshots (λ _, 0)).1.2 s'.
Proof.
  apply (snapshot_registry_safe (OpAcquire sample_relation)); [exact snapshots_sample_reachable|]. intros a. done.
Defined.

Lemma compress_roundtrip_witness :
  let in_use := ∃ b cr, sn_heap init_snapshots !! b = Some cr ∧ cr_relid cr = rel_id sample_relation ∧ 0 < 0 in
  (in_use ∧ pg_batch_compress 100 sample_relation 64 sample_rows init_snapshots = (Raise ObjectInUse, init_snapshots)) ∨
  (¬ in_use ∧ ∃ cr s', pg_batch_compress 100 sample_relation 64 sample_rows init_snapshots = (Ok (cr_bytes cr), s') ∧
     sn_heap s' !! 100 = Some cr ∧ find_compressed_relation sample_relation s' = (Ok (Some 100), s') ∧
     read_snapshot cr = Ok (slot_cells <$> sample_rows)).
Proof.
  apply (compress_roundtrip init_snapshots (λ _, 0) 100 sample_relation 64 sample_rows);
    [exact snapshots_start|done|exact sample_compressible].
Defined.

(** Skipping happens: by range, and by membership. *)
Example sample_pruning :
  (cr ← compress_table sample_relation 64 sample_rows;
   foldM (λ g ms, m ← group_may_match sample_quals g; Ok (ms ++ [m])) (cr_groups cr) []) =
  Ok [PG_BATCH_GROUP_SKIP_MINMAX; PG_BATCH_GROUP_SKIP_MINMAX].
Proof. vm_compute. reflexivity. Qed.
