(* ===== verification/CompressedScan.v ===== *)
(** * Scans of compressed snapshots ([examples/compressed_tam/compressed.c])

    The batches a scan hands out and the callbacks that serve their columns:
    Arrow arrays decoded on first use, Datum arrays filled row by row.  A scan
    is the source behind its batch, so the callbacks are the operations of
    [SourceCalls] on the state [CompressedScan].

    The scan's memory context holds one active batch at a time, at an address
    of the scan; resetting the context frees the one before. *)

From S2P Require Import Prelude Words Bytes Selection Vector Kernels Bitmaps Batch Columns Expr Compressed.

Record ArrowColumn : Type := mkArrowColumn {
  (** [array.release != NULL] *)
  ar_prepared : bool;
  ar_length : Z;
  ar_null_count : Z;
  ar_offset : Z;
  (** The two buffers. *)
  ar_validity : option (list Z);
  ar_values : list Z;
}.

Record DatumColumn : Type := mkDatumColumn {
  (** [values] and [isnull], allocated together. *)
  dc_arrays : option (list Z * list bool);
  dc_valid_rows : Z;
}.

Record ActiveBatch : Type := mkActiveBatch {
  (** The address of [bridge_batch], and the number of rows of its selection. *)
  ab_address : Z;
  ab_nrows : Z;
  ab_batch : CompressedBatch;
  ab_start : Z;
  ab_arrow_columns : list ArrowColumn;
  ab_datum_columns : list DatumColumn;
}.

Record CompressedStats : Type := mkStats {
  groups_examined : Z;
  groups_skipped_minmax : Z;
  groups_skipped_membership : Z;
  rows_removed_by_source_filter : Z;
  encoded_bytes_touched : Z;
  arrow_filter_columns : Z;
  arrow_project_columns : Z;
  arrow_decoded_values : Z;
  filter_datums : Z;
  project_datums : Z;
}.

Inductive SourceScanMode : Type := PG_BATCH_TAM_BATCH | PG_BATCH_TAM_PRUNE | PG_BATCH_TAM_FILTER.

#[global] Instance scan_mode_eq_dec : EqDecision SourceScanMode.
Proof. solve_decision. Defined.

Definition PG_BATCH_ARROW_INTERFACE_NAME : string := "pg_batch.arrow.c_data".
Definition PG_BATCH_ARROW_INTERFACE_VERSION : Z := 1.

Definition compressed_ops : PgBatchOps := mkOps 900 PG_BATCH_OPS_ABI_VERSION 48 true true true true.
Definition pg_batch_compressed_arrow : PgBatchNativeInterface := mkInterface 901 PG_BATCH_ARROW_INTERFACE_VERSION 24.
Definition pg_batch_compressed_int4 : PgBatchNativeInterface := mkInterface 902 PG_BATCH_INT4_VECTOR_INTERFACE_VERSION 24.

(** The result of the string comparison needs a name. *)
Definition get_native_interface (type : PgBatchNativeType) : option PgBatchNativeInterface :=
  let name := default EmptyString (nt_name type) in
  if (nt_abi_version type =? PG_BATCH_INT4_VECTOR_INTERFACE_VERSION) &&
     String.eqb name PG_BATCH_INT4_VECTOR_INTERFACE_NAME then Some pg_batch_compressed_int4
  else if (nt_abi_version type =? PG_BATCH_ARROW_INTERFACE_VERSION) &&
          String.eqb name PG_BATCH_ARROW_INTERFACE_NAME then Some pg_batch_compressed_arrow
  else None.

Section scan.
Context `{PC : PgCore} `{BM : Bitmapsets} `{EX : PgExecutor}.

Definition empty_arrow : ArrowColumn := mkArrowColumn false 0 0 0 None [].
Definition empty_datum : DatumColumn := mkDatumColumn None 0.

Definition bool_uninit (n : Z) : list bool := Z.odd <$> palloc_uninit n.

(** A condition of the scan: the compiled filter, if it is evaluated here, the
    expression of the scalar, and what pruning sees. *)
Record SourceQual : Type := mkSourceQual {
  sq_expr : option PgBatchExpr;
  sq_column_mask : Bitmapset;
  sq_scalar_expr : option ExprState;
  sq_prune : PruneQual;
}.

Record CompressedSource : Type := mkSource {
  cs_relation : CompressedRelation;
  cs_source_attnums : list Z;
  cs_ncolumns : Z;
  cs_active : option ActiveBatch;
  cs_stats : CompressedStats;
}.

Definition set_active (s : CompressedSource) (active : option ActiveBatch) : CompressedSource :=
  mkSource (cs_relation s) (cs_source_attnums s) (cs_ncolumns s) active (cs_stats s).
Definition set_stats (s : CompressedSource) (stats : CompressedStats) : CompressedSource :=
  mkSource (cs_relation s) (cs_source_attnums s) (cs_ncolumns s) (cs_active s) stats.

Definition set_arrow (a : ActiveBatch) (columns : list ArrowColumn) : ActiveBatch :=
  mkActiveBatch (ab_address a) (ab_nrows a) (ab_batch a) (ab_start a) columns (ab_datum_columns a).
Definition set_datum (a : ActiveBatch) (columns : list DatumColumn) : ActiveBatch :=
  mkActiveBatch (ab_address a) (ab_nrows a) (ab_batch a) (ab_start a) (ab_arrow_columns a) columns.

(** The counters are [uint64]. *)
Definition count_decoded (s : CompressedStats) (n : Z) : CompressedStats :=
  mkStats (groups_examined s) (groups_skipped_minmax s) (groups_skipped_membership s) (rows_removed_by_source_filter s)
    (encoded_bytes_touched s) (arrow_filter_columns s) (arrow_project_columns s)
    ((arrow_decoded_values s + n) mod 2 ^ 64) (filter_datums s) (project_datums s).
Definition count_column (s : CompressedStats) (phase : PgBatchColumnPhase) : CompressedStats :=
  match phase with
  | PG_BATCH_COLUMN_FILTER =>
      mkStats (groups_examined s) (groups_skipped_minmax s) (groups_skipped_membership s) (rows_removed_by_source_filter s)
        (encoded_bytes_touched s) ((arrow_filter_columns s + 1) mod 2 ^ 64) (arrow_project_columns s)
        (arrow_decoded_values s) (filter_datums s) (project_datums s)
  | PG_BATCH_COLUMN_PROJECT =>
      mkStats (groups_examined s) (groups_skipped_minmax s) (groups_skipped_membership s) (rows_removed_by_source_filter s)
        (encoded_bytes_touched s) (arrow_filter_columns s) ((arrow_project_columns s + 1) mod 2 ^ 64)
        (arrow_decoded_values s) (filter_datums s) (project_datums s)
  end.
Definition count_datums (s : CompressedStats) (phase : PgBatchColumnPhase) (n : Z) : CompressedStats :=
  match phase with
  | PG_BATCH_COLUMN_FILTER =>
      mkStats (groups_examined s) (groups_skipped_minmax s) (groups_skipped_membership s) (rows_removed_by_source_filter s)
        (encoded_bytes_touched s) (arrow_filter_columns s) (arrow_project_columns s)
        (arrow_decoded_values s) ((filter_datums s + n) mod 2 ^ 64) (project_datums s)
  | PG_BATCH_COLUMN_PROJECT =>
      mkStats (groups_examined s) (groups_skipped_minmax s) (groups_skipped_membership s) (rows_removed_by_source_filter s)
        (encoded_bytes_touched s) (arrow_filter_columns s) (arrow_project_columns s)
        (arrow_decoded_values s) (filter_datums s) ((project_datums s + n) mod 2 ^ 64)
  end.

(** ** Callbacks *)

(** [bridge_batch->private_data] of the batch at an address. *)
Definition active_of (k : Z) : ST CompressedSource ActiveBatch :=
  o ← gets cs_active;
  active ← deref o;
  _ ← lift (assert_ (ab_address active =? k));
  mret active.

Definition check_range (column : Z) : ST CompressedSource unit :=
  n ← gets cs_ncolumns;
  error_if ((column <? 0) || (n <=? column)) (Elog "pg_batch column is out of range").

Definition prepare_column (k column : Z) (phase : PgBatchColumnPhase) : ST CompressedSource unit :=
  active ← active_of k;
  _ ← check_range column;
  arrow ← lift (aref (ab_arrow_columns active) column);
  if ar_prepared arrow then mret tt else
  attnums ← gets cs_source_attnums;
  source_attnum ← lift (aref attnums column);
  stored ← lift (aref (cb_columns (ab_batch active)) (source_attnum - 1));
  values ← lift (column_values (ab_batch active) stored);
  _ ← (match cc_encoding stored with
       | PG_BATCH_COMPRESS_PLAIN => mret tt
       | _ => modify (λ s, set_stats s (count_decoded (cs_stats s) (cb_nrows (ab_batch active))))
       end : ST CompressedSource unit);
  let arrow := mkArrowColumn true (ab_nrows active) (if cc_null_count stored =? 0 then 0 else -1) (ab_start active)
                 (if cc_null_count stored =? 0 then None else Some (cc_validity stored)) values in
  columns ← lift (aset (ab_arrow_columns active) column arrow);
  modify (λ s, set_stats (set_active s (Some (set_arrow active columns))) (count_column (cs_stats s) phase)).

(** The members of the set, in order: a member beyond the columns raises an
    error, so one step per column and one more are enough. *)
Fixpoint prepare_loop (fuel : nat) (k : Z) (columns : Bitmapset) (column : Z) (phase : PgBatchColumnPhase)
    : ST CompressedSource unit :=
  let column := bms_next_member columns column in
  if column <? 0 then mret tt
  else match fuel with
       | O => lift Undefined
       | S fuel =>
           _ ← prepare_column k column phase;
           prepare_loop fuel k columns column phase
       end.

(** A [NULL] set is the empty set, over which the loop does nothing. *)
Definition prepare_columns (k : Z) (columns : Bitmapset) (rows : PgBatchSelection) (phase : PgBatchColumnPhase)
    : ST CompressedSource unit :=
  active ← active_of k;
  word ← lift (aref (words rows) 0);
  if bms_is_empty columns || (word =? 0) then mret tt else
  n ← gets cs_ncolumns;
  prepare_loop (S (Z.to_nat n)) k columns (-1) phase.

Definition get_arrow_column (k column : Z) : ST CompressedSource ArrowColumn :=
  active ← active_of k;
  _ ← check_range column;
  arrow ← lift (aref (ab_arrow_columns active) column);
  _ ← error_if (negb (ar_prepared arrow)) (Elog "pg_batch column has not been prepared");
  mret arrow.

Definition get_int4_column (k column size : Z) : ST CompressedSource (option (Z * PgBatchInt4Vector)) :=
  view ← get_arrow_column k column;
  mret (Some (size, pg_batch_int4_vector_init_packed (ar_values view)
                      (if ar_null_count view =? 0 then None else ar_validity view) (ar_offset view))).

Definition pg_batch_arrow_row_is_valid (array : ArrowColumn) (row : Z) : res bool :=
  match ar_validity array with
  | None => Ok true
  | Some validity => clear ← validity_clear validity (ar_offset array + row); Ok (negb clear)
  end.

(** One turn of the [while] loop: the arrays, the rows they hold, and how many
    were added. *)
Definition fill_datum (array : ArrowColumn) (row : Z) (acc : list Z * list bool * Z * Z)
    : res (list Z * list bool * Z * Z) :=
  let '(values, isnull, valid_rows, added) := acc in
  valid ← pg_batch_arrow_row_is_valid array row;
  datum ← (if (valid : bool) then v ← aref (ar_values array) (ar_offset array + row); Ok (Int32GetDatum v) else Ok 0);
  values ← aset values row datum;
  isnull ← aset isnull row (negb valid);
  Ok (values, isnull, Z.lor valid_rows (bit64 row), added + 1).

Definition get_datum_column (k column : Z) (rows : PgBatchSelection) (phase : PgBatchColumnPhase)
    (result : PgBatchDatumVector) : ST CompressedSource PgBatchDatumVector :=
  _ ← lift (pg_batch_check_datum_vector (Some result));
  _ ← check_range column;
  _ ← prepare_column k column phase;
  view ← get_arrow_column k column;
  active ← active_of k;
  datum ← lift (aref (ab_datum_columns active) column);
  let '(values, isnull) := default (palloc_uninit (ab_nrows active), bool_uninit (ab_nrows active)) (dc_arrays datum) in
  word ← lift (aref (words rows) 0);
  '(values, isnull, valid_rows, added) ←
    lift (while_bits 64 clear_bit (Z.land word (not64 (dc_valid_rows datum))) (fill_datum view)
            (values, isnull, dc_valid_rows datum, 0));
  columns ← lift (aset (ab_datum_columns active) column (mkDatumColumn (Some (values, isnull)) valid_rows));
  _ ← modify (λ s, set_stats (set_active s (Some (set_datum active columns))) (count_datums (cs_stats s) phase added));
  mret (mkDatumVector (dv_struct_size result) (Some values) (Some isnull) (ab_nrows active)).

(** The callbacks of [compressed_ops]; another table's are not these. *)
Definition through_ops {A} (o : PgBatchOps) (m : ST CompressedSource A) : ST CompressedSource A :=
  _ ← lift (assert_ (ops_address o =? ops_address compressed_ops)); m.

#[global] Instance compressed_calls : SourceCalls := {
  src_state := CompressedSource;
  call_prepare_columns o k columns rows phase := through_ops o (prepare_columns k columns rows phase);
  call_get_datum_column o k column rows phase result := through_ops o (get_datum_column k column rows phase result);
  call_get_native_interface o type :=
    if ops_address o =? ops_address compressed_ops then get_native_interface type else None;
  call_get_int4_column i k column size :=
    if bool_decide (i = pg_batch_compressed_int4) then get_int4_column k column size else lift Undefined;
}.
End scan.
