(* ===== verification/CompressedSource.v ===== *)
(** * A compressed scan as a source of columns

    The scan keeps the promises of [BatchSource]: whatever was prepared or read
    before, the columns of its active batch hold the decoded values. *)

From S2P Require Import Prelude Words Bytes Selection Vector Kernels Int4 Bitmaps Batch Columns Expr Compressed CompressedColumns CompressedBuild CompressedScan.

Section source.
Context `{PC : PgCore} `{BM : Bitmapsets} `{EX : PgExecutor}.

(** The column of the compressed batch behind a column of the scan. *)
Definition scan_view (s : CompressedSource) (a : ActiveBatch) (column : Z) : res PgBatchInt4Vector :=
  column_view (ab_batch a) (zget 0 (cs_source_attnums s) column - 1).

(** An Arrow array over the view [v] of the whole compressed batch. *)
Definition arrow_of (a : ActiveBatch) (arrow : ArrowColumn) (v : PgBatchInt4Vector) : Prop :=
  v = PG_BATCH_INT4_PACKED (ar_values arrow) (ar_validity arrow) 0 ∧ ar_offset arrow = ab_start a ∧
  (ar_null_count arrow = 0 ↔ ar_validity arrow = None).

(** The rows of a Datum array that are filled. *)
Definition datum_of (a : ActiveBatch) (datum : DatumColumn) (v : PgBatchInt4Vector) : Prop :=
  is_u64 (dc_valid_rows datum) ∧
  match dc_arrays datum with
  | None => dc_valid_rows datum = 0
  | Some (values, isnull) => zlength values = ab_nrows a ∧ zlength isnull = ab_nrows a ∧
      ∀ row, 0 ≤ row < ab_nrows a → Z.testbit (dc_valid_rows datum) row = true →
        datum_cell values isnull row = cell v (ab_start a + row)
  end.

Record active_ok (s : CompressedSource) (a : ActiveBatch) : Prop := {
  ao_range : 0 ≤ ab_start a ∧ 1 ≤ ab_nrows a ≤ 64 ∧ ab_start a + ab_nrows a ≤ 64;
  ao_attnums : zlength (cs_source_attnums s) = cs_ncolumns s;
  ao_arrows : zlength (ab_arrow_columns a) = cs_ncolumns s;
  ao_datums : zlength (ab_datum_columns a) = cs_ncolumns s;
  ao_view column : 0 ≤ column < cs_ncolumns s → ∃ v, scan_view s a column = Ok v ∧
    1 ≤ zget 0 (cs_source_attnums s) column ∧ col_wf v (ab_start a + ab_nrows a);
  ao_arrow column arrow v : ab_arrow_columns a !! Z.to_nat column = Some arrow → 0 ≤ column →
    ar_prepared arrow = true → scan_view s a column = Ok v → arrow_of a arrow v;
  ao_datum column datum v : ab_datum_columns a !! Z.to_nat column = Some datum → 0 ≤ column →
    scan_view s a column = Ok v → datum_of a datum v;
}.

(** Same batch, same columns; only what has been prepared may differ. *)
Definition same_batch (a a' : ActiveBatch) : Prop :=
  ab_address a' = ab_address a ∧ ab_nrows a' = ab_nrows a ∧ ab_batch a' = ab_batch a ∧ ab_start a' = ab_start a.

Definition same_scan (s s' : CompressedSource) (a a' : ActiveBatch) : Prop :=
  cs_relation s' = cs_relation s ∧ cs_source_attnums s' = cs_source_attnums s ∧ cs_ncolumns s' = cs_ncolumns s ∧
  cs_active s' = Some a' ∧ same_batch a a'.

Definition is_prepared (a : ActiveBatch) (column : Z) : Prop :=
  ∃ arrow, ab_arrow_columns a !! Z.to_nat column = Some arrow ∧ ar_prepared arrow = true.

(** What a callback may do to the scan. *)
Definition served_step (s s' : CompressedSource) (a : ActiveBatch) : Prop :=
  ∃ a', same_scan s s' a a' ∧ active_ok s' a' ∧ ∀ column, is_prepared a column → is_prepared a' column.

(** A scan of the snapshot [rel] that projects the attributes [attnums]. *)
Definition compressed_serves (rel : CompressedRelation) (attnums : list Z) (s : CompressedSource) (k : Z) (o : PgBatchOps)
    (n : Z) : Prop :=
  o = compressed_ops ∧ cs_relation s = rel ∧ cs_source_attnums s = attnums ∧ ∃ a, cs_active s = Some a ∧ ab_address a = k ∧ ab_nrows a = n ∧ active_ok s a.

Definition compressed_content (s : CompressedSource) (k column row : Z) : option Z :=
  match cs_active s with
  | Some a => match scan_view s a column with Ok v => cell v (ab_start a + row) | _ => None end
  | None => None
  end.

Lemma same_scan_refl s a : cs_active s = Some a → same_scan s s a a.
Proof. intros Ha. by split_and!. Qed.

Lemma same_scan_trans s1 s2 s3 a1 a2 a3 : same_scan s1 s2 a1 a2 → same_scan s2 s3 a2 a3 → same_scan s1 s3 a1 a3.
Proof.
  intros (Hr & Ha & Hn & _ & Hb1 & Hb2 & Hb3 & Hb4) (Hr' & Ha' & Hn' & Hact & Hb1' & Hb2' & Hb3' & Hb4').
  split_and!; try congruence. split_and!; congruence.
Qed.

Lemma same_view s s' a a' column : same_scan s s' a a' → scan_view s' a' column = scan_view s a column.
Proof. intros (_ & Ha & _ & _ & _ & _ & Hb & _). unfold scan_view. by rewrite Ha, Hb. Qed.

Lemma same_scan_serves rel attnums s s' a a' k o n :
  cs_active s = Some a → same_scan s s' a a' → active_ok s' a' → compressed_serves rel attnums s k o n →
  compressed_serves rel attnums s' k o n ∧ ∀ column, (0 ≤ column < cs_ncolumns s' ↔ 0 ≤ column < cs_ncolumns s) ∧
    ∀ row, compressed_content s' k column row = compressed_content s k column row.
Proof.
  intros Hact Hsame Hok (-> & Hrel & Hatts & a0 & Hact0 & Hk & Hn & _). assert (a0 = a) as -> by congruence.
  pose proof Hsame as (Hr' & Hatts' & Hnc & Hact' & Hadr & Hnr & _ & Hst). split.
  - split; [done|]. split; [congruence|]. split; [congruence|]. exists a'. split_and!; [done|congruence|congruence|done].
  - intros column. rewrite Hnc. split; [done|]. intros row. unfold compressed_content.
    by rewrite Hact, Hact', (same_view s s' a a'), Hst by done.
Qed.

(** *** Preparing *)

Lemma column_view_inv b column v :
  column_view b column = Ok v → ∃ stored decoded, aref (cb_columns b) column = Ok stored ∧
    column_values b stored = Ok decoded ∧
    v = PG_BATCH_INT4_PACKED decoded (if cc_null_count stored =? 0 then None else Some (cc_validity stored)) 0.
Proof.
  unfold column_view. intros (stored & Hs & (decoded & Hd & [= <-])%bind_ok_inv)%bind_ok_inv. by exists stored, decoded.
Qed.

Lemma active_of_ok s k a (Q : res ActiveBatch → CompressedSource → Prop) :
  cs_active s = Some a → ab_address a = k → Q (Ok a) s → wp (active_of k) Q s.
Proof.
  intros Ha Hk HQ. unfold active_of. apply wp_gets. rewrite Ha. apply wp_deref. rewrite Hk, Z.eqb_refl.
  apply wp_lift; [done|done|]. intros _ _. by apply wp_ret.
Qed.

Lemma check_range_ok s column (Q : res unit → CompressedSource → Prop) :
  0 ≤ column < cs_ncolumns s → Q (Ok tt) s → wp (check_range column) Q s.
Proof.
  intros Hc HQ. unfold check_range. apply wp_gets.
  destruct (Z.ltb_spec column 0), (Z.leb_spec (cs_ncolumns s) column); try lia. by split.
Qed.

Lemma prepare_column_ok s a k column phase :
  cs_active s = Some a → ab_address a = k → active_ok s a → 0 ≤ column < cs_ncolumns s →
  wp (prepare_column k column phase) (λ r s', r = Ok tt ∧ ∃ a', same_scan s s' a a' ∧ active_ok s' a' ∧
    is_prepared a' column ∧ ∀ c, is_prepared a c → is_prepared a' c) s.
Proof.
  intros Ha Hk Hok Hcol. pose proof Hok as []. unfold prepare_column.
  apply wp_bind. apply (active_of_ok s k a); [done..|]. apply wp_bind. apply check_range_ok; [done|].
  destruct (lookup_lt_is_Some_2 (ab_arrow_columns a) (Z.to_nat column)) as [arrow Harrow]; [lia|].
  rewrite (aref_lookup _ _ _ (proj1 Hcol) Harrow). apply wp_lift; [done|done|]. intros _ [= <-].
  destruct (ar_prepared arrow) eqn:Hp.
  { apply wp_ret. split; [done|]. exists a. split_and!; [by apply same_scan_refl|done|by exists arrow|done]. }
  apply wp_gets. rewrite (aref_ok 0) by lia. apply wp_lift; [done|done|]. intros _ [= <-].
  destruct (ao_view0 column Hcol) as (v & Hv & Hatt & Hwf).
  destruct (column_view_inv _ _ _ Hv) as (stored & decoded & Hst & Hdec & ->).
  rewrite Hst. apply wp_lift; [done|done|]. intros _ [= <-]. rewrite Hdec. apply wp_lift; [done|done|]. intros _ [= <-].
  apply wp_bind.
  set (Qs := λ (r : res unit) (s1 : CompressedSource), r = Ok tt ∧ ∃ stats, s1 = set_stats s stats).
  apply (wp_mono _ Qs).
  { destruct (cc_encoding stored); [apply wp_ret; split; [done|]; exists (cs_stats s); by destruct s| |];
      (apply wp_modify_end; split; [done|]; eauto). }
  intros r s1 (-> & stats & ->). rewrite aset_ok by lia. apply wp_lift; [done|done|]. intros _ [= <-].
  set (new := mkArrowColumn _ _ _ _ _ _). set (columns := <[Z.to_nat column := new]> (ab_arrow_columns a)).
  apply wp_modify_end. split; [done|]. exists (set_arrow a columns).
  split; [by split_and!|]. assert (Hin : is_prepared (set_arrow a columns) column).
  { exists new. cbn. unfold columns. rewrite list_lookup_insert_eq by lia. done. }
  split_and!; [|done|].
  - constructor; try done; [cbn; unfold columns; rewrite length_insert; done|].
    intros c arr w Harr Hc Hpr Hw. cbn in Harr. unfold columns in Harr.
    destruct (decide (c = column)) as [->|].
    + rewrite list_lookup_insert_eq in Harr by lia. injection Harr as <-.
      assert (w = PG_BATCH_INT4_PACKED decoded (if cc_null_count stored =? 0 then None else Some (cc_validity stored)) 0) as ->.
      { unfold scan_view in Hw, Hv. cbn in Hw. congruence. }
      split_and!; [done|done|]. cbn. by destruct (cc_null_count stored =? 0).
    + rewrite list_lookup_insert_ne in Harr by lia. by apply (ao_arrow0 c).
  - intros c (arr & Harr & Hpr). destruct (decide (Z.to_nat c = Z.to_nat column)) as [E|].
    + unfold is_prepared in *. by rewrite E.
    + exists arr. cbn. unfold columns. by rewrite list_lookup_insert_ne by done.
Qed.

Lemma prepare_loop_ok fuel s a k columns prev phase :
  cs_active s = Some a → ab_address a = k → active_ok s a → -1 ≤ prev →
  (∀ c, bms_is_member c columns = true → 0 ≤ c < cs_ncolumns s) → cs_ncolumns s - 1 - prev < Z.of_nat fuel →
  wp (prepare_loop fuel k columns prev phase) (λ r s', r = Ok tt ∧ ∃ a', same_scan s s' a a' ∧ active_ok s' a' ∧
    (∀ c, bms_is_member c columns = true → prev < c → is_prepared a' c) ∧ ∀ c, is_prepared a c → is_prepared a' c) s.
Proof.
  revert s a prev. induction fuel as [|fuel IH]; intros s a prev Ha Hk Hok Hprev Hcols Hfuel;
    cbn [prepare_loop]; destruct (bms_next_spec columns prev) as [[E Hno]|(Hlt & Hin & Hno)].
  - rewrite E. apply wp_ret. split; [done|]. exists a. split_and!; [by apply same_scan_refl|done| |done].
    intros c Hc Hpc. by rewrite Hno in Hc.
  - specialize (Hcols _ Hin). lia.
  - rewrite E. apply wp_ret. split; [done|]. exists a. split_and!; [by apply same_scan_refl|done| |done].
    intros c Hc Hpc. by rewrite Hno in Hc.
  - set (column := bms_next_member columns prev) in *. pose proof (Hcols _ Hin) as Hcol.
    destruct (Z.ltb_spec column 0); [lia|]. apply wp_bind.
    eapply wp_mono; [by apply (prepare_column_ok s a k column phase)|].
    intros r s1 (-> & a1 & Hsame & Hok1 & Hprep & Hmono).
    pose proof Hsame as (_ & _ & Hn1 & Ha1 & Hk1 & _). eapply wp_mono; [apply (IH s1 a1 column)|].
    + done.
    + congruence.
    + done.
    + lia.
    + by rewrite Hn1.
    + rewrite Hn1. lia.
    + intros r s2 (-> & a2 & Hsame2 & Hok2 & Hprep2 & Hmono2). split; [done|]. exists a2.
      split_and!; [by eapply same_scan_trans|done| |by auto].
      intros c Hc Hpc. destruct (Z.lt_trichotomy c column) as [Hlow|[->|Hhigh]].
      * rewrite Hno in Hc by lia. done.
      * by apply Hmono2.
      * by apply Hprep2.
Qed.

Lemma prepare_columns_ok s a k columns rows phase :
  cs_active s = Some a → ab_address a = k → active_ok s a → sel_wf rows → nrows rows = ab_nrows a →
  (∀ c, bms_is_member c columns = true → 0 ≤ c < cs_ncolumns s) →
  wp (prepare_columns k columns rows phase) (λ r s', r = Ok tt ∧ ∃ a', same_scan s s' a a' ∧ active_ok s' a' ∧
    (selected_rows rows ≠ [] → ∀ c, bms_is_member c columns = true → is_prepared a' c) ∧
    ∀ c, is_prepared a c → is_prepared a' c) s.
Proof.
  intros Ha Hk Hok Hwf Hn Hcols. unfold prepare_columns. apply wp_bind. apply (active_of_ok s k a); [done..|].
  assert (Hw : 0 ≤ 0 < nwords rows) by (pose proof (wf_nwords _ Hwf); pose proof (ao_range _ _ Hok); zlia).
  rewrite word_read by done. apply wp_lift; [done|done|]. intros _ [= <-].
  destruct (bms_is_empty columns) eqn:Ee; [|destruct (Z.eqb_spec (zget 0 (words rows) 0) 0) as [Ez|Ez]]; cbn [orb].
  - apply wp_ret. split; [done|]. exists a. split_and!; [by apply same_scan_refl|done| |done].
    intros _ c Hc. pose proof (proj1 (bms_empty_spec _) Ee c). congruence.
  - apply wp_ret. split; [done|]. exists a. split_and!; [by apply same_scan_refl|done| |done].
    intros Hne. destruct Hne. destruct (selected_rows rows) as [|row l] eqn:El; [done|].
    assert (Hrow : row ∈ selected_rows rows) by (rewrite El; by left).
    apply contains_selected_rows in Hrow as [Hr Hsel]. pose proof (ao_range _ _ Hok). unfold selected in Hsel.
    replace (row / 64) with 0 in Hsel by zlia. by rewrite Ez, Z.bits_0 in Hsel.
  - apply wp_gets. eapply wp_mono; [apply (prepare_loop_ok _ s a); try done; lia|].
    intros r s' (-> & a' & Hsame & Hok' & Hprep & Hmono). split; [done|]. exists a'. split_and!; [done|done| |done].
    intros _ c Hc. apply Hprep; [done|]. apply bms_member_nonneg in Hc. lia.
Qed.

(** *** Reading *)

Lemma scan_view_packed s a column v :
  active_ok s a → 0 ≤ column < cs_ncolumns s → is_prepared a column → scan_view s a column = Ok v →
  ∃ arrow, ab_arrow_columns a !! Z.to_nat column = Some arrow ∧ ar_prepared arrow = true ∧ arrow_of a arrow v ∧
    col_wf v (ab_start a + ab_nrows a).
Proof.
  intros Hok Hc (arrow & Harrow & Hp) Hv. exists arrow. split_and!; [done|done| |].
  - by eapply (ao_arrow _ _ Hok); [exact Harrow|lia| |].
  - destruct (ao_view _ _ Hok column Hc) as (v' & Hv' & _ & Hwf). congruence.
Qed.

Lemma cell_shift values validity offset row :
  cell (PG_BATCH_INT4_PACKED values validity offset) row = cell (PG_BATCH_INT4_PACKED values validity 0) (offset + row).
Proof. done. Qed.

Lemma get_arrow_ok s a k column arrow (Q : res ArrowColumn → CompressedSource → Prop) :
  cs_active s = Some a → ab_address a = k → 0 ≤ column < cs_ncolumns s →
  ab_arrow_columns a !! Z.to_nat column = Some arrow → ar_prepared arrow = true → Q (Ok arrow) s →
  wp (get_arrow_column k column) Q s.
Proof.
  intros Ha Hk Hc Harrow Hp HQ. unfold get_arrow_column. apply wp_bind, (active_of_ok s k a); [done..|].
  apply wp_bind, check_range_ok; [done|]. rewrite (aref_lookup _ _ _ (proj1 Hc) Harrow).
  apply wp_lift; [done|done|]. intros _ [= <-]. apply wp_error_if; [by rewrite Hp|]. intros _. by apply wp_ret.
Qed.

Lemma get_int4_column_ok s a k column v size :
  cs_active s = Some a → ab_address a = k → active_ok s a → 0 ≤ column < cs_ncolumns s → is_prepared a column →
  scan_view s a column = Ok v →
  wp (get_int4_column k column size) (λ r s', s' = s ∧ ∃ v', r = Ok (Some (size, v')) ∧ col_wf v' (ab_nrows a) ∧
    ∀ row, cell v' row = cell v (ab_start a + row)) s.
Proof.
  intros Ha Hk Hok Hc Hp Hv. destruct (scan_view_packed s a column v Hok Hc Hp Hv) as (arrow & Harrow & Hpr & (-> & Eo & En) & Hwf).
  unfold get_int4_column. apply wp_bind. eapply get_arrow_ok; [done..|]. apply wp_ret. split; [done|].
  eexists. split; [reflexivity|].
  assert ((if ar_null_count arrow =? 0 then None else ar_validity arrow) = ar_validity arrow) as ->.
  { destruct (Z.eqb_spec (ar_null_count arrow) 0) as [E|]; [symmetry; by apply En|done]. }
  rewrite Eo. split; [|intros row; by rewrite cell_shift].
  pose proof (ao_range _ _ Hok). destruct (ar_validity arrow); cbn in *; intuition lia.
Qed.

Lemma row_valid_ok a arrow v row :
  arrow_of a arrow v → col_wf v (ab_start a + ab_nrows a) → 0 ≤ ab_start a → 0 ≤ row < ab_nrows a →
  pg_batch_arrow_row_is_valid arrow row = Ok (negb (cell_null v (ab_start a + row))).
Proof.
  intros (-> & Eo & _) Hwf Hst Hrow. unfold pg_batch_arrow_row_is_valid. cbn in *.
  destruct (ar_validity arrow) as [validity|]; [|done]. rewrite Eo, validity_clear_ok by lia. done.
Qed.

(** One row of the Datum arrays. *)
Lemma fill_datum_ok a arrow v row values isnull valid_rows added :
  arrow_of a arrow v → col_wf v (ab_start a + ab_nrows a) → 0 ≤ ab_start a → 0 ≤ row < ab_nrows a →
  zlength values = ab_nrows a → zlength isnull = ab_nrows a →
  ∃ values' isnull', fill_datum arrow row (values, isnull, valid_rows, added) =
      Ok (values', isnull', Z.lor valid_rows (bit64 row), added + 1) ∧
    zlength values' = ab_nrows a ∧ zlength isnull' = ab_nrows a ∧
    datum_cell values' isnull' row = cell v (ab_start a + row) ∧
    ∀ row', 0 ≤ row' → row' ≠ row → datum_cell values' isnull' row' = datum_cell values isnull row'.
Proof.
  intros Harr Hwf Hst Hrow Hvl Hnl. unfold fill_datum. rewrite (row_valid_ok a arrow v), bind_Ok by done.
  pose proof Harr as (-> & Eo & _). set (v := PG_BATCH_INT4_PACKED (ar_values arrow) (ar_validity arrow) 0) in *.
  set (p := ab_start a + row). assert (Hp : 0 ≤ p < ab_start a + ab_nrows a) by lia.
  pose proof (stored_value_s32 v _ p Hwf Hp) as Hs32.
  assert (Hread : aref (ar_values arrow) (ar_offset arrow + row) = Ok (stored_value v p)).
  { rewrite Eo. fold p. pose proof (row_value_ok v _ p Hwf Hp) as E. exact E. }
  assert ((if negb (cell_null v p) then v0 ← aref (ar_values arrow) (ar_offset arrow + row); Ok (Int32GetDatum v0) else Ok 0) =
    Ok (if cell_null v p then 0 else Int32GetDatum (stored_value v p))) as ->.
  { rewrite Hread. by destruct (cell_null v p). }
  rewrite bind_Ok, !aset_ok, !bind_Ok by lia. eexists _, _. split; [reflexivity|].
  rewrite !length_insert. split_and!; [done|done| |].
  - unfold datum_cell, cell. rewrite !zget_insert_eq, negb_involutive by lia.
    destruct (cell_null v p); [done|]. by rewrite Int32GetDatum_inv.
  - intros row' Hr' Hne. unfold datum_cell. by rewrite !zget_insert_ne by lia.
Qed.

(** The rows of [missing] join those already filled. *)
Lemma fill_loop_ok a arrow v missing values isnull valid_rows :
  arrow_of a arrow v → col_wf v (ab_start a + ab_nrows a) → 0 ≤ ab_start a → 1 ≤ ab_nrows a ≤ 64 → is_u64 missing →
  is_u64 valid_rows → (∀ row, Z.testbit missing row = true → row < ab_nrows a) →
  zlength values = ab_nrows a → zlength isnull = ab_nrows a →
  (∀ row, 0 ≤ row < ab_nrows a → Z.testbit valid_rows row = true → datum_cell values isnull row = cell v (ab_start a + row)) →
  ∃ values' isnull' valid' added, while_bits 64 clear_bit missing (fill_datum arrow) (values, isnull, valid_rows, 0) =
      Ok (values', isnull', valid', added) ∧
    zlength values' = ab_nrows a ∧ zlength isnull' = ab_nrows a ∧ is_u64 valid' ∧
    (∀ row, Z.testbit valid_rows row = true ∨ Z.testbit missing row = true → Z.testbit valid' row = true) ∧
    ∀ row, 0 ≤ row < ab_nrows a → Z.testbit valid' row = true → datum_cell values' isnull' row = cell v (ab_start a + row).
Proof.
  intros Harr Hwf Hst Hn Hmu Hvu Hlow Hvl Hnl Hold. rewrite while_bits_spec by (done || apply clear_bit_lowest).
  destruct (foldM_inv (λ pre '(values, isnull, valid, added), zlength values = ab_nrows a ∧ zlength isnull = ab_nrows a ∧
      is_u64 valid ∧ (∀ row, Z.testbit valid_rows row = true ∨ row ∈ pre → Z.testbit valid row = true) ∧
      ∀ row, 0 ≤ row < ab_nrows a → Z.testbit valid row = true → datum_cell values isnull row = cell v (ab_start a + row))
    (fill_datum arrow) (bits_of missing) (values, isnull, valid_rows, 0)) as ([[[values' isnull'] valid'] added] & -> & Hvl' & Hnl' & Hvu' & Hset & Hcells).
  - split_and!; [done|done|done| |done]. intros row [?|?%elem_of_nil]; done.
  - intros pre row post [[[vals nulls] valid] added] Hbits (Hvl' & Hnl' & Hvu' & Hset & Hcells).
    assert (Hin : row ∈ bits_of missing) by (rewrite Hbits; set_solver). pose proof (bits_of_lt _ _ Hin) as Hr64.
    apply elem_of_bits_of in Hin; [|done].
    destruct (fill_datum_ok a arrow v row vals nulls valid added) as (vals' & nulls' & -> & Hl1 & Hl2 & Hnew & Hkeep);
      [done|done|done|split; [lia|by apply Hlow]|done|done|].
    eexists; split; [reflexivity|]. split_and!; [done|done|apply is_u64_lor; [done|apply is_u64_bit64]| |].
    + intros r Hr. rewrite Z.lor_spec, testbit_bit64 by lia. destruct (Z.eqb_spec r row) as [->|Hne]; [by rewrite orb_true_r|].
      rewrite orb_false_r. apply Hset. destruct Hr as [?|Hr]; [by left|right]. set_solver.
    + intros r Hr Hbit. destruct (decide (r = row)) as [->|Hne]; [done|]. rewrite Hkeep by lia. apply Hcells; [done|].
      rewrite Z.lor_spec, testbit_bit64 in Hbit by lia. destruct (Z.eqb_spec r row); [done|]. by rewrite orb_false_r in Hbit.
  - exists values', isnull', valid', added. split_and!; [done..| |done]. intros row [?|?]; apply Hset; [by left|right].
    by apply elem_of_bits_of.
Qed.

Lemma datum_arrays_ok a datum v :
  datum_of a datum v → 1 ≤ ab_nrows a →
  ∃ values isnull, default (palloc_uninit (ab_nrows a), bool_uninit (ab_nrows a)) (dc_arrays datum) = (values, isnull) ∧
    zlength values = ab_nrows a ∧ zlength isnull = ab_nrows a ∧
    ∀ row, 0 ≤ row < ab_nrows a → Z.testbit (dc_valid_rows datum) row = true →
      datum_cell values isnull row = cell v (ab_start a + row).
Proof.
  intros [Hu Hd] Hn. destruct (dc_arrays datum) as [[values isnull]|].
  - exists values, isnull. split; [done|]. done.
  - exists (palloc_uninit (ab_nrows a)), (bool_uninit (ab_nrows a)). unfold bool_uninit.
    rewrite length_fmap, palloc_uninit_length by lia. split_and!; [done|done|done|].
    intros row _. by rewrite Hd, Z.bits_0.
Qed.

Lemma get_datum_column_ok s a k column rows phase result v :
  cs_active s = Some a → ab_address a = k → active_ok s a → 0 ≤ column < cs_ncolumns s →
  sel_wf rows → sel_clean rows → nrows rows = ab_nrows a → PG_BATCH_DATUM_VECTOR_MIN_SIZE ≤ dv_struct_size result →
  scan_view s a column = Ok v →
  wp (get_datum_column k column rows phase result) (λ r s', ∃ values isnull a',
    r = Ok (mkDatumVector (dv_struct_size result) (Some values) (Some isnull) (ab_nrows a)) ∧
    same_scan s s' a a' ∧ active_ok s' a' ∧ zlength values = ab_nrows a ∧ zlength isnull = ab_nrows a ∧
    ∀ row, row ∈ selected_rows rows → datum_cell values isnull row = cell v (ab_start a + row)) s.
Proof.
  intros Ha Hk Hok Hc Hwf Hclean Hn Hsize Hv. unfold get_datum_column, pg_batch_check_datum_vector.
  destruct (Z.ltb_spec (dv_struct_size result) PG_BATCH_DATUM_VECTOR_MIN_SIZE); [lia|].
  apply wp_lift; [done|done|]. intros _ _. apply wp_bind, check_range_ok; [done|]. apply wp_bind.
  eapply wp_mono; [by apply (prepare_column_ok s a k column phase)|].
  intros r s1 (-> & a1 & Hsame & Hok1 & Hprep & _).
  pose proof Hsame as (_ & _ & Hn1 & Ha1 & Hk1 & Hnr1 & _ & Hst1). rewrite <- Hn1 in Hc.
  pose proof (same_view _ _ _ _ column Hsame) as Hsv. rewrite Hv in Hsv.
  destruct (scan_view_packed s1 a1 column v Hok1 Hc Hprep Hsv) as (arrow & Harrow & Hpr & Harr & Hcol).
  apply wp_bind. eapply get_arrow_ok; [done|congruence|done..|]. apply wp_bind, (active_of_ok s1 k a1); [done|congruence|].
  pose proof Hok1 as []. destruct (lookup_lt_is_Some_2 (ab_datum_columns a1) (Z.to_nat column)) as [datum Hdatum]; [lia|].
  rewrite (aref_lookup _ _ _ (proj1 Hc) Hdatum). apply wp_lift; [done|done|]. intros _ [= <-].
  pose proof (ao_datum0 _ _ _ Hdatum (proj1 Hc) Hsv) as Hd. pose proof Hd as [Hu _].
  destruct (datum_arrays_ok a1 datum v Hd) as (values & isnull & -> & Hvl & Hnl & Hold); [lia|].
  assert (Hw0 : 0 ≤ 0 < nwords rows) by (pose proof (wf_nwords _ Hwf); zlia).
  rewrite word_read by done. apply wp_lift; [done|done|]. intros _ [= <-].
  pose proof (word_u64 rows 0 Hwf Hw0) as Hwu. set (word := zget 0 (words rows) 0) in *.
  set (missing := Z.land word (not64 (dc_valid_rows datum))).
  assert (Hmu : is_u64 missing) by (apply is_u64_land; [done|by apply is_u64_not64]).
  assert (Hword : ∀ row, 0 ≤ row < 64 → Z.testbit word row = selected rows row).
  { intros row Hr. pose proof (selected_at rows 0 row Hr) as E. by rewrite Z.mul_0_l, Z.add_0_l in E. }
  destruct (fill_loop_ok a1 arrow v missing values isnull (dc_valid_rows datum)) as
    (values' & isnull' & valid' & added & -> & Hvl' & Hnl' & Hvu' & Hset & Hcells); [done|done|lia|lia|done|done| |done|done|done|].
  { intros row Hbit. unfold missing in Hbit. rewrite Z.land_spec in Hbit. apply andb_true_iff in Hbit as [Hbit _].
    destruct (Z.lt_ge_cases row (ab_nrows a1)); [done|]. assert (Hr64 : 0 ≤ row < 64).
    { destruct (decide (0 ≤ row < 64)); [done|]. by rewrite testbit_out in Hbit by (done || lia). }
    rewrite Hword, Hclean in Hbit by (pose proof (wf_nwords _ Hwf); zlia). done. }
  apply wp_lift; [done|done|]. intros _ [= <-]. rewrite aset_ok by lia. apply wp_lift; [done|done|]. intros _ [= <-].
  set (columns := <[Z.to_nat column := _]> _). apply wp_modify, wp_ret. exists values', isnull', (set_datum a1 columns).
  split; [by rewrite Hnr1|]. split; [eapply same_scan_trans; [done|by split_and!]|]. split_and!; [|lia|lia|].
  - constructor; try done; [cbn; unfold columns; rewrite length_insert; done|].
    intros c d w Hd' Hc' Hw. cbn in Hd'. unfold columns in Hd'. destruct (decide (c = column)) as [->|].
    + rewrite list_lookup_insert_eq in Hd' by lia. injection Hd' as <-.
      assert (w = v) as -> by (unfold scan_view in *; cbn in Hw; congruence). split; [done|]. by split_and!.
    + rewrite list_lookup_insert_ne in Hd' by lia. by apply (ao_datum0 c).
  - intros row [Hrow Hsel]%contains_selected_rows. rewrite <- Hst1. apply Hcells; [lia|]. apply Hset.
    assert (Hr64 : 0 ≤ row < 64) by lia. rewrite <- Hword in Hsel by done. unfold missing.
    rewrite Z.land_spec, Hsel, testbit_not64. destruct (Z.testbit (dc_valid_rows datum) row); [by left|right].
    by destruct (Z.leb_spec 0 row), (Z.ltb_spec row 64); try lia.
Qed.

(** ** The instance *)

Lemma compressed_extends rel attnums s s' a a' k o n :
  cs_active s = Some a → same_scan s s' a a' → active_ok s' a' → compressed_serves rel attnums s k o n →
  compressed_serves rel attnums s' k o n ∧ ∀ c, (0 ≤ c < cs_ncolumns s' ↔ 0 ≤ c < cs_ncolumns s) ∧
    ∀ row, compressed_content s' k c row = compressed_content s k c row.
Proof. apply same_scan_serves. Qed.

Lemma through_ok {A} (m : ST CompressedSource A) s : through_ops compressed_ops m s = m s.
Proof. done. Qed.

Lemma content_view s a column v row :
  cs_active s = Some a → scan_view s a column = Ok v → compressed_content s (ab_address a) column row = cell v (ab_start a + row).
Proof. intros Ha Hv. unfold compressed_content. by rewrite Ha, Hv. Qed.

#[refine] Instance compressed_source (rel : CompressedRelation) (attnums : list Z) : BatchSource := {
  serves := compressed_serves rel attnums;
  available (s : CompressedSource) _ column := 0 ≤ column < cs_ncolumns s;
  content := compressed_content;
  prepared (s : CompressedSource) _ column rows :=
    selected_rows rows = [] ∨ ∃ a, cs_active s = Some a ∧ is_prepared a column;
}.
Proof.
  - by intros st k o n [-> _].
  - intros st k o n cols rows ph (-> & _ & _ & a & Ha & Hk & Hn & Hok) Hwf Hnr Hcols _.
    destruct (prepare_columns_ok st a k cols rows ph) as [_ (E & a' & Hsame & Hok' & Hprep & _)]; try done; [congruence|].
    exists (prepare_columns k cols rows ph st).2. cbn [call_prepare_columns compressed_calls]. rewrite through_ok.
    split; [by rewrite <- E, <- surjective_pairing|]. split.
    + intros k' o' n' Hs'. eapply compressed_extends; [done|exact Hsame|done|done].
    + intros c Hc. destruct (decide (selected_rows rows = [])) as [|Hne]; [by left|right]. exists a'.
      split; [by destruct Hsame as (_ & _ & _ & ? & _)|]. by apply Hprep.
  - intros st k o n c rows (-> & _) _. done.
  - intros st k o n c rows ph result (-> & _ & _ & a & Ha & Hk & Hn & Hok) Hc Hwf Hclean Hnr Hsize.
    destruct (ao_view _ _ Hok c Hc) as (v & Hv & _ & _).
    destruct (get_datum_column_ok st a k c rows ph result v) as [_ (values & isnull & a' & E & Hsame & Hok' & Hvl & Hnl & Hcells)];
      try done; [congruence|].
    exists values, isnull, (ab_nrows a), (get_datum_column k c rows ph result st).2.
    cbn [call_get_datum_column compressed_calls]. rewrite through_ok.
    split; [by rewrite <- E, <- surjective_pairing|]. split.
    + intros k' o' n' Hs'. eapply compressed_extends; [done|exact Hsame|done|done].
    + split_and!; [lia|lia|lia|]. intros row Hrow. rewrite Hcells by done. rewrite <- Hk. symmetry. by apply content_view.
  - intros o o' t t' Ho Hn Hv. cbn [call_get_native_interface compressed_calls]. unfold get_native_interface. by rewrite Ho, Hn, Hv.
  - intros st k o n i (-> & _) Hi. cbv in Hi. by injection Hi as <-.
  - intros st k o n c rows i (-> & _ & _ & a & Ha & Hk & Hn & Hok) Hc Hprep Hwf Hnr Hne Hi.
    destruct Hprep as [|(a0 & Ha0 & Hprep)]; [done|]. assert (a0 = a) as -> by congruence.
    cbv in Hi. injection Hi as <-. destruct (ao_view _ _ Hok c Hc) as (v & Hv & _ & _).
    destruct (get_int4_column_ok st a k c v sizeof_PgBatchInt4Vector) as [_ (Est & v' & E & Hwf' & Hcells)]; try done.
    exists (Some (sizeof_PgBatchInt4Vector, v')), st. cbn [call_get_int4_column compressed_calls].
    split; [|split; [by intros k' o' n' Hs'|]].
    + rewrite bool_decide_eq_true_2 by done. rewrite (surjective_pairing (get_int4_column _ _ _ _)). by rewrite E, Est.
    + split; [done|]. split; [by rewrite <- Hn|]. intros row _. rewrite Hcells, <- Hk. symmetry. by apply content_view.
Defined.
End source.
