(* ===== verification/CompressedNext.v ===== *)
(** * Scanning a compressed snapshot ([examples/compressed_tam/compressed.c],
      [tableam.c])

    [pg_batch_compressed_scan_next] walks the storage groups of a snapshot,
    skips those the prune conditions exclude, loads the batches of the others
    in pieces of at most the requested size, filters them and publishes the
    first piece with a row left.  [compressed_getnextslot] finds the scan behind
    a slot and asks it for the next batch.

    A scan reaches the bridge it publishes on, the adapter's interface cache
    and its own columns.  Its batch lives in one store with all other batches:
    the bridge and the column callbacks see the same object. *)

From S2P Require Import Prelude Words Bytes Selection Vector Kernels Bitmaps Batch Columns Bridge Expr Compressed CompressedScan.

Inductive ScanDirection : Type := BackwardScanDirection | NoMovementScanDirection | ForwardScanDirection.

Definition PG_BATCH_TAM_SOURCE_NAME : string := "pg_batch_compressed_tam".
Definition PG_BATCH_ALL_ROWS : Z := 2 ^ 64 - 1.
Definition sizeof_PgBatch : Z := 64.

Definition count_examined (s : CompressedStats) : CompressedStats :=
  mkStats ((groups_examined s + 1) mod 2 ^ 64) (groups_skipped_minmax s) (groups_skipped_membership s)
    (rows_removed_by_source_filter s) (encoded_bytes_touched s) (arrow_filter_columns s) (arrow_project_columns s)
    (arrow_decoded_values s) (filter_datums s) (project_datums s).
Definition count_skipped (s : CompressedStats) (m : GroupMatch) : CompressedStats :=
  match m with
  | PG_BATCH_GROUP_SKIP_MINMAX =>
      mkStats (groups_examined s) ((groups_skipped_minmax s + 1) mod 2 ^ 64) (groups_skipped_membership s)
        (rows_removed_by_source_filter s) (encoded_bytes_touched s) (arrow_filter_columns s) (arrow_project_columns s)
        (arrow_decoded_values s) (filter_datums s) (project_datums s)
  | _ =>
      mkStats (groups_examined s) (groups_skipped_minmax s) ((groups_skipped_membership s + 1) mod 2 ^ 64)
        (rows_removed_by_source_filter s) (encoded_bytes_touched s) (arrow_filter_columns s) (arrow_project_columns s)
        (arrow_decoded_values s) (filter_datums s) (project_datums s)
  end.
Definition count_removed (s : CompressedStats) (n : Z) : CompressedStats :=
  mkStats (groups_examined s) (groups_skipped_minmax s) (groups_skipped_membership s)
    ((rows_removed_by_source_filter s + n) mod 2 ^ 64) (encoded_bytes_touched s) (arrow_filter_columns s)
    (arrow_project_columns s) (arrow_decoded_values s) (filter_datums s) (project_datums s).
Definition count_bytes (s : CompressedStats) (n : Z) : CompressedStats :=
  mkStats (groups_examined s) (groups_skipped_minmax s) (groups_skipped_membership s)
    (rows_removed_by_source_filter s) ((encoded_bytes_touched s + n) mod 2 ^ 64) (arrow_filter_columns s)
    (arrow_project_columns s) (arrow_decoded_values s) (filter_datums s) (project_datums s).

Section next.
Context `{PC : PgCore} `{BM : Bitmapsets} `{EX : PgExecutor} (target : simd_target).

(** The cursor of the walk. *)
Record ScanCursor : Type := mkCursor {
  group_index : Z;
  batch_index : Z;
  batch_row : Z;
  group_ready : bool;
  prune_quals_ready : bool;
}.

Record CompressedScan : Type := mkScan {
  (** The globals of the bridge and of the adapter. *)
  sc_bridge : Bridge;
  sc_native_interfaces : list NativeCacheEntry;
  sc_last_native_interface : option NativeCacheEntry;
  sc_source : CompressedSource;
  (** Where the scan is, and where its batches are: an allocation set that was
      reset hands out its first block again. *)
  sc_address : Z;
  sc_batch_address : Z;
  (** The binding whose request [request] points to. *)
  sc_request : Z;
  sc_econtext : ExprContext;
  sc_quals : list SourceQual;
  sc_mode : SourceScanMode;
  sc_cursor : ScanCursor;
}.

Definition with_bridge (s : CompressedScan) b := mkScan b (sc_native_interfaces s) (sc_last_native_interface s) (sc_source s)
  (sc_address s) (sc_batch_address s) (sc_request s) (sc_econtext s) (sc_quals s) (sc_mode s) (sc_cursor s).
Definition with_source (s : CompressedScan) src := mkScan (sc_bridge s) (sc_native_interfaces s) (sc_last_native_interface s) src
  (sc_address s) (sc_batch_address s) (sc_request s) (sc_econtext s) (sc_quals s) (sc_mode s) (sc_cursor s).
Definition set_quals (s : CompressedScan) q := mkScan (sc_bridge s) (sc_native_interfaces s) (sc_last_native_interface s) (sc_source s)
  (sc_address s) (sc_batch_address s) (sc_request s) (sc_econtext s) q (sc_mode s) (sc_cursor s).
Definition set_cursor (s : CompressedScan) c := mkScan (sc_bridge s) (sc_native_interfaces s) (sc_last_native_interface s) (sc_source s)
  (sc_address s) (sc_batch_address s) (sc_request s) (sc_econtext s) (sc_quals s) (sc_mode s) c.

Definition set_group_ready (c : ScanCursor) r := mkCursor (group_index c) (batch_index c) (batch_row c) r (prune_quals_ready c).
Definition set_position (c : ScanCursor) b r := mkCursor (group_index c) b r (group_ready c) (prune_quals_ready c).

Definition Scan : Type → Type := ST CompressedScan.

(** The scan as the bridge, the expressions and the callbacks see it. *)
Definition world_of (s : CompressedScan) : World :=
  mkWorld (batches (sc_bridge s)) (sc_native_interfaces s) (sc_last_native_interface s) (sc_source s).
Definition set_world (s : CompressedScan) (w : World) : CompressedScan :=
  mkScan (with_batches (sc_bridge s) (w_batches w)) (native_interfaces w) (last_native_interface w) (w_source w)
    (sc_address s) (sc_batch_address s) (sc_request s) (sc_econtext s) (sc_quals s) (sc_mode s) (sc_cursor s).

Definition in_world {A} (m : W A) : Scan A := λ s, let r := m (world_of s) in (r.1, set_world s r.2).
Definition in_bridge {A} (m : M A) : Scan A := λ s, let r := m (sc_bridge s) in (r.1, with_bridge s r.2).
Definition in_scan {A} (m : ST CompressedSource A) : Scan A := λ s, let r := m (sc_source s) in (r.1, with_source s r.2).

Definition count (f : CompressedStats → CompressedStats) : Scan unit :=
  modify (λ s, with_source s (set_stats (sc_source s) (f (cs_stats (sc_source s))))).
Definition move (f : ScanCursor → ScanCursor) : Scan unit := modify (λ s, set_cursor s (f (sc_cursor s))).
Definition cursor : Scan ScanCursor := gets sc_cursor.

(** ** Batches *)

(** The release callback of [compressed_ops]: the arrays of the active batch
    are marked as released, and no call reaches them any more. *)
Definition release_batch (k : Z) : ST CompressedSource unit :=
  _ ← active_of k;
  modify (λ s, CompressedScan.set_active s None).

Definition load_batch (stored : CompressedBatch) (start nrows : Z) : Scan unit :=
  src ← gets sc_source;
  _ ← lift (assert_ (match cs_active src with None => true | Some _ => false end));
  k ← gets sc_batch_address;
  _ ← modify (λ s, with_bridge s (with_batches (sc_bridge s) (delete k (batches (sc_bridge s)))));
  _ ← lift (assert_ ((0 <=? PG_BATCH_SIZE - nrows) && (PG_BATCH_SIZE - nrows <? 64)));
  let rows := Z.shiftr PG_BATCH_ALL_ROWS (PG_BATCH_SIZE - nrows) in
  let bt := mkBatch PG_BATCH_ABI_VERSION sizeof_PgBatch (mkSelection nrows 1 [rows]) (cr_relid (cs_relation src))
              (Some compressed_ops) k 0 in
  _ ← modify (λ s, with_bridge s (with_batches (sc_bridge s) (<[k := bt]> (batches (sc_bridge s)))));
  modify (λ s, with_source s (CompressedScan.set_active (sc_source s)
    (Some (mkActiveBatch k nrows stored start (replicate (Z.to_nat (cs_ncolumns src)) empty_arrow)
             (replicate (Z.to_nat (cs_ncolumns src)) empty_datum))))).

(** [active->selection], through the batch that points to it. *)
Definition active_selection : Scan Z :=
  k ← gets sc_batch_address;
  bt ← in_bridge (batch_at k);
  lift (aref (words (selection bt)) 0).

Definition set_qual_expr (q : SourceQual) (e : PgBatchExpr) : SourceQual :=
  mkSourceQual (Some e) (sq_column_mask q) (sq_scalar_expr q) (sq_prune q).
Definition set_qual_scalar (q : SourceQual) (value : option Z) : SourceQual :=
  mkSourceQual (sq_expr q) (sq_column_mask q) (sq_scalar_expr q)
    (mkPruneQual (pq_prunable (sq_prune q)) (pq_attnum (sq_prune q)) (pq_op (sq_prune q))
       match value with Some v => (v, false) | None => (0, true) end).

(** One condition of [filter_batch]. *)
Definition filter_qual (q : Z) : Scan unit :=
  quals ← gets sc_quals;
  qual ← lift (aref quals q);
  match sq_expr qual with
  | None => mret tt
  | Some expr =>
      k ← gets sc_batch_address;
      bt ← in_bridge (batch_at k);
      _ ← in_scan (prepare_columns k (sq_column_mask qual) (selection bt) PG_BATCH_COLUMN_FILTER);
      econtext ← gets sc_econtext;
      expr ← in_world (pg_batch_expr_apply_filter target
                         (pg_batch_expr_bind expr (Some k) (Some econtext) PG_BATCH_COLUMN_FILTER) true);
      quals ← lift (aset quals q (set_qual_expr qual expr));
      modify (λ s, set_quals s quals)
  end.

Fixpoint filter_loop (quals : list Z) : Scan unit :=
  match quals with
  | [] => mret tt
  | q :: quals =>
      rows ← active_selection;
      if rows =? 0 then mret tt else _ ← filter_qual q; filter_loop quals
  end.

Definition filter_batch : Scan unit :=
  initial ← active_selection;
  quals ← gets sc_quals;
  _ ← filter_loop (seqZ 0 (zlength quals));
  rows ← active_selection;
  count (λ s, count_removed s (pg_popcount64 initial - pg_popcount64 rows)).

(** ** The walk *)

Definition prepare_qual (econtext : ExprContext) (q : Z) (quals : list SourceQual) : res (list SourceQual) :=
  qual ← aref quals q;
  match sq_scalar_expr qual with
  | None => Ok quals
  | Some scalar => value ← ExecEvalExpr scalar econtext; aset quals q (set_qual_scalar qual value)
  end.

(** [ResetExprContext] frees values no one reads any more. *)
Definition prepare_prune_quals : Scan unit :=
  econtext ← gets sc_econtext;
  quals ← gets sc_quals;
  quals ← lift (foldM (prepare_qual econtext) (seqZ 0 (zlength quals)) quals);
  _ ← modify (λ s, set_quals s quals);
  move (λ c, mkCursor (group_index c) (batch_index c) (batch_row c) (group_ready c) true).

(** The test of a group, once per group. *)
Definition enter_group (group : StorageGroup) (end_batch : Z) : Scan unit :=
  mode ← gets sc_mode;
  m ← (match mode with
       | PG_BATCH_TAM_BATCH => mret PG_BATCH_GROUP_MATCH
       | _ =>
           _ ← count count_examined;
           quals ← gets sc_quals;
           lift (group_may_match (sq_prune <$> quals) group)
       end : Scan GroupMatch);
  _ ← move (λ c, set_group_ready c true);
  match m with
  | PG_BATCH_GROUP_MATCH => mret tt
  | _ => _ ← count (λ s, count_skipped s m); move (λ c, set_position c end_batch 0)
  end.

(** The next piece of a batch: true if it was published. *)
Definition scan_batch (binding : Z) : Scan bool :=
  c ← cursor;
  compressed ← gets (λ s, cs_relation (sc_source s));
  stored ← lift (aref (cr_batches compressed) (batch_index c));
  let start := batch_row c in
  bd ← (request ← gets sc_request; in_bridge (binding_at request));
  let nrows := Z.min (if 0 <? max_rows (request bd) then Z.min (max_rows (request bd)) PG_BATCH_SIZE else PG_BATCH_SIZE)
                 (cb_nrows stored - start) in
  _ ← load_batch stored start nrows;
  _ ← (if start =? 0 then count (λ s, count_bytes s (cb_bytes stored)) else mret tt);
  _ ← move (λ c, if start + nrows =? cb_nrows stored then set_position c (batch_index c + 1) 0
                 else set_position c (batch_index c) (start + nrows));
  mode ← gets sc_mode;
  _ ← (match mode with PG_BATCH_TAM_FILTER => filter_batch | _ => mret tt end);
  rows ← active_selection;
  k ← gets sc_batch_address;
  if rows =? 0 then _ ← in_scan (release_batch k); mret false
  else _ ← in_bridge (publish_batch binding (Some k)); mret true.

(** Every turn loads a row or leaves a group. *)
Fixpoint scan_loop (fuel : nat) (binding : Z) : Scan bool :=
  compressed ← gets (λ s, cs_relation (sc_source s));
  c ← cursor;
  if negb (group_index c <? cr_ngroups compressed) then mret false else
  match fuel with
  | O => lift Undefined
  | S fuel =>
      group ← lift (aref (cr_groups compressed) (group_index c));
      let end_batch := sg_first_batch group + sg_nbatches group in
      _ ← lift (assert_ (in_s32 end_batch));
      _ ← (if group_ready c then mret tt else enter_group group end_batch);
      c ← cursor;
      if batch_index c <? end_batch then
        published ← scan_batch binding;
        if (published : bool) then mret true else scan_loop fuel binding
      else
        _ ← move (λ c, mkCursor (group_index c + 1) (batch_index c) (batch_row c) false (prune_quals_ready c));
        scan_loop fuel binding
  end.

Definition stored_rows (compressed : CompressedRelation) : Z := foldr (λ b n, cb_nrows b + n) 0 (cr_batches compressed).

Definition pg_batch_compressed_scan_next (binding : Z) : Scan bool :=
  c ← cursor;
  _ ← (if prune_quals_ready c then mret tt else prepare_prune_quals);
  compressed ← gets (λ s, cs_relation (sc_source s));
  scan_loop (Z.to_nat (stored_rows compressed + cr_ngroups compressed)) binding.

(** [source.c] *)
Definition rescan : Scan unit := move (λ _, mkCursor 0 0 0 false false).

(** [tableam.c]; other slots are scanned by the heap. *)
Definition compressed_getnextslot (heap_getnextslot : Scan bool) (direction : ScanDirection) (slot : Z) : Scan bool :=
  binding ← in_bridge (find_binding slot);
  '(source_state, source_name) ← in_bridge (get_bound_source binding);
  if negb (match source_name with Some name => String.eqb name PG_BATCH_TAM_SOURCE_NAME | None => false end)
  then heap_getnextslot
  else
    _ ← error_if (match direction with ForwardScanDirection => false | _ => true end) FeatureNotSupported;
    _ ← error_if (source_state =? 0) (Elog "pg_batch TAM request has no source state");
    address ← gets sc_address;
    _ ← lift (assert_ (source_state =? address));
    binding ← deref binding;
    pg_batch_compressed_scan_next binding.
End next.
