(* ===== verification/CompressedWalk.v ===== *)
(** * What a scan of a compressed snapshot has to deliver

    The rows a scan keeps and those it may leave out, its position as a list of
    rows still to come, and the invariant of its state. *)

From S2P Require Import Prelude Words Bytes Selection Vector Kernels Int4 Bitmaps Batch Columns Bridge BridgeInv Expr ExprProps ExprEval ExprSpec ExprContract Compressed CompressedColumns CompressedBuild CompressedTable CompressedProps CompressedScan CompressedSource CompressedNext.

Section walk.
Context `{PC : PgCore} `{BM : Bitmapsets} `{EX : PgExecutor} `{SX : !ScalarExecutor}.

(** ** Conditions *)

(** A condition of the scan: the tree of its exact filter, and what pruning
    uses. *)
Record QualSpec : Type := mkQualSpec {
  qs_filter : option ExprNode;
  qs_scalar : option ExprState;
  qs_prunable : bool;
  qs_attnum : Z;
  qs_op : PgBatchInt4Op;
}.

Section conditions.
Context (attnums : list Z) (resolve : VarNode → Z) (ec : ExprContext).

(** A row through the columns of the scan; other columns are attribute 0. *)
Definition scan_cell (cells : row_cells) (column : Z) : option Z :=
  let attnum := zget 0 attnums column in if attnum <? 1 then None else cell_at (attnum - 1) cells.

(** The scalar executor's answer for a row. *)
Definition row_outcome (node : ExprNode) (cells : row_cells) : res (option Z) :=
  eval node (at_row ec (λ v, scan_cell cells (resolve v))).

Definition accepts (node : ExprNode) (cells : row_cells) : bool := bool_decide (row_outcome node cells = Ok (Some 1)).

Definition filter_accepts (cells : row_cells) (q : QualSpec) : bool :=
  match qs_filter q with Some node => accepts node cells | None => true end.

(** The exact filters accept the row; without filtering every row is kept. *)
Definition kept (mode : SourceScanMode) (specs : list QualSpec) (cells : row_cells) : bool :=
  match mode with PG_BATCH_TAM_FILTER => forallb (filter_accepts cells) specs | _ => true end.

(** The pruning side of a condition, its scalar evaluated. *)
Definition prune_of (q : QualSpec) : res PruneQual :=
  match qs_scalar q with
  | None => Ok (mkPruneQual (qs_prunable q) (qs_attnum q) (qs_op q) (0, false))
  | Some scalar =>
      value ← ExecEvalExpr scalar ec;
      Ok (mkPruneQual (qs_prunable q) (qs_attnum q) (qs_op q) match value with Some v => (v, false) | None => (0, true) end)
  end.

Fixpoint prune_quals (specs : list QualSpec) : res (list PruneQual) :=
  match specs with
  | [] => Ok []
  | q :: specs => p ← prune_of q; l ← prune_quals specs; Ok (p :: l)
  end.

(** Pruning may leave a row out only if this is false. *)
Definition candidate (mode : SourceScanMode) (prunes : list PruneQual) (cells : row_cells) : bool :=
  match mode with PG_BATCH_TAM_BATCH => true | _ => quals_hold prunes cells end.

(** The rows the query can see. *)
Definition wanted (mode : SourceScanMode) (specs : list QualSpec) (prunes : list PruneQual) (cells : row_cells) : bool :=
  kept mode specs cells && candidate mode prunes cells.

(** The scan's condition [x] is [q], however often evaluated. *)
Definition qual_ok (q : QualSpec) (x : SourceQual) : Prop :=
  match qs_filter q, sq_expr x with
  | None, None => True
  | Some node, Some e => expr_ok resolve node true e ∧ 0 ≤ e_column e < zlength attnums ∧
      ∀ c, bms_is_member c (sq_column_mask x) = true → c = e_column e
  | _, _ => False
  end ∧
  sq_scalar_expr x = qs_scalar q ∧ pq_prunable (sq_prune x) = qs_prunable q ∧ pq_attnum (sq_prune x) = qs_attnum q ∧
  pq_op (sq_prune x) = qs_op q ∧ (qs_scalar q = None → pq_scalar (sq_prune x) = (0, false)).

(** An evaluation that ends the scan. *)
Definition scan_raises (specs : list QualSpec) (rows : list row_cells) : Prop :=
  (∃ q scalar err, q ∈ specs ∧ qs_scalar q = Some scalar ∧ ExecEvalExpr scalar ec = Raise err) ∨
  ∃ q node cells err, q ∈ specs ∧ qs_filter q = Some node ∧ cells ∈ rows ∧ row_outcome node cells = Raise err.

(** *** Preparing the prune conditions *)

Lemma prepare_qual_ok q x quals i :
  qual_ok q x → quals !! Z.to_nat i = Some x → 0 ≤ i →
  match prepare_qual ec i quals with
  | Ok quals' => ∃ x' p, quals' = <[Z.to_nat i := x']> quals ∧ qual_ok q x' ∧ prune_of q = Ok p ∧ sq_prune x' = p
  | Raise _ => ∃ scalar err, qs_scalar q = Some scalar ∧ ExecEvalExpr scalar ec = Raise err
  | Undefined => False
  end.
Proof.
  intros Hq Hx Hi. pose proof Hq as (Hf & Hs & Hp & Ha & Ho & Hn). pose proof (lookup_lt_Some _ _ _ Hx) as Hlt.
  unfold prepare_qual, prune_of. rewrite (aref_lookup _ _ _ Hi Hx), bind_Ok, Hs.
  destruct (qs_scalar q) as [scalar|] eqn:Es.
  - pose proof (eval_defined scalar ec). destruct (ExecEvalExpr scalar ec) as [v|err|] eqn:Ev; [|by exists scalar, err|done].
    rewrite bind_Ok, aset_ok by lia. eexists _, _. split; [reflexivity|]. split; [|split; [reflexivity|]].
    + unfold qual_ok. rewrite Es. by split_and!.
    + unfold set_qual_scalar. cbn. by rewrite Hp, Ha, Ho.
  - exists x, (sq_prune x). rewrite list_insert_id by done. split_and!; [done|done| |done].
    rewrite <- Hp, <- Ha, <- Ho. specialize (Hn eq_refl). destruct (sq_prune x). cbn in *. by subst.
Qed.

Lemma prune_quals_spec specs prunes :
  prune_quals specs = Ok prunes ↔ Forall2 (λ q p, prune_of q = Ok p) specs prunes.
Proof.
  revert prunes. induction specs as [|q specs IH]; intros prunes; cbn [prune_quals].
  - split; [by intros [= <-]|]. by intros ->%Forall2_nil_inv_l.
  - split.
    + intros (p & Hp & (l & Hl & [= <-])%bind_ok_inv)%bind_ok_inv. constructor; [done|by apply IH].
    + intros (p & l & Hp & Hl & ->)%Forall2_cons_inv_l. rewrite Hp, bind_Ok. by rewrite (proj2 (IH l) Hl).
Qed.

Lemma prepare_quals_ok specs quals :
  Forall2 qual_ok specs quals →
  match foldM (prepare_qual ec) (seqZ 0 (zlength quals)) quals with
  | Ok quals' => Forall2 qual_ok specs quals' ∧ prune_quals specs = Ok (sq_prune <$> quals')
  | Raise _ => scan_raises specs []
  | Undefined => False
  end.
Proof.
  intros Hall. pose proof (Forall2_length _ _ _ Hall) as Hlen.
  pose proof (for_cases (λ i l, Forall2 qual_ok specs l ∧
      ∀ j q, (j < Z.to_nat i)%nat → specs !! j = Some q → ∃ x, l !! j = Some x ∧ prune_of q = Ok (sq_prune x))
    (prepare_qual ec) (zlength quals) quals (scan_raises specs [])) as Hloop.
  destruct Hloop as [(quals' & -> & Hq & Hp)|(err & -> & Hr)]; [lia|split; [done|intros; lia]| |split; [done|]|done].
  - intros i l Hi [Hl Hp]. destruct (lookup_lt_is_Some_2 specs (Z.to_nat i)) as [q Hq]; [lia|].
    destruct (Forall2_lookup_l _ _ _ _ _ Hl Hq) as (x & Hx & Hok).
    pose proof (prepare_qual_ok q x l i Hok Hx (proj1 Hi)) as Hstep.
    destruct (prepare_qual ec i l) as [l'|err|]; [|right|done].
    + left. destruct Hstep as (x' & p & -> & Hok' & Hpr & <-). eexists; split; [reflexivity|]. split.
      * rewrite <- (list_insert_id specs (Z.to_nat i) q) by done. by apply Forall2_insert.
      * intros j q' Hj Hq'. pose proof (lookup_lt_Some _ _ _ Hx). destruct (decide (j = Z.to_nat i)) as [->|].
        -- exists x'. rewrite list_lookup_insert_eq by lia. split; [done|congruence].
        -- rewrite list_lookup_insert_ne by done. apply (Hp j); [lia|done].
    + exists err. split; [done|]. left. destruct Hstep as (scalar & e & ? & ?). exists q, scalar, e.
      split; [by eapply list_elem_of_lookup_2|done].
  - apply prune_quals_spec, Forall2_fmap_r, Forall2_same_length_lookup.
    pose proof (Forall2_length _ _ _ Hq) as Hlen'. split; [done|]. intros j q x Hj Hx.
    destruct (Hp j q) as (x' & Hx' & E); [apply lookup_lt_Some in Hj; lia|done|]. congruence.
Qed.
End conditions.

(** ** Positions *)

Section positions.
Context (gb : Z) (chunks : list (list row_cells)).
Context (Hgb : 1 ≤ gb) (Hchunks : Forall (λ chunk, 1 ≤ zlength chunk ≤ 64) chunks).

Abbreviation nchunks := (zlength chunks).

(** The rows from a position on. *)
Definition remaining (c : ScanCursor) : list row_cells :=
  drop (Z.to_nat (batch_row c)) (concat (drop (Z.to_nat (batch_index c)) chunks)).

Definition group_end (j : Z) : Z := Z.min ((j + 1) * gb) nchunks.

Record cursor_ok (c : ScanCursor) : Prop := {
  cu_group : 0 ≤ group_index c ≤ group_count gb nchunks;
  cu_done : group_index c = group_count gb nchunks → batch_index c = nchunks ∧ batch_row c = 0;
  cu_batch : group_index c < group_count gb nchunks → group_index c * gb ≤ batch_index c ≤ group_end (group_index c);
  cu_row : batch_index c < nchunks → 0 ≤ batch_row c < zlength (zget [] chunks (batch_index c));
  cu_end : group_index c < group_count gb nchunks → batch_index c = group_end (group_index c) → batch_row c = 0;
  cu_ready : group_index c < group_count gb nchunks → group_ready c = false →
    batch_index c = group_index c * gb ∧ batch_row c = 0;
}.

Lemma group_start j : 0 ≤ j < group_count gb nchunks → j * gb < nchunks.
Proof.
  intros [H0 Hj]. unfold group_count in Hj. pose proof (Z.div_mod nchunks gb). pose proof (Z.mod_pos_bound nchunks gb).
  destruct (Z.eqb_spec (nchunks mod gb) 0); nia.
Qed.

Lemma group_next j : 0 ≤ j < group_count gb nchunks →
  (j + 1 = group_count gb nchunks ∧ group_end j = nchunks) ∨ (j + 1 < group_count gb nchunks ∧ group_end j = (j + 1) * gb).
Proof.
  intros [H0 Hj]. unfold group_end, group_count in *. pose proof (Z.div_mod nchunks gb). pose proof (Z.mod_pos_bound nchunks gb).
  destruct (Z.eqb_spec (nchunks mod gb) 0), (decide (j + 1 = nchunks / gb)); (left; nia) || (right; nia) || idtac.
  destruct (decide (j = nchunks / gb)); (left; nia) || (right; nia).
Qed.

Lemma chunk_bounds i : 0 ≤ i < nchunks → chunks !! Z.to_nat i = Some (zget [] chunks i) ∧ 1 ≤ zlength (zget [] chunks i) ≤ 64.
Proof.
  intros Hi. destruct (lookup_lt_is_Some_2 chunks (Z.to_nat i)) as [chunk E]; [lia|].
  unfold zget. rewrite E. split; [done|]. by apply (Forall_lookup_1 _ _ _ _ Hchunks E).
Qed.

Lemma start_ok : cursor_ok (mkCursor 0 0 0 false false).
Proof.
  assert (0 ≤ group_count gb nchunks).
  { unfold group_count. pose proof (Z.div_pos nchunks gb). destruct (_ =? 0); lia. }
  constructor; cbn; try lia.
  - intros E. pose proof (Z.div_mod nchunks gb). pose proof (Z.mod_pos_bound nchunks gb). pose proof (Z.div_pos nchunks gb).
    unfold group_count in E. destruct (Z.eqb_spec (nchunks mod gb) 0); split; nia.
  - unfold group_end. lia.
  - intros Hn. destruct (chunk_bounds 0); lia.
Qed.

(** A position inside a batch. *)
Lemma remaining_split c :
  0 ≤ batch_index c < nchunks → 0 ≤ batch_row c ≤ zlength (zget [] chunks (batch_index c)) →
  remaining c = drop (Z.to_nat (batch_row c)) (zget [] chunks (batch_index c)) ++ concat (drop (S (Z.to_nat (batch_index c))) chunks).
Proof.
  intros Hb Hr. destruct (chunk_bounds _ Hb) as [E _]. unfold remaining. rewrite (drop_S _ _ _ E). cbn [concat].
  rewrite drop_app_le by lia. done.
Qed.

(** Loading a piece of a batch. *)
Lemma remaining_piece c n :
  0 ≤ batch_index c < nchunks → 0 ≤ batch_row c → 0 ≤ n → batch_row c + n ≤ zlength (zget [] chunks (batch_index c)) →
  remaining c = take (Z.to_nat n) (drop (Z.to_nat (batch_row c)) (zget [] chunks (batch_index c))) ++
    remaining (if batch_row c + n =? zlength (zget [] chunks (batch_index c)) then set_position c (batch_index c + 1) 0
               else set_position c (batch_index c) (batch_row c + n)).
Proof.
  intros Hb Hr Hn Hle. rewrite remaining_split by lia.
  rewrite <- (take_drop (Z.to_nat n) (drop (Z.to_nat (batch_row c)) _)) at 1. rewrite <- app_assoc. f_equal.
  rewrite drop_drop. destruct (Z.eqb_spec (batch_row c + n) (zlength (zget [] chunks (batch_index c)))) as [E|].
  - rewrite drop_ge by lia. unfold remaining. cbn. by replace (Z.to_nat (batch_index c + 1)) with (S (Z.to_nat (batch_index c))) by lia.
  - rewrite remaining_split by (cbn; lia). cbn. by replace (Z.to_nat (batch_row c + n)) with (Z.to_nat (batch_row c) + Z.to_nat n)%nat by lia.
Qed.

Lemma piece_ok c n :
  cursor_ok c → group_index c < group_count gb nchunks → batch_index c < group_end (group_index c) → group_ready c = true →
  1 ≤ n → batch_row c + n ≤ zlength (zget [] chunks (batch_index c)) →
  cursor_ok (if batch_row c + n =? zlength (zget [] chunks (batch_index c)) then set_position c (batch_index c + 1) 0
             else set_position c (batch_index c) (batch_row c + n)).
Proof.
  intros [] Hg Hb Hrd Hn Hle. specialize (cu_batch0 Hg). assert (Hlt : batch_index c < nchunks) by (unfold group_end in *; lia).
  specialize (cu_row0 Hlt). assert (0 ≤ batch_index c) by nia.
  destruct (Z.eqb_spec (batch_row c + n) (zlength (zget [] chunks (batch_index c)))); constructor; cbn; try lia; try congruence.
  intros Hlt'. destruct (chunk_bounds (batch_index c + 1)); lia.
Qed.

(** Leaving a group out. *)
Lemma remaining_skip c :
  cursor_ok c → group_index c < group_count gb nchunks → group_ready c = false →
  remaining c = concat (group_part gb (group_index c) chunks) ++ remaining (set_position c (group_end (group_index c)) 0).
Proof.
  intros [] Hg Hrd. destruct (cu_ready0 Hg Hrd) as [Hb Hr]. unfold remaining. rewrite Hr, Hb. cbn [batch_row batch_index set_position].
  rewrite !drop_0. unfold group_part. rewrite <- (take_drop (Z.to_nat gb) (drop (Z.to_nat (group_index c * gb)) chunks)) at 1.
  rewrite concat_app, drop_drop. f_equal. f_equal. unfold group_end.
  destruct (Z.le_ge_cases ((group_index c + 1) * gb) nchunks).
  - f_equal. nia.
  - rewrite !drop_ge by nia. done.
Qed.

Lemma skip_ok c :
  cursor_ok c → group_index c < group_count gb nchunks → cursor_ok (set_position (set_group_ready c true) (group_end (group_index c)) 0).
Proof.
  intros [] Hg. pose proof (group_start (group_index c)). pose proof (group_next (group_index c)).
  constructor; cbn; try lia; try done; try (unfold group_end; nia).
  intros Hlt. destruct (chunk_bounds (group_end (group_index c))); [unfold group_end in *; nia|lia].
Qed.

Lemma enter_ok c : cursor_ok c → cursor_ok (set_group_ready c true).
Proof. intros []. by constructor. Qed.

(** Going on to the next group. *)
Lemma next_group_ok c p :
  cursor_ok c → group_index c < group_count gb nchunks → batch_index c = group_end (group_index c) →
  cursor_ok (mkCursor (group_index c + 1) (batch_index c) (batch_row c) false p).
Proof.
  intros [] Hg He. specialize (cu_end0 Hg He). destruct (group_next (group_index c)) as [[E1 E2]|[E1 E2]]; [lia| |];
    constructor; cbn; try lia; try done.
  unfold group_end in *. nia.
Qed.

Lemma remaining_done c : cursor_ok c → group_index c = group_count gb nchunks → remaining c = [].
Proof. intros [] Hg. destruct (cu_done0 Hg) as [E1 E2]. unfold remaining. rewrite E1, E2, (drop_ge chunks) by lia. done. Qed.
End positions.
End walk.
