(* ===== verification/CompressedLoad.v ===== *)
(** * Loading, filtering and publishing a piece of a snapshot

    The state of a scan between its steps, and what [load_batch],
    [filter_batch] and publishing do to it. *)

From S2P Require Import Prelude Words Bytes Selection Vector Kernels Int4 Bitmaps Batch Columns Bridge BridgeInv BridgeOps Expr ExprProps ExprEval ExprSpec ExprContract Compressed CompressedColumns CompressedBuild CompressedTable CompressedProps CompressedScan CompressedSource CompressedNext CompressedWalk.
From Stdlib Require Import FunctionalExtensionality.

Lemma zget_elem {A} (d : A) l i : 0 ≤ i < zlength l → zget d l i ∈ l.
Proof.
  intros Hi. destruct (lookup_lt_is_Some_2 l (Z.to_nat i)) as [x Hx]; [lia|]. unfold zget. rewrite Hx.
  by eapply list_elem_of_lookup_2.
Qed.

Section load.
Context `{PC : PgCore} `{BM : Bitmapsets} `{EX : PgExecutor} `{SX : !ScalarExecutor} (target : simd_target).

(** A snapshot that scans may hold. *)
Context (cr : CompressedRelation) (natts gb : Z) (chunks : list (list row_cells)).
Context (Hs : snapshot_ok natts gb (set_refcount cr 0) chunks) (Hgb : 1 ≤ gb).

(** The columns and the conditions of the scan, and where it publishes. *)
Context (attnums : list Z) (Hatt : Forall (λ a, 1 ≤ a ≤ natts) attnums).
Context (resolve : VarNode → Z) (Hres : resolves resolve) (specs : list QualSpec).
Context (ec : ExprContext) (mode : SourceScanMode) (b : Z).

#[local] Instance scanned_source : BatchSource := compressed_source cr attnums.

Abbreviation k s := (sc_batch_address s).

Record scan_inv (s : CompressedScan) : Prop := {
  si_relation : cs_relation (sc_source s) = cr;
  si_attnums : cs_source_attnums (sc_source s) = attnums;
  si_ncolumns : cs_ncolumns (sc_source s) = zlength attnums;
  si_bridge : bridge_inv (sc_bridge s);
  si_cache : cache_ok (world_of s);
  si_quals : Forall2 (qual_ok attnums resolve) specs (sc_quals s);
  si_context : sc_econtext s = ec;
  si_mode : sc_mode s = mode;
  si_request : sc_request s = b;
  si_binding : ∃ bd, bindings (sc_bridge s) !! b = Some bd ∧ complete bd ∧ batch bd = None;
  si_held : ¬ held (sc_bridge s) (k s);
  si_cursor : cursor_ok gb chunks (sc_cursor s);
  si_prunes : prune_quals_ready (sc_cursor s) = true → prune_quals ec specs = Ok (sq_prune <$> sc_quals s);
}.

(** Between two batches. *)
Definition idle (s : CompressedScan) : Prop := scan_inv s ∧ cs_active (sc_source s) = None.

(** A piece of a batch is loaded; the rows [keep] holds of are selected. *)
Record loaded (s : CompressedScan) (piece : list row_cells) (keep : row_cells → bool) (bt : PgBatch) : Prop := {
  lo_inv : scan_inv s;
  lo_serves : serves (sc_source s) (k s) compressed_ops (zlength piece);
  lo_batch : batches (sc_bridge s) !! k s = Some bt;
  lo_shape : abi_version bt = PG_BATCH_ABI_VERSION ∧ struct_size bt = sizeof_PgBatch ∧ ops bt = Some compressed_ops ∧
    generation bt = 0;
  lo_wf : sel_wf (selection bt) ∧ sel_clean (selection bt) ∧ nrows (selection bt) = zlength piece;
  lo_length : zlength piece ≤ 64;
  lo_rows row : row ∈ selected_rows (selection bt) ↔ 0 ≤ row < zlength piece ∧ keep (zget [] piece row) = true;
  lo_content column row : 0 ≤ row < zlength piece →
    content (sc_source s) (k s) column row = scan_cell attnums (zget [] piece row) column;
}.

(** What a step leaves alone. *)
Definition same_frame (s s' : CompressedScan) : Prop :=
  bindings (sc_bridge s') = bindings (sc_bridge s) ∧ slot_entries (sc_bridge s') = slot_entries (sc_bridge s) ∧
  next_batch_generation (sc_bridge s') = next_batch_generation (sc_bridge s) ∧
  sc_address s' = sc_address s ∧ k s' = k s ∧ sc_cursor s' = sc_cursor s.

Lemma same_frame_refl s : same_frame s s.
Proof. by split_and!. Qed.

Lemma same_frame_trans s1 s2 s3 : same_frame s1 s2 → same_frame s2 s3 → same_frame s1 s3.
Proof. unfold same_frame. intuition congruence. Qed.

(** ** Calls on parts of the state *)

Lemma wp_in_bridge {A} (m : M A) (Q : res A → CompressedScan → Prop) s :
  wp m (λ r w, Q r (with_bridge s w)) (sc_bridge s) → wp (in_bridge m) Q s.
Proof. done. Qed.

Lemma wp_in_world {A} (m : W A) (Q : res A → CompressedScan → Prop) s :
  wp m (λ r w, Q r (set_world s w)) (world_of s) → wp (in_world m) Q s.
Proof. done. Qed.

Lemma wp_in_scan {A} (m : ST CompressedSource A) (Q : res A → CompressedScan → Prop) s :
  wp m (λ r src, Q r (with_source s src)) (sc_source s) → wp (in_scan m) Q s.
Proof. done. Qed.

Lemma wp_loaded_batch {A} s bt (f : PgBatch → Scan A) Q :
  batches (sc_bridge s) !! k s = Some bt → wp (f bt) Q s → wp (in_bridge (batch_at (k s)) ≫= f) Q s.
Proof.
  intros Hk Hw. apply wp_bind, wp_in_bridge. unfold batch_at. apply wp_gets. rewrite Hk.
  unfold deref, lift, wp. cbn. split; [done|]. replace (with_bridge s (sc_bridge s)) with s by by destruct s. done.
Qed.
(** ** Loading *)

Lemma piece_length (start n : Z) (chunk : list row_cells) :
  0 ≤ start → 0 ≤ n → start + n ≤ zlength chunk → zlength (take (Z.to_nat n) (drop (Z.to_nat start) chunk)) = n.
Proof. intros. rewrite length_take, length_drop. lia. Qed.

Lemma piece_row (start n row : Z) (chunk : list row_cells) :
  0 ≤ start → 0 ≤ row < n → zget [] (take (Z.to_nat n) (drop (Z.to_nat start) chunk)) row = zget [] chunk (start + row).
Proof.
  intros. unfold zget. rewrite lookup_take_lt, lookup_drop by lia. by replace (Z.to_nat start + Z.to_nat row)%nat with (Z.to_nat (start + row)) by lia.
Qed.

Lemma attnum_range column : 0 ≤ column < zlength attnums → 1 ≤ zget 0 attnums column ≤ natts.
Proof.
  intros Hc. destruct (lookup_lt_is_Some_2 attnums (Z.to_nat column)) as [a Ha]; [lia|].
  unfold zget. rewrite Ha. by apply (Forall_lookup_1 _ _ _ _ Hatt Ha).
Qed.

Lemma attnum_known column : 1 ≤ zget 0 attnums column → zget 0 attnums column ≤ natts.
Proof.
  unfold zget. destruct (attnums !! Z.to_nat column) as [a|] eqn:Ha; cbn; [|lia].
  intros _. by apply (Forall_lookup_1 _ _ _ _ Hatt Ha).
Qed.

(** All rows of a fresh piece. *)
Lemma all_rows_selection n :
  1 ≤ n ≤ 64 → let s := mkSelection n 1 [Z.shiftr PG_BATCH_ALL_ROWS (PG_BATCH_SIZE - n)] in
  sel_wf s ∧ sel_clean s ∧ ∀ row, row ∈ selected_rows s ↔ 0 ≤ row < n.
Proof.
  intros Hn s. assert (E : Z.shiftr PG_BATCH_ALL_ROWS (PG_BATCH_SIZE - n) = Z.ones n).
  { change PG_BATCH_ALL_ROWS with (Z.ones 64). unfold PG_BATCH_SIZE. rewrite Z.shiftr_div_pow2, Z.ones_div_pow2 by lia. f_equal. lia. }
  assert (Hsel : ∀ row, 0 ≤ row < 64 → selected s row = (row <? n)).
  { intros row Hr. unfold selected, s. cbn [words]. replace (row / 64) with 0 by zlia. rewrite Z.mod_small by lia.
    change (zget 0 [Z.shiftr PG_BATCH_ALL_ROWS (PG_BATCH_SIZE - n)] 0) with (Z.shiftr PG_BATCH_ALL_ROWS (PG_BATCH_SIZE - n)).
    rewrite E. destruct (Z.ltb_spec row n); [by rewrite Z.ones_spec_low by lia|by rewrite Z.ones_spec_high by lia]. }
  split_and!.
  - constructor; cbn; [lia|zlia|done|]. constructor; [|done]. rewrite E. unfold is_u64. rewrite Z.ones_equiv.
    pose proof (Z.pow_pos_nonneg 2 n). assert (2 ^ n ≤ 2 ^ 64) by (apply Z.pow_le_mono_r; lia). lia.
  - intros row Hr. cbn in Hr. rewrite Hsel by lia. apply Z.ltb_ge. lia.
  - intros row. rewrite contains_selected_rows. cbn. split; [by intros [? _]|]. intros Hr. split; [done|].
    rewrite Hsel by lia. apply Z.ltb_lt. lia.
Qed.

Lemma load_active_ok s chunk stored start n stats :
  batch_ok natts stored chunk → 0 ≤ start → 1 ≤ n ≤ 64 → start + n ≤ zlength chunk →
  let a := mkActiveBatch (k s) n stored start (replicate (Z.to_nat (zlength attnums)) empty_arrow)
             (replicate (Z.to_nat (zlength attnums)) empty_datum) in
  let src := mkSource cr attnums (zlength attnums) (Some a) stats in
  serves src (k s) compressed_ops n ∧ ∀ column row, 0 ≤ row < n →
    content src (k s) column row = scan_cell attnums (zget [] chunk (start + row)) column.
Proof.
  intros (Hlen & Hnr & Hcols & Hview) Hst Hn Hle a src.
  assert (Hcell : ∀ column, 1 ≤ zget 0 attnums column → ∃ v, scan_view src a column = Ok v ∧ col_wf v (zlength chunk) ∧
    ∀ row, 0 ≤ row < n → cell v (start + row) = cell_at (zget 0 attnums column - 1) (zget [] chunk (start + row))).
  { intros column Hc. pose proof (attnum_known column Hc).
    destruct (Hview (zget 0 attnums column - 1)) as (v & Ev & Hwf & Hcell); [lia|]. exists v. split; [exact Ev|].
    split; [done|]. intros row Hr. apply Hcell. lia. }
  split.
  - split; [done|]. split; [done|]. split; [done|]. exists a. split_and!; [done|done|done|]. constructor; cbn; try lia.
    + rewrite length_replicate. lia.
    + rewrite length_replicate. lia.
    + intros column Hc. pose proof (attnum_range column Hc). destruct (Hcell column) as (v & Ev & Hwf & _); [lia|].
      exists v. split; [exact Ev|]. split; [lia|]. by eapply col_wf_le; [|exact Hwf].
    + intros column arrow v [-> _]%lookup_replicate. done.
    + intros column datum v [-> _]%lookup_replicate _ _. split; [|done]. cbn. unfold is_u64. lia.
  - intros column row Hr. cbn [content scanned_source compressed_source]. unfold compressed_content. cbn [cs_active src].
    unfold scan_cell. destruct (Z.ltb_spec (zget 0 attnums column) 1) as [Hlow|Hge].
    + assert (scan_view src a column = Undefined) as ->; [|done].
      assert (zget 0 attnums column = 0) as E.
      { unfold zget in *. destruct (attnums !! Z.to_nat column) as [x|] eqn:Ex; [|done]. cbn in *.
        pose proof (Forall_lookup_1 _ _ _ _ Hatt Ex). cbn in *. lia. }
      unfold scan_view. cbn [cs_source_attnums src]. by rewrite E.
    + destruct (Hcell column) as (v & -> & _ & Hv); [lia|]. by apply Hv.
Qed.

Lemma inv_batch s bt src :
  scan_inv s → generation bt = 0 → selection_memory (selection bt) →
  cs_relation src = cr → cs_source_attnums src = attnums → cs_ncolumns src = zlength attnums →
  scan_inv (with_source (with_bridge s (with_batches (sc_bridge s) (<[k s := bt]> (batches (sc_bridge s))))) src).
Proof.
  intros [] Hg Hm Hr Ha Hn. constructor; cbn; try done.
  by destruct (good_free_batch (OpPrepare (k s) bt) (sc_bridge s) (Ok tt) (k s) bt si_bridge0 si_held0 Hm Hg).
Qed.

Lemma load_batch_ok s chunk stored start n :
  idle s → batch_ok natts stored chunk → 0 ≤ start → 1 ≤ n ≤ 64 → start + n ≤ zlength chunk →
  wp (load_batch stored start n) (λ r s', r = Ok tt ∧ same_frame s s' ∧
    ∃ bt, loaded s' (take (Z.to_nat n) (drop (Z.to_nat start) chunk)) (λ _, true) bt) s.
Proof.
  intros [Hinv Hact] Hb Hst Hn Hle. pose proof Hinv as []. unfold load_batch. apply wp_gets. rewrite Hact.
  apply wp_lift; [done|done|]. intros _ _. apply wp_gets. apply wp_modify.
  assert ((0 <=? PG_BATCH_SIZE - n) && (PG_BATCH_SIZE - n <? 64) = true) as -> by (unfold PG_BATCH_SIZE; lia).
  apply wp_lift; [done|done|]. intros _ _.
  set (sel := mkSelection n 1 _). destruct (all_rows_selection n Hn) as (Hwf & Hclean & Hrows). fold sel in Hwf, Hclean, Hrows.
  set (bt := mkBatch _ _ sel _ _ _ _). apply wp_modify, wp_modify_end. split; [done|]. split; [done|]. exists bt.
  cbn. destruct (load_active_ok s chunk stored start n (cs_stats (sc_source s)) Hb Hst Hn Hle) as [Hserves Hcontent].
  set (a := mkActiveBatch _ _ _ _ _ _) in *. set (src := mkSource _ _ _ _ _) in Hserves, Hcontent.
  assert (Esrc : CompressedScan.set_active (sc_source s) (Some a) = src).
  { unfold CompressedScan.set_active, src. by rewrite si_relation0, si_attnums0, si_ncolumns0. }
  pose proof (inv_batch s bt src Hinv eq_refl (sel_wf_memory _ Hwf) eq_refl eq_refl eq_refl) as Hinv'.
  rewrite si_ncolumns0. fold a. rewrite Esrc. rewrite insert_delete_eq.
  constructor; try done; rewrite ?piece_length by lia.
  - exact Hserves.
  - cbn. by rewrite lookup_insert_eq.
  - done.
  - lia.
  - intros row. change (selection bt) with sel. rewrite Hrows. intuition.
  - intros column row Hr. rewrite piece_row by lia. by apply Hcontent.
Qed.
(** ** Filtering *)

Lemma loaded_keep s piece keep keep' bt :
  loaded s piece keep bt → (∀ cells, cells ∈ piece → keep' cells = keep cells) → loaded s piece keep' bt.
Proof.
  intros Hl Hkeep. destruct Hl as [? ? ? ? ? ? Hrows ?]. constructor; try done. intros row. rewrite Hrows.
  assert (∀ row, 0 ≤ row < zlength piece → zget [] piece row ∈ piece) as Hin.
  { intros r Hr. by apply zget_elem. }
  split; intros [Hr Hk]; (split; [done|]); [rewrite Hkeep by by apply Hin|rewrite <- Hkeep by by apply Hin]; done.
Qed.

(** A call that changes the source within its promise, and the batch. *)
Lemma loaded_world s piece keep bt w' bt' keep' :
  loaded s piece keep bt → extends (sc_source s) (w_source w') → cache_ok w' →
  w_batches w' = <[k s := bt']> (batches (sc_bridge s)) →
  (abi_version bt' = PG_BATCH_ABI_VERSION ∧ struct_size bt' = sizeof_PgBatch ∧ ops bt' = Some compressed_ops ∧ generation bt' = 0) →
  (sel_wf (selection bt') ∧ sel_clean (selection bt') ∧ nrows (selection bt') = zlength piece) →
  (∀ row, row ∈ selected_rows (selection bt') ↔ 0 ≤ row < zlength piece ∧ keep' (zget [] piece row) = true) →
  loaded (set_world s w') piece keep' bt' ∧ same_frame s (set_world s w').
Proof.
  intros [Hinv Hserves Hbatch _ _ Hlen _ Hcontent] Hext Hcache Hbs Hshape Hwf Hrows.
  destruct (Hext _ _ _ Hserves) as [Hserves' Hcols]. split; [|by split_and!].
  pose proof Hserves' as (_ & Hrel & Hatts & a & _ & _ & _ & Haok). constructor; try done.
  - pose proof Hinv as []. constructor; try done.
    + by rewrite <- Hatts, (ao_attnums _ _ Haok).
    + cbn. rewrite Hbs. destruct Hshape as (_ & _ & _ & Hgen).
      by destruct (good_free_batch (OpPrepare (k s) bt') (sc_bridge s) (Ok tt) (k s) bt' si_bridge0 si_held0 (sel_wf_memory _ (proj1 Hwf)) Hgen).
  - cbn. by rewrite Hbs, lookup_insert_eq.
  - intros column row Hr. destruct (Hcols column) as [_ Hsame]. rewrite <- (Hcontent column row Hr). exact (Hsame row).
Qed.

Lemma loaded_source s piece keep bt src :
  loaded s piece keep bt → extends (sc_source s) src → loaded (with_source s src) piece keep bt ∧ same_frame s (with_source s src).
Proof.
  intros Hl Hext. pose proof Hl as [Hinv _ Hbatch Hshape Hwf _ Hrows _].
  assert (with_source s src = set_world s (set_source_state (world_of s) src)) as ->.
  { unfold set_world. cbn. destruct s as [[]]. done. }
  eapply (loaded_world s piece keep bt); try done.
  - apply Hinv.
  - cbn. by rewrite insert_id.
Qed.

Lemma loaded_quals s piece keep bt quals :
  loaded s piece keep bt → Forall2 (qual_ok attnums resolve) specs quals → sq_prune <$> quals = sq_prune <$> sc_quals s →
  loaded (set_quals s quals) piece keep bt ∧ same_frame s (set_quals s quals).
Proof.
  intros [[] ? ? ? ? ? ? ?] Hq Hp. split; [|by split_and!]. constructor; try done. constructor; try done.
  cbn. by rewrite Hp.
Qed.

Lemma loaded_outcome s piece keep bt node row :
  loaded s piece keep bt → 0 ≤ row < zlength piece →
  row_datum resolve node (world_of s) (k s) ec row = row_outcome attnums resolve ec node (zget [] piece row).
Proof.
  intros Hl Hrow. unfold row_datum, row_outcome. do 2 f_equal. apply functional_extensionality. intros v.
  by apply (lo_content _ _ _ _ Hl).
Qed.

Lemma filter_qual_ok s piece keep bt q spec :
  loaded s piece keep bt → 0 ≤ q → specs !! Z.to_nat q = Some spec →
  wp (filter_qual target q) (λ r s', match r with
    | Ok _ => same_frame s s' ∧ ∃ bt', loaded s' piece (λ cells, keep cells && filter_accepts attnums resolve ec cells spec) bt'
    | Raise _ => scan_raises attnums resolve ec specs piece
    | Undefined => False end) s.
Proof.
  intros Hl Hq Hspec. pose proof (lo_inv _ _ _ _ Hl) as Hinv. pose proof (si_quals _ Hinv) as Hquals.
  destruct (Forall2_lookup_l _ _ _ _ _ Hquals Hspec) as (x & Hx & Hok). pose proof (lookup_lt_Some _ _ _ Hx) as Hlt.
  unfold filter_qual. apply wp_gets. rewrite (aref_lookup _ _ _ Hq Hx). apply wp_lift; [done|done|]. intros _ [= <-].
  pose proof Hok as (Hfilter & Hrest). unfold filter_accepts.
  destruct (qs_filter spec) as [node|] eqn:Enode, (sq_expr x) as [e|] eqn:Ee; try done.
  2: { apply wp_ret. split; [apply same_frame_refl|]. exists bt. eapply loaded_keep; [done|]. intros cells _. by rewrite andb_true_r. }
  destruct Hfilter as (Hexpr & Hcol & Hmask). apply wp_gets.
  pose proof Hl as [_ Hserves Hbatch Hshape (Hwf & Hclean & Hn) Hlen _ _]. apply (wp_loaded_batch s bt); [done|].
  pose proof Hserves as (_ & _ & _ & a & Ha & Hk & Hnr & Haok). pose proof (si_ncolumns _ Hinv) as Hnc.
  apply wp_bind, wp_in_scan. eapply wp_mono; [apply (prepare_columns_ok (sc_source s) a (k s)); try done; [congruence|]|].
  { intros c Hc. rewrite Hnc, (Hmask c Hc). done. }
  intros r src (-> & a' & Hsame & Haok' & _). cbn beta iota.
  destruct (loaded_source s piece keep bt src Hl) as [Hl1 Hf1].
  { intros k0 o n Hs0. exact (compressed_extends cr attnums (sc_source s) src a a' k0 o n Ha Hsame Haok' Hs0). }
  set (s1 := with_source s src) in *. apply wp_gets. change (sc_econtext s1) with (sc_econtext s). rewrite (si_context _ Hinv).
  apply wp_bind, wp_in_world. set (e1 := pg_batch_expr_bind e (Some (k s)) (Some ec) PG_BATCH_COLUMN_FILTER).
  assert (Hexpr1 : expr_ok resolve node true e1) by (eapply expr_ok_same; [done|done|apply Hexpr]).
  pose proof Hl1 as [Hinv1 Hserves1 Hbatch1 _ _ _ Hrows1 _].
  eapply wp_mono; [apply (apply_filter_ok resolve node target e1 (world_of s1) (k s) bt compressed_ops ec true Hres Hexpr1)|].
  { constructor; try done; [by apply Hinv1| |].
    - constructor; [done|apply Hshape|]. cbn. by rewrite Hn.
    - intros _. rewrite <- (si_ncolumns _ Hinv1) in Hcol. exact Hcol. }
  intros r w (Hr & Hcache & Hext). destruct r as [e'|err|]; [|cbn|done].
  2: { destruct Hr as (_ & row & err' & Hrow & Hraise). right. apply Hrows1 in Hrow as [Hrow _].
       rewrite (loaded_outcome s1 piece keep bt) in Hraise by done. exists spec, node, (zget [] piece row), err'.
       split; [by eapply list_elem_of_lookup_2|]. split; [done|]. split; [by apply zget_elem|done]. }
  destruct Hr as (Hexpr' & sel' & (Hwf' & Hclean' & Hn' & _ & Hrows') & Hbs).
  destruct (loaded_world s1 piece keep bt w (set_selection bt sel')
    (λ cells, keep cells && accepts attnums resolve ec node cells) Hl1 Hext Hcache Hbs) as [Hl2 Hf2]; [done| | |].
  { split_and!; [done|done|]. cbn. congruence. }
  { intros row. cbn. rewrite Hrows', Hrows1, andb_true_iff. unfold accepts. rewrite bool_decide_eq_true.
    split; [intros [[Hr Hk1] Hd]|intros (Hr & Hk1 & Hd)].
    - by rewrite (loaded_outcome s1 piece keep bt) in Hd by done.
    - by rewrite (loaded_outcome s1 piece keep bt) by done. }
  set (s2 := set_world s1 w) in *. apply wp_lift; [by rewrite aset_ok by lia|by rewrite aset_ok by lia|].
  intros quals. rewrite aset_ok by lia. intros [= <-]. apply wp_modify_end.
  destruct (loaded_quals s2 piece (λ cells, keep cells && accepts attnums resolve ec node cells) (set_selection bt sel')
    (<[Z.to_nat q := set_qual_expr x e']> (sc_quals s)) Hl2) as [Hl3 Hf3].
  - rewrite <- (list_insert_id specs (Z.to_nat q) spec) by done. apply Forall2_insert; [done|].
    assert (e_column e' = e_column e) as Hce.
    { destruct Hexpr as (_ & e0 & Hc0 & Hp0), Hexpr' as (_ & e0' & Hc0' & Hp0').
      assert (e0' = e0) as -> by congruence. by rewrite (proj1 Hp0), (proj1 Hp0'). }
    destruct Hrest as (? & ? & ? & ? & ?). unfold qual_ok. rewrite Enode. cbn. rewrite Hce. split_and!; (done || lia).
  - rewrite list_fmap_insert. cbn. apply list_insert_id. by rewrite list_lookup_fmap, Hx.
  - split; [|by eexists]. eapply same_frame_trans; [|exact Hf3]. by eapply same_frame_trans.
Qed.
(** The word of the selection, and whether a row is left. *)
Lemma active_selection_ok {A} s piece keep bt (f : Z → Scan A) Q :
  loaded s piece keep bt →
  (∀ rows, (rows = 0 ↔ Forall (λ cells, keep cells = false) piece) → wp (f rows) Q s) →
  wp (active_selection ≫= f) Q s.
Proof.
  intros Hl Hf. pose proof Hl as [_ _ Hbatch _ (Hwf & Hclean & Hn) Hlen Hrows _].
  unfold active_selection. apply wp_bind, wp_gets, (wp_loaded_batch s bt); [done|].
  pose proof (wf_nrows _ Hwf). pose proof (wf_nwords _ Hwf) as Hnw. assert (nwords (selection bt) = 1) as Hone by zlia.
  assert (E : aref (words (selection bt)) 0 = Ok (zget 0 (words (selection bt)) 0)).
  { apply aref_ok. pose proof (wf_length _ Hwf). lia. }
  unfold wp at 1, lift. rewrite E. cbn [fst snd]. split; [done|]. apply Hf.
  assert (Hbit : ∀ row, 0 ≤ row < 64 → selected (selection bt) row = Z.testbit (zget 0 (words (selection bt)) 0) row).
  { intros row Hr. unfold selected. rewrite Z.div_small, Z.mod_small by lia. done. }
  split.
  - intros Hz. apply Forall_forall. intros cells Hin. apply not_true_iff_false. intros Hk.
    apply list_elem_of_lookup in Hin as [i Hi]. pose proof (lookup_lt_Some _ _ _ Hi) as Hlt.
    assert (Hrow : Z.of_nat i ∈ selected_rows (selection bt)).
    { apply Hrows. split; [lia|]. unfold zget. rewrite Nat2Z.id. unfold row_cells in *. by rewrite Hi. }
    apply contains_selected_rows in Hrow as [Hr Hsel]. rewrite Hbit, Hz, Z.bits_0 in Hsel by lia. done.
  - intros Hnone. rewrite Forall_forall in Hnone. apply Z.bits_inj'. intros row Hr. rewrite Z.bits_0.
    apply not_true_iff_false. intros Hbt. assert (row < 64).
    { destruct (Z.lt_ge_cases row 64); [done|]. pose proof (word_u64 (selection bt) 0 Hwf ltac:(lia)).
      by rewrite testbit_out in Hbt by (done || lia). }
    rewrite <- Hbit in Hbt by lia.
    assert (Hrow : row ∈ selected_rows (selection bt)).
    { apply contains_selected_rows. split; [|done]. destruct (Z.lt_ge_cases row (nrows (selection bt))); [done|].
      rewrite Hclean in Hbt by lia. done. }
    apply Hrows in Hrow as [Hr' Hk]. rewrite Hnone in Hk by by apply zget_elem. done.
Qed.

Definition accepted (l : list QualSpec) (cells : row_cells) : bool := forallb (filter_accepts attnums resolve ec cells) l.

Lemma filter_loop_ok n q s piece keep bt :
  0 ≤ q → q + Z.of_nat n = zlength specs → loaded s piece keep bt →
  wp (filter_loop target (seqZ q (Z.of_nat n))) (λ r s', match r with
    | Ok _ => same_frame s s' ∧ ∃ bt', loaded s' piece (λ cells, keep cells && accepted (drop (Z.to_nat q) specs) cells) bt'
    | Raise _ => scan_raises attnums resolve ec specs piece
    | Undefined => False end) s.
Proof.
  revert q s keep bt. induction n as [|n IH]; intros q s keep bt Hq Hn Hl.
  - apply wp_ret. split; [apply same_frame_refl|]. exists bt. eapply loaded_keep; [done|]. intros cells _.
    rewrite drop_ge by lia. by rewrite andb_true_r.
  - rewrite seqZ_cons by lia. replace (Z.pred (Z.of_nat (S n))) with (Z.of_nat n) by lia.
    replace (Z.succ q) with (q + 1) by lia. cbn [filter_loop].
    destruct (lookup_lt_is_Some_2 specs (Z.to_nat q)) as [spec Hspec]; [lia|]. rewrite (drop_S _ _ _ Hspec).
    apply (active_selection_ok s piece keep bt); [done|]. intros rows Hrows. destruct (Z.eqb_spec rows 0) as [E|].
    + apply wp_ret. split; [apply same_frame_refl|]. exists bt. eapply loaded_keep; [done|]. intros cells Hin.
      apply Hrows in E. rewrite Forall_forall in E. by rewrite E.
    + apply wp_bind. eapply wp_mono; [by apply (filter_qual_ok s piece keep bt q spec)|].
      intros [[]|err|] s1; [|done|done]. intros (Hf1 & bt1 & Hl1).
      eapply wp_mono; [eapply (IH (q + 1) s1); [lia|lia|exact Hl1]|].
      intros [[]|err|] s2; [|done|done]. intros (Hf2 & bt2 & Hl2). split; [by eapply same_frame_trans|].
      exists bt2. eapply loaded_keep; [exact Hl2|]. intros cells _. cbn [accepted forallb]. unfold accepted.
      replace (Z.to_nat (q + 1)) with (S (Z.to_nat q)) by lia. cbn. by rewrite andb_assoc.
Qed.

(** Counting changes the statistics only. *)
Lemma loaded_count s piece keep bt f :
  loaded s piece keep bt → let s' := with_source s (set_stats (sc_source s) (f (cs_stats (sc_source s)))) in
  loaded s' piece keep bt ∧ same_frame s s'.
Proof.
  intros Hl. apply loaded_source; [done|]. intros k0 o n (-> & Hr & Ha & a & Hact & Hk & Hn & Hok). split; [|done].
  split; [done|]. split; [done|]. split; [done|]. exists a. split_and!; [done|done|done|]. destruct Hok. by constructor.
Qed.

Lemma filter_batch_ok s piece bt :
  loaded s piece (λ _, true) bt →
  wp (filter_batch target) (λ r s', match r with
    | Ok _ => same_frame s s' ∧ ∃ bt', loaded s' piece (accepted specs) bt'
    | Raise _ => scan_raises attnums resolve ec specs piece
    | Undefined => False end) s.
Proof.
  intros Hl. unfold filter_batch. apply (active_selection_ok s piece (λ _, true) bt); [done|]. intros initial _.
  apply wp_gets. pose proof (Forall2_length _ _ _ (si_quals _ (lo_inv _ _ _ _ Hl))) as Hlen. rewrite <- Hlen.
  apply wp_bind. eapply wp_mono; [by apply (filter_loop_ok (length specs) 0 s piece (λ _, true) bt)|].
  intros [[]|err|] s1; [|done|done]. intros (Hf1 & bt1 & Hl1).
  eapply active_selection_ok; [exact Hl1|]. intros rows _. apply wp_modify_end.
  destruct (loaded_count s1 piece _ bt1 (λ st, count_removed st (pg_popcount64 initial - pg_popcount64 rows)) Hl1) as [Hl2 Hf2].
  split; [by eapply same_frame_trans|]. exists bt1. exact Hl2.
Qed.
(** ** Publishing *)

Lemma publish_succeeds w kb bd bt :
  bridge_inv w → bindings w !! b = Some bd → complete bd → batch bd = None → batches w !! kb = Some bt →
  abi_version bt = PG_BATCH_ABI_VERSION → struct_size bt = sizeof_PgBatch → ops bt = Some compressed_ops → generation bt = 0 →
  sel_wf (selection bt) → sel_clean (selection bt) →
  max_rows (request bd) = 0 ∨ nrows (selection bt) ≤ max_rows (request bd) →
  next_batch_generation w < 2 ^ 64 - 1 → (publish_batch b (Some kb) w).1 = Ok tt.
Proof.
  intros Hi Hb [cops Hc] Hnone Hk Habi Hsize Hops Hgen Hwf Hclean Hmax Hnext.
  cut (wp (publish_batch b (Some kb)) (λ r _, r = Ok tt) w); [by intros [_ ?]|].
  unfold publish_batch. apply (wp_binding_at b bd); [done|]. rewrite Hnone. apply wp_error_if; [done|]. intros _.
  apply (wp_batch_at kb bt); [done|]. rewrite Habi, Hsize. apply wp_lift; [done|done|]. intros _ _.
  pose proof (wf_nrows _ Hwf). pose proof (wf_nwords _ Hwf). pose proof (wf_length _ Hwf).
  rewrite Hops, words_not_null by done. apply wp_error_if; [lia|]. intros _.
  rewrite Hgen. apply wp_error_if; [done|]. intros _. apply wp_error_if; [lia|]. intros _.
  destruct (beyond_end_spec _ Hwf) as (beyond & -> & Hb0). apply Hb0 in Hclean. rewrite Hclean.
  apply wp_lift; [done|done|]. intros _ [= <-]. apply wp_error_if; [done|]. intros _. apply wp_deref. apply wp_bind.
  apply (wp_mono _ (λ r w1, r = Ok tt ∧ ∃ bd1, w1 = with_bindings w (<[b := bd1]> (bindings w)))).
  { case_bool_decide.
    - apply wp_ret. split; [done|]. exists bd. rewrite insert_id by done. by destruct w.
    - apply wp_lift; [done|done|]. intros _ _. apply wp_error_if; [done|]. intros _.
      apply (wp_update_binding_end b bd); [done|]. split; [done|]. by eexists. }
  intros r w1 (-> & bd1 & ->). apply (wp_update_binding b bd1); [by apply lookup_insert_eq|].
  pose proof (bi_next w Hi) as Hn. apply take_generation_eq; [cbn; lia|]. cbn.
  destruct (Z.eqb_spec (next_batch_generation w) 0); [lia|]. apply wp_bind, wp_ret.
  apply (wp_update_batch kb bt); [done|]. apply (wp_update_binding b (set_sealed bd1)); [by apply lookup_insert_eq|].
  rewrite Hc. apply wp_deref. by apply wp_emit_end.
Qed.

(** The scan while its binding holds a piece. *)
Record holding (s : CompressedScan) (piece : list row_cells) (keep : row_cells → bool) (bt : PgBatch) : Prop := {
  ho_bridge : bridge_inv (sc_bridge s);
  ho_cache : cache_ok (world_of s);
  ho_quals : Forall2 (qual_ok attnums resolve) specs (sc_quals s);
  ho_context : sc_econtext s = ec;
  ho_mode : sc_mode s = mode;
  ho_request : sc_request s = b;
  ho_cursor : cursor_ok gb chunks (sc_cursor s);
  ho_prunes : prune_quals_ready (sc_cursor s) = true → prune_quals ec specs = Ok (sq_prune <$> sc_quals s);
  ho_binding : ∃ bd, bindings (sc_bridge s) !! b = Some bd ∧ complete bd ∧ batch bd = Some (k s) ∧ finished bd = false;
  ho_served : served (world_of s) (k s) bt compressed_ops;
  ho_wf : sel_wf (selection bt) ∧ sel_clean (selection bt) ∧ nrows (selection bt) = zlength piece;
  ho_rows row : row ∈ selected_rows (selection bt) ↔ 0 ≤ row < zlength piece ∧ keep (zget [] piece row) = true;
  ho_content column row : 0 ≤ row < zlength piece →
    content (sc_source s) (k s) column row = scan_cell attnums (zget [] piece row) column;
}.

Lemma loaded_cursor s piece keep bt c :
  loaded s piece keep bt → cursor_ok gb chunks c → prune_quals_ready c = prune_quals_ready (sc_cursor s) →
  loaded (set_cursor s c) piece keep bt.
Proof. intros [[] ? ? ? ? ? ? ?] Hc Hp. constructor; try done. constructor; try done. cbn. by rewrite Hp. Qed.

Lemma publish_ok s piece keep bt bd :
  loaded s piece keep bt → bindings (sc_bridge s) !! b = Some bd →
  max_rows (request bd) = 0 ∨ zlength piece ≤ max_rows (request bd) →
  next_batch_generation (sc_bridge s) < 2 ^ 64 - 1 →
  wp (in_bridge (publish_batch b (Some (k s)))) (λ r s', r = Ok tt ∧ sc_cursor s' = sc_cursor s ∧ k s' = k s ∧
    next_batch_generation (sc_bridge s') = next_batch_generation (sc_bridge s) + 1 ∧ ∃ bt', holding s' piece keep bt') s.
Proof.
  intros [Hinv Hserves Hbatch (Habi & Hsize & Hops & Hgen) (Hwf & Hclean & Hn) Hlen Hrows Hcontent] Hbd Hmax Hnext.
  pose proof Hinv as []. destruct si_binding0 as (bd0 & Hb0 & Hcomp & Hnone). assert (bd0 = bd) as -> by congruence.
  apply wp_in_bridge.
  pose proof (publish_succeeds (sc_bridge s) (k s) bd bt si_bridge0 Hbd Hcomp Hnone Hbatch Habi Hsize Hops Hgen Hwf Hclean) as Hok.
  rewrite Hn in Hok. specialize (Hok Hmax Hnext).
  destruct (publish_good (sc_bridge s) b (k s) si_bridge0) as [_ [(Hi' & Hev & _) Hpub]]; [split_and!; [by exists bd|eauto..]|].
  unfold wp. cbn [run_op] in *. destruct (publish_batch b (Some (k s)) (sc_bridge s)) as [r w']. cbn [fst snd] in *. subst r.
  split; [done|]. split; [done|]. split; [done|]. split; [done|].
  destruct (Hpub eq_refl) as (bd1 & bt1 & Hb1 & Hk1 & _ & _ & _ & _ & Hbs & Hnx & _ & bd' & Hb' & Hbat & Hfin & _).
  assert (bt1 = bt) as -> by congruence. split; [done|].
  exists (set_generation bt (next_batch_generation (sc_bridge s))). constructor; try done.
  - exists bd'. split_and!; try done.
    destruct (ev_binding _ _ _ Hev b bd Hbd) as [(bd2 & Hb2 & Hkeep)|[?|?]]; [|done|done].
    assert (bd2 = bd') as -> by congruence. by eapply keeps_complete.
  - constructor; cbn; [by rewrite Hbs, lookup_insert_eq|done|]. rewrite Hn. exact Hserves.
Qed.

(** ** Releasing *)

(** The callbacks behind the bridge's new events. *)
Fixpoint run_releases (l : list bridge_event) : Scan unit :=
  match l with
  | [] => mret tt
  | Release released :: l => _ ← in_scan (release_batch released); run_releases l
  | _ :: l => run_releases l
  end.

(** [clear] of the bridge, with the release callback it calls. *)
Definition clear_binding : Scan unit :=
  before ← gets (λ s, length (events (sc_bridge s)));
  _ ← in_bridge (clear (Some b));
  new ← gets (λ s, drop before (events (sc_bridge s)));
  run_releases new.

Lemma clear_exact w bd bt kb :
  bindings w !! b = Some bd → batch bd = Some kb → batches w !! kb = Some bt → ops bt = Some compressed_ops →
  clear (Some b) w = (Ok tt, with_event (with_batches (with_bindings w (<[b := set_batch bd None false]> (bindings w)))
    (<[kb := set_generation bt 0]> (batches w))) (Release kb)).
Proof.
  intros Hb Hk Hbt Ho. unfold clear, Bridge.release_batch, update_binding, update_batch, binding_at, batch_at, gets, modify, emit,
    deref, lift, mbind, st_bind, mret, st_ret.
  rewrite Hb. cbn. rewrite Hk. cbn. rewrite Hb. cbn. rewrite Hbt. cbn. rewrite lookup_insert_eq. cbn. by rewrite Ho.
Qed.

(** A scan that a consumer may use or start over: its binding is free, or still
    holds a batch. *)
Record scan_ready (s : CompressedScan) : Prop := {
  sr_relation : cs_relation (sc_source s) = cr;
  sr_attnums : cs_source_attnums (sc_source s) = attnums;
  sr_ncolumns : cs_ncolumns (sc_source s) = zlength attnums;
  sr_bridge : bridge_inv (sc_bridge s);
  sr_cache : cache_ok (world_of s);
  sr_quals : Forall2 (qual_ok attnums resolve) specs (sc_quals s);
  sr_context : sc_econtext s = ec;
  sr_mode : sc_mode s = mode;
  sr_request : sc_request s = b;
  sr_binding :
    ((∃ bd, bindings (sc_bridge s) !! b = Some bd ∧ complete bd ∧ batch bd = None) ∧ ¬ held (sc_bridge s) (k s) ∧ cs_active (sc_source s) = None) ∨
    ∃ bd bt, bindings (sc_bridge s) !! b = Some bd ∧ complete bd ∧ batch bd = Some (k s) ∧ served (world_of s) (k s) bt compressed_ops;
}.

Lemma idle_ready s : idle s → scan_ready s.
Proof. intros [[] Hact]. constructor; try done. by left. Qed.

Lemma holding_ready s piece keep bt : holding s piece keep bt → scan_ready s.
Proof.
  intros []. destruct ho_binding0 as (bd & Hb & Hc & Hk & _). pose proof ho_served0 as [_ _ Hserves].
  pose proof Hserves as (_ & Hrel & Hatts & a & Ha & _ & _ & Haok). pose proof (ao_attnums _ _ Haok) as Hn.
  rewrite Hatts in Hn. constructor; try done. right. by exists bd, bt.
Qed.

Lemma ready_cursor s c : scan_ready s → scan_ready (set_cursor s c).
Proof. intros []. by constructor. Qed.

Lemma clear_binding_ok s :
  scan_ready s → cursor_ok gb chunks (sc_cursor s) →
  (prune_quals_ready (sc_cursor s) = true → prune_quals ec specs = Ok (sq_prune <$> sc_quals s)) →
  wp clear_binding (λ r s', r = Ok tt ∧ idle s' ∧ sc_cursor s' = sc_cursor s ∧ k s' = k s ∧
    next_batch_generation (sc_bridge s') = next_batch_generation (sc_bridge s)) s.
Proof.
  intros [] Hcur Hpr. unfold clear_binding. apply wp_gets, wp_bind, wp_in_bridge.
  destruct sr_binding0 as [((bd & Hb & Hcomp & Hnone) & Hheld & Hact)|(bd & bt & Hb & Hcomp & Hk & [Hbt Hops Hserves])].
  { unfold clear, Bridge.release_batch. apply (wp_binding_at b bd); [done|]. rewrite Hnone. apply wp_ret, wp_gets.
    replace (with_bridge s (sc_bridge s)) with s by by destruct s. rewrite drop_ge by done. apply wp_ret.
    split_and!; try done. split; [|done]. constructor; try done. by exists bd. }
  cbn in Hbt. pose proof (clear_exact _ bd bt (k s) Hb Hk Hbt Hops) as E.
  destruct (release_batch_good (OpClear b) (sc_bridge s) b sr_bridge0) as [_ ([Hi' _] & _)]; [by exists bd|].
  change (Bridge.release_batch b) with (clear (Some b)) in Hi'. unfold wp at 1. rewrite E in *. cbn [fst snd] in *. split; [done|].
  set (w' := with_event _ _) in *. apply wp_gets. cbn [sc_bridge with_bridge].
  replace (drop (length (events (sc_bridge s))) (events w')) with [Release (k s)] by by (cbn; rewrite drop_app_length).
  cbn [run_releases]. pose proof Hserves as (_ & _ & _ & a & Ha & Hka & _ & _). apply wp_bind, wp_in_scan.
  unfold release_batch. apply wp_bind. eapply active_of_ok; [done|done|]. apply wp_modify_end, wp_ret. split; [done|].
  split; [|done]. split; [|done]. constructor; try done.
  - exists (set_batch bd None false). cbn. by rewrite lookup_insert_eq.
  - cbn. intros (b' & bd' & Hb' & Hk'). cbn in Hb'. destruct (decide (b' = b)) as [->|Hne].
    + rewrite lookup_insert_eq in Hb'. by injection Hb' as <-.
    + rewrite lookup_insert_ne in Hb' by done. by destruct (Hne (bi_unique _ sr_bridge0 b' b bd' bd (k s) Hb' Hb Hk' Hk)).
Qed.
End load.
