(* ===== verification/CompressedRun.v ===== *)
(** * The walk over a snapshot

    Turn by turn: a group is entered or left out, a piece of a batch is loaded,
    filtered and published.  A call of [pg_batch_compressed_scan_next] takes
    rows off the front of those that remain, and what it does not deliver no
    query wants. *)

From S2P Require Import Prelude Words Bytes Selection Vector Kernels Int4 Bitmaps Batch Columns Bridge BridgeInv BridgeOps Expr ExprProps ExprEval ExprSpec ExprContract Compressed CompressedColumns CompressedBuild CompressedTable CompressedProps CompressedScan CompressedSource CompressedNext CompressedWalk CompressedLoad.

Lemma concat_drop_le {A} n (l : list (list A)) : (length (concat (drop n l)) ≤ length (concat l))%nat.
Proof. rewrite <- (take_drop n l) at 2. rewrite concat_app, length_app. lia. Qed.

Section run.
Context `{PC : PgCore} `{BM : Bitmapsets} `{EX : PgExecutor} `{SX : !ScalarExecutor} (target : simd_target).
Context (cr : CompressedRelation) (natts gb : Z) (chunks : list (list row_cells)).
Context (Hs : snapshot_ok natts gb (set_refcount cr 0) chunks) (Hgb : 1 ≤ gb) (Hmax : zlength chunks ≤ max_batches).
Context (attnums : list Z) (Hatt : Forall (λ a, 1 ≤ a ≤ natts) attnums).
Context (resolve : VarNode → Z) (Hres : resolves resolve) (specs : list QualSpec).
Context (Hspecs : Forall (λ q, qs_prunable q = true → 1 ≤ qs_attnum q ≤ natts) specs).
Context (ec : ExprContext) (mode : SourceScanMode) (b : Z).

Abbreviation k s := (sc_batch_address s).
Abbreviation rem s := (remaining chunks (sc_cursor s)).
Abbreviation ngroups := (group_count gb (zlength chunks)).
Abbreviation idle := (idle cr gb chunks attnums resolve specs ec mode b).
Abbreviation scan_inv := (scan_inv cr gb chunks attnums resolve specs ec mode b).
Abbreviation loaded := (loaded cr gb chunks attnums resolve specs ec mode b).
Abbreviation holding := (holding cr gb chunks attnums resolve specs ec mode b).
Abbreviation kept := (kept attnums resolve ec mode specs).
Abbreviation generation_of s := (next_batch_generation (sc_bridge s)).

Lemma chunks_small : Forall (λ chunk, 1 ≤ zlength chunk ≤ 64) chunks.
Proof.
  apply Forall_lookup_2. intros i chunk Hi. destruct (Forall2_lookup_r _ _ _ _ _ (so_batches _ _ _ _ Hs) Hi) as (x & _ & Hx & _).
  exact Hx.
Qed.

Lemma stored_chunk i :
  0 ≤ i < zlength chunks → ∃ stored, cr_batches cr !! Z.to_nat i = Some stored ∧
    CompressedBuild.batch_ok natts stored (zget [] chunks i).
Proof.
  intros Hi. destruct (chunk_bounds chunks chunks_small i Hi) as [E _].
  destruct (Forall2_lookup_r _ _ _ _ _ (so_batches _ _ _ _ Hs) E) as (stored & Hst & Hok). by exists stored.
Qed.

Lemma inv_cursor s c :
  scan_inv s → cursor_ok gb chunks c → prune_quals_ready c = prune_quals_ready (sc_cursor s) → scan_inv (set_cursor s c).
Proof. intros [] Hc Hp. constructor; try done. cbn. by rewrite Hp. Qed.

Lemma inv_count s f : scan_inv s → scan_inv (with_source s (set_stats (sc_source s) (f (cs_stats (sc_source s))))).
Proof. intros []. by constructor. Qed.

(** *** A piece of a batch *)

Definition scan_batch_post (s : CompressedScan) (r : res bool) (s' : CompressedScan) : Prop :=
  match r with
  | Ok p => k s' = k s ∧ group_index (sc_cursor s') = group_index (sc_cursor s) ∧
      group_ready (sc_cursor s') = group_ready (sc_cursor s) ∧
      prune_quals_ready (sc_cursor s') = prune_quals_ready (sc_cursor s) ∧
      ∃ piece, piece ≠ [] ∧ rem s = piece ++ rem s' ∧
        if p then (∃ bt, holding s' piece kept bt) ∧ ¬ Forall (λ cells, kept cells = false) piece ∧ generation_of s' = generation_of s + 1
        else idle s' ∧ Forall (λ cells, kept cells = false) piece ∧ generation_of s' = generation_of s
  | Raise _ => scan_raises attnums resolve ec specs (rem s)
  | Undefined => False
  end.

(** What follows loading and moving on. *)
Lemma finish_piece s piece bt bd (Q : res bool → CompressedScan → Prop) :
  loaded s piece (λ _, true) bt → bindings (sc_bridge s) !! b = Some bd →
  max_rows (request bd) = 0 ∨ zlength piece ≤ max_rows (request bd) → generation_of s < 2 ^ 64 - 1 →
  (∀ s' bt', holding s' piece kept bt' → ¬ Forall (λ cells, kept cells = false) piece → sc_cursor s' = sc_cursor s →
     k s' = k s → generation_of s' = generation_of s + 1 → Q (Ok true) s') →
  (∀ s', idle s' → Forall (λ cells, kept cells = false) piece → sc_cursor s' = sc_cursor s → k s' = k s →
     generation_of s' = generation_of s → Q (Ok false) s') →
  (∀ e s', scan_raises attnums resolve ec specs piece → Q (Raise e) s') →
  wp (mode ← gets sc_mode;
      _ ← (match mode with PG_BATCH_TAM_FILTER => filter_batch target | _ => mret tt end);
      rows ← active_selection;
      k ← gets sc_batch_address;
      if rows =? 0 then _ ← in_scan (release_batch k); mret false
      else _ ← in_bridge (publish_batch b (Some k)); mret true) Q s.
Proof.
  intros Hl Hbd Hmaxr Hgen Htrue Hfalse Hraise. apply wp_gets. rewrite (si_mode _ _ _ _ _ _ _ _ _ _ (lo_inv _ _ _ _ _ _ _ _ _ _ _ _ _ Hl)).
  apply wp_bind, (wp_mono _ (λ r s', match r with
    | Ok _ => same_frame s s' ∧ ∃ bt', loaded s' piece kept bt'
    | Raise _ => scan_raises attnums resolve ec specs piece | Undefined => False end)).
  { destruct mode; [apply wp_ret; split; [apply same_frame_refl|]; by exists bt..|]. by eapply filter_batch_ok. }
  intros [[]|err|] s1; [|by apply Hraise|done]. intros ((Hf1 & _ & Hf3 & _ & Hf5 & Hf6) & bt1 & Hl1).
  eapply (active_selection_ok cr gb chunks); [exact Hl1|]. intros rows Hrows. apply wp_gets. destruct (Z.eqb_spec rows 0) as [E|].
  - pose proof Hl1 as [Hinv1 Hserves1 _ _ _ _ _ _]. pose proof Hserves1 as (_ & _ & _ & a & Ha & Hka & _).
    apply wp_bind, wp_in_scan. unfold release_batch. apply wp_bind. eapply active_of_ok; [done|done|]. apply wp_modify_end, wp_ret.
    apply Hfalse; try done; [|by apply Hrows]. split; [|done]. destruct Hinv1. by constructor.
  - apply wp_bind. eapply wp_mono; [eapply (publish_ok cr gb chunks attnums resolve specs ec mode b s1 piece kept bt1 bd Hl1)|].
    + by rewrite Hf1.
    + done.
    + by rewrite Hf3.
    + intros r s2 (-> & Hc2 & Hk2 & Hg2 & bt2 & Hh2). apply wp_ret. eapply Htrue; [exact Hh2|by rewrite <- Hrows|congruence|congruence|congruence].
Qed.
Lemma loaded_frame_count s piece keep bt f :
  loaded s piece keep bt → let s' := with_source s (set_stats (sc_source s) (f (cs_stats (sc_source s)))) in loaded s' piece keep bt.
Proof. intros Hl. eapply (loaded_count cr gb chunks). exact Hl. Qed.

Lemma scan_batch_ok s :
  idle s → group_index (sc_cursor s) < ngroups → group_ready (sc_cursor s) = true →
  batch_index (sc_cursor s) < group_end gb chunks (group_index (sc_cursor s)) → generation_of s < 2 ^ 64 - 1 →
  wp (scan_batch target b) (scan_batch_post s) s.
Proof.
  intros [Hinv Hact] Hg Hready Hlt Hgen. pose proof Hinv as [Hrel _ _ Hbridge _ _ _ _ Hreq (bd & Hbd & Hcomp & Hnone) _ Hcur _]. set (c := sc_cursor s) in *.
  pose proof (cu_batch _ _ _ Hcur Hg) as Hrange. pose proof (cu_group _ _ _ Hcur) as Hg0.
  assert (Hb : 0 ≤ batch_index c < zlength chunks) by (unfold group_end in Hlt; nia).
  destruct (stored_chunk _ Hb) as (stored & Hstored & Hok). set (chunk := zget [] chunks (batch_index c)) in *.
  pose proof (cu_row _ _ _ Hcur (proj2 Hb)) as Hrow. fold chunk in Hrow. pose proof Hok as (Hlen & Hnr & _).
  unfold scan_batch, cursor. apply wp_gets, wp_gets. fold c. rewrite Hrel, (aref_lookup _ _ _ (proj1 Hb) Hstored).
  apply wp_lift; [done|done|]. intros _ [= <-].
  apply wp_bind, wp_gets, wp_in_bridge. rewrite Hreq. unfold binding_at. apply wp_gets. rewrite Hbd.
  unfold deref at 1, lift, wp at 1. cbn [fst snd]. split; [done|].
  replace (with_bridge s (sc_bridge s)) with s by by destruct s.
  destruct (bi_binding _ Hbridge b bd Hbd Hcomp) as ((_ & _ & _ & _ & _ & Hm & _) & _).
  set (n := Z.min (if 0 <? max_rows (request bd) then Z.min (max_rows (request bd)) PG_BATCH_SIZE else PG_BATCH_SIZE)
              (cb_nrows stored - batch_row c)).
  assert (Hn : 1 ≤ n ≤ 64 ∧ batch_row c + n ≤ zlength chunk ∧ (max_rows (request bd) = 0 ∨ n ≤ max_rows (request bd))).
  { unfold n, PG_BATCH_SIZE. rewrite Hnr. destruct (Z.ltb_spec 0 (max_rows (request bd))); split_and!; lia. }
  destruct Hn as (Hn & Hle & Hmaxr). set (piece := take (Z.to_nat n) (drop (Z.to_nat (batch_row c)) chunk)).
  pose proof (piece_length (batch_row c) n chunk) as Hplen. fold piece in Hplen.
  apply wp_bind. eapply wp_mono; [apply (load_batch_ok cr natts gb chunks attnums Hatt resolve specs ec mode b s chunk); try done; lia|].
  intros r s1 (-> & (Hf1 & _ & Hf3 & _ & Hf5 & Hf6) & bt & Hl1). cbn beta iota. apply wp_bind.
  apply (wp_mono _ (λ r s2, r = Ok tt ∧ loaded s2 piece (λ _, true) bt ∧ bindings (sc_bridge s2) = bindings (sc_bridge s) ∧
    generation_of s2 = generation_of s ∧ k s2 = k s ∧ sc_cursor s2 = c)).
  { destruct (batch_row c =? 0); [|by apply wp_ret].
    apply wp_modify_end. split; [done|]. split; [|by split_and!]. exact (loaded_frame_count s1 piece (λ _, true) bt (λ st, count_bytes st (cb_bytes stored)) Hl1). }
  intros r s2 (-> & Hl2 & Hb2 & Hg2 & Hk2 & Hc2). cbn beta iota. apply wp_modify. rewrite Hc2, Hnr.
  set (c' := if _ =? _ then _ else _).
  assert (Hc' : cursor_ok gb chunks c') by (apply piece_ok; [exact Hgb|exact chunks_small|done|done|done|done|lia|done]).
  assert (Hsplit : remaining chunks c = piece ++ remaining chunks c') by (apply remaining_piece; [exact chunks_small|done|lia|lia|done]).
  assert (Hsame : group_index c' = group_index c ∧ group_ready c' = group_ready c ∧ prune_quals_ready c' = prune_quals_ready c)
    by by (unfold c'; destruct (_ =? _)).
  destruct Hsame as (Hs1 & Hs2 & Hs3).
  assert (Hl3 : loaded (set_cursor s2 c') piece (λ _, true) bt).
  { eapply (loaded_cursor cr gb chunks); [exact Hl2|done|]. by rewrite Hc2. }
  assert (piece ≠ []) by (intros E; rewrite E in Hplen; simpl in Hplen; lia).
  apply (finish_piece (set_cursor s2 c') piece bt bd); [exact Hl3|by cbn; rewrite Hb2|lia|cbn; lia|..].
  - intros s3 bt3 Hh Hsome Hc3 Hk3 Hg3. cbn in *. rewrite Hc3. split_and!; [congruence|done|done|done|].
    exists piece. split_and!; [done|done|by eexists|done|congruence].
  - intros s3 Hi Hno Hc3 Hk3 Hg3. cbn in *. rewrite Hc3. split_and!; [congruence|done|done|done|].
    exists piece. split_and!; [done|done|done|done|congruence].
  - intros e s3 Hr. cbn. fold c. rewrite Hsplit. destruct Hr as [Hr|(q & node & cells & err & Hq & Hn' & Hin & Hr)]; [by left|right].
    exists q, node, cells, err. split_and!; [done|done|by apply elem_of_app; left|done].
Qed.

(** *** Entering a group *)

Context (prunes : list PruneQual) (Hprunes : prune_quals ec specs = Ok prunes).
Abbreviation wanted := (wanted attnums resolve ec mode specs prunes).

Lemma prunes_wf : quals_wf natts prunes.
Proof.
  apply prune_quals_spec in Hprunes. apply Forall_lookup_2. intros i p Hp Hpr.
  destruct (Forall2_lookup_r _ _ _ _ _ Hprunes Hp) as (q & Hq & E).
  pose proof (Forall_lookup_1 _ _ _ _ Hspecs Hq) as Hok. cbn in Hok. unfold prune_of in E.
  destruct (qs_scalar q); [|injection E as <-; by apply Hok]. apply bind_ok_inv in E as (v & _ & [= <-]). by apply Hok.
Qed.

Lemma group_lookup j :
  0 ≤ j < ngroups → ∃ group, cr_groups cr !! Z.to_nat j = Some group ∧
    sg_first_batch group + sg_nbatches group = group_end gb chunks j ∧ group_summary natts group (concat (group_part gb j chunks)).
Proof.
  intros Hj. pose proof (so_ngroups _ _ _ _ Hs) as Hng. change (zlength (cr_groups cr) = ngroups) in Hng.
  destruct (lookup_lt_is_Some_2 (cr_groups cr) (Z.to_nat j)) as [group Hg]; [lia|]. exists group. split; [done|].
  destruct (so_groups _ _ _ _ Hs j group Hg (proj1 Hj)) as (H1 & H2 & H3). split; [|done]. rewrite H1, H2. unfold group_end. lia.
Qed.

Definition enter_post (s s' : CompressedScan) : Prop :=
  idle s' ∧ k s' = k s ∧ generation_of s' = generation_of s ∧ group_index (sc_cursor s') = group_index (sc_cursor s) ∧
  group_ready (sc_cursor s') = true ∧ prune_quals_ready (sc_cursor s') = true ∧
  ∃ skipped, rem s = skipped ++ rem s' ∧ Forall (λ cells, wanted cells = false) skipped.

Lemma enter_group_ok s group :
  idle s → 0 ≤ group_index (sc_cursor s) < ngroups → group_ready (sc_cursor s) = false → prune_quals_ready (sc_cursor s) = true →
  group_summary natts group (concat (group_part gb (group_index (sc_cursor s)) chunks)) →
  wp (enter_group group (group_end gb chunks (group_index (sc_cursor s)))) (λ r s', r = Ok tt ∧ enter_post s s') s.
Proof.
  intros [Hinv Hact] Hg Hready Hpr Hsum. set (j := group_index (sc_cursor s)) in *. unfold enter_group.
  pose proof (si_cursor _ _ _ _ _ _ _ _ _ _ Hinv) as Hcur.
  pose proof (si_prunes _ _ _ _ _ _ _ _ _ _ Hinv Hpr) as Hp. rewrite Hprunes in Hp. injection Hp as Hp.
  apply wp_gets. rewrite (si_mode _ _ _ _ _ _ _ _ _ _ Hinv). apply wp_bind.
  destruct (group_may_match_ok natts prunes group _ Hsum prunes_wf) as (m & Em & Hm).
  apply (wp_mono _ (λ r s1, ∃ m, r = Ok m ∧ (idle s1 ∧ k s1 = k s ∧ generation_of s1 = generation_of s ∧ sc_cursor s1 = sc_cursor s) ∧
    (m ≠ PG_BATCH_GROUP_MATCH → ∀ cells, cells ∈ concat (group_part gb j chunks) → wanted cells = false))).
  { assert (Htest : mode ≠ PG_BATCH_TAM_BATCH → wp (_ ← count count_examined; quals ← gets sc_quals; lift (group_may_match (sq_prune <$> quals) group))
      (λ r s1, ∃ m, r = Ok m ∧ (idle s1 ∧ k s1 = k s ∧ generation_of s1 = generation_of s ∧ sc_cursor s1 = sc_cursor s) ∧
        (m ≠ PG_BATCH_GROUP_MATCH → ∀ cells, cells ∈ concat (group_part gb j chunks) → wanted cells = false)) s).
    { intros Hmode. apply wp_modify, wp_gets. cbn [sc_quals with_source]. rewrite <- Hp, Em. split; [done|]. exists m. split; [done|]. split.
      - split_and!; try done. split; [by apply inv_count|done].
      - intros Hne cells Hin. unfold CompressedWalk.wanted, candidate. rewrite (Hm Hne cells Hin).
        destruct mode; [done|by rewrite andb_false_r..]. }
    destruct mode; [|by apply Htest..]. apply wp_ret. exists PG_BATCH_GROUP_MATCH. by split_and!. }
  intros r s1 (m1 & -> & ([Hinv1 Hact1] & Hk1 & Hg1 & Hc1) & Hskip). cbn beta iota. apply wp_modify. rewrite Hc1.
  assert (Hinv2 : scan_inv (set_cursor s1 (set_group_ready (sc_cursor s) true))).
  { apply inv_cursor; [done|by apply enter_ok|by rewrite Hc1]. }
  assert (Hleave : ∀ f, m1 ≠ PG_BATCH_GROUP_MATCH →
    wp (_ ← count f; move (λ c, set_position c (group_end gb chunks j) 0)) (λ r s', r = Ok tt ∧ enter_post s s')
      (set_cursor s1 (set_group_ready (sc_cursor s) true))).
  { intros f Hne. apply wp_modify, wp_modify_end. split; [done|]. cbn. unfold enter_post. cbn. split_and!; try done.
    - split; [|done]. assert (Hinv3 := inv_count _ f Hinv2).
      apply (inv_cursor _ (set_position (set_group_ready (sc_cursor s) true) (group_end gb chunks j) 0)) in Hinv3; [exact Hinv3| |done].
      apply skip_ok; [exact Hgb|exact chunks_small|done|lia].
    - exists (concat (group_part gb j chunks)). split; [exact (remaining_skip gb chunks Hgb (sc_cursor s) Hcur (proj2 Hg) Hready)|].
      apply Forall_forall. by apply Hskip. }
  destruct m1; [|by apply Hleave..]. apply wp_ret. split; [done|]. split_and!; try done. exists []. by split.
Qed.
(** *** The loop *)

Definition scan_post (s : CompressedScan) (r : res bool) (s' : CompressedScan) : Prop :=
  match r with
  | Ok p => k s' = k s ∧ prune_quals_ready (sc_cursor s') = true ∧ ∃ skipped, Forall (λ cells, wanted cells = false) skipped ∧
      if p then generation_of s' = generation_of s + 1 ∧ ∃ piece bt, rem s = skipped ++ piece ++ rem s' ∧
        ¬ Forall (λ cells, kept cells = false) piece ∧ holding s' piece kept bt
      else generation_of s' = generation_of s ∧ rem s = skipped ∧ rem s' = [] ∧ idle s'
  | Raise _ => scan_raises attnums resolve ec specs (rem s)
  | Undefined => False
  end.

Lemma raises_app l1 l2 : scan_raises attnums resolve ec specs l2 → scan_raises attnums resolve ec specs (l1 ++ l2).
Proof.
  intros [Hr|(q & node & cells & err & Hq & Hn & Hin & Hr)]; [by left|right]. exists q, node, cells, err.
  split_and!; [done|done|by apply elem_of_app; right|done].
Qed.

(** Rows left out before. *)
Lemma scan_post_app s s1 skipped r s' :
  rem s = skipped ++ rem s1 → Forall (λ cells, wanted cells = false) skipped → k s1 = k s → generation_of s1 = generation_of s →
  scan_post s1 r s' → scan_post s r s'.
Proof.
  intros E Hno Hk Hg. unfold scan_post. rewrite E. destruct r as [p|err|]; [|by apply raises_app|done].
  intros (Hk' & Hp & skipped' & Hno' & Hpost). split; [congruence|]. split; [done|]. exists (skipped ++ skipped').
  split; [by apply Forall_app|]. destruct p.
  - destruct Hpost as (Hg' & piece & bt & -> & Hne & Hh). split; [congruence|]. exists piece, bt. by rewrite <- app_assoc.
  - destruct Hpost as (Hg' & -> & ? & ?). split; [congruence|done].
Qed.

Lemma unwanted_piece piece : Forall (λ cells, kept cells = false) piece → Forall (λ cells, wanted cells = false) piece.
Proof. intros Hno. eapply Forall_impl; [exact Hno|]. intros cells E. cbn in *. unfold CompressedWalk.wanted. by rewrite E. Qed.

Lemma scan_loop_ok fuel s :
  idle s → prune_quals_ready (sc_cursor s) = true → generation_of s < 2 ^ 64 - 1 →
  zlength (rem s) + (ngroups - group_index (sc_cursor s)) ≤ Z.of_nat fuel →
  wp (scan_loop target fuel b) (scan_post s) s.
Proof.
  revert s. induction fuel as [|fuel IH]; intros s Hidle Hp Hgen Hfuel; pose proof Hidle as [Hinv Hact];
    pose proof Hinv as [Hrel _ _ _ _ _ _ _ _ _ _ Hcur _]; pose proof (cu_group _ _ _ Hcur) as Hg;
    cbn [scan_loop]; unfold cursor; apply wp_gets, wp_gets; rewrite Hrel;
    pose proof (so_ngroups _ _ _ _ Hs) as Hng; change (cr_ngroups cr = ngroups) in Hng; rewrite Hng;
    destruct (Z.ltb_spec (group_index (sc_cursor s)) ngroups) as [Hlt|Hge]; cbn [negb].
  - lia.
  - apply wp_ret. split; [done|]. split; [done|]. exists []. assert (rem s = []) as E by (apply (remaining_done gb); [done|lia]).
    split_and!; [done|done|done|done|done].
  - destruct (group_lookup (group_index (sc_cursor s))) as (group & Hgroup & Hend & Hsum); [lia|].
    rewrite (aref_lookup _ _ _ (proj1 Hg) Hgroup). apply wp_lift; [done|done|]. intros _ [= <-]. rewrite Hend.
    assert (in_s32 (group_end gb chunks (group_index (sc_cursor s))) = true) as ->.
    { apply in_s32_spec. unfold is_s32, group_end, max_batches in *. nia. }
    apply wp_lift; [done|done|]. intros _ _. apply wp_bind.
    apply (wp_mono _ (λ r s1, r = Ok tt ∧ enter_post s s1)).
    { destruct (group_ready (sc_cursor s)) eqn:Hr; [|apply enter_group_ok; (done || lia)].
      apply wp_ret. split; [done|]. split_and!; try done. exists []. by split. }
    intros r s1 (-> & Hidle1 & Hk1 & Hg1 & Hi1 & Hr1 & Hp1 & skipped & Eskip & Hskip). cbn beta iota. apply wp_gets.
    pose proof (length_app skipped (rem s1)) as Hlen1. rewrite <- Eskip in Hlen1.
    pose proof Hidle1 as [Hinv1 _]. pose proof (si_cursor _ _ _ _ _ _ _ _ _ _ Hinv1) as Hcur1.
    eapply wp_mono; [|intros r s'; apply (scan_post_app s s1 skipped); done]. rewrite <- Hi1 in Hlt |- *.
    destruct (Z.ltb_spec (batch_index (sc_cursor s1)) (group_end gb chunks (group_index (sc_cursor s1)))) as [Hb|Hb].
    + apply wp_bind. eapply wp_mono; [apply scan_batch_ok; [done|done|done|done|lia]|].
      intros [p|err|] s2; [|done|done]. intros (Hk2 & Hi2 & _ & Hp2 & piece & Hne & Epiece & Hpost). destruct p.
      * destruct Hpost as ((bt & Hh) & Hsome & Hg2). apply wp_ret. split; [done|]. split; [congruence|]. exists []. split; [done|].
        split; [done|]. by exists piece, bt.
      * destruct Hpost as (Hidle2 & Hno & Hg2). eapply wp_mono; [apply IH|].
        -- done.
        -- congruence.
        -- lia.
        -- pose proof (length_app piece (rem s2)) as Hlen2. rewrite <- Epiece in Hlen2. destruct piece; [done|]. cbn in Hlen2. lia.
        -- intros r s'. apply (scan_post_app s1 s2 piece); [done|by apply unwanted_piece|done|done].
    + pose proof (cu_batch _ _ _ Hcur1 Hlt) as Hrange. apply wp_modify. set (c := mkCursor _ _ _ _ _).
      assert (Hc : cursor_ok gb chunks c) by (apply next_group_ok; [exact Hgb|done|done|lia]).
      eapply wp_mono; [apply IH|].
      * split; [|apply Hidle1]. by apply inv_cursor.
      * done.
      * cbn. lia.
      * cbn. unfold remaining in *. cbn. lia.
      * intros r s'. by apply (scan_post_app s1 (set_cursor s1 c) []).
  - apply wp_ret. split; [done|]. split; [done|]. exists []. assert (rem s = []) as E by (apply (remaining_done gb); [done|lia]).
    split_and!; [done|done|done|done|done].
Qed.
End run.

Section next.
Context `{PC : PgCore} `{BM : Bitmapsets} `{EX : PgExecutor} `{SX : !ScalarExecutor} (target : simd_target).
Context (cr : CompressedRelation) (natts gb : Z) (chunks : list (list row_cells)).
Context (Hs : snapshot_ok natts gb (set_refcount cr 0) chunks) (Hgb : 1 ≤ gb) (Hmax : zlength chunks ≤ max_batches).
Context (attnums : list Z) (Hatt : Forall (λ a, 1 ≤ a ≤ natts) attnums).
Context (resolve : VarNode → Z) (Hres : resolves resolve) (specs : list QualSpec).
Context (Hspecs : Forall (λ q, qs_prunable q = true → 1 ≤ qs_attnum q ≤ natts) specs).
Context (ec : ExprContext) (mode : SourceScanMode) (b : Z).

Lemma stored_rows_ok : stored_rows cr = zlength (concat chunks).
Proof.
  pose proof (so_batches _ _ _ _ Hs) as Hb. change (Forall2 (CompressedBuild.batch_ok natts) (cr_batches cr) chunks) in Hb.
  unfold stored_rows. revert Hb. generalize (cr_batches cr) chunks. clear. intros l chunks Hb.
  induction Hb as [|x chunk l chunks (Hlen & Hnr & _) _ IH]; [done|]. cbn [foldr concat]. rewrite length_app, IH. lia.
Qed.

Lemma scan_next_ok s :
  idle cr gb chunks attnums resolve specs ec mode b s → next_batch_generation (sc_bridge s) < 2 ^ 64 - 1 →
  wp (pg_batch_compressed_scan_next target b) (λ r s', match r with
    | Raise _ => scan_raises attnums resolve ec specs (remaining chunks (sc_cursor s))
    | _ => ∃ prunes, prune_quals ec specs = Ok prunes ∧ scan_post cr gb chunks attnums resolve specs ec mode b prunes s r s'
    end) s.
Proof.
  intros [Hinv Hact] Hgen. pose proof Hinv as [Hrel _ _ _ _ Hquals Hctx _ _ _ _ Hcur Hpr].
  unfold pg_batch_compressed_scan_next, cursor. apply wp_gets, wp_bind.
  apply (wp_mono _ (λ r s1, match r with
    | Ok _ => idle cr gb chunks attnums resolve specs ec mode b s1 ∧ prune_quals_ready (sc_cursor s1) = true ∧
        sc_batch_address s1 = sc_batch_address s ∧ next_batch_generation (sc_bridge s1) = next_batch_generation (sc_bridge s) ∧
        remaining chunks (sc_cursor s1) = remaining chunks (sc_cursor s)
    | Raise _ => scan_raises attnums resolve ec specs []
    | Undefined => False end)).
  { destruct (prune_quals_ready (sc_cursor s)) eqn:Hready; [by apply wp_ret|]. unfold prepare_prune_quals.
    apply wp_gets, wp_gets. rewrite Hctx. pose proof (prepare_quals_ok attnums resolve ec specs (sc_quals s) Hquals) as Hprep.
    apply wp_lift; [by intros E; rewrite E in Hprep|intros e E; by rewrite E in Hprep|]. intros quals E. rewrite E in Hprep.
    destruct Hprep as [Hq Hp]. apply wp_modify, wp_modify_end. cbn. split_and!; try done. split; [|done].
    destruct Hinv. constructor; try done. destruct Hcur. by constructor. }
  intros [[]|err|] s1; [|intros Hr; rewrite <- (app_nil_r (remaining chunks (sc_cursor s))); by apply raises_app|done].
  intros (Hidle1 & Hp1 & Hk1 & Hg1 & Hrem1).
  pose proof Hidle1 as [Hinv1 _]. pose proof Hinv1 as [Hrel1 _ _ _ _ _ _ _ _ _ _ Hcur1 Hpr1]. specialize (Hpr1 Hp1).
  apply wp_gets. rewrite Hrel1.
  eapply wp_mono; [apply (scan_loop_ok target cr natts gb chunks Hs Hgb Hmax attnums Hatt resolve Hres specs Hspecs ec mode b _ Hpr1)|].
  - done.
  - done.
  - by rewrite Hg1.
  - rewrite stored_rows_ok. pose proof (so_ngroups _ _ _ _ Hs) as Hng. change (cr_ngroups cr = group_count gb (zlength chunks)) in Hng.
    rewrite Hng. pose proof (cu_group _ _ _ Hcur1) as Hg. unfold remaining.
    pose proof (concat_drop_le (Z.to_nat (batch_index (sc_cursor s1))) chunks). rewrite length_drop. lia.
  - intros r s' Hpost. assert (Hpost' : scan_post cr gb chunks attnums resolve specs ec mode b (sq_prune <$> sc_quals s1) s r s')
      by by apply (scan_post_app _ _ _ _ _ _ _ _ _ _ s s1 []).
    destruct r; [by exists (sq_prune <$> sc_quals s1)|exact Hpost'|done].
Qed.
End next.
