(* ===== verification/CompressedDeliver.v ===== *)
(** * What a scan of a compressed snapshot delivers

    A consumer that asks for batches until there are none, and reads their
    columns, gets the rows of the compressed table that the query wants. *)

From S2P Require Import Prelude Words Bytes Selection Vector Kernels Int4 Bitmaps Batch Columns Bridge BridgeInv BridgeOps BridgeProps Expr ExprProps ExprEval ExprSpec ExprContract Compressed CompressedColumns CompressedBuild CompressedTable CompressedProps CompressedScan CompressedSource CompressedNext CompressedWalk CompressedLoad CompressedRun.

Lemma filter_of_map {A B} (f : A → B) (p : B → bool) (l : list A) :
  f <$> filter (λ x, p (f x) = true) l = filter (λ y, p y = true) (f <$> l).
Proof.
  induction l as [|x l IH]; [done|]. rewrite fmap_cons, !filter_cons.
  destruct (decide (p (f x) = true)); [by rewrite fmap_cons, IH|done].
Qed.

Section deliver.
Context `{PC : PgCore} `{BM : Bitmapsets} `{EX : PgExecutor} `{SX : !ScalarExecutor} (target : simd_target).

(** ** A consumer *)

(** The int4 views of some columns. *)
Fixpoint read_columns (k : Z) (cols : Bitmapset) (rows : PgBatchSelection) (columns : list Z) : Scan (list PgBatchInt4Vector) :=
  match columns with
  | [] => mret []
  | column :: columns =>
      v ← in_world (read_int4 k cols rows PG_BATCH_COLUMN_PROJECT column);
      l ← read_columns k cols rows columns;
      mret (v :: l)
  end.

(** The selected rows of the published batch. *)
Definition read_published (cols : Bitmapset) : Scan (list (list (option Z))) :=
  k ← gets sc_batch_address;
  bt ← in_bridge (batch_at k);
  n ← gets (λ s, cs_ncolumns (sc_source s));
  views ← read_columns k cols (selection bt) (seqZ 0 n);
  lift (foldM (λ row rows, cells ← read_row views row; Ok (rows ++ [cells])) (selected_rows (selection bt)) []).

(** Clearing the binding and asking again, at most [fuel] times. *)
Fixpoint scan_all (fuel : nat) (b : Z) (cols : Bitmapset) : Scan (list (list (option Z))) :=
  match fuel with
  | O => lift Undefined
  | S fuel =>
      _ ← clear_binding b;
      published ← pg_batch_compressed_scan_next target b;
      if (published : bool) then
        rows ← read_published cols;
        rest ← scan_all fuel b cols;
        mret (rows ++ rest)
      else mret []
  end.

Section snapshot.
Context (cr : CompressedRelation) (natts gb : Z) (chunks : list (list row_cells)).
Context (Hs : snapshot_ok natts gb (set_refcount cr 0) chunks) (Hgb : 1 ≤ gb) (Hmax : zlength chunks ≤ max_batches).
Context (attnums : list Z) (Hatt : Forall (λ a, 1 ≤ a ≤ natts) attnums).
Context (resolve : VarNode → Z) (Hres : resolves resolve) (specs : list QualSpec).
Context (Hspecs : Forall (λ q, qs_prunable q = true → 1 ≤ qs_attnum q ≤ natts) specs).
Context (ec : ExprContext) (mode : SourceScanMode) (b : Z).
Context (cols : Bitmapset) (Hcols : ∀ c, bms_is_member c cols = true ↔ 0 ≤ c < zlength attnums).

#[local] Instance delivered_source : BatchSource := compressed_source cr attnums.

Abbreviation k s := (sc_batch_address s).
Abbreviation idle := (idle cr gb chunks attnums resolve specs ec mode b).
Abbreviation holding := (holding cr gb chunks attnums resolve specs ec mode b).
Abbreviation kept := (kept attnums resolve ec mode specs).

(** A row as the consumer sees it. *)
Definition project (cells : row_cells) : list (option Z) := scan_cell attnums cells <$> seqZ 0 (zlength attnums).

Definition holds_still (s s' : CompressedScan) (piece : list row_cells) (keep : row_cells → bool) (bt : PgBatch) : Prop :=
  holding s' piece keep bt ∧ sc_cursor s' = sc_cursor s ∧ k s' = k s ∧
  next_batch_generation (sc_bridge s') = next_batch_generation (sc_bridge s).

Lemma holding_quiet s piece keep bt w :
  holding s piece keep bt → quiet (world_of s) w → holds_still s (set_world s w) piece keep bt.
Proof.
  intros [Hbridge Hcache Hquals Hctx Hmode Hreq Hcur Hpr Hbinding Hserved Hwf Hrows Hcontent] Hq. split; [|by split_and!].
  pose proof (quiet_served _ _ _ _ _ Hserved Hq) as Hserved'. destruct Hq as (Hc & Hb & Hext).
  assert (Ebridge : sc_bridge (set_world s w) = sc_bridge s).
  { cbn in *. rewrite Hb. by destruct (sc_bridge s). }
  assert (Eworld : world_of (set_world s w) = w) by by (unfold world_of; rewrite Ebridge; cbn in *; rewrite <- Hb; destruct w).
  constructor; rewrite ?Ebridge, ?Eworld; try done.
  intros column row Hr. destruct (Hext _ _ _ (sv_serves _ _ _ _ Hserved)) as [_ Hsame].
  rewrite <- (Hcontent column row Hr). exact (proj2 (Hsame column) row).
Qed.

Lemma read_columns_ok columns s piece keep bt :
  holding s piece keep bt → ¬ Forall (λ cells, keep cells = false) piece → Forall (λ c, 0 ≤ c < zlength attnums) columns →
  wp (read_columns (k s) cols (selection bt) columns) (λ r s', ∃ views, r = Ok views ∧ holds_still s s' piece keep bt ∧
    ∀ row, row ∈ selected_rows (selection bt) →
      Forall2 (λ v c, col_wf v (zlength piece) ∧ cell v row = c) views (scan_cell attnums (zget [] piece row) <$> columns)) s.
Proof.
  intros Hh Hsome Hall. revert s Hh. induction Hall as [|column columns Hc _ IH]; intros s Hh.
  { apply wp_ret. exists []. split; [done|]. split; [by split|]. by constructor. }
  cbn [read_columns]. pose proof Hh as [_ Hcache _ _ _ _ _ _ _ Hserved (Hwf & Hclean & Hn) Hrows Hcontent].
  assert (Hne : selected_rows (selection bt) ≠ []).
  { intros E. apply Hsome, Forall_forall. intros cells Hin. apply not_true_iff_false. intros Hk.
    apply list_elem_of_lookup in Hin as [i Hi]. pose proof (lookup_lt_Some _ _ _ Hi).
    assert (Hrow : Z.of_nat i ∈ selected_rows (selection bt)).
    { apply Hrows. split; [lia|]. unfold zget. rewrite Nat2Z.id. unfold row_cells in *. by rewrite Hi. }
    rewrite E in Hrow. by apply elem_of_nil in Hrow. }
  apply wp_bind, wp_in_world. pose proof (sv_serves _ _ _ _ Hserved) as (_ & _ & Hatts & a & _ & _ & _ & Haok).
  eapply wp_mono; [apply (read_int4_ok (world_of s) (k s) bt compressed_ops cols (selection bt) PG_BATCH_COLUMN_PROJECT column);
    try done|].
  - intros c Hm. apply Hcols in Hm. pose proof (ao_attnums _ _ Haok) as Hnc. rewrite Hatts in Hnc. rewrite Hnc in Hm. exact Hm.
  - by apply Hcols.
  - intros r w (v & -> & Hq & Hvwf & Hcells). cbn beta iota. pose proof (holding_quiet s piece keep bt w Hh Hq) as (Hh1 & Hc1 & Hk1 & Hg1).
    rewrite <- Hk1 at 1. apply wp_bind. eapply wp_mono; [by apply IH|]. intros r s2 (views & -> & (Hh2 & Hc2 & Hk2 & Hg2) & Hviews).
    apply wp_ret. exists (v :: views). split; [done|]. split; [split_and!; [done|congruence..]|].
    intros row Hrow. rewrite fmap_cons. constructor; [|by apply Hviews]. rewrite Hn in Hvwf. split; [done|].
    rewrite (Hcells row Hrow). apply Hcontent. by apply Hrows in Hrow as [? _].
Qed.

Lemma read_published_ok s piece bt :
  holding s piece kept bt → ¬ Forall (λ cells, kept cells = false) piece →
  wp (read_published cols) (λ r s', r = Ok (project <$> filter (λ cells, kept cells = true) piece) ∧ holds_still s s' piece kept bt) s.
Proof.
  intros Hh Hsome. pose proof Hh as [_ _ _ _ _ _ _ _ _ Hserved (Hwf & Hclean & Hn) Hrows _].
  unfold read_published. apply wp_gets, (wp_loaded_batch s bt); [by apply Hserved|]. apply wp_gets.
  pose proof (sv_serves _ _ _ _ Hserved) as (_ & _ & Hatts & a & _ & _ & _ & Haok).
  pose proof (ao_attnums _ _ Haok) as Hnc. rewrite Hatts in Hnc. cbn in Hnc. rewrite <- Hnc. apply wp_bind.
  eapply wp_mono; [apply (read_columns_ok _ s piece kept bt Hh Hsome)|].
  { apply Forall_forall. intros c Hc%elem_of_seqZ. lia. }
  intros r s' (views & -> & Hstill & Hviews). cbn beta iota.
  match goal with |- wp (lift ?m) _ _ => assert (E : m = Ok (project ∘ zget [] piece <$> selected_rows (selection bt))) end.
  { match goal with |- foldM ?g _ _ = _ => set (f := g) end.
    destruct (foldM_inv (λ pre out, out = project ∘ zget [] piece <$> pre) f (selected_rows (selection bt)) [])
      as (out & E & ->); [done| |exact E].
    unfold f. intros pre row post out Hpre ->. assert (Hrow : row ∈ selected_rows (selection bt)) by (rewrite Hpre; set_solver).
    rewrite (read_row_ok views (zlength piece) row (project (zget [] piece row))) by
      (by apply Hviews || by apply Hrows in Hrow as [? _]).
    eexists; split; [reflexivity|]. by rewrite fmap_app. }
  unfold wp, lift. rewrite E. split; [done|]. split; [|done]. cbn [fst]. f_equal. rewrite list_fmap_compose. f_equal.
  rewrite <- (zget_seqZ [] piece) at 2. rewrite <- filter_of_map. f_equal. unfold selected_rows in *. rewrite Hn in *.
  apply list_filter_iff'. intros row Hin. specialize (Hrows row). rewrite list_elem_of_filter, elem_of_seqZ in *. intuition.
Qed.
(** ** The whole scan *)

Definition deliver_post (s : CompressedScan) (r : res (list (list (option Z)))) (s' : CompressedScan) : Prop :=
  match r with
  | Ok out => scan_ready cr attnums resolve specs ec mode b s' ∧ k s' = k s ∧ ∃ prunes rows, prune_quals ec specs = Ok prunes ∧
      out = project <$> rows ∧ rows `sublist_of` remaining chunks (sc_cursor s) ∧ Forall (λ cells, kept cells = true) rows ∧
      filter (λ cells, wanted attnums resolve ec mode specs prunes cells = true) rows =
        filter (λ cells, wanted attnums resolve ec mode specs prunes cells = true) (remaining chunks (sc_cursor s))
  | Raise _ => scan_raises attnums resolve ec specs (remaining chunks (sc_cursor s))
  | Undefined => False
  end.

Lemma filter_unwanted (p : row_cells → bool) l : Forall (λ cells, p cells = false) l → filter (λ cells, p cells = true) l = [].
Proof.
  induction 1 as [|x l Hx _ IH]; [done|]. rewrite filter_cons. destruct (decide (p x = true)); [congruence|done].
Qed.

Lemma wanted_kept prunes (l : list row_cells) :
  filter (λ cells, wanted attnums resolve ec mode specs prunes cells = true) (filter (λ cells, kept cells = true) l) =
  filter (λ cells, wanted attnums resolve ec mode specs prunes cells = true) l.
Proof.
  rewrite list_filter_filter. apply list_filter_iff'. intros x _. unfold wanted. rewrite andb_true_iff. tauto.
Qed.

Lemma scan_all_ok fuel s :
  scan_ready cr attnums resolve specs ec mode b s → cursor_ok gb chunks (sc_cursor s) →
  (prune_quals_ready (sc_cursor s) = true → prune_quals ec specs = Ok (sq_prune <$> sc_quals s)) →
  next_batch_generation (sc_bridge s) + zlength (remaining chunks (sc_cursor s)) < 2 ^ 64 - 1 →
  (length (remaining chunks (sc_cursor s)) < fuel)%nat →
  wp (scan_all fuel b cols) (deliver_post s) s.
Proof.
  revert s. induction fuel as [|fuel IH]; intros s Hready Hcur Hpr Hgen Hfuel; [lia|]. cbn [scan_all]. apply wp_bind.
  eapply wp_mono; [by apply (clear_binding_ok cr gb chunks attnums resolve specs ec mode b)|].
  intros r s1 (-> & Hidle1 & Hc1 & Hk1 & Hg1). cbn beta iota. apply wp_bind. unfold deliver_post. rewrite <- Hc1 in Hgen, Hfuel |- *.
  eapply wp_mono; [eapply (scan_next_ok target cr natts gb chunks Hs Hgb Hmax attnums Hatt resolve Hres specs Hspecs ec mode b s1 Hidle1); lia|].
  intros [p|err|] s2; [|done|by intros (? & _ & ?)]. intros (prunes & Hprunes & Hk2 & Hp2 & skipped & Hskip & Hpost).
  apply filter_unwanted in Hskip. destruct p.
  2: { destruct Hpost as (Hg2 & -> & _ & Hidle2). apply wp_ret. split; [by eapply idle_ready|]. split; [congruence|].
       exists prunes, []. split_and!; [done|done|apply sublist_nil_l|done|done]. }
  destruct Hpost as (Hg2 & piece & bt & Erem & Hsome & Hh). apply wp_bind.
  eapply wp_mono; [by eapply read_published_ok|]. intros r s3 (-> & Hh3 & Hc3 & Hk3 & Hg3). cbn beta iota.
  assert (Hready3 : scan_ready cr attnums resolve specs ec mode b s3) by by eapply holding_ready. rewrite Erem in Hgen, Hfuel |- *.
  rewrite !length_app in Hgen, Hfuel. assert (0 < length piece)%nat by (destruct piece; [by destruct Hsome|simpl; lia]).
  apply wp_bind. eapply wp_mono; [apply IH|].
  - done.
  - by destruct Hh3.
  - by destruct Hh3.
  - rewrite Hc3. lia.
  - rewrite Hc3. lia.
  - intros [out|err|] s4; [|unfold deliver_post; rewrite Hc3; intros Hr; by do 2 apply raises_app|done].
    intros (Hready4 & Hk4 & prunes' & rows & Hprunes' & -> & Hsub & Hkept & Hwanted). assert (prunes' = prunes) as -> by congruence.
    apply wp_ret. split; [done|]. split; [congruence|]. exists prunes, (filter (λ cells, kept cells = true) piece ++ rows).
    rewrite Hc3 in Hsub, Hwanted. split_and!.
    + done.
    + by rewrite fmap_app.
    + apply sublist_inserts_l, sublist_app; [apply sublist_filter|done].
    + apply Forall_app. split; [|done]. apply Forall_forall. by intros cells [? _]%list_elem_of_filter.
    + by rewrite !filter_app, Hskip, wanted_kept, Hwanted.
Qed.
End snapshot.
(** All batches but the last are full, so a table makes few of them. *)
Lemma full_chunks_count {A} (chunks : list (list A)) :
  (∀ i chunk, chunks !! i = Some chunk → (S i < length chunks)%nat → zlength chunk = 64) →
  Forall (λ chunk, 1 ≤ zlength chunk) chunks → 1 ≤ zlength chunks → 64 * (zlength chunks - 1) < zlength (concat chunks).
Proof.
  intros Hfull Hall. induction Hall as [|chunk chunks Hc _ IH]; [cbn; lia|]. intros _. cbn [concat]. rewrite length_app.
  destruct chunks as [|chunk' chunks]; [cbn; lia|].
  pose proof (Hfull 0%nat chunk eq_refl ltac:(cbn; lia)).
  assert (64 * (zlength (chunk' :: chunks) - 1) < zlength (concat (chunk' :: chunks))) as IH'.
  { apply IH; [|cbn; lia]. intros i c Hi Hl. apply (Hfull (S i) c Hi).
    change (S (S i) < S (length (chunk' :: chunks)))%nat. lia. }
  cbn [length] in *. lia.
Qed.

Section table.
Context (relation : Relation) (group_rows : Z) (rows : list slot_values) (cr : CompressedRelation) (n : Z).
Context (attnums : list Z) (resolve : VarNode → Z) (specs : list QualSpec) (ec : ExprContext) (mode : SourceScanMode) (b : Z)
  (cols : Bitmapset).

Abbreviation table := (slot_cells <$> rows).

(** C22. A scan of a compressed table, first or again, delivers the rows the
    query wants.  A consumer that clears the binding and asks for the next
    batch until there is none, reading all columns of each batch, ends after at
    most one call per row and one more.  It gets the projections of rows of the
    table, in order; the exact filters accept every one of them; and no row is
    missing that the exact filters accept and that satisfies the conditions
    pruning uses.  Without filtering and pruning that is the table.  An error is
    raised only if the scalar executor raises one, for a row of the table or for
    the scalar of a condition. *)
Theorem compressed_scan_spec s :
  compressible relation group_rows rows → compress_table relation group_rows rows = Ok cr →
  Forall (λ a, 1 ≤ a ≤ zlength (rel_attrs relation)) attnums → resolves resolve →
  Forall (λ q, qs_prunable q = true → 1 ≤ qs_attnum q ≤ zlength (rel_attrs relation)) specs →
  (∀ c, bms_is_member c cols = true ↔ 0 ≤ c < zlength attnums) →
  scan_ready (set_refcount cr n) attnums resolve specs ec mode b s →
  next_batch_generation (sc_bridge s) + zlength rows < 2 ^ 64 - 1 →
  match ((_ ← rescan; scan_all (S (length rows)) b cols) s).1 with
  | Ok out => ∃ prunes delivered, prune_quals ec specs = Ok prunes ∧
      out = project attnums <$> delivered ∧ delivered `sublist_of` table ∧
      Forall (λ cells, kept attnums resolve ec mode specs cells = true) delivered ∧
      filter (λ cells, wanted attnums resolve ec mode specs prunes cells = true) delivered =
        filter (λ cells, wanted attnums resolve ec mode specs prunes cells = true) table
  | Raise _ => scan_raises attnums resolve ec specs table
  | Undefined => False
  end.
Proof.
  intros Hc Ecr Hatt Hres Hspecs Hcols Hready Hgen.
  destruct (compress_table_ok _ _ _ Hc) as (cr' & chunks & E & Econ & Hs & _ & Hfull). assert (cr' = cr) as -> by congruence.
  assert (Hgb : 1 ≤ group_rows / 64).
  { destruct Hc as (_ & _ & Hge & _). apply (Z.div_le_mono 64 group_rows 64) in Hge; [exact Hge|lia]. }
  assert (Hsmall : Forall (λ chunk, 1 ≤ zlength chunk ≤ 64) chunks).
  { pose proof (so_batches _ _ _ _ Hs) as Hb. apply Forall_lookup_2. intros i chunk Hi.
    destruct (Forall2_lookup_r _ _ _ _ _ Hb Hi) as (x & _ & Hx & _). exact Hx. }
  assert (Hmax : zlength chunks ≤ max_batches).
  { destruct (Z.le_gt_cases (zlength chunks) 0) as [|Hsome]; [unfold max_batches; lia|].
    pose proof (full_chunks_count chunks Hfull (Forall_impl _ _ _ Hsmall (λ c H, proj1 H)) ltac:(lia)) as Hcount.
    rewrite Econ, length_fmap in Hcount. destruct Hc as (_ & _ & _ & _ & _ & Hrows). lia. }
  assert (Hs' : snapshot_ok (zlength (rel_attrs relation)) (group_rows / 64) (set_refcount (set_refcount cr n) 0) chunks).
  { destruct Hs. by constructor. }
  set (s0 := set_cursor s (mkCursor 0 0 0 false false)).
  assert (Hrem : remaining chunks (sc_cursor s0) = table) by by rewrite <- Econ.
  destruct (scan_all_ok (set_refcount cr n) (zlength (rel_attrs relation)) (group_rows / 64) chunks Hs' Hgb Hmax attnums Hatt resolve
    Hres specs Hspecs ec mode b cols Hcols (S (length rows)) s0) as [Hdef Hpost].
  - by apply ready_cursor.
  - by apply start_ok.
  - done.
  - rewrite Hrem, length_fmap. exact Hgen.
  - rewrite Hrem, length_fmap. lia.
  - unfold mbind, st_bind, rescan, move, modify. fold s0. unfold deliver_post in Hpost. rewrite Hrem in Hpost.
    destruct (scan_all (S (length rows)) b cols s0).1 as [out|err|]; [|done|done].
    by destruct Hpost as (_ & _ & prunes & delivered & Hpost); exists prunes, delivered.
Qed.
End table.
End deliver.

(** ** A concrete scan

    [x - 1 > 150] on the second attribute, filtered exactly, and the first
    attribute greater than 28, used to prune; batches of at most 10 rows. *)

Definition sample_compressed : CompressedRelation :=
  match compress_table sample_relation 64 sample_rows with
  | Ok cr => cr
  | _ => mkCompressedRelation 0 0 0 0 0 0 0 [] []
  end.

Definition sample_specs : list QualSpec :=
  [mkQualSpec (Some sample_filter) None false 0 PG_BATCH_INT4_EQ;
   mkQualSpec None (Some (Const INT4OID (Int32GetDatum 28) false)) true 1 PG_BATCH_INT4_GT].

Definition sample_source_quals : list SourceQual :=
  [mkSourceQual (Some (sample_expr true)) (bms_make_singleton 1) None (mkPruneQual false 0 PG_BATCH_INT4_EQ (0, false));
   mkSourceQual None bms_null (Some (Const INT4OID (Int32GetDatum 28) false)) (mkPruneQual true 1 PG_BATCH_INT4_GT (0, false))].

Definition sample_scan : CompressedScan :=
  mkScan sample_prepared [] None (mkSource (set_refcount sample_compressed 1) [1; 2] 2 None (mkStats 0 0 0 0 0 0 0 0 0 0)) 800 20 sample_binding
    sample_context sample_source_quals PG_BATCH_TAM_FILTER (mkCursor 0 0 0 false false).

Lemma sample_scan_ready :
  scan_ready (set_refcount sample_compressed 1) [1; 2] sample_resolve sample_specs sample_context PG_BATCH_TAM_FILTER sample_binding sample_scan.
Proof.
  pose proof (reachable_inv _ sample_prepared_reachable) as Hi. constructor; try done.
  - constructor; [|by repeat constructor]. split; [|done]. split; [exact (sample_expr_ok true)|]. split; [done|].
    intros c Hc. cbn [sq_column_mask] in Hc. rewrite bms_singleton_spec in Hc by lia. by apply Z.eqb_eq.
  - left. assert (E : ((λ bd, (consumer_ops bd, batch bd)) <$> bindings sample_prepared !! sample_binding) =
      Some (Some sample_consumer, None)) by by vm_compute.
    apply fmap_Some in E as (bd & Hb & [= Hc Hk]). split; [by exists bd; split_and!; [|eexists|]|]. split; [|done].
    intros (b & bd' & Hb' & Hk'). destruct (bi_held _ Hi b bd' _ Hb' Hk') as (bt & Hbt & _). by vm_compute in Hbt.
Qed.

(** Rows 64 to 69 without row 66, whose second attribute is NULL. *)
Example sample_delivered :
  ((_ ← rescan; scan_all USE_SSE2 71 sample_binding {[0; 1]}) sample_scan).1 =
  Ok ((λ i, [Some (i - 35); Some (i * 30000000)]) <$> [64; 65; 67; 68; 69]).
Proof. vm_compute. reflexivity. Qed.

Lemma compressed_scan_spec_witness :
  match ((_ ← rescan; scan_all USE_SSE2 71 sample_binding {[0; 1]}) sample_scan).1 with
  | Ok out => ∃ prunes delivered, prune_quals sample_context sample_specs = Ok prunes ∧
      out = project [1; 2] <$> delivered ∧ delivered `sublist_of` (slot_cells <$> sample_rows) ∧
      Forall (λ cells, kept [1; 2] sample_resolve sample_context PG_BATCH_TAM_FILTER sample_specs cells = true) delivered ∧
      filter (λ cells, wanted [1; 2] sample_resolve sample_context PG_BATCH_TAM_FILTER sample_specs prunes cells = true) delivered =
        filter (λ cells, wanted [1; 2] sample_resolve sample_context PG_BATCH_TAM_FILTER sample_specs prunes cells = true)
          (slot_cells <$> sample_rows)
  | Raise _ => scan_raises [1; 2] sample_resolve sample_context sample_specs (slot_cells <$> sample_rows)
  | Undefined => False
  end.
Proof.
  apply (compressed_scan_spec USE_SSE2 sample_relation 64 sample_rows sample_compressed 1 [1; 2] sample_resolve sample_specs
    sample_context PG_BATCH_TAM_FILTER sample_binding {[0; 1]} sample_scan); [exact sample_compressible|by vm_compute| | | | |exact sample_scan_ready|by vm_compute].
  - by repeat constructor.
  - exact sample_resolves.
  - by repeat constructor.
  - intros c. cbn. rewrite andb_true_iff, bool_decide_eq_true. split; [intros [? ?]; set_solver by lia|]. intros Hc. split; [lia|].
    assert (c = 0 ∨ c = 1) as [->| ->] by lia; set_solver.
Defined.
