(* ===== verification/ParallelHash.v ===== *)
(** * The parallel hash join ([nodes/parallel_hash_join.c]): the shared table

    Participants copy their share of the build side into chunks of shared
    memory, one of them sets up the directory of the chunks and the bucket
    array, and all of them link the rows into the buckets without locks.  The
    chunks are then read only: probes follow the links.

    Shared memory is a heap of the objects the sources allocate in it.  A
    participant's program is a step function: a step is at most one access to
    memory that others may write, the private work around it included, so that
    interleavings of steps are the executions of the C code under sequential
    consistency.  Only a turn of [append_chunk_rows] has more: it tests the
    spill flag and then reserves bytes in one step.  The steps where the table
    has to go to disk end in [AtSpill]. *)

From S2P Require Import Prelude Words Selection Vector Kernels Int4 Hash Spill JoinStore JoinBuild.

Definition PARALLEL_BUILD_CHUNK_ROWS : Z := 1024.
Definition PARALLEL_REPARTITION_MIN_PASSES : Z := 6.

(** ** Layout of a chunk *)

(** The arrays that follow the header of a chunk. *)
Record ParallelBuildChunk : Type := mkChunk {
  ch_next : Z;
  ch_nrows : Z;
  ch_index : Z;
  ch_hashes : list Z;
  ch_links : list Z;
  ch_validity : list Z;
  ch_values : list Z;
}.

Definition InvalidDsaPointer : Z := 0.
Definition sizeof_ParallelBuildChunk : Z := 16.

(** Offsets in bytes. *)
Definition chunk_hashes_at : Z := MAXALIGN sizeof_ParallelBuildChunk.
Definition chunk_links_at : Z := chunk_hashes_at + 4 * PARALLEL_BUILD_CHUNK_ROWS.
Definition chunk_validity_at : Z := chunk_links_at + 4 * PARALLEL_BUILD_CHUNK_ROWS.
Definition chunk_values_at (ncolumns : Z) : Z := chunk_validity_at + 8 * (ncolumns * (PARALLEL_BUILD_CHUNK_ROWS / 64)).

(** ** Shared memory *)

Record ParallelHashShared : Type := mkShared {
  ps_max_participants : Z;
  ps_npartitions : Z;
  ps_memory_limit : Z;
  ps_chunks : Z;
  ps_directory : Z;
  ps_buckets : Z;
  ps_nchunks : Z;
  ps_nbuckets : Z;
  ps_allocated_bytes : Z;
  ps_build_rows : Z;
  ps_spilled : bool;
  ps_has_duplicates : bool;
  ps_next_chunk : Z;
}.

Inductive dsa_object : Type :=
| DsaChunk (chunk : ParallelBuildChunk)
| DsaDirectory (pointers : list Z)
| DsaBuckets (heads : list Z).

Record SharedMemory : Type := mkShm {
  sm_shared : ParallelHashShared;
  sm_heap : gmap Z dsa_object;
}.

(** [dsa_allocate] returns a pointer no live object has. *)
Class DsaArea : Type := {
  dsa_choose : gset Z → Z;
  dsa_choose_spec X : dsa_choose X ∉ X ∧ dsa_choose X ≠ InvalidDsaPointer;
}.

(** What a participant keeps: its private chunk, the addresses of the directory
    and the buckets it has looked up, whether the current table is its private
    one, and whether keys repeat.  An address is the DSA pointer it comes from,
    NULL is [InvalidDsaPointer]. *)
Record ParallelHashJoinLocal : Type := mkLocal {
  lo_chunk : Z;
  lo_directory : Z;
  lo_buckets : Z;
  lo_local_build : bool;
  lo_build_has_duplicates : bool;
}.

Definition set_chunk (l : ParallelHashJoinLocal) (p : Z) : ParallelHashJoinLocal :=
  mkLocal p (lo_directory l) (lo_buckets l) (lo_local_build l) (lo_build_has_duplicates l).

Definition with_heap (m : SharedMemory) (h : gmap Z dsa_object) : SharedMemory := mkShm (sm_shared m) h.
Definition with_shared (m : SharedMemory) (s : ParallelHashShared) : SharedMemory := mkShm s (sm_heap m).

Definition set_chunks (s : ParallelHashShared) (chunks nchunks : Z) : ParallelHashShared :=
  mkShared (ps_max_participants s) (ps_npartitions s) (ps_memory_limit s) chunks (ps_directory s) (ps_buckets s)
    nchunks (ps_nbuckets s) (ps_allocated_bytes s) (ps_build_rows s) (ps_spilled s) (ps_has_duplicates s) (ps_next_chunk s).
Definition set_table (s : ParallelHashShared) (directory buckets nbuckets : Z) : ParallelHashShared :=
  mkShared (ps_max_participants s) (ps_npartitions s) (ps_memory_limit s) (ps_chunks s) directory buckets
    (ps_nchunks s) nbuckets (ps_allocated_bytes s) (ps_build_rows s) (ps_spilled s) (ps_has_duplicates s) (ps_next_chunk s).
Definition set_counters (s : ParallelHashShared) (bytes rows next : Z) : ParallelHashShared :=
  mkShared (ps_max_participants s) (ps_npartitions s) (ps_memory_limit s) (ps_chunks s) (ps_directory s) (ps_buckets s)
    (ps_nchunks s) (ps_nbuckets s) bytes rows (ps_spilled s) (ps_has_duplicates s) next.
Definition set_flags (s : ParallelHashShared) (spilled duplicates : bool) : ParallelHashShared :=
  mkShared (ps_max_participants s) (ps_npartitions s) (ps_memory_limit s) (ps_chunks s) (ps_directory s) (ps_buckets s)
    (ps_nchunks s) (ps_nbuckets s) (ps_allocated_bytes s) (ps_build_rows s) spilled duplicates (ps_next_chunk s).

(** Reading through an address; a stale or NULL one is undefined. *)
Definition read_chunk (m : SharedMemory) (p : Z) : res ParallelBuildChunk :=
  match sm_heap m !! p with Some (DsaChunk c) => Ok c | _ => Undefined end.
Definition read_directory (m : SharedMemory) (p : Z) : res (list Z) :=
  match sm_heap m !! p with Some (DsaDirectory l) => Ok l | _ => Undefined end.
Definition read_buckets (m : SharedMemory) (p : Z) : res (list Z) :=
  match sm_heap m !! p with Some (DsaBuckets l) => Ok l | _ => Undefined end.
Definition write_object (m : SharedMemory) (p : Z) (o : dsa_object) : SharedMemory := with_heap m (<[p := o]> (sm_heap m)).

Section shared.
Context `{PgCore} `{DsaArea}.

Definition dsa_allocate (m : SharedMemory) (size : Z) (o : dsa_object) : res (SharedMemory * Z) :=
  _ ← raise_if (MaxAllocSize <? size) (Elog "invalid DSA memory alloc request size");
  let p := dsa_choose (dom (sm_heap m)) in
  Ok (write_object m p o, p).

Definition build_chunk_size (ncolumns : Z) : res Z :=
  size ← add_size (MAXALIGN sizeof_ParallelBuildChunk) (MAXALIGN (4 * PARALLEL_BUILD_CHUNK_ROWS));
  size ← add_size size (MAXALIGN (4 * PARALLEL_BUILD_CHUNK_ROWS));
  size ← add_size size (MAXALIGN (8 * ncolumns * (PARALLEL_BUILD_CHUNK_ROWS / 64)));
  add_size size (MAXALIGN (4 * ncolumns * PARALLEL_BUILD_CHUNK_ROWS)).

(** [while] doubles a power of two until 1024 at most. *)
Fixpoint partition_count_loop (fuel : nat) (required result : Z) : res Z :=
  if (result <? required) && (result <? 1024) then
    match fuel with
    | O => Undefined
    | S fuel => partition_count_loop fuel required (Z.shiftl result 1)
    end
  else Ok result.
Definition next_partition_count (required : Z) : res Z := partition_count_loop 9 required 2.
Definition shared_partition_count (planned_partitions participants : Z) : res Z :=
  next_partition_count (Z.max planned_partitions (participants * 2)).

Definition SIZE_MAX : Z := 2 ^ 64 - 1.

(** What the fields start with; the spill areas behind the header are not part
    of the model. *)
Definition initialize_shared_state (planned_partitions memory_limit nworkers : Z) : res ParallelHashShared :=
  let participants := nworkers + 1 in
  npartitions ← shared_partition_count planned_partitions participants;
  let combined_limit := if SIZE_MAX / participants <? memory_limit then SIZE_MAX else memory_limit * participants in
  Ok (mkShared participants npartitions combined_limit InvalidDsaPointer InvalidDsaPointer InvalidDsaPointer
        0 0 0 0 (1 <? planned_partitions) false 0).

(** ** Collecting rows *)

Definition publish_chunk (local : ParallelHashJoinLocal) (m : SharedMemory)
    : res (ParallelHashJoinLocal * SharedMemory) :=
  if lo_chunk local =? InvalidDsaPointer then Ok (local, m) else
  chunk ← read_chunk m (lo_chunk local);
  let done_ := set_chunk local InvalidDsaPointer in
  if ch_nrows chunk =? 0 then Ok (done_, with_heap m (delete (lo_chunk local) (sm_heap m))) else
  let s := sm_shared m in
  let m := write_object m (lo_chunk local) (DsaChunk (mkChunk (ps_chunks s) (ch_nrows chunk) (ch_index chunk)
             (ch_hashes chunk) (ch_links chunk) (ch_validity chunk) (ch_values chunk))) in
  let s := set_chunks s (lo_chunk local) (to_u32 (ps_nchunks s + 1)) in
  let s := set_counters s (ps_allocated_bytes s) (u64_add (ps_build_rows s) (ch_nrows chunk)) (ps_next_chunk s) in
  Ok (done_, with_shared m s).

(** The zeroed arrays of a new chunk. *)
Definition empty_chunk (ncolumns : Z) : ParallelBuildChunk :=
  let zeros n := replicate (Z.to_nat n) 0 in
  mkChunk InvalidDsaPointer 0 0 (zeros PARALLEL_BUILD_CHUNK_ROWS) (zeros PARALLEL_BUILD_CHUNK_ROWS)
    (zeros (ncolumns * (PARALLEL_BUILD_CHUNK_ROWS / 64))) (zeros (ncolumns * PARALLEL_BUILD_CHUNK_ROWS)).

Definition chunk_reservation (size : Z) : res Z :=
  heads ← add_size 8 (4 * 4 * PARALLEL_BUILD_CHUNK_ROWS);
  add_size size heads.

Definition start_chunk (ncolumns : Z) (local : ParallelHashJoinLocal) (m : SharedMemory)
    : res (bool * ParallelHashJoinLocal * SharedMemory) :=
  size ← build_chunk_size ncolumns;
  reservation ← chunk_reservation size;
  let s := sm_shared m in
  if ps_spilled s then Ok (false, local, m) else
  let old := ps_allocated_bytes s in
  let s := set_counters s (u64_add old reservation) (ps_build_rows s) (ps_next_chunk s) in
  if (ps_memory_limit s <? old) || (ps_memory_limit s - old <? reservation)
  then Ok (false, local, with_shared m (set_flags s true (ps_has_duplicates s)))
  else
    '(m, p) ← dsa_allocate (with_shared m s) size (DsaChunk (empty_chunk ncolumns));
    Ok (true, set_chunk local p, m).

(** Copying one value of a row to its place in the chunk. *)
Definition store_chunk_value (columns : list InputColumn) (row dest column : Z) (arrays : list Z * list Z)
    : res (list Z * list Z) :=
  input ← aref columns column;
  '(value, isnull) ← hash_join_input_value input row;
  values ← aset arrays.1 (column * PARALLEL_BUILD_CHUNK_ROWS + dest) value;
  validity ← (if negb isnull then
      let word := column * (PARALLEL_BUILD_CHUNK_ROWS / 64) + dest / 64 in
      w ← aref arrays.2 word;
      aset arrays.2 word (Z.lor w (bit64 (dest mod 64)))
    else Ok arrays.2);
  Ok (values, validity).

Definition append_chunk_row (ncolumns : Z) (columns : list InputColumn) (hashes : list Z) (row : Z)
    (chunk : ParallelBuildChunk) : res ParallelBuildChunk :=
  let dest := ch_nrows chunk in
  hash ← aref hashes row;
  chunk_hashes ← aset (ch_hashes chunk) dest hash;
  '(values, validity) ← foldM (store_chunk_value columns row dest) (seqZ 0 ncolumns) (ch_values chunk, ch_validity chunk);
  Ok (mkChunk (ch_next chunk) (ch_nrows chunk + 1) (ch_index chunk) chunk_hashes (ch_links chunk) validity values).

(** One turn of the loop of [append_chunk_rows] for a nonzero [rows]: [None]
    when no chunk could be started. *)
Definition append_turn (ncolumns : Z) (columns : list InputColumn) (hashes : list Z) (rows : Z)
    (local : ParallelHashJoinLocal) (m : SharedMemory) : res (option Z * ParallelHashJoinLocal * SharedMemory) :=
  '(room, local, m) ← (if lo_chunk local =? InvalidDsaPointer then start_chunk ncolumns local m else Ok (true, local, m));
  if negb room then Ok (None, local, m) else
  chunk ← read_chunk m (lo_chunk local);
  chunk ← append_chunk_row ncolumns columns hashes (pg_rightmost_one_pos64 rows) chunk;
  let m := write_object m (lo_chunk local) (DsaChunk chunk) in
  let rows := Z.land rows (rows - 1) in
  if ch_nrows chunk =? PARALLEL_BUILD_CHUNK_ROWS then
    '(local, m) ← publish_chunk local m; Ok (Some rows, local, m)
  else Ok (Some rows, local, m).

(** Words of memory that nothing has written. *)
Definition u64_uninit (n : Z) : list Z := (λ v, v mod 2 ^ 64) <$> palloc_uninit n.

(** The hash values and the mask of the rows whose keys are all present.  The
    two buffers hold what the stack held. *)
Definition hash_batch (batch : JoinInput) (keys : list Z) : res (list Z * Z) :=
  let selection := ji_selection batch in
  vectors ← foldM (λ key vectors, input ← aref (ji_columns batch) key; Ok (vectors ++ [ic_vector input])) keys [];
  st ← pg_batch_hash_int4 vectors (zlength keys) selection (palloc_uninit PG_BATCH_SIZE)
         (mkSelection (nrows selection) (nwords selection) (u64_uninit 1));
  w ← aref (words st.2) 0;
  Ok (st.1, w).

(** Where a participant is in [collect_build]. *)
Inductive collect_pc : Type :=
| AtInput (inputs : list JoinInput)
| AtAppend (columns : list InputColumn) (hashes : list Z) (rows : Z) (inputs : list JoinInput)
| AtSpill (columns : list InputColumn) (hashes : list Z) (rows : Z) (inputs : list JoinInput)
| AtCollected.

(** A step: fetching an input batch and choosing its way, one turn of
    [append_chunk_rows], or leaving the loop. *)
Definition collect_step (ncolumns : Z) (inner_keys : list Z) (pc : collect_pc) (local : ParallelHashJoinLocal)
    (m : SharedMemory) : res (collect_pc * ParallelHashJoinLocal * SharedMemory) :=
  match pc with
  | AtInput [] => '(local, m) ← publish_chunk local m; Ok (AtCollected, local, m)
  | AtInput (batch :: inputs) =>
      '(hashes, rows) ← hash_batch batch inner_keys;
      if ps_spilled (sm_shared m) then Ok (AtSpill (ji_columns batch) hashes rows inputs, local, m)
      else Ok (AtAppend (ji_columns batch) hashes rows inputs, local, m)
  | AtAppend columns hashes rows inputs =>
      if rows =? 0 then Ok (AtInput inputs, local, m) else
      '(r, local, m) ← append_turn ncolumns columns hashes rows local m;
      match r with
      | Some rows => Ok (AtAppend columns hashes rows inputs, local, m)
      | None => Ok (if ps_spilled (sm_shared m) then AtSpill columns hashes rows inputs else AtInput inputs, local, m)
      end
  | AtSpill _ _ _ _ | AtCollected => Ok (pc, local, m)
  end.

(** ** Setting up the table *)

Definition set_index (c : ParallelBuildChunk) (index : Z) : ParallelBuildChunk :=
  mkChunk (ch_next c) (ch_nrows c) index (ch_hashes c) (ch_links c) (ch_validity c) (ch_values c).
Definition set_chunk_links (c : ParallelBuildChunk) (links : list Z) : ParallelBuildChunk :=
  mkChunk (ch_next c) (ch_nrows c) (ch_index c) (ch_hashes c) links (ch_validity c) (ch_values c).

(** The [while] loop over the published chunks; the directory has room for as
    many turns as there are chunks. *)
Fixpoint index_chunks (fuel : nat) (directory pointer index : Z) (m : SharedMemory) : res (SharedMemory * Z) :=
  if pointer =? InvalidDsaPointer then Ok (m, index) else
  match fuel with
  | O => Undefined
  | S fuel =>
      chunk ← read_chunk m pointer;
      let m := write_object m pointer (DsaChunk (set_index chunk index)) in
      pointers ← read_directory m directory;
      pointers ← aset pointers index pointer;
      index_chunks fuel directory (ch_next chunk) (to_u32 (index + 1)) (write_object m directory (DsaDirectory pointers))
  end.

Definition choose_bucket_count (rows : Z) : res Z := bucket_count_loop 32 rows 1024.

Definition setup_shared_hash (m : SharedMemory) : res SharedMemory :=
  let s := sm_shared m in
  '(m, index) ← (if 0 <? ps_nchunks s then
      '(m, directory) ← dsa_allocate m (8 * ps_nchunks s) (DsaDirectory (palloc_uninit (ps_nchunks s)));
      index_chunks (Z.to_nat (ps_nchunks s)) directory (ps_chunks s) 0
        (with_shared m (set_table s directory (ps_buckets s) (ps_nbuckets s)))
    else Ok (m, 0));
  _ ← assert_ (index =? ps_nchunks s);
  if ps_spilled s then Ok m else
  nbuckets ← choose_bucket_count (ps_build_rows s);
  heads ← foldM (λ bucket heads, aset heads bucket 0) (seqZ 0 nbuckets) (replicate (Z.to_nat nbuckets) 0);
  '(m, buckets) ← dsa_allocate m (4 * nbuckets) (DsaBuckets heads);
  Ok (with_shared m (set_table (sm_shared m) (ps_directory (sm_shared m)) buckets nbuckets)).

(** ** Linking the rows *)

Definition row_chunk (local : ParallelHashJoinLocal) (m : SharedMemory) (row : Z) : res (Z * Z) :=
  let index := row / PARALLEL_BUILD_CHUNK_ROWS in
  _ ← raise_if (ps_nchunks (sm_shared m) <=? index) (Elog "invalid pg_batch shared hash row");
  directory ← read_directory m (lo_directory local);
  pointer ← aref directory index;
  Ok (pointer, row mod PARALLEL_BUILD_CHUNK_ROWS).

Definition chunk_value (c : ParallelBuildChunk) (column row : Z) : res Z :=
  aref (ch_values c) (column * PARALLEL_BUILD_CHUNK_ROWS + row).

Definition chunk_bucket (m : SharedMemory) (hash : Z) : Z := Z.land hash (ps_nbuckets (sm_shared m) - 1).

(** Whether two rows have the hash and all keys but the last in common. *)
Definition chunk_rows_match (inner_keys : list Z) (chunk : ParallelBuildChunk) (row : Z) (other : ParallelBuildChunk)
    (offset : Z) : res bool :=
  hash ← aref (ch_hashes chunk) row;
  other_hash ← aref (ch_hashes other) offset;
  if other_hash =? hash
  then values_equal (λ column, chunk_value chunk column row) (λ column, chunk_value other column offset) (key_prefix inner_keys)
  else Ok false.

(** Where a participant is in the part of [build_or_spill_chunks] that links
    rows: claiming a chunk; at the head of the loop over its rows, which reads
    the bucket; about to write the row's link; about to swap the bucket's head;
    entering [detect_build_duplicate]; at the head of its loop; about to set
    the flag. *)
Inductive build_pc : Type :=
| AtClaim
| AtRow (p row : Z)
| AtLink (p row head : Z)
| AtSwap (p row head : Z)
| AtCheck (p row : Z)
| AtWalk (p row link : Z)
| AtFlag (p row : Z)
| AtBuilt.

Definition build_step (inner_keys : list Z) (local : ParallelHashJoinLocal) (pc : build_pc) (m : SharedMemory)
    : res (build_pc * SharedMemory) :=
  let s := sm_shared m in
  match pc with
  | AtClaim =>
      let index := ps_next_chunk s in
      let m := with_shared m (set_counters s (ps_allocated_bytes s) (ps_build_rows s) (to_u32 (index + 1))) in
      if ps_nchunks s <=? index then Ok (AtBuilt, m) else
      directory ← read_directory m (ps_directory s);
      p ← aref directory index;
      Ok (AtRow p 0, m)
  | AtRow p row =>
      chunk ← read_chunk m p;
      if ch_nrows chunk <=? row then Ok (AtClaim, m) else
      hash ← aref (ch_hashes chunk) row;
      heads ← read_buckets m (lo_buckets local);
      head ← aref heads (chunk_bucket m hash);
      Ok (AtLink p row head, m)
  | AtLink p row head =>
      chunk ← read_chunk m p;
      links ← aset (ch_links chunk) row head;
      Ok (AtSwap p row head, write_object m p (DsaChunk (set_chunk_links chunk links)))
  | AtSwap p row head =>
      chunk ← read_chunk m p;
      hash ← aref (ch_hashes chunk) row;
      heads ← read_buckets m (lo_buckets local);
      current ← aref heads (chunk_bucket m hash);
      if current =? head then
        let row_id := to_u32 (ch_index chunk * PARALLEL_BUILD_CHUNK_ROWS + row) in
        heads ← aset heads (chunk_bucket m hash) (to_u32 (row_id + 1));
        Ok (AtCheck p row, write_object m (lo_buckets local) (DsaBuckets heads))
      else Ok (AtLink p row current, m)
  | AtCheck p row =>
      chunk ← read_chunk m p;
      link ← aref (ch_links chunk) row;
      Ok (if ps_has_duplicates s then AtRow p (row + 1) else AtWalk p row link, m)
  | AtWalk p row link =>
      if link =? 0 then Ok (AtRow p (row + 1), m) else
      chunk ← read_chunk m p;
      '(q, offset) ← row_chunk local m (link - 1);
      other ← read_chunk m q;
      matches ← chunk_rows_match inner_keys chunk row other offset;
      if (matches : bool) then Ok (AtFlag p row, m) else
      next ← aref (ch_links other) offset;
      Ok (AtWalk p row next, m)
  | AtFlag p row => Ok (AtRow p (row + 1), with_shared m (set_flags s (ps_spilled s) true))
  | AtBuilt => Ok (AtBuilt, m)
  end.

(** ** Preparing: the phases of a participant *)

(** Case 1 of the switch: looking up the addresses of the table. *)
Definition map_shared_hash (local : ParallelHashJoinLocal) (m : SharedMemory) : ParallelHashJoinLocal :=
  mkLocal (lo_chunk local) (ps_directory (sm_shared m)) (ps_buckets (sm_shared m)) (lo_local_build local)
    (lo_build_has_duplicates local).

(** A case of the switch: what becomes of the participant's addresses, and the
    phase in which it finds the barrier next, [None] when it goes to [ready].
    Phase 0 collects the build side and one participant sets the table up,
    phase 2 links the rows or spills the chunks, phase 3 partitions the probe
    side of a table that spilled; none of them touches the addresses.  The
    table of [m] is set up before phase 1 begins. *)
Definition prepare_case (m : SharedMemory) (local : ParallelHashJoinLocal) (phase : Z) : ParallelHashJoinLocal * option Z :=
  if phase =? 0 then (local, Some 1)
  else if phase =? 1 then (map_shared_hash local m, Some 2)
  else if phase =? 2 then (local, Some 3)
  else if phase =? 3 then if ps_spilled (sm_shared m) then (local, Some 4) else (local, None)
  else (local, None).

Fixpoint prepare_turns (fuel : nat) (phase : Z) (local : ParallelHashJoinLocal) (m : SharedMemory)
    : res ParallelHashJoinLocal :=
  match fuel with
  | O => Undefined
  | S fuel =>
      let '(local, next) := prepare_case m local phase in
      match next with None => Ok local | Some phase => prepare_turns fuel phase local m end
  end.

(** The addresses of a participant that finds the barrier in [phase] when it
    attaches, once it is ready: it takes at most five turns. *)
Definition prepare_addresses (phase : Z) (local : ParallelHashJoinLocal) (m : SharedMemory) : res ParallelHashJoinLocal :=
  prepare_turns 5 phase local m.

(** The label [ready]. *)
Definition prepare_ready (local : ParallelHashJoinLocal) (m : SharedMemory) : ParallelHashJoinLocal :=
  mkLocal (lo_chunk local) (lo_directory local) (lo_buckets local) (lo_local_build local)
    (ps_has_duplicates (sm_shared m)).

(** ** Probing *)

(** The keys but the last, given as pairs of inner and outer columns. *)
Fixpoint probe_keys_match (value : Z → res Z) (probe_columns : list InputColumn) (probe_row : Z) (keys : list (Z * Z))
    : res bool :=
  match keys with
  | [] => Ok true
  | (inner_column, outer_column) :: keys =>
      input ← aref probe_columns outer_column;
      '(probe_value, isnull) ← hash_join_input_value input probe_row;
      if isnull : bool then Ok false else
      v ← value inner_column;
      if v =? probe_value then probe_keys_match value probe_columns probe_row keys else Ok false
  end.

(** The first row from [link] on with the hash and the probe row's keys. *)
Fixpoint match_links (fuel : nat) (local : ParallelHashJoinLocal) (m : SharedMemory) (keys : list (Z * Z))
    (probe_columns : list InputColumn) (hash probe_row link : Z) : res Z :=
  if link =? 0 then Ok 0 else
  match fuel with
  | O => Undefined
  | S fuel =>
      '(p, offset) ← row_chunk local m (link - 1);
      chunk ← read_chunk m p;
      h ← aref (ch_hashes chunk) offset;
      matches ← (if h =? hash
                 then probe_keys_match (λ column, chunk_value chunk column offset) probe_columns probe_row (key_prefix keys)
                 else Ok false);
      if (matches : bool) then Ok link else
      next ← aref (ch_links chunk) offset;
      match_links fuel local m keys probe_columns hash probe_row next
  end.

(** A chain has at most as many rows as the table. *)
Definition link_fuel (m : SharedMemory) : nat := Z.to_nat (ps_build_rows (sm_shared m)).

Definition parallel_hash_join_find_head (local : ParallelHashJoinLocal) (m : SharedMemory) (store : BuildStore)
    (keys : list (Z * Z)) (probe_columns : list InputColumn) (hash probe_row : Z) : res Z :=
  if lo_local_build local then
    bucket ← probe_buckets (S (Z.to_nat (bs_nbuckets store))) store (λ link,
        if link =? 0 then Ok true else
        first ← aref (bs_links store) (link - 1);
        if bl_hash first =? hash
        then probe_keys_match (λ column, stored_value_at store column (link - 1)) probe_columns probe_row (key_prefix keys)
        else Ok false)
      (Z.land hash (bs_nbuckets store - 1));
    aref (bs_buckets store) bucket
  else
    heads ← read_buckets m (lo_buckets local);
    link ← aref heads (chunk_bucket m hash);
    match_links (link_fuel m) local m keys probe_columns hash probe_row link.

Definition parallel_hash_join_next (local : ParallelHashJoinLocal) (m : SharedMemory) (store : BuildStore)
    (keys : list (Z * Z)) (probe_columns : list InputColumn) (build_row probe_row : Z) : res Z :=
  if lo_local_build local then link ← aref (bs_links store) build_row; Ok (bl_next link) else
  '(p, offset) ← row_chunk local m build_row;
  chunk ← read_chunk m p;
  hash ← aref (ch_hashes chunk) offset;
  link ← aref (ch_links chunk) offset;
  match_links (link_fuel m) local m keys probe_columns hash probe_row link.

Definition parallel_hash_join_build_is_unique (local : ParallelHashJoinLocal) (store : BuildStore) (spilled : bool)
    : res bool :=
  if lo_local_build local then Ok (negb (bs_has_duplicates store)) else
  _ ← assert_ (negb spilled);
  Ok (negb (lo_build_has_duplicates local)).

(** The value and whether it is NULL. *)
Definition parallel_hash_join_build_value (local : ParallelHashJoinLocal) (m : SharedMemory) (store : BuildStore)
    (column row : Z) : res (Z * bool) :=
  if lo_local_build local then build_value store column row else
  '(p, offset) ← row_chunk local m row;
  chunk ← read_chunk m p;
  w ← aref (ch_validity chunk) (column * (PARALLEL_BUILD_CHUNK_ROWS / 64) + offset / 64);
  if Z.land w (bit64 (offset mod 64)) =? 0 then Ok (0, true) else
  v ← chunk_value chunk column offset; Ok (v, false).

(** ** Attaching late *)

(** C28. A participant that attaches while the barrier is in phase 0 or 1 looks
    the table up.  One that attaches in phase 2 or 3 to a table that did not
    spill, when the others are linking rows or have begun to probe, becomes
    ready without having looked it up: the first bucket it reads, to link a row
    or to probe, is a dereference of NULL. *)
Theorem late_attach_unmapped inner_keys (local : ParallelHashJoinLocal) (m : SharedMemory) p row c store keys columns hash
    probe_row phase :
  lo_buckets local = InvalidDsaPointer → lo_local_build local = false → sm_heap m !! InvalidDsaPointer = None →
  read_chunk m p = Ok c → 0 ≤ row < ch_nrows c → ch_nrows c ≤ zlength (ch_hashes c) → 0 ≤ phase ≤ 3 →
  ∃ attached, prepare_addresses phase local m = Ok attached ∧
  (phase ≤ 1 → attached = map_shared_hash local m) ∧
  (2 ≤ phase → ps_spilled (sm_shared m) = false →
    build_step inner_keys attached (AtRow p row) m = Undefined ∧
    parallel_hash_join_find_head attached m store keys columns hash probe_row = Undefined).
Proof.
  intros Hb Hl Hnull Hc Hr Hh Hp.
  exists (if phase <=? 1 then map_shared_hash local m else local). split; [|split].
  - assert (phase = 0 ∨ phase = 1 ∨ phase = 2 ∨ phase = 3) as [->|[->|[->| ->]]] by lia;
      unfold prepare_addresses, prepare_turns, prepare_case; cbn; by destruct (ps_spilled (sm_shared m)).
  - intros Hle. by destruct (Z.leb_spec phase 1); [|lia].
  - intros Hge _. destruct (Z.leb_spec phase 1); [lia|].
    assert (Hread : read_buckets m InvalidDsaPointer = Undefined) by (unfold read_buckets; by rewrite Hnull).
    cbn [build_step]. rewrite Hc, bind_Ok. destruct (Z.leb_spec (ch_nrows c) row); [lia|].
    unfold parallel_hash_join_find_head. rewrite Hl, Hb, Hread. split; [|done].
    by rewrite (aref_ok 0), bind_Ok by lia.
Qed.
End shared.

(** An allocator that takes the next address. *)
#[refine, export] Instance reference_dsa : DsaArea := {
  dsa_choose X := 1 + foldr Z.max 0 (elements X);
}.
Proof.
  intros X. assert (Hle : ∀ l x, x ∈ l → x ≤ foldr Z.max 0 l).
  { induction l as [|y l IH]; intros x; [by intros ?%not_elem_of_nil|]. cbn. intros [->|Hx]%elem_of_cons; [lia|]. specialize (IH x Hx). lia. }
  split.
  - intros Hin. apply elem_of_elements, Hle in Hin. lia.
  - assert (0 ≤ foldr Z.max 0 (elements X)); [|unfold InvalidDsaPointer; lia]. induction (elements X) as [|y l IH]; cbn; lia.
Defined.

(** A table with one chunk of one row, met by a participant in phase 3. *)
Definition sample_chunk : ParallelBuildChunk := mkChunk 0 1 0 [9] [0] [1] [5].
Definition sample_memory : SharedMemory :=
  mkShm (mkShared 2 4 100000 1 2 3 1 1024 0 1 false false 1)
    {[ 1 := DsaChunk sample_chunk; 2 := DsaDirectory [1]; 3 := DsaBuckets (replicate 1024 0) ]}.

Lemma late_attach_witness :
  ∃ attached, prepare_addresses 3 (mkLocal 0 0 0 false false) sample_memory = Ok attached ∧
  (3 ≤ 1 → attached = map_shared_hash (mkLocal 0 0 0 false false) sample_memory) ∧
  (2 ≤ 3 → ps_spilled (sm_shared sample_memory) = false →
    build_step [0] attached (AtRow 1 0) sample_memory = Undefined ∧
    parallel_hash_join_find_head attached sample_memory (mkStore [] [] [] 0 0 0 0 0 false) [(0, 0)] [] 9 0 = Undefined).
Proof.
  apply (late_attach_unmapped [0] (mkLocal 0 0 0 false false) sample_memory 1 0 sample_chunk
    (mkStore [] [] [] 0 0 0 0 0 false) [(0, 0)] [] 9 0 3); try done.
Defined.
