(* ===== verification/ParallelChunk.v ===== *)
(** * The chunks of the parallel hash join

    What a chunk holds: the rows read from its arrays.  Appending a row extends
    them, and the arrays fit the memory allocated for the chunk. *)

From S2P Require Import Prelude Words Selection Vector Kernels Int4 Hash Spill JoinStore JoinStoreProps JoinBuild JoinBuildProps ParallelHash.

Definition word_bit (validity : list Z) (column row : Z) : bool :=
  Z.testbit (zget 0 validity (column * 16 + row / 64)) (row mod 64).
Definition value_in (values : list Z) (column row : Z) : Z := zget 0 values (column * 1024 + row).
Definition array_cell (values validity : list Z) (column row : Z) : option Z :=
  if word_bit validity column row then Some (value_in values column row) else None.

Definition chunk_row (ncolumns : Z) (c : ParallelBuildChunk) (row : Z) : build_row :=
  (zget 0 (ch_hashes c) row, (λ column, array_cell (ch_values c) (ch_validity c) column row) <$> seqZ 0 ncolumns).

(** The rows of a chunk. *)
Definition chunk_rows (ncolumns : Z) (c : ParallelBuildChunk) : list build_row :=
  chunk_row ncolumns c <$> seqZ 0 (ch_nrows c).

Record chunk_wf (ncolumns : Z) (c : ParallelBuildChunk) : Prop := {
  cw_nrows : 0 ≤ ch_nrows c ≤ 1024;
  cw_hashes : zlength (ch_hashes c) = 1024;
  cw_links : zlength (ch_links c) = 1024;
  cw_bits : zlength (ch_validity c) = ncolumns * 16;
  cw_cells : zlength (ch_values c) = ncolumns * 1024;
  cw_u64 : Forall is_u64 (ch_validity c);
  cw_clear : ∀ column row, 0 ≤ column < ncolumns → ch_nrows c ≤ row < 1024 → word_bit (ch_validity c) column row = false;
}.

(** ** Sizes *)

Section chunk.
Context `{PgCore}.

Definition chunk_bytes (ncolumns : Z) : Z := 8208 + 4224 * ncolumns.

Lemma build_chunk_size_ok ncolumns : 0 ≤ ncolumns ≤ 1600 → build_chunk_size ncolumns = Ok (chunk_bytes ncolumns).
Proof.
  intros Hn. unfold build_chunk_size, chunk_bytes, PARALLEL_BUILD_CHUNK_ROWS, sizeof_ParallelBuildChunk.
  change (1024 / 64) with 16. rewrite !MAXALIGN_div by lia.
  rewrite !add_size_spec, !bind_Ok, !add_size_spec, !bind_Ok, !add_size_spec, !bind_Ok, ?add_size_spec by (unfold is_u64; zlia). f_equal. zlia.
Qed.
(** The arrays fill the allocation exactly. *)
Lemma chunk_layout ncolumns :
  0 ≤ ncolumns → chunk_values_at ncolumns + 4 * (ncolumns * PARALLEL_BUILD_CHUNK_ROWS) = chunk_bytes ncolumns.
Proof.
  intros. unfold chunk_values_at, chunk_validity_at, chunk_links_at, chunk_hashes_at, chunk_bytes, sizeof_ParallelBuildChunk,
    PARALLEL_BUILD_CHUNK_ROWS. rewrite MAXALIGN_div by lia. change (1024 / 64) with 16. change ((16 + 7) / 8 * 8) with 16. lia.
Qed.

(** What a new chunk takes of the shared budget. *)
Definition reserved_bytes (ncolumns : Z) : Z := chunk_bytes ncolumns + 8 + 16 * 1024.

Lemma chunk_reservation_ok ncolumns :
  0 ≤ ncolumns ≤ 1600 → chunk_reservation (chunk_bytes ncolumns) = Ok (reserved_bytes ncolumns).
Proof.
  intros. unfold chunk_reservation, reserved_bytes, chunk_bytes, PARALLEL_BUILD_CHUNK_ROWS.
  rewrite !add_size_spec, bind_Ok, ?add_size_spec by (unfold is_u64; zlia). f_equal. lia.
Qed.

(** ** Appending *)

Lemma empty_chunk_wf ncolumns : 0 ≤ ncolumns → chunk_wf ncolumns (empty_chunk ncolumns).
Proof.
  intros Hn. unfold empty_chunk, PARALLEL_BUILD_CHUNK_ROWS. change (1024 / 64) with 16.
  split; cbn [ch_nrows ch_hashes ch_links ch_validity ch_values]; rewrite ?length_replicate; try lia.
  - apply Forall_replicate. unfold is_u64. lia.
  - intros column row Hc Hr. unfold word_bit. rewrite zget_replicate by zlia. apply Z.bits_0.
Qed.

Lemma chunk_rows_length ncolumns c : 0 ≤ ch_nrows c → zlength (chunk_rows ncolumns c) = ch_nrows c.
Proof. intros. unfold chunk_rows. rewrite length_fmap, length_seqZ. lia. Qed.

(** The arrays of the columns. *)
Record arrays_wf (ncolumns : Z) (arrays : list Z * list Z) : Prop := {
  aw_values : zlength arrays.1 = ncolumns * 1024;
  aw_bits : zlength arrays.2 = ncolumns * 16;
  aw_u64 : Forall is_u64 arrays.2;
}.

Lemma store_chunk_value_ok ncolumns columns n row dest column arrays :
  Forall (input_ok n) columns → zlength columns = ncolumns → 0 ≤ row < n → 0 ≤ dest < 1024 → 0 ≤ column < ncolumns →
  arrays_wf ncolumns arrays →
  ∃ v arrays', store_chunk_value columns row dest column arrays = Ok arrays' ∧ arrays_wf ncolumns arrays' ∧
    got v = zget None (input_cells columns row) column ∧
    ∀ c i, 0 ≤ c < ncolumns → 0 ≤ i < 1024 →
      word_bit arrays'.2 c i = word_bit arrays.2 c i || bool_decide (c = column ∧ i = dest) && negb v.2 ∧
      value_in arrays'.1 c i = if decide (c = column ∧ i = dest) then v.1 else value_in arrays.1 c i.
Proof.
  intros Hin Hl Hrow Hdest Hcol [Hv Hb Hu]. unfold store_chunk_value, PARALLEL_BUILD_CHUNK_ROWS. change (1024 / 64) with 16.
  destruct (input_get_ok n ncolumns columns row column) as (v & Ev & Hg & _); [done..|].
  rewrite (aref_ok no_input), bind_Ok in Ev by lia. rewrite (aref_ok no_input), bind_Ok, Ev, bind_Ok by lia. destruct v as [v isnull].
  rewrite aset_ok, bind_Ok by zlia. cbv zeta. set (k := column * 16 + dest / 64). assert (0 ≤ k < zlength arrays.2) by (subst k; zlia).
  set (word := zget 0 arrays.2 k). assert (Hword : is_u64 word) by (by apply zget_Forall).
  set (validity := if isnull then arrays.2 else <[Z.to_nat k := Z.lor word (bit64 (dest mod 64))]> arrays.2).
  assert (E : (if negb isnull then w ← aref arrays.2 k; aset arrays.2 k (Z.lor w (bit64 (dest mod 64))) else Ok arrays.2) = Ok validity).
  { subst validity. destruct isnull; [done|]. cbn [negb]. rewrite (aref_ok 0), bind_Ok by done. by rewrite aset_ok by done. }
  rewrite E, bind_Ok. exists (v, isnull). eexists; split; [done|]. split; [|split; [done|]].
  - split; cbn; rewrite ?length_insert; [done| |]; subst validity; destruct isnull; rewrite ?length_insert; try done.
    apply Forall_insert; [done|]. auto with words.
  - intros c i Hc Hi. cbn [fst snd]. split.
    + unfold word_bit. subst validity. destruct isnull; [by rewrite andb_false_r, orb_false_r|]. cbn [negb].
      rewrite andb_true_r, zget_insert by zlia. case_decide as Ek.
      * rewrite Z.lor_spec, testbit_bit64, <- Ek by zlia. fold word. f_equal.
        destruct (Z.eqb_spec (i mod 64) (dest mod 64)); [rewrite bool_decide_eq_true_2 by zlia|rewrite bool_decide_eq_false_2 by zlia]; done.
      * rewrite bool_decide_eq_false_2 by (intros [-> ->]; done). by rewrite orb_false_r.
    + unfold value_in. rewrite zget_insert by lia. destruct (decide (c = column ∧ i = dest)) as [[-> ->]|Hne].
      * by rewrite decide_True.
      * rewrite decide_False; [done|]. intros Heq. apply Hne. lia.
Qed.

(** The arrays after storing all columns of a row. *)
Lemma store_chunk_values_ok ncolumns columns n row dest arrays :
  0 ≤ ncolumns → Forall (input_ok n) columns → zlength columns = ncolumns → 0 ≤ row < n → 0 ≤ dest < 1024 →
  arrays_wf ncolumns arrays → (∀ c, 0 ≤ c < ncolumns → word_bit arrays.2 c dest = false) →
  ∃ arrays', foldM (store_chunk_value columns row dest) (seqZ 0 ncolumns) arrays = Ok arrays' ∧ arrays_wf ncolumns arrays' ∧
    (∀ c, 0 ≤ c < ncolumns → array_cell arrays'.1 arrays'.2 c dest = zget None (input_cells columns row) c) ∧
    ∀ c i, 0 ≤ c < ncolumns → 0 ≤ i < 1024 → i ≠ dest →
      word_bit arrays'.2 c i = word_bit arrays.2 c i ∧ array_cell arrays'.1 arrays'.2 c i = array_cell arrays.1 arrays.2 c i.
Proof.
  intros Hn Hin Hl Hrow Hdest Hwf Hclear.
  destruct (for_inv (λ k a, arrays_wf ncolumns a ∧
      (∀ c, 0 ≤ c < k → array_cell a.1 a.2 c dest = zget None (input_cells columns row) c) ∧
      (∀ c, k ≤ c < ncolumns → word_bit a.2 c dest = false) ∧
      ∀ c i, 0 ≤ c < ncolumns → 0 ≤ i < 1024 → i ≠ dest →
        word_bit a.2 c i = word_bit arrays.2 c i ∧ array_cell a.1 a.2 c i = array_cell arrays.1 arrays.2 c i)
    (store_chunk_value columns row dest) ncolumns arrays) as (a & -> & Ha & Hd & _ & Hs); [lia| | |by exists a].
  { split_and!; [done|lia|done|done]. }
  intros k a Hk (Ha & Hd & Hc & Hs).
  destruct (store_chunk_value_ok ncolumns columns n row dest k a) as (v & a' & -> & Ha' & Hg & Hcell); [done..|].
  exists a'. split; [done|]. split; [done|]. split_and!.
  - intros c Hck. unfold array_cell. destruct (Hcell c dest) as [-> ->]; [lia|done|]. destruct (decide (c = k)) as [->|Hne].
    + rewrite bool_decide_eq_true_2, decide_True by done. rewrite Hc by lia. cbn. rewrite <- Hg. unfold got. by destruct v.2.
    + rewrite bool_decide_eq_false_2, decide_False by (intros [? ?]; done). cbn. rewrite orb_false_r. apply Hd. lia.
  - intros c Hck. destruct (Hcell c dest) as [-> _]; [lia|done|]. rewrite bool_decide_eq_false_2 by lia. cbn.
    rewrite orb_false_r. apply Hc. lia.
  - intros c i Hcn Hi Hne. unfold array_cell. destruct (Hcell c i) as [-> ->]; [done|done|].
    rewrite bool_decide_eq_false_2, decide_False by (intros [? ?]; done). cbn. rewrite orb_false_r. by apply Hs.
Qed.

Lemma append_chunk_row_ok ncolumns columns n hashes row c :
  0 ≤ ncolumns → chunk_wf ncolumns c → ch_nrows c < 1024 → Forall (input_ok n) columns → zlength columns = ncolumns →
  0 ≤ row < n → 0 ≤ row < zlength hashes →
  ∃ c', append_chunk_row ncolumns columns hashes row c = Ok c' ∧ chunk_wf ncolumns c' ∧
    ch_nrows c' = ch_nrows c + 1 ∧ ch_next c' = ch_next c ∧
    chunk_rows ncolumns c' = chunk_rows ncolumns c ++ [(zget 0 hashes row, input_cells columns row)].
Proof.
  intros Hn [[Hn0 Hn1] Hh Hli Hb Hv Hu Hcl] Hroom Hin Hl Hrow Hhash. unfold append_chunk_row.
  rewrite (aref_ok 0), bind_Ok, aset_ok, bind_Ok by lia.
  destruct (store_chunk_values_ok ncolumns columns n row (ch_nrows c) (ch_values c, ch_validity c))
    as ((values & validity) & -> & [Hv' Hb' Hu'] & Hnew & Hold); [done|done|done|done|lia|by split|by intros; apply Hcl|].
  rewrite bind_Ok. cbn [fst snd] in *. eexists; split; [done|]. split_and!; [|done|done|].
  - split; cbn; rewrite ?length_insert; try done; [lia|]. intros column i Hc Hi.
    destruct (Hold column i) as [-> _]; [done|lia|lia|]. apply Hcl; lia.
  - unfold chunk_rows. cbn [ch_nrows]. rewrite seqZ_app, fmap_app, Z.add_0_l by lia. change (seqZ (ch_nrows c) 1) with [ch_nrows c].
    f_equal.
    + apply list_fmap_ext. intros k i Hi%list_elem_of_lookup_2%elem_of_seqZ. unfold chunk_row. cbn [ch_hashes ch_values ch_validity].
      rewrite zget_insert_ne by lia. f_equal. apply list_fmap_ext. intros j column Hc%list_elem_of_lookup_2%elem_of_seqZ.
      destruct (Hold column i) as [_ ->]; [lia|lia|lia|done].
    + cbn. f_equal. unfold chunk_row. cbn [ch_hashes ch_values ch_validity]. rewrite zget_insert_eq by lia. f_equal.
      rewrite <- (zget_seqZ None (input_cells columns row)). unfold input_cells at 2. rewrite length_fmap, Hl.
      apply list_fmap_ext. intros j column Hc%list_elem_of_lookup_2%elem_of_seqZ. apply Hnew. lia.
Qed.
End chunk.
