(* ===== verification/ParallelShared.v ===== *)
(** * Shared memory while the build side is collected

    The published chunks form a list; every participant owns at most one
    private chunk.  Together they hold the rows collected so far, and what they
    take stays within the shared budget. *)

From S2P Require Import Prelude Words Selection Vector Kernels Int4 Hash Spill JoinStore JoinStoreProps JoinBuild JoinBuildProps ParallelHash ParallelChunk.

Section shared.
Context `{PgCore} `{DsaArea}.
Context (ncolumns : Z).

(** The rows of the chunk at an address. *)
Definition held (m : SharedMemory) (p : Z) : list build_row :=
  match sm_heap m !! p with Some (DsaChunk c) => chunk_rows ncolumns c | _ => [] end.

Definition chunk_at (m : SharedMemory) (p : Z) (P : ParallelBuildChunk → Prop) : Prop :=
  ∃ c, sm_heap m !! p = Some (DsaChunk c) ∧ chunk_wf ncolumns c ∧ P c.

(** The list of chunks that starts at [head]. *)
Fixpoint chunk_chain (m : SharedMemory) (head : Z) (l : list Z) : Prop :=
  match l with
  | [] => head = InvalidDsaPointer
  | p :: l => head = p ∧ chunk_at m p (λ c, 0 < ch_nrows c ∧ chunk_chain m (ch_next c) l)
  end.

(** [pub] are the published chunks, [cur] the chunk of the participant that
    runs, [own] those of the others; [failed] bounds the reservations that were
    refused. *)
Record shared_rows (m : SharedMemory) (pub cur own : list Z) (rows : list build_row) (failed : Z) : Prop := {
  sr_chain : chunk_chain m (ps_chunks (sm_shared m)) pub;
  sr_nchunks : ps_nchunks (sm_shared m) = zlength pub;
  sr_build_rows : ps_build_rows (sm_shared m) = zlength (concat (held m <$> pub));
  sr_cur : Forall (λ p, chunk_at m p (λ c, 0 < ch_nrows c)) cur;
  sr_own : Forall (λ p, chunk_at m p (λ c, 0 < ch_nrows c < 1024)) own;
  sr_nodup : NoDup (pub ++ cur ++ own);
  sr_dom : ∀ p, is_Some (sm_heap m !! p) ↔ p ∈ pub ++ cur ++ own;
  sr_valid : InvalidDsaPointer ∉ pub ++ cur ++ own;
  sr_content : concat (held m <$> pub ++ cur ++ own) ≡ₚ rows;
  sr_limit : reserved_bytes ncolumns * zlength (pub ++ cur ++ own) ≤ ps_memory_limit (sm_shared m);
  sr_bytes : reserved_bytes ncolumns * zlength (pub ++ cur ++ own) ≤ ps_allocated_bytes (sm_shared m) ≤
    reserved_bytes ncolumns * (zlength (pub ++ cur ++ own) + failed);
}.

(** ** Frames *)

Lemma held_write m p q o : q ≠ p → held (write_object m p o) q = held m q.
Proof. intros. unfold held, write_object, with_heap. cbn. by rewrite lookup_insert_ne. Qed.

Lemma held_at m p o : held (write_object m p o) p = match o with DsaChunk c => chunk_rows ncolumns c | _ => [] end.
Proof. unfold held, write_object, with_heap. cbn. by rewrite lookup_insert_eq. Qed.

Lemma held_frame m p o (l : list Z) : p ∉ l → held (write_object m p o) <$> l = held m <$> l.
Proof. intros Hp. apply list_fmap_ext. intros i q Hq%list_elem_of_lookup_2. apply held_write. by intros ->. Qed.

Lemma chunk_at_write m p q o P : q ≠ p → chunk_at m q P → chunk_at (write_object m p o) q P.
Proof.
  intros Hne (c & Hc & Hw & HP). exists c. split; [|done]. unfold write_object, with_heap. cbn. by rewrite lookup_insert_ne.
Qed.

Lemma chunk_at_impl m p (P Q : ParallelBuildChunk → Prop) : chunk_at m p P → (∀ c, P c → Q c) → chunk_at m p Q.
Proof. intros (c & Hc & Hw & HP) HQ. exists c. auto. Qed.

Lemma chunks_at_frame m p o P l :
  p ∉ l → Forall (λ q, chunk_at m q P) l → Forall (λ q, chunk_at (write_object m p o) q P) l.
Proof.
  intros Hp. rewrite !Forall_forall. intros Hl q Hq. apply chunk_at_write; [by intros ->|auto].
Qed.

Lemma chunk_chain_frame m p o l head : p ∉ l → chunk_chain m head l → chunk_chain (write_object m p o) head l.
Proof.
  revert head. induction l as [|q l IH]; intros head Hp; [done|]. cbn. intros (-> & Hc). split; [done|].
  apply chunk_at_write; [set_solver|]. eapply chunk_at_impl; [exact Hc|]. intros c [? ?]. split; [done|].
  apply IH; [set_solver|done].
Qed.

(** Shared counters do not matter to the heap. *)
Lemma chunk_chain_shared m s l head : chunk_chain (with_shared m s) head l ↔ chunk_chain m head l.
Proof.
  revert head. induction l as [|q l IH]; intros head; [done|]. cbn. unfold chunk_at. cbn. by setoid_rewrite IH.
Qed.

Lemma read_chunk_at m p c : sm_heap m !! p = Some (DsaChunk c) → read_chunk m p = Ok c.
Proof. intros E. unfold read_chunk. by rewrite E. Qed.

Lemma held_chunk m p c : sm_heap m !! p = Some (DsaChunk c) → held m p = chunk_rows ncolumns c.
Proof. intros E. unfold held. by rewrite E. Qed.

(** Every chunk in the list holds a row at least. *)
Lemma chain_rows m l head : chunk_chain m head l → zlength l ≤ zlength (concat (held m <$> l)).
Proof.
  revert head. induction l as [|p l IH]; intros head; [cbn; lia|]. intros (_ & c & Hc & Hw & Hn & Hl).
  rewrite fmap_cons. cbn [concat]. rewrite length_app, (held_chunk _ _ _ Hc). pose proof (chunk_rows_length ncolumns c).
  specialize (IH _ Hl). cbn [length]. lia.
Qed.

Lemma chain_rows_max m l head : chunk_chain m head l → zlength (concat (held m <$> l)) ≤ 1024 * zlength l.
Proof.
  revert head. induction l as [|p l IH]; intros head; [cbn; lia|]. intros (_ & c & Hc & Hw & _ & Hl).
  rewrite fmap_cons. cbn [concat]. rewrite length_app, (held_chunk _ _ _ Hc). pose proof (chunk_rows_length ncolumns c).
  pose proof (cw_nrows _ _ Hw). specialize (IH _ Hl). cbn [length]. lia.
Qed.

Lemma reserved_bytes_pos : 0 ≤ ncolumns → 24600 ≤ reserved_bytes ncolumns.
Proof. intros. unfold reserved_bytes, chunk_bytes. lia. Qed.

(** The participant's own chunk is one of all. *)
Lemma shared_rows_take m pub own own' p rows failed :
  own ≡ₚ p :: own' → shared_rows m pub [] own rows failed → shared_rows m pub [p] own' rows failed.
Proof.
  intros Hp []. cbn [app] in *. assert (Hl : length own = S (length own')) by by rewrite Hp.
  rewrite Hp in sr_own0, sr_nodup0, sr_valid0, sr_content0. apply Forall_cons in sr_own0 as [Hcur ?].
  split; try done; cbn [app].
  - constructor; [|done]. eapply chunk_at_impl; [exact Hcur|]. cbn. lia.
  - intros q. rewrite sr_dom0. by rewrite Hp.
  - rewrite !length_app in *. cbn in *. lia.
  - rewrite !length_app in *. cbn in *. lia.
Qed.

Lemma shared_rows_give m pub own p rows failed c :
  sm_heap m !! p = Some (DsaChunk c) → ch_nrows c < 1024 →
  shared_rows m pub [p] own rows failed → shared_rows m pub [] (p :: own) rows failed.
Proof.
  intros Hc Hn []. split; try done.
  apply Forall_cons in sr_cur0 as [(c' & Hc' & ? & ?) _]. constructor; [|done]. exists c'.
  rewrite Hc in Hc'. injection Hc' as <-. split; [done|]. split; [done|lia].
Qed.

Lemma shared_rows_own m pub cur own own' rows failed :
  own ≡ₚ own' → shared_rows m pub cur own rows failed → shared_rows m pub cur own' rows failed.
Proof.
  intros Hp []. assert (Hl : length own = length own') by by rewrite Hp.
  rewrite Hp in sr_own0, sr_nodup0, sr_valid0, sr_content0. split; try done.
  - intros q. rewrite sr_dom0. by rewrite Hp.
  - rewrite !length_app in *. by rewrite <- Hl.
  - rewrite !length_app in *. by rewrite <- Hl.
Qed.

Lemma shared_rows_weaken m pub cur own rows rows' failed failed' :
  rows ≡ₚ rows' → failed ≤ failed' → 0 ≤ ncolumns → shared_rows m pub cur own rows failed → shared_rows m pub cur own rows' failed'.
Proof.
  intros Hr Hf Hn []. pose proof (reserved_bytes_pos Hn). split; try done; [by rewrite <- Hr|nia].
Qed.
End shared.
