(* ===== verification/ParallelCollect.v ===== *)
(** * Collecting the build side in parallel

    Every interleaving of the participants' steps keeps the rows: those in
    chunks and those still to be read are, together, the rows of the build side;
    and the chunks stay within the shared budget. *)

From S2P Require Import Prelude Words Selection Vector Kernels Int4 Hash Spill JoinStore JoinStoreProps JoinDirectory JoinBuild JoinBuildProps ParallelHash ParallelChunk ParallelShared.

Section collect.
Context `{PgCore} `{DsaArea}.
Context (ncolumns : Z).
Context (Hncolumns : 0 ≤ ncolumns ≤ 1600).

(** ** Operations on shared memory *)

Lemma append_old m pub own rows failed p c c' r :
  shared_rows ncolumns m pub [p] own rows failed → sm_heap m !! p = Some (DsaChunk c) → chunk_wf ncolumns c' →
  ch_nrows c' = ch_nrows c + 1 → chunk_rows ncolumns c' = chunk_rows ncolumns c ++ [r] →
  shared_rows ncolumns (write_object m p (DsaChunk c')) pub [p] own (rows ++ [r]) failed.
Proof using Hncolumns.
  intros [sr_chain0 sr_nchunks0 sr_build_rows0 sr_cur0 sr_own0 sr_nodup0 sr_dom0 sr_valid0 sr_content0 sr_limit0 sr_bytes0] Hc Hwf Hn Hrows. pose proof sr_nodup0 as (_ & Hpub & (Hown & _)%NoDup_cons)%NoDup_app.
  assert (Hp : p ∉ pub) by (intros Hin; apply (Hpub p Hin); left).
  split; try done.
  - by apply chunk_chain_frame.
  - by rewrite held_frame by done.
  - apply Forall_singleton. exists c'. split; [by apply lookup_insert_eq|]. split; [done|].
    apply Forall_cons in sr_cur0 as [(c0 & Hc0 & _ & ?) _]. rewrite Hc in Hc0. injection Hc0 as <-. lia.
  - by apply chunks_at_frame.
  - intros q. cbn [sm_heap write_object with_heap with_shared]. rewrite lookup_insert_is_Some, sr_dom0. split; [|by destruct (decide (p = q)); [left|right]].
    intros [->|[_ ?]]; [set_solver|done].
  - rewrite !fmap_app, (held_frame _ _ _ _ pub), (held_frame _ _ _ _ own) by done. rewrite <- sr_content0, !fmap_app. cbn [fmap list_fmap app concat].
    rewrite (held_at ncolumns), Hrows, (held_chunk ncolumns _ _ _ Hc), !concat_app. cbn [concat].
    rewrite <- !app_assoc. apply Permutation_app_head, Permutation_app_head. apply Permutation_app_comm.
Qed.

(** Shared fields that say nothing about the chunks. *)
Lemma shared_rows_fields m s pub cur own rows failed failed' :
  ps_chunks s = ps_chunks (sm_shared m) → ps_nchunks s = ps_nchunks (sm_shared m) →
  ps_build_rows s = ps_build_rows (sm_shared m) → ps_memory_limit s = ps_memory_limit (sm_shared m) →
  reserved_bytes ncolumns * zlength (pub ++ cur ++ own) ≤ ps_allocated_bytes s ≤
    reserved_bytes ncolumns * (zlength (pub ++ cur ++ own) + failed') →
  shared_rows ncolumns m pub cur own rows failed → shared_rows ncolumns (with_shared m s) pub cur own rows failed'.
Proof.
  intros E1 E2 E3 E4 Hb [sr_chain0 sr_nchunks0 sr_build_rows0 sr_cur0 sr_own0 sr_nodup0 sr_dom0 sr_valid0 sr_content0 sr_limit0 sr_bytes0]. split; try done; cbn [sm_shared with_shared]; rewrite ?E1, ?E2, ?E3, ?E4; try done.
  by apply chunk_chain_shared.
Qed.

Lemma append_new m pub own rows failed p c r :
  shared_rows ncolumns m pub [] own rows failed → p ∉ dom (sm_heap m) → p ≠ InvalidDsaPointer → chunk_wf ncolumns c →
  ch_nrows c = 1 → chunk_rows ncolumns c = [r] →
  ps_allocated_bytes (sm_shared m) + reserved_bytes ncolumns ≤ ps_memory_limit (sm_shared m) →
  let s := sm_shared m in
  shared_rows ncolumns (write_object (with_shared m (set_counters s (ps_allocated_bytes s + reserved_bytes ncolumns)
      (ps_build_rows s) (ps_next_chunk s))) p (DsaChunk c)) pub [p] own (rows ++ [r]) failed.
Proof using Hncolumns.
  intros [sr_chain0 sr_nchunks0 sr_build_rows0 sr_cur0 sr_own0 sr_nodup0 sr_dom0 sr_valid0 sr_content0 sr_limit0 sr_bytes0] Hfresh Hne Hwf Hn Hrows Hroom s. cbn [app] in *.
  assert (Hnew : p ∉ pub ++ own) by by rewrite <- sr_dom0, <- elem_of_dom.
  assert (Hpub : p ∉ pub) by set_solver. assert (Hown : p ∉ own) by set_solver.
  assert (Hlen : zlength (pub ++ [p] ++ own) = zlength (pub ++ own) + 1) by (rewrite !length_app; cbn; lia).
  pose proof (reserved_bytes_pos ncolumns ltac:(lia)).
  split; try done.
  - apply chunk_chain_frame; [done|]. by apply chunk_chain_shared.
  - rewrite held_frame by done. done.
  - apply Forall_singleton. exists c. split; [by apply lookup_insert_eq|]. split; [done|lia].
  - by apply chunks_at_frame.
  - rewrite app_assoc, (Permutation_app_comm pub), <- app_assoc. cbn. by constructor.
  - intros q. cbn [sm_heap write_object with_heap with_shared]. rewrite lookup_insert_is_Some, sr_dom0. set_solver.
  - rewrite !elem_of_app, list_elem_of_singleton. rewrite elem_of_app in sr_valid0. naive_solver.
  - rewrite !fmap_app, (held_frame _ _ _ _ pub), (held_frame _ _ _ _ own) by done. cbn [fmap list_fmap].
    rewrite (held_at ncolumns), Hrows, !concat_app. cbn [concat]. rewrite <- sr_content0, fmap_app, concat_app.
    rewrite app_nil_r, <- app_assoc. apply Permutation_app_head, Permutation_app_comm.
  - rewrite Hlen. subst s. cbn [sm_shared write_object with_heap with_shared ps_memory_limit set_counters]. lia.
  - rewrite Hlen. subst s. cbn [sm_shared write_object with_heap with_shared ps_allocated_bytes set_counters]. lia.
Qed.

Lemma publish_chunk_ok m pub own rows failed l :
  lo_chunk l ≠ InvalidDsaPointer → shared_rows ncolumns m pub [lo_chunk l] own rows failed → zlength rows < 2 ^ 32 - 1 →
  ∃ m', publish_chunk l m = Ok (set_chunk l InvalidDsaPointer, m') ∧
    shared_rows ncolumns m' (lo_chunk l :: pub) [] own rows failed ∧
    ps_spilled (sm_shared m') = ps_spilled (sm_shared m).
Proof using Hncolumns.
  intros Hl [sr_chain0 sr_nchunks0 sr_build_rows0 sr_cur0 sr_own0 sr_nodup0 sr_dom0 sr_valid0 sr_content0 sr_limit0 sr_bytes0] Hmax.
  set (p := lo_chunk l) in *. pose proof sr_nodup0 as (_ & Hpub & (Hown & _)%NoDup_cons)%NoDup_app.
  assert (Hp : p ∉ pub) by (intros Hin; apply (Hpub p Hin); left).
  apply Forall_cons in sr_cur0 as [(c & Hc & Hwf & Hn) _]. pose proof (cw_nrows _ _ Hwf).
  unfold publish_chunk. fold p. rewrite (proj2 (Z.eqb_neq _ _)), (read_chunk_at _ _ _ Hc), bind_Ok, (proj2 (Z.eqb_neq _ _)) by (done || lia).
  cbv zeta. eexists; split; [done|]. split; [|done].
  set (c' := mkChunk _ _ _ _ _ _ _). assert (Hrows : chunk_rows ncolumns c' = chunk_rows ncolumns c) by done.
  assert (Hperm : (p :: pub) ++ [] ++ own ≡ₚ pub ++ [p] ++ own) by (cbn; by rewrite Permutation_middle).
  assert (Hlen : length ((p :: pub) ++ [] ++ own) = length (pub ++ [p] ++ own)) by by rewrite Hperm.
  assert (Htotal : zlength (concat (held ncolumns m <$> pub)) + ch_nrows c ≤ zlength rows).
  { rewrite <- sr_content0, !fmap_app, !concat_app, !length_app. cbn [fmap list_fmap concat].
    rewrite app_nil_r, (held_chunk _ _ _ _ Hc). rewrite <- (chunk_rows_length ncolumns c) by lia. lia. }
  pose proof (chain_rows _ _ _ _ sr_chain0).
  assert (Hheld : ∀ q, held ncolumns (write_object m p (DsaChunk c')) q = held ncolumns m q).
  { intros q. destruct (decide (q = p)) as [->|]; [by rewrite held_at, (held_chunk _ _ _ _ Hc)|by apply held_write]. }
  split; rewrite ?Hlen; try done.
  - cbn [chunk_chain]. split; [done|]. exists c'. split; [by apply lookup_insert_eq|]. split; [by destruct Hwf|]. split; [done|].
    apply chunk_chain_shared. by apply chunk_chain_frame.
  - cbn. rewrite sr_nchunks0. unfold to_u32. rewrite Z.mod_small; lia.
  - change (u64_add (ps_build_rows (sm_shared m)) (ch_nrows c) =
      zlength (concat (held ncolumns (write_object m p (DsaChunk c')) <$> p :: pub))).
    rewrite fmap_cons, (held_at ncolumns), Hrows, held_frame by done. cbn [concat].
    rewrite length_app, sr_build_rows0. unfold u64_add. rewrite Z.mod_small by lia.
    rewrite Nat2Z.inj_add, chunk_rows_length by lia. lia.
  - by apply chunks_at_frame.
  - by rewrite Hperm.
  - intros q. rewrite Hperm, <- sr_dom0. cbn [sm_heap write_object with_heap with_shared]. rewrite lookup_insert_is_Some.
    split; [|by destruct (decide (p = q)); [left|right]]. intros [<-|[_ ?]]; [by rewrite Hc|done].
  - by rewrite Hperm.
  - rewrite <- sr_content0, Hperm. apply Permutation_refl'. f_equal. apply list_fmap_ext. intros i q _. apply Hheld.
Qed.
(** What collecting never changes; once the table has to spill, it stays so. *)
Record collect_frame (m m' : SharedMemory) : Prop := {
  cf_limit : ps_memory_limit (sm_shared m') = ps_memory_limit (sm_shared m);
  cf_duplicates : ps_has_duplicates (sm_shared m') = ps_has_duplicates (sm_shared m);
  cf_next : ps_next_chunk (sm_shared m') = ps_next_chunk (sm_shared m);
  cf_spilled : ps_spilled (sm_shared m) = true → ps_spilled (sm_shared m') = true;
}.

#[global] Instance collect_frame_preorder : PreOrder collect_frame.
Proof.
  split; [by split|]. intros m1 m2 m3 [E1 E2 E3 E4] [F1 F2 F3 F4]. split; [congruence..|auto].
Qed.

Lemma start_chunk_cases l m :
  let s := sm_shared m in
  0 ≤ ps_allocated_bytes s → ps_allocated_bytes s + reserved_bytes ncolumns < 2 ^ 64 →
  let s' := set_counters s (ps_allocated_bytes s + reserved_bytes ncolumns) (ps_build_rows s) (ps_next_chunk s) in
  let p := dsa_choose (dom (sm_heap m)) in
  (ps_spilled s = true ∧ start_chunk ncolumns l m = Ok (false, l, m)) ∨
  (start_chunk ncolumns l m = Ok (false, l, with_shared m (set_flags s' true (ps_has_duplicates s')))) ∨
  (ps_allocated_bytes s + reserved_bytes ncolumns ≤ ps_memory_limit s ∧
   start_chunk ncolumns l m =
     Ok (true, set_chunk l p, write_object (with_shared m s') p (DsaChunk (empty_chunk ncolumns)))).
Proof using Hncolumns.
  intros s Ha Hb s' p. unfold start_chunk. rewrite build_chunk_size_ok, bind_Ok, chunk_reservation_ok, bind_Ok by done. fold s.
  cbv zeta. destruct (ps_spilled s); [by left|right]. unfold u64_add. pose proof (reserved_bytes_pos ncolumns ltac:(lia)).
  rewrite Z.mod_small by lia. fold s'. change (ps_memory_limit s') with (ps_memory_limit s).
  destruct (Z.ltb_spec (ps_memory_limit s) (ps_allocated_bytes s)); [by left|].
  destruct (Z.ltb_spec (ps_memory_limit s - ps_allocated_bytes s) (reserved_bytes ncolumns)); [by left|right].
  split; [lia|]. cbn [orb]. unfold dsa_allocate. destruct (Z.ltb_spec MaxAllocSize (chunk_bytes ncolumns)); [|done].
  unfold MaxAllocSize, chunk_bytes in *. lia.
Qed.

(** The private chunk of a participant. *)
Definition owned (l : ParallelHashJoinLocal) : list Z := if lo_chunk l =? InvalidDsaPointer then [] else [lo_chunk l].

Lemma owned_none l : lo_chunk l = InvalidDsaPointer → owned l = [].
Proof. intros E. unfold owned. by rewrite E. Qed.
Lemma owned_some l : lo_chunk l ≠ InvalidDsaPointer → owned l = [lo_chunk l].
Proof. intros E. unfold owned. by rewrite (proj2 (Z.eqb_neq _ _)). Qed.

Lemma publish_frame m pub own rows failed l :
  lo_chunk l ≠ InvalidDsaPointer → shared_rows ncolumns m pub [lo_chunk l] own rows failed → zlength rows < 2 ^ 32 - 1 →
  ∃ m', publish_chunk l m = Ok (set_chunk l InvalidDsaPointer, m') ∧
    shared_rows ncolumns m' (lo_chunk l :: pub) [] own rows failed ∧ collect_frame m m' ∧
    ps_spilled (sm_shared m') = ps_spilled (sm_shared m).
Proof using Hncolumns.
  intros Hl Hs Hmax. destruct (publish_chunk_ok m pub own rows failed l Hl Hs Hmax) as (m' & E & Hs' & Hsp).
  exists m'. split; [done|]. split; [done|]. split; [|done].
  assert (Hm : m' = snd (match publish_chunk l m with Ok x => x | _ => (l, m) end)) by by rewrite E.
  rewrite Hm. unfold publish_chunk. pose proof (sr_cur _ _ _ _ _ _ _ Hs) as [(c & Hc & _) _]%Forall_cons.
  rewrite (proj2 (Z.eqb_neq _ _)), (read_chunk_at _ _ _ Hc), bind_Ok by done. destruct (ch_nrows c =? 0); by split.
Qed.

(** The end of a turn: a full chunk is published. *)
Lemma finish_turn_ok m pub own rows failed l c (w : Z) :
  lo_chunk l ≠ InvalidDsaPointer → shared_rows ncolumns m pub [lo_chunk l] own rows failed → zlength rows < 2 ^ 32 - 1 →
  sm_heap m !! lo_chunk l = Some (DsaChunk c) → chunk_wf ncolumns c →
  ∃ l' m' pub', (if ch_nrows c =? PARALLEL_BUILD_CHUNK_ROWS then '(l, m) ← publish_chunk l m; Ok (Some w, l, m)
      else Ok (Some w, l, m)) = Ok (Some w, l', m') ∧
    shared_rows ncolumns m' pub' [] (owned l' ++ own) rows failed ∧ collect_frame m m' ∧
    ps_spilled (sm_shared m') = ps_spilled (sm_shared m).
Proof using Hncolumns.
  intros Hl Hs Hmax Hc Hwf. unfold PARALLEL_BUILD_CHUNK_ROWS. destruct (Z.eqb_spec (ch_nrows c) 1024) as [Hfull|Hfull].
  - destruct (publish_frame m pub own rows failed l Hl Hs Hmax) as (m' & E & Hs' & Hf & Hsp). rewrite E, bind_Ok.
    eexists _, m', _. split; [done|]. split; [by rewrite owned_none|by split].
  - exists l, m, pub. split; [done|]. split; [|done]. rewrite owned_some by done.
    eapply shared_rows_give; [exact Hc| |exact Hs]. pose proof (cw_nrows _ _ Hwf). lia.
Qed.

Lemma append_turn_rest columns hashes w l m w' l' m' :
  append_turn ncolumns columns hashes w l m = Ok (Some w', l', m') → w' = Z.land w (w - 1).
Proof.
  unfold append_turn. intros ([[room l1] m1] & _ & E)%bind_ok_inv. destruct room; cbn [negb] in E; [|done].
  apply bind_ok_inv in E as (c & _ & E). apply bind_ok_inv in E as (c' & _ & E). destruct (ch_nrows c' =? _).
  - apply bind_ok_inv in E as ([l2 m2] & _ & E). congruence.
  - congruence.
Qed.

(** What an input has to be for its pending rows to be read. *)
Record pending_ok (columns : list InputColumn) (hashes : list Z) (w : Z) : Prop := {
  po_word : is_u64 w;
  po_columns : zlength columns = ncolumns;
  po_hashes : 64 ≤ zlength hashes;
  po_rows : ∃ n, Forall (input_ok n) columns ∧ Forall (λ row, 0 ≤ row < n) (bits_of w);
}.

Definition pending_row (columns : list InputColumn) (hashes : list Z) (row : Z) : build_row :=
  (zget 0 hashes row, input_cells columns row).

Lemma append_turn_ok m pub own rows failed l columns hashes w :
  pending_ok columns hashes w → w ≠ 0 → shared_rows ncolumns m pub [] (owned l ++ own) rows failed →
  zlength rows < 2 ^ 32 - 2 → 0 ≤ failed →
  ps_memory_limit (sm_shared m) + reserved_bytes ncolumns * (failed + 1) < 2 ^ 64 →
  ∃ o l' m' pub' rows' failed', append_turn ncolumns columns hashes w l m = Ok (o, l', m') ∧
    shared_rows ncolumns m' pub' [] (owned l' ++ own) rows' failed' ∧ collect_frame m m' ∧
    match o with
    | Some w' => w' = Z.land w (w - 1) ∧ rows' = rows ++ [pending_row columns hashes (pg_rightmost_one_pos64 w)] ∧
        failed' = failed ∧ ps_spilled (sm_shared m') = ps_spilled (sm_shared m)
    | None => l' = l ∧ rows' = rows ∧ failed' = failed + 1 ∧ ps_spilled (sm_shared m') = true
    end.
Proof using Hncolumns.
  intros [Hw Hcols Hh (n & Hin & Hbits)] Hne Hs Hmax Hf Hlim. set (r := pending_row _ _ _).
  destruct (rightmost_spec w Hw Hne) as (Hb & Hbit & _). set (row := pg_rightmost_one_pos64 w) in *.
  assert (Hrow : 0 ≤ row < n) by (rewrite Forall_forall in Hbits; by apply Hbits, elem_of_bits_of).
  assert (Hmax' : zlength (rows ++ [r]) < 2 ^ 32 - 1) by (rewrite length_app; cbn; lia).
  unfold append_turn. fold row. destruct (Z.eqb_spec (lo_chunk l) InvalidDsaPointer) as [Hnone|Hsome].
  - rewrite owned_none in Hs by done. cbn [app] in Hs. pose proof Hs as [_ _ _ _ _ _ Hdom _ _ Hl1 [Hl2 Hl3]].
    pose proof (reserved_bytes_pos ncolumns ltac:(lia)). cbn [app] in *.
    destruct (start_chunk_cases l m) as [(Hsp & E)|[E|(Hroom & E)]]; [lia|lia|..]; rewrite E, bind_Ok; cbn [negb].
    + eexists _, _, _, pub, rows, (failed + 1). split; [done|]. rewrite owned_none by done. split; [|by split].
      by apply (shared_rows_weaken ncolumns m pub [] own rows rows failed); [|lia|lia|].
    + eexists _, _, _, pub, rows, (failed + 1). split; [done|]. rewrite owned_none by done. split; [|by split; [split|]].
      apply (shared_rows_fields m _ pub [] own rows failed); try done. cbn [app ps_allocated_bytes set_flags set_counters]. lia.
    + set (p := dsa_choose _) in *. destruct (dsa_choose_spec (dom (sm_heap m))) as [Hfresh Hval]. fold p in Hfresh, Hval.
      cbn [lo_chunk set_chunk]. erewrite read_chunk_at by apply lookup_insert_eq. rewrite bind_Ok.
      destruct (append_chunk_row_ok ncolumns columns n hashes row (empty_chunk ncolumns)) as (c & -> & Hwf & Hn & _ & Hrows);
        [lia|apply empty_chunk_wf; lia|done|done|done|done|lia|]. rewrite bind_Ok. cbv zeta.
      pose proof (append_new m pub own rows failed p c r Hs Hfresh Hval Hwf Hn Hrows Hroom) as Hs'. cbv zeta in Hs'.
      set (m0 := write_object (with_shared m _) p (DsaChunk c)) in Hs'.
      assert (Hm0 : write_object (write_object (with_shared m (set_counters (sm_shared m) (ps_allocated_bytes (sm_shared m) +
          reserved_bytes ncolumns) (ps_build_rows (sm_shared m)) (ps_next_chunk (sm_shared m)))) p
          (DsaChunk (empty_chunk ncolumns))) p (DsaChunk c) = m0).
      { unfold m0, write_object, with_heap. cbn. by rewrite insert_insert_eq. }
      rewrite Hm0.
      destruct (finish_turn_ok m0 pub own (rows ++ [r]) failed (set_chunk l p) c (Z.land w (w - 1)))
        as (l' & m' & pub' & E' & Hs2 & Hfr & Hsp); [done|done|done|by apply lookup_insert_eq|done|].
      rewrite E'. eexists _, l', m', pub', _, failed. split; [done|]. split; [done|]. split; [|done].
      etrans; [|exact Hfr]. by split.
  - rewrite bind_Ok. cbn [negb]. rewrite owned_some in Hs by done.
    apply (shared_rows_take ncolumns m pub _ own (lo_chunk l)) in Hs as Hs1; [|done].
    pose proof (sr_own _ _ _ _ _ _ _ Hs) as [(c & Hc & Hwf & Hn) _]%Forall_cons.
    rewrite (read_chunk_at _ _ _ Hc), bind_Ok.
    destruct (append_chunk_row_ok ncolumns columns n hashes row c) as (c' & -> & Hwf' & Hn' & _ & Hrows);
      [lia|done|lia|done|done|done|lia|]. rewrite bind_Ok. cbv zeta.
    pose proof (append_old m pub own rows failed _ c c' r Hs1 Hc Hwf' Hn' Hrows) as Hs2.
    destruct (finish_turn_ok _ pub own (rows ++ [r]) failed l c' (Z.land w (w - 1)) Hsome Hs2)
      as (l' & m' & pub' & E' & Hs3 & Hfr & Hsp); [done|by apply lookup_insert_eq|done|].
    rewrite E'. eexists _, l', m', pub', _, failed. split; [done|]. split; [done|]. split; [|done].
    etrans; [|exact Hfr]. by split.
Qed.
End collect.
