(* ===== verification/ParallelInput.v ===== *)
(** * Collecting the build side in parallel: all interleavings

    The steps of [collect_build] of any number of participants, interleaved in
    any order: the rows in chunks, and those the participants have not appended
    yet, are always the rows of the build side; no step goes wrong; and the
    executions are as long as the inputs, or shorter. *)

From S2P Require Import Prelude Words Selection Vector Kernels Int4 Hash Spill JoinStore JoinStoreProps JoinDirectory JoinBuild JoinBuildProps ParallelHash ParallelChunk ParallelShared ParallelCollect.

Section input.
Context `{PgCore} `{DsaArea}.
Context (ncolumns : Z) (inner_keys : list Z).

(** ** Hashing a batch *)

Lemma hash_batch_ok batch :
  join_input_ok ncolumns batch → inner_keys ≠ [] → Forall (λ k, 0 ≤ k < ncolumns) inner_keys →
  ∃ h, hash_batch batch inner_keys = Ok h ∧ hashed_batch inner_keys batch h.
Proof.
  intros Hb Hne Hk. assert (Hu : ∃ w, u64_uninit 1 = [w] ∧ is_u64 w).
  { unfold u64_uninit. pose proof (palloc_uninit_length 1 ltac:(lia)) as Hl. destruct (palloc_uninit 1) as [|v [|]]; cbn in *; try lia.
    eexists; split; [done|]. unfold is_u64. zlia. }
  destruct Hu as (w & Hw & Hwu). pose proof (palloc_uninit_length PG_BATCH_SIZE ltac:(done)).
  destruct (hash_input_ok ncolumns batch inner_keys (palloc_uninit PG_BATCH_SIZE) w Hb Hne Hk) as (h & E & Hh);
    [unfold PG_BATCH_SIZE in *; lia|done|].
  exists h. split; [|done]. rewrite <- E. unfold hash_batch, hash_input_batch. destruct Hb as [Hsel _ Hsize Hlen Hin].
  pose proof (wf_nrows _ Hsel). pose proof (wf_nwords _ Hsel).
  rewrite (proj2 (Z.leb_le _ _)), (proj2 (Z.eqb_eq _ _)) by (unfold PG_BATCH_SIZE; zlia). cbn [assert_]. rewrite !bind_Ok, Hw.
  f_equal. apply foldM_ext. intros key vectors Hkey. unfold key_vector. rewrite Forall_forall in Hk. specialize (Hk key Hkey).
  rewrite (aref_ok no_input), !bind_Ok by lia.
  destruct (zget_Forall (input_ok (nrows (ji_selection batch))) no_input (ji_columns batch) key Hin) as [-> _]; [lia|done].
Qed.

(** ** What a participant has still to read *)

Definition pending_word (columns : list InputColumn) (hashes : list Z) (w : Z) : list build_row :=
  pending_row columns hashes <$> bits_of w.

Definition pending (pc : collect_pc) : list build_row :=
  match pc with
  | AtInput inputs => concat (build_rows inner_keys <$> inputs)
  | AtAppend columns hashes w inputs | AtSpill columns hashes w inputs =>
      pending_word columns hashes w ++ concat (build_rows inner_keys <$> inputs)
  | AtCollected => []
  end.

Definition pc_ok (pc : collect_pc) : Prop :=
  match pc with
  | AtInput inputs => Forall (join_input_ok ncolumns) inputs
  | AtAppend columns hashes w inputs | AtSpill columns hashes w inputs =>
      pending_ok ncolumns columns hashes w ∧ Forall (join_input_ok ncolumns) inputs
  | AtCollected => True
  end.

(** The rows the mask selects are those the batch contributes. *)
Lemma pending_batch batch h :
  hashed_batch inner_keys batch h → pending_word (ji_columns batch) h.1 h.2 = build_rows inner_keys batch.
Proof.
  intros [_ _ Hrows Hhash]. unfold pending_word. rewrite Hrows. unfold build_rows, input_rows.
  assert (Hall : ∀ row vs, row ∈ selected_rows (ji_selection batch) →
    row_values inner_keys (input_cells (ji_columns batch) row) = Some vs → zget 0 h.1 row = keys_hash vs) by done.
  clear Hrows Hhash. induction (selected_rows (ji_selection batch)) as [|row l IH]; [done|].
  rewrite filter_cons, fmap_cons. cbn [omap list_omap]. unfold build_row_of at 1. unfold mbind, option_bind.
  destruct (row_values inner_keys (input_cells (ji_columns batch) row)) as [vs|] eqn:E.
  - rewrite decide_True by done. rewrite fmap_cons. unfold pending_row at 1.
    rewrite (Hall row vs) by (done || left). f_equal. apply IH. intros; apply Hall; [by right|done].
  - rewrite decide_False by (by intros [? ?]). apply IH. intros; apply Hall; [by right|done].
Qed.

Lemma pending_batch_ok batch h :
  join_input_ok ncolumns batch → hashed_batch inner_keys batch h → pending_ok ncolumns (ji_columns batch) h.1 h.2.
Proof.
  intros [Hsel _ _ Hlen Hin] [Hh Hw Hrows _]. split; try done. exists (nrows (ji_selection batch)). split; [done|].
  rewrite Hrows. apply Forall_forall. intros row [_ Hrow]%list_elem_of_filter. by apply contains_selected_rows in Hrow as [? _].
Qed.

(** ** Configurations *)

Abbreviation participant := (collect_pc * ParallelHashJoinLocal)%type.

Definition spilling (x : participant) : bool := match x.1 with AtSpill _ _ _ _ => true | _ => false end.
Definition running (pc : collect_pc) : bool := match pc with AtSpill _ _ _ _ | AtCollected => false | _ => true end.

(** A step of one of the participants that run. *)
Inductive collect_moves : list participant * SharedMemory → list participant * SharedMemory → Prop :=
| collect_move i pc l ps m pc' l' m' :
    ps !! i = Some (pc, l) → running pc = true → collect_step ncolumns inner_keys pc l m = Ok (pc', l', m') →
    collect_moves (ps, m) (<[i := (pc', l')]> ps, m').

Definition spill_count (ps : list participant) : Z := zlength (filter (λ x, spilling x = true) ps).

Record collecting (total : list build_row) (limit : Z) (ps : list participant) (m : SharedMemory) : Prop := {
  co_pcs : Forall (λ x, pc_ok x.1) ps;
  co_collected : Forall (λ x, x.1 = AtCollected → lo_chunk x.2 = InvalidDsaPointer) ps;
  co_spilled : Exists (λ x, spilling x = true) ps → ps_spilled (sm_shared m) = true;
  co_limit : ps_memory_limit (sm_shared m) = limit;
  co_next : ps_next_chunk (sm_shared m) = 0;
  co_duplicates : ps_has_duplicates (sm_shared m) = false;
  co_rows : ∃ pub rows, shared_rows ncolumns m pub [] (ps ≫= λ x, owned x.2) rows (spill_count ps) ∧
    rows ++ (ps ≫= λ x, pending x.1) ≡ₚ total;
}.

#[global] Instance spill_count_proper : Proper ((≡ₚ) ==> eq) spill_count.
Proof. intros ps ps' Hp. unfold spill_count. by rewrite Hp. Qed.

Lemma spill_count_cons x ps : spill_count (x :: ps) = (if spilling x then 1 else 0) + spill_count ps.
Proof. unfold spill_count. rewrite filter_cons. destruct (spilling x); [rewrite decide_True by done|rewrite decide_False by done]; cbn; lia. Qed.

Lemma spill_count_le ps : 0 ≤ spill_count ps ≤ zlength ps.
Proof. induction ps as [|x ps IH]; [done|]. rewrite spill_count_cons. cbn [length]. destruct (spilling x); lia. Qed.

Lemma collecting_perm total limit ps ps' m : ps ≡ₚ ps' → collecting total limit ps m → collecting total limit ps' m.
Proof.
  intros Hp [Hpc Hco Hsp Hl Hn Hd (pub & rows & Hs & Ht)]. split; try done.
  - by rewrite <- Hp.
  - by rewrite <- Hp.
  - intros Hex. apply Hsp. by rewrite Hp.
  - exists pub, rows. split; [|by rewrite <- Hp]. rewrite <- (spill_count_proper _ _ Hp). eapply shared_rows_own; [|exact Hs]. by rewrite <- Hp.
Qed.

Context (Hncolumns : 0 ≤ ncolumns ≤ 1600) (Hkeys : inner_keys ≠ []) (Hinner : Forall (λ k, 0 ≤ k < ncolumns) inner_keys).

(** The parts of the invariant that a step of one participant changes. *)
Lemma collecting_step total limit x x' ps m m' pub rows :
  collecting total limit (x :: ps) m → pc_ok x'.1 → (x'.1 = AtCollected → lo_chunk x'.2 = InvalidDsaPointer) →
  collect_frame m m' → (spilling x' = true → ps_spilled (sm_shared m') = true) →
  shared_rows ncolumns m' pub [] (owned x'.2 ++ (ps ≫= λ x, owned x.2)) rows (spill_count (x' :: ps)) →
  rows ++ pending x'.1 ++ (ps ≫= λ x, pending x.1) ≡ₚ total → collecting total limit (x' :: ps) m'.
Proof.
  intros [Hpc Hco Hsp Hl Hn Hd _] Hx Hxc [Fl Fd Fn Fs] Hxs Hs Ht.
  apply Forall_cons in Hpc as [_ Hpc], Hco as [_ Hco]. split; try congruence; [by constructor|by constructor| |by exists pub, rows].
  intros [?|Hex]%Exists_cons; [auto|]. apply Fs, Hsp. by right.
Qed.

Lemma collect_step_ok total limit pc l ps m :
  collecting total limit ((pc, l) :: ps) m → running pc = true → zlength total < 2 ^ 32 - 2 →
  limit + reserved_bytes ncolumns * (zlength ps + 2) < 2 ^ 64 →
  ∃ x' m', collect_step ncolumns inner_keys pc l m = Ok (x'.1, x'.2, m') ∧ collecting total limit (x' :: ps) m'.
Proof using Hncolumns Hkeys Hinner.
  intros Hc Hrun Hmax Hlim. pose proof Hc as [Hpc _ Hsp Hl _ _ (pub & rows & Hs & Ht)].
  apply Forall_cons in Hpc as [Hpc _]. cbn [fst snd] in *. rewrite !bind_cons in *. cbn [fst snd] in *.
  assert (Hrows : zlength rows ≤ zlength total) by (rewrite <- Ht, length_app; lia).
  pose proof (spill_count_le ps). pose proof (reserved_bytes_pos ncolumns ltac:(lia)).
  destruct pc as [[|batch inputs]|columns hashes w inputs|columns hashes w inputs|]; try done;
    rewrite spill_count_cons in Hs; cbn [spilling fst] in Hs; rewrite Z.add_0_l in Hs; cbn [collect_step].
  - (* publishing the last chunk *)
    assert (Hp : ∃ l' m' pub', publish_chunk l m = Ok (l', m') ∧ lo_chunk l' = InvalidDsaPointer ∧ collect_frame m m' ∧
      shared_rows ncolumns m' pub' [] (owned l' ++ (ps ≫= λ x, owned x.2)) rows (spill_count ps)).
    { destruct (Z.eqb_spec (lo_chunk l) InvalidDsaPointer) as [E|E].
      - exists l, m, pub. unfold publish_chunk. rewrite (proj2 (Z.eqb_eq _ _)) by done. by split_and!.
      - rewrite owned_some in Hs by done. eapply shared_rows_take in Hs; [|apply Permutation_refl].
        destruct (publish_frame ncolumns Hncolumns m pub _ rows _ l E Hs) as (m' & E' & Hs' & Hf & _); [lia|].
        eexists _, m', _. split; [exact E'|]. split; [done|]. split; [done|]. by rewrite owned_none. }
    destruct Hp as (l' & m' & pub' & -> & Hl' & Hf & Hs'). rewrite bind_Ok.
    exists (AtCollected, l'), m'. split; [done|]. by eapply collecting_step.
  - (* the next batch *)
    apply Forall_cons in Hpc as [Hb Hbs]. destruct (hash_batch_ok batch Hb Hkeys Hinner) as (h & E & Hh). rewrite E, bind_Ok.
    pose proof (pending_batch _ _ Hh) as Hpend. pose proof (pending_batch_ok _ _ Hb Hh). destruct h as [hashes w]. cbn [fst snd] in *.
    assert (Hsame : pending (AtAppend (ji_columns batch) hashes w inputs) = pending (AtInput (batch :: inputs)))
      by (cbn; by rewrite Hpend).
    destruct (ps_spilled (sm_shared m)) eqn:Espill.
    + exists (AtSpill (ji_columns batch) hashes w inputs, l), m. split; [done|].
      eapply (collecting_step _ _ _ _ _ _ _ pub rows Hc); try done.
      * rewrite spill_count_cons. cbn [spilling fst snd]. apply (shared_rows_weaken ncolumns _ _ _ _ rows rows (spill_count ps)); [done|lia|lia|done].
      * rewrite <- Ht, <- Hsame. done.
    + exists (AtAppend (ji_columns batch) hashes w inputs, l), m. split; [done|].
      eapply (collecting_step _ _ _ _ _ _ _ pub rows Hc); try done. by rewrite <- Ht, <- Hsame.
  - destruct Hpc as [Hpo Hbs]. destruct (Z.eqb_spec w 0) as [->|Hne].
    + exists (AtInput inputs, l), m. split; [done|]. by eapply (collecting_step _ _ _ _ _ _ _ pub rows Hc).
    + destruct (append_turn_ok ncolumns Hncolumns m pub _ rows (spill_count ps) l columns hashes w Hpo Hne Hs)
        as (o & l' & m' & pub' & rows' & failed' & E & Hs' & Hf & Ho); [lia|lia|nia|]. rewrite E, bind_Ok.
      pose proof (bits_of_step clear_lowest w clear_lowest_lowest (po_word _ _ _ _ Hpo) Hne) as Hbits.
      destruct o as [w'|].
      * destruct Ho as (-> & -> & -> & _). exists (AtAppend columns hashes (Z.land w (w - 1)) inputs, l'), m'. split; [done|].
        eapply (collecting_step _ _ _ _ _ _ _ pub' (rows ++ [pending_row columns hashes (pg_rightmost_one_pos64 w)]) Hc); try done.
        -- destruct Hpo as [Hw ? ? (n & Hin & Hb)]. cbn. split; [|done]. split; try done.
           ++ by apply (clear_lowest_lowest w).
           ++ exists n. split; [done|]. rewrite Hbits in Hb. by apply Forall_cons in Hb as [_ Hb].
        -- rewrite <- Ht. cbn [pending fst]. unfold pending_word at 2. rewrite Hbits, fmap_cons.
           change (bits_of (clear_lowest w (pg_rightmost_one_pos64 w))) with (bits_of (Z.land w (w - 1))).
           by rewrite <- !app_assoc.
      * destruct Ho as (-> & -> & -> & Espill). rewrite Espill. exists (AtSpill columns hashes w inputs, l), m'. split; [done|].
        eapply (collecting_step _ _ _ _ _ _ _ pub' rows Hc); try done.
        rewrite spill_count_cons. cbn [spilling fst snd]. by rewrite Z.add_comm.
Qed.
(** ** Executions *)

Context (total : list build_row) (limit : Z).
Context (Htotal : zlength total < 2 ^ 32 - 2).

Definition budget_ok (ps : list participant) : Prop := limit + reserved_bytes ncolumns * (zlength ps + 1) < 2 ^ 64.

Lemma collect_moves_length c c' : collect_moves c c' → length c'.1 = length c.1.
Proof. intros []. cbn. by rewrite length_insert. Qed.

Lemma collect_moves_ok c c' :
  budget_ok c.1 → collecting total limit c.1 c.2 → collect_moves c c' → collecting total limit c'.1 c'.2.
Proof using Hncolumns Hkeys Hinner Htotal.
  intros Hb Hc Hm. destruct Hm as [i pc l ps m pc' l' m' Hi Hrun E]. cbn [fst snd] in *.
  pose proof (delete_Permutation _ _ _ Hi) as Hp. apply (collecting_perm _ _ _ _ _ Hp) in Hc.
  destruct (collect_step_ok total limit pc l (delete i ps) m Hc Hrun Htotal) as (x & m1 & E' & Hc').
  { unfold budget_ok in Hb. rewrite Hp in Hb. cbn [length] in Hb. lia. }
  rewrite E in E'. injection E' as -> -> ->. destruct x as [pc1 l1]. eapply collecting_perm; [|exact Hc'].
  symmetry. by eapply insert_Permutation.
Qed.

Lemma collecting_reachable c c' :
  budget_ok c.1 → collecting total limit c.1 c.2 → rtc collect_moves c c' →
  collecting total limit c'.1 c'.2 ∧ length c'.1 = length c.1.
Proof using Hncolumns Hkeys Hinner Htotal.
  intros Hb Hc Hm. induction Hm as [|c1 c2 c3 Hm _ IH]; [done|].
  pose proof (collect_moves_length _ _ Hm) as Hl. rewrite <- Hl. apply IH.
  - unfold budget_ok in *. by rewrite Hl.
  - by eapply collect_moves_ok.
Qed.

(** A participant that runs can always take its step. *)
Lemma collecting_live c i pc l :
  budget_ok c.1 → collecting total limit c.1 c.2 → c.1 !! i = Some (pc, l) → running pc = true →
  ∃ x' m', collect_step ncolumns inner_keys pc l c.2 = Ok (x', m').
Proof using Hncolumns Hkeys Hinner Htotal.
  intros Hb Hc Hi Hrun. pose proof (delete_Permutation _ _ _ Hi) as Hp. apply (collecting_perm _ _ _ _ _ Hp) in Hc.
  destruct (collect_step_ok total limit pc l (delete i c.1) c.2 Hc Hrun Htotal) as (x & m1 & E & _); [|by eauto].
  unfold budget_ok in Hb. rewrite Hp in Hb. cbn [length] in Hb. lia.
Qed.

(** ** Executions end *)

(** A bound on the steps a participant has left. *)
Definition collect_cost (pc : collect_pc) : Z :=
  match pc with
  | AtInput inputs => 1 + 67 * zlength inputs
  | AtAppend _ _ w inputs => 2 + zlength (bits_of w) + 67 * zlength inputs
  | AtSpill _ _ _ _ | AtCollected => 0
  end.

Definition collect_costs (ps : list participant) : Z := foldr (λ x n, collect_cost x.1 + n) 0 ps.

Lemma collect_cost_nonneg pc : 0 ≤ collect_cost pc.
Proof. destruct pc; cbn; lia. Qed.

Lemma collect_costs_cons x ps : collect_costs (x :: ps) = collect_cost x.1 + collect_costs ps.
Proof. done. Qed.

Lemma collect_costs_nonneg ps : 0 ≤ collect_costs ps.
Proof. induction ps as [|x ps IH]; [done|]. rewrite collect_costs_cons. pose proof (collect_cost_nonneg x.1). lia. Qed.

Lemma collect_costs_insert ps i x x' :
  ps !! i = Some x → collect_costs (<[i := x']> ps) = collect_costs ps - collect_cost x.1 + collect_cost x'.1.
Proof.
  revert i. induction ps as [|y ps IH]; intros [|i] Hi; try done; cbn [lookup list_lookup insert list_insert] in *.
  - injection Hi as ->. rewrite !collect_costs_cons. lia.
  - rewrite !collect_costs_cons. rewrite IH by done. lia.
Qed.

Lemma bits_of_length w : zlength (bits_of w) ≤ 64.
Proof. unfold bits_of. pose proof (length_filter (λ i, Z.testbit w i = true) (seqZ 0 64)) as Hl. rewrite length_seqZ in Hl. lia. Qed.

Lemma collect_step_cost pc l m pc' l' m' :
  pc_ok pc → running pc = true → collect_step ncolumns inner_keys pc l m = Ok (pc', l', m') →
  collect_cost pc' < collect_cost pc.
Proof.
  intros Hpc Hrun. destruct pc as [[|batch inputs]|columns hashes w inputs|columns hashes w inputs|]; try done; cbn [collect_step].
  - intros ([l1 m1] & _ & [= <- _ _])%bind_ok_inv. done.
  - intros ([hashes w] & _ & E)%bind_ok_inv. pose proof (bits_of_length w).
    destruct (ps_spilled (sm_shared m)); injection E as <- _ _; cbn; lia.
  - destruct (Z.eqb_spec w 0) as [->|Hne]; [intros [= <- _ _]; cbn; lia|].
    intros ([[o l1] m1] & Eo & E)%bind_ok_inv. destruct Hpc as [[Hw _ _ _] _].
    pose proof (bits_of_step clear_lowest w clear_lowest_lowest Hw Hne) as Hbits.
    destruct o as [w'|]; [|destruct (ps_spilled _); injection E as <- _ _; cbn; lia].
    injection E as <- _ _. apply append_turn_rest in Eo as ->. cbn [collect_cost]. rewrite Hbits.
    change (clear_lowest w (pg_rightmost_one_pos64 w)) with (Z.land w (w - 1)). cbn [length]. lia.
Qed.

Lemma collect_moves_cost c c' :
  collecting total limit c.1 c.2 → collect_moves c c' → collect_costs c'.1 < collect_costs c.1.
Proof.
  intros Hc Hm. destruct Hm as [i pc l ps m pc' l' m' Hi Hrun E]. destruct Hc as [Hpc _ _ _ _ _ _]. cbn [fst snd] in *. rewrite (collect_costs_insert _ _ _ _ Hi).
  eapply Forall_lookup_1 in Hpc; [|exact Hi]. pose proof (collect_step_cost _ _ _ _ _ _ Hpc Hrun E). cbn [fst] in *. lia.
Qed.

Lemma collect_terminates n c c' :
  budget_ok c.1 → collecting total limit c.1 c.2 → nsteps collect_moves n c c' → Z.of_nat n ≤ collect_costs c.1.
Proof using Hncolumns Hkeys Hinner Htotal.
  intros Hb Hc Hn. induction Hn as [c|n c1 c2 c3 Hm _ IH].
  - apply collect_costs_nonneg.
  - pose proof (collect_moves_cost _ _ Hc Hm). specialize (IH ltac:(unfold budget_ok in *; by rewrite (collect_moves_length _ _ Hm))
      ltac:(by eapply collect_moves_ok)). lia.
Qed.
End input.
