(* ===== verification/ParallelSetup.v ===== *)
(** * Setting up the shared table

    One participant numbers the published chunks and allocates the bucket
    array.  What comes of it is a table whose rows have identifiers and whose
    buckets are empty, within the shared budget. *)

From S2P Require Import Prelude Words Selection Vector Kernels Int4 Hash Spill JoinStore JoinStoreProps JoinDirectory JoinBuild JoinBuildProps ParallelHash ParallelChunk ParallelShared.

Section setup.
Context `{PgCore} `{DsaArea}.
Context (ncolumns : Z).

(** The chunks [pub], numbered in this order, and 2^k buckets. *)
Record shared_table (m : SharedMemory) (pub : list Z) (k : Z) : Prop := {
  st_nchunks : ps_nchunks (sm_shared m) = zlength pub;
  st_build_rows : ps_build_rows (sm_shared m) = zlength (concat (held ncolumns m <$> pub));
  st_directory : pub ≠ [] → sm_heap m !! ps_directory (sm_shared m) = Some (DsaDirectory pub);
  st_chunks : ∀ i p, pub !! i = Some p → chunk_at ncolumns m p (λ c, 0 < ch_nrows c ∧ ch_index c = Z.of_nat i);
  st_nodup : NoDup pub;
  st_buckets : ∃ heads, sm_heap m !! ps_buckets (sm_shared m) = Some (DsaBuckets heads) ∧ zlength heads = 2 ^ k;
  st_nbuckets : ps_nbuckets (sm_shared m) = 2 ^ k;
  st_bits : 10 ≤ k ≤ 27;
  st_ids : zlength pub * 1024 < 2 ^ 32;
}.

(** ** The directory *)

Lemma set_index_wf c i : chunk_wf ncolumns c → chunk_wf ncolumns (set_index c i).
Proof. by intros []. Qed.

(** What the loop does to memory. *)
Record indexed (m m' : SharedMemory) (directory : Z) (done rest : list Z) : Prop := {
  ix_shared : sm_shared m' = sm_shared m;
  ix_directory : sm_heap m' !! directory = Some (DsaDirectory (done ++ rest));
  ix_others : ∀ p, p ≠ directory → p ∉ rest → sm_heap m' !! p = sm_heap m !! p;
  ix_chunks : ∀ i p, rest !! i = Some p → ∃ c, sm_heap m !! p = Some (DsaChunk c) ∧
    sm_heap m' !! p = Some (DsaChunk (set_index c (zlength done + Z.of_nat i)));
}.

Lemma index_chunks_ok directory rest : ∀ m head done l fuel,
  chunk_chain ncolumns m head rest → NoDup (done ++ rest) → directory ∉ rest → InvalidDsaPointer ∉ rest →
  sm_heap m !! directory = Some (DsaDirectory l) → length l = length (done ++ rest) → take (length done) l = done →
  zlength (done ++ rest) < 2 ^ 32 → (length rest ≤ fuel)%nat →
  ∃ m', index_chunks fuel directory head (zlength done) m = Ok (m', zlength (done ++ rest)) ∧ indexed m m' directory done rest.
Proof.
  induction rest as [|p rest IH]; intros m head done l fuel Hchain Hnd Hdir Hval Hl Hlen Htake Hmax Hfuel.
  { cbn in Hchain. subst head. exists m. rewrite !app_nil_r in *. destruct fuel; cbn; (split; [done|]; split; try done;
      rewrite <- Hlen, firstn_all in Htake; by rewrite app_nil_r, <- Htake). }
  destruct fuel as [|fuel]; [cbn in Hfuel; lia|]. cbn [chunk_chain] in Hchain. destruct Hchain as (-> & c & Hc & Hwf & _ & Hchain).
  apply not_elem_of_cons in Hdir as [Hdp Hdir], Hval as [Hv0 Hval].
  assert (Hprest : p ∉ rest) by (apply NoDup_app in Hnd as (_ & _ & Hnd); by apply NoDup_cons in Hnd as [? _]).
  cbn [index_chunks]. rewrite (proj2 (Z.eqb_neq _ _)), (read_chunk_at _ _ _ Hc), bind_Ok by done. cbv zeta.
  unfold read_directory. cbn [sm_heap write_object with_heap]. rewrite lookup_insert_ne, Hl, bind_Ok by done.
  rewrite length_app in Hlen, Hmax. cbn [length] in Hlen, Hmax, Hfuel. rewrite aset_ok, bind_Ok by lia.
  set (m1 := write_object (write_object m p _) directory _).
  assert (Hto : to_u32 (zlength done + 1) = zlength (done ++ [p])) by (unfold to_u32; rewrite Z.mod_small, length_app; cbn; lia).
  rewrite Hto. destruct (IH m1 (ch_next c) (done ++ [p]) (<[Z.to_nat (zlength done) := p]> l) fuel) as (m' & E & Hix).
  - by apply chunk_chain_frame, chunk_chain_frame.
  - by rewrite <- app_assoc.
  - done.
  - done.
  - apply lookup_insert_eq.
  - rewrite length_insert, !length_app. cbn. lia.
  - rewrite Nat2Z.id, length_app. cbn [length]. rewrite Nat.add_1_r, (take_S_r _ _ p).
    + rewrite take_insert_ge by lia. by rewrite Htake.
    + apply list_lookup_insert_eq. lia.
  - rewrite !length_app. cbn. lia.
  - lia.
  - rewrite <- app_assoc in E. rewrite E. exists m'. split; [done|]. destruct Hix as [Hs Hd Ho Hch].
    rewrite <- app_assoc in Hd. split; try done.
    + intros q Hq Hqr. apply not_elem_of_cons in Hqr as [Hqp Hqr]. rewrite Ho by done. subst m1.
      cbn [sm_heap write_object with_heap]. by rewrite !lookup_insert_ne.
    + intros [|i] q Hq; cbn in Hq.
      * injection Hq as <-. exists c. split; [done|]. rewrite Ho by done. subst m1. cbn [sm_heap write_object with_heap].
        rewrite lookup_insert_ne, lookup_insert_eq by done. by rewrite Z.add_0_r.
      * destruct (Hch i q Hq) as (c' & Hc1 & Hc2). pose proof (list_elem_of_lookup_2 _ _ _ Hq) as Hin.
        exists c'. subst m1. cbn [sm_heap write_object with_heap] in Hc1.
        rewrite !lookup_insert_ne in Hc1 by (by intros <-). split; [done|]. rewrite Hc2, length_app. cbn. do 2 f_equal. f_equal. lia.
Qed.

(** ** The buckets *)

Lemma zero_heads_ok n : 0 ≤ n →
  foldM (λ bucket heads, aset heads bucket 0) (seqZ 0 n) (replicate (Z.to_nat n) 0) = Ok (replicate (Z.to_nat n) 0).
Proof.
  intros Hn. destruct (for_inv (λ _ heads, heads = replicate (Z.to_nat n) 0) (λ bucket heads, aset heads bucket 0) n
    (replicate (Z.to_nat n) 0)) as (a & -> & ->); [done|done| |done].
  intros i a Hi ->. rewrite aset_ok by (rewrite length_replicate; lia). eexists; split; [done|].
  apply list_insert_id. apply lookup_replicate_2. lia.
Qed.

(** Below 2^31 the number of buckets is less than twice what is needed. *)
Lemma bucket_count_least rows fuel j b :
  0 ≤ j ≤ 31 → bucket_count_loop fuel rows (2 ^ j) = Ok b → b = 2 ^ j ∨ b < 4 * rows.
Proof.
  revert j. induction fuel as [|fuel IH]; intros j Hj; cbn [bucket_count_loop];
    change ((2 ^ 32 - 1) / 2 + 1) with (2 ^ 31); (destruct (_ && _) eqn:E; [|intros [= <-]; by left]); [done|].
  apply andb_true_iff in E as [E1%Z.ltb_lt E2%Z.ltb_lt].
  assert (j < 31) by (apply (Z.pow_lt_mono_r_iff 2); lia). pose proof (Z.pow_le_mono_r 2 (j + 1) 31).
  replace (to_u32 (Z.shiftl (2 ^ j) 1)) with (2 ^ (j + 1)).
  - intros Eb. destruct (IH (j + 1) ltac:(lia) Eb) as [->|]; [right|by right]. rewrite Z.pow_add_r by lia. lia.
  - rewrite Z.shiftl_mul_pow2 by lia. unfold to_u32. rewrite <- Z.pow_add_r, Z.mod_small by lia. done.
Qed.
(** ** The whole setup *)

Lemma dsa_allocate_ok m size o :
  size ≤ MaxAllocSize →
  ∃ p, dsa_allocate m size o = Ok (write_object m p o, p) ∧ sm_heap m !! p = None ∧ p ≠ InvalidDsaPointer.
Proof.
  intros Hs. unfold dsa_allocate. destruct (Z.ltb_spec MaxAllocSize size); [lia|]. cbn [raise_if]. rewrite bind_Ok.
  destruct (dsa_choose_spec (dom (sm_heap m))) as [Hf Hv]. eexists; split; [done|]. split; [|done]. by apply not_elem_of_dom.
Qed.

Lemma chain_present m head l p : chunk_chain ncolumns m head l → p ∈ l → ∃ c, sm_heap m !! p = Some (DsaChunk c).
Proof.
  revert head. induction l as [|q l IH]; intros head; [by intros _ ?%not_elem_of_nil|].
  cbn [chunk_chain]. intros (-> & c & Hc & _ & _ & Hl) [->|Hp]%elem_of_cons; eauto.
Qed.

(** The directory and the numbers of the chunks. *)
Record numbered (m m' : SharedMemory) (pub : list Z) : Prop := {
  nb_shared : ∃ d, sm_shared m' = set_table (sm_shared m) d (ps_buckets (sm_shared m)) (ps_nbuckets (sm_shared m)) ∧
    (pub ≠ [] → sm_heap m' !! d = Some (DsaDirectory pub));
  nb_chunks : ∀ i p, pub !! i = Some p → ∃ c, sm_heap m !! p = Some (DsaChunk c) ∧
    sm_heap m' !! p = Some (DsaChunk (set_index c (Z.of_nat i)));
}.

Lemma number_chunks_ok m pub :
  chunk_chain ncolumns m (ps_chunks (sm_shared m)) pub → ps_nchunks (sm_shared m) = zlength pub → NoDup pub →
  InvalidDsaPointer ∉ pub → zlength pub * 1024 < 2 ^ 32 →
  let s := sm_shared m in
  ∃ m', (if 0 <? ps_nchunks s then
      '(m, directory) ← dsa_allocate m (8 * ps_nchunks s) (DsaDirectory (palloc_uninit (ps_nchunks s)));
      index_chunks (Z.to_nat (ps_nchunks s)) directory (ps_chunks s) 0
        (with_shared m (set_table s directory (ps_buckets s) (ps_nbuckets s)))
    else Ok (m, 0)) = Ok (m', zlength pub) ∧ numbered m m' pub.
Proof.
  intros Hchain Hn Hnd Hval Hmax s. fold s in Hn, Hchain. rewrite Hn. destruct pub as [|q pub'].
  { exists m. split; [done|]. split; [|done]. exists (ps_directory s). split; [by destruct m as [[]]|done]. }
  set (pub := q :: pub') in *. assert (Hpos : 0 < zlength pub) by (subst pub; cbn; lia).
  rewrite (proj2 (Z.ltb_lt _ _)) by done.
  destruct (dsa_allocate_ok m (8 * zlength pub) (DsaDirectory (palloc_uninit (zlength pub)))) as (d & -> & Hfresh & _);
    [unfold MaxAllocSize; lia|]. rewrite bind_Ok, Nat2Z.id.
  assert (Hd : d ∉ pub) by (intros Hin; destruct (chain_present _ _ _ _ Hchain Hin); congruence).
  set (m1 := with_shared _ _). pose proof (palloc_uninit_length (zlength pub)).
  destruct (index_chunks_ok d pub m1 (ps_chunks s) [] (palloc_uninit (zlength pub)) (length pub)) as (m' & E & Hix);
    [by apply chunk_chain_shared, chunk_chain_frame|done|done|done|apply lookup_insert_eq|cbn [app]; lia|done|cbn [app]; lia|lia|].
  change (zlength []) with 0 in *. rewrite E. exists m'. split; [done|]. destruct Hix as [Hs Hdir _ Hch]. split.
  - exists d. split; [done|]. intros _. exact Hdir.
  - intros i p Hi. destruct (Hch i p Hi) as (c & Hc1 & Hc2). exists c. split; [|done].
    subst m1. cbn [sm_heap with_shared write_object with_heap] in Hc1. rewrite lookup_insert_ne in Hc1; [done|].
    intros <-. by apply Hd, (list_elem_of_lookup_2 _ i).
Qed.

Lemma numbered_held m m' pub p : numbered m m' pub → p ∈ pub → held ncolumns m' p = held ncolumns m p.
Proof.
  intros [_ Hch] (i & Hi)%list_elem_of_lookup. destruct (Hch i p Hi) as (c & Hc1 & Hc2).
  by rewrite (held_chunk _ _ _ _ Hc1), (held_chunk _ _ _ _ Hc2).
Qed.

Lemma held_numbered m m' pub : numbered m m' pub → held ncolumns m' <$> pub = held ncolumns m <$> pub.
Proof. intros Hn. apply list_fmap_ext. intros i p Hp%list_elem_of_lookup_2. by eapply numbered_held. Qed.

Lemma numbered_chunks m m' pub head i p :
  chunk_chain ncolumns m head pub → numbered m m' pub → pub !! i = Some p →
  chunk_at ncolumns m' p (λ c, 0 < ch_nrows c ∧ ch_index c = Z.of_nat i).
Proof.
  intros Hchain [_ Hch] Hi. destruct (Hch i p Hi) as (c & Hc1 & Hc2). clear Hch.
  assert (Hwf : chunk_wf ncolumns c ∧ 0 < ch_nrows c).
  { pose proof (list_elem_of_lookup_2 _ _ _ Hi) as Hin. clear Hi. revert head Hchain.
    induction pub as [|q pub IH]; intros head; [by apply not_elem_of_nil in Hin|]. cbn [chunk_chain].
    intros (-> & c' & Hc' & Hwf & Hn & Hl). apply elem_of_cons in Hin as [->|Hin]; [|by eapply IH].
    rewrite Hc1 in Hc'. by injection Hc' as ->. }
  destruct Hwf as [Hwf Hn]. exists (set_index c (Z.of_nat i)). split; [done|]. split; [by apply set_index_wf|done].
Qed.

(** What the chunks, the directory and the buckets take. *)
Definition table_bytes (nchunks nbuckets : Z) : Z := chunk_bytes ncolumns * nchunks + 8 * nchunks + 4 * nbuckets.

Lemma setup_ok m pub rows failed :
  0 ≤ ncolumns → shared_rows ncolumns m pub [] [] rows failed → ps_spilled (sm_shared m) = false →
  zlength rows ≤ max_build_rows → ps_memory_limit (sm_shared m) < 2 ^ 36 →
  ∃ m' k, setup_shared_hash m = Ok m' ∧ shared_table m' pub k ∧
    sm_heap m' !! ps_buckets (sm_shared m') = Some (DsaBuckets (replicate (Z.to_nat (2 ^ k)) 0)) ∧
    concat (held ncolumns m' <$> pub) ≡ₚ rows ∧ zlength rows * 2 ≤ 2 ^ k ∧
    ps_next_chunk (sm_shared m') = ps_next_chunk (sm_shared m) ∧
    ps_has_duplicates (sm_shared m') = ps_has_duplicates (sm_shared m) ∧ ps_spilled (sm_shared m') = false ∧
    (pub ≠ [] → table_bytes (ps_nchunks (sm_shared m')) (ps_nbuckets (sm_shared m')) ≤ ps_memory_limit (sm_shared m)).
Proof.
  intros Hnc [Hchain Hn Hbr _ _ Hnd _ Hval Hcon Hlim _] Hsp Hmax Hl. rewrite app_nil_l, app_nil_r in *.
  pose proof (reserved_bytes_pos ncolumns Hnc). assert (Hids : zlength pub * 1024 < 2 ^ 32) by nia.
  assert (Hrows : ps_build_rows (sm_shared m) = zlength rows) by by rewrite Hbr, Hcon.
  destruct (number_chunks_ok m pub Hchain Hn Hnd Hval Hids) as (m1 & E & Hnum). unfold setup_shared_hash.
  cbv zeta in E |- *. rewrite E, bind_Ok, Hn, (proj2 (Z.eqb_eq _ _)), Hsp, Hrows by done. cbn [assert_]. rewrite bind_Ok.
  destruct (bucket_count_ok (zlength rows) 32 10) as (k & Ek & Hk & Hle); [lia|done|lia|].
  pose proof (bucket_count_least (zlength rows) 32 10 (2 ^ k) ltac:(lia) Ek) as Hleast.
  unfold choose_bucket_count. change 1024 with (2 ^ 10). rewrite Ek, bind_Ok. pose proof (Z.pow_le_mono_r 2 k 27).
  pose proof (Z.pow_pos_nonneg 2 k). rewrite zero_heads_ok, bind_Ok by lia.
  destruct (dsa_allocate_ok m1 (4 * 2 ^ k) (DsaBuckets (replicate (Z.to_nat (2 ^ k)) 0))) as (b & -> & Hfresh & _);
    [unfold MaxAllocSize; lia|]. rewrite bind_Ok. pose proof Hnum as [(d & Hs1 & Hd) Hch].
  assert (Hb : b ∉ pub).
  { intros (i & Hi)%list_elem_of_lookup. destruct (Hch i b Hi) as (c & _ & Hc). congruence. }
  set (m2 := with_shared _ _). exists m2, k. split; [done|].
  assert (Hheap : ∀ q, q ≠ b → sm_heap m2 !! q = sm_heap m1 !! q).
  { intros q Hq. subst m2. cbn [sm_heap with_shared write_object with_heap]. by rewrite lookup_insert_ne. }
  assert (Hheld : held ncolumns m2 <$> pub = held ncolumns m <$> pub).
  { rewrite <- (held_numbered m m1 pub Hnum). apply list_fmap_ext. intros i q Hq%list_elem_of_lookup_2.
    unfold held. rewrite Hheap; [done|]. by intros ->. }
  assert (Hbk : sm_heap m2 !! b = Some (DsaBuckets (replicate (Z.to_nat (2 ^ k)) 0))) by apply lookup_insert_eq.
  assert (Hshared : sm_shared m2 = set_table (sm_shared m) d b (2 ^ k)) by (subst m2; cbn [sm_shared with_shared write_object with_heap]; by rewrite Hs1).
  rewrite Hshared. cbn [ps_buckets ps_next_chunk ps_has_duplicates ps_spilled ps_nchunks ps_nbuckets set_table].
  split_and!; try done.
  - split; rewrite ?Hshared; cbn [ps_nchunks ps_build_rows ps_directory ps_buckets ps_nbuckets set_table]; try done.
    + by rewrite Hheld.
    + intros Hne. specialize (Hd Hne). rewrite Hheap; [done|]. intros ->. congruence.
    + intros i p Hi. destruct (numbered_chunks m m1 pub _ i p Hchain Hnum Hi) as (c & Hc & ?). exists c. split; [|done].
      rewrite Hheap; [done|]. intros ->. by apply Hb, (list_elem_of_lookup_2 _ i).
    + eexists; split; [exact Hbk|]. rewrite length_replicate. lia.
  - by rewrite Hheld.
  - intros Hne. rewrite Hn. destruct pub as [|q pub']; [done|]. set (n := zlength (q :: pub')) in *.
    assert (1 ≤ n) by (subst n; cbn; lia).
    assert (zlength rows ≤ 1024 * n) by (rewrite <- Hcon; by eapply chain_rows_max).
    unfold table_bytes, reserved_bytes in *. nia.
Qed.
End setup.
