(* ===== verification/ParallelLinks.v ===== *)
(** * Lock-free chains: the algorithm of [build_or_spill_chunks]

    The steps of [build_step] without the memory they run on: rows have
    identifiers, the links and the heads of the buckets are functions.  The
    invariant says what the chains hold whatever the interleaving; a measure
    bounds every execution. *)

From stdpp Require Import functions.
From S2P Require Import Prelude ParallelHash.

(** The state the participants share. *)
Record link_state : Type := mkLinks {
  ln_link : Z → Z;
  ln_head : Z → Z;
  ln_next : Z;
  ln_duplicates : bool;
}.

(** Links are identifiers plus one, 0 ends a chain. *)
Definition chain_head (l : list Z) : Z := match l with [] => 0 | x :: _ => x + 1 end.

#[global] Instance build_pc_eq_dec : EqDecision build_pc.
Proof. solve_decision. Defined.

Section links.
Context {K : Type} `{EqDecision K}.
(** The chunks, the identifier of their first row, and their size. *)
Context (pub : list Z) (base size : Z → Z).
(** The class of a row, and the bucket of a class. *)
Context (cls : Z → K) (bucket : K → Z).

Definition row_id (p row : Z) : Z := base p + row.
Definition bucket_of (p row : Z) : Z := bucket (cls (row_id p row)).

Definition link_step (pc : build_pc) (a : link_state) : build_pc * link_state :=
  match pc with
  | AtClaim =>
      let a' := mkLinks (ln_link a) (ln_head a) (ln_next a + 1) (ln_duplicates a) in
      if zlength pub <=? ln_next a then (AtBuilt, a') else (AtRow (zget 0 pub (ln_next a)) 0, a')
  | AtRow p row => (if size p <=? row then AtClaim else AtLink p row (ln_head a (bucket_of p row)), a)
  | AtLink p row head =>
      (AtSwap p row head, mkLinks (<[row_id p row := head]> (ln_link a)) (ln_head a) (ln_next a) (ln_duplicates a))
  | AtSwap p row head =>
      if ln_head a (bucket_of p row) =? head
      then (AtCheck p row, mkLinks (ln_link a) (<[bucket_of p row := row_id p row + 1]> (ln_head a)) (ln_next a) (ln_duplicates a))
      else (AtLink p row (ln_head a (bucket_of p row)), a)
  | AtCheck p row => (if ln_duplicates a then AtRow p (row + 1) else AtWalk p row (ln_link a (row_id p row)), a)
  | AtWalk p row link =>
      (if link =? 0 then AtRow p (row + 1)
       else if bool_decide (cls (link - 1) = cls (row_id p row)) then AtFlag p row
       else AtWalk p row (ln_link a (link - 1)), a)
  | AtFlag p row => (AtRow p (row + 1), mkLinks (ln_link a) (ln_head a) (ln_next a) true)
  | AtBuilt => (AtBuilt, a)
  end.

(** ** The rows to link *)

Definition rows_from (p row : Z) : list Z := row_id p <$> seqZ row (size p - row).
Definition all_ids : list Z := pub ≫= λ p, rows_from p 0.

(** The rows a participant has claimed and not linked yet. *)
Definition todo_pc (pc : build_pc) : list Z :=
  match pc with
  | AtRow p row | AtLink p row _ | AtSwap p row _ => rows_from p row
  | AtCheck p row | AtWalk p row _ | AtFlag p row => rows_from p (row + 1)
  | AtClaim | AtBuilt => []
  end.

Definition todo (pcs : list build_pc) (a : link_state) : list Z :=
  (drop (Z.to_nat (ln_next a)) pub ≫= λ p, rows_from p 0) ++ (pcs ≫= todo_pc).

(** ** The invariant *)

(** The participant looks for a duplicate of the row [x]. *)
Definition checks (x : Z) (pc : build_pc) : Prop :=
  match pc with
  | AtCheck p row | AtWalk p row _ | AtFlag p row => row_id p row = x
  | _ => False
  end.

(** [chains] are the rows of each bucket, latest first. *)
Definition pc_links (chains : Z → list Z) (a : link_state) (pc : build_pc) : Prop :=
  let linked p row := 0 ≤ row < size p ∧ p ∈ pub in
  match pc with
  | AtClaim => True
  | AtRow p row => 0 ≤ row ≤ size p ∧ p ∈ pub
  | AtLink p row _ => linked p row
  | AtSwap p row head => linked p row ∧ ln_link a (row_id p row) = head
  | AtCheck p row => linked p row ∧ row_id p row ∈ chains (bucket_of p row)
  | AtWalk p row link => linked p row ∧
      ∃ before skipped rest, chains (bucket_of p row) = before ++ row_id p row :: skipped ++ rest ∧
        link = chain_head rest ∧ Forall (λ y, cls y ≠ cls (row_id p row)) skipped
  | AtFlag p row => linked p row ∧
      ∃ before after y, chains (bucket_of p row) = before ++ row_id p row :: after ∧ y ∈ after ∧ cls y = cls (row_id p row)
  | AtBuilt => zlength pub ≤ ln_next a
  end.

Definition built_count (pcs : list build_pc) : Z := zlength (filter (λ pc, pc = AtBuilt) pcs).

Record linked (pcs : list build_pc) (a : link_state) (chains : Z → list Z) (inserted : list Z) : Prop := {
  li_head : ∀ b, ln_head a b = chain_head (chains b);
  li_link : ∀ b before x after, chains b = before ++ x :: after → ln_link a x = chain_head after;
  li_chain : ∀ b x, x ∈ chains b ↔ x ∈ inserted ∧ bucket (cls x) = b;
  li_nodup : ∀ b, NoDup (chains b);
  li_ids : todo pcs a ++ inserted ≡ₚ all_ids;
  li_pcs : Forall (pc_links chains a) pcs;
  li_next : 0 ≤ ln_next a ≤ zlength pub + built_count pcs;
  li_some : ln_duplicates a = true → ∃ x y, x ∈ inserted ∧ y ∈ inserted ∧ x ≠ y ∧ cls x = cls y;
  li_none : ln_duplicates a = false → ∀ b before x after y,
    chains b = before ++ x :: after → y ∈ after → cls y = cls x → Exists (checks x) pcs;
}.

Context (Hids : NoDup all_ids) (Hsize : ∀ p, p ∈ pub → 0 ≤ size p) (Hpos : ∀ x, x ∈ all_ids → 0 ≤ x).

(** ** The invariant is preserved *)

#[local] Instance todo_proper : Proper ((≡ₚ) ==> eq ==> (≡ₚ)) todo.
Proof. intros pcs pcs' Hp a _ <-. unfold todo. by rewrite Hp. Qed.
#[local] Instance built_count_proper : Proper ((≡ₚ) ==> eq) built_count.
Proof. intros pcs pcs' Hp. unfold built_count. by rewrite Hp. Qed.

Lemma built_count_cons pc pcs : built_count (pc :: pcs) = (if decide (pc = AtBuilt) then 1 else 0) + built_count pcs.
Proof. unfold built_count. rewrite filter_cons. case_decide; cbn; lia. Qed.

Lemma built_count_same pc pc' pcs : pc ≠ AtBuilt → pc' ≠ AtBuilt → built_count (pc :: pcs) = built_count (pc' :: pcs).
Proof. intros. rewrite !built_count_cons, !decide_False by done. done. Qed.

Lemma todo_cons pc pcs a : todo (pc :: pcs) a ≡ₚ todo_pc pc ++ todo pcs a.
Proof. unfold todo. rewrite bind_cons, !app_assoc. apply Permutation_app_tail, Permutation_app_comm. Qed.

Lemma linked_perm pcs pcs' a chains inserted : pcs ≡ₚ pcs' → linked pcs a chains inserted → linked pcs' a chains inserted.
Proof.
  intros Hp [Hh Hl Hc Hn Hi Hpc Hnx Hs Hd]. split; try done.
  - by rewrite <- (todo_proper _ _ Hp a a eq_refl).
  - by rewrite <- Hp.
  - by rewrite <- (built_count_proper _ _ Hp).
  - intros. rewrite <- Hp. eauto.
Qed.

Lemma rows_from_cons p row : 0 ≤ row < size p → rows_from p row = row_id p row :: rows_from p (row + 1).
Proof.
  intros Hr. unfold rows_from. replace (size p - row) with (Z.succ (size p - (row + 1))) by lia.
  rewrite seqZ_cons by lia. cbn. by rewrite Z.pred_succ.
Qed.

Lemma rows_from_none p row : size p ≤ row → rows_from p row = [].
Proof. intros. unfold rows_from. by rewrite seqZ_nil by lia. Qed.

(** Rows are in one of the lists once. *)
Lemma linked_distinct pcs a chains inserted : linked pcs a chains inserted → NoDup (todo pcs a ++ inserted).
Proof. intros Hl. by rewrite (li_ids _ _ _ _ Hl). Qed.

Lemma inserted_pos pcs a chains inserted x : linked pcs a chains inserted → x ∈ inserted → 0 ≤ x.
Proof. intros Hl Hx. apply Hpos. rewrite <- (li_ids _ _ _ _ Hl). apply elem_of_app. by right. Qed.

(** A step that only changes where the participant is. *)
Lemma linked_local pc pc' pcs a chains inserted :
  linked (pc :: pcs) a chains inserted → todo_pc pc' = todo_pc pc → pc ≠ AtBuilt → pc' ≠ AtBuilt → pc_links chains a pc' →
  (ln_duplicates a = false → ∀ b before x after y, chains b = before ++ x :: after → y ∈ after → cls y = cls x →
    checks x pc → checks x pc') →
  linked (pc' :: pcs) a chains inserted.
Proof.
  intros [Hh Hl Hc Hn Hi Hpc Hnx Hs Hd] Ht Hb Hb' Hp Hck. split; try done.
  - by rewrite todo_cons, Ht, <- todo_cons.
  - constructor; [done|]. by apply Forall_cons in Hpc as [_ ?].
  - by rewrite (built_count_same _ pc).
  - intros Hdup b before x after y E Hy Hcls. specialize (Hd Hdup b before x after y E Hy Hcls).
    apply Exists_cons in Hd as [Hx|Hx]; [left|by right]. by eapply Hck.
Qed.

(** The link of a row that is not in a chain yet. *)
Lemma linked_link p row head pcs a chains inserted :
  linked (AtLink p row head :: pcs) a chains inserted →
  linked (AtSwap p row head :: pcs) (link_step (AtLink p row head) a).2 chains inserted.
Proof.
  intros Hl. pose proof (linked_distinct _ _ _ _ Hl) as Hnd. pose proof Hl as [Hh Hlk Hc Hn Hi Hpc Hnx Hs Hd].
  apply Forall_cons in Hpc as [[Hr Hp] Hpc]. rewrite todo_cons in Hnd. cbn [todo_pc] in Hnd.
  rewrite rows_from_cons in Hnd by done. set (x := row_id p row) in *.
  assert (Hins : x ∉ inserted).
  { apply NoDup_app in Hnd as (_ & Hnd & _). apply Hnd, elem_of_app. left. left. }
  assert (Hother : x ∉ todo pcs a).
  { rewrite <- app_assoc in Hnd. cbn in Hnd. apply NoDup_cons in Hnd as [Hnd _]. set_solver. }
  cbn [link_step snd]. fold x. split; cbn [ln_head ln_link ln_next ln_duplicates]; try done.
  - intros b before y after E. rewrite fn_lookup_insert_ne; [by eapply Hlk|]. intros <-.
    apply Hins. apply (Hc b x). rewrite E. set_solver.
  - constructor; [split; [done|]; cbn; by rewrite fn_lookup_insert|]. apply Forall_forall. intros pc Hin.
    rewrite Forall_forall in Hpc. specialize (Hpc pc Hin) as Hpcl. destruct pc as [| | |q r hd| | | |]; try done.
    destruct Hpcl as [Hqr Hq]. split; [done|]. cbn. rewrite fn_lookup_insert_ne; [done|]. intros Heq.
    apply Hother. unfold todo. apply elem_of_app. right. apply list_elem_of_bind. eexists; split; [|exact Hin].
    cbn. rewrite rows_from_cons by apply Hqr. rewrite Heq. left.
  - intros Hdup b before y after z E Hz Hcls. specialize (Hd Hdup b before y after z E Hz Hcls).
    apply Exists_cons in Hd as [[]|Hd]. by right.
Qed.

(** The swap that succeeds: the row becomes the head of its bucket. *)
Lemma linked_swap p row head pcs a chains inserted :
  linked (AtSwap p row head :: pcs) a chains inserted → ln_head a (bucket_of p row) = head →
  linked (AtCheck p row :: pcs) (mkLinks (ln_link a) (<[bucket_of p row := row_id p row + 1]> (ln_head a)) (ln_next a) (ln_duplicates a))
    (<[bucket_of p row := row_id p row :: chains (bucket_of p row)]> chains) (row_id p row :: inserted).
Proof.
  intros Hl Hhead. pose proof (linked_distinct _ _ _ _ Hl) as Hnd. pose proof Hl as [Hh Hlk Hc Hn Hi Hpc Hnx Hs Hd].
  apply Forall_cons in Hpc as [((Hr & Hp) & Hlink) Hpc]. rewrite todo_cons in Hnd. cbn [todo_pc] in Hnd.
  rewrite rows_from_cons in Hnd by done. set (x := row_id p row) in *. set (b0 := bucket_of p row) in *.
  assert (Hins : x ∉ inserted).
  { apply NoDup_app in Hnd as (_ & Hnd & _). apply Hnd, elem_of_app. left. left. }
  assert (Hin : ∀ b, <[b0 := x :: chains b0]> chains b = if decide (b0 = b) then x :: chains b0 else chains b).
  { intros b. case_decide; subst; [by rewrite fn_lookup_insert|by rewrite fn_lookup_insert_ne]. }
  split; cbn [ln_head ln_link ln_next ln_duplicates].
  - intros b. rewrite Hin. case_decide; subst; [by rewrite fn_lookup_insert|by rewrite fn_lookup_insert_ne].
  - intros b before y after. rewrite Hin. case_decide as E; [subst b|by apply Hlk].
    destruct before as [|z before]; cbn; [|intros [= <- ?]; by eapply Hlk].
    intros [= <- <-]. by rewrite Hlink, <- Hh.
  - intros b y. rewrite Hin. rewrite elem_of_cons. case_decide as E.
    + rewrite elem_of_cons, Hc. subst b. unfold b0, bucket_of. fold x. naive_solver.
    + rewrite Hc. split; [naive_solver|]. intros [[->|?] ?]; [|done]. by destruct E.
  - intros b. rewrite Hin. case_decide; [|done]. constructor; [|done]. rewrite Hc. naive_solver.
  - rewrite <- Hi, !todo_cons. cbn [todo_pc]. rewrite (rows_from_cons p row) by done. fold x. cbn [app].
    rewrite <- !app_assoc, !app_comm_cons. rewrite !app_assoc. by rewrite <- Permutation_middle.
  - assert (Hmono : ∀ b before rest, chains b = before ++ rest → ∃ before', <[b0 := x :: chains b0]> chains b = before' ++ rest).
    { intros b before rest E. rewrite Hin. case_decide as Eb; [subst b; exists (x :: before); by rewrite E|by exists before]. }
    constructor; [split; [done|]; rewrite Hin, decide_True by done; left|]. eapply Forall_impl; [exact Hpc|].
    intros [| |q r|q r hd|q r|q r lk|q r|] Hpcl; try done.
    + destruct Hpcl as [? Hq]. split; [done|]. rewrite Hin. case_decide as Eb; [|done]. right. by rewrite Eb.
    + destruct Hpcl as (? & before & skipped & rest & E & ?). split; [done|].
      destruct (Hmono _ _ _ E) as (before' & ->). by exists before', skipped, rest.
    + destruct Hpcl as (? & before & after & y & E & ?). split; [done|].
      destruct (Hmono _ _ _ E) as (before' & ->). by exists before', after, y.
  - by rewrite (built_count_same _ (AtSwap p row head)).
  - intros Hdup. destruct (Hs Hdup) as (y & z & ? & ? & ? & ?). exists y, z. set_solver.
  - intros Hdup b before y after z. rewrite Hin. intros E Hz Hcls.
    assert (Hold : ∀ before', chains b = before' ++ y :: after → Exists (checks y) (AtCheck p row :: pcs)).
    { intros before' E'. specialize (Hd Hdup b before' y after z E' Hz Hcls). apply Exists_cons in Hd as [[]|Hd]. by right. }
    case_decide as Eb; [|by eapply Hold]. subst b. destruct before as [|w before]; cbn in E.
    + injection E as <- _. by left.
    + injection E as _ E. by eapply Hold.
Qed.
(** Claiming a chunk, or finding none left. *)
Lemma linked_claim pcs a chains inserted :
  linked (AtClaim :: pcs) a chains inserted →
  linked ((link_step AtClaim a).1 :: pcs) (link_step AtClaim a).2 chains inserted.
Proof.
  intros [Hh Hlk Hc Hn Hi Hpc Hnx Hs Hd]. apply Forall_cons in Hpc as [_ Hpc].
  cbn [link_step]. set (a' := mkLinks _ _ _ _). rewrite built_count_cons, decide_False in Hnx by done.
  assert (Hpc' : Forall (pc_links chains a') pcs).
  { eapply Forall_impl; [exact Hpc|]. intros [| | | | | | |]; try done. cbn. lia. }
  assert (Hd' : ln_duplicates a' = false → ∀ pc b before x after y, chains b = before ++ x :: after → y ∈ after →
    cls y = cls x → Exists (checks x) (pc :: pcs)).
  { intros Hdup pc b before y after z E Hz Hcls. specialize (Hd Hdup b before y after z E Hz Hcls).
    apply Exists_cons in Hd as [[]|Hd]. by right. }
  destruct (Z.leb_spec (zlength pub) (ln_next a)); cbn [fst snd]; split; try done.
  - rewrite todo_cons in Hi |- *. unfold todo in *. cbn [ln_next a' todo_pc app] in *. by rewrite drop_ge in Hi |- * by lia.
  - constructor; [cbn; lia|done].
  - subst a'. cbn [ln_next]. rewrite built_count_cons, decide_True by done. lia.
  - eauto.
  - rewrite todo_cons in Hi |- *. unfold todo in *. cbn [ln_next a' todo_pc app] in *. rewrite <- Hi.
    replace (Z.to_nat (ln_next a + 1)) with (S (Z.to_nat (ln_next a))) by lia.
    destruct (lookup_lt_is_Some_2 pub (Z.to_nat (ln_next a))) as [p Hp]; [lia|].
    assert (zget 0 pub (ln_next a) = p) as -> by (unfold zget; by rewrite Hp).
    rewrite (drop_S pub p (Z.to_nat (ln_next a))) by done. rewrite bind_cons. by rewrite <- !app_assoc.
  - constructor; [|done]. assert (Hin : zget 0 pub (ln_next a) ∈ pub).
    { destruct (lookup_lt_is_Some_2 pub (Z.to_nat (ln_next a))) as [p Hp]; [lia|]. unfold zget. rewrite Hp. by eapply list_elem_of_lookup_2. }
    pose proof (Hsize _ Hin). cbn. split; [lia|done].
  - subst a'. cbn [ln_next]. rewrite built_count_cons, decide_False by done. unfold built_count. lia.
  - eauto.
Qed.

(** Reporting a duplicate. *)
Lemma linked_flag p row pcs a chains inserted :
  linked (AtFlag p row :: pcs) a chains inserted →
  linked (AtRow p (row + 1) :: pcs) (mkLinks (ln_link a) (ln_head a) (ln_next a) true) chains inserted.
Proof.
  intros [Hh Hlk Hc Hn Hi Hpc Hnx Hs Hd]. apply Forall_cons in Hpc as [((Hr & Hp) & before & after & y & E & Hy & Hcls) Hpc].
  split; try done.
  - constructor; [cbn; split; [lia|done]|]. eapply Forall_impl; [exact Hpc|]. by intros [].
  - intros _. exists y, (row_id p row). specialize (Hn (bucket_of p row)). rewrite E in Hn.
    apply NoDup_app in Hn as (_ & _ & [Hn _]%NoDup_cons).
    split; [apply (Hc (bucket_of p row)); rewrite E; set_solver|]. split; [apply (Hc (bucket_of p row)); rewrite E; set_solver|].
    split; [by intros ->|done].
Qed.

(** ** The measure *)

(** The part of a chain from a link on. *)
Fixpoint from_link (l : list Z) (link : Z) : list Z :=
  match l with
  | [] => []
  | x :: l' => if x + 1 =? link then l else from_link l' link
  end.

Lemma from_link_none l : Forall (λ x, 0 ≤ x) l → from_link l 0 = [].
Proof. induction 1 as [|x l Hx _ IH]; [done|]. cbn. destruct (Z.eqb_spec (x + 1) 0); [lia|done]. Qed.

Lemma from_link_app before rest :
  NoDup (before ++ rest) → Forall (λ x, 0 ≤ x) (before ++ rest) → from_link (before ++ rest) (chain_head rest) = rest.
Proof.
  intros Hn Hp. destruct rest as [|z rest]; [by rewrite from_link_none|].
  induction before as [|y before IH]; cbn in *; [by rewrite Z.eqb_refl|].
  apply NoDup_cons in Hn as [Hy Hn]. apply Forall_cons in Hp as [_ Hp].
  destruct (Z.eqb_spec (y + 1) (z + 1)) as [E|]; [|by apply IH]. exfalso. apply Hy. replace y with z by lia. set_solver.
Qed.

(** The steps a participant takes before it needs another row; a head read
    before another participant changed it costs two more. *)
Definition pc_cost (head : Z → Z) (chains : Z → list Z) (n : Z) (pc : build_pc) : Z :=
  match pc with
  | AtClaim => 1
  | AtRow _ _ => 3
  | AtLink p row hd => if head (bucket_of p row) =? hd then 2 else 4
  | AtSwap p row hd => if head (bucket_of p row) =? hd then 1 else 3
  | AtCheck _ _ => n + 6
  | AtWalk p row link => 5 + zlength (from_link (chains (bucket_of p row)) link)
  | AtFlag _ _ => 4
  | AtBuilt => 0
  end.

Definition pcs_cost head chains n (pcs : list build_pc) : Z := foldr (λ pc c, pc_cost head chains n pc + c) 0 pcs.

Lemma pcs_cost_cons head chains n pc pcs : pcs_cost head chains n (pc :: pcs) = pc_cost head chains n pc + pcs_cost head chains n pcs.
Proof. done. Qed.

Definition measure (n w : Z) (chains : Z → list Z) (pcs : list build_pc) (a : link_state) : Z :=
  w * zlength (todo pcs a) + 5 * Z.max 0 (zlength pub - ln_next a) + pcs_cost (ln_head a) chains n pcs.

Lemma measure_local n w chains pc pc' pcs a a' :
  todo_pc pc' = todo_pc pc → ln_head a' = ln_head a → ln_next a' = ln_next a →
  pc_cost (ln_head a) chains n pc' < pc_cost (ln_head a) chains n pc →
  measure n w chains (pc' :: pcs) a' < measure n w chains (pc :: pcs) a.
Proof.
  intros Ht Hh Hn Hc. unfold measure. rewrite !pcs_cost_cons, Hh, Hn.
  assert (length (todo (pc' :: pcs) a') = length (todo (pc :: pcs) a)) as ->; [|lia].
  rewrite (todo_cons pc'), (todo_cons pc), Ht. unfold todo. by rewrite Hn.
Qed.

Lemma pcs_cost_perm head chains n pcs pcs' : pcs ≡ₚ pcs' → pcs_cost head chains n pcs = pcs_cost head chains n pcs'.
Proof. induction 1; rewrite ?pcs_cost_cons in *; lia. Qed.

Lemma measure_perm n w chains pcs pcs' a : pcs ≡ₚ pcs' → measure n w chains pcs a = measure n w chains pcs' a.
Proof. intros Hp. unfold measure. rewrite (pcs_cost_perm _ _ _ _ _ Hp). by rewrite (todo_proper _ _ Hp a a eq_refl). Qed.

Lemma measure_nonneg n w chains pcs a : 0 ≤ n → 0 ≤ w → 0 ≤ measure n w chains pcs a.
Proof.
  intros Hn Hw. unfold measure. assert (0 ≤ pcs_cost (ln_head a) chains n pcs); [|nia].
  induction pcs as [|pc pcs IH]; [done|]. rewrite pcs_cost_cons. destruct pc; cbn; try (destruct (_ =? _)); lia.
Qed.

(** Chains hold rows of the table only. *)
Lemma chain_pos pcs a chains inserted b : linked pcs a chains inserted → Forall (λ x, 0 ≤ x) (chains b).
Proof.
  intros Hl. apply Forall_forall. intros x Hx. apply (li_chain _ _ _ _ Hl) in Hx as [Hx _]. by eapply inserted_pos.
Qed.

Lemma all_ids_length pcs a chains inserted : linked pcs a chains inserted → zlength (todo pcs a) + zlength inserted = zlength all_ids.
Proof. intros Hl. rewrite <- (li_ids _ _ _ _ Hl), length_app. lia. Qed.

Lemma chain_length pcs a chains inserted b : linked pcs a chains inserted → zlength (chains b) ≤ zlength all_ids.
Proof.
  intros Hl. pose proof (all_ids_length _ _ _ _ Hl). assert (length (chains b) ≤ length inserted)%nat; [|lia].
  apply submseteq_length, NoDup_submseteq; [apply (li_nodup _ _ _ _ Hl)|]. intros x Hx. by apply (li_chain _ _ _ _ Hl) in Hx as [? _].
Qed.
(** ** Every step *)

(** A row enters its bucket's chain: what that costs the others. *)
Lemma swap_cost x b0 a chains chains' n pc :
  (∀ b, chains' b = if decide (b0 = b) then x :: chains b0 else chains b) → (∀ b, NoDup (chains' b)) →
  (∀ b, Forall (λ y, 0 ≤ y) (chains' b)) → pc_links chains a pc →
  pc_cost (<[b0 := x + 1]> (ln_head a)) chains' n pc ≤ pc_cost (ln_head a) chains n pc + 2.
Proof.
  intros Hc Hnd Hp Hl. destruct pc as [| |p row hd|p row hd| |p row link| |]; cbn [pc_cost]; try lia;
    try (destruct (_ =? _), (_ =? _); lia).
  destruct Hl as (_ & before & skipped & rest & E & -> & _). set (b := bucket_of p row) in *.
  assert (Hfrom : ∀ l, l ++ rest = chains b ∨ l ++ rest = chains' b → from_link (l ++ rest) (chain_head rest) = rest).
  { intros l [El|El]; apply from_link_app; rewrite ?El; try done; specialize (Hnd b); specialize (Hp b); rewrite Hc in Hnd, Hp;
      case_decide as Eb; try done; rewrite Eb in Hnd, Hp; [by apply NoDup_cons in Hnd as [_ ?]|by apply Forall_cons in Hp as [_ ?]]. }
  assert (E1 : chains b = (before ++ row_id p row :: skipped) ++ rest) by (rewrite E, <- app_assoc; done).
  rewrite E1, Hfrom by (left; by rewrite E1). rewrite (Hc b). case_decide as Eb.
  - rewrite Eb, E1, app_comm_cons. rewrite Hfrom; [lia|]. right. rewrite Hc, decide_True by done. by rewrite Eb, E1.
  - rewrite E1, Hfrom by (left; by rewrite E1). lia.
Qed.

Lemma swap_costs x b0 a chains chains' n pcs :
  (∀ b, chains' b = if decide (b0 = b) then x :: chains b0 else chains b) → (∀ b, NoDup (chains' b)) →
  (∀ b, Forall (λ y, 0 ≤ y) (chains' b)) → Forall (pc_links chains a) pcs →
  pcs_cost (<[b0 := x + 1]> (ln_head a)) chains' n pcs ≤ pcs_cost (ln_head a) chains n pcs + 2 * zlength pcs.
Proof.
  intros Hc Hnd Hp. induction 1 as [|pc pcs Hpc _ IH]; [done|]. rewrite !pcs_cost_cons. cbn [length].
  pose proof (swap_cost x b0 a chains chains' n pc Hc Hnd Hp Hpc). lia.
Qed.

Lemma swap_measure p row head pcs a chains inserted n w :
  linked (AtSwap p row head :: pcs) a chains inserted → ln_head a (bucket_of p row) = head → n + 6 + 2 * zlength pcs ≤ w →
  let a' := mkLinks (ln_link a) (<[bucket_of p row := row_id p row + 1]> (ln_head a)) (ln_next a) (ln_duplicates a) in
  let chains' := <[bucket_of p row := row_id p row :: chains (bucket_of p row)]> chains in
  measure n w chains' (AtCheck p row :: pcs) a' < measure n w chains (AtSwap p row head :: pcs) a.
Proof.
  intros Hl Hhead Hw a' chains'. pose proof (linked_swap _ _ _ _ _ _ _ Hl Hhead) as Hl'. fold a' chains' in Hl'.
  pose proof (li_pcs _ _ _ _ Hl) as [[[Hr _] _] Hpc]%Forall_cons.
  assert (Hchain : ∀ b, chains' b = if decide (bucket_of p row = b) then row_id p row :: chains (bucket_of p row) else chains b).
  { intros b. unfold chains'. case_decide; subst; [by rewrite fn_lookup_insert|by rewrite fn_lookup_insert_ne]. }
  pose proof (swap_costs _ _ a _ _ n pcs Hchain (li_nodup _ _ _ _ Hl') (λ b, chain_pos _ _ _ _ b Hl') Hpc).
  assert (Ht : length (todo (AtSwap p row head :: pcs) a) = S (length (todo (AtCheck p row :: pcs) a'))).
  { rewrite !todo_cons. cbn [todo_pc]. by rewrite rows_from_cons. }
  unfold measure. rewrite !pcs_cost_cons, Ht. cbn [pc_cost ln_head ln_next a'].
  rewrite Hhead, Z.eqb_refl. lia.
Qed.

(** The rows below a row in its chain are known. *)
Lemma chain_split pcs a chains inserted b before x after before' after' :
  linked pcs a chains inserted → chains b = before ++ x :: after → chains b = before' ++ x :: after' → after = after'.
Proof.
  intros Hl E E'. pose proof (li_nodup _ _ _ _ Hl b) as Hnd. rewrite E in E', Hnd. clear E.
  revert before' E'. induction before as [|y before IH]; intros [|z before']; cbn; intros E'.
  - by injection E'.
  - injection E' as -> ->. apply NoDup_cons in Hnd as [Hnd _]. exfalso. apply Hnd. set_solver.
  - injection E' as -> _. apply NoDup_cons in Hnd as [Hnd _]. exfalso. apply Hnd. set_solver.
  - injection E' as -> E'. apply NoDup_cons in Hnd as [_ Hnd]. by eapply IH.
Qed.

Lemma linked_step pc pcs a chains inserted n w :
  linked (pc :: pcs) a chains inserted → pc ≠ AtBuilt → n = zlength all_ids → n + 6 + 2 * zlength pcs ≤ w →
  ∃ chains' inserted', linked ((link_step pc a).1 :: pcs) (link_step pc a).2 chains' inserted' ∧
    measure n w chains' ((link_step pc a).1 :: pcs) (link_step pc a).2 < measure n w chains (pc :: pcs) a.
Proof.
  intros Hl Hne -> Hw. pose proof (li_pcs _ _ _ _ Hl) as [Hpc _]%Forall_cons.
  pose proof (λ b, chain_length _ _ _ _ b Hl) as Hlen. pose proof (λ b, chain_pos _ _ _ _ b Hl) as Hp0.
  destruct pc as [|p row|p row head|p row head|p row|p row link|p row|]; [| | | | | | |done].
  - exists chains, inserted. split; [by apply linked_claim|]. pose proof (li_next _ _ _ _ Hl).
    cbn [link_step]. unfold measure. destruct (Z.leb_spec (zlength pub) (ln_next a)); cbn [fst snd ln_next ln_head];
      rewrite !pcs_cost_cons; cbn [pc_cost].
    + rewrite !todo_cons. unfold todo. cbn [ln_next todo_pc app]. rewrite !drop_ge by lia. lia.
    + assert (length (todo (AtRow (zget 0 pub (ln_next a)) 0 :: pcs) (mkLinks (ln_link a) (ln_head a) (ln_next a + 1) (ln_duplicates a))) =
        length (todo (AtClaim :: pcs) a)) as ->; [|lia].
      pose proof (linked_claim _ _ _ _ Hl) as Hl'. cbn [link_step] in Hl'. rewrite (proj2 (Z.leb_gt _ _)) in Hl' by done.
      pose proof (all_ids_length _ _ _ _ Hl). pose proof (all_ids_length _ _ _ _ Hl'). cbn [fst snd] in *. lia.
  - exists chains, inserted. destruct Hpc as [Hr Hp]. cbn [link_step fst snd]. destruct (Z.leb_spec (size p) row).
    + split; [apply (linked_local (AtRow p row)); try done; cbn [todo_pc]; by rewrite rows_from_none|].
      apply measure_local; try done. cbn. by rewrite rows_from_none.
    + split; [apply (linked_local (AtRow p row)); try done; cbn; split; [lia|done]|]. apply measure_local; try done. cbn. by rewrite Z.eqb_refl.
  - exists chains, inserted. split; [by apply linked_link|]. apply measure_local; try done. cbn. destruct (_ =? _); lia.
  - cbn [link_step]. destruct (Z.eqb_spec (ln_head a (bucket_of p row)) head) as [E|E]; cbn [fst snd].
    + eexists _, _. split; [by eapply linked_swap|]. by eapply swap_measure.
    + exists chains, inserted. destruct Hpc as [Hr _]. split; [by apply (linked_local (AtSwap p row head))|].
      apply measure_local; try done. cbn. rewrite Z.eqb_refl, (proj2 (Z.eqb_neq _ _)) by done. lia.
  - exists chains, inserted. destruct Hpc as [[Hr Hp] Hin]. cbn [link_step fst snd]. destruct (ln_duplicates a) eqn:Ed.
    + split; [|by apply measure_local; try done; cbn; lia].
      apply (linked_local (AtCheck p row)); try done; [cbn; split; [lia|done]|congruence].
    + apply list_elem_of_split in Hin as (before & after & E). pose proof (li_link _ _ _ _ Hl _ _ _ _ E) as Elink.
      split; [apply (linked_local (AtCheck p row)); try done; split; [done|]; by exists before, [], after|].
      apply measure_local; try done. cbn [pc_cost]. rewrite Elink. rewrite E.
      rewrite (cons_middle _ before), app_assoc, from_link_app; specialize (Hlen (bucket_of p row)); rewrite E in Hlen;
        [rewrite length_app in Hlen; cbn in Hlen; lia|..]; rewrite <- app_assoc; cbn; rewrite <- E; [apply Hl|apply Hp0].
  - exists chains, inserted. destruct Hpc as [[Hr Hp] (before & skipped & rest & E & -> & Hsk)]. cbn [link_step fst snd].
    assert (Hcost : from_link (chains (bucket_of p row)) (chain_head rest) = rest).
    { rewrite E, app_comm_cons, app_assoc. apply from_link_app; rewrite <- app_assoc; cbn; rewrite <- E; [apply Hl|apply Hp0]. }
    destruct rest as [|y rest]; cbn [chain_head].
    + rewrite Z.eqb_refl. split; [|by apply measure_local; try done; cbn; lia].
      apply (linked_local (AtWalk p row 0)); try done; [cbn; split; [lia|done]|].
      intros _ b before' x after z Eb Hz Hcls Hx. cbn in Hx. subst x. exfalso. rewrite app_nil_r in E.
      assert (Hb : b = bucket_of p row).
      { assert (Hxb : row_id p row ∈ chains b) by (rewrite Eb; set_solver). by apply (li_chain _ _ _ _ Hl) in Hxb as [_ <-]. }
      rewrite Hb in Eb. rewrite (chain_split _ _ _ _ _ _ _ _ _ _ Hl Eb E) in Hz. rewrite Forall_forall in Hsk. by eapply Hsk.
    + assert (Hy : 0 ≤ y).
      { specialize (Hp0 (bucket_of p row)). rewrite Forall_forall in Hp0. apply Hp0. rewrite E. set_solver. }
      rewrite (proj2 (Z.eqb_neq _ _)), Z.add_simpl_r by lia. case_bool_decide as Ecls.
      * split; [|apply measure_local; try done; cbn [pc_cost]; cbn [chain_head] in Hcost; rewrite Hcost; cbn; lia].
        apply (linked_local (AtWalk p row (y + 1))); try done. split; [done|]. exists before, (skipped ++ y :: rest), y.
        split; [done|]. split; [set_solver|done].
      * assert (E' : chains (bucket_of p row) = (before ++ row_id p row :: skipped) ++ y :: rest) by by rewrite E, <- app_assoc.
        rewrite (li_link _ _ _ _ Hl _ _ _ _ E').
        split; [apply (linked_local (AtWalk p row (y + 1))); try done; split; [done|]; exists before, (skipped ++ [y]), rest|].
        { split; [by rewrite <- app_assoc|]. split; [done|]. apply Forall_app. split; [done|]. by apply Forall_singleton. }
        apply measure_local; try done. cbn [pc_cost]. cbn [chain_head] in Hcost. rewrite Hcost.
        rewrite E', (cons_middle y), app_assoc, from_link_app; [cbn; lia|..];
          rewrite <- app_assoc; cbn [app]; rewrite <- E'; [apply Hl|apply Hp0].
  - exists chains, inserted. split; [by apply linked_flag|]. apply measure_local; done.
Qed.
(** ** The beginning and the end *)

Lemma linked_init n link :
  linked (replicate n AtClaim) (mkLinks link (λ _, 0) 0 false) (λ _, []) [].
Proof.
  split; try done; cbn [ln_head ln_link ln_next ln_duplicates].
  - by intros b [|].
  - intros b x. set_solver.
  - constructor.
  - rewrite app_nil_r. unfold todo. cbn [ln_next]. change (Z.to_nat 0) with 0%nat. rewrite drop_0.
    assert (replicate n AtClaim ≫= todo_pc = []) as ->; [|by rewrite app_nil_r]. by induction n.
  - by apply Forall_replicate.
  - unfold built_count. lia.
  - by intros _ b [|].
Qed.

Lemma init_cost chains head n np : pcs_cost head chains n (replicate np AtClaim) = Z.of_nat np.
Proof. induction np as [|np IH]; [done|]. cbn [replicate]. rewrite pcs_cost_cons, IH. cbn. lia. Qed.

(** When all are done, every row is in the chain of its bucket, and the flag
    tells whether two rows have a class in common. *)
Lemma linked_final pcs a chains inserted :
  linked pcs a chains inserted → pcs ≠ [] → Forall (λ pc, pc = AtBuilt) pcs →
  (∀ b, NoDup (chains b) ∧ ∀ x, x ∈ chains b ↔ x ∈ all_ids ∧ bucket (cls x) = b) ∧
  (ln_duplicates a = false ↔ NoDup (cls <$> all_ids)).
Proof.
  intros [Hh Hl Hc Hn Hi Hpc _ Hs Hd] Hne Hb.
  assert (Hnext : zlength pub ≤ ln_next a).
  { destruct pcs as [|pc pcs]; [done|]. apply Forall_cons in Hpc as [Hpc _], Hb as [-> _]. done. }
  assert (Htodo : todo pcs a = []).
  { unfold todo. rewrite drop_ge by lia. cbn. clear -Hb. induction Hb as [|pc pcs -> _ IH]; [done|]. done. }
  rewrite Htodo in Hi. cbn [app] in Hi. assert (Hnd : NoDup inserted) by by rewrite Hi.
  split.
  - intros b. split; [done|]. intros x. by rewrite Hc, Hi.
  - rewrite <- Hi. split.
    + intros Hdup. apply NoDup_fmap_2_strong; [|done]. intros x y Hx Hy Exy.
      destruct (decide (x = y)) as [|Hxy]; [done|]. exfalso.
      assert (Hno : ∀ before u after v, chains (bucket (cls x)) = before ++ u :: after → v ∈ after → cls v = cls u → False).
      { intros before u after v E Hv Hcls. specialize (Hd Hdup _ _ _ _ _ E Hv Hcls). clear -Hd Hb.
        induction Hb as [|pc pcs -> _ IH]; [by apply Exists_nil in Hd|]. apply Exists_cons in Hd as [[]|Hd]. auto. }
      assert (Hxc : x ∈ chains (bucket (cls x))) by by apply Hc.
      assert (Hyc : y ∈ chains (bucket (cls x))) by (apply Hc; split; [done|by rewrite Exy]).
      apply list_elem_of_split in Hxc as (before & after & E). rewrite E in Hyc.
      apply elem_of_app in Hyc as [Hyc|[->|Hyc]%elem_of_cons]; [|done|by eapply Hno].
      apply list_elem_of_split in Hyc as (b1 & b2 & ->). rewrite <- app_assoc in E. cbn in E.
      eapply (Hno b1 y); [exact E| |done]. set_solver.
    + intros Hcls. destruct (ln_duplicates a); [|done]. destruct (Hs eq_refl) as (x & y & Hx & Hy & Hxy & Exy).
      exfalso. apply Hxy. apply list_elem_of_lookup in Hx as [i Hx], Hy as [j Hy].
      assert (i = j) as ->; [|congruence]. eapply (NoDup_lookup (cls <$> inserted)); [done|..];
        rewrite list_lookup_fmap; [by rewrite Hx|by rewrite Hy, Exy].
Qed.
End links.
