(* ===== verification/ParallelBuild.v ===== *)
(** * Linking the rows of the shared table

    [build_step] implements the algorithm of [ParallelLinks] on the chunks,
    the directory and the buckets in shared memory. *)

From stdpp Require Import functions.
From S2P Require Import Prelude Words Selection Vector Kernels Int4 Hash Spill JoinStore JoinStoreProps JoinDirectory JoinBuild JoinBuildProps ParallelHash ParallelChunk ParallelShared ParallelSetup ParallelLinks.

Section build.
Context `{PgCore} `{DsaArea}.
Context (ncolumns : Z) (inner_keys : list Z).
(** The table as it was set up. *)
Context (m0 : SharedMemory) (pub : list Z) (k : Z).

Definition no_chunk : ParallelBuildChunk := mkChunk 0 0 0 [] [] [] [].
Definition chunk_of (p : Z) : ParallelBuildChunk :=
  match sm_heap m0 !! p with Some (DsaChunk c) => c | _ => no_chunk end.
Definition chunk_base (p : Z) : Z := ch_index (chunk_of p) * 1024.
Definition chunk_size (p : Z) : Z := ch_nrows (chunk_of p).

(** What the links compare: the hash, and the keys but the last. *)
Definition chunk_class (c : ParallelBuildChunk) (row : Z) : Z * list Z :=
  (zget 0 (ch_hashes c) row, (λ column, value_in (ch_values c) column row) <$> key_prefix inner_keys).
Definition id_class (id : Z) : Z * list Z := chunk_class (chunk_of (zget 0 pub (id / 1024))) (id mod 1024).
Definition class_bucket (c : Z * list Z) : Z := Z.land c.1 (2 ^ k - 1).

Abbreviation step := (link_step pub chunk_base chunk_size id_class class_bucket).
Abbreviation ids := (all_ids pub chunk_base chunk_size).
Abbreviation id_of := (row_id chunk_base).

(** Shared memory with the links and heads of [a]. *)
Record represents (m : SharedMemory) (a : link_state) : Prop := {
  rp_chunks : ∀ p, p ∈ pub → ∃ links, sm_heap m !! p = Some (DsaChunk (set_chunk_links (chunk_of p) links)) ∧
    zlength links = 1024 ∧ ∀ row, 0 ≤ row < 1024 → zget 0 links row = ln_link a (id_of p row);
  rp_buckets : ∃ heads, sm_heap m !! ps_buckets (sm_shared m0) = Some (DsaBuckets heads) ∧ zlength heads = 2 ^ k ∧
    ∀ b, 0 ≤ b < 2 ^ k → zget 0 heads b = ln_head a b;
  rp_directory : pub ≠ [] → sm_heap m !! ps_directory (sm_shared m0) = Some (DsaDirectory pub);
  rp_shared : sm_shared m = set_flags (set_counters (sm_shared m0) (ps_allocated_bytes (sm_shared m0))
    (ps_build_rows (sm_shared m0)) (ln_next a)) (ps_spilled (sm_shared m0)) (ln_duplicates a);
}.

(** A participant that has looked up the table. *)
Definition mapped (l : ParallelHashJoinLocal) : Prop :=
  lo_directory l = ps_directory (sm_shared m0) ∧ lo_buckets l = ps_buckets (sm_shared m0).

Context (Htable : shared_table ncolumns m0 pub k) (Hkeys : Forall (λ c, 0 ≤ c < ncolumns) inner_keys).

(** ** Row identifiers *)

Lemma chunk_of_at i p : pub !! i = Some p →
  sm_heap m0 !! p = Some (DsaChunk (chunk_of p)) ∧ chunk_wf ncolumns (chunk_of p) ∧ 0 < chunk_size p ∧
  ch_index (chunk_of p) = Z.of_nat i.
Proof.
  intros Hi. destruct (st_chunks _ _ _ _ Htable i p Hi) as (c & Hc & Hwf & Hn & Hx). unfold chunk_size.
  assert (chunk_of p = c) as -> by (unfold chunk_of; by rewrite Hc). done.
Qed.

Lemma chunk_size_bound p : p ∈ pub → 0 < chunk_size p ≤ 1024.
Proof. intros (i & Hi)%list_elem_of_lookup. destruct (chunk_of_at i p Hi) as (_ & [] & ? & _). unfold chunk_size in *. lia. Qed.

Lemma chunk_size_nonneg p : p ∈ pub → 0 ≤ chunk_size p.
Proof. intros Hp. pose proof (chunk_size_bound p Hp). lia. Qed.

Lemma id_of_split i p row : pub !! i = Some p → 0 ≤ row < 1024 →
  id_of p row / 1024 = Z.of_nat i ∧ id_of p row mod 1024 = row ∧ 0 ≤ id_of p row < zlength pub * 1024.
Proof.
  intros Hi Hr. pose proof (lookup_lt_Some _ _ _ Hi). destruct (chunk_of_at i p Hi) as (_ & _ & _ & E).
  unfold row_id, chunk_base. rewrite E. zlia.
Qed.

Lemma id_chunk i p row : pub !! i = Some p → 0 ≤ row < 1024 → zget 0 pub (id_of p row / 1024) = p.
Proof. intros Hi Hr. destruct (id_of_split i p row Hi Hr) as (-> & _). unfold zget. rewrite Nat2Z.id. by rewrite Hi. Qed.

Lemma id_class_of p row : p ∈ pub → 0 ≤ row < 1024 → id_class (id_of p row) = chunk_class (chunk_of p) row.
Proof.
  intros (i & Hi)%list_elem_of_lookup Hr. unfold id_class. rewrite (id_chunk i p row) by done.
  by destruct (id_of_split i p row Hi Hr) as (_ & -> & _).
Qed.

Lemma elem_of_ids x : x ∈ ids ↔ ∃ p row, p ∈ pub ∧ 0 ≤ row < chunk_size p ∧ x = id_of p row.
Proof.
  unfold all_ids, rows_from. rewrite list_elem_of_bind. split.
  - intros (p & (row & -> & Hr%elem_of_seqZ)%list_elem_of_fmap & Hp). exists p, row. split; [done|]. split; [lia|done].
  - intros (p & row & Hp & Hr & ->). exists p. split; [|done]. apply list_elem_of_fmap. exists row. split; [done|].
    apply elem_of_seqZ. lia.
Qed.

Lemma ids_nodup : NoDup ids.
Proof.
  unfold all_ids, rows_from. apply NoDup_bind.
  - intros p q x Hp Hq (row & Ex & Hr%elem_of_seqZ)%list_elem_of_fmap (row' & Ey & Hr'%elem_of_seqZ)%list_elem_of_fmap.
    pose proof (chunk_size_bound p Hp). pose proof (chunk_size_bound q Hq).
    apply list_elem_of_lookup in Hp as [i Hi], Hq as [j Hj].
    rewrite <- (id_chunk i p row), <- (id_chunk j q row') by (done || lia). by rewrite <- Ex, <- Ey.
  - intros p _. apply NoDup_fmap_2; [|apply NoDup_seqZ]. intros r r'. unfold row_id. lia.
  - apply (st_nodup _ _ _ _ Htable).
Qed.

Lemma ids_nonneg x : x ∈ ids → 0 ≤ x.
Proof.
  intros (p & row & Hp & Hr & ->)%elem_of_ids. pose proof (chunk_size_bound p Hp). apply list_elem_of_lookup in Hp as [i Hi].
  destruct (id_of_split i p row Hi); lia.
Qed.

Lemma class_bucket_range c : 0 ≤ class_bucket c < 2 ^ k.
Proof. pose proof (st_bits _ _ _ _ Htable). unfold class_bucket. rewrite land_mask by lia. apply Z.mod_pos_bound, Z.pow_pos_nonneg; lia. Qed.

(** ** Reading and writing *)

Lemma read_represented m a p : represents m a → p ∈ pub →
  ∃ links, read_chunk m p = Ok (set_chunk_links (chunk_of p) links) ∧ zlength links = 1024 ∧
    ∀ row, 0 ≤ row < 1024 → zget 0 links row = ln_link a (id_of p row).
Proof. intros Hm Hp. destruct (rp_chunks _ _ Hm p Hp) as (links & E & Hl). exists links. split; [by apply read_chunk_at|done]. Qed.

Lemma chunk_bucket_of m a p row : represents m a → p ∈ pub → 0 ≤ row < 1024 →
  chunk_bucket m (zget 0 (ch_hashes (chunk_of p)) row) = bucket_of chunk_base id_class class_bucket p row.
Proof.
  intros Hm Hp Hr. unfold chunk_bucket, bucket_of, class_bucket. rewrite id_class_of by done. rewrite (rp_shared _ _ Hm).
  cbn [ps_nbuckets set_flags set_counters]. by rewrite (st_nbuckets _ _ _ _ Htable).
Qed.

Lemma row_chunk_ok m a l p row :
  represents m a → mapped l → p ∈ pub → 0 ≤ row < 1024 → row_chunk l m (id_of p row) = Ok (p, row).
Proof.
  intros Hm [Hd _] Hp Hr. assert (Hne : pub ≠ []) by (intros ->; by apply not_elem_of_nil in Hp).
  apply list_elem_of_lookup in Hp as [i Hi]. destruct (id_of_split i p row Hi Hr) as (E1 & E2 & _).
  pose proof (lookup_lt_Some _ _ _ Hi). unfold row_chunk, PARALLEL_BUILD_CHUNK_ROWS. rewrite E1, E2, (rp_shared _ _ Hm).
  cbn [ps_nchunks set_flags set_counters]. rewrite (st_nchunks _ _ _ _ Htable). destruct (Z.leb_spec (zlength pub) (Z.of_nat i)); [lia|].
  cbn [raise_if]. rewrite bind_Ok. unfold read_directory. rewrite Hd, (rp_directory _ _ Hm Hne), bind_Ok.
  rewrite (aref_lookup _ _ p), bind_Ok; [done|lia|]. by rewrite Nat2Z.id.
Qed.

Lemma hash_read c row links : chunk_wf ncolumns c → 0 ≤ row < 1024 →
  aref (ch_hashes (set_chunk_links c links)) row = Ok (zget 0 (ch_hashes c) row).
Proof. intros [_ Hh _ _ _ _ _] Hr. cbn [ch_hashes set_chunk_links]. apply aref_ok. lia. Qed.

Lemma chunk_value_ok c links column row : chunk_wf ncolumns c → 0 ≤ column < ncolumns → 0 ≤ row < 1024 →
  chunk_value (set_chunk_links c links) column row = Ok (value_in (ch_values c) column row).
Proof. intros [_ _ _ _ Hv _ _] Hc Hr. unfold chunk_value, PARALLEL_BUILD_CHUNK_ROWS. cbn [ch_values set_chunk_links]. apply aref_ok. lia. Qed.

Lemma chunk_rows_match_ok c links row c' links' row' :
  chunk_wf ncolumns c → chunk_wf ncolumns c' → 0 ≤ row < 1024 → 0 ≤ row' < 1024 →
  chunk_rows_match inner_keys (set_chunk_links c links) row (set_chunk_links c' links') row' =
    Ok (bool_decide (chunk_class c' row' = chunk_class c row)).
Proof.
  intros Hc Hc' Hr Hr'. unfold chunk_rows_match. rewrite (hash_read c), (hash_read c'), !bind_Ok by done. unfold chunk_class.
  destruct (Z.eqb_spec (zget 0 (ch_hashes c') row') (zget 0 (ch_hashes c) row)) as [->|Hne].
  - rewrite (values_equal_ok _ _ (λ column, value_in (ch_values c) column row) (λ column, value_in (ch_values c') column row')).
    + f_equal. apply bool_decide_ext. split; [by intros ->|by intros [= ->]].
    + apply Forall_take, (Forall_impl _ _ _ Hkeys). intros column Hcol. split; by apply chunk_value_ok.
  - rewrite bool_decide_eq_false_2; [done|]. by intros [= ? _].
Qed.
Lemma id_of_inj p q row row' : p ∈ pub → q ∈ pub → 0 ≤ row < 1024 → 0 ≤ row' < 1024 →
  id_of p row = id_of q row' → p = q ∧ row = row'.
Proof.
  intros Hp Hq Hr Hr' E. apply list_elem_of_lookup in Hp as [i Hi], Hq as [j Hj].
  destruct (id_of_split i p row Hi Hr) as (_ & E1 & _), (id_of_split j q row' Hj Hr') as (_ & E2 & _).
  rewrite <- (id_chunk i p row), <- (id_chunk j q row') by done. rewrite E. split; [done|]. by rewrite <- E1, <- E2, E.
Qed.

Lemma write_link_ok m a p row head links :
  represents m a → p ∈ pub → 0 ≤ row < 1024 → zlength links = 1024 →
  (∀ row, 0 ≤ row < 1024 → zget 0 links row = ln_link a (id_of p row)) →
  represents (write_object m p (DsaChunk (set_chunk_links (chunk_of p) (<[Z.to_nat row := head]> links))))
    (mkLinks (<[id_of p row := head]> (ln_link a)) (ln_head a) (ln_next a) (ln_duplicates a)).
Proof.
  intros Hm Hp Hr Hlen Hlinks. pose proof Hm as [Hc (heads & Hb & Hbl & Hbh) Hd Hs].
  destruct (Hc p Hp) as (links0 & Hp0 & _). split; cbn [ln_link ln_head ln_next ln_duplicates sm_heap sm_shared write_object with_heap].
  - intros q Hq. destruct (decide (q = p)) as [->|Hne].
    + exists (<[Z.to_nat row := head]> links). split; [by rewrite lookup_insert_eq|]. split; [by rewrite length_insert|].
      intros r Hrr. rewrite zget_insert by lia. case_decide as E; [by rewrite E, fn_lookup_insert|].
      rewrite fn_lookup_insert_ne; [by apply Hlinks|]. by intros [_ ?]%id_of_inj.
    + destruct (Hc q Hq) as (l & El & Hl & Hget). exists l. rewrite lookup_insert_ne by done. split; [done|]. split; [done|].
      intros r Hrr. rewrite fn_lookup_insert_ne; [by apply Hget|]. intros [? _]%id_of_inj; done.
  - exists heads. rewrite lookup_insert_ne; [done|]. intros E. rewrite E in Hp0. congruence.
  - intros Hne. specialize (Hd Hne). rewrite lookup_insert_ne; [done|]. intros E. rewrite E in Hp0. congruence.
  - done.
Qed.

Lemma write_head_ok m a heads b head :
  represents m a → sm_heap m !! ps_buckets (sm_shared m0) = Some (DsaBuckets heads) → zlength heads = 2 ^ k →
  (∀ b, 0 ≤ b < 2 ^ k → zget 0 heads b = ln_head a b) → 0 ≤ b < 2 ^ k →
  represents (write_object m (ps_buckets (sm_shared m0)) (DsaBuckets (<[Z.to_nat b := head]> heads)))
    (mkLinks (ln_link a) (<[b := head]> (ln_head a)) (ln_next a) (ln_duplicates a)).
Proof.
  intros [Hc _ Hd Hs] Hb Hbl Hbh Hbr. split; cbn [ln_link ln_head ln_next ln_duplicates sm_heap sm_shared write_object with_heap].
  - intros q Hq. destruct (Hc q Hq) as (l & El & Hl). exists l. rewrite lookup_insert_ne; [done|]. intros E. rewrite E in Hb. congruence.
  - eexists; split; [by apply lookup_insert_eq|]. rewrite length_insert. split; [done|]. intros c Hcr.
    rewrite zget_insert by lia. case_decide as E; [by rewrite E, fn_lookup_insert|]. rewrite fn_lookup_insert_ne by done. by apply Hbh.
  - intros Hne. specialize (Hd Hne). rewrite lookup_insert_ne; [done|]. intros E. rewrite E in Hb. congruence.
  - done.
Qed.

(** Shared counters and the flag. *)
Lemma write_shared_ok m a next dup :
  represents m a →
  represents (with_shared m (set_flags (set_counters (sm_shared m0) (ps_allocated_bytes (sm_shared m0))
      (ps_build_rows (sm_shared m0)) next) (ps_spilled (sm_shared m0)) dup))
    (mkLinks (ln_link a) (ln_head a) next dup).
Proof. by intros []. Qed.

(** ** The steps *)

Abbreviation links_inv := (linked pub chunk_base chunk_size id_class class_bucket).

Lemma build_step_ok m a l pc pcs chains inserted :
  represents m a → mapped l → links_inv (pc :: pcs) a chains inserted → ln_next a + 1 < 2 ^ 32 →
  ∃ m', build_step inner_keys l pc m = Ok ((step pc a).1, m') ∧ represents m' (step pc a).2.
Proof.
  intros Hm Hl Hlk Hnext. pose proof (li_pcs _ _ _ _ _ _ _ _ _ Hlk) as [Hpc _]%Forall_cons.
  pose proof (li_next _ _ _ _ _ _ _ _ _ Hlk) as [Hn0 _]. pose proof Hl as [Hld Hlb].
  pose proof (rp_shared _ _ Hm) as Hs. pose proof (st_nchunks _ _ _ _ Htable) as Hnch.
  destruct (rp_buckets _ _ Hm) as (heads & Hb & Hbl & Hbh).
  assert (Hrow : ∀ p row, 0 ≤ row < chunk_size p ∧ p ∈ pub → 0 ≤ row < 1024 ∧ chunk_wf ncolumns (chunk_of p)).
  { intros p row [Hr Hp]. pose proof (chunk_size_bound p Hp). split; [lia|]. apply list_elem_of_lookup in Hp as [i Hi]. by apply (chunk_of_at i). }
  assert (Hhead : ∀ p row, 0 ≤ row < 1024 → p ∈ pub →
    aref heads (chunk_bucket m (zget 0 (ch_hashes (chunk_of p)) row)) = Ok (ln_head a (bucket_of chunk_base id_class class_bucket p row))).
  { intros p row Hr Hp. rewrite (chunk_bucket_of m a) by done. pose proof (class_bucket_range (id_class (row_id chunk_base p row))) as Hrange.
    unfold bucket_of. rewrite (aref_ok 0) by lia. by rewrite Hbh. }
  assert (Hrb : read_buckets m (lo_buckets l) = Ok heads) by (unfold read_buckets; by rewrite Hlb, Hb).
  destruct pc as [|p row|p row head|p row head|p row|p row link|p row|]; cbn [build_step link_step].
  - rewrite Hs. cbn [ps_next_chunk ps_nchunks ps_allocated_bytes ps_build_rows ps_directory set_flags set_counters].
    rewrite Hnch. unfold to_u32. rewrite Z.mod_small by lia.
    destruct (Z.leb_spec (zlength pub) (ln_next a)) as [Hge|Hlt].
    + eexists; split; [done|]. by apply (write_shared_ok m a (ln_next a + 1) (ln_duplicates a)).
    + assert (Hne : pub ≠ []) by (intros E; rewrite E in Hlt; cbn in Hlt; lia).
      unfold read_directory. cbn [sm_heap with_shared]. rewrite (rp_directory _ _ Hm Hne), bind_Ok, (aref_ok 0), bind_Ok by lia.
      eexists; split; [done|]. by apply (write_shared_ok m a (ln_next a + 1) (ln_duplicates a)).
  - destruct Hpc as [Hr Hp]. destruct (read_represented m a p Hm Hp) as (links & -> & Hlen & Hget). rewrite bind_Ok.
    change (ch_nrows (set_chunk_links (chunk_of p) links)) with (chunk_size p).
    destruct (Z.leb_spec (chunk_size p) row); [by exists m|]. destruct (Hrow p row) as [Hr' Hwf]; [split; [lia|done]|].
    rewrite (hash_read _ _ _ Hwf), bind_Ok, Hrb, bind_Ok, Hhead, bind_Ok by done. by exists m.
  - destruct (Hrow p row Hpc) as [Hr' Hwf]. destruct Hpc as [Hr Hp]. destruct (read_represented m a p Hm Hp) as (links & -> & Hlen & Hget).
    rewrite bind_Ok. cbn [ch_links set_chunk_links]. rewrite aset_ok, bind_Ok by lia. eexists; split; [done|]. by apply write_link_ok.
  - destruct Hpc as [Hpc Hlink]. destruct (Hrow p row Hpc) as [Hr' Hwf]. destruct Hpc as [Hr Hp].
    destruct (read_represented m a p Hm Hp) as (links & -> & Hlen & Hget).
    rewrite bind_Ok, (hash_read _ _ _ Hwf), bind_Ok, Hrb, bind_Ok, Hhead, bind_Ok by done.
    destruct (ln_head a _ =? head); [|by exists m]. rewrite (chunk_bucket_of m a) by done.
    pose proof (class_bucket_range (id_class (row_id chunk_base p row))) as Hrange.
    rewrite aset_ok, bind_Ok by (unfold bucket_of; lia). rewrite Hlb. cbn [ch_index set_chunk_links fst snd].
    assert (Hid : to_u32 (to_u32 (ch_index (chunk_of p) * PARALLEL_BUILD_CHUNK_ROWS + row) + 1) = id_of p row + 1).
    { pose proof (st_ids _ _ _ _ Htable). apply list_elem_of_lookup in Hp as [i Hi]. destruct (id_of_split i p row Hi Hr') as (_ & _ & Hb').
      change (ch_index (chunk_of p) * PARALLEL_BUILD_CHUNK_ROWS + row) with (id_of p row).
      unfold to_u32. rewrite (Z.mod_small (id_of p row)), Z.mod_small by lia. done. }
    rewrite Hid. eexists; split; [done|]. by apply write_head_ok.
  - destruct Hpc as [Hpc _]. destruct (Hrow p row Hpc) as [Hr' Hwf]. destruct Hpc as [Hr Hp].
    destruct (read_represented m a p Hm Hp) as (links & -> & Hlen & Hget).
    rewrite bind_Ok. cbn [ch_links set_chunk_links]. rewrite (aref_ok 0), bind_Ok, Hget, Hs by lia. by exists m.
  - destruct Hpc as [Hpc (before & skipped & rest & E & -> & _)]. destruct (Hrow p row Hpc) as [Hr' Hwf]. destruct Hpc as [Hr Hp].
    destruct rest as [|y rest]; cbn [chain_head]; [by exists m|].
    assert (Hy : y ∈ ids).
    { assert (Hyc : y ∈ chains (bucket_of chunk_base id_class class_bucket p row)) by (rewrite E; set_solver).
      apply (li_chain _ _ _ _ _ _ _ _ _ Hlk) in Hyc as [Hyc _]. rewrite <- (li_ids _ _ _ _ _ _ _ _ _ Hlk). set_solver. }
    pose proof (ids_nonneg y Hy). rewrite (proj2 (Z.eqb_neq _ _)) by lia. rewrite Z.add_simpl_r.
    apply elem_of_ids in Hy as (q & row' & Hq & Hr2 & ->). destruct (Hrow q row') as [Hr2' Hwf']; [done|].
    destruct (read_represented m a p Hm Hp) as (links & -> & Hlen & Hget). rewrite bind_Ok.
    rewrite (row_chunk_ok m a), bind_Ok by done.
    destruct (read_represented m a q Hm Hq) as (links' & -> & Hlen' & Hget'). rewrite bind_Ok.
    rewrite chunk_rows_match_ok, bind_Ok by done. rewrite <- !id_class_of by done.
    case_bool_decide; cbn [fst snd]; [by exists m|]. cbn [ch_links set_chunk_links]. rewrite (aref_ok 0), bind_Ok, Hget' by lia. by exists m.
  - rewrite Hs. cbn [ps_spilled set_flags set_counters]. eexists; split; [done|]. by apply (write_shared_ok m a (ln_next a) true).
  - by exists m.
Qed.
End build.
