(* ===== verification/ParallelProbe.v ===== *)
(** * Probing the shared table

    All interleavings of the linking steps, and what lookups in the finished
    table find: the rows of the build side with the keys of the probe row. *)

From stdpp Require Import functions.
From S2P Require Import Prelude Words Selection Vector Kernels Int4 Hash Spill JoinStore JoinStoreProps JoinDirectory JoinBuild JoinBuildProps ParallelHash ParallelChunk ParallelShared ParallelSetup ParallelLinks ParallelBuild.

Section probe.
Context `{PgCore} `{DsaArea}.
Context (ncolumns : Z) (keys : list (Z * Z)).
Abbreviation inner_keys := (keys.*1).

Abbreviation builder := (build_pc * ParallelHashJoinLocal)%type.

(** A step of a participant that has not finished. *)
Inductive build_moves : list builder * SharedMemory → list builder * SharedMemory → Prop :=
| build_move i pc l ps m pc' m' :
    ps !! i = Some (pc, l) → pc ≠ AtBuilt → build_step inner_keys l pc m = Ok (pc', m') →
    build_moves (ps, m) (<[i := (pc', l)]> ps, m').

(** ** Interleavings *)

Section table.
Context (m0 : SharedMemory) (pub : list Z) (k : Z).
Context (Htable : shared_table ncolumns m0 pub k) (Hkeys : Forall (λ c, 0 ≤ c < ncolumns) inner_keys).

Abbreviation base := (chunk_base m0).
Abbreviation size := (chunk_size m0).
Abbreviation cls := (id_class inner_keys m0 pub).
Abbreviation bucket := (class_bucket k).
Abbreviation ids := (all_ids pub base size).
Abbreviation links_inv := (linked pub base size cls bucket).

(** [mu] bounds the steps that are left. *)
Definition building (mu : Z) (ps : list builder) (m : SharedMemory) : Prop :=
  ∃ a chains inserted, links_inv ps.*1 a chains inserted ∧ represents m0 pub k m a ∧ Forall (λ x, mapped m0 x.2) ps ∧
    measure pub base size cls bucket (zlength ids) (zlength ids + 6 + 2 * zlength ps) chains ps.*1 a ≤ mu.

Lemma building_next mu ps m i pc l :
  building mu ps m → zlength ps ≤ 2 ^ 20 → ps !! i = Some (pc, l) → pc ≠ AtBuilt →
  ∃ pc' m', build_step inner_keys l pc m = Ok (pc', m') ∧ building (mu - 1) (<[i := (pc', l)]> ps) m'.
Proof using Htable Hkeys.
  intros (a & chains & inserted & Hl & Hm & Hmap & Hmu) Hps Hi Hne.
  pose proof (delete_Permutation _ _ _ Hi) as Hp. set (rest := delete i ps) in *.
  assert (Hp1 : ps.*1 ≡ₚ pc :: rest.*1) by (rewrite Hp; done).
  assert (Hlen : zlength ps = zlength rest.*1 + 1) by (rewrite Hp, length_fmap; cbn; lia).
  pose proof (linked_perm _ _ _ _ _ _ _ _ _ _ Hp1 Hl) as Hl1.
  rewrite (measure_perm _ _ _ _ _ _ _ _ _ _ _ Hp1) in Hmu.
  assert (Hl2 : mapped m0 l) by (eapply Forall_lookup_1 in Hmap; [|exact Hi]; done).
  pose proof (li_next _ _ _ _ _ _ _ _ _ Hl1) as Hnext. pose proof (st_ids _ _ _ _ Htable).
  assert (Hcount : built_count (pc :: rest.*1) ≤ zlength ps).
  { unfold built_count. pose proof (length_filter (λ pc, pc = AtBuilt) (pc :: rest.*1)). cbn [length] in *. lia. }
  destruct (build_step_ok ncolumns inner_keys m0 pub k Htable Hkeys m a l pc rest.*1 chains inserted Hm Hl2 Hl1)
    as (m' & E & Hm'); [lia|].
  destruct (linked_step pub base size cls bucket (ids_nodup ncolumns m0 pub k Htable) (chunk_size_nonneg ncolumns m0 pub k Htable)
    (ids_nonneg ncolumns m0 pub k Htable) pc rest.*1 a chains inserted (zlength ids) (zlength ids + 6 + 2 * zlength ps))
    as (chains' & inserted' & Hl' & Hmu'); [done|done|done|lia|].
  destruct (link_step pub base size cls bucket pc a) as [pc' a'] eqn:Es. cbn [fst snd] in *.
  exists pc', m'. split; [done|]. assert (Hp2 : (<[i := (pc', l)]> ps).*1 ≡ₚ pc' :: rest.*1).
  { rewrite (insert_Permutation ps i (pc, l) (pc', l)) by done. done. }
  exists a', chains', inserted'. split; [by apply (linked_perm _ _ _ _ _ _ _ _ _ _ (symmetry Hp2))|]. split; [done|]. split.
  - by apply Forall_insert.
  - rewrite (measure_perm _ _ _ _ _ _ _ _ _ _ _ Hp2), length_insert. lia.
Qed.

Lemma build_moves_length c c' : build_moves c c' → length c'.1 = length c.1.
Proof. intros []. cbn. by rewrite length_insert. Qed.

Lemma building_move mu c c' :
  building mu c.1 c.2 → zlength c.1 ≤ 2 ^ 20 → build_moves c c' → building (mu - 1) c'.1 c'.2.
Proof using Htable Hkeys.
  intros Hb Hps Hm. destruct Hm as [i pc l ps m pc' m' Hi Hne E]. cbn [fst snd] in *.
  destruct (building_next mu ps m i pc l Hb Hps Hi Hne) as (pc1 & m1 & E1 & Hb1). rewrite E in E1. by injection E1 as -> ->.
Qed.

Lemma building_steps mu n c c' :
  building mu c.1 c.2 → zlength c.1 ≤ 2 ^ 20 → nsteps build_moves n c c' →
  building (mu - Z.of_nat n) c'.1 c'.2 ∧ length c'.1 = length c.1.
Proof using Htable Hkeys.
  intros Hb Hps Hn. revert mu Hb. induction Hn as [c|n c1 c2 c3 Hm _ IH]; intros mu Hb; [by rewrite Z.sub_0_r|].
  pose proof (build_moves_length _ _ Hm) as Hlen. rewrite Hlen in IH. destruct (IH Hps (mu - 1)) as [Hb' ->].
  { by eapply building_move. }
  split; [|done]. by replace (mu - Z.of_nat (S n)) with (mu - 1 - Z.of_nat n) by lia.
Qed.

Lemma building_nonneg mu ps m : building mu ps m → 0 ≤ mu.
Proof using Htable Hkeys.
  intros (a & chains & inserted & _ & _ & _ & Hmu). etrans; [|exact Hmu]. apply measure_nonneg; lia.
Qed.

(** The bound for participants that begin together. *)
Definition build_bound (nps : Z) : Z := (zlength ids + 6 + 2 * nps) * zlength ids + 5 * zlength pub + nps.

Lemma building_init (ls : list ParallelHashJoinLocal) :
  Forall (mapped m0) ls →
  sm_heap m0 !! ps_buckets (sm_shared m0) = Some (DsaBuckets (replicate (Z.to_nat (2 ^ k)) 0)) →
  ps_next_chunk (sm_shared m0) = 0 → ps_has_duplicates (sm_shared m0) = false →
  building (build_bound (zlength ls)) ((λ l, (AtClaim, l)) <$> ls) m0.
Proof using Htable Hkeys.
  intros Hls Hb Hn Hd. set (link := λ id, zget 0 (ch_links (chunk_of m0 (zget 0 pub (id / 1024)))) (id mod 1024)).
  assert (Hpcs : ((λ l, (AtClaim, l)) <$> ls).*1 = replicate (length ls) AtClaim).
  { clear. induction ls as [|l ls IH]; [done|]. cbn. by f_equal. }
  exists (mkLinks link (λ _, 0) 0 false), (λ _, []), []. rewrite Hpcs. split; [by apply linked_init; [apply (ids_nodup ncolumns m0 pub k)|apply (chunk_size_nonneg ncolumns m0 pub k)|apply (ids_nonneg ncolumns m0 pub k)]|].
  split; [|split].
  - split; cbn [ln_link ln_head ln_next ln_duplicates].
    + intros p Hp. apply list_elem_of_lookup in Hp as [i Hi].
      destruct (chunk_of_at ncolumns m0 pub k Htable i p Hi) as (Hc & Hwf & _ & _). exists (ch_links (chunk_of m0 p)).
      split; [rewrite Hc; by destruct (chunk_of m0 p)|]. split; [by destruct Hwf|]. intros row Hr. unfold link.
      rewrite (id_chunk ncolumns m0 pub k Htable i p row) by done.
      by destruct (id_of_split ncolumns m0 pub k Htable i p row Hi Hr) as (_ & -> & _).
    + eexists; split; [exact Hb|]. pose proof (st_bits _ _ _ _ Htable). pose proof (Z.pow_pos_nonneg 2 k).
      rewrite length_replicate. split; [lia|]. intros b Hbr. apply zget_replicate. lia.
    + apply (st_directory _ _ _ _ Htable).
    + destruct (sm_shared m0). cbn in *. by rewrite Hn, Hd.
  - by apply Forall_fmap.
  - unfold measure, build_bound. cbn [ln_next ln_head]. rewrite init_cost, length_fmap.
    assert (length (todo pub base size (replicate (length ls) AtClaim) (mkLinks link (λ _, 0) 0 false)) = length ids) as ->; [|lia].
    pose proof (li_ids _ _ _ _ _ _ _ _ _ (linked_init pub base size cls bucket (ids_nodup ncolumns m0 pub k Htable)
      (chunk_size_nonneg ncolumns m0 pub k Htable) (ids_nonneg ncolumns m0 pub k Htable) (length ls) link)) as Hids.
    rewrite app_nil_r in Hids. by rewrite Hids.
Qed.
(** ** The rows of the table *)

Definition row_of (id : Z) : build_row := chunk_row ncolumns (chunk_of m0 (zget 0 pub (id / 1024))) (id mod 1024).

Lemma rows_of_ids : row_of <$> ids = concat (held ncolumns m0 <$> pub).
Proof using Htable Hkeys.
  unfold all_ids. assert (Hall : ∀ p, p ∈ pub → row_of <$> rows_from base size p 0 = held ncolumns m0 p).
  { intros p (i & Hi)%list_elem_of_lookup. destruct (chunk_of_at ncolumns m0 pub k Htable i p Hi) as (Hc & Hwf & _ & _).
    rewrite (held_chunk _ _ _ _ Hc). unfold rows_from, chunk_rows. rewrite Z.sub_0_r, <- list_fmap_compose.
    apply list_fmap_ext. intros j row Hr%list_elem_of_lookup_2%elem_of_seqZ. unfold compose, row_of.
    destruct Hwf as [Hn _ _ _ _ _ _]. unfold chunk_size in Hr. rewrite (id_chunk ncolumns m0 pub k Htable i p row) by (done || lia).
    by destruct (id_of_split ncolumns m0 pub k Htable i p row Hi ltac:(lia)) as (_ & -> & _). }
  assert (Hsub : ∀ l : list Z, (∀ p, p ∈ l → p ∈ pub) → row_of <$> (l ≫= λ p, rows_from base size p 0) = concat (held ncolumns m0 <$> l)).
  { induction l as [|p l IH]; intros Hl; [done|]. rewrite bind_cons, fmap_app, fmap_cons. cbn [concat].
    rewrite Hall, IH; [done|set_solver..]. }
  by apply Hsub.
Qed.

(** The class of a row is its hash and its keys but the last. *)
Lemma class_keys id ws :
  row_keys inner_keys (row_of id) = Some <$> ws → (row_of id).1 = keys_hash ws → cls id = (keys_hash ws, key_prefix ws).
Proof using Htable Hkeys.
  intros Hk Hh. unfold id_class, chunk_class. set (c := chunk_of m0 _) in *. f_equal; [exact Hh|].
  rewrite <- key_prefix_fmap. f_equal. apply list_eq. intros j. rewrite list_lookup_fmap.
  assert (Hj : row_keys inner_keys (row_of id) !! j = Some <$> ws !! j) by by rewrite Hk, list_lookup_fmap.
  unfold row_keys in Hj. rewrite list_lookup_fmap in Hj. destruct (inner_keys !! j) as [column|] eqn:Ec; [|by destruct (ws !! j)].
  cbn [fmap option_fmap option_map] in *. destruct (ws !! j) as [v|]; [|done]. injection Hj as Hv. f_equal.
  eapply Forall_lookup_1 in Hkeys; [|exact Ec]. unfold row_of, chunk_row in Hv. cbn [snd] in Hv. fold c in Hv.
  unfold zget in Hv. rewrite list_lookup_fmap, lookup_seqZ_lt in Hv by lia. cbn in Hv. rewrite Z2Nat.id, Z.add_0_l in Hv by lia.
  unfold array_cell in Hv. destruct (word_bit _ _ _); [|done]. by injection Hv as <-.
Qed.

Lemma class_matches `{!ReversibleHash} id vs :
  keyed inner_keys (row_of id) → length vs = length inner_keys → Forall is_s32 vs →
  cls id = (keys_hash vs, key_prefix vs) ↔ row_keys inner_keys (row_of id) = Some <$> vs.
Proof using Htable Hkeys.
  intros (ws & Hk & Hs & Hh) Hlen Hvs. rewrite (class_keys id ws Hk Hh), Hk.
  assert (length ws = length inner_keys) by by eapply keyed_length.
  rewrite same_class_keys by (done || lia). split; [by intros ->|]. by intros E%(inj (fmap Some)).
Qed.

(** ** Lookups *)

Lemma probe_keys_match_ok value f n columns row ks ws :
  0 ≤ row < n → Forall (λ c, value c = Ok (f c)) ks.*1 →
  Forall2 (λ c v, 0 ≤ c ∧ ∃ input, columns !! Z.to_nat c = Some input ∧ input_ok n input ∧ cell (ic_vector input) row = Some v)
    ks.*2 ws →
  probe_keys_match value columns row ks = Ok (bool_decide (f <$> ks.*1 = ws)).
Proof.
  intros Hr. revert ws. induction ks as [|[c1 c2] ks IH]; intros ws Hv Hw; cbn in Hv, Hw.
  { by apply Forall2_nil_inv_l in Hw as ->. }
  apply Forall2_cons_inv_l in Hw as (v & ws' & (Hc & input & Hi & Hok & Hcell) & Hw & ->). apply Forall_cons in Hv as [Hv Hvs].
  cbn [probe_keys_match]. rewrite (aref_lookup _ _ input), bind_Ok by done.
  destruct (input_value_ok n input row Hok Hr) as ([u isnull] & -> & Hg & _). rewrite bind_Ok. rewrite Hcell in Hg.
  unfold got in Hg. cbn in Hg. destruct isnull; [done|]. injection Hg as ->. rewrite Hv, bind_Ok. cbn [fmap list_fmap fst].
  destruct (Z.eqb_spec (f c1) v) as [<-|Hne].
  - rewrite (IH ws') by done. f_equal. apply bool_decide_ext. split; [by intros ->|by intros [= ?]].
  - rewrite bool_decide_eq_false_2; [done|]. by intros [= ? _].
Qed.

(** The part of a chain from the first row of a class on. *)
Fixpoint first_match (c : Z * list Z) (l : list Z) : list Z :=
  match l with
  | [] => []
  | x :: l' => if decide (cls x = c) then l else first_match c l'
  end.

(** The table when everybody is done. *)
Record finished (m : SharedMemory) (chains : Z → list Z) : Prop := {
  fi_links : ∃ a, represents m0 pub k m a ∧ (∀ b, ln_head a b = chain_head (chains b)) ∧
    ∀ b before x after, chains b = before ++ x :: after → ln_link a x = chain_head after;
  fi_nodup : ∀ b, NoDup (chains b);
  fi_elem : ∀ b x, x ∈ chains b ↔ x ∈ ids ∧ bucket (cls x) = b;
  fi_unique : ps_has_duplicates (sm_shared m) = false ↔ NoDup (cls <$> ids);
}.

Lemma building_finished mu ps m :
  building mu ps m → ps ≠ [] → Forall (λ x, x.1 = AtBuilt) ps → ∃ chains, finished m chains.
Proof using Htable Hkeys.
  intros (a & chains & inserted & Hl & Hm & _ & _) Hne Hb. exists chains.
  destruct (linked_final pub base size cls bucket (ids_nodup ncolumns m0 pub k Htable) (chunk_size_nonneg ncolumns m0 pub k Htable)
    (ids_nonneg ncolumns m0 pub k Htable) ps.*1 a chains inserted Hl) as [Hch Hdup].
  - intros E. by apply fmap_nil_inv in E.
  - by apply Forall_fmap.
  - split.
    + exists a. split; [done|]. split; [apply (li_head _ _ _ _ _ _ _ _ _ Hl)|apply (li_link _ _ _ _ _ _ _ _ _ Hl)].
    + intros b. apply Hch.
    + intros b. apply Hch.
    + by rewrite (rp_shared _ _ _ _ _ Hm).
Qed.
(** Reading the row of an identifier. *)
Lemma finished_read m chains l x :
  finished m chains → mapped m0 l → x ∈ ids →
  ∃ p row links, row_chunk l m x = Ok (p, row) ∧ read_chunk m p = Ok (set_chunk_links (chunk_of m0 p) links) ∧
    chunk_wf ncolumns (chunk_of m0 p) ∧ 0 ≤ row < 1024 ∧ zlength links = 1024 ∧
    cls x = chunk_class inner_keys (chunk_of m0 p) row ∧ row_of x = chunk_row ncolumns (chunk_of m0 p) row ∧
    ∀ before after, chains (bucket (cls x)) = before ++ x :: after → zget 0 links row = chain_head after.
Proof using Htable Hkeys.
  intros [(a & Hm & _ & Hlink) _ _ _] Hl Hx. apply (elem_of_ids m0 pub) in Hx as (p & row & Hp & Hr & ->).
  pose proof (chunk_size_bound ncolumns m0 pub k Htable p Hp). assert (Hr' : 0 ≤ row < 1024) by lia.
  destruct (read_represented m0 pub k m a p Hm Hp) as (links & E & Hlen & Hget). exists p, row, links.
  split; [by apply (row_chunk_ok ncolumns m0 pub k Htable m a)|]. split; [done|].
  pose proof (id_class_of ncolumns inner_keys m0 pub k Htable p row Hp Hr') as Hcls.
  apply list_elem_of_lookup in Hp as [i Hi]. destruct (chunk_of_at ncolumns m0 pub k Htable i p Hi) as (_ & Hwf & _).
  split; [done|]. split; [done|]. split; [done|]. split; [done|]. split.
  - unfold row_of. rewrite (id_chunk ncolumns m0 pub k Htable i p row) by done.
    by destruct (id_of_split ncolumns m0 pub k Htable i p row Hi Hr') as (_ & -> & _).
  - intros before after Eb. rewrite Hget by done. by eapply Hlink.
Qed.

Section lookup.
Context (m : SharedMemory) (chains : Z → list Z) (l : ParallelHashJoinLocal).
Context (Hfin : finished m chains) (Hmap : mapped m0 l) (Hlocal : lo_local_build l = false).
Context (n : Z) (columns : list InputColumn) (row : Z) (vs : list Z) (Hprobe : probe_keys n columns row keys.*2 vs).

Abbreviation probe_class := (keys_hash vs, key_prefix vs).
Abbreviation chain := (chains (bucket probe_class)).

Lemma match_links_ok fuel before rest :
  chain = before ++ rest → (length rest ≤ fuel)%nat →
  match_links fuel l m keys columns (keys_hash vs) row (chain_head rest) = Ok (chain_head (first_match probe_class rest)).
Proof using Htable Hkeys Hfin Hmap Hprobe Hlocal.
  revert fuel before. induction rest as [|x rest IH]; intros fuel before E Hfuel; [by destruct fuel|].
  destruct fuel as [|fuel]; [cbn in Hfuel; lia|]. cbn [chain_head match_links].
  assert (Hx : x ∈ ids ∧ bucket (cls x) = bucket probe_class) by (apply (fi_elem _ _ Hfin); rewrite E; set_solver).
  destruct Hx as [Hx Hb]. pose proof (ids_nonneg ncolumns m0 pub k Htable x Hx).
  rewrite (proj2 (Z.eqb_neq _ _)) by lia. rewrite Z.add_simpl_r.
  destruct (finished_read m chains l x Hfin Hmap Hx) as (p & r & links & -> & Hc & Hwf & Hr & Hlen & Hcls & _ & Hnext).
  rewrite bind_Ok, Hc, bind_Ok, (hash_read ncolumns _ _ _ Hwf), bind_Ok by done. destruct Hprobe as [Hrow Hpk].
  assert (Hm : (if zget 0 (ch_hashes (chunk_of m0 p)) r =? keys_hash vs
      then probe_keys_match (λ column, chunk_value (set_chunk_links (chunk_of m0 p) links) column r) columns row (key_prefix keys)
      else Ok false) = Ok (bool_decide (cls x = probe_class))).
  { rewrite Hcls. unfold chunk_class. destruct (Z.eqb_spec (zget 0 (ch_hashes (chunk_of m0 p)) r) (keys_hash vs)) as [->|Hne].
    - rewrite (probe_keys_match_ok _ (λ column, value_in (ch_values (chunk_of m0 p)) column r) n columns row (key_prefix keys) (key_prefix vs)).
      + f_equal. rewrite key_prefix_fmap. apply bool_decide_ext. split; [by intros ->|by intros [= ->]].
      + done.
      + rewrite <- key_prefix_fmap. apply Forall_take, (Forall_impl _ _ _ Hkeys). intros c Hcr. by apply (chunk_value_ok ncolumns).
      + rewrite <- key_prefix_fmap. unfold key_prefix. rewrite <- (Forall2_length _ _ _ Hpk). by apply Forall2_take.
    - rewrite bool_decide_eq_false_2; [done|]. by intros [= ? _]. }
  rewrite Hm, bind_Ok. cbn [first_match]. case_bool_decide as Ec.
  - by rewrite decide_True.
  - rewrite decide_False by done. cbn [ch_links set_chunk_links]. rewrite (aref_ok 0), bind_Ok by lia.
    rewrite Hb in Hnext. rewrite (Hnext before rest E). apply (IH fuel (before ++ [x])); [by rewrite <- app_assoc|cbn in Hfuel; lia].
Qed.

Lemma chain_fuel before rest : chain = before ++ rest → (length rest ≤ link_fuel m)%nat.
Proof using Htable Hkeys Hfin Hmap Hprobe Hlocal.
  intros E. unfold link_fuel. destruct (fi_links _ _ Hfin) as (a & Hm & _). rewrite (rp_shared _ _ _ _ _ Hm).
  cbn [ps_build_rows set_flags set_counters]. rewrite (st_build_rows _ _ _ _ Htable), <- rows_of_ids, length_fmap, Nat2Z.id.
  transitivity (length chain); [rewrite E, length_app; lia|]. apply submseteq_length, NoDup_submseteq; [apply (fi_nodup _ _ Hfin)|].
  intros x Hx. by apply (fi_elem _ _ Hfin) in Hx as [? _].
Qed.

Lemma find_head_ok store :
  parallel_hash_join_find_head l m store keys columns (keys_hash vs) row = Ok (chain_head (first_match probe_class chain)).
Proof using Htable Hkeys Hfin Hmap Hprobe Hlocal.
  unfold parallel_hash_join_find_head. rewrite Hlocal. destruct (fi_links _ _ Hfin) as (a & Hm & Hhead & _).
  destruct (rp_buckets _ _ _ _ _ Hm) as (heads & Hb & Hbl & Hbh). unfold read_buckets. destruct Hmap as [_ ->]. rewrite Hb, bind_Ok.
  assert (Hbk : chunk_bucket m (keys_hash vs) = bucket probe_class).
  { unfold chunk_bucket, class_bucket. rewrite (rp_shared _ _ _ _ _ Hm). cbn [ps_nbuckets set_flags set_counters fst].
    by rewrite (st_nbuckets _ _ _ _ Htable). }
  rewrite Hbk. pose proof (class_bucket_range ncolumns m0 pub k Htable probe_class) as Hrange.
  rewrite (aref_ok 0), bind_Ok, Hbh, Hhead by lia. apply (match_links_ok _ []); [done|]. by apply (chain_fuel []).
Qed.

Lemma shared_next_ok store before x after :
  chain = before ++ x :: after → cls x = probe_class →
  parallel_hash_join_next l m store keys columns x row = Ok (chain_head (first_match probe_class after)).
Proof using Htable Hkeys Hfin Hmap Hprobe Hlocal.
  intros E Hc. unfold parallel_hash_join_next. rewrite Hlocal.
  assert (Hx : x ∈ ids) by (apply (fi_elem _ _ Hfin (bucket probe_class)); rewrite E; set_solver).
  destruct (finished_read m chains l x Hfin Hmap Hx) as (p & r & links & -> & Hr' & Hwf & Hr & Hlen & Hcls & _ & Hnext).
  rewrite bind_Ok, Hr', bind_Ok, (hash_read ncolumns _ _ _ Hwf), bind_Ok by done. cbn [ch_links set_chunk_links].
  rewrite (aref_ok 0), bind_Ok by lia. rewrite Hc in Hnext. rewrite (Hnext before after E).
  rewrite Hcls in Hc. injection Hc as -> _. apply (match_links_ok _ (before ++ [x])); [by rewrite <- app_assoc|].
  apply (chain_fuel (before ++ [x])). by rewrite <- app_assoc.
Qed.
End lookup.

(** The value of a row in a column. *)
Lemma shared_value_ok m chains l store x column :
  finished m chains → mapped m0 l → lo_local_build l = false → x ∈ ids → 0 ≤ column < ncolumns →
  ∃ v, parallel_hash_join_build_value l m store column x = Ok v ∧ got v = zget None (row_of x).2 column.
Proof using Htable Hkeys.
  intros Hfin Hmap Hl Hx Hc. unfold parallel_hash_join_build_value. rewrite Hl.
  destruct (finished_read m chains l x Hfin Hmap Hx) as (p & r & links & -> & Hr' & Hwf & Hr & _ & _ & -> & _).
  rewrite bind_Ok, Hr', bind_Ok. pose proof Hwf as [_ _ _ Hbits _ Hu _]. cbn [ch_validity set_chunk_links].
  unfold PARALLEL_BUILD_CHUNK_ROWS. change (1024 / 64) with 16. rewrite (aref_ok 0), bind_Ok by zlia.
  rewrite land_bit64_zero by zlia. fold (word_bit (ch_validity (chunk_of m0 p)) column r).
  assert (Hcell : zget None (chunk_row ncolumns (chunk_of m0 p) r).2 column =
    array_cell (ch_values (chunk_of m0 p)) (ch_validity (chunk_of m0 p)) column r).
  { unfold chunk_row, zget. cbn [snd]. rewrite list_lookup_fmap, lookup_seqZ_lt by lia. cbn. by rewrite Z2Nat.id, Z.add_0_l by lia. }
  rewrite Hcell. unfold array_cell. destruct (word_bit _ _ _); cbn [negb]; [|by eexists].
  rewrite (chunk_value_ok ncolumns), bind_Ok by done. by eexists.
Qed.
End table.
End probe.
