(* ===== verification/ParallelJoin.v ===== *)
(** * The parallel hash join: what it guarantees

    From the participants' inputs to the answers of lookups, for every
    interleaving; that executions end; that memory stays within the shared
    budget; and what happens to a participant that comes too late. *)

From S2P Require Import Prelude Words Selection Vector Kernels Int4 Hash Spill JoinStore JoinStoreProps JoinDirectory JoinBuild JoinBuildProps ParallelHash ParallelChunk ParallelShared ParallelCollect ParallelInput ParallelSetup ParallelLinks ParallelBuild ParallelProbe.

(** Two functions that tell the same elements apart. *)
Lemma NoDup_fmap_same {A B C} (f : A → B) (g : A → C) (l : list A) :
  (∀ x y, x ∈ l → y ∈ l → f x = f y ↔ g x = g y) → NoDup (f <$> l) ↔ NoDup (g <$> l).
Proof.
  induction l as [|x l IH]; intros Hfg; [split; intros; constructor|]. rewrite !fmap_cons, !NoDup_cons, IH by (intros; apply Hfg; by right).
  assert (f x ∈ f <$> l ↔ g x ∈ g <$> l) as ->; [|done]. rewrite !list_elem_of_fmap.
  split; intros (y & E & Hy); exists y; (split; [|done]); apply Hfg; (done || (by left) || by right).
Qed.

(** A participant that has done nothing yet. *)
Definition new_local : ParallelHashJoinLocal :=
  mkLocal InvalidDsaPointer InvalidDsaPointer InvalidDsaPointer false false.

Section join.
Context `{PgCore} `{DsaArea}.

(** Participants, each with its share of the build side. *)
Definition collect_start (batches : list (list JoinInput)) : list (collect_pc * ParallelHashJoinLocal) :=
  (λ inputs, (AtInput inputs, new_local)) <$> batches.

(** Participants that have looked up the addresses of the table. *)
Definition build_start (ls : list ParallelHashJoinLocal) (m : SharedMemory) : list (build_pc * ParallelHashJoinLocal) :=
  (λ l, (AtClaim, map_shared_hash l m)) <$> ls.

(** The rows the join follows for a probe row, from the head on. *)
Fixpoint shared_matches (fuel : nat) (l : ParallelHashJoinLocal) (m : SharedMemory) (store : BuildStore)
    (keys : list (Z * Z)) (columns : list InputColumn) (row link : Z) : res (list Z) :=
  if link =? 0 then Ok [] else
  match fuel with
  | O => Undefined
  | S fuel =>
      next ← parallel_hash_join_next l m store keys columns (link - 1) row;
      rest ← shared_matches fuel l m store keys columns row next;
      Ok (link - 1 :: rest)
  end.

(** Row [x] of the table is the build row [r]. *)
Definition is_build_row (ncolumns : Z) (l : ParallelHashJoinLocal) (m : SharedMemory) (store : BuildStore)
    (x : Z) (r : build_row) : Prop :=
  ∀ column, 0 ≤ column < ncolumns →
    ∃ v, parallel_hash_join_build_value l m store column x = Ok v ∧ got v = zget None r.2 column.

(** A table of the rows [total]: lookups find the rows with the keys of the
    probe row, each once, and it is known whether keys repeat. *)
Record answers (ncolumns : Z) (keys : list (Z * Z)) (total : list build_row) (l : ParallelHashJoinLocal) (m : SharedMemory)
    (store : BuildStore) : Prop := {
  an_unique : parallel_hash_join_build_is_unique l store false = Ok (bool_decide (NoDup (row_keys keys.*1 <$> total)));
  an_lookup : ∀ n columns row vs, probe_keys n columns row keys.*2 vs →
    ∃ head found rows, parallel_hash_join_find_head l m store keys columns (keys_hash vs) row = Ok head ∧
      shared_matches (length total) l m store keys columns row head = Ok found ∧
      Forall2 (is_build_row ncolumns l m store) found rows ∧
      rows ≡ₚ filter (λ r, row_keys keys.*1 r = Some <$> vs) total;
}.

Section table.
Context (ncolumns : Z) (keys : list (Z * Z)) (m0 : SharedMemory) (pub : list Z) (k : Z).
Context (Htable : shared_table ncolumns m0 pub k) (Hkeys : Forall (λ c, 0 ≤ c < ncolumns) keys.*1).

Abbreviation ids := (all_ids pub (chunk_base m0) (chunk_size m0)).
Abbreviation cls := (id_class keys.*1 m0 pub).
Abbreviation row_at := (row_of ncolumns m0 pub).

Lemma shared_matches_ok m chains l store n columns row vs :
  finished keys m0 pub k m chains → mapped m0 l → lo_local_build l = false → probe_keys n columns row keys.*2 vs →
  ∀ rest before fuel, chains (class_bucket k (keys_hash vs, key_prefix vs)) = before ++ rest → (length rest ≤ fuel)%nat →
  shared_matches fuel l m store keys columns row (chain_head (first_match keys m0 pub (keys_hash vs, key_prefix vs) rest)) =
    Ok (filter (λ x, cls x = (keys_hash vs, key_prefix vs)) rest).
Proof using Htable Hkeys.
  intros Hfin Hmap Hloc Hp. set (c := (keys_hash vs, key_prefix vs)). induction rest as [|x rest IH]; intros before fuel E Hfuel.
  { by destruct fuel. }
  cbn [first_match]. rewrite filter_cons. assert (E' : chains (class_bucket k c) = (before ++ [x]) ++ rest) by by rewrite <- app_assoc.
  case_decide as Ec; [|apply (IH _ _ E'); cbn in Hfuel; lia].
  destruct fuel as [|fuel]; [cbn in Hfuel; lia|]. cbn [chain_head shared_matches].
  assert (Hx : x ∈ ids) by (apply (fi_elem _ _ _ _ _ _ Hfin (class_bucket k c)); rewrite E; set_solver).
  pose proof (ids_nonneg ncolumns m0 pub k Htable x Hx). rewrite (proj2 (Z.eqb_neq _ _)), Z.add_simpl_r by lia.
  rewrite (shared_next_ok ncolumns keys m0 pub k Htable Hkeys m chains l Hfin Hmap Hloc n columns row vs Hp store before x rest E Ec), bind_Ok.
  rewrite (IH _ _ E'), bind_Ok by (cbn in Hfuel; lia). done.
Qed.

Lemma finished_answers `{!ReversibleHash} m chains l store total :
  keys ≠ [] → finished keys m0 pub k m chains → mapped m0 l → lo_local_build l = false →
  lo_build_has_duplicates l = ps_has_duplicates (sm_shared m) →
  concat (held ncolumns m0 <$> pub) ≡ₚ total → Forall (keyed keys.*1) total →
  answers ncolumns keys total l m store.
Proof using Htable Hkeys.
  intros Hne Hfin Hmap Hloc Hdup Htotal Hkeyed. rewrite <- (rows_of_ids ncolumns keys m0 pub k Htable Hkeys) in Htotal.
  assert (Hid : ∀ x, x ∈ ids → keyed keys.*1 (row_at x)).
  { intros x Hx. rewrite Forall_forall in Hkeyed. apply Hkeyed. rewrite <- Htotal. by apply list_elem_of_fmap_2. }
  split.
  - unfold parallel_hash_join_build_is_unique. rewrite Hloc. cbn [negb assert_]. rewrite bind_Ok, Hdup. f_equal.
    assert (Hiff : NoDup (cls <$> ids) ↔ NoDup (row_keys keys.*1 <$> total)).
    { rewrite <- Htotal, <- list_fmap_compose. apply (NoDup_fmap_same cls (row_keys keys.*1 ∘ row_at)).
      intros x y Hx Hy. unfold compose. destruct (Hid y Hy) as (ws & Hk & Hs & Hh).
        rewrite (class_keys ncolumns keys m0 pub k Htable Hkeys y ws Hk Hh), Hk.
        apply (class_matches ncolumns keys m0 pub k Htable Hkeys x ws (Hid x Hx)); [by eapply keyed_length|done]. }
    pose proof (fi_unique _ _ _ _ _ _ Hfin) as Hu. destruct (ps_has_duplicates _); cbn [negb].
    + rewrite bool_decide_eq_false_2; [done|]. intros Hnd%Hiff%Hu. done.
    + rewrite bool_decide_eq_true_2; [done|]. by apply Hiff, Hu.
  - intros n columns row vs Hp. set (c := (keys_hash vs, key_prefix vs)). set (chain := chains (class_bucket k c)).
    assert (Hlen : length vs = length keys.*1) by (destruct Hp as [_ Hp]; apply Forall2_length in Hp; by rewrite !length_fmap in *).
    eexists _, (filter (λ x, cls x = c) chain), (row_at <$> filter (λ x, cls x = c) chain).
    split; [by apply (find_head_ok ncolumns keys m0 pub k Htable Hkeys m chains l Hfin Hmap Hloc n)|].
    assert (Hchain : ∀ x, x ∈ chain → x ∈ ids) by (intros x Hx; by apply (fi_elem _ _ _ _ _ _ Hfin) in Hx as [? _]).
    split; [|split].
    + apply (shared_matches_ok m chains l store n columns row vs Hfin Hmap Hloc Hp chain []); [done|].
      rewrite <- Htotal, length_fmap. apply submseteq_length, NoDup_submseteq; [apply (fi_nodup _ _ _ _ _ _ Hfin)|done].
    + apply Forall2_fmap_r, Forall_Forall2_diag, Forall_forall. intros x [_ Hx]%list_elem_of_filter column Hcol.
      by eapply (shared_value_ok ncolumns keys m0 pub k Htable Hkeys); [done|done|done|apply Hchain|].
    + rewrite <- Htotal. rewrite list_filter_fmap'. apply fmap_Permutation. unfold compose.
      rewrite (list_filter_iff' (λ x, row_keys keys.*1 (row_at x) = Some <$> vs) (λ x, cls x = c) ids).
      * apply NoDup_Permutation; [apply NoDup_filter, (fi_nodup _ _ _ _ _ _ Hfin)|apply NoDup_filter, (ids_nodup ncolumns m0 pub k Htable)|].
        intros x. rewrite !list_elem_of_filter. unfold chain. rewrite (fi_elem _ _ _ _ _ _ Hfin). naive_solver congruence.
      * intros x Hx. symmetry. apply (class_matches ncolumns keys m0 pub k Htable Hkeys); [by apply Hid|done|by eapply probe_keys_s32].
Qed.
End table.
(** ** From the start *)

(** The rows of the build side. *)
Definition parallel_rows (inner_keys : list Z) (batches : list (list JoinInput)) : list build_row :=
  batches ≫= λ inputs, concat (build_rows inner_keys <$> inputs).

Lemma partition_count_ok required : ∀ fuel j,
  1 ≤ j ≤ 10 → 10 - j ≤ Z.of_nat fuel → ∃ n, partition_count_loop fuel required (2 ^ j) = Ok n.
Proof.
  induction fuel as [|fuel IH]; intros j Hj Hf; cbn [partition_count_loop].
  - replace j with 10 by lia. rewrite andb_false_r. eauto.
  - destruct (_ && _) eqn:E; [|eauto]. apply andb_true_iff in E as [_ E%Z.ltb_lt].
    assert (j < 10) by (apply (Z.pow_lt_mono_r_iff 2); lia).
    replace (Z.shiftl (2 ^ j) 1) with (2 ^ (j + 1)) by (rewrite Z.shiftl_mul_pow2, Z.pow_add_r by lia; lia). apply IH; lia.
Qed.

Lemma initialize_ok planned memory_limit nworkers :
  planned ≤ 1 → 0 ≤ memory_limit → 0 ≤ nworkers → memory_limit * (nworkers + 1) < 2 ^ 36 →
  ∃ npartitions, initialize_shared_state planned memory_limit nworkers =
    Ok (mkShared (nworkers + 1) npartitions (memory_limit * (nworkers + 1)) 0 0 0 0 0 0 0 false false 0).
Proof.
  intros Hp Hm Hn Hl. unfold initialize_shared_state, shared_partition_count, next_partition_count.
  destruct (partition_count_ok (Z.max planned ((nworkers + 1) * 2)) 9 1) as (n & E); [lia|lia|]. change 2 with (2 ^ 1) at 2.
  rewrite E, bind_Ok. exists n. destruct (Z.ltb_spec (SIZE_MAX / (nworkers + 1)) memory_limit) as [Hlt|_].
  - exfalso. assert (memory_limit ≤ SIZE_MAX / (nworkers + 1)); [|lia]. apply Z.div_le_lower_bound; unfold SIZE_MAX; lia.
  - destruct (Z.ltb_spec 1 planned); [lia|done].
Qed.

Section parallel.
Context (ncolumns : Z) (keys : list (Z * Z)) (batches : list (list JoinInput)) (memory_limit : Z).
Context (Hncolumns : 0 ≤ ncolumns ≤ 1600) (Hne : keys ≠ []) (Hkeys : Forall (λ c, 0 ≤ c < ncolumns) keys.*1).
Context (Hbatches : Forall (Forall (join_input_ok ncolumns)) batches) (Hparticipants : 0 < zlength batches ≤ 2 ^ 20).
Context (Hrows : zlength (parallel_rows keys.*1 batches) ≤ max_build_rows).
Context (Hlimit0 : 0 ≤ memory_limit) (Hlimit : memory_limit * zlength batches < 2 ^ 36).

Abbreviation total := (parallel_rows keys.*1 batches).
Abbreviation limit := (memory_limit * zlength batches).
Abbreviation moves := (collect_moves ncolumns keys.*1).

Lemma total_keyed : Forall (keyed keys.*1) total.
Proof using All.
  unfold parallel_rows. apply Forall_forall. intros r (inputs & Hr & Hin)%list_elem_of_bind.
  rewrite Forall_forall in Hbatches. specialize (Hbatches inputs Hin).
  assert (Hall : Forall (keyed keys.*1) (concat (build_rows keys.*1 <$> inputs))).
  { apply Forall_concat, Forall_fmap. eapply Forall_impl; [exact Hbatches|]. intros b Hb. by eapply build_rows_keyed. }
  rewrite Forall_forall in Hall. by apply Hall.
Qed.

Lemma start_collecting npartitions :
  collecting ncolumns keys.*1 total limit (collect_start batches)
    (mkShm (mkShared (zlength batches) npartitions limit 0 0 0 0 0 0 0 false false 0) ∅).
Proof using All.
  unfold collect_start. split; cbn [sm_shared ps_memory_limit ps_next_chunk ps_has_duplicates ps_spilled]; try done.
  - apply Forall_fmap. exact Hbatches.
  - apply Forall_fmap. by apply Forall_forall.
  - intros (x & (inputs & -> & _)%list_elem_of_fmap & Hx)%Exists_exists. done.
  - exists [], []. assert (Hown : ((λ inputs, (AtInput inputs, new_local)) <$> batches) ≫= (λ x, owned x.2) = []).
    { clear. induction batches as [|inputs bs IH]; [done|]. cbn. exact IH. }
    assert (Hspill : spill_count ((λ inputs, (AtInput inputs, new_local)) <$> batches) = 0).
    { clear. induction batches as [|inputs bs IH]; [done|]. rewrite fmap_cons, spill_count_cons. cbn. exact IH. }
    rewrite Hown, Hspill. split.
    + split; cbn; try done; try constructor.
      * intros [? Hx]. by rewrite lookup_empty in Hx.
      * by intros ?%not_elem_of_nil.
      * apply not_elem_of_nil.
      * rewrite Z.mul_0_r. apply Z.mul_nonneg_nonneg; [done|lia].
      * lia.
      * lia.
    + cbn. unfold parallel_rows. clear. induction batches as [|inputs bs IH]; [done|].
      rewrite fmap_cons, !bind_cons. by apply Permutation_app_head.
Qed.

Lemma start_budget : budget_ok ncolumns limit (collect_start batches).
Proof using All.
  unfold budget_ok, collect_start. rewrite length_fmap. unfold reserved_bytes, chunk_bytes. nia.
Qed.

Lemma rows_small : zlength total < 2 ^ 32 - 2.
Proof using All. unfold max_build_rows in Hrows. lia. Qed.

(** All participants have collected, and nobody had to spill. *)
Lemma collected_rows ps m :
  collecting ncolumns keys.*1 total limit ps m → Forall (λ x, x.1 = AtCollected) ps →
  ∃ pub rows failed, shared_rows ncolumns m pub [] [] rows failed ∧ rows ≡ₚ total.
Proof.
  intros [_ Hco _ _ _ _ (pub & rows & Hs & Ht)] Hall. exists pub, rows, (spill_count ps).
  assert (Hown : (ps ≫= λ x, owned x.2) = []).
  { clear -Hco Hall. induction ps as [|x ps IH]; [done|]. apply Forall_cons in Hco as [Hx Hco], Hall as [Hx' Hall].
    rewrite bind_cons, IH by done. by rewrite owned_none by auto. }
  assert (Hpend : (ps ≫= λ x, pending keys.*1 x.1) = []).
  { clear -Hall. induction Hall as [|x ps Hx _ IH]; [done|]. by rewrite bind_cons, IH, Hx. }
  rewrite Hown in Hs. rewrite Hpend, app_nil_r in Ht. done.
Qed.

(** The table after any interleaving of the collecting steps. *)
Lemma collected_setup npartitions ps1 m1 :
  let m := mkShm (mkShared (zlength batches) npartitions limit 0 0 0 0 0 0 0 false false 0) ∅ in
  rtc moves (collect_start batches, m) (ps1, m1) →
  Forall (λ x, x.1 = AtCollected) ps1 → ps_spilled (sm_shared m1) = false →
  ∃ m2 pub k, setup_shared_hash m1 = Ok m2 ∧ shared_table ncolumns m2 pub k ∧
    sm_heap m2 !! ps_buckets (sm_shared m2) = Some (DsaBuckets (replicate (Z.to_nat (2 ^ k)) 0)) ∧
    concat (held ncolumns m2 <$> pub) ≡ₚ total ∧ ps_next_chunk (sm_shared m2) = 0 ∧ ps_has_duplicates (sm_shared m2) = false ∧
    (0 < ps_nchunks (sm_shared m2) → table_bytes ncolumns (ps_nchunks (sm_shared m2)) (ps_nbuckets (sm_shared m2)) ≤ limit).
Proof using All.
  intros m Hmoves Hall Hsp. assert (Hne' : keys.*1 ≠ []) by (intros E; by apply fmap_nil_inv in E).
  destruct (collecting_reachable ncolumns keys.*1 Hncolumns Hne' Hkeys total limit rows_small (collect_start batches, m) (ps1, m1) start_budget
    (start_collecting npartitions) Hmoves) as [Hc _]. cbn [fst snd] in Hc.
  destruct (collected_rows ps1 m1 Hc Hall) as (pub & rows & failed & Hs & Ht).
  assert (Hr : zlength rows ≤ max_build_rows) by by rewrite Ht.
  pose proof (co_limit _ _ _ _ _ _ Hc) as Hl.
  destruct (setup_ok ncolumns m1 pub rows failed ltac:(lia) Hs Hsp Hr) as (m2 & k & E & Htab & Hb & Hh & _ & Hn & Hd & _ & Hmem); [lia|].
  exists m2, pub, k. split_and!; try done.
  - by rewrite Hh.
  - by rewrite Hn, (co_next _ _ _ _ _ _ Hc).
  - by rewrite Hd, (co_duplicates _ _ _ _ _ _ Hc).
  - intros Hpos. rewrite <- Hl. apply Hmem. intros ->. rewrite (st_nchunks _ _ _ _ Htab) in Hpos. done.
Qed.
(** What is the same in all theorems: shared memory starts empty. *)
Lemma parallel_start planned :
  planned ≤ 1 → ∃ npartitions, initialize_shared_state planned memory_limit (zlength batches - 1) =
    Ok (mkShared (zlength batches) npartitions limit 0 0 0 0 0 0 0 false false 0).
Proof using All.
  intros Hp. destruct (initialize_ok planned memory_limit (zlength batches - 1)) as (n & E);
    rewrite ?Z.sub_add in *; [lia|lia|lia|done|eauto].
Qed.

(** Linking, from a table that has been set up. *)
Lemma build_start_building m2 pub k (ls : list ParallelHashJoinLocal) :
  shared_table ncolumns m2 pub k →
  sm_heap m2 !! ps_buckets (sm_shared m2) = Some (DsaBuckets (replicate (Z.to_nat (2 ^ k)) 0)) →
  ps_next_chunk (sm_shared m2) = 0 → ps_has_duplicates (sm_shared m2) = false →
  building keys m2 pub k (build_bound m2 pub (zlength ls)) (build_start ls m2) m2.
Proof using All.
  intros Htab Hb Hn Hd. unfold build_start.
  replace ((λ l, (AtClaim, map_shared_hash l m2)) <$> ls) with ((λ l, (AtClaim, l)) <$> ((λ l, map_shared_hash l m2) <$> ls))
    by (by rewrite <- list_fmap_compose).
  replace (zlength ls) with (zlength ((λ l, map_shared_hash l m2) <$> ls)) by by rewrite length_fmap.
  apply (building_init ncolumns keys m2 pub k Htab Hkeys); try done. apply Forall_fmap, Forall_forall. by intros.
Qed.

Lemma build_bound_rows m2 pub k nps :
  shared_table ncolumns m2 pub k → concat (held ncolumns m2 <$> pub) ≡ₚ total →
  build_bound m2 pub nps = (zlength total + 6 + 2 * nps) * zlength total + 5 * ps_nchunks (sm_shared m2) + nps.
Proof using All.
  intros Htab Ht. unfold build_bound. rewrite (st_nchunks _ _ _ _ Htab). rewrite <- Ht.
  rewrite <- (rows_of_ids ncolumns keys m2 pub k Htab Hkeys), length_fmap. done.
Qed.

(** C17. However the participants of a parallel build interleave, if none has to
    spill, the finished shared table answers every lookup of every participant:
    following the links from the head for a probe row returns the rows of the
    build side with its keys, each exactly once and with all its values, and
    the table says correctly whether keys repeat. *)
Theorem shared_build_spec `{!ReversibleHash} planned :
  planned ≤ 1 →
  ∃ shared, initialize_shared_state planned memory_limit (zlength batches - 1) = Ok shared ∧
  ∀ ps1 m1, rtc (collect_moves ncolumns keys.*1) (collect_start batches, mkShm shared ∅) (ps1, m1) →
    Forall (λ x, x.1 = AtCollected) ps1 → ps_spilled (sm_shared m1) = false →
  ∃ m2, setup_shared_hash m1 = Ok m2 ∧
  ∀ ls ps2 m3, 0 < zlength ls ≤ 2 ^ 20 → rtc (build_moves keys) (build_start ls m2, m2) (ps2, m3) →
    Forall (λ x, x.1 = AtBuilt) ps2 →
  ∀ l store, lo_local_build l = false →
    answers ncolumns keys (parallel_rows keys.*1 batches) (prepare_ready (map_shared_hash l m2) m3) m3 store.
Proof using All.
  intros Hp. destruct (parallel_start planned Hp) as (np & E). eexists; split; [exact E|].
  intros ps1 m1 Hm1 Hall Hsp. destruct (collected_setup np ps1 m1 Hm1 Hall Hsp) as (m2 & pub & k & Es & Htab & Hb & Ht & Hn & Hd & _).
  exists m2. split; [done|]. intros ls ps2 m3 Hls Hm3 Hbuilt l store Hl.
  apply rtc_nsteps in Hm3 as (n & Hm3).
  destruct (building_steps ncolumns keys m2 pub k Htab Hkeys _ n (build_start ls m2, m2) (ps2, m3)
    (build_start_building m2 pub k ls Htab Hb Hn Hd)) as [Hbl Hlen]; [unfold build_start; cbn [fst]; rewrite length_fmap; lia|done|].
  cbn [fst snd] in *. destruct (building_finished ncolumns keys m2 pub k Htab Hkeys _ ps2 m3 Hbl) as (chains & Hfin); [|done|].
  { intros ->. unfold build_start in Hlen. rewrite length_fmap in Hlen. cbn in Hlen. lia. }
  apply (finished_answers ncolumns keys m2 pub k Htab Hkeys m3 chains); [done|done|done|done|done|done|apply total_keyed].
Qed.

(** C18. A parallel build makes progress: in every interleaving, a participant
    that has not finished can take its next step without an error, and the
    executions of both phases are bounded, the second by a polynomial in the
    rows and the participants although its swaps are retried. *)
Theorem parallel_progress planned :
  planned ≤ 1 →
  ∃ shared, initialize_shared_state planned memory_limit (zlength batches - 1) = Ok shared ∧
  (∀ n ps1 m1, nsteps (collect_moves ncolumns keys.*1) n (collect_start batches, mkShm shared ∅) (ps1, m1) →
    Z.of_nat n ≤ collect_costs (collect_start batches) ∧
    ∀ i pc l, ps1 !! i = Some (pc, l) → running pc = true → ∃ r, collect_step ncolumns keys.*1 pc l m1 = Ok r) ∧
  ∀ ps1 m1, rtc (collect_moves ncolumns keys.*1) (collect_start batches, mkShm shared ∅) (ps1, m1) →
    Forall (λ x, x.1 = AtCollected) ps1 → ps_spilled (sm_shared m1) = false →
  ∃ m2, setup_shared_hash m1 = Ok m2 ∧
  ∀ ls n ps2 m3, 0 < zlength ls ≤ 2 ^ 20 → nsteps (build_moves keys) n (build_start ls m2, m2) (ps2, m3) →
    let rows := zlength (parallel_rows keys.*1 batches) in
    Z.of_nat n ≤ (rows + 6 + 2 * zlength ls) * rows + 5 * ps_nchunks (sm_shared m2) + zlength ls ∧
    ∀ i pc l, ps2 !! i = Some (pc, l) → pc ≠ AtBuilt → ∃ r, build_step keys.*1 l pc m3 = Ok r.
Proof using All.
  intros Hp. destruct (parallel_start planned Hp) as (np & E). eexists; split; [exact E|].
  assert (Hne' : keys.*1 ≠ []) by (intros En; by apply fmap_nil_inv in En). split.
  - intros n ps1 m1 Hn. split.
    + by apply (collect_terminates ncolumns keys.*1 Hncolumns Hne' Hkeys total limit rows_small n
        (collect_start batches, _) (ps1, m1) start_budget (start_collecting np)).
    + intros i pc l Hi Hrun.
      destruct (collecting_reachable ncolumns keys.*1 Hncolumns Hne' Hkeys total limit rows_small (collect_start batches, _) (ps1, m1)
        start_budget (start_collecting np)) as [Hc Hlen]; [apply rtc_nsteps; by exists n|].
      destruct (collecting_live ncolumns keys.*1 Hncolumns Hne' Hkeys total limit rows_small (ps1, m1) i pc l) as (x & m' & Ex); [|done..|by eauto].
      pose proof start_budget as Hbud. unfold budget_ok in *. by rewrite Hlen.
  - intros ps1 m1 Hm1 Hall Hsp. destruct (collected_setup np ps1 m1 Hm1 Hall Hsp) as (m2 & pub & k & Es & Htab & Hb & Ht & Hn & Hd & _).
    exists m2. split; [done|]. intros ls n ps2 m3 Hls Hm3 rows.
    destruct (building_steps ncolumns keys m2 pub k Htab Hkeys _ n (build_start ls m2, m2) (ps2, m3)
      (build_start_building m2 pub k ls Htab Hb Hn Hd)) as [Hbl Hlen]; [unfold build_start; cbn [fst]; rewrite length_fmap; lia|done|].
    cbn [fst snd] in *. split.
    + pose proof (building_nonneg ncolumns keys m2 pub k Htab Hkeys _ _ _ Hbl) as H0'.
      rewrite (build_bound_rows m2 pub k _ Htab Ht) in H0'. subst rows. lia.
    + intros i pc l Hi Hnb. destruct (building_next ncolumns keys m2 pub k Htab Hkeys _ ps2 m3 i pc l Hbl) as (pc' & m' & Eb & _);
        [|done..|by eauto]. rewrite Hlen. unfold build_start. rewrite length_fmap. lia.
Qed.

(** C27. Shared memory stays within the budget of all participants: the live
    chunks at any point of any interleaving of the first phase, and the chunks,
    the directory and the bucket array of the finished table, if there is a
    chunk. *)
Theorem shared_memory_bound planned :
  planned ≤ 1 →
  ∃ shared, initialize_shared_state planned memory_limit (zlength batches - 1) = Ok shared ∧
  ∀ ps1 m1, rtc (collect_moves ncolumns keys.*1) (collect_start batches, mkShm shared ∅) (ps1, m1) →
    chunk_bytes ncolumns * Z.of_nat (size (sm_heap m1)) ≤ memory_limit * zlength batches ∧
    (Forall (λ x, x.1 = AtCollected) ps1 → ps_spilled (sm_shared m1) = false →
     ∃ m2, setup_shared_hash m1 = Ok m2 ∧
       (0 < ps_nchunks (sm_shared m2) →
        table_bytes ncolumns (ps_nchunks (sm_shared m2)) (ps_nbuckets (sm_shared m2)) ≤ memory_limit * zlength batches)).
Proof using All.
  intros Hp. destruct (parallel_start planned Hp) as (np & E). eexists; split; [exact E|].
  assert (Hne' : keys.*1 ≠ []) by (intros En; by apply fmap_nil_inv in En). intros ps1 m1 Hm1. split.
  - destruct (collecting_reachable ncolumns keys.*1 Hncolumns Hne' Hkeys total limit rows_small (collect_start batches, _) (ps1, m1)
      start_budget (start_collecting np) Hm1) as [Hc _]. destruct (co_rows _ _ _ _ _ _ Hc) as (pub & rows & Hs & _).
    cbn [fst snd] in *. pose proof (sr_limit _ _ _ _ _ _ _ Hs) as Hl. rewrite (co_limit _ _ _ _ _ _ Hc) in Hl.
    assert (Hsize : size (sm_heap m1) = length (pub ++ [] ++ (ps1 ≫= λ x, owned x.2))).
    { rewrite <- size_dom. rewrite <- (size_list_to_set (C:=gset Z)) by apply (sr_nodup _ _ _ _ _ _ _ Hs). f_equal.
      apply set_eq. intros p. by rewrite elem_of_dom, elem_of_list_to_set, (sr_dom _ _ _ _ _ _ _ Hs). }
    rewrite Hsize. etrans; [|exact Hl]. apply Z.mul_le_mono_nonneg_r; [lia|]. unfold reserved_bytes. lia.
  - intros Hall Hsp. destruct (collected_setup np ps1 m1 Hm1 Hall Hsp) as (m2 & pub & k & Es & _ & _ & _ & _ & _ & Hmem).
    by exists m2.
Qed.
End parallel.
End join.

(** ** Schedules *)

Section run.
Context `{PgCore} `{DsaArea}.

(** Executions of the participants a schedule names. *)
Definition collect_turn (ncolumns : Z) (inner_keys : list Z) (i : nat) (c : list (collect_pc * ParallelHashJoinLocal) * SharedMemory)
    : res (list (collect_pc * ParallelHashJoinLocal) * SharedMemory) :=
  match c.1 !! i with
  | Some (pc, l) =>
      _ ← assert_ (running pc);
      '(pc, l, m) ← collect_step ncolumns inner_keys pc l c.2;
      Ok (<[i := (pc, l)]> c.1, m)
  | None => Undefined
  end.

Definition build_turn (inner_keys : list Z) (i : nat) (c : list (build_pc * ParallelHashJoinLocal) * SharedMemory)
    : res (list (build_pc * ParallelHashJoinLocal) * SharedMemory) :=
  match c.1 !! i with
  | Some (pc, l) =>
      _ ← assert_ (negb (bool_decide (pc = AtBuilt)));
      '(pc, m) ← build_step inner_keys l pc c.2;
      Ok (<[i := (pc, l)]> c.1, m)
  | None => Undefined
  end.

Lemma collect_run_moves ncolumns inner_keys schedule : ∀ c c',
  foldM (collect_turn ncolumns inner_keys) schedule c = Ok c' → rtc (collect_moves ncolumns inner_keys) c c'.
Proof.
  induction schedule as [|i schedule IH]; intros [ps m] c' E; cbn [foldM] in E; [by injection E as ->|].
  apply bind_ok_inv in E as (c1 & Et & E). eapply rtc_l; [|by apply IH]. unfold collect_turn in Et. cbn [fst snd] in Et.
  destruct (ps !! i) as [[pc l]|] eqn:Ei; [|done]. destruct (running pc) eqn:Er; [|done]. cbn [assert_] in Et. rewrite bind_Ok in Et.
  apply bind_ok_inv in Et as ([[pc' l'] m'] & Es & Et). injection Et as <-. by eapply collect_move.
Qed.

Lemma build_run_moves keys schedule : ∀ c c',
  foldM (build_turn keys.*1) schedule c = Ok c' → rtc (build_moves keys) c c'.
Proof.
  induction schedule as [|i schedule IH]; intros [ps m] c' E; cbn [foldM] in E; [by injection E as ->|].
  apply bind_ok_inv in E as (c1 & Et & E). eapply rtc_l; [|by apply IH]. unfold build_turn in Et. cbn [fst snd] in Et.
  destruct (ps !! i) as [[pc l]|] eqn:Ei; [|done]. case_bool_decide as Er; [done|]. cbn [negb assert_] in Et. rewrite bind_Ok in Et.
  apply bind_ok_inv in Et as ([pc' m'] & Es & Et). injection Et as <-. by eapply build_move.
Qed.

(** Two participants taking turns, and the rows a lookup finds. *)
Definition sample_parallel (batches : list (list JoinInput)) (collecting building : list nat) (columns : list InputColumn)
    (vs : list Z) (row : Z) : res (bool * bool * list Z * list (Z * bool)) :=
  shared ← initialize_shared_state 1 1000000 (zlength batches - 1);
  '(ps, m) ← foldM (collect_turn 2 [0]) collecting (collect_start batches, mkShm shared ∅);
  m ← setup_shared_hash m;
  '(ps, m') ← foldM (build_turn [0]) building (build_start (ps.*2) m, m);
  let l := prepare_ready (map_shared_hash new_local m) m' in
  let store := mkStore [] [] [] 0 0 0 0 0 false in
  unique ← parallel_hash_join_build_is_unique l store false;
  head ← parallel_hash_join_find_head l m' store [(0, 0)] columns (keys_hash vs) row;
  found ← shared_matches 10 l m' store [(0, 0)] columns row head;
  payload ← foldM (λ x acc, v ← parallel_hash_join_build_value l m' store 1 x; Ok (acc ++ [v])) found [];
  Ok (bool_decide (Forall (λ x, x.1 = AtBuilt) ps), unique, found, payload).
End run.

(** Both participants read a batch with the keys 5, 7 and 5; their steps
    alternate.  A lookup of 5 finds four rows, two of each chunk. *)
Definition sample_inputs : list (list JoinInput) := [[sample_build_batch]; [sample_build_batch]].

Example sample_parallel_lookup :
  sample_parallel (H := reference_core) sample_inputs (concat (replicate 6 [0; 1]%nat)) (concat (replicate 16 [0; 1]%nat) ++ [1; 1; 1]%nat)
    [mkInput true 15 (PG_BATCH_INT4_DATUM [5] [false])] [5] 0 =
  Ok (true, false, [1026; 2; 1024; 0], [(53, false); (53, false); (50, false); (50, false)]).
Proof. vm_compute. reflexivity. Qed.

Lemma sample_inputs_ok : Forall (Forall (join_input_ok 2)) sample_inputs.
Proof.
  assert (Forall (join_input_ok 2) [sample_build_batch]) by (apply Forall_singleton, sample_build_batch_ok).
  do 2 (apply Forall_cons_2; [done|]). apply Forall_nil_2.
Qed.

Lemma shared_build_witness :
  ∃ shared, initialize_shared_state 1 1000000 (zlength sample_inputs - 1) = Ok shared ∧
  ∀ ps1 m1, rtc (collect_moves (H := reference_core) 2 [0]) (collect_start sample_inputs, mkShm shared ∅) (ps1, m1) →
    Forall (λ x, x.1 = AtCollected) ps1 → ps_spilled (sm_shared m1) = false →
  ∃ m2, setup_shared_hash (H := reference_core) m1 = Ok m2 ∧
  ∀ ls ps2 m3, 0 < zlength ls ≤ 2 ^ 20 → rtc (build_moves [(0, 0)]) (build_start ls m2, m2) (ps2, m3) →
    Forall (λ x, x.1 = AtBuilt) ps2 →
  ∀ l store, lo_local_build l = false →
    answers (H := reference_core) 2 [(0, 0)] (parallel_rows (H := reference_core) [0] sample_inputs)
      (prepare_ready (map_shared_hash l m2) m3) m3 store.
Proof.
  apply (shared_build_spec (H := reference_core) 2 [(0, 0)] sample_inputs 1000000); try done.
  - by apply Forall_singleton.
  - apply sample_inputs_ok.
  - exact reference_reversible.
Defined.

Lemma parallel_progress_witness :
  ∃ shared, initialize_shared_state 1 1000000 (zlength sample_inputs - 1) = Ok shared ∧
  (∀ n ps1 m1, nsteps (collect_moves (H := reference_core) 2 [0]) n (collect_start sample_inputs, mkShm shared ∅) (ps1, m1) →
    Z.of_nat n ≤ collect_costs (collect_start sample_inputs) ∧
    ∀ i pc l, ps1 !! i = Some (pc, l) → running pc = true → ∃ r, collect_step (H := reference_core) 2 [0] pc l m1 = Ok r) ∧
  ∀ ps1 m1, rtc (collect_moves (H := reference_core) 2 [0]) (collect_start sample_inputs, mkShm shared ∅) (ps1, m1) →
    Forall (λ x, x.1 = AtCollected) ps1 → ps_spilled (sm_shared m1) = false →
  ∃ m2, setup_shared_hash (H := reference_core) m1 = Ok m2 ∧
  ∀ ls n ps2 m3, 0 < zlength ls ≤ 2 ^ 20 → nsteps (build_moves [(0, 0)]) n (build_start ls m2, m2) (ps2, m3) →
    let rows := zlength (parallel_rows (H := reference_core) [0] sample_inputs) in
    Z.of_nat n ≤ (rows + 6 + 2 * zlength ls) * rows + 5 * ps_nchunks (sm_shared m2) + zlength ls ∧
    ∀ i pc l, ps2 !! i = Some (pc, l) → pc ≠ AtBuilt → ∃ r, build_step [0] l pc m3 = Ok r.
Proof.
  apply (parallel_progress (H := reference_core) 2 [(0, 0)] sample_inputs 1000000); try done.
  - by apply Forall_singleton.
  - apply sample_inputs_ok.
Defined.

Lemma shared_memory_witness :
  ∃ shared, initialize_shared_state 1 1000000 (zlength sample_inputs - 1) = Ok shared ∧
  ∀ ps1 m1, rtc (collect_moves (H := reference_core) 2 [0]) (collect_start sample_inputs, mkShm shared ∅) (ps1, m1) →
    chunk_bytes 2 * Z.of_nat (size (sm_heap m1)) ≤ 1000000 * zlength sample_inputs ∧
    (Forall (λ x, x.1 = AtCollected) ps1 → ps_spilled (sm_shared m1) = false →
     ∃ m2, setup_shared_hash (H := reference_core) m1 = Ok m2 ∧
       (0 < ps_nchunks (sm_shared m2) →
        table_bytes 2 (ps_nchunks (sm_shared m2)) (ps_nbuckets (sm_shared m2)) ≤ 1000000 * zlength sample_inputs)).
Proof.
  apply (shared_memory_bound (H := reference_core) 2 [(0, 0)] sample_inputs 1000000); try done.
  - by apply Forall_singleton.
  - apply sample_inputs_ok.
Defined.
